(* ===== verification/_CoqProject ===== *)
-Q . S2P
Prelude.v
SeqNo.v
LossRing.v
RcvLoss.v
RcvLossFacts.v
SndLoss.v
SndLossFacts.v
LossReport.v
LossReportFacts.v
LossSend.v
LossSendFacts.v
SndBuf.v
SndBufFacts.v
SndPath.v
SndPathFacts.v
SndUList.v
SndUListFacts.v
SndWorker.v
TsbPd.v
RcvBuf.v
RcvBufFacts.v
RcvLiveFacts.v
RcvPath.v
RcvPathFacts.v
AckWindow.v
AckWindowFacts.v
StreamMode.v
Ctr128.v
CfbOfb128.v
Cbc128.v
Wrap128.v
HcMsg.v
HcCtx.v
Cryspr.v
ToyCipher.v
HcSession.v
HaiCrypt.v
HcFacts.v
HcStream.v
HcCreate.v
Bitmap.v
PQueue.v
Stack.v
RunTask.v
SrtCC.v
StdMap.v
SrtNet.v
SrtNetThreads.v
TsBuffer.v
TsPacket.v
TsMux.v
TsMuxFacts.v
TsDemux.v
TsDemuxFacts.v
ModesSpec.v
HaiCryptSpec.v
ContainersSpec.v
EndpointSpec.v
MpegTsSpec.v
LossSpec.v
SndSpec.v
RcvSpec.v
SchedSpec.v
