(* ===== verification/Prelude.v ===== *)
(** * xrtc: a verification library

    xrtc sends encrypted media over SRT.  Its own code, under src/, is an SRT
    endpoint (src/srt_net), a congestion controller driven by timed tasks
    (src/srt_net/srt_cc.cpp, src/base/run_task.cpp) and an MPEG-TS muxer and
    demuxer (src/simple, src/3rd/mpegts); the loss of packets is repaired by
    SRT (src/3rd/srt/srtcore); the encryption of the stream is
    HaiCrypt (src/3rd/srt/haicrypt), which uses the block cipher modes and the
    key wrap of OpenSSL (src/3rd/openssl/crypto/modes).  This library models
    these parts, and the data structures of OpenSSL's DTLS and stacks, as
    executable definitions and proves what makes them correct.

    ** The files

    - [Prelude]: machine-width integers, bytes and their values, [memcpy],
      lemmas and tactics shared by all ([len], the hint databases).

    The modes of operation (crypto/modes):
    - [StreamMode]: the loop structure that CTR, OFB and CFB share (drain a
      started block, whole blocks, tail) in the three builds (words, strict
      alignment, small footprint), as a class [StreamModeOk] and one proof
      that all builds compute the byte-wise loop.
    - [Ctr128]: ctr128.c, both entry points.  [CfbOfb128]: cfb128.c, ofb128.c.
      [Cbc128]: cbc128.c, out of place and in place.  [Wrap128]: wrap128.c.
      A block cipher is a function [block] with the class [Block128]; an
      inverse pair has the class [BlockInverse].

    HaiCrypt (src/3rd/srt/haicrypt):
    - [HcMsg]: hcrypt_msg.h, hcrypt_xpt_srt.c.  [HcCtx]: hcrypt_ctx.h.
    - [Cryspr]: cryspr.c and cryspr-openssl.c over the class [AesLib] (what is
      called of AES and PBKDF2), whose laws are [AesLibOk].  [ToyCipher] is an
      instance, which shows that the laws can hold and runs the witnesses.
    - [HcSession]: the session, a state and error monad over it, hcrypt_sa.c
      and hcrypt_ctx_tx.c.  [HaiCrypt]: hcrypt_ctx_rx.c, hcrypt_tx.c,
      hcrypt_rx.c and hcrypt.c.  In the monad [None] is a failed assertion or
      undefined behaviour, and the value is the C return value.
    - [HcFacts], [HcStream], [HcCreate]: the lemmas.  [HcFacts]: what a keying
      material message carries and installs; [HcStream]: the invariant of a
      sender and a receiver through the phases of a key; [HcCreate]: creation
      establishes it.

    Containers of OpenSSL:
    - [Bitmap]: the replay window of DTLS (ssl/record/dtls1_bitmap.c).
    - [PQueue]: the queue of DTLS records (ssl/pqueue.c), a linked list in a
      heap that maps addresses to items.
    - [Stack]: stacks (crypto/stack/stack.c) with the binary search they use.

    The endpoint:
    - [RunTask]: src/base/run_task.cpp.  [SrtCC]: src/srt_net/srt_cc.cpp.
    - [SrtNet]: src/srt_net/srt_net.cpp as programs that call SRT, the
      resolver, the threads and the callbacks; a program runs on a list of
      answers.  [SrtNetThreads]: the server's threads and [stop] as a step
      relation with one step per critical section; a log of what the callbacks
      were given.

    Loss recovery of SRT (src/3rd/srt/srtcore):
    - [SeqNo]: the sequence numbers, CSeqNo of common.h, and their relation to
      the unbounded integers that a stream counts with ([seqno]).
    - [LossRing]: ranges of numbers stored as linked nodes in an array that is
      used as a ring; what both lists share.
    - [RcvLoss], [SndLoss]: the loss lists of list.cpp; [RcvLossFacts],
      [SndLossFacts]: what each operation does to the set of numbers a list
      holds ([rcv_holds], [snd_holds]).
    - [LossReport]: what core.cpp does at the receiver - detection, late packets,
      belated and periodic reports, the number of an ACK; [LossReportFacts].
      [LossSend]: reports and timeouts at the sender; [LossSendFacts].
    - [SndBuf]: CSndBuffer of buffer.cpp, a circular list of blocks in a heap, with
      the message number and the flags as bits; [SndBufFacts]: a buffer is a queue of
      packets of which the first ones were sent ([buf_pos]), and what each operation
      does to it.
    - [SndPath]: the data path of core.cpp at the sender - sendmsg2, packLostData,
      packData, processCtrlAck - over the buffer and the loss list; one step per call
      ([path_step]).  [SndPathFacts]: the invariant [path_ok] over a queue of numbered
      packets, with a specification of every call on that queue.
    - [SndUList]: CSndUList of queue.cpp, the heap of the sockets that have something to
      send, over a store of their nodes; [SndUListFacts]: the array as a list, the order
      as inequalities between positions, and sequences of calls against a map from
      sockets to times ([ul_agrees]).
    - [SndWorker]: a round of CSndQueue::worker of queue.cpp over [SndUList] and the paths
      of the sockets.
    - [TsbPd]: tsbpd_time.cpp and the tracer of the drift of utilities.h: when a packet
      is due.
    - [RcvBuf]: CUnitQueue of queue.cpp and CRcvBuffer of buffer.cpp, a ring of pointers
      to units, in which the units are a store and a pointer is an index; [None] is a
      null pointer that is read through or an index outside of an array.  [RcvBufFacts]:
      the cells of the ring, from the first position to be read on, acknowledged or not
      ([rb_holds]), and what the operations do to them.  [RcvLiveFacts]: the same when
      packets are delivered by their time, for sequences of calls ([ring_run]) against a
      specification on two lists of cells ([ring_spec]).
    - [RcvPath]: the data path of core.cpp at the receiver - processData from the buffer
      on, ackDataUpTo, sendCtrlAck, processCtrlDropReq, a round of tsbpd - over the
      buffer and the loss list; one step per call ([rcv_step]).  [RcvPathFacts]: the
      cells hold the packets of a stream, each at its number, and the loss list what is
      missing ([rpath_ok]); what the stream mode and the message mode have read
      ([stream_at], [msgs_at]).
    - [AckWindow]: CACKWindow of window.cpp, processCtrlAckAck, and the receiver together
      with its window ([win_step]); [AckWindowFacts]: the window as a queue of records, and
      what ACKACKs with any numbers can tell the receiver.

    MPEG-TS (src/3rd/mpegts, src/simple):
    - [TsBuffer]: simple_buffer.cpp, common.cpp, crc.cpp, with the facts on
      bit fields, time stamps and the crc.  [TsPacket]: the headers of
      ts_packet.cpp, as bytes and back.
    - [TsMux]: mpegts_muxer.cpp and simple_mpegts_muxer.cpp.  [TsMuxFacts]:
      every packet is a header, an adaptation field and a part of the PES
      packet; [ts_parse] reads packets as the standard lays them out.
    - [TsDemux]: mpegts_demuxer.cpp.  [TsDemuxFacts]: what the demuxer makes of
      the muxer's packets, wherever the stream is cut.
    - [StdMap]: std::map with integer keys, in the order of its keys.

    The properties:
    - [ModesSpec]: CTR and OFB are exclusive ors with a key stream; CFB, CBC
      and the key wraps invert; the builds and entry points agree; only
      wrapped keys unwrap.
    - [HaiCryptSpec]: a sender and a receiver created with one passphrase
      carry every packet through all key changes; how long a key is used;
      what messages install, and what refused ones leave; the bounds of the output buffer.
    - [ContainersSpec]: the bitmap refines a window over a set, queues are
      sorted, stacks refine lists.
    - [EndpointSpec]: when tasks run, what the controller holds, every outcome
      of starting and stopping, and what the callbacks see in every
      interleaving, whatever numbers the library gives to the sockets.
    - [MpegTsSpec]: frames that go through the muxer come out of the demuxer;
      the form of packets and tables; the crc against its polynomial; what is
      lost: bit 32 of time stamps, long frames, audio without video.
    - [LossSpec]: the loss lists refine sorted sets; the receiver knows what is
      missing in any order of arrival, acknowledges up to the first missing
      number and reports gaps when it says, with a tolerance in its bounds; a report reaches the sender's list
      and is drained in order; what goes wrong at the wrap.
    - [SndSpec]: the buffer of the sender refines a queue; messages are cut and put
      together again; the sender keeps its invariant through any sequence of calls, a
      packet is sent again as it was sent first, an ACK releases what is before it;
      what happens to an ACK of what was never sent.
    - [RcvSpec]: for any sequence of arrivals, acknowledgements and reads the stream is
      read in order and once, and so are whole messages as [SndBuf] cut them; a full
      acknowledgement leaves nothing that arrived behind (these without the time based
      delivery); with it, the buffer refines two lists of cells and packets are read in
      order, when they are due; what [SndPath] sends for the first time is what
      the receiver takes; a packet is due at its own time through the wraps of its stamp;
      corners at which the code loses data.
    - [SchedSpec]: the heap refines a map from sockets to times, pops are the earliest
      unless a removal broke the order, and no wake-up is lost; the sending thread serves
      the socket that is due first and puts it back at the pace of the congestion
      controller; the window refines a queue, and the receiver is right
      whatever ACKACKs come back.

    ** Conventions and bounds

    A byte is a [Z] in [0, 256) and a buffer a list of them; [u8], [u32],
    [u64], [i32] and [i64] write the wrap-around out.  What the code takes from
    outside (AES, PBKDF2, qsort, malloc, the clock, the network) is an
    argument or a class.  Fuel: the loops of the modes take the number of
    bytes left, which each round lowers; the growth of a stack takes 64 steps
    (it reaches [INT_MAX] from 4 in fewer than 52); the loops of a queue take
    more fuel than the queue has items; the muxer takes a round for each byte of
    the frame that is left, and a packet takes one at least; the demuxer takes
    a round for each byte of the buffer, and a packet takes 188.  A frame has
    less than 2^31 bytes, and a muxer at most 33 streams (with more, the table
    does not fit a packet and the code asks for a vector of negative size).
    A loss list has at most 2^29 nodes; its loops take as many steps as it has
    nodes and one or two more, since a node is not visited twice; numbers that
    are compared are less than 2^30 - 1 apart.  The loops over the ring of the receiver
    take one step more than it has cells, the search for a unit one more than there are
    units; the loops of the heap of sockets and of the window of ACKs take as many steps
    as their arrays have cells, and one more for the window; a stream has at most 2^29
    packets, and the units belong to one connection.  The theorems state that the result is
    there, not only what it is when it is.

    ** Not modelled

    The rest of the SRT protocol engine (handshakes, the queues of received packets,
    groups, the packet filter and the API of srtcore; files sent from a stream, and the
    averages in floating point of the buffers; the waits of the calls that read and of the
    threads; the windows of window.h that measure speeds), the AES core, hashes, big
    numbers and TLS of OpenSSL, GCM and the other modes HaiCrypt does not use, the
    standalone transport of HaiCrypt and its other providers: vendored code
    outside the path of xrtc's data, or seen through an interface.  The graphics
    and WebRTC plugins, the Qt application and the logger: calls of libraries
    that are not in the repository, with no state of their own. *)

From stdpp Require Export base numbers list gmap.
From Stdlib Require Export ZArith Lia Bool.
From Stdlib Require Import ZifyBool.

Open Scope Z_scope.

(** ** Machine-width integers

    A [w]-bit unsigned C integer is a [Z] in [[0, 2^w)]; the wrap-around of
    an assignment is written out with these functions. *)
Definition u8 (x : Z) : Z := x mod 2 ^ 8.
Definition u32 (x : Z) : Z := x mod 2 ^ 32.
Definition u64 (x : Z) : Z := x mod 2 ^ 64.
(** Conversion of a wrapped value to a two's complement [w]-bit integer. *)
Definition i32 (x : Z) : Z := (x + 2 ^ 31) mod 2 ^ 32 - 2 ^ 31.
Definition i64 (x : Z) : Z := (x + 2 ^ 63) mod 2 ^ 64 - 2 ^ 63.

(** ** Byte arrays *)
Abbreviation bytes := (list Z).

Definition is_byte (x : Z) : Prop := 0 <= x < 2 ^ 8.
Definition are_bytes (b : bytes) : Prop := Forall is_byte b.

#[export] Instance is_byte_dec x : Decision (is_byte x).
Proof. unfold is_byte. apply _. Defined.

(** [memcpy(&dst[ofs], src, |src|)] *)
Definition memcpy (dst : bytes) (ofs : nat) (src : bytes) : bytes :=
  take ofs dst ++ src ++ drop (ofs + length src) dst.

(** Byte-wise exclusive or of two arrays. *)
Definition xor_bytes (a b : bytes) : bytes := zip_with Z.lxor a b.

(** Big-endian and little-endian values of a byte array. *)
Fixpoint le_val (b : bytes) : Z :=
  match b with
  | [] => 0
  | x :: b' => x + 2 ^ 8 * le_val b'
  end.
Definition be_val (b : bytes) : Z := le_val (reverse b).

Fixpoint le_bytes (n : nat) (z : Z) : bytes :=
  match n with
  | O => []
  | S n' => z mod 2 ^ 8 :: le_bytes n' (z / 2 ^ 8)
  end.
Definition be_bytes (n : nat) (z : Z) : bytes := reverse (le_bytes n z).

(** ** Automation *)
Create HintDb bytes discriminated.
Create Rewrite HintDb len.
#[export] Hint Rewrite @length_app @length_take @length_drop @length_insert
  @length_zip_with @length_replicate @length_reverse @length_cons @length_nil : len.

(** Normalise every [length] and hand the goal to [lia]. *)
Ltac len := autorewrite with len in *; try lia.

(** Linear arithmetic with divisions and remainders by powers of two. *)
Ltac pow2 :=
  repeat match goal with
  | |- context [2 ^ ?k] => let v := eval vm_compute in (2 ^ k) in change (2 ^ k) with v
  | H : context [2 ^ ?k] |- _ => let v := eval vm_compute in (2 ^ k) in change (2 ^ k) with v in H
  end.
Ltac divlia := pow2; Z.to_euclidean_division_equations; lia.

#[global] Arguments Nat.modulo : simpl never.
#[global] Arguments Nat.div : simpl never.
#[global] Arguments Z.modulo : simpl never.
#[global] Arguments Z.div : simpl never.
#[global] Arguments Z.pow : simpl never.
#[global] Arguments Z.mul : simpl never.

(** ** Words *)
Lemma u8_range x : 0 <= u8 x < 2 ^ 8.
Proof. apply Z.mod_pos_bound. lia. Qed.
Lemma u32_range x : 0 <= u32 x < 2 ^ 32.
Proof. apply Z.mod_pos_bound. lia. Qed.
Lemma u64_range x : 0 <= u64 x < 2 ^ 64.
Proof. apply Z.mod_pos_bound. lia. Qed.
Lemma u8_small x : 0 <= x < 2 ^ 8 → u8 x = x.
Proof. apply Z.mod_small. Qed.
Lemma u32_small x : 0 <= x < 2 ^ 32 → u32 x = x.
Proof. apply Z.mod_small. Qed.
Lemma u64_small x : 0 <= x < 2 ^ 64 → u64 x = x.
Proof. apply Z.mod_small. Qed.
Lemma u8_is_byte x : is_byte (u8 x).
Proof. apply u8_range. Qed.
#[export] Hint Resolve u8_is_byte : bytes.

(** Bit-wise equality of integers. *)
Lemma lxor_byte x y : is_byte x → is_byte y → is_byte (Z.lxor x y).
Proof.
  intros [??] [??]. split.
  - apply Z.lxor_nonneg. lia.
  - destruct (decide (Z.lxor x y = 0)) as [->|]; [lia|].
    apply Z.log2_lt_pow2.
    + assert (0 <= Z.lxor x y) by (apply Z.lxor_nonneg; lia). lia.
    + eapply Z.le_lt_trans; [apply Z.log2_lxor; lia|].
      apply Z.max_lub_lt; (destruct (decide (0 < x)); destruct (decide (0 < y));
        try (apply Z.log2_lt_pow2; lia); rewrite Z.log2_nonpos; lia).
Qed.
#[export] Hint Resolve lxor_byte : bytes.

Lemma lxor_cancel_r x k : Z.lxor (Z.lxor x k) k = x.
Proof. by rewrite Z.lxor_assoc, Z.lxor_nilpotent, Z.lxor_0_r. Qed.

Lemma lxor_mod_pow2 x y k : 0 <= k → Z.lxor x y mod 2 ^ k = Z.lxor (x mod 2 ^ k) (y mod 2 ^ k).
Proof.
  intros. rewrite <- !Z.land_ones by done. apply Z.bits_inj'. intros i Hi.
  rewrite Z.land_spec, !Z.lxor_spec, !Z.land_spec.
  destruct (Z.testbit x i), (Z.testbit y i), (Z.testbit (Z.ones k) i); done.
Qed.
Lemma lxor_div_pow2 x y k : 0 <= k → Z.lxor x y / 2 ^ k = Z.lxor (x / 2 ^ k) (y / 2 ^ k).
Proof. intros. by rewrite <- !Z.shiftr_div_pow2, Z.shiftr_lxor by done. Qed.

(** ** Byte arrays *)
Lemma are_bytes_nil : are_bytes [].
Proof. constructor. Qed.
Lemma are_bytes_cons x b : are_bytes (x :: b) ↔ is_byte x ∧ are_bytes b.
Proof. apply Forall_cons. Qed.
Lemma are_bytes_app a b : are_bytes (a ++ b) ↔ are_bytes a ∧ are_bytes b.
Proof. apply Forall_app. Qed.
Lemma are_bytes_take n b : are_bytes b → are_bytes (take n b).
Proof. apply Forall_take. Qed.
Lemma are_bytes_drop n b : are_bytes b → are_bytes (drop n b).
Proof. apply Forall_drop. Qed.
Lemma are_bytes_reverse b : are_bytes b → are_bytes (reverse b).
Proof. unfold are_bytes. by rewrite Forall_reverse. Qed.
Lemma are_bytes_insert n x b : is_byte x → are_bytes b → are_bytes (<[n:=x]> b).
Proof. intros. by apply Forall_insert. Qed.
Lemma are_bytes_replicate n x : is_byte x → are_bytes (replicate n x).
Proof. intros. by apply Forall_replicate. Qed.
Lemma are_bytes_lookup b i : are_bytes b → is_byte (b !!! i).
Proof.
  intros Hb. destruct (decide (i < length b)%nat) as [Hi|Hi].
  - eapply Forall_lookup_total_1; eauto.
  - rewrite list_lookup_total_alt, lookup_ge_None_2 by lia. simpl. unfold is_byte, inhabitant; simpl. lia.
Qed.
Lemma are_bytes_xor a b : are_bytes a → are_bytes b → are_bytes (xor_bytes a b).
Proof.
  revert b. induction a as [|x a IH]; intros [|y b]; try (constructor; fail).
  rewrite !are_bytes_cons. intros [??] [??]. simpl. apply are_bytes_cons. auto with bytes.
Qed.
Lemma are_bytes_le_bytes n z : are_bytes (le_bytes n z).
Proof. revert z. induction n; intros; simpl; constructor; [apply u8_is_byte|apply IHn]. Qed.
#[export] Hint Resolve are_bytes_nil are_bytes_take are_bytes_drop are_bytes_reverse
  are_bytes_insert are_bytes_replicate are_bytes_lookup are_bytes_xor are_bytes_le_bytes : bytes.

Lemma length_le_bytes n z : length (le_bytes n z) = n.
Proof. revert z. induction n; intros; simpl; auto. Qed.
Lemma length_be_bytes n z : length (be_bytes n z) = n.
Proof. unfold be_bytes. by rewrite length_reverse, length_le_bytes. Qed.
Lemma length_xor_bytes a b : length (xor_bytes a b) = Nat.min (length a) (length b).
Proof. apply length_zip_with. Qed.
Lemma length_memcpy dst ofs src :
  (ofs + length src <= length dst)%nat → length (memcpy dst ofs src) = length dst.
Proof. intros. unfold memcpy. len. Qed.
#[export] Hint Rewrite length_le_bytes length_be_bytes length_xor_bytes : len.

Lemma le_val_bounds b : are_bytes b → 0 <= le_val b < 2 ^ (8 * Z.of_nat (length b)).
Proof.
  induction b as [|x b IH]; [simpl; lia|]. rewrite are_bytes_cons. intros [[??] Hb].
  specialize (IH Hb). simpl le_val. rewrite length_cons.
  replace (8 * Z.of_nat (S (length b))) with (8 + 8 * Z.of_nat (length b)) by lia.
  rewrite Z.pow_add_r by lia. nia.
Qed.

Lemma le_val_cons_mod x b : is_byte x → (x + 2 ^ 8 * le_val b) mod 2 ^ 8 = x.
Proof. intros. rewrite Z.mul_comm, Z.mod_add by lia. by apply Z.mod_small. Qed.
Lemma le_val_cons_div x b : is_byte x → (x + 2 ^ 8 * le_val b) / 2 ^ 8 = le_val b.
Proof. intros. rewrite Z.mul_comm, Z.div_add, Z.div_small by (done || lia). lia. Qed.

Lemma le_bytes_val b : are_bytes b → le_bytes (length b) (le_val b) = b.
Proof.
  induction b as [|x b IH]; [done|]. rewrite are_bytes_cons. intros [Hx Hb].
  simpl le_val. cbn [length le_bytes].
  by rewrite le_val_cons_mod, le_val_cons_div, IH.
Qed.

Lemma le_val_bytes n z : le_val (le_bytes n z) = z mod 2 ^ (8 * Z.of_nat n).
Proof.
  revert z. induction n as [|n IH]; intros z; simpl le_bytes.
  - by rewrite Z.mul_0_r, Z.mod_1_r.
  - simpl le_val. rewrite IH.
    replace (8 * Z.of_nat (S n)) with (8 + 8 * Z.of_nat n) by lia.
    rewrite Z.pow_add_r, Z.rem_mul_r by lia. lia.
Qed.

Lemma be_val_bytes n z : be_val (be_bytes n z) = z mod 2 ^ (8 * Z.of_nat n).
Proof. unfold be_val, be_bytes. by rewrite reverse_involutive, le_val_bytes. Qed.
Lemma be_bytes_val b : are_bytes b → be_bytes (length b) (be_val b) = b.
Proof.
  intros. unfold be_val, be_bytes. rewrite <- (length_reverse b), le_bytes_val by auto with bytes.
  by rewrite reverse_involutive.
Qed.

Lemma le_bytes_lxor n a b :
  length a = n → length b = n → are_bytes a → are_bytes b →
  le_bytes n (Z.lxor (le_val a) (le_val b)) = xor_bytes a b.
Proof.
  revert a b. induction n as [|n IH]; intros [|x a] [|y b]; try done.
  rewrite !are_bytes_cons. simpl length. intros [= ?] [= ?] [??] [??].
  cbn [le_val le_bytes]. rewrite lxor_mod_pow2, lxor_div_pow2 by lia.
  rewrite !le_val_cons_mod, !le_val_cons_div by done. simpl. f_equal. auto.
Qed.

Lemma xor_bytes_app a a' b b' :
  length a = length b → xor_bytes (a ++ a') (b ++ b') = xor_bytes a b ++ xor_bytes a' b'.
Proof. intros. by apply zip_with_app. Qed.

Lemma xor_bytes_comm a b : xor_bytes a b = xor_bytes b a.
Proof.
  revert b. induction a as [|x a IH]; intros [|y b]; try done.
  unfold xor_bytes in *. simpl. by rewrite Z.lxor_comm, IH.
Qed.

Lemma xor_bytes_zero n a : (length a <= n)%nat → xor_bytes a (replicate n 0) = a.
Proof.
  revert n. induction a as [|x a IH]; intros [|n]; simpl; try done; try lia.
  intros. unfold xor_bytes in *. simpl. rewrite Z.lxor_0_r. f_equal. apply IH. lia.
Qed.

Lemma xor_bytes_cancel a k : (length a <= length k)%nat → xor_bytes (xor_bytes a k) k = a.
Proof.
  revert k. induction a as [|x a IH]; intros [|y k]; simpl; try done; try lia.
  intros. unfold xor_bytes in *. simpl. rewrite lxor_cancel_r. f_equal. apply IH. lia.
Qed.

Lemma xor_bytes_take_r n a b : (length a <= n)%nat → xor_bytes a (take n b) = xor_bytes a b.
Proof.
  revert n b. induction a as [|x a IH]; intros [|n] [|y b]; simpl; try done; try lia.
  intros. unfold xor_bytes in *. simpl. f_equal. apply IH. lia.
Qed.

Lemma take_xor_bytes n a b : take n (xor_bytes a b) = xor_bytes (take n a) (take n b).
Proof.
  revert a b. induction n as [|n IH]; intros [|x a] [|y b]; try done.
  unfold xor_bytes in *. simpl. by rewrite IH.
Qed.

(** The C idiom that xors two 16-byte blocks a 64-bit [size_t] at a time. *)
Definition xor_words (a b : bytes) : bytes :=
  le_bytes 8 (Z.lxor (le_val (take 8 a)) (le_val (take 8 b)))
  ++ le_bytes 8 (Z.lxor (le_val (take 8 (drop 8 a))) (le_val (take 8 (drop 8 b)))).

Lemma xor_words_bytes a b :
  length a = 16%nat → length b = 16%nat → are_bytes a → are_bytes b →
  xor_words a b = xor_bytes a b.
Proof.
  intros. unfold xor_words. rewrite !le_bytes_lxor by (auto with bytes; len).
  rewrite <- xor_bytes_app by len.
  by rewrite !(take_ge (drop 8 _)), !take_drop by len.
Qed.

(** ** Big-endian values *)
Lemma le_val_app a b : le_val (a ++ b) = le_val a + 2 ^ (8 * Z.of_nat (length a)) * le_val b.
Proof.
  induction a as [|x a IH]; cbn [app le_val length].
  - rewrite Z.mul_0_r. lia.
  - rewrite IH. replace (8 * Z.of_nat (S (length a))) with (8 + 8 * Z.of_nat (length a)) by lia.
    rewrite Z.pow_add_r by lia. ring.
Qed.
Lemma be_val_app a b : be_val (a ++ b) = be_val a * 2 ^ (8 * Z.of_nat (length b)) + be_val b.
Proof. unfold be_val. rewrite reverse_app, le_val_app, length_reverse. lia. Qed.
Lemma be_val_single x : be_val [x] = x.
Proof. unfold be_val. simpl. lia. Qed.
Lemma be_val_snoc a x : be_val (a ++ [x]) = be_val a * 2 ^ 8 + x.
Proof. rewrite be_val_app, be_val_single. done. Qed.
Lemma be_val_bounds b : are_bytes b → 0 <= be_val b < 2 ^ (8 * Z.of_nat (length b)).
Proof. intros. unfold be_val. rewrite <- length_reverse. apply le_val_bounds. auto with bytes. Qed.
Lemma be_val_inj a b :
  length a = length b → are_bytes a → are_bytes b → be_val a = be_val b → a = b.
Proof.
  intros Hl Ha Hb Heq. rewrite <- (be_bytes_val a), <- (be_bytes_val b) by done. by rewrite Hl, Heq.
Qed.
Lemma are_bytes_be_bytes n z : are_bytes (be_bytes n z).
Proof. unfold be_bytes. auto with bytes. Qed.
#[export] Hint Resolve are_bytes_be_bytes : bytes.

(** ** memcpy *)
Lemma memcpy_cons dst ofs x src :
  (ofs < length dst)%nat → memcpy (<[ofs := x]> dst) (S ofs) src = memcpy dst ofs (x :: src).
Proof.
  intros. unfold memcpy. rewrite drop_insert_lt by lia.
  erewrite take_S_r by (apply list_lookup_insert_eq; lia).
  rewrite take_insert_ge, <- app_assoc by lia. simpl. do 3 f_equal. f_equal. lia.
Qed.
Lemma memcpy_full dst src : length src = length dst → memcpy dst 0 src = src.
Proof. intros. unfold memcpy. simpl. rewrite drop_ge by lia. apply app_nil_r. Qed.
Lemma are_bytes_memcpy dst ofs src : are_bytes dst → are_bytes src → are_bytes (memcpy dst ofs src).
Proof. intros. unfold memcpy. rewrite !are_bytes_app. auto with bytes. Qed.
#[export] Hint Resolve are_bytes_memcpy : bytes.
Lemma memcpy_read dst ofs src :
  (ofs + length src <= length dst)%nat → take (length src) (drop ofs (memcpy dst ofs src)) = src.
Proof.
  intros. unfold memcpy. rewrite drop_app_length' by len. by rewrite take_app_length.
Qed.
Lemma memcpy_read_app dst src n : n = length src → take n (memcpy dst 0 src) = src.
Proof. intros ->. unfold memcpy. simpl. by rewrite take_app_length. Qed.

(** ** 32-bit big-endian fields written and read byte by byte *)
Lemma land_255 z : Z.land z 0xff = z mod 2 ^ 8.
Proof. exact (Z.land_ones z 8 ltac:(lia)). Qed.

Lemma be32_bytes z :
  [Z.land (Z.shiftr z 24) 0xff; Z.land (Z.shiftr z 16) 0xff; Z.land (Z.shiftr z 8) 0xff;
   Z.land z 0xff] = be_bytes 4 z.
Proof.
  rewrite !land_255, !Z.shiftr_div_pow2 by lia.
  change (be_bytes 4 z) with
    [z / 2 ^ 8 / 2 ^ 8 / 2 ^ 8 mod 2 ^ 8; z / 2 ^ 8 / 2 ^ 8 mod 2 ^ 8; z / 2 ^ 8 mod 2 ^ 8; z mod 2 ^ 8].
  by rewrite !Z.div_div by lia.
Qed.

(** Disjoint bit fields: or is addition. *)
Lemma lor_shiftl_add x y k : 0 <= k → 0 <= y < 2 ^ k → Z.lor (Z.shiftl x k) y = x * 2 ^ k + y.
Proof.
  intros Hk Hy. assert (Z.land (Z.shiftl x k) y = 0).
  { apply Z.bits_inj'. intros i Hi. rewrite Z.land_spec, Z.bits_0.
    destruct (decide (i < k)).
    - by rewrite Z.shiftl_spec_low by lia.
    - rewrite <- (Z.mod_small y (2 ^ k)) by done. rewrite Z.mod_pow2_bits_high by lia.
      apply andb_false_r. }
  rewrite <- Z.shiftl_mul_pow2 by done. symmetry. rewrite Z.add_nocarry_lxor.
  - by apply Z.lxor_lor.
  - done.
Qed.

Lemma be32_lor a b c d :
  is_byte a → is_byte b → is_byte c → is_byte d →
  Z.lor (Z.lor (Z.lor (Z.shiftl a 24) (Z.shiftl b 16)) (Z.shiftl c 8)) d = be_val [a; b; c; d].
Proof.
  unfold is_byte. intros.
  rewrite <- !Z.lor_assoc. rewrite <- (Z.shiftl_0_r d) at 1.
  rewrite (Z.shiftl_0_r d), (lor_shiftl_add c d), (lor_shiftl_add b), (lor_shiftl_add a) by lia.
  change [a; b; c; d] with ([a; b; c] ++ [d]). rewrite be_val_snoc.
  change [a; b; c] with ([a; b] ++ [c]). rewrite be_val_snoc.
  change [a; b] with ([a] ++ [b]). rewrite be_val_snoc, be_val_single. lia.
Qed.

Lemma be_val_drop n b :
  are_bytes b → be_val (drop n b) = be_val b mod 2 ^ (8 * Z.of_nat (length b - n)).
Proof.
  intros Hb. rewrite <- (take_drop n b) at 2.
  rewrite be_val_app, length_drop, Z.add_comm, Z.mod_add by (apply Z.pow_nonzero; lia).
  symmetry. apply Z.mod_small. rewrite <- length_drop. apply be_val_bounds. auto with bytes.
Qed.

Lemma mod_add_1 x m : 0 < m → x mod m + 1 < m → (x + 1) mod m = x mod m + 1.
Proof.
  intros. rewrite <- Zplus_mod_idemp_l. apply Z.mod_small. pose proof (Z.mod_pos_bound x m). lia.
Qed.

(** [x & (1 << sh)] tests a bit. *)
Lemma land_bit x sh : 0 <= sh → (Z.land x (Z.shiftl 1 sh) =? 0) = negb (Z.testbit x sh).
Proof.
  intros Hsh. rewrite Z.shiftl_1_l. destruct (Z.testbit x sh) eqn:Ht; simpl.
  - apply Z.eqb_neq. intros H0. apply (f_equal (λ z, Z.testbit z sh)) in H0.
    rewrite Z.land_spec, Ht, Z.pow2_bits_true, Z.bits_0 in H0 by lia. done.
  - apply Z.eqb_eq, Z.bits_inj'. intros i Hi. rewrite Z.land_spec, Z.bits_0.
    destruct (decide (i = sh)) as [->|]; [by rewrite Ht|].
    rewrite Z.pow2_bits_false by lia. apply andb_false_r.
Qed.

Lemma lor_lt_pow2 w x y :
  0 <= w → 0 <= x < 2 ^ w → 0 <= y < 2 ^ w → 0 <= Z.lor x y < 2 ^ w.
Proof.
  intros Hw Hx Hy. assert (Hnn : 0 <= Z.lor x y) by (apply Z.lor_nonneg; lia).
  split; [done|]. rewrite <- (Z.mod_small x (2 ^ w)), <- (Z.mod_small y (2 ^ w)) by done.
  rewrite <- !Z.land_ones, <- Z.land_lor_distr_l, Z.land_ones by done.
  apply Z.mod_pos_bound. lia.
Qed.
