(* ===== verification/SeqNo.v ===== *)
(** * Sequence numbers of SRT: CSeqNo (srtcore/common.h)

    A sequence number is a 31-bit integer, and the numbers of a stream wrap
    around.  The operations work on the [int32_t] of a number; the lemmas relate
    them to the arithmetic of the unbounded integers that a stream counts with,
    of which the number is the remainder ([seqno]), as long as the two integers
    are less than [m_iSeqNoTH] apart ([near]). *)
From S2P Require Import Prelude.

Definition m_iSeqNoTH : Z := 0x3FFFFFFF.
Definition m_iMaxSeqNo : Z := 0x7FFFFFFF.
Definition SRT_SEQNO_NONE : Z := -1.

(** [abs] of an [int]. *)
Definition abs (x : Z) : Z := i32 (Z.abs x).

Definition seqcmp (seq1 seq2 : Z) : Z :=
  if abs (i32 (seq1 - seq2)) <? m_iSeqNoTH then i32 (seq1 - seq2) else i32 (seq2 - seq1).

Definition seqlen (seq1 seq2 : Z) : Z :=
  if seq1 <=? seq2 then i32 (seq2 - seq1 + 1) else i32 (i32 (seq2 - seq1 + m_iMaxSeqNo) + 2).

Definition seqoff (seq1 seq2 : Z) : Z :=
  if abs (i32 (seq1 - seq2)) <? m_iSeqNoTH then i32 (seq2 - seq1)
  else if seq1 <? seq2 then i32 (seq2 - seq1 - m_iMaxSeqNo - 1)
  else i32 (seq2 - seq1 + m_iMaxSeqNo + 1).

Definition incseq (seq : Z) : Z := if seq =? m_iMaxSeqNo then 0 else seq + 1.
Definition decseq (seq : Z) : Z := if seq =? 0 then m_iMaxSeqNo else seq - 1.

(** The overloads that take the distance. *)
Definition incseq_by (seq inc : Z) : Z :=
  if inc <=? i32 (m_iMaxSeqNo - seq) then i32 (seq + inc)
  else i32 (i32 (seq - m_iMaxSeqNo + inc) - 1).
Definition decseq_by (seq dec : Z) : Z :=
  if seq <? dec then let left := i32 (dec - seq) in i32 (m_iMaxSeqNo - left + 1)
  else i32 (seq - dec).

Definition maxseq (seq1 seq2 : Z) : Z := if seqcmp seq1 seq2 <? 0 then seq2 else seq1.

(** ** The words of a loss report (srtcore/packet.h, utilities.h) *)

(** The flag of the first number of a range. *)
Definition LOSSDATA_SEQNO_RANGE_FIRST : Z := i32 0x80000000.
Definition IsSet (bitset flagset : Z) : bool := Z.land bitset flagset =? flagset.
(** The 31 low bits of a word. *)
Definition SEQNO_VALUE_unwrap (bitset : Z) : Z := Z.land (u32 bitset) 0x7FFFFFFF.

(** ** Unwrapped numbers *)

(** The sequence number of the [x]-th packet. *)
Definition seqno (x : Z) : Z := x mod 2 ^ 31.
(** Close enough for the comparisons to be right. *)
Definition near (x y : Z) : Prop := Z.abs (x - y) < m_iSeqNoTH.

Lemma seqno_range x : 0 <= seqno x <= m_iMaxSeqNo.
Proof. unfold seqno, m_iMaxSeqNo. divlia. Qed.
Lemma seqno_nonneg x : 0 <= seqno x.
Proof. apply seqno_range. Qed.
Lemma seqno_not_none x : seqno x ≠ SRT_SEQNO_NONE.
Proof. pose proof (seqno_range x). unfold SRT_SEQNO_NONE. lia. Qed.
Lemma seqno_small x : 0 <= x <= m_iMaxSeqNo → seqno x = x.
Proof. unfold seqno, m_iMaxSeqNo. intros H. apply Z.mod_small. lia. Qed.
Lemma i32_small x : - 2 ^ 31 <= x < 2 ^ 31 → i32 x = x.
Proof. intros H. unfold i32. rewrite Z.mod_small; lia. Qed.

(** Numbers of integers in a common window are equal when the integers are. *)
Lemma seqno_inj x y : Z.abs (x - y) < 2 ^ 31 → seqno x = seqno y → x = y.
Proof. unfold seqno. intros H E. divlia. Qed.

(** The difference of two numbers, in the three ways the wrap can fall. *)
Lemma seqno_diff x y :
  near x y →
  ∃ k, seqno x - seqno y = x - y + k * 2 ^ 31 ∧ (k = 0 ∨ k = 1 ∧ x < y ∨ k = -1 ∧ y < x).
Proof.
  unfold near, m_iSeqNoTH. intros H. pose proof (seqno_range x) as Hx. pose proof (seqno_range y) as Hy.
  unfold m_iMaxSeqNo, seqno in *. exists (y / 2 ^ 31 - x / 2 ^ 31). split; [divlia|]. divlia.
Qed.

Lemma seqno_i32 x y : i32 (seqno x - seqno y) = seqno x - seqno y.
Proof.
  pose proof (seqno_range x) as Hx. pose proof (seqno_range y) as Hy.
  unfold m_iMaxSeqNo in *. apply i32_small. lia.
Qed.
Lemma seqno_abs x y : abs (seqno x - seqno y) = Z.abs (seqno x - seqno y).
Proof.
  pose proof (seqno_range x) as Hx. pose proof (seqno_range y) as Hy.
  unfold m_iMaxSeqNo, abs in *. apply i32_small. lia.
Qed.

Lemma seqcmp_sgn x y : near x y → Z.sgn (seqcmp (seqno x) (seqno y)) = Z.sgn (x - y).
Proof.
  intros H. unfold seqcmp. rewrite !seqno_i32, seqno_abs.
  destruct (seqno_diff x y H) as (k & E & Hk). unfold near, m_iSeqNoTH in *.
  destruct (Z.ltb_spec (Z.abs (seqno x - seqno y)) 0x3FFFFFFF); lia.
Qed.

(** The comparisons the code writes, with the integers. *)
Lemma seqcmp_lt x y : near x y → (seqcmp (seqno x) (seqno y) <? 0) = (x <? y).
Proof. intros H. pose proof (seqcmp_sgn x y H). apply Bool.eq_iff_eq_true. lia. Qed.
Lemma seqcmp_le x y : near x y → (seqcmp (seqno x) (seqno y) <=? 0) = (x <=? y).
Proof. intros H. pose proof (seqcmp_sgn x y H). apply Bool.eq_iff_eq_true. lia. Qed.
Lemma seqcmp_gt x y : near x y → (0 <? seqcmp (seqno x) (seqno y)) = (y <? x).
Proof. intros H. pose proof (seqcmp_sgn x y H). apply Bool.eq_iff_eq_true. lia. Qed.
Lemma seqcmp_ge x y : near x y → (0 <=? seqcmp (seqno x) (seqno y)) = (y <=? x).
Proof. intros H. pose proof (seqcmp_sgn x y H). apply Bool.eq_iff_eq_true. lia. Qed.
Lemma seqcmp_eq x y : near x y → (seqcmp (seqno x) (seqno y) =? 0) = (x =? y).
Proof. intros H. pose proof (seqcmp_sgn x y H). apply Bool.eq_iff_eq_true. lia. Qed.

Lemma seqno_eqb x y : Z.abs (x - y) < 2 ^ 31 → (seqno x =? seqno y) = (x =? y).
Proof.
  intros H. destruct (Z.eqb_spec x y) as [->|Hne]; [apply Z.eqb_refl|].
  apply Z.eqb_neq. intros E. by apply Hne, seqno_inj.
Qed.

Lemma seqoff_seqno x y : near x y → seqoff (seqno x) (seqno y) = y - x.
Proof.
  intros H. unfold seqoff. rewrite !seqno_i32, seqno_abs.
  destruct (seqno_diff x y H) as (k & E & Hk). unfold near, m_iSeqNoTH, m_iMaxSeqNo in *.
  destruct (Z.ltb_spec (Z.abs (seqno x - seqno y)) 0x3FFFFFFF); [lia|].
  destruct (Z.ltb_spec (seqno x) (seqno y)); rewrite i32_small; lia.
Qed.

Lemma seqlen_seqno x y : x <= y < x + m_iMaxSeqNo → seqlen (seqno x) (seqno y) = y - x + 1.
Proof.
  intros H. unfold seqlen. pose proof (seqno_range x) as Hx. pose proof (seqno_range y) as Hy.
  assert (seqno y - seqno x = y - x ∨ seqno y - seqno x = y - x - 2 ^ 31) as E
    by (unfold seqno, m_iMaxSeqNo in *; divlia).
  unfold m_iMaxSeqNo in *.
  destruct (Z.leb_spec (seqno x) (seqno y)); [rewrite i32_small; lia|].
  rewrite !i32_small; rewrite ?i32_small; lia.
Qed.

Lemma incseq_seqno x : incseq (seqno x) = seqno (x + 1).
Proof. unfold incseq, seqno, m_iMaxSeqNo. case_match; divlia. Qed.
Lemma decseq_seqno x : decseq (seqno x) = seqno (x - 1).
Proof. unfold decseq, seqno, m_iMaxSeqNo. case_match; divlia. Qed.
Lemma incseq_by_seqno x n : 0 <= n <= m_iMaxSeqNo → incseq_by (seqno x) n = seqno (x + n).
Proof.
  intros Hn. unfold incseq_by. pose proof (seqno_range x). unfold m_iMaxSeqNo in *.
  rewrite i32_small by lia. case_match.
  - rewrite i32_small by lia. unfold seqno in *. divlia.
  - rewrite (i32_small (_ + n)), i32_small by lia. unfold seqno in *. divlia.
Qed.
Lemma decseq_by_seqno x n : 0 <= n <= m_iMaxSeqNo → decseq_by (seqno x) n = seqno (x - n).
Proof.
  intros Hn. unfold decseq_by. pose proof (seqno_range x). unfold m_iMaxSeqNo in *. case_match.
  - rewrite (i32_small (n - _)), i32_small by lia. unfold seqno in *. divlia.
  - rewrite i32_small by lia. unfold seqno in *. divlia.
Qed.
Lemma maxseq_seqno x y : near x y → maxseq (seqno x) (seqno y) = seqno (Z.max x y).
Proof. intros H. unfold maxseq. rewrite seqcmp_lt by done. destruct (Z.ltb_spec x y); f_equal; lia. Qed.

(** A number, and the first number of a range, as words of a report. *)
Lemma lor_range_first x : Z.lor (seqno x) LOSSDATA_SEQNO_RANGE_FIRST = seqno x - 2 ^ 31.
Proof.
  pose proof (seqno_range x) as Hx. unfold m_iMaxSeqNo in Hx.
  change LOSSDATA_SEQNO_RANGE_FIRST with (Z.lnot (Z.ones 31)).
  rewrite <- Z.add_nocarry_lor; [change (Z.lnot (Z.ones 31)) with (- 2 ^ 31); lia|].
  rewrite <- Z.ldiff_land. apply Z.ldiff_ones_r_low; [lia|].
  destruct (decide (seqno x = 0)) as [->|?]; [done|]. apply Z.log2_lt_pow2; lia.
Qed.
Lemma IsSet_range_first x : IsSet (Z.lor x LOSSDATA_SEQNO_RANGE_FIRST) LOSSDATA_SEQNO_RANGE_FIRST = true.
Proof.
  apply Z.eqb_eq, Z.bits_inj'. intros n _. rewrite Z.land_spec, Z.lor_spec.
  by destruct (Z.testbit x n), (Z.testbit _ n).
Qed.
Lemma IsSet_seqno x : IsSet (seqno x) LOSSDATA_SEQNO_RANGE_FIRST = false.
Proof.
  apply Z.eqb_neq. intros E. pose proof (seqno_range x) as Hx.
  assert (0 <= Z.land (seqno x) LOSSDATA_SEQNO_RANGE_FIRST) by (apply Z.land_nonneg; lia).
  rewrite E in *. by vm_compute in H.
Qed.
Lemma unwrap_range_first x : SEQNO_VALUE_unwrap (Z.lor (seqno x) LOSSDATA_SEQNO_RANGE_FIRST) = seqno x.
Proof.
  rewrite lor_range_first. pose proof (seqno_range x) as Hx. unfold SEQNO_VALUE_unwrap, m_iMaxSeqNo in *.
  change 0x7FFFFFFF with (Z.ones 31). rewrite Z.land_ones by lia. unfold u32. divlia.
Qed.

(** An integer with a given number, near another. *)
Definition unwrap_near (x s : Z) : Z := x + seqoff (seqno x) s.

Lemma near_sym x y : near x y → near y x.
Proof. unfold near. lia. Qed.
Lemma unwrap_near_seqno x y : near x y → unwrap_near x (seqno y) = y.
Proof. intros H. unfold unwrap_near. rewrite seqoff_seqno by done. lia. Qed.
#[export] Hint Rewrite incseq_seqno decseq_seqno : seqno.
