(* ===== verification/LossRing.v ===== *)
(** * Ranges of lost numbers kept in a ring of nodes (srtcore/list.h)

    Both loss lists of SRT keep a sorted list of disjoint ranges in an array:
    the node of the range that starts with [s] is the element [pos s] of the
    array, and the nodes are linked by their indices.  This file has what the two
    lists share: the ranges and the numbers they hold, and what it means that an
    array holds a list of ranges ([seg], [free_at]). *)
From S2P Require Import Prelude SeqNo.
From Stdlib Require Import Sorted.

(** ** Ranges *)

Abbreviation range := (Z * Z)%type.

(** Disjoint ranges in increasing order, from [b] on. *)
Fixpoint sorted_from (b : Z) (l : list range) : Prop :=
  match l with
  | [] => True
  | (s, e) :: l' => b <= s <= e ∧ sorted_from (e + 1) l'
  end.
(** The number after the last one. *)
Fixpoint end_of (b : Z) (l : list range) : Z :=
  match l with [] => b | (_, e) :: l' => end_of (e + 1) l' end.

Definition range_numbers (r : range) : list Z := seqZ r.1 (r.2 - r.1 + 1).
(** The lost numbers, in order. *)
Fixpoint numbers (l : list range) : list Z :=
  match l with [] => [] | r :: l' => range_numbers r ++ numbers l' end.

Lemma sorted_from_le b b' l : b' <= b → sorted_from b l → sorted_from b' l.
Proof. destruct l as [|[s e] l]; simpl; [done|]. intros ? [? ?]. split; [lia|done]. Qed.
Lemma sorted_from_end b l : sorted_from b l → b <= end_of b l.
Proof.
  revert b. induction l as [|[s e] l IH]; simpl; [lia|]. intros b [? H]. specialize (IH _ H). lia.
Qed.
Lemma end_of_app b l1 l2 : end_of b (l1 ++ l2) = end_of (end_of b l1) l2.
Proof. revert b. induction l1 as [|[s e] l1 IH]; simpl; auto. Qed.
Lemma sorted_from_app b l1 l2 :
  sorted_from b (l1 ++ l2) ↔ sorted_from b l1 ∧ sorted_from (end_of b l1) l2.
Proof.
  revert b. induction l1 as [|[s e] l1 IH]; simpl; intros b; [tauto|]. rewrite IH. tauto.
Qed.
Lemma sorted_from_bounds b l r : sorted_from b l → r ∈ l → b <= r.1 <= r.2 ∧ r.2 < end_of b l.
Proof.
  revert b. induction l as [|[s e] l IH]; intros b H Hr; [by apply not_elem_of_nil in Hr|].
  destruct H as [Hb H]. apply elem_of_cons in Hr as [->|Hr]; simpl.
  - apply sorted_from_end in H. lia.
  - specialize (IH _ H Hr). lia.
Qed.
Lemma end_of_base b b' l : l ≠ [] → end_of b l = end_of b' l.
Proof. by destruct l as [|[s e] l]. Qed.

Lemma numbers_app l1 l2 : numbers (l1 ++ l2) = numbers l1 ++ numbers l2.
Proof. induction l1 as [|r l1 IH]; [done|]. cbn [numbers app]. by rewrite IH, (assoc_L (++)). Qed.
Lemma elem_of_range_numbers r x : x ∈ range_numbers r ↔ r.1 <= x <= r.2.
Proof. unfold range_numbers. rewrite elem_of_seqZ. lia. Qed.
Lemma elem_of_numbers l x : x ∈ numbers l ↔ ∃ r, r ∈ l ∧ r.1 <= x <= r.2.
Proof.
  induction l as [|r l IH]; cbn [numbers]; [set_solver|].
  rewrite elem_of_app, elem_of_range_numbers, IH. setoid_rewrite elem_of_cons. split; [|naive_solver].
  intros [?|?]; naive_solver.
Qed.
Lemma numbers_bounds b l x : sorted_from b l → x ∈ numbers l → b <= x < end_of b l.
Proof.
  intros H (r & Hr & Hx)%elem_of_numbers. destruct (sorted_from_bounds _ _ _ H Hr). lia.
Qed.
Lemma length_range_numbers s e : s <= e → Z.of_nat (length (range_numbers (s, e))) = e - s + 1.
Proof. intros H. unfold range_numbers. rewrite length_seqZ. simpl. lia. Qed.
Lemma length_numbers b l :
  sorted_from b l → Z.of_nat (length (numbers l)) <= end_of b l - b.
Proof.
  revert b. induction l as [|[s e] l IH]; intros b; [simpl; lia|]. intros [Hb H].
  specialize (IH _ H). cbn [numbers end_of]. rewrite length_app, Nat2Z.inj_add, length_range_numbers by lia.
  apply sorted_from_end in H. lia.
Qed.
Lemma length_ranges b l : sorted_from b l → (length l <= length (numbers l))%nat.
Proof.
  revert b. induction l as [|[s e] l IH]; intros b; [done|]. intros [? H]. cbn [numbers length].
  rewrite length_app. pose proof (length_range_numbers s e ltac:(lia)). specialize (IH _ H). lia.
Qed.
Lemma numbers_nil b l : sorted_from b l → numbers l = [] → l = [].
Proof.
  destruct l as [|[s e] l]; [done|]. intros [Hse _] H. exfalso.
  assert (s ∈ numbers ((s, e) :: l)) as Hs
    by (apply elem_of_numbers; exists (s, e); split; [left|simpl; lia]).
  rewrite H in Hs. by apply not_elem_of_nil in Hs.
Qed.
Lemma numbers_head s e l : s <= e → head (numbers ((s, e) :: l)) = Some s.
Proof.
  intros H. cbn [numbers]. unfold range_numbers. cbn [fst snd].
  rewrite (seqZ_cons s) by lia. done.
Qed.

(** The numbers are strictly increasing, so the list is determined by its
    elements. *)
Lemma sorted_seqZ m n : StronglySorted Z.lt (seqZ m n).
Proof.
  destruct (decide (n <= 0)) as [Hn|Hn]; [rewrite seqZ_nil by lia; constructor|].
  revert m. assert (0 <= n) as Hp by lia. clear Hn. revert n Hp.
  apply (natlike_ind (λ n, ∀ m, StronglySorted Z.lt (seqZ m n))); [intros m; rewrite seqZ_nil by lia; constructor|].
  intros n Hn IH m. rewrite (seqZ_cons m) by lia. rewrite Z.pred_succ. constructor; [apply IH|].
  apply Forall_forall. intros x. rewrite elem_of_seqZ. lia.
Qed.
Lemma sorted_app (l1 l2 : list Z) :
  StronglySorted Z.lt l1 → StronglySorted Z.lt l2 → (∀ x y, x ∈ l1 → y ∈ l2 → x < y) →
  StronglySorted Z.lt (l1 ++ l2).
Proof.
  induction l1 as [|a l1 IH]; [done|]. intros H1 H2 Hlt. apply StronglySorted_inv in H1 as [H1 Ha].
  cbn [app]. constructor; [apply IH; set_solver|]. apply Forall_app. split; [done|].
  apply Forall_forall. set_solver.
Qed.
Lemma numbers_sorted b l : sorted_from b l → StronglySorted Z.lt (numbers l).
Proof.
  revert b. induction l as [|[s e] l IH]; intros b; [constructor|]. intros [Hb H].
  apply sorted_app; [apply sorted_seqZ|by eapply IH|]. intros x y Hx Hy.
  apply elem_of_range_numbers in Hx. apply (numbers_bounds _ _ _ H) in Hy. simpl in Hx. lia.
Qed.
Lemma sorted_ext (l1 l2 : list Z) :
  StronglySorted Z.lt l1 → StronglySorted Z.lt l2 → (∀ x, x ∈ l1 ↔ x ∈ l2) → l1 = l2.
Proof.
  revert l2. induction l1 as [|a l1 IH]; intros l2 H1 H2 E.
  - destruct l2 as [|b l2]; [done|]. specialize (E b). set_solver.
  - destruct l2 as [|b l2]; [specialize (E a); set_solver|].
    apply StronglySorted_inv in H1 as [H1 Ha]. apply StronglySorted_inv in H2 as [H2 Hb].
    rewrite Forall_forall in Ha, Hb.
    assert (a = b) as ->.
    { pose proof (proj1 (E a) ltac:(left)) as Eab. pose proof (proj2 (E b) ltac:(left)) as Eba.
      apply elem_of_cons in Eab as [?|Eab]; [done|]. apply elem_of_cons in Eba as [?|Eba]; [done|].
      specialize (Ha _ Eba). specialize (Hb _ Eab). lia. }
    f_equal. apply IH; [done..|]. intros x. specialize (E x). rewrite !elem_of_cons in E.
    split; intros Hx.
    + destruct (proj1 E (or_intror Hx)) as [->|]; [|done]. specialize (Ha _ Hx). lia.
    + destruct (proj2 E (or_intror Hx)) as [->|]; [|done]. specialize (Hb _ Hx). lia.
Qed.
Lemma sorted_filter (P : Z → Prop) `{∀ x, Decision (P x)} (l : list Z) :
  StronglySorted Z.lt l → StronglySorted Z.lt (filter P l).
Proof.
  induction l as [|a l IH]; [constructor|]. intros [Hl Ha]%StronglySorted_inv.
  rewrite filter_cons. case_decide; [|by apply IH]. constructor; [by apply IH|].
  rewrite Forall_forall in *. intros x [_ Hx]%list_elem_of_filter. auto.
Qed.

(** ** The ring *)

(** The end a node stores: none for a single number. *)
Definition stored_end (s e : Z) : Z := if s =? e then SRT_SEQNO_NONE else seqno e.

Create HintDb array.
(** [a[p].field = v]: [None] when [p] is out of the bounds of the array. *)
Definition upd {N} (p : Z) (f : N → N) (a : gmap Z N) : option (gmap Z N) :=
  n ← a !! p; Some (<[p := f n]> a).
(** The array has the indices from 0 to [size - 1]. *)
Definition array_ok {N} (size : Z) (a : gmap Z N) : Prop := ∀ p, is_Some (a !! p) ↔ 0 <= p < size.

Lemma upd_alter {N} size p (f : N → N) a : array_ok size a → 0 <= p < size → upd p f a = Some (alter f p a).
Proof.
  intros Ha [n Hn]%Ha. unfold upd. rewrite Hn. cbn. f_equal. apply map_eq. intros q.
  destruct (decide (p = q)) as [<-|Hne].
  - by rewrite lookup_insert_eq, lookup_alter_eq, Hn.
  - by rewrite lookup_insert_ne, lookup_alter_ne.
Qed.
Lemma array_ok_alter {N} size p (f : N → N) a : array_ok size a → array_ok size (alter f p a).
Proof. intros Ha q. by rewrite lookup_alter_is_Some. Qed.
Lemma array_ok_none {N} size p (a : gmap Z N) : array_ok size a → ¬ 0 <= p < size → a !! p = None.
Proof. intros Ha Hp. apply eq_None_not_Some. by rewrite (Ha p). Qed.
Lemma alter_out {N} size p (f : N → N) a : array_ok size a → ¬ 0 <= p < size → alter f p a = a.
Proof.
  intros Ha Hp. apply map_eq. intros q. pose proof (array_ok_none _ _ _ Ha Hp) as Hn.
  destruct (decide (p = q)) as [<-|Hne]; [by rewrite lookup_alter_eq, Hn|by rewrite lookup_alter_ne].
Qed.
(** The elements of a new array. *)
Lemma lookup_uninit {N} size (f : Z → N) p v :
  (list_to_map ((λ i, (i, f i)) <$> seqZ 0 size) : gmap Z N) !! p = Some v ↔ 0 <= p < size ∧ v = f p.
Proof.
  rewrite <- elem_of_list_to_map.
  - rewrite list_elem_of_fmap. setoid_rewrite elem_of_seqZ. split.
    + intros (i & [= -> ->] & Hi). split; [lia|done].
    + intros [Hp ->]. exists p. split; [done|lia].
  - rewrite <- list_fmap_compose. apply NoDup_fmap_2; [by intros ?? [= ->]|apply NoDup_seqZ].
Qed.
#[export] Hint Resolve array_ok_alter : array.

Section places.
(** [size]: the size of the array.  [c]: the rotation of the ring. *)
Context (size c : Z).

Definition pos (x : Z) : Z := (x + c) mod size.
Definition first (l : list range) (nxt : Z) : Z :=
  match l with [] => nxt | (s, _) :: _ => pos s end.
Fixpoint last_pos (prev : Z) (l : list range) : Z :=
  match l with [] => prev | (s, _) :: l' => last_pos (pos s) l' end.

(** No range of [l] starts at [p]. *)
Definition avoids (p : Z) (l : list range) : Prop := ∀ r, r ∈ l → pos r.1 ≠ p.
(** The ranges fit in the array. *)
Definition fits (b : Z) (l : list range) : Prop := sorted_from b l ∧ end_of b l <= b + size.

Hypothesis Hsize : 0 < size.

Lemma pos_range x : 0 <= pos x < size.
Proof. apply Z.mod_pos_bound. done. Qed.
Lemma pos_inj x y : Z.abs (x - y) < size → pos x = pos y → x = y.
Proof.
  unfold pos. intros H E.
  assert (x + c = size * ((x + c) / size) + (x + c) mod size) as Hx by (apply Z.div_mod; lia).
  assert (y + c = size * ((y + c) / size) + (y + c) mod size) as Hy by (apply Z.div_mod; lia).
  rewrite E in Hx. set (q := (x + c) / size) in *. set (q' := (y + c) / size) in *.
  assert (x - y = size * (q - q')) as D by lia.
  destruct (Z.lt_trichotomy q q') as [?|[?|?]]; nia.
Qed.
Lemma pos_ne x y : x ≠ y → Z.abs (x - y) < size → pos x ≠ pos y.
Proof. intros Hne H E. by apply Hne, pos_inj. Qed.
Lemma pos_add x k : (pos x + k) mod size = pos (x + k).
Proof. unfold pos. rewrite Zplus_mod_idemp_l. f_equal. lia. Qed.
Lemma pos_turn x : pos (x + size) = pos x.
Proof. unfold pos. replace (x + size + c) with (x + c + 1 * size) by lia. apply Z_mod_plus_full. Qed.
Lemma pos_rem x k : 0 <= pos x + k → Z.rem (pos x + k) size = pos (x + k).
Proof. intros H. rewrite Z.rem_mod_nonneg by lia. apply pos_add. Qed.

Lemma first_app l1 l2 nxt : first (l1 ++ l2) nxt = first l1 (first l2 nxt).
Proof. by destruct l1 as [|[s e] l1]. Qed.
Lemma last_pos_app prev l1 l2 : last_pos prev (l1 ++ l2) = last_pos (last_pos prev l1) l2.
Proof. revert prev. induction l1 as [|[s e] l1 IH]; simpl; auto. Qed.
Lemma last_pos_snoc prev l s e : last_pos prev (l ++ [(s, e)]) = pos s.
Proof. by rewrite last_pos_app. Qed.

(** Ranges in a window of [size] numbers start at different places. *)
Lemma avoids_nil p : avoids p [].
Proof. intros r Hr. by apply not_elem_of_nil in Hr. Qed.
Lemma avoids_cons p s e l : avoids p ((s, e) :: l) ↔ pos s ≠ p ∧ avoids p l.
Proof.
  unfold avoids. setoid_rewrite elem_of_cons. split.
  - intros H. split; [apply (H (s, e)); auto|auto].
  - intros [Hs H] r [->|Hr]; auto.
Qed.
Lemma avoids_app p l1 l2 : avoids p (l1 ++ l2) ↔ avoids p l1 ∧ avoids p l2.
Proof.
  unfold avoids. setoid_rewrite elem_of_app. split; [naive_solver|].
  intros [H1 H2] r [Hr|Hr]; auto.
Qed.
Lemma avoids_pos b l x :
  sorted_from b l → (∀ r, r ∈ l → r.1 ≠ x) → end_of b l <= x + size → x < b + size → avoids (pos x) l.
Proof.
  intros Hl Hx He Hb r Hr. destruct (sorted_from_bounds _ _ _ Hl Hr). apply pos_ne; [by apply Hx|lia].
Qed.
(** Before the ranges, and after them. *)
Lemma avoids_before b l x :
  sorted_from b l → x < b → end_of b l <= x + size → avoids (pos x) l.
Proof.
  intros Hl Hx He. apply (avoids_pos b); [done| |lia|lia].
  intros r Hr. destruct (sorted_from_bounds _ _ _ Hl Hr). lia.
Qed.
Lemma avoids_after b l x :
  sorted_from b l → end_of b l <= x < b + size → avoids (pos x) l.
Proof.
  intros Hl Hx. apply (avoids_pos b); [done| |lia|lia].
  intros r Hr. destruct (sorted_from_bounds _ _ _ Hl Hr). lia.
Qed.

Lemma fits_head b s e l : fits b ((s, e) :: l) → fits s ((s, e) :: l).
Proof. intros [[Hs Hl] He]. split; [split; [lia|done]|]. cbn [end_of] in *. lia. Qed.
Lemma fits_app b l1 l2 : fits b (l1 ++ l2) → fits b l1 ∧ fits (end_of b l1) l2.
Proof.
  intros [[H1 H2]%sorted_from_app He]. rewrite end_of_app in He.
  pose proof (sorted_from_end _ _ H1). pose proof (sorted_from_end _ _ H2). repeat split; (done || lia).
Qed.
Lemma fits_replace b l1 mid mid' l2 :
  fits b (l1 ++ mid ++ l2) → sorted_from (end_of b l1) mid' →
  end_of (end_of b l1) mid' <= end_of (end_of b l1) mid → fits b (l1 ++ mid' ++ l2).
Proof.
  intros [[H1 [Hm H2]%sorted_from_app]%sorted_from_app He] Hm' Hle.
  rewrite !end_of_app in He. split.
  - rewrite !sorted_from_app. split_and!; [done..|]. by eapply sorted_from_le.
  - rewrite !end_of_app. destruct l2 as [|[s e] l2]; cbn [end_of] in *; lia.
Qed.
Lemma fits_bounds b l r : fits b l → r ∈ l → b <= r.1 <= r.2 ∧ r.2 < b + size.
Proof. intros [H He] Hr. destruct (sorted_from_bounds _ _ _ H Hr). lia. Qed.
(** A place where no range starts. *)
Lemma fits_avoids b l x :
  fits b l → (∀ r, r ∈ l → r.1 ≠ x) → b <= x < b + size → avoids (pos x) l.
Proof.
  intros Hl Hx Hb r Hr. destruct (fits_bounds _ _ _ Hl Hr). apply pos_ne; [by apply Hx|lia].
Qed.
Lemma fits_split b l1 s e l2 :
  fits b (l1 ++ (s, e) :: l2) →
  b <= s <= e ∧ e < b + size ∧ avoids (pos s) l1 ∧ avoids (pos s) l2 ∧
  (∀ r, r ∈ l1 → r.2 < s) ∧ (∀ r, r ∈ l2 → e < r.1) ∧ end_of b l1 <= s.
Proof.
  intros H. destruct (fits_bounds _ _ (s, e) H) as [Hs He]; [apply elem_of_app; right; left|]. cbn [fst snd] in *.
  pose proof H as [[H1 [? H2]]%sorted_from_app Hend].
  assert (∀ r, r ∈ l1 → r.2 < s) as L1.
  { intros r Hr. destruct (sorted_from_bounds _ _ _ H1 Hr). lia. }
  assert (∀ r, r ∈ l2 → e < r.1) as L2.
  { intros r Hr. destruct (sorted_from_bounds _ _ _ H2 Hr). lia. }
  split_and!; try (done || lia); intros r Hr.
  - destruct (fits_bounds _ _ r H); [apply elem_of_app; by left|].
    specialize (L1 _ Hr). apply pos_ne; lia.
  - destruct (fits_bounds _ _ r H); [apply elem_of_app; right; by right|].
    specialize (L2 _ Hr). apply pos_ne; lia.
Qed.

(** No range starts inside of another. *)
Lemma fits_inside b l1 s e l2 x :
  fits b (l1 ++ (s, e) :: l2) → s < x <= e → avoids (pos x) (l1 ++ (s, e) :: l2).
Proof.
  intros H Hx. destruct (fits_split b l1 s e l2 H) as (Hb & He & _ & _ & L1 & L2 & _).
  apply (fits_avoids b); [done| |lia]. intros r Hr E. pose proof (fits_bounds _ _ r H Hr) as [? _].
  apply elem_of_app in Hr as [Hr|[->|Hr]%elem_of_cons].
  - specialize (L1 _ Hr). lia.
  - simpl in E. lia.
  - specialize (L2 _ Hr). lia.
Qed.
(** The ranges start at different places. *)
Definition apart (l : list range) : Prop := NoDup ((λ r, pos r.1) <$> l).
Lemma apart_cons s e l : apart ((s, e) :: l) ↔ avoids (pos s) l ∧ apart l.
Proof.
  unfold apart, avoids. rewrite fmap_cons, NoDup_cons, list_elem_of_fmap. cbn [fst]. split; intros [H1 H2]; split;
    try done.
  - intros r Hr E. apply H1. by exists r.
  - intros (r & E & Hr). by apply (H1 r Hr).
Qed.
Lemma apart_app l1 l2 :
  apart (l1 ++ l2) ↔ apart l1 ∧ (∀ r, r ∈ l1 → avoids (pos r.1) l2) ∧ apart l2.
Proof.
  induction l1 as [|[s e] l1 IH]; cbn [app].
  - split; [|by intros (_ & _ & ?)]. intros H. split_and!; [constructor| |done]. intros r Hr.
    by apply not_elem_of_nil in Hr.
  - rewrite !apart_cons, avoids_app, IH. setoid_rewrite elem_of_cons. split.
    + intros [[H1 H2] (H3 & H4 & H5)]. split_and!; try done. intros r [->|Hr]; [done|by apply H4].
    + intros ([H1 H2] & H3 & H4). split_and!; try done; [by apply (H3 (s, e)); left|].
      intros r Hr. apply H3. by right.
Qed.
Lemma apart_mid l1 s e l2 :
  apart (l1 ++ (s, e) :: l2) → avoids (pos s) l1 ∧ avoids (pos s) l2.
Proof.
  rewrite apart_app, apart_cons. intros (_ & H & Hl2 & _). split; [|done].
  intros r Hr E. by apply (H r Hr (s, e)); [left|].
Qed.
Lemma fits_apart b l : fits b l → apart l.
Proof.
  revert b. induction l as [|[s e] l IH]; intros b H; [constructor|]. apply apart_cons. split.
  - by destruct (fits_split b [] s e l H) as (_ & _ & _ & ? & _).
  - apply (fits_app b [(s, e)]) in H as [_ H]. by eapply IH.
Qed.
Lemma first_range l nxt : l ≠ [] → 0 <= first l nxt < size.
Proof. destruct l as [|[s e] l]; [done|]. intros _. apply pos_range. Qed.
Lemma last_pos_range prev l : l ≠ [] → 0 <= last_pos prev l < size.
Proof.
  destruct l as [|[s e] l] using rev_ind; [done|]. intros _. rewrite last_pos_snoc. apply pos_range.
Qed.
Lemma first_avoids p l nxt : avoids p l → p ≠ nxt → first l nxt ≠ p.
Proof. destruct l as [|[s e] l]; [done|]. intros [H _]%avoids_cons _. done. Qed.
Lemma last_pos_avoids p l prev : avoids p l → p ≠ prev → last_pos prev l ≠ p.
Proof.
  destruct l as [|[s e] l _] using rev_ind; [done|]. intros [_ [H _]%avoids_cons]%avoids_app _.
  by rewrite last_pos_snoc.
Qed.

(** The last range that starts at [y] or before. *)
Lemma range_split_at b s e l y :
  sorted_from b ((s, e) :: l) → s <= y →
  ∃ l1 s' e' l2, (s, e) :: l = l1 ++ (s', e') :: l2 ∧ s' <= y ∧ ∀ r, r ∈ l2 → y < r.1.
Proof.
  revert b s e. induction l as [|[s2 e2] l IH]; intros b s e H Hy.
  - exists [], s, e, []. split_and!; [done..|]. intros r Hr. by apply not_elem_of_nil in Hr.
  - destruct H as [Hb H]. destruct (decide (s2 <= y)) as [Hy2|Hy2].
    + destruct (IH _ _ _ H Hy2) as (l1 & s' & e' & l2 & E & Hs & Hl).
      exists ((s, e) :: l1), s', e', l2. split_and!; [by rewrite E|done..].
    + exists [], s, e, ((s2, e2) :: l). split_and!; [done..|]. intros r Hr.
      destruct (sorted_from_bounds s2 ((s2, e2) :: l) r) as [? _]; [|done|lia].
      destruct H as [? H]. split; [lia|done].
Qed.
End places.

Section ring.
(** [cell start end next prior]: a node; a singly linked one ignores [prior]. *)
Context {N : Type} (cell : Z → Z → Z → Z → N) (size c : Z).
#[local] Abbreviation pos := (pos size c).
#[local] Abbreviation first := (first size c).
#[local] Abbreviation last_pos := (last_pos size c).
#[local] Abbreviation avoids := (avoids size c).
#[local] Abbreviation fits := (fits size).

(** The nodes of [l], after the node [prev] and before the node [nxt]. *)
Fixpoint seg (a : gmap Z N) (prev : Z) (l : list range) (nxt : Z) : Prop :=
  match l with
  | [] => True
  | (s, e) :: l' =>
      a !! pos s = Some (cell (seqno s) (stored_end s e) (first l' nxt) prev) ∧
      seg a (pos s) l' nxt
  end.
Definition free_at (a : gmap Z N) (p : Z) : Prop :=
  ∃ nx pr, a !! p = Some (cell SRT_SEQNO_NONE SRT_SEQNO_NONE nx pr).
(** The elements of the array that hold no range are free. *)
Definition rest_free (a : gmap Z N) (l : list range) : Prop :=
  ∀ p, 0 <= p < size → avoids p l → free_at a p.

Hypothesis Hsize : 0 < size.

Lemma seg_app a prev l1 l2 nxt :
  seg a prev (l1 ++ l2) nxt ↔ seg a prev l1 (first l2 nxt) ∧ seg a (last_pos prev l1) l2 nxt.
Proof.
  revert prev. induction l1 as [|[s e] l1 IH]; intros prev; simpl; [tauto|].
  rewrite IH, first_app. tauto.
Qed.
Lemma seg_ext a a' prev l nxt :
  (∀ r, r ∈ l → a' !! pos r.1 = a !! pos r.1) → seg a prev l nxt → seg a' prev l nxt.
Proof.
  revert prev. induction l as [|[s e] l IH]; intros prev E; [done|]. intros [Hc H]. split.
  - rewrite <- Hc. apply (E (s, e)). left.
  - apply IH; [|done]. intros r Hr. apply E. by right.
Qed.
Lemma seg_frame a prev l nxt p f : avoids p l → seg a prev l nxt → seg (alter f p a) prev l nxt.
Proof.
  intros Hp. apply seg_ext. intros r Hr. rewrite lookup_alter_ne; [done|].
  intros E. by apply (Hp r Hr).
Qed.
Lemma seg_lookup a prev l1 s e l2 nxt :
  seg a prev (l1 ++ (s, e) :: l2) nxt →
  a !! pos s = Some (cell (seqno s) (stored_end s e) (first l2 nxt) (last_pos prev l1)).
Proof. rewrite seg_app. by intros [_ [H _]]. Qed.

(** Giving the last node another successor, and the first one another
    predecessor. *)
Lemma seg_set_next a prev l f nxt nxt' :
  (∀ s e n p, f (cell s e n p) = cell s e nxt' p) →
  apart size c l → seg a prev l nxt → seg (alter f (last_pos prev l) a) prev l nxt'.
Proof.
  intros Hf Hl. destruct l as [|[s e] l _] using rev_ind; [done|].
  destruct (apart_mid size c l s e [] Hl) as [Hs _].
  rewrite last_pos_snoc, !seg_app. cbn [first seg]. intros [H1 [H2 _]].
  split; [by apply seg_frame|]. split; [|done]. by rewrite lookup_alter_eq, H2; cbn; rewrite Hf.
Qed.
Lemma seg_set_prior a prev l f nxt prev' :
  (∀ s e n p, f (cell s e n p) = cell s e n prev') → apart size c l → seg a prev l nxt →
  seg (alter f (first l (-1)) a) prev' l nxt.
Proof.
  intros Hf Hl. destruct l as [|[s e] l]; [done|].
  destruct (apart_mid size c [] s e l Hl) as [_ Hs].
  cbn [first seg]. intros [H1 H2]. split; [|by apply seg_frame].
  by rewrite lookup_alter_eq, H1; cbn; rewrite Hf.
Qed.

Lemma free_frame a p q f : p ≠ q → free_at a p → free_at (alter f q a) p.
Proof. intros Hne (nx & pr & H). exists nx, pr. by rewrite lookup_alter_ne. Qed.

(** The node at [p] is that of a range, or free. *)
Lemma slot_cases a l nxt p :
  rest_free a l → seg a (-1) l nxt → 0 <= p < size →
  free_at a p ∨ ∃ l1 s e l2, l = l1 ++ (s, e) :: l2 ∧ p = pos s ∧
    a !! p = Some (cell (seqno s) (stored_end s e) (first l2 nxt) (last_pos (-1) l1)).
Proof.
  intros Hf Hs Hp. destruct (decide (Exists (λ r, pos r.1 = p) l)) as [Hex|Hno].
  - right. apply Exists_exists in Hex as ([s e] & Hr & <-).
    apply list_elem_of_split in Hr as (l1 & l2 & ->). exists l1, s, e, l2.
    split_and!; [done..|]. by eapply seg_lookup.
  - left. apply Hf; [done|]. intros r Hr E. apply Hno, Exists_exists. by exists r.
Qed.
End ring.

Lemma stored_end_none s e : (SRT_SEQNO_NONE =? stored_end s e) = (s =? e).
Proof.
  unfold stored_end. destruct (Z.eqb_spec s e); [done|]. apply Z.eqb_neq. intros E.
  by apply (seqno_not_none e).
Qed.
Lemma stored_end_single s : stored_end s s = SRT_SEQNO_NONE.
Proof. unfold stored_end. by rewrite Z.eqb_refl. Qed.
Lemma stored_end_range s e : s ≠ e → stored_end s e = seqno e.
Proof. intros H. unfold stored_end. by rewrite (proj2 (Z.eqb_neq _ _) H). Qed.
(** A new range after all the others fits. *)
Lemma fits_snoc size b l s e :
  fits size b l → end_of b l <= s <= e → e < b + size → fits size b (l ++ [(s, e)]).
Proof.
  intros [Hl He] Hs Hsize. split.
  - apply sorted_from_app. split; [done|]. by split.
  - rewrite end_of_app. cbn. lia.
Qed.
Lemma end_of_numbers b l s : sorted_from b l → l ≠ [] → (∀ x, x ∈ numbers l → x < s) → end_of b l <= s.
Proof.
  destruct l as [|[s1 e1] l _] using rev_ind; [done|]. intros H _ Hs. rewrite end_of_app. cbn.
  destruct (sorted_from_bounds _ _ (s1, e1) H) as [? _]; [apply elem_of_app; right; left|].
  enough (e1 < s) by lia. apply Hs, elem_of_numbers. exists (s1, e1). simpl in *.
  split; [apply elem_of_app; right; left|lia].
Qed.
Lemma first_number b s e l : sorted_from b ((s, e) :: l) → s ∈ numbers ((s, e) :: l).
Proof. intros [? _]. apply elem_of_numbers. exists (s, e). split; [left|simpl; lia]. Qed.
Lemma filter_out (x : Z) (l : list Z) : x ∉ l → filter (λ y, y ≠ x) l = l.
Proof.
  induction l as [|a l IH]; [done|]. intros [Ha Hl]%not_elem_of_cons.
  rewrite filter_cons_True by congruence. by rewrite IH.
Qed.
Lemma elem_of_single_range s e x : x ∈ numbers [(s, e)] ↔ s <= x <= e.
Proof. cbn [numbers]. rewrite app_nil_r. apply elem_of_range_numbers. Qed.
(** [-1 == inext] is the test for the tail. *)
Lemma first_none size c l : 0 < size → (-1 =? first size c l (-1)) = bool_decide (l = []).
Proof.
  intros Hs. destruct l as [|[s e] l]; [done|]. cbn [first]. apply Z.eqb_neq.
  pose proof (pos_range size c Hs s). lia.
Qed.
(** The number asked for is near the first lost one. *)
Definition near_first (ns : list Z) (x : Z) : Prop := ∀ h, head ns = Some h → near h x.
(** All the lost numbers are near the one asked for. *)
Definition near_all (ns : list Z) (x : Z) : Prop := ∀ y, y ∈ ns → near y x.
Lemma near_all_first ns x : near_all ns x → near_first ns x.
Proof. intros H h Hh. apply H. destruct ns; [done|]. injection Hh as ->. left. Qed.
Lemma near_all_filter ns x (P : Z → Prop) `{∀ y, Decision (P y)} :
  near_all ns x → near_all (filter P ns) x.
Proof. intros H0 y [_ Hy]%list_elem_of_filter. by apply H0. Qed.
Lemma filter_twice (P Q R : Z → Prop) `{∀ y, Decision (P y)} `{∀ y, Decision (Q y)}
    `{∀ y, Decision (R y)} (l : list Z) :
  (∀ y, R y ↔ P y ∧ Q y) → filter P (filter Q l) = filter R l.
Proof.
  intros HR. induction l as [|a l IH]; [done|]. rewrite (filter_cons Q), (filter_cons R).
  pose proof (HR a). repeat case_decide; rewrite ?filter_cons; repeat case_decide;
    rewrite ?IH; first [done | tauto].
Qed.

#[export] Instance avoids_dec size c p l : Decision (avoids size c p l).
Proof.
  refine (cast_if (decide (Forall (λ r, pos size c r.1 ≠ p) l))); unfold avoids;
    by rewrite <- Forall_forall.
Defined.

(** Goals that a place is not the start of any range. *)
Ltac avoid :=
  rewrite ?avoids_app, ?avoids_cons in *; destruct_and?;
  split_and?; first [done | apply avoids_nil | lia].

(** Running the updates of an operation. *)
Ltac step_upd :=
  match goal with
  | H : array_ok ?size _ |- _ =>
      rewrite (upd_alter size) by (first [lia | eauto 20 with array]); cbn [mbind option_bind]
  end.
(** The element of an array after updates. *)
Ltac read_upd :=
  repeat first [rewrite lookup_alter_eq | rewrite lookup_alter_ne by (done || lia)];
  try match goal with H : _ !! _ = Some _ |- _ => rewrite H end;
  cbn [fmap option_fmap option_map].
