(* ===== verification/RcvLoss.v ===== *)
(** * The loss list of the receiver: CRcvLossList (srtcore/list.cpp, list.h)

    The array of nodes is a map from the indices to the nodes: [None] is an
    access out of its bounds, or an [int] that overflows, or a loop that has not
    ended after as many steps as the array has nodes.  RcvLossFacts shows that
    none of these happens, and what the list holds after each operation. *)
From S2P Require Import Prelude SeqNo LossRing.

Record Seq := mkSeq { seqstart : Z; seqend : Z; inext : Z; iprior : Z }.
Definition set_seqstart (v : Z) (n : Seq) : Seq := mkSeq v (seqend n) (inext n) (iprior n).
Definition set_seqend (v : Z) (n : Seq) : Seq := mkSeq (seqstart n) v (inext n) (iprior n).
Definition set_inext (v : Z) (n : Seq) : Seq := mkSeq (seqstart n) (seqend n) v (iprior n).
Definition set_iprior (v : Z) (n : Seq) : Seq := mkSeq (seqstart n) (seqend n) (inext n) v.

Abbreviation nodes := (gmap Z Seq).
Record CRcvLossList :=
  { m_caSeq : nodes; m_iHead : Z; m_iTail : Z; m_iLength : Z; m_iSize : Z }.

(** [uninit]: the nodes [new Seq[size]] leaves uninitialised. *)
Definition CRcvLossList_new (uninit : Z → Seq) (size : Z) : CRcvLossList :=
  {| m_caSeq := list_to_map
       ((λ i, (i, set_seqend SRT_SEQNO_NONE (set_seqstart SRT_SEQNO_NONE (uninit i)))) <$> seqZ 0 size);
     m_iHead := -1; m_iTail := -1; m_iLength := 0; m_iSize := size |}.

(** The insertion into an empty list. *)
Definition insert_empty (L : CRcvLossList) (seqno1 seqno2 : Z) : option CRcvLossList :=
  a ← upd 0 (set_seqstart seqno1) (m_caSeq L);
  a ← (if seqno2 =? seqno1 then Some a else upd 0 (set_seqend seqno2) a);
  a ← upd 0 (set_inext (-1)) a;
  a ← upd 0 (set_iprior (-1)) a;
  Some {| m_caSeq := a; m_iHead := 0; m_iTail := 0;
          m_iLength := i32 (m_iLength L + seqlen seqno1 seqno2); m_iSize := m_iSize L |}.

Definition CRcvLossList_insert (L : CRcvLossList) (seqno1 seqno2 : Z) : option CRcvLossList :=
  if m_iLength L =? 0 then insert_empty L seqno1 seqno2
  else
    h ← m_caSeq L !! m_iHead L;
    let offset := seqoff (seqstart h) seqno1 in
    if offset <? 0 then Some L
    else
      let loc := Z.rem (i32 (m_iHead L + offset)) (m_iSize L) in
      t ← m_caSeq L !! m_iTail L;
      '(a, tail) ←
        (if negb (SRT_SEQNO_NONE =? seqend t) && (incseq (seqend t) =? seqno1) then
           a ← upd (m_iTail L) (set_seqend seqno2) (m_caSeq L);
           Some (a, m_iTail L)
         else
           a ← upd loc (set_seqstart seqno1) (m_caSeq L);
           a ← (if seqno2 =? seqno1 then Some a else upd loc (set_seqend seqno2) a);
           a ← upd (m_iTail L) (set_inext loc) a;
           a ← upd loc (set_iprior (m_iTail L)) a;
           a ← upd loc (set_inext (-1)) a;
           Some (a, loc));
      Some {| m_caSeq := a; m_iHead := m_iHead L; m_iTail := tail;
              m_iLength := i32 (m_iLength L + seqlen seqno1 seqno2); m_iSize := m_iSize L |}.

(** [remove] of a sequence of one number, at [loc]. *)
Definition remove_single (L : CRcvLossList) (loc : Z) : option CRcvLossList :=
  let a := m_caSeq L in
  n ← a !! loc;
  '(a, head, tail) ←
    (if m_iHead L =? loc then
       let head := inext n in
       a ← (if -1 =? head then Some a else upd head (set_iprior (-1)) a);
       Some (a, head, m_iTail L)
     else
       a ← upd (iprior n) (set_inext (inext n)) a;
       n ← a !! loc;
       if -1 =? inext n then Some (a, m_iHead L, iprior n)
       else
         a ← upd (inext n) (set_iprior (iprior n)) a;
         Some (a, m_iHead L, m_iTail L));
  a ← upd loc (set_seqstart SRT_SEQNO_NONE) a;
  Some {| m_caSeq := a; m_iHead := head; m_iTail := tail;
          m_iLength := m_iLength L - 1; m_iSize := m_iSize L |}.

(** [remove] of the first number of a longer sequence: its node moves. *)
Definition remove_first (L : CRcvLossList) (loc : Z) : option CRcvLossList :=
  let i := Z.rem (loc + 1) (m_iSize L) in
  let a := m_caSeq L in
  n ← a !! loc;
  a ← upd i (set_seqstart (incseq (seqstart n))) a;
  n ← a !! loc;
  a ← (if 0 <? seqcmp (seqend n) (incseq (seqstart n)) then upd i (set_seqend (seqend n)) a
       else Some a);
  a ← upd loc (set_seqstart SRT_SEQNO_NONE) a;
  a ← upd loc (set_seqend SRT_SEQNO_NONE) a;
  n ← a !! loc;
  a ← upd i (set_inext (inext n)) a;
  n ← a !! loc;
  a ← upd i (set_iprior (iprior n)) a;
  m ← a !! i;
  a ← (if m_iHead L =? loc then Some a else upd (iprior m) (set_inext i) a);
  m ← a !! i;
  a ← (if m_iTail L =? loc then Some a else upd (inext m) (set_iprior i) a);
  Some {| m_caSeq := a; m_iHead := if m_iHead L =? loc then i else m_iHead L;
          m_iTail := if m_iTail L =? loc then i else m_iTail L;
          m_iLength := m_iLength L - 1; m_iSize := m_iSize L |}.

(** [while (SRT_SEQNO_NONE == m_caSeq[i].seqstart) i = (i - 1 + m_iSize) % m_iSize;] *)
Fixpoint search_prior (fuel : nat) (a : nodes) (size i : Z) : option Z :=
  match fuel with
  | O => None
  | S fuel' =>
      n ← a !! i;
      if SRT_SEQNO_NONE =? seqstart n then search_prior fuel' a size (Z.rem (i - 1 + size) size)
      else Some i
  end.

(** What [seqend] of the node [n] becomes when its sequence ends before [seqno]. *)
Definition end_before (n : Seq) (seqno : Z) : Z :=
  if seqno =? incseq (seqstart n) then SRT_SEQNO_NONE else decseq seqno.

(** [remove] of the last number of the sequence of the node [i]. *)
Definition remove_last (L : CRcvLossList) (i seqno : Z) : option CRcvLossList :=
  n ← m_caSeq L !! i;
  a ← upd i (set_seqend (end_before n seqno)) (m_caSeq L);
  Some {| m_caSeq := a; m_iHead := m_iHead L; m_iTail := m_iTail L;
          m_iLength := m_iLength L - 1; m_iSize := m_iSize L |}.

(** [remove] of a number inside of the sequence of the node [i]: it is split,
    and the second part begins at [loc + 1]. *)
Definition remove_split (L : CRcvLossList) (i loc seqno : Z) : option CRcvLossList :=
  let loc := Z.rem (loc + 1) (m_iSize L) in
  a ← upd loc (set_seqstart (incseq seqno)) (m_caSeq L);
  n ← a !! i;
  m ← a !! loc;
  a ← (if 0 <? seqcmp (seqend n) (seqstart m) then upd loc (set_seqend (seqend n)) a
       else Some a);
  n ← a !! i;
  a ← upd i (set_seqend (end_before n seqno)) a;
  n ← a !! i;
  a ← upd loc (set_inext (inext n)) a;
  a ← upd i (set_inext loc) a;
  a ← upd loc (set_iprior i) a;
  m ← a !! loc;
  a ← (if m_iTail L =? i then Some a else upd (inext m) (set_iprior loc) a);
  Some {| m_caSeq := a; m_iHead := m_iHead L;
          m_iTail := if m_iTail L =? i then loc else m_iTail L;
          m_iLength := m_iLength L - 1; m_iSize := m_iSize L |}.

Definition CRcvLossList_remove (L : CRcvLossList) (seqno : Z) : option (bool * CRcvLossList) :=
  if m_iLength L =? 0 then Some (false, L)
  else
    h ← m_caSeq L !! m_iHead L;
    let offset := seqoff (seqstart h) seqno in
    if offset <? 0 then Some (false, L)
    else
      let loc := Z.rem (i32 (m_iHead L + offset)) (m_iSize L) in
      n ← m_caSeq L !! loc;
      if seqno =? seqstart n then
        L ← (if SRT_SEQNO_NONE =? seqend n then remove_single L loc else remove_first L loc);
        Some (true, L)
      else
        i ← search_prior (Z.to_nat (m_iSize L)) (m_caSeq L) (m_iSize L)
              (Z.rem (loc - 1 + m_iSize L) (m_iSize L));
        n ← m_caSeq L !! i;
        if (SRT_SEQNO_NONE =? seqend n) || (0 <? seqcmp seqno (seqend n)) then Some (false, L)
        else
          L ← (if seqno =? seqend n then remove_last L i seqno else remove_split L i loc seqno);
          Some (true, L).

(** [for (int32_t i = lo; i <= hi; ++i) remove(i);], with [hi] excluded when
    [strict]. *)
Fixpoint remove_loop (fuel : nat) (L : CRcvLossList) (i hi : Z) (strict : bool)
    : option CRcvLossList :=
  match fuel with
  | O => None
  | S fuel' =>
      if (if strict then i <? hi else i <=? hi) then
        '(_, L) ← CRcvLossList_remove L i;
        if i =? 2 ^ 31 - 1 then None else remove_loop fuel' L (i + 1) hi strict
      else Some L
  end.
Definition remove_for (L : CRcvLossList) (lo hi : Z) (strict : bool) : option CRcvLossList :=
  remove_loop (Z.to_nat (hi - lo + 2)) L lo hi strict.

Definition CRcvLossList_remove_range (L : CRcvLossList) (seqno1 seqno2 : Z)
    : option (bool * CRcvLossList) :=
  L ← (if seqno1 <=? seqno2 then remove_for L seqno1 seqno2 false
       else
         L ← remove_for L seqno1 m_iMaxSeqNo true;
         remove_for L 0 seqno2 false);
  Some (true, L).

(** Does the node [n] have a number from [seqno1] to [seqno2]? *)
Definition node_meets (n : Seq) (seqno1 seqno2 : Z) : bool :=
  (seqcmp (seqstart n) seqno1 =? 0) ||
  ((0 <? seqcmp (seqstart n) seqno1) && (seqcmp (seqstart n) seqno2 <=? 0)) ||
  ((seqcmp (seqstart n) seqno1 <? 0) && negb (seqend n =? SRT_SEQNO_NONE)
   && (0 <=? seqcmp (seqend n) seqno1)).

Fixpoint find_loop (fuel : nat) (a : nodes) (p seqno1 seqno2 : Z) : option bool :=
  match fuel with
  | O => None
  | S fuel' =>
      if -1 =? p then Some false
      else
        n ← a !! p;
        if node_meets n seqno1 seqno2 then Some true
        else find_loop fuel' a (inext n) seqno1 seqno2
  end.
Definition CRcvLossList_find (L : CRcvLossList) (seqno1 seqno2 : Z) : option bool :=
  if m_iLength L =? 0 then Some false
  else find_loop (S (Z.to_nat (m_iSize L))) (m_caSeq L) (m_iHead L) seqno1 seqno2.

Definition CRcvLossList_getLossLength (L : CRcvLossList) : Z := m_iLength L.

Definition CRcvLossList_getFirstLostSeq (L : CRcvLossList) : option Z :=
  if m_iLength L =? 0 then Some SRT_SEQNO_NONE
  else n ← m_caSeq L !! m_iHead L; Some (seqstart n).

(** The words [array[0]], ..., [array[len - 1]] are [array]. *)
Fixpoint loss_array_loop (fuel : nat) (a : nodes) (limit i : Z) (array : list Z)
    : option (list Z) :=
  match fuel with
  | O => None
  | S fuel' =>
      if (Z.of_nat (length array) <? limit - 1) && negb (-1 =? i) then
        n ← a !! i;
        let array :=
          if SRT_SEQNO_NONE =? seqend n then array ++ [seqstart n]
          else array ++ [Z.lor (seqstart n) LOSSDATA_SEQNO_RANGE_FIRST; seqend n] in
        loss_array_loop fuel' a limit (inext n) array
      else Some array
  end.
Definition CRcvLossList_getLossArray (L : CRcvLossList) (limit : Z) : option (list Z) :=
  loss_array_loop (S (Z.to_nat (m_iSize L))) (m_caSeq L) limit (m_iHead L) [].
