(* ===== verification/RcvLossFacts.v ===== *)
(** * Lemmas on the loss list of the receiver

    [rcv_holds]: the list holds the numbers [ns], in unwrapped integers.  Each
    operation, in any state that holds [ns], runs without an access out of bounds
    and holds what the lemma says afterwards. *)
From S2P Require Import Prelude SeqNo LossRing RcvLoss.
From Stdlib Require Import Sorted.

(** ** What a list holds *)

(** The list [L] holds the ranges [l]; [c] is the rotation of the ring. *)
Record rcv_at (size c : Z) (L : CRcvLossList) (l : list range) : Prop := {
  at_msize : m_iSize L = size;
  at_size : 0 < size <= 2 ^ 29;
  at_array : array_ok size (m_caSeq L);
  at_fits : ∃ b, fits size b l;
  at_seg : seg mkSeq size c (m_caSeq L) (-1) l (-1);
  at_free : rest_free mkSeq size c (m_caSeq L) l;
  at_head : m_iHead L = first size c l (-1);
  at_tail : l ≠ [] → m_iTail L = last_pos size c (-1) l;
  at_length : m_iLength L = Z.of_nat (length (numbers l)) }.

(** The list [L] holds the numbers [ns]. *)
Definition rcv_holds (size : Z) (L : CRcvLossList) (ns : list Z) : Prop :=
  ∃ c l, rcv_at size c L l ∧ numbers l = ns.

Lemma set_inext_cell v s e n p : set_inext v (mkSeq s e n p) = mkSeq s e v p.
Proof. done. Qed.
Lemma set_iprior_cell v s e n p : set_iprior v (mkSeq s e n p) = mkSeq s e n v.
Proof. done. Qed.

Lemma rcv_empty size c L l : rcv_at size c L l → (m_iLength L =? 0) = bool_decide (l = []).
Proof.
  intros H. rewrite (at_length _ _ _ _ H). destruct (at_fits _ _ _ _ H) as [b [Hb _]].
  case_bool_decide as Hl; [by rewrite Hl|].
  apply Z.eqb_neq. intros E. apply Hl. apply (numbers_nil b); [done|].
  apply length_zero_iff_nil. lia.
Qed.

Lemma rcv_length_bound size c L l : rcv_at size c L l → 0 <= m_iLength L <= size.
Proof.
  intros H. rewrite (at_length _ _ _ _ H). destruct (at_fits _ _ _ _ H) as [b [Hb He]].
  pose proof (length_numbers _ _ Hb). lia.
Qed.


Lemma CRcvLossList_new_ok uninit size :
  0 < size <= 2 ^ 29 → rcv_holds size (CRcvLossList_new uninit size) [].
Proof.
  intros Hs. exists 0, []. split; [|done].
  assert (∀ p v, m_caSeq (CRcvLossList_new uninit size) !! p = Some v ↔
    0 <= p < size ∧ v = set_seqend SRT_SEQNO_NONE (set_seqstart SRT_SEQNO_NONE (uninit p))) as Hlk.
  { intros p v. apply (lookup_uninit size (λ i, set_seqend _ (set_seqstart _ (uninit i)))). }
  assert (array_ok size (m_caSeq (CRcvLossList_new uninit size))) as Ha.
  { intros p. split; [intros [v [Hp _]%Hlk]; done|]. intros Hp. eexists. apply Hlk. by split. }
  split; try done.
  - exists 0. split; [done|]. cbn [end_of]. lia.
  - intros p Hp _. exists (inext (uninit p)), (iprior (uninit p)). apply Hlk. by split.
Qed.

(** Writing the range of a node that was free. *)
Definition set_range (s e : Z) (n : Seq) : Seq :=
  mkSeq (seqno s) (if e =? s then seqend n else seqno e) (inext n) (iprior n).
Lemma put_range {B} size p s e a (k : nodes → option B) :
  array_ok size a → 0 <= p < size → Z.abs (e - s) < 2 ^ 31 →
  (a ← upd p (set_seqstart (seqno s)) a;
   a ← (if seqno e =? seqno s then Some a else upd p (set_seqend (seqno e)) a); k a)
  = k (alter (set_range s e) p a).
Proof.
  intros Ha Hp He. step_upd. rewrite seqno_eqb by lia.
  destruct (Z.eqb_spec e s) as [->|Hne].
  - cbn [mbind option_bind]. f_equal. apply alter_ext. intros x _. unfold set_range. by rewrite Z.eqb_refl.
  - step_upd. f_equal. rewrite alter_alter_eq. apply alter_ext. intros x _. unfold set_range.
    by rewrite (proj2 (Z.eqb_neq e s) Hne).
Qed.
Lemma set_range_free s e nx pr :
  set_range s e (mkSeq SRT_SEQNO_NONE SRT_SEQNO_NONE nx pr) = mkSeq (seqno s) (stored_end s e) nx pr.
Proof. unfold set_range, stored_end. by rewrite (Z.eqb_sym e s). Qed.

Lemma insert_empty_run size c L s e :
  rcv_at size c L [] → s <= e < s + size →
  ∃ L', insert_empty L (seqno s) (seqno e) = Some L' ∧ rcv_at size (- s) L' [(s, e)].
Proof.
  intros [Hm Hsz Ha _ _ Hf _ _ Hlen] He. unfold insert_empty.
  destruct (Hf 0) as (nx & pr & H0); [lia|apply avoids_nil|].
  assert (pos size (- s) s = 0) as Hs by (unfold pos; rewrite Z.add_opp_diag_r; apply Z.mod_0_l; lia).
  rewrite (put_range size) by (done || lia). do 2 step_upd. eexists. split; [done|].
  split; try done; cbn [m_caSeq m_iLength m_iHead m_iTail m_iSize].
  - eauto with array.
  - exists s. split; cbn; [split; [lia|done]|lia].
  - cbn [seg first last_pos]. rewrite Hs. split; [|done]. read_upd. by rewrite set_range_free.
  - intros p Hp [Hps _]%avoids_cons. rewrite Hs in Hps. repeat apply free_frame; try done.
    apply Hf; [done|avoid].
  - rewrite Hlen, seqlen_seqno by (unfold m_iMaxSeqNo; lia). cbn [numbers].
    rewrite app_nil_r, length_range_numbers by lia. apply i32_small. simpl. lia.
Qed.

Lemma rcv_node size c L l1 s e l2 :
  rcv_at size c L (l1 ++ (s, e) :: l2) →
  m_caSeq L !! pos size c s =
    Some (mkSeq (seqno s) (stored_end s e) (first size c l2 (-1)) (last_pos size c (-1) l1)).
Proof. intros H. eapply seg_lookup, H. Qed.

Lemma rcv_head size c L h e l :
  rcv_at size c L ((h, e) :: l) →
  m_caSeq L !! m_iHead L = Some (mkSeq (seqno h) (stored_end h e) (first size c l (-1)) (-1)).
Proof. intros H. rewrite (at_head _ _ _ _ H). by eapply (rcv_node _ _ _ []). Qed.
Lemma rcv_tail size c L l s e :
  rcv_at size c L (l ++ [(s, e)]) → m_iTail L = pos size c s.
Proof. intros H. rewrite (at_tail _ _ _ _ H) by (by destruct l). apply last_pos_snoc. Qed.

(** The position computed from the head, for a number not before it. *)
Lemma rcv_loc size c L h e l x :
  rcv_at size c L ((h, e) :: l) → h <= x → near h x →
  Z.rem (i32 (m_iHead L + (x - h))) (m_iSize L) = pos size c x.
Proof.
  intros [Hm Hsz _ _ _ _ Hh _ _] Hx Hn. rewrite Hm, Hh. cbn [first].
  pose proof (pos_range size c ltac:(lia) h). unfold near, m_iSeqNoTH in Hn.
  rewrite i32_small by lia. rewrite pos_rem by lia. f_equal. lia.
Qed.

(** A longer tail, and a new one. *)
Lemma rcv_extend size c L l t1 t2 e :
  rcv_at size c L (l ++ [(t1, t2)]) → t1 <= t2 < e → (∃ b, fits size b (l ++ [(t1, e)])) →
  rcv_at size c
    {| m_caSeq := alter (set_seqend (seqno e)) (pos size c t1) (m_caSeq L); m_iHead := m_iHead L;
       m_iTail := m_iTail L; m_iLength := m_iLength L + (e - t2); m_iSize := m_iSize L |}
    (l ++ [(t1, e)]).
Proof.
  intros H Ht Hfit. pose proof (rcv_node _ _ _ _ _ _ _ H) as Hn. destruct H as [Hm Hsz Ha [b Hb] Hs Hf Hh Ht' Hlen].
  destruct (fits_split size c ltac:(lia) _ _ _ _ _ Hb) as (_ & _ & Hav & _).
  apply seg_app in Hs as [Hs1 Hs2].
  split; try done; cbn [m_caSeq m_iLength m_iHead m_iTail m_iSize].
  - eauto with array.
  - rewrite seg_app. split; [by apply seg_frame|]. cbn [seg first]. split; [|done].
    read_upd. by rewrite (stored_end_range t1 e) by lia.
  - intros p Hp [Hp1 [Hp2 _]%avoids_cons]%avoids_app. apply free_frame; [done|].
    apply Hf; [done|]. avoid.
  - by rewrite Hh, !first_app.
  - intros _. rewrite Ht' by (by destruct l). by rewrite !last_pos_snoc.
  - rewrite Hlen, !numbers_app, !length_app. cbn [numbers]. rewrite !app_nil_r.
    rewrite !Nat2Z.inj_add, !length_range_numbers by lia. lia.
Qed.
Lemma rcv_snoc size c L l t1 t2 s e :
  rcv_at size c L (l ++ [(t1, t2)]) → (∃ b, fits size b ((l ++ [(t1, t2)]) ++ [(s, e)])) →
  rcv_at size c
    {| m_caSeq := alter (set_inext (-1)) (pos size c s) (alter (set_iprior (pos size c t1)) (pos size c s)
         (alter (set_inext (pos size c s)) (pos size c t1) (alter (set_range s e) (pos size c s) (m_caSeq L))));
       m_iHead := m_iHead L; m_iTail := pos size c s; m_iLength := m_iLength L + (e - s + 1);
       m_iSize := m_iSize L |}
    ((l ++ [(t1, t2)]) ++ [(s, e)]).
Proof.
  intros [Hm Hsz Ha [b Hb] Hs Hf Hh Ht' Hlen] [b' Hfit]. set (lt := l ++ [(t1, t2)]) in *.
  destruct (fits_split size c ltac:(lia) _ _ _ _ _ Hfit) as (Hse & _ & Hav & _).
  assert (last_pos size c (-1) lt = pos size c t1) as Hlast by apply last_pos_snoc.
  assert (pos size c t1 ≠ pos size c s) as Hne
    by (apply avoids_app in Hav as [_ [Hav _]%avoids_cons]; done).
  pose proof (pos_range size c ltac:(lia) s) as Hps.
  destruct (Hf _ Hps Hav) as (nx & pr & Hfree).
  split; try done; cbn [m_caSeq m_iLength m_iHead m_iTail m_iSize].
  - eauto with array.
  - by exists b'.
  - rewrite seg_app, Hlast. cbn [seg first]. split; [|split; [|done]].
    + rewrite <- Hlast. do 2 (apply seg_frame; [done|]).
      eapply seg_set_next; [done|apply (fits_apart size c ltac:(lia) b); done|by apply seg_frame].
    + read_upd. by rewrite set_range_free.
  - intros p Hp [Hp1 [Hp2 _]%avoids_cons]%avoids_app. repeat apply free_frame; try done.
    + intros ->. apply avoids_app in Hp1 as [_ [? _]%avoids_cons]. done.
    + by apply Hf.
  - rewrite Hh, first_app. by destruct l.
  - intros _. by rewrite last_pos_snoc.
  - rewrite Hlen, (numbers_app lt), length_app. cbn [numbers]. rewrite app_nil_r.
    rewrite Nat2Z.inj_add, length_range_numbers by lia. lia.
Qed.


Lemma insert_run size c L h e0 l s e :
  rcv_at size c L ((h, e0) :: l) → end_of h ((h, e0) :: l) <= s <= e → e < h + size →
  ∃ L' l', CRcvLossList_insert L (seqno s) (seqno e) = Some L' ∧ rcv_at size c L' l' ∧
    numbers l' = numbers ((h, e0) :: l) ++ seqZ s (e - s + 1).
Proof.
  intros H Hs He. destruct (at_fits _ _ _ _ H) as [b Hfit]. apply fits_head in Hfit.
  pose proof (at_size _ _ _ _ H) as Hsz. pose proof (rcv_length_bound _ _ _ _ H) as Hlen.
  pose proof (at_array _ _ _ _ H) as Ha.
  pose proof (sorted_from_end _ _ (proj1 Hfit)) as Hend.
  assert (near h s) as Hn by (unfold near, m_iSeqNoTH; lia).
  unfold CRcvLossList_insert. rewrite (rcv_empty _ _ _ _ H). cbn [bool_decide decide_rel].
  rewrite bool_decide_false by done.
  rewrite (rcv_head _ _ _ _ _ _ H).
  cbn [mbind option_bind seqstart]. rewrite seqoff_seqno by done.
  rewrite (proj2 (Z.ltb_ge _ _)) by lia. rewrite (rcv_loc _ _ _ _ _ _ _ H) by (done || lia).
  destruct (exists_last (l := (h, e0) :: l)) as (l0 & [t1 t2] & E); [done|]. rewrite E in *.
  pose proof (rcv_tail _ _ _ _ _ _ H) as Ht.
  destruct (fits_split size c ltac:(lia) _ _ _ _ _ Hfit) as (Ht12 & _ & Hav & _).
  rewrite end_of_app in Hs. cbn [end_of] in Hs.
  rewrite Ht, (rcv_node _ _ _ _ _ _ _ H). cbn [mbind option_bind seqend]. rewrite stored_end_none.
  rewrite seqlen_seqno by (unfold m_iMaxSeqNo; lia). rewrite (i32_small (m_iLength L + _)) by lia.
  destruct (Z.eqb_spec t1 t2) as [<-|Hne]; cbn [negb andb];
    [|rewrite stored_end_range, incseq_seqno, seqno_eqb by lia; destruct (Z.eqb_spec (t2 + 1) s) as [<-|Hne2]].
  2:{ pose proof (pos_range size c ltac:(lia) t1). step_upd. eexists _, _. split; [done|]. split.
      - replace (e - (t2 + 1) + 1) with (e - t2) by lia. rewrite <- Ht at 2. apply rcv_extend; [done|lia|].
        exists h. apply fits_app in Hfit as [[Hl0 _] [[? _] _]]. split; [|rewrite end_of_app; cbn; lia].
        apply sorted_from_app. split; [done|]. cbn. split; [lia|done].
      - rewrite !numbers_app. cbn [numbers]. rewrite !app_nil_r, <- (assoc_L (++)). f_equal.
        unfold range_numbers. cbn [fst snd].
        replace (e - t1 + 1) with ((t2 - t1 + 1) + (e - (t2 + 1) + 1)) by lia.
        rewrite seqZ_app by lia. do 2 f_equal. lia. }
  all: pose proof (pos_range size c ltac:(lia) s); pose proof (pos_range size c ltac:(lia) t1).
  all: rewrite (put_range size) by (done || lia); do 3 step_upd.
  all: eexists _, _; split; [done|]; split; [apply rcv_snoc; [done|]; exists h; apply fits_snoc;
    [done|rewrite end_of_app; cbn [end_of]; lia|lia]|].
  all: rewrite numbers_app; cbn [numbers]; by rewrite app_nil_r.
Qed.

Lemma CRcvLossList_insert_run size L ns s e :
  rcv_holds size L ns → s <= e < s + size → (∀ x, x ∈ ns → x < s ∧ e < x + size) →
  ∃ L', CRcvLossList_insert L (seqno s) (seqno e) = Some L' ∧
    rcv_holds size L' (ns ++ seqZ s (e - s + 1)).
Proof.
  intros (c & l & H & <-) Hse Hx. destruct l as [|[h e0] l].
  - unfold CRcvLossList_insert. rewrite (rcv_empty _ _ _ _ H), bool_decide_true by done.
    destruct (insert_empty_run _ _ _ s e H ltac:(lia)) as (L' & -> & H').
    exists L'. split; [done|]. exists (- s), [(s, e)]. split; [done|]. cbn. by rewrite app_nil_r.
  - destruct (at_fits _ _ _ _ H) as [b Hfit]. apply fits_head in Hfit as [Hfit _].
    destruct (insert_run _ _ _ _ _ _ s e H) as (L' & l' & -> & H' & E).
    + split; [|lia]. apply end_of_numbers; [done|done|]. intros x Hxl. by apply Hx.
    + apply (Hx h). by eapply first_number.
    + exists L'. split; [done|]. by exists c, l'.
Qed.

(** ** Replacing a part of the list *)

(** The links into the part of the list between [l1] and [l2]. *)
Definition relink (size c : Z) (l1 l2 : list range) (nx pr : Z) (a : nodes) : nodes :=
  alter (set_iprior pr) (first size c l2 (-1)) (alter (set_inext nx) (last_pos size c (-1) l1) a).

Lemma alter_lookup_ext (f : Seq → Seq) q (a a' : nodes) p :
  a !! p = a' !! p → alter f q a !! p = alter f q a' !! p.
Proof.
  intros E. destruct (decide (q = p)) as [->|Hne]; [by rewrite !lookup_alter_eq, E|].
  by rewrite !lookup_alter_ne.
Qed.

(** The parts of a list that fits start at different places. *)
Lemma fits_disjoint size c b l1 l2 r1 r2 :
  0 < size → fits size b (l1 ++ l2) → r1 ∈ l1 → r2 ∈ l2 → pos size c r1.1 ≠ pos size c r2.1.
Proof.
  intros Hsz H H1 H2. destruct (fits_bounds size _ _ r1 H) as [? ?]; [apply elem_of_app; by left|].
  destruct (fits_bounds size _ _ r2 H) as [? ?]; [apply elem_of_app; by right|].
  destruct H as [[Hs1 Hs2]%sorted_from_app _].
  destruct (sorted_from_bounds _ _ _ Hs1 H1). destruct (sorted_from_bounds _ _ _ Hs2 H2).
  apply pos_ne; lia.
Qed.
Lemma fits_parts size c b l1 mid l2 :
  0 < size → fits size b (l1 ++ mid ++ l2) →
  (∀ r, r ∈ l1 → avoids size c (pos size c r.1) (mid ++ l2)) ∧
  (∀ r, r ∈ l2 → avoids size c (pos size c r.1) (l1 ++ mid)).
Proof.
  intros Hsz H. split; intros r Hr r' Hr' E.
  - by apply (fits_disjoint size c b l1 (mid ++ l2) r r').
  - rewrite (assoc_L (++)) in H. by apply (fits_disjoint size c b (l1 ++ mid) l2 r' r).
Qed.
Lemma first_outside size c l1 l2 :
  (∀ r, r ∈ l2 → avoids size c (pos size c r.1) l1) → 0 < size →
  avoids size c (first size c l2 (-1)) l1.
Proof.
  intros H Hsz. destruct l2 as [|[s e] l2]; [|apply (H (s, e)); left]. intros r _ E.
  pose proof (pos_range size c Hsz r.1). cbn [first] in E. lia.
Qed.
Lemma last_outside size c l1 l2 :
  (∀ r, r ∈ l1 → avoids size c (pos size c r.1) l2) → 0 < size →
  avoids size c (last_pos size c (-1) l1) l2.
Proof.
  intros H Hsz. destruct l1 as [|[s e] l1 _] using rev_ind; cbn [last_pos].
  - intros r _ E. pose proof (pos_range size c Hsz r.1). lia.
  - rewrite last_pos_snoc. apply (H (s, e)). apply elem_of_app. right; left.
Qed.

Lemma relink_avoids size c l1 l2 nx pr a p :
  avoids size c p l1 → avoids size c p l2 → 0 <= p < size → relink size c l1 l2 nx pr a !! p = a !! p.
Proof.
  intros H1 H2 Hp. unfold relink. rewrite !lookup_alter_ne; [done|..].
  - apply last_pos_avoids; [done|lia].
  - apply first_avoids; [done|lia].
Qed.

(** A list after the ranges [mid] have become [mid'], whose array is [a'], and
    elsewhere that of the old list, linked anew. *)
Lemma rcv_replace size c L l1 mid mid' l2 a' head tail len :
  rcv_at size c L (l1 ++ mid ++ l2) → (∃ b, fits size b (l1 ++ mid' ++ l2)) → array_ok size a' →
  seg mkSeq size c a' (last_pos size c (-1) l1) mid' (first size c l2 (-1)) →
  (∀ p, avoids size c p mid → avoids size c p mid' →
    a' !! p = relink size c l1 l2 (first size c mid' (first size c l2 (-1)))
      (last_pos size c (last_pos size c (-1) l1) mid') (m_caSeq L) !! p) →
  (∀ p, avoids size c p mid' → ¬ avoids size c p mid → free_at mkSeq a' p) →
  head = first size c (l1 ++ mid' ++ l2) (-1) →
  (l1 ++ mid' ++ l2 ≠ [] → tail = last_pos size c (-1) (l1 ++ mid' ++ l2)) →
  len = m_iLength L + Z.of_nat (length (numbers mid')) - Z.of_nat (length (numbers mid)) →
  rcv_at size c {| m_caSeq := a'; m_iHead := head; m_iTail := tail; m_iLength := len;
    m_iSize := size |} (l1 ++ mid' ++ l2).
Proof.
  intros [Hm Hsz Ha [b Hb] Hs Hf _ _ Hlen] [b' Hb'] Haa Hmid Hold Hfree Hh Ht Hl.
  destruct (fits_parts size c b l1 mid l2 ltac:(lia) Hb) as [P1 P2].
  destruct (fits_parts size c b' l1 mid' l2 ltac:(lia) Hb') as [P1' P2'].
  apply seg_app in Hs as [S1 [_ S2]%seg_app].
  pose proof Hb as [F1 [_ F2]%fits_app]%fits_app.
  assert (avoids size c (last_pos size c (-1) l1) l2) as Hlast.
  { apply last_outside; [|lia]. intros r Hr. by apply P1, avoids_app in Hr as [_ ?]. }
  assert (avoids size c (first size c l2 (-1)) l1) as Hfirst.
  { apply first_outside; [|lia]. intros r Hr. by apply P2, avoids_app in Hr as [? _]. }
  split; try done; cbn [m_caSeq m_iLength m_iHead m_iTail m_iSize].
  - by exists b'.
  - rewrite !seg_app, !first_app. split_and!.
    + eapply seg_ext with (a := relink _ _ _ _ _ _ _).
      * intros r Hr. specialize (P1 r Hr). specialize (P1' r Hr). apply Hold; avoid.
      * unfold relink. apply seg_frame; [done|].
        eapply seg_set_next; [done|apply (fits_apart size c ltac:(lia) b); done|exact S1].
    + done.
    + eapply seg_ext with (a := relink _ _ _ _ _ _ _).
      * intros r Hr. specialize (P2 r Hr). specialize (P2' r Hr). apply Hold; avoid.
      * unfold relink. eapply seg_set_prior; [done|by eapply (fits_apart size c); [lia|exact F2]|].
        apply seg_frame; [done|exact S2].
  - intros p Hp [Hp1 [Hp' Hp2]%avoids_app]%avoids_app.
    destruct (decide (avoids size c p mid)) as [Hpm|Hpm]; [|by apply Hfree].
    destruct (Hf p Hp) as (nx & pr & E); [avoid|]. exists nx, pr. by rewrite Hold, relink_avoids.
  - rewrite Hl, Hlen, !numbers_app, !length_app. lia.
Qed.

(** The neighbours of a node: the head has none before it, the tail none after. *)
Lemma rcv_at_head size c L l1 s e l2 :
  rcv_at size c L (l1 ++ (s, e) :: l2) → (m_iHead L =? pos size c s) = bool_decide (l1 = []).
Proof.
  intros H. rewrite (at_head _ _ _ _ H). destruct (at_fits _ _ _ _ H) as [b Hfit].
  pose proof (at_size _ _ _ _ H). destruct l1 as [|[s1 e1] l1]; [apply Z.eqb_refl|].
  cbn [first app]. apply Z.eqb_neq. intros E.
  destruct (fits_split size c ltac:(lia) _ _ _ _ _ Hfit) as (_ & _ & [Hav _]%avoids_cons & _). done.
Qed.
Lemma rcv_at_tail size c L l1 s e l2 :
  rcv_at size c L (l1 ++ (s, e) :: l2) → (m_iTail L =? pos size c s) = bool_decide (l2 = []).
Proof.
  intros H. rewrite (at_tail _ _ _ _ H) by (by destruct l1). destruct (at_fits _ _ _ _ H) as [b Hfit].
  pose proof (at_size _ _ _ _ H). destruct l2 as [|[s1 e1] l2 _] using rev_ind.
  - rewrite last_pos_snoc. apply Z.eqb_refl.
  - rewrite app_comm_cons, (assoc_L (++)), last_pos_snoc. rewrite bool_decide_false by (by destruct l2).
    apply Z.eqb_neq. intros E.
    destruct (fits_split size c ltac:(lia) _ _ _ _ _ Hfit) as (_ & _ & _ & Hav & _).
    apply avoids_app in Hav as [_ [Hav _]%avoids_cons]. done.
Qed.
Lemma upd_prior size c L l1 s e l2 f (a : nodes) :
  rcv_at size c L (l1 ++ (s, e) :: l2) → array_ok size a →
  (if m_iHead L =? pos size c s then Some a else upd (last_pos size c (-1) l1) f a)
  = Some (alter f (last_pos size c (-1) l1) a).
Proof.
  intros H Ha. rewrite (rcv_at_head _ _ _ _ _ _ _ H). pose proof (at_size _ _ _ _ H).
  case_bool_decide as Hl; [by subst; cbn; rewrite (alter_out size) by (done || lia)|].
  apply (upd_alter size); [done|]. apply last_pos_range; [lia|done].
Qed.
Lemma upd_next size c L l1 s e l2 f (a : nodes) :
  rcv_at size c L (l1 ++ (s, e) :: l2) → array_ok size a →
  (if m_iTail L =? pos size c s then Some a else upd (first size c l2 (-1)) f a)
  = Some (alter f (first size c l2 (-1)) a).
Proof.
  intros H Ha. rewrite (rcv_at_tail _ _ _ _ _ _ _ H). pose proof (at_size _ _ _ _ H).
  case_bool_decide as Hl; [by subst; cbn; rewrite (alter_out size) by (done || lia)|].
  apply (upd_alter size); [done|]. apply first_range; [lia|done].
Qed.
Lemma upd_first size c l f (a : nodes) :
  0 < size → array_ok size a →
  (if -1 =? first size c l (-1) then Some a else upd (first size c l (-1)) f a)
  = Some (alter f (first size c l (-1)) a).
Proof.
  intros Hs Ha. rewrite first_none by done.
  case_bool_decide as Hl; [by subst; cbn; rewrite (alter_out size) by (done || lia)|].
  apply (upd_alter size); [done|]. by apply first_range.
Qed.

Lemma remove_single_run size c L l1 s l2 :
  rcv_at size c L (l1 ++ (s, s) :: l2) →
  ∃ L', remove_single L (pos size c s) = Some L' ∧ rcv_at size c L' (l1 ++ l2).
Proof.
  intros H. pose proof (at_size _ _ _ _ H) as Hsz. pose proof (at_array _ _ _ _ H) as Ha.
  destruct (at_fits _ _ _ _ H) as [b Hfit].
  destruct (fits_split size c ltac:(lia) _ _ _ _ _ Hfit) as (Hb & He & Hav1 & Hav2 & L1 & L2 & Hb1).
  pose proof (pos_range size c ltac:(lia) s) as Hp.
  pose proof (last_pos_avoids size c _ _ (-1) Hav1 ltac:(lia)) as Hn1.
  pose proof (first_avoids size c _ _ (-1) Hav2 ltac:(lia)) as Hn2.
  pose proof (rcv_node _ _ _ _ _ _ _ H) as Hn.
  unfold remove_single. rewrite Hn. cbn [mbind option_bind inext iprior].
  assert (∃ tail, (if m_iHead L =? pos size c s then
      a ← (if -1 =? first size c l2 (-1) then Some (m_caSeq L)
           else upd (first size c l2 (-1)) (set_iprior (-1)) (m_caSeq L));
      Some (a, first size c l2 (-1), m_iTail L)
    else
      a ← upd (last_pos size c (-1) l1) (set_inext (first size c l2 (-1))) (m_caSeq L);
      n ← a !! pos size c s;
      if -1 =? inext n then Some (a, m_iHead L, iprior n)
      else a ← upd (inext n) (set_iprior (iprior n)) a; Some (a, m_iHead L, m_iTail L))
    = Some (relink size c l1 l2 (first size c l2 (-1)) (last_pos size c (-1) l1) (m_caSeq L),
        first size c (l1 ++ l2) (-1), tail) ∧
    (l1 ++ l2 ≠ [] → tail = last_pos size c (-1) (l1 ++ l2))) as (tail & Hrun & Htail).
  { rewrite (rcv_at_head _ _ _ _ _ _ _ H). case_bool_decide as Hl1.
    - subst l1. rewrite upd_first by (done || lia). cbn [mbind option_bind app last_pos]. unfold relink.
      cbn [last_pos]. rewrite (alter_out size (-1)) by (done || lia). eexists. split; [done|].
      intros Hl. rewrite (at_tail _ _ _ _ H) by done. by destruct l2 as [|[??]].
    - rewrite (upd_alter size) by (done || by apply last_pos_range; [lia|]). cbn [mbind option_bind].
      rewrite lookup_alter_ne, Hn by done. cbn [mbind option_bind inext iprior].
      rewrite first_app. destruct l1 as [|[h e0] l1]; [done|]. rewrite (at_head _ _ _ _ H). cbn [first app].
      rewrite first_none by lia. case_bool_decide as Hl2.
      + subst l2. unfold relink. cbn [first]. rewrite (alter_out size (-1)) by (eauto with array; lia).
        eexists. split; [done|]. by rewrite app_nil_r.
      + rewrite (upd_alter size) by (eauto with array; by apply first_range; [lia|]).
        eexists. split; [done|]. intros _. rewrite (at_tail _ _ _ _ H) by done.
        rewrite app_comm_cons, !last_pos_app. by destruct l2 as [|[??]]. }
  rewrite Hrun. cbn [mbind option_bind]. rewrite (upd_alter size) by (unfold relink; eauto with array; lia).
  rewrite (at_msize _ _ _ _ H). eexists. split; [done|].
  apply (rcv_replace size c L l1 [(s, s)] [] l2); try done.
  - exists b. apply (fits_replace size b l1 [(s, s)]); [exact Hfit|done|cbn [end_of]; lia].
  - unfold relink. eauto with array.
  - intros p [Hps _]%avoids_cons _. by rewrite lookup_alter_ne.
  - intros p _ Hpa. assert (p = pos size c s) as ->
      by (apply dec_stable; intros Hne; apply Hpa; avoid).
    eexists _, _. rewrite lookup_alter_eq. unfold relink. read_upd. by rewrite stored_end_single.
  - cbn [numbers]. rewrite app_nil_r, length_range_numbers by lia. simpl. lia.
Qed.

(** Writing the range that is left of a node to the free node after it. *)
Lemma put_rest size p t e a nx pr :
  array_ok size a → 0 <= p < size → t <= e →
  a !! p = Some (mkSeq SRT_SEQNO_NONE SRT_SEQNO_NONE nx pr) →
  let a1 := alter (set_seqstart (seqno t)) p a in
  ∃ a', (if t <? e then upd p (set_seqend (seqno e)) a1 else Some a1) = Some a' ∧ array_ok size a' ∧
    a' !! p = Some (mkSeq (seqno t) (stored_end t e) nx pr) ∧ ∀ q, q ≠ p → a' !! q = a !! q.
Proof.
  intros Ha Hp He Hfree. cbn zeta. destruct (Z.ltb_spec t e); [step_upd|];
    (eexists; split_and!; [done|eauto with array|read_upd|by intros q Hq; rewrite !lookup_alter_ne]).
  - by rewrite stored_end_range by lia.
  - replace e with t by lia. by rewrite stored_end_single.
Qed.

Lemma remove_first_run size c L l1 s e l2 :
  rcv_at size c L (l1 ++ (s, e) :: l2) → s < e →
  ∃ L', remove_first L (pos size c s) = Some L' ∧ rcv_at size c L' (l1 ++ (s + 1, e) :: l2).
Proof.
  intros H Hse. pose proof (at_size _ _ _ _ H) as Hsz. pose proof (at_array _ _ _ _ H) as Ha.
  destruct (at_fits _ _ _ _ H) as [b Hfit].
  assert (fits size b (l1 ++ (s + 1, e) :: l2)) as Hfit'.
  { destruct (fits_split size c ltac:(lia) _ _ _ _ _ Hfit) as (? & _ & _ & _ & _ & _ & ?).
    apply (fits_replace size b l1 [(s, e)] [(s + 1, e)]); [exact Hfit| |cbn [end_of]; lia].
    cbn. split; [lia|done]. }
  destruct (fits_split size c ltac:(lia) _ _ _ _ _ Hfit) as (Hb & He & Hav1 & Hav2 & _).
  destruct (fits_split size c ltac:(lia) _ _ _ _ _ Hfit') as (_ & _ & Hav1' & Hav2' & _).
  pose proof (pos_range size c ltac:(lia) s) as Hp. pose proof (pos_range size c ltac:(lia) (s + 1)) as Hp'.
  assert (pos size c (s + 1) ≠ pos size c s) as Hpne by (apply pos_ne; lia).
  pose proof (last_pos_avoids size c _ _ (-1) Hav1 ltac:(lia)) as Hn1.
  pose proof (first_avoids size c _ _ (-1) Hav2 ltac:(lia)) as Hn2.
  pose proof (last_pos_avoids size c _ _ (-1) Hav1' ltac:(lia)) as Hn1'.
  pose proof (first_avoids size c _ _ (-1) Hav2' ltac:(lia)) as Hn2'.
  pose proof (rcv_node _ _ _ _ _ _ _ H) as Hn.
  destruct (at_free _ _ _ _ H (pos size c (s + 1))) as (nx & pr & Hfree); [done|avoid|].
  unfold remove_first. rewrite (at_msize _ _ _ _ H), pos_rem by lia.
  rewrite Hn. cbn [mbind option_bind]. step_upd. cbn [seqstart].
  rewrite lookup_alter_ne, Hn by done. cbn [mbind option_bind seqend seqstart].
  rewrite stored_end_range, incseq_seqno, seqcmp_gt by (unfold near, m_iSeqNoTH; lia).
  destruct (put_rest size _ (s + 1) e _ _ _ Ha Hp' ltac:(lia) Hfree) as (a & -> & Haa & Hai & Hap).
  cbn [mbind option_bind]. do 2 step_upd.
  rewrite !lookup_alter_eq, Hap, Hn by done. cbn [fmap option_fmap option_map mbind option_bind]. cbn [set_seqend set_seqstart inext].
  step_upd. rewrite lookup_alter_ne, !lookup_alter_eq, Hap, Hn by done.
  cbn [fmap option_fmap option_map mbind option_bind]. cbn [set_seqend set_seqstart iprior].
  step_upd. rewrite !lookup_alter_eq, !lookup_alter_ne, Hai by done.
  cbn [fmap option_fmap option_map mbind option_bind]. cbn [set_inext set_iprior iprior].
  rewrite (upd_prior _ _ _ _ _ _ _ _ _ H) by eauto 10 with array. cbn [mbind option_bind].
  rewrite lookup_alter_ne, !lookup_alter_eq, !lookup_alter_ne, Hai by done.
  cbn [fmap option_fmap option_map mbind option_bind]. cbn [set_inext set_iprior inext].
  rewrite (upd_next _ _ _ _ _ _ _ _ _ H) by eauto 10 with array. cbn [mbind option_bind].
  eexists. split; [done|].
  apply (rcv_replace size c L l1 [(s, e)] [(s + 1, e)] l2); [done|by exists b|eauto 10 with array| | | | | |].
  - cbn [seg first]. split; [|done]. rewrite !(lookup_alter_ne _ _ (first _ _ _ _)) by done.
    rewrite !(lookup_alter_ne _ _ (last_pos _ _ _ _)) by done. read_upd. done.
  - intros p [Hp1 _]%avoids_cons [Hp2 _]%avoids_cons. unfold relink. cbn [first last_pos].
    do 2 apply alter_lookup_ext. rewrite !lookup_alter_ne by done. by apply Hap.
  - intros p [Hp2 _]%avoids_cons Hpa. assert (p = pos size c s) as ->
      by (apply dec_stable; intros Hne; apply Hpa; avoid).
    do 2 (apply free_frame; [done|]). do 2 (apply free_frame; [done|]).
    eexists _, _. read_upd. rewrite Hap, Hn by done. done.
  - rewrite (rcv_at_head _ _ _ _ _ _ _ H). case_bool_decide; subst; [done|].
    rewrite (at_head _ _ _ _ H). by destruct l1 as [|[??]].
  - intros _. rewrite (rcv_at_tail _ _ _ _ _ _ _ H). case_bool_decide; subst; [by rewrite last_pos_app|].
    rewrite (at_tail _ _ _ _ H) by (by destruct l1). rewrite !last_pos_app. by destruct l2 as [|[??]].
  - cbn [numbers]. rewrite !app_nil_r, !length_range_numbers by lia. lia.
Qed.

Lemma end_before_run s x nx pr :
  s < x < s + 2 ^ 30 → ∀ e', 
  set_seqend (end_before (mkSeq (seqno s) e' nx pr) (seqno x)) (mkSeq (seqno s) e' nx pr)
  = mkSeq (seqno s) (stored_end s (x - 1)) nx pr.
Proof.
  intros Hx e'. unfold end_before. cbn [seqstart]. rewrite incseq_seqno, seqno_eqb by lia.
  destruct (Z.eqb_spec x (s + 1)) as [->|Hne].
  - by replace (s + 1 - 1) with s by lia; rewrite stored_end_single.
  - rewrite decseq_seqno, (stored_end_range s) by lia. done.
Qed.

(** The links as they are. *)
Lemma next_id size c L l1 l2 :
  rcv_at size c L (l1 ++ l2) →
  alter (set_inext (first size c l2 (-1))) (last_pos size c (-1) l1) (m_caSeq L) = m_caSeq L.
Proof.
  intros H. apply alter_id. intros n. pose proof (at_array _ _ _ _ H) as Ha.
  destruct l1 as [|[s e] l1 _] using rev_ind.
  - cbn [last_pos]. rewrite (array_ok_none size) by (done || lia). done.
  - rewrite <- (assoc_L (++)) in H. rewrite last_pos_snoc, (rcv_node _ _ _ _ _ _ _ H). by intros [= <-].
Qed.
Lemma prior_id size c L l1 l2 :
  rcv_at size c L (l1 ++ l2) →
  alter (set_iprior (last_pos size c (-1) l1)) (first size c l2 (-1)) (m_caSeq L) = m_caSeq L.
Proof.
  intros H. apply alter_id. intros n. pose proof (at_array _ _ _ _ H) as Ha. destruct l2 as [|[s e] l2].
  - cbn [first]. rewrite (array_ok_none size) by (done || lia). done.
  - cbn [first]. rewrite (rcv_node _ _ _ _ _ _ _ H). by intros [= <-].
Qed.
(** What is inside of the range of a node changes nothing around it. *)
Lemma relink_id size c L l1 mid l2 :
  rcv_at size c L (l1 ++ mid ++ l2) →
  relink size c l1 l2 (first size c (mid ++ l2) (-1)) (last_pos size c (-1) (l1 ++ mid)) (m_caSeq L)
  = m_caSeq L.
Proof.
  intros H. unfold relink. rewrite (next_id _ _ _ _ _ H). apply prior_id. by rewrite <- (assoc_L (++)).
Qed.

Lemma remove_last_run size c L l1 s x l2 :
  rcv_at size c L (l1 ++ (s, x) :: l2) → s < x →
  ∃ L', remove_last L (pos size c s) (seqno x) = Some L' ∧ rcv_at size c L' (l1 ++ (s, x - 1) :: l2).
Proof.
  intros H Hsx. pose proof (at_size _ _ _ _ H) as Hsz. pose proof (at_array _ _ _ _ H) as Ha.
  destruct (at_fits _ _ _ _ H) as [b Hfit].
  destruct (fits_split size c ltac:(lia) _ _ _ _ _ Hfit) as (Hb & He & Hav1 & Hav2 & L1 & L2 & Hb1).
  pose proof (pos_range size c ltac:(lia) s) as Hp.
  pose proof (last_pos_avoids size c _ _ (-1) Hav1 ltac:(lia)) as Hn1.
  pose proof (first_avoids size c _ _ (-1) Hav2 ltac:(lia)) as Hn2.
  pose proof (rcv_node _ _ _ _ _ _ _ H) as Hn.
  unfold remove_last. rewrite Hn. cbn [mbind option_bind]. step_upd. rewrite (at_msize _ _ _ _ H).
  eexists. split; [done|].
  destruct (fits_parts size c b l1 [(s, x)] l2 ltac:(lia) Hfit) as [P1 P2].
  apply (rcv_replace size c L l1 [(s, x)] [(s, x - 1)] l2); [done| |eauto with array| | | | | |].
  - exists b. apply (fits_replace size b l1 [(s, x)]); [exact Hfit|cbn; split; [lia|done]|cbn [end_of]; lia].
  - cbn [seg first]. split; [|done]. rewrite lookup_alter_eq, Hn. cbn [fmap option_fmap option_map].
    by rewrite end_before_run by lia.
  - intros p [Hp1 _]%avoids_cons _. rewrite lookup_alter_ne by done.
    by rewrite <- (relink_id _ _ _ l1 [(s, x)] l2 H) at 1; rewrite last_pos_app.
  - intros p Hp1 Hp2. exfalso. apply Hp2. avoid.
  - rewrite (at_head _ _ _ _ H). by destruct l1 as [|[??]].
  - intros _. by rewrite (at_tail _ _ _ _ H), !last_pos_app by (by destruct l1).
  - cbn [numbers]. rewrite !app_nil_r, !length_range_numbers by lia. lia.
Qed.

Lemma remove_split_run size c L l1 s e l2 x :
  rcv_at size c L (l1 ++ (s, e) :: l2) → s < x < e →
  ∃ L', remove_split L (pos size c s) (pos size c x) (seqno x) = Some L' ∧
    rcv_at size c L' (l1 ++ (s, x - 1) :: (x + 1, e) :: l2).
Proof.
  intros H Hse. pose proof (at_size _ _ _ _ H) as Hsz. pose proof (at_array _ _ _ _ H) as Ha.
  destruct (at_fits _ _ _ _ H) as [b Hfit].
  destruct (fits_split size c ltac:(lia) _ _ _ _ _ Hfit) as (Hb & He & Hav1 & Hav2 & L1 & L2 & Hb1).
  assert (fits size b (l1 ++ [(s, x - 1); (x + 1, e)] ++ l2)) as Hfit'.
  { apply (fits_replace size b l1 [(s, e)]); [exact Hfit| |cbn [end_of]; lia].
    cbn. split_and!; (lia || done). }
  assert (fits size b ((l1 ++ [(s, x - 1)]) ++ (x + 1, e) :: l2)) as Hfit'' by (by rewrite <- (assoc_L (++))).
  destruct (fits_split size c ltac:(lia) _ _ _ _ _ Hfit'') as (_ & _ & [Hav1' _]%avoids_app & Hav2' & _).
  pose proof (pos_range size c ltac:(lia) s) as Hp. pose proof (pos_range size c ltac:(lia) (x + 1)) as Hp'.
  pose proof (pos_range size c ltac:(lia) x) as Hpx.
  assert (pos size c (x + 1) ≠ pos size c s) as Hpne by (apply pos_ne; lia).
  pose proof (last_pos_avoids size c _ _ (-1) Hav1 ltac:(lia)) as Hn1.
  pose proof (first_avoids size c _ _ (-1) Hav2 ltac:(lia)) as Hn2.
  pose proof (last_pos_avoids size c _ _ (-1) Hav1' ltac:(lia)) as Hn1'.
  pose proof (first_avoids size c _ _ (-1) Hav2' ltac:(lia)) as Hn2'.
  pose proof (rcv_node _ _ _ _ _ _ _ H) as Hn.
  destruct (at_free _ _ _ _ H (pos size c (x + 1))) as (nx & pr & Hfree); [done|avoid|].
  unfold remove_split. rewrite (at_msize _ _ _ _ H), pos_rem by lia. step_upd.
  rewrite (lookup_alter_ne _ _ _ (pos size c s)), Hn by done. cbn [mbind option_bind seqend].
  rewrite lookup_alter_eq, Hfree.
  cbn [fmap option_fmap option_map mbind option_bind]. cbn [set_seqstart seqstart].
  rewrite stored_end_range, incseq_seqno, seqcmp_gt by (unfold near, m_iSeqNoTH; lia).
  destruct (put_rest size _ (x + 1) e _ _ _ Ha Hp' ltac:(lia) Hfree) as (a & -> & Haa & Hai & Hap).
  cbn [mbind option_bind].
  rewrite Hap, Hn by done. cbn [mbind option_bind]. step_upd.
  rewrite lookup_alter_eq, Hap, Hn by done.
  cbn [fmap option_fmap option_map mbind option_bind]. cbn [set_seqend inext]. do 3 step_upd.
  rewrite lookup_alter_eq, lookup_alter_ne, lookup_alter_eq, lookup_alter_ne, Hai by done.
  cbn [fmap option_fmap option_map mbind option_bind]. cbn [set_inext set_iprior inext].
  rewrite (upd_next _ _ _ _ _ _ _ _ _ H) by eauto 10 with array. cbn [mbind option_bind].
  eexists. split; [done|].
  apply (rcv_replace size c L l1 [(s, e)] [(s, x - 1); (x + 1, e)] l2);
    [done|by exists b|eauto 10 with array| | | | | |].
  - cbn [seg first]. rewrite !(lookup_alter_ne _ _ (first _ _ _ _)) by done. split_and!; [..|done].
    + read_upd. rewrite Hap, Hn by done. cbn [fmap option_fmap option_map].
      by rewrite end_before_run by lia.
    + read_upd. done.
  - intros p [Hp1 _]%avoids_cons [_ [Hp2 _]%avoids_cons]%avoids_cons. unfold relink. cbn [first last_pos].
    apply alter_lookup_ext.
    pose proof (next_id _ _ _ l1 ((s, e) :: l2) H) as E. cbn [first] in E. rewrite E.
    rewrite !lookup_alter_ne by done. by apply Hap.
  - intros p [Hp1 _]%avoids_cons Hpa. exfalso. apply Hpa. avoid.
  - rewrite (at_head _ _ _ _ H). by destruct l1 as [|[??]].
  - intros _. rewrite (rcv_at_tail _ _ _ _ _ _ _ H). case_bool_decide; subst; [by rewrite last_pos_app|].
    rewrite (at_tail _ _ _ _ H) by (by destruct l1). rewrite !last_pos_app. by destruct l2 as [|[??]].
  - cbn [numbers]. rewrite !app_nil_r, length_app, Nat2Z.inj_add, !length_range_numbers by lia. lia.
Qed.

(** ** Removing *)

(** The search goes down to the last range that starts at [y] or before. *)
Lemma search_prior_at size c L h l1 s e l2 fuel y :
  rcv_at size c L (l1 ++ (s, e) :: l2) → fits size h (l1 ++ (s, e) :: l2) →
  s <= y < s + Z.of_nat fuel → y < h + size → (∀ r, r ∈ l2 → y < r.1) →
  search_prior fuel (m_caSeq L) size (pos size c y) = Some (pos size c s).
Proof.
  intros H Hfit. pose proof (at_size _ _ _ _ H) as Hsz. revert y.
  induction fuel as [|fuel IH]; intros y Hy Hys Hl2; [lia|]. cbn [search_prior].
  destruct (fits_split size c ltac:(lia) _ _ _ _ _ Hfit) as (Hb & _ & _ & _ & L1 & _).
  destruct (decide (y = s)) as [->|Hne].
  - rewrite (rcv_node _ _ _ _ _ _ _ H). cbn [mbind option_bind seqstart].
    rewrite (proj2 (Z.eqb_neq _ _)); [done|]. intros E. by apply (seqno_not_none s).
  - pose proof (pos_range size c ltac:(lia) y) as Hp.
    destruct (at_free _ _ _ _ H (pos size c y)) as (nx & pr & ->); [done| |].
    + apply (fits_avoids size c ltac:(lia) h); [done| |lia]. intros r Hr E.
      pose proof (fits_bounds size _ _ r Hfit Hr) as [? _].
      apply elem_of_app in Hr as [Hr|[->|Hr]%elem_of_cons].
      * specialize (L1 _ Hr). lia.
      * simpl in E. lia.
      * specialize (Hl2 _ Hr). lia.
    + cbn [mbind option_bind seqstart]. rewrite Z.eqb_refl.
      replace (pos size c y - 1 + size) with (pos size c y + (size - 1)) by lia.
      rewrite pos_rem by lia. replace (y + (size - 1)) with (y - 1 + size) by lia. rewrite pos_turn.
      apply IH; [lia|lia|]. intros r Hr. specialize (Hl2 _ Hr). lia.
Qed.

(** The slot of a number holds the range that starts with it, if any. *)
Lemma slot_start size c L h l x n :
  rcv_at size c L l → fits size h l → h <= x < h + 2 ^ 30 → m_caSeq L !! pos size c x = Some n →
  seqstart n = seqno x → ∃ l1 e l2, l = l1 ++ (x, e) :: l2.
Proof.
  intros H Hfit Hx Hn E. pose proof (at_size _ _ _ _ H) as Hsz.
  destruct (slot_cases mkSeq size c (m_caSeq L) l (-1) (pos size c x)) as [(nx & pr & Hf)|Hs].
  - apply H. - apply H. - by apply pos_range; lia.
  - exfalso. rewrite Hn in Hf. injection Hf as ->. simpl in E. by apply (seqno_not_none x).
  - destruct Hs as (l1 & s & e & l2 & -> & _ & Hs). rewrite Hn in Hs. injection Hs as ->. cbn [seqstart] in E.
    destruct (fits_bounds size _ _ (s, e) Hfit) as [? ?]; [apply elem_of_app; right; left|]. simpl in *.
    apply seqno_inj in E as <-; [|lia]. by exists l1, e, l2.
Qed.

(** Removing the number [x] from the ranges [mid]. *)
Lemma numbers_without b b' l1 mid mid' l2 x :
  sorted_from b (l1 ++ mid ++ l2) → sorted_from b' (l1 ++ mid' ++ l2) →
  (∀ y, y ∈ numbers mid' ↔ y ∈ numbers mid ∧ y ≠ x) → x ∈ numbers mid →
  numbers (l1 ++ mid' ++ l2) = filter (λ y, y ≠ x) (numbers (l1 ++ mid ++ l2)).
Proof.
  intros H H' Hm Hx. apply sorted_ext.
  - by eapply numbers_sorted.
  - apply sorted_filter. by eapply numbers_sorted.
  - intros y. rewrite list_elem_of_filter, !numbers_app, !elem_of_app, Hm.
    apply sorted_from_app in H as [H1 [H2 H3]%sorted_from_app].
    pose proof (numbers_bounds _ _ _ H2 Hx) as Hb.
    assert (y ∈ numbers l1 → y ≠ x) by (intros Hy%(numbers_bounds _ _ _ H1); lia).
    assert (y ∈ numbers l2 → y ≠ x) by (intros Hy%(numbers_bounds _ _ _ H3); lia).
    tauto.
Qed.

Definition removes (size c : Z) (L' : CRcvLossList) (l : list range) (x : Z) : Prop :=
  ∃ l', rcv_at size c L' l' ∧ numbers l' = filter (λ y, y ≠ x) (numbers l).

Lemma removes_mid size c L L' l1 mid mid' l2 x :
  rcv_at size c L (l1 ++ mid ++ l2) → rcv_at size c L' (l1 ++ mid' ++ l2) →
  (∀ y, y ∈ numbers mid' ↔ y ∈ numbers mid ∧ y ≠ x) → x ∈ numbers mid →
  removes size c L' (l1 ++ mid ++ l2) x.
Proof.
  intros [_ _ _ [b [Hb _]] _ _ _ _ _] H' Hm Hx. exists (l1 ++ mid' ++ l2). split; [done|].
  destruct H' as [_ _ _ [b' [Hb' _]] _ _ _ _ _]. by eapply numbers_without.
Qed.
Lemma removes_none size c L l x : rcv_at size c L l → x ∉ numbers l → removes size c L l x.
Proof. intros H Hx. exists l. split; [done|]. by rewrite filter_out. Qed.

(** The number at the start of a range. *)
Lemma remove_start_run size c L l1 x e l2 :
  rcv_at size c L (l1 ++ (x, e) :: l2) →
  ∃ L', (if x =? e then remove_single L (pos size c x) else remove_first L (pos size c x)) = Some L' ∧
    removes size c L' (l1 ++ (x, e) :: l2) x.
Proof.
  intros H. destruct (at_fits _ _ _ _ H) as [b Hfit]. pose proof (at_size _ _ _ _ H).
  destruct (fits_split size c ltac:(lia) _ _ _ _ _ Hfit) as (Hb & _).
  destruct (Z.eqb_spec x e) as [<-|Hne].
  - destruct (remove_single_run _ _ _ _ _ _ H) as (L' & -> & H'). exists L'. split; [done|].
    apply (removes_mid size c L L' l1 [(x, x)] [] l2 x); [done|done| |].
    + intros y. rewrite elem_of_single_range. split; [by intros ?%not_elem_of_nil|lia].
    + apply elem_of_single_range. lia.
  - destruct (remove_first_run _ _ _ _ _ _ _ H) as (L' & -> & H'); [lia|]. exists L'. split; [done|].
    apply (removes_mid size c L L' l1 [(x, e)] [(x + 1, e)] l2 x); [done|done| |].
    + intros y. rewrite !elem_of_single_range. lia.
    + apply elem_of_single_range. lia.
Qed.

(** The number inside of a range, or at its end. *)
Lemma remove_inside_run size c L l1 s e l2 x :
  rcv_at size c L (l1 ++ (s, e) :: l2) → s < x <= e →
  ∃ L', (if x =? e then remove_last L (pos size c s) (seqno x)
         else remove_split L (pos size c s) (pos size c x) (seqno x)) = Some L' ∧
    removes size c L' (l1 ++ (s, e) :: l2) x.
Proof.
  intros H Hx. destruct (Z.eqb_spec x e) as [<-|Hne].
  - destruct (remove_last_run _ _ _ _ _ _ _ H) as (L' & -> & H'); [lia|]. exists L'. split; [done|].
    apply (removes_mid size c L L' l1 [(s, x)] [(s, x - 1)] l2 x); [done|done| |].
    + intros y. rewrite !elem_of_single_range. lia.
    + apply elem_of_single_range. lia.
  - destruct (remove_split_run _ _ _ _ _ _ _ x H) as (L' & -> & H'); [lia|]. exists L'. split; [done|].
    apply (removes_mid size c L L' l1 [(s, e)] [(s, x - 1); (x + 1, e)] l2 x); [done|done| |].
    + intros y. change (numbers [(s, x - 1); (x + 1, e)]) with (range_numbers (s, x - 1) ++ numbers [(x + 1, e)]).
      rewrite elem_of_app, elem_of_range_numbers, !elem_of_single_range. simpl. lia.
    + apply elem_of_single_range. lia.
Qed.

(** Which range the search finds for a number that starts none. *)
Lemma search_finds size c L h e0 l x :
  rcv_at size c L ((h, e0) :: l) → fits size h ((h, e0) :: l) → h <= x →
  (∀ l1 e l2, (h, e0) :: l ≠ l1 ++ (x, e) :: l2) →
  ∃ l1 s e l2, (h, e0) :: l = l1 ++ (s, e) :: l2 ∧
    search_prior (Z.to_nat size) (m_caSeq L) size (Z.rem (pos size c x - 1 + size) size)
      = Some (pos size c s) ∧
    (x < h + size → s < x ∧ ∀ r, r ∈ l2 → x < r.1).
Proof.
  intros H Hfit Hx Hno. pose proof (at_size _ _ _ _ H) as Hsz. pose proof (pos_range size c ltac:(lia) x) as Hp.
  replace (pos size c x - 1 + size) with (pos size c x + (size - 1)) by lia. rewrite pos_rem by lia.
  destruct (decide (x < h + size)) as [Hlt|Hge].
  - assert (x ≠ h) by (intros ->; by apply (Hno [] e0 l)).
    destruct (range_split_at h h e0 l (x - 1) (proj1 Hfit)) as (l1 & s & e & l2 & E & Hs & Hl2); [lia|].
    rewrite E in *. destruct (fits_bounds size _ _ (s, e) Hfit) as [? ?]; [apply elem_of_app; right; left|].
    exists l1, s, e, l2. split_and!; [done| |].
    + replace (x + (size - 1)) with (x - 1 + size) by lia. rewrite pos_turn.
      simpl in *. eapply search_prior_at; [done|exact Hfit|lia|lia|done].
    + intros _. split; [lia|]. intros r Hr. specialize (Hl2 _ Hr). destruct r as [r1 r2]. simpl in *.
      enough (r1 ≠ x) by lia. intros ->. apply list_elem_of_split in Hr as (k1 & k2 & ->).
      apply (Hno (l1 ++ (s, e) :: k1) r2 k2). by rewrite <- (assoc_L (++)).
  - set (y := h + (x + (size - 1) - h) mod size).
    pose proof (Z.mod_pos_bound (x + (size - 1) - h) size ltac:(lia)) as Hm.
    destruct (range_split_at h h e0 l y (proj1 Hfit)) as (l1 & s & e & l2 & E & Hs & Hl2); [unfold y; lia|].
    assert (pos size c (x + (size - 1)) = pos size c y) as ->.
    { unfold pos, y. rewrite <- (Zplus_mod_idemp_l (h + _)), (Zplus_mod_idemp_r _ h).
      rewrite Zplus_mod_idemp_l. f_equal. lia. }
    rewrite E in *. destruct (fits_bounds size _ _ (s, e) Hfit) as [? ?]; [apply elem_of_app; right; left|].
    exists l1, s, e, l2. split_and!; [done| |lia].
    simpl in *. eapply search_prior_at; [done|exact Hfit|unfold y in *; lia|unfold y; lia|done].
Qed.

Lemma remove_outside size c L h e0 l x :
  rcv_at size c L ((h, e0) :: l) → fits size h ((h, e0) :: l) → h <= x → near h x →
  (∀ l1 e l2, (h, e0) :: l ≠ l1 ++ (x, e) :: l2) →
  ∃ L', (i ← search_prior (Z.to_nat size) (m_caSeq L) size (Z.rem (pos size c x - 1 + size) size);
     n ← m_caSeq L !! i;
     if (SRT_SEQNO_NONE =? seqend n) || (0 <? seqcmp (seqno x) (seqend n)) then Some (false, L)
     else
       L ← (if seqno x =? seqend n then remove_last L i (seqno x)
            else remove_split L i (pos size c x) (seqno x));
       Some (true, L))
  = Some (bool_decide (x ∈ numbers ((h, e0) :: l)), L') ∧ removes size c L' ((h, e0) :: l) x.
Proof.
  intros H Hfit Hx Hn Hno. pose proof (at_size _ _ _ _ H) as Hsz. unfold near, m_iSeqNoTH in Hn.
  destruct (search_finds _ _ _ _ _ _ _ H Hfit Hx Hno) as (l1 & s & e & l2 & E & Hs & Hlt).
  rewrite Hs. cbn [mbind option_bind]. clear Hs Hno. rewrite E in *. clear E e0.
  destruct (fits_split size c ltac:(lia) _ _ _ _ _ Hfit) as (Hb & He & _ & _ & L1 & _).
  rewrite (rcv_node _ _ _ _ _ _ _ H). cbn [mbind option_bind seqend]. rewrite stored_end_none.
  assert (x ∈ numbers (l1 ++ (s, e) :: l2) ↔ x < h + size ∧ s < x <= e) as Hin.
  { split.
    - intros (r & Hr & Hrx)%elem_of_numbers. destruct (fits_bounds size _ _ r Hfit Hr).
      destruct (Hlt ltac:(lia)) as [Hsx Hl2]. apply elem_of_app in Hr as [Hr|[->|Hr]%elem_of_cons].
      + specialize (L1 _ Hr). lia.
      + simpl in *. lia.
      + specialize (Hl2 _ Hr). lia.
    - intros [_ Hse]. apply elem_of_numbers. exists (s, e). split; [apply elem_of_app; right; left|simpl; lia]. }
  destruct (Z.eqb_spec s e) as [->|Hse]; cbn [orb].
  { rewrite bool_decide_false by (rewrite Hin; lia). exists L. split; [done|].
    apply removes_none; [done|rewrite Hin; lia]. }
  rewrite stored_end_range by lia. rewrite seqcmp_gt by (unfold near, m_iSeqNoTH; lia).
  destruct (Z.ltb_spec e x).
  { rewrite bool_decide_false by (rewrite Hin; lia). exists L. split; [done|].
    apply removes_none; [done|rewrite Hin; lia]. }
  rewrite bool_decide_true by (rewrite Hin; split; [lia|]; destruct Hlt as [? _]; lia).
  rewrite seqno_eqb by lia. destruct Hlt as [Hsx _]; [lia|].
  destruct (remove_inside_run _ _ _ _ _ _ _ x H ltac:(lia)) as (L' & -> & H'). by exists L'.
Qed.

Lemma remove_run size c L h e0 l x :
  rcv_at size c L ((h, e0) :: l) → near h x →
  ∃ L', CRcvLossList_remove L (seqno x) = Some (bool_decide (x ∈ numbers ((h, e0) :: l)), L') ∧
    removes size c L' ((h, e0) :: l) x.
Proof.
  intros H Hn. destruct (at_fits _ _ _ _ H) as [b Hfit]. apply fits_head in Hfit.
  pose proof (at_size _ _ _ _ H) as Hsz. unfold CRcvLossList_remove.
  rewrite (rcv_empty _ _ _ _ H), bool_decide_false by done.
  rewrite (rcv_head _ _ _ _ _ _ H). cbn [mbind option_bind seqstart]. rewrite seqoff_seqno by done.
  destruct (Z.ltb_spec (x - h) 0).
  { assert (x ∉ numbers ((h, e0) :: l)) as Hx by (intros Hx%(numbers_bounds _ _ _ (proj1 Hfit)); lia).
    rewrite bool_decide_false by done. exists L. split; [done|]. by apply removes_none. }
  rewrite (rcv_loc _ _ _ _ _ _ _ H) by (done || lia). rewrite (at_msize _ _ _ _ H).
  pose proof (pos_range size c ltac:(lia) x) as Hp.
  destruct (m_caSeq L !! pos size c x) as [n|] eqn:Hnx.
  2:{ apply (at_array _ _ _ _ H) in Hp as [? Hp]. congruence. }
  cbn [mbind option_bind]. unfold near, m_iSeqNoTH in Hn.
  destruct (Z.eqb_spec (seqno x) (seqstart n)) as [E|Hne].
  - destruct (slot_start _ _ _ _ _ x _ H Hfit ltac:(lia) Hnx (eq_sym E)) as (l1 & e & l2 & El).
    rewrite El in *. rewrite (rcv_node _ _ _ _ _ _ _ H) in Hnx. injection Hnx as <-. cbn [seqend].
    rewrite stored_end_none. destruct (remove_start_run _ _ _ _ _ _ _ H) as (L' & -> & H').
    cbn [mbind option_bind]. exists L'. split; [|done]. rewrite bool_decide_true; [done|].
    destruct (fits_split size c ltac:(lia) _ _ _ _ _ Hfit) as (? & _).
    apply elem_of_numbers. exists (x, e). split; [apply elem_of_app; right; left|simpl; lia].
  - apply remove_outside; [done|done|lia|done|]. intros l1 e l2 El. rewrite El in H.
    rewrite (rcv_node _ _ _ _ _ _ _ H) in Hnx. by injection Hnx as <-.
Qed.


Lemma CRcvLossList_remove_run size L ns x :
  rcv_holds size L ns → near_first ns x →
  ∃ L', CRcvLossList_remove L (seqno x) = Some (bool_decide (x ∈ ns), L') ∧
    rcv_holds size L' (filter (λ y, y ≠ x) ns).
Proof.
  intros (c & l & H & <-) Hx. destruct l as [|[h e0] l].
  - unfold CRcvLossList_remove. rewrite (rcv_empty _ _ _ _ H), bool_decide_true by done.
    exists L. split; [done|]. by exists c, [].
  - destruct (at_fits _ _ _ _ H) as [b [[Hb _] _]].
    destruct (remove_run _ _ _ _ _ _ x H) as (L' & -> & l' & H' & E); [apply Hx, numbers_head; lia|].
    exists L'. split; [done|]. by exists c, l'.
Qed.



(** The loop over the numbers from [i] to [j - 1], whose wrapped numbers do not
    reach [m_iMaxSeqNo]. *)
Lemma remove_loop_run size fuel i j hi (strict : bool) L ns :
  rcv_holds size L ns → (∀ x, i <= x < j → near_all ns x) → i <= j < i + Z.of_nat fuel →
  seqno i + (j - i) <= m_iMaxSeqNo → hi = seqno i + (j - i) - (if strict then 0 else 1) →
  ∃ L', remove_loop fuel L (seqno i) hi strict = Some L' ∧
    rcv_holds size L' (filter (λ y, ¬ (i <= y < j)) ns).
Proof.
  revert i L ns. induction fuel as [|fuel IH]; intros i L ns H Hn Hij Hmax Hhi; [lia|]. cbn [remove_loop].
  assert ((if strict then seqno i <? hi else seqno i <=? hi) = (i <? j)) as ->
    by (apply Bool.eq_iff_eq_true; destruct strict; lia).
  destruct (Z.ltb_spec i j) as [Hlt|Hge].
  - destruct (CRcvLossList_remove_run size L ns i H) as (L1 & -> & H1).
    { apply near_all_first, Hn. lia. }
    cbn [mbind option_bind]. unfold m_iMaxSeqNo in *. rewrite (proj2 (Z.eqb_neq _ _)) by lia.
    assert (seqno i + 1 = seqno (i + 1)) as E.
    { pose proof (seqno_range i). unfold seqno, m_iMaxSeqNo in *. divlia. }
    rewrite E. destruct (IH (i + 1) L1 _ H1) as (L' & -> & H'); [|lia|lia|lia|].
    + intros x Hx. apply near_all_filter, Hn. lia.
    + exists L'. split; [done|]. erewrite filter_twice in H'; [exact H'|]. intros y. simpl. lia.
  - exists L. split; [done|]. assert (i = j) as <- by lia.
    replace (filter (λ y, ¬ (i <= y < i)) ns) with ns; [done|].
    symmetry. clear. induction ns as [|a ns IH]; [done|]. rewrite filter_cons_True by lia. by rewrite IH.
Qed.

(** A range that does not wrap around, and does not end with [m_iMaxSeqNo]. *)
Lemma remove_range_run size L ns lo hi :
  rcv_holds size L ns → lo <= hi → (∀ x, lo <= x <= hi → near_all ns x) →
  seqno lo + (hi - lo) < m_iMaxSeqNo →
  ∃ L', CRcvLossList_remove_range L (seqno lo) (seqno hi) = Some (true, L') ∧
    rcv_holds size L' (filter (λ y, ¬ (lo <= y <= hi)) ns).
Proof.
  intros H Hlh Hn Hmax. assert (seqno hi = seqno lo + (hi - lo)) as E.
  { pose proof (seqno_range lo). unfold seqno, m_iMaxSeqNo in *. divlia. }
  unfold CRcvLossList_remove_range, remove_for. rewrite E, (proj2 (Z.leb_le _ _)) by lia.
  destruct (remove_loop_run size (Z.to_nat (seqno lo + (hi - lo) - seqno lo + 2)) lo (hi + 1)
    (seqno lo + (hi - lo)) false L ns H) as (L' & -> & H'); [|lia|lia|lia|].
  - intros x Hx. apply Hn. lia.
  - exists L'. split; [done|]. erewrite (list_filter_iff _ (λ y, ¬ (lo <= y < hi + 1))); [exact H'|].
    intros y. lia.
Qed.

(** A range that wraps around: the number before the wrap stays. *)
Lemma remove_range_wrap size L ns lo hi m :
  rcv_holds size L ns → lo <= m < hi → (∀ x, lo <= x <= hi → near_all ns x) →
  seqno m = m_iMaxSeqNo → hi < lo + 2 ^ 31 - 1 →
  ∃ L', CRcvLossList_remove_range L (seqno lo) (seqno hi) = Some (true, L') ∧
    rcv_holds size L' (filter (λ y, ¬ (lo <= y <= hi) ∨ y = m) ns).
Proof.
  intros H Hlh Hn Hm Hhi. unfold m_iMaxSeqNo in *.
  assert (seqno lo = seqno m - (m - lo) ∧ seqno hi = hi - m - 1) as [El Eh].
  { pose proof (seqno_range lo). unfold seqno, m_iMaxSeqNo in *. divlia. }
  unfold CRcvLossList_remove_range, remove_for. rewrite (proj2 (Z.leb_gt _ _)) by lia.
  destruct (remove_loop_run size (Z.to_nat (m_iMaxSeqNo - seqno lo + 2)) lo m
    m_iMaxSeqNo true L ns H) as (L1 & -> & H1); [| | | |].
  - intros x Hx. apply Hn. lia.
  - unfold m_iMaxSeqNo. lia.
  - unfold m_iMaxSeqNo. lia.
  - unfold m_iMaxSeqNo. lia.
  - cbn [mbind option_bind].
    assert (seqno (m + 1) = 0) as E0 by (unfold seqno in *; divlia).
    destruct (remove_loop_run size (Z.to_nat (seqno hi - 0 + 2)) (m + 1) (hi + 1)
      (seqno hi) false L1 _ H1) as (L' & E & H'); [|lia|unfold m_iMaxSeqNo; lia|lia|].
    + intros x Hx. apply near_all_filter, Hn. lia.
    + rewrite E0 in E. rewrite E. exists L'. split; [done|].
      erewrite filter_twice in H'; [exact H'|]. intros y. simpl. lia.
Qed.

(** A range that ends with [m_iMaxSeqNo]: the loop has no way to end. *)
Lemma remove_loop_endless fuel L i :
  i <= m_iMaxSeqNo → remove_loop fuel L i m_iMaxSeqNo false = None.
Proof.
  revert L i. induction fuel as [|fuel IH]; intros L i Hi; [done|]. cbn [remove_loop].
  rewrite (proj2 (Z.leb_le _ _)) by done. destruct (CRcvLossList_remove L i) as [[b L']|]; [|done].
  cbn [mbind option_bind]. case_match eqn:E; [done|]. apply IH. unfold m_iMaxSeqNo in *. lia.
Qed.

(** ** Looking *)

Lemma rcv_nodes size c L l : rcv_at size c L l → (length l < S (Z.to_nat size))%nat.
Proof.
  intros H. destruct (at_fits _ _ _ _ H) as [b [Hb He]]. pose proof (at_size _ _ _ _ H).
  pose proof (length_ranges _ _ Hb). pose proof (length_numbers _ _ Hb). lia.
Qed.

Lemma node_meets_range s e nx pr x1 x2 :
  s <= e → x1 <= x2 → near s x1 → near s x2 → near e x1 →
  node_meets (mkSeq (seqno s) (stored_end s e) nx pr) (seqno x1) (seqno x2) = (s <=? x2) && (x1 <=? e).
Proof.
  intros Hse Hx H1 H2 He. unfold node_meets. cbn [seqstart seqend].
  rewrite seqcmp_eq, seqcmp_gt, seqcmp_le, seqcmp_lt by done.
  rewrite (Z.eqb_sym (stored_end s e)), stored_end_none.
  destruct (Z.eqb_spec s e) as [<-|Hne]; [cbn [negb andb]; lia|].
  rewrite stored_end_range, seqcmp_ge by done. lia.
Qed.

Lemma rcv_find_loop_run size c L l1 l2 fuel x1 x2 :
  rcv_at size c L (l1 ++ l2) → (length l2 < fuel)%nat → x1 <= x2 →
  near_all (numbers l2) x1 → near_all (numbers l2) x2 →
  find_loop fuel (m_caSeq L) (first size c l2 (-1)) (seqno x1) (seqno x2)
  = Some (bool_decide (Exists (λ y, x1 <= y <= x2) (numbers l2))).
Proof.
  intros H. destruct (at_fits _ _ _ _ H) as [b [Hb _]]. pose proof (at_size _ _ _ _ H) as Hsz.
  revert l1 fuel H Hb. induction l2 as [|[s e] l2 IH]; intros l1 fuel H Hb Hf Hx N1 N2;
    (destruct fuel as [|fuel]; [simpl in Hf; lia|]); cbn [find_loop].
  - rewrite first_none, bool_decide_true by (done || lia). by rewrite bool_decide_false by (by intros []%Exists_nil).
  - rewrite first_none, bool_decide_false by (done || lia). cbn [first].
    rewrite (rcv_node _ _ _ _ _ _ _ H). cbn [mbind option_bind].
    assert (s <= e) as Hse by (apply sorted_from_app in Hb as [_ [? _]]; lia).
    assert (s ∈ numbers ((s, e) :: l2)) as Hs by (apply (first_number s); split; [lia|];
      apply sorted_from_app in Hb as [_ [_ ?]]; done).
    assert (e ∈ numbers ((s, e) :: l2)) as He.
    { apply elem_of_numbers. exists (s, e). split; [left|simpl; lia]. }
    rewrite node_meets_range by auto. cbn [numbers].
    destruct ((s <=? x2) && (x1 <=? e)) eqn:E.
    + rewrite bool_decide_true; [done|]. apply Exists_app. left. apply Exists_exists.
      exists (Z.max s x1). rewrite elem_of_range_numbers. simpl. lia.
    + cbn [inext]. rewrite (IH (l1 ++ [(s, e)])); [|by rewrite <- (assoc_L (++))..|simpl in Hf; lia|done| |].
      * f_equal. apply bool_decide_ext. rewrite Exists_app. split; [by right|]. intros [Hex|?]; [|done].
        apply Exists_exists in Hex as (y & Hy%elem_of_range_numbers & ?). simpl in Hy. lia.
      * intros y Hy. apply N1. cbn [numbers]. apply elem_of_app. by right.
      * intros y Hy. apply N2. cbn [numbers]. apply elem_of_app. by right.
Qed.

Lemma CRcvLossList_find_run size L ns x1 x2 :
  rcv_holds size L ns → x1 <= x2 → near_all ns x1 → near_all ns x2 →
  CRcvLossList_find L (seqno x1) (seqno x2) = Some (bool_decide (Exists (λ y, x1 <= y <= x2) ns)).
Proof.
  intros (c & l & H & <-) Hx N1 N2. unfold CRcvLossList_find. rewrite (rcv_empty _ _ _ _ H).
  case_bool_decide as Hl.
  - subst l. by rewrite bool_decide_false by (by intros []%Exists_nil).
  - rewrite (at_msize _ _ _ _ H), (at_head _ _ _ _ H).
    eapply (rcv_find_loop_run size c L [] l); [done|by eapply rcv_nodes|done..].
Qed.

Lemma getLossLength_run size L ns :
  rcv_holds size L ns → CRcvLossList_getLossLength L = Z.of_nat (length ns).
Proof. intros (c & l & H & <-). apply H. Qed.

Lemma getFirstLostSeq_run size L ns :
  rcv_holds size L ns →
  CRcvLossList_getFirstLostSeq L = Some (match ns with [] => SRT_SEQNO_NONE | h :: _ => seqno h end).
Proof.
  intros (c & l & H & <-). unfold CRcvLossList_getFirstLostSeq. rewrite (rcv_empty _ _ _ _ H).
  destruct l as [|[h e] l]; [done|]. rewrite bool_decide_false by done.
  rewrite (rcv_head _ _ _ _ _ _ H). cbn [mbind option_bind seqstart].
  destruct (at_fits _ _ _ _ H) as [b [[Hb _] _]].
  pose proof (numbers_head h e l ltac:(lia)) as E. destruct (numbers ((h, e) :: l)); [done|].
  by injection E as ->.
Qed.

(** ** The words of a loss report *)

(** The words that report a range. *)
Definition range_words (r : range) : list Z :=
  if r.1 =? r.2 then [seqno r.1] else [Z.lor (seqno r.1) LOSSDATA_SEQNO_RANGE_FIRST; seqno r.2].
Fixpoint loss_words (l : list range) : list Z :=
  match l with [] => [] | r :: l' => range_words r ++ loss_words l' end.
(** The ranges that [limit] words have room for, after [len] words. *)
Fixpoint reported (limit len : Z) (l : list range) : list range :=
  match l with
  | [] => []
  | r :: l' =>
      if len <? limit - 1 then r :: reported limit (len + Z.of_nat (length (range_words r))) l' else []
  end.

Lemma length_range_words r : (1 <= length (range_words r) <= 2)%nat.
Proof. unfold range_words. case_match; simpl; lia. Qed.
Lemma length_loss_words b l : sorted_from b l → (length (loss_words l) <= 2 * length (numbers l))%nat.
Proof.
  revert b. induction l as [|[s e] l IH]; intros b; [done|]. intros [Hb H]. cbn [loss_words numbers].
  rewrite !length_app. specialize (IH _ H). pose proof (length_range_numbers s e ltac:(lia)).
  pose proof (length_range_words (s, e)). lia.
Qed.
Lemma reported_prefix limit len l : ∃ l', l = reported limit len l ++ l'.
Proof.
  revert len. induction l as [|r l IH]; intros len; [by exists []|]. cbn [reported]. case_match; [|by exists (r :: l)].
  destruct (IH (len + Z.of_nat (length (range_words r)))) as [l' E]. exists l'. cbn [app]. by rewrite <- E.
Qed.
Lemma reported_all limit len l :
  len + Z.of_nat (length (loss_words l)) < limit → reported limit len l = l.
Proof.
  revert len. induction l as [|r l IH]; intros len H; [done|]. cbn [reported loss_words] in *.
  rewrite length_app in H. pose proof (length_range_words r).
  rewrite (proj2 (Z.ltb_lt _ _)) by lia. rewrite IH; [done|lia].
Qed.
Lemma reported_room limit len l :
  len <= limit → len + Z.of_nat (length (loss_words (reported limit len l))) <= limit.
Proof.
  revert len. induction l as [|r l IH]; intros len H; [simpl; lia|]. cbn [reported].
  destruct (Z.ltb_spec len (limit - 1)); cbn [loss_words]; [|simpl; lia].
  rewrite length_app. pose proof (length_range_words r).
  specialize (IH (len + Z.of_nat (length (range_words r))) ltac:(lia)). lia.
Qed.

Lemma loss_array_loop_run size c L l1 l2 fuel limit array :
  rcv_at size c L (l1 ++ l2) → (length l2 < fuel)%nat →
  loss_array_loop fuel (m_caSeq L) limit (first size c l2 (-1)) array
  = Some (array ++ loss_words (reported limit (Z.of_nat (length array)) l2)).
Proof.
  intros H. pose proof (at_size _ _ _ _ H) as Hsz.
  revert l1 fuel array H. induction l2 as [|[s e] l2 IH]; intros l1 fuel array H Hf;
    (destruct fuel as [|fuel]; [simpl in Hf; lia|]); cbn [loss_array_loop reported].
  - rewrite first_none, bool_decide_true, andb_false_r by (done || lia). by rewrite app_nil_r.
  - rewrite first_none, bool_decide_false, andb_true_r by (done || lia).
    case_match; [|by rewrite app_nil_r]. cbn [first].
    rewrite (rcv_node _ _ _ _ _ _ _ H). cbn [mbind option_bind seqend seqstart inext].
    rewrite stored_end_none.
    replace (if s =? e then array ++ [seqno s]
      else array ++ [Z.lor (seqno s) LOSSDATA_SEQNO_RANGE_FIRST; stored_end s e])
      with (array ++ range_words (s, e)).
    + rewrite (IH (l1 ++ [(s, e)])) by first [by rewrite <- (assoc_L (++)) | simpl in Hf; lia].
      cbn [loss_words]. rewrite length_app, Nat2Z.inj_add, (assoc_L (++)). done.
    + unfold range_words. cbn [fst snd]. destruct (Z.eqb_spec s e); [done|]. by rewrite stored_end_range.
Qed.

Lemma getLossArray_run size c L l limit :
  rcv_at size c L l →
  CRcvLossList_getLossArray L limit = Some (loss_words (reported limit 0 l)).
Proof.
  intros H. unfold CRcvLossList_getLossArray. rewrite (at_msize _ _ _ _ H), (at_head _ _ _ _ H).
  rewrite (loss_array_loop_run size c L [] l); [done|done|by eapply rcv_nodes].
Qed.
