(* ===== verification/SndLoss.v ===== *)
(** * The loss list of the sender: CSndLossList (srtcore/list.cpp, list.h)

    [None] is an access out of the bounds of the array, or a loop that has not
    ended after as many steps as the array has nodes.  The assertions are those of
    a release build: none.  The mutex of the list makes each operation one step. *)
From S2P Require Import Prelude SeqNo LossRing.

Record Seq := mkSeq { seqstart : Z; seqend : Z; inext : Z }.
Definition set_seqstart (v : Z) (n : Seq) : Seq := mkSeq v (seqend n) (inext n).
Definition set_seqend (v : Z) (n : Seq) : Seq := mkSeq (seqstart n) v (inext n).
Definition set_inext (v : Z) (n : Seq) : Seq := mkSeq (seqstart n) (seqend n) v.

Abbreviation nodes := (gmap Z Seq).

Record CSndLossList :=
  { m_caSeq : nodes; m_iHead : Z; m_iLength : Z; m_iSize : Z; m_iLastInsertPos : Z }.
Definition with_nodes (a : nodes) (L : CSndLossList) : CSndLossList :=
  {| m_caSeq := a; m_iHead := m_iHead L; m_iLength := m_iLength L; m_iSize := m_iSize L;
     m_iLastInsertPos := m_iLastInsertPos L |}.
Definition with_head (v : Z) (L : CSndLossList) : CSndLossList :=
  {| m_caSeq := m_caSeq L; m_iHead := v; m_iLength := m_iLength L; m_iSize := m_iSize L;
     m_iLastInsertPos := m_iLastInsertPos L |}.
Definition with_length (v : Z) (L : CSndLossList) : CSndLossList :=
  {| m_caSeq := m_caSeq L; m_iHead := m_iHead L; m_iLength := v; m_iSize := m_iSize L;
     m_iLastInsertPos := m_iLastInsertPos L |}.
Definition with_last (v : Z) (L : CSndLossList) : CSndLossList :=
  {| m_caSeq := m_caSeq L; m_iHead := m_iHead L; m_iLength := m_iLength L; m_iSize := m_iSize L;
     m_iLastInsertPos := v |}.
(** [m_caSeq[p].field = v]. *)
Definition updL (p : Z) (f : Seq → Seq) (L : CSndLossList) : option CSndLossList :=
  a ← upd p f (m_caSeq L); Some (with_nodes a L).
Definition add_length (d : Z) (L : CSndLossList) : CSndLossList :=
  with_length (i32 (m_iLength L + d)) L.

(** [uninit]: the nodes [new Seq[size]] leaves uninitialised. *)
Definition CSndLossList_new (uninit : Z → Seq) (size : Z) : CSndLossList :=
  {| m_caSeq := list_to_map
       ((λ i, (i, set_seqend SRT_SEQNO_NONE (set_seqstart SRT_SEQNO_NONE (uninit i)))) <$> seqZ 0 size);
     m_iHead := -1; m_iLength := 0; m_iSize := size; m_iLastInsertPos := -1 |}.

Definition insertHead (L : CSndLossList) (p seqno1 seqno2 : Z) : option CSndLossList :=
  L ← updL p (set_seqstart seqno1) L;
  L ← (if seqno2 =? seqno1 then Some L else updL p (set_seqend seqno2) L);
  L ← updL p (set_inext (m_iHead L)) L;
  Some (add_length (seqlen seqno1 seqno2) (with_last p (with_head p L))).

Definition insertAfter (L : CSndLossList) (p pos_after seqno1 seqno2 : Z) : option CSndLossList :=
  L ← updL p (set_seqstart seqno1) L;
  L ← (if seqno2 =? seqno1 then Some L else updL p (set_seqend seqno2) L);
  m ← m_caSeq L !! pos_after;
  L ← updL p (set_inext (inext m)) L;
  L ← updL pos_after (set_inext p) L;
  Some (add_length (seqlen seqno1 seqno2) (with_last p L)).

(** The loop of [coalesce], first part of the body: the node [n] at [loc] gets the
    numbers of the next one, [m]. *)
Definition absorb (L : CSndLossList) (loc : Z) (n m : Seq) : option CSndLossList :=
  if negb (seqend m =? SRT_SEQNO_NONE) then
    if 0 <? seqcmp (seqend m) (seqend n) then
      let L :=
        if 0 <=? seqcmp (seqend n) (seqstart m)
        then add_length (- seqlen (seqstart m) (seqend n)) L else L in
      updL loc (set_seqend (seqend m)) L
    else Some (add_length (- seqlen (seqstart m) (seqend m)) L)
  else if seqstart m =? incseq (seqend n) then updL loc (set_seqend (seqstart m)) L
  else Some (with_length (m_iLength L - 1) L).

(** The whole body: the node [i] follows [loc], and is removed. *)
Definition coalesce_step (L : CSndLossList) (loc i : Z) (n m : Seq) : option CSndLossList :=
  L ← absorb L loc n m;
  L ← updL i (set_seqstart SRT_SEQNO_NONE) L;
  L ← updL i (set_seqend SRT_SEQNO_NONE) L;
  m ← m_caSeq L !! i;
  updL loc (set_inext (inext m)) L.
Fixpoint coalesce_loop (fuel : nat) (L : CSndLossList) (loc : Z) : option CSndLossList :=
  match fuel with
  | O => None
  | S fuel' =>
      n ← m_caSeq L !! loc;
      if negb (inext n =? -1) && negb (seqend n =? SRT_SEQNO_NONE) then
        let i := inext n in
        m ← m_caSeq L !! i;
        if 0 <? seqcmp (seqstart m) (incseq (seqend n)) then Some L
        else L ← coalesce_step L loc i n m; coalesce_loop fuel' L loc
      else Some L
  end.
Definition coalesce (L : CSndLossList) (loc : Z) : option CSndLossList :=
  coalesce_loop (S (Z.to_nat (m_iSize L))) L loc.

Definition updateElement (L : CSndLossList) (p seqno1 seqno2 : Z) : option (bool * CSndLossList) :=
  let L := with_last p L in
  if (seqno2 =? SRT_SEQNO_NONE) || (seqno2 =? seqno1) then Some (false, L)
  else
    n ← m_caSeq L !! p;
    if seqend n =? SRT_SEQNO_NONE then
      L ← updL p (set_seqend seqno2) (add_length (seqlen seqno1 seqno2 - 1) L);
      Some (true, L)
    else if seqcmp seqno2 (seqend n) <=? 0 then Some (false, L)
    else
      L ← updL p (set_seqend seqno2) (add_length (seqlen (seqend n) seqno2 - 1) L);
      Some (true, L).

(** [while (m_caSeq[i].inext != -1 && seqcmp(m_caSeq[m_caSeq[i].inext].seqstart, seqno1) < 0)
    i = m_caSeq[i].inext;] *)
Fixpoint skip_lower (fuel : nat) (a : nodes) (i seqno : Z) : option Z :=
  match fuel with
  | O => None
  | S fuel' =>
      n ← a !! i;
      if negb (inext n =? -1) then
        m ← a !! inext n;
        if seqcmp (seqstart m) seqno <? 0 then skip_lower fuel' a (inext n) seqno else Some i
      else Some i
  end.

(** Where [insert] puts the node: [None] when the loss is too old. *)
Definition insert_loc (L : CSndLossList) (h : Seq) (seqno1 seqno2 : Z) : option Z :=
  let loc := Z.rem (i32 (m_iHead L + seqoff (seqstart h) seqno1 + m_iSize L)) (m_iSize L) in
  if loc <? 0 then
    let loc_seqno2 := Z.rem (i32 (m_iHead L + seqoff (seqstart h) seqno2 + m_iSize L)) (m_iSize L) in
    if loc_seqno2 <? 0 then None else Some loc_seqno2
  else Some loc.

(** The end of the sequence of a node. *)
Definition node_end (n : Seq) : Z := if seqend n =? SRT_SEQNO_NONE then seqstart n else seqend n.

(** [insert] after the head, where no node starts with [seqno1]: the position to
    coalesce from, or [None] when the numbers were there already. *)
Definition insert_later (L : CSndLossList) (loc seqno1 seqno2 : Z) : option (option Z * CSndLossList) :=
  i ← (if negb (m_iLastInsertPos L =? -1) then
         n ← m_caSeq L !! m_iLastInsertPos L;
         Some (if seqcmp (seqstart n) seqno1 <? 0 then m_iLastInsertPos L else m_iHead L)
       else Some (m_iHead L));
  i ← skip_lower (S (Z.to_nat (m_iSize L))) (m_caSeq L) i seqno1;
  n ← m_caSeq L !! i;
  let seqend := node_end n in
  if (seqcmp seqend seqno1 <? 0) && negb (incseq seqend =? seqno1) then
    L ← insertAfter L loc i seqno1 seqno2;
    Some (Some loc, L)
  else
    let L := with_last i L in
    if 0 <=? seqcmp seqend seqno2 then Some (None, L)
    else
      L ← updL i (set_seqend seqno2) (add_length (seqlen seqend seqno2 - 1) L);
      Some (Some i, L).

Definition updated (loc : Z) (r : bool * CSndLossList) : option Z * CSndLossList :=
  (if r.1 then Some loc else None, r.2).

Definition CSndLossList_insert (L : CSndLossList) (seqno1 seqno2 : Z) : option (Z * CSndLossList) :=
  if (seqno1 <? 0) || (seqno2 <? 0) then Some (0, L)
  else
    let inserted_range := seqlen seqno1 seqno2 in
    if (inserted_range <=? 0) || (m_iSize L <=? inserted_range) then Some (0, L)
    else if m_iLength L =? 0 then
      L ← insertHead L 0 seqno1 seqno2;
      Some (m_iLength L, L)
    else
      let origlen := m_iLength L in
      h ← m_caSeq L !! m_iHead L;
      let offset := seqoff (seqstart h) seqno1 in
      if m_iSize L <=? offset then Some (0, L)
      else
        match insert_loc L h seqno1 seqno2 with
        | None => Some (0, L)
        | Some loc =>
            '(r, L) ←
              (if offset <? 0 then
                 L ← insertHead L loc seqno1 seqno2;
                 Some (Some loc, L)
               else if 0 <? offset then
                 n ← m_caSeq L !! loc;
                 if seqno1 =? seqstart n then updated loc <$> updateElement L loc seqno1 seqno2
                 else insert_later L loc seqno1 seqno2
               else updated loc <$> updateElement L (m_iHead L) seqno1 seqno2);
            match r with
            | None => Some (0, L)
            | Some loc =>
                L ← coalesce L loc;
                Some (i32 (m_iLength L - origlen), L)
            end
        end.

(** [removeUpTo] of the number the list begins with. *)
Definition remove_head (L : CSndLossList) (loc seqno : Z) : option CSndLossList :=
  let head := m_iHead L in
  let loc := Z.rem (loc + 1) (m_iSize L) in
  h ← m_caSeq L !! head;
  '(loc, L) ←
    (if SRT_SEQNO_NONE =? seqend h then Some (inext h, L)
     else
       L ← updL loc (set_seqstart (incseq seqno)) L;
       h ← m_caSeq L !! head;
       L ← (if 0 <? seqcmp (seqend h) (incseq seqno) then updL loc (set_seqend (seqend h)) L
            else Some L);
       L ← updL head (set_seqend SRT_SEQNO_NONE) L;
       h ← m_caSeq L !! head;
       L ← updL loc (set_inext (inext h)) L;
       Some (loc, L));
  L ← updL head (set_seqstart SRT_SEQNO_NONE) L;
  let L := if m_iLastInsertPos L =? head then with_last (-1) L else L in
  Some (with_length (m_iLength L - 1) (with_head loc L)).

(** [removeUpTo]: the new head, when a node starts with [seqno]. *)
Definition cut_at (L : CSndLossList) (temp seqno : Z) : option CSndLossList :=
  let loc := Z.rem (temp + 1) (m_iSize L) in
  n ← m_caSeq L !! temp;
  if SRT_SEQNO_NONE =? seqend n then Some (with_head (inext n) L)
  else
    L ← updL loc (set_seqstart (incseq seqno)) L;
    n ← m_caSeq L !! temp;
    m ← m_caSeq L !! loc;
    L ← (if 0 <? seqcmp (seqend n) (seqstart m) then updL loc (set_seqend (seqend n)) L
         else Some L);
    let L := with_head loc L in
    n ← m_caSeq L !! temp;
    L ← updL loc (set_inext (inext n)) L;
    L ← updL temp (set_inext loc) L;
    updL temp (set_seqend SRT_SEQNO_NONE) L.

(** [removeUpTo]: the new head, when no node starts with [seqno]. *)
Definition cut_after (L : CSndLossList) (loc seqno : Z) : option CSndLossList :=
  i ← skip_lower (S (Z.to_nat (m_iSize L))) (m_caSeq L) (m_iHead L) seqno;
  let loc := Z.rem (loc + 1) (m_iSize L) in
  n ← m_caSeq L !! i;
  if SRT_SEQNO_NONE =? seqend n then Some (with_head (inext n) L)
  else if 0 <? seqcmp (seqend n) seqno then
    L ← updL loc (set_seqstart (incseq seqno)) L;
    n ← m_caSeq L !! i;
    m ← m_caSeq L !! loc;
    L ← (if 0 <? seqcmp (seqend n) (seqstart m) then updL loc (set_seqend (seqend n)) L
         else Some L);
    L ← updL i (set_seqend seqno) L;
    n ← m_caSeq L !! i;
    L ← updL loc (set_inext (inext n)) L;
    L ← updL i (set_inext loc) L;
    Some (with_head loc L)
  else Some (with_head (inext n) L).

(** [while (h != m_iHead)]: the nodes before the new head are removed. *)
Fixpoint drop_nodes (fuel : nat) (L : CSndLossList) (h : Z) : option CSndLossList :=
  match fuel with
  | O => None
  | S fuel' =>
      if h =? m_iHead L then Some L
      else
        n ← m_caSeq L !! h;
        L ← (if negb (seqend n =? SRT_SEQNO_NONE) then
               updL h (set_seqend SRT_SEQNO_NONE) (add_length (- seqlen (seqstart n) (seqend n)) L)
             else Some (with_length (m_iLength L - 1) L));
        L ← updL h (set_seqstart SRT_SEQNO_NONE) L;
        let L := if m_iLastInsertPos L =? h then with_last (-1) L else L in
        n ← m_caSeq L !! h;
        drop_nodes fuel' L (inext n)
  end.

Definition CSndLossList_removeUpTo (L : CSndLossList) (seqno : Z) : option CSndLossList :=
  if 0 =? m_iLength L then Some L
  else
    h ← m_caSeq L !! m_iHead L;
    let offset := seqoff (seqstart h) seqno in
    let loc := Z.rem (i32 (m_iHead L + offset + m_iSize L)) (m_iSize L) in
    if 0 =? offset then remove_head L loc seqno
    else if 0 <? offset then
      let h := m_iHead L in
      n ← m_caSeq L !! loc;
      L ← (if seqno =? seqstart n then cut_at L loc seqno else cut_after L loc seqno);
      drop_nodes (S (S (Z.to_nat (m_iSize L)))) L h
    else Some L.

Definition CSndLossList_getLossLength (L : CSndLossList) : Z := m_iLength L.

Definition CSndLossList_popLostSeq (L : CSndLossList) : option (Z * CSndLossList) :=
  if 0 =? m_iLength L then Some (SRT_SEQNO_NONE, L)
  else
    let head := m_iHead L in
    let L := if m_iLastInsertPos L =? head then with_last (-1) L else L in
    h ← m_caSeq L !! head;
    let seqno := seqstart h in
    L ← (if SRT_SEQNO_NONE =? seqend h then
           L ← updL head (set_seqstart SRT_SEQNO_NONE) L;
           h ← m_caSeq L !! head;
           Some (with_head (inext h) L)
         else
           let loc := Z.rem (head + 1) (m_iSize L) in
           L ← updL loc (set_seqstart (incseq seqno)) L;
           h ← m_caSeq L !! head;
           m ← m_caSeq L !! loc;
           L ← (if 0 <? seqcmp (seqend h) (seqstart m) then updL loc (set_seqend (seqend h)) L
                else Some L);
           L ← updL head (set_seqstart SRT_SEQNO_NONE) L;
           L ← updL head (set_seqend SRT_SEQNO_NONE) L;
           h ← m_caSeq L !! head;
           L ← updL loc (set_inext (inext h)) L;
           Some (with_head loc L));
    Some (seqno, with_length (m_iLength L - 1) L).
