(* ===== verification/SndLossFacts.v ===== *)
(** * Lemmas on the loss list of the sender

    [snd_holds]: the list holds the numbers [ns], in unwrapped integers.  While an
    operation runs, the ranges may overlap: [snd_raw] is what holds of the array
    then, without the order of the ranges. *)
From S2P Require Import Prelude SeqNo LossRing SndLoss.
From Stdlib Require Import Sorted.

Definition cell (s e n _p : Z) : Seq := mkSeq s e n.

Definition valid (l : list range) : Prop := ∀ r, r ∈ l → r.1 <= r.2.
(** The hint for the search is the place of a node. *)
Definition last_ok (size c p : Z) (l : list range) : Prop := p = -1 ∨ ¬ avoids size c p l.

Record snd_raw (size c : Z) (L : CSndLossList) (l : list range) : Prop := {
  raw_msize : m_iSize L = size;
  raw_size : 0 < size <= 2 ^ 29;
  raw_array : array_ok size (m_caSeq L);
  raw_seg : seg cell size c (m_caSeq L) (-1) l (-1);
  raw_free : rest_free cell size c (m_caSeq L) l;
  raw_apart : apart size c l;
  raw_valid : valid l;
  raw_length : m_iLength L = Z.of_nat (length (numbers l));
  raw_last : last_ok size c (m_iLastInsertPos L) l }.

(** The list [L] holds the ranges [l]; [c] is the rotation of the ring. *)
Definition snd_at (size c : Z) (L : CSndLossList) (l : list range) : Prop :=
  snd_raw size c L l ∧ (∃ b, fits size b l) ∧ m_iHead L = first size c l (-1).
(** The list [L] holds the numbers [ns]. *)
Definition snd_holds (size : Z) (L : CSndLossList) (ns : list Z) : Prop :=
  ∃ c l, snd_at size c L l ∧ numbers l = ns.

Lemma snd_node size c L l1 s e l2 :
  snd_raw size c L (l1 ++ (s, e) :: l2) →
  m_caSeq L !! pos size c s = Some (mkSeq (seqno s) (stored_end s e) (first size c l2 (-1))).
Proof. intros H. apply (seg_lookup _ _ _ _ _ _ _ _ _ _ (raw_seg _ _ _ _ H)). Qed.


Lemma sum_app l1 l2 :
  Z.of_nat (length (numbers (l1 ++ l2))) = Z.of_nat (length (numbers l1)) + Z.of_nat (length (numbers l2)).
Proof. rewrite numbers_app, length_app. lia. Qed.
Lemma sum_cons s e l :
  s <= e → Z.of_nat (length (numbers ((s, e) :: l))) = e - s + 1 + Z.of_nat (length (numbers l)).
Proof. intros H. cbn [numbers]. rewrite length_app, Nat2Z.inj_add, length_range_numbers by done. lia. Qed.

Lemma seg_prev size c a prev prev' l nxt : seg cell size c a prev l nxt → seg cell size c a prev' l nxt.
Proof. by destruct l as [|[s e] l]. Qed.

(** A list after the ranges [mid] have become [mid']: elsewhere its array is that
    of the old list, where the node before them has another successor. *)
Lemma snd_replace size c L L' l1 mid mid' l2 :
  snd_raw size c L (l1 ++ mid ++ l2) → apart size c (l1 ++ mid' ++ l2) → valid mid' →
  m_iSize L' = size → array_ok size (m_caSeq L') →
  seg cell size c (m_caSeq L') (last_pos size c (-1) l1) mid' (first size c l2 (-1)) →
  (∀ p, avoids size c p mid → avoids size c p mid' →
    m_caSeq L' !! p = alter (set_inext (first size c mid' (first size c l2 (-1))))
      (last_pos size c (-1) l1) (m_caSeq L) !! p) →
  (∀ p, 0 <= p < size → avoids size c p mid' → ¬ avoids size c p mid → free_at cell (m_caSeq L') p) →
  m_iLength L' = m_iLength L + Z.of_nat (length (numbers mid')) - Z.of_nat (length (numbers mid)) →
  last_ok size c (m_iLastInsertPos L') (l1 ++ mid' ++ l2) →
  snd_raw size c L' (l1 ++ mid' ++ l2).
Proof.
  intros [Hm Hsz Ha Hs Hf Hap Hv Hlen _] Hap' Hv' Hm' Haa Hmid Hold Hfree Hl Hlast.
  apply seg_app in Hs as [S1 [_ S2]%seg_app].
  apply apart_app in Hap as (A1 & A12 & (Am & Am2 & A2)%apart_app).
  pose proof Hap' as (_ & A12' & (_ & Am2' & _)%apart_app)%apart_app.
  assert (∀ (r1 r2 : range) (k1 k2 : list range), (∀ r, r ∈ k1 → avoids size c (pos size c r.1) k2) → r1 ∈ k1 → r2 ∈ k2 →
    pos size c r1.1 ≠ pos size c r2.1) as Hsym.
  { intros r1 r2 k1 k2 Hk H1 H2 E. by apply (Hk r1 H1 r2 H2). }
  assert (∀ r, r ∈ l2 → avoids size c (pos size c r.1) mid ∧ avoids size c (pos size c r.1) mid' ∧
    pos size c r.1 ≠ last_pos size c (-1) l1) as Hl2.
  { intros r Hr. split_and!.
    - intros r' Hr'. exact (Hsym r' r mid l2 Am2 Hr' Hr).
    - intros r' Hr'. exact (Hsym r' r mid' l2 Am2' Hr' Hr).
    - destruct l1 as [|[s e] l1 _] using rev_ind; cbn [last_pos].
      + pose proof (pos_range size c ltac:(lia) r.1). lia.
      + rewrite last_pos_snoc. intros E.
        assert ((s, e) ∈ l1 ++ [(s, e)]) as Hse by (apply elem_of_app; right; left).
        apply A12, avoids_app in Hse as [_ Hse]. by apply (Hse r Hr). }
  split; try done.
  - rewrite !seg_app. split_and!.
    + eapply seg_ext with (a := alter _ _ (m_caSeq L)).
      * intros r Hr. specialize (A12 r Hr). specialize (A12' r Hr). apply Hold; avoid.
      * rewrite first_app. eapply seg_set_next; [done|done|exact S1].
    + done.
    + eapply seg_ext; [|eapply seg_ext; [|eapply seg_prev, S2]].
      * intros r Hr. destruct (Hl2 r Hr) as (? & ? & ?). apply Hold; done.
      * intros r Hr. destruct (Hl2 r Hr) as (? & ? & ?). by apply lookup_alter_ne.
  - intros p Hp [Hp1 [Hp' Hp2]%avoids_app]%avoids_app.
    destruct (decide (avoids size c p mid)) as [Hpm|Hpm]; [|by apply Hfree].
    destruct (Hf p Hp) as (nx & pr & E); [avoid|]. exists nx, pr.
    rewrite Hold, lookup_alter_ne; [done| |done|done].
    apply last_pos_avoids; [done|lia].
  - intros r. rewrite !elem_of_app. intros [Hr|[Hr|Hr]]; [|by apply Hv'|]; apply Hv; rewrite !elem_of_app; auto.
  - rewrite Hl, Hlen, !sum_app. lia.
Qed.

(** Where the hint may point. *)
Lemma last_ok_here size c s e l1 l2 : last_ok size c (pos size c s) (l1 ++ (s, e) :: l2).
Proof. right. intros [_ [H _]%avoids_cons]%avoids_app. done. Qed.
Lemma last_ok_none size c l : last_ok size c (-1) l.
Proof. by left. Qed.

Lemma snd_empty size c L l : snd_at size c L l → (m_iLength L =? 0) = bool_decide (l = []).
Proof.
  intros (H & [b [Hb _]] & _). rewrite (raw_length _ _ _ _ H).
  case_bool_decide as Hl; [by rewrite Hl|].
  apply Z.eqb_neq. intros E. apply Hl. apply (numbers_nil b); [done|]. apply length_zero_iff_nil. lia.
Qed.
Lemma snd_length_bound size c L l : snd_at size c L l → 0 <= m_iLength L <= size.
Proof.
  intros (H & [b [Hb He]] & _). rewrite (raw_length _ _ _ _ H). pose proof (length_numbers _ _ Hb). lia.
Qed.
Lemma snd_head size c L h e l :
  snd_at size c L ((h, e) :: l) →
  m_caSeq L !! m_iHead L = Some (mkSeq (seqno h) (stored_end h e) (first size c l (-1))).
Proof. intros (H & _ & ->). by apply (snd_node _ _ _ []). Qed.

(** ** Updates of the state *)

Lemma updL_alter size p f L :
  array_ok size (m_caSeq L) → 0 <= p < size → updL p f L = Some (with_nodes (alter f p (m_caSeq L)) L).
Proof. intros Ha Hp. unfold updL. by rewrite (upd_alter size). Qed.

(** What two states share. *)
Definition same_but_nodes (L L' : CSndLossList) : Prop :=
  m_iHead L' = m_iHead L ∧ m_iSize L' = m_iSize L ∧ m_iLastInsertPos L' = m_iLastInsertPos L.

(** The fields of a state. *)
Ltac fields :=
  unfold same_but_nodes; cbn [with_nodes with_head with_length with_last add_length
    m_caSeq m_iHead m_iSize m_iLength m_iLastInsertPos].
(** An update, in a state whose array has the right size. *)
Ltac step_L :=
  match goal with
  | H : array_ok ?size _ |- _ =>
      rewrite (updL_alter size) by (fields; first [lia | eauto 20 with array]);
      cbn [mbind option_bind]; fields
  end.

(** The links as they are. *)
Lemma snd_next_id size c L l1 l2 :
  snd_raw size c L (l1 ++ l2) →
  alter (set_inext (first size c l2 (-1))) (last_pos size c (-1) l1) (m_caSeq L) = m_caSeq L.
Proof.
  intros H. apply alter_id. intros n. pose proof (raw_array _ _ _ _ H) as Ha.
  destruct l1 as [|[s e] l1 _] using rev_ind.
  - cbn [last_pos]. rewrite (array_ok_none size) by (done || lia). done.
  - rewrite <- (assoc_L (++)) in H. rewrite last_pos_snoc, (snd_node _ _ _ _ _ _ _ H). by intros [= <-].
Qed.

(** ** Joining overlapping ranges *)

Lemma absorb_run size c L s e s2 e2 nx nx2 :
  array_ok size (m_caSeq L) → 0 < size <= 2 ^ 29 → 0 <= m_iLength L <= 2 ^ 30 →
  s < e → s < s2 <= e + 1 → s2 <= e2 → e < s + size → e2 < s + size →
  m_caSeq L !! pos size c s = Some (mkSeq (seqno s) (stored_end s e) nx) →
  ∃ L', absorb L (pos size c s) (mkSeq (seqno s) (stored_end s e) nx)
      (mkSeq (seqno s2) (stored_end s2 e2) nx2) = Some L' ∧
    array_ok size (m_caSeq L') ∧ same_but_nodes L L' ∧
    m_iLength L' = m_iLength L - (e - s + 1) - (e2 - s2 + 1) + (Z.max e e2 - s + 1) ∧
    m_caSeq L' !! pos size c s = Some (mkSeq (seqno s) (stored_end s (Z.max e e2)) nx) ∧
    ∀ p, p ≠ pos size c s → m_caSeq L' !! p = m_caSeq L !! p.
Proof.
  intros Ha Hsz Hlen Hse Hs2 He2 H1 H2 Hn. unfold absorb. cbn [seqend seqstart].
  pose proof (pos_range size c ltac:(lia) s) as Hp.
  rewrite (Z.eqb_sym (stored_end s2 e2)), stored_end_none, (stored_end_range s e) by lia.
  assert (∀ v, alter (set_seqend v) (pos size c s) (m_caSeq L) !! pos size c s = Some (mkSeq (seqno s) v nx)) as Hput
    by (intros v; by rewrite lookup_alter_eq, Hn).
  assert (∀ f p, p ≠ pos size c s → alter f (pos size c s) (m_caSeq L) !! p = m_caSeq L !! p) as Hoth
    by (intros f p Hpp; by apply lookup_alter_ne).
  destruct (Z.eqb_spec s2 e2) as [<-|Hne]; cbn [negb].
  - rewrite incseq_seqno, seqno_eqb by lia. destruct (Z.eqb_spec s2 (e + 1)) as [->|Hne].
    + rewrite (updL_alter size) by done. eexists. split; [done|]. cbn [with_nodes m_caSeq m_iLength].
      replace (Z.max e (e + 1)) with (e + 1) by lia. rewrite stored_end_range by lia.
      split_and!; eauto with array; [done|lia].
    + eexists. split; [done|]. cbn [with_length m_caSeq m_iLength]. replace (Z.max e s2) with e by lia.
      rewrite stored_end_range by lia. split_and!; eauto; [done|lia|by rewrite stored_end_range in Hn by lia].
  - rewrite (stored_end_range s2) by lia. rewrite seqcmp_gt by (unfold near, m_iSeqNoTH; lia).
    destruct (Z.ltb_spec e e2).
    + rewrite seqcmp_ge by (unfold near, m_iSeqNoTH; lia).
      replace (Z.max e e2) with e2 by lia. rewrite (stored_end_range s e2) by lia.
      destruct (Z.leb_spec s2 e) as [Hov|Hov].
      * rewrite (updL_alter size) by done. eexists. split; [done|].
        cbn [with_nodes m_caSeq m_iLength add_length with_length].
        rewrite seqlen_seqno, i32_small by (unfold m_iMaxSeqNo; lia).
        split_and!; eauto with array; [done|lia].
      * rewrite (updL_alter size) by done. eexists. split; [done|].
        cbn [with_nodes m_caSeq m_iLength]. split_and!; eauto with array; [done|lia].
    + eexists. split; [done|]. cbn [add_length with_length m_caSeq m_iLength].
      replace (Z.max e e2) with e by lia. rewrite seqlen_seqno, i32_small by (unfold m_iMaxSeqNo; lia).
      rewrite stored_end_range by lia. split_and!; eauto; [done|lia|by rewrite stored_end_range in Hn by lia].
Qed.

Lemma coalesce_step_run size c L l1 s e s2 e2 l2 :
  snd_raw size c L (l1 ++ (s, e) :: (s2, e2) :: l2) → m_iLength L <= 2 ^ 30 →
  s < e → s < s2 <= e + 1 → e < s + size → e2 < s + size → m_iLastInsertPos L = pos size c s →
  ∃ L', coalesce_step L (pos size c s) (pos size c s2)
      (mkSeq (seqno s) (stored_end s e) (pos size c s2))
      (mkSeq (seqno s2) (stored_end s2 e2) (first size c l2 (-1))) = Some L' ∧
    snd_raw size c L' (l1 ++ (s, Z.max e e2) :: l2) ∧ same_but_nodes L L' ∧
    m_iLength L' <= m_iLength L.
Proof.
  intros H Hlen Hse Hs2 H1 H2 Hlast. pose proof (raw_size _ _ _ _ H) as Hsz.
  pose proof (raw_array _ _ _ _ H) as Ha.
  pose proof (snd_node _ _ _ _ _ _ _ H) as Hn. cbn [first] in Hn.
  assert (s2 <= e2) as Hv by (apply (raw_valid _ _ _ _ H (s2, e2)), elem_of_app; right; right; left).
  assert (snd_raw size c L ((l1 ++ [(s, e)]) ++ (s2, e2) :: l2)) as H' by (by rewrite <- (assoc_L (++))).
  pose proof (snd_node _ _ _ _ _ _ _ H') as Hn2.
  destruct (apart_mid _ _ _ _ _ _ (raw_apart _ _ _ _ H')) as [A2 A2'].
  destruct (apart_mid _ _ _ _ _ _ (raw_apart _ _ _ _ H)) as [A1 A1'].
  apply avoids_app in A2 as [A2 [Hne _]%avoids_cons].
  pose proof (pos_range size c ltac:(lia) s) as Hp. pose proof (pos_range size c ltac:(lia) s2) as Hp2.
  unfold coalesce_step.
  destruct (absorb_run size c L s e s2 e2 (pos size c s2) (first size c l2 (-1)))
    as (L1 & -> & Ha1 & (E1 & E2 & E3) & El & En & Eo); try done.
  { split; [|done]. rewrite (raw_length _ _ _ _ H). lia. }
  cbn [mbind option_bind]. do 2 step_L.
  rewrite !lookup_alter_eq, Eo, Hn2 by done. cbn [fmap option_fmap option_map mbind option_bind].
  cbn [set_seqend set_seqstart inext]. step_L.
  eexists. split; [done|]. fields. split; [|split; [by split_and!|rewrite El; lia]].
  apply (snd_replace size c L _ l1 [(s, e); (s2, e2)] [(s, Z.max e e2)] l2); fields.
  - done.
  - pose proof (raw_apart _ _ _ _ H) as Hap. apply apart_app in Hap as (B1 & B2 & B3).
    apply apart_cons in B3 as [B3 B4]. apply apart_cons in B4 as [B4 B5].
    apply apart_app. split_and!; [done| |].
    + intros r Hr. specialize (B2 r Hr). cbn [app]. avoid.
    + cbn [app]. apply apart_cons. split; [avoid|done].
  - intros r ->%list_elem_of_singleton. simpl. lia.
  - rewrite E2. apply H.
  - eauto with array.
  - cbn [seg first]. split; [|done]. rewrite lookup_alter_eq, !lookup_alter_ne, En by done. done.
  - intros p [Hp1 [Hp1' _]%avoids_cons]%avoids_cons _. cbn [first].
    pose proof (snd_next_id _ _ _ l1 ((s, e) :: (s2, e2) :: l2) H) as E. cbn [first] in E. rewrite E.
    rewrite !lookup_alter_ne by done. by apply Eo.
  - intros p Hpp [Hp1 _]%avoids_cons Hpa. assert (p = pos size c s2) as ->
      by (apply dec_stable; intros Hpn; apply Hpa; avoid).
    apply free_frame; [done|]. eexists _, 0. read_upd. by rewrite Eo, Hn2 by done.
  - rewrite El, !sum_cons by lia. simpl. lia.
  - rewrite E3, Hlast. apply last_ok_here.
Qed.

(** The range [(s, e)] has grown over those after it. *)
Definition grown (size b : Z) (l1 : list range) (s e : Z) (l2 : list range) : Prop :=
  fits size b (l1 ++ [(s, e)]) ∧ sorted_from (s + 1) l2 ∧ end_of (s + 1) l2 <= b + size.

Lemma grown_bounds size b l1 s e l2 :
  grown size b l1 s e l2 → sorted_from b l1 ∧ end_of b l1 <= s ∧ b <= s <= e ∧ e < b + size.
Proof.
  intros [[[H1 [H2 _]]%sorted_from_app He] _]. rewrite end_of_app in He. cbn [end_of] in He.
  pose proof (sorted_from_end _ _ H1). split_and!; (done || lia).
Qed.
Lemma grown_fits size b l1 s e l2 :
  grown size b l1 s e l2 → (∀ r l, l2 = r :: l → e < r.1) → fits size b (l1 ++ (s, e) :: l2).
Proof.
  intros Hg Hl. destruct (grown_bounds _ _ _ _ _ _ Hg) as (H1 & H2 & H3 & H4). destruct Hg as (_ & H5 & H6).
  split.
  - apply sorted_from_app. split; [done|]. cbn. split; [lia|]. destruct l2 as [|[s2 e2] l2]; [done|].
    specialize (Hl _ _ eq_refl). simpl in Hl. destruct H5 as [? H5]. split; [lia|done].
  - rewrite end_of_app. destruct l2 as [|[s2 e2] l2]; cbn [end_of] in *; lia.
Qed.

Lemma elem_of_numbers_cons s e l x : x ∈ numbers ((s, e) :: l) ↔ s <= x <= e ∨ x ∈ numbers l.
Proof. cbn [numbers]. rewrite elem_of_app, elem_of_range_numbers. done. Qed.

Lemma coalesce_loop_run size c b fuel L l1 s e l2 :
  snd_raw size c L (l1 ++ (s, e) :: l2) → grown size b l1 s e l2 → (length l2 < fuel)%nat →
  m_iLength L <= 2 ^ 30 → m_iLastInsertPos L = pos size c s →
  ∃ L' e' l2', coalesce_loop fuel L (pos size c s) = Some L' ∧
    snd_raw size c L' (l1 ++ (s, e') :: l2') ∧ fits size b (l1 ++ (s, e') :: l2') ∧
    m_iHead L' = m_iHead L ∧
    ∀ x, x ∈ numbers ((s, e') :: l2') ↔ x ∈ numbers ((s, e) :: l2).
Proof.
  revert L e l2. induction fuel as [|fuel IH]; intros L e l2 H Hg Hf Hlen Hlast; [lia|]. cbn [coalesce_loop].
  pose proof (raw_size _ _ _ _ H) as Hsz. destruct (grown_bounds _ _ _ _ _ _ Hg) as (G1 & G2 & G3 & G4).
  rewrite (snd_node _ _ _ _ _ _ _ H). cbn [mbind option_bind inext seqend].
  rewrite (Z.eqb_sym _ (-1)), first_none by lia.
  rewrite (Z.eqb_sym _ SRT_SEQNO_NONE), stored_end_none.
  assert (∀ r l, l2 = r :: l → s < r.1 ∧ r.2 < b + size ∧ sorted_from (r.2 + 1) l) as Hl2.
  { intros [s2 e2] l ->. destruct Hg as (_ & [Hs2 Hl] & He). cbn [fst snd end_of] in *.
    pose proof (sorted_from_end _ _ Hl). split_and!; (done || lia). }
  assert (∀ (P : (∀ r l, l2 = r :: l → e < r.1)), ∃ L' e' l2', Some L = Some L' ∧
    snd_raw size c L' (l1 ++ (s, e') :: l2') ∧ fits size b (l1 ++ (s, e') :: l2') ∧
    m_iHead L' = m_iHead L ∧ ∀ x, x ∈ numbers ((s, e') :: l2') ↔ x ∈ numbers ((s, e) :: l2)) as Hstop.
  { intros P. exists L, e, l2. split_and!; try done. by apply grown_fits. }
  case_bool_decide as Hnil; cbn [negb andb].
  { apply Hstop. intros r l E. congruence. }
  destruct (Z.eqb_spec s e) as [<-|Hse]; cbn [negb].
  { apply Hstop. intros r l E. by apply (Hl2 r l E). }
  destruct l2 as [|[s2 e2] l2]; [done|]. destruct (Hl2 _ _ eq_refl) as (B1 & B2 & B3). cbn [fst snd] in *.
  assert (snd_raw size c L ((l1 ++ [(s, e)]) ++ (s2, e2) :: l2)) as H' by (by rewrite <- (assoc_L (++))).
  cbn [first]. rewrite (snd_node _ _ _ _ _ _ _ H'). cbn [mbind option_bind seqstart].
  rewrite stored_end_range, incseq_seqno by lia.
  assert (s2 < b + size) as Hs2.
  { pose proof (raw_valid _ _ _ _ H' (s2, e2)) as Hv. simpl in Hv.
    enough (s2 <= e2) by lia. apply Hv, elem_of_app. right; left. }
  rewrite seqcmp_gt by (unfold near, m_iSeqNoTH; lia).
  destruct (Z.ltb_spec (e + 1) s2) as [Hgt|Hle].
  { apply Hstop. intros r l [= <- <-]. simpl. lia. }
  rewrite <- (stored_end_range s e) by done.
  destruct (coalesce_step_run size c L l1 s e s2 e2 l2 H Hlen) as (L1 & -> & H1 & (E1 & E2 & E3) & Hl1);
    [lia|lia|lia|lia|done|].
  cbn [mbind option_bind].
  destruct (IH L1 (Z.max e e2) l2) as (L' & e' & l2' & -> & R1 & R2 & R3 & R4).
  - done.
  - destruct Hg as ([Hgs Hge] & [Hg1 Hg2] & Hg3). split_and!.
    + apply fits_snoc; [|lia|lia]. split; [done|]. pose proof (sorted_from_end _ _ G1). lia.
    + eapply sorted_from_le; [|exact Hg2]. lia.
    + destruct l2 as [|[??] ?]; cbn [end_of] in *; lia.
  - simpl in Hf. lia.
  - lia.
  - congruence.
  - exists L', e', l2'. split_and!; [done..|congruence|]. intros x. rewrite R4, !elem_of_numbers_cons.
    pose proof (raw_valid _ _ _ _ H' (s2, e2)) as Hv. simpl in Hv. rewrite elem_of_app in Hv.
    specialize (Hv (or_intror (list_elem_of_here _ _))). 
    assert (s <= x <= Z.max e e2 ↔ s <= x <= e ∨ s2 <= x <= e2) by lia. tauto.
Qed.

(** ** Inserting *)

(** What [insert] adds: the numbers [ns'] are those of [ns] and from [s1] to [s2],
    and [num] of them are new. *)
Definition inserts (size c b : Z) (L' : CSndLossList) (l : list range) (s e : Z) : Prop :=
  ∃ l', snd_at size c L' l' ∧ fits size b l' ∧
    ∀ x, x ∈ numbers l' ↔ x ∈ numbers l ∨ s <= x <= e.

(** Writing the range of a node that was free. *)
Definition snd_set_range (s e : Z) (n : Seq) : Seq :=
  mkSeq (seqno s) (if e =? s then seqend n else seqno e) (inext n).
Lemma snd_put_range {B} size p s e L (k : CSndLossList → option B) :
  array_ok size (m_caSeq L) → 0 <= p < size → Z.abs (e - s) < 2 ^ 31 →
  (L ← updL p (set_seqstart (seqno s)) L;
   L ← (if seqno e =? seqno s then Some L else updL p (set_seqend (seqno e)) L); k L)
  = k (with_nodes (alter (snd_set_range s e) p (m_caSeq L)) L).
Proof.
  intros Ha Hp He. step_L. rewrite seqno_eqb by lia. destruct (Z.eqb_spec e s) as [->|Hne].
  - cbn [mbind option_bind]. unfold with_nodes. do 2 f_equal. apply alter_ext. intros x _.
    unfold snd_set_range. by rewrite Z.eqb_refl.
  - step_L. unfold with_nodes. do 2 f_equal. cbn [m_caSeq]. rewrite alter_alter_eq. apply alter_ext. intros x _.
    unfold snd_set_range. by rewrite (proj2 (Z.eqb_neq e s) Hne).
Qed.
Lemma snd_set_range_free s e nx pr :
  snd_set_range s e (cell SRT_SEQNO_NONE SRT_SEQNO_NONE nx pr) = mkSeq (seqno s) (stored_end s e) nx.
Proof. unfold snd_set_range, stored_end, cell. cbn. by rewrite (Z.eqb_sym e s). Qed.

Lemma insertHead_run size c L l s e :
  snd_raw size c L l → m_iHead L = first size c l (-1) → avoids size c (pos size c s) l →
  s <= e < s + size → m_iLength L <= size →
  ∃ L', insertHead L (pos size c s) (seqno s) (seqno e) = Some L' ∧
    snd_raw size c L' ((s, e) :: l) ∧ m_iHead L' = pos size c s ∧ m_iLastInsertPos L' = pos size c s.
Proof.
  intros H Hh Hav Hse Hlen. pose proof (raw_size _ _ _ _ H) as Hsz. pose proof (raw_array _ _ _ _ H) as Ha.
  pose proof (pos_range size c ltac:(lia) s) as Hp.
  destruct (raw_free _ _ _ _ H _ Hp Hav) as (nx & pr & Hfree).
  unfold insertHead. rewrite (snd_put_range size) by (done || lia). step_L. eexists. split; [done|]. fields.
  split; [|done].
  apply (snd_replace size c L _ [] [] [(s, e)] l); fields.
  - done.
  - cbn [app]. apply apart_cons. split; [done|apply H].
  - intros r ->%list_elem_of_singleton. simpl. lia.
  - apply H.
  - eauto with array.
  - cbn [seg first]. split; [|done]. rewrite !lookup_alter_eq, Hfree. cbn [fmap option_fmap option_map].
    rewrite snd_set_range_free, Hh. done.
  - intros p _ [Hps _]%avoids_cons. cbn [last_pos]. rewrite (alter_out size (-1)) by (done || lia).
    by rewrite !lookup_alter_ne.
  - intros p _ _ Hpa. destruct Hpa. apply avoids_nil.
  - rewrite seqlen_seqno by (unfold m_iMaxSeqNo; lia). rewrite sum_cons by lia. simpl.
    pose proof (raw_length _ _ _ _ H). rewrite i32_small; lia.
  - apply (last_ok_here size c s e []).
Qed.

Lemma insertAfter_run size c L l1 s0 e0 l2 s e :
  snd_raw size c L (l1 ++ (s0, e0) :: l2) → avoids size c (pos size c s) (l1 ++ (s0, e0) :: l2) →
  s <= e < s + size → m_iLength L <= size →
  ∃ L', insertAfter L (pos size c s) (pos size c s0) (seqno s) (seqno e) = Some L' ∧
    snd_raw size c L' ((l1 ++ [(s0, e0)]) ++ (s, e) :: l2) ∧ m_iHead L' = m_iHead L ∧
    m_iLastInsertPos L' = pos size c s.
Proof.
  intros H Hav Hse Hlen. pose proof (raw_size _ _ _ _ H) as Hsz. pose proof (raw_array _ _ _ _ H) as Ha.
  pose proof (pos_range size c ltac:(lia) s) as Hp. pose proof (pos_range size c ltac:(lia) s0) as Hp0.
  destruct (raw_free _ _ _ _ H _ Hp Hav) as (nx & pr & Hfree).
  pose proof (snd_node _ _ _ _ _ _ _ H) as Hn.
  assert (pos size c s ≠ pos size c s0) as Hne by (apply avoids_app in Hav as [_ [? _]%avoids_cons]; done).
  unfold insertAfter. rewrite (snd_put_range size) by (done || lia). cbn [with_nodes m_caSeq].
  rewrite lookup_alter_ne, Hn by done. cbn [mbind option_bind inext]. do 2 step_L.
  eexists. split; [done|]. fields. split; [|done].
  assert (snd_raw size c L ((l1 ++ [(s0, e0)]) ++ [] ++ l2)) as H' by (cbn [app]; by rewrite <- (assoc_L (++))).
  apply (snd_replace size c L _ (l1 ++ [(s0, e0)]) [] [(s, e)] l2); fields.
  - done.
  - cbn [app]. apply apart_app. pose proof (raw_apart _ _ _ _ H') as (B1 & B2 & B3)%apart_app. cbn [app] in *.
    split_and!; [done| |apply apart_cons; split; [avoid|done]].
    intros r Hr. apply avoids_cons. split; [|by apply B2].
    intros E. assert (avoids size c (pos size c s) (l1 ++ [(s0, e0)])) as Hav' by avoid. by apply (Hav' r Hr).
  - intros r ->%list_elem_of_singleton. simpl. lia.
  - apply H.
  - eauto with array.
  - cbn [seg first]. split; [|done]. rewrite lookup_alter_ne, !lookup_alter_eq, Hfree by done.
    cbn [fmap option_fmap option_map]. rewrite snd_set_range_free. done.
  - intros p _ [Hps _]%avoids_cons. cbn [first]. rewrite last_pos_snoc.
    destruct (decide (pos size c s0 = p)) as [<-|Hp0p].
    + by rewrite !lookup_alter_eq, !lookup_alter_ne.
    + by rewrite !lookup_alter_ne.
  - intros p _ _ Hpa. destruct Hpa. apply avoids_nil.
  - rewrite seqlen_seqno by (unfold m_iMaxSeqNo; lia). rewrite sum_cons by lia. simpl.
    pose proof (raw_length _ _ _ _ H). rewrite i32_small; lia.
  - apply last_ok_here.
Qed.

(** A longer range. *)
Lemma set_end_run size c L l1 s e0 e l2 d :
  snd_raw size c L (l1 ++ (s, e0) :: l2) → e0 < e → m_iLength L <= size → e < s + size → d = e - e0 →
  let L' := add_length d (with_last (pos size c s) L) in
  snd_raw size c (with_nodes (alter (set_seqend (seqno e)) (pos size c s) (m_caSeq L')) L')
    (l1 ++ (s, e) :: l2).
Proof.
  intros H He Hlen Hes -> L'. pose proof (raw_size _ _ _ _ H) as Hsz. pose proof (raw_array _ _ _ _ H) as Ha.
  assert (s <= e0) as Hv by (apply (raw_valid _ _ _ _ H (s, e0)), elem_of_app; right; left).
  pose proof (snd_node _ _ _ _ _ _ _ H) as Hn.
  apply (snd_replace size c L _ l1 [(s, e0)] [(s, e)] l2); unfold L'; fields.
  - done.
  - pose proof (raw_apart _ _ _ _ H) as (B1 & B2 & B3)%apart_app. apply apart_app. split_and!; [done| |].
    + intros r Hr. specialize (B2 r Hr). cbn [app]. avoid.
    + cbn [app]. apply apart_cons. by apply apart_cons in B3.
  - intros r ->%list_elem_of_singleton. simpl. lia.
  - apply H.
  - eauto with array.
  - cbn [seg first]. split; [|done]. rewrite lookup_alter_eq, Hn. cbn [fmap option_fmap option_map].
    unfold set_seqend. cbn. by rewrite stored_end_range by lia.
  - intros p [Hp1 _]%avoids_cons _. pose proof (snd_next_id _ _ _ l1 ((s, e0) :: l2) H) as E.
    cbn [first] in E |- *. by rewrite E, lookup_alter_ne.
  - intros p _ Hp1 Hp2. destruct Hp2. avoid.
  - rewrite !sum_cons by lia. simpl. pose proof (raw_length _ _ _ _ H). rewrite i32_small; lia.
  - apply last_ok_here.
Qed.

Lemma with_last_raw size c L l p :
  snd_raw size c L l → last_ok size c p l → snd_raw size c (with_last p L) l.
Proof. intros [] Hp. by split. Qed.
Lemma with_head_raw size c L l p : snd_raw size c L l → snd_raw size c (with_head p L) l.
Proof. intros []. by split. Qed.

Lemma updateElement_run size c L l1 s e0 l2 e :
  snd_raw size c L (l1 ++ (s, e0) :: l2) → s <= e < s + size → e0 < s + size → m_iLength L <= size →
  ∃ L', updateElement L (pos size c s) (seqno s) (seqno e) = Some (bool_decide (e0 < e), L') ∧
    snd_raw size c L' (l1 ++ (s, Z.max e0 e) :: l2) ∧ m_iHead L' = m_iHead L ∧
    m_iLastInsertPos L' = pos size c s ∧ (e <= e0 → m_iLength L' = m_iLength L).
Proof.
  intros H Hse He0 Hlen. pose proof (raw_size _ _ _ _ H) as Hsz. pose proof (raw_array _ _ _ _ H) as Ha.
  pose proof (pos_range size c ltac:(lia) s) as Hp.
  assert (s <= e0) as Hv by (apply (raw_valid _ _ _ _ H (s, e0)), elem_of_app; right; left).
  unfold updateElement. rewrite (proj2 (Z.eqb_neq (seqno e) _)) by apply seqno_not_none. cbn [orb].
  rewrite seqno_eqb by lia.
  assert (∀ P : e <= e0, ∃ L', Some (false, with_last (pos size c s) L) = Some (bool_decide (e0 < e), L') ∧
    snd_raw size c L' (l1 ++ (s, Z.max e0 e) :: l2) ∧ m_iHead L' = m_iHead L ∧
    m_iLastInsertPos L' = pos size c s ∧ (e <= e0 → m_iLength L' = m_iLength L)) as Hsame.
  { intros P. rewrite bool_decide_false by lia. replace (Z.max e0 e) with e0 by lia.
    eexists. split; [done|]. split_and!; [|done..]. apply with_last_raw; [done|apply last_ok_here]. }
  destruct (Z.eqb_spec e s) as [->|Hne]; [apply Hsame; lia|].
  cbn [with_last m_caSeq]. rewrite (snd_node _ _ _ _ _ _ _ H). cbn [mbind option_bind seqend].
  rewrite Z.eqb_sym, stored_end_none.
  destruct (Z.eqb_spec s e0) as [<-|Hne0].
  - step_L. rewrite bool_decide_true, (Z.max_r s e) by lia. eexists. split; [done|]. split_and!; [|done..|lia].
    rewrite seqlen_seqno by (unfold m_iMaxSeqNo; lia).
    apply (set_end_run size c L l1 s s e l2); [done|lia|done|lia|lia].
  - rewrite stored_end_range by done. rewrite seqcmp_le by (unfold near, m_iSeqNoTH; lia).
    destruct (Z.leb_spec e e0); [apply Hsame; lia|].
    step_L. rewrite bool_decide_true, (Z.max_r e0 e) by lia. eexists. split; [done|]. split_and!; [|done..|lia].
    rewrite seqlen_seqno by (unfold m_iMaxSeqNo; lia).
    apply (set_end_run size c L l1 s e0 e l2); [done|lia|done|lia|lia].
Qed.

Lemma skip_lower_run size c L b l1 s1 e1 l2 fuel s :
  snd_raw size c L (l1 ++ (s1, e1) :: l2) → fits size b (l1 ++ (s1, e1) :: l2) → b <= s < b + m_iSeqNoTH →
  s1 < s → (length l2 < fuel)%nat →
  ∃ k1 s' e' k2, l1 ++ (s1, e1) :: l2 = k1 ++ (s', e') :: k2 ∧
    skip_lower fuel (m_caSeq L) (pos size c s1) (seqno s) = Some (pos size c s') ∧
    s' < s ∧ ∀ r k, k2 = r :: k → s <= r.1.
Proof.
  intros H Hfit Hs. pose proof (raw_size _ _ _ _ H) as Hsz. revert l1 s1 e1 fuel H Hfit.
  induction l2 as [|[s2 e2] l2 IH]; intros l1 s1 e1 fuel H Hfit Hs1 Hf;
    (destruct fuel as [|fuel]; [simpl in Hf; lia|]); cbn [skip_lower];
    rewrite (snd_node _ _ _ _ _ _ _ H); cbn [mbind option_bind inext].
  - cbn [first negb Z.eqb Pos.eqb]. exists l1, s1, e1, []. split_and!; [done..|]. intros r k ?. done.
  - rewrite (Z.eqb_sym _ (-1)), first_none, bool_decide_false by (done || lia). cbn [negb first].
    assert (l1 ++ (s1, e1) :: (s2, e2) :: l2 = (l1 ++ [(s1, e1)]) ++ (s2, e2) :: l2) as E
      by (by rewrite <- (assoc_L (++))).
    rewrite E in *. rewrite (snd_node _ _ _ _ _ _ _ H). cbn [mbind option_bind seqstart].
    destruct (fits_bounds size _ _ (s2, e2) Hfit) as [? ?]; [apply elem_of_app; right; left|]. simpl in *.
    rewrite seqcmp_lt by (unfold near, m_iSeqNoTH in *; lia). destruct (Z.ltb_spec s2 s).
    + apply IH; [done..|lia].
    + exists l1, s1, e1, ((s2, e2) :: l2). split_and!; [by rewrite E|done..|]. intros r k [= <- <-]. done.
Qed.

(** What is left to do after the range has been put in its place. *)
Definition placed (size c b : Z) (L L' : CSndLossList) (l : list range) (p s e : Z) : Prop :=
  ∃ l1 s' e' l2, p = pos size c s' ∧ snd_raw size c L' (l1 ++ (s', e') :: l2) ∧
    grown size b l1 s' e' l2 ∧ m_iLastInsertPos L' = p ∧
    m_iHead L' = first size c (l1 ++ (s', e') :: l2) (-1) ∧
    ∀ x, x ∈ numbers (l1 ++ (s', e') :: l2) ↔ x ∈ numbers l ∨ s <= x <= e.

Lemma coalesce_run size c b L L' l p s e :
  placed size c b L L' l p s e → m_iLength L' <= 2 ^ 30 →
  ∃ L'', coalesce L' p = Some L'' ∧ inserts size c b L'' l s e.
Proof.
  intros (l1 & s' & e' & l2 & -> & H & Hg & Hlast & Hh & Hx) Hlen. unfold coalesce.
  pose proof (raw_size _ _ _ _ H) as Hsz.
  assert (length l2 < S (Z.to_nat size))%nat as Hf.
  { destruct (grown_bounds _ _ _ _ _ _ Hg) as (_ & _ & ? & ?). destruct Hg as (_ & Hs & He).
    pose proof (length_ranges _ _ Hs). pose proof (length_numbers _ _ Hs). lia. }
  rewrite (raw_msize _ _ _ _ H).
  destruct (coalesce_loop_run size c b _ L' l1 s' e' l2 H Hg Hf Hlen Hlast)
    as (L'' & e'' & l2' & -> & R1 & R2 & R3 & R4).
  exists L''. split; [done|]. exists (l1 ++ (s', e'') :: l2'). split; [|split; [done|]].
  - split; [done|]. split; [by exists b|]. rewrite R3, Hh, !first_app. done.
  - intros x. rewrite <- Hx, !numbers_app, !elem_of_app, R4. done.
Qed.

(** Where the search for the place starts: at a node before it. *)
Lemma search_start size c b L h e0 l s :
  snd_at size c L ((h, e0) :: l) → fits size b ((h, e0) :: l) → h < s → b <= s < b + 2 ^ 29 →
  ∃ k1 s1 e1 k2, (h, e0) :: l = k1 ++ (s1, e1) :: k2 ∧ s1 < s ∧
    (if negb (m_iLastInsertPos L =? -1) then
       n ← m_caSeq L !! m_iLastInsertPos L;
       Some (if seqcmp (seqstart n) (seqno s) <? 0 then m_iLastInsertPos L else m_iHead L)
     else Some (m_iHead L)) = Some (pos size c s1).
Proof.
  intros (H & _ & Hh) Hfit Hhs Hs. pose proof (raw_size _ _ _ _ H) as Hsz. rewrite Hh. cbn [first].
  assert (∀ v, v = Some (pos size c h) → ∃ k1 s1 e1 k2, (h, e0) :: l = k1 ++ (s1, e1) :: k2 ∧ s1 < s ∧
    v = Some (pos size c s1)) as Hhead by (intros v ->; by exists [], h, e0, l).
  destruct (Z.eqb_spec (m_iLastInsertPos L) (-1)) as [E|Hne]; cbn [negb]; [by apply Hhead|].
  destruct (raw_last _ _ _ _ H) as [?|Hl]; [done|].
  assert (∃ r, r ∈ (h, e0) :: l ∧ pos size c r.1 = m_iLastInsertPos L) as ([s1 e1] & Hr & Hp).
  { apply (Exists_exists (λ r, pos size c r.1 = m_iLastInsertPos L)), dec_stable. intros Hno. apply Hl.
    intros r Hr E. apply Hno, Exists_exists. by exists r. }
  simpl in Hp. destruct (fits_bounds size _ _ (s1, e1) Hfit Hr) as [? ?]. simpl in *.
  apply list_elem_of_split in Hr as (k1 & k2 & E). rewrite <- Hp. rewrite E in H.
  rewrite (snd_node _ _ _ _ _ _ _ H). cbn [mbind option_bind seqstart].
  rewrite seqcmp_lt by (unfold near, m_iSeqNoTH; lia).
  destruct (Z.ltb_spec s1 s); [|by apply Hhead]. by exists k1, s1, e1, k2.
Qed.

Lemma insert_later_run size c b L h e0 l s e :
  snd_at size c L ((h, e0) :: l) → fits size b ((h, e0) :: l) → h < s → b <= s <= e → e < b + size →
  (∀ l1 e1 l2, (h, e0) :: l ≠ l1 ++ (s, e1) :: l2) →
  ∃ r L', insert_later L (pos size c s) (seqno s) (seqno e) = Some (r, L') ∧
    match r with
    | Some p => placed size c b L L' ((h, e0) :: l) p s e ∧ m_iLength L' <= 2 * size
    | None => snd_at size c L' ((h, e0) :: l) ∧ ∀ x, s <= x <= e → x ∈ numbers ((h, e0) :: l)
    end.
Proof.
  intros (H & _ & Hh) Hfit Hhs Hse He Hno. pose proof (raw_size _ _ _ _ H) as Hsz.
  pose proof (snd_length_bound size c L ((h, e0) :: l)
    ltac:(split; [exact H|split; [by exists b|exact Hh]])) as Hlen.
  destruct (search_start size c b L h e0 l s) as (k1 & s1 & e1 & k2 & E & Hs1 & Hstart);
    [split; [exact H|split; [by exists b|exact Hh]]|done|done|lia|].
  unfold insert_later. rewrite Hstart. cbn [mbind option_bind]. clear Hstart.
  assert (length k2 < S (Z.to_nat (m_iSize L)))%nat as Hf.
  { rewrite (raw_msize _ _ _ _ H). destruct Hfit as [Hs He']. pose proof (length_ranges _ _ Hs) as Hl.
    pose proof (length_numbers _ _ Hs).
    pose proof (f_equal length E) as El. rewrite length_app in El. cbn [length] in Hl, El. lia. }
  rewrite E in *. clear E e0 l.
  destruct (skip_lower_run size c L b k1 s1 e1 k2 _ s H Hfit ltac:(unfold m_iSeqNoTH; lia) Hs1 Hf)
    as (l1 & s' & e' & l2 & E & -> & Hs' & Hl2).
  rewrite E in *. clear E Hs1 Hf s1 e1 k1 k2.
  cbn [mbind option_bind]. rewrite (snd_node _ _ _ _ _ _ _ H). cbn [mbind option_bind].
  assert (node_end (mkSeq (seqno s') (stored_end s' e') (first size c l2 (-1))) = seqno e') as ->.
  { unfold node_end. cbn [seqend seqstart]. rewrite Z.eqb_sym, stored_end_none.
    destruct (Z.eqb_spec s' e') as [->|?]; [done|by apply stored_end_range]. }
  destruct (fits_split size c ltac:(lia) _ _ _ _ _ Hfit) as (Hb & He' & Hav1 & Hav2 & L1 & L2 & Hb1).
  rewrite seqcmp_lt, incseq_seqno, seqno_eqb by (unfold near, m_iSeqNoTH; lia).
  assert (∀ r k, l2 = r :: k → s < r.1) as Hl2'.
  { intros [s2 e2] k ->. specialize (Hl2 _ _ eq_refl). simpl in *. enough (s2 ≠ s) by lia. intros ->.
    apply (Hno (l1 ++ [(s', e')]) e2 k). by rewrite <- (assoc_L (++)). }
  assert (sorted_from (s + 1) l2 ∧ end_of (s + 1) l2 <= b + size) as Htail.
  { destruct Hfit as [[_ [_ Hs2]]%sorted_from_app Hend]. rewrite end_of_app in Hend.
    destruct l2 as [|[s2 e2] k]; [split; [done|cbn; lia]|]. specialize (Hl2' _ _ eq_refl). simpl in Hl2'.
    destruct Hs2 as [? Hs2]. split; [split; [lia|done]|exact Hend]. }
  destruct ((e' <? s) && negb (e' + 1 =? s)) eqn:Hgap.
  - destruct (insertAfter_run size c L l1 s' e' l2 s e H) as (L' & -> & R1 & R2 & R3); [|lia|lia|].
    { apply (fits_avoids size c ltac:(lia) b); [done| |lia]. intros [r1 r2] Hr Er. simpl in Er. subst r1.
      apply list_elem_of_split in Hr as (k1 & k2 & E). by apply (Hno k1 r2 k2). }
    cbn [mbind option_bind]. eexists _, L'. split; [done|]. split.
    + exists (l1 ++ [(s', e')]), s, e, l2.
      split; [done|split; [done|split; [|split; [done|split]]]].
      * split; [|done]. apply fits_snoc; [|rewrite end_of_app; cbn; lia|lia].
        destruct (fits_app size b (l1 ++ [(s', e')]) l2) as [? _]; [by rewrite <- (assoc_L (++))|done].
      * rewrite R2, Hh, !first_app. done.
      * intros x. rewrite !numbers_app, !elem_of_app, !elem_of_numbers_cons. cbn [numbers].
        rewrite elem_of_nil. tauto.
    + rewrite (raw_length _ _ _ _ R1), <- (assoc_L (++)). rewrite sum_app. cbn [app].
      pose proof (raw_length _ _ _ _ H) as E. rewrite sum_app in E.
      rewrite !sum_cons in * by lia. lia.
  - rewrite seqcmp_ge by (unfold near, m_iSeqNoTH; lia). cbn [with_last m_caSeq].
    destruct (Z.leb_spec e e') as [Hle|Hgt].
    + eexists None, _. split; [done|]. split.
      * split; [apply with_last_raw; [done|apply last_ok_here]|]. split; [by exists b|done].
      * intros x Hx. apply elem_of_numbers. exists (s', e'). split; [apply elem_of_app; right; left|simpl; lia].
    + pose proof (raw_array _ _ _ _ H) as Ha. pose proof (pos_range size c ltac:(lia) s') as Hp'.
      step_L. rewrite seqlen_seqno by (unfold m_iMaxSeqNo; lia).
      pose proof (set_end_run size c L l1 s' e' e l2 (e - e' + 1 - 1) H ltac:(lia) ltac:(lia) ltac:(lia) ltac:(lia))
        as R. cbn zeta in R.
      eexists _, _. split; [done|]. split.
      * exists l1, s', e, l2. split; [done|split; [exact R|split; [|split; [done|split]]]].
        -- split; [|].
           ++ apply fits_snoc; [by apply fits_app in Hfit as [? _]|lia|lia].
           ++ destruct Htail as [T1 T2]. split; [eapply sorted_from_le; [|done]; lia|].
              destruct l2 as [|[??] ?]; cbn [end_of] in *; lia.
        -- fields. rewrite Hh, !first_app. done.
        -- intros x. rewrite !numbers_app, !elem_of_app, !elem_of_numbers_cons.
           assert (s' <= x <= e ↔ s' <= x <= e' ∨ s <= x <= e) by lia. tauto.
      * fields. rewrite i32_small; lia.
Qed.

(** The numbers [ns], and those from [s] to [e]. *)
Definition lost_union (ns : list Z) (s e : Z) : list Z :=
  filter (λ x, x < s) ns ++ seqZ s (e - s + 1) ++ filter (λ x, e < x) ns.

Lemma elem_of_lost_union ns s e x : s <= e → x ∈ lost_union ns s e ↔ x ∈ ns ∨ s <= x <= e.
Proof.
  intros Hse. unfold lost_union. rewrite !elem_of_app, !list_elem_of_filter, elem_of_seqZ.
  destruct (decide (x < s)), (decide (e < x)); split; intros; intuition lia.
Qed.
Lemma lost_union_sorted ns s e :
  StronglySorted Z.lt ns → s <= e → StronglySorted Z.lt (lost_union ns s e).
Proof.
  intros Hns Hse. unfold lost_union. apply sorted_app; [by apply sorted_filter| |].
  - apply sorted_app; [apply sorted_seqZ|by apply sorted_filter|].
    intros x y Hx1%elem_of_seqZ [Hy1 _]%list_elem_of_filter. lia.
  - intros x y [Hx1 _]%list_elem_of_filter [Hy1%elem_of_seqZ|[Hy1 _]%list_elem_of_filter]%elem_of_app; lia.
Qed.
Lemma inserts_union size c b L' l s e :
  sorted_from b l → s <= e → inserts size c b L' l s e →
  ∃ l', snd_at size c L' l' ∧ numbers l' = lost_union (numbers l) s e.
Proof.
  intros Hl Hse (l' & H & [Hl' _] & Hx). exists l'. split; [done|].
  apply sorted_ext; [by eapply numbers_sorted|apply lost_union_sorted; [by eapply numbers_sorted|done]|].
  intros x. by rewrite Hx, elem_of_lost_union.
Qed.

Lemma snd_raw_nil size c c' L : snd_raw size c L [] → snd_raw size c' L [].
Proof.
  intros [? ? ? ? Hf ? ? ? Hl]. split; try done.
  - intros p Hp _. apply Hf; [done|apply avoids_nil].
  - destruct Hl as [?|Hl]; [by left|]. destruct Hl. apply avoids_nil.
Qed.

Lemma snd_insert_guards size s e :
  0 < size <= 2 ^ 29 → s <= e → e - s + 1 < size →
  (seqno s <? 0) || (seqno e <? 0) = false ∧
  (seqlen (seqno s) (seqno e) <=? 0) || (size <=? seqlen (seqno s) (seqno e)) = false.
Proof.
  intros Hsz Hse Hlen. pose proof (seqno_nonneg s). pose proof (seqno_nonneg e).
  rewrite seqlen_seqno by (unfold m_iMaxSeqNo; lia). lia.
Qed.

Lemma snd_insert_empty size c L s e :
  snd_at size c L [] → s <= e → e - s + 1 < size →
  ∃ L', CSndLossList_insert L (seqno s) (seqno e) = Some (e - s + 1, L') ∧
    snd_at size (- s) L' [(s, e)].
Proof.
  intros H Hse Hlen. pose proof (snd_empty _ _ _ _ H) as Hemp. destruct H as (H & _ & Hh).
  pose proof (raw_size _ _ _ _ H) as Hsz. destruct (snd_insert_guards size s e) as [G1 G2]; [done..|].
  unfold CSndLossList_insert. rewrite (raw_msize _ _ _ _ H), G1, G2, Hemp, bool_decide_true by done.
  apply (snd_raw_nil _ _ (- s)) in H. pose proof (raw_length _ _ _ _ H) as Hl. simpl in Hl.
  assert (pos size (- s) s = 0) as Hs by (unfold pos; rewrite Z.add_opp_diag_r; apply Z.mod_0_l; lia).
  destruct (insertHead_run size (- s) L [] s e H) as (L' & E & H' & Hh' & _); [done|apply avoids_nil|lia|lia|].
  rewrite Hs in E, Hh'. rewrite E. cbn [mbind option_bind]. exists L'. split.
  - do 2 f_equal. rewrite (raw_length _ _ _ _ H'), sum_cons by lia. simpl. lia.
  - split; [done|]. split; [|by cbn [first]; rewrite Hs]. exists s. split; [by split; [lia|]|]. cbn [end_of]. lia.
Qed.

(** The three places of a new range: before the head, after it, at it. *)
Definition insert_place (L : CSndLossList) (offset loc seqno1 seqno2 : Z) : option (option Z * CSndLossList) :=
  if offset <? 0 then
    L ← insertHead L loc seqno1 seqno2;
    Some (Some loc, L)
  else if 0 <? offset then
    n ← m_caSeq L !! loc;
    if seqno1 =? seqstart n then updated loc <$> updateElement L loc seqno1 seqno2
    else insert_later L loc seqno1 seqno2
  else updated loc <$> updateElement L (m_iHead L) seqno1 seqno2.

Definition place_ok (size c b : Z) (L : CSndLossList) (l : list range) (s e : Z)
    (r : option Z) (L' : CSndLossList) : Prop :=
  match r with
  | Some p => placed size c b L L' l p s e ∧ m_iLength L' <= 2 * size
  | None => snd_at size c L' l ∧ ∀ x, s <= x <= e → x ∈ numbers l
  end.

Lemma update_place size c b L l1 s e0 l2 e :
  snd_at size c L (l1 ++ (s, e0) :: l2) → fits size b (l1 ++ (s, e0) :: l2) → s <= e < b + size →
  ∃ r L', updated (pos size c s) <$> updateElement L (pos size c s) (seqno s) (seqno e) = Some (r, L') ∧
    place_ok size c b L (l1 ++ (s, e0) :: l2) s e r L'.
Proof.
  intros H Hfit Hse. pose proof (snd_length_bound _ _ _ _ H) as Hlen. destruct H as (H & _ & Hh).
  pose proof (raw_size _ _ _ _ H) as Hsz.
  destruct (fits_split size c ltac:(lia) _ _ _ _ _ Hfit) as (Hb & He' & Hav1 & Hav2 & L1 & L2 & Hb1).
  destruct (updateElement_run size c L l1 s e0 l2 e H) as (L' & -> & R1 & R2 & R3 & R4); [lia..|].
  cbn [fmap option_fmap option_map]. unfold updated. case_bool_decide as Hlt; cbn [fst snd].
  - rewrite (Z.max_r e0 e) in R1 by lia. eexists _, _. split; [done|]. split.
    + exists l1, s, e, l2. split; [done|split; [done|split; [|split; [done|split]]]].
      * split; [apply fits_snoc; [by apply fits_app in Hfit as [? _]|lia|lia]|].
        destruct Hfit as [[_ [_ Hs2]]%sorted_from_app Hend]. rewrite end_of_app in Hend. cbn [end_of] in Hend.
        split; [eapply sorted_from_le; [|done]; lia|]. destruct l2 as [|[??] ?]; cbn [end_of] in *; lia.
      * rewrite R2, Hh, !first_app. done.
      * intros x. rewrite !numbers_app, !elem_of_app, !elem_of_numbers_cons.
        assert (s <= x <= e ↔ s <= x <= e0 ∨ s <= x <= e) by lia. tauto.
    + rewrite (raw_length _ _ _ _ R1), sum_app, sum_cons by lia.
      pose proof (raw_length _ _ _ _ H) as E. rewrite sum_app, sum_cons in E by lia. lia.
  - rewrite (Z.max_l e0 e) in R1 by lia. eexists None, _. split; [done|]. split.
    + split; [done|]. split; [by exists b|]. by rewrite R2, Hh.
    + intros x Hx. apply elem_of_numbers. exists (s, e0). split; [apply elem_of_app; right; left|simpl; lia].
Qed.

(** The node at the place of a number starts with it, or no node does. *)
Lemma snd_slot size c L b l s n :
  snd_raw size c L l → fits size b l → b <= s < b + 2 ^ 30 → m_caSeq L !! pos size c s = Some n →
  if seqno s =? seqstart n then ∃ l1 e l2, l = l1 ++ (s, e) :: l2
  else ∀ l1 e l2, l ≠ l1 ++ (s, e) :: l2.
Proof.
  intros H Hfit Hs Hn. pose proof (raw_size _ _ _ _ H) as Hsz.
  destruct (Z.eqb_spec (seqno s) (seqstart n)) as [E|E].
  - destruct (slot_cases cell size c (m_caSeq L) l (-1) (pos size c s)) as [(nx & pr & Hf)|Hs'].
    + apply H. + apply H. + by apply pos_range; lia.
    + exfalso. rewrite Hn in Hf. injection Hf as ->. by apply (seqno_not_none s).
    + destruct Hs' as (l1 & s' & e & l2 & -> & _ & Hs'). rewrite Hn in Hs'. injection Hs' as ->.
      cbn [cell seqstart] in E. destruct (fits_bounds size _ _ (s', e) Hfit) as [? ?];
        [apply elem_of_app; right; left|]. simpl in *.
      apply seqno_inj in E as <-; [by exists l1, e, l2|lia].
  - intros l1 e l2 ->. rewrite (snd_node _ _ _ _ _ _ _ H) in Hn. by injection Hn as <-.
Qed.

Lemma insert_place_run size c b L h e0 l s e :
  snd_at size c L ((h, e0) :: l) → fits size b ((h, e0) :: l) → b = Z.min h s → s <= e < b + size →
  ∃ r L', insert_place L (s - h) (pos size c s) (seqno s) (seqno e) = Some (r, L') ∧
    place_ok size c b L ((h, e0) :: l) s e r L'.
Proof.
  intros H Hfit Hb Hse. pose proof (raw_size _ _ _ _ (proj1 H)) as Hsz.
  pose proof (snd_length_bound _ _ _ _ H) as Hlen. unfold insert_place.
  destruct (fits_bounds size _ _ (h, e0) Hfit) as [? ?]; [left|]. cbn [fst snd] in *.
  destruct (Z.ltb_spec (s - h) 0).
  - destruct H as (H & _ & Hh).
    destruct (insertHead_run size c L ((h, e0) :: l) s e H Hh) as (L' & -> & R1 & R2 & R3); [|lia|lia|].
    { apply (fits_avoids size c ltac:(lia) b); [done| |lia]. intros r Hr E.
      pose proof (sorted_from_bounds h ((h, e0) :: l) r) as Hr'.
      destruct Hr' as [? _]; [|done|lia]. destruct Hfit as [[? ?] _]. split; [lia|done]. }
    cbn [mbind option_bind]. eexists _, _. split; [done|]. split.
    + exists [], s, e, ((h, e0) :: l). split; [done|split; [done|split; [|split; [done|split]]]].
      * destruct Hfit as [[? Hs] Hend]. cbn [end_of] in Hend.
        split; [split; [split; [lia|done]|cbn; lia]|]. cbn. split; [split; [lia|done]|lia].
      * by rewrite R2.
      * intros x. cbn [app]. rewrite elem_of_numbers_cons. tauto.
    + rewrite (raw_length _ _ _ _ R1), sum_cons by lia. rewrite <- (raw_length _ _ _ _ H). lia.
  - destruct (Z.ltb_spec 0 (s - h)).
    + pose proof (pos_range size c ltac:(lia) s) as Hp.
      destruct (m_caSeq L !! pos size c s) as [n|] eqn:Hn.
      2:{ apply (raw_array _ _ _ _ (proj1 H)) in Hp as [? Hp]. congruence. }
      cbn [mbind option_bind]. pose proof (snd_slot _ _ _ _ _ s n (proj1 H) Hfit ltac:(lia) Hn) as Hslot.
      case_match.
      * destruct Hslot as (l1 & e1 & l2 & E). rewrite E in *. apply update_place; [done|done|lia].
      * apply insert_later_run; done || lia.
    + assert (s = h) as -> by lia. rewrite (proj2 (proj2 H)). cbn [first].
      apply (update_place size c b L [] h e0 l e); [done|done|lia].
Qed.

Lemma snd_insert_at size c L h e0 l s e :
  snd_at size c L ((h, e0) :: l) → fits size (Z.min h s) ((h, e0) :: l) → s <= e → e - s + 1 < size →
  e < h + size →
  ∃ L' l', CSndLossList_insert L (seqno s) (seqno e)
      = Some (Z.of_nat (length (numbers l')) - Z.of_nat (length (numbers ((h, e0) :: l))), L') ∧
    snd_at size c L' l' ∧ numbers l' = lost_union (numbers ((h, e0) :: l)) s e.
Proof.
  intros H Hfit Hse Hlen He. pose proof (raw_size _ _ _ _ (proj1 H)) as Hsz.
  pose proof (snd_length_bound _ _ _ _ H) as Hlb. set (b := Z.min h s) in *.
  destruct (fits_bounds size _ _ (h, e0) Hfit) as [? ?]; [left|]. cbn [fst snd] in *.
  destruct (snd_insert_guards size s e) as [G1 G2]; [done..|].
  unfold CSndLossList_insert. rewrite (raw_msize _ _ _ _ (proj1 H)), G1, G2, (snd_empty _ _ _ _ H).
  rewrite bool_decide_false by done. rewrite (snd_head _ _ _ _ _ _ H). cbn [mbind option_bind seqstart].
  assert (near h s) as Hn by (unfold near, m_iSeqNoTH; lia).
  rewrite seqoff_seqno by done. rewrite (proj2 (Z.leb_gt size (s - h))) by lia.
  assert (insert_loc L (mkSeq (seqno h) (stored_end h e0) (first size c l (-1))) (seqno s) (seqno e)
    = Some (pos size c s)) as ->.
  { pose proof (pos_range size c ltac:(lia) h) as Hp. unfold insert_loc. cbn [seqstart].
    rewrite seqoff_seqno, (raw_msize _ _ _ _ (proj1 H)), (proj2 (proj2 H)) by done. cbn [first].
    rewrite i32_small by lia. replace (pos size c h + (s - h) + size) with (pos size c h + (s - h + size)) by lia.
    rewrite pos_rem by lia. replace (h + (s - h + size)) with (s + size) by lia. rewrite pos_turn.
    pose proof (pos_range size c ltac:(lia) s). by rewrite (proj2 (Z.ltb_ge _ _)) by lia. }
  destruct (insert_place_run size c b L h e0 l s e H Hfit eq_refl ltac:(lia)) as (r & L1 & E & Hr).
  unfold insert_place in E. rewrite E. cbn [mbind option_bind]. destruct r as [p|].
  - destruct Hr as [Hp Hl1]. destruct (coalesce_run _ _ _ _ _ _ _ _ _ Hp ltac:(lia)) as (L2 & -> & Hi).
    destruct (inserts_union _ _ _ _ _ _ _ (proj1 Hfit) Hse Hi) as (l' & H' & E'). cbn [mbind option_bind].
    exists L2, l'. split; [|done]. do 2 f_equal. pose proof (snd_length_bound _ _ _ _ H').
    rewrite i32_small by lia. by rewrite (raw_length _ _ _ _ (proj1 H')), (raw_length _ _ _ _ (proj1 H)).
  - destruct Hr as [H' Hx]. exists L1, ((h, e0) :: l). split; [do 2 f_equal; lia|]. split; [done|].
    pose proof (numbers_sorted _ _ (proj1 Hfit)) as Hs.
    apply sorted_ext; [done|by apply lost_union_sorted|]. intros x. rewrite elem_of_lost_union by done.
    split; [by left|]. intros [?|?]; auto.
Qed.

Lemma CSndLossList_insert_run size L ns s e :
  snd_holds size L ns → s <= e → e - s + 1 < size → (∀ x, x ∈ ns → x < s + size ∧ e < x + size) →
  ∃ L', CSndLossList_insert L (seqno s) (seqno e)
      = Some (Z.of_nat (length (lost_union ns s e)) - Z.of_nat (length ns), L') ∧
    snd_holds size L' (lost_union ns s e).
Proof.
  intros (c & l & H & <-) Hse Hlen Hx. destruct l as [|[h e0] l].
  - destruct (snd_insert_empty size c L s e H Hse Hlen) as (L' & -> & H').
    assert (lost_union (numbers []) s e = seqZ s (e - s + 1)) as -> by (unfold lost_union; cbn; by rewrite app_nil_r).
    exists L'. split; [by rewrite length_seqZ; do 2 f_equal; simpl; lia|].
    exists (- s), [(s, e)]. split; [done|]. cbn. by rewrite app_nil_r.
  - destruct (proj1 (proj2 H)) as [b Hfit]. apply fits_head in Hfit.
    pose proof (first_number _ _ _ _ (proj1 Hfit)) as Hh. destruct (Hx h Hh).
    destruct (snd_insert_at size c L h e0 l s e H) as (L' & l' & E & H' & E'); [|done|done|lia|].
    + destruct Hfit as [Hs He]. split; [eapply sorted_from_le; [|exact Hs]; lia|].
      rewrite (end_of_base _ h) by done.
      assert (end_of h ((h, e0) :: l) <= s + size).
      { apply end_of_numbers; [done|done|]. intros x Hxl. by apply Hx. }
      lia.
    + exists L'. rewrite E, <- E'. split; [done|]. by exists c, l'.
Qed.

(** ** Taking the first number *)

Lemma last_ok_drop size c p h e l :
  last_ok size c p ((h, e) :: l) → last_ok size c (if p =? pos size c h then -1 else p) l.
Proof.
  intros Hp. destruct (Z.eqb_spec p (pos size c h)) as [?|Hne]; [by left|]. destruct Hp as [?|Hp]; [by left|].
  right. intros Hl. apply Hp. avoid.
Qed.
Lemma last_ok_cons size c p r l : last_ok size c p l → last_ok size c p (r :: l).
Proof.
  intros [?|Hp]; [by left|]. right. destruct r. intros [_ Hl]%avoids_cons. done.
Qed.
(** The hint is dropped with its node. *)
Lemma last_reset (b : bool) L :
  (if b then with_last (-1) L else L) = with_last (if b then -1 else m_iLastInsertPos L) L.
Proof. destruct b; [done|]. by destruct L. Qed.

(** Writing what is left of a range to the free node after it. *)
Lemma snd_put_rest size p t e L nx pr :
  array_ok size (m_caSeq L) → 0 <= p < size → t <= e →
  m_caSeq L !! p = Some (cell SRT_SEQNO_NONE SRT_SEQNO_NONE nx pr) →
  let L1 := with_nodes (alter (set_seqstart (seqno t)) p (m_caSeq L)) L in
  ∃ a, (if t <? e then updL p (set_seqend (seqno e)) L1 else Some L1) = Some (with_nodes a L) ∧
    array_ok size a ∧ a !! p = Some (mkSeq (seqno t) (stored_end t e) nx) ∧
    ∀ q, q ≠ p → a !! q = m_caSeq L !! q.
Proof.
  intros Ha Hp He Hfree. cbn zeta. destruct (Z.ltb_spec t e).
  - step_L. eexists. split; [done|]. split_and!; [eauto with array|read_upd|by intros q Hq; rewrite !lookup_alter_ne].
    unfold cell. cbn. by rewrite stored_end_range by lia.
  - eexists. split; [done|]. split_and!; [eauto with array|read_upd|by intros q Hq; rewrite !lookup_alter_ne].
    unfold cell. cbn. replace e with t by lia. by rewrite stored_end_single.
Qed.

(** The list without its first node, once that is clear. *)
Lemma raw_drop size c L L' s e l :
  snd_raw size c L ((s, e) :: l) → m_iSize L' = size → array_ok size (m_caSeq L') →
  (∀ p, p ≠ pos size c s → m_caSeq L' !! p = m_caSeq L !! p) → free_at cell (m_caSeq L') (pos size c s) →
  m_iLength L' = m_iLength L - (e - s + 1) →
  last_ok size c (m_iLastInsertPos L') l → snd_raw size c L' l.
Proof.
  intros H Hm Ha Hoth Hfree Hlen Hlast. pose proof (raw_size _ _ _ _ H) as Hsz.
  assert (s <= e) as Hv by (apply (raw_valid _ _ _ _ H (s, e)); left).
  apply (snd_replace size c L L' [] [(s, e)] [] l); try done.
  - by pose proof (raw_apart _ _ _ _ H) as [_ ?]%apart_cons.
  - intros r Hr. by apply not_elem_of_nil in Hr.
  - intros p [Hp _]%avoids_cons _. cbn [last_pos]. rewrite (alter_out size (-1)); [by apply Hoth|apply H|lia].
  - intros p _ _ Hpa. assert (p = pos size c s) as -> by (apply dec_stable; intros Hne; apply Hpa; avoid). done.
  - rewrite sum_cons by lia. simpl. lia.
Qed.
Lemma drop_single size c L L' h l :
  snd_at size c L ((h, h) :: l) → m_iSize L' = size → array_ok size (m_caSeq L') →
  (∀ p, p ≠ pos size c h → m_caSeq L' !! p = m_caSeq L !! p) → free_at cell (m_caSeq L') (pos size c h) →
  m_iHead L' = first size c l (-1) → m_iLength L' = m_iLength L - 1 →
  last_ok size c (m_iLastInsertPos L') l → snd_at size c L' l.
Proof.
  intros (H & [b Hfit] & _) Hm Ha Hoth Hfree Hh Hlen Hlast. split; [|split; [|done]].
  - apply (raw_drop size c L L' h h l); (done || lia).
  - exists (end_of b [(h, h)]). by apply (fits_app size b [(h, h)]) in Hfit as [_ ?].
Qed.
Lemma drop_first size c L L' h e l :
  snd_at size c L ((h, e) :: l) → h < e → m_iSize L' = size → array_ok size (m_caSeq L') →
  (∀ p, p ≠ pos size c h → p ≠ pos size c (h + 1) → m_caSeq L' !! p = m_caSeq L !! p) →
  free_at cell (m_caSeq L') (pos size c h) →
  m_caSeq L' !! pos size c (h + 1) = Some (mkSeq (seqno (h + 1)) (stored_end (h + 1) e) (first size c l (-1))) →
  m_iHead L' = pos size c (h + 1) → m_iLength L' = m_iLength L - 1 →
  last_ok size c (m_iLastInsertPos L') l → snd_at size c L' ((h + 1, e) :: l).
Proof.
  intros (H & [b Hfit] & _) Hhe Hm Ha Hoth Hfree Hn Hh Hlen Hlast.
  pose proof (raw_size _ _ _ _ H) as Hsz.
  assert (fits size b ((h + 1, e) :: l)) as Hfit'.
  { apply (fits_replace size b [] [(h, e)] [(h + 1, e)] l Hfit); [|cbn; lia].
    destruct Hfit as [[? _] _]. cbn. split; [lia|done]. }
  split; [|split; [by exists b|done]].
  apply (snd_replace size c L L' [] [(h, e)] [(h + 1, e)] l); try done.
  - apply (fits_apart size c ltac:(lia) b). done.
  - intros r ->%list_elem_of_singleton. simpl. lia.
  - intros p [Hp _]%avoids_cons [Hp' _]%avoids_cons. cbn [last_pos].
    rewrite (alter_out size (-1)); [by apply Hoth|apply H|lia].
  - intros p _ _ Hpa. assert (p = pos size c h) as -> by (apply dec_stable; intros Hne; apply Hpa; avoid). done.
  - rewrite !sum_cons by lia. simpl. lia.
  - by apply last_ok_cons.
Qed.

Lemma pop_run size c L h e l :
  snd_at size c L ((h, e) :: l) →
  ∃ L', CSndLossList_popLostSeq L = Some (seqno h, L') ∧
    snd_at size c L' (if h =? e then l else (h + 1, e) :: l).
Proof.
  intros H. pose proof (raw_size _ _ _ _ (proj1 H)) as Hsz. pose proof (raw_array _ _ _ _ (proj1 H)) as Ha.
  destruct (proj1 (proj2 H)) as [b Hfit].
  destruct (fits_split size c ltac:(lia) _ [] _ _ _ Hfit) as (Hb & He & _ & Hav & _).
  pose proof (snd_node _ _ _ [] _ _ _ (proj1 H)) as Hn.
  pose proof (pos_range size c ltac:(lia) h) as Hp. pose proof (pos_range size c ltac:(lia) (h + 1)) as Hp'.
  pose proof (last_ok_drop _ _ _ _ _ _ (raw_last _ _ _ _ (proj1 H))) as Hlast.
  unfold CSndLossList_popLostSeq. rewrite (Z.eqb_sym 0), (snd_empty _ _ _ _ H), bool_decide_false by done.
  rewrite (proj2 (proj2 H)). cbn [first]. rewrite last_reset. cbn [with_last m_caSeq]. rewrite Hn.
  cbn [mbind option_bind seqstart seqend]. rewrite stored_end_none.
  destruct (Z.eqb_spec h e) as [<-|Hhe].
  - step_L. rewrite lookup_alter_eq, Hn. cbn [fmap option_fmap option_map mbind option_bind].
    cbn [set_seqstart inext]. eexists. split; [done|]. apply (drop_single size c L _ h l H); fields; try done.
    + apply H. + eauto with array. + intros p Hpp. by rewrite lookup_alter_ne.
    + eexists _, 0. rewrite lookup_alter_eq, Hn. unfold cell. cbn. by rewrite stored_end_single.
  - assert (pos size c (h + 1) ≠ pos size c h) as Hne by (apply pos_ne; lia).
    destruct (raw_free _ _ _ _ (proj1 H) (pos size c (h + 1)) Hp') as (nx & pr & Hfree).
    { apply (fits_inside size c ltac:(lia) b [] h e l); [done|lia]. }
    fields. rewrite (raw_msize _ _ _ _ (proj1 H)), pos_rem by lia. step_L.
    rewrite (lookup_alter_ne _ _ _ (pos size c h)), Hn by done. cbn [mbind option_bind seqend].
    rewrite lookup_alter_eq, Hfree. cbn [fmap option_fmap option_map mbind option_bind].
    cbn [set_seqstart cell seqstart]. rewrite stored_end_range, incseq_seqno, seqcmp_gt by (unfold near, m_iSeqNoTH; lia).
    destruct (snd_put_rest size (pos size c (h + 1)) (h + 1) e
      (with_last (if m_iLastInsertPos L =? pos size c h then -1 else m_iLastInsertPos L) L) _ _ Ha Hp' ltac:(lia) Hfree)
      as (a & E & Haa & Hai & Hap).
    change (m_caSeq (with_last ?v L)) with (m_caSeq L) in E, Hap.
    rewrite E. cbn [mbind option_bind with_nodes m_caSeq]. do 2 step_L.
    rewrite !lookup_alter_eq, Hap, Hn by done. cbn [fmap option_fmap option_map mbind option_bind].
    cbn [set_seqend set_seqstart inext]. step_L.
    eexists. split; [done|]. apply (drop_first size c L _ h e l H); fields; try done.
    + lia. + apply H. + eauto with array.
    + intros p Hp1 Hp2. rewrite !lookup_alter_ne by done. by apply Hap.
    + apply free_frame; [done|]. eexists _, 0. read_upd. rewrite Hap, Hn by done. done.
    + rewrite lookup_alter_eq, !lookup_alter_ne, Hai by done. done.
Qed.

Lemma numbers_tail h e l :
  h <= e → numbers ((h, e) :: l) = h :: numbers (if h =? e then l else (h + 1, e) :: l).
Proof.
  intros Hhe. cbn [numbers]. unfold range_numbers. cbn [fst snd]. rewrite (seqZ_cons h) by lia. cbn [app]. f_equal.
  destruct (Z.eqb_spec h e) as [->|?]; [by rewrite Z.sub_diag|]. cbn [numbers]. unfold range_numbers.
  cbn [fst snd]. do 2 f_equal; lia.
Qed.
Lemma CSndLossList_popLostSeq_run size L ns :
  snd_holds size L ns →
  ∃ L', CSndLossList_popLostSeq L
      = Some (match ns with [] => SRT_SEQNO_NONE | x :: _ => seqno x end, L') ∧
    snd_holds size L' (tail ns).
Proof.
  intros (c & l & H & <-). destruct l as [|[h e] l].
  - unfold CSndLossList_popLostSeq. rewrite (Z.eqb_sym 0), (snd_empty _ _ _ _ H), bool_decide_true by done.
    exists L. split; [done|]. by exists c, [].
  - destruct (pop_run _ _ _ _ _ _ H) as (L' & E & H'). exists L'.
    assert (h <= e) as Hhe by (apply (raw_valid _ _ _ _ (proj1 H) (h, e)); left).
    rewrite numbers_tail by done. split; [done|]. by eexists c, _.
Qed.

(** ** Removing up to a number *)

Lemma drop_nodes_run size c b fuel L k1 k2 :
  snd_raw size c L (k1 ++ k2) → fits size b (k1 ++ k2) → m_iHead L = first size c k2 (-1) →
  (length k1 < fuel)%nat → m_iLength L <= size →
  ∃ L', drop_nodes fuel L (first size c (k1 ++ k2) (-1)) = Some L' ∧ snd_at size c L' k2.
Proof.
  intros H. pose proof (raw_size _ _ _ _ H) as Hsz. revert fuel b L H.
  induction k1 as [|[s e] k1 IH]; intros fuel b L H Hfit Hh Hf Hlen;
    (destruct fuel as [|fuel]; [simpl in Hf; lia|]); cbn [drop_nodes app].
  - rewrite Hh, Z.eqb_refl. exists L. split; [done|]. split; [done|]. split; [by exists b|done].
  - pose proof (raw_array _ _ _ _ H) as Ha. pose proof (pos_range size c ltac:(lia) s) as Hp.
    destruct (fits_split size c ltac:(lia) _ [] _ _ _ Hfit) as (Hse & He & _ & Hav & _).
    assert (first size c k2 (-1) ≠ pos size c s) as Hne by (apply first_avoids; [avoid|lia]).
    cbn [first]. rewrite Hh, (proj2 (Z.eqb_neq _ _)) by done.
    pose proof (snd_node _ _ _ [] _ _ _ H) as Hn. rewrite Hn. cbn [mbind option_bind seqend seqstart].
    rewrite (Z.eqb_sym _ SRT_SEQNO_NONE), stored_end_none.
    pose proof (last_ok_drop _ _ _ _ _ _ (raw_last _ _ _ _ H)) as Hlast.
    pose proof (raw_length _ _ _ _ H) as El. cbn [app] in El. rewrite sum_cons in El by lia.
    assert (fits size (end_of b [(s, e)]) (k1 ++ k2)) as Hfit'
      by (by apply (fits_app size b [(s, e)]) in Hfit as [_ ?]).
    assert (∀ L1, m_iSize L1 = m_iSize L → m_iHead L1 = m_iHead L → m_iLastInsertPos L1 = m_iLastInsertPos L →
      m_iLength L1 = m_iLength L - (e - s + 1) → array_ok size (m_caSeq L1) →
      (∀ p, p ≠ pos size c s → m_caSeq L1 !! p = m_caSeq L !! p) →
      m_caSeq L1 !! pos size c s = Some (mkSeq (seqno s) SRT_SEQNO_NONE (first size c (k1 ++ k2) (-1))) →
      ∃ L', (L ← updL (pos size c s) (set_seqstart SRT_SEQNO_NONE) L1;
         let L := if m_iLastInsertPos L =? pos size c s then with_last (-1) L else L in
         n ← m_caSeq L !! pos size c s; drop_nodes fuel L (inext n)) = Some L' ∧ snd_at size c L' k2) as Hgo.
    { intros L1 E1 E2 E3 E4 Ha1 Ho1 Hn1. rewrite (updL_alter size) by done. cbn [mbind option_bind].
      rewrite last_reset. fields. rewrite lookup_alter_eq, Hn1. cbn [fmap option_fmap option_map mbind option_bind].
      cbn [set_seqstart inext]. apply (IH fuel (end_of b [(s, e)])); [|done|by fields; rewrite E2|simpl in Hf; lia|fields; lia].
      apply (raw_drop size c L _ s e (k1 ++ k2)); fields; try done.
      - rewrite E1. apply H. - eauto with array. - intros p Hpp. rewrite lookup_alter_ne by done. by apply Ho1.
      - eexists _, 0. by rewrite lookup_alter_eq, Hn1. - by rewrite E3. }
    destruct (Z.eqb_spec s e) as [<-|Hne']; cbn [negb].
    + apply Hgo; fields; try done; [lia|]. by rewrite stored_end_single in Hn.
    + rewrite stored_end_range, seqlen_seqno by (unfold m_iMaxSeqNo; lia).
      step_L. apply Hgo; fields; try done.
      * rewrite i32_small by lia. lia.
      * eauto with array.
      * intros p Hpp. by rewrite lookup_alter_ne.
      * by rewrite lookup_alter_eq, Hn.
Qed.

(** A list one of whose ranges is split after [x]. *)
Lemma raw_split size c b L L' l1 s e l2 x :
  snd_raw size c L (l1 ++ (s, e) :: l2) → fits size b (l1 ++ (s, e) :: l2) → s <= x < e →
  m_iSize L' = size → array_ok size (m_caSeq L') →
  (∀ p, p ≠ pos size c s → p ≠ pos size c (x + 1) → m_caSeq L' !! p = m_caSeq L !! p) →
  m_caSeq L' !! pos size c s = Some (mkSeq (seqno s) (stored_end s x) (pos size c (x + 1))) →
  m_caSeq L' !! pos size c (x + 1) = Some (mkSeq (seqno (x + 1)) (stored_end (x + 1) e) (first size c l2 (-1))) →
  m_iLength L' = m_iLength L → m_iLastInsertPos L' = m_iLastInsertPos L →
  snd_raw size c L' ((l1 ++ [(s, x)]) ++ (x + 1, e) :: l2) ∧
  fits size b ((l1 ++ [(s, x)]) ++ (x + 1, e) :: l2) ∧
  numbers ((l1 ++ [(s, x)]) ++ (x + 1, e) :: l2) = numbers (l1 ++ (s, e) :: l2).
Proof.
  intros H Hfit Hx Hm Ha Hoth Hn Hn' Hlen Hlast. pose proof (raw_size _ _ _ _ H) as Hsz.
  destruct (fits_split size c ltac:(lia) _ _ _ _ _ Hfit) as (Hb & _ & _ & _ & _ & _ & Hb1).
  rewrite <- (assoc_L (++)). cbn [app].
  assert (fits size b (l1 ++ [(s, x); (x + 1, e)] ++ l2)) as Hfit'.
  { apply (fits_replace size b l1 [(s, e)]); [exact Hfit| |cbn [end_of]; lia].
    cbn. split_and!; (lia || done). }
  split_and!; [|done|].
  - apply (snd_replace size c L L' l1 [(s, e)] [(s, x); (x + 1, e)] l2); try done.
    + by apply (fits_apart size c ltac:(lia) b).
    + intros r Hr. apply elem_of_cons in Hr as [->| ->%list_elem_of_singleton]; simpl; lia.
    + intros p [Hp _]%avoids_cons [_ [Hp' _]%avoids_cons]%avoids_cons.
      pose proof (snd_next_id _ _ _ l1 ((s, e) :: l2) H) as E. cbn [first] in E |- *. rewrite E. by apply Hoth.
    + intros p _ [Hp _]%avoids_cons Hpa. destruct Hpa. avoid.
    + rewrite !sum_cons by lia. simpl. lia.
    + rewrite Hlast. destruct (raw_last _ _ _ _ H) as [?|Hl]; [by left|]. right. intros Hl'. apply Hl. avoid.
  - rewrite !numbers_app. f_equal. cbn [numbers]. rewrite (assoc_L (++)). f_equal.
    unfold range_numbers. cbn [fst snd]. replace (e - s + 1) with ((x - s + 1) + (e - (x + 1) + 1)) by lia.
    rewrite (seqZ_app s (x - s + 1)) by lia. by replace (s + (x - s + 1)) with (x + 1) by lia.
Qed.

(** The list is cut in two: the numbers up to [x], and the others. *)
Definition cut (size c b : Z) (L' : CSndLossList) (l : list range) (x : Z) : Prop :=
  ∃ k1 k2, snd_raw size c L' (k1 ++ k2) ∧ fits size b (k1 ++ k2) ∧ m_iHead L' = first size c k2 (-1) ∧
    first size c (k1 ++ k2) (-1) = first size c l (-1) ∧
    numbers (k1 ++ k2) = numbers l ∧ (∀ r, r ∈ k1 → r.2 <= x) ∧ (∀ r, r ∈ k2 → x < r.1).

Lemma cut_between size c b L l1 s e l2 x :
  snd_raw size c L (l1 ++ (s, e) :: l2) → fits size b (l1 ++ (s, e) :: l2) → e <= x →
  (∀ r, r ∈ l2 → x < r.1) → cut size c b (with_head (first size c l2 (-1)) L) (l1 ++ (s, e) :: l2) x.
Proof.
  intros H Hfit He Hl2. pose proof (raw_size _ _ _ _ H) as Hsz.
  destruct (fits_split size c ltac:(lia) _ _ _ _ _ Hfit) as (Hb & _ & _ & _ & L1 & _).
  exists (l1 ++ [(s, e)]), l2. rewrite <- (assoc_L (++)). cbn [app].
  split; [by apply with_head_raw|]. split_and!; try done.
  intros r [Hr| ->%list_elem_of_singleton]%elem_of_app; [|simpl; lia]. specialize (L1 _ Hr). lia.
Qed.
Lemma cut_inside size c b L L' l1 s e l2 x :
  snd_raw size c L (l1 ++ (s, e) :: l2) → fits size b (l1 ++ (s, e) :: l2) → s <= x < e →
  m_iSize L' = size → array_ok size (m_caSeq L') →
  (∀ p, p ≠ pos size c s → p ≠ pos size c (x + 1) → m_caSeq L' !! p = m_caSeq L !! p) →
  m_caSeq L' !! pos size c s = Some (mkSeq (seqno s) (stored_end s x) (pos size c (x + 1))) →
  m_caSeq L' !! pos size c (x + 1) = Some (mkSeq (seqno (x + 1)) (stored_end (x + 1) e) (first size c l2 (-1))) →
  m_iLength L' = m_iLength L → m_iLastInsertPos L' = m_iLastInsertPos L →
  m_iHead L' = pos size c (x + 1) → cut size c b L' (l1 ++ (s, e) :: l2) x.
Proof.
  intros H Hfit Hx Hm Ha Hoth Hn Hn' Hlen Hlast Hh. pose proof (raw_size _ _ _ _ H) as Hsz.
  destruct (fits_split size c ltac:(lia) _ _ _ _ _ Hfit) as (Hb & _ & _ & _ & L1 & L2 & _).
  destruct (raw_split size c b L L' l1 s e l2 x) as (R1 & R2 & R3); try done.
  exists (l1 ++ [(s, x)]), ((x + 1, e) :: l2). split; [done|]. split_and!; try done.
  - by rewrite <- (assoc_L (++)), !first_app.
  - intros r [Hr| ->%list_elem_of_singleton]%elem_of_app; [|simpl; lia]. specialize (L1 _ Hr). lia.
  - intros r [->|Hr]%elem_of_cons; [simpl; lia|]. specialize (L2 _ Hr). lia.
Qed.

Lemma cut_at_run size c b L l1 x e l2 :
  snd_raw size c L (l1 ++ (x, e) :: l2) → fits size b (l1 ++ (x, e) :: l2) →
  ∃ L', cut_at L (pos size c x) (seqno x) = Some L' ∧ cut size c b L' (l1 ++ (x, e) :: l2) x ∧
    m_iLength L' = m_iLength L.
Proof.
  intros H Hfit. pose proof (raw_size _ _ _ _ H) as Hsz. pose proof (raw_array _ _ _ _ H) as Ha.
  destruct (fits_split size c ltac:(lia) _ _ _ _ _ Hfit) as (Hb & He & _ & _ & L1 & L2 & _).
  pose proof (snd_node _ _ _ _ _ _ _ H) as Hn.
  pose proof (pos_range size c ltac:(lia) x) as Hp. pose proof (pos_range size c ltac:(lia) (x + 1)) as Hp'.
  unfold cut_at. rewrite Hn. cbn [mbind option_bind seqend]. rewrite stored_end_none.
  destruct (Z.eqb_spec x e) as [<-|Hne].
  { eexists. split; [done|]. split; [|done]. apply cut_between; [done|done|lia|done]. }
  assert (pos size c (x + 1) ≠ pos size c x) as Hpne by (apply pos_ne; lia).
  destruct (raw_free _ _ _ _ H (pos size c (x + 1)) Hp') as (nx & pr & Hfree).
  { apply (fits_inside size c ltac:(lia) b); [done|lia]. }
  rewrite (raw_msize _ _ _ _ H), pos_rem by lia. step_L.
  rewrite (lookup_alter_ne _ _ _ (pos size c x)), Hn by done. cbn [mbind option_bind seqend].
  rewrite lookup_alter_eq, Hfree. cbn [fmap option_fmap option_map mbind option_bind].
  cbn [set_seqstart cell seqstart]. rewrite stored_end_range, incseq_seqno, seqcmp_gt by (unfold near, m_iSeqNoTH; lia).
  destruct (snd_put_rest size (pos size c (x + 1)) (x + 1) e L _ _ Ha Hp' ltac:(lia) Hfree) as (a & -> & Haa & Hai & Hap).
  cbn [mbind option_bind]. fields. rewrite Hap, Hn by done. cbn [mbind option_bind inext].
  do 2 step_L. rewrite (updL_alter size) by (fields; first [lia | eauto 20 with array]). eexists. split; [done|].
  split; [|done]. apply (cut_inside size c b L _ l1 x e l2); fields; try done.
  - lia.
  - apply H.
  - eauto with array.
  - intros p Hp1 Hp2. rewrite !lookup_alter_ne by done. by apply Hap.
  - rewrite !lookup_alter_eq, lookup_alter_ne, Hap, Hn by done.
    cbn [fmap option_fmap option_map]. cbn [set_inext set_seqend]. by rewrite stored_end_single.
  - rewrite !lookup_alter_ne, lookup_alter_eq, Hai by done. done.
Qed.

Lemma cut_after_run size c b L h e0 l x :
  snd_at size c L ((h, e0) :: l) → fits size b ((h, e0) :: l) → b <= h < x → x < b + m_iSeqNoTH →
  (∀ l1 e l2, (h, e0) :: l ≠ l1 ++ (x, e) :: l2) →
  ∃ L', cut_after L (pos size c x) (seqno x) = Some L' ∧ cut size c b L' ((h, e0) :: l) x ∧
    m_iLength L' = m_iLength L.
Proof.
  intros (H & _ & Hh) Hfit Hhx Hx Hno. pose proof (raw_size _ _ _ _ H) as Hsz. pose proof (raw_array _ _ _ _ H) as Ha.
  unfold cut_after. rewrite Hh. cbn [first].
  assert (length l < S (Z.to_nat (m_iSize L)))%nat as Hf.
  { rewrite (raw_msize _ _ _ _ H). destruct Hfit as [Hs He']. pose proof (length_ranges _ _ Hs) as Hl.
    pose proof (length_numbers _ _ Hs). cbn [length] in Hl. lia. }
  destruct (skip_lower_run size c L b [] h e0 l _ x H Hfit ltac:(unfold m_iSeqNoTH in *; lia) ltac:(lia) Hf)
    as (l1 & s & e & l2 & E & -> & Hs & Hl2).
  cbn [app] in E. rewrite E in *. clear E Hf e0.
  destruct (fits_split size c ltac:(lia) _ _ _ _ _ Hfit) as (Hb & He & _ & _ & L1 & L2 & _).
  assert (∀ r, r ∈ l2 → x < r.1) as Hl2'.
  { intros [s2 e2] Hr. pose proof Hfit as [[_ [_ Hs2]]%sorted_from_app _].
    destruct l2 as [|[s3 e3] k]; [by apply not_elem_of_nil in Hr|]. specialize (Hl2 _ _ eq_refl). simpl in Hl2.
    assert (s3 ≠ x) as Hne by (intros ->; apply (Hno (l1 ++ [(s, e)]) e3 k); by rewrite <- (assoc_L (++))).
    destruct Hs2 as [? Hs2]. apply elem_of_cons in Hr as [[= -> ->]|Hr]; [simpl; lia|].
    destruct (sorted_from_bounds _ _ _ Hs2 Hr). simpl in *. lia. }
  pose proof (snd_node _ _ _ _ _ _ _ H) as Hn. cbn [mbind option_bind]. rewrite Hn. cbn [mbind option_bind seqend].
  rewrite stored_end_none.
  destruct (Z.eqb_spec s e) as [<-|Hne].
  { eexists. split; [done|]. split; [|done]. apply cut_between; [done|done|lia|done]. }
  rewrite stored_end_range, seqcmp_gt by (unfold near, m_iSeqNoTH in *; lia).
  destruct (Z.ltb_spec x e) as [Hxe|Hxe].
  2:{ eexists. split; [done|]. split; [|done]. apply cut_between; [done|done|lia|done]. }
  pose proof (pos_range size c ltac:(lia) s) as Hp. pose proof (pos_range size c ltac:(lia) (x + 1)) as Hp'.
  pose proof (pos_range size c ltac:(lia) x) as Hpx.
  assert (pos size c (x + 1) ≠ pos size c s) as Hpne by (apply pos_ne; lia).
  destruct (raw_free _ _ _ _ H (pos size c (x + 1)) Hp') as (nx & pr & Hfree).
  { apply (fits_inside size c ltac:(lia) b); [done|lia]. }
  rewrite (raw_msize _ _ _ _ H), pos_rem by lia. step_L.
  rewrite (lookup_alter_ne _ _ _ (pos size c s)), Hn by done. cbn [mbind option_bind seqend].
  rewrite lookup_alter_eq, Hfree. cbn [fmap option_fmap option_map mbind option_bind].
  cbn [set_seqstart cell seqstart]. rewrite stored_end_range, incseq_seqno, seqcmp_gt by (unfold near, m_iSeqNoTH; lia).
  destruct (snd_put_rest size (pos size c (x + 1)) (x + 1) e L _ _ Ha Hp' ltac:(lia) Hfree) as (a & -> & Haa & Hai & Hap).
  cbn [mbind option_bind]. fields. step_L. rewrite lookup_alter_eq, Hap, Hn by done.
  cbn [fmap option_fmap option_map mbind option_bind]. cbn [set_seqend inext].
  do 2 step_L. eexists. split; [done|]. split; [|done]. apply (cut_inside size c b L _ l1 s e l2); fields; try done.
  - lia.
  - apply H.
  - eauto with array.
  - intros p Hp1 Hp2. rewrite !lookup_alter_ne by done. by apply Hap.
  - rewrite lookup_alter_eq, lookup_alter_ne, lookup_alter_eq, Hap, Hn by done.
    cbn [fmap option_fmap option_map]. cbn [set_inext set_seqend]. by rewrite (stored_end_range s x) by lia.
  - rewrite lookup_alter_ne, lookup_alter_eq, lookup_alter_ne, Hai by done. done.
Qed.

Lemma remove_head_run size c L h e l :
  snd_at size c L ((h, e) :: l) →
  ∃ L', remove_head L (pos size c h) (seqno h) = Some L' ∧
    snd_at size c L' (if h =? e then l else (h + 1, e) :: l).
Proof.
  intros H. pose proof (raw_size _ _ _ _ (proj1 H)) as Hsz. pose proof (raw_array _ _ _ _ (proj1 H)) as Ha.
  destruct (proj1 (proj2 H)) as [b Hfit].
  destruct (fits_split size c ltac:(lia) _ [] _ _ _ Hfit) as (Hb & He & _ & Hav & _).
  pose proof (snd_node _ _ _ [] _ _ _ (proj1 H)) as Hn.
  pose proof (pos_range size c ltac:(lia) h) as Hp. pose proof (pos_range size c ltac:(lia) (h + 1)) as Hp'.
  pose proof (last_ok_drop _ _ _ _ _ _ (raw_last _ _ _ _ (proj1 H))) as Hlast.
  unfold remove_head. rewrite (proj2 (proj2 H)). cbn [first]. rewrite Hn.
  cbn [mbind option_bind seqend]. rewrite stored_end_none.
  destruct (Z.eqb_spec h e) as [<-|Hhe].
  - cbn [mbind option_bind inext]. step_L. rewrite last_reset. fields.
    eexists. split; [done|]. apply (drop_single size c L _ h l H); fields; try done.
    + apply H. + eauto with array. + intros p Hpp. by rewrite lookup_alter_ne.
    + eexists _, 0. rewrite lookup_alter_eq, Hn. unfold cell. cbn. by rewrite stored_end_single.
  - assert (pos size c (h + 1) ≠ pos size c h) as Hne by (apply pos_ne; lia).
    destruct (raw_free _ _ _ _ (proj1 H) (pos size c (h + 1)) Hp') as (nx & pr & Hfree).
    { apply (fits_inside size c ltac:(lia) b [] h e l); [done|lia]. }
    rewrite (raw_msize _ _ _ _ (proj1 H)), pos_rem, incseq_seqno by lia. step_L.
    rewrite (lookup_alter_ne _ _ _ (pos size c h)), Hn by done. cbn [mbind option_bind seqend].
    rewrite stored_end_range, seqcmp_gt by (unfold near, m_iSeqNoTH; lia).
    destruct (snd_put_rest size (pos size c (h + 1)) (h + 1) e L _ _ Ha Hp' ltac:(lia) Hfree) as (a & E & Haa & Hai & Hap).
    rewrite E. cbn [mbind option_bind with_nodes m_caSeq]. step_L.
    rewrite lookup_alter_eq, Hap, Hn by done. cbn [fmap option_fmap option_map mbind option_bind].
    cbn [set_seqend inext]. do 2 step_L. rewrite last_reset. fields.
    eexists. split; [done|]. apply (drop_first size c L _ h e l H); fields; try done.
    + lia. + apply H. + eauto with array.
    + intros p Hp1 Hp2. rewrite !lookup_alter_ne by done. by apply Hap.
    + eexists _, 0. rewrite lookup_alter_eq, lookup_alter_ne, lookup_alter_eq, Hap, Hn by done. done.
    + rewrite lookup_alter_ne, lookup_alter_eq, lookup_alter_ne, Hai by done. done.
Qed.

Lemma filter_all (P : Z → Prop) `{∀ y, Decision (P y)} (l : list Z) :
  (∀ y, y ∈ l → P y) → filter P l = l.
Proof.
  induction l as [|a l IH]; [done|]. intros HP. rewrite filter_cons_True by (apply HP; left).
  f_equal. apply IH. intros y Hy. apply HP. by right.
Qed.
Lemma filter_none (P : Z → Prop) `{∀ y, Decision (P y)} (l : list Z) :
  (∀ y, y ∈ l → ¬ P y) → filter P l = [].
Proof.
  induction l as [|a l IH]; [done|]. intros HP. rewrite filter_cons_False by (apply HP; left).
  apply IH. intros y Hy. apply HP. by right.
Qed.
Lemma filter_above k1 k2 x :
  (∀ r, r ∈ k1 → r.2 <= x) → (∀ r, r ∈ k2 → x < r.1) →
  filter (λ y, x < y) (numbers (k1 ++ k2)) = numbers k2.
Proof.
  intros H1 H2. rewrite numbers_app, filter_app, filter_none, filter_all; [done|..].
  - intros y (r & Hr & Hy)%elem_of_numbers. specialize (H2 r Hr). lia.
  - intros y (r & Hr & Hy)%elem_of_numbers. specialize (H1 r Hr). lia.
Qed.

Lemma removeUpTo_at size c L h e l x :
  snd_at size c L ((h, e) :: l) → near h x →
  ∃ L' l', CSndLossList_removeUpTo L (seqno x) = Some L' ∧ snd_at size c L' l' ∧
    numbers l' = filter (λ y, x < y) (numbers ((h, e) :: l)).
Proof.
  intros H Hn. pose proof (raw_size _ _ _ _ (proj1 H)) as Hsz.
  destruct (proj1 (proj2 H)) as [b Hfit]. apply fits_head in Hfit. clear b.
  pose proof (snd_length_bound _ _ _ _ H) as Hlb.
  destruct (fits_bounds size _ _ (h, e) Hfit) as [? ?]; [left|]. cbn [fst snd] in *.
  unfold CSndLossList_removeUpTo. rewrite (Z.eqb_sym 0), (snd_empty _ _ _ _ H), bool_decide_false by done.
  rewrite (snd_head _ _ _ _ _ _ H). cbn [mbind option_bind seqstart]. rewrite seqoff_seqno by done.
  unfold near in Hn. rewrite (raw_msize _ _ _ _ (proj1 H)).
  assert (h <= x → Z.rem (i32 (m_iHead L + (x - h) + size)) size = pos size c x) as Hloc.
  { intros Hx. rewrite (proj2 (proj2 H)). cbn [first]. pose proof (pos_range size c ltac:(lia) h).
    unfold m_iSeqNoTH in Hn. rewrite i32_small by lia.
    replace (pos size c h + (x - h) + size) with (pos size c h + (x - h + size)) by lia.
    rewrite pos_rem by lia. replace (h + (x - h + size)) with (x + size) by lia. apply pos_turn. }
  destruct (Z.eqb_spec 0 (x - h)) as [E|Hne].
  { assert (x = h) as -> by lia. rewrite Hloc by lia.
    destruct (remove_head_run _ _ _ _ _ _ H) as (L' & -> & H'). eexists L', _. split; [done|]. split; [done|].
    rewrite numbers_tail by lia. rewrite filter_cons_False by lia. symmetry. apply filter_all.
    pose proof (numbers_sorted _ _ (proj1 Hfit)) as Hs. rewrite numbers_tail in Hs by lia.
    apply StronglySorted_inv in Hs as [_ Hs]. by apply Forall_forall. }
  destruct (Z.ltb_spec 0 (x - h)).
  2:{ exists L, ((h, e) :: l). split; [done|]. split; [done|]. symmetry. apply filter_all.
      intros y Hy%(numbers_bounds _ _ _ (proj1 Hfit)). lia. }
  rewrite Hloc by lia. pose proof (pos_range size c ltac:(lia) x) as Hp.
  destruct (m_caSeq L !! pos size c x) as [n|] eqn:Hnx.
  2:{ apply (raw_array _ _ _ _ (proj1 H)) in Hp as [? Hp]. congruence. }
  cbn [mbind option_bind].
  pose proof (snd_slot _ _ _ _ _ x n (proj1 H) Hfit ltac:(unfold m_iSeqNoTH in Hn; lia) Hnx) as Hslot.
  assert (∃ L1, (if seqno x =? seqstart n then cut_at L (pos size c x) (seqno x)
      else cut_after L (pos size c x) (seqno x)) = Some L1 ∧
    cut size c h L1 ((h, e) :: l) x ∧ m_iLength L1 = m_iLength L) as (L1 & -> & Hcut & El).
  { destruct (seqno x =? seqstart n).
    - destruct Hslot as (l1 & e1 & l2 & E). rewrite E in *. apply cut_at_run; [apply H|done].
    - apply cut_after_run; [done|done|lia|lia|done]. }
  destruct Hcut as (k1 & k2 & R1 & R2 & R3 & R4 & R5 & R6 & R7). cbn [mbind option_bind].
  rewrite (proj2 (proj2 H)), <- R4, (raw_msize _ _ _ _ R1).
  destruct (drop_nodes_run size c h (S (S (Z.to_nat size))) L1 k1 k2 R1 R2 R3) as (L' & -> & H'); [|lia|].
  - destruct R2 as [Hs He]. pose proof (length_ranges _ _ Hs) as Hl. pose proof (length_numbers _ _ Hs).
    rewrite length_app in Hl. lia.
  - exists L', k2. split; [done|]. split; [done|]. rewrite <- R5. symmetry. by apply filter_above.
Qed.

Lemma CSndLossList_removeUpTo_run size L ns x :
  snd_holds size L ns → near_first ns x →
  ∃ L', CSndLossList_removeUpTo L (seqno x) = Some L' ∧ snd_holds size L' (filter (λ y, x < y) ns).
Proof.
  intros (c & l & H & <-) Hx. destruct l as [|[h e] l].
  - unfold CSndLossList_removeUpTo. rewrite (Z.eqb_sym 0), (snd_empty _ _ _ _ H), bool_decide_true by done.
    exists L. split; [done|]. by exists c, [].
  - assert (h <= e) as Hhe by (apply (raw_valid _ _ _ _ (proj1 H) (h, e)); left).
    destruct (removeUpTo_at _ _ _ _ _ _ x H) as (L' & l' & E & H' & E'); [by apply Hx, numbers_head|].
    exists L'. split; [done|]. by exists c, l'.
Qed.

Lemma snd_getLossLength_run size L ns :
  snd_holds size L ns → CSndLossList_getLossLength L = Z.of_nat (length ns).
Proof. intros (c & l & (H & _) & <-). apply H. Qed.

Lemma CSndLossList_new_ok uninit size :
  0 < size <= 2 ^ 29 → snd_holds size (CSndLossList_new uninit size) [].
Proof.
  intros Hs. exists 0, []. split; [|done].
  assert (∀ p v, m_caSeq (CSndLossList_new uninit size) !! p = Some v ↔
    0 <= p < size ∧ v = set_seqend SRT_SEQNO_NONE (set_seqstart SRT_SEQNO_NONE (uninit p))) as Hlk.
  { intros p v. apply (lookup_uninit size (λ i, set_seqend _ (set_seqstart _ (uninit i)))). }
  assert (array_ok size (m_caSeq (CSndLossList_new uninit size))) as Ha.
  { intros p. split; [intros [v [Hp _]%Hlk]; done|]. intros Hp. eexists. apply Hlk. by split. }
  split; [|split; [exists 0; split; [done|cbn [end_of]; lia]|done]].
  split; try done.
  - intros p Hp _. exists (inext (uninit p)), 0. apply Hlk. by split.
  - constructor.
  - intros r Hr. by apply not_elem_of_nil in Hr.
  - by left.
Qed.
