(* ===== verification/LossReport.v ===== *)
(** * Loss detection, reports and retransmission requests (srtcore/core.cpp)

    What a connection does with its loss lists: the receiver records the gaps in
    the sequence numbers of the packets that arrive, reports them (a NAK) and
    acknowledges up to the first of them; the sender puts what a report names in
    its own list.  The states are the fields of [CUDT] that this touches.  The
    locks make each function one step. *)
From S2P Require Import Prelude SeqNo LossRing RcvLoss SndLoss.

(** ** Records of fresh losses (srtcore/list.cpp) *)

Record CRcvFreshLoss := mkFresh { seq0 : Z; seq1 : Z; ttl : Z; timestamp : Z }.
Inductive Emod := NONE | STRIPPED | SPLIT | DELETE.

(** [revoke] of one number. *)
Definition revoke (f : CRcvFreshLoss) (sequence : Z) : Emod * CRcvFreshLoss :=
  let diffbegin := seqcmp sequence (seq0 f) in
  let diffend := seqcmp sequence (seq1 f) in
  if (diffbegin <? 0) || (0 <? diffend) then (NONE, f)
  else if diffbegin =? 0 then
    if diffend =? 0 then (DELETE, f)
    else (STRIPPED, mkFresh (incseq (seq0 f)) (seq1 f) (ttl f) (timestamp f))
  else if diffend =? 0 then (STRIPPED, mkFresh (seq0 f) (decseq (seq1 f)) (ttl f) (timestamp f))
  else (SPLIT, f).

(** [revoke] of a range. *)
Definition revoke_range (f : CRcvFreshLoss) (lo hi : Z) : Emod * CRcvFreshLoss :=
  if 0 <? seqcmp lo (seq1 f) then (DELETE, f)
  else if seqcmp hi (seq0 f) <? 0 then (NONE, f)
  else if seqcmp hi (seq1 f) <? 0 then (STRIPPED, mkFresh (incseq hi) (seq1 f) (ttl f) (timestamp f))
  else (DELETE, f).

(** ** The words of a report *)

(** [addLossRecord], and the body of the loop of [sendLossReport]. *)
Definition addLossRecord (lr : list Z) (lo hi : Z) : list Z :=
  if lo =? hi then lr ++ [lo]
  else lr ++ [Z.lor lo LOSSDATA_SEQNO_RANGE_FIRST; hi].
(** [sendLossReport]: the words it sends, none when there are none. *)
Definition sendLossReport (loss_seqs : list range) : list (list Z) :=
  let seqbuffer := foldl (λ lr r, addLossRecord lr r.1 r.2) [] loss_seqs in
  if bool_decide (seqbuffer = []) then [] else [seqbuffer].

(** ** The receiver *)

Record CUDT_rcv :=
  { m_pRcvLossList : CRcvLossList; m_FreshLoss : list CRcvFreshLoss; m_iRcvCurrSeqNo : Z;
    m_bPeerRexmitFlag : bool; m_iReorderTolerance : Z; iMaxReorderTolerance : Z;
    m_iConsecEarlyDelivery : Z; m_iConsecOrderedDelivery : Z; traceReorderDistance : Z }.
Definition with_losses (L : CRcvLossList) (fresh : list CRcvFreshLoss) (R : CUDT_rcv) : CUDT_rcv :=
  {| m_pRcvLossList := L; m_FreshLoss := fresh; m_iRcvCurrSeqNo := m_iRcvCurrSeqNo R;
     m_bPeerRexmitFlag := m_bPeerRexmitFlag R; m_iReorderTolerance := m_iReorderTolerance R;
     iMaxReorderTolerance := iMaxReorderTolerance R; m_iConsecEarlyDelivery := m_iConsecEarlyDelivery R;
     m_iConsecOrderedDelivery := m_iConsecOrderedDelivery R; traceReorderDistance := traceReorderDistance R |}.
Definition with_currseq (v : Z) (R : CUDT_rcv) : CUDT_rcv :=
  {| m_pRcvLossList := m_pRcvLossList R; m_FreshLoss := m_FreshLoss R; m_iRcvCurrSeqNo := v;
     m_bPeerRexmitFlag := m_bPeerRexmitFlag R; m_iReorderTolerance := m_iReorderTolerance R;
     iMaxReorderTolerance := iMaxReorderTolerance R; m_iConsecEarlyDelivery := m_iConsecEarlyDelivery R;
     m_iConsecOrderedDelivery := m_iConsecOrderedDelivery R; traceReorderDistance := traceReorderDistance R |}.
(** The tolerance, its two counters and the statistics of the distance. *)
Definition with_tolerance (tol early ordered dist : Z) (R : CUDT_rcv) : CUDT_rcv :=
  {| m_pRcvLossList := m_pRcvLossList R; m_FreshLoss := m_FreshLoss R; m_iRcvCurrSeqNo := m_iRcvCurrSeqNo R;
     m_bPeerRexmitFlag := m_bPeerRexmitFlag R; m_iReorderTolerance := tol;
     iMaxReorderTolerance := iMaxReorderTolerance R; m_iConsecEarlyDelivery := early;
     m_iConsecOrderedDelivery := ordered; traceReorderDistance := dist |}.

(** A data packet: its number and its retransmission flag. *)
Record CPacket := { m_iSeqNo : Z; getRexmitFlag : bool }.

(** The loop of [unlose] over [m_FreshLoss]: the new records, and the ttl of the
    last one looked at. *)
Fixpoint unlose_fresh (fresh : list CRcvFreshLoss) (sequence had_ttl now : Z)
    : list CRcvFreshLoss * Z :=
  match fresh with
  | [] => ([], had_ttl)
  | f :: rest =>
      match revoke f sequence with
      | (NONE, f) => let r := unlose_fresh rest sequence (ttl f) now in (f :: r.1, r.2)
      | (STRIPPED, f') => (f' :: rest, ttl f)
      | (DELETE, _) => (rest, ttl f)
      | (SPLIT, f') =>
          (mkFresh (seq0 f') (decseq sequence) (ttl f') (timestamp f')
             :: mkFresh (incseq sequence) (seq1 f') (ttl f') now :: rest, ttl f)
      end
  end.

(** [unlose]: the first part, which raises the tolerance, the loss records, and
    the last part, which lowers it. *)
Definition raise_tolerance (R : CUDT_rcv) (packet : CPacket) : bool * CUDT_rcv :=
  if m_bPeerRexmitFlag R && negb (getRexmitFlag packet) then
    let seqdiff := abs (seqcmp (m_iRcvCurrSeqNo R) (m_iSeqNo packet)) in
    let dist := Z.max seqdiff (traceReorderDistance R) in
    let up := m_iReorderTolerance R <? seqdiff in
    (up, with_tolerance
       (if up then Z.min seqdiff (iMaxReorderTolerance R) else m_iReorderTolerance R)
       (m_iConsecEarlyDelivery R) (m_iConsecOrderedDelivery R) dist R)
  else (false, R).
Definition lower_tolerance (R : CUDT_rcv) (has_increased : bool) (had_ttl : Z) : CUDT_rcv :=
  let tol := m_iReorderTolerance R in
  let early := m_iConsecEarlyDelivery R in
  let dist := traceReorderDistance R in
  if has_increased then with_tolerance tol 0 0 dist R
  else if 2 <? had_ttl then
    let early := early + 1 in
    if 10 <=? early then
      if 0 <? tol then with_tolerance (tol - 1) 0 0 (dist - 1) R else with_tolerance tol 0 0 dist R
    else with_tolerance tol early 0 dist R
  else with_tolerance tol early 0 dist R.

Definition unlose (R : CUDT_rcv) (packet : CPacket) (now : Z) : option CUDT_rcv :=
  let sequence := m_iSeqNo packet in
  '(_, L) ← CRcvLossList_remove (m_pRcvLossList R) sequence;
  let was_reordered := m_bPeerRexmitFlag R && negb (getRexmitFlag packet) in
  let '(has_increased, R) := raise_tolerance (with_losses L (m_FreshLoss R) R) packet in
  if negb (m_bPeerRexmitFlag R) || (m_iReorderTolerance R =? 0) then Some R
  else
    let '(fresh, had_ttl) := unlose_fresh (m_FreshLoss R) sequence 0 now in
    let R := with_losses (m_pRcvLossList R) fresh R in
    Some (if was_reordered then lower_tolerance R has_increased had_ttl else R).

(** [dropFromLossLists] *)
Fixpoint drop_fresh (fresh : list CRcvFreshLoss) (from to : Z) : list CRcvFreshLoss :=
  match fresh with
  | [] => []
  | f :: rest =>
      match revoke_range f from to with
      | (DELETE, _) => drop_fresh rest from to
      | (_, f') => f' :: rest
      end
  end.
Definition dropFromLossLists (R : CUDT_rcv) (from to : Z) : option CUDT_rcv :=
  '(_, L) ← CRcvLossList_remove_range (m_pRcvLossList R) from to;
  if negb (m_bPeerRexmitFlag R) || (m_iReorderTolerance R =? 0)
  then Some (with_losses L (m_FreshLoss R) R)
  else Some (with_losses L (drop_fresh (m_FreshLoss R) from to) R).

(** [processData], from where the packet is given to the receiver buffer, without
    a packet filter.  What becomes of the packet: stored; there was one with its
    number; stored, but not decrypted. *)
Inductive adding := ADDED | REDUNDANT | UNDECRYPTED.
Definition adding_successful (o : adding) : bool := match o with ADDED => true | _ => false end.
Definition excessive (o : adding) : bool := match o with REDUNDANT => true | _ => false end.

(** [initial_loss_ttl] *)
Definition initial_loss_ttl (R : CUDT_rcv) : Z :=
  if m_bPeerRexmitFlag R then m_iReorderTolerance R else 0.

(** The contiguity check: the range before the packet that is missing. *)
Definition detect_loss (R : CUDT_rcv) (seq : Z) (o : adding) : list range :=
  if adding_successful o && (0 <? seqcmp seq (incseq (m_iRcvCurrSeqNo R)))
  then [(incseq (m_iRcvCurrSeqNo R), decseq seq)] else [].

(** The new largest number, or [unlose]. *)
Definition advance_or_unlose (R : CUDT_rcv) (packet : CPacket) (now : Z) : option CUDT_rcv :=
  if 0 <? seqcmp (m_iSeqNo packet) (m_iRcvCurrSeqNo R)
  then Some (with_currseq (m_iSeqNo packet) R)
  else unlose R packet now.

(** The losses are recorded, and reported at once unless they are fresh. *)
Fixpoint record_losses (L : CRcvLossList) (loss_seqs : list range) : option CRcvLossList :=
  match loss_seqs with
  | [] => Some L
  | r :: rest => L ← CRcvLossList_insert L r.1 r.2; record_losses L rest
  end.

(** Fresh losses whose time is over are reported, the others age. *)
Fixpoint take_expired (fresh : list CRcvFreshLoss) (lossdata : list Z)
    : list Z * list CRcvFreshLoss :=
  match fresh with
  | f :: rest =>
      if ttl f <=? 0 then take_expired rest (addLossRecord lossdata (seq0 f) (seq1 f))
      else (lossdata, fresh)
  | [] => (lossdata, [])
  end.
Definition expire_fresh (fresh : list CRcvFreshLoss) : list (list Z) * list CRcvFreshLoss :=
  let '(lossdata, rest) := take_expired fresh [] in
  (if bool_decide (lossdata = []) then [] else [lossdata],
   (λ f, mkFresh (seq0 f) (seq1 f) (ttl f - 1) (timestamp f)) <$> rest).

(** Packets that come in order lower the tolerance. *)
Definition count_ordered (R : CUDT_rcv) (was_sent_in_order : bool) : CUDT_rcv :=
  if m_bPeerRexmitFlag R && was_sent_in_order then
    let ordered := m_iConsecOrderedDelivery R + 1 in
    let tol := m_iReorderTolerance R in
    if 50 <=? ordered then
      if 0 <? tol
      then with_tolerance (tol - 1) (m_iConsecEarlyDelivery R) 0 (traceReorderDistance R - 1) R
      else with_tolerance tol (m_iConsecEarlyDelivery R) 0 (traceReorderDistance R) R
    else with_tolerance tol (m_iConsecEarlyDelivery R) ordered (traceReorderDistance R) R
  else R.

(** The state after the packet, and the reports sent. *)
Definition process_packet (R : CUDT_rcv) (packet : CPacket) (o : adding) (now : Z)
    : option (CUDT_rcv * list (list Z)) :=
  let loss_ttl := initial_loss_ttl R in
  let pktrexmitflag := if m_bPeerRexmitFlag R then (if getRexmitFlag packet then 1 else 0) else 2 in
  let losses := detect_loss R (m_iSeqNo packet) o in
  let fresh :=
    if loss_ttl =? 0 then m_FreshLoss R
    else m_FreshLoss R ++ ((λ r, mkFresh r.1 r.2 loss_ttl now) <$> losses) in
  let was_sent_in_order :=
    (0 <? seqcmp (m_iSeqNo packet) (m_iRcvCurrSeqNo R)) || negb (pktrexmitflag =? 0) in
  R ← advance_or_unlose (with_losses (m_pRcvLossList R) fresh R) packet now;
  if excessive o then Some (R, [])
  else
    L ← record_losses (m_pRcvLossList R) losses;
    let R := with_losses L (m_FreshLoss R) R in
    let reports1 := if loss_ttl =? 0 then sendLossReport losses else [] in
    let '(reports2, R) :=
      if negb (loss_ttl =? 0) && negb (bool_decide (m_FreshLoss R = []))
      then let '(reports, fresh) := expire_fresh (m_FreshLoss R) in
           (reports, with_losses (m_pRcvLossList R) fresh R)
      else ([], R) in
    Some (count_ordered R was_sent_in_order, reports1 ++ reports2).

(** The periodic report, [sendCtrl(UMSG_LOSSREPORT)]: no packet when nothing is
    lost. *)
Definition periodic_report (R : CUDT_rcv) (m_iMaxSRTPayloadSize : Z) : option (list (list Z)) :=
  if 0 <? CRcvLossList_getLossLength (m_pRcvLossList R) then
    data ← CRcvLossList_getLossArray (m_pRcvLossList R) (Z.quot m_iMaxSRTPayloadSize 4);
    Some (if 0 <? Z.of_nat (length data) then [data] else [])
  else Some [].

(** The number an ACK carries. *)
Definition ack_number (R : CUDT_rcv) : option Z :=
  ack ← CRcvLossList_getFirstLostSeq (m_pRcvLossList R);
  Some (if ack =? SRT_SEQNO_NONE then incseq (m_iRcvCurrSeqNo R) else ack).
