(* ===== verification/LossReportFacts.v ===== *)
(** * Lemmas on the detection and the report of losses

    The receiver knows which packets are missing in any order of arrival; the
    words it reports are those numbers, and they reach the loss list of the
    sender.  Numbers are unwrapped. *)
From S2P Require Import Prelude SeqNo LossRing RcvLoss RcvLossFacts LossReport.
From Stdlib Require Import Sorted.

(** ** The receiver *)

(** The largest number is [curr], and [ns] are the numbers missing. *)
Record receiving (size : Z) (R : CUDT_rcv) (curr : Z) (ns : list Z) : Prop := {
  rcv_curr : m_iRcvCurrSeqNo R = seqno curr;
  rcv_losses : rcv_holds size (m_pRcvLossList R) ns }.

(** The reordering tolerance is in its bounds. *)
Definition tolerance_ok (R : CUDT_rcv) : Prop :=
  0 <= m_iReorderTolerance R <= iMaxReorderTolerance R.

(** What the steps that only touch the fresh losses and the tolerance keep. *)
Definition same_losses (R R' : CUDT_rcv) : Prop :=
  m_iRcvCurrSeqNo R' = m_iRcvCurrSeqNo R ∧ m_pRcvLossList R' = m_pRcvLossList R.
Lemma receiving_same size R R' curr ns : same_losses R R' → receiving size R curr ns → receiving size R' curr ns.
Proof. intros [E1 E2] [H1 H2]. split; [by rewrite E1|by rewrite E2]. Qed.

Lemma raise_tolerance_same R p : same_losses R (raise_tolerance R p).2.
Proof. unfold raise_tolerance. by case_match. Qed.
Lemma lower_tolerance_same R b t : same_losses R (lower_tolerance R b t).
Proof. unfold lower_tolerance. by repeat case_match. Qed.
Lemma count_ordered_same R b : same_losses R (count_ordered R b).
Proof. unfold count_ordered. by repeat case_match. Qed.

Lemma raise_tolerance_ok R p : tolerance_ok R → tolerance_ok (raise_tolerance R p).2.
Proof. unfold tolerance_ok, raise_tolerance. intros H. repeat case_match; simpl in *; lia. Qed.
Lemma lower_tolerance_ok R b t : tolerance_ok R → tolerance_ok (lower_tolerance R b t).
Proof. unfold tolerance_ok, lower_tolerance. intros H. repeat case_match; simpl in *; lia. Qed.
Lemma count_ordered_ok R b : tolerance_ok R → tolerance_ok (count_ordered R b).
Proof. unfold tolerance_ok, count_ordered. intros H. repeat case_match; simpl in *; lia. Qed.

Lemma unlose_tolerance R p now R' : unlose R p now = Some R' → tolerance_ok R → tolerance_ok R'.
Proof.
  unfold unlose. intros E H. destruct (CRcvLossList_remove _ _) as [[b L]|]; [|done]. cbn [mbind option_bind] in E.
  pose proof (raise_tolerance_ok (with_losses L (m_FreshLoss R) R) p H) as H1.
  destruct (raise_tolerance _ p) as [up R1]. cbn [snd] in H1. case_match; [by injection E as <-|].
  destruct (unlose_fresh _ _ _ _) as [fresh t]. injection E as <-. case_match; [|done].
  by apply lower_tolerance_ok.
Qed.

Lemma unlose_run size R curr ns p x now :
  receiving size R curr ns → m_iSeqNo p = seqno x → near_first ns x →
  ∃ R', unlose R p now = Some R' ∧ receiving size R' curr (filter (λ y, y ≠ x) ns).
Proof.
  intros [Hc HL] Hp Hn. unfold unlose. rewrite Hp.
  destruct (CRcvLossList_remove_run size _ _ x HL Hn) as (L & -> & HL'). cbn [mbind option_bind].
  set (R1 := with_losses L (m_FreshLoss R) R).
  assert (receiving size R1 curr (filter (λ y, y ≠ x) ns)) as H1 by (by split).
  pose proof (raise_tolerance_same R1 p) as H2. destruct (raise_tolerance R1 p) as [up R2]. cbn [snd] in H2.
  apply (receiving_same _ _ _ _ _ H2) in H1. case_match; [by exists R2|].
  destruct (unlose_fresh _ _ _ _) as [fresh t]. eexists. split; [done|].
  assert (receiving size (with_losses (m_pRcvLossList R2) fresh R2) curr (filter (λ y, y ≠ x) ns)) as H3
    by (destruct H1; by split).
  case_match; [|done]. eapply receiving_same; [apply lower_tolerance_same|done].
Qed.

Lemma advance_run size R curr ns p x now :
  receiving size R curr ns → m_iSeqNo p = seqno x → near x curr → near_first ns x →
  ∃ R', advance_or_unlose R p now = Some R' ∧
    receiving size R' (Z.max curr x) (if decide (curr < x) then ns else filter (λ y, y ≠ x) ns).
Proof.
  intros H Hp Hx Hn. unfold advance_or_unlose. destruct (H) as [Hc HL].
  rewrite Hp, Hc, seqcmp_gt by done. destruct (Z.ltb_spec curr x).
  - eexists. split; [done|]. rewrite decide_True by done. split; [simpl; f_equal; lia|done].
  - rewrite decide_False by lia. rewrite Z.max_l by lia. by apply unlose_run.
Qed.

Lemma detect_loss_run R curr x o :
  m_iRcvCurrSeqNo R = seqno curr → near x (curr + 1) →
  detect_loss R (seqno x) o =
    if decide (adding_successful o ∧ curr + 1 < x) then [(seqno (curr + 1), seqno (x - 1))] else [].
Proof.
  intros Hc Hx. unfold detect_loss. rewrite Hc, incseq_seqno, decseq_seqno, seqcmp_gt by done.
  destruct (adding_successful o); cbn [andb]; [|by rewrite decide_False by (by intros [[] _])].
  destruct (Z.ltb_spec (curr + 1) x); [by rewrite decide_True by done|by rewrite decide_False by lia].
Qed.

(** The part of [process_packet] after the loss list is updated. *)
Lemma process_packet_tail size R curr ns (fresh : bool) (reports : list (list Z)) (b : bool) :
  receiving size R curr ns →
  ∃ R' reports',
    (let '(reports2, R) :=
       if fresh then let '(reports, fresh) := expire_fresh (m_FreshLoss R) in
         (reports, with_losses (m_pRcvLossList R) fresh R) else ([], R) in
     Some (count_ordered R b, reports ++ reports2)) = Some (R', reports') ∧ receiving size R' curr ns.
Proof.
  intros H. destruct fresh.
  - destruct (expire_fresh _) as [r f]. do 2 eexists. split; [done|].
    eapply receiving_same; [apply count_ordered_same|]. destruct H. by split.
  - do 2 eexists. split; [done|]. eapply receiving_same; [apply count_ordered_same|done].
Qed.

(** The missing numbers after a new packet with the number [x]. *)
Definition missing_after (curr : Z) (ns : list Z) (x : Z) : list Z :=
  if decide (curr < x) then ns ++ seqZ (curr + 1) (x - curr - 1) else filter (λ y, y ≠ x) ns.

Lemma process_packet_run size R curr ns p x o now :
  receiving size R curr ns → m_iSeqNo p = seqno x →
  curr - size <= x <= curr + size → (∀ y, y ∈ ns → y <= curr ∧ x <= y + size) →
  o = ADDED ∨ o = REDUNDANT ∧ x <= curr →
  ∃ R' reports, process_packet R p o now = Some (R', reports) ∧
    receiving size R' (Z.max curr x) (missing_after curr ns x).
Proof.
  intros H Hp Hx Hns Ho. destruct (H) as [Hc HL].
  assert (0 < size <= 2 ^ 29) as Hs by (destruct HL as (c & l & HL & _); apply HL).
  assert (near x curr ∧ near x (curr + 1)) as [N1 N2] by (unfold near, m_iSeqNoTH; lia).
  assert (near_first ns x) as N3.
  { intros h Hh. assert (h ∈ ns) as Hin by (destruct ns; [done|injection Hh as ->; left]).
    specialize (Hns h Hin). unfold near, m_iSeqNoTH. lia. }
  unfold process_packet. rewrite Hp, (detect_loss_run R curr) by done.
  match goal with |- context [advance_or_unlose (with_losses (m_pRcvLossList R) ?f R)] => set (fresh := f) end.
  destruct (advance_run size (with_losses (m_pRcvLossList R) fresh R) curr ns p x now) as (R1 & -> & H1);
    [by split|done..|]. cbn [mbind option_bind].
  destruct Ho as [->|[-> Hle]]; cbn [excessive adding_successful].
  - destruct H1 as [Hc1 HL1].
    assert (∃ L, record_losses (m_pRcvLossList R1)
        (if decide (true ∧ curr + 1 < x) then [(seqno (curr + 1), seqno (x - 1))] else []) = Some L ∧
      rcv_holds size L (missing_after curr ns x)) as (L & -> & HL2).
    { unfold missing_after. destruct (decide (true ∧ curr + 1 < x)) as [[_ Hgap]|Hgap].
      - rewrite decide_True in * by lia. cbn [record_losses fst snd].
        destruct (CRcvLossList_insert_run size (m_pRcvLossList R1) ns (curr + 1) (x - 1)) as (L & -> & HL2);
          [done|lia|intros y Hy; specialize (Hns y Hy); lia|].
        exists L. split; [done|]. by replace (x - curr - 1) with (x - 1 - (curr + 1) + 1) by lia.
      - exists (m_pRcvLossList R1). split; [done|]. case_decide as E; [|done].
        rewrite seqZ_nil, app_nil_r; [done|]. destruct (decide (curr + 1 < x)); [exfalso; apply Hgap; by split|lia]. }
    cbn [mbind option_bind]. eapply process_packet_tail. by split.
  - do 2 eexists. split; [done|]. unfold missing_after. by rewrite decide_False in * by lia.
Qed.

(** ** Arrivals in any order *)

(** The numbers missing from [isn] to [curr] when those of [got] have arrived. *)
Definition gaps (isn : Z) (got : list Z) (curr : Z) : list Z :=
  filter (λ y, y ∉ got) (seqZ isn (curr - isn + 1)).
Lemma elem_of_gaps isn got curr y : y ∈ gaps isn got curr ↔ y ∉ got ∧ isn <= y <= curr.
Proof. unfold gaps. rewrite list_elem_of_filter, elem_of_seqZ. naive_solver lia. Qed.
Lemma gaps_sorted isn got curr : StronglySorted Z.lt (gaps isn got curr).
Proof. apply sorted_filter, sorted_seqZ. Qed.

Lemma gaps_after isn got curr x :
  isn <= curr + 1 → isn <= x → (∀ y, y ∈ got → y <= curr) →
  missing_after curr (gaps isn got curr) x = gaps isn (x :: got) (Z.max curr x).
Proof.
  intros Hi Hx Hg. unfold missing_after. case_decide as E.
  - apply sorted_ext; [apply sorted_app; [apply gaps_sorted|apply sorted_seqZ|]|apply gaps_sorted|].
    + intros a b [_ Ha]%elem_of_gaps Hb%elem_of_seqZ. lia.
    + intros y. rewrite elem_of_app, !elem_of_gaps, elem_of_seqZ, elem_of_cons.
      split; [intros [[? ?]|?]|intros [Hn ?]].
      * split; [|lia]. intros [->|?]; [lia|done].
      * split; [|lia]. intros [->|Hy]; [lia|]. specialize (Hg y Hy). lia.
      * destruct (decide (y <= curr)); [left; split; [naive_solver|lia]|].
        right. destruct (decide (y = x)); [naive_solver|lia].
  - apply sorted_ext; [apply sorted_filter, gaps_sorted|apply gaps_sorted|].
    intros y. rewrite list_elem_of_filter, !elem_of_gaps, elem_of_cons, Z.max_l by lia. naive_solver.
Qed.

(** A packet that arrives: its number, its retransmission flag, the time. *)
Record arrival := { number : Z; rexmit : bool; now : Z }.
Definition packet_of (a : arrival) : CPacket := {| m_iSeqNo := seqno (number a); getRexmitFlag := rexmit a |}.
(** A number that arrives again finds its place in the buffer taken. *)
Definition outcome (got : list Z) (x : Z) : adding := if bool_decide (x ∈ got) then REDUNDANT else ADDED.

Fixpoint deliver (R : CUDT_rcv) (got : list Z) (xs : list arrival) : option CUDT_rcv :=
  match xs with
  | [] => Some R
  | a :: xs =>
      '(R, _) ← process_packet R (packet_of a) (outcome got (number a)) (now a);
      deliver R (number a :: got) xs
  end.
(** The receiver has room for each packet: it is less than [size] away from the
    largest number and from the first one missing. *)
Fixpoint arrivals_fit (size isn curr : Z) (got : list Z) (xs : list arrival) : bool :=
  match xs with
  | [] => true
  | a :: xs =>
      let x := number a in
      (isn <=? x) && (curr - size <=? x) && (x <=? curr + size) &&
      forallb (λ y, x <=? y + size) (gaps isn got curr) &&
      arrivals_fit size isn (Z.max curr x) (x :: got) xs
  end.
Fixpoint largest (curr : Z) (xs : list arrival) : Z :=
  match xs with [] => curr | a :: xs => largest (Z.max curr (number a)) xs end.
Fixpoint all_got (got : list Z) (xs : list arrival) : list Z :=
  match xs with [] => got | a :: xs => all_got (number a :: got) xs end.

Lemma all_got_elem got xs y : y ∈ all_got got xs ↔ y ∈ got ∨ ∃ a, a ∈ xs ∧ number a = y.
Proof.
  revert got. induction xs as [|a xs IH]; intros got; cbn [all_got]; [set_solver|].
  rewrite IH, elem_of_cons. setoid_rewrite elem_of_cons. naive_solver.
Qed.
Lemma largest_bounds curr xs : curr <= largest curr xs ∧ ∀ a, a ∈ xs → number a <= largest curr xs.
Proof.
  revert curr. induction xs as [|b xs IH]; intros curr; cbn [largest]; [split; [lia|set_solver]|].
  destruct (IH (Z.max curr (number b))) as [H1 H2]. split; [lia|].
  intros a [->|Ha]%elem_of_cons; [lia|by apply H2].
Qed.

Lemma arrivals_run size isn curr got R xs :
  receiving size R curr (gaps isn got curr) → isn <= curr + 1 → (∀ y, y ∈ got → y <= curr) →
  arrivals_fit size isn curr got xs = true →
  ∃ R', deliver R got xs = Some R' ∧
    receiving size R' (largest curr xs) (gaps isn (all_got got xs) (largest curr xs)).
Proof.
  revert curr got R. induction xs as [|a xs IH]; intros curr got R H Hi Hg Hf; [by exists R|].
  cbn [arrivals_fit] in Hf. rewrite !andb_true_iff, forallb_forall in Hf.
  destruct Hf as [[[[F1 F2] F3] F4] F5]. cbn [deliver all_got largest].
  destruct (process_packet_run size R curr (gaps isn got curr) (packet_of a) (number a)
    (outcome got (number a)) (now a)) as (R1 & reports & -> & H1); [done..|lia| | |].
  - intros y Hy. pose proof (F4 y (proj1 (list_elem_of_In _ _) Hy)).
    apply elem_of_gaps in Hy as [_ [_ ?]]. lia.
  - unfold outcome. case_bool_decide as E; [right|by left]. split; [done|by apply Hg].
  - cbn [mbind option_bind]. rewrite gaps_after in H1 by (done || lia). apply (IH _ _ _ H1); [lia| |done].
    intros y [->|Hy]%elem_of_cons; [lia|]. specialize (Hg y Hy). lia.
Qed.

(** The number an ACK carries is the first that is missing. *)
Lemma ack_number_run size R curr ns :
  receiving size R curr ns → ack_number R = Some (seqno (default (curr + 1) (head ns))).
Proof.
  intros [Hc HL]. unfold ack_number. rewrite (getFirstLostSeq_run _ _ _ HL). cbn [mbind option_bind].
  destruct ns as [|h ns]; cbn [head from_option]; unfold id.
  - rewrite Z.eqb_refl, Hc. by rewrite incseq_seqno.
  - pose proof (seqno_not_none h). by destruct (Z.eqb_spec (seqno h) SRT_SEQNO_NONE).
Qed.
Lemma head_gaps isn got curr :
  isn <= curr + 1 → (∀ y, y ∈ got → y <= curr) →
  let a := default (curr + 1) (head (gaps isn got curr)) in
  a ∉ got ∧ isn <= a ∧ (∀ y, isn <= y < a → y ∈ got).
Proof.
  intros Hi Hg. pose proof (gaps_sorted isn got curr) as Hs. pose proof (elem_of_gaps isn got curr) as He.
  destruct (gaps isn got curr) as [|h l]; cbn [head from_option]; unfold id.
  - split_and!; [intros Hy%Hg; lia|lia|]. intros y Hy. destruct (decide (y ∈ got)) as [|Hn]; [done|].
    exfalso. apply (not_elem_of_nil y), He. split; [done|lia].
  - destruct (proj1 (He h) ltac:(left)) as (? & ? & ?). split_and!; [done|done|].
    intros y Hy. destruct (decide (y ∈ got)) as [|Hn]; [done|]. exfalso.
    assert (y ∈ h :: l) as [->|Hyl]%elem_of_cons by (apply He; split; [done|lia]); [lia|].
    apply StronglySorted_inv in Hs as [_ Hs]. rewrite Forall_forall in Hs. specialize (Hs y Hyl). lia.
Qed.

(** ** Fresh losses *)

(** The records [fresh] have the ranges [l]. *)
Definition fresh_at (fresh : list CRcvFreshLoss) (l : list range) : Prop :=
  Forall2 (λ f r, seq0 f = seqno r.1 ∧ seq1 f = seqno r.2) fresh l.
(** The records hold the numbers [ns]. *)
Definition fresh_holds (fresh : list CRcvFreshLoss) (ns : list Z) : Prop :=
  ∃ b l, fresh_at fresh l ∧ sorted_from b l ∧ numbers l = ns.

Lemma numbers_singleton x : numbers [(x, x)] = [x].
Proof. cbn. unfold range_numbers. cbn [fst snd]. rewrite Z.sub_diag. done. Qed.
Lemma elem_of_numbers_range s e l x : x ∈ numbers ((s, e) :: l) ↔ s <= x <= e ∨ x ∈ numbers l.
Proof. cbn [numbers]. by rewrite elem_of_app, elem_of_range_numbers. Qed.

(** The ranges [l'] in the place of [l] hold the same numbers but [x]. *)
Lemma numbers_without_ext (P : Z → Prop) `{∀ y, Decision (P y)} b b' l l' :
  sorted_from b l → sorted_from b' l' → (∀ y, y ∈ numbers l' ↔ P y ∧ y ∈ numbers l) →
  numbers l' = filter P (numbers l).
Proof.
  intros Hl Hl' Hx. apply sorted_ext; [by eapply numbers_sorted|apply sorted_filter; by eapply numbers_sorted|].
  intros y. by rewrite Hx, list_elem_of_filter.
Qed.

Lemma revoke_run f s e x :
  seq0 f = seqno s → seq1 f = seqno e → near x s → near x e →
  revoke f (seqno x) =
    if (x <? s) || (e <? x) then (NONE, f)
    else if x =? s then
      if x =? e then (DELETE, f) else (STRIPPED, mkFresh (seqno (s + 1)) (seqno e) (ttl f) (timestamp f))
    else if x =? e then (STRIPPED, mkFresh (seqno s) (seqno (e - 1)) (ttl f) (timestamp f))
    else (SPLIT, f).
Proof.
  intros E1 E2 Hs He. unfold revoke.
  by rewrite E1, E2, seqcmp_lt, seqcmp_gt, !seqcmp_eq, incseq_seqno, decseq_seqno.
Qed.

Lemma unlose_fresh_at fresh l b x t now :
  fresh_at fresh l → sorted_from b l → near_all (numbers l) x →
  ∃ l', fresh_at (unlose_fresh fresh (seqno x) t now).1 l' ∧ sorted_from b l' ∧
    ∀ y, y ∈ numbers l' ↔ y ≠ x ∧ y ∈ numbers l.
Proof.
  intros H. revert b t. induction H as [|f [s e] fresh l [E1 E2] H IH]; intros b t Hs Hn.
  - exists []. split; [constructor|]. split; [done|]. set_solver.
  - destruct Hs as [Hse Hs]. cbn [fst snd] in E1, E2. cbn [unlose_fresh].
    assert (near x s ∧ near x e) as [N1 N2].
    { split; apply near_sym, Hn, elem_of_numbers_range; left; lia. }
    assert (∀ y, y ∈ numbers l → e < y) as Hl by (intros y Hy; apply (numbers_bounds _ _ _ Hs) in Hy; lia).
    rewrite (revoke_run f s e x E1 E2 N1 N2).
    destruct ((x <? s) || (e <? x)) eqn:Eout.
    + destruct (IH (e + 1) (ttl f) Hs) as (l' & H1 & H2 & H3).
      { intros y Hy. apply Hn, elem_of_numbers_range. by right. }
      exists ((s, e) :: l'). split; [by constructor|]. split; [by split|].
      intros y. rewrite !elem_of_numbers_range, H3. split; [|tauto]. intros [?|?]; [split; [lia|by left]|tauto].
    + destruct (Z.eqb_spec x s) as [Hxs|Hxs], (Z.eqb_spec x e) as [Hxe|Hxe].
      * exists l. split; [done|]. split; [eapply sorted_from_le; [|done]; lia|].
        intros y. rewrite elem_of_numbers_range. split; [intros Hy; specialize (Hl y Hy); split; [lia|by right]|].
        intros [? [?|?]]; [lia|done].
      * exists ((s + 1, e) :: l). split; [by constructor|]. split; [split; [lia|done]|].
        intros y. rewrite !elem_of_numbers_range. split; [|intros [? [?|?]]; [left; lia|by right]].
        intros [?|Hy]; [split; [lia|left; lia]|]. specialize (Hl y Hy). split; [lia|by right].
      * exists ((s, e - 1) :: l). split; [by constructor|]. split; [split; [lia|eapply sorted_from_le; [|done]; lia]|].
        intros y. rewrite !elem_of_numbers_range. split; [|intros [? [?|?]]; [left; lia|by right]].
        intros [?|Hy]; [split; [lia|left; lia]|]. specialize (Hl y Hy). split; [lia|by right].
      * exists ((s, x - 1) :: (x + 1, e) :: l). split.
        { unfold fresh_at. cbn [fst]. constructor; [by rewrite decseq_seqno|]. constructor; [|done].
          cbn [fst snd seq0 seq1]. by rewrite incseq_seqno. }
        split; [cbn [sorted_from]; split; [lia|split; [lia|done]]|].
        intros y. rewrite !elem_of_numbers_range. split.
        { intros [?|[?|Hy]]; [split; [lia|left; lia]..|]. specialize (Hl y Hy). split; [lia|by right]. }
        intros [? [?|?]]; [|by right; right]. destruct (decide (y < x)); [left|right; left]; lia.
Qed.
Lemma unlose_fresh_run fresh ns x t now :
  fresh_holds fresh ns → near_all ns x →
  fresh_holds (unlose_fresh fresh (seqno x) t now).1 (filter (λ y, y ≠ x) ns).
Proof.
  intros (b & l & H & Hs & <-) Hn. destruct (unlose_fresh_at _ _ _ _ t now H Hs Hn) as (l' & H1 & H2 & H3).
  exists b, l'. split; [done|]. split; [done|]. by eapply numbers_without_ext.
Qed.

Lemma drop_fresh_at fresh l b lo hi :
  fresh_at fresh l → sorted_from b l → lo <= hi → near_all (numbers l) lo → near_all (numbers l) hi →
  ∃ l', fresh_at (drop_fresh fresh (seqno lo) (seqno hi)) l' ∧ sorted_from b l' ∧
    ∀ y, y ∈ numbers l' ↔ hi < y ∧ y ∈ numbers l.
Proof.
  intros H. revert b. induction H as [|f [s e] fresh l [E1 E2] H IH]; intros b Hs Hlh N1 N2.
  - exists []. split; [constructor|]. split; [done|]. set_solver.
  - destruct Hs as [Hse Hs]. cbn [fst snd] in E1, E2. cbn [drop_fresh].
    assert (s ∈ numbers ((s, e) :: l) ∧ e ∈ numbers ((s, e) :: l)) as [Is Ie]
      by (rewrite !elem_of_numbers_range; lia).
    assert (∀ y, y ∈ numbers l → e < y) as Hl by (intros y Hy; apply (numbers_bounds _ _ _ Hs) in Hy; lia).
    assert (∃ l', fresh_at (drop_fresh fresh (seqno lo) (seqno hi)) l' ∧ sorted_from (e + 1) l' ∧
      ∀ y, y ∈ numbers l' ↔ hi < y ∧ y ∈ numbers l) as (l' & H1 & H2 & H3).
    { apply IH; [done|done| |]; intros y Hy; [apply N1|apply N2]; apply elem_of_numbers_range; by right. }
    unfold revoke_range. rewrite E1, E2, seqcmp_gt, !seqcmp_lt, incseq_seqno by auto using near_sym.
    assert (e <= hi → ∃ l', fresh_at (drop_fresh fresh (seqno lo) (seqno hi)) l' ∧ sorted_from b l' ∧
      ∀ y, y ∈ numbers l' ↔ hi < y ∧ y ∈ numbers ((s, e) :: l)) as Hdel.
    { intros He. exists l'. split; [done|]. split; [eapply sorted_from_le; [|done]; lia|].
      intros y. rewrite H3, elem_of_numbers_range. split; [tauto|]. intros [? [?|?]]; [lia|done]. }
    destruct (Z.ltb_spec e lo); [apply Hdel; lia|].
    destruct (Z.ltb_spec hi s).
    { exists ((s, e) :: l). split; [by constructor|]. split; [by split|].
      intros y. rewrite elem_of_numbers_range. split; [|tauto].
      intros Hy. split; [|done]. destruct Hy as [?|Hy]; [lia|]. specialize (Hl y Hy). lia. }
    destruct (Z.ltb_spec hi e); [|apply Hdel; lia].
    exists ((hi + 1, e) :: l). split; [by constructor|]. split; [split; [lia|done]|].
    intros y. rewrite !elem_of_numbers_range. split; [|intros [? [?|?]]; [left; lia|by right]].
    intros [?|Hy]; [split; [lia|left; lia]|]. specialize (Hl y Hy). split; [lia|by right].
Qed.
Lemma drop_fresh_run fresh ns lo hi :
  fresh_holds fresh ns → lo <= hi → near_all ns lo → near_all ns hi →
  fresh_holds (drop_fresh fresh (seqno lo) (seqno hi)) (filter (λ y, hi < y) ns).
Proof.
  intros (b & l & H & Hs & <-) Hlh N1 N2. destruct (drop_fresh_at _ _ _ _ _ H Hs Hlh N1 N2) as (l' & H1 & H2 & H3).
  exists b, l'. split; [done|]. split; [done|]. by eapply numbers_without_ext.
Qed.

(** ** A loss that is not reported at once *)

Lemma process_packet_tolerance R p o now R' reports :
  process_packet R p o now = Some (R', reports) → tolerance_ok R → tolerance_ok R'.
Proof.
  unfold process_packet. intros E H.
  match type of E with context [advance_or_unlose ?A p now] =>
    assert (∀ R1, advance_or_unlose A p now = Some R1 → tolerance_ok R1) as Hadv end.
  { intros R1 E1. unfold advance_or_unlose in E1. case_match; [by injection E1 as <-|by eapply unlose_tolerance]. }
  destruct (advance_or_unlose _ p now) as [R1|]; [|done]. specialize (Hadv R1 eq_refl).
  cbn [mbind option_bind] in E. case_match; [by injection E as <- <-|].
  destruct (record_losses _ _) as [L|]; [|done]. cbn [mbind option_bind] in E.
  destruct (negb (initial_loss_ttl R =? 0) && _); [destruct (expire_fresh _)|];
    injection E as <- <-; by apply count_ordered_ok.
Qed.

(** Each packet extends the largest number by one. *)
Fixpoint reports_of (R : CUDT_rcv) (ps : list CPacket) (now : Z) : option (list (list (list Z)) * CUDT_rcv) :=
  match ps with
  | [] => Some ([], R)
  | p :: ps =>
      '(R, r) ← process_packet R p ADDED now;
      '(rs, R) ← reports_of R ps now;
      Some (r :: rs, R)
  end.

Lemma count_ordered_more R :
  m_bPeerRexmitFlag R = true → m_iConsecOrderedDelivery R + 1 < 50 →
  count_ordered R true = with_tolerance (m_iReorderTolerance R) (m_iConsecEarlyDelivery R)
    (m_iConsecOrderedDelivery R + 1) (traceReorderDistance R) R.
Proof.
  intros Hflag Hord. unfold count_ordered. rewrite Hflag. cbn [andb].
  by rewrite (proj2 (Z.leb_gt 50 _)) by done.
Qed.

(** What one more packet in order does to a fresh loss. *)
Lemma in_order_step size R curr ns p f now :
  receiving size R curr ns → m_iSeqNo p = seqno (curr + 1) →
  m_bPeerRexmitFlag R = true → 0 < m_iReorderTolerance R → m_iConsecOrderedDelivery R + 1 < 50 →
  m_FreshLoss R = [f] →
  ∃ R', process_packet R p ADDED now =
      Some (R', if ttl f <=? 0 then [addLossRecord [] (seq0 f) (seq1 f)] else []) ∧
    receiving size R' (curr + 1) ns ∧ m_bPeerRexmitFlag R' = true ∧
    m_iReorderTolerance R' = m_iReorderTolerance R ∧
    m_iConsecOrderedDelivery R' = m_iConsecOrderedDelivery R + 1 ∧
    m_FreshLoss R' = (if ttl f <=? 0 then [] else [mkFresh (seq0 f) (seq1 f) (ttl f - 1) (timestamp f)]).
Proof.
  intros [Hc HL] Hp Hflag Htol Hord Hf.
  assert (near (curr + 1) curr) as N1 by (unfold near, m_iSeqNoTH; lia).
  assert (near (curr + 1) (curr + 1)) as N2 by (unfold near, m_iSeqNoTH; lia).
  unfold process_packet, initial_loss_ttl. rewrite Hp, (detect_loss_run R curr) by done.
  rewrite decide_False by (intros [_ ?]; lia). cbn [fmap list_fmap record_losses].
  rewrite app_nil_r, Hflag, Hf. unfold advance_or_unlose.
  rewrite Hp, Hc. cbn [m_iRcvCurrSeqNo with_losses]. rewrite Hc, seqcmp_gt by done.
  rewrite (proj2 (Z.ltb_lt curr (curr + 1))), (proj2 (Z.eqb_neq (m_iReorderTolerance R) 0)) by lia.
  cbn [mbind option_bind excessive orb negb with_currseq with_losses m_pRcvLossList m_FreshLoss app andb].
  rewrite bool_decide_false by done. cbn [negb]. unfold expire_fresh. cbn [take_expired].
  destruct (Z.leb_spec (ttl f) 0).
  - rewrite bool_decide_false by (unfold addLossRecord; by case_match).
    rewrite count_ordered_more by done. eexists. split; [done|]. by split_and!.
  - rewrite bool_decide_true by done. rewrite count_ordered_more by done.
    eexists. split; [done|]. by split_and!.
Qed.

(** The packet after a gap, when the loss is not to be reported yet. *)
Lemma gap_step R curr p x now R' reports :
  process_packet R p ADDED now = Some (R', reports) →
  m_iRcvCurrSeqNo R = seqno curr → m_iSeqNo p = seqno x → curr + 1 < x → near x curr →
  near x (curr + 1) → m_bPeerRexmitFlag R = true → 0 < m_iReorderTolerance R →
  m_iConsecOrderedDelivery R + 1 < 50 → m_FreshLoss R = [] →
  reports = [] ∧ m_bPeerRexmitFlag R' = true ∧ m_iReorderTolerance R' = m_iReorderTolerance R ∧
  m_iConsecOrderedDelivery R' = m_iConsecOrderedDelivery R + 1 ∧
  m_FreshLoss R' = [mkFresh (seqno (curr + 1)) (seqno (x - 1)) (m_iReorderTolerance R - 1) now].
Proof.
  intros E Hc Hp Hx N1 N2 Hflag Htol Hord Hf. revert E.
  unfold process_packet, initial_loss_ttl. rewrite Hp, (detect_loss_run R curr) by done.
  rewrite decide_True, Hflag, Hf by done. cbn [fmap list_fmap app fst snd]. unfold advance_or_unlose.
  cbn [m_iRcvCurrSeqNo with_losses]. rewrite Hp, Hc, seqcmp_gt by done.
  rewrite (proj2 (Z.ltb_lt curr x)), (proj2 (Z.eqb_neq (m_iReorderTolerance R) 0)) by lia.
  cbn [mbind option_bind excessive orb negb with_currseq with_losses m_pRcvLossList m_FreshLoss app andb].
  destruct (record_losses _ _) as [L|]; [|done]. cbn [mbind option_bind m_FreshLoss with_losses m_pRcvLossList].
  rewrite bool_decide_false by done. cbn [negb]. unfold expire_fresh. cbn [take_expired ttl].
  rewrite (proj2 (Z.leb_gt (m_iReorderTolerance R) 0)), bool_decide_true, count_ordered_more by done.
  intros E. by injection E as <- <-.
Qed.

Lemma in_order_run size R curr ns ps f now :
  receiving size R curr ns → (∀ i p, ps !! i = Some p → m_iSeqNo p = seqno (curr + 1 + Z.of_nat i)) →
  m_bPeerRexmitFlag R = true → 0 < m_iReorderTolerance R →
  m_iConsecOrderedDelivery R + Z.of_nat (length ps) < 50 →
  m_FreshLoss R = [f] → Z.of_nat (length ps) = Z.max 0 (ttl f) + 1 →
  ∃ R', reports_of R ps now =
      Some (replicate (length ps - 1) [] ++ [[addLossRecord [] (seq0 f) (seq1 f)]], R') ∧
    receiving size R' (curr + Z.of_nat (length ps)) ns ∧ m_FreshLoss R' = [].
Proof.
  revert R curr f. induction ps as [|p ps IH]; intros R curr f H Hps Hflag Htol Hord Hf Hlen; [simpl in Hlen; lia|].
  cbn [reports_of length] in *. specialize (Hps 0%nat p eq_refl) as Hp. rewrite Z.add_0_r in Hp.
  destruct (in_order_step _ _ _ _ _ _ now H Hp Hflag Htol ltac:(lia) Hf) as (R1 & -> & H1 & F1 & T1 & O1 & Q1).
  cbn [mbind option_bind]. destruct (Z.leb_spec (ttl f) 0).
  - destruct ps as [|q ps]; [|simpl in Hlen; lia]. exists R1. by split_and!.
  - destruct (IH R1 (curr + 1) (mkFresh (seq0 f) (seq1 f) (ttl f - 1) (timestamp f)) H1)
      as (R2 & -> & H2 & Q2); [|done|lia|lia|done|cbn [ttl]; lia|].
    + intros i q Hq. rewrite (Hps (S i) q Hq). f_equal. lia.
    + exists R2. destruct ps as [|q ps]; [simpl in Hlen; lia|]. cbn [length mbind option_bind seq0 seq1] in *.
      split; [|split; [|done]].
      * by replace (S (S (length ps)) - 1)%nat with (S (S (length ps) - 1)) by lia.
      * by replace (curr + Z.of_nat (S (S (length ps)))) with (curr + 1 + Z.of_nat (S (length ps))) by lia.
Qed.

Lemma lower_tolerance_fresh R b t : m_FreshLoss (lower_tolerance R b t) = m_FreshLoss R.
Proof. unfold lower_tolerance. by repeat case_match. Qed.
(** [raise_tolerance] does not look at the lists. *)
Lemma raise_tolerance_fields R p L :
  let R1 := (raise_tolerance (with_losses L (m_FreshLoss R) R) p).2 in
  m_bPeerRexmitFlag R1 = m_bPeerRexmitFlag R ∧
  m_iReorderTolerance R1 = m_iReorderTolerance (raise_tolerance R p).2 ∧
  m_FreshLoss R1 = m_FreshLoss R ∧ m_pRcvLossList R1 = L ∧ m_iRcvCurrSeqNo R1 = m_iRcvCurrSeqNo R.
Proof.
  unfold raise_tolerance. cbn [m_bPeerRexmitFlag with_losses]. by destruct (_ && _).
Qed.

(** Packets with what becomes of them, and the reports. *)
Fixpoint run_packets (R : CUDT_rcv) (ps : list (arrival * adding)) : option (CUDT_rcv * list (list (list Z))) :=
  match ps with
  | [] => Some (R, [])
  | (a, o) :: ps =>
      '(R, r) ← process_packet R (packet_of a) o (now a);
      '(R, rs) ← run_packets R ps;
      Some (R, r :: rs)
  end.
(** The missing numbers after a packet: those that it skips, if it was stored and could be
    read, and not its own when it is late. *)
Definition missing_next (curr : Z) (ns : list Z) (x : Z) (o : adding) : list Z :=
  if decide (curr < x ∧ adding_successful o = false) then ns else missing_after curr ns x.
Fixpoint missing_run (curr : Z) (ns : list Z) (ps : list (arrival * adding)) : Z * list Z :=
  match ps with
  | [] => (curr, ns)
  | (a, o) :: ps => missing_run (Z.max curr (number a)) (missing_next curr ns (number a) o) ps
  end.
(** Each packet is less than [size] away from the largest number and from the first
    number that is missing. *)
Fixpoint packets_fit (size curr : Z) (ns : list Z) (ps : list (arrival * adding)) : bool :=
  match ps with
  | [] => true
  | (a, o) :: ps =>
      let x := number a in
      (curr - size <=? x) && (x <=? curr + size) && forallb (λ y, (y <=? curr) && (x <=? y + size)) ns &&
      packets_fit size (Z.max curr x) (missing_next curr ns x o) ps
  end.

(** [process_packet_run], whatever becomes of the packet. *)
Lemma process_packet_total size R curr ns p x o now :
  receiving size R curr ns → m_iSeqNo p = seqno x →
  curr - size <= x <= curr + size → (∀ y, y ∈ ns → y <= curr ∧ x <= y + size) →
  ∃ R' reports, process_packet R p o now = Some (R', reports) ∧
    receiving size R' (Z.max curr x) (missing_next curr ns x o).
Proof.
  intros H Hp Hx Hns. unfold missing_next. assert (o = ADDED ∨ adding_successful o = false) as [->|Ea] by (destruct o; auto).
  { rewrite decide_False by (intros [_ ?]; done). apply process_packet_run; try done. by left. }
  destruct (H) as [Hc HL]. assert (0 < size <= 2 ^ 29) as Hs by (destruct HL as (c & l & HL & _); apply HL).
  assert (near x curr ∧ near x (curr + 1)) as [N1 N2] by (unfold near, m_iSeqNoTH; lia).
  assert (near_first ns x) as N3.
  { intros h Hh. assert (h ∈ ns) as Hin by (destruct ns; [done|injection Hh as ->; left]).
    specialize (Hns h Hin). unfold near, m_iSeqNoTH. lia. }
  unfold process_packet. rewrite Hp, (detect_loss_run R curr), Ea, decide_False by (done || by intros [[] _]).
  match goal with |- context [advance_or_unlose (with_losses (m_pRcvLossList R) ?f R)] => set (fresh := f) end.
  destruct (advance_run size (with_losses (m_pRcvLossList R) fresh R) curr ns p x now) as (R1 & -> & H1);
    [by split|done..|]. cbn [mbind option_bind record_losses].
  assert ((if decide (curr < x ∧ false = false) then ns else missing_after curr ns x)
    = (if decide (curr < x) then ns else filter (λ y, y ≠ x) ns)) as ->.
  { unfold missing_after. destruct (decide (curr < x)); [by rewrite decide_True by done|by rewrite decide_False by naive_solver]. }
  destruct (excessive o); [by do 2 eexists|]. eapply process_packet_tail. destruct H1. by split.
Qed.
Lemma run_packets_run size R curr ns ps :
  receiving size R curr ns → packets_fit size curr ns ps = true →
  ∃ R' rs, run_packets R ps = Some (R', rs) ∧ receiving size R' (missing_run curr ns ps).1 (missing_run curr ns ps).2.
Proof.
  revert R curr ns. induction ps as [|[a o] ps IH]; intros R curr ns H Hf; [by exists R, []|].
  cbn [packets_fit] in Hf. rewrite !andb_true_iff, forallb_forall in Hf. destruct Hf as [[[F1 F2] F3] F4]. cbn [run_packets missing_run].
  destruct (process_packet_total size R curr ns (packet_of a) (number a) o (now a) H) as (R1 & r & -> & H1); [done|lia| |].
  - intros y Hy. pose proof (F3 y (proj1 (list_elem_of_In _ _) Hy)). lia.
  - cbn [mbind option_bind]. destruct (IH _ _ _ H1 F4) as (R2 & rs & -> & H2). by exists R2, (r :: rs).
Qed.
Lemma unlose_max R p now R' : unlose R p now = Some R' → iMaxReorderTolerance R' = iMaxReorderTolerance R.
Proof.
  unfold unlose, raise_tolerance. intros E. destruct (CRcvLossList_remove _ _) as [[b L]|]; [|done].
  cbn [mbind option_bind] in E. destruct (m_bPeerRexmitFlag (with_losses L _ R) && negb (getRexmitFlag p));
    case_match; [by injection E as <-| |by injection E as <-|];
    destruct (unlose_fresh _ _ _ _) as [fresh t]; injection E as <-; unfold lower_tolerance; by repeat case_match.
Qed.
Lemma process_packet_max R p o now R' reports :
  process_packet R p o now = Some (R', reports) → iMaxReorderTolerance R' = iMaxReorderTolerance R.
Proof.
  unfold process_packet. intros E.
  match type of E with context [advance_or_unlose ?A p now] =>
    assert (∀ R1, advance_or_unlose A p now = Some R1 → iMaxReorderTolerance R1 = iMaxReorderTolerance R) as Hadv end.
  { intros R1 E1. unfold advance_or_unlose in E1. case_match; [by injection E1 as <-|by apply unlose_max in E1]. }
  destruct (advance_or_unlose _ p now) as [R1|]; [|done]. specialize (Hadv R1 eq_refl).
  cbn [mbind option_bind] in E. case_match; [by injection E as <- <-|].
  destruct (record_losses _ _) as [L|]; [|done]. cbn [mbind option_bind] in E.
  destruct (negb (initial_loss_ttl R =? 0) && _); [destruct (expire_fresh _)|];
    injection E as <- <-; unfold count_ordered; by repeat case_match.
Qed.
Lemma run_packets_tolerance ps R R' rs :
  tolerance_ok R → run_packets R ps = Some (R', rs) →
  tolerance_ok R' ∧ iMaxReorderTolerance R' = iMaxReorderTolerance R.
Proof.
  revert R R' rs. induction ps as [|[a o] ps IH]; intros R R' rs H E; cbn [run_packets] in E; [by injection E as <- <-|].
  destruct (process_packet R (packet_of a) o (now a)) as [[R1 r]|] eqn:E1; [|done]. cbn [mbind option_bind] in E.
  destruct (run_packets R1 ps) as [[R2 rs']|] eqn:E2; [|done]. injection E as <- <-.
  rewrite <- (process_packet_max _ _ _ _ _ _ E1). apply (IH R1 R2 rs'); [by eapply process_packet_tolerance|done].
Qed.
