(* ===== verification/LossSend.v ===== *)
(** * Retransmission requests at the sender (srtcore/core.cpp)

    What a report of the receiver, or a timeout, does to the loss list of the
    sender.  The state has the fields of [CUDT] that this touches; what the code
    asks of other parts is a list of actions.  [m_RecvAckLock] makes each
    function one step.  [None] is an access out of bounds. *)
From S2P Require Import Prelude SeqNo LossRing SndLoss.

Inductive RexmitMethod := SRM_LATEREXMIT | SRM_FASTREXMIT.
Inductive snd_action :=
  | SendDropReq (lo hi : Z)
  | UpdateCC_lossreport (words : list Z)
  | UpdateCC_checktimer (m : RexmitMethod)
  | CheckSndTimers
  | Reschedule.

Record CUDT_snd :=
  { m_pSndLossList : CSndLossList; m_iSndLastAck : Z; m_iSndCurrSeqNo : Z; m_iReXmitCount : Z;
    traceSndLoss : Z; sndLossTotal : Z; recvNAK : Z; recvNAKTotal : Z;
    m_bBroken : bool; m_iBrokenCounter : Z }.

(** The list after an insertion of [num] numbers, and the statistics. *)
Definition lost_more (num : Z) (L : CSndLossList) (S : CUDT_snd) : CUDT_snd :=
  {| m_pSndLossList := L; m_iSndLastAck := m_iSndLastAck S; m_iSndCurrSeqNo := m_iSndCurrSeqNo S;
     m_iReXmitCount := m_iReXmitCount S; traceSndLoss := i32 (traceSndLoss S + num);
     sndLossTotal := i32 (sndLossTotal S + num); recvNAK := recvNAK S; recvNAKTotal := recvNAKTotal S;
     m_bBroken := m_bBroken S; m_iBrokenCounter := m_iBrokenCounter S |}.
Definition break_connection (S : CUDT_snd) : CUDT_snd :=
  {| m_pSndLossList := m_pSndLossList S; m_iSndLastAck := m_iSndLastAck S;
     m_iSndCurrSeqNo := m_iSndCurrSeqNo S; m_iReXmitCount := m_iReXmitCount S;
     traceSndLoss := traceSndLoss S; sndLossTotal := sndLossTotal S; recvNAK := recvNAK S;
     recvNAKTotal := recvNAKTotal S; m_bBroken := true; m_iBrokenCounter := 0 |}.
Definition count_nak (S : CUDT_snd) : CUDT_snd :=
  {| m_pSndLossList := m_pSndLossList S; m_iSndLastAck := m_iSndLastAck S;
     m_iSndCurrSeqNo := m_iSndCurrSeqNo S; m_iReXmitCount := m_iReXmitCount S;
     traceSndLoss := traceSndLoss S; sndLossTotal := sndLossTotal S; recvNAK := i32 (recvNAK S + 1);
     recvNAKTotal := i32 (recvNAKTotal S + 1); m_bBroken := m_bBroken S;
     m_iBrokenCounter := m_iBrokenCounter S |}.
Definition count_rexmit (S : CUDT_snd) : CUDT_snd :=
  {| m_pSndLossList := m_pSndLossList S; m_iSndLastAck := m_iSndLastAck S;
     m_iSndCurrSeqNo := m_iSndCurrSeqNo S; m_iReXmitCount := i32 (m_iReXmitCount S + 1);
     traceSndLoss := traceSndLoss S; sndLossTotal := sndLossTotal S; recvNAK := recvNAK S;
     recvNAKTotal := recvNAKTotal S; m_bBroken := m_bBroken S; m_iBrokenCounter := m_iBrokenCounter S |}.

Definition insert_lost (S : CUDT_snd) (lo hi : Z) : option CUDT_snd :=
  '(num, L) ← CSndLossList_insert (m_pSndLossList S) lo hi;
  Some (lost_more num L S).

(** A range of a report that is not beyond the last packet sent. *)
Definition range_reported (S : CUDT_snd) (losslist_lo losslist_hi : Z)
    : option (CUDT_snd * list snd_action) :=
  if 0 <=? seqcmp losslist_lo (m_iSndLastAck S) then
    S ← insert_lost S losslist_lo losslist_hi; Some (S, [])
  else if 0 <=? seqcmp losslist_hi (m_iSndLastAck S) then
    S ← insert_lost S (m_iSndLastAck S) losslist_hi; Some (S, [])
  else Some (lost_more 0 (m_pSndLossList S) S, [SendDropReq losslist_lo losslist_hi]).

(** The loop over the words of a report: is the report secure?  [None] as well
    when the first number of a range is the last word: the code reads the word
    after it. *)
Fixpoint read_losses (S : CUDT_snd) (losslist : list Z)
    : option (bool * CUDT_snd * list snd_action) :=
  match losslist with
  | [] => Some (true, S, [])
  | w :: rest =>
      if IsSet w LOSSDATA_SEQNO_RANGE_FIRST then
        match rest with
        | [] => None
        | losslist_hi :: rest =>
            let losslist_lo := SEQNO_VALUE_unwrap w in
            if (0 <? seqcmp losslist_lo losslist_hi) || (0 <? seqcmp losslist_hi (m_iSndCurrSeqNo S))
            then Some (false, S, [])
            else
              '(S, actions) ← range_reported S losslist_lo losslist_hi;
              '(secure, S, actions') ← read_losses S rest;
              Some (secure, S, actions ++ actions')
        end
      else if 0 <=? seqcmp w (m_iSndLastAck S) then
        if 0 <? seqcmp w (m_iSndCurrSeqNo S) then Some (false, S, [])
        else S ← insert_lost S w w; read_losses S rest
      else read_losses S rest
  end.

Definition processCtrlLossReport (S : CUDT_snd) (losslist : list Z)
    : option (CUDT_snd * list snd_action) :=
  '(secure, S, actions) ← read_losses S losslist;
  let actions := actions ++ [UpdateCC_lossreport losslist] in
  Some (if secure : bool then (count_nak S, actions ++ [Reschedule])
        else (break_connection S, actions)).

(** [getFlightSpan] (srtcore/core.h): how many packets are in flight. *)
Definition getFlightSpan (lastack curseq : Z) : Z := seqlen lastack (incseq curseq) - 1.

(** [checkRexmitTimer]: the inputs, and the step. *)
Definition COMM_SYN_INTERVAL_US : Z := 10000.
Record rexmit_inputs :=
  { currtime : Z; m_tsLastRspAckTime : Z; m_iSRTT : Z; m_iRTTVar : Z; getCurrBufSize : Z;
    rexmitMethod : RexmitMethod; m_bPeerNakReport : bool }.
Definition exp_int_us (count : Z) (E : rexmit_inputs) : Z :=
  let rtt_syn := u64 (m_iSRTT E + 4 * m_iRTTVar E + 2 * COMM_SYN_INTERVAL_US) in
  u64 (count * rtt_syn + COMM_SYN_INTERVAL_US).
Definition is_laterexmit (E : rexmit_inputs) : bool :=
  match rexmitMethod E with SRM_LATEREXMIT => true | _ => false end.
Definition is_fastrexmit (E : rexmit_inputs) : bool :=
  match rexmitMethod E with SRM_FASTREXMIT => true | _ => false end.
Definition rexmit_due (S : CUDT_snd) (E : rexmit_inputs) : bool :=
  negb (currtime E <=? m_tsLastRspAckTime E + i64 (exp_int_us (m_iReXmitCount S) E)) &&
  negb (getCurrBufSize E <=? 0) && negb (is_fastrexmit E && m_bPeerNakReport E).

(** All that is not acknowledged is lost. *)
Definition rexmit_unacked (S : CUDT_snd) (E : rexmit_inputs) : option CUDT_snd :=
  if (0 <? getFlightSpan (m_iSndLastAck S) (m_iSndCurrSeqNo S)) &&
     (negb (is_laterexmit E) || (CSndLossList_getLossLength (m_pSndLossList S) =? 0)) then
    '(num, L) ← CSndLossList_insert (m_pSndLossList S) (m_iSndLastAck S) (m_iSndCurrSeqNo S);
    Some (lost_more (if 0 <? num then num else 0) L S)
  else Some S.
Definition checkRexmitTimer (S : CUDT_snd) (E : rexmit_inputs) : option (CUDT_snd * list snd_action) :=
  if rexmit_due S E then
    S ← rexmit_unacked S E;
    Some (count_rexmit S, [CheckSndTimers; UpdateCC_checktimer (rexmitMethod E); Reschedule])
  else Some (S, []).
