(* ===== verification/LossSendFacts.v ===== *)
(** * Lemmas on the retransmission requests at the sender

    A report in the words of [loss_words] puts its numbers into the loss list;
    a timeout puts there all that is in flight; a report of what was never sent
    breaks the connection.  Numbers are unwrapped. *)
From S2P Require Import Prelude SeqNo LossRing RcvLossFacts SndLoss SndLossFacts LossSend.
From Stdlib Require Import Sorted.

(** The first number not acknowledged is [ack], the last one sent [curr], and
    [ms] are to be sent again. *)
Record sending (size : Z) (S : CUDT_snd) (ack curr : Z) (ms : list Z) : Prop := {
  snd_ack : m_iSndLastAck S = seqno ack;
  snd_curr : m_iSndCurrSeqNo S = seqno curr;
  snd_list : snd_holds size (m_pSndLossList S) ms;
  snd_span : ack <= curr + 1 ∧ curr - ack + 1 < size;
  snd_in_flight : ∀ x, x ∈ ms → ack <= x <= curr }.

Lemma snd_holds_size size L ms : snd_holds size L ms → 0 < size <= 2 ^ 29.
Proof. intros (c & l & [H _] & _). apply H. Qed.
Lemma snd_holds_sorted size L ms : snd_holds size L ms → StronglySorted Z.lt ms.
Proof. intros (c & l & (_ & (b & Hb & _) & _) & <-). by eapply numbers_sorted. Qed.

(** What a step keeps besides the list and the statistics of the losses. *)
Definition same_state (S S' : CUDT_snd) : Prop :=
  m_bBroken S' = m_bBroken S ∧ m_iBrokenCounter S' = m_iBrokenCounter S ∧
  recvNAK S' = recvNAK S ∧ recvNAKTotal S' = recvNAKTotal S ∧ m_iReXmitCount S' = m_iReXmitCount S.
(** The statistics count the numbers that are new in the list, modulo [2 ^ 32]. *)
Definition counted (S S' : CUDT_snd) (ms ms' : list Z) : Prop :=
  i32 (sndLossTotal S') = i32 (sndLossTotal S + (Z.of_nat (length ms') - Z.of_nat (length ms))) ∧
  i32 (traceSndLoss S') = i32 (traceSndLoss S + (Z.of_nat (length ms') - Z.of_nat (length ms))).
Lemma i32_add x y : i32 (i32 x + y) = i32 (x + y).
Proof. unfold i32. divlia. Qed.
Lemma i32_idem x : i32 (i32 x) = i32 x.
Proof. unfold i32. divlia. Qed.
Lemma counted_trans S1 S2 S3 ms1 ms2 ms3 :
  counted S1 S2 ms1 ms2 → counted S2 S3 ms2 ms3 → counted S1 S3 ms1 ms3.
Proof.
  unfold counted. intros [E1 E2] [-> ->]. split.
  - rewrite <- i32_add, E1, i32_add. f_equal. lia.
  - rewrite <- i32_add, E2, i32_add. f_equal. lia.
Qed.
Lemma counted_refl S ms : counted S S ms ms.
Proof. unfold counted. by rewrite Z.sub_diag, !Z.add_0_r. Qed.
Lemma same_state_trans S1 S2 S3 : same_state S1 S2 → same_state S2 S3 → same_state S1 S3.
Proof. unfold same_state. naive_solver congruence. Qed.

Lemma insert_lost_run size S ack curr ms lo hi :
  sending size S ack curr ms → ack <= lo <= hi → hi <= curr →
  ∃ S', insert_lost S (seqno lo) (seqno hi) = Some S' ∧
    sending size S' ack curr (lost_union ms lo hi) ∧ same_state S S' ∧
    counted S S' ms (lost_union ms lo hi).
Proof.
  intros [Ha Hc HL Hs Hm] H1 H2. unfold insert_lost.
  destruct (CSndLossList_insert_run size _ _ lo hi HL) as (L & -> & HL'); [lia|lia| |].
  { intros x Hx. specialize (Hm x Hx). lia. }
  cbn [mbind option_bind]. eexists. split; [done|]. split; [|split; [done|by split; simpl; rewrite i32_idem]].
  split; [done..|]. intros x. rewrite elem_of_lost_union by lia. intros [Hx|?]; [by apply Hm|lia].
Qed.

(** The requests to drop what was acknowledged already. *)
Fixpoint drop_requests (ack : Z) (l : list range) : list snd_action :=
  match l with
  | [] => []
  | r :: l =>
      (if (r.1 <? r.2) && (r.2 <? ack) then [SendDropReq (seqno r.1) (seqno r.2)] else [])
        ++ drop_requests ack l
  end.
(** The ranges a report may have. *)
Definition report_ok (ack curr : Z) (l : list range) : Prop :=
  ∀ r, r ∈ l → r.1 <= r.2 <= curr ∧ ack - 2 ^ 29 <= r.1.

Lemma range_reported_run size S ack curr ms s e :
  sending size S ack curr ms → s <= e <= curr → ack - 2 ^ 29 <= s → s < e →
  ∃ S' ms', range_reported S (seqno s) (seqno e) = Some (S', drop_requests ack [(s, e)]) ∧
    sending size S' ack curr ms' ∧ same_state S S' ∧ counted S S' ms ms' ∧
    ∀ x, x ∈ ms' ↔ x ∈ ms ∨ ack <= x ∧ s <= x <= e.
Proof.
  intros H Hse Hs Hne. destruct (H) as [Ha Hc HL Hsp Hm]. pose proof (snd_holds_size _ _ _ HL) as Hsz.
  assert (near s ack ∧ near e ack) as [N1 N2] by (unfold near, m_iSeqNoTH; lia).
  unfold range_reported. rewrite Ha, !seqcmp_ge by done. cbn [drop_requests fst snd].
  rewrite (proj2 (Z.ltb_lt s e)) by done. cbn [andb]. rewrite app_nil_r.
  destruct (Z.leb_spec ack s); [|destruct (Z.leb_spec ack e)].
  - destruct (insert_lost_run _ _ _ _ _ s e H) as (S' & -> & H' & E & C); [lia|lia|].
    rewrite (proj2 (Z.ltb_ge e ack)) by lia. exists S', (lost_union ms s e). split; [done|]. split_and!; try done.
    intros x. rewrite elem_of_lost_union by lia. naive_solver lia.
  - destruct (insert_lost_run _ _ _ _ _ ack e H) as (S' & -> & H' & E & C); [lia|lia|].
    rewrite (proj2 (Z.ltb_ge e ack)) by lia. exists S', (lost_union ms ack e). split; [done|]. split_and!; try done.
    intros x. rewrite elem_of_lost_union by lia. naive_solver lia.
  - rewrite (proj2 (Z.ltb_lt e ack)) by lia. eexists _, ms. split; [done|]. split; [by split|].
    split; [done|]. split; [by split; simpl; rewrite i32_idem, Z.sub_diag|]. naive_solver lia.
Qed.

(** The words of one range. *)
Lemma read_range_run size S ack curr ms s e rest :
  sending size S ack curr ms → s <= e <= curr → ack - 2 ^ 29 <= s →
  ∃ S' ms', read_losses S (range_words (s, e) ++ rest) =
      ('(secure, S2, actions) ← read_losses S' rest;
       Some (secure, S2, drop_requests ack [(s, e)] ++ actions)) ∧
    sending size S' ack curr ms' ∧ same_state S S' ∧ counted S S' ms ms' ∧
    ∀ x, x ∈ ms' ↔ x ∈ ms ∨ ack <= x ∧ s <= x <= e.
Proof.
  intros H Hse Hs. destruct (H) as [Ha Hc HL Hsp Hm]. pose proof (snd_holds_size _ _ _ HL) as Hsz.
  assert (near s e ∧ near e curr ∧ near e ack) as (N1 & N2 & N3) by (unfold near, m_iSeqNoTH; lia).
  unfold range_words. cbn [fst snd]. destruct (Z.eqb_spec s e) as [->|Hne]; cbn [app read_losses].
  - rewrite IsSet_seqno, Ha, Hc, seqcmp_ge, seqcmp_gt by done. cbn [drop_requests fst snd].
    rewrite Z.ltb_irrefl. cbn [andb app]. destruct (Z.leb_spec ack e).
    + rewrite (proj2 (Z.ltb_ge curr e)) by lia.
      destruct (insert_lost_run _ _ _ _ _ e e H) as (S' & -> & H' & E & C); [lia|lia|].
      cbn [mbind option_bind]. exists S', (lost_union ms e e). split.
      { by destruct (read_losses S' rest) as [[[b S2] a]|]. }
      split_and!; try done. intros x. rewrite elem_of_lost_union by lia. naive_solver lia.
    + exists S, ms. split; [by destruct (read_losses S rest) as [[[b S2] a]|]|]. split_and!; try done.
      * apply counted_refl.
      * naive_solver lia.
  - rewrite IsSet_range_first, unwrap_range_first, Hc, !seqcmp_gt by done.
    rewrite (proj2 (Z.ltb_ge e s)), (proj2 (Z.ltb_ge curr e)) by lia. cbn [orb].
    destruct (range_reported_run _ _ _ _ _ s e H) as (S' & ms' & -> & H'); [done|done|lia|].
    cbn [mbind option_bind]. by exists S', ms'.
Qed.

Lemma read_losses_run size S ack curr ms l rest :
  sending size S ack curr ms → report_ok ack curr l →
  ∃ S' ms', read_losses S (loss_words l ++ rest) =
      ('(secure, S2, actions) ← read_losses S' rest; Some (secure, S2, drop_requests ack l ++ actions)) ∧
    sending size S' ack curr ms' ∧ same_state S S' ∧ counted S S' ms ms' ∧
    ∀ x, x ∈ ms' ↔ x ∈ ms ∨ ack <= x ∧ x ∈ numbers l.
Proof.
  revert S ms. induction l as [|[s e] l IH]; intros S ms H Hl.
  - exists S, ms. cbn [loss_words app].
    split; [by destruct (read_losses S rest) as [[[b S2] a]|]|]. split_and!; try done.
    + apply counted_refl.
    + cbn [numbers]. intros x. rewrite elem_of_nil. tauto.
  - destruct (Hl (s, e) ltac:(left)) as [Hse Hs]. cbn [fst snd] in Hse, Hs.
    cbn [loss_words]. rewrite <- (assoc_L (++)).
    destruct (read_range_run _ _ _ _ _ s e (loss_words l ++ rest) H Hse Hs) as (S1 & ms1 & -> & H1 & E1 & C1 & X1).
    destruct (IH _ _ H1) as (S2 & ms2 & -> & H2 & E2 & C2 & X2); [intros r Hr; apply Hl; by right|].
    exists S2, ms2. split.
    { destruct (read_losses S2 rest) as [[[b S3] a]|]; [|done]. cbn [mbind option_bind drop_requests].
      by rewrite app_nil_r, (assoc_L (++)). }
    split; [done|]. split; [by eapply same_state_trans|]. split; [by eapply counted_trans|].
    intros x. rewrite X2, X1. cbn [numbers]. rewrite elem_of_app, elem_of_range_numbers. cbn [fst snd]. tauto.
Qed.

(** ** Reports of what was never sent *)

(** A word, or the two of a range, that no receiver may send: the range is
    reversed, or it ends after the last packet sent. *)
Inductive bad_words (ack curr : Z) : list Z → Prop :=
  | bad_single x : curr < x → near x ack → near x curr → bad_words ack curr [seqno x]
  | bad_range s e : e < s ∨ curr < e → near s e → near e curr →
      bad_words ack curr [Z.lor (seqno s) LOSSDATA_SEQNO_RANGE_FIRST; seqno e].
Lemma read_bad_run size S ack curr ms w rest :
  sending size S ack curr ms → bad_words ack curr w → read_losses S (w ++ rest) = Some (false, S, []).
Proof.
  intros [Ha Hc HL [Hsp _] Hm] Hw. destruct Hw as [x Hx N1 N2|s e Hse N1 N2]; cbn [app read_losses].
  - rewrite IsSet_seqno, Ha, Hc, seqcmp_ge, seqcmp_gt by done.
    by rewrite (proj2 (Z.leb_le ack x)), (proj2 (Z.ltb_lt curr x)) by lia.
  - rewrite IsSet_range_first, unwrap_range_first, Hc, !seqcmp_gt by done.
    by replace ((e <? s) || (curr <? e)) with true by lia.
Qed.

(** ** Timeouts *)

Lemma getFlightSpan_run ack curr :
  ack <= curr + 1 < ack + m_iMaxSeqNo → getFlightSpan (seqno ack) (seqno curr) = curr + 1 - ack.
Proof. intros H. unfold getFlightSpan. rewrite incseq_seqno, seqlen_seqno; lia. Qed.

Lemma lost_union_all ms s e : (∀ x, x ∈ ms → s <= x <= e) → lost_union ms s e = seqZ s (e - s + 1).
Proof.
  intros H. unfold lost_union. rewrite !filter_none, app_nil_r; [done| |]; intros x Hx; specialize (H x Hx); lia.
Qed.

Lemma rexmit_unacked_run size S E ack curr ms :
  sending size S ack curr ms → ack <= curr →
  ∃ S', rexmit_unacked S E = Some S' ∧
    sending size S' ack curr (if is_laterexmit E && negb (bool_decide (ms = [])) then ms
                              else seqZ ack (curr - ack + 1)) ∧
    same_state S S'.
Proof.
  intros H Hf. destruct (H) as [Ha Hc HL Hsp Hm]. pose proof (snd_holds_size _ _ _ HL) as Hsz.
  unfold rexmit_unacked. rewrite Ha, Hc, getFlightSpan_run by (unfold m_iMaxSeqNo; lia).
  rewrite (proj2 (Z.ltb_lt 0 _)), (snd_getLossLength_run _ _ _ HL) by lia. cbn [andb].
  assert ((Z.of_nat (length ms) =? 0) = bool_decide (ms = [])) as ->
    by (destruct ms; [done|]; rewrite bool_decide_false by done; simpl; lia).
  destruct (is_laterexmit E && negb (bool_decide (ms = []))) eqn:Eg.
  - destruct (is_laterexmit E), (bool_decide (ms = [])); try done. by exists S.
  - replace (negb (is_laterexmit E) || bool_decide (ms = [])) with true
      by (destruct (is_laterexmit E), (bool_decide (ms = [])); done).
    destruct (CSndLossList_insert_run size _ _ ack curr HL) as (L & -> & HL'); [lia|lia| |].
    { intros x Hx. specialize (Hm x Hx). lia. }
    rewrite lost_union_all in * by done. cbn [mbind option_bind].
    eexists. split; [done|]. split; [|done]. split; [done..|]. intros x. rewrite elem_of_seqZ. lia.
Qed.

(** ** Draining the list *)

Fixpoint pop_all (n : nat) (L : CSndLossList) : option (list Z * CSndLossList) :=
  match n with
  | O => Some ([], L)
  | S n' => '(x, L) ← CSndLossList_popLostSeq L; '(xs, L) ← pop_all n' L; Some (x :: xs, L)
  end.
Lemma pop_all_run size L ns :
  snd_holds size L ns →
  ∃ L', pop_all (length ns) L = Some (seqno <$> ns, L') ∧ snd_holds size L' [].
Proof.
  revert L. induction ns as [|x ns IH]; intros L H; [by exists L|].
  destruct (CSndLossList_popLostSeq_run _ _ _ H) as (L1 & E & H1). cbn [length pop_all tail] in *.
  rewrite E. cbn [mbind option_bind]. destruct (IH L1 H1) as (L2 & -> & H2). by exists L2.
Qed.
