(* ===== verification/SndBuf.v ===== *)
(** * The buffer of the sender: CSndBuffer (srtcore/buffer.cpp, buffer.h)

    The blocks form a circular list in a heap that maps addresses to blocks; a
    new block has the next address.  Each block owns one piece of [m_iMSS] bytes
    of a physical buffer, which is the contents of its [m_pcData].  A time is a
    number of microseconds, and [time_point()] is 0.  [None] is the dereference
    of an address without a block, or a division by zero.  [m_BufLock] makes each operation one step.
    The moving averages of [m_mavg], which are floating point and only read by
    statistics, are left out. *)
From S2P Require Import Prelude SeqNo.

(** The [int len] that comes with a buffer. *)
Definition len (data : bytes) : Z := Z.of_nat (length data).

(** ** Message numbers (srtcore/packet.h, common.h) *)

Definition MSGNO_SEQ_mask : Z := 0x3FFFFFF.
Definition MSGNO_PACKET_INORDER_mask : Z := 0x20000000.
Definition MSGNO_ENCKEYSPEC_mask : Z := 0x18000000.
Definition PACKET_SND_REXMIT : Z := 0x4000000.
Definition SRT_MSGNO_NONE : Z := -1.
Definition SRT_MSGNO_CONTROL : Z := 0.
Definition SRT_MSGTTL_INF : Z := -1.
Inductive PacketBoundary := PB_SUBSEQUENT | PB_LAST | PB_FIRST | PB_SOLO.
Definition PacketBoundaryBits (o : PacketBoundary) : Z :=
  i32 (Z.land (Z.shiftl (match o with PB_SUBSEQUENT => 0 | PB_LAST => 1 | PB_FIRST => 2 | PB_SOLO => 3 end) 30)
    0xC0000000).
Definition MSGNO_ENCKEYSPEC_wrap (baseval : Z) : Z := Z.land (Z.shiftl (u32 baseval) 27) MSGNO_ENCKEYSPEC_mask.
(** [++MsgNo(n)] *)
Definition MsgNo_next (number : Z) : Z :=
  let number := u32 (u32 number + 1) in if MSGNO_SEQ_mask <? number then 1 else number.

(** ** The state *)

Record Block := mkBlock {
  m_pcData : bytes; m_iLength : Z; m_iMsgNoBitset : Z; m_iSeqNo : Z; m_tsOriginTime : Z;
  m_tsRexmitTime : Z; m_llSourceTime_us : Z; m_iTTL : Z; m_pNext : Z }.
Definition getMsgSeq (b : Block) : Z := Z.land (m_iMsgNoBitset b) MSGNO_SEQ_mask.
Definition set_next (p : Z) (b : Block) : Block :=
  mkBlock (m_pcData b) (m_iLength b) (m_iMsgNoBitset b) (m_iSeqNo b) (m_tsOriginTime b)
    (m_tsRexmitTime b) (m_llSourceTime_us b) (m_iTTL b) p.
Definition set_bitset (v : Z) (b : Block) : Block :=
  mkBlock (m_pcData b) (m_iLength b) v (m_iSeqNo b) (m_tsOriginTime b)
    (m_tsRexmitTime b) (m_llSourceTime_us b) (m_iTTL b) (m_pNext b).
Definition set_rexmit_time (v : Z) (b : Block) : Block :=
  mkBlock (m_pcData b) (m_iLength b) (m_iMsgNoBitset b) (m_iSeqNo b) (m_tsOriginTime b)
    v (m_llSourceTime_us b) (m_iTTL b) (m_pNext b).

Abbreviation heap := (gmap Z Block).
(** The rate of the input, which [updateInputRate] keeps. *)
Record input_rate := {
  m_iInRatePktsCount : Z; m_iInRateBytesCount : Z; m_tsInRateStartTime : Z; m_InRatePeriod : Z; m_iInRateBps : Z }.
(** [m_pBuffer]: the sizes of the physical buffers.  [m_fresh]: the address of the
    next new block. *)
Record CSndBuffer := {
  m_blocks : heap; m_fresh : Z;
  m_pFirstBlock : Z; m_pCurrBlock : Z; m_pLastBlock : Z; m_pBuffer : list Z;
  m_iNextMsgNo : Z; m_iSize : Z; m_iMSS : Z; m_iCount : Z; m_iBytesCount : Z;
  m_tsLastOriginTime : Z; m_rate : input_rate }.
Definition with_blocks (h : heap) (fresh : Z) (B : CSndBuffer) : CSndBuffer :=
  {| m_blocks := h; m_fresh := fresh; m_pFirstBlock := m_pFirstBlock B; m_pCurrBlock := m_pCurrBlock B;
     m_pLastBlock := m_pLastBlock B; m_pBuffer := m_pBuffer B; m_iNextMsgNo := m_iNextMsgNo B;
     m_iSize := m_iSize B; m_iMSS := m_iMSS B; m_iCount := m_iCount B; m_iBytesCount := m_iBytesCount B;
     m_tsLastOriginTime := m_tsLastOriginTime B; m_rate := m_rate B |}.
Definition with_pointers (first curr last : Z) (B : CSndBuffer) : CSndBuffer :=
  {| m_blocks := m_blocks B; m_fresh := m_fresh B; m_pFirstBlock := first; m_pCurrBlock := curr;
     m_pLastBlock := last; m_pBuffer := m_pBuffer B; m_iNextMsgNo := m_iNextMsgNo B;
     m_iSize := m_iSize B; m_iMSS := m_iMSS B; m_iCount := m_iCount B; m_iBytesCount := m_iBytesCount B;
     m_tsLastOriginTime := m_tsLastOriginTime B; m_rate := m_rate B |}.
Definition with_counts (count byts : Z) (B : CSndBuffer) : CSndBuffer :=
  {| m_blocks := m_blocks B; m_fresh := m_fresh B; m_pFirstBlock := m_pFirstBlock B;
     m_pCurrBlock := m_pCurrBlock B; m_pLastBlock := m_pLastBlock B; m_pBuffer := m_pBuffer B;
     m_iNextMsgNo := m_iNextMsgNo B; m_iSize := m_iSize B; m_iMSS := m_iMSS B; m_iCount := count;
     m_iBytesCount := byts; m_tsLastOriginTime := m_tsLastOriginTime B; m_rate := m_rate B |}.
Definition with_size (buffers : list Z) (size : Z) (B : CSndBuffer) : CSndBuffer :=
  {| m_blocks := m_blocks B; m_fresh := m_fresh B; m_pFirstBlock := m_pFirstBlock B;
     m_pCurrBlock := m_pCurrBlock B; m_pLastBlock := m_pLastBlock B; m_pBuffer := buffers;
     m_iNextMsgNo := m_iNextMsgNo B; m_iSize := size; m_iMSS := m_iMSS B; m_iCount := m_iCount B;
     m_iBytesCount := m_iBytesCount B; m_tsLastOriginTime := m_tsLastOriginTime B; m_rate := m_rate B |}.
Definition with_msgno (n : Z) (B : CSndBuffer) : CSndBuffer :=
  {| m_blocks := m_blocks B; m_fresh := m_fresh B; m_pFirstBlock := m_pFirstBlock B;
     m_pCurrBlock := m_pCurrBlock B; m_pLastBlock := m_pLastBlock B; m_pBuffer := m_pBuffer B;
     m_iNextMsgNo := n; m_iSize := m_iSize B; m_iMSS := m_iMSS B; m_iCount := m_iCount B;
     m_iBytesCount := m_iBytesCount B; m_tsLastOriginTime := m_tsLastOriginTime B; m_rate := m_rate B |}.
Definition with_rate (t : Z) (r : input_rate) (B : CSndBuffer) : CSndBuffer :=
  {| m_blocks := m_blocks B; m_fresh := m_fresh B; m_pFirstBlock := m_pFirstBlock B;
     m_pCurrBlock := m_pCurrBlock B; m_pLastBlock := m_pLastBlock B; m_pBuffer := m_pBuffer B;
     m_iNextMsgNo := m_iNextMsgNo B; m_iSize := m_iSize B; m_iMSS := m_iMSS B; m_iCount := m_iCount B;
     m_iBytesCount := m_iBytesCount B; m_tsLastOriginTime := t; m_rate := r |}.

(** ** Blocks *)

(** [p->field = v] *)
Definition upd_block (p : Z) (f : Block → Block) (h : heap) : option heap :=
  b ← h !! p; Some (<[p := f b]> h).

Section blocks.
(** What a new block has in its fields, by its address, and in its piece. *)
Context (uninit : Z → Block).

(** [n] more blocks after [pb], each linked to the one before; the constructor
    clears the message number of the block it leaves. *)
Fixpoint new_blocks (n : nat) (clear : bool) (h : heap) (pb fresh : Z) : option (heap * Z * Z) :=
  match n with
  | O => Some (h, pb, fresh)
  | S n' =>
      let h := <[fresh := uninit fresh]> h in
      h ← upd_block pb (set_next fresh) h;
      h ← (if clear then upd_block pb (set_bitset 0) h else Some h);
      new_blocks n' clear h fresh (fresh + 1)
  end.

Definition INPUTRATE_FAST_START_US : Z := 500000.
Definition INPUTRATE_RUNNING_US : Z := 1000000.
Definition INPUTRATE_MAX_PACKETS : Z := 2000.
Definition INPUTRATE_INITIAL_BYTESPS : Z := Z.quot 1000000000 8.
Definition SRT_DATA_HDR_SIZE : Z := 28 + 16.

Definition CSndBuffer_new (size mss : Z) : option CSndBuffer :=
  '(h, pb, fresh) ← new_blocks (Z.to_nat (size - 1)) true {[0 := uninit 0]} 0 1;
  h ← upd_block pb (set_next 0) h;
  Some {| m_blocks := h; m_fresh := fresh; m_pFirstBlock := 0; m_pCurrBlock := 0; m_pLastBlock := 0;
          m_pBuffer := [size]; m_iNextMsgNo := 1; m_iSize := size; m_iMSS := mss; m_iCount := 0;
          m_iBytesCount := 0; m_tsLastOriginTime := 0;
          m_rate := {| m_iInRatePktsCount := 0; m_iInRateBytesCount := 0; m_tsInRateStartTime := 0;
                       m_InRatePeriod := INPUTRATE_FAST_START_US; m_iInRateBps := INPUTRATE_INITIAL_BYTESPS |} |}.

(** [increase]: as many blocks as the first physical buffer has, between the last
    block and the next one. *)
Definition increase (B : CSndBuffer) : option CSndBuffer :=
  unitsize ← head (m_pBuffer B);
  let nblk := m_fresh B in
  '(h, pb, fresh) ← new_blocks (Z.to_nat (unitsize - 1)) false (<[nblk := uninit nblk]> (m_blocks B)) nblk (nblk + 1);
  last ← h !! m_pLastBlock B;
  h ← upd_block pb (set_next (m_pNext last)) h;
  h ← upd_block (m_pLastBlock B) (set_next nblk) h;
  Some (with_size (m_pBuffer B ++ [unitsize]) (m_iSize B + unitsize) (with_blocks h fresh B)).

(** [while (size + m_iCount >= m_iSize) increase();] *)
Fixpoint increase_loop (fuel : nat) (size : Z) (B : CSndBuffer) : option CSndBuffer :=
  match fuel with
  | O => None
  | S fuel' =>
      if m_iSize B <=? size + m_iCount B then B ← increase B; increase_loop fuel' size B else Some B
  end.
Definition make_room (size : Z) (B : CSndBuffer) : option CSndBuffer :=
  increase_loop (S (Z.to_nat (size + m_iCount B - m_iSize B + 1))) size B.

(** The number of blocks that [len] bytes need. *)
Definition blocks_for (len mss : Z) : Z := Z.quot len mss + (if Z.rem len mss =? 0 then 0 else 1).

(** ** Adding a message *)

Record SRT_MSGCTRL := { msgttl : Z; inorder : bool; srctime : Z; pktseq : Z; msgno : Z }.

(** [m_iMsgNoBitset] of the [i]-th of [size] blocks. *)
Definition msgno_bits (next inorder i size : Z) : Z :=
  let bits := Z.lor next inorder in
  let bits := if i =? 0 then Z.lor bits (PacketBoundaryBits PB_FIRST) else bits in
  if i =? size - 1 then Z.lor bits (PacketBoundaryBits PB_LAST) else bits.

(** [memcpy] to the start of a piece. *)
Definition fill (piece data : bytes) : bytes := data ++ drop (length data) piece.

(** The loop of [addBuffer], from block [i] on. *)
Fixpoint store_blocks (n : nat) (h : heap) (s i size mss next inorder : Z) (data : bytes)
    (time ttl w_srctime w_seqno : Z) : option (heap * Z * Z * Z) :=
  match n with
  | O => Some (h, s, w_srctime, w_seqno)
  | S n' =>
      let pktlen := Z.min (len data - i * mss) mss in
      b ← h !! s;
      let h := <[s := mkBlock (fill (m_pcData b) (take (Z.to_nat pktlen) (drop (Z.to_nat (i * mss)) data)))
        pktlen (msgno_bits next inorder i size) w_seqno time 0 w_srctime ttl (m_pNext b)]> h in
      store_blocks n' h (m_pNext b) (i + 1) size mss next inorder data time ttl
        (if w_srctime =? 0 then time else w_srctime) (incseq w_seqno)
  end.

(** [None]: a division by zero. *)
Definition updateInputRate (r : input_rate) (time pkts byts : Z) : option input_rate :=
  if m_InRatePeriod r =? 0 then Some r
  else if m_tsInRateStartTime r =? 0 then
    Some {| m_iInRatePktsCount := m_iInRatePktsCount r; m_iInRateBytesCount := m_iInRateBytesCount r;
       m_tsInRateStartTime := time; m_InRatePeriod := m_InRatePeriod r; m_iInRateBps := m_iInRateBps r |}
  else
    let pkts_count := i32 (m_iInRatePktsCount r + pkts) in
    let bytes_count := i32 (m_iInRateBytesCount r + byts) in
    let early_update := (m_InRatePeriod r <? INPUTRATE_RUNNING_US) && (INPUTRATE_MAX_PACKETS <? pkts_count) in
    let period_us := u64 (time - m_tsInRateStartTime r) in
    if early_update || (m_InRatePeriod r <? period_us) then
      if period_us =? 0 then None
      else
        let bytes_count := i32 (bytes_count + pkts_count * SRT_DATA_HDR_SIZE) in
        Some {| m_iInRatePktsCount := 0; m_iInRateBytesCount := 0; m_tsInRateStartTime := time;
           m_InRatePeriod := INPUTRATE_RUNNING_US;
           m_iInRateBps := i32 (u64 (bytes_count * 1000000) / period_us) |}
    else
      Some {| m_iInRatePktsCount := pkts_count; m_iInRateBytesCount := bytes_count;
         m_tsInRateStartTime := m_tsInRateStartTime r; m_InRatePeriod := m_InRatePeriod r;
         m_iInRateBps := m_iInRateBps r |}.

Definition addBuffer (B : CSndBuffer) (data : bytes) (w_mctrl : SRT_MSGCTRL) (time : Z)
    : option (CSndBuffer * SRT_MSGCTRL) :=
  let size := blocks_for (len data) (m_iMSS B) in
  B ← make_room size B;
  let inord := if inorder w_mctrl then MSGNO_PACKET_INORDER_mask else 0 in
  let w_msgno := if msgno w_mctrl =? SRT_MSGNO_NONE then m_iNextMsgNo B else msgno w_mctrl in
  '(h, s, w_srctime, w_seqno) ← store_blocks (Z.to_nat size) (m_blocks B) (m_pLastBlock B) 0 size (m_iMSS B)
    w_msgno inord data time (msgttl w_mctrl) (srctime w_mctrl) (pktseq w_mctrl);
  let B := with_pointers (m_pFirstBlock B) (m_pCurrBlock B) s (with_blocks h (m_fresh B) B) in
  let B := with_counts (m_iCount B + size) (m_iBytesCount B + len data) B in
  rate ← updateInputRate (m_rate B) time size (len data);
  Some (with_msgno (MsgNo_next w_msgno) (with_rate time rate B),
        {| msgttl := msgttl w_mctrl; inorder := inorder w_mctrl; srctime := w_srctime;
           pktseq := w_seqno; msgno := w_msgno |}).
End blocks.

(** ** Reading *)

(** What [readData] puts into the packet: a pointer to the piece, whose bytes are
    [pk_data], the number of the block, the message number and the time. *)
Record packet := { pk_data : bytes; pk_seqno : Z; pk_msgno : Z; pk_time : Z }.

Definition getSourceTime (b : Block) : Z :=
  if negb (m_llSourceTime_us b =? 0) then m_llSourceTime_us b else m_tsOriginTime b.
Definition block_packet (b : Block) : packet :=
  {| pk_data := take (Z.to_nat (m_iLength b)) (m_pcData b); pk_seqno := m_iSeqNo b;
     pk_msgno := m_iMsgNoBitset b; pk_time := getSourceTime b |}.

(** The next packet to send for the first time; [None] in the result: no data. *)
Definition readData (B : CSndBuffer) (kflgs : Z) : option (Z * option packet * CSndBuffer) :=
  if m_pCurrBlock B =? m_pLastBlock B then Some (0, None, B)
  else
    let p := m_pCurrBlock B in
    b ← m_blocks B !! p;
    let b' := if kflgs =? -1 then b
              else set_bitset (Z.lor (m_iMsgNoBitset b) (MSGNO_ENCKEYSPEC_wrap kflgs)) b in
    Some (if kflgs =? -1 then 0 else m_iLength b, Some (block_packet b'),
          with_pointers (m_pFirstBlock B) (m_pNext b') (m_pLastBlock B)
            (with_blocks (<[p := b']> (m_blocks B)) (m_fresh B) B)).

(** [for (i = 0; i < offset && p != stop; ++i) p = p->m_pNext;] *)
Fixpoint walk (n : nat) (h : heap) (p stop : Z) : option Z :=
  match n with
  | O => Some p
  | S n' => if p =? stop then Some p else b ← h !! p; walk n' h (m_pNext b) stop
  end.
(** The same without the test of the end. *)
Fixpoint walk_on (n : nat) (h : heap) (p : Z) : option Z :=
  match n with O => Some p | S n' => b ← h !! p; walk_on n' h (m_pNext b) end.

(** The rest of a message whose time is over, from [p] on: how many blocks, and
    the current block. *)
Fixpoint skip_message (fuel : nat) (h : heap) (p last curr msgno : Z) (move : bool) (msglen : Z)
    : option (Z * Z) :=
  match fuel with
  | O => None
  | S fuel' =>
      if p =? last then Some (msglen, curr)
      else
        b ← h !! p;
        if msgno =? getMsgSeq b then
          let move := move || (p =? curr) in
          skip_message fuel' h (m_pNext b) last (if move then m_pNext b else curr) msgno move (msglen + 1)
        else Some (msglen, curr)
  end.

(** The packet [offset] blocks after the first one, to be sent again. *)
Inductive reread :=
  | RereadNothing
  | RereadExpired (msgno msglen : Z)
  | RereadPacket (readlen : Z) (p : packet).
Definition readData_at (B : CSndBuffer) (offset now : Z) : option (reread * CSndBuffer) :=
  p ← walk (Z.to_nat offset) (m_blocks B) (m_pFirstBlock B) (m_pLastBlock B);
  if p =? m_pLastBlock B then Some (RereadNothing, B)
  else
    b ← m_blocks B !! p;
    if (0 <=? m_iTTL b) && (m_iTTL b <? Z.quot (now - m_tsOriginTime b) 1000) then
      '(msglen, curr) ← skip_message (S (Z.to_nat (m_iSize B))) (m_blocks B) (m_pNext b) (m_pLastBlock B)
        (m_pCurrBlock B) (getMsgSeq b) false 1;
      Some (RereadExpired (getMsgSeq b) msglen, with_pointers (m_pFirstBlock B) curr (m_pLastBlock B) B)
    else
      Some (RereadPacket (m_iLength b) (block_packet b),
            with_blocks (<[p := set_rexmit_time now b]> (m_blocks B)) (m_fresh B) B).

Definition getPacketRexmitTime (B : CSndBuffer) (offset : Z) : option Z :=
  p ← walk_on (Z.to_nat offset) (m_blocks B) (m_pFirstBlock B);
  b ← m_blocks B !! p; Some (m_tsRexmitTime b).

Definition getMsgNoAt (B : CSndBuffer) (offset : Z) : option Z :=
  if m_iCount B <=? offset then Some SRT_MSGNO_CONTROL
  else
    p ← walk_on (Z.to_nat offset) (m_blocks B) (m_pFirstBlock B);
    b ← m_blocks B !! p; Some (getMsgSeq b).

(** ** Removing *)

(** The loop of [ackData]: the first block, the bytes, and whether the current
    block was passed. *)
Fixpoint ack_loop (n : nat) (h : heap) (first curr byts : Z) (move : bool) : option (Z * Z * bool) :=
  match n with
  | O => Some (first, byts, move)
  | S n' =>
      b ← h !! first;
      ack_loop n' h (m_pNext b) curr (byts - m_iLength b) (move || (first =? curr))
  end.
Definition ackData (B : CSndBuffer) (offset : Z) : option CSndBuffer :=
  '(first, byts, move) ← ack_loop (Z.to_nat offset) (m_blocks B) (m_pFirstBlock B) (m_pCurrBlock B)
    (m_iBytesCount B) false;
  Some (with_counts (m_iCount B - offset) byts
    (with_pointers first (if move : bool then first else m_pCurrBlock B) (m_pLastBlock B) B)).

Fixpoint drop_loop (n : nat) (h : heap) (first curr too_late dpkts dbytes msgno : Z) (move : bool)
    : option (Z * Z * Z * Z * bool) :=
  match n with
  | O => Some (first, dpkts, dbytes, msgno, move)
  | S n' =>
      b ← h !! first;
      if m_tsOriginTime b <? too_late then
        drop_loop n' h (m_pNext b) curr too_late (dpkts + 1) (dbytes + m_iLength b) (getMsgSeq b)
          (move || (first =? curr))
      else Some (first, dpkts, dbytes, msgno, move)
  end.
(** The packets, the bytes and the first message number that is left. *)
Definition dropLateData (B : CSndBuffer) (too_late_time : Z) : option (Z * Z * Z * CSndBuffer) :=
  '(first, dpkts, dbytes, msgno, move) ← drop_loop (Z.to_nat (m_iCount B)) (m_blocks B) (m_pFirstBlock B)
    (m_pCurrBlock B) too_late_time 0 0 0 false;
  Some (dpkts, dbytes, MsgNo_next msgno,
    with_counts (m_iCount B - dpkts) (m_iBytesCount B - dbytes)
      (with_pointers first (if move : bool then first else m_pCurrBlock B) (m_pLastBlock B) B)).

Definition getCurrBufSize (B : CSndBuffer) : Z := m_iCount B.
(** The bytes, and the time span in milliseconds. *)
Definition getCurrBufSize_span (B : CSndBuffer) : option (Z * Z * Z) :=
  span ← (if 0 <? m_iCount B then
            b ← m_blocks B !! m_pFirstBlock B;
            Some (Z.quot (m_tsLastOriginTime B - m_tsOriginTime b) 1000 + 1)
          else Some 0);
  Some (m_iCount B, m_iBytesCount B, span).
