(* ===== verification/SndBufFacts.v ===== *)
(** * Lemmas on the buffer of the sender

    [buf_at]: the circular list begins with the blocks of the packets that were
    sent, then those that were not, then the block where the next packet goes, and
    the free ones.  Each operation, in any such state, runs without a dangling
    pointer and leaves such a state. *)
From S2P Require Import Prelude SeqNo SndBuf.

(** ** Chains of blocks *)

(** The blocks [l] are linked in this order, and the last one to [nxt]. *)
Fixpoint chain (h : heap) (l : list Z) (nxt : Z) : Prop :=
  match l with
  | [] => True
  | p :: l' => (∃ b, h !! p = Some b ∧ m_pNext b = default nxt (head l')) ∧ chain h l' nxt
  end.

Lemma chain_app h l1 l2 nxt :
  chain h (l1 ++ l2) nxt ↔ chain h l1 (default nxt (head l2)) ∧ chain h l2 nxt.
Proof.
  induction l1 as [|p l1 IH]; [naive_solver|]. cbn [app chain]. rewrite IH.
  destruct l1 as [|q l1]; cbn [app head from_option]; naive_solver.
Qed.
Lemma chain_ext h h' l nxt :
  (∀ p b, p ∈ l → h !! p = Some b → ∃ b', h' !! p = Some b' ∧ m_pNext b' = m_pNext b) →
  chain h l nxt → chain h' l nxt.
Proof.
  induction l as [|p l IH]; [done|]. intros Hx [(b & Hb & En) Hc]. split.
  - destruct (Hx p b ltac:(left) Hb) as (b' & Hb' & E). exists b'. by rewrite E.
  - apply IH; [|done]. intros q b' Hq. apply Hx. by right.
Qed.
Lemma chain_frame h l nxt p b : p ∉ l → chain h l nxt → chain (<[p := b]> h) l nxt.
Proof.
  intros Hp. apply chain_ext. intros q b' Hq Hb. exists b'. rewrite lookup_insert_ne by set_solver. done.
Qed.
(** An update that keeps the link. *)
Lemma chain_update h l nxt p b b' :
  h !! p = Some b → m_pNext b' = m_pNext b → chain h l nxt → chain (<[p := b']> h) l nxt.
Proof.
  intros Hb E. apply chain_ext. intros q bq _ Hq. destruct (decide (p = q)) as [<-|Hne].
  - exists b'. rewrite lookup_insert_eq. split; [done|]. rewrite E. by simplify_eq.
  - exists bq. by rewrite lookup_insert_ne.
Qed.
Lemma chain_head h p l nxt : chain h (p :: l) nxt → ∃ b, h !! p = Some b ∧ m_pNext b = default nxt (head l).
Proof. by intros [? _]. Qed.
(** The chain is a ring: it may begin anywhere. *)
Lemma chain_rotate h l1 l2 x :
  chain h (l1 ++ x :: l2) (default x (head l1)) → chain h (x :: l2 ++ l1) x.
Proof.
  intros Hc. apply chain_app in Hc as [H1 H2]. cbn [head from_option] in H1. unfold id in H1.
  change (x :: l2 ++ l1) with ((x :: l2) ++ l1). apply chain_app. by split.
Qed.

Lemma upd_block_some p f h b : h !! p = Some b → upd_block p f h = Some (<[p := f b]> h).
Proof. intros H. unfold upd_block. by rewrite H. Qed.

Section uninit.
Context (uninit : Z → Block).

(** The new blocks are linked behind [pb]; the last one is to be linked to [x]. *)
Lemma new_blocks_run n clear h pb fresh x b :
  h !! pb = Some b → pb < fresh →
  ∃ h1 pb' h2, new_blocks uninit n clear h pb fresh = Some (h1, pb', fresh + Z.of_nat n) ∧
    (∀ q, q < fresh → q ≠ pb → h1 !! q = h !! q) ∧ (pb' = pb ∨ fresh <= pb') ∧
    upd_block pb' (set_next x) h1 = Some h2 ∧ chain h2 (pb :: seqZ fresh (Z.of_nat n)) x ∧
    (∀ q, q < fresh → q ≠ pb → h2 !! q = h !! q) ∧
    (∃ b', h2 !! pb = Some b' ∧ m_pcData b' = m_pcData b) ∧
    (∀ q, q ∈ seqZ fresh (Z.of_nat n) → ∃ b', h2 !! q = Some b' ∧ m_pcData b' = m_pcData (uninit q)).
Proof.
  revert h pb fresh b. induction n as [|n IH]; intros h pb fresh b Hb Hlt; cbn [new_blocks].
  - exists h, pb. eexists. split; [do 2 f_equal; lia|]. split; [done|]. split; [by left|].
    split; [by apply upd_block_some|]. change (seqZ fresh (Z.of_nat 0)) with (@nil Z). split; [|split; [|split]].
    + split; [|done]. exists (set_next x b). by rewrite lookup_insert_eq.
    + intros q _ Hne. by rewrite lookup_insert_ne.
    + exists (set_next x b). by rewrite lookup_insert_eq.
    + intros q Hq. by apply elem_of_nil in Hq.
  - rewrite (upd_block_some _ _ _ b) by (by rewrite lookup_insert_ne by lia). cbn [mbind option_bind].
    set (h0 := <[pb := set_next fresh b]> (<[fresh := uninit fresh]> h)).
    assert (∃ b1, (if clear then upd_block pb (set_bitset 0) h0 else Some h0) = Some (<[pb := b1]> h0) ∧
      m_pNext b1 = fresh ∧ m_pcData b1 = m_pcData b) as (b1 & -> & En & Ed).
    { destruct clear.
      - exists (set_bitset 0 (set_next fresh b)). rewrite (upd_block_some _ _ _ (set_next fresh b)); [done|].
        unfold h0. by rewrite lookup_insert_eq.
      - exists (set_next fresh b). split; [|done]. f_equal. unfold h0. by rewrite insert_insert_eq. }
    cbn [mbind option_bind].
    assert (∀ q, q ≠ pb → q ≠ fresh → (<[pb := b1]> h0) !! q = h !! q) as Hq0.
    { intros q H1 H2. unfold h0. by rewrite !lookup_insert_ne. }
    destruct (IH (<[pb := b1]> h0) fresh (fresh + 1) (uninit fresh))
      as (h1 & pb' & h2 & E & F1 & P & E2 & C & F2 & (bf & Hbf & Ebf) & Hn); [|lia|].
    { unfold h0. rewrite !lookup_insert_ne by lia. by rewrite lookup_insert_eq. }
    assert (h2 !! pb = Some b1) as Hpb by (rewrite F2 by lia; by rewrite lookup_insert_eq).
    assert (seqZ fresh (Z.of_nat (S n)) = fresh :: seqZ (fresh + 1) (Z.of_nat n)) as Eseq.
    { rewrite (seqZ_cons fresh) by lia. f_equal. f_equal; lia. }
    exists h1, pb', h2. rewrite E, Eseq. split; [do 2 f_equal; lia|]. split; [|split; [right; lia|]].
    { intros q H1 H2. rewrite F1 by lia. apply Hq0; lia. }
    split; [done|]. split; [|split; [|split]].
    + split; [|done]. by exists b1.
    + intros q H1 H2. rewrite F2 by lia. apply Hq0; lia.
    + by exists b1.
    + intros q [->|Hq]%elem_of_cons; [by exists bf|by apply Hn].
Qed.
End uninit.

(** ** What a buffer holds *)

(** A packet in the buffer. *)
Record spkt := mkPkt {
  q_data : bytes; q_bits : Z; q_seq : Z; q_origin : Z; q_rexmit : Z; q_src : Z; q_ttl : Z }.
Definition content (b : Block) : spkt :=
  mkPkt (take (Z.to_nat (m_iLength b)) (m_pcData b)) (m_iMsgNoBitset b) (m_iSeqNo b) (m_tsOriginTime b)
    (m_tsRexmitTime b) (m_llSourceTime_us b) (m_iTTL b).
Definition stores (h : heap) (p : Z) (q : spkt) : Prop :=
  ∃ b, h !! p = Some b ∧ content b = q ∧ m_iLength b = len (q_data q).
Definition pkt_bytes (l : list spkt) : Z := foldr (λ q n, len (q_data q) + n) 0 l.

(** The blocks of a buffer: of the packets sent, of those not sent, the last one
    and the free ones. *)
Record buf_at (B : CSndBuffer) (ps pu free : list Z) (sent unsent : list spkt) : Prop := {
  b_nodup : NoDup (ps ++ pu ++ m_pLastBlock B :: free);
  b_chain : chain (m_blocks B) (ps ++ pu ++ m_pLastBlock B :: free) (m_pFirstBlock B);
  b_first : m_pFirstBlock B = default (m_pLastBlock B) (head (ps ++ pu));
  b_curr : m_pCurrBlock B = default (m_pLastBlock B) (head pu);
  b_sent : Forall2 (stores (m_blocks B)) ps sent;
  b_unsent : Forall2 (stores (m_blocks B)) pu unsent;
  b_pieces : ∀ p, p ∈ ps ++ pu ++ m_pLastBlock B :: free → p < m_fresh B ∧
    ∃ b, m_blocks B !! p = Some b ∧ len (m_pcData b) = m_iMSS B;
  b_size : m_iSize B = Z.of_nat (length (ps ++ pu ++ m_pLastBlock B :: free));
  b_unit : ∃ u, head (m_pBuffer B) = Some u ∧ 0 < u;
  b_mss : 0 < m_iMSS B;
  b_count : m_iCount B = Z.of_nat (length (sent ++ unsent));
  b_bytes : m_iBytesCount B = pkt_bytes (sent ++ unsent) }.
(** The buffer holds the packets. *)
Definition buf_holds (B : CSndBuffer) (sent unsent : list spkt) : Prop :=
  ∃ ps pu free, buf_at B ps pu free sent unsent.

Lemma stores_frame h h' l qs :
  (∀ p, p ∈ l → h' !! p = h !! p) → Forall2 (stores h) l qs → Forall2 (stores h') l qs.
Proof.
  intros Hx H. induction H as [|p q l qs (b & Hb & ?) _ IH]; [constructor|]. constructor.
  - exists b. by rewrite Hx by left.
  - apply IH. intros p' Hp'. apply Hx. by right.
Qed.
Lemma pkt_bytes_app l1 l2 : pkt_bytes (l1 ++ l2) = pkt_bytes l1 + pkt_bytes l2.
Proof. induction l1 as [|q l1 IH]; [done|]. cbn [app pkt_bytes foldr] in *. fold (pkt_bytes (l1 ++ l2)) in *. fold (pkt_bytes l1) in *. lia. Qed.

(** ** Making blocks *)

Section making.
Context (uninit : Z → Block) (mss : Z).
(** A physical buffer is cut into pieces of [mss] bytes. *)
Hypothesis Hpiece : ∀ p, len (m_pcData (uninit p)) = mss.

Lemma CSndBuffer_new_run size :
  0 < size → 0 < mss →
  ∃ B, CSndBuffer_new uninit size mss = Some B ∧ buf_at B [] [] (seqZ 1 (size - 1)) [] [] ∧
    m_iMSS B = mss ∧ m_tsInRateStartTime (m_rate B) = 0 ∧ m_tsLastOriginTime B = 0 ∧ m_iNextMsgNo B = 1.
Proof.
  intros Hsize Hmss. unfold CSndBuffer_new.
  destruct (new_blocks_run uninit (Z.to_nat (size - 1)) true {[0 := uninit 0]} 0 1 0 (uninit 0))
    as (h1 & pb & h2 & -> & _ & _ & E2 & C & _ & (b0 & Hb0 & E0) & Hn); [by rewrite lookup_singleton_eq|lia|].
  cbn [mbind option_bind]. rewrite E2. cbn [mbind option_bind]. rewrite Z2Nat.id in * by lia.
  eexists. split; [done|]. split; [|done].
  assert (∀ p, p ∈ 0 :: seqZ 1 (size - 1) → ∃ b, h2 !! p = Some b ∧ len (m_pcData b) = mss) as Hp.
  { intros p [->|Hp]%elem_of_cons; [exists b0; by rewrite E0|].
    destruct (Hn p Hp) as (b & Hb & E). exists b. by rewrite E. }
  split; cbn [app m_pLastBlock m_pFirstBlock m_pCurrBlock m_blocks m_fresh head m_pBuffer m_iMSS]; try done.
  - constructor; [rewrite elem_of_seqZ; lia|apply NoDup_seqZ].
  - intros p Hpin. split; [|by apply Hp]. apply elem_of_cons in Hpin as [->|Hpin]; [lia|].
    apply elem_of_seqZ in Hpin. lia.
  - cbn [length m_iSize]. rewrite length_seqZ. lia.
  - by exists size.
Qed.

Lemma increase_run B ps pu free sent unsent :
  buf_at B ps pu free sent unsent → m_iMSS B = mss →
  ∃ B' new, increase uninit B = Some B' ∧ buf_at B' ps pu (new ++ free) sent unsent ∧ new ≠ [] ∧
    m_pLastBlock B' = m_pLastBlock B ∧ m_iMSS B' = mss ∧ m_rate B' = m_rate B ∧
    m_tsLastOriginTime B' = m_tsLastOriginTime B ∧ m_iNextMsgNo B' = m_iNextMsgNo B ∧ m_iCount B' = m_iCount B.
Proof.
  intros H Hmss. destruct H as [Hnd Hc Hf Hcu Hs Hu Hp Hsz (u & Hu1 & Hu2) Hm Hcnt Hby].
  unfold increase. rewrite Hu1. cbn [mbind option_bind]. set (last := m_pLastBlock B) in *. set (nblk := m_fresh B) in *.
  pose proof Hc as Hc2. rewrite (assoc_L (++)) in Hc2. apply chain_app in Hc2 as [Hc1 [(bl & Hbl & El) Hc3]].
  cbn [head from_option] in Hc1. unfold id in Hc1.
  assert (last < nblk) as Hlast by (apply Hp; set_solver).
  destruct (new_blocks_run uninit (Z.to_nat (u - 1)) false (<[nblk := uninit nblk]> (m_blocks B)) nblk (nblk + 1)
    (m_pNext bl) (uninit nblk)) as (h1 & pb & h2 & -> & F1 & P & E2 & C & F2 & (b0 & Hb0 & E0) & Hn);
    [by rewrite lookup_insert_eq|lia|].
  assert (∀ q, q < nblk → h1 !! q = m_blocks B !! q) as G1.
  { intros q Hq. rewrite F1 by lia. by rewrite lookup_insert_ne by lia. }
  assert (∀ q, q < nblk → h2 !! q = m_blocks B !! q) as G2.
  { intros q Hq. rewrite F2 by lia. by rewrite lookup_insert_ne by lia. }
  cbn [mbind option_bind]. rewrite (G1 last Hlast), Hbl. cbn [mbind option_bind]. rewrite E2. cbn [mbind option_bind].
  rewrite (upd_block_some _ _ _ bl) by (by rewrite G2). cbn [mbind option_bind].
  set (h3 := <[last := set_next nblk bl]> h2). set (new := nblk :: seqZ (nblk + 1) (u - 1)).
  rewrite Z2Nat.id in * by lia. eexists _, new. split; [done|].
  split; [|split; [done|]; by repeat split].
  assert (∀ q, q < nblk → q ≠ last → h3 !! q = m_blocks B !! q) as G3.
  { intros q H1 H2. unfold h3. rewrite lookup_insert_ne by done. by apply G2. }
  assert (∀ q, q ∈ new → nblk <= q < nblk + u) as Hnew.
  { intros q [->|Hq]%elem_of_cons; [lia|]. apply elem_of_seqZ in Hq. lia. }
  assert (ps ++ pu ++ last :: new ++ free ≡ₚ new ++ ps ++ pu ++ last :: free) as Hperm.
  { change (last :: new ++ free) with ([last] ++ new ++ free). change (last :: free) with ([last] ++ free).
    rewrite !(assoc_L (++)). apply Permutation_app; [|done]. rewrite <- !(assoc_L (++)).
    rewrite (comm (++) new). by rewrite <- !(assoc_L (++)). }
  assert (last ∉ ps ++ pu) as Hnl.
  { rewrite (assoc_L (++)) in Hnd. apply NoDup_app in Hnd as (_ & Hd & _). intros Hin. apply (Hd _ Hin). left. }
  split; cbn [m_pLastBlock m_pFirstBlock m_pCurrBlock m_blocks m_fresh m_pBuffer m_iMSS m_iSize m_iCount
    m_iBytesCount with_size with_blocks]; fold last; try done.
  - rewrite Hperm. apply NoDup_app. split; [|split; [|done]].
    + constructor; [rewrite elem_of_seqZ; lia|apply NoDup_seqZ].
    + intros q Hq Hin. apply Hnew in Hq. apply Hp in Hin as [? _]. lia.
  - rewrite (assoc_L (++)). apply chain_app. cbn [head from_option]. unfold id. split.
    + eapply chain_ext; [|exact Hc1]. intros q b Hq Hb. exists b. rewrite G3; [done| |set_solver].
      apply Hp. set_solver.
    + split; [exists (set_next nblk bl); unfold h3; by rewrite lookup_insert_eq|].
      apply chain_app. split.
      * rewrite <- El. eapply chain_ext; [|exact C]. intros q b Hq Hb. exists b.
        unfold h3. rewrite lookup_insert_ne; [done|]. apply Hnew in Hq. lia.
      * eapply chain_ext; [|exact Hc3]. intros q b Hq Hb. exists b. rewrite G3; [done| |].
        -- apply Hp. set_solver.
        -- intros ->. rewrite (assoc_L (++)) in Hnd. apply NoDup_app in Hnd as (_ & _ & Hnd).
           apply NoDup_cons in Hnd as [? _]. done.
  - eapply stores_frame; [|exact Hs]. intros q Hq. apply G3; [apply Hp|]; set_solver.
  - eapply stores_frame; [|exact Hu]. intros q Hq. apply G3; [apply Hp|]; set_solver.
  - intros q Hq. rewrite Hperm in Hq. apply elem_of_app in Hq as [Hq|Hq].
    + split; [apply Hnew in Hq; lia|]. unfold h3. rewrite lookup_insert_ne by (apply Hnew in Hq; lia).
      rewrite Hmss. apply elem_of_cons in Hq as [->|Hq]; [exists b0; by rewrite E0|].
      destruct (Hn q Hq) as (b & Hb & E). exists b. by rewrite E.
    + destruct (Hp q Hq) as [Hlt (b & Hb & E)]. split; [lia|]. destruct (decide (q = last)) as [->|Hne].
      * exists (set_next nblk bl). unfold h3. rewrite lookup_insert_eq. split; [done|]. simplify_eq. done.
      * exists b. by rewrite G3.
  - rewrite Hperm, length_app, Nat2Z.inj_add, <- Hsz. unfold new. cbn [length]. rewrite length_seqZ. lia.
  - destruct (m_pBuffer B); [done|]. by exists u.
Qed.

(** Enough room for [size] packets: the loop ends. *)
Lemma make_room_run B ps pu free sent unsent size :
  buf_at B ps pu free sent unsent → m_iMSS B = mss → 0 <= size →
  ∃ B' free', make_room uninit size B = Some B' ∧ buf_at B' ps pu free' sent unsent ∧
    size <= Z.of_nat (length free') ∧
    m_pLastBlock B' = m_pLastBlock B ∧ m_iMSS B' = mss ∧ m_rate B' = m_rate B ∧
    m_tsLastOriginTime B' = m_tsLastOriginTime B ∧ m_iNextMsgNo B' = m_iNextMsgNo B ∧ m_iCount B' = m_iCount B.
Proof.
  intros H Hmss Hsize. unfold make_room.
  assert (Z.max 0 (size + m_iCount B - m_iSize B + 1) < Z.of_nat (S (Z.to_nat (size + m_iCount B - m_iSize B + 1))))
    as Hfuel by lia.
  revert Hfuel. generalize (S (Z.to_nat (size + m_iCount B - m_iSize B + 1))) as fuel. intros fuel.
  revert B free H Hmss. induction fuel as [|fuel IH]; intros B free H Hmss Hfuel; cbn [increase_loop].
  all: assert (m_iCount B = Z.of_nat (length ps + length pu)) as Hcnt
    by (rewrite (b_count _ _ _ _ _ _ H), length_app, (Forall2_length _ _ _ (b_sent _ _ _ _ _ _ H)),
          (Forall2_length _ _ _ (b_unsent _ _ _ _ _ _ H)); lia).
  all: pose proof (b_size _ _ _ _ _ _ H) as Hsz; rewrite !length_app in Hsz; cbn [length] in Hsz.
  - exfalso. lia.
  - destruct (Z.leb_spec (m_iSize B) (size + m_iCount B)).
    + destruct (increase_run _ _ _ _ _ _ H Hmss) as (B1 & new & -> & H1 & Hne & El & Em & Er & Et & En & Ec).
      cbn [mbind option_bind]. destruct (IH B1 (new ++ free) H1 Em) as (B2 & free2 & E & H2 & L & Q1 & Q2 & Q3 & Q4 & Q5 & Q6).
      { pose proof (b_size _ _ _ _ _ _ H1) as Hsz1. rewrite !length_app in Hsz1. cbn [length] in Hsz1.
        rewrite length_app in Hsz1. destruct new; [done|]. cbn [length] in Hsz1. lia. }
      exists B2, free2. split; [done|]. split; [done|]. split; [done|]. by split_and!; (congruence || etrans).
    + exists B, free. split; [done|]. split; [done|]. split; [lia|done].
Qed.
End making.

(** ** Adding a message *)

(** The [i]-th part of a message. *)
Definition part (mss : Z) (data : bytes) (i : Z) : bytes :=
  take (Z.to_nat (Z.min (len data - i * mss) mss)) (drop (Z.to_nat (i * mss)) data).
(** The packets of a message from the [i]-th of [size] on; [bits] is its number with
    the order flag. *)
Fixpoint msg_pkts (n : nat) (i size mss next inord : Z) (data : bytes) (time ttl src seq : Z) : list spkt :=
  match n with
  | O => []
  | S n' =>
      mkPkt (part mss data i) (msgno_bits next inord i size) seq time 0 src ttl
        :: msg_pkts n' (i + 1) size mss next inord data time ttl (if src =? 0 then time else src) (incseq seq)
  end.

Lemma len_part mss data i : 0 <= i → 0 < mss → i * mss <= len data → len (part mss data i) = Z.min (len data - i * mss) mss.
Proof. unfold part, len. intros Hi Hm Hl. rewrite length_take, length_drop. nia. Qed.

Lemma fill_part mss piece d : len piece = mss → len d <= mss → len (fill piece d) = mss ∧ take (length d) (fill piece d) = d.
Proof.
  unfold fill, len. intros Hp Hd. split; [rewrite length_app, length_drop; lia|].
  by rewrite take_app_length.
Qed.

Lemma store_blocks_run n h l s' i size mss next inord data time ttl src seq :
  length l = n → NoDup l → chain h l s' → 0 < mss → 0 <= i →
  (∀ p, p ∈ l → ∃ b, h !! p = Some b ∧ len (m_pcData b) = mss) →
  (∀ j, i <= j < i + Z.of_nat n → j * mss <= len data) →
  ∃ h', store_blocks n h (default s' (head l)) i size mss next inord data time ttl src seq
      = Some (h', s', (if (src =? 0) && negb (n =? 0)%nat then time else src), Nat.iter n incseq seq) ∧
    Forall2 (stores h') l (msg_pkts n i size mss next inord data time ttl src seq) ∧
    (∀ q, q ∉ l → h' !! q = h !! q) ∧
    (∀ q b, h !! q = Some b → ∃ b', h' !! q = Some b' ∧ m_pNext b' = m_pNext b ∧ len (m_pcData b') = len (m_pcData b)).
Proof.
  revert h l i src seq. induction n as [|n IH]; intros h l i src seq Hl Hnd Hc Hm Hi Hp Hj.
  - destruct l; [|done]. exists h. rewrite andb_false_r. split; [done|]. split; [constructor|]. split; [done|].
    intros q b Hb. by exists b.
  - destruct l as [|p l]; [done|]. injection Hl as Hl. apply NoDup_cons in Hnd as [Hpl Hnd].
    destruct (Hp p ltac:(left)) as (b & Hb & Eb). destruct Hc as [(b0 & Hb0 & En) Hc].
    rewrite Hb in Hb0. injection Hb0 as <-.
    cbn [store_blocks head from_option msg_pkts]. unfold id. rewrite Hb. cbn [mbind option_bind].
    fold (part mss data i).
    pose proof (len_part mss data i Hi Hm ltac:(apply Hj; lia)) as El.
    set (b1 := mkBlock (fill (m_pcData b) (part mss data i)) (Z.min (len data - i * mss) mss)
      (msgno_bits next inord i size) seq time 0 src ttl (m_pNext b)).
    destruct (fill_part mss (m_pcData b) (part mss data i)) as [Ef1 Ef2]; [done|lia|].
    assert (content b1 = mkPkt (part mss data i) (msgno_bits next inord i size) seq time 0 src ttl) as Ec.
    { unfold content, b1. cbn. f_equal. rewrite <- El. unfold len at 1. by rewrite Nat2Z.id. }
    destruct (IH (<[p := b1]> h) l (i + 1) (if src =? 0 then time else src) (incseq seq))
      as (h' & E & F & G1 & G2); [done|done|by apply chain_frame|done|lia| | |].
    { intros q Hq. destruct (Hp q ltac:(by right)) as (bq & Hbq & Eq). exists bq.
      by rewrite lookup_insert_ne by set_solver. }
    { intros j Hjj. apply Hj. lia. }
    rewrite En, E. exists h'. split; [|split; [|split]].
    + rewrite Nat.iter_succ_r. do 3 f_equal. destruct (Z.eqb_spec src 0) as [->|Hne]; [|by rewrite (proj2 (Z.eqb_neq src 0))].
      simpl. by case_match.
    + constructor; [|exact F]. exists b1. rewrite G1 by done. rewrite lookup_insert_eq. split; [done|]. split; [done|].
      unfold b1. cbn [m_iLength q_data]. done.
    + intros q Hq. rewrite G1 by set_solver. by rewrite lookup_insert_ne by set_solver.
    + intros q bq Hbq. destruct (decide (p = q)) as [<-|Hne].
      * destruct (G2 p b1) as (b' & ? & E1 & E2); [by rewrite lookup_insert_eq|]. exists b'.
        rewrite Hb in Hbq. injection Hbq as <-. split; [done|]. split; [by rewrite E1|].
        rewrite E2. unfold b1. cbn [m_pcData]. by rewrite Ef1.
      * apply G2. by rewrite lookup_insert_ne.
Qed.

Lemma blocks_for_spec n mss :
  0 <= n → 0 < mss → 0 <= blocks_for n mss ∧ (∀ j, 0 <= j < blocks_for n mss → j * mss < n) ∧ n <= blocks_for n mss * mss.
Proof.
  intros Hn Hm. unfold blocks_for. rewrite Z.quot_div_nonneg, Z.rem_mod_nonneg by lia.
  pose proof (Z.div_mod n mss ltac:(lia)). pose proof (Z.mod_pos_bound n mss Hm).
  destruct (Z.eqb_spec (n mod mss) 0); split_and!; try nia.
Qed.

(** The clock moves between two messages. *)
Lemma updateInputRate_run r time pkts byts :
  0 <= m_tsInRateStartTime r < time → time < 2 ^ 64 →
  ∃ r', updateInputRate r time pkts byts = Some r' ∧ 0 <= m_tsInRateStartTime r' <= time.
Proof.
  intros H1 H2. unfold updateInputRate. case_match; [exists r; split; [done|lia]|].
  case_match; [eexists; split; [done|simpl; lia]|].
  assert (u64 (time - m_tsInRateStartTime r) = time - m_tsInRateStartTime r) as -> by (unfold u64; rewrite Z.mod_small; lia).
  rewrite (proj2 (Z.eqb_neq (time - m_tsInRateStartTime r) 0)) by lia.
  case_match; eexists; (split; [done|simpl; lia]).
Qed.

Lemma length_msg_pkts n i size mss next inord data time ttl src seq :
  length (msg_pkts n i size mss next inord data time ttl src seq) = n.
Proof. revert i src seq. induction n as [|n IH]; intros i src seq; cbn [msg_pkts length]; auto. Qed.
(** The parts are the message. *)
Lemma msg_pkts_concat n i size mss next inord data time ttl src seq :
  0 < mss → 0 <= i → i + Z.of_nat n = blocks_for (len data) mss →
  concat (q_data <$> msg_pkts n i size mss next inord data time ttl src seq) = drop (Z.to_nat (i * mss)) data.
Proof.
  intros Hm. destruct (blocks_for_spec (len data) mss ltac:(unfold len; lia) Hm) as (_ & Hlt & Hge).
  revert i src seq. induction n as [|n IH]; intros i src seq Hi Hn; cbn [msg_pkts fmap list_fmap concat q_data].
  - symmetry. apply drop_ge. unfold len in *. nia.
  - rewrite IH by lia. specialize (Hlt i ltac:(lia)). unfold part.
    destruct (Z.leb_spec (len data - i * mss) mss).
    + rewrite Z.min_l by done. rewrite (drop_ge data (Z.to_nat ((i + 1) * mss))) by (unfold len in *; nia).
      rewrite app_nil_r. apply take_ge. rewrite length_drop. unfold len in *. nia.
    + rewrite Z.min_r by lia. replace (Z.to_nat ((i + 1) * mss)) with (Z.to_nat (i * mss) + Z.to_nat mss)%nat by nia.
      rewrite <- drop_drop. apply take_drop.
Qed.
Lemma pkt_bytes_concat l : pkt_bytes l = len (concat (q_data <$> l)).
Proof.
  induction l as [|q l IH]; [done|]. cbn [pkt_bytes foldr fmap list_fmap concat]. fold (pkt_bytes l).
  unfold len in *. rewrite length_app. fold (q_data <$> l). lia.
Qed.

(** The message number, the packets and the control data after a message. *)
Definition next_msgno (B : CSndBuffer) (c : SRT_MSGCTRL) : Z :=
  if msgno c =? SRT_MSGNO_NONE then m_iNextMsgNo B else msgno c.
Definition message (B : CSndBuffer) (data : bytes) (c : SRT_MSGCTRL) (time : Z) : list spkt :=
  let size := blocks_for (len data) (m_iMSS B) in
  msg_pkts (Z.to_nat size) 0 size (m_iMSS B) (next_msgno B c)
    (if inorder c then MSGNO_PACKET_INORDER_mask else 0) data time (msgttl c) (srctime c) (pktseq c).

Lemma addBuffer_run uninit B sent unsent data c time :
  buf_holds B sent unsent → (∀ p, len (m_pcData (uninit p)) = m_iMSS B) →
  0 <= m_tsInRateStartTime (m_rate B) < time → time < 2 ^ 64 →
  ∃ B' c', addBuffer uninit B data c time = Some (B', c') ∧
    buf_holds B' sent (unsent ++ message B data c time) ∧
    pktseq c' = Nat.iter (Z.to_nat (blocks_for (len data) (m_iMSS B))) incseq (pktseq c) ∧
    msgno c' = next_msgno B c ∧ m_iNextMsgNo B' = MsgNo_next (next_msgno B c) ∧ m_iMSS B' = m_iMSS B ∧
    m_tsLastOriginTime B' = time ∧ 0 <= m_tsInRateStartTime (m_rate B') <= time.
Proof.
  intros (ps & pu & free & H) Hpiece Ht1 Ht2. unfold addBuffer. set (mss := m_iMSS B) in *.
  pose proof (b_mss _ _ _ _ _ _ H) as Hm. fold mss in Hm.
  destruct (blocks_for_spec (len data) mss ltac:(unfold len; lia) Hm) as (Hs0 & Hslt & _).
  set (size := blocks_for (len data) mss) in *.
  destruct (make_room_run uninit mss Hpiece B ps pu free sent unsent size H eq_refl Hs0)
    as (B1 & free1 & -> & H1 & Hroom & El & Em & Er & Et & En & Ec). cbn [mbind option_bind].
  fold (next_msgno B1 c). assert (next_msgno B1 c = next_msgno B c) as Enext by (unfold next_msgno; by rewrite En).
  rewrite Enext, Em. set (ring := m_pLastBlock B1 :: free1).
  set (n := Z.to_nat size). assert (n <= length free1)%nat as Hn by lia.
  destruct (lookup_lt_is_Some_2 ring n) as [s' Hs']; [unfold ring; simpl; lia|].
  pose proof (take_drop_middle ring n s' Hs') as Ering. set (L := take n ring) in *. set (rest := drop (S n) ring) in *.
  assert (length L = n) as HL by (unfold L; rewrite length_take; unfold ring; simpl; lia).
  destruct H1 as [Hnd Hc Hf Hcu Hs Hu Hp Hsz Hunit _ Hcnt Hby]. fold ring in Hnd, Hc, Hp, Hsz.
  rewrite <- Ering in Hnd, Hc, Hp, Hsz.
  assert (m_pLastBlock B1 = default s' (head L)) as Elast.
  { assert (head ring = head (L ++ s' :: rest)) as E by (by rewrite Ering). unfold ring in E. cbn [head] in E.
    destruct L; cbn in *; congruence. }
  pose proof Hnd as Hnd2. rewrite (assoc_L (++)) in Hnd2. apply NoDup_app in Hnd2 as (Hnd0 & Hnd1 & Hnd2).
  pose proof Hc as Hc2. rewrite (assoc_L (++)) in Hc2. apply chain_app in Hc2 as [_ Hc2].
  apply chain_app in Hc2 as [HcL _]. cbn [head from_option] in HcL. unfold id in HcL.
  destruct (store_blocks_run n (m_blocks B1) L s' 0 size mss (next_msgno B c)
    (if inorder c then MSGNO_PACKET_INORDER_mask else 0) data time (msgttl c) (srctime c) (pktseq c))
    as (h' & E & F & G1 & G2); [done|by apply NoDup_app in Hnd2 as [? _]|done|done|lia| | |].
  { intros p Hpin. rewrite <- Em. apply Hp. apply elem_of_app. right. apply elem_of_app. right. apply elem_of_app. by left. }
  { intros j Hj. specialize (Hslt j ltac:(lia)). lia. }
  rewrite Elast, E. cbn [mbind option_bind m_pFirstBlock m_pCurrBlock with_pointers with_blocks with_counts m_rate m_fresh
    m_iCount m_iBytesCount]. rewrite Er.
  destruct (updateInputRate_run (m_rate B) time size (len data) Ht1 Ht2) as (r' & -> & Hr'). cbn [mbind option_bind].
  eexists _, _. split; [done|].
  split; [|split; [done|split; [done|split; [done|split; [exact Em|split; [done|exact Hr']]]]]].
  exists ps, (pu ++ L), rest.
  assert (ps ++ (pu ++ L) ++ s' :: rest = ps ++ pu ++ L ++ s' :: rest) as Eapp by (by rewrite <- (assoc_L (++) pu)).
  assert (∀ q, q ∈ ps ++ pu → q ∉ L) as HdL.
  { intros q Hq HqL. apply (Hnd1 q Hq). apply elem_of_app. by left. }
  split; cbn [m_pLastBlock m_pFirstBlock m_pCurrBlock m_blocks m_fresh m_pBuffer m_iMSS m_iSize m_iCount
    m_iBytesCount with_size with_blocks with_msgno with_rate with_counts with_pointers].
  - by rewrite Eapp.
  - rewrite Eapp. eapply chain_ext; [|exact Hc]. intros q b Hq Hb.
    destruct (G2 q b Hb) as (b' & ? & ? & _). by exists b'.
  - rewrite Hf, Elast, (assoc_L (++)). destruct (ps ++ pu); [|done]. cbn [app head from_option]. unfold id.
    by destruct L.
  - rewrite Hcu, Elast. destruct pu; [|done]. by destruct L.
  - eapply stores_frame; [|exact Hs]. intros q Hq. apply G1, HdL. set_solver.
  - apply Forall2_app; [|exact F]. eapply stores_frame; [|exact Hu]. intros q Hq. apply G1, HdL. set_solver.
  - rewrite Eapp. intros q Hq. destruct (Hp q Hq) as [? (b & Hb & Eb)]. split; [done|].
    destruct (G2 q b Hb) as (b' & ? & _ & E'). exists b'. split; [done|]. by rewrite E'.
  - by rewrite Eapp.
  - done.
  - by rewrite Em.
  - unfold message. fold mss size n. rewrite Ec, (b_count _ _ _ _ _ _ H).
    rewrite !length_app, length_msg_pkts. lia.
  - rewrite Hby. unfold message. fold mss size n. rewrite !pkt_bytes_app, (pkt_bytes_concat (msg_pkts _ _ _ _ _ _ _ _ _ _ _)).
    rewrite (msg_pkts_concat n) by (done || lia). rewrite drop_0. lia.
Qed.

(** ** Reading *)

(** The packet that carries the contents of a block. *)
Definition pkt_packet (q : spkt) : packet :=
  {| pk_data := q_data q; pk_seqno := q_seq q; pk_msgno := q_bits q;
     pk_time := if negb (q_src q =? 0) then q_src q else q_origin q |}.
Lemma block_packet_content b : block_packet b = pkt_packet (content b).
Proof. done. Qed.
Definition pkt_set_bits (v : Z) (q : spkt) : spkt :=
  mkPkt (q_data q) v (q_seq q) (q_origin q) (q_rexmit q) (q_src q) (q_ttl q).
Definition pkt_set_rexmit (v : Z) (q : spkt) : spkt :=
  mkPkt (q_data q) (q_bits q) (q_seq q) (q_origin q) v (q_src q) (q_ttl q).
(** The packet with the flags of the key. *)
Definition with_key (kflgs : Z) (q : spkt) : spkt :=
  if kflgs =? -1 then q else pkt_set_bits (Z.lor (q_bits q) (MSGNO_ENCKEYSPEC_wrap kflgs)) q.

Lemma last_not_in B ps pu free sent unsent :
  buf_at B ps pu free sent unsent → m_pLastBlock B ∉ ps ++ pu.
Proof.
  intros H Hin. pose proof (b_nodup _ _ _ _ _ _ H) as Hnd. rewrite (assoc_L (++)) in Hnd.
  apply NoDup_app in Hnd as (_ & Hd & _). apply (Hd _ Hin). left.
Qed.

Lemma readData_blocks B ps p pu free sent q unsent kflgs :
  buf_at B ps (p :: pu) free sent (q :: unsent) →
  m_pCurrBlock B = p ∧
  ∃ B', readData B kflgs
      = Some (if kflgs =? -1 then 0 else len (q_data q), Some (pkt_packet (with_key kflgs q)), B') ∧
    buf_at B' (ps ++ [p]) pu free (sent ++ [with_key kflgs q]) unsent ∧ m_iMSS B' = m_iMSS B ∧
    m_rate B' = m_rate B ∧ m_tsLastOriginTime B' = m_tsLastOriginTime B ∧ m_iNextMsgNo B' = m_iNextMsgNo B.
Proof.
  intros H. pose proof (last_not_in _ _ _ _ _ _ H) as Hl.
  destruct (H) as [Hnd Hc Hf Hcu Hs Hu Hp Hsz Hunit Hm Hcnt Hby]. apply Forall2_cons in Hu as [Hq Hu].
  cbn [head from_option] in Hcu. unfold id in Hcu. split; [done|]. unfold readData. rewrite Hcu, (proj2 (Z.eqb_neq p _)) by set_solver.
  destruct Hq as (b & Hb & Ec & El). rewrite Hb. cbn [mbind option_bind].
  set (b' := if kflgs =? -1 then b else set_bitset (Z.lor (m_iMsgNoBitset b) (MSGNO_ENCKEYSPEC_wrap kflgs)) b).
  assert (content b' = with_key kflgs q) as Ec'.
  { unfold b', with_key. subst q. by case_match. }
  assert (m_pNext b' = m_pNext b ∧ m_iLength b' = m_iLength b ∧ m_pcData b' = m_pcData b) as (En & El' & Ed)
    by (unfold b'; by case_match).
  eexists. rewrite block_packet_content, Ec', El. split; [done|]. split; [|done].
  assert ((ps ++ [p]) ++ pu ++ m_pLastBlock B :: free = ps ++ (p :: pu) ++ m_pLastBlock B :: free) as Er
    by (by rewrite <- (assoc_L (++))).
  assert (p ∉ ps ++ pu) as Hnp.
  { rewrite (assoc_L (++)) in Hnd. apply NoDup_app in Hnd as (Hnd & _).
    apply NoDup_app in Hnd as (_ & H1 & H2). apply NoDup_cons in H2 as [H2 _].
    intros [?|?]%elem_of_app; [|done]. apply (H1 p); [done|left]. }
  pose proof Hc as Hc2. apply chain_app in Hc2 as [_ [(b2 & Hb2 & En2) _]]. rewrite Hb in Hb2. injection Hb2 as <-.
  assert (default (m_pFirstBlock B) (head (pu ++ m_pLastBlock B :: free)) = default (m_pLastBlock B) (head pu)) as Eh
    by (by destruct pu).
  split; cbn [m_pLastBlock m_pFirstBlock m_pCurrBlock m_blocks m_fresh m_pBuffer m_iMSS m_iSize m_iCount
    m_iBytesCount with_blocks with_pointers].
  + by rewrite Er.
  + rewrite Er. by eapply chain_update.
  + rewrite Hf. by rewrite <- (assoc_L (++)).
  + rewrite En, En2. exact Eh.
  + apply Forall2_app.
    * eapply stores_frame; [|exact Hs]. intros r Hr. rewrite lookup_insert_ne; [done|]. set_solver.
    * constructor; [|constructor]. exists b'. rewrite lookup_insert_eq, Ec'. split; [done|]. split; [done|].
      rewrite El', El. unfold with_key. by case_match.
  + eapply stores_frame; [|exact Hu]. intros r Hr. rewrite lookup_insert_ne; [done|]. set_solver.
  + rewrite Er. intros r Hr. destruct (Hp r Hr) as [? (br & Hbr & Ebr)]. split; [done|].
    destruct (decide (p = r)) as [<-|Hne]; [exists b'; rewrite lookup_insert_eq|exists br; by rewrite lookup_insert_ne].
    split; [done|]. rewrite Ed. rewrite Hb in Hbr. by injection Hbr as <-.
  + by rewrite Er.
  + done.
  + done.
  + rewrite Hcnt, !length_app. cbn [length]. lia.
  + rewrite Hby, !pkt_bytes_app. cbn [pkt_bytes foldr]. fold (pkt_bytes unsent).
    assert (q_data (with_key kflgs q) = q_data q) as -> by (unfold with_key; by case_match). lia.
Qed.

Lemma readData_run B sent unsent kflgs :
  buf_holds B sent unsent →
  match unsent with
  | [] => readData B kflgs = Some (0, None, B)
  | q :: rest => ∃ B', readData B kflgs
      = Some (if kflgs =? -1 then 0 else len (q_data q), Some (pkt_packet (with_key kflgs q)), B') ∧
      buf_holds B' (sent ++ [with_key kflgs q]) rest ∧ m_iMSS B' = m_iMSS B ∧
      m_rate B' = m_rate B ∧ m_tsLastOriginTime B' = m_tsLastOriginTime B ∧ m_iNextMsgNo B' = m_iNextMsgNo B
  end.
Proof.
  intros (ps & pu & free & H). pose proof (b_unsent _ _ _ _ _ _ H) as Hu. destruct Hu as [|p q pu unsent Hq Hu].
  - unfold readData. rewrite (b_curr _ _ _ _ _ _ H). cbn [head from_option]. unfold id. by rewrite Z.eqb_refl.
  - destruct (readData_blocks _ _ _ _ _ _ _ _ kflgs H) as (_ & B' & E & H' & Hm). exists B'. split; [done|].
    split; [by eexists _, _, _|done].
Qed.

(** Following the links. *)
Lemma walk_run h l stop r nxt n :
  chain h (l ++ stop :: r) nxt → stop ∉ l →
  walk n h (default stop (head l)) stop = Some (default stop (l !! n)).
Proof.
  revert l. induction n as [|n IH]; intros l Hc Hs; [by destruct l|]. cbn [walk].
  destruct l as [|p l]; cbn [head from_option]; unfold id; [by rewrite Z.eqb_refl|].
  rewrite (proj2 (Z.eqb_neq p stop)) by set_solver. destruct Hc as [(b & Hb & En) Hc].
  rewrite Hb. cbn [mbind option_bind]. rewrite En.
  assert (default nxt (head (l ++ stop :: r)) = default stop (head l)) as -> by (by destruct l).
  rewrite IH by (done || set_solver). done.
Qed.
Lemma walk_on_run h l nxt n p :
  chain h l nxt → l !! n = Some p → walk_on n h (default nxt (head l)) = Some p.
Proof.
  revert l. induction n as [|n IH]; intros l Hc Hn; (destruct l as [|q l]; [done|]).
  - cbn in Hn. injection Hn as ->. done.
  - cbn [walk_on head from_option]. unfold id. destruct Hc as [(b & Hb & En) Hc]. rewrite Hb. cbn [mbind option_bind].
    rewrite En. by apply IH.
Qed.

Lemma stores_all B ps pu free sent unsent :
  buf_at B ps pu free sent unsent → Forall2 (stores (m_blocks B)) (ps ++ pu) (sent ++ unsent).
Proof. intros H. apply Forall2_app; apply H. Qed.

Lemma buf_lookup B ps pu free sent unsent i q :
  buf_at B ps pu free sent unsent → (sent ++ unsent) !! i = Some q →
  ∃ p, (ps ++ pu) !! i = Some p ∧ stores (m_blocks B) p q.
Proof. intros H Hq. by eapply Forall2_lookup_r in Hq; [|by eapply stores_all]. Qed.

Lemma getPacketRexmitTime_run B sent unsent offset q :
  buf_holds B sent unsent → 0 <= offset → (sent ++ unsent) !! Z.to_nat offset = Some q →
  getPacketRexmitTime B offset = Some (q_rexmit q).
Proof.
  intros (ps & pu & free & H) Ho Hq. destruct (buf_lookup _ _ _ _ _ _ _ _ H Hq) as (p & Hp & b & Hb & Ec & _).
  unfold getPacketRexmitTime. destruct (H) as [_ Hc Hf _ _ _ _ _ _ _ _ _].
  rewrite (assoc_L (++)) in Hc. pose proof Hc as Hc2. apply chain_app in Hc2 as [Hc2 _].
  cbn [head from_option] in Hc2. unfold id in Hc2.
  rewrite Hf, (walk_on_run _ _ _ _ _ Hc2 Hp). cbn [mbind option_bind]. rewrite Hb. cbn [mbind option_bind]. by rewrite <- Ec.
Qed.
Lemma getMsgNoAt_run B sent unsent offset :
  buf_holds B sent unsent → 0 <= offset →
  getMsgNoAt B offset = Some (match (sent ++ unsent) !! Z.to_nat offset with
    | Some q => Z.land (q_bits q) MSGNO_SEQ_mask | None => SRT_MSGNO_CONTROL end).
Proof.
  intros (ps & pu & free & H) Ho. unfold getMsgNoAt. rewrite (b_count _ _ _ _ _ _ H).
  destruct ((sent ++ unsent) !! Z.to_nat offset) as [q|] eqn:Hq.
  - pose proof (lookup_lt_Some _ _ _ Hq). rewrite (proj2 (Z.leb_gt _ _)) by lia.
    destruct (buf_lookup _ _ _ _ _ _ _ _ H Hq) as (p & Hp & b & Hb & Ec & _).
    destruct (H) as [_ Hc Hf _ _ _ _ _ _ _ _ _]. rewrite (assoc_L (++)) in Hc. apply chain_app in Hc as [Hc2 _].
    cbn [head from_option] in Hc2. unfold id in Hc2.
    rewrite Hf, (walk_on_run _ _ _ _ _ Hc2 Hp). cbn [mbind option_bind]. rewrite Hb. cbn [mbind option_bind]. by rewrite <- Ec.
  - apply lookup_ge_None in Hq. by rewrite (proj2 (Z.leb_le _ _)) by lia.
Qed.

(** ** The current block moves *)

Lemma head_drop_lookup {A} (l : list A) k : head (drop k l) = l !! k.
Proof. revert l. induction k as [|k IH]; intros [|x l]; cbn; auto. Qed.
Lemma lookup_prefix {A} (l : list A) k x : NoDup l → l !! k = Some x → ∀ j, x ∈ take j l ↔ (k < j)%nat.
Proof.
  intros Hnd Hk j. split.
  - intros (i & Hi)%list_elem_of_lookup. apply lookup_take_Some in Hi as [Hi Hij].
    by rewrite (NoDup_lookup _ _ _ _ Hnd Hk Hi).
  - intros Hj. apply list_elem_of_lookup. exists k. by rewrite lookup_take_lt.
Qed.

(** The current block is the [k]-th. *)
Lemma buf_split B ps pu free sent unsent k :
  buf_at B ps pu free sent unsent → (k <= length (ps ++ pu))%nat →
  buf_at (with_pointers (m_pFirstBlock B) (default (m_pLastBlock B) ((ps ++ pu) !! k)) (m_pLastBlock B) B)
    (take k (ps ++ pu)) (drop k (ps ++ pu)) free (take k (sent ++ unsent)) (drop k (sent ++ unsent)).
Proof.
  intros H Hk. pose proof (stores_all _ _ _ _ _ _ H) as Hall.
  assert (∀ r, take k (ps ++ pu) ++ drop k (ps ++ pu) ++ r = ps ++ pu ++ r) as Er
    by (intros r; by rewrite (assoc_L (++)), take_drop, <- (assoc_L (++))).
  destruct H as [Hnd Hc Hf Hcu Hs Hu Hp Hsz Hunit Hm Hcnt Hby].
  split; cbn [m_pLastBlock m_pFirstBlock m_pCurrBlock m_blocks m_fresh m_pBuffer m_iMSS m_iSize m_iCount
    m_iBytesCount with_pointers]; rewrite ?Er, ?take_drop; try done.
  - by rewrite head_drop_lookup.
  - by apply Forall2_take.
  - by apply Forall2_drop.
Qed.

(** How many of the first packets belong to the message [m]. *)
Fixpoint same_msg (m : Z) (l : list spkt) : nat :=
  match l with
  | [] => O
  | q :: l => if m =? Z.land (q_bits q) MSGNO_SEQ_mask then S (same_msg m l) else O
  end.
Lemma same_msg_length m l : (same_msg m l <= length l)%nat.
Proof. induction l as [|q l IH]; cbn [same_msg length]; [lia|]. case_match; lia. Qed.

Lemma skip_message_run h l qs last r nxt fuel curr m move n :
  chain h (l ++ last :: r) nxt → last ∉ l → Forall2 (stores h) l qs → (length l < fuel)%nat →
  (move = true → curr = default last (head l)) →
  skip_message fuel h (default last (head l)) last curr m move n
  = Some (n + Z.of_nat (same_msg m qs),
      if move || bool_decide (curr ∈ take (same_msg m qs) l) then default last (l !! same_msg m qs) else curr).
Proof.
  intros Hc Hl H. revert fuel curr move n Hc Hl. induction H as [|p q l qs Hq H IH]; intros fuel curr move n Hc Hl Hf Hmv;
    (destruct fuel as [|fuel]; [simpl in Hf; lia|]); cbn [skip_message head from_option same_msg]; unfold id.
  - rewrite Z.eqb_refl. cbn [take lookup]. rewrite Z.add_0_r. destruct move; [by rewrite Hmv|].
    rewrite bool_decide_false; [done|]. by apply not_elem_of_nil.
  - rewrite (proj2 (Z.eqb_neq p last)) by set_solver. destruct Hc as [(b & Hb & En) Hc].
    destruct Hq as (b' & Hb' & Ec & _). rewrite Hb in Hb'. injection Hb' as <-. rewrite Hb. cbn [mbind option_bind].
    assert (getMsgSeq b = Z.land (q_bits q) MSGNO_SEQ_mask) as -> by (by rewrite <- Ec).
    assert (m_pNext b = default last (head l)) as En' by (rewrite En; by destruct l).
    destruct (m =? Z.land (q_bits q) MSGNO_SEQ_mask); rewrite ?En'.
    + rewrite IH; [|done|set_solver|simpl in Hf; lia|by intros ->].
      f_equal. f_equal; [lia|]. cbn [take lookup list_lookup]. destruct (move || (p =? curr)) eqn:E.
      * replace (move || bool_decide (curr ∈ p :: take (same_msg m qs) l)) with true; [done|].
        apply orb_true_iff in E as [->|E]; [done|]. apply Z.eqb_eq in E as ->. rewrite bool_decide_true by left.
        by rewrite orb_true_r.
      * apply orb_false_iff in E as [-> E]. apply Z.eqb_neq in E. cbn [orb].
        erewrite (bool_decide_ext (curr ∈ p :: _)); [done|]. rewrite elem_of_cons. naive_solver.
    + rewrite Z.add_0_r. destruct move; [by rewrite Hmv|]. rewrite bool_decide_false; [done|]. by apply not_elem_of_nil.
Qed.

Lemma pkt_bytes_insert l i q q' :
  l !! i = Some q → len (q_data q') = len (q_data q) → pkt_bytes (<[i := q']> l) = pkt_bytes l.
Proof.
  revert i. induction l as [|x l IH]; intros [|i] Hi E; try done; cbn [insert list_insert pkt_bytes foldr lookup list_lookup] in *;
    fold (pkt_bytes l) in *.
  - injection Hi as ->. by rewrite E.
  - f_equal. by apply (IH i).
Qed.

(** A block is rewritten: the same link, a piece of the same size, the same length. *)
Lemma buf_replace B ps pu free sent unsent i p b b' q :
  buf_at B ps pu free sent unsent → (ps ++ pu) !! i = Some p → m_blocks B !! p = Some b →
  (sent ++ unsent) !! i = Some q → stores (m_blocks B) p q →
  m_pNext b' = m_pNext b → len (m_pcData b') = len (m_pcData b) → m_iLength b' = m_iLength b →
  let qs := <[i := content b']> (sent ++ unsent) in
  buf_at (with_blocks (<[p := b']> (m_blocks B)) (m_fresh B) B) ps pu free
    (take (length sent) qs) (drop (length sent) qs).
Proof.
  intros H Hpi Hb Hqi (b0 & Hb0 & Ec & El) En Ed Elen qs. rewrite Hb in Hb0. injection Hb0 as <-.
  pose proof (stores_all _ _ _ _ _ _ H) as Hall.
  pose proof (Forall2_length _ _ _ (b_sent _ _ _ _ _ _ H)) as Hls.
  assert (len (q_data (content b')) = len (q_data q)) as Eq
    by (rewrite <- Ec; cbn; unfold len in *; rewrite !length_take; lia).
  assert (NoDup (ps ++ pu)) as Hnd2.
  { pose proof (b_nodup _ _ _ _ _ _ H) as Hnd. rewrite (assoc_L (++)) in Hnd. by apply NoDup_app in Hnd as [? _]. }
  assert (Forall2 (stores (<[p := b']> (m_blocks B))) (ps ++ pu) qs) as Hall'.
  { apply Forall2_same_length_lookup. pose proof (Forall2_length _ _ _ Hall) as Hlen. split.
    - unfold qs. by rewrite length_insert.
    - intros j x y Hx Hy. destruct (decide (i = j)) as [<-|Hne].
      + unfold qs in Hy. rewrite list_lookup_insert_eq in Hy by (by eapply lookup_lt_Some). injection Hy as <-.
        rewrite Hpi in Hx. injection Hx as <-. exists b'. rewrite lookup_insert_eq. split; [done|]. split; [done|].
        by rewrite Eq, <- El.
      + unfold qs in Hy. rewrite list_lookup_insert_ne in Hy by done.
        destruct (Forall2_lookup_lr _ _ _ _ _ _ Hall Hx Hy) as (bx & Hbx & ?). exists bx.
        rewrite lookup_insert_ne; [done|]. intros <-. by destruct (NoDup_lookup _ _ _ _ Hnd2 Hpi Hx). }
  assert (pkt_bytes qs = pkt_bytes (sent ++ unsent)) as Eby.
  { by eapply pkt_bytes_insert. }
  destruct H as [Hnd Hc Hf Hcu Hs Hu Hp Hsz Hunit Hm Hcnt Hby].
  split; cbn [m_pLastBlock m_pFirstBlock m_pCurrBlock m_blocks m_fresh m_pBuffer m_iMSS m_iSize m_iCount
    m_iBytesCount with_blocks]; try done.
  - by eapply chain_update.
  - rewrite <- Hls. rewrite <- (take_app_length ps pu) at 1. by apply Forall2_take.
  - rewrite <- Hls. rewrite <- (drop_app_length ps pu) at 1. by apply Forall2_drop.
  - intros r Hr. destruct (Hp r Hr) as [? (br & Hbr & Ebr)]. split; [done|].
    destruct (decide (p = r)) as [<-|Hne]; [exists b'; rewrite lookup_insert_eq|exists br; by rewrite lookup_insert_ne].
    split; [done|]. rewrite Ed. rewrite Hb in Hbr. by injection Hbr as <-.
  - rewrite take_drop. unfold qs. by rewrite length_insert.
  - by rewrite take_drop, Eby.
Qed.

(** ** Reading for a retransmission *)

(** Its time is over. *)
Definition expired (q : spkt) (now : Z) : bool :=
  (0 <=? q_ttl q) && (q_ttl q <? Z.quot (now - q_origin q) 1000).

(** The address of the [n]-th block moves behind the range when the range has it. *)
Lemma passed_curr (l : list Z) last n i e :
  NoDup l → last ∉ l → (n <= length l)%nat → (S i + e <= length l)%nat →
  let k := if decide (i < n < i + S e)%nat then (i + S e)%nat else n in
  (if bool_decide (default last (l !! n) ∈ take e (drop (S i) l)) then default last (drop (S i) l !! e)
   else default last (l !! n)) = default last (l !! k) ∧ (k <= length l)%nat.
Proof.
  intros Hnd Hl Hn Hi k.
  assert (default last (l !! n) ∈ take e (drop (S i) l) ↔ (i < n < i + S e)%nat) as Hin.
  { destruct (l !! n) as [c|] eqn:Hc; cbn [from_option]; unfold id; split.
    - intros (j & Hj)%list_elem_of_lookup. apply lookup_take_Some in Hj as [Hj Hje]. rewrite lookup_drop in Hj.
      rewrite (NoDup_lookup _ _ _ _ Hnd Hc Hj). lia.
    - intros ?. apply list_elem_of_lookup. exists (n - S i)%nat. rewrite lookup_take_lt, lookup_drop by lia.
      by replace (S i + (n - S i))%nat with n by lia.
    - intros Hin. destruct Hl. by eapply subseteq_drop, subseteq_take.
    - apply lookup_ge_None in Hc. lia. }
  unfold k. destruct (decide (i < n < i + S e)%nat).
  - rewrite bool_decide_true by (by apply Hin). rewrite lookup_drop. split; [do 2 f_equal; lia|lia].
  - by rewrite bool_decide_false by (by rewrite Hin).
Qed.

Lemma readData_at_run B sent unsent offset now :
  buf_holds B sent unsent → 0 <= offset →
  match (sent ++ unsent) !! Z.to_nat offset with
  | None => readData_at B offset now = Some (RereadNothing, B)
  | Some q =>
      let m := Z.land (q_bits q) MSGNO_SEQ_mask in
      let e := S (same_msg m (drop (S (Z.to_nat offset)) (sent ++ unsent))) in
      ∃ B', readData_at B offset now
        = Some (if expired q now then RereadExpired m (Z.of_nat e) else RereadPacket (len (q_data q)) (pkt_packet q), B') ∧
        m_iMSS B' = m_iMSS B ∧ m_rate B' = m_rate B ∧ m_tsLastOriginTime B' = m_tsLastOriginTime B ∧
        m_iNextMsgNo B' = m_iNextMsgNo B ∧
        if expired q now then
          let k := if decide (Z.to_nat offset < length sent < Z.to_nat offset + e)%nat
                   then (Z.to_nat offset + e)%nat else length sent in
          buf_holds B' (take k (sent ++ unsent)) (drop k (sent ++ unsent))
        else
          let qs := <[Z.to_nat offset := pkt_set_rexmit now q]> (sent ++ unsent) in
          buf_holds B' (take (length sent) qs) (drop (length sent) qs)
  end.
Proof.
  intros (ps & pu & free & H) Ho. pose proof (last_not_in _ _ _ _ _ _ H) as Hl.
  pose proof (stores_all _ _ _ _ _ _ H) as Hall. pose proof (Forall2_length _ _ _ Hall) as Hlen.
  pose proof (Forall2_length _ _ _ (b_sent _ _ _ _ _ _ H)) as Hls. unfold readData_at.
  destruct (H) as [Hnd Hc Hf Hcu _ _ _ Hsz _ _ _ _]. set (last := m_pLastBlock B) in *.
  rewrite (assoc_L (++)) in Hc, Hnd. apply NoDup_app in Hnd as [Hnd _].
  rewrite Hf, (walk_run _ _ _ _ _ _ Hc Hl). cbn [mbind option_bind]. set (i := Z.to_nat offset).
  destruct ((sent ++ unsent) !! i) as [q|] eqn:Hq;
    [|apply lookup_ge_None in Hq; rewrite lookup_ge_None_2 by lia; cbn [from_option]; by rewrite Z.eqb_refl].
  destruct (buf_lookup _ _ _ _ _ _ _ _ H Hq) as (p & Hpi & Hst). destruct (Hst) as (b & Hb & Ec & El).
  rewrite Hpi. cbn [from_option]. unfold id.
  rewrite (proj2 (Z.eqb_neq p last)) by (intros ->; apply Hl; by eapply list_elem_of_lookup_2).
  rewrite Hb. cbn [mbind option_bind].
  assert ((0 <=? m_iTTL b) && (m_iTTL b <? Z.quot (now - m_tsOriginTime b) 1000) = expired q now) as ->
    by (by rewrite <- Ec).
  assert (getMsgSeq b = Z.land (q_bits q) MSGNO_SEQ_mask) as -> by (by rewrite <- Ec).
  set (m := Z.land (q_bits q) MSGNO_SEQ_mask). cbv zeta. destruct (expired q now).
  - set (l := drop (S i) (ps ++ pu)). set (qs := drop (S i) (sent ++ unsent)).
    assert (Forall2 (stores (m_blocks B)) l qs) as Hlq by (by apply Forall2_drop).
    assert (chain (m_blocks B) (p :: l ++ last :: free) (m_pFirstBlock B)) as [(b2 & Hb2 & En) Hcl].
    { rewrite <- (take_drop_middle _ _ _ Hpi), <- (assoc_L (++)) in Hc. by apply chain_app in Hc as [_ ?]. }
    rewrite Hb in Hb2. injection Hb2 as <-.
    assert (m_pNext b = default last (head l)) as -> by (rewrite En; by destruct l).
    rewrite (skip_message_run _ l qs last free _ _ _ m false 1 Hcl); [|by intros Hin%subseteq_drop|done| |done].
    2: { unfold l. rewrite length_drop, Hsz, !length_app. cbn [length]. lia. }
    cbn [mbind option_bind orb]. set (e := same_msg m qs). eexists. split; [do 3 f_equal; lia|].
    do 4 (split; [done|]).
    pose proof (same_msg_length m qs) as He. fold e in He. unfold qs in He. rewrite length_drop in He.
    apply lookup_lt_Some in Hq.
    assert (m_pCurrBlock B = default last ((ps ++ pu) !! length sent)) as Ecur.
    { rewrite Hcu, <- Hls, lookup_app_r, Nat.sub_diag by lia. by destruct pu. }
    destruct (passed_curr (ps ++ pu) last (length sent) i e) as [Ek Hk];
      [done|done|rewrite Hlen, length_app; lia|lia|].
    change (from_option (λ x : Z, x) last (head (ps ++ pu))) with (default last (head (ps ++ pu))).
    rewrite <- Hf, Ecur. unfold l. rewrite Ek. set (k := if decide _ then _ else _) in *.
    exists (take k (ps ++ pu)), (drop k (ps ++ pu)), free. by apply buf_split.
  - eexists. rewrite block_packet_content, Ec, El. split; [done|]. do 4 (split; [done|]).
    exists ps, pu, free. subst q.
    by apply (buf_replace B ps pu free sent unsent i p b (set_rexmit_time now b) (content b)).
Qed.

(** ** Removing from the front *)

(** The current block of a list of blocks is among the first [n]. *)
Lemma curr_passed B ps pu free sent unsent n :
  buf_at B ps pu free sent unsent → (n <= length (ps ++ pu))%nat →
  bool_decide (m_pCurrBlock B ∈ take n (ps ++ pu)) = (length sent <? n)%nat.
Proof.
  intros H Hn. pose proof (last_not_in _ _ _ _ _ _ H) as Hl.
  pose proof (b_nodup _ _ _ _ _ _ H) as Hnd. rewrite (assoc_L (++)) in Hnd. apply NoDup_app in Hnd as [Hnd _].
  rewrite (b_curr _ _ _ _ _ _ H), <- (Forall2_length _ _ _ (b_sent _ _ _ _ _ _ H)).
  destruct pu as [|c pu]; cbn [head from_option]; unfold id.
  - rewrite app_nil_r in *. rewrite bool_decide_false by (intros Hin; by eapply Hl, subseteq_take).
    symmetry. apply Nat.ltb_ge. lia.
  - assert ((ps ++ c :: pu) !! length ps = Some c) as Hc by (by rewrite lookup_app_r, Nat.sub_diag by lia).
    pose proof (lookup_prefix _ _ _ Hnd Hc n) as E. destruct (Nat.ltb_spec (length ps) n).
    + by apply bool_decide_true, E.
    + apply bool_decide_false. rewrite E. lia.
Qed.

(** The first [n] blocks become free. *)
Lemma buf_rotate B ps pu free sent unsent n curr :
  buf_at B ps pu free sent unsent → (n <= length (ps ++ pu))%nat →
  let first := default (m_pLastBlock B) ((ps ++ pu) !! n) in
  curr = (if (length sent <? n)%nat then first else m_pCurrBlock B) →
  buf_at (with_counts (m_iCount B - Z.of_nat n) (m_iBytesCount B - pkt_bytes (take n (sent ++ unsent)))
    (with_pointers first curr (m_pLastBlock B) B))
    (drop n ps) (drop (n - length sent) pu) (free ++ take n (ps ++ pu)) (drop n sent) (drop (n - length sent) unsent).
Proof.
  intros H Hn first Hcurr. pose proof (stores_all _ _ _ _ _ _ H) as Hall.
  pose proof (Forall2_length _ _ _ (b_sent _ _ _ _ _ _ H)) as Hls.
  pose proof (Forall2_length _ _ _ Hall) as Hlen.
  destruct H as [Hnd Hc Hf Hcu Hs Hu Hp Hsz Hunit Hm Hcnt Hby]. set (last := m_pLastBlock B) in *.
  assert (drop n ps ++ drop (n - length sent) pu = drop n (ps ++ pu)) as Ed by (by rewrite drop_app, Hls).
  assert (drop n sent ++ drop (n - length sent) unsent = drop n (sent ++ unsent)) as Eds by (by rewrite drop_app).
  set (l := ps ++ pu) in *.
  assert (drop n ps ++ drop (n - length sent) pu ++ last :: free ++ take n l
    = drop n l ++ (last :: free) ++ take n l) as Er by (by rewrite (assoc_L (++)), Ed).
  assert (ps ++ pu ++ last :: free = take n l ++ drop n l ++ last :: free) as Er0
    by (by rewrite (assoc_L (++)), (assoc_L (++)), take_drop).
  assert (drop n l ++ (last :: free) ++ take n l ≡ₚ ps ++ pu ++ last :: free) as Hperm
    by (rewrite Er0, (assoc_L (++)); apply (comm (++))).
  split; cbn [m_pLastBlock m_pFirstBlock m_pCurrBlock m_blocks m_fresh m_pBuffer m_iMSS m_iSize m_iCount
    m_iBytesCount with_counts with_pointers]; fold last; rewrite ?Er, ?Ed, ?Eds, ?head_drop_lookup; try done.
  - by rewrite Hperm.
  - rewrite Er0, Hf in Hc. destruct (drop n l ++ last :: free) as [|x r] eqn:Ex; [by destruct (drop n l)|].
    assert (first = x) as ->.
    { unfold first. rewrite <- head_drop_lookup. by destruct (drop n l); cbn in *; simplify_eq. }
    rewrite (assoc_L (++)), Ex. apply chain_rotate.
    assert (default x (head (take n l)) = default last (head l)) as ->; [|done].
    destruct n as [|n]; [|by destruct l; [simpl in Hn; lia|]].
    rewrite drop_0 in Ex. cbn [take head from_option]. unfold id. by destruct l; cbn in *; simplify_eq.
  - rewrite Hcurr. destruct (Nat.ltb_spec (length sent) n).
    + unfold first, l. rewrite <- Hls, lookup_app_r by lia. done.
    + rewrite Hcu. replace (n - length sent)%nat with 0%nat by lia. by rewrite <- head_drop_lookup.
  - by apply Forall2_drop.
  - by apply Forall2_drop.
  - intros p. rewrite Hperm. apply Hp.
  - by rewrite Hperm.
  - rewrite Hcnt, length_drop. lia.
  - rewrite Hby. rewrite <- (take_drop n (sent ++ unsent)) at 1. rewrite pkt_bytes_app. lia.
Qed.

Lemma ack_loop_run h l qs last r nxt n curr byts move :
  chain h (l ++ last :: r) nxt → Forall2 (stores h) l qs → (n <= length l)%nat →
  ack_loop n h (default last (head l)) curr byts move
  = Some (default last (l !! n), byts - pkt_bytes (take n qs), move || bool_decide (curr ∈ take n l)).
Proof.
  intros Hc H. revert l qs byts move Hc H. induction n as [|n IH]; intros l qs byts move Hc H Hn; cbn [ack_loop].
  - rewrite !take_0, Z.sub_0_r. rewrite bool_decide_false by (by apply not_elem_of_nil). rewrite orb_false_r. by destruct l.
  - destruct H as [|p q l qs (b & Hb & Ec & El) H]; [simpl in Hn; lia|]. cbn [head from_option]. unfold id.
    destruct Hc as [(b0 & Hb0 & En) Hc]. rewrite Hb in Hb0. injection Hb0 as <-. rewrite Hb. cbn [mbind option_bind].
    assert (m_pNext b = default last (head l)) as -> by (rewrite En; by destruct l).
    rewrite (IH l qs) by (done || simpl in Hn; lia). cbn [take pkt_bytes foldr lookup list_lookup].
    fold (pkt_bytes (take n qs)). do 2 f_equal; [f_equal; lia|]. rewrite <- orb_assoc. f_equal.
    destruct (Z.eqb_spec p curr) as [->|Hne]; cbn [orb]; [by rewrite bool_decide_true by left|].
    apply bool_decide_ext. rewrite elem_of_cons. naive_solver.
Qed.

(** The first [offset] packets are released. *)
Lemma ackData_run B sent unsent offset :
  buf_holds B sent unsent → 0 <= offset <= Z.of_nat (length (sent ++ unsent)) →
  let n := Z.to_nat offset in
  ∃ B', ackData B offset = Some B' ∧ buf_holds B' (drop n sent) (drop (n - length sent) unsent) ∧
    m_iMSS B' = m_iMSS B ∧ m_rate B' = m_rate B ∧ m_tsLastOriginTime B' = m_tsLastOriginTime B ∧
    m_iNextMsgNo B' = m_iNextMsgNo B.
Proof.
  intros (ps & pu & free & H) Ho n. pose proof (stores_all _ _ _ _ _ _ H) as Hall.
  pose proof (Forall2_length _ _ _ Hall) as Hlen. unfold ackData. fold n.
  pose proof (b_chain _ _ _ _ _ _ H) as Hc. rewrite (assoc_L (++)) in Hc.
  rewrite (b_first _ _ _ _ _ _ H), (ack_loop_run _ _ _ _ _ _ n _ _ false Hc Hall) by lia.
  cbn [mbind option_bind orb]. eexists. split; [done|]. split; [|done].
  exists (drop n ps), (drop (n - length sent) pu), (free ++ take n (ps ++ pu)).
  rewrite (curr_passed _ _ _ _ _ _ _ H) by lia. replace offset with (Z.of_nat n) by lia.
  apply buf_rotate; [done|lia|done].
Qed.

(** How many of the first packets are older than [t], and the number of the last one's message. *)
Fixpoint n_late (t : Z) (l : list spkt) : nat :=
  match l with [] => O | q :: l => if q_origin q <? t then S (n_late t l) else O end.
Definition last_msg (m : Z) (l : list spkt) : Z :=
  match last l with Some q => Z.land (q_bits q) MSGNO_SEQ_mask | None => m end.
Lemma n_late_length t l : (n_late t l <= length l)%nat.
Proof. induction l as [|q l IH]; cbn [n_late length]; [lia|]. case_match; lia. Qed.
Lemma last_msg_cons m q l : last_msg m (q :: l) = last_msg (Z.land (q_bits q) MSGNO_SEQ_mask) l.
Proof. unfold last_msg. rewrite last_cons. by destruct (last l). Qed.

Lemma drop_loop_run h l qs last r nxt n curr t dp db m move :
  chain h (l ++ last :: r) nxt → Forall2 (stores h) l qs → n = length l →
  drop_loop n h (default last (head l)) curr t dp db m move
  = Some (default last (l !! n_late t qs), dp + Z.of_nat (n_late t qs), db + pkt_bytes (take (n_late t qs) qs),
      last_msg m (take (n_late t qs) qs), move || bool_decide (curr ∈ take (n_late t qs) l)).
Proof.
  intros Hc H. revert l qs dp db m move Hc H. induction n as [|n IH]; intros l qs dp db m move Hc H Hn; cbn [drop_loop].
  - destruct H; [|done]. cbn [n_late]. rewrite !take_0, !Z.add_0_r.
    rewrite bool_decide_false by (by apply not_elem_of_nil). by rewrite orb_false_r.
  - destruct H as [|p q l qs (b & Hb & Ec & El) H]; [done|]. injection Hn as Hn. cbn [head from_option]. unfold id.
    destruct Hc as [(b0 & Hb0 & En) Hc]. rewrite Hb in Hb0. injection Hb0 as <-. rewrite Hb. cbn [mbind option_bind n_late].
    assert (m_tsOriginTime b = q_origin q) as -> by (by rewrite <- Ec). destruct (q_origin q <? t).
    + assert (m_pNext b = default last (head l)) as -> by (rewrite En; by destruct l).
      rewrite (IH l qs) by done. cbn [take pkt_bytes foldr lookup list_lookup].
      fold (pkt_bytes (take (n_late t qs) qs)). rewrite last_msg_cons, El.
      assert (getMsgSeq b = Z.land (q_bits q) MSGNO_SEQ_mask) as -> by (by rewrite <- Ec).
      do 2 f_equal; [do 2 f_equal; [f_equal|]; lia|]. rewrite <- orb_assoc. f_equal.
      destruct (Z.eqb_spec p curr) as [->|Hne]; cbn [orb]; [by rewrite bool_decide_true by left|].
      apply bool_decide_ext. rewrite elem_of_cons. naive_solver.
    + rewrite !take_0, !Z.add_0_r. rewrite bool_decide_false by (by apply not_elem_of_nil). by rewrite orb_false_r.
Qed.

(** The packets before the first one that is not late are dropped. *)
Lemma dropLateData_run B sent unsent t :
  buf_holds B sent unsent →
  let n := n_late t (sent ++ unsent) in
  ∃ B', dropLateData B t
      = Some (Z.of_nat n, pkt_bytes (take n (sent ++ unsent)), MsgNo_next (last_msg 0 (take n (sent ++ unsent))), B') ∧
    buf_holds B' (drop n sent) (drop (n - length sent) unsent) ∧
    m_iMSS B' = m_iMSS B ∧ m_rate B' = m_rate B ∧ m_tsLastOriginTime B' = m_tsLastOriginTime B ∧
    m_iNextMsgNo B' = m_iNextMsgNo B.
Proof.
  intros (ps & pu & free & H) n. pose proof (stores_all _ _ _ _ _ _ H) as Hall.
  pose proof (Forall2_length _ _ _ Hall) as Hlen. pose proof (n_late_length t (sent ++ unsent)) as Hn. fold n in Hn.
  unfold dropLateData. pose proof (b_chain _ _ _ _ _ _ H) as Hc. rewrite (assoc_L (++)) in Hc.
  rewrite (b_first _ _ _ _ _ _ H), (drop_loop_run _ _ _ _ _ _ _ _ t 0 0 0 false Hc Hall)
    by (rewrite (b_count _ _ _ _ _ _ H); lia).
  cbn [mbind option_bind orb]. fold n. rewrite !Z.add_0_l. eexists. split; [done|]. split; [|done].
  exists (drop n ps), (drop (n - length sent) pu), (free ++ take n (ps ++ pu)).
  rewrite (curr_passed _ _ _ _ _ _ _ H) by lia. apply buf_rotate; [done|lia|done].
Qed.

(** ** The buffer as a queue with a position *)

(** The buffer has the packets [pkts]; the first [k] were sent. *)
Definition buf_pos (B : CSndBuffer) (k : nat) (pkts : list spkt) : Prop :=
  (k <= length pkts)%nat ∧ buf_holds B (take k pkts) (drop k pkts).
(** What the operations on packets keep. *)
Definition same_meta (B B' : CSndBuffer) : Prop :=
  m_iMSS B' = m_iMSS B ∧ m_rate B' = m_rate B ∧ m_tsLastOriginTime B' = m_tsLastOriginTime B ∧
  m_iNextMsgNo B' = m_iNextMsgNo B.

Lemma buf_pos_intro B sent unsent : buf_holds B sent unsent → buf_pos B (length sent) (sent ++ unsent).
Proof. intros H. split; [rewrite length_app; lia|]. by rewrite take_app_length, drop_app_length. Qed.
Lemma buf_pos_at B k pkts sent unsent :
  buf_holds B sent unsent → sent ++ unsent = pkts → length sent = k → buf_pos B k pkts.
Proof. intros H <- <-. by apply buf_pos_intro. Qed.
Lemma buf_pos_count B k pkts : buf_pos B k pkts → m_iCount B = Z.of_nat (length pkts).
Proof. intros [_ (ps & pu & free & H)]. by rewrite (b_count _ _ _ _ _ _ H), take_drop. Qed.
Lemma buf_pos_mss B k pkts : buf_pos B k pkts → 0 < m_iMSS B.
Proof. intros [_ (ps & pu & free & H)]. apply H. Qed.

Lemma readData_pos B k pkts kflgs :
  buf_pos B k pkts →
  match pkts !! k with
  | None => readData B kflgs = Some (0, None, B)
  | Some q => ∃ B', readData B kflgs
      = Some (if kflgs =? -1 then 0 else len (q_data q), Some (pkt_packet (with_key kflgs q)), B') ∧
      buf_pos B' (S k) (<[k := with_key kflgs q]> pkts) ∧ same_meta B B'
  end.
Proof.
  intros [Hk H]. pose proof (readData_run _ _ _ kflgs H) as Hr. destruct (pkts !! k) as [q|] eqn:Hq.
  - rewrite (drop_S _ _ _ Hq) in Hr. destruct Hr as (B' & E & H' & Hm). exists B'. split; [done|]. split; [|done].
    apply lookup_lt_Some in Hq as Hlt. eapply buf_pos_at; [exact H'| |rewrite length_app, length_take; simpl; lia].
    rewrite <- (assoc_L (++)). rewrite insert_take_drop by done. done.
  - apply lookup_ge_None in Hq. by rewrite drop_ge in Hr by done.
Qed.

Lemma readData_at_pos B k pkts offset now :
  buf_pos B k pkts → 0 <= offset →
  match pkts !! Z.to_nat offset with
  | None => readData_at B offset now = Some (RereadNothing, B)
  | Some q =>
      let i := Z.to_nat offset in
      let m := Z.land (q_bits q) MSGNO_SEQ_mask in
      let e := S (same_msg m (drop (S i) pkts)) in
      ∃ B', readData_at B offset now
        = Some (if expired q now then RereadExpired m (Z.of_nat e) else RereadPacket (len (q_data q)) (pkt_packet q), B') ∧
        same_meta B B' ∧
        if expired q now then buf_pos B' (if decide (i < k < i + e)%nat then (i + e)%nat else k) pkts
        else buf_pos B' k (<[i := pkt_set_rexmit now q]> pkts)
  end.
Proof.
  intros [Hk H] Ho. pose proof (readData_at_run _ _ _ _ now H Ho) as Hr. rewrite take_drop in Hr.
  rewrite (length_take_le pkts k Hk) in Hr. destruct (pkts !! Z.to_nat offset) as [q|] eqn:Hq; [|done].
  cbv zeta in Hr |- *. set (i := Z.to_nat offset) in *. set (m := Z.land (q_bits q) MSGNO_SEQ_mask) in *.
  destruct Hr as (B' & E & H1 & H2 & H3 & H4 & Hb). exists B'. split; [exact E|]. split; [done|].
  destruct (expired q now).
  - split; [|done]. pose proof (same_msg_length m (drop (S i) pkts)) as Hs. rewrite length_drop in Hs.
    apply lookup_lt_Some in Hq. case_decide; lia.
  - split; [by rewrite length_insert|done].
Qed.

Lemma getPacketRexmitTime_pos B k pkts offset q :
  buf_pos B k pkts → 0 <= offset → pkts !! Z.to_nat offset = Some q →
  getPacketRexmitTime B offset = Some (q_rexmit q).
Proof.
  intros [Hk H] Ho Hq. eapply getPacketRexmitTime_run; [exact H|done|]. by rewrite take_drop.
Qed.

Lemma ackData_pos B k pkts offset :
  buf_pos B k pkts → 0 <= offset <= Z.of_nat (length pkts) →
  ∃ B', ackData B offset = Some B' ∧ buf_pos B' (k - Z.to_nat offset) (drop (Z.to_nat offset) pkts) ∧ same_meta B B'.
Proof.
  intros [Hk H] Ho. destruct (ackData_run _ _ _ offset H) as (B' & E & H' & Hm); [by rewrite take_drop|].
  exists B'. split; [done|]. split; [|done]. eapply buf_pos_at; [exact H'| |].
  - by rewrite <- drop_app, take_drop.
  - rewrite length_drop, length_take. lia.
Qed.
Lemma dropLateData_pos B k pkts t :
  buf_pos B k pkts →
  let n := n_late t pkts in
  ∃ B', dropLateData B t
      = Some (Z.of_nat n, pkt_bytes (take n pkts), MsgNo_next (last_msg 0 (take n pkts)), B') ∧
    buf_pos B' (k - n) (drop n pkts) ∧ same_meta B B'.
Proof.
  intros [Hk H]. pose proof (dropLateData_run _ _ _ t H) as Hr. rewrite take_drop in Hr.
  destruct Hr as (B' & E & H' & Hm). exists B'. split; [done|]. split; [|done]. eapply buf_pos_at; [exact H'| |].
  - by rewrite <- drop_app, take_drop.
  - rewrite length_drop, length_take. lia.
Qed.

Lemma addBuffer_pos uninit B k pkts data c time :
  buf_pos B k pkts → (∀ p, len (m_pcData (uninit p)) = m_iMSS B) →
  0 <= m_tsInRateStartTime (m_rate B) < time → time < 2 ^ 64 →
  ∃ B' c', addBuffer uninit B data c time = Some (B', c') ∧ buf_pos B' k (pkts ++ message B data c time) ∧
    pktseq c' = Nat.iter (Z.to_nat (blocks_for (len data) (m_iMSS B))) incseq (pktseq c) ∧
    msgno c' = next_msgno B c ∧ m_iNextMsgNo B' = MsgNo_next (next_msgno B c) ∧ m_iMSS B' = m_iMSS B ∧
    m_tsLastOriginTime B' = time ∧ 0 <= m_tsInRateStartTime (m_rate B') <= time.
Proof.
  intros [Hk H] Hu Ht1 Ht2. destruct (addBuffer_run _ _ _ _ data c time H Hu Ht1 Ht2) as (B' & c' & E & H' & Hm).
  exists B', c'. split; [done|]. split; [|done]. eapply buf_pos_at; [exact H'| |by rewrite length_take_le].
  by rewrite (assoc_L (++)), take_drop.
Qed.

(** The piece of the packet that was read is rewritten, as a cipher does. *)
Definition pkt_set_data (d : bytes) (q : spkt) : spkt :=
  mkPkt d (q_bits q) (q_seq q) (q_origin q) (q_rexmit q) (q_src q) (q_ttl q).
Definition set_piece (d : bytes) (b : Block) : Block :=
  mkBlock (fill (m_pcData b) d) (m_iLength b) (m_iMsgNoBitset b) (m_iSeqNo b) (m_tsOriginTime b)
    (m_tsRexmitTime b) (m_llSourceTime_us b) (m_iTTL b) (m_pNext b).
Lemma readData_rewrite B k pkts kflgs q :
  buf_pos B k pkts → pkts !! k = Some q →
  ∃ B', readData B kflgs = Some (if kflgs =? -1 then 0 else len (q_data q), Some (pkt_packet (with_key kflgs q)), B') ∧
    buf_pos B' (S k) (<[k := with_key kflgs q]> pkts) ∧ same_meta B B' ∧
    ∀ d, len d = len (q_data q) → ∃ h, upd_block (m_pCurrBlock B) (set_piece d) (m_blocks B') = Some h ∧
      buf_pos (with_blocks h (m_fresh B') B') (S k) (<[k := pkt_set_data d (with_key kflgs q)]> pkts).
Proof.
  intros [Hk (ps & pu & free & H)] Hq. rewrite (drop_S _ _ _ Hq) in H. apply lookup_lt_Some in Hq as Hlt.
  pose proof (b_unsent _ _ _ _ _ _ H) as Hu. apply Forall2_cons_inv_r in Hu as (p & pu' & _ & _ & ->).
  destruct (readData_blocks _ _ _ _ _ _ _ _ kflgs H) as (Ec & B' & E & H' & Hm). set (q' := with_key kflgs q) in *.
  assert (length (take k pkts) = k) as Hlk by (by rewrite length_take_le).
  pose proof (Forall2_length _ _ _ (b_sent _ _ _ _ _ _ H)) as Hls. rewrite Hlk in Hls.
  assert (take k pkts ++ [q'] ++ drop (S k) pkts = <[k := q']> pkts) as El by (by rewrite insert_take_drop).
  assert ((take k pkts ++ [q']) ++ drop (S k) pkts = <[k := q']> pkts) as El2 by (by rewrite <- (assoc_L (++))).
  exists B'. split; [done|]. split; [|split; [done|]].
  { eapply buf_pos_at; [by eexists _, _, _|done|rewrite length_app, Hlk; simpl; lia]. }
  intros d Hd. assert (((ps ++ [p]) ++ pu') !! k = Some p) as Hp.
  { rewrite <- (assoc_L (++)), lookup_app_r by lia. by rewrite Hls, Nat.sub_diag. }
  assert ((<[k := q']> pkts) !! k = Some q') as Hq' by (by rewrite list_lookup_insert_eq).
  rewrite <- El2 in Hq'. destruct (buf_lookup _ _ _ _ _ _ _ _ H' Hq') as (p2 & Hp2 & Hst). rewrite Hp in Hp2. injection Hp2 as <-.
  destruct (Hst) as (b & Hb & Ecb & Elb). rewrite Ec, (upd_block_some _ _ _ b Hb).
  eexists. split; [done|].
  assert (len (q_data q') = len (q_data q)) as Eq by (unfold q', with_key; by case_match).
  assert (content (set_piece d b) = pkt_set_data d q') as Ecd.
  { unfold content, set_piece, pkt_set_data. rewrite <- Ecb. cbn. f_equal. unfold fill. rewrite Elb, Eq, <- Hd.
    unfold len. rewrite Nat2Z.id. by rewrite take_app_length. }
  pose proof (buf_replace B' (ps ++ [p]) pu' free _ _ k p b (set_piece d b) q' H' Hp Hb Hq' Hst eq_refl) as Hr.
  rewrite Ecd, El2 in Hr. rewrite list_insert_insert_eq in Hr. eapply buf_pos_at.
  - eexists _, _, _. apply Hr; [|done]. unfold set_piece, fill. cbn.
    assert (len d <= len (m_pcData b)) as Hle; [|unfold len in *; rewrite length_app, length_drop; lia].
    rewrite Hd, <- Eq, <- Ecb. cbn. unfold len. rewrite length_take. lia.
  - apply take_drop.
  - rewrite length_take, length_insert, length_app, Hlk. simpl. lia.
Qed.

(** ** A message cut into packets *)

(** The packets of a message of which [mss] bytes go into one. *)
Definition cut_message (mss next : Z) (data : bytes) (c : SRT_MSGCTRL) (time : Z) : list spkt :=
  let size := blocks_for (len data) mss in
  msg_pkts (Z.to_nat size) 0 size mss next (if inorder c then MSGNO_PACKET_INORDER_mask else 0) data time
    (msgttl c) (srctime c) (pktseq c).
Lemma msg_pkts_lookup n i size mss next inord data time ttl src seq j q :
  msg_pkts n i size mss next inord data time ttl src seq !! j = Some q →
  q_data q = part mss data (i + Z.of_nat j) ∧ q_bits q = msgno_bits next inord (i + Z.of_nat j) size ∧
  q_seq q = Nat.iter j incseq seq ∧ q_origin q = time ∧ q_ttl q = ttl ∧ (j < n)%nat.
Proof.
  revert i src seq j. induction n as [|n IH]; intros i src seq j; cbn [msg_pkts]; [done|].
  destruct j as [|j]; cbn [lookup list_lookup].
  - intros [= <-]. rewrite Z.add_0_r. repeat split. lia.
  - intros Hq%IH. destruct Hq as (-> & -> & -> & -> & -> & ?). rewrite Nat.iter_succ_r.
    replace (i + 1 + Z.of_nat j) with (i + Z.of_nat (S j)) by lia. repeat split. lia.
Qed.

Lemma small_bit x b n : 0 <= x < 2 ^ b → b <= n → Z.testbit x n = false.
Proof.
  intros Hx Hn. destruct (decide (x = 0)) as [->|Hne]; [apply Z.bits_0|]. apply Z.bits_above_log2; [lia|].
  apply Z.lt_le_trans with b; [|done]. apply Z.log2_lt_pow2; lia.
Qed.
(** The fields of the message number. *)
Lemma msgno_bits_fields next (inord : bool) i size :
  1 <= next <= MSGNO_SEQ_mask →
  let bits := msgno_bits next (if inord then MSGNO_PACKET_INORDER_mask else 0) i size in
  Z.land bits MSGNO_SEQ_mask = next ∧ Z.testbit bits 31 = (i =? 0) ∧ Z.testbit bits 30 = (i =? size - 1) ∧
  Z.testbit bits 29 = inord.
Proof.
  intros Hn. cbv zeta. unfold MSGNO_SEQ_mask in Hn.
  assert (Z.land next MSGNO_SEQ_mask = next) as El.
  { change MSGNO_SEQ_mask with (Z.ones 26). rewrite Z.land_ones by lia. apply Z.mod_small. lia. }
  assert (∀ n, 26 <= n → Z.testbit next n = false) as Hb by (intros n ?; apply (small_bit next 26); lia).
  unfold msgno_bits. set (ino := if inord then MSGNO_PACKET_INORDER_mask else 0).
  assert (Z.land ino MSGNO_SEQ_mask = 0 ∧ Z.testbit ino 31 = false ∧ Z.testbit ino 30 = false ∧ Z.testbit ino 29 = inord)
    as (I1 & I2 & I3 & I4) by (unfold ino; by destruct inord).
  destruct (i =? 0), (i =? size - 1);
    repeat first [rewrite Z.land_lor_distr_l | rewrite Z.lor_spec];
    rewrite ?El, ?I1, ?I2, ?I3, ?I4, ?Hb, ?Z.lor_0_r by lia; split_and!; try done; by rewrite ?orb_false_r.
Qed.

(** A message and its packets. *)
Lemma cut_message_facts mss next data c time :
  0 < mss → 1 <= next <= MSGNO_SEQ_mask →
  let msg := cut_message mss next data c time in
  concat (q_data <$> msg) = data ∧
  ∀ i q, msg !! i = Some q →
    0 < len (q_data q) <= mss ∧ q_seq q = Nat.iter i incseq (pktseq c) ∧ q_origin q = time ∧ q_ttl q = msgttl c ∧
    Z.land (q_bits q) MSGNO_SEQ_mask = next ∧ Z.testbit (q_bits q) 29 = inorder c ∧
    Z.testbit (q_bits q) 31 = (i =? 0)%nat ∧ Z.testbit (q_bits q) 30 = (i =? length msg - 1)%nat.
Proof.
  intros Hm Hn msg. destruct (blocks_for_spec (len data) mss ltac:(unfold len; lia) Hm) as (H0 & Hj & _).
  unfold msg, cut_message. split; [rewrite msg_pkts_concat by (done || lia); by rewrite drop_0|].
  intros i q Hq. rewrite length_msg_pkts. apply msg_pkts_lookup in Hq as (Ed & Eb & -> & -> & -> & Hi). rewrite Z.add_0_l in *.
  specialize (Hj (Z.of_nat i) ltac:(lia)). rewrite Ed, Eb, len_part by lia.
  destruct (msgno_bits_fields next (inorder c) (Z.of_nat i) (blocks_for (len data) mss) Hn) as (-> & -> & -> & ->).
  split_and!; try done; try lia; apply Bool.eq_iff_eq_true; rewrite ?Z.eqb_eq, ?Nat.eqb_eq; lia.
Qed.
