(* ===== verification/SndPath.v ===== *)
(** * The data path of the sender (srtcore/core.cpp, core.h)

    The functions of [CUDT] that move packets through the sender: [sendmsg2] puts
    a message into the buffer, [packData] takes the next packet out of it or a lost
    one, [processCtrlAck] releases what the peer has, [checkNeedDrop] what is too
    late.  The state has the fields these functions touch, and, in [d_snd], those of
    the retransmission requests (LossSend.v).  What they ask of other parts is a list
    of actions; the clock is read once in a call.  A [std::exception] is a result.
    Groups (bonding) and the busy waiting are compiled out. *)
From S2P Require Import Prelude SeqNo LossRing SndLoss LossSend SndBuf.

(** ** The state *)

(** [CUDT_snd] after an update of the list and the numbers. *)
Definition set_snd (L : CSndLossList) (lastack curr rexmit : Z) (S : CUDT_snd) : CUDT_snd :=
  {| m_pSndLossList := L; m_iSndLastAck := lastack; m_iSndCurrSeqNo := curr; m_iReXmitCount := rexmit;
     traceSndLoss := traceSndLoss S; sndLossTotal := sndLossTotal S; recvNAK := recvNAK S;
     recvNAKTotal := recvNAKTotal S; m_bBroken := m_bBroken S; m_iBrokenCounter := m_iBrokenCounter S |}.

(** The estimates that the ACKs bring. *)
Record ack_estimates := {
  m_iSRTT : Z; m_iRTTVar : Z; m_bIsFirstRTTReceived : bool;
  m_iBandwidth : Z; m_iDeliveryRate : Z; m_iByteDeliveryRate : Z }.
(** When to send. *)
Record send_times := { m_tsNextSendTime : Z; m_tdSendTimeDiff : Z; m_tsLastSndTime : Z }.
Record CUDT_path := {
  d_snd : CUDT_snd; m_pSndBuffer : CSndBuffer; m_iSndLastDataAck : Z; m_iSndNextSeqNo : Z;
  m_iSndLastFullAck : Z; m_iSndLastAck2 : Z; m_SndLastAck2Time : Z;
  m_iFlowWindowSize : Z; m_tsLastRspAckTime : Z; d_est : ack_estimates; d_times : send_times }.

Definition with_snd (S : CUDT_snd) (D : CUDT_path) : CUDT_path :=
  {| d_snd := S; m_pSndBuffer := m_pSndBuffer D; m_iSndLastDataAck := m_iSndLastDataAck D;
     m_iSndNextSeqNo := m_iSndNextSeqNo D; m_iSndLastFullAck := m_iSndLastFullAck D;
     m_iSndLastAck2 := m_iSndLastAck2 D; m_SndLastAck2Time := m_SndLastAck2Time D;
     m_iFlowWindowSize := m_iFlowWindowSize D; m_tsLastRspAckTime := m_tsLastRspAckTime D;
     d_est := d_est D; d_times := d_times D |}.
Definition with_buffer (B : CSndBuffer) (dataack nextseq : Z) (D : CUDT_path) : CUDT_path :=
  {| d_snd := d_snd D; m_pSndBuffer := B; m_iSndLastDataAck := dataack;
     m_iSndNextSeqNo := nextseq; m_iSndLastFullAck := m_iSndLastFullAck D;
     m_iSndLastAck2 := m_iSndLastAck2 D; m_SndLastAck2Time := m_SndLastAck2Time D;
     m_iFlowWindowSize := m_iFlowWindowSize D; m_tsLastRspAckTime := m_tsLastRspAckTime D;
     d_est := d_est D; d_times := d_times D |}.
Definition with_acks (fullack ack2 ack2time window rsptime : Z) (D : CUDT_path) : CUDT_path :=
  {| d_snd := d_snd D; m_pSndBuffer := m_pSndBuffer D; m_iSndLastDataAck := m_iSndLastDataAck D;
     m_iSndNextSeqNo := m_iSndNextSeqNo D; m_iSndLastFullAck := fullack; m_iSndLastAck2 := ack2;
     m_SndLastAck2Time := ack2time; m_iFlowWindowSize := window; m_tsLastRspAckTime := rsptime;
     d_est := d_est D; d_times := d_times D |}.
Definition with_est (E : ack_estimates) (D : CUDT_path) : CUDT_path :=
  {| d_snd := d_snd D; m_pSndBuffer := m_pSndBuffer D; m_iSndLastDataAck := m_iSndLastDataAck D;
     m_iSndNextSeqNo := m_iSndNextSeqNo D; m_iSndLastFullAck := m_iSndLastFullAck D;
     m_iSndLastAck2 := m_iSndLastAck2 D; m_SndLastAck2Time := m_SndLastAck2Time D;
     m_iFlowWindowSize := m_iFlowWindowSize D; m_tsLastRspAckTime := m_tsLastRspAckTime D;
     d_est := E; d_times := d_times D |}.
Definition with_times (T : send_times) (D : CUDT_path) : CUDT_path :=
  {| d_snd := d_snd D; m_pSndBuffer := m_pSndBuffer D; m_iSndLastDataAck := m_iSndLastDataAck D;
     m_iSndNextSeqNo := m_iSndNextSeqNo D; m_iSndLastFullAck := m_iSndLastFullAck D;
     m_iSndLastAck2 := m_iSndLastAck2 D; m_SndLastAck2Time := m_SndLastAck2Time D;
     m_iFlowWindowSize := m_iFlowWindowSize D; m_tsLastRspAckTime := m_tsLastRspAckTime D;
     d_est := d_est D; d_times := T |}.
(** Assignments to a single field. *)
Definition set_losses (L : CSndLossList) (D : CUDT_path) : CUDT_path :=
  let S := d_snd D in with_snd (set_snd L (m_iSndLastAck S) (m_iSndCurrSeqNo S) (m_iReXmitCount S) S) D.
Definition set_curr (curr : Z) (D : CUDT_path) : CUDT_path :=
  let S := d_snd D in with_snd (set_snd (m_pSndLossList S) (m_iSndLastAck S) curr (m_iReXmitCount S) S) D.
Definition set_buf (B : CSndBuffer) (D : CUDT_path) : CUDT_path :=
  with_buffer B (m_iSndLastDataAck D) (m_iSndNextSeqNo D) D.

(** A data packet on its way to the peer: the fields of [CPacket]. *)
Record CPacket := { m_iSeqNo : Z; m_iMsgNo : Z; m_iTimeStamp : Z; m_iID : Z; m_pcData : bytes }.

Inductive path_action :=
  | DropReq (msgno lo hi : Z)
  | CountRetrans (payload : Z)
  | CountFilterExtra
  | FeedSource (p : CPacket)
  | LegacyHandshake
  | UpdateCC_send (p : CPacket)
  | CountSent (payload : Z) (unique : bool)
  | AckAck (ack_seqno : Z)
  | EpollOut (enable : bool)
  | TriggerEvent
  | RescheduleSnd (now : bool)
  | SignalSendBlock
  | CountSndDuration (now : Z)
  | StartSndDuration (now : Z)
  | CheckSndTimers_regen
  | UpdateCC_ack (seq : Z)
  | CountRecvACK
  | CountSndDrop (dpkts dbytes : Z).

(** The options of the connection. *)
Record path_config := {
  m_bPeerRexmitFlag : bool; m_bPeerNakReport : bool; iRetransmitAlgo : Z; m_bPeerTsbPd : bool;
  m_bPeerTLPktDrop : bool; m_bTsbPd : bool; m_iPeerTsbPdDelay_ms : Z; m_PeerID : Z; tsStartTime : Z;
  bMessageAPI : bool; bSynSending : bool; iSndDropDelay : Z; iSndBufSize : Z; iSndTimeOut : Z;
  m_iMaxSRTPayloadSize : Z }.

(** ** Packets that are lost *)

(** The packets with an earlier retransmission are not sent again before the peer
    could answer. *)
Definition rexmit_recent (C : path_config) (D : CUDT_path) (now offset : Z) : option bool :=
  if m_bPeerNakReport C && negb (iRetransmitAlgo C =? 0) then
    tsLastRexmit ← getPacketRexmitTime (m_pSndBuffer D) offset;
    Some (now - i32 (m_iSRTT (d_est D) - 4 * m_iRTTVar (d_est D)) <=? tsLastRexmit)
  else Some false.

(** The result: the payload, the packet with the time of its origin, the state and
    the actions. *)
Fixpoint packLost_loop (fuel : nat) (C : path_config) (now : Z) (D : CUDT_path)
    : option (Z * option (CPacket * Z) * CUDT_path * list path_action) :=
  match fuel with
  | O => None
  | S fuel' =>
      '(seq, L) ← CSndLossList_popLostSeq (m_pSndLossList (d_snd D));
      let D := set_losses L D in
      if negb (0 <=? seq) then Some (0, None, D, [])
      else
        let offset := seqoff (m_iSndLastDataAck D) seq in
        if offset <? 0 then
          '(payload, p, D', actions) ← packLost_loop fuel' C now D;
          Some (payload, p, D', DropReq 0 seq (decseq (m_iSndLastDataAck D)) :: actions)
        else
          recent ← rexmit_recent C D now offset;
          if recent : bool then packLost_loop fuel' C now D
          else
            '(r, B) ← readData_at (m_pSndBuffer D) offset now;
            let D := set_buf B D in
            match r with
            | RereadNothing => packLost_loop fuel' C now D
            | RereadExpired msgno msglen =>
                let hi := incseq_by seq (msglen - 1) in
                L ← CSndLossList_removeUpTo (m_pSndLossList (d_snd D)) hi;
                let D := set_curr (maxseq (m_iSndCurrSeqNo (d_snd D)) hi) (set_losses L D) in
                '(payload, p, D', actions) ← packLost_loop fuel' C now D;
                Some (payload, p, D', DropReq msgno seq hi :: actions)
            | RereadPacket payload pk =>
                if payload =? 0 then packLost_loop fuel' C now D
                else
                  Some (payload,
                    Some ({| m_iSeqNo := seq;
                             m_iMsgNo := if m_bPeerRexmitFlag C then Z.lor (pk_msgno pk) PACKET_SND_REXMIT
                                         else pk_msgno pk;
                             m_iTimeStamp := 0; m_iID := 0; m_pcData := pk_data pk |}, pk_time pk),
                    D, [CountRetrans payload])
            end
  end.
Definition packLostData (C : path_config) (now : Z) (D : CUDT_path)
    : option (Z * option (CPacket * Z) * CUDT_path * list path_action) :=
  packLost_loop (S (Z.to_nat (CSndLossList_getLossLength (m_pSndLossList (d_snd D))))) C now D.

(** ** The next packet *)

(** What [packData] asks: [int(m_dCongestionWindow)], the flags of the key, the
    packet that the packet filter has to send, whether there is a filter. *)
Record pack_inputs := {
  m_bOpened : bool; cc_window : Z; getSndCryptoFlags : Z; packControlPacket : option CPacket;
  m_PacketFilter : bool; m_tdSendInterval : Z }.

Definition makeTS (C : path_config) (t : Z) : Z := i32 (t - tsStartTime C).
Definition packet_ts (C : path_config) (origintime now : Z) : Z :=
  if m_bPeerTsbPd C then if tsStartTime C <=? origintime then makeTS C origintime else makeTS C now
  else makeTS C now.
Definition PUMASK_SEQNO_PROBE : Z := 0xF.

(** A new packet from the buffer, within the congestion and flow windows; [None] in
    the result: nothing to send. *)
Definition pack_new (I : pack_inputs) (D : CUDT_path)
    : option (option (Z * CPacket * Z) * CUDT_path) :=
  if getFlightSpan (m_iSndLastAck (d_snd D)) (m_iSndCurrSeqNo (d_snd D))
       <? Z.min (m_iFlowWindowSize D) (cc_window I) then
    '(payload, pk, B) ← readData (m_pSndBuffer D) (getSndCryptoFlags I);
    let D := set_buf B D in
    match pk with
    | Some pk =>
        if payload =? 0 then Some (None, D)
        else
          let curr := incseq (m_iSndCurrSeqNo (d_snd D)) in
          Some (Some (payload, {| m_iSeqNo := curr; m_iMsgNo := pk_msgno pk; m_iTimeStamp := 0; m_iID := 0;
                                  m_pcData := pk_data pk |}, pk_time pk), set_curr curr D)
    | None => Some (None, D)
    end
  else Some (None, D).

(** [encrypt]: the packet has a pointer to the piece of the block, and the cipher
    writes there. *)
Definition set_data (data : bytes) (b : Block) : Block :=
  mkBlock (fill (SndBuf.m_pcData b) data) (m_iLength b) (m_iMsgNoBitset b) (SndBuf.m_iSeqNo b) (m_tsOriginTime b)
    (m_tsRexmitTime b) (m_llSourceTime_us b) (m_iTTL b) (m_pNext b).
Definition set_packet_data (data : bytes) (p : CPacket) : CPacket :=
  {| m_iSeqNo := m_iSeqNo p; m_iMsgNo := m_iMsgNo p; m_iTimeStamp := m_iTimeStamp p; m_iID := m_iID p;
     m_pcData := data |}.
Definition stamp (ts id : Z) (p : CPacket) : CPacket :=
  {| m_iSeqNo := m_iSeqNo p; m_iMsgNo := m_iMsgNo p; m_iTimeStamp := ts; m_iID := id; m_pcData := m_pcData p |}.

Definition next_send (I : pack_inputs) (now : Z) (probe : bool) (T : send_times) : send_times :=
  if probe then {| m_tsNextSendTime := now; m_tdSendTimeDiff := m_tdSendTimeDiff T; m_tsLastSndTime := now |}
  else if m_tdSendInterval I <=? m_tdSendTimeDiff T then
    {| m_tsNextSendTime := now; m_tdSendTimeDiff := m_tdSendTimeDiff T - m_tdSendInterval I; m_tsLastSndTime := now |}
  else {| m_tsNextSendTime := now + (m_tdSendInterval I - m_tdSendTimeDiff T); m_tdSendTimeDiff := 0;
          m_tsLastSndTime := now |}.
(** The end of [packData]. *)
Definition pack_sent (I : pack_inputs) (now : Z) (D : CUDT_path) (payload : Z) (p : CPacket) (isnew probe : bool)
    (actions : list path_action) : Z * Z * option CPacket * CUDT_path * list path_action :=
  let T := next_send I now probe (d_times D) in
  (payload, m_tsNextSendTime T, Some p, with_times T D,
   actions ++ (if isnew && m_PacketFilter I then [FeedSource p] else [])
     ++ [LegacyHandshake; UpdateCC_send p; CountSent payload isnew]).

Section packData.
(** The cipher: the bytes that it writes over the data of a packet; [None]: a failure. *)
Context (encrypt : CPacket → option bytes).

Definition packData (C : path_config) (I : pack_inputs) (now : Z) (D : CUDT_path)
    : option (Z * Z * option CPacket * CUDT_path * list path_action) :=
  let T := d_times D in
  let D := if negb (m_tsNextSendTime T =? 0) && (m_tsNextSendTime T <? now)
           then with_times {| m_tsNextSendTime := m_tsNextSendTime T;
             m_tdSendTimeDiff := m_tdSendTimeDiff T + (now - m_tsNextSendTime T);
             m_tsLastSndTime := m_tsLastSndTime T |} D
           else D in
  if negb (m_bOpened I) then Some (0, now, None, D, [])
  else
    '(payload, lost, D, actions) ← packLostData C now D;
    match lost with
    | Some (p, origintime) =>
        Some (pack_sent I now D payload (stamp (packet_ts C origintime now) (m_PeerID C) p) false false actions)
    | None =>
        match (if m_PacketFilter I then packControlPacket I else None) with
        | Some p =>
            Some (pack_sent I now D (len (m_pcData p)) (stamp (m_iTimeStamp p) (m_PeerID C) p) false false
              (actions ++ [CountFilterExtra]))
        | None =>
            let at_ := m_pCurrBlock (m_pSndBuffer D) in
            '(r, D) ← pack_new I D;
            match r with
            | None =>
                Some (0, now, None, with_times {| m_tsNextSendTime := 0; m_tdSendTimeDiff := 0;
                  m_tsLastSndTime := m_tsLastSndTime (d_times D) |} D, actions)
            | Some (payload, p, origintime) =>
                let p := stamp (packet_ts C origintime now) (m_PeerID C) p in
                let probe := Z.land (m_iSeqNo p) PUMASK_SEQNO_PROBE =? 0 in
                if getSndCryptoFlags I =? 0 then Some (pack_sent I now D payload p true probe actions)
                else
                  match encrypt p with
                  | None => Some (-1, now, None, D, actions)
                  | Some data =>
                      h ← upd_block at_ (set_data data) (m_blocks (m_pSndBuffer D));
                      let D := set_buf (with_blocks h (m_fresh (m_pSndBuffer D)) (m_pSndBuffer D)) D in
                      Some (pack_sent I now D (len data) (set_packet_data data p) true probe actions)
                  end
            end
        end
    end.
End packData.

(** ** Acknowledgements *)

Definition updateSndLossListOnACK (bSynSending : bool) (now ackdata_seqno : Z) (D : CUDT_path)
    : option (CUDT_path * list path_action) :=
  let offset := seqoff (m_iSndLastDataAck D) ackdata_seqno in
  if offset <=? 0 then Some (D, [])
  else
    L ← CSndLossList_removeUpTo (m_pSndLossList (d_snd D)) (decseq ackdata_seqno);
    B ← ackData (m_pSndBuffer D) offset;
    Some (with_buffer B ackdata_seqno (m_iSndNextSeqNo D) (set_losses L D),
          [EpollOut true; TriggerEvent; RescheduleSnd false]
            ++ (if bSynSending then [SignalSendBlock] else []) ++ [CountSndDuration now]).

(** [avg_iir<DEPRLEN>] (srtcore/utilities.h) of two [int]s: the computation is in [size_t]. *)
Definition avg_iir (DEPRLEN old_value new_value : Z) : Z :=
  i32 (u64 (old_value * (DEPRLEN - 1) + new_value) / DEPRLEN).

Definition ACKD_RCVLASTACK : nat := 0.
Definition ACKD_RTT : nat := 1.
Definition ACKD_RTTVAR : nat := 2.
Definition ACKD_BUFFERLEFT : nat := 3.
Definition ACKD_TOTAL_SIZE_SMALL : Z := 4.
Definition ACKD_RCVSPEED : nat := 4.
Definition ACKD_BANDWIDTH : nat := 5.
Definition ACKD_TOTAL_SIZE_UDTBASE : Z := 6.
Definition ACKD_RCVRATE : nat := 6.
Definition ACKD_FIELD_SIZE : Z := 4.
Definition SEND_LITE_ACK : Z := 4.
Definition INITIAL_RTT : Z := 10 * COMM_SYN_INTERVAL_US.
Definition INITIAL_RTTVAR : Z := Z.quot INITIAL_RTT 2.

(** The part on the round trip time; [bPktsReceived]: data was received too. *)
Definition update_rtt (bPktsReceived : bool) (rtt rttvar : Z) (E : ack_estimates) : ack_estimates :=
  let set srtt var first := {| m_iSRTT := srtt; m_iRTTVar := var; m_bIsFirstRTTReceived := first;
    m_iBandwidth := m_iBandwidth E; m_iDeliveryRate := m_iDeliveryRate E;
    m_iByteDeliveryRate := m_iByteDeliveryRate E |} in
  if m_bIsFirstRTTReceived E then
    if bPktsReceived then
      let crtt := m_iSRTT E in
      let crttvar := m_iRTTVar E in
      if negb (crtt =? INITIAL_RTT) && negb (rttvar =? INITIAL_RTTVAR) then
        set (avg_iir 8 crtt crtt) (avg_iir 4 crttvar (abs (i32 (crtt - crtt)))) true
      else set crtt crttvar true
    else set rtt rttvar true
  else if negb (rtt =? INITIAL_RTT) && negb (rttvar =? INITIAL_RTTVAR) then set rtt rttvar true
  else E.
Definition update_rates (bandwidth pktps bytesps : Z) (E : ack_estimates) : ack_estimates :=
  {| m_iSRTT := m_iSRTT E; m_iRTTVar := m_iRTTVar E; m_bIsFirstRTTReceived := m_bIsFirstRTTReceived E;
     m_iBandwidth := avg_iir 8 (m_iBandwidth E) bandwidth;
     m_iDeliveryRate := avg_iir 8 (m_iDeliveryRate E) pktps;
     m_iByteDeliveryRate := avg_iir 8 (m_iByteDeliveryRate E) bytesps |}.

(** [sendCtrl(UMSG_ACKACK)] when it is time, or the ACK came again. *)
Definition answer_ack (currtime ack_seqno : Z) (D : CUDT_path) : CUDT_path * list path_action :=
  if (COMM_SYN_INTERVAL_US <? currtime - m_SndLastAck2Time D) || (ack_seqno =? m_iSndLastAck2 D) then
    (with_acks (m_iSndLastFullAck D) ack_seqno currtime (m_iFlowWindowSize D) (m_tsLastRspAckTime D) D,
     [AckAck ack_seqno])
  else (D, []).

Definition lite_ack (ackdata_seqno currtime : Z) (D : CUDT_path) : CUDT_path :=
  let S := d_snd D in
  if 0 <=? seqcmp ackdata_seqno (m_iSndLastAck S) then
    with_snd (set_snd (m_pSndLossList S) ackdata_seqno (m_iSndCurrSeqNo S) 1 S)
      (with_acks (m_iSndLastFullAck D) (m_iSndLastAck2 D) (m_SndLastAck2Time D)
        (i32 (m_iFlowWindowSize D - seqoff (m_iSndLastAck S) ackdata_seqno)) currtime D)
  else D.

(** The step of a full ACK under [m_RecvAckLock]; [false]: no more to do. *)
Definition full_ack (ackdata_seqno window currtime : Z) (D : CUDT_path) : bool * CUDT_path :=
  let S := d_snd D in
  if 0 <? seqcmp ackdata_seqno (incseq (m_iSndCurrSeqNo S)) then (false, with_snd (break_connection S) D)
  else
    let D :=
      if 0 <=? seqcmp ackdata_seqno (m_iSndLastAck S) then
        with_snd (set_snd (m_pSndLossList S) ackdata_seqno (m_iSndCurrSeqNo S) 1 S)
          (with_acks (m_iSndLastFullAck D) (m_iSndLastAck2 D) (m_SndLastAck2Time D) window currtime D)
      else D in
    if seqoff (m_iSndLastFullAck D) ackdata_seqno <=? 0 then (false, D)
    else (true, with_acks ackdata_seqno (m_iSndLastAck2 D) (m_SndLastAck2Time D) (m_iFlowWindowSize D)
                  (m_tsLastRspAckTime D) D).

(** The estimates, from the words of a full ACK that are there. *)
Definition read_estimates (C : path_config) (bPktsReceived : bool) (words : list Z) (acksize : Z)
    (D : CUDT_path) : option CUDT_path :=
  rtt ← words !! ACKD_RTT;
  rttvar ← words !! ACKD_RTTVAR;
  let E := update_rtt bPktsReceived rtt rttvar (d_est D) in
  E ← (if ACKD_TOTAL_SIZE_SMALL <? acksize then
         pktps ← words !! ACKD_RCVSPEED;
         bandwidth ← words !! ACKD_BANDWIDTH;
         bytesps ← (if ACKD_TOTAL_SIZE_UDTBASE <? acksize then words !! ACKD_RCVRATE
                    else Some (i32 (pktps * m_iMaxSRTPayloadSize C)));
         Some (update_rates bandwidth pktps bytesps E)
       else Some E);
  Some (with_est E D).

(** An ACK: [words] are the words of the buffer of the packet, as [int32_t], of which
    [length] bytes came. *)
Definition processCtrlAck (C : path_config) (bPktsReceived : bool) (words : list Z) (length ack_seqno currtime : Z)
    (D : CUDT_path) : option (CUDT_path * list path_action) :=
  ackdata_seqno ← words !! ACKD_RCVLASTACK;
  if ackdata_seqno <? 0 then Some (D, [])
  else
    '(D, actions) ← updateSndLossListOnACK (bSynSending C) currtime ackdata_seqno D;
    if length =? SEND_LITE_ACK then Some (lite_ack ackdata_seqno currtime D, actions)
    else
      let '(D, answer) := answer_ack currtime ack_seqno D in
      window ← words !! ACKD_BUFFERLEFT;
      let '(more, D) := full_ack ackdata_seqno window currtime D in
      let acksize := length / ACKD_FIELD_SIZE in
      if negb more || (acksize <? ACKD_TOTAL_SIZE_SMALL) then Some (D, actions ++ answer)
      else
        D ← read_estimates C bPktsReceived words acksize D;
        Some (D, actions ++ answer ++ [CheckSndTimers_regen; UpdateCC_ack ackdata_seqno; CountRecvACK]).

(** ** Sending a message *)

Inductive send_error :=
  | MN_CONNLOST | MN_NOCONN | MN_INVAL | MN_INVALMSGAPI | MN_INVALBUFFERAPI | MN_XSIZE
  | MN_WRAVAIL | MN_XMTIMEOUT | MJ_PEERERROR.
(** [Blocks]: the thread waits for room. *)
Inductive send_result := Returned (size : Z) | Threw (e : send_error) | Blocks.

Definition SRT_TLPKTDROP_MINTHRESHOLD_MS : Z := 1000.
Definition drop_threshold (C : path_config) : Z :=
  if 0 <=? iSndDropDelay C then
    Z.max (m_iPeerTsbPdDelay_ms C + iSndDropDelay C) SRT_TLPKTDROP_MINTHRESHOLD_MS
      + Z.quot (2 * COMM_SYN_INTERVAL_US) 1000
  else 0.

(** The packets older than the threshold are acknowledged. *)
Definition drop_late (now threshold_ms : Z) (D : CUDT_path) : option (CUDT_path * list path_action) :=
  '(dpkts, dbytes, first_msgno, B) ← dropLateData (m_pSndBuffer D) (now - threshold_ms * 1000);
  if 0 <? dpkts then
    let fakeack := incseq_by (m_iSndLastDataAck D) dpkts in
    let minlastack := decseq fakeack in
    L ← CSndLossList_removeUpTo (m_pSndLossList (d_snd D)) minlastack;
    let S := d_snd D in
    let curr := if seqcmp (m_iSndCurrSeqNo S) minlastack <? 0 then minlastack else m_iSndCurrSeqNo S in
    Some (with_snd (set_snd L fakeack curr (m_iReXmitCount S) S) (with_buffer B fakeack (m_iSndNextSeqNo D) D),
          [CountSndDrop dpkts dbytes])
  else Some (set_buf B D, []).
(** [inl]: an exception; the first of the rest is [w_bCongestion]. *)
Definition checkNeedDrop (C : path_config) (now : Z) (D : CUDT_path)
    : option (send_error + bool * CUDT_path * list path_action) :=
  if negb (m_bPeerTLPktDrop C) then Some (inr (false, D, []))
  else if negb (bMessageAPI C) then Some (inl MN_INVALBUFFERAPI)
  else
    '(_, _, timespan_ms) ← getCurrBufSize_span (m_pSndBuffer D);
    let threshold_ms := drop_threshold C in
    if negb (threshold_ms =? 0) && (threshold_ms <? timespan_ms) then
      '(D, actions) ← drop_late now threshold_ms D;
      Some (inr (true, D, actions))
    else Some (inr (Z.quot (m_iPeerTsbPdDelay_ms C) 2 <? timespan_ms, D, [])).

(** The status of the connection at the time of a call, and the answer of
    [checkTransArgs] of the congestion control. *)
Record send_status := {
  m_bClosing : bool; m_bConnected : bool; m_CongCtl_ready : bool; m_bPeerHealth : bool; checkTransArgs : bool }.

Definition sndBuffersLeft (C : path_config) (D : CUDT_path) : Z :=
  iSndBufSize C - SndBuf.getCurrBufSize (m_pSndBuffer D).

(** The checks before anything changes; [None]: go on. *)
Definition sendmsg_check (C : path_config) (St : send_status) (len : Z) (c : SRT_MSGCTRL) (D : CUDT_path)
    : option send_result :=
  if m_bBroken (d_snd D) || m_bClosing St then Some (Threw MN_CONNLOST)
  else if negb (m_bConnected St) || negb (m_CongCtl_ready St) then Some (Threw MN_NOCONN)
  else if len <=? 0 then Some (Returned 0)
  else if negb (msgno c =? -1) && ((msgno c <? 1) || (MSGNO_SEQ_mask <? msgno c)) then Some (Threw MN_INVAL)
  else if negb (checkTransArgs St) then Some (Threw (if bMessageAPI C then MN_INVALMSGAPI else MN_INVALBUFFERAPI))
  else if bMessageAPI C && (iSndBufSize C * m_iMaxSRTPayloadSize C <? len) then Some (Threw MN_XSIZE)
  else None.
Definition send_minlen (C : path_config) (len : Z) : Z :=
  if bMessageAPI C then Z.quot (len + m_iMaxSRTPayloadSize C - 1) (m_iMaxSRTPayloadSize C) else 1.

Section sendmsg.
Context (uninit : Z → Block).

(** The message goes into the buffer. *)
Definition sendmsg_store (C : path_config) (now : Z) (congestion : bool) (data : bytes) (c : SRT_MSGCTRL)
    (D : CUDT_path) : option (send_result * SRT_MSGCTRL * CUDT_path * list path_action) :=
  let start := if SndBuf.getCurrBufSize (m_pSndBuffer D) =? 0 then [StartSndDuration now] else [] in
  let size := if bMessageAPI C then len data
              else Z.min (len data) (sndBuffersLeft C D * m_iMaxSRTPayloadSize C) in
  let seqno := m_iSndNextSeqNo D in
  let c1 := {| msgttl := msgttl c; inorder := inorder c; srctime := srctime c; pktseq := seqno; msgno := msgno c |} in
  if negb (srctime c =? 0) && (srctime c <? tsStartTime C) then Some (Threw MN_INVALMSGAPI, c1, D, start)
  else
    let src := if negb (srctime c =? 0) && (negb (bMessageAPI C) || negb (m_bTsbPd C)) then 0 else srctime c in
    '(B, c2) ← addBuffer uninit (m_pSndBuffer D) (take (Z.to_nat size) data)
      {| msgttl := msgttl c; inorder := inorder c; srctime := src; pktseq := seqno; msgno := msgno c |} now;
    let D := with_buffer B (m_iSndLastDataAck D) (pktseq c2) D in
    Some (Returned size,
      {| msgttl := msgttl c2; inorder := inorder c2; srctime := srctime c2; pktseq := seqno; msgno := msgno c2 |},
      D, start ++ (if sndBuffersLeft C D <? 1 then [EpollOut false] else []) ++ [RescheduleSnd congestion]).

(** [sendmsg2] up to the wait for room. *)
Definition sendmsg2 (C : path_config) (St : send_status) (now : Z) (data : bytes) (c : SRT_MSGCTRL) (D : CUDT_path)
    : option (send_result * SRT_MSGCTRL * CUDT_path * list path_action) :=
  match sendmsg_check C St (len data) c D with
  | Some r => Some (r, c, D, [])
  | None =>
      let S := d_snd D in
      let D := if SndBuf.getCurrBufSize (m_pSndBuffer D) =? 0 then
          with_snd (set_snd (m_pSndLossList S) (m_iSndLastAck S) (m_iSndCurrSeqNo S) 1 S)
            (with_acks (m_iSndLastFullAck D) (m_iSndLastAck2 D) (m_SndLastAck2Time D) (m_iFlowWindowSize D) now D)
        else D in
      dropped ← checkNeedDrop C now D;
      match dropped with
      | inl e => Some (Threw e, c, D, [])
      | inr (congestion, D, actions) =>
          if sndBuffersLeft C D <? send_minlen C (len data) then
            Some (if negb (bSynSending C) then Threw MN_WRAVAIL else Blocks, c, D, actions)
          else
            '(r, c, D, actions') ← sendmsg_store C now congestion data c D;
            Some (r, c, D, actions ++ actions')
      end
  end.

(** After the wait. *)
Definition sendmsg2_resume (C : path_config) (St : send_status) (now : Z) (congestion : bool) (data : bytes)
    (c : SRT_MSGCTRL) (D : CUDT_path) : option (send_result * SRT_MSGCTRL * CUDT_path * list path_action) :=
  if m_bBroken (d_snd D) || m_bClosing St then Some (Threw MN_CONNLOST, c, D, [])
  else if negb (m_bConnected St) then Some (Threw MN_NOCONN, c, D, [])
  else if negb (m_bPeerHealth St) then Some (Threw MJ_PEERERROR, c, D, [])
  else if sndBuffersLeft C D <? send_minlen C (len data) then
    Some (if 0 <=? iSndTimeOut C then Threw MN_XMTIMEOUT else Returned 0, c, D, [])
  else sendmsg_store C now congestion data c D.
End sendmsg.

(** ** The start (core.h: [setInitialSndSeq]; core.cpp: [prepareConnectionObjects]) *)

Definition setInitialSndSeq (isn : Z) (D : CUDT_path) : CUDT_path :=
  let S := d_snd D in
  with_snd (set_snd (m_pSndLossList S) isn (decseq isn) (m_iReXmitCount S) S)
    (with_buffer (m_pSndBuffer D) isn isn
      (with_acks isn isn (m_SndLastAck2Time D) (m_iFlowWindowSize D) (m_tsLastRspAckTime D) D)).
(** The part of [prepareConnectionObjects] for the sender. *)
Definition prepareSender (uninit : Z → Block) (uninit_seq : Z → Seq) (C : path_config) (D : CUDT_path)
    : option CUDT_path :=
  B ← CSndBuffer_new uninit 32 (m_iMaxSRTPayloadSize C);
  Some (set_losses (CSndLossList_new uninit_seq (m_iFlowWindowSize D * 2)) (set_buf B D)).

(** ** A sender that runs *)

(** A call, with what it gets from outside.  The numbers of a report and of an ACK
    are words, as the packets bring them. *)
Inductive path_op :=
  | OpSend (St : send_status) (now : Z) (data : bytes) (c : SRT_MSGCTRL)
  | OpResume (St : send_status) (now : Z) (congestion : bool) (data : bytes) (c : SRT_MSGCTRL)
  | OpPack (I : pack_inputs) (now : Z)
  | OpAck (bPktsReceived : bool) (words : list Z) (length ack_seqno currtime : Z)
  | OpReport (losslist : list Z)
  | OpTimer (E : rexmit_inputs).

Section run.
Context (uninit : Z → Block) (encrypt : CPacket → option bytes) (C : path_config).

(** The packet that a call sends, and the state. *)
Definition path_step (op : path_op) (D : CUDT_path) : option (option CPacket * CUDT_path) :=
  match op with
  | OpSend St now data c => '(_, _, D, _) ← sendmsg2 uninit C St now data c D; Some (None, D)
  | OpResume St now cg data c => '(_, _, D, _) ← sendmsg2_resume uninit C St now cg data c D; Some (None, D)
  | OpPack W now => '(_, _, p, D, _) ← packData encrypt C W now D; Some (p, D)
  | OpAck b words n ack_seqno t => '(D, _) ← processCtrlAck C b words n ack_seqno t D; Some (None, D)
  | OpReport losslist => '(S1, _) ← processCtrlLossReport (d_snd D) losslist; Some (None, with_snd S1 D)
  | OpTimer E => '(S1, _) ← checkRexmitTimer (d_snd D) E; Some (None, with_snd S1 D)
  end.
End run.
