(* ===== verification/SndPathFacts.v ===== *)
(** * Lemmas on the data path of the sender

    [path_ok] relates the state of the sender to a queue of numbered packets: the
    first [a_sent] of them were sent, the numbers [a_lost] are to be sent again, and
    the packet at the front has the number [a_ack], in unwrapped integers.  Each
    operation refines an operation on the queue. *)
From S2P Require Import Prelude SeqNo LossRing RcvLossFacts SndLoss SndLossFacts LossSend LossSendFacts SndBuf SndBufFacts SndPath.

Record snd_queue := mkQ {
  a_ack : Z; a_sent : nat; a_pkts : list spkt; a_lost : list Z }.
Definition a_curr (A : snd_queue) : Z := a_ack A + Z.of_nat (a_sent A) - 1.

Record path_ok (size mss : Z) (D : CUDT_path) (A : snd_queue) : Prop := {
  po_send : sending size (d_snd D) (a_ack A) (a_curr A) (a_lost A);
  po_ack : m_iSndLastDataAck D = seqno (a_ack A);
  po_next : m_iSndNextSeqNo D = seqno (a_ack A + Z.of_nat (length (a_pkts A)));
  po_buf : buf_pos (m_pSndBuffer D) (a_sent A) (a_pkts A);
  po_num : ∀ i q, a_pkts A !! i = Some q → q_seq q = seqno (a_ack A + Z.of_nat i);
  po_data : Forall (λ q, 0 < len (q_data q)) (a_pkts A);
  po_room : Z.of_nat (length (a_pkts A)) < size;
  po_mss : m_iMSS (m_pSndBuffer D) = mss;
  po_clock : 0 <= m_tsInRateStartTime (m_rate (m_pSndBuffer D)) <= m_tsLastOriginTime (m_pSndBuffer D) }.

Lemma path_size size mss D A : path_ok size mss D A → 0 < size <= 2 ^ 29.
Proof. intros H. eapply snd_holds_size, snd_list, po_send, H. Qed.
Lemma path_lost size mss D A x :
  path_ok size mss D A → x ∈ a_lost A →
  ∃ q, a_pkts A !! Z.to_nat (x - a_ack A) = Some q ∧ a_ack A <= x <= a_curr A ∧ (Z.to_nat (x - a_ack A) < a_sent A)%nat.
Proof.
  intros H Hx. pose proof (snd_in_flight _ _ _ _ _ (po_send _ _ _ _ H) x Hx) as Hr. unfold a_curr in *.
  destruct (po_buf _ _ _ _ H) as [Hk _].
  destruct (lookup_lt_is_Some_2 (a_pkts A) (Z.to_nat (x - a_ack A))) as [q Hq]; [lia|]. exists q. split; [done|]. lia.
Qed.

(** The packets of [pkts'] have the numbers and the data of those of [pkts]. *)
Lemma numbered_insert ack (pkts : list spkt) i q q' :
  pkts !! i = Some q → q_seq q' = q_seq q →
  (∀ j p, pkts !! j = Some p → q_seq p = seqno (ack + Z.of_nat j)) →
  ∀ j p, <[i := q']> pkts !! j = Some p → q_seq p = seqno (ack + Z.of_nat j).
Proof.
  intros Hi E H j p. destruct (decide (i = j)) as [<-|Hne].
  - rewrite list_lookup_insert_eq by (by eapply lookup_lt_Some). intros [= <-]. rewrite E. by apply H.
  - rewrite list_lookup_insert_ne by done. apply H.
Qed.

(** ** Steps on the fields *)

Lemma path_losses size mss D A L ms :
  path_ok size mss D A → snd_holds size L ms → (∀ x, x ∈ ms → x ∈ a_lost A) →
  path_ok size mss (set_losses L D) (mkQ (a_ack A) (a_sent A) (a_pkts A) ms).
Proof.
  intros [[Ha Hc HL Hs Hf] H1 H2 H3 H4 H5 H6 H7 H8] HL' Hms. split; try done. split; try done.
  intros x Hx. by apply Hf, Hms.
Qed.
(** A new packet, a packet sent again: the buffer moves on to [k] and [pkts]. *)
Lemma path_buffer size mss D A B k pkts ms :
  path_ok size mss D A → buf_pos B k pkts → same_meta (m_pSndBuffer D) B → (a_sent A <= k)%nat →
  length pkts = length (a_pkts A) →
  (∀ i q, pkts !! i = Some q → q_seq q = seqno (a_ack A + Z.of_nat i)) → Forall (λ q, 0 < len (q_data q)) pkts →
  snd_holds size (m_pSndLossList (d_snd D)) ms → (∀ x, x ∈ ms → x ∈ a_lost A) →
  path_ok size mss (set_curr (seqno (a_ack A + Z.of_nat k - 1)) (set_buf B D)) (mkQ (a_ack A) k pkts ms).
Proof.
  intros [[Ha Hc HL Hs Hf] H1 H2 H3 H4 H5 H6 H7 H8] HB (M1 & M2 & M3 & _) Hk Hl Hn Hd HL' Hms.
  pose proof (proj1 HB) as HkB. split; cbn [a_ack a_sent a_pkts a_lost d_snd m_pSndBuffer m_iSndLastDataAck
    m_iSndNextSeqNo set_curr set_buf with_buffer with_snd]; try done.
  - split; try done; unfold a_curr in *; cbn [a_ack a_sent]; [lia|]. intros x Hx. specialize (Hf x (Hms x Hx)). lia.
  - by rewrite Hl.
  - by rewrite Hl.
  - by rewrite M1.
  - by rewrite M2, M3.
Qed.

(** ** Lost packets *)

Definition rexmit_recently (C : path_config) (E : ack_estimates) (now : Z) (q : spkt) : bool :=
  m_bPeerNakReport C && negb (iRetransmitAlgo C =? 0) && (now - i32 (m_iSRTT E - 4 * m_iRTTVar E) <=? q_rexmit q).
(** The first number to be sent again whose packet was not sent again just now; a
    message whose time is over is given up. *)
Fixpoint lost_spec (n : nat) (C : path_config) (E : ack_estimates) (now : Z) (A : snd_queue)
    : option (Z * spkt) * snd_queue * list path_action :=
  match n, a_lost A with
  | S n, x :: ms =>
      let i := Z.to_nat (x - a_ack A) in
      let A1 := mkQ (a_ack A) (a_sent A) (a_pkts A) ms in
      match a_pkts A !! i with
      | None => (None, A1, [])
      | Some q =>
          if rexmit_recently C E now q then lost_spec n C E now A1
          else if expired q now then
            let m := Z.land (q_bits q) MSGNO_SEQ_mask in
            let e := S (same_msg m (drop (S i) (a_pkts A))) in
            let hi := x + Z.of_nat e - 1 in
            let r := lost_spec n C E now
              (mkQ (a_ack A) (Nat.max (a_sent A) (i + e)) (a_pkts A) (filter (λ y, hi < y) ms)) in
            (r.1, DropReq m (seqno x) (seqno hi) :: r.2)
          else
            (Some (x, q), mkQ (a_ack A) (a_sent A) (<[i := pkt_set_rexmit now q]> (a_pkts A)) ms,
             [CountRetrans (len (q_data q))])
      end
  | _, _ => (None, A, [])
  end.
(** The packet that goes to the peer. *)
Definition wire (bits : Z) (x : Z) (q : spkt) : CPacket :=
  {| m_iSeqNo := seqno x; m_iMsgNo := bits; m_iTimeStamp := 0; m_iID := 0; m_pcData := q_data q |}.
Definition rexmit_bits (C : path_config) (q : spkt) : Z :=
  if m_bPeerRexmitFlag C then Z.lor (q_bits q) PACKET_SND_REXMIT else q_bits q.
Definition lost_packet (C : path_config) (r : option (Z * spkt)) : Z * option (CPacket * Z) :=
  match r with
  | Some (x, q) => (len (q_data q), Some (wire (rexmit_bits C q) x q, pk_time (pkt_packet q)))
  | None => (0, None)
  end.

(** The steps keep what the acknowledgements bring. *)
Definition same_acks (D D' : CUDT_path) : Prop :=
  d_est D' = d_est D ∧ d_times D' = d_times D ∧ m_iFlowWindowSize D' = m_iFlowWindowSize D ∧
  m_iSndLastFullAck D' = m_iSndLastFullAck D ∧ m_bBroken (d_snd D') = m_bBroken (d_snd D).

Lemma packLost_loop_run size mss C now n fuel D A :
  path_ok size mss D A → (length (a_lost A) <= n)%nat → (n < fuel)%nat →
  ∃ D', packLost_loop fuel C now D
      = Some ((lost_packet C (lost_spec n C (d_est D) now A).1.1).1, (lost_packet C (lost_spec n C (d_est D) now A).1.1).2,
          D', (lost_spec n C (d_est D) now A).2) ∧
    path_ok size mss D' (lost_spec n C (d_est D) now A).1.2 ∧ same_acks D D'.
Proof.
  revert fuel D A. induction n as [|n IH]; intros fuel D A H Hn Hf; (destruct fuel as [|fuel]; [lia|]); cbn [packLost_loop lost_spec].
  all: destruct (CSndLossList_popLostSeq_run _ _ _ (snd_list _ _ _ _ _ (po_send _ _ _ _ H))) as (L & E & HL).
  all: pose proof (path_losses _ _ _ _ L (tail (a_lost A)) H HL) as H1.
  all: rewrite E; cbn [mbind option_bind].
  all: destruct (a_lost A) as [|x ms] eqn:El.
  1, 3: exists (set_losses L D); split; [done|]; split; [|done];
    destruct A as [ack k pkts ls]; simpl in El; subst ls; by apply H1.
  { simpl in Hn. lia. }
  cbn [tail] in HL, H1. specialize (H1 ltac:(by right)).
  destruct (path_lost _ _ _ _ x H) as (q & Hq & Hx & Hi); [rewrite El; left|].
  set (i := Z.to_nat (x - a_ack A)) in *. rewrite Hq.
  pose proof (path_size _ _ _ _ H) as Hsz. pose proof (snd_span _ _ _ _ _ (po_send _ _ _ _ H)) as [Hsp1 Hsp2].
  pose proof (seqno_nonneg x). rewrite (proj2 (Z.leb_le 0 (seqno x))) by done. cbn [negb].
  set (D1 := set_losses L D) in *.
  assert (seqoff (m_iSndLastDataAck D1) (seqno x) = x - a_ack A) as ->.
  { unfold D1. cbn. rewrite (po_ack _ _ _ _ H). apply seqoff_seqno. unfold near, m_iSeqNoTH. unfold a_curr in *. lia. }
  rewrite (proj2 (Z.ltb_ge _ 0)) by lia.
  assert (rexmit_recent C D1 now (x - a_ack A) = Some (rexmit_recently C (d_est D) now q)) as ->.
  { unfold rexmit_recent, rexmit_recently. destruct (m_bPeerNakReport C && negb (iRetransmitAlgo C =? 0)); [|done].
    cbn [andb]. rewrite (getPacketRexmitTime_pos _ _ _ _ q (po_buf _ _ _ _ H)) by (done || lia). done. }
  cbn [mbind option_bind]. destruct (rexmit_recently C (d_est D) now q).
  { destruct (IH fuel D1 _ H1) as (D' & E' & H' & Hs); [simpl in *; lia|lia|]. by exists D'. }
  pose proof (readData_at_pos _ _ _ (x - a_ack A) now (po_buf _ _ _ _ H)) as Hr. fold i in Hr. rewrite Hq in Hr.
  destruct Hr as (B & EB & HM & HB); [lia|]. cbv zeta in EB, HB. change (m_pSndBuffer D1) with (m_pSndBuffer D).
  rewrite EB. cbn [mbind option_bind]. set (m := Z.land (q_bits q) MSGNO_SEQ_mask) in *.
  set (e := S (same_msg m (drop (S i) (a_pkts A)))) in *. destruct (expired q now).
  - assert ((if decide (i < a_sent A < i + e)%nat then (i + e)%nat else a_sent A) = Nat.max (a_sent A) (i + e)) as Ek
      by (case_decide; lia).
    rewrite Ek in HB. pose proof (proj1 HB) as Hk. pose proof (po_room _ _ _ _ H) as Hroom. unfold a_curr in *.
    rewrite incseq_by_seqno by (unfold m_iMaxSeqNo; lia). set (hi := x + Z.of_nat e - 1).
    replace (x + (Z.of_nat e - 1)) with hi by (unfold hi; lia).
    destruct (CSndLossList_removeUpTo_run size L ms hi HL) as (L2 & E2 & HL2).
    { intros h Hh. pose proof (snd_in_flight _ _ _ _ _ (po_send _ _ _ _ H) h) as Hin. rewrite El in Hin.
      specialize (Hin ltac:(right; destruct ms; [done|]; injection Hh as ->; left)).
      unfold near, m_iSeqNoTH, hi, a_curr in *. lia. }
    change (m_pSndLossList (d_snd (set_buf B D1))) with L. rewrite E2. cbn [mbind option_bind].
    pose proof (path_losses _ _ _ _ L2 _ H HL2) as H2.
    pose proof (path_buffer _ _ _ _ B _ _ (filter (λ y, hi < y) ms) (H2 ltac:(intros y [_ ?]%list_elem_of_filter; rewrite El; by right)) HB HM) as H3.
    assert (maxseq (m_iSndCurrSeqNo (d_snd (set_buf B D1))) (seqno hi)
      = seqno (a_ack A + Z.of_nat (Nat.max (a_sent A) (i + e)) - 1)) as ->.
    { change (m_iSndCurrSeqNo (d_snd (set_buf B D1))) with (m_iSndCurrSeqNo (d_snd D)).
      rewrite (snd_curr _ _ _ _ _ (po_send _ _ _ _ H)). unfold a_curr.
      rewrite maxseq_seqno by (unfold near, m_iSeqNoTH, hi; lia). f_equal. unfold hi. lia. }
    destruct (IH fuel _ _ (H3 ltac:(cbn; lia) eq_refl (po_num _ _ _ _ H) (po_data _ _ _ _ H) HL2 ltac:(done)))
      as (D' & E' & H' & Hs); [simpl in *; pose proof (length_filter (λ y, hi < y) ms); lia|lia|].
    change (set_curr ?c (set_losses L2 (set_buf B D1))) with (set_curr c (set_buf B (set_losses L2 D))).
    cbn [a_ack] in E'. rewrite E'. by exists D'.
  - pose proof (path_buffer _ _ _ _ B _ _ ms H1 HB HM) as H2.
    assert (0 < len (q_data q)) as Hq0 by (by eapply (Forall_lookup_1 _ _ _ _ (po_data _ _ _ _ H))).
    rewrite (proj2 (Z.eqb_neq _ 0)) by lia. eexists. split; [done|]. split; [|done].
    specialize (H2 ltac:(cbn; lia) ltac:(by rewrite length_insert)). cbn [a_ack a_sent a_lost fst snd] in H2 |- *.
    assert (set_curr (seqno (a_ack A + Z.of_nat (a_sent A) - 1)) (set_buf B D1) = set_buf B D1) as Eq; [|rewrite <- Eq].
    { unfold set_curr. change (a_ack A + Z.of_nat (a_sent A) - 1) with (a_curr A).
      rewrite <- (snd_curr _ _ _ _ _ (po_send _ _ _ _ H)). unfold D1, set_losses, set_buf, with_snd, with_buffer, set_snd. done. }
    apply H2; [|by apply Forall_insert; [apply H|]|done|done].
    by eapply numbered_insert; [..|apply H].
Qed.

Lemma packLostData_run size mss C now D A :
  path_ok size mss D A →
  let r := lost_spec (length (a_lost A)) C (d_est D) now A in
  ∃ D', packLostData C now D = Some ((lost_packet C r.1.1).1, (lost_packet C r.1.1).2, D', r.2) ∧
    path_ok size mss D' r.1.2 ∧ same_acks D D'.
Proof.
  intros H r. unfold packLostData. rewrite (snd_getLossLength_run _ _ _ (snd_list _ _ _ _ _ (po_send _ _ _ _ H))).
  apply packLost_loop_run; [done|lia|lia].
Qed.

(** ** New packets *)

Definition new_key (A : snd_queue) (q : spkt) : snd_queue :=
  mkQ (a_ack A) (S (a_sent A)) (<[a_sent A := q]> (a_pkts A)) (a_lost A).
(** The next packet within the windows. *)
Definition new_spec (window flags : Z) (A : snd_queue) : option (Z * spkt) :=
  if Z.of_nat (a_sent A) <? window then
    (λ q, (a_ack A + Z.of_nat (a_sent A), with_key flags q)) <$> (a_pkts A !! a_sent A)
  else None.

Lemma q_seq_with_key k q : q_seq (with_key k q) = q_seq q.
Proof. unfold with_key. by case_match. Qed.
Lemma q_data_with_key k q : q_data (with_key k q) = q_data q.
Proof. unfold with_key. by case_match. Qed.

Lemma path_new size mss D A B k q q' :
  path_ok size mss D A → a_pkts A !! a_sent A = Some q → q_seq q' = q_seq q → len (q_data q') = len (q_data q) →
  buf_pos B (S (a_sent A)) (a_pkts (new_key A q')) → same_meta (m_pSndBuffer D) B → k = a_ack A + Z.of_nat (a_sent A) →
  path_ok size mss (set_curr (seqno k) (set_buf B D)) (new_key A q').
Proof.
  intros H Hq E1 E2 HB HM ->. pose proof (Forall_lookup_1 _ _ _ _ (po_data _ _ _ _ H) Hq) as Hq0.
  pose proof (path_buffer _ _ _ _ B _ _ (a_lost A) H HB HM) as H1.
  replace (a_ack A + Z.of_nat (a_sent A)) with (a_ack A + Z.of_nat (S (a_sent A)) - 1) by lia.
  apply H1; [lia|by cbn; rewrite length_insert|by eapply numbered_insert; [..|apply H]|
    apply Forall_insert; [apply H|by rewrite E2]|apply H|done].
Qed.

Lemma path_flight size mss D A :
  path_ok size mss D A → getFlightSpan (m_iSndLastAck (d_snd D)) (m_iSndCurrSeqNo (d_snd D)) = Z.of_nat (a_sent A).
Proof.
  intros H. pose proof (path_size _ _ _ _ H). pose proof (snd_span _ _ _ _ _ (po_send _ _ _ _ H)).
  rewrite (snd_ack _ _ _ _ _ (po_send _ _ _ _ H)), (snd_curr _ _ _ _ _ (po_send _ _ _ _ H)).
  unfold a_curr in *. rewrite getFlightSpan_run; [lia|unfold m_iMaxSeqNo; lia].
Qed.

Lemma pack_new_run size mss I D A :
  path_ok size mss D A → getSndCryptoFlags I ≠ -1 →
  match new_spec (Z.min (m_iFlowWindowSize D) (cc_window I)) (getSndCryptoFlags I) A with
  | None => pack_new I D = Some (None, set_buf (m_pSndBuffer D) D) ∨ pack_new I D = Some (None, D)
  | Some (x, q) => ∃ B, pack_new I D
      = Some (Some (len (q_data q), wire (q_bits q) x q, pk_time (pkt_packet q)), set_curr (seqno x) (set_buf B D)) ∧
      path_ok size mss (set_curr (seqno x) (set_buf B D)) (new_key A q) ∧
      ∀ d, len d = len (q_data q) → ∃ h, upd_block (m_pCurrBlock (m_pSndBuffer D)) (set_data d) (m_blocks B) = Some h ∧
        let D' := set_curr (seqno x) (set_buf B D) in
        path_ok size mss (set_buf (with_blocks h (m_fresh B) B) D') (new_key A (pkt_set_data d q))
  end.
Proof.
  intros H Hkey. unfold new_spec, pack_new. rewrite (path_flight _ _ _ _ H).
  destruct (Z.of_nat (a_sent A) <? _); [|by right]. pose proof (readData_pos _ _ _ (getSndCryptoFlags I) (po_buf _ _ _ _ H)) as Hr0.
  destruct (a_pkts A !! a_sent A) as [q|] eqn:Hq; cbn [fmap option_fmap option_map]; [|rewrite Hr0; by left].
  destruct (readData_rewrite _ _ _ (getSndCryptoFlags I) q (po_buf _ _ _ _ H) Hq) as (B & -> & HB & HM & Hd). clear Hr0.
  cbn [mbind option_bind]. rewrite (proj2 (Z.eqb_neq _ _) Hkey).
  pose proof (Forall_lookup_1 _ _ _ _ (po_data _ _ _ _ H) Hq) as Hq0. cbn beta in Hq0.
  rewrite (proj2 (Z.eqb_neq _ 0)) by lia. set (q' := with_key (getSndCryptoFlags I) q) in *.
  assert (q_data q' = q_data q) as Eq by apply q_data_with_key.
  assert (q_seq q' = q_seq q) as Es by apply q_seq_with_key.
  change (m_iSndCurrSeqNo (d_snd (set_buf B D))) with (m_iSndCurrSeqNo (d_snd D)).
  rewrite (snd_curr _ _ _ _ _ (po_send _ _ _ _ H)), incseq_seqno. unfold a_curr.
  replace (a_ack A + Z.of_nat (a_sent A) - 1 + 1) with (a_ack A + Z.of_nat (a_sent A)) by lia.
  exists B. rewrite Eq. split; [unfold wire; cbn; by rewrite ?Eq|]. split.
  - by apply (path_new _ _ _ _ _ _ q); try rewrite Eq.
  - intros d Hdl. destruct (Hd d Hdl) as (h & E & HB'). exists h. split; [exact E|].
    by apply (path_new _ _ _ _ (with_blocks h (m_fresh B) B) _ q _ H Hq).
Qed.

(** ** packData *)

Lemma path_times size mss D A T : path_ok size mss D A → path_ok size mss (with_times T D) A.
Proof. intros [[] ? ? ? ? ? ? ? ?]. by split. Qed.
Lemma path_est size mss D A E : path_ok size mss D A → path_ok size mss (with_est E D) A.
Proof. intros [[] ? ? ? ? ? ? ? ?]. by split. Qed.
Lemma path_with_acks size mss D A a b c d e : path_ok size mss D A → path_ok size mss (with_acks a b c d e D) A.
Proof. intros [[] ? ? ? ? ? ? ? ?]. by split. Qed.
Lemma path_set_buf size mss D A : path_ok size mss D A → path_ok size mss (set_buf (m_pSndBuffer D) D) A.
Proof. intros [[] ? ? ? ? ? ? ? ?]. by split. Qed.

Section packData.
Context (encrypt : CPacket → option bytes).
(** The cipher keeps the length. *)
Hypothesis encrypt_length : ∀ p d, encrypt p = Some d → len d = len (m_pcData p).

Definition on_wire (C : path_config) (now bits x : Z) (q : spkt) : CPacket :=
  stamp (packet_ts C (pk_time (pkt_packet q)) now) (m_PeerID C) (wire bits x q).
(** The packet to send and the queue after it: a lost packet first, then one of the
    packet filter, then the next one. *)
Definition pack_spec (C : path_config) (I : pack_inputs) (E : ack_estimates) (window now : Z) (A : snd_queue)
    : option CPacket * snd_queue :=
  if negb (m_bOpened I) then (None, A)
  else
    let r := lost_spec (length (a_lost A)) C E now A in
    let A1 := r.1.2 in
    match r.1.1, (if m_PacketFilter I then packControlPacket I else None) with
    | Some (x, q), _ => (Some (on_wire C now (rexmit_bits C q) x q), A1)
    | None, Some p => (Some (stamp (m_iTimeStamp p) (m_PeerID C) p), A1)
    | None, None =>
        match new_spec (Z.min window (cc_window I)) (getSndCryptoFlags I) A1 with
        | None => (None, A1)
        | Some (x, q) =>
            let p := on_wire C now (q_bits q) x q in
            if getSndCryptoFlags I =? 0 then (Some p, new_key A1 q)
            else match encrypt p with
                 | None => (None, new_key A1 q)
                 | Some d => (Some (set_packet_data d p), new_key A1 (pkt_set_data d q))
                 end
        end
    end.

(** The pace of the packets: what the sender is behind with, and the time of the next
    packet with what is left of it; the second packet of a probing pair follows at once. *)
Definition lateness (now : Z) (T : send_times) : Z :=
  m_tdSendTimeDiff T + (if m_tsNextSendTime T =? 0 then 0 else Z.max 0 (now - m_tsNextSendTime T)).
Definition pace (interval now late : Z) (probe : bool) : Z * Z :=
  if probe then (now, late) else (now + Z.max 0 (interval - late), Z.max 0 (late - interval)).
(** A new packet whose number is a multiple of 16 is the first of a pair. *)
Definition is_probe (C : path_config) (I : pack_inputs) (E : ack_estimates) (now : Z) (A : snd_queue) (p : CPacket) : bool :=
  match (lost_spec (length (a_lost A)) C E now A).1.1, (if m_PacketFilter I then packControlPacket I else None) with
  | None, None => m_iSeqNo p mod 16 =? 0
  | _, _ => false
  end.
(** The size that [packData] answers, and the time, which it keeps. *)
Definition paced (C : path_config) (I : pack_inputs) (now : Z) (D : CUDT_path) (A : snd_queue)
    (payload t : Z) (pkt : option CPacket) (D' : CUDT_path) : Prop :=
  match pkt with
  | Some p => payload = len (m_pcData p) ∧ t = m_tsNextSendTime (d_times D') ∧
      (t, m_tdSendTimeDiff (d_times D')) = pace (m_tdSendInterval I) now (lateness now (d_times D)) (is_probe C I (d_est D) now A p)
  | None => payload <= 0
  end.

Lemma next_send_pace I now probe T :
  (m_tsNextSendTime (next_send I now probe T), m_tdSendTimeDiff (next_send I now probe T))
  = pace (m_tdSendInterval I) now (m_tdSendTimeDiff T) probe.
Proof. unfold next_send, pace. destruct probe; [done|]. case_match; cbn; f_equal; lia. Qed.
Lemma late_times now D :
  let D0 := if negb (m_tsNextSendTime (d_times D) =? 0) && (m_tsNextSendTime (d_times D) <? now)
            then with_times {| m_tsNextSendTime := m_tsNextSendTime (d_times D);
              m_tdSendTimeDiff := m_tdSendTimeDiff (d_times D) + (now - m_tsNextSendTime (d_times D));
              m_tsLastSndTime := m_tsLastSndTime (d_times D) |} D
            else D in
  m_tdSendTimeDiff (d_times D0) = lateness now (d_times D).
Proof.
  unfold lateness. destruct (Z.eqb_spec (m_tsNextSendTime (d_times D)) 0); cbn [negb andb]; [lia|].
  destruct (Z.ltb_spec (m_tsNextSendTime (d_times D)) now); cbn; lia.
Qed.

Lemma packData_paced size mss C I now D A :
  path_ok size mss D A → getSndCryptoFlags I ≠ -1 →
  let r := pack_spec C I (d_est D) (m_iFlowWindowSize D) now A in
  ∃ payload t D' acts, packData encrypt C I now D = Some (payload, t, r.1, D', acts) ∧ path_ok size mss D' r.2 ∧
    paced C I now D A payload t r.1 D'.
Proof.
  intros H Hkey. unfold packData, pack_spec, paced, is_probe. cbv zeta. pose proof (late_times now D) as Hlate. cbv zeta in Hlate. revert Hlate.
  set (D0 := if negb _ && _ then _ else D). intros Hlate.
  assert (path_ok size mss D0 A) as H0 by (unfold D0; case_match; [by apply path_times|done]).
  assert (d_est D0 = d_est D ∧ m_iFlowWindowSize D0 = m_iFlowWindowSize D) as [E1 E2] by (unfold D0; by case_match).
  clearbody D0. destruct (m_bOpened I); cbn [negb]; [|by eexists _, _, _, _].
  destruct (packLostData_run _ _ C now _ _ H0) as (D1 & -> & H1 & Ee & Et & Ew & _). rewrite E1, E2, <- Et in *.
  set (r := lost_spec _ _ _ _ _) in *. cbn [mbind option_bind].
  destruct r.1.1 as [[x q]|]; cbn [lost_packet fst snd].
  { unfold pack_sent. eexists _, _, _, _. split; [done|]. split; [by apply path_times|]. split; [done|]. split; [done|].
    rewrite <- Hlate. apply next_send_pace. }
  destruct (if m_PacketFilter I then packControlPacket I else None) as [p|].
  { unfold pack_sent. eexists _, _, _, _. split; [done|]. split; [by apply path_times|]. split; [done|]. split; [done|].
    rewrite <- Hlate. apply next_send_pace. }
  pose proof (pack_new_run _ _ I _ _ H1 Hkey) as Hn. rewrite Ew in Hn.
  assert (∀ p, (Z.land (m_iSeqNo p) PUMASK_SEQNO_PROBE =? 0) = (m_iSeqNo p mod 16 =? 0)) as Hprobe.
  { intros p. by rewrite (Z.land_ones _ 4 ltac:(lia) : Z.land (m_iSeqNo p) PUMASK_SEQNO_PROBE = _). }
  destruct (new_spec _ _ _) as [[x q]|].
  - destruct Hn as (B & -> & Hok & Hd). cbn [mbind option_bind]. unfold on_wire.
    destruct (getSndCryptoFlags I =? 0).
    { unfold pack_sent. eexists _, _, _, _. split; [done|]. split; [by apply path_times|]. split; [done|]. split; [done|].
      rewrite <- Hlate, Hprobe. apply next_send_pace. }
    destruct (encrypt _) as [d|] eqn:Ed; [|by eexists _, _, _, _].
    apply encrypt_length in Ed. destruct (Hd d Ed) as (h & Eh & H3).
    cbn [m_pSndBuffer set_curr set_buf with_buffer with_snd].
    rewrite Eh. cbn [mbind option_bind]. unfold pack_sent. eexists _, _, _, _. split; [done|]. split; [by apply path_times|].
    split; [done|]. split; [done|]. rewrite <- Hlate, Hprobe. apply next_send_pace.
  - destruct Hn as [->| ->]; cbn [mbind option_bind]; eexists _, _, _, _; (split; [done|]); (split; [|done]); apply path_times; [|done].
    by apply path_set_buf.
Qed.
Lemma packData_run size mss C I now D A :
  path_ok size mss D A → getSndCryptoFlags I ≠ -1 →
  let r := pack_spec C I (d_est D) (m_iFlowWindowSize D) now A in
  ∃ payload t D' acts, packData encrypt C I now D = Some (payload, t, r.1, D', acts) ∧ path_ok size mss D' r.2.
Proof. intros H Hkey. destruct (packData_paced size mss C I now D A H Hkey) as (payload & t & D' & acts & E & H' & _). by exists payload, t, D', acts. Qed.
End packData.

(** ** Acknowledgements *)

(** The packets before the number [a] leave the queue. *)
Definition release (a : Z) (A : snd_queue) : snd_queue :=
  let n := Z.to_nat (a - a_ack A) in
  mkQ a (a_sent A - n) (drop n (a_pkts A)) (filter (λ y, a - 1 < y) (a_lost A)).
Definition ack_spec (a : Z) (A : snd_queue) : snd_queue := if a <=? a_ack A then A else release a A.

Lemma release_ok size mss D A B L a curr rexmit :
  path_ok size mss D A → a_ack A < a <= a_ack A + Z.of_nat (length (a_pkts A)) →
  buf_pos B (a_sent A - Z.to_nat (a - a_ack A)) (drop (Z.to_nat (a - a_ack A)) (a_pkts A)) →
  same_meta (m_pSndBuffer D) B → snd_holds size L (filter (λ y, a - 1 < y) (a_lost A)) →
  curr = Z.max (a_curr A) (a - 1) →
  path_ok size mss
    (with_snd (set_snd L (seqno a) (seqno curr) rexmit (d_snd D)) (with_buffer B (seqno a) (m_iSndNextSeqNo D) D))
    (release a A).
Proof.
  intros [[Ha Hc HL Hs Hf] H1 H2 H3 H4 H5 H6 H7 H8] Ha2 HB (M1 & M2 & M3 & _) HL' ->.
  unfold a_curr in *. set (n := Z.to_nat (a - a_ack A)) in *. pose proof (proj1 H3) as Hk.
  assert (Z.max (a_ack A + Z.of_nat (a_sent A) - 1) (a - 1) = a + Z.of_nat (a_sent A - n) - 1) as -> by lia.
  split; unfold release; cbn [a_ack a_sent a_pkts a_lost d_snd m_pSndBuffer m_iSndLastDataAck m_iSndNextSeqNo
    with_buffer with_snd]; fold n; try done.
  - split; try done; unfold a_curr; cbn [a_ack a_sent]; [lia|].
    intros x [Hx1 Hx2]%list_elem_of_filter. specialize (Hf x Hx2). lia.
  - rewrite H2. f_equal. rewrite length_drop. lia.
  - intros i q. rewrite lookup_drop. intros Hq. rewrite (H4 _ _ Hq). f_equal. lia.
  - by apply Forall_drop.
  - rewrite length_drop. lia.
  - by rewrite M1.
  - by rewrite M2, M3.
Qed.

(** How far from the queue an acknowledgement may be. *)
Definition ack_ok (a : Z) (A : snd_queue) : Prop := a_ack A - 2 ^ 28 <= a <= a_curr A + 1.

Lemma path_near size mss D A a : path_ok size mss D A → ack_ok a A → near (a_ack A) a.
Proof.
  intros H Ha. pose proof (path_size _ _ _ _ H). pose proof (snd_span _ _ _ _ _ (po_send _ _ _ _ H)).
  unfold ack_ok, near, m_iSeqNoTH in *. lia.
Qed.

(** The release of the buffer, before [m_iSndLastAck] is assigned. *)
Definition ack_pending (size mss a : Z) (D : CUDT_path) (A A' : snd_queue) : Prop :=
  m_iSndLastAck (d_snd D) = seqno (a_ack A) ∧ m_iSndCurrSeqNo (d_snd D) = seqno (a_curr A) ∧
  (a <= a_ack A → path_ok size mss D A') ∧
  (a_ack A <= a → ∀ rexmit, path_ok size mss
    (with_snd (set_snd (m_pSndLossList (d_snd D)) (seqno a) (m_iSndCurrSeqNo (d_snd D)) rexmit (d_snd D)) D) A').

Lemma updateSndLossListOnACK_run size mss b now D A a :
  path_ok size mss D A → ack_ok a A →
  ∃ D' acts, updateSndLossListOnACK b now (seqno a) D = Some (D', acts) ∧ ack_pending size mss a D' A (ack_spec a A) ∧
    same_acks D D' ∧ d_snd D' = set_snd (m_pSndLossList (d_snd D')) (m_iSndLastAck (d_snd D)) (m_iSndCurrSeqNo (d_snd D))
      (m_iReXmitCount (d_snd D)) (d_snd D).
Proof.
  intros H Ha. pose proof (path_near _ _ _ _ _ H Ha) as Hn. destruct (po_send _ _ _ _ H) as [Hla Hcu HL Hs Hf].
  unfold updateSndLossListOnACK, ack_spec. rewrite (po_ack _ _ _ _ H), seqoff_seqno by done. unfold ack_ok, a_curr in *.
  destruct (Z.leb_spec (a - a_ack A) 0).
  - rewrite (proj2 (Z.leb_le a _)) by lia. exists D, []. split; [done|]. split; [|split; [done|by destruct D as [[] ? ? ? ? ? ? ? ? ? ?]]].
    split; [done|]. split; [done|]. split; [done|]. intros Hge rexmit. replace a with (a_ack A) by lia.
    destruct H as [[Ha1 Hc1 HL1 Hs1 Hf1] H1 H2 H3 H4 H5 H6 H7 H8]. split; try done.
  - rewrite (proj2 (Z.leb_gt a _)) by lia. rewrite decseq_seqno. destruct (po_buf _ _ _ _ H) as [Hk _].
    destruct (CSndLossList_removeUpTo_run size _ _ (a - 1) HL) as (L & -> & HL').
    { intros h Hh. specialize (Hf h ltac:(destruct (a_lost A); [done|]; injection Hh as ->; left)).
      pose proof (path_size _ _ _ _ H). unfold near, m_iSeqNoTH in *. lia. }
    cbn [mbind option_bind]. destruct (ackData_pos _ _ _ (a - a_ack A) (po_buf _ _ _ _ H)) as (B & -> & HB & HM); [lia|].
    cbn [mbind option_bind]. eexists _, _. split; [done|]. split; [|by destruct D as [[] ? ? ? ? ? ? ? ? ? ?]].
    split; [done|]. split; [done|]. split; [lia|]. intros _ rexmit.
    pose proof (release_ok size mss D A B L a (a_curr A) rexmit H) as Hr. unfold a_curr in Hr.
    specialize (Hr ltac:(lia) HB HM HL' ltac:(lia)). rewrite <- Hcu in Hr. exact Hr.
Qed.

Lemma lite_ack_run size mss D A A' a t :
  ack_pending size mss a D A A' → near (a_ack A) a → path_ok size mss (lite_ack (seqno a) t D) A'.
Proof.
  intros (Ha & Hc & H1 & H2) Hn. unfold lite_ack. rewrite Ha, seqcmp_ge by (by apply near_sym).
  destruct (Z.leb_spec (a_ack A) a); [|apply H1; lia].
  change (with_snd ?S (with_acks ?p ?q ?r ?s ?u D)) with (with_acks p q r s u (with_snd S D)). by apply path_with_acks, H2.
Qed.
Lemma full_ack_run size mss D A A' a w t :
  ack_pending size mss a D A A' → near (a_ack A) a → a <= a_curr A + 1 → near a (a_curr A + 1) →
  path_ok size mss (full_ack (seqno a) w t D).2 A'.
Proof.
  intros (Ha & Hc & H1 & H2) Hn Hle Hn2. unfold full_ack. rewrite Ha, Hc, incseq_seqno, seqcmp_gt, seqcmp_ge by (done || by apply near_sym).
  rewrite (proj2 (Z.ltb_ge _ a)) by lia.
  assert (path_ok size mss (if a_ack A <=? a then
      with_snd (set_snd (m_pSndLossList (d_snd D)) (seqno a) (seqno (a_curr A)) 1 (d_snd D))
        (with_acks (m_iSndLastFullAck D) (m_iSndLastAck2 D) (m_SndLastAck2Time D) w t D) else D) A') as H.
  { destruct (Z.leb_spec (a_ack A) a); [|apply H1; lia]. rewrite <- Hc.
    change (with_snd ?S (with_acks ?p ?q ?r ?s ?u D)) with (with_acks p q r s u (with_snd S D)). by apply path_with_acks, H2. }
  revert H. generalize (if a_ack A <=? a then
      with_snd (set_snd (m_pSndLossList (d_snd D)) (seqno a) (seqno (a_curr A)) 1 (d_snd D))
        (with_acks (m_iSndLastFullAck D) (m_iSndLastAck2 D) (m_SndLastAck2Time D) w t D) else D) as D3.
  intros D3 H. destruct (_ <=? 0); [done|]. by apply path_with_acks.
Qed.

Lemma read_estimates_run C b words acksize D :
  (7 <= length words)%nat → ∃ E, read_estimates C b words acksize D = Some (with_est E D).
Proof.
  intros H. do 7 (destruct words as [|? words]; [simpl in H; lia|]). unfold read_estimates.
  change ((?x0 :: ?x1 :: ?x2 :: _) !! ACKD_RTT) with (Some x1). cbn.
  destruct (ACKD_TOTAL_SIZE_SMALL <? acksize); [|by eexists]. destruct (ACKD_TOTAL_SIZE_UDTBASE <? acksize); by eexists.
Qed.

Lemma processCtrlAck_run size mss C b words n ack_seqno t D A a :
  path_ok size mss D A → ack_ok a A → words !! 0%nat = Some (seqno a) → (7 <= length words)%nat →
  ∃ D' acts, processCtrlAck C b words n ack_seqno t D = Some (D', acts) ∧ path_ok size mss D' (ack_spec a A).
Proof.
  intros H Ha Hw Hl. unfold processCtrlAck. change ACKD_RCVLASTACK with 0%nat. rewrite Hw. cbn [mbind option_bind].
  pose proof (seqno_nonneg a). rewrite (proj2 (Z.ltb_ge (seqno a) 0)) by done.
  destruct (updateSndLossListOnACK_run _ _ (bSynSending C) t _ _ _ H Ha) as (D1 & acts & -> & Hp & _ & _).
  pose proof (path_near _ _ _ _ _ H Ha) as Hn. cbn [mbind option_bind].
  case_match; [eexists _, _; split; [done|]; by eapply lite_ack_run|].
  destruct (answer_ack t ack_seqno D1) as [D2 answer] eqn:E2.
  assert (ack_pending size mss a D2 A (ack_spec a A)) as Hp2.
  { unfold answer_ack in E2. case_match; injection E2 as <- <-; [|done]. destruct Hp as (P1 & P2 & P3 & P4).
    split; [done|]. split; [done|]. split; [intros ?; by apply path_with_acks, P3|]. intros Hge rexmit.
    change (with_snd ?S (with_acks ?p ?q ?r ?s ?u D1)) with (with_acks p q r s u (with_snd S D1)). by apply path_with_acks, P4. }
  destruct (lookup_lt_is_Some_2 words 3) as [w Hw3]; [lia|]. change ACKD_BUFFERLEFT with 3%nat. rewrite Hw3. cbn [mbind option_bind].
  assert (near a (a_curr A + 1)) as Hn2.
  { pose proof (path_size _ _ _ _ H). pose proof (snd_span _ _ _ _ _ (po_send _ _ _ _ H)).
    unfold ack_ok, near, m_iSeqNoTH in *. lia. }
  pose proof (full_ack_run _ _ _ _ _ _ w t Hp2 Hn ltac:(apply Ha) Hn2) as H3.
  destruct (full_ack (seqno a) w t D2) as [more D3]. cbn [snd] in H3.
  case_match; [by eexists _, _|]. destruct (read_estimates_run C b words (n / ACKD_FIELD_SIZE) D3 Hl) as (E & ->).
  cbn [mbind option_bind]. eexists _, _. split; [done|]. by apply path_est.
Qed.

(** ** Reports and timeouts *)

(** The numbers of a report that are in flight are to be sent again too. *)
Definition report_spec (l : list range) (A : snd_queue) : snd_queue :=
  mkQ (a_ack A) (a_sent A) (a_pkts A)
    (filter (λ x, x ∈ a_lost A ∨ x ∈ numbers l) (seqZ (a_ack A) (Z.of_nat (a_sent A)))).
Lemma path_snd size mss D A S ms :
  path_ok size mss D A → sending size S (a_ack A) (a_curr A) ms →
  path_ok size mss (with_snd S D) (mkQ (a_ack A) (a_sent A) (a_pkts A) ms).
Proof. intros [? ? ? ? ? ? ? ? ?] HS. by split. Qed.

Lemma sending_filter size S ack curr ms n (P : Z → Prop) `{∀ x, Decision (P x)} :
  sending size S ack curr ms → curr = ack + n - 1 → (∀ x, x ∈ ms ↔ P x ∧ ack <= x <= curr) →
  ms = filter P (seqZ ack n).
Proof.
  intros HS -> Hms. apply sorted_ext; [by eapply snd_holds_sorted, HS|apply sorted_filter, sorted_seqZ|].
  intros x. rewrite Hms, list_elem_of_filter, elem_of_seqZ. naive_solver lia.
Qed.
Lemma processCtrlLossReport_run size mss D A l :
  path_ok size mss D A → report_ok (a_ack A) (a_curr A) l →
  ∃ S' acts, processCtrlLossReport (d_snd D) (loss_words l) = Some (S', acts) ∧
    path_ok size mss (with_snd S' D) (report_spec l A).
Proof.
  intros H Hl. destruct (read_losses_run _ _ _ _ _ l [] (po_send _ _ _ _ H) Hl) as (S' & ms' & E & HS & _ & _ & Hms).
  rewrite app_nil_r in E. unfold processCtrlLossReport. rewrite E. cbn [read_losses mbind option_bind].
  eexists _, _. split; [done|]. unfold report_spec.
  rewrite <- (sending_filter _ _ _ _ ms' _ _ HS eq_refl).
  - apply (path_snd _ _ _ _ _ _ H). by destruct HS.
  - intros x. rewrite Hms. pose proof (snd_in_flight _ _ _ _ _ (po_send _ _ _ _ H) x) as Hx.
    split; [|tauto]. intros [Hin|[Hge Hin]]; [by split; [left|apply Hx]|]. split; [by right|].
    apply elem_of_numbers in Hin as (r & Hr & Hin). destruct (Hl r Hr) as [? _]. lia.
Qed.

(** All that is in flight is to be sent again. *)
Definition timer_spec (due : bool) (E : rexmit_inputs) (A : snd_queue) : snd_queue :=
  if due && negb (a_sent A =? 0)%nat && negb (is_laterexmit E && negb (bool_decide (a_lost A = []))) then
    mkQ (a_ack A) (a_sent A) (a_pkts A) (seqZ (a_ack A) (Z.of_nat (a_sent A)))
  else A.
Lemma checkRexmitTimer_run size mss D A E :
  path_ok size mss D A →
  ∃ S' acts, checkRexmitTimer (d_snd D) E = Some (S', acts) ∧
    path_ok size mss (with_snd S' D) (timer_spec (rexmit_due (d_snd D) E) E A).
Proof.
  intros H. unfold checkRexmitTimer, timer_spec. set (S := d_snd D).
  assert (∀ S', path_ok size mss (with_snd S' D) A → path_ok size mss (with_snd (count_rexmit S') D) A) as Hcr.
  { intros S' [[] ? ? ? ? ? ? ? ?]. by split. }
  assert (path_ok size mss (with_snd S D) A) as H0 by (destruct H as [[] ? ? ? ? ? ? ? ?]; by split).
  destruct (rexmit_due S E); cbn [andb]; [|by eexists _, _].
  destruct (Nat.eqb_spec (a_sent A) 0) as [Ez|Ez]; cbn [negb andb].
  - assert (rexmit_unacked S E = Some S) as ->; [|eexists _, _; split; [done|]; by apply Hcr].
    unfold rexmit_unacked. unfold S. rewrite (path_flight _ _ _ _ H), Ez. done.
  - unfold S. destruct (rexmit_unacked_run _ _ E _ _ _ (po_send _ _ _ _ H)) as (S' & -> & HS & _); [unfold a_curr; lia|].
    cbn [mbind option_bind]. eexists _, _. split; [done|].
    assert (sending size (count_rexmit S') (a_ack A) (a_curr A)
      (if is_laterexmit E && negb (bool_decide (a_lost A = [])) then a_lost A
       else seqZ (a_ack A) (a_curr A - a_ack A + 1))) as HS' by (by destruct HS).
    destruct (is_laterexmit E && negb (bool_decide (a_lost A = []))); cbn [negb].
    + destruct H as [? ? ? ? ? ? ? ? ?]. by split.
    + replace (a_curr A - a_ack A + 1) with (Z.of_nat (a_sent A)) in HS' by (unfold a_curr; lia).
      by apply (path_snd _ _ _ _ _ _ H).
Qed.

(** ** Late packets *)

Definition late_spec (t : Z) (A : snd_queue) : snd_queue :=
  let n := n_late t (a_pkts A) in if (n =? 0)%nat then A else release (a_ack A + Z.of_nat n) A.

Lemma path_same_buf size mss D A B :
  path_ok size mss D A → buf_pos B (a_sent A) (a_pkts A) → same_meta (m_pSndBuffer D) B → path_ok size mss (set_buf B D) A.
Proof.
  intros [? ? ? ? ? ? ? E7 E8] HB (M1 & M2 & M3 & _). split; cbn [m_pSndBuffer set_buf with_buffer]; try done.
  - by rewrite M1.
  - by rewrite M2, M3.
Qed.
Lemma drop_late_run size mss now th D A :
  path_ok size mss D A →
  ∃ D' acts, drop_late now th D = Some (D', acts) ∧ path_ok size mss D' (late_spec (now - th * 1000) A) ∧
    m_tsLastOriginTime (m_pSndBuffer D') = m_tsLastOriginTime (m_pSndBuffer D).
Proof.
  intros H. unfold drop_late, late_spec. set (t := now - th * 1000).
  destruct (dropLateData_pos _ _ _ t (po_buf _ _ _ _ H)) as (B & -> & HB & HM). cbn [mbind option_bind].
  set (n := n_late t (a_pkts A)) in *. pose proof (n_late_length t (a_pkts A)) as Hn. fold n in Hn.
  destruct (Nat.eqb_spec n 0) as [En|En].
  - rewrite En in *. cbn. eexists _, _. split; [done|]. rewrite Nat.sub_0_r, drop_0 in HB.
    split; [by apply path_same_buf|apply HM].
  - rewrite (proj2 (Z.ltb_lt 0 _)) by lia. pose proof (path_size _ _ _ _ H) as Hsz. pose proof (po_room _ _ _ _ H) as Hroom.
    destruct (po_send _ _ _ _ H) as [Hla Hcu HL [Hs1 Hs2] Hf]. destruct (po_buf _ _ _ _ H) as [Hk _]. unfold a_curr in *.
    rewrite (po_ack _ _ _ _ H), incseq_by_seqno by (unfold m_iMaxSeqNo; lia). rewrite decseq_seqno.
    set (a := a_ack A + Z.of_nat n) in *.
    destruct (CSndLossList_removeUpTo_run size _ _ (a - 1) HL) as (L & -> & HL').
    { intros h Hh. specialize (Hf h ltac:(destruct (a_lost A); [done|]; injection Hh as ->; left)).
      unfold near, m_iSeqNoTH, a in *. lia. }
    cbn [mbind option_bind]. rewrite Hcu, seqcmp_lt by (unfold near, m_iSeqNoTH, a; lia).
    eexists _, _. split; [done|]. split; [|apply HM]. set (c := if _ <? a - 1 then _ else _).
    assert (c = seqno (Z.max (a_curr A) (a - 1))) as -> by (unfold c, a_curr; destruct (Z.ltb_spec (a_ack A + Z.of_nat (a_sent A) - 1) (a - 1)); f_equal; lia).
    eapply release_ok; [exact H|unfold a; lia| |done|exact HL'|done].
    unfold a. replace (Z.to_nat (a_ack A + Z.of_nat n - a_ack A)) with n by lia. done.
Qed.

Lemma getCurrBufSize_span_run B k pkts :
  buf_pos B k pkts → ∃ span, getCurrBufSize_span B = Some (Z.of_nat (length pkts), m_iBytesCount B, span).
Proof.
  intros H. unfold getCurrBufSize_span. rewrite (buf_pos_count _ _ _ H). destruct (Z.ltb_spec 0 (Z.of_nat (length pkts))) as [Hl|Hl].
  - destruct H as [_ (ps & pu & free & H)]. rewrite (b_first _ _ _ _ _ _ H). pose proof (stores_all _ _ _ _ _ _ H) as Hall.
    rewrite take_drop in Hall. destruct Hall as [|p q l qs (b & Hb & _) _]; [simpl in Hl; lia|].
    cbn [head from_option]. unfold id. rewrite Hb. by eexists.
  - by eexists.
Qed.
Lemma checkNeedDrop_run size mss C now D A :
  path_ok size mss D A →
  checkNeedDrop C now D = Some (inl MN_INVALBUFFERAPI) ∨
  ∃ congestion D' acts A', checkNeedDrop C now D = Some (inr (congestion, D', acts)) ∧ path_ok size mss D' A' ∧
    (A' = A ∨ A' = late_spec (now - drop_threshold C * 1000) A) ∧
    m_tsLastOriginTime (m_pSndBuffer D') = m_tsLastOriginTime (m_pSndBuffer D).
Proof.
  intros H. unfold checkNeedDrop. destruct (m_bPeerTLPktDrop C); cbn [negb]; [|right; eexists _, _, _, A; by auto].
  destruct (bMessageAPI C); cbn [negb]; [right|by left].
  destruct (getCurrBufSize_span_run _ _ _ (po_buf _ _ _ _ H)) as (span & ->). cbn [mbind option_bind].
  destruct (_ && _); [|eexists _, _, _, A; by auto].
  destruct (drop_late_run _ _ now (drop_threshold C) _ _ H) as (D' & acts & -> & H' & Ht). cbn [mbind option_bind].
  eexists _, _, _, _. split; [done|]. split; [exact H'|]. split; [by right|exact Ht].
Qed.

(** ** Sending a message *)

Lemma iter_incseq n x : Nat.iter n incseq (seqno x) = seqno (x + Z.of_nat n).
Proof. revert x. induction n as [|n IH]; intros x; [by rewrite Z.add_0_r|]. rewrite Nat.iter_succ_r, incseq_seqno, IH. f_equal. lia. Qed.
Lemma msg_pkts_num n i size mss next inord data time ttl src x j q :
  msg_pkts n i size mss next inord data time ttl src (seqno x) !! j = Some q → q_seq q = seqno (x + Z.of_nat j).
Proof.
  revert i src x j. induction n as [|n IH]; intros i src x j; cbn [msg_pkts]; [done|]. destruct j as [|j]; cbn [lookup list_lookup].
  - intros [= <-]. cbn. f_equal. lia.
  - rewrite incseq_seqno. intros Hq%IH. rewrite Hq. f_equal. lia.
Qed.
Lemma msg_pkts_data n i size mss next inord data time ttl src seq :
  0 < mss → 0 <= i → (∀ j, i <= j < i + Z.of_nat n → j * mss < len data) →
  Forall (λ q, 0 < len (q_data q)) (msg_pkts n i size mss next inord data time ttl src seq).
Proof.
  intros Hm. revert i src seq. induction n as [|n IH]; intros i src seq Hi Hj; cbn [msg_pkts]; constructor.
  - cbn. specialize (Hj i ltac:(lia)). rewrite len_part by lia. lia.
  - apply IH; [lia|]. intros j ?. apply Hj. lia.
Qed.
Lemma blocks_for_le n mss k : 0 <= n → 0 < mss → n <= k * mss → 0 <= k → blocks_for n mss <= k.
Proof.
  intros Hn Hm Hk Hk0. destruct (blocks_for_spec n mss Hn Hm) as (_ & Hj & _). destruct (Z.leb_spec (blocks_for n mss) k); [done|].
  specialize (Hj k ltac:(lia)). lia.
Qed.
Lemma send_minlen_blocks n mss : 0 < n → 0 < mss → blocks_for n mss <= Z.quot (n + mss - 1) mss.
Proof. intros Hn Hm. rewrite Z.quot_div_nonneg by lia. apply blocks_for_le; [lia|done|divlia|divlia]. Qed.

(** The packets [msg] of a message enter the queue. *)
Definition enqueue (msg : list spkt) (A : snd_queue) : snd_queue :=
  mkQ (a_ack A) (a_sent A) (a_pkts A ++ msg) (a_lost A).

Section sendmsg.
Context (uninit : Z → Block) (size mss : Z).
Hypothesis Hpiece : ∀ p, len (SndBuf.m_pcData (uninit p)) = mss.

Lemma path_add D A c data now :
  path_ok size mss D A → m_tsLastOriginTime (m_pSndBuffer D) < now < 2 ^ 64 → 0 < len data →
  pktseq c = m_iSndNextSeqNo D → Z.of_nat (length (a_pkts A)) + blocks_for (len data) mss < size →
  ∃ B c', addBuffer uninit (m_pSndBuffer D) data c now = Some (B, c') ∧
    path_ok size mss (with_buffer B (m_iSndLastDataAck D) (pktseq c') D)
      (enqueue (message (m_pSndBuffer D) data c now) A) ∧
    m_iCount B = m_iCount (m_pSndBuffer D) + blocks_for (len data) mss.
Proof.
  intros H Ht Hd Hc Hroom. pose proof (po_clock _ _ _ _ H) as Hclk. pose proof (po_mss _ _ _ _ H) as Hm.
  destruct (addBuffer_pos uninit _ _ _ data c now (po_buf _ _ _ _ H)) as (B & c' & -> & HB & Es & _ & _ & Em & El & Er);
    [by rewrite Hm|lia|lia|].
  pose proof (buf_pos_mss _ _ _ (po_buf _ _ _ _ H)) as Hm0. rewrite Hm in *.
  destruct (blocks_for_spec (len data) mss ltac:(unfold len; lia) Hm0) as (Hb0 & Hbj & _).
  set (msg := message (m_pSndBuffer D) data c now) in *.
  assert (length msg = Z.to_nat (blocks_for (len data) mss)) as Hml
    by (unfold msg, message; rewrite Hm; apply length_msg_pkts).
  exists B, c'. split; [done|]. rewrite (buf_pos_count _ _ _ HB), (buf_pos_count _ _ _ (po_buf _ _ _ _ H)), length_app, Hml.
  split; [|lia]. destruct H as [[] H1 H2 H3 H4 H5 H6 H7 H8].
  split; cbn [a_ack a_sent a_pkts a_lost enqueue m_pSndBuffer with_buffer m_iSndLastDataAck m_iSndNextSeqNo]; try done.
  - rewrite Es, Hc, H2, iter_incseq, length_app, Hml. f_equal. lia.
  - intros i q [Hq|[Hge Hq]]%lookup_app_Some; [by apply H4|]. unfold msg, message in Hq. rewrite Hc, H2 in Hq.
    rewrite (msg_pkts_num _ _ _ _ _ _ _ _ _ _ _ _ _ Hq). f_equal. lia.
  - apply Forall_app. split; [done|]. unfold msg, message. rewrite Hm. apply msg_pkts_data; [done|lia|].
    intros j Hj. apply Hbj. lia.
  - rewrite length_app, Hml. lia.
  - by rewrite El.
Qed.

(** What a call of [sendmsg2] does to the queue: nothing, or it drops what is late,
    or the message enters, [whole] in the message mode. *)
Definition send_ok (whole : bool) (data : bytes) (A : snd_queue) (r : send_result) (A' : snd_queue) : Prop :=
  match r with
  | Returned n => n = 0 ∧ A' = A ∨
      ∃ msg, 0 < n <= len data ∧ (whole = true → n = len data) ∧
        concat (q_data <$> msg) = take (Z.to_nat n) data ∧ A' = enqueue msg A
  | _ => A' = A
  end.
Lemma sendmsg_store_run C now congestion data c D A :
  path_ok size mss D A → m_iMaxSRTPayloadSize C = mss → iSndBufSize C < size → m_tsLastOriginTime (m_pSndBuffer D) < now < 2 ^ 64 →
  0 < len data → send_minlen C (len data) <= sndBuffersLeft C D →
  ∃ r c' D' acts A', sendmsg_store uninit C now congestion data c D = Some (r, c', D', acts) ∧
    path_ok size mss D' A' ∧ send_ok (bMessageAPI C) data A r A'.
Proof.
  intros H Hmss Hbuf Ht Hd Hleft. unfold sendmsg_store.
  destruct (negb (srctime c =? 0) && (srctime c <? tsStartTime C)); [by eexists _, _, D, _, A|].
  set (n := if bMessageAPI C then _ else _). set (src := if negb (srctime c =? 0) && _ then 0 else srctime c).
  pose proof (buf_pos_mss _ _ _ (po_buf _ _ _ _ H)) as Hm0. rewrite (po_mss _ _ _ _ H) in Hm0.
  assert (sndBuffersLeft C D = iSndBufSize C - Z.of_nat (length (a_pkts A))) as El
    by (unfold sndBuffersLeft, SndBuf.getCurrBufSize; by rewrite (buf_pos_count _ _ _ (po_buf _ _ _ _ H))).
  unfold send_minlen in Hleft. rewrite Hmss in *.
  assert (0 < n <= len data ∧ blocks_for n mss <= sndBuffersLeft C D) as [Hn Hb].
  { unfold n. destruct (bMessageAPI C).
    - split; [lia|]. etrans; [by apply send_minlen_blocks|done].
    - assert (0 < sndBuffersLeft C D * mss) by nia. split; [lia|]. apply blocks_for_le; lia. }
  assert (len (take (Z.to_nat n) data) = n) as Eln by (unfold len in *; rewrite length_take; lia).
  destruct (path_add D A {| msgttl := msgttl c; inorder := inorder c; srctime := src; pktseq := m_iSndNextSeqNo D; msgno := msgno c |}
    (take (Z.to_nat n) data) now H Ht) as (B & c' & -> & H' & _); [lia|done|rewrite Eln; lia|].
  cbn [mbind option_bind]. eexists _, _, _, _, _. split; [done|]. split; [exact H'|]. right. eexists. split; [done|].
  split; [unfold n; by intros ->|]. split; [|done]. unfold message. rewrite (po_mss _ _ _ _ H), Eln.
  destruct (blocks_for_spec n mss ltac:(lia) Hm0) as (Hb0 & _ & _).
  rewrite msg_pkts_concat by (rewrite ?Eln; lia). by rewrite drop_0.
Qed.

Lemma sendmsg2_run C St now data c D A :
  path_ok size mss D A → m_iMaxSRTPayloadSize C = mss → iSndBufSize C < size → m_tsLastOriginTime (m_pSndBuffer D) < now < 2 ^ 64 →
  ∃ r c' D' acts A1 A', sendmsg2 uninit C St now data c D = Some (r, c', D', acts) ∧ path_ok size mss D' A' ∧
    (A1 = A ∨ A1 = late_spec (now - drop_threshold C * 1000) A) ∧ send_ok (bMessageAPI C) data A1 r A'.
Proof.
  intros H Hmss Hbuf Ht. unfold sendmsg2. destruct (sendmsg_check C St (len data) c D) as [r|] eqn:Ec.
  { exists r, c, D, [], A, A. split; [done|]. split; [done|]. split; [by left|]. unfold sendmsg_check in Ec.
    repeat (case_match; [injection Ec as <-; (done || by left)|]). done. }
  assert (0 < len data) as Hd.
  { unfold sendmsg_check in Ec. repeat (case_match; [done|]). lia. }
  set (D1 := if _ =? 0 then _ else D).
  assert (m_tsLastOriginTime (m_pSndBuffer D1) = m_tsLastOriginTime (m_pSndBuffer D)) as Et1 by (unfold D1; by case_match).
  assert (path_ok size mss D1 A) as H1.
  { unfold D1. case_match; [|done].
    change (with_snd ?S (with_acks ?p ?q ?r ?s ?u D)) with (with_acks p q r s u (with_snd S D)). apply path_with_acks.
    destruct H as [[] ? ? ? ? ? ? ? ?]. by split. }
  clearbody D1. destruct (checkNeedDrop_run _ _ C now _ _ H1) as [->|(cg & D2 & acts & A1 & -> & H2 & HA & Et2)]; cbn [mbind option_bind].
  { eexists _, _, D1, _, A, A. split; [done|]. split; [done|]. by split; [left|]. }
  destruct (Z.ltb_spec (sndBuffersLeft C D2) (send_minlen C (len data))).
  { eexists _, _, D2, _, A1, A1. split; [done|]. split; [done|]. split; [done|]. by case_match. }
  destruct (sendmsg_store_run C now cg data c D2 A1 H2 Hmss Hbuf) as (r & c' & D' & acts' & A' & -> & H' & Hs); [lia|done|done|].
  cbn [mbind option_bind]. by eexists _, _, D', _, A1, A'.
Qed.
Lemma sendmsg2_resume_run C St now congestion data c D A :
  path_ok size mss D A → m_iMaxSRTPayloadSize C = mss → iSndBufSize C < size → m_tsLastOriginTime (m_pSndBuffer D) < now < 2 ^ 64 → 0 < len data →
  ∃ r c' D' acts A', sendmsg2_resume uninit C St now congestion data c D = Some (r, c', D', acts) ∧
    path_ok size mss D' A' ∧ send_ok (bMessageAPI C) data A r A'.
Proof.
  intros H Hmss Hbuf Ht Hd. unfold sendmsg2_resume. repeat (case_match; [by eexists _, _, D, _, A|]).
  destruct (Z.ltb_spec (sndBuffersLeft C D) (send_minlen C (len data))).
  { eexists _, _, D, _, A. split; [done|]. split; [done|]. by case_match; [|left]. }
  by apply sendmsg_store_run.
Qed.
End sendmsg.

(** ** What a step keeps *)

(** The packets sent and not yet released have the data and the message number that
    they were sent with. *)
Definition keeps (A A' : snd_queue) : Prop :=
  a_ack A <= a_ack A' ∧
  ∀ x q, a_ack A <= x <= a_curr A → a_ack A' <= x → a_pkts A !! Z.to_nat (x - a_ack A) = Some q →
    x <= a_curr A' ∧ ∃ q', a_pkts A' !! Z.to_nat (x - a_ack A') = Some q' ∧ q_data q' = q_data q ∧ q_bits q' = q_bits q.

Lemma keeps_refl A : keeps A A.
Proof. split; [lia|]. intros x q H1 H2 Hq. split; [lia|]. by exists q. Qed.
Lemma keeps_trans A1 A2 A3 : keeps A1 A2 → keeps A2 A3 → keeps A1 A3.
Proof.
  intros [H1 K1] [H2 K2]. split; [lia|]. intros x q Hx Hx3 Hq.
  destruct (K1 x q Hx ltac:(lia) Hq) as (Hx2 & q2 & Hq2 & E1 & E2).
  destruct (K2 x q2 ltac:(lia) Hx3 Hq2) as (? & q3 & ? & E3 & E4). split; [done|]. exists q3. split; [done|]. by rewrite E3, E4.
Qed.
(** The same packets, or more; more of them sent. *)
Lemma keeps_more A A' :
  a_ack A' = a_ack A → (a_sent A <= a_sent A')%nat →
  (∀ i q, (i < a_sent A)%nat → a_pkts A !! i = Some q →
    ∃ q', a_pkts A' !! i = Some q' ∧ q_data q' = q_data q ∧ q_bits q' = q_bits q) → keeps A A'.
Proof.
  intros E Hs Hq. unfold keeps, a_curr. rewrite E. split; [lia|]. intros x q Hx _ Hxq. split; [lia|]. apply Hq; [lia|done].
Qed.
Lemma keeps_same A A' : a_ack A' = a_ack A → a_sent A' = a_sent A → a_pkts A' = a_pkts A → keeps A A'.
Proof. intros E1 E2 E3. apply keeps_more; [done|lia|]. intros i q _ Hq. rewrite E3. by exists q. Qed.
Lemma keeps_release A a : a_ack A <= a → keeps A (release a A).
Proof.
  intros Ha. split; [exact Ha|]. unfold a_curr, release. cbn [a_ack a_sent a_pkts]. intros x q Hx Hx' Hq. split; [lia|]. exists q. split; [|done]. rewrite lookup_drop.
  by replace (Z.to_nat (a - a_ack A) + Z.to_nat (x - a))%nat with (Z.to_nat (x - a_ack A)) by lia.
Qed.
Lemma keeps_late t A : keeps A (late_spec t A).
Proof. unfold late_spec. case_match; [apply keeps_refl|]. apply keeps_release. lia. Qed.
Lemma keeps_ack a A : keeps A (ack_spec a A).
Proof. unfold ack_spec. destruct (Z.leb_spec a (a_ack A)); [apply keeps_refl|]. apply keeps_release. lia. Qed.
Lemma keeps_enqueue msg A : keeps A (enqueue msg A).
Proof. apply keeps_more; [done|done|]. intros i q _ Hq. exists q. cbn. by rewrite (lookup_app_l_Some _ _ _ _ Hq). Qed.
Lemma keeps_send b data A r A' : send_ok b data A r A' → keeps A A'.
Proof.
  unfold send_ok. destruct r; [|intros ->; apply keeps_refl..].
  intros [[_ ->]|(msg & _ & _ & _ & ->)]; [apply keeps_refl|apply keeps_enqueue].
Qed.
Lemma keeps_new A q : keeps A (new_key A q).
Proof.
  apply keeps_more; [done|cbn; lia|]. intros i p Hi Hp. exists p. cbn. by rewrite list_lookup_insert_ne by lia.
Qed.
Lemma keeps_lost n C E now A : keeps A (lost_spec n C E now A).1.2.
Proof.
  revert A. induction n as [|n IH]; intros A; cbn [lost_spec]; [apply keeps_refl|].
  destruct (a_lost A) as [|x ms]; [apply keeps_refl|]. set (i := Z.to_nat (x - a_ack A)).
  destruct (a_pkts A !! i) as [q|] eqn:Hq; [|by apply keeps_same]. destruct (rexmit_recently C E now q).
  { eapply keeps_trans; [|apply IH]. by apply keeps_same. }
  destruct (expired q now); cbn [fst snd].
  - eapply keeps_trans; [|apply IH]. apply keeps_more; cbn; [done|lia|]. intros j p _ Hp. by exists p.
  - apply keeps_more; cbn; [done|done|]. intros j p _ Hp. destruct (decide (i = j)) as [<-|Hne].
    + rewrite list_lookup_insert_eq by (by eapply lookup_lt_Some). rewrite Hq in Hp. injection Hp as <-. by eexists.
    + rewrite list_lookup_insert_ne by done. by exists p.
Qed.
Lemma keeps_pack encrypt C I E w now A : keeps A (pack_spec encrypt C I E w now A).2.
Proof.
  unfold pack_spec. case_match; [apply keeps_refl|]. pose proof (keeps_lost (length (a_lost A)) C E now A) as Hl.
  set (r := lost_spec _ _ _ _ _) in *. repeat case_match; cbn [snd]; try exact Hl;
    (eapply keeps_trans; [exact Hl|apply keeps_new]).
Qed.

(** ** Steps *)

Lemma seqno_shift a x : seqno (seqno a + x) = seqno (a + x).
Proof. unfold seqno. by rewrite Zplus_mod_idemp_l. Qed.
Lemma seqno_period x k : seqno (x + k * 2 ^ 31) = seqno x.
Proof. unfold seqno. apply Z.mod_add. lia. Qed.
Lemma seqoff_period a s :
  0 <= a < 2 ^ 31 → 0 <= s < 2 ^ 31 → ∃ k, a + seqoff a s = s + k * 2 ^ 31.
Proof.
  intros Ha Hs. unfold seqoff, abs. rewrite (i32_small (a - s)), (i32_small (Z.abs (a - s))) by lia.
  unfold m_iSeqNoTH, m_iMaxSeqNo. destruct (Z.ltb_spec (Z.abs (a - s)) 0x3FFFFFFF).
  - exists 0. rewrite i32_small; lia.
  - destruct (Z.ltb_spec a s); [exists (-1)|exists 1]; rewrite i32_small; lia.
Qed.
(** A number as an offset from the front. *)
Lemma seqno_offset a d s : seqoff (seqno a) s = d → 0 <= s <= m_iMaxSeqNo → s = seqno (a + d).
Proof.
  intros <- Hs. pose proof (seqno_range a) as Ha. unfold m_iMaxSeqNo in Ha, Hs. rewrite <- seqno_shift.
  destruct (seqoff_period (seqno a) s) as (k & ->); [lia|lia|]. rewrite seqno_period, seqno_small; [done|].
  unfold m_iMaxSeqNo. lia.
Qed.

(** What the calls rely on: the clock moves between messages, a key is there when
    encryption is required, an ACK is not beyond the last packet sent, a report names
    ranges of packets that were sent. *)
Definition flight (D : CUDT_path) : Z := getFlightSpan (m_iSndLastAck (d_snd D)) (m_iSndCurrSeqNo (d_snd D)).
Definition clock_ok (D : CUDT_path) (now : Z) : bool :=
  (m_tsLastOriginTime (m_pSndBuffer D) <? now) && (now <? 2 ^ 64).
Definition ack_word_ok (D : CUDT_path) (words : list Z) : bool :=
  match words with
  | [] => false
  | s :: _ =>
      let d := seqoff (m_iSndLastDataAck D) s in
      (7 <=? length words)%nat && (0 <=? s) && (s <=? m_iMaxSeqNo) && (- 2 ^ 28 <=? d) && (d <=? flight D)
  end.
(** The words of a report: the ranges are offsets from the front. *)
Definition range_ok (n : Z) (r : range) : bool := (r.1 <=? r.2) && (r.2 <? n) && (- 2 ^ 29 <=? r.1).
Definition shift (a : Z) (l : list range) : list range := (λ r, (a + r.1, a + r.2)) <$> l.
Inductive path_call := Call (op : path_op) | CallReport (l : list range).
Definition call_op (D : CUDT_path) (c : path_call) : path_op :=
  match c with Call op => op | CallReport l => OpReport (loss_words (shift (m_iSndLastDataAck D) l)) end.
Definition call_ok (D : CUDT_path) (c : path_call) : bool :=
  match c with
  | Call (OpSend _ now _ _) => clock_ok D now
  | Call (OpResume _ now _ data _) => clock_ok D now && (0 <? len data)
  | Call (OpPack W _) => negb (getSndCryptoFlags W =? -1)
  | Call (OpAck _ words _ _ _) => ack_word_ok D words
  | Call (OpReport _) => false
  | Call (OpTimer _) => true
  | CallReport l => forallb (range_ok (flight D)) l
  end.

Lemma loss_words_shift a l : loss_words (shift (seqno a) l) = loss_words (shift a l).
Proof.
  induction l as [|[s e] l IH]; [done|]. cbn [shift fmap list_fmap loss_words]. fold (shift (seqno a) l) (shift a l).
  rewrite IH. f_equal. unfold range_words. cbn [fst snd]. rewrite !seqno_shift.
  replace (seqno a + s =? seqno a + e) with (a + s =? a + e); [done|]. apply Bool.eq_iff_eq_true. rewrite !Z.eqb_eq. lia.
Qed.

Section steps.
Context (uninit : Z → Block) (encrypt : CPacket → option bytes) (C : path_config) (size mss : Z).
Hypothesis Hpiece : ∀ p, len (SndBuf.m_pcData (uninit p)) = mss.
Hypothesis encrypt_length : ∀ p d, encrypt p = Some d → len d = len (m_pcData p).
Hypothesis Hmss : m_iMaxSRTPayloadSize C = mss.
Hypothesis Hbuf : iSndBufSize C < size.

Lemma path_step_run D A c :
  path_ok size mss D A → call_ok D c = true →
  ∃ p D' A', path_step uninit encrypt C (call_op D c) D = Some (p, D') ∧ path_ok size mss D' A' ∧ keeps A A'.
Proof.
  intros H Hc. destruct c as [op|l].
  2: { cbn [call_op call_ok path_step] in *. rewrite (po_ack _ _ _ _ H), loss_words_shift.
    destruct (processCtrlLossReport_run _ _ _ _ (shift (a_ack A) l) H) as (S' & acts & -> & H').
    - intros r Hr. unfold shift in Hr. apply list_elem_of_fmap in Hr as (r0 & -> & Hr). cbn [fst snd].
      apply list_elem_of_In in Hr. pose proof (proj1 (forallb_forall _ _) Hc r0 Hr) as Ho. unfold range_ok, flight in Ho.
      rewrite (path_flight _ _ _ _ H) in Ho. unfold a_curr. lia.
    - cbn [mbind option_bind]. eexists _, _, _. split; [done|]. split; [exact H'|]. by apply keeps_same. }
  destruct op as [St now data c|St now cg data c|W now|b words n s t|l|E]; cbn [call_op call_ok path_step] in *; try done.
  - unfold clock_ok in Hc. destruct (sendmsg2_run uninit size mss Hpiece C St now data c D A H Hmss Hbuf)
      as (r & c' & D' & acts & A1 & A' & -> & H' & HA & Hs); [lia|]. cbn [mbind option_bind].
    exists None, D', A'. split; [done|]. split; [done|]. eapply keeps_trans; [|by eapply keeps_send].
    destruct HA as [->| ->]; [apply keeps_refl|apply keeps_late].
  - unfold clock_ok in Hc. destruct (sendmsg2_resume_run uninit size mss Hpiece C St now cg data c D A H Hmss Hbuf)
      as (r & c' & D' & acts & A' & -> & H' & Hs); [lia|lia|]. cbn [mbind option_bind].
    exists None, D', A'. split; [done|]. split; [done|]. by eapply keeps_send.
  - destruct (packData_run encrypt encrypt_length size mss C W now D A H) as (pl & t & D' & acts & -> & H');
      [by apply negb_true_iff, Z.eqb_neq in Hc|]. cbn [mbind option_bind].
    eexists _, D', _. split; [done|]. split; [exact H'|]. apply keeps_pack.
  - destruct words as [|w words]; [done|]. cbn [ack_word_ok] in Hc. set (d := seqoff _ w) in Hc.
    unfold flight in Hc. rewrite (path_flight _ _ _ _ H) in Hc.
    assert (w = seqno (a_ack A + d)) as Ew by (eapply seqno_offset; [by rewrite <- (po_ack _ _ _ _ H)|lia]).
    destruct (processCtrlAck_run size mss C b (w :: words) n s t D A (a_ack A + d) H) as (D' & acts & -> & H');
      [unfold ack_ok, a_curr; lia|by rewrite Ew|lia|].
    cbn [mbind option_bind]. eexists _, D', _. split; [done|]. split; [exact H'|]. apply keeps_ack.
  - destruct (checkRexmitTimer_run _ _ D A E H) as (S' & acts & -> & H'). cbn [mbind option_bind].
    eexists _, _, _. split; [done|]. split; [exact H'|]. unfold timer_spec. case_match; by apply keeps_same.
Qed.

(** Calls, each admissible when its turn comes. *)
Fixpoint run_calls (cs : list path_call) (D : CUDT_path) : option (list (option CPacket) * CUDT_path) :=
  match cs with
  | [] => Some ([], D)
  | c :: cs =>
      '(p, D) ← path_step uninit encrypt C (call_op D c) D; '(ps, D) ← run_calls cs D; Some (p :: ps, D)
  end.
Fixpoint calls_ok (cs : list path_call) (D : CUDT_path) : bool :=
  match cs with
  | [] => true
  | c :: cs =>
      call_ok D c && match path_step uninit encrypt C (call_op D c) D with
                     | Some (_, D) => calls_ok cs D | None => true end
  end.
Lemma run_calls_ok cs D A :
  path_ok size mss D A → calls_ok cs D = true →
  ∃ ps D' A', run_calls cs D = Some (ps, D') ∧ path_ok size mss D' A' ∧ keeps A A'.
Proof.
  revert D A. induction cs as [|c cs IH]; intros D A H Hc.
  - exists [], D, A. split; [done|]. split; [done|]. apply keeps_refl.
  - cbn [calls_ok run_calls] in *. apply andb_true_iff in Hc as [Hc Hcs].
    destruct (path_step_run D A c H Hc) as (p & D1 & A1 & E & H1 & K1). rewrite E in *. cbn [mbind option_bind].
    destruct (IH D1 A1 H1 Hcs) as (ps & D2 & A2 & -> & H2 & K2). cbn [mbind option_bind].
    eexists _, D2, A2. split; [done|]. split; [done|]. by eapply keeps_trans.
Qed.
End steps.

(** ** The start *)

Lemma prepareSender_run uninit uninit_seq C D isn :
  (∀ p, len (SndBuf.m_pcData (uninit p)) = m_iMaxSRTPayloadSize C) → 0 < m_iMaxSRTPayloadSize C →
  0 < m_iFlowWindowSize D <= 2 ^ 28 → 0 <= isn <= m_iMaxSeqNo →
  ∃ D', prepareSender uninit uninit_seq C D = Some D' ∧
    path_ok (m_iFlowWindowSize D * 2) (m_iMaxSRTPayloadSize C) (setInitialSndSeq isn D') (mkQ isn 0 [] []).
Proof.
  intros Hu Hm Hw Hi. unfold prepareSender. destruct (CSndBuffer_new_run uninit (m_iMaxSRTPayloadSize C) Hu 32)
    as (B & -> & HB & Em & Er & El & _); [lia|done|]. cbn [mbind option_bind]. eexists. split; [done|].
  pose proof (seqno_small isn Hi) as Ei.
  split; cbn [a_ack a_sent a_pkts a_lost m_iSndLastDataAck m_iSndNextSeqNo m_pSndBuffer setInitialSndSeq with_snd with_buffer]; try done.
  - split; unfold a_curr; cbn [a_ack a_sent]; try done.
    + cbn. rewrite <- Ei at 1. rewrite decseq_seqno. f_equal. lia.
    + apply CSndLossList_new_ok. lia.
    + lia.
    + intros x Hx. by apply not_elem_of_nil in Hx.
  - rewrite Z.add_0_r. done.
  - split; [done|]. eexists _, _, _. exact HB.
  - cbn. lia.
  - cbn. by rewrite Er, El.
Qed.
