(* ===== verification/SndUList.v ===== *)
(** * The schedule of the sending thread

    CSndUList of queue.cpp, a binary heap of the sockets that have something to send, by
    the time at which they are next due.  A socket and its node are one number; the nodes
    are a store, and the heap is an array of pointers to them.  [None] is an index outside
    of the array, a pointer that was never written or a socket that has no node. *)
From S2P Require Import Prelude.

Record CSNode := { m_tsTimeStamp : Z; m_iHeapLoc : Z }.
Record CSndUList := { m_pHeap : list (option Z); m_iArrayLength : Z; m_iLastEntry : Z; m_nodes : gmap Z CSNode }.
(** What the timer of the thread and those who wait for the list are told. *)
Inductive wakeup := Interrupt | NotifyAll.
(** The values of EReschedule. *)
Inductive EReschedule := DONT_RESCHEDULE | DO_RESCHEDULE.
Definition rescheduleIf (cond : bool) : EReschedule := if cond then DO_RESCHEDULE else DONT_RESCHEDULE.

Definition set_heap (h : list (option Z)) (L : CSndUList) : CSndUList :=
  {| m_pHeap := h; m_iArrayLength := m_iArrayLength L; m_iLastEntry := m_iLastEntry L; m_nodes := m_nodes L |}.
Definition set_last (n : Z) (L : CSndUList) : CSndUList :=
  {| m_pHeap := m_pHeap L; m_iArrayLength := m_iArrayLength L; m_iLastEntry := n; m_nodes := m_nodes L |}.
Definition set_nodes (N : gmap Z CSNode) (L : CSndUList) : CSndUList :=
  {| m_pHeap := m_pHeap L; m_iArrayLength := m_iArrayLength L; m_iLastEntry := m_iLastEntry L; m_nodes := N |}.

(** [new CSNode]: a socket opens. *)
Definition new_node (u now : Z) (L : CSndUList) : CSndUList :=
  set_nodes (<[u := {| m_tsTimeStamp := now; m_iHeapLoc := -1 |}]> (m_nodes L)) L.
Definition CSndUList_new : CSndUList :=
  {| m_pHeap := replicate 512 None; m_iArrayLength := 512; m_iLastEntry := -1; m_nodes := ∅ |}.

(** [m_pHeap[i]], and assignments through it. *)
Definition heap_at (L : CSndUList) (i : Z) : option Z := if i <? 0 then None else mjoin (m_pHeap L !! Z.to_nat i).
Definition store_at (i u : Z) (L : CSndUList) : option CSndUList :=
  if (i <? 0) || (Z.of_nat (length (m_pHeap L)) <=? i) then None else Some (set_heap (<[Z.to_nat i := Some u]> (m_pHeap L)) L).
Definition set_loc (u i : Z) (L : CSndUList) : option CSndUList :=
  n ← m_nodes L !! u; Some (set_nodes (<[u := {| m_tsTimeStamp := m_tsTimeStamp n; m_iHeapLoc := i |}]> (m_nodes L)) L).
Definition set_time (u t : Z) (L : CSndUList) : option CSndUList :=
  n ← m_nodes L !! u; Some (set_nodes (<[u := {| m_tsTimeStamp := t; m_iHeapLoc := m_iHeapLoc n |}]> (m_nodes L)) L).
Definition time_at (L : CSndUList) (i : Z) : option Z := u ← heap_at L i; n ← m_nodes L !! u; Some (m_tsTimeStamp n).
Definition swap (p q : Z) (L : CSndUList) : option CSndUList :=
  u ← heap_at L p; v ← heap_at L q; L ← store_at p v L; store_at q u L.

Definition realloc_ (L : CSndUList) : CSndUList :=
  {| m_pHeap := m_pHeap L ++ replicate (Z.to_nat (m_iArrayLength L)) None; m_iArrayLength := m_iArrayLength L * 2;
     m_iLastEntry := m_iLastEntry L; m_nodes := m_nodes L |}.

(** The loop of [insert_norealloc_]: the new entry goes up. *)
Fixpoint up_loop (fuel : nat) (L : CSndUList) (p q : Z) : option (Z * CSndUList) :=
  match fuel with
  | O => None
  | S fuel' =>
      if p =? 0 then Some (q, L)
      else
        let p := Z.shiftr (q - 1) 1 in
        tp ← time_at L p; tq ← time_at L q;
        if tp <=? tq then Some (q, L)
        else
          L ← swap p q L; u ← heap_at L q; L ← set_loc u q L;
          up_loop fuel' L p p
  end.
Definition insert_norealloc_ (ts u : Z) (L : CSndUList) : option (list wakeup * CSndUList) :=
  n ← m_nodes L !! u;
  if 0 <=? m_iHeapLoc n then Some ([], L)
  else
    let L := set_last (m_iLastEntry L + 1) L in
    L ← store_at (m_iLastEntry L) u L;
    L ← set_time u ts L;
    '(q, L) ← up_loop (length (m_pHeap L)) L (m_iLastEntry L) (m_iLastEntry L);
    L ← set_loc u q L;
    Some ((if q =? 0 then [Interrupt] else []) ++ (if 0 =? m_iLastEntry L then [NotifyAll] else []), L).
Definition insert_ (ts u : Z) (L : CSndUList) : option (list wakeup * CSndUList) :=
  insert_norealloc_ ts u (if m_iLastEntry L =? m_iArrayLength L - 1 then realloc_ L else L).

(** The loop of [remove_]: the entry that was the last goes down from [q]. *)
Fixpoint down_loop (fuel : nat) (L : CSndUList) (p q : Z) : option CSndUList :=
  match fuel with
  | O => None
  | S fuel' =>
      if negb (p <=? m_iLastEntry L) then Some L
      else
        right ← (if p + 1 <=? m_iLastEntry L then tp ← time_at L p; tp1 ← time_at L (p + 1); Some (tp1 <? tp) else Some false);
        let p := if right : bool then p + 1 else p in
        tq ← time_at L q; tp ← time_at L p;
        if tp <? tq then
          L ← swap p q L;
          u ← heap_at L p; L ← set_loc u p L; v ← heap_at L q; L ← set_loc v q L;
          down_loop fuel' L (p * 2 + 1) p
        else Some L
  end.
Definition remove_ (u : Z) (L : CSndUList) : option (list wakeup * CSndUList) :=
  n ← m_nodes L !! u;
  L ← (if 0 <=? m_iHeapLoc n then
         let loc := m_iHeapLoc n in
         l ← heap_at L (m_iLastEntry L); L ← store_at loc l L;
         let L := set_last (m_iLastEntry L - 1) L in
         v ← heap_at L loc; L ← set_loc v loc L;
         L ← down_loop (length (m_pHeap L)) L (loc * 2 + 1) loc;
         set_loc u (-1) L
       else Some L);
  Some (if 0 =? m_iLastEntry L then [Interrupt] else [], L).

Definition update (u : Z) (reschedule : EReschedule) (ts : Z) (L : CSndUList) : option (list wakeup * CSndUList) :=
  n ← m_nodes L !! u;
  if 0 <=? m_iHeapLoc n then
    match reschedule with
    | DONT_RESCHEDULE => Some ([], L)
    | DO_RESCHEDULE =>
        if m_tsTimeStamp n <=? ts then Some ([], L)
        else if m_iHeapLoc n =? 0 then L ← set_time u ts L; Some ([Interrupt], L)
        else '(w, L) ← remove_ u L; '(w', L) ← insert_norealloc_ ts u L; Some (w ++ w', L)
    end
  else insert_ ts u L.
Definition pop (now : Z) (L : CSndUList) : option (option Z * list wakeup * CSndUList) :=
  if -1 =? m_iLastEntry L then Some (None, [], L)
  else
    t ← time_at L 0;
    if now <? t then Some (None, [], L)
    else u ← heap_at L 0; '(w, L) ← remove_ u L; Some (Some u, w, L).
(** 0 is the time of no socket. *)
Definition getNextProcTime (L : CSndUList) : option Z := if -1 =? m_iLastEntry L then Some 0 else time_at L 0.

(** The calls. *)
Inductive ul_op :=
  | Update (u : Z) (reschedule : EReschedule) (ts : Z)
  | Pop (now : Z)
  | Remove (u : Z)
  | NextTime.
Inductive ul_out :=
  | Updated (w : list wakeup)
  | Popped (u : option Z) (w : list wakeup)
  | Removed (w : list wakeup)
  | Next (t : Z).
Definition ul_step (op : ul_op) (L : CSndUList) : option (ul_out * CSndUList) :=
  match op with
  | Update u r ts => '(w, L) ← update u r ts L; Some (Updated w, L)
  | Pop now => '(u, w, L) ← pop now L; Some (Popped u w, L)
  | Remove u => '(w, L) ← remove_ u L; Some (Removed w, L)
  | NextTime => t ← getNextProcTime L; Some (Next t, L)
  end.
Fixpoint ul_run (ops : list ul_op) (L : CSndUList) : option (list ul_out * CSndUList) :=
  match ops with
  | [] => Some ([], L)
  | op :: ops => '(o, L) ← ul_step op L; '(os, L) ← ul_run ops L; Some (o :: os, L)
  end.
