(* ===== verification/SndUListFacts.v ===== *)
(** * The heap of the sending thread

    The array as a list of sockets ([arr]), their positions in the nodes ([located]), and
    the order of the times ([ordered]); what the two loops do to them. *)
From S2P Require Import Prelude SndUList.

Definition par (i : nat) : nat := ((i - 1) / 2)%nat.
Lemma par_spec i : (0 < i)%nat → (i = 2 * par i + 1 ∨ i = 2 * par i + 2)%nat.
Proof. unfold par. intros. pose proof (Nat.div_mod (i - 1) 2 ltac:(lia)). pose proof (Nat.mod_upper_bound (i - 1) 2 ltac:(lia)). lia. Qed.
Lemma par_left q : par (2 * q + 1) = q.
Proof. pose proof (par_spec (2 * q + 1)). lia. Qed.
Lemma par_right q : par (2 * q + 2) = q.
Proof. pose proof (par_spec (2 * q + 2)). lia. Qed.

(** ** The order, on the times by position *)

Definition exch {A} (p q : nat) (k : nat → A) (i : nat) : A := if decide (i = p) then k q else if decide (i = q) then k p else k i.
Definition ordered (n : nat) (k : nat → Z) : Prop := ∀ i, (0 < i < n)%nat → k (par i) <= k i.
(** Except for the way into [q]. *)
Definition ordered_to (n q : nat) (k : nat → Z) : Prop :=
  (∀ i, (0 < i < n)%nat → i ≠ q → k (par i) <= k i) ∧ (∀ i, (0 < i < n)%nat → par i = q → (0 < q)%nat → k (par q) <= k i).
(** Except for the ways out of [q]. *)
Definition ordered_from (n q : nat) (k : nat → Z) : Prop :=
  (∀ i, (0 < i < n)%nat → par i ≠ q → k (par i) <= k i) ∧ (∀ i, (0 < i < n)%nat → par i = q → (0 < q)%nat → k (par q) <= k i).

Lemma ordered_up n q k : ordered_to n q k → (0 < q < n)%nat → k q < k (par q) → ordered_to n (par q) (exch (par q) q k).
Proof.
  intros [H1 H2] Hq Hlt. pose proof (par_spec q ltac:(lia)) as Hp. split.
  - intros i Hi Hne. pose proof (par_spec i ltac:(lia)) as Hpi. specialize (H1 i Hi). specialize (H2 i Hi). unfold exch.
    repeat case_decide; try lia; subst; try lia.
    + replace (par i) with (par q) in * by lia. lia.
  - intros i Hi Hpar H0. pose proof (par_spec i ltac:(lia)). pose proof (par_spec (par q) ltac:(lia)).
    pose proof (H1 i Hi). pose proof (H1 (par q) ltac:(lia) ltac:(lia)). unfold exch. rewrite Hpar in *.
    repeat case_decide; try lia.
Qed.
Lemma ordered_up_end n q k : ordered_to n q k → (q = 0%nat ∨ k (par q) <= k q) → ordered n k.
Proof.
  intros [H1 _] Hq i Hi. destruct (decide (i = q)) as [->|]; [|by apply H1]. destruct Hq; [lia|done].
Qed.
Lemma ordered_down n q c k :
  ordered_from n q k → (0 < c < n)%nat → par c = q → k c < k q → (∀ i, (0 < i < n)%nat → par i = q → k c <= k i) →
  ordered_from n c (exch c q k).
Proof.
  intros [H1 H2] Hc Hpc Hlt Hmin. pose proof (par_spec c ltac:(lia)). split.
  - intros i Hi Hne. pose proof (par_spec i ltac:(lia)). specialize (H1 i Hi). specialize (Hmin i Hi). unfold exch.
    repeat case_decide; try lia; subst; try lia.
    pose proof (H2 c Hc eq_refl ltac:(lia)). lia.
  - intros i Hi Hpar H0. pose proof (par_spec i ltac:(lia)). pose proof (H1 i Hi ltac:(lia)). rewrite Hpar in *. unfold exch.
    repeat case_decide; try lia.
Qed.
Lemma ordered_down_end n q k : ordered_from n q k → (∀ i, (0 < i < n)%nat → par i = q → k q <= k i) → ordered n k.
Proof. intros [H1 _] H i Hi. destruct (decide (par i = q)) as [<-|]; [by apply H|by apply H1]. Qed.
(** The first entry is the earliest. *)
Lemma ordered_first n k : ordered n k → ∀ i, (i < n)%nat → k 0%nat <= k i.
Proof.
  intros H i. induction i as [i IH] using lt_wf_ind. intros Hi. destruct (decide (i = 0)%nat) as [->|]; [done|].
  pose proof (par_spec i ltac:(lia)). pose proof (H i ltac:(lia)). pose proof (IH (par i) ltac:(lia) ltac:(lia)). lia.
Qed.
(** The first [n] entries, the one at [q] having been replaced by the one at [n]. *)
Lemma ordered_remove n q k k' :
  ordered (S n) k → (q <= n)%nat → (q = 0%nat ∨ k (par q) <= k n) → (∀ i, (i < n)%nat → k' i = if decide (i = q) then k n else k i) →
  ordered_from n q k'.
Proof.
  intros H Hq Hs Hk. split.
  - intros i Hi Hne. pose proof (par_spec i ltac:(lia)). pose proof (H i ltac:(lia)). rewrite !Hk by lia.
    repeat case_decide; subst; try lia.
  - intros i Hi Hpar H0. pose proof (par_spec i ltac:(lia)). pose proof (par_spec q ltac:(lia)).
    pose proof (H i ltac:(lia)). pose proof (H q ltac:(lia)). rewrite Hpar in *. rewrite !Hk by lia. repeat case_decide; subst; try lia.
Qed.
(** A new entry after the others. *)
Lemma ordered_insert n k k' : ordered n k → (∀ i, (i < n)%nat → k' i = k i) → ordered_to (S n) n k'.
Proof.
  intros H Hk. split.
  - intros i Hi Hne. pose proof (par_spec i ltac:(lia)). rewrite !Hk by lia. apply H. lia.
  - intros i Hi Hpar H0. pose proof (par_spec i ltac:(lia)). lia.
Qed.

(** ** The array *)

Record arr (L : CSndUList) (hs : list Z) : Prop := {
  ar_last : m_iLastEntry L = Z.of_nat (length hs) - 1;
  ar_fit : (length hs <= length (m_pHeap L))%nat;
  ar_at : ∀ i u, hs !! i = Some u → m_pHeap L !! i = Some (Some u) }.
(** The same, but for the contents of the array. *)
Definition same_shape (L L' : CSndUList) : Prop :=
  length (m_pHeap L') = length (m_pHeap L) ∧ m_iArrayLength L' = m_iArrayLength L ∧ m_iLastEntry L' = m_iLastEntry L.
Lemma same_shape_trans L1 L2 L3 : same_shape L1 L2 → same_shape L2 L3 → same_shape L1 L3.
Proof. intros (?&?&?) (?&?&?). split_and!; congruence. Qed.
Lemma arr_nodes L L' hs : arr L hs → m_pHeap L' = m_pHeap L → m_iLastEntry L' = m_iLastEntry L → arr L' hs.
Proof. intros [H1 H2 H3] E1 E2. split; rewrite ?E1, ?E2; done. Qed.
Lemma heap_at_run L hs i u : arr L hs → hs !! i = Some u → heap_at L (Z.of_nat i) = Some u.
Proof.
  intros H Hi. unfold heap_at. rewrite (proj2 (Z.ltb_ge _ _)) by lia. by rewrite Nat2Z.id, (ar_at _ _ H _ _ Hi).
Qed.
Lemma store_at_run L hs i u :
  arr L hs → (i < length hs)%nat →
  ∃ L', store_at (Z.of_nat i) u L = Some L' ∧ arr L' (<[i := u]> hs) ∧ m_nodes L' = m_nodes L ∧ same_shape L L'.
Proof.
  intros [H1 H2 H3] Hi. unfold store_at. rewrite (proj2 (Z.ltb_ge _ _)), (proj2 (Z.leb_gt _ _)) by lia. cbn [orb]. rewrite Nat2Z.id.
  eexists. split; [done|]. split; [|split; [done|split; [apply length_insert|done]]].
  split; cbn [set_heap m_pHeap m_iLastEntry]; rewrite ?length_insert; [done|done|].
  intros j v [(<- & -> & _)|[? Hj]]%list_lookup_insert_Some; [apply list_lookup_insert_eq; lia|].
  rewrite list_lookup_insert_ne by done. by apply H3.
Qed.

Definition exchange (p q : nat) (hs : list Z) : list Z :=
  match hs !! p, hs !! q with Some a, Some b => <[q := a]> (<[p := b]> hs) | _, _ => hs end.
Lemma swap_run L hs p q a b :
  arr L hs → hs !! p = Some a → hs !! q = Some b →
  ∃ L', swap (Z.of_nat p) (Z.of_nat q) L = Some L' ∧ arr L' (exchange p q hs) ∧ m_nodes L' = m_nodes L ∧ same_shape L L'.
Proof.
  intros H Hp Hq. unfold swap, exchange. rewrite (heap_at_run _ _ _ _ H Hp), (heap_at_run _ _ _ _ H Hq), Hp, Hq. cbn [mbind option_bind].
  destruct (store_at_run L hs p b H) as (L1 & -> & H1 & E1 & S1); [by eapply lookup_lt_Some|]. cbn [mbind option_bind].
  destruct (store_at_run L1 _ q a H1) as (L2 & -> & H2 & E2 & S2); [rewrite length_insert; by eapply lookup_lt_Some|].
  exists L2. split; [done|]. split; [done|]. split; [congruence|by eapply same_shape_trans].
Qed.
Lemma exchange_lookup hs p q a b i :
  hs !! p = Some a → hs !! q = Some b → p ≠ q → exchange p q hs !! i = exch p q (λ i, hs !! i) i.
Proof.
  intros Hp Hq Hne. unfold exchange, exch. rewrite Hp, Hq. pose proof (lookup_lt_Some _ _ _ Hp). pose proof (lookup_lt_Some _ _ _ Hq).
  destruct (decide (i = p)) as [->|]; [rewrite list_lookup_insert_ne by done; by rewrite list_lookup_insert_eq|].
  destruct (decide (i = q)) as [->|]; [by rewrite list_lookup_insert_eq by (by rewrite length_insert)|].
  by rewrite !list_lookup_insert_ne by done.
Qed.
Lemma exchange_length p q hs : length (exchange p q hs) = length hs.
Proof. unfold exchange. repeat case_match; by rewrite ?length_insert. Qed.
Lemma exchange_first p q hs : p ≠ 0%nat → q ≠ 0%nat → exchange p q hs !! 0%nat = hs !! 0%nat.
Proof. intros. unfold exchange. repeat case_match; by rewrite ?list_lookup_insert_ne. Qed.
Lemma exchange_perm p q hs : exchange p q hs ≡ₚ hs.
Proof.
  destruct (hs !! p) as [a|] eqn:Hp; [|unfold exchange; by rewrite Hp]. destruct (hs !! q) as [b|] eqn:Hq; [|unfold exchange; by rewrite Hp, Hq].
  destruct (decide (p = q)) as [<-|Hne].
  { unfold exchange. rewrite Hp. by rewrite list_insert_insert_eq, list_insert_id. }
  apply Permutation_inj. split; [apply exchange_length|]. exists (λ i, exch p q (λ i, i) i). split.
  - intros i j. unfold exch. repeat case_decide; lia.
  - intros i. rewrite (exchange_lookup _ _ _ _ _ _ Hp Hq Hne). unfold exch. by repeat case_decide.
Qed.

(** ** The nodes *)

Definition time (N : gmap Z CSNode) (u : Z) : Z := match N !! u with Some n => m_tsTimeStamp n | None => 0 end.
(** Each entry has a node that knows its position, except perhaps [st]. *)
Definition located (N : gmap Z CSNode) (hs : list Z) (st : option Z) : Prop :=
  ∀ i u, hs !! i = Some u → ∃ n, N !! u = Some n ∧ (st ≠ Some u → m_iHeapLoc n = Z.of_nat i).
(** The time of the entry at [i]. *)
Definition key (N : gmap Z CSNode) (hs : list Z) (i : nat) : Z := match hs !! i with Some u => time N u | None => 0 end.

Lemma time_at_run L hs st i u :
  arr L hs → located (m_nodes L) hs st → hs !! i = Some u → time_at L (Z.of_nat i) = Some (key (m_nodes L) hs i).
Proof.
  intros H HN Hi. unfold time_at, key, time. rewrite (heap_at_run _ _ _ _ H Hi), Hi. cbn [mbind option_bind].
  by destruct (HN _ _ Hi) as (n & -> & _).
Qed.
Lemma set_loc_run u i L n :
  m_nodes L !! u = Some n → ∃ L', set_loc u i L = Some L' ∧ m_pHeap L' = m_pHeap L ∧ m_iLastEntry L' = m_iLastEntry L ∧ same_shape L L' ∧
    m_nodes L' = <[u := {| m_tsTimeStamp := m_tsTimeStamp n; m_iHeapLoc := i |}]> (m_nodes L).
Proof. intros Hn. unfold set_loc. rewrite Hn. cbn [mbind option_bind]. eexists. by split_and!. Qed.
Lemma time_loc N u n i v : N !! u = Some n → time (<[u := {| m_tsTimeStamp := m_tsTimeStamp n; m_iHeapLoc := i |}]> N) v = time N v.
Proof.
  intros Hn. unfold time. destruct (decide (u = v)) as [<-|]; [by rewrite lookup_insert_eq, Hn|by rewrite lookup_insert_ne].
Qed.

(** From [L], which holds [hs], to [L'], which holds the same entries as [hs']. *)
Record moved (L : CSndUList) (hs : list Z) (st : option Z) (L' : CSndUList) (hs' : list Z) : Prop := {
  mv_arr : arr L' hs';
  mv_loc : located (m_nodes L') hs' st;
  mv_perm : hs' ≡ₚ hs;
  mv_time : ∀ u, time (m_nodes L') u = time (m_nodes L) u;
  mv_off : ∀ u, u ∉ hs → m_nodes L' !! u = m_nodes L !! u;
  mv_shape : same_shape L L' }.
Lemma moved_refl L hs st : arr L hs → located (m_nodes L) hs st → moved L hs st L hs.
Proof. by split. Qed.
Lemma moved_trans L1 h1 st L2 h2 L3 h3 : moved L1 h1 st L2 h2 → moved L2 h2 st L3 h3 → moved L1 h1 st L3 h3.
Proof.
  intros [A1 A2 A3 A4 A5 A6] [B1 B2 B3 B4 B5 B6]. split; [done|done|by rewrite B3| | |by eapply same_shape_trans].
  - intros u. by rewrite B4.
  - intros u Hu. rewrite B5; [by apply A5|by rewrite A3].
Qed.
Lemma key_exchange N N' hs p q a b i :
  (∀ u, time N' u = time N u) → hs !! p = Some a → hs !! q = Some b → p ≠ q → key N' (exchange p q hs) i = exch p q (key N hs) i.
Proof.
  intros Ht Hp Hq Hne. unfold key. rewrite (exchange_lookup _ _ _ _ _ _ Hp Hq Hne). unfold exch. repeat case_decide; by case_match.
Qed.

(** One step of [up_loop]: the entry at [q], which moves, and the one before it. *)
Lemma up_step_run L hs p q x y :
  arr L hs → NoDup hs → located (m_nodes L) hs (Some x) → hs !! q = Some x → hs !! p = Some y → p ≠ q →
  ∃ L', (∀ A (K : CSndUList → option A),
      (L ← swap (Z.of_nat p) (Z.of_nat q) L; u ← heap_at L (Z.of_nat q); L ← set_loc u (Z.of_nat q) L; K L) = K L') ∧
    moved L hs (Some x) L' (exchange p q hs) ∧ exchange p q hs !! p = Some x.
Proof.
  intros H Hnd HN Hq Hp Hne. destruct (swap_run _ _ _ _ _ _ H Hp Hq) as (L1 & -> & H1 & E1 & S1). cbn [mbind option_bind].
  assert (exchange p q hs !! q = Some y) as Eq by (rewrite (exchange_lookup _ _ _ _ _ _ Hp Hq Hne); unfold exch; by repeat case_decide).
  rewrite (heap_at_run _ _ _ _ H1 Eq). cbn [mbind option_bind]. destruct (HN _ _ Hp) as (n & En & _).
  destruct (set_loc_run y (Z.of_nat q) L1 n) as (L2 & -> & A1 & A2 & S2 & E2); [by rewrite E1|]. exists L2. split; [done|]. rewrite E1 in E2.
  split; [|rewrite (exchange_lookup _ _ _ _ _ _ Hp Hq Hne); unfold exch; by repeat case_decide].
  split; [by eapply arr_nodes| |apply exchange_perm| | |by eapply same_shape_trans]; rewrite E2.
  - intros i u. rewrite (exchange_lookup _ _ _ _ _ _ Hp Hq Hne). unfold exch. intros Hi.
    destruct (decide (u = y)) as [->|Huy].
    + rewrite lookup_insert_eq. eexists. split; [done|]. intros _. cbn [m_iHeapLoc]. repeat case_decide; subst; try done.
      * rewrite Hq in Hi. injection Hi as ->. destruct (Hne (NoDup_lookup _ _ _ _ Hnd Hp Hq)).
      * by pose proof (NoDup_lookup _ _ _ _ Hnd Hp Hi).
    + rewrite lookup_insert_ne by done. repeat case_decide; subst; [|by rewrite Hp in Hi; injection Hi as ->|by apply HN].
      destruct (HN _ _ Hi) as (m & -> & _). exists m. split; [done|]. rewrite Hq in Hi. by injection Hi as ->.
  - intros u. by apply time_loc.
  - intros u Hu. apply lookup_insert_ne. intros ->. by eapply Hu, list_elem_of_lookup_2.
Qed.
(** One step of [down_loop]. *)
Lemma down_step_run L hs p q x y st :
  arr L hs → NoDup hs → located (m_nodes L) hs st → hs !! q = Some x → hs !! p = Some y → p ≠ q →
  ∃ L', (∀ A (K : CSndUList → option A),
      (L ← swap (Z.of_nat p) (Z.of_nat q) L; u ← heap_at L (Z.of_nat p); L ← set_loc u (Z.of_nat p) L;
       v ← heap_at L (Z.of_nat q); L ← set_loc v (Z.of_nat q) L; K L) = K L') ∧ moved L hs st L' (exchange p q hs).
Proof.
  intros H Hnd HN Hq Hp Hne. destruct (swap_run _ _ _ _ _ _ H Hp Hq) as (L1 & -> & H1 & E1 & S1). cbn [mbind option_bind].
  assert (exchange p q hs !! q = Some y) as Eq by (rewrite (exchange_lookup _ _ _ _ _ _ Hp Hq Hne); unfold exch; by repeat case_decide).
  assert (exchange p q hs !! p = Some x) as Ep by (rewrite (exchange_lookup _ _ _ _ _ _ Hp Hq Hne); unfold exch; by repeat case_decide).
  rewrite (heap_at_run _ _ _ _ H1 Ep). cbn [mbind option_bind]. destruct (HN _ _ Hp) as (n & En & _). destruct (HN _ _ Hq) as (m & Em & _).
  assert (x ≠ y) as Hxy by (intros ->; by pose proof (NoDup_lookup _ _ _ _ Hnd Hp Hq)).
  destruct (set_loc_run x (Z.of_nat p) L1 m) as (L2 & -> & A1 & A2 & S2 & E2); [by rewrite E1|]. rewrite E1 in E2. cbn [mbind option_bind].
  assert (arr L2 (exchange p q hs)) as H2 by (by eapply arr_nodes). rewrite (heap_at_run _ _ _ _ H2 Eq). cbn [mbind option_bind].
  destruct (set_loc_run y (Z.of_nat q) L2 n) as (L3 & -> & A3 & A4 & S3 & E3); [by rewrite E2, lookup_insert_ne|]. exists L3. split; [done|].
  split; [by eapply arr_nodes| |apply exchange_perm| | |eapply same_shape_trans; [exact S1|by eapply same_shape_trans]]; rewrite E3.
  - intros i u. rewrite (exchange_lookup _ _ _ _ _ _ Hp Hq Hne). unfold exch. intros Hi. rewrite E2.
    assert (u = x → i = p ∧ p ≠ q) as Hx.
    { intros ->. repeat case_decide; subst; try done; [by rewrite Hp in Hi; simplify_eq|by pose proof (NoDup_lookup _ _ _ _ Hnd Hq Hi)]. }
    assert (u = y → i = q) as Hy.
    { intros ->. repeat case_decide; subst; try done; [by rewrite Hq in Hi; simplify_eq|by pose proof (NoDup_lookup _ _ _ _ Hnd Hp Hi)]. }
    destruct (decide (u = y)) as [->|Huy]; [rewrite lookup_insert_eq; eexists; split; [done|]; by rewrite Hy|].
    rewrite lookup_insert_ne by done. destruct (decide (u = x)) as [->|Hux].
    + rewrite lookup_insert_eq. eexists. split; [done|]. by destruct Hx as [-> _].
    + rewrite lookup_insert_ne by done. repeat case_decide; simplify_eq. by apply HN.
  - intros u. rewrite time_loc by (by rewrite E2, lookup_insert_ne). rewrite E2. by apply time_loc.
  - intros u Hu. rewrite lookup_insert_ne, E2, lookup_insert_ne; [done| |]; intros ->; by eapply Hu, list_elem_of_lookup_2.
Qed.

(** ** The loops *)

Lemma key_moved N N' hs i : (∀ u, time N' u = time N u) → key N' hs i = key N hs i.
Proof. intros Ht. unfold key. by case_match. Qed.
Lemma key_here N hs i u : hs !! i = Some u → key N hs i = time N u.
Proof. unfold key. by intros ->. Qed.
Lemma up_loop_run fuel : ∀ L p q hs x,
  arr L hs → NoDup hs → located (m_nodes L) hs (Some x) → hs !! q = Some x → (p = 0 ↔ q = 0%nat) → (q < fuel)%nat →
  ∃ q' L' hs', up_loop fuel L p (Z.of_nat q) = Some (Z.of_nat q', L') ∧ moved L hs (Some x) L' hs' ∧ hs' !! q' = Some x ∧
    (q = 0%nat → q' = 0%nat) ∧ (q' ≠ 0%nat → hs' !! 0%nat = hs !! 0%nat) ∧
    (ordered_to (length hs) q (key (m_nodes L) hs) → ordered (length hs) (key (m_nodes L') hs')).
Proof.
  induction fuel as [|fuel IH]; intros L p q hs x H Hnd HN Hq Hp Hf; [lia|]. cbn [up_loop].
  destruct (Z.eqb_spec p 0) as [E|E].
  { exists q, L, hs. split; [done|]. split; [by apply moved_refl|]. split; [done|]. split; [lia|]. split; [done|]. intros Ho. eapply ordered_up_end; [exact Ho|]. left. by apply Hp. }
  assert (0 < q)%nat as Hq0 by lia. pose proof (par_spec q Hq0) as Hpq.
  assert (Z.shiftr (Z.of_nat q - 1) 1 = Z.of_nat (par q)) as -> by (rewrite Z.shiftr_div_pow2 by lia; divlia).
  destruct (lookup_lt_is_Some_2 hs (par q)) as [y Hy]; [apply lookup_lt_Some in Hq; lia|].
  rewrite (time_at_run _ _ _ _ _ H HN Hy), (time_at_run _ _ _ _ _ H HN Hq). cbn [mbind option_bind].
  destruct (Z.leb_spec (key (m_nodes L) hs (par q)) (key (m_nodes L) hs q)) as [Hle|Hlt].
  { exists q, L, hs. split; [done|]. split; [by apply moved_refl|]. split; [done|]. split; [lia|]. split; [done|]. intros Ho. eapply ordered_up_end; [exact Ho|]. by right. }
  destruct (up_step_run L hs (par q) q x y H Hnd HN Hq Hy ltac:(lia)) as (L1 & -> & M1 & Hx).
  destruct (IH L1 (Z.of_nat (par q)) (par q) (exchange (par q) q hs) x) as (q' & L' & hs' & -> & M2 & Hq' & Hz & Hf0 & Ho); try done.
  - apply M1.
  - by rewrite (mv_perm _ _ _ _ _ M1).
  - apply M1.
  - lia.
  - lia.
  - exists q', L', hs'. split; [done|]. split; [by eapply moved_trans|]. split; [done|]. split; [lia|]. split.
    { intros Hne. rewrite Hf0 by done. apply exchange_first; lia. }
    intros Hord. rewrite exchange_length in Ho. apply Ho.
    apply lookup_lt_Some in Hq as Hql. pose proof (ordered_up _ _ _ Hord ltac:(lia) Hlt) as [H1 H2].
    split; intros; rewrite !(key_exchange _ _ _ _ _ _ _ _ (mv_time _ _ _ _ _ M1) Hy Hq) by lia; auto.
Qed.
Lemma down_loop_run fuel : ∀ L q hs st,
  arr L hs → NoDup hs → located (m_nodes L) hs st → (length hs < q + fuel)%nat → (0 < fuel)%nat → (q <= length hs)%nat →
  ∃ L' hs', down_loop fuel L (Z.of_nat q * 2 + 1) (Z.of_nat q) = Some L' ∧ moved L hs st L' hs' ∧
    ((0 < q)%nat → hs' !! 0%nat = hs !! 0%nat) ∧ (ordered_from (length hs) q (key (m_nodes L) hs) → ordered (length hs) (key (m_nodes L') hs')).
Proof.
  induction fuel as [|fuel IH]; intros L q hs st H Hnd HN Hf Hf0 Hq; [lia|]. cbn [down_loop]. rewrite (ar_last _ _ H).
  destruct (Z.leb_spec (Z.of_nat q * 2 + 1) (Z.of_nat (length hs) - 1)) as [Hle|Hgt]; cbn [negb].
  2: { exists L, hs. split; [done|]. split; [by apply moved_refl|]. split; [done|]. intros Ho. apply (ordered_down_end _ _ _ Ho). intros i Hi Hpar.
       pose proof (par_spec i). lia. }
  destruct (lookup_lt_is_Some_2 hs q) as [x Hx]; [lia|]. destruct (lookup_lt_is_Some_2 hs (2 * q + 1)) as [y Hy]; [lia|].
  set (k := key (m_nodes L) hs). replace (Z.of_nat q * 2 + 1) with (Z.of_nat (2 * q + 1)) by lia.
  replace (Z.of_nat (2 * q + 1) + 1) with (Z.of_nat (2 * q + 2)) by lia.
  assert (∃ c z, (if Z.of_nat (2 * q + 2) <=? Z.of_nat (length hs) - 1
      then tp ← time_at L (Z.of_nat (2 * q + 1)); tp1 ← time_at L (Z.of_nat (2 * q + 2)); Some (tp1 <? tp) else Some false)
      = Some (bool_decide (c = 2 * q + 2)%nat) ∧ (c = 2 * q + 1 ∨ c = 2 * q + 2)%nat ∧ hs !! c = Some z ∧
      ∀ i, (0 < i < length hs)%nat → par i = q → k c <= k i) as (c & z & -> & Hc & Hz & Hmin).
  { destruct (Z.leb_spec (Z.of_nat (2 * q + 2)) (Z.of_nat (length hs) - 1)).
    - destruct (lookup_lt_is_Some_2 hs (2 * q + 2)) as [z Hz]; [lia|].
      rewrite (time_at_run _ _ _ _ _ H HN Hy), (time_at_run _ _ _ _ _ H HN Hz). cbn [mbind option_bind]. fold k.
      destruct (Z.ltb_spec (k (2 * q + 2)%nat) (k (2 * q + 1)%nat)).
      + exists (2 * q + 2)%nat, z. rewrite bool_decide_eq_true_2 by done. split_and!; [done|lia|done|]. intros i Hi Hpar.
        pose proof (par_spec i ltac:(lia)) as [E|E]; rewrite Hpar in E; subst i; lia.
      + exists (2 * q + 1)%nat, y. rewrite bool_decide_eq_false_2 by lia. split_and!; [done|lia|done|]. intros i Hi Hpar.
        pose proof (par_spec i ltac:(lia)) as [E|E]; rewrite Hpar in E; subst i; lia.
    - exists (2 * q + 1)%nat, y. rewrite bool_decide_eq_false_2 by lia. split_and!; [done|lia|done|]. intros i Hi Hpar.
      pose proof (par_spec i ltac:(lia)) as [E|E]; rewrite Hpar in E; subst i; lia. }
  cbn [mbind option_bind].
  assert ((if bool_decide (c = 2 * q + 2)%nat then Z.of_nat (2 * q + 2) else Z.of_nat (2 * q + 1)) = Z.of_nat c) as -> by (case_bool_decide; lia).
  rewrite (time_at_run _ _ _ _ _ H HN Hx), (time_at_run _ _ _ _ _ H HN Hz). cbn [mbind option_bind]. fold k.
  assert (par c = q) as Hpc by (destruct Hc as [-> | ->]; [apply par_left|apply par_right]). pose proof (lookup_lt_Some _ _ _ Hz) as Hcl.
  destruct (Z.ltb_spec (k c) (k q)) as [Hlt|Hge].
  2: { exists L, hs. split; [done|]. split; [by apply moved_refl|]. split; [done|]. intros Ho. apply (ordered_down_end _ _ _ Ho). intros i Hi Hpar. fold k.
       pose proof (Hmin i Hi Hpar). lia. }
  destruct (down_step_run L hs c q x z st H Hnd HN Hx Hz ltac:(lia)) as (L1 & -> & M1).
  destruct (IH L1 c (exchange c q hs) st) as (L' & hs' & -> & M2 & Hf1 & Ho); rewrite ?exchange_length; try lia.
  - apply M1.
  - by rewrite (mv_perm _ _ _ _ _ M1).
  - apply M1.
  - exists L', hs'. split; [done|]. split; [by eapply moved_trans|]. split.
    { intros Hq0. rewrite Hf1 by lia. apply exchange_first; lia. }
    intros Hord. rewrite exchange_length in Ho. apply Ho.
    destruct (ordered_down _ _ c _ Hord) as [H1 H2]; [lia|done|done|done|].
    split; intros; rewrite !(key_exchange _ _ _ _ _ _ _ _ (mv_time _ _ _ _ _ M1) Hz Hx) by lia; auto.
Qed.

(** ** The operations *)

(** The list holds [hs]; the nodes of the other sockets know that they are not on it. *)
Record holds (L : CSndUList) (hs : list Z) : Prop := {
  ho_arr : arr L hs;
  ho_length : Z.of_nat (length (m_pHeap L)) = m_iArrayLength L;
  ho_some : (0 < length (m_pHeap L))%nat;
  ho_nodup : NoDup hs;
  ho_loc : located (m_nodes L) hs None;
  ho_off : ∀ u n, m_nodes L !! u = Some n → u ∉ hs → m_iHeapLoc n = -1 }.
Definition in_order (L : CSndUList) (hs : list Z) : Prop := ordered (length hs) (key (m_nodes L) hs).
(** A call that has an effect on the time of [u] alone, if any, and on no other node. *)
Definition keeps_nodes (u : Z) (L L' : CSndUList) : Prop :=
  (∀ v, is_Some (m_nodes L' !! v) ↔ is_Some (m_nodes L !! v)) ∧ ∀ v, v ≠ u → time (m_nodes L') v = time (m_nodes L) v.

Lemma node_exists_insert (N : gmap Z CSNode) u n v : is_Some (N !! u) → is_Some (<[u := n]> N !! v) ↔ is_Some (N !! v).
Proof. intros Hu. destruct (decide (u = v)) as [<-|]; [rewrite lookup_insert_eq; by split|by rewrite lookup_insert_ne]. Qed.
Lemma moved_exists L hs st L' hs' v : moved L hs st L' hs' → located (m_nodes L) hs st → is_Some (m_nodes L' !! v) ↔ is_Some (m_nodes L !! v).
Proof.
  intros M HN. destruct (decide (v ∈ hs)) as [Hv|Hv]; [|by rewrite (mv_off _ _ _ _ _ M)].
  assert (∀ N ks st', located N ks st' → v ∈ ks → is_Some (N !! v)) as Hl.
  { intros N ks st' HL [i Hi]%list_elem_of_lookup. by destruct (HL i v Hi) as (n & -> & _). }
  split; intros _; [by eapply Hl|]. eapply Hl; [apply M|]. by rewrite (mv_perm _ _ _ _ _ M).
Qed.
Lemma node_loc L hs u n : holds L hs → m_nodes L !! u = Some n →
  (u ∈ hs ∧ 0 <= m_iHeapLoc n ∧ hs !! Z.to_nat (m_iHeapLoc n) = Some u) ∨ (u ∉ hs ∧ m_iHeapLoc n = -1).
Proof.
  intros H Hn. destruct (decide (u ∈ hs)) as [Hu|Hu]; [left|right; split; [done|by eapply ho_off]].
  split; [done|]. apply list_elem_of_lookup in Hu as [i Hi]. destruct (ho_loc _ _ H i u Hi) as (m & Hm & El). rewrite Hn in Hm. injection Hm as <-.
  rewrite El by done. split; [lia|]. by rewrite Nat2Z.id.
Qed.

Definition same_array (L L' : CSndUList) : Prop := length (m_pHeap L') = length (m_pHeap L) ∧ m_iArrayLength L' = m_iArrayLength L.
Lemma append_run u L hs :
  arr L hs → (length hs < length (m_pHeap L))%nat →
  ∃ L', store_at (m_iLastEntry L + 1) u (set_last (m_iLastEntry L + 1) L) = Some L' ∧ arr L' (hs ++ [u]) ∧ m_nodes L' = m_nodes L ∧ same_array L L'.
Proof.
  intros [A1 A2 A3] Hfit. rewrite A1. replace (Z.of_nat (length hs) - 1 + 1) with (Z.of_nat (length hs)) by lia.
  unfold store_at. cbn [set_last m_pHeap]. rewrite (proj2 (Z.ltb_ge _ _)), (proj2 (Z.leb_gt _ _)) by lia. cbn [orb]. rewrite Nat2Z.id.
  eexists. split; [done|]. split; [|split; [done|split; [apply length_insert|done]]].
  split; cbn [set_heap set_last m_pHeap m_iLastEntry]; rewrite ?length_app, ?length_insert; cbn [length]; [lia|lia|].
  intros i v [Hi|[Hi Hv]]%lookup_app_Some.
  - rewrite list_lookup_insert_ne; [by apply A3|]. apply lookup_lt_Some in Hi. lia.
  - apply list_lookup_singleton_Some in Hv as [Hz ->]. replace i with (length hs) by lia. by apply list_lookup_insert_eq.
Qed.
(** The entry [x] knows its position again. *)
Lemma located_again N hs q x n :
  NoDup hs → located N hs (Some x) → hs !! q = Some x →
  located (<[x := {| m_tsTimeStamp := m_tsTimeStamp n; m_iHeapLoc := Z.of_nat q |}]> N) hs None.
Proof.
  intros Hnd HN Hq i v Hi. destruct (decide (x = v)) as [<-|Hv].
  - rewrite lookup_insert_eq. eexists. split; [done|]. intros _. cbn. f_equal. by eapply NoDup_lookup.
  - rewrite lookup_insert_ne by done. destruct (HN i v Hi) as (m & -> & El). exists m. split; [done|]. intros _. apply El. by intros [= ?].
Qed.
Lemma keys_before N ts l u hs i : u ∉ hs → (i < length hs)%nat →
  key (<[u := {| m_tsTimeStamp := ts; m_iHeapLoc := l |}]> N) (hs ++ [u]) i = key N hs i.
Proof.
  intros Hu Hi. unfold key. rewrite lookup_app_l by done. destruct (hs !! i) as [v|] eqn:Ej; [|done].
  unfold time. rewrite lookup_insert_ne; [done|]. intros ->. by eapply Hu, list_elem_of_lookup_2.
Qed.
Lemma located_new N ts l u hs : u ∉ hs → located N hs None → located (<[u := {| m_tsTimeStamp := ts; m_iHeapLoc := l |}]> N) (hs ++ [u]) (Some u).
Proof.
  intros Hu HN i v [Hi|[Hi Hv]]%lookup_app_Some.
  - assert (u ≠ v) by (intros <-; by eapply Hu, list_elem_of_lookup_2). rewrite lookup_insert_ne by done.
    destruct (HN _ _ Hi) as (m & Hm & El). exists m. split; [done|]. intros _. by apply El.
  - apply list_lookup_singleton_Some in Hv as [_ ->]. rewrite lookup_insert_eq. eexists. by split.
Qed.

Lemma insert_norealloc_run ts u L hs :
  holds L hs → is_Some (m_nodes L !! u) → u ∉ hs → (length hs < length (m_pHeap L))%nat →
  ∃ w L' hs', insert_norealloc_ ts u L = Some (w, L') ∧ holds L' hs' ∧ hs' ≡ₚ u :: hs ∧ time (m_nodes L') u = ts ∧
    keeps_nodes u L L' ∧ (in_order L hs → in_order L' hs') ∧
    (hs = [] → w = [Interrupt; NotifyAll]) ∧ (hs' !! 0%nat = hs !! 0%nat ∨ Interrupt ∈ w).
Proof.
  intros H [n Hn] Hu Hfit. unfold insert_norealloc_. rewrite Hn. cbn [mbind option_bind]. rewrite (ho_off _ _ H _ _ Hn Hu). cbn [Z.leb Z.compare].
  destruct (append_run u L hs (ho_arr _ _ H) Hfit) as (L1 & E & H1 & E1 & S1). cbv zeta. change (m_iLastEntry (set_last ?a L)) with a. rewrite E.
  cbn [mbind option_bind]. unfold set_time. rewrite E1, Hn. cbn [mbind option_bind]. set (N2 := <[u := _]> (m_nodes L)). set (L2 := set_nodes N2 L1).
  assert (arr L2 (hs ++ [u])) as H2 by (by eapply arr_nodes).
  assert (NoDup (hs ++ [u])) as Hnd.
  { apply NoDup_app. split; [apply H|]. split; [|apply NoDup_singleton]. by intros v Hv ->%list_elem_of_singleton. }
  assert (located (m_nodes L2) (hs ++ [u]) (Some u)) as HN by (apply located_new; [done|apply H]).
  assert ((hs ++ [u]) !! length hs = Some u) as Hq by (rewrite lookup_app_r by lia; by rewrite Nat.sub_diag).
  assert (m_iLastEntry L2 = Z.of_nat (length hs)) as -> by (rewrite (ar_last _ _ H2), length_app; cbn; lia).
  destruct (up_loop_run (length (m_pHeap L2)) L2 (Z.of_nat (length hs)) (length hs) (hs ++ [u]) u H2 Hnd HN Hq)
    as (q & L3 & hs' & -> & M & Hq' & Hz & Hf1 & Ho); [lia|change (m_pHeap L2) with (m_pHeap L1); rewrite (proj1 S1); lia|].
  cbn [mbind option_bind]. destruct (mv_loc _ _ _ _ _ M q u Hq') as (m & Em & _).
  destruct (set_loc_run u (Z.of_nat q) L3 m Em) as (L4 & -> & A4 & B4 & (S4 & S5 & _) & E4). cbn [mbind option_bind].
  pose proof (mv_shape _ _ _ _ _ M) as (S6 & S7 & _). destruct S1 as [S8 S9]. change (m_pHeap L2) with (m_pHeap L1) in S6.
  change (m_iArrayLength L2) with (m_iArrayLength L1) in S7.
  eexists _, L4, hs'. split; [done|]. assert (hs' ≡ₚ u :: hs) as Hperm by (rewrite (mv_perm _ _ _ _ _ M); symmetry; apply Permutation_cons_append).
  assert (NoDup hs') as Hnd' by (by rewrite (mv_perm _ _ _ _ _ M)).
  assert (∀ v, time (m_nodes L4) v = time N2 v) as Ht4 by (intros v; rewrite E4, time_loc by done; apply M).
  split; [split|split; [done|split; [|split; [|split; [|split]]]]].
  - eapply arr_nodes; [apply M|done|done].
  - rewrite S4, S5, S6, S7, S8, S9. apply H.
  - rewrite S4, S6, S8. apply H.
  - done.
  - rewrite E4. apply located_again; [done|apply M|done].
  - intros v m' Hv Hin. rewrite Hperm, not_elem_of_cons in Hin. destruct Hin as [Hne Hin]. rewrite E4, lookup_insert_ne in Hv by done.
    rewrite (mv_off _ _ _ _ _ M) in Hv by (rewrite not_elem_of_app, list_elem_of_singleton; tauto).
    cbn in Hv. unfold N2 in Hv. rewrite lookup_insert_ne in Hv by done. by eapply ho_off.
  - rewrite Ht4. unfold time, N2. by rewrite lookup_insert_eq.
  - split; intros v.
    + rewrite E4, node_exists_insert by done. rewrite (moved_exists _ _ _ _ _ v M HN). by apply node_exists_insert.
    + intros Hv. rewrite Ht4. unfold time, N2. by rewrite lookup_insert_ne.
  - intros Hord. unfold in_order. assert (length hs' = S (length hs)) as -> by (by rewrite Hperm). rewrite length_app in Ho. cbn [length] in Ho. rewrite Nat.add_1_r in Ho.
    intros i Hi. rewrite !(key_moved (m_nodes L3) (m_nodes L4)) by (intros v; by rewrite E4, time_loc).
    apply Ho; [|done]. eapply ordered_insert; [exact Hord|]. intros j Hj. by apply keys_before.
  - intros ->. rewrite (Hz eq_refl). by rewrite B4, (ar_last _ _ (mv_arr _ _ _ _ _ M)), Hperm.
  - destruct (decide (q = 0%nat)) as [->|Hne]; [right; by left|left]. rewrite Hf1 by done. rewrite lookup_app_l; [done|]. apply lookup_lt_Some in Hq'.
    rewrite Hperm in Hq'. cbn in Hq'. lia.
Qed.

Lemma arr_shorter L hs l : arr L (hs ++ [l]) → arr (set_last (m_iLastEntry L - 1) L) hs.
Proof.
  intros [H1 H2 H3]. rewrite length_app in *. cbn [length] in *. split; cbn [set_last m_iLastEntry m_pHeap]; [lia|lia|].
  intros i u Hi. apply H3. by apply lookup_app_l_Some.
Qed.
Lemma insert_before (hs : list Z) l loc : (loc <= length hs)%nat → <[loc := l]> (hs ++ [l]) = <[loc := l]> hs ++ [l].
Proof.
  intros Hl. destruct (decide (loc = length hs)) as [->|]; [|apply insert_app_l; lia].
  rewrite (list_insert_ge hs) by done. apply list_insert_id. rewrite lookup_app_r by done. by rewrite Nat.sub_diag.
Qed.
(** The last entry [l] takes the place of the entry at [loc]. *)
Lemma replaced_perm (hs : list Z) l loc u : (hs ++ [l]) !! loc = Some u → u :: <[loc := l]> hs ≡ₚ hs ++ [l].
Proof.
  intros [Hu|[Hl Hu]]%lookup_app_Some.
  - rewrite insert_take_drop by (by eapply lookup_lt_Some). rewrite <- (take_drop_middle _ _ _ Hu) at 3.
    rewrite <- (Permutation_cons_append _ l), <- !Permutation_middle. apply perm_swap.
  - apply list_lookup_singleton_Some in Hu as [_ ->]. rewrite list_insert_ge by done. apply Permutation_cons_append.
Qed.
Lemma replaced_located N hs l loc n :
  NoDup (hs ++ [l]) → located N (hs ++ [l]) None →
  located (<[l := {| m_tsTimeStamp := m_tsTimeStamp n; m_iHeapLoc := Z.of_nat loc |}]> N) (<[loc := l]> hs) None.
Proof.
  intros Hnd HN i v [(<- & <- & _)|[Hne Hi]]%list_lookup_insert_Some.
  - rewrite lookup_insert_eq. eexists. by split.
  - rewrite lookup_insert_ne; [by apply HN, lookup_app_l_Some|]. intros ->. apply NoDup_app in Hnd as (_ & Hd & _).
    eapply Hd; [by eapply list_elem_of_lookup_2|by apply list_elem_of_singleton].
Qed.
(** When the last entry takes the place of the entry at [loc], it does not come before what
    is above it. *)
Definition remove_in_order (L : CSndUList) (hs : list Z) (loc : nat) : Prop :=
  loc = 0%nat ∨ key (m_nodes L) hs (par loc) <= key (m_nodes L) hs (length hs - 1).
Lemma replaced_order N N' hs l loc :
  (loc <= length hs)%nat → (∀ u, time N' u = time N u) → ordered (length (hs ++ [l])) (key N (hs ++ [l])) →
  (loc = 0%nat ∨ key N (hs ++ [l]) (par loc) <= key N (hs ++ [l]) (length hs)) →
  ordered_from (length (<[loc := l]> hs)) loc (key N' (<[loc := l]> hs)).
Proof.
  intros Hloc Ht Hord Hs. rewrite length_insert. rewrite length_app in Hord. cbn [length] in Hord. rewrite Nat.add_1_r in Hord.
  apply (ordered_remove _ _ _ _ Hord Hloc Hs). intros i Hi. rewrite (key_moved _ _ _ _ Ht). unfold key. case_decide; subst.
  - rewrite list_lookup_insert_eq by done. rewrite lookup_app_r by done. by rewrite Nat.sub_diag.
  - rewrite list_lookup_insert_ne by done. by rewrite lookup_app_l by done.
Qed.
Lemma ul_remove_run u L hs loc :
  holds L hs → hs !! loc = Some u →
  ∃ w L' hs', remove_ u L = Some (w, L') ∧ holds L' hs' ∧ u :: hs' ≡ₚ hs ∧ (∀ v, time (m_nodes L') v = time (m_nodes L) v) ∧
    (∀ v, is_Some (m_nodes L' !! v) ↔ is_Some (m_nodes L !! v)) ∧ same_array L L' ∧
    ((0 < loc)%nat → hs' !! 0%nat = hs !! 0%nat) ∧ (in_order L hs → remove_in_order L hs loc → in_order L' hs').
Proof.
  intros H Hu. pose proof (lookup_lt_Some _ _ _ Hu) as Hlt. unfold remove_. destruct (ho_loc _ _ H _ _ Hu) as (n & Hn & En).
  rewrite Hn. cbn [mbind option_bind]. rewrite En, (proj2 (Z.leb_le _ _)) by (done || lia). cbv zeta.
  destruct hs as [|l hs _] using rev_ind; [cbn in Hlt; lia|]. rewrite length_app in Hlt. cbn [length] in Hlt.
  pose proof (ho_arr _ _ H) as HA. assert ((hs ++ [l]) !! length hs = Some l) as Hl by (rewrite lookup_app_r by done; by rewrite Nat.sub_diag).
  assert (m_iLastEntry L = Z.of_nat (length hs)) as EL by (rewrite (ar_last _ _ HA), length_app; cbn; lia).
  rewrite EL, (heap_at_run _ _ _ _ HA Hl). cbn [mbind option_bind].
  destruct (store_at_run L _ loc l HA) as (L1 & -> & H1 & E1 & S1); [rewrite length_app; cbn; lia|]. cbn [mbind option_bind].
  rewrite insert_before in H1 by lia. set (L2 := set_last _ L1).
  assert (heap_at L2 (Z.of_nat loc) = Some l) as ->.
  { apply (heap_at_run L1 _ _ _ H1). rewrite <- insert_before by lia. apply list_lookup_insert_eq. rewrite length_app. cbn. lia. }
  cbn [mbind option_bind]. destruct (ho_loc _ _ H _ _ Hl) as (nl & Hnl & _).
  destruct (set_loc_run l (Z.of_nat loc) L2 nl) as (L3 & -> & A3 & B3 & S3 & E3); [change (m_nodes L2) with (m_nodes L1); by rewrite E1|].
  cbn [mbind option_bind]. change (m_nodes L2) with (m_nodes L1) in E3. rewrite E1 in E3.
  set (hs1 := <[loc := l]> hs). assert (arr L3 hs1) as H3 by (eapply arr_nodes; [apply (arr_shorter _ _ _ H1)|done|done]).
  pose proof (replaced_perm _ _ _ _ Hu) as Hp. fold hs1 in Hp.
  assert (NoDup (u :: hs1)) as [Hu1 Hnd1]%NoDup_cons by (rewrite Hp; apply H).
  assert (located (m_nodes L3) hs1 None) as HN3 by (rewrite E3; apply replaced_located; apply H).
  assert (∀ v, time (m_nodes L3) v = time (m_nodes L) v) as Ht3 by (intros v; rewrite E3; by apply time_loc).
  assert (length (m_pHeap L3) = length (m_pHeap L)) as EA by (destruct S3 as (-> & _); apply S1).
  pose proof (ar_fit _ _ HA) as Hfit. rewrite length_app in Hfit. cbn [length] in Hfit.
  destruct (down_loop_run (length (m_pHeap L3)) L3 loc hs1 None H3 Hnd1 HN3) as (L4 & hs' & -> & M & Hf1 & Ho); [unfold hs1; rewrite ?length_insert; lia..|].
  cbn [mbind option_bind].
  assert (is_Some (m_nodes L4 !! u)) as [m Em].
  { rewrite (mv_off _ _ _ _ _ M _ Hu1), E3. apply node_exists_insert; by eexists. }
  destruct (set_loc_run u (-1) L4 m Em) as (L5 & -> & A5 & B5 & (S5 & S6 & _) & E5). cbn [mbind option_bind].
  assert (∀ v, time (m_nodes L5) v = time (m_nodes L) v) as Ht5.
  { intros v. rewrite E5, time_loc by done. by rewrite (mv_time _ _ _ _ _ M). }
  pose proof (mv_shape _ _ _ _ _ M) as (S7 & S8 & _). assert (same_array L L5) as [SA SB].
  { split; [congruence|]. destruct S1 as (_ & S1 & _), S3 as (_ & S3 & _). rewrite S6, S8, S3. exact S1. }
  assert (u :: hs' ≡ₚ hs ++ [l]) as Hperm by (by rewrite (mv_perm _ _ _ _ _ M)).
  eexists _, L5, hs'. split; [done|]. split; [|split; [done|split; [done|split; [|split; [done|split]]]]].
  - assert (NoDup (u :: hs')) as [Hu' Hnd']%NoDup_cons by (rewrite Hperm; apply H).
    split; [eapply arr_nodes; [apply M|done|done]|rewrite SA, SB; apply H|rewrite SA; apply H|done| |].
    + rewrite E5. intros i v Hi. rewrite lookup_insert_ne by (intros ->; by eapply Hu', list_elem_of_lookup_2). by apply (mv_loc _ _ _ _ _ M).
    + intros v k Hv Hin. rewrite E5 in Hv. destruct (decide (u = v)) as [<-|Huv]; [rewrite lookup_insert_eq in Hv; by injection Hv as <-|].
      rewrite lookup_insert_ne in Hv by done. assert (v ∉ hs ++ [l]) as Hv' by (rewrite <- Hperm, not_elem_of_cons; split; [congruence|done]).
      rewrite (mv_off _ _ _ _ _ M) in Hv by (by rewrite <- (mv_perm _ _ _ _ _ M)).
      rewrite E3, lookup_insert_ne in Hv; [by eapply ho_off|]. intros ->. apply Hv'. rewrite elem_of_app, list_elem_of_singleton. tauto.
  - intros v. rewrite E5, node_exists_insert by done. rewrite (moved_exists _ _ _ _ _ v M HN3), E3. apply node_exists_insert. by eexists.
  - intros H0. rewrite Hf1 by done. unfold hs1. rewrite list_lookup_insert_ne by lia. by rewrite lookup_app_l by lia.
  - intros Hord Hs. unfold in_order. assert (length hs' = length hs1) as -> by (by rewrite (mv_perm _ _ _ _ _ M)).
    intros i Hi. rewrite !(key_moved (m_nodes L4) (m_nodes L5)) by (intros v; by rewrite E5, time_loc). apply Ho; [|done].
    apply (replaced_order (m_nodes L)); [lia|done|done|]. unfold remove_in_order in Hs. rewrite length_app in Hs. cbn [length] in Hs.
    by rewrite Nat.add_sub in Hs.
Qed.
Lemma realloc_holds L hs : holds L hs → holds (realloc_ L) hs.
Proof.
  intros [[A1 A2 A3] H1 H2 H3 H4 H5]. split; [split| | |done|done|done]; cbn [realloc_ m_iLastEntry m_pHeap m_iArrayLength].
  - done.
  - rewrite length_app. lia.
  - intros i u Hi. apply lookup_app_l_Some. by apply A3.
  - rewrite length_app, length_replicate. lia.
  - rewrite length_app. lia.
Qed.
Lemma ul_insert_run ts u L hs :
  holds L hs → is_Some (m_nodes L !! u) → u ∉ hs →
  ∃ w L' hs', insert_ ts u L = Some (w, L') ∧ holds L' hs' ∧ hs' ≡ₚ u :: hs ∧ time (m_nodes L') u = ts ∧
    keeps_nodes u L L' ∧ (in_order L hs → in_order L' hs') ∧
    (hs = [] → w = [Interrupt; NotifyAll]) ∧ (hs' !! 0%nat = hs !! 0%nat ∨ Interrupt ∈ w).
Proof.
  intros H Hn Hu. unfold insert_. pose proof (ar_last _ _ (ho_arr _ _ H)). pose proof (ar_fit _ _ (ho_arr _ _ H)).
  pose proof (ho_length _ _ H). pose proof (ho_some _ _ H). destruct (Z.eqb_spec (m_iLastEntry L) (m_iArrayLength L - 1)).
  - destruct (insert_norealloc_run ts u (realloc_ L) hs) as (w & L' & hs' & E); [by apply realloc_holds|done|done| |by exists w, L', hs'].
    cbn [realloc_ m_pHeap]. rewrite length_app, length_replicate. lia.
  - apply insert_norealloc_run; [done|done|done|lia].
Qed.

(** Whether the removal of [u] keeps the order ([remove_in_order]). *)
Definition removal_ok (u : Z) (L : CSndUList) : bool :=
  match m_nodes L !! u with
  | Some n =>
      (m_iHeapLoc n <=? 0) ||
      match time_at L ((m_iHeapLoc n - 1) / 2), time_at L (m_iLastEntry L) with Some a, Some b => a <=? b | _, _ => false end
  | None => true
  end.
Lemma removal_ok_run u L hs loc : holds L hs → hs !! loc = Some u → removal_ok u L = true → remove_in_order L hs loc.
Proof.
  intros H Hu. pose proof (lookup_lt_Some _ _ _ Hu). unfold removal_ok. destruct (ho_loc _ _ H _ _ Hu) as (n & -> & En). rewrite En by done.
  destruct (decide (loc = 0%nat)) as [->|Hne]; [by left|]. right. rewrite (proj2 (Z.leb_gt _ _)) in * by lia. cbn [orb] in *.
  pose proof (par_spec loc). destruct (lookup_lt_is_Some_2 hs (par loc)) as [x Hx]; [lia|]. destruct (lookup_lt_is_Some_2 hs (length hs - 1)) as [y Hy]; [lia|].
  replace ((Z.of_nat loc - 1) / 2) with (Z.of_nat (par loc)) in * by divlia.
  rewrite (ar_last _ _ (ho_arr _ _ H)) in *. replace (Z.of_nat (length hs) - 1) with (Z.of_nat (length hs - 1)) in * by lia.
  rewrite (time_at_run _ _ _ _ _ (ho_arr _ _ H) (ho_loc _ _ H) Hx), (time_at_run _ _ _ _ _ (ho_arr _ _ H) (ho_loc _ _ H) Hy) in *. lia.
Qed.

(** What a call does: the entries and their times as a map. *)
Definition on_list (L : CSndUList) (hs : list Z) (M : gmap Z Z) : Prop :=
  holds L hs ∧ ∀ u t, M !! u = Some t ↔ u ∈ hs ∧ time (m_nodes L) u = t.
Lemma on_list_in L hs M u : on_list L hs M → u ∈ hs ↔ is_Some (M !! u).
Proof. intros [_ H]. split; [intros Hu; eexists; by apply H|]. intros [t Ht]. by apply H in Ht as [? _]. Qed.
Lemma on_list_none L hs M u : on_list L hs M → M !! u = None ↔ u ∉ hs.
Proof. intros H. rewrite (on_list_in _ _ _ _ H). rewrite <- eq_None_not_Some. done. Qed.

Lemma add_on_list L hs M L' hs' u ts :
  on_list L hs M → holds L' hs' → hs' ≡ₚ u :: hs → time (m_nodes L') u = ts → (∀ v, v ≠ u → time (m_nodes L') v = time (m_nodes L) v) →
  on_list L' hs' (<[u := ts]> M).
Proof.
  intros [_ H] H' Hp Ht Hk. split; [done|]. intros v t. rewrite Hp, elem_of_cons. destruct (decide (u = v)) as [<-|Hv].
  - rewrite lookup_insert_eq. split; [intros [= <-]; tauto|]. intros [_ <-]. by rewrite Ht.
  - rewrite lookup_insert_ne, H, Hk by done. split; [tauto|]. intros [[?|?] ?]; [congruence|done].
Qed.
Lemma remove_on_list L hs M L' hs' u :
  on_list L hs M → holds L' hs' → u :: hs' ≡ₚ hs → (∀ v, time (m_nodes L') v = time (m_nodes L) v) → on_list L' hs' (delete u M).
Proof.
  intros [H0 H] H' Hp Hk. split; [done|]. intros v t. rewrite lookup_delete_Some, H, Hk, <- Hp, elem_of_cons.
  assert (NoDup (u :: hs')) as [Hu _]%NoDup_cons by (rewrite Hp; apply H0). split; [intros (? & [?|?] & ?); [congruence|done]|].
  intros [Hv ?]. split; [by intros ->|]. tauto.
Qed.

(** [getNextProcTime] and [pop] look at the first entry. *)
Lemma first_time_run L hs M :
  on_list L hs M →
  (M = ∅ ∧ hs = [] ∧ m_iLastEntry L = -1) ∨
  ∃ u t, hs !! 0%nat = Some u ∧ M !! u = Some t ∧ (-1 =? m_iLastEntry L) = false ∧ heap_at L 0 = Some u ∧ time_at L 0 = Some t ∧
    (in_order L hs → ∀ v t', M !! v = Some t' → t <= t').
Proof.
  intros [H HM]. pose proof (ar_last _ _ (ho_arr _ _ H)) as EL. destruct hs as [|u hs].
  - left. cbn in EL. split; [|done]. apply map_empty. intros u. apply eq_None_not_Some. intros [t [Ht%elem_of_nil _]%HM]. done.
  - right. exists u, (time (m_nodes L) u). split; [done|]. split; [apply HM; split; [by left|done]|]. split; [rewrite EL; cbn [length]; lia|].
    split; [by apply (heap_at_run L (u :: hs) 0 u (ho_arr _ _ H))|].
    split; [by apply (time_at_run L (u :: hs) None 0 u (ho_arr _ _ H) (ho_loc _ _ H))|].
    intros Hord v t' [Hv <-]%HM. apply list_elem_of_lookup in Hv as [i Hi]. pose proof (ordered_first _ _ Hord i (lookup_lt_Some _ _ _ Hi)) as Hle.
    by rewrite (key_here _ _ _ _ Hi) in Hle.
Qed.

(** *** [update] *)
Definition updated (u : Z) (r : EReschedule) (ts : Z) (M : gmap Z Z) : gmap Z Z :=
  match M !! u with
  | Some t => match r with DO_RESCHEDULE => if ts <? t then <[u := ts]> M else M | DONT_RESCHEDULE => M end
  | None => <[u := ts]> M
  end.
(** Whether it moves an entry that is not the first: it is removed and inserted. *)
Definition update_ok (u : Z) (r : EReschedule) (ts : Z) (L : CSndUList) : bool :=
  match m_nodes L !! u, r with
  | Some n, DO_RESCHEDULE => (m_tsTimeStamp n <=? ts) || removal_ok u L
  | _, _ => true
  end.
Lemma earlier_first u ts L hs M n :
  on_list L hs M → hs !! 0%nat = Some u → m_nodes L !! u = Some n → ts < m_tsTimeStamp n →
  ∃ L', set_time u ts L = Some L' ∧ on_list L' hs (<[u := ts]> M) ∧ (in_order L hs → in_order L' hs) ∧
    (∀ v, is_Some (m_nodes L' !! v) ↔ is_Some (m_nodes L !! v)).
Proof.
  intros [H HM] Hu Hn Hlt. unfold set_time. rewrite Hn. cbn [mbind option_bind]. set (N := <[u := _]> (m_nodes L)). eexists. split; [done|].
  destruct H as [H1 H2 H3 H4 H5 H6]. assert (∀ v, u ≠ v → time N v = time (m_nodes L) v) as Ht by (intros v Hv; unfold time, N; by rewrite lookup_insert_ne).
  split; [split; [split; cbn [set_nodes m_nodes m_pHeap m_iArrayLength]; try done| ]|split].
  - by eapply arr_nodes.
  - intros i v Hi. unfold N. destruct (decide (u = v)) as [<-|Hv]; [|rewrite lookup_insert_ne by done; by apply H5].
    rewrite lookup_insert_eq. eexists. split; [done|]. destruct (H5 _ _ Hi) as (m & Em & El). rewrite Hn in Em. by injection Em as <-.
  - intros v m Hv Hin. unfold N in Hv. rewrite lookup_insert_ne in Hv by (intros ->; by eapply Hin, list_elem_of_lookup_2). by eapply H6.
  - intros v t. cbn [set_nodes m_nodes]. destruct (decide (u = v)) as [<-|Hv]; [|by rewrite lookup_insert_ne, HM, Ht].
    rewrite lookup_insert_eq. unfold time, N. rewrite lookup_insert_eq. cbn. split; [intros [= <-]; split; [by eapply list_elem_of_lookup_2|done]|by intros [_ ->]].
  - intros Hord i Hi. cbn [set_nodes m_nodes]. specialize (Hord i Hi).
    assert (∀ j, key N hs j <= key (m_nodes L) hs j) as Hle.
    { intros j. unfold key. destruct (hs !! j) as [v|]; [|done]. destruct (decide (u = v)) as [<-|Hv]; [|by rewrite Ht].
      unfold time, N. rewrite lookup_insert_eq, Hn. cbn. lia. }
    assert (key N hs i = key (m_nodes L) hs i) as ->; [|pose proof (Hle (par i)); lia].
    unfold key. destruct (hs !! i) as [v|] eqn:Ei; [|done]. apply Ht. intros <-. pose proof (NoDup_lookup _ _ _ _ H4 Hu Ei). lia.
  - intros v. apply node_exists_insert. by eexists.
Qed.
Lemma update_run u r ts L hs M :
  on_list L hs M → is_Some (m_nodes L !! u) →
  ∃ w L' hs', update u r ts L = Some (w, L') ∧ on_list L' hs' (updated u r ts M) ∧ (∀ v, is_Some (m_nodes L' !! v) ↔ is_Some (m_nodes L !! v)) ∧
    (in_order L hs → update_ok u r ts L = true → in_order L' hs') ∧
    (hs = [] → w = [Interrupt; NotifyAll]) ∧ ((hs' !! 0%nat = hs !! 0%nat ∧ (∀ v, hs !! 0%nat = Some v → time (m_nodes L') v = time (m_nodes L) v)) ∨ Interrupt ∈ w).
Proof.
  intros HL [n Hn]. pose proof (proj1 HL) as H. unfold update, updated, update_ok. rewrite Hn. cbn [mbind option_bind].
  assert (∀ L' hs', holds L' hs' → hs' ≡ₚ u :: hs → time (m_nodes L') u = ts → keeps_nodes u L L' → u ∉ hs →
    on_list L' hs' (<[u := ts]> M)) as Hadd by (intros L' hs' H' Hp Ht [_ Hk] Hu; by eapply add_on_list).
  destruct (node_loc _ _ _ _ H Hn) as [(Hu & Hloc & Hi)|[Hu ->]].
  2: { rewrite (proj2 (on_list_none _ _ _ _ HL) Hu). cbn [Z.leb Z.compare].
       destruct (ul_insert_run ts u L hs H) as (w & L' & hs' & E & H' & Hp & Ht & Hk & Ho & Hw & Hf); [by eexists|done|]. exists w, L', hs'.
       split; [done|]. split; [by apply Hadd|]. split; [apply Hk|]. split; [auto|]. split; [done|]. destruct Hf as [Hf|]; [left|by right].
       split; [done|]. intros v Hv. apply Hk. intros ->. by eapply Hu, list_elem_of_lookup_2. }
  rewrite (proj2 (Z.leb_le _ _)) by done. assert (M !! u = Some (m_tsTimeStamp n)) as EM by (apply HL; split; [done|]; unfold time; by rewrite Hn).
  rewrite EM. assert (hs ≠ []) as Hne by (intros ->; by apply elem_of_nil in Hu).
  destruct r; [exists [], L, hs; by split_and!; auto|]. destruct (Z.leb_spec (m_tsTimeStamp n) ts) as [Hle|Hlt].
  { rewrite (proj2 (Z.ltb_ge _ _)) by done. exists [], L, hs. by split_and!; auto. }
  rewrite (proj2 (Z.ltb_lt _ _)) by done. cbn [orb]. destruct (Z.eqb_spec (m_iHeapLoc n) 0) as [E0|E0].
  { rewrite E0 in Hi. destruct (earlier_first u ts L hs M n HL Hi Hn Hlt) as (L' & -> & H' & Ho & Hk). cbn [mbind option_bind].
    exists [Interrupt], L', hs. split_and!; auto; [done|]. right. by left. }
  destruct (ul_remove_run u L hs _ H Hi) as (w1 & L1 & hs1 & -> & H1 & Hp1 & Ht1 & Hk1 & HA1 & Hf1 & Ho1). cbn [mbind option_bind].
  assert (NoDup (u :: hs1)) as [Hu1 _]%NoDup_cons by (rewrite Hp1; apply H).
  destruct (insert_norealloc_run ts u L1 hs1 H1) as (w2 & L2 & hs2 & -> & H2 & Hp2 & Ht2 & [Hk2 Hk2'] & Ho2 & _ & Hf2);
    [apply Hk1; by eexists|done| |].
  { pose proof (ar_fit _ _ (ho_arr _ _ H)) as Hfit. rewrite (proj1 HA1). rewrite <- Hp1 in Hfit. cbn in Hfit. lia. }
  cbn [mbind option_bind]. exists (w1 ++ w2), L2, hs2. split; [done|]. split; [|split; [|split; [|split]]].
  - rewrite <- insert_delete_eq. eapply add_on_list; [by eapply (remove_on_list L hs M L1 hs1)|done|done|done|done].
  - intros v. by rewrite Hk2, Hk1.
  - intros Hord Hok. apply Ho2, Ho1; [done|]. by eapply removal_ok_run.
  - done.
  - destruct Hf2 as [Hf2|Hin]; [left|right; apply elem_of_app; by right]. rewrite Hf2, Hf1 by lia. split; [done|]. intros v Hv.
    rewrite Hk2'; [apply Ht1|]. intros ->. pose proof (NoDup_lookup _ _ _ _ (ho_nodup _ _ H) Hv Hi). lia.
Qed.

(** *** The other calls *)
Lemma remove_any_run u L hs M :
  on_list L hs M → is_Some (m_nodes L !! u) →
  ∃ w L' hs', remove_ u L = Some (w, L') ∧ on_list L' hs' (delete u M) ∧ (∀ v, is_Some (m_nodes L' !! v) ↔ is_Some (m_nodes L !! v)) ∧
    (in_order L hs → removal_ok u L = true → in_order L' hs').
Proof.
  intros HL [n Hn]. pose proof (proj1 HL) as H. destruct (node_loc _ _ _ _ H Hn) as [(Hu & Hloc & Hi)|[Hu En]].
  - destruct (ul_remove_run u L hs _ H Hi) as (w & L' & hs' & -> & H1 & Hp & Ht & Hk & _ & _ & Ho). exists w, L', hs'. split; [done|].
    split; [by eapply remove_on_list|]. split; [done|]. intros Hord Hok. apply Ho; [done|]. by eapply removal_ok_run.
  - unfold remove_. rewrite Hn. cbn [mbind option_bind]. rewrite En. cbn [Z.leb Z.compare mbind option_bind]. eexists _, L, hs. split; [done|].
    rewrite delete_id by (by apply (on_list_none _ _ _ _ HL)). done.
Qed.
Lemma ul_pop_run now L hs M :
  on_list L hs M →
  ∃ r w L' hs', pop now L = Some (r, w, L') ∧ (∀ v, is_Some (m_nodes L' !! v) ↔ is_Some (m_nodes L !! v)) ∧ (in_order L hs → in_order L' hs') ∧
    match r with
    | None => L' = L ∧ hs' = hs ∧ (M = ∅ ∨ ∃ u t, M !! u = Some t ∧ now < t ∧ (in_order L hs → ∀ v t', M !! v = Some t' → t <= t'))
    | Some u => on_list L' hs' (delete u M) ∧ ∃ t, M !! u = Some t ∧ t <= now ∧ (in_order L hs → ∀ v t', M !! v = Some t' → t <= t')
    end.
Proof.
  intros HL. unfold pop. destruct (first_time_run _ _ _ HL) as [(EM & _ & ->)|(u & t & Hu & Ht & -> & -> & -> & Hmin)].
  { exists None, [], L, hs. split; [done|]. split; [done|]. split; [done|]. split_and!; auto. }
  cbn [mbind option_bind]. destruct (Z.ltb_spec now t) as [Hlt|Hge].
  { exists None, [], L, hs. split; [done|]. split; [done|]. split; [done|]. split_and!; auto. right. by exists u, t. }
  destruct (ul_remove_run u L hs 0 (proj1 HL) Hu) as (w & L' & hs' & -> & H1 & Hp & Ht1 & Hk & _ & _ & Ho). cbn [mbind option_bind].
  exists (Some u), w, L', hs'. split; [done|]. split; [done|]. split; [intros ?; apply Ho; [done|by left]|].
  split; [by eapply remove_on_list|]. by exists t.
Qed.

(** ** Sequences of calls *)

(** What a call answers and does to the schedule, [M]; when [ok], the order was kept. *)
Definition is_least (t : Z) (M : gmap Z Z) : Prop := ∀ v t', M !! v = Some t' → t <= t'.
Definition ul_spec (ok : bool) (op : ul_op) (out : ul_out) (M M' : gmap Z Z) : Prop :=
  match op, out with
  | Update u r ts, Updated _ => M' = updated u r ts M
  | Pop now, Popped None _ => M' = M ∧ (M = ∅ ∨ ∃ u t, M !! u = Some t ∧ now < t ∧ (ok = true → is_least t M))
  | Pop now, Popped (Some u) _ => M' = delete u M ∧ ∃ t, M !! u = Some t ∧ t <= now ∧ (ok = true → is_least t M)
  | Remove u, Removed _ => M' = delete u M
  | NextTime, Next t => M' = M ∧ ((M = ∅ ∧ t = 0) ∨ ∃ u, M !! u = Some t ∧ (ok = true → is_least t M))
  | _, _ => False
  end.
Fixpoint ul_agrees (ok : bool) (ops : list ul_op) (outs : list ul_out) (M M' : gmap Z Z) : Prop :=
  match ops, outs with
  | [], [] => M' = M
  | op :: ops, out :: outs => ∃ M1, ul_spec ok op out M M1 ∧ ul_agrees ok ops outs M1 M'
  | _, _ => False
  end.
(** Whether every call of a sequence keeps the order. *)
Definition step_ok (op : ul_op) (L : CSndUList) : bool :=
  match op with Update u r ts => update_ok u r ts L | Remove u => removal_ok u L | _ => true end.
Fixpoint orderly (ops : list ul_op) (L : CSndUList) : bool :=
  match ops with
  | [] => true
  | op :: ops => step_ok op L && match ul_step op L with Some (_, L) => orderly ops L | None => false end
  end.
(** The socket of a call is open. *)
Definition known (L : CSndUList) (op : ul_op) : Prop :=
  match op with Update u _ _ | Remove u => is_Some (m_nodes L !! u) | _ => True end.

Lemma ul_step_run ok op L hs M :
  on_list L hs M → known L op → (ok = true → in_order L hs) →
  ∃ out L' hs' M', ul_step op L = Some (out, L') ∧ on_list L' hs' M' ∧ ul_spec ok op out M M' ∧
    (∀ v, is_Some (m_nodes L' !! v) ↔ is_Some (m_nodes L !! v)) ∧ (in_order L hs → step_ok op L = true → in_order L' hs').
Proof.
  intros HL Hk Hok. destruct op as [u r ts|now|u|]; cbn [ul_step step_ok known] in *.
  - destruct (update_run u r ts L hs M HL Hk) as (w & L' & hs' & -> & H' & Hn & Ho & _). cbn [mbind option_bind]. by eexists _, L', hs', _.
  - destruct (ul_pop_run now L hs M HL) as (r & w & L' & hs' & -> & Hn & Ho & Hr). cbn [mbind option_bind]. destruct r as [u|].
    + destruct Hr as (H' & t & Ht & Hle & Hmin). eexists _, L', hs', _. split; [done|]. split; [exact H'|]. split; [|split; [done|auto]].
      split; [done|]. exists t. split_and!; try done. intros E. exact (Hmin (Hok E)).
    + destruct Hr as (-> & -> & Hr). eexists _, L, hs, M. split; [done|]. split; [done|]. split; [|split; [done|auto]]. split; [done|].
      destruct Hr as [?|(u & t & ? & ? & Hmin)]; [by left|right]. exists u, t. split_and!; try done. intros E. exact (Hmin (Hok E)).
  - destruct (remove_any_run u L hs M HL Hk) as (w & L' & hs' & -> & H' & Hn & Ho). cbn [mbind option_bind]. by eexists _, L', hs', _.
  - unfold getNextProcTime. destruct (first_time_run _ _ _ HL) as [(EM & _ & ->)|(u & t & Hu & Ht & -> & _ & -> & Hmin)]; cbn [mbind option_bind].
    + eexists _, L, hs, M. split; [done|]. split; [done|]. split; [|done]. split; [done|by left].
    + eexists _, L, hs, M. split; [done|]. split; [done|]. split; [|done]. split; [done|]. right. exists u. split; [done|]. intros E. exact (Hmin (Hok E)).
Qed.
Lemma ul_steps ops : ∀ L hs M,
  on_list L hs M → Forall (known L) ops → in_order L hs →
  ∃ outs L' hs' M', ul_run ops L = Some (outs, L') ∧ on_list L' hs' M' ∧ ul_agrees (orderly ops L) ops outs M M'.
Proof.
  enough (∀ ok L hs M, on_list L hs M → Forall (known L) ops → (ok = true → in_order L hs ∧ orderly ops L = true) →
    ∃ outs L' hs' M', ul_run ops L = Some (outs, L') ∧ on_list L' hs' M' ∧ ul_agrees ok ops outs M M') as Hgen by (intros; by eapply Hgen).
  induction ops as [|op ops IH]; intros ok L hs M HL Hk Hord; [by exists [], L, hs, M|]. apply Forall_cons in Hk as [Hk1 Hk].
  destruct (ul_step_run ok op L hs M HL Hk1) as (out & L1 & hs1 & M1 & E & H1 & Hs & Hn & Ho); [intros ?; by apply Hord|].
  cbn [ul_run orderly] in *. rewrite E in *. cbn [mbind option_bind].
  destruct (IH ok L1 hs1 M1 H1) as (outs & L2 & hs2 & M2 & -> & H2 & Hag).
  - eapply Forall_impl; [exact Hk|]. intros [] ?; cbn [known] in *; try done; by apply Hn.
  - intros Hok. destruct (Hord Hok) as [Hi [Hs1 Hs2]%andb_true_iff]. auto.
  - cbn [mbind option_bind]. eexists _, L2, hs2, M2. split; [done|]. split; [done|]. by exists M1.
Qed.
Lemma new_on_list : on_list CSndUList_new [] ∅.
Proof.
  split; [split|].
  - split; [done|cbn; lia|intros i u Hi; by rewrite lookup_nil in Hi].
  - done.
  - cbn. lia.
  - constructor.
  - intros i u Hi. by rewrite lookup_nil in Hi.
  - intros u n Hu. change (m_nodes CSndUList_new) with (∅ : gmap Z CSNode) in Hu. by rewrite lookup_empty in Hu.
  - intros u t. rewrite lookup_empty. split; [done|]. by intros [Hu%elem_of_nil _].
Qed.
Lemma open_on_list u now L hs M : on_list L hs M → u ∉ hs → on_list (new_node u now L) hs M.
Proof.
  intros [[H1 H2 H3 H4 H5 H6] HM] Hu. split; [split; cbn [new_node set_nodes m_nodes m_pHeap m_iArrayLength]; try done|].
  - by eapply arr_nodes.
  - intros i v Hi. rewrite lookup_insert_ne; [by apply H5|]. intros ->. by eapply Hu, list_elem_of_lookup_2.
  - intros v n Hv Hin. destruct (decide (u = v)) as [<-|Hne]; [rewrite lookup_insert_eq in Hv; by injection Hv as <-|].
    rewrite lookup_insert_ne in Hv by done. by eapply H6.
  - intros v t. rewrite HM. cbn [new_node set_nodes m_nodes]. destruct (decide (u = v)) as [<-|Hne]; [by split; intros [? _]|].
    unfold time. by rewrite lookup_insert_ne.
Qed.
