(* ===== verification/SndWorker.v ===== *)
(** * The sending thread

    A round of CSndQueue::worker of queue.cpp: it takes the socket that is due first from
    the schedule ([SndUList]), packs its next packet ([SndPath]), puts the socket back for
    the time that it says, and sends the packet. *)
From S2P Require Import Prelude SndUList SndPath.

(** What the thread asks of a socket. *)
Record worker_socket := { w_connected : bool; w_broken : bool; w_config : path_config; w_inputs : pack_inputs; w_path : CUDT_path }.
Definition with_path (D : CUDT_path) (s : worker_socket) : worker_socket :=
  {| w_connected := w_connected s; w_broken := w_broken s; w_config := w_config s; w_inputs := w_inputs s; w_path := D |}.
Record CSndQueue := { m_pSndUList : CSndUList; sockets : gmap Z worker_socket }.
(** No socket to wait for; none that is due; a socket that is not connected; one that has
    nothing to send; one that sends. *)
Inductive round := Idle | NotDue | Skipped (u : Z) | Nothing (u : Z) | Sent (u : Z) (pkt : option CPacket).

Section worker.
Context (encrypt : Z → CPacket → option bytes).
(** [now] is the clock when the thread has waited for the next time. *)
Definition worker_round (now : Z) (Q : CSndQueue) : option (round * list wakeup * CSndQueue) :=
  next_time ← getNextProcTime (m_pSndUList Q);
  if next_time =? 0 then Some (Idle, [], Q)
  else
    '(u, w, L) ← pop now (m_pSndUList Q);
    let Q := {| m_pSndUList := L; sockets := sockets Q |} in
    match u with
    | None => Some (NotDue, w, Q)
    | Some u =>
        s ← sockets Q !! u;
        if negb (w_connected s) || w_broken s then Some (Skipped u, w, Q)
        else
          '(payload, next_send_time, pkt, D, _) ← packData (encrypt u) (w_config s) (w_inputs s) now (w_path s);
          let socks := <[u := with_path D s]> (sockets Q) in
          if payload <=? 0 then Some (Nothing u, w, {| m_pSndUList := L; sockets := socks |})
          else
            '(w', L) ← (if negb (next_send_time =? 0) then update u DO_RESCHEDULE next_send_time L else Some ([], L));
            Some (Sent u pkt, w ++ w', {| m_pSndUList := L; sockets := socks |})
    end.
End worker.
