(* ===== verification/TsbPd.v ===== *)
(** * When a packet is due (srtcore/tsbpd_time.cpp, [DriftTracer] of utilities.h)

    The time stamp of a packet has 32 bits of microseconds; the receiver keeps a
    base time that moves on when the stamps wrap, a delay and the drift of the clocks.
    A [time_point] is its microseconds, a [duration] too. *)
From S2P Require Import Prelude.

Definition MAX_TIMESTAMP : Z := 0xFFFFFFFF.
Definition TSBPD_WRAP_PERIOD : Z := 30 * 1000000.
Definition TSBPD_DRIFT_MAX_VALUE : Z := 5000.
Definition TSBPD_DRIFT_MAX_SAMPLES : Z := 1000.

(** ** The drift: [DriftTracer<TSBPD_DRIFT_MAX_SAMPLES, TSBPD_DRIFT_MAX_VALUE>] *)

Record DriftTracer := { m_qDrift : Z; m_qOverdrift : Z; m_qDriftSum : Z; m_uDriftSpan : Z }.
Definition DriftTracer_new : DriftTracer := {| m_qDrift := 0; m_qOverdrift := 0; m_qDriftSum := 0; m_uDriftSpan := 0 |}.
Definition drift_update (driftval : Z) (D : DriftTracer) : bool * DriftTracer :=
  let sum := i64 (m_qDriftSum D + driftval) in
  let span := u32 (m_uDriftSpan D + 1) in
  if span <? TSBPD_DRIFT_MAX_SAMPLES then
    (false, {| m_qDrift := m_qDrift D; m_qOverdrift := 0; m_qDriftSum := sum; m_uDriftSpan := span |})
  else
    let drift := Z.quot sum span in
    let over := if TSBPD_DRIFT_MAX_VALUE <? Z.abs drift
                then (if drift <? 0 then - TSBPD_DRIFT_MAX_VALUE else TSBPD_DRIFT_MAX_VALUE) else 0 in
    (true, {| m_qDrift := drift - over; m_qOverdrift := over; m_qDriftSum := 0; m_uDriftSpan := 0 |}).
Definition forceDrift (driftval : Z) (D : DriftTracer) : DriftTracer :=
  {| m_qDrift := driftval; m_qOverdrift := m_qOverdrift D; m_qDriftSum := m_qDriftSum D; m_uDriftSpan := m_uDriftSpan D |}.

(** ** The base time: [CTsbpdTime] *)

Record CTsbpdTime := {
  m_iFirstRTT : Z; m_bTsbPdMode : bool; m_tdTsbPdDelay : Z; m_tsTsbPdTimeBase : Z; m_bTsbPdWrapCheck : bool;
  m_DriftTracer : DriftTracer }.
Definition CTsbpdTime_new : CTsbpdTime :=
  {| m_iFirstRTT := -1; m_bTsbPdMode := false; m_tdTsbPdDelay := 0; m_tsTsbPdTimeBase := 0; m_bTsbPdWrapCheck := false;
     m_DriftTracer := DriftTracer_new |}.
Definition with_base (base : Z) (wrap : bool) (T : CTsbpdTime) : CTsbpdTime :=
  {| m_iFirstRTT := m_iFirstRTT T; m_bTsbPdMode := m_bTsbPdMode T; m_tdTsbPdDelay := m_tdTsbPdDelay T;
     m_tsTsbPdTimeBase := base; m_bTsbPdWrapCheck := wrap; m_DriftTracer := m_DriftTracer T |}.
Definition with_drift (rtt : Z) (D : DriftTracer) (T : CTsbpdTime) : CTsbpdTime :=
  {| m_iFirstRTT := rtt; m_bTsbPdMode := m_bTsbPdMode T; m_tdTsbPdDelay := m_tdTsbPdDelay T;
     m_tsTsbPdTimeBase := m_tsTsbPdTimeBase T; m_bTsbPdWrapCheck := m_bTsbPdWrapCheck T; m_DriftTracer := D |}.

Definition setTsbPdMode (timebase : Z) (wrap : bool) (delay : Z) (T : CTsbpdTime) : CTsbpdTime :=
  {| m_iFirstRTT := m_iFirstRTT T; m_bTsbPdMode := true; m_tdTsbPdDelay := delay; m_tsTsbPdTimeBase := timebase;
     m_bTsbPdWrapCheck := wrap; m_DriftTracer := m_DriftTracer T |}.
Definition applyGroupTime (timebase : Z) (wrp : bool) (delay udrift : Z) (T : CTsbpdTime) : CTsbpdTime :=
  {| m_iFirstRTT := m_iFirstRTT T; m_bTsbPdMode := true; m_tdTsbPdDelay := delay; m_tsTsbPdTimeBase := timebase;
     m_bTsbPdWrapCheck := wrp; m_DriftTracer := forceDrift udrift (m_DriftTracer T) |}.
Definition applyGroupDrift (timebase : Z) (wrp : bool) (udrift : Z) (T : CTsbpdTime) : CTsbpdTime :=
  with_drift (m_iFirstRTT T) (forceDrift udrift (m_DriftTracer T)) (with_base timebase wrp T).
Definition getInternalTimeBase (T : CTsbpdTime) : Z * bool * Z :=
  (m_tsTsbPdTimeBase T, m_bTsbPdWrapCheck T, m_qDrift (m_DriftTracer T)).

Definition getTsbPdTimeBase (T : CTsbpdTime) (timestamp_us : Z) : Z :=
  m_tsTsbPdTimeBase T + (if m_bTsbPdWrapCheck T && (timestamp_us <=? 2 * TSBPD_WRAP_PERIOD) then MAX_TIMESTAMP + 1 else 0).
Definition getPktTsbPdBaseTime (T : CTsbpdTime) (usPktTimestamp : Z) : Z := getTsbPdTimeBase T usPktTimestamp + usPktTimestamp.
Definition getPktTsbPdTime (T : CTsbpdTime) (usPktTimestamp : Z) : Z :=
  getPktTsbPdBaseTime T usPktTimestamp + m_tdTsbPdDelay T + m_qDrift (m_DriftTracer T).

Definition updateTsbPdTimeBase (usPktTimestamp : Z) (T : CTsbpdTime) : CTsbpdTime :=
  if m_bTsbPdWrapCheck T then
    if (TSBPD_WRAP_PERIOD <=? usPktTimestamp) && (usPktTimestamp <=? TSBPD_WRAP_PERIOD * 2)
    then with_base (m_tsTsbPdTimeBase T + (MAX_TIMESTAMP + 1)) false T else T
  else if MAX_TIMESTAMP - TSBPD_WRAP_PERIOD <? usPktTimestamp then with_base (m_tsTsbPdTimeBase T) true T
  else T.

Definition addDriftSample (usPktTimestamp usRTTSample now : Z) (T : CTsbpdTime) : bool * CTsbpdTime :=
  if negb (m_bTsbPdMode T) then (false, T)
  else
    let rtt := if m_iFirstRTT T =? -1 then usRTTSample else m_iFirstRTT T in
    let drift := now - getPktTsbPdBaseTime T usPktTimestamp - Z.quot (usRTTSample - rtt) 2 in
    let '(updated, D) := drift_update drift (m_DriftTracer T) in
    let T := with_drift rtt D T in
    (updated, if updated : bool then with_base (m_tsTsbPdTimeBase T + m_qOverdrift D) (m_bTsbPdWrapCheck T) T else T).

(** [CRcvBuffer::getPktTsbPdTime]: the base moves, then the time is taken. *)
Definition play_time (stamp : Z) (T : CTsbpdTime) : Z * CTsbpdTime :=
  let T := updateTsbPdTimeBase stamp T in (getPktTsbPdTime T stamp, T).
