(* ===== verification/RcvBuf.v ===== *)
(** * The buffer of the receiver (srtcore/buffer.cpp, [CRcvBuffer]; queue.cpp, [CUnitQueue])

    A ring of pointers to units; a unit holds a packet and a flag and belongs to the
    queue of units, which hands out the free ones.  The units are a shared store: a
    pointer is the index of a unit in it.  The result is [None] where the code reads
    through a null pointer or outside of an array.  The clock does not move within a
    call. *)
From S2P Require Import Prelude SeqNo LossRing RcvLossFacts SndLoss LossSend SndBuf SndPath TsbPd.

(** ** Packets (packet.h, packet.cpp) *)

Definition getLength (p : CPacket) : Z := len (m_pcData p).
Definition getMsgBoundary (p : CPacket) : PacketBoundary :=
  match Z.to_nat (Z.land (Z.shiftr (m_iMsgNo p) 30) 3) with
  | 0%nat => PB_SUBSEQUENT | 1%nat => PB_LAST | 2%nat => PB_FIRST | _ => PB_SOLO
  end.
Definition getMsgOrderFlag (p : CPacket) : bool := Z.testbit (m_iMsgNo p) 29.
Definition getMsgCryptoFlags (p : CPacket) : Z := Z.land (Z.shiftr (m_iMsgNo p) 27) 3.
Definition getRexmitFlag (p : CPacket) : bool := Z.testbit (m_iMsgNo p) 26.
Definition MSGNO_SEQ_OLD_mask : Z := 0x7FFFFFF.
Definition getMsgSeq (has_rexmit : bool) (p : CPacket) : Z :=
  Z.land (m_iMsgNo p) (if has_rexmit then MSGNO_SEQ_mask else MSGNO_SEQ_OLD_mask).
Definition getMsgTimeStamp (p : CPacket) : Z := Z.land (m_iTimeStamp p) MAX_TIMESTAMP.
Definition EK_NOENC : Z := 0.
Definition is_first (b : PacketBoundary) : bool := match b with PB_FIRST | PB_SOLO => true | _ => false end.
Definition is_last (b : PacketBoundary) : bool := match b with PB_LAST | PB_SOLO => true | _ => false end.

(** ** The queue of units *)

Inductive Flag := FREE | GOOD | PASSACK | DROPPED.
#[export] Instance Flag_dec : EqDecision Flag.
Proof. solve_decision. Defined.
Record CUnit := mkUnit { m_Packet : CPacket; m_iFlag : Flag }.
Definition unit_is (f : Flag) (u : CUnit) : bool := bool_decide (m_iFlag u = f).

(** The entries have the same size: entry [i] is the [i]-th part of [m_units]. *)
Record CUnitQueue := mkUQ {
  m_units : list CUnit; m_iEntrySize : nat; m_pCurrQueue : nat; m_pAvailUnit : nat; m_iUnitCount : Z }.
Definition uq_size (Q : CUnitQueue) : Z := Z.of_nat (length (m_units Q)).
Definition set_units (units : list CUnit) (count : Z) (Q : CUnitQueue) : CUnitQueue :=
  mkUQ units (m_iEntrySize Q) (m_pCurrQueue Q) (m_pAvailUnit Q) count.
Definition set_avail (entry avail : nat) (Q : CUnitQueue) : CUnitQueue :=
  mkUQ (m_units Q) (m_iEntrySize Q) entry avail (m_iUnitCount Q).

Section units.
(** The packets of new units: [new CUnit[size]]. *)
Context (uninit : CPacket).

Definition CUnitQueue_init (size : nat) : CUnitQueue := mkUQ (replicate size (mkUnit uninit FREE)) size 0 0 0.

(** [double(m_iCount) / m_iSize < 0.9]: the quotient of two [int]s, rounded, is on the
    side of 0.9 where the exact one is. *)
Definition uq_increase (Q : CUnitQueue) : bool * CUnitQueue :=
  let real_count := Z.of_nat (length (filter (λ u, m_iFlag u ≠ FREE) (m_units Q))) in
  let Q := set_units (m_units Q) real_count Q in
  if 10 * real_count <? 9 * uq_size Q then (false, Q)
  else (true, set_units (m_units Q ++ replicate (m_iEntrySize Q) (mkUnit uninit FREE)) real_count Q).

(** The first free unit from [a] on among [n]. *)
Fixpoint find_free (units : list CUnit) (a n : nat) : option nat :=
  match n with
  | O => None
  | S n' => u ← units !! a; if unit_is FREE u then Some a else find_free units (S a) n'
  end.
(** The loop over the entries; [None] in the result: no unit. *)
Fixpoint avail_loop (fuel : nat) (checked : Z) (Q : CUnitQueue) : option (option nat * CUnitQueue) :=
  match fuel with
  | O => None
  | S fuel' =>
      let n := (S (m_pCurrQueue Q) * m_iEntrySize Q - m_pAvailUnit Q)%nat in
      match find_free (m_units Q) (m_pAvailUnit Q) n with
      | Some a => Some (Some a, set_avail (m_pCurrQueue Q) a Q)
      | None =>
          let next := if bool_decide (S (m_pCurrQueue Q) * m_iEntrySize Q < length (m_units Q))%nat
                      then S (m_pCurrQueue Q) else 0%nat in
          let Q := set_avail next (next * m_iEntrySize Q)%nat Q in
          let checked := checked + Z.of_nat n in
          if checked <? uq_size Q then avail_loop fuel' checked Q else Some (None, (uq_increase Q).2)
      end
  end.
Definition getNextAvailUnit (Q : CUnitQueue) : option (option nat * CUnitQueue) :=
  let Q := if uq_size Q * 9 <? m_iUnitCount Q * 10 then (uq_increase Q).2 else Q in
  if uq_size Q <=? m_iUnitCount Q then Some (None, Q) else avail_loop (S (length (m_units Q))) 0 Q.
End units.

Definition set_flag (f : Flag) (u : CUnit) : CUnit := mkUnit (m_Packet u) f.
Definition set_packet (p : CPacket) (u : CUnit) : CUnit := mkUnit p (m_iFlag u).
Definition upd_unit (i : nat) (f : CUnit → CUnit) (Q : CUnitQueue) : option CUnitQueue :=
  u ← m_units Q !! i; Some (set_units (<[i := f u]> (m_units Q)) (m_iUnitCount Q) Q).
Definition makeUnitFree (i : nat) (Q : CUnitQueue) : option CUnitQueue :=
  Q ← upd_unit i (set_flag FREE) Q; Some (set_units (m_units Q) (m_iUnitCount Q - 1) Q).
Definition makeUnitGood (i : nat) (Q : CUnitQueue) : option CUnitQueue :=
  Q ← upd_unit i (set_flag GOOD) Q; Some (set_units (m_units Q) (m_iUnitCount Q + 1) Q).

(** ** The ring *)

Record byte_counts := mkBytes { m_iBytesCount : Z; m_iAckedPktsCount : Z; m_iAckedBytesCount : Z; m_uAvgPayloadSz : Z }.
Record CRcvBuffer := mkRB {
  m_pUnit : list (option nat); m_pUnitQueue : CUnitQueue; m_iStartPos : Z; m_iLastAckPos : Z; m_iMaxPos : Z;
  m_iNotch : Z; m_bytes : byte_counts; m_tsbpd : CTsbpdTime }.
Definition rb_size (B : CRcvBuffer) : Z := Z.of_nat (length (m_pUnit B)).
Definition set_ring (ring : list (option nat)) (Q : CUnitQueue) (B : CRcvBuffer) : CRcvBuffer :=
  mkRB ring Q (m_iStartPos B) (m_iLastAckPos B) (m_iMaxPos B) (m_iNotch B) (m_bytes B) (m_tsbpd B).
Definition set_start (p : Z) (B : CRcvBuffer) : CRcvBuffer :=
  mkRB (m_pUnit B) (m_pUnitQueue B) p (m_iLastAckPos B) (m_iMaxPos B) (m_iNotch B) (m_bytes B) (m_tsbpd B).
Definition set_ackpos (p max : Z) (B : CRcvBuffer) : CRcvBuffer :=
  mkRB (m_pUnit B) (m_pUnitQueue B) (m_iStartPos B) p max (m_iNotch B) (m_bytes B) (m_tsbpd B).
Definition set_notch (n : Z) (B : CRcvBuffer) : CRcvBuffer :=
  mkRB (m_pUnit B) (m_pUnitQueue B) (m_iStartPos B) (m_iLastAckPos B) (m_iMaxPos B) n (m_bytes B) (m_tsbpd B).
Definition set_bytes (c : byte_counts) (B : CRcvBuffer) : CRcvBuffer :=
  mkRB (m_pUnit B) (m_pUnitQueue B) (m_iStartPos B) (m_iLastAckPos B) (m_iMaxPos B) (m_iNotch B) c (m_tsbpd B).
Definition set_tsbpd (T : CTsbpdTime) (B : CRcvBuffer) : CRcvBuffer :=
  mkRB (m_pUnit B) (m_pUnitQueue B) (m_iStartPos B) (m_iLastAckPos B) (m_iMaxPos B) (m_iNotch B) (m_bytes B) T.

Definition CRcvBuffer_new (queue : CUnitQueue) (bufsize_pkts : nat) : CRcvBuffer :=
  mkRB (replicate bufsize_pkts None) queue 0 0 0 0 (mkBytes 0 0 0 (7 * 188)) CTsbpdTime_new.

Definition shift (B : CRcvBuffer) (basepos n : Z) : Z := Z.rem (basepos + n) (rb_size B).
Definition shiftFwd (B : CRcvBuffer) (basepos : Z) : Z := if basepos + 1 =? rb_size B then 0 else basepos + 1.
Definition getRcvDataSize (B : CRcvBuffer) : Z :=
  if m_iStartPos B <=? m_iLastAckPos B then m_iLastAckPos B - m_iStartPos B
  else rb_size B + m_iLastAckPos B - m_iStartPos B.
Definition getAvailBufSize (B : CRcvBuffer) : Z := rb_size B - getRcvDataSize B - 1.
Definition isRcvDataAvailable (B : CRcvBuffer) : bool := negb (m_iLastAckPos B =? m_iStartPos B).
Definition rb_empty (B : CRcvBuffer) : bool := m_iStartPos B =? m_iLastAckPos B.

(** [m_pUnit[p]], and the unit it points to. *)
Definition ring_at (B : CRcvBuffer) (p : Z) : option (option nat) :=
  if 0 <=? p then m_pUnit B !! Z.to_nat p else None.
Definition cell (B : CRcvBuffer) (p : Z) : option (option CUnit) :=
  c ← ring_at B p;
  match c with None => Some None | Some i => u ← m_units (m_pUnitQueue B) !! i; Some (Some u) end.
Definition good_cell (c : option CUnit) : bool := match c with Some u => unit_is GOOD u | None => false end.

Definition freeUnitAt (B : CRcvBuffer) (p : Z) : option (Z * CRcvBuffer) :=
  c ← ring_at B p; i ← c; u ← m_units (m_pUnitQueue B) !! i;
  Q ← makeUnitFree i (m_pUnitQueue B);
  Some (getLength (m_Packet u), set_ring (<[Z.to_nat p := None]> (m_pUnit B)) Q B).
Definition flag_at (f : Flag) (B : CRcvBuffer) (p : Z) : option CRcvBuffer :=
  c ← ring_at B p; i ← c; Q ← upd_unit i (set_flag f) (m_pUnitQueue B); Some (set_ring (m_pUnit B) Q B).

Definition countBytes (pkts byts : Z) (acked : bool) (c : byte_counts) : byte_counts :=
  if negb acked then
    mkBytes (m_iBytesCount c + byts) (m_iAckedPktsCount c) (m_iAckedBytesCount c)
      (if 0 <? byts then u32 (m_uAvgPayloadSz c * (100 - 1) + byts) / 100 else m_uAvgPayloadSz c)
  else
    mkBytes (if byts <? 0 then m_iBytesCount c + byts else m_iBytesCount c) (m_iAckedPktsCount c + pkts)
      (m_iAckedBytesCount c + byts) (m_uAvgPayloadSz c).
Definition count (pkts byts : Z) (acked : bool) (B : CRcvBuffer) : CRcvBuffer :=
  set_bytes (countBytes pkts byts acked (m_bytes B)) B.
Definition getPktTsbPdTime (B : CRcvBuffer) (stamp : Z) : Z * CRcvBuffer :=
  let r := play_time stamp (m_tsbpd B) in (r.1, set_tsbpd r.2 B).

(** ** Storing and acknowledging *)

(** 0, or -1: no room, or a packet is there. *)
Definition addData (B : CRcvBuffer) (unit : nat) (offset : Z) : option (Z * CRcvBuffer) :=
  if getAvailBufSize B <=? offset then Some (-1, B)
  else
    let pos := Z.rem (m_iLastAckPos B + offset) (rb_size B) in
    let B := if m_iMaxPos B <=? offset then set_ackpos (m_iLastAckPos B) (offset + 1) B else B in
    c ← ring_at B pos;
    match c with
    | Some _ => Some (-1, B)
    | None =>
        u ← m_units (m_pUnitQueue B) !! unit;
        Q ← makeUnitGood unit (m_pUnitQueue B);
        Some (0, count 1 (getLength (m_Packet u)) false (set_ring (<[Z.to_nat pos := Some unit]> (m_pUnit B)) Q B))
    end.

(** [for (i = from; i != end; i = shiftFwd(i))]: the units and the bytes. *)
Fixpoint count_units (fuel : nat) (B : CRcvBuffer) (i end_ pkts byts : Z) : option (Z * Z) :=
  match fuel with
  | O => None
  | S fuel' =>
      if i =? end_ then Some (pkts, byts)
      else
        c ← cell B i;
        match c with
        | None => count_units fuel' B (shiftFwd B i) end_ pkts byts
        | Some u => count_units fuel' B (shiftFwd B i) end_ (pkts + 1) (byts + getLength (m_Packet u))
        end
  end.
Definition fuel (B : CRcvBuffer) : nat := S (length (m_pUnit B)).
(** The distance from the first position. *)
Definition ackData (B : CRcvBuffer) (n : Z) : option (Z * CRcvBuffer) :=
  let end_ := shift B (m_iLastAckPos B) n in
  '(pkts, byts) ← count_units (fuel B) B (m_iLastAckPos B) end_ 0 0;
  let B := if 0 <? pkts then count pkts byts true B else B in
  let B := set_ackpos end_ (Z.max 0 (m_iMaxPos B - n)) B in
  let dist := end_ - m_iStartPos B in
  Some (if dist <? 0 then dist + rb_size B else dist, B).
Definition skipData (B : CRcvBuffer) (n : Z) : CRcvBuffer :=
  let B := if m_iStartPos B =? m_iLastAckPos B then set_start (Z.rem (m_iStartPos B + n) (rb_size B)) B else B in
  set_ackpos (Z.rem (m_iLastAckPos B + n) (rb_size B)) (Z.max 0 (m_iMaxPos B - n)) B.

Fixpoint drop_units (fuel : nat) (B : CRcvBuffer) (p past_q byts : Z) : option (Z * CRcvBuffer) :=
  match fuel with
  | O => None
  | S fuel' =>
      if p =? past_q then Some (byts, B)
      else
        c ← cell B p;
        if good_cell c then '(n, B) ← freeUnitAt B p; drop_units fuel' B (shiftFwd B p) past_q (byts + n)
        else drop_units fuel' B (shiftFwd B p) past_q byts
  end.
Definition dropData (B : CRcvBuffer) (n : Z) : option (Z * CRcvBuffer) :=
  let past_q := shift B (m_iStartPos B) n in
  '(byts, B) ← drop_units (fuel B) B (m_iStartPos B) past_q 0; Some (byts, set_start past_q B).

Fixpoint drop_msg_loop (fuel : nat) (B : CRcvBuffer) (i n msgno : Z) (using_rexmit_flag : bool) : option CRcvBuffer :=
  match fuel with
  | O => None
  | S fuel' =>
      if i =? n then Some B
      else
        c ← cell B i;
        B ← match c with
            | Some u => if getMsgSeq using_rexmit_flag (m_Packet u) =? msgno then flag_at DROPPED B i else Some B
            | None => Some B
            end;
        drop_msg_loop fuel' B (shiftFwd B i) n msgno using_rexmit_flag
  end.
Definition dropMsg (B : CRcvBuffer) (msgno : Z) (using_rexmit_flag : bool) : option CRcvBuffer :=
  drop_msg_loop (fuel B) B (m_iStartPos B) (shift B (m_iLastAckPos B) (m_iMaxPos B)) msgno using_rexmit_flag.

(** ** Reading the stream *)

(** The loop of [readBuffer]: the position, what is left of [len], the bytes copied;
    [ReadNull]: a null pointer, and -1 is returned at once. *)
Inductive read_end := ReadDone (p rs : Z) | ReadNull.
Fixpoint read_loop (fuel : nat) (B : CRcvBuffer) (now p lastack rs : Z) : option (bytes * read_end * CRcvBuffer) :=
  match fuel with
  | O => None
  | S fuel' =>
      if (p =? lastack) || (rs <=? 0) then Some ([], ReadDone p rs, B)
      else
        c ← cell B p;
        match c with
        | None => Some ([], ReadNull, B)
        | Some u =>
            let pkt := m_Packet u in
            let '(time, B) := if m_bTsbPdMode (m_tsbpd B) then getPktTsbPdTime B (getMsgTimeStamp pkt) else (now, B) in
            if now <? time then Some ([], ReadDone p rs, B)
            else
              let remain_pktlen := getLength pkt - m_iNotch B in
              let unitsize := Z.min remain_pktlen rs in
              let part := take (Z.to_nat unitsize) (drop (Z.to_nat (m_iNotch B)) (m_pcData pkt)) in
              if remain_pktlen <=? rs then
                '(_, B) ← freeUnitAt B p;
                '(data, e, B) ← read_loop fuel' (set_notch 0 B) now (shiftFwd B p) lastack (rs - unitsize);
                Some (part ++ data, e, B)
              else
                '(data, e, B) ← read_loop fuel' (set_notch (m_iNotch B + rs) B) now p lastack (rs - unitsize);
                Some (part ++ data, e, B)
        end
  end.
(** The result, the bytes written to the user's buffer, the state. *)
Definition readBuffer (B : CRcvBuffer) (now len : Z) : option (Z * bytes * CRcvBuffer) :=
  '(data, e, B) ← read_loop (fuel B) B now (m_iStartPos B) (m_iLastAckPos B) len;
  match e with
  | ReadNull => Some (-1, data, B)
  | ReadDone p rs => Some (len - rs, data, set_start p (count (-1) (- (len - rs)) true B))
  end.

(** To a file, for which [fails] says whether the write of [part] after [written] fails; the
    time to play does not matter, and null pointers are skipped. *)
Fixpoint file_loop (fails : bytes → bytes → bool) (fuel : nat) (B : CRcvBuffer) (written : bytes) (p lastack rs : Z)
    : option (bytes * Z * Z * CRcvBuffer) :=
  match fuel with
  | O => None
  | S fuel' =>
      if (p =? lastack) || (rs <=? 0) then Some (written, p, rs, B)
      else
        c ← cell B p;
        match c with
        | None => file_loop fails fuel' B written (shiftFwd B p) lastack rs
        | Some u =>
            let pkt := m_Packet u in
            let remain_pktlen := getLength pkt - m_iNotch B in
            let unitsize := Z.min remain_pktlen rs in
            let part := take (Z.to_nat unitsize) (drop (Z.to_nat (m_iNotch B)) (m_pcData pkt)) in
            if fails written part then Some (written, p, rs, B)
            else if remain_pktlen <=? rs then
              '(_, B) ← freeUnitAt B p;
              file_loop fails fuel' (set_notch 0 B) (written ++ part) (shiftFwd B p) lastack (rs - unitsize)
            else file_loop fails fuel' (set_notch (m_iNotch B + rs) B) (written ++ part) p lastack (rs - unitsize)
        end
  end.
Definition readBufferToFile (fails : bytes → bytes → bool) (B : CRcvBuffer) (len : Z) : option (Z * bytes * CRcvBuffer) :=
  '(data, p, rs, B) ← file_loop fails (fuel B) B [] (m_iStartPos B) (m_iLastAckPos B) len;
  Some (len - rs, data, set_start p (count (-1) (- (len - rs)) true B)).

(** ** Reading messages *)

(** [scanMsg], the look ahead from a first packet: whether no bad unit comes before
    the last packet of the message or the end of what is acknowledged. *)
Fixpoint good_ahead (fuel : nat) (B : CRcvBuffer) (i : Z) : option bool :=
  match fuel with
  | O => None
  | S fuel' =>
      if i =? m_iLastAckPos B then Some true
      else
        c ← cell B i;
        match c with
        | Some u =>
            if negb (unit_is GOOD u) then Some false
            else if is_last (getMsgBoundary (m_Packet u)) then Some true
            else good_ahead fuel' B (shiftFwd B i)
        | None => Some false
        end
  end.
(** The first loop: what cannot be read is removed from the beginning. *)
Fixpoint scan_clean (fuel : nat) (B : CRcvBuffer) (rmpkts rmbytes : Z) : option (Z * Z * CRcvBuffer) :=
  match fuel with
  | O => None
  | S fuel' =>
      if m_iStartPos B =? m_iLastAckPos B then Some (rmpkts, rmbytes, B)
      else
        c ← cell B (m_iStartPos B);
        match c with
        | None => scan_clean fuel' (set_start (shiftFwd B (m_iStartPos B)) B) rmpkts rmbytes
        | Some u =>
            good ← (if unit_is GOOD u && is_first (getMsgBoundary (m_Packet u))
                    then good_ahead (RcvBuf.fuel B) B (m_iStartPos B) else Some false);
            if good : bool then Some (rmpkts, rmbytes, B)
            else
              '(n, B) ← freeUnitAt B (m_iStartPos B);
              scan_clean fuel' (set_start (shiftFwd B (m_iStartPos B)) B) (rmpkts + 1) (rmbytes + n)
        end
  end.
(** The second loop: [n] positions from [q] on; whether a message was found, its
    first and its last position. *)
Definition head_of (c : option CUnit) (p q : Z) : Z :=
  match c with
  | Some u =>
      if unit_is GOOD u then (if is_first (getMsgBoundary (m_Packet u)) then q else p) else -1
  | None => -1
  end.
Definition ends_message (c : option CUnit) (p : Z) : bool :=
  match c with
  | Some u =>
      unit_is GOOD u && (match getMsgBoundary (m_Packet u) with
        | PB_SOLO => true | PB_LAST => negb (p =? -1) | _ => false end)
  | None => false
  end.
Fixpoint scan_find (n : nat) (B : CRcvBuffer) (p q : Z) (passack : bool) : option (bool * Z * Z * bool) :=
  match n with
  | O => Some (false, p, q, passack)
  | S n' =>
      c ← cell B q;
      let p' := head_of c p q in
      if ends_message c p && (negb passack || match c with Some u => negb (getMsgOrderFlag (m_Packet u)) | None => false end)
      then Some (true, p', q, passack)
      else
        let q := shiftFwd B q in
        scan_find n' B p' q (passack || (q =? m_iLastAckPos B))
  end.
Definition scanMsg (B : CRcvBuffer) : option (bool * Z * Z * bool * CRcvBuffer) :=
  if (m_iStartPos B =? m_iLastAckPos B) && (m_iMaxPos B <=? 0) then Some (false, -1, -1, false, B)
  else
    '(rmpkts, rmbytes, B) ← scan_clean (fuel B) B 0 0;
    let B := count (- rmpkts) (- rmbytes) true B in
    '(found, p, q, passack) ←
      scan_find (Z.to_nat (m_iMaxPos B + getRcvDataSize B)) B (-1) (m_iStartPos B) (m_iStartPos B =? m_iLastAckPos B);
    Some (found || (negb (p =? -1) && (shiftFwd B q =? p)), p, q, passack, B).

(** [getRcvReadyMsg]: whether a packet can be read now, its time (0: none) and its
    number, which is unchanged when there is none.  [limit]: the position to read up
    to and the one after it. *)
Fixpoint ready_loop (fuel : nat) (B : CRcvBuffer) (i now : Z) (limit : option (Z * Z)) (base_seq tsbpdtime curseq : Z)
    : option (bool * Z * Z * CRcvBuffer) :=
  match fuel with
  | O => None
  | S fuel' =>
      if i =? m_iLastAckPos B then Some (false, tsbpdtime, curseq, B)
      else if match limit with Some (_, past_end) => i =? past_end | None => false end
      then Some (false, tsbpdtime, curseq, B)
      else
        c ← cell B i;
        match c with
        | None => ready_loop fuel' (set_start (shiftFwd B (m_iStartPos B)) B) (shiftFwd B i) now limit base_seq tsbpdtime curseq
        | Some u =>
            let pkt := m_Packet u in
            let curseq := m_iSeqNo pkt in
            let free B tsbpdtime :=
              let B := count (-1) (- getLength pkt) true B in
              '(_, B) ← freeUnitAt B i;
              ready_loop fuel' (set_start (shiftFwd B (m_iStartPos B)) B) (shiftFwd B i) now limit base_seq tsbpdtime curseq in
            if negb (unit_is GOOD u) then free B tsbpdtime
            else
              match limit with
              | None =>
                  let '(time, B) := getPktTsbPdTime B (getMsgTimeStamp pkt) in
                  if 0 <? time - now then Some (false, time, curseq, B)
                  else if negb (getMsgCryptoFlags pkt =? EK_NOENC) then free B time
                  else if negb (base_seq =? SRT_SEQNO_NONE) && (seqcmp curseq base_seq <=? 0) then free B 0
                  else Some (true, time, curseq, B)
              | Some (end_, _) =>
                  if i =? end_ then
                    let '(time, B) := getPktTsbPdTime B (getMsgTimeStamp pkt) in
                    if negb (getMsgCryptoFlags pkt =? EK_NOENC) then free B time
                    else Some (true, time, curseq, B)
                  else free B tsbpdtime
              end
        end
  end.
Definition getRcvReadyMsg (B : CRcvBuffer) (now upto base_seq tsbpdtime curseq : Z) : option (bool * Z * Z * CRcvBuffer) :=
  let run limit := ready_loop (fuel B) B (m_iStartPos B) now limit base_seq tsbpdtime curseq in
  if upto =? -1 then run None
  else
    let stretch := Z.rem (rb_size B + m_iStartPos B - m_iLastAckPos B) (rb_size B) in
    if stretch <? upto then Some (false, tsbpdtime, curseq, B)
    else
      let end_ := m_iLastAckPos B - upto in
      let end_ := if end_ <? 0 then end_ + rb_size B else end_ in
      run (Some (end_, shiftFwd B end_)).

(** [accessMsg]: whether there is nothing, the range, whether it stays, the time. *)
Definition accessMsg (B : CRcvBuffer) (now upto : Z) : option (bool * Z * Z * bool * Z * CRcvBuffer) :=
  if m_bTsbPdMode (m_tsbpd B) then
    '(ready, time, _, B) ← getRcvReadyMsg B now upto SRT_SEQNO_NONE 0 0;
    Some (negb ready, m_iStartPos B, m_iStartPos B, false, time, B)
  else
    '(found, p, q, passack, B) ← scanMsg B;
    Some (negb found, p, q, passack, 0, B).

Fixpoint extract_loop (fuel : nat) (B : CRcvBuffer) (p past_q rs : Z) (passack : bool) : option (bytes * Z * CRcvBuffer) :=
  match fuel with
  | O => None
  | S fuel' =>
      if p =? past_q then Some ([], rs, B)
      else
        c ← cell B p;
        u ← c;
        let pktlen := getLength (m_Packet u) in
        let B := if 0 <? pktlen then count (-1) (- pktlen) true B else B in
        let unitsize := if (0 <=? rs) && (rs <? pktlen) then rs else pktlen in
        B ← (if negb passack then '(_, B) ← freeUnitAt B p; Some B else flag_at PASSACK B p);
        '(data, rs, B) ← extract_loop fuel' B (shiftFwd B p) past_q (rs - unitsize) passack;
        Some (take (Z.to_nat unitsize) (m_pcData (m_Packet u)) ++ data, rs, B)
  end.
Definition extractData (B : CRcvBuffer) (len p q : Z) (passack : bool) : option (Z * bytes * CRcvBuffer) :=
  let len0 := if 0 <? len then len else 0 in
  let past_q := shiftFwd B q in
  '(data, rs, B) ← extract_loop (fuel B) B p past_q len0 passack;
  Some (len - rs, data, if passack then B else set_start past_q B).

(** The result, the data, what goes into the message control: the time, and the
    number and the message number when there is a message. *)
Definition readMsg (B : CRcvBuffer) (now len upto : Z) : option (Z * bytes * Z * option (Z * Z) * CRcvBuffer) :=
  '(nothing, p, q, passack, srctime, B) ← accessMsg B now upto;
  if nothing : bool then Some (0, [], srctime, None, B)
  else
    c ← cell B p; u ← c;
    '(n, data, B) ← extractData B len p q passack;
    Some (n, data, srctime, Some (m_iSeqNo (m_Packet u), getMsgSeq true (m_Packet u)), B).

(** ** Questions *)

Definition getTopMsgno (B : CRcvBuffer) : option Z :=
  if m_iStartPos B =? m_iLastAckPos B then Some SRT_MSGNO_NONE
  else
    c ← cell B (m_iStartPos B);
    Some (match c with Some u => getMsgSeq true (m_Packet u) | None => SRT_MSGNO_NONE end).

Fixpoint ready_packet_loop (fuel : nat) (B : CRcvBuffer) (i : Z) : option (option CPacket) :=
  match fuel with
  | O => None
  | S fuel' =>
      if i =? m_iLastAckPos B then Some None
      else
        c ← cell B i;
        match c with
        | Some u => if unit_is GOOD u then Some (Some (m_Packet u)) else ready_packet_loop fuel' B (shiftFwd B i)
        | None => ready_packet_loop fuel' B (shiftFwd B i)
        end
  end.
Definition getRcvReadyPacket (B : CRcvBuffer) (seqdistance : Z) : option (option CPacket) :=
  if negb (seqdistance =? -1) then
    if seqdistance =? 0 then Some None
    else if getRcvDataSize B <? seqdistance then Some None
    else
      c ← cell B (shift B (m_iLastAckPos B) (- seqdistance));
      Some (match c with Some u => if unit_is GOOD u then Some (m_Packet u) else None | None => None end)
  else ready_packet_loop (fuel B) B (m_iStartPos B).
(** Whether, the time, the number. *)
Definition isRcvDataReady (B : CRcvBuffer) (now seqdistance curseq : Z) : option (bool * Z * Z * CRcvBuffer) :=
  if m_bTsbPdMode (m_tsbpd B) then
    p ← getRcvReadyPacket B seqdistance;
    match p with
    | None => Some (false, 0, curseq, B)
    | Some pkt =>
        let '(time, B) := getPktTsbPdTime B (getMsgTimeStamp pkt) in
        Some (negb (seqdistance =? -1) || (time <=? now), time, m_iSeqNo pkt, B)
    end
  else Some (isRcvDataAvailable B, 0, curseq, B).

(** [getRcvFirstMsg], the loop over what is not acknowledged: whether, the time, the
    number to skip to, the number. *)
Fixpoint first_loop (fuel : nat) (B : CRcvBuffer) (i n now base_seq : Z) (haslost : bool) (last_ready tsbpdtime skipseqno curseq : Z)
    : option (bool * Z * Z * Z * CRcvBuffer) :=
  match fuel with
  | O => None
  | S fuel' =>
      if i =? n then Some (negb (tsbpdtime =? 0), tsbpdtime, skipseqno, curseq, B)
      else
        c ← cell B i;
        if negb (good_cell c) then first_loop fuel' B (shiftFwd B i) n now base_seq true last_ready tsbpdtime skipseqno curseq
        else
          u ← c;
          let pkt := m_Packet u in
          let '(time, B) := getPktTsbPdTime B (getMsgTimeStamp pkt) in
          if time <=? now then
            B ← (if negb (tsbpdtime =? 0) then '(_, B) ← freeUnitAt B last_ready; Some B else Some B);
            let curseq := m_iSeqNo pkt in
            let skipseqno := if haslost then curseq else skipseqno in
            if negb (base_seq =? SRT_SEQNO_NONE) && (seqcmp curseq base_seq <=? 0)
            then first_loop fuel' B (shiftFwd B i) n now base_seq haslost i time skipseqno curseq
            else Some (true, time, skipseqno, curseq, B)
          else Some (negb (tsbpdtime =? 0), tsbpdtime, skipseqno, curseq, B)
  end.
(** Whether, the time, [passack], the number to skip to, the number. *)
Definition getRcvFirstMsg (B : CRcvBuffer) (now base_seq tsbpdtime curseq : Z) : option (bool * Z * bool * Z * Z * CRcvBuffer) :=
  '(ready, time, curseq, B) ← getRcvReadyMsg B now (-1) base_seq tsbpdtime curseq;
  if ready : bool then Some (true, time, false, SRT_SEQNO_NONE, curseq, B)
  else if negb (time =? 0) then Some (false, time, false, SRT_SEQNO_NONE, curseq, B)
  else
    '(ready, time, skipseqno, curseq, B) ←
      first_loop (fuel B) B (m_iLastAckPos B) (shift B (m_iLastAckPos B) (m_iMaxPos B)) now base_seq false (-1) 0 SRT_SEQNO_NONE curseq;
    Some (ready, time, true, skipseqno, curseq, B).

(** [getRcvDataSize(bytes, timespan)]: the packets, the bytes and the time, in
    milliseconds, of what is acknowledged.  A [time_point] is in microseconds. *)
Fixpoint first_good (fuel : nat) (B : CRcvBuffer) (p : Z) : option Z :=
  match fuel with
  | O => None
  | S fuel' =>
      if p =? m_iLastAckPos B then Some p
      else c ← cell B p; if good_cell c then Some p else first_good fuel' B (shiftFwd B p)
  end.
Definition data_span (B : CRcvBuffer) : option (Z * Z * Z * CRcvBuffer) :=
  let result timespan B := Some (m_iAckedPktsCount (m_bytes B), m_iAckedBytesCount (m_bytes B), timespan, B) in
  if negb (m_bTsbPdMode (m_tsbpd B)) then result 0 B
  else
    startpos ← first_good (fuel B) B (m_iStartPos B);
    if m_iLastAckPos B =? startpos then result 0 B
    else
      at_ack ← (if m_iMaxPos B <=? 0 then Some None else cell B (m_iLastAckPos B));
      let endpos :=
        if good_cell at_ack then m_iLastAckPos B
        else if m_iLastAckPos B =? 0 then rb_size B - 1 else m_iLastAckPos B - 1 in
      e ← cell B endpos; s ← cell B startpos;
      let '(timespan, B) :=
        match e, s with
        | Some e, Some s =>
            let '(startstamp, B) := getPktTsbPdTime B (getMsgTimeStamp (m_Packet s)) in
            let '(endstamp, B) := getPktTsbPdTime B (getMsgTimeStamp (m_Packet e)) in
            (if startstamp <? endstamp then (endstamp - startstamp) / 1000 else 0, B)
        | _, _ => (0, B)
        end in
      result (if 0 <? m_iAckedPktsCount (m_bytes B) then timespan + 1 else timespan) B.

Definition rb_full (B : CRcvBuffer) : bool := m_iStartPos B =? Z.rem (m_iLastAckPos B + 1) (rb_size B).
Definition setRcvTsbPdMode (timebase delay : Z) (B : CRcvBuffer) : CRcvBuffer :=
  set_tsbpd (setTsbPdMode timebase false delay (m_tsbpd B)) B.
Definition addRcvTsbPdDriftSample (timestamp rtt now : Z) (B : CRcvBuffer) : bool * CRcvBuffer :=
  let r := addDriftSample timestamp rtt now (m_tsbpd B) in (r.1, set_tsbpd r.2 B).
