(* ===== verification/RcvBufFacts.v ===== *)
(** * Lemmas on the buffer of the receiver

    The ring holds a list of cells from its first position on ([rb_cells]); the first
    of them are acknowledged ([rb_holds]).  The units in it are not free and each is
    there once, so what the queue of units hands out is in no cell. *)
From S2P Require Import Prelude SeqNo LossRing RcvLossFacts SndLoss LossSend SndBuf SndBufFacts SndPath TsbPd RcvBuf.

(** ** Positions *)

(** The position [i] cells after the first one. *)
Definition at_ (B : CRcvBuffer) (i : nat) : Z := (m_iStartPos B + Z.of_nat i) mod rb_size B.
Definition in_ring (B : CRcvBuffer) : Prop := 0 <= m_iStartPos B < rb_size B.
Lemma at_wrap B i :
  in_ring B → Z.of_nat i < rb_size B →
  at_ B i = (if m_iStartPos B + Z.of_nat i <? rb_size B then m_iStartPos B + Z.of_nat i else m_iStartPos B + Z.of_nat i - rb_size B).
Proof.
  intros H Hi. unfold at_, in_ring in *. destruct (Z.ltb_spec (m_iStartPos B + Z.of_nat i) (rb_size B)).
  - apply Z.mod_small. lia.
  - symmetry. apply Z.mod_unique with 1; lia.
Qed.
Lemma at_0 B : in_ring B → at_ B 0 = m_iStartPos B.
Proof. intros H. unfold at_, in_ring in *. rewrite Z.add_0_r. by apply Z.mod_small. Qed.
Lemma at_bounds B i : in_ring B → 0 <= at_ B i < rb_size B.
Proof. intros H. unfold in_ring in H. apply Z.mod_pos_bound. lia. Qed.
Lemma at_succ B i : in_ring B → shiftFwd B (at_ B i) = at_ B (S i).
Proof.
  intros H. pose proof (at_bounds B i H) as Hb. unfold shiftFwd, at_ in *. unfold in_ring in H. set (n := rb_size B) in *.
  set (x := m_iStartPos B + Z.of_nat i) in *. replace (m_iStartPos B + Z.of_nat (S i)) with (x + 1) by lia.
  pose proof (Z.div_mod x n ltac:(lia)). destruct (Z.eqb_spec (x mod n + 1) n).
  - apply Z.mod_unique with (x / n + 1); lia.
  - apply Z.mod_unique with (x / n); lia.
Qed.
Lemma at_next B B' i : in_ring B → rb_size B' = rb_size B → shiftFwd B' (at_ B i) = at_ B (S i).
Proof. intros H E. rewrite <- (at_succ B i H). unfold shiftFwd. by rewrite E. Qed.
Lemma at_inj B i j : in_ring B → Z.of_nat i < rb_size B → Z.of_nat j < rb_size B → at_ B i = at_ B j → i = j.
Proof. intros H Hi Hj. rewrite !at_wrap by done. unfold in_ring in H. repeat case_match; lia. Qed.
Lemma at_neq B i j : in_ring B → Z.of_nat i < rb_size B → Z.of_nat j < rb_size B → i ≠ j → (at_ B i =? at_ B j) = false.
Proof. intros H Hi Hj Hn. apply Z.eqb_neq. intros E. by apply Hn, (at_inj B). Qed.
(** Every position is one of them. *)
Lemma at_surj B p : in_ring B → 0 <= p < rb_size B → ∃ i, Z.of_nat i < rb_size B ∧ at_ B i = p.
Proof.
  intros H Hp. unfold in_ring in H. destruct (Z.ltb_spec p (m_iStartPos B)).
  - exists (Z.to_nat (p + rb_size B - m_iStartPos B)). split; [lia|]. rewrite at_wrap by (done || lia). case_match; lia.
  - exists (Z.to_nat (p - m_iStartPos B)). split; [lia|]. rewrite at_wrap by (done || lia). case_match; lia.
Qed.
Lemma at_shift B i n : in_ring B → 0 <= n → shift B (at_ B i) n = at_ B (i + Z.to_nat n).
Proof.
  intros H Hn. pose proof (at_bounds B i H). unfold shift, in_ring in *. rewrite Z.rem_mod_nonneg by lia. unfold at_.
  rewrite Zplus_mod_idemp_l. f_equal. lia.
Qed.

Lemma play_mode stamp T : m_bTsbPdMode (play_time stamp T).2 = m_bTsbPdMode T.
Proof. unfold play_time, updateTsbPdTimeBase. cbn [snd]. by repeat case_match. Qed.

(** ** Cells *)

Record rb_cells (B : CRcvBuffer) (w : list (option CUnit)) : Prop := {
  rb_in : in_ring B;
  rb_room : Z.of_nat (length w) < rb_size B;
  rb_cell : ∀ i, Z.of_nat i < rb_size B → cell B (at_ B i) = Some (mjoin (w !! i));
  rb_own : ∀ i j u, m_pUnit B !! i = Some (Some u) → m_pUnit B !! j = Some (Some u) → i = j;
  rb_kept : ∀ i u, w !! i = Some (Some u) → m_iFlag u ≠ FREE }.
(** [w1] is acknowledged, [w2] is not. *)
Record rb_holds (B : CRcvBuffer) (w1 w2 : list (option CUnit)) : Prop := {
  rb_all : rb_cells B (w1 ++ w2);
  rb_ack : m_iLastAckPos B = at_ B (length w1);
  rb_max : m_iMaxPos B = Z.of_nat (length w2) }.

(** The rest of the state; the queue keeps its units. *)
Definition uq_shape (Q : CUnitQueue) : nat * nat * nat * nat := (length (m_units Q), m_iEntrySize Q, m_pCurrQueue Q, m_pAvailUnit Q).
Definition same_rest (B B' : CRcvBuffer) : Prop :=
  rb_size B' = rb_size B ∧ m_iStartPos B' = m_iStartPos B ∧ m_iLastAckPos B' = m_iLastAckPos B ∧
  m_iMaxPos B' = m_iMaxPos B ∧ m_iNotch B' = m_iNotch B ∧ m_tsbpd B' = m_tsbpd B ∧
  uq_shape (m_pUnitQueue B') = uq_shape (m_pUnitQueue B).
Lemma same_rest_refl B : same_rest B B.
Proof. done. Qed.
Lemma same_rest_trans B1 B2 B3 : same_rest B1 B2 → same_rest B2 B3 → same_rest B1 B3.
Proof. intros (?&?&?&?&?&?&?) (?&?&?&?&?&?&?). split_and!; congruence. Qed.
Lemma at_same B B' i : rb_size B' = rb_size B → m_iStartPos B' = m_iStartPos B → at_ B' i = at_ B i.
Proof. unfold at_. by intros -> ->. Qed.

Lemma cell_ring B p c :
  cell B p = Some c → ∃ r, ring_at B p = Some r ∧
    match r, c with None, None => True | Some i, Some u => m_units (m_pUnitQueue B) !! i = Some u | _, _ => False end.
Proof.
  unfold cell. destruct (ring_at B p) as [[i|]|]; cbn [mbind option_bind]; [|intros [= <-]; by exists None|done].
  destruct (m_units _ !! i) as [u|] eqn:E; [|done]. intros [= <-]. by exists (Some i).
Qed.

(** Fields that the cells do not depend on. *)
Lemma rb_cells_ext B B' w :
  m_pUnit B' = m_pUnit B → m_pUnitQueue B' = m_pUnitQueue B → m_iStartPos B' = m_iStartPos B → rb_cells B w → rb_cells B' w.
Proof.
  intros E1 E2 E3 [H1 H2 H3 H4 H5].
  assert (rb_size B' = rb_size B) as Es by (unfold rb_size; by rewrite E1).
  split; [unfold in_ring in *; by rewrite Es, E3|by rewrite Es| |by rewrite E1|done].
  intros i Hi. rewrite (at_same B) by done. rewrite <- H3 by (by rewrite <- Es). unfold cell, ring_at. by rewrite E1, E2.
Qed.
(** The queue of units may change where it is free. *)
Definition keeps_units (Q Q' : CUnitQueue) : Prop :=
  ∀ i u, m_units Q !! i = Some u → m_iFlag u ≠ FREE → m_units Q' !! i = Some u.
Lemma rb_cells_keeps B Q w : rb_cells B w → keeps_units (m_pUnitQueue B) Q → rb_cells (set_ring (m_pUnit B) Q B) w.
Proof.
  intros [H1 H2 H3 H4 H5] HK. split; [done|done| |done|done].
  intros i Hi. change (at_ (set_ring (m_pUnit B) Q B) i) with (at_ B i). specialize (H3 i Hi).
  pose proof H3 as (r & Er & Hr)%cell_ring. unfold cell. change (ring_at (set_ring _ Q B)) with (ring_at B). rewrite Er.
  cbn [mbind option_bind set_ring m_pUnitQueue]. destruct r as [a|]; [|by destruct (mjoin _)].
  destruct (w !! i) as [[u|]|] eqn:Ew; cbn in Hr; try done. by rewrite (HK a u Hr (H5 _ _ Ew)).
Qed.
Lemma rb_cells_None B w k : rb_cells B w → Z.of_nat (length w + k) < rb_size B → rb_cells B (w ++ replicate k None).
Proof.
  intros [H1 H2 H3 H4 H5] Hk. split; [done|len| |done|].
  - intros i Hi. rewrite H3 by done. destruct (decide (i < length w)%nat); [by rewrite lookup_app_l|].
    rewrite (lookup_ge_None_2 w), lookup_app_r by lia. by destruct (replicate k None !! (i - length w)%nat) as [c|] eqn:E;
      [apply lookup_replicate in E as [-> _]|].
  - intros i u [Hu|[_ Hu]]%lookup_app_Some; [by eapply H5|]. by apply lookup_replicate in Hu as [? _].
Qed.
Lemma rb_cells_trim B w k : rb_cells B (w ++ replicate k None) → rb_cells B w.
Proof.
  intros [H1 H2 H3 H4 H5]. split; [done|len| |done|].
  - intros i Hi. rewrite H3 by done. destruct (decide (i < length w)%nat); [by rewrite lookup_app_l|].
    rewrite (lookup_ge_None_2 w), lookup_app_r by lia. by destruct (replicate k None !! (i - length w)%nat) as [c|] eqn:E;
      [apply lookup_replicate in E as [-> _]|].
  - intros i u Hu. apply (H5 i). by apply lookup_app_l_Some.
Qed.

(** The first cell leaves when it is empty. *)
Lemma rb_cells_next B w : rb_cells B (None :: w) → rb_cells (set_start (shiftFwd B (m_iStartPos B)) B) w.
Proof.
  intros [H1 H2 H3 H4 H5]. cbn [length] in H2.
  assert (shiftFwd B (m_iStartPos B) = at_ B 1) as E by (rewrite <- (at_0 B) at 1 by done; by apply at_succ).
  assert (in_ring (set_start (at_ B 1) B)) as Hin by (apply (at_bounds B 1 H1)).
  rewrite E. split; [done|change (rb_size (set_start (at_ B 1) B)) with (rb_size B); lia| |done|].
  - change (rb_size (set_start (at_ B 1) B)) with (rb_size B). intros i Hi.
    assert (at_ (set_start (at_ B 1) B) i = at_ B (S i)) as Ei.
    { unfold at_. change (rb_size (set_start _ B)) with (rb_size B). cbn [m_iStartPos set_start].
      rewrite Zplus_mod_idemp_l. f_equal. lia. }
    rewrite Ei. change (cell (set_start (at_ B 1) B)) with (cell B). destruct (decide (Z.of_nat (S i) < rb_size B)) as [Hs|Hs].
    + by rewrite (H3 (S i) Hs).
    + rewrite (lookup_ge_None_2 w) by lia. replace (at_ B (S i)) with (at_ B 0); [by rewrite (H3 0%nat) by lia|].
      unfold at_. replace (Z.of_nat (S i)) with (0 + 1 * rb_size B) by lia. by rewrite Z.add_assoc, Z.mod_add by lia.
  - intros i u Hu. by apply (H5 (S i)).
Qed.
Lemma rb_cells_skip j B w : rb_cells B (replicate j None ++ w) → rb_cells (set_start (at_ B j) B) w.
Proof.
  revert B. induction j as [|j IH]; intros B H; cbn [replicate app] in H.
  - destruct (H) as [Hin _ _ _ _]. rewrite at_0 by done. by apply (rb_cells_ext B).
  - destruct (H) as [Hin _ _ _ _]. apply rb_cells_next, IH in H. eapply rb_cells_ext; [| | |exact H]; [done|done|].
    cbn [m_iStartPos set_start]. unfold at_. change (rb_size (set_start _ B)) with (rb_size B). cbn [m_iStartPos set_start].
    rewrite <- (at_0 B) at 2 by done. rewrite at_succ by done. unfold at_. rewrite Zplus_mod_idemp_l. f_equal. lia.
Qed.

(** ** Writing a cell *)

Lemma ring_at_lookup B i : in_ring B → ring_at B (at_ B i) = m_pUnit B !! Z.to_nat (at_ B i).
Proof. intros H. pose proof (at_bounds B i H). unfold ring_at. rewrite (proj2 (Z.leb_le 0 (at_ B i))) by lia. done. Qed.
Lemma ring_pos_ne B i j :
  in_ring B → Z.of_nat i < rb_size B → Z.of_nat j < rb_size B → i ≠ j → Z.to_nat (at_ B i) ≠ Z.to_nat (at_ B j).
Proof. intros H Hi Hj Hn E. pose proof (at_bounds B i H). pose proof (at_bounds B j H). apply Hn, (at_inj B); [done..|lia]. Qed.

Lemma rb_cells_write B w i r Q c :
  rb_cells B w → (i < length w)%nat →
  match r with
  | None => c = None
  | Some a => ∃ u, c = Some u ∧ m_units Q !! a = Some u ∧ m_iFlag u ≠ FREE ∧
                   ∀ j, m_pUnit B !! j = Some (Some a) → j = Z.to_nat (at_ B i)
  end →
  (∀ j a u, j ≠ Z.to_nat (at_ B i) → m_pUnit B !! j = Some (Some a) →
     m_units (m_pUnitQueue B) !! a = Some u → m_units Q !! a = Some u) →
  rb_cells (set_ring (<[Z.to_nat (at_ B i) := r]> (m_pUnit B)) Q B) (<[i := c]> w).
Proof.
  intros [H1 H2 H3 H4 H5] Hi Hr HQ. set (B' := set_ring _ Q B).
  assert (rb_size B' = rb_size B) as Es by (unfold rb_size, B'; cbn; by rewrite length_insert).
  assert (∀ j, at_ B' j = at_ B j) as Ea by (intros j; by apply at_same).
  assert (in_ring B') as Hin by (unfold in_ring; by rewrite Es).
  assert (Z.to_nat (at_ B i) < length (m_pUnit B))%nat as Hp.
  { pose proof (at_bounds B i H1) as Hb. unfold rb_size in Hb. lia. }
  split; [done|rewrite Es; len| | |].
  - rewrite Es. intros j Hj. unfold cell. rewrite ring_at_lookup, !Ea by done. cbn [B' set_ring m_pUnit m_pUnitQueue].
    destruct (decide (j = i)) as [->|Hn].
    + rewrite !list_lookup_insert_eq by done. cbn [mbind option_bind].
      destruct r as [a|]; [|by rewrite Hr]. destruct Hr as (u & -> & -> & _). done.
    + rewrite !list_lookup_insert_ne by (done || (apply ring_pos_ne; [done|lia..|done])).
      specialize (H3 j Hj). pose proof H3 as (q & Eq & Hq)%cell_ring. rewrite ring_at_lookup in Eq by done. rewrite Eq. cbn [mbind option_bind].
      destruct q as [a|]; [|by destruct (mjoin _)]. destruct (mjoin (w !! j)) as [u|]; [|done].
      by rewrite (HQ (Z.to_nat (at_ B j)) a u (ring_pos_ne B j i H1 Hj ltac:(lia) Hn) Eq Hq).
  - intros j k a. cbn [B' set_ring m_pUnit]. rewrite !list_lookup_insert_Some.
    intros [(<- & -> & _)|[Hn Hj]] [(E & E' & _)|[Hn' Hk]]; [done| | |by eapply H4].
    + destruct Hr as (u & _ & _ & _ & Hr). by rewrite (Hr k Hk).
    + subst r. destruct Hr as (u & _ & _ & _ & Hr). rewrite <- E. by apply Hr.
  - intros j u [(<- & Hc & _)|[_ Hj]]%list_lookup_insert_Some; [|by eapply H5].
    destruct r as [a|]; [|congruence]. destruct Hr as (u' & -> & _ & Hf & _). by injection Hc as <-.
Qed.

(** What the units that are not touched keep. *)
Lemma upd_unit_run i f Q u :
  m_units Q !! i = Some u → upd_unit i f Q = Some (set_units (<[i := f u]> (m_units Q)) (m_iUnitCount Q) Q).
Proof. intros E. unfold upd_unit. by rewrite E. Qed.
Lemma cell_unit B w i u :
  rb_cells B w → w !! i = Some (Some u) →
  ∃ a, ring_at B (at_ B i) = Some (Some a) ∧ m_units (m_pUnitQueue B) !! a = Some u ∧
    ∀ j, m_pUnit B !! j = Some (Some a) → j = Z.to_nat (at_ B i).
Proof.
  intros [H1 H2 H3 H4 H5] Hi. assert (Z.of_nat i < rb_size B) as Hlt by (apply lookup_lt_Some in Hi; lia).
  specialize (H3 i Hlt). rewrite Hi in H3. apply cell_ring in H3 as ([a|] & Er & Hr); [|done].
  exists a. split; [done|]. split; [done|]. intros j Hj. rewrite ring_at_lookup in Er by done. by eapply H4.
Qed.
Lemma freeUnitAt_run B w i u :
  rb_cells B w → w !! i = Some (Some u) →
  ∃ B', freeUnitAt B (at_ B i) = Some (getLength (m_Packet u), B') ∧ rb_cells B' (<[i := None]> w) ∧ same_rest B B' ∧
    m_bytes B' = m_bytes B.
Proof.
  intros H Hi. destruct (cell_unit B w i u H Hi) as (a & Er & Ea & Ho). unfold freeUnitAt. rewrite Er. cbn [mbind option_bind].
  rewrite Ea. cbn [mbind option_bind]. unfold makeUnitFree. rewrite (upd_unit_run _ _ _ u Ea). cbn [mbind option_bind].
  eexists. split; [done|]. split.
  - apply rb_cells_write; [done|by eapply lookup_lt_Some|done|]. intros j b v Hj Hb Hv. cbn.
    rewrite list_lookup_insert_ne; [done|]. intros ->. by apply Hj, Ho.
  - split; [|done]. split_and!; try done; [unfold rb_size; cbn; by rewrite length_insert|].
    unfold uq_shape. cbn. by rewrite length_insert.
Qed.
(** A change of the unit in a cell. *)
Lemma upd_cell_run f B w i u a :
  rb_cells B w → w !! i = Some (Some u) → ring_at B (at_ B i) = Some (Some a) → m_iFlag (f u) ≠ FREE →
  ∃ Q, upd_unit a f (m_pUnitQueue B) = Some Q ∧ rb_cells (set_ring (m_pUnit B) Q B) (<[i := Some (f u)]> w) ∧
    uq_shape Q = uq_shape (m_pUnitQueue B).
Proof.
  intros H Hi Er Hf. destruct (cell_unit B w i u H Hi) as (b & Er' & Ea & Ho). rewrite Er in Er'. injection Er' as <-.
  rewrite (upd_unit_run _ _ _ u Ea). eexists. split; [done|].
  split; [|unfold uq_shape; cbn; by rewrite length_insert]. set (Q := set_units _ _ _). pose proof (rb_in _ _ H) as Hin. rewrite (ring_at_lookup B i Hin) in Er.
  rewrite <- (list_insert_id (m_pUnit B) (Z.to_nat (at_ B i)) (Some a)) by done.
  apply rb_cells_write; [done|by eapply lookup_lt_Some| |].
  - exists (f u). split; [done|]. split; [|split; [done|exact Ho]]. cbn. apply list_lookup_insert_eq. by eapply lookup_lt_Some.
  - intros j b v Hj Hb Hv. cbn. rewrite list_lookup_insert_ne; [done|]. intros ->. by apply Hj, Ho.
Qed.
Lemma flag_at_run f B w i u :
  rb_cells B w → w !! i = Some (Some u) → f ≠ FREE →
  ∃ B', flag_at f B (at_ B i) = Some B' ∧ rb_cells B' (<[i := Some (set_flag f u)]> w) ∧ same_rest B B' ∧ m_bytes B' = m_bytes B.
Proof.
  intros H Hi Hf. destruct (cell_unit B w i u H Hi) as (a & Er & _). unfold flag_at. rewrite Er. cbn [mbind option_bind].
  destruct (upd_cell_run (set_flag f) B w i u a H Hi Er Hf) as (Q & -> & HC & HS). by eexists.
Qed.
Lemma cell_run B w i : rb_cells B w → Z.of_nat i < rb_size B → cell B (at_ B i) = Some (mjoin (w !! i)).
Proof. intros H Hi. by apply H. Qed.

(** ** Sizes *)

Lemma getRcvDataSize_run B w1 w2 : rb_holds B w1 w2 → getRcvDataSize B = Z.of_nat (length w1).
Proof.
  intros [H Ha _]. destruct H as [Hin Hr _ _ _]. rewrite length_app in Hr. unfold getRcvDataSize. rewrite Ha, at_wrap by (done || lia).
  unfold in_ring in Hin. repeat case_match; lia.
Qed.
Lemma getAvailBufSize_run B w1 w2 : rb_holds B w1 w2 → getAvailBufSize B = rb_size B - Z.of_nat (length w1) - 1.
Proof. intros H. unfold getAvailBufSize. by rewrite (getRcvDataSize_run _ _ _ H). Qed.

(** ** The queue of units *)

Record uq_ok (Q : CUnitQueue) : Prop := {
  uq_entry : (0 < m_iEntrySize Q)%nat;
  uq_whole : ∃ n, length (m_units Q) = (n * m_iEntrySize Q)%nat;
  uq_curr : (m_pCurrQueue Q * m_iEntrySize Q <= m_pAvailUnit Q < S (m_pCurrQueue Q) * m_iEntrySize Q)%nat;
  uq_last : (S (m_pCurrQueue Q) * m_iEntrySize Q <= length (m_units Q))%nat }.
Lemma uq_ok_shape Q Q' : uq_shape Q' = uq_shape Q → uq_ok Q → uq_ok Q'.
Proof. intros [= E1 E2 E3 E4] [H1 H2 H3 H4]. split; by rewrite ?E1, ?E2, ?E3, ?E4. Qed.
Lemma uq_increase_ok p Q : uq_ok Q → uq_ok (uq_increase p Q).2 ∧ keeps_units Q (uq_increase p Q).2.
Proof.
  intros [H1 (n & H2) H3 H4]. unfold uq_increase. case_match; cbn [snd]; [split; [|by intros ???]; split; [done|exists n; exact H2|done|done]|].
  split; [split; [done| |done|]; cbn [set_units m_units m_iEntrySize m_pCurrQueue]; [exists (S n)|]; len|]. intros i u Hi _. cbn. by apply lookup_app_l_Some.
Qed.
Lemma find_free_run units a n i :
  find_free units a n = Some i → (a <= i < a + n)%nat ∧ ∃ u, units !! i = Some u ∧ m_iFlag u = FREE.
Proof.
  revert a. induction n as [|n IH]; intros a; cbn [find_free]; [done|]. destruct (units !! a) as [u|] eqn:E; [|done]. cbn [mbind option_bind].
  unfold unit_is. case_bool_decide; [intros [= <-]; split; [lia|by exists u]|intros (? & ?)%IH; split; [lia|done]].
Qed.
(** It answers, with a free unit if any. *)
Definition avail_ok (Q : CUnitQueue) (r : option nat * CUnitQueue) : Prop :=
  uq_ok r.2 ∧ keeps_units Q r.2 ∧ (∀ a, r.1 = Some a → ∃ u, m_units r.2 !! a = Some u ∧ m_iFlag u = FREE).
Lemma avail_loop_run p fuel checked Q :
  uq_ok Q → checked < uq_size Q → uq_size Q - checked < Z.of_nat fuel → ∃ r, avail_loop p fuel checked Q = Some r ∧ avail_ok Q r.
Proof.
  revert checked Q. induction fuel as [|fuel IH]; intros checked Q HQ Hc Hf; [lia|]. destruct (HQ) as [H1 (n & H2) H3 H4].
  cbn [avail_loop]. set (k := (S (m_pCurrQueue Q) * m_iEntrySize Q - m_pAvailUnit Q)%nat).
  destruct (find_free (m_units Q) (m_pAvailUnit Q) k) as [a|] eqn:Ef.
  { apply find_free_run in Ef as [Ha Hu]. eexists. split; [done|]. split; [|split; [by intros ???|by intros ? [= <-]]].
    split; [done|by exists n| |done]. cbn [snd set_avail m_pCurrQueue m_iEntrySize m_pAvailUnit]. lia. }
  set (next := if bool_decide _ then _ else _). set (Q1 := set_avail next _ Q).
  assert (uq_ok Q1) as HQ1.
  { split; [done|by exists n|cbn [Q1 set_avail m_pCurrQueue m_iEntrySize m_pAvailUnit]; lia|].
    cbn [Q1 set_avail m_pCurrQueue m_iEntrySize m_units]. unfold next. case_bool_decide as E; [|lia]. rewrite H2 in E |- *.
    apply Nat.mul_lt_mono_pos_r in E; [|done]. apply Nat.mul_le_mono_r. lia. }
  change (uq_size Q1) with (uq_size Q). destruct (Z.ltb_spec (checked + Z.of_nat k) (uq_size Q)) as [Hk|Hk].
  - destruct (IH (checked + Z.of_nat k) Q1 HQ1 Hk) as (r & Er & H); [change (uq_size Q1) with (uq_size Q); lia|]. by exists r.
  - eexists. split; [done|]. destruct (uq_increase_ok p Q1 HQ1). split; [done|]. split; [done|]. done.
Qed.
Lemma getNextAvailUnit_run p Q : uq_ok Q → ∃ r, getNextAvailUnit p Q = Some r ∧ avail_ok Q r.
Proof.
  intros HQ. unfold getNextAvailUnit. set (Q1 := if _ <? _ then _ else Q).
  assert (uq_ok Q1 ∧ keeps_units Q Q1) as [H1 HK] by (unfold Q1; case_match; [by apply uq_increase_ok|split; [done|by intros ???]]).
  case_match eqn:E.
  - eexists. split; [done|]. by split.
  - destruct (avail_loop_run p (S (length (m_units Q1))) 0 Q1 H1) as (r & Er & (A1 & A2 & A3)).
    + destruct H1 as [? _ ? ?]. unfold uq_size. lia.
    + unfold uq_size. lia.
    + exists r. split; [done|]. split; [done|]. split; [|done]. intros i u Hu Hf. by apply A2; [apply HK|].
Qed.

(** ** Storing and acknowledging *)

(** The cells when [offset] is among them. *)
Definition reach (offset : nat) (w : list (option CUnit)) : list (option CUnit) := w ++ replicate (S offset - length w) None.
Lemma reach_length offset w : length (reach offset w) = Nat.max (length w) (S offset).
Proof. unfold reach. len. Qed.
Lemma reach_lookup offset w i : mjoin (reach offset w !! i) = mjoin (w !! i).
Proof.
  unfold reach. destruct (decide (i < length w)%nat); [by rewrite lookup_app_l|].
  rewrite (lookup_ge_None_2 w), lookup_app_r by lia. destruct (replicate _ _ !! _) as [c|] eqn:E; [|done].
  by apply lookup_replicate in E as [-> _].
Qed.
Lemma rb_cells_reach B w1 w2 offset :
  rb_cells B (w1 ++ w2) → Z.of_nat (length w1 + S offset) < rb_size B → rb_cells B (w1 ++ reach offset w2).
Proof.
  intros H Ho. unfold reach. rewrite app_assoc. apply rb_cells_None; [done|]. destruct H as [_ Hr _ _ _]. rewrite length_app in *. lia.
Qed.

Lemma addData_taken B w1 w2 a offset u0 :
  rb_holds B w1 w2 → 0 <= offset < getAvailBufSize B → w2 !! Z.to_nat offset = Some (Some u0) → addData B a offset = Some (-1, B).
Proof.
  intros H Ho Hu. pose proof (getAvailBufSize_run _ _ _ H) as Hav. destruct (H) as [HC Ha Hm]. unfold addData.
  rewrite (proj2 (Z.leb_gt _ _)) by lia. assert (Z.to_nat offset < length w2)%nat by (by eapply lookup_lt_Some).
  rewrite (proj2 (Z.leb_gt (m_iMaxPos B) offset)) by lia. fold (shift B (m_iLastAckPos B) offset).
  rewrite Ha, at_shift by (apply HC || lia).
  assert ((w1 ++ w2) !! (length w1 + Z.to_nat offset)%nat = Some (Some u0)) as Hl.
  { rewrite lookup_app_r by lia. by replace (length w1 + Z.to_nat offset - length w1)%nat with (Z.to_nat offset) by lia. }
  destruct (cell_unit _ _ _ _ HC Hl) as (b & -> & _). done.
Qed.
Lemma addData_run B w1 w2 a offset u :
  rb_holds B w1 w2 → 0 <= offset < getAvailBufSize B → mjoin (w2 !! Z.to_nat offset) = None →
  m_units (m_pUnitQueue B) !! a = Some u → m_iFlag u = FREE →
  ∃ B', addData B a offset = Some (0, B') ∧
    rb_holds B' w1 (<[Z.to_nat offset := Some (set_flag GOOD u)]> (reach (Z.to_nat offset) w2)) ∧
    rb_size B' = rb_size B ∧ m_iNotch B' = m_iNotch B ∧ m_tsbpd B' = m_tsbpd B ∧
    m_pUnitQueue B' = set_units (<[a := set_flag GOOD u]> (m_units (m_pUnitQueue B))) (m_iUnitCount (m_pUnitQueue B) + 1) (m_pUnitQueue B) ∧
    ring_at B' (at_ B' (length w1 + Z.to_nat offset)) = Some (Some a).
Proof.
  intros H Ho Hu Ea Hf. pose proof (getAvailBufSize_run _ _ _ H) as Hav. destruct (H) as [HC Ha Hm]. unfold addData.
  rewrite (proj2 (Z.leb_gt _ _)) by lia. set (o := Z.to_nat offset) in *. set (B1 := if _ <=? _ then _ else B).
  assert (rb_cells B1 (w1 ++ reach o w2)) as HC1.
  { apply (rb_cells_ext B); [unfold B1; by case_match..|]. apply rb_cells_reach; [done|lia]. }
  assert (m_iMaxPos B1 = Z.of_nat (length (reach o w2))) as Hm1.
  { rewrite reach_length. unfold B1. case_match; cbn [set_ackpos m_iMaxPos]; lia. }
  assert (m_pUnit B1 = m_pUnit B ∧ m_pUnitQueue B1 = m_pUnitQueue B ∧ m_iStartPos B1 = m_iStartPos B ∧
    m_iLastAckPos B1 = m_iLastAckPos B ∧ m_iNotch B1 = m_iNotch B ∧ m_tsbpd B1 = m_tsbpd B) as (E1 & E2 & E3 & E4 & E5 & E6)
    by (unfold B1; by case_match).
  assert (rb_size B1 = rb_size B) as Es by (unfold rb_size; by rewrite E1).
  assert (∀ i, at_ B1 i = at_ B i) as Eat by (intros i; by apply at_same).
  fold (shift B (m_iLastAckPos B) offset). rewrite Ha, at_shift by (apply HC || lia). fold o. rewrite <- Eat.
  assert (Z.of_nat (length w1 + o) < rb_size B1) as Hlt by lia.
  pose proof (rb_cell _ _ HC1 _ Hlt) as Hcell.
  assert (mjoin ((w1 ++ reach o w2) !! (length w1 + o)%nat) = None) as En.
  { rewrite lookup_app_r by lia. replace (length w1 + o - length w1)%nat with o by lia. by rewrite reach_lookup. }
  rewrite En in Hcell. apply cell_ring in Hcell as ([b|] & Er & Hr); [done|]. rewrite Er. cbn [mbind option_bind].
  rewrite E2, Ea. cbn [mbind option_bind]. unfold makeUnitGood. rewrite (upd_unit_run _ _ _ u) by done. cbn [mbind option_bind].
  eexists. split; [done|]. set (Q := set_units _ _ _). set (B2 := count _ _ _ _).
  assert (rb_size B2 = rb_size B) as Es2 by (unfold rb_size, B2; cbn; by rewrite length_insert, E1).
  assert (∀ i, at_ B2 i = at_ B i) as Eat2 by (intros i; by apply at_same).
  assert (rb_holds B2 w1 (<[o:=Some (set_flag GOOD u)]> (reach o w2))) as HB2; [split|].
  - apply (rb_cells_ext (set_ring (<[Z.to_nat (at_ B1 (length w1 + o)) := Some a]> (m_pUnit B1)) Q B1)); [done|done|done|].
    replace (w1 ++ <[o:=Some (set_flag GOOD u)]> (reach o w2)) with (<[(length w1 + o)%nat := Some (set_flag GOOD u)]> (w1 ++ reach o w2))
      by (by rewrite insert_app_r).
    (* the unit is free, so it is in no cell *)
    assert (∀ j, m_pUnit B1 !! j = Some (Some a) → False) as Hno.
    { intros j Hj. assert (0 <= Z.of_nat j < rb_size B1) as Hjb by (apply lookup_lt_Some in Hj; unfold rb_size; lia).
      destruct (at_surj B1 (Z.of_nat j) (rb_in _ _ HC1) Hjb) as (i & Hi & Ei). pose proof (rb_cell _ _ HC1 i Hi) as Hci.
      unfold cell in Hci. rewrite ring_at_lookup, Ei, Nat2Z.id, Hj in Hci by apply HC1. cbn [mbind option_bind] in Hci.
      rewrite E2, Ea in Hci. cbn [mbind option_bind] in Hci. destruct ((w1 ++ reach o w2) !! i) as [[v|]|] eqn:Ev; cbn in Hci; [|done..].
      injection Hci as <-. by apply (rb_kept _ _ HC1 i u). }
    apply rb_cells_write; [done|rewrite length_app, reach_length; lia| |].
    + exists (set_flag GOOD u). split; [done|]. split; [cbn; apply list_lookup_insert_eq; by eapply lookup_lt_Some|].
      split; [done|]. intros j Hj. by apply Hno in Hj.
    + intros j b v Hj Hb Hv. cbn. rewrite E2 in Hv. rewrite list_lookup_insert_ne; [done|]. intros ->. by apply Hno in Hb.
  - rewrite Eat2. cbn. by rewrite E4, Ha.
  - cbn. rewrite Hm1. by rewrite length_insert.
  - split; [done|]. split_and!; [done..|]. rewrite ring_at_lookup, Eat2, <- Eat by apply HB2. cbn. apply list_lookup_insert_eq.
    pose proof (at_bounds B1 (length w1 + o) (rb_in _ _ HC1)). unfold rb_size in *. lia.
Qed.

Lemma count_units_run B w k i j pkts byts :
  rb_cells B w → (i <= j)%nat → Z.of_nat j < rb_size B → (j - i < k)%nat →
  ∃ r, count_units k B (at_ B i) (at_ B j) pkts byts = Some r.
Proof.
  intros H Hij Hj. revert i pkts byts Hij. induction k as [|k IH]; intros i pkts byts Hij Hk; [lia|]. cbn [count_units].
  destruct (decide (i = j)) as [->|Hn]; [rewrite Z.eqb_refl; by eexists|].
  rewrite at_neq by (apply H || lia). rewrite (cell_run _ _ _ H) by lia. cbn [mbind option_bind]. rewrite at_succ by apply H.
  destruct (mjoin _); apply IH; lia.
Qed.
Lemma rcv_ackData_run B w1 w2 n :
  rb_holds B w1 w2 → 0 <= n → Z.of_nat (length w1) + n < rb_size B →
  let e := w2 ++ replicate (Z.to_nat n - length w2) None in
  ∃ B', ackData B n = Some (Z.of_nat (length w1) + n, B') ∧ rb_holds B' (w1 ++ take (Z.to_nat n) e) (drop (Z.to_nat n) w2) ∧
    rb_size B' = rb_size B ∧ m_iNotch B' = m_iNotch B ∧ m_tsbpd B' = m_tsbpd B ∧ m_pUnitQueue B' = m_pUnitQueue B.
Proof.
  intros [HC Ha Hm] Hn Hr e. pose proof (rb_in _ _ HC) as Hin. unfold ackData. rewrite Ha, at_shift by done.
  destruct (count_units_run B _ (fuel B) (length w1) (length w1 + Z.to_nat n) 0 0 HC) as ([pkts byts] & ->);
    [lia|lia|unfold fuel; unfold rb_size in Hr; lia|]. cbn [mbind option_bind]. set (B1 := if 0 <? pkts then _ else B).
  assert (m_pUnit B1 = m_pUnit B ∧ m_pUnitQueue B1 = m_pUnitQueue B ∧ m_iStartPos B1 = m_iStartPos B ∧ m_iNotch B1 = m_iNotch B ∧
    m_tsbpd B1 = m_tsbpd B ∧ m_iMaxPos B1 = m_iMaxPos B) as (E1 & E2 & E3 & E4 & E5 & E6) by (unfold B1; by case_match).
  set (B2 := set_ackpos _ _ B1). assert (rb_size B2 = rb_size B) as Es by (unfold rb_size; by rewrite <- E1).
  assert (∀ i, at_ B2 i = at_ B i) as Eat by (intros i; by apply at_same).
  assert (length (take (Z.to_nat n) e) = Z.to_nat n) as Hl by (unfold e; len).
  exists B2. split; [|split; [split|done]].
  - cbn [set_ackpos m_iStartPos B2]. rewrite E3. f_equal. f_equal. change (rb_size B2) with (rb_size B1).
    assert (rb_size B1 = rb_size B) as -> by (unfold rb_size; by rewrite E1).
    unfold in_ring in Hin. rewrite at_wrap by (done || lia). repeat case_match; lia.
  - apply (rb_cells_ext B); [done|done|done|]. rewrite <- app_assoc.
    assert (take (Z.to_nat n) e ++ drop (Z.to_nat n) w2 = e) as ->.
    { unfold e. destruct (decide (length w2 <= Z.to_nat n)%nat).
      - rewrite (drop_ge w2), app_nil_r, take_ge by len. done.
      - replace (Z.to_nat n - length w2)%nat with 0%nat by lia. cbn [replicate]. by rewrite app_nil_r, take_drop. }
    unfold e. rewrite app_assoc. apply rb_cells_None; [done|]. destruct HC as [_ Hroom _ _ _]. rewrite length_app in *. lia.
  - rewrite Eat, length_app, Hl. done.
  - cbn [B2 set_ackpos m_iMaxPos]. rewrite E6, Hm, length_drop. lia.
Qed.

(** ** Reading the stream *)

Definition good (p : CPacket) : option CUnit := Some (mkUnit p GOOD).
(** The bytes of packets of which [notch] were read. *)
Definition unread (notch : Z) (ps : list CPacket) : bytes := drop (Z.to_nat notch) (concat (m_pcData <$> ps)).
Definition notch_ok (notch : Z) (ps : list CPacket) : Prop :=
  0 <= notch ∧ match ps with [] => notch = 0 | p :: _ => notch <= getLength p end.
Lemma notch_0 ps : notch_ok 0 ps.
Proof. split; [done|]. destruct ps; [done|]. unfold getLength, len. lia. Qed.
Lemma content_cons notch p ps : notch_ok notch (p :: ps) → unread notch (p :: ps) = drop (Z.to_nat notch) (m_pcData p) ++ unread 0 ps.
Proof. intros [H1 H2]. unfold unread, getLength, len in *. cbn [fmap list_fmap concat]. rewrite drop_app_le by lia. by rewrite drop_0. Qed.

(** In the middle of a read: [j] cells were emptied. *)
Lemma read_loop_run now ps w2 :
  ∀ k B j rs, rb_cells B (replicate j None ++ (good <$> ps) ++ w2) → m_bTsbPdMode (m_tsbpd B) = false →
  notch_ok (m_iNotch B) ps → 0 <= rs → (S (length ps) < k)%nat →
  ∃ j' ps' B', let data := take (Z.to_nat rs) (unread (m_iNotch B) ps) in
    read_loop k B now (at_ B j) (at_ B (j + length ps)) rs = Some (data, ReadDone (at_ B j') (rs - len data), B') ∧
    (j' + length ps' = j + length ps)%nat ∧ rb_cells B' (replicate j' None ++ (good <$> ps') ++ w2) ∧
    notch_ok (m_iNotch B') ps' ∧ unread (m_iNotch B') ps' = drop (Z.to_nat rs) (unread (m_iNotch B) ps) ∧
    (∃ dn, ps = dn ++ ps') ∧
    rb_size B' = rb_size B ∧ m_iStartPos B' = m_iStartPos B ∧ m_iLastAckPos B' = m_iLastAckPos B ∧ m_iMaxPos B' = m_iMaxPos B ∧
    m_tsbpd B' = m_tsbpd B ∧ uq_shape (m_pUnitQueue B') = uq_shape (m_pUnitQueue B).
Proof.
  induction ps as [|p ps IH]; intros k B j rs H Ht Hn Hrs Hk; (destruct k as [|k]; [lia|]); cbn [read_loop length].
  { rewrite Nat.add_0_r, Z.eqb_refl. exists j, [], B. unfold unread. cbn. rewrite ?drop_nil, ?take_nil, ?drop_nil.
    split; [do 3 f_equal; f_equal; unfold len; cbn; lia|]. split_and!; try (done || lia). by exists []. }
  assert (Z.of_nat (j + S (length ps)) < rb_size B) as Hroom.
  { destruct H as [_ Hr _ _ _]. rewrite !length_app, length_replicate, length_fmap in Hr. cbn in Hr. lia. }
  pose proof (rb_in _ _ H) as Hin. rewrite at_neq by (done || lia). cbn [orb]. destruct (Z.leb_spec rs 0) as [Hle|Hpos].
  { assert (rs = 0) as -> by lia. exists j, (p :: ps), B. cbn [take]. split; [do 3 f_equal; f_equal; unfold len; cbn; lia|].
    split_and!; try (done || lia). by exists []. }
  assert ((replicate j None ++ (good <$> p :: ps) ++ w2) !! j = Some (good p)) as Hj.
  { rewrite lookup_app_r by len. by rewrite length_replicate, Nat.sub_diag. }
  rewrite (cell_run _ _ _ H), Hj by lia. cbn [mjoin option_join good mbind option_bind m_Packet]. rewrite Ht.
  rewrite Z.ltb_irrefl. set (nt := m_iNotch B) in *. destruct (Hn) as [Hn0 Hn1]. rewrite (content_cons nt p ps Hn).
  set (body := drop (Z.to_nat nt) (m_pcData p)). assert (len body = getLength p - nt) as Hb by (unfold body, getLength, len in *; len).
  destruct (Z.leb_spec (getLength p - nt) rs) as [Hall|Hpart].
  - rewrite Z.min_l by lia. destruct (freeUnitAt_run B _ j _ H Hj) as (B1 & -> & H1 & (S1 & S2 & S3 & S4 & S5 & S6 & S7) & _).
    cbn [mbind option_bind]. rewrite (at_next B B1) by done.
    assert (rb_cells (set_notch 0 B1) (replicate (S j) None ++ (good <$> ps) ++ w2)) as H2.
    { apply (rb_cells_ext B1); [done..|]. rewrite replicate_S_end. rewrite <- app_assoc.
      rewrite insert_app_r_alt, length_replicate, Nat.sub_diag in H1 by len. exact H1. }
    assert (∀ i, at_ (set_notch 0 B1) i = at_ B i) as Eat by (intros i; by apply at_same).
    destruct (IH k (set_notch 0 B1) (S j) (rs - (getLength p - nt))) as (j' & ps' & B' & E & A1 & A2 & A3 & A4 & (dn & A5) & F1 & F2 & F3 & F4 & F5 & F6);
      [done|by cbn; rewrite S6|apply notch_0|lia|cbn in Hk; lia|].
    rewrite !Eat in E. replace (S j + length ps)%nat with (j + S (length ps))%nat in E by lia. rewrite E. cbn [mbind option_bind fst snd].
    cbn [set_notch m_iNotch] in *. exists j', ps', B'. rewrite take_ge by (unfold len in Hb; lia).
    assert (take (Z.to_nat rs) (body ++ unread 0 ps) = body ++ take (Z.to_nat (rs - (getLength p - nt))) (unread 0 ps)) as Etk.
    { rewrite take_app_ge by (unfold len in Hb; lia). f_equal. f_equal. unfold len in Hb. lia. }
    rewrite Etk. split_and!.
    + f_equal. f_equal. f_equal. f_equal. rewrite <- Hb. unfold len. rewrite length_app. lia.
    + lia.
    + exact A2.
    + exact A3.
    + rewrite A4, drop_app_ge by (unfold len in Hb; lia). f_equal. unfold len in Hb. lia.
    + exists (p :: dn). by rewrite A5.
    + rewrite F1. exact S1.
    + rewrite F2. exact S2.
    + rewrite F3. exact S3.
    + rewrite F4. exact S4.
    + rewrite F5. exact S6.
    + rewrite F6. exact S7.
  - rewrite Z.min_r by lia. rewrite Z.sub_diag. set (B1 := set_notch (nt + rs) B).
    destruct k as [|k]; [cbn in Hk; lia|]. cbn [read_loop]. rewrite Z.leb_refl, orb_true_r. cbn [mbind option_bind].
    exists j, (p :: ps), B1. assert (take (Z.to_nat rs) (body ++ unread 0 ps) = take (Z.to_nat rs) body) as Etk
      by (apply take_app_le; unfold len in Hb; lia).
    rewrite Etk, app_nil_r. assert (len (take (Z.to_nat rs) body) = rs) as -> by (unfold len in *; len).
    rewrite Z.sub_diag. split; [done|]. split; [done|]. split; [by apply (rb_cells_ext B)|].
    assert (notch_ok (nt + rs) (p :: ps)) as Hn' by (split; lia). split; [done|].
    split; [|by split_and!; [exists []|..]]. cbn [B1 set_notch m_iNotch]. rewrite content_cons by done.
    rewrite drop_app_le by (unfold len in Hb; lia). f_equal. unfold body. rewrite drop_drop. f_equal. lia.
Qed.
Lemma readBuffer_run now n B ps w2 :
  rb_holds B (good <$> ps) w2 → m_bTsbPdMode (m_tsbpd B) = false → notch_ok (m_iNotch B) ps → 0 <= n →
  let data := take (Z.to_nat n) (unread (m_iNotch B) ps) in
  ∃ B' ps', readBuffer B now n = Some (len data, data, B') ∧ rb_holds B' (good <$> ps') w2 ∧ notch_ok (m_iNotch B') ps' ∧
    unread (m_iNotch B') ps' = drop (Z.to_nat n) (unread (m_iNotch B) ps) ∧ (∃ dn, ps = dn ++ ps') ∧
    rb_size B' = rb_size B ∧ m_tsbpd B' = m_tsbpd B ∧ uq_shape (m_pUnitQueue B') = uq_shape (m_pUnitQueue B).
Proof.
  intros [HC Ha Hm] Ht Hn Hl data. pose proof (rb_in _ _ HC) as Hin. unfold readBuffer.
  destruct (read_loop_run now ps w2 (fuel B) B 0 n HC Ht Hn Hl) as (j & ps' & B' & E & A1 & A2 & A3 & A4 & A5 & F1 & F2 & F3 & F4 & F5 & F6).
  { destruct HC as [_ Hr _ _ _]. rewrite length_app, length_fmap in Hr. unfold fuel. unfold rb_size in Hr. lia. }
  rewrite at_0 in E by done. cbn [plus] in E. rewrite Ha, length_fmap, E. cbn [mbind option_bind]. fold data.
  eexists _, ps'. split; [f_equal; f_equal; f_equal; lia|]. set (B2 := set_start _ _).
  assert (rb_size B2 = rb_size B) as Es by exact F1. pose proof (at_same B B' j F1 F2) as Ej.
  split; [|by split_and!]. split.
  - assert (rb_cells (count (-1) (- (n - (n - len data))) true B') (replicate j None ++ (good <$> ps') ++ w2)) as H2 by (by apply (rb_cells_ext B')).
    apply rb_cells_skip in H2. eapply rb_cells_ext; [| | |exact H2]; [done|done|]. cbn [set_start m_iStartPos B2]. rewrite <- Ej. by apply at_same.
  - rewrite length_fmap. cbn [B2 set_start count set_bytes m_iLastAckPos]. rewrite F3, Ha. unfold at_. rewrite Es.
    cbn [B2 set_start m_iStartPos]. rewrite <- Ej, Ej. unfold at_. rewrite Zplus_mod_idemp_l. f_equal. rewrite length_fmap. lia.
  - cbn. by rewrite F4, Hm.
Qed.

(** ** Reading messages *)

Lemma count_holds a b c B w1 w2 : rb_holds B w1 w2 → rb_holds (count a b c B) w1 w2.
Proof. intros [H1 H2 H3]. split; [by apply (rb_cells_ext B)|exact H2|exact H3]. Qed.
Lemma held_lookup ps w2 i q : ps !! i = Some q → ((good <$> ps) ++ w2) !! i = Some (good q).
Proof. intros H. apply lookup_app_l_Some. by rewrite list_lookup_fmap, H. Qed.
Lemma held_cell B ps w2 i q :
  rb_holds B (good <$> ps) w2 → ps !! i = Some q → cell B (at_ B i) = Some (good q).
Proof.
  intros [H _ _] Hq. pose proof (rb_room _ _ H) as Hr. rewrite length_app, length_fmap in Hr. pose proof (lookup_lt_Some _ _ _ Hq).
  rewrite (cell_run _ _ _ H) by lia. by rewrite (held_lookup _ _ _ _ Hq).
Qed.
Lemma held_room B ps w2 : rb_holds B (good <$> ps) w2 → Z.of_nat (length ps + length w2) < rb_size B.
Proof. intros [H _ _]. pose proof (rb_room _ _ H) as Hr. by rewrite length_app, length_fmap in Hr. Qed.

Lemma good_ahead_run B ps w2 k i :
  rb_holds B (good <$> ps) w2 → (i <= length ps)%nat → (length ps - i < k)%nat → good_ahead k B (at_ B i) = Some true.
Proof.
  intros H. pose proof (held_room _ _ _ H) as Hr. destruct (H) as [HC Ha _]. rewrite length_fmap in Ha. revert i.
  induction k as [|k IH]; intros i Hi Hk; [lia|]. cbn [good_ahead]. rewrite Ha. destruct (decide (i = length ps)) as [->|Hn]; [by rewrite Z.eqb_refl|].
  rewrite at_neq by (apply HC || lia). destruct (lookup_lt_is_Some_2 ps i) as [q Hq]; [lia|].
  rewrite (held_cell _ _ _ _ _ H Hq). cbn [mbind option_bind good unit_is]. unfold unit_is. rewrite bool_decide_true by done. cbn [negb].
  destruct (is_last _); [done|]. rewrite at_succ by apply HC. apply IH; lia.
Qed.
(** Nothing is removed when a message begins at the first position. *)
Lemma scan_clean_run B ps w2 :
  rb_holds B (good <$> ps) w2 → (∀ q, head ps = Some q → is_first (getMsgBoundary q) = true) →
  scan_clean (fuel B) B 0 0 = Some (0, 0, B).
Proof.
  intros H Hf. pose proof (held_room _ _ _ H) as Hr. destruct (H) as [HC Ha _]. pose proof (rb_in _ _ HC) as Hin. rewrite length_fmap in Ha.
  unfold fuel at 1. cbn [scan_clean]. rewrite Ha, <- (at_0 B) by done. destruct ps as [|q ps]; [by rewrite Z.eqb_refl|].
  rewrite at_neq by (done || cbn in *; lia). rewrite (held_cell B (q :: ps) w2 0 q H eq_refl). cbn [mbind option_bind good].
  unfold unit_is. rewrite bool_decide_true by done. cbn [m_Packet andb]. rewrite (Hf q eq_refl).
  rewrite (good_ahead_run B (q :: ps) w2) by (done || cbn; lia || unfold fuel, rb_size in *; cbn in *; lia). done.
Qed.

(** The first [L] packets are a message. *)
Record message_of (ps : list CPacket) (L : nat) : Prop := {
  mo_len : (0 < L <= length ps)%nat;
  mo_first : ∀ i q, (i < L)%nat → ps !! i = Some q → is_first (getMsgBoundary q) = (i =? 0)%nat;
  mo_last : ∀ i q, (i < L)%nat → ps !! i = Some q → is_last (getMsgBoundary q) = (S i =? L)%nat }.
Lemma scan_find_message B ps w2 L :
  rb_holds B (good <$> ps) w2 → message_of ps L → ∀ d i n, (S (i + d) = L)%nat → (d < n)%nat →
  scan_find n B (if (i =? 0)%nat then -1 else at_ B 0) (at_ B i) false = Some (true, at_ B 0, at_ B (L - 1), false).
Proof.
  intros H [Hl Hf Hz]. pose proof (held_room _ _ _ H) as Hr. destruct (H) as [HC Ha _]. pose proof (rb_in _ _ HC) as Hin. rewrite length_fmap in Ha.
  pose proof (at_bounds B 0 Hin) as H0.
  induction d as [|d IH]; intros i n Hi Hn; (destruct n as [|n]; [lia|]); cbn [scan_find];
    (destruct (lookup_lt_is_Some_2 ps i) as [q Hq]; [lia|]); rewrite (held_cell _ _ _ _ _ H Hq); cbn [mbind option_bind];
    specialize (Hf i q ltac:(lia) Hq); specialize (Hz i q ltac:(lia) Hq).
  - (* the last packet *)
    assert (head_of (good q) (if (i =? 0)%nat then -1 else at_ B 0) (at_ B i) = at_ B 0) as ->.
    { unfold head_of, good, unit_is. rewrite bool_decide_true by done. cbn [m_Packet]. rewrite Hf. destruct i; done. }
    assert (ends_message (good q) (if (i =? 0)%nat then -1 else at_ B 0) = true) as ->.
    { unfold ends_message, good, unit_is. rewrite bool_decide_true by done. cbn [m_Packet andb].
      replace (S i =? L)%nat with true in Hz by (symmetry; apply Nat.eqb_eq; lia).
      destruct (getMsgBoundary q); try done. destruct i; [done|]. cbn. by rewrite (proj2 (Z.eqb_neq _ _)) by lia. }
    cbn [negb orb andb]. by replace (L - 1)%nat with i by lia.
  - assert (head_of (good q) (if (i =? 0)%nat then -1 else at_ B 0) (at_ B i) = at_ B 0) as ->.
    { unfold head_of, good, unit_is. rewrite bool_decide_true by done. cbn [m_Packet]. rewrite Hf. destruct i; done. }
    assert (ends_message (good q) (if (i =? 0)%nat then -1 else at_ B 0) = false) as ->.
    { unfold ends_message, good, unit_is. rewrite bool_decide_true by done. cbn [m_Packet andb].
      replace (S i =? L)%nat with false in Hz by (symmetry; apply Nat.eqb_neq; lia). by destruct (getMsgBoundary q). }
    cbn [andb]. rewrite at_succ, Ha, at_neq by (done || lia). cbn [orb].
    specialize (IH (S i) n ltac:(lia) ltac:(lia)). exact IH.
Qed.

(** No message is found among packets none of which is a last one, and none beyond
    them whose messages are in order. *)
Definition no_last (ps : list CPacket) : Prop := ∀ i q, ps !! i = Some q → is_last (getMsgBoundary q) = false.
Definition ordered (w : list (option CUnit)) : Prop := ∀ i u, w !! i = Some (Some u) → getMsgOrderFlag (m_Packet u) = true.
Lemma scan_find_none B ps w2 :
  rb_holds B (good <$> ps) w2 → no_last ps → ordered w2 →
  ∀ n i p, (i + n <= length ps + length w2)%nat → (p = -1 ∨ ∃ j u, (j < i)%nat ∧ p = at_ B j ∧ cell B p = Some (Some u)) →
  ∃ p' pa, scan_find n B p (at_ B i) (bool_decide (length ps <= i)%nat) = Some (false, p', at_ B (i + n), pa) ∧
    (p' = -1 ∨ ∃ j u, (j < i + n)%nat ∧ p' = at_ B j ∧ cell B p' = Some (Some u)).
Proof.
  intros H Hnl Ho. pose proof (held_room _ _ _ H) as Hr. destruct (H) as [HC Ha _]. pose proof (rb_in _ _ HC) as Hin. rewrite length_fmap in Ha.
  induction n as [|n IH]; intros i p Hi Hp; cbn [scan_find].
  { rewrite Nat.add_0_r. eexists p, _. split; [done|]. exact Hp. }
  rewrite (cell_run _ _ _ HC) by lia. cbn [mbind option_bind]. set (c := mjoin (((good <$> ps) ++ w2) !! i)).
  assert ((ends_message c p && (negb (bool_decide (length ps <= i)%nat)
    || match c with Some u => negb (getMsgOrderFlag (m_Packet u)) | None => false end)) = false) as ->.
  { case_bool_decide as Hle; cbn [negb orb].
    - unfold c. rewrite lookup_app_r by (rewrite length_fmap; lia). rewrite length_fmap. destruct (w2 !! (i - length ps)%nat) as [[u|]|] eqn:E; cbn [mjoin option_join].
      + by rewrite (Ho _ _ E), andb_false_r.
      + done.
      + done.
    - unfold c. destruct (lookup_lt_is_Some_2 ps i) as [q Hq]; [lia|]. rewrite (held_lookup _ _ _ _ Hq). cbn [mjoin option_join good orb].
      specialize (Hnl _ _ Hq). unfold ends_message, good, unit_is. rewrite bool_decide_true by done.
      cbn [m_Packet andb]. by destruct (getMsgBoundary q). }
  rewrite at_succ, Ha by done.
  assert ((bool_decide (length ps <= i)%nat || (at_ B (S i) =? at_ B (length ps))) = bool_decide (length ps <= S i)%nat) as ->.
  { destruct (decide (S i = length ps)) as [E|E].
    - rewrite E, Z.eqb_refl, orb_true_r. by rewrite bool_decide_true by lia.
    - rewrite at_neq by (done || lia). rewrite orb_false_r. apply bool_decide_ext. lia. }
  replace (i + S n)%nat with (S i + n)%nat by lia. apply IH; [lia|].
  unfold head_of. assert (cell B (at_ B i) = Some c) as Hc by (by rewrite (cell_run _ _ _ HC) by lia).
  destruct c as [u|] eqn:Ec; [|by left]. destruct (unit_is GOOD u); [|by left]. destruct (is_first _).
  - right. exists i, u. split; [lia|]. split; [done|]. exact Hc.
  - destruct Hp as [->|(j & v & Hj & -> & Hv)]; [by left|]. right. exists j, v. split; [lia|done].
Qed.

Lemma extract_loop_run w : ∀ ms k B j rs,
  rb_cells B (replicate j None ++ (good <$> ms) ++ w) → 0 <= rs → (length ms < k)%nat →
  let data := take (Z.to_nat rs) (concat (m_pcData <$> ms)) in
  ∃ B', extract_loop k B (at_ B j) (at_ B (j + length ms)) rs false = Some (data, rs - len data, B') ∧
    rb_cells B' (replicate (j + length ms) None ++ w) ∧ same_rest B B'.
Proof.
  induction ms as [|q ms IH]; intros k B j rs H Hrs Hk; (destruct k as [|k]; [lia|]); cbn [extract_loop length].
  { rewrite Nat.add_0_r, Z.eqb_refl. exists B. cbn [fmap list_fmap concat]. rewrite take_nil. split; [do 3 f_equal; unfold len; cbn; lia|done]. }
  pose proof (rb_in _ _ H) as Hin. pose proof (rb_room _ _ H) as Hr. rewrite !length_app, length_replicate, length_fmap in Hr. cbn [length] in Hr.
  rewrite at_neq by (done || lia).
  assert ((replicate j None ++ (good <$> q :: ms) ++ w) !! j = Some (good q)) as Hj.
  { rewrite lookup_app_r by len. by rewrite length_replicate, Nat.sub_diag. }
  rewrite (cell_run _ _ _ H), Hj by lia. cbn [mjoin option_join good mbind option_bind m_Packet negb].
  set (B1 := if 0 <? getLength q then _ else B).
  assert (rb_cells B1 (replicate j None ++ (good <$> q :: ms) ++ w) ∧ same_rest B B1) as [H1 HS1].
  { unfold B1. case_match; [|done]. split; [by apply (rb_cells_ext B)|done]. }
  assert (at_ B j = at_ B1 j) as Ej by (symmetry; by apply at_same; apply HS1). rewrite Ej.
  destruct (freeUnitAt_run B1 _ j _ H1 Hj) as (B2 & -> & H2 & HS2 & _). cbn [mbind option_bind].
  pose proof (same_rest_trans _ _ _ HS1 HS2) as HS. destruct (HS) as (S1 & S2 & S3 & S4 & S5 & S6 & S7).
  rewrite <- Ej, (at_next B B2) by done. rewrite insert_app_r_alt, length_replicate, Nat.sub_diag in H2 by len.
  assert (rb_cells B2 (replicate (S j) None ++ (good <$> ms) ++ w)) as H3.
  { rewrite replicate_S_end. rewrite <- app_assoc. exact H2. }
  set (us := if (0 <=? rs) && (rs <? getLength q) then rs else getLength q).
  assert (us = Z.min rs (getLength q)) as Eus by (unfold us; destruct (Z.leb_spec 0 rs), (Z.ltb_spec rs (getLength q)); cbn [andb]; lia).
  assert (0 <= getLength q) by (unfold getLength, len; lia).
  destruct (IH k B2 (S j) (rs - us) H3) as (B' & E & HB' & HS'); [lia|cbn in Hk; lia|].
  rewrite !(at_same B B2) in E by done. replace (S j + length ms)%nat with (j + S (length ms))%nat in E, HB' by lia.
  rewrite E. cbn [mbind option_bind]. exists B'.
  assert (take (Z.to_nat us) (m_pcData q) ++ take (Z.to_nat (rs - us)) (concat (m_pcData <$> ms)) = take (Z.to_nat rs) (concat (m_pcData <$> q :: ms))) as Et.
  { cbn [fmap list_fmap concat]. rewrite take_app, Eus. unfold getLength, len. f_equal.
    - destruct (Z.le_gt_cases rs (Z.of_nat (length (m_pcData q)))).
      + by rewrite Z.min_l by lia.
      + rewrite Z.min_r by lia. rewrite !take_ge; [done|lia..].
    - f_equal. lia. }
  fold us. rewrite Et. split; [|split; [done|by eapply same_rest_trans]].
  do 3 f_equal. rewrite <- Et. unfold len. rewrite length_app, !length_take.
  unfold getLength, len in *. lia.
Qed.

(** A message that is there is read, as much of it as fits. *)
Lemma readMsg_message now n B ps w2 L :
  rb_holds B (good <$> ps) w2 → m_bTsbPdMode (m_tsbpd B) = false → message_of ps L → 0 < n →
  let data := take (Z.to_nat n) (concat (m_pcData <$> take L ps)) in
  ∃ o B', readMsg B now n (-1) = Some (len data, data, 0, o, B') ∧ rb_holds B' (good <$> drop L ps) w2 ∧
    rb_size B' = rb_size B ∧ m_iNotch B' = m_iNotch B ∧ m_tsbpd B' = m_tsbpd B ∧ uq_shape (m_pUnitQueue B') = uq_shape (m_pUnitQueue B).
Proof.
  intros H Ht HM Hn data. pose proof (held_room _ _ _ H) as Hr. pose proof (mo_len _ _ HM) as HL.
  pose proof (rb_in _ _ (rb_all _ _ _ H)) as Hin. unfold readMsg, accessMsg. rewrite Ht. unfold scanMsg.
  assert ((m_iStartPos B =? m_iLastAckPos B) = false) as Hse.
  { rewrite (rb_ack _ _ _ H), length_fmap, <- (at_0 B) by done. apply at_neq; [done|lia..]. }
  rewrite Hse. cbn [andb].
  assert (∀ q, head ps = Some q → is_first (getMsgBoundary q) = true) as Hfirst.
  { intros q Hq. rewrite (mo_first _ _ HM 0%nat q); [done|lia|by destruct ps]. }
  rewrite (scan_clean_run B ps w2 H Hfirst). cbn [mbind option_bind]. set (B1 := count _ _ _ B).
  pose proof (count_holds (- 0) (- 0) true B _ _ H) as H1. fold B1 in H1.
  change (m_iStartPos B1 =? m_iLastAckPos B1) with (m_iStartPos B =? m_iLastAckPos B). rewrite Hse.
  rewrite (getRcvDataSize_run _ _ _ H1), (rb_max _ _ _ H1), length_fmap. change (m_iStartPos B1) with (m_iStartPos B). rewrite <- (at_0 B) by done.
  assert (∀ i, at_ B1 i = at_ B i) as Eat by done.
  pose proof (scan_find_message B1 ps w2 L H1 HM (L - 1) 0 (Z.to_nat (Z.of_nat (length w2) + Z.of_nat (length ps))) ltac:(lia) ltac:(lia)) as Ef.
  cbn [Nat.eqb] in Ef. rewrite !Eat in Ef. rewrite Ef. cbn [mbind option_bind orb negb].
  destruct (lookup_lt_is_Some_2 ps 0) as [q0 Hq0]; [lia|].
  pose proof (held_cell B1 ps w2 0 q0 H1 Hq0) as Hc0. rewrite Eat in Hc0. rewrite Hc0. cbn [mbind option_bind good].
  unfold extractData. rewrite (proj2 (Z.ltb_lt 0 n)) by done. rewrite (at_next B B1) by done. replace (S (L - 1)) with L by lia.
  pose proof (rb_all _ _ _ H1) as HC1. rewrite <- (take_drop L ps), fmap_app, <- app_assoc in HC1.
  assert (length (take L ps) = L) as El by (rewrite length_take; lia).
  destruct (extract_loop_run ((good <$> drop L ps) ++ w2) (take L ps) (fuel B1) B1 0 n HC1) as (B2 & E & HB2 & S1 & S2 & S3 & S4 & S5 & S6 & S7);
    [lia|rewrite El; unfold fuel, rb_size in *; cbn in *; lia|].
  rewrite El in E, HB2. cbn [plus] in E, HB2. rewrite !Eat in E. fold data in E. rewrite E. cbn [mbind option_bind].
  eexists _, _. split; [f_equal; f_equal; f_equal; f_equal; f_equal; f_equal; lia|].
  assert (rb_size B2 = rb_size B) as Es by exact S1. assert (∀ i, at_ B2 i = at_ B i) as Eat2 by (intros i; by apply at_same).
  apply rb_cells_skip in HB2. rewrite Eat2 in HB2. split; [|by split_and!]. split; [exact HB2| |].
  - rewrite length_fmap, length_drop. cbn [set_start m_iLastAckPos]. rewrite S3. change (m_iLastAckPos B1) with (m_iLastAckPos B).
    rewrite (rb_ack _ _ _ H), length_fmap. unfold at_. change (rb_size (set_start _ B2)) with (rb_size B2). rewrite Es. cbn [set_start m_iStartPos].
    rewrite Zplus_mod_idemp_l. f_equal. lia.
  - cbn [set_start m_iMaxPos]. rewrite S4. apply (rb_max _ _ _ H).
Qed.
(** Nothing is read when there is none. *)
Lemma readMsg_none now n B ps w2 :
  rb_holds B (good <$> ps) w2 → m_bTsbPdMode (m_tsbpd B) = false → no_last ps → ordered w2 →
  (∀ q, head ps = Some q → is_first (getMsgBoundary q) = true) → 0 < n →
  ∃ o B', readMsg B now n (-1) = Some (0, [], 0, o, B') ∧ rb_holds B' (good <$> ps) w2 ∧
    rb_size B' = rb_size B ∧ m_iNotch B' = m_iNotch B ∧ m_tsbpd B' = m_tsbpd B ∧ uq_shape (m_pUnitQueue B') = uq_shape (m_pUnitQueue B).
Proof.
  intros H Ht Hnl Ho Hfirst Hn. pose proof (held_room _ _ _ H) as Hr.
  pose proof (rb_in _ _ (rb_all _ _ _ H)) as Hin. unfold readMsg, accessMsg. rewrite Ht. unfold scanMsg.
  destruct ((m_iStartPos B =? m_iLastAckPos B) && (m_iMaxPos B <=? 0)); [by eexists _, B|].
  rewrite (scan_clean_run B ps w2 H Hfirst). cbn [mbind option_bind]. set (B1 := count _ _ _ B).
  pose proof (count_holds (- 0) (- 0) true B _ _ H) as H1. fold B1 in H1. assert (∀ i, at_ B1 i = at_ B i) as Eat by done.
  assert ((m_iStartPos B1 =? m_iLastAckPos B1) = bool_decide (length ps <= 0)%nat) as ->.
  { change (m_iStartPos B1) with (m_iStartPos B). change (m_iLastAckPos B1) with (m_iLastAckPos B).
    rewrite (rb_ack _ _ _ H), length_fmap, <- (at_0 B) by done. destruct (decide (length ps = 0)%nat) as [->|Hne]; [by rewrite Z.eqb_refl|].
    rewrite at_neq by (done || lia). symmetry. apply bool_decide_false. lia. }
  rewrite (getRcvDataSize_run _ _ _ H1), (rb_max _ _ _ H1), length_fmap. change (m_iStartPos B1) with (m_iStartPos B). rewrite <- (at_0 B) by done.
  set (k := Z.to_nat (Z.of_nat (length w2) + Z.of_nat (length ps))).
  destruct (scan_find_none B1 ps w2 H1 Hnl Ho k 0 (-1)) as (p & pa & E & Hp); [lia|by left|].
  rewrite !Eat in E. rewrite E. cbn [mbind option_bind orb plus].
  destruct Hp as [->|(j & u & Hj & -> & Hu)]; [cbn [Z.eqb negb andb]; by eexists _, B1|]. cbn [plus] in Hj. rewrite Eat in *.
  pose proof (at_bounds B j Hin) as Hb. rewrite (proj2 (Z.eqb_neq (at_ B j) (-1))) by lia. cbn [negb andb].
  rewrite (at_next B B1) by done. destruct (Z.eqb_spec (at_ B (S k)) (at_ B j)) as [Eq|]; [|cbn [negb]; by eexists _, B1].
  (* the ring is full, and the range is empty *)
  cbn [negb]. rewrite Hu. cbn [mbind option_bind]. unfold extractData. rewrite (proj2 (Z.ltb_lt 0 n)) by done.
  rewrite (at_next B B1) by done. rewrite Eq. unfold fuel. cbn [extract_loop]. rewrite Z.eqb_refl. cbn [mbind option_bind].
  eexists _, _. split; [rewrite Z.sub_diag; done|]. destruct pa; [done|].
  assert (j = 0)%nat as ->.
  { destruct (decide (Z.of_nat (S k) < rb_size B)) as [Hlt|Hge]; [apply at_inj in Eq; [lia|done|done|lia]|].
    assert (at_ B (S k) = at_ B 0) as E0.
    { unfold at_. replace (Z.of_nat (S k)) with (0 + 1 * rb_size B) by lia. by rewrite Z.add_assoc, Z.mod_add by (unfold in_ring in Hin; lia). }
    rewrite E0 in Eq. apply at_inj in Eq; [done|done|lia|lia]. }
  rewrite at_0 by done. split; [|done]. destruct H1 as [C1 C2 C3]. split; [by apply (rb_cells_ext B1)|exact C2|exact C3].
Qed.
