(* ===== verification/RcvLiveFacts.v ===== *)
(** * The buffer of the receiver as two lists of cells

    What each operation of [RcvBuf] does to the cells that are acknowledged and to those
    that wait, whatever they hold, when packets are delivered by their time; and
    sequences of such operations ([ring_run]) against the same on lists ([ring_spec]). *)
From Stdlib Require Import Sorted.
From S2P Require Import Prelude SeqNo LossRing RcvLossFacts SndLoss SndBuf SndPath TsbPd RcvBuf RcvBufFacts.

(** What an operation on the cells leaves alone. *)
Definition same_frame (B B' : CRcvBuffer) : Prop :=
  rb_size B' = rb_size B ∧ m_iNotch B' = m_iNotch B ∧ uq_shape (m_pUnitQueue B') = uq_shape (m_pUnitQueue B).
Lemma same_frame_trans B1 B2 B3 : same_frame B1 B2 → same_frame B2 B3 → same_frame B1 B3.
Proof. intros (?&?&?) (?&?&?). split_and!; congruence. Qed.
Lemma same_rest_frame B B' : same_rest B B' → same_frame B B'.
Proof. intros (?&?&?&?&?&?&?). by split_and!. Qed.

(** ** The first cell *)

Lemma rb_holds_next B w1 w2 : rb_holds B (None :: w1) w2 → rb_holds (set_start (shiftFwd B (m_iStartPos B)) B) w1 w2.
Proof.
  intros [HC Ha Hm]. pose proof (rb_in _ _ HC) as Hin. split; [by apply rb_cells_next| |done].
  cbn [set_start m_iLastAckPos]. rewrite Ha. rewrite <- (at_0 B) at 1 by done. rewrite at_succ by done. unfold at_.
  change (rb_size (set_start _ B)) with (rb_size B). cbn [set_start m_iStartPos length]. rewrite Zplus_mod_idemp_l. f_equal. lia.
Qed.
Lemma rb_holds_tsbpd T B w1 w2 : rb_holds B w1 w2 → rb_holds (set_tsbpd T B) w1 w2.
Proof. intros [H1 H2 H3]. split; [by apply (rb_cells_ext B)|exact H2|exact H3]. Qed.
Lemma same_rest_holds B B' w1 w2 :
  same_rest B B' → rb_cells B' (w1 ++ w2) → m_iLastAckPos B = at_ B (length w1) → m_iMaxPos B = Z.of_nat (length w2) → rb_holds B' w1 w2.
Proof.
  intros (E1 & E2 & E3 & E4 & _) HC Ha Hm. split; [done|rewrite E3, Ha; symmetry; by apply at_same|by rewrite E4].
Qed.
Lemma first_cell B c w1 w2 : rb_holds B (c :: w1) w2 → (m_iStartPos B =? m_iLastAckPos B) = false ∧ cell B (m_iStartPos B) = Some c.
Proof.
  intros [HC Ha _]. pose proof (rb_in _ _ HC) as Hin. pose proof (rb_room _ _ HC) as Hr. cbn in Hr. rewrite length_app in Hr.
  rewrite Ha, <- (at_0 B) at 1 by done. split; [apply at_neq; [done|cbn; lia..]|].
  rewrite <- (at_0 B) by done. rewrite (cell_run _ _ _ HC) by lia. done.
Qed.
Lemma no_cell B w2 : rb_holds B [] w2 → (m_iStartPos B =? m_iLastAckPos B) = true.
Proof. intros [HC Ha _]. rewrite Ha, at_0 by apply HC. apply Z.eqb_refl. Qed.
(** The unit in the first cell is freed. *)
Lemma free_first B u w1 w2 :
  rb_holds B (Some u :: w1) w2 →
  ∃ B', freeUnitAt B (m_iStartPos B) = Some (getLength (m_Packet u), B') ∧ rb_holds B' (None :: w1) w2 ∧ same_rest B B'.
Proof.
  intros [HC Ha Hm]. pose proof (rb_in _ _ HC) as Hin. rewrite <- (at_0 B) by done.
  destruct (freeUnitAt_run B _ 0 u HC eq_refl) as (B' & -> & HC' & HS & _). exists B'. split; [done|]. split; [|done].
  by apply (same_rest_holds B).
Qed.

(** ** Reading by time *)

(** The first packet that can be played: the time of the last packet looked at, its
    number, the clock, and the cells from that packet on. *)
Fixpoint next_ready (now time cur : Z) (T : CTsbpdTime) (w : list (option CUnit)) : bool * Z * Z * CTsbpdTime * list (option CUnit) :=
  match w with
  | [] => (false, time, cur, T, [])
  | None :: w' => next_ready now time cur T w'
  | Some u :: w' =>
      let cur := m_iSeqNo (m_Packet u) in
      if negb (unit_is GOOD u) then next_ready now time cur T w'
      else
        let '(t, T) := play_time (getMsgTimeStamp (m_Packet u)) T in
        if now <? t then (false, t, cur, T, w)
        else if getMsgCryptoFlags (m_Packet u) =? EK_NOENC then (true, t, cur, T, w)
        else next_ready now t cur T w'
  end.
Lemma ready_loop_run now w2 : ∀ w1 k B time cur,
  rb_holds B w1 w2 → (length w1 < k)%nat →
  let r := next_ready now time cur (m_tsbpd B) w1 in
  ∃ B', ready_loop k B (m_iStartPos B) now None SRT_SEQNO_NONE time cur = Some (r.1.1.1.1, r.1.1.1.2, r.1.1.2, B') ∧
    rb_holds B' r.2 w2 ∧ m_tsbpd B' = r.1.2 ∧ same_frame B B'.
Proof.
  induction w1 as [|c w1 IH]; intros k B time cur H Hk; (destruct k as [|k]; [lia|]); cbn [ready_loop next_ready].
  { rewrite (no_cell _ _ H). by exists B. }
  destruct (first_cell _ _ _ _ H) as [-> ->]. cbn [mbind option_bind]. cbn [length] in Hk. destruct c as [u|].
  2: { destruct (IH k _ time cur (rb_holds_next _ _ _ H)) as (B' & E & A); [lia|]. cbn [set_start m_iStartPos] in E. by exists B'. }
  (* freeing the unit and going on *)
  assert (∀ B1 time' cur', rb_holds B1 (Some u :: w1) w2 → m_iStartPos B1 = m_iStartPos B → same_frame B B1 →
    let r := next_ready now time' cur' (m_tsbpd B1) w1 in
    ∃ B', ('(_, B2) ← freeUnitAt (count (-1) (- getLength (m_Packet u)) true B1) (m_iStartPos B);
           ready_loop k (set_start (shiftFwd B2 (m_iStartPos B2)) B2) (shiftFwd B2 (m_iStartPos B)) now None SRT_SEQNO_NONE time' cur')
      = Some (r.1.1.1.1, r.1.1.1.2, r.1.1.2, B') ∧ rb_holds B' r.2 w2 ∧ m_tsbpd B' = r.1.2 ∧ same_frame B B') as Hfree.
  { intros B1 time' cur' H1 Es HF. apply (count_holds (-1) (- getLength (m_Packet u)) true) in H1. set (B1' := count _ _ _ B1) in *.
    rewrite <- Es. change (m_iStartPos B1) with (m_iStartPos B1'). destruct (free_first _ _ _ _ H1) as (B2 & -> & H2 & HS).
    cbn [mbind option_bind]. destruct (HS) as (_ & S2 & _ & _ & _ & S6 & _). rewrite <- S2.
    destruct (IH k _ time' cur' (rb_holds_next _ _ _ H2)) as (B' & E & A1 & A2 & A3); [lia|].
    cbn [set_start m_iStartPos m_tsbpd] in E, A1, A2. rewrite S6 in E, A1, A2. exists B'. split; [exact E|]. split; [done|]. split; [done|].
    eapply same_frame_trans; [exact HF|]. eapply same_frame_trans; [|exact A3]. exact (same_rest_frame _ _ HS). }
  destruct (unit_is GOOD u); cbn [negb]; [|by apply Hfree].
  unfold RcvBuf.getPktTsbPdTime. destruct (play_time (getMsgTimeStamp (m_Packet u)) (m_tsbpd B)) as [t T] eqn:Ep. cbn [fst snd].
  assert (0 <? t - now = (now <? t)) as -> by lia. pose proof (rb_holds_tsbpd T _ _ _ H) as HT.
  destruct (now <? t); [by eexists|]. destruct (getMsgCryptoFlags (m_Packet u) =? EK_NOENC); cbn [negb].
  - by eexists.
  - by apply (Hfree (set_tsbpd T B)).
Qed.
Lemma next_ready_true now w time cur T t seq T' w' :
  next_ready now time cur T w = (true, t, seq, T', w') →
  ∃ p w1, w' = good p :: w1 ∧ m_iSeqNo p = seq ∧ getMsgCryptoFlags p = EK_NOENC ∧ t <= now.
Proof.
  revert time cur T. induction w as [|[u|] w IH]; intros time cur T; cbn [next_ready]; [done| |by apply IH].
  destruct (unit_is GOOD u) eqn:Eg; cbn [negb]; [|by apply IH]. destruct (play_time _ T) as [t1 T1].
  destruct (Z.ltb_spec now t1); [done|]. destruct (Z.eqb_spec (getMsgCryptoFlags (m_Packet u)) EK_NOENC); [|by apply IH].
  intros [= <- <- <- <-]. apply bool_decide_eq_true in Eg. destruct u as [p f]. cbn in *. subst f. by exists p, w.
Qed.
Lemma extract_first B p w1 w2 n :
  rb_holds B (good p :: w1) w2 → 0 < n →
  let data := take (Z.to_nat n) (m_pcData p) in
  ∃ B', extractData B n (m_iStartPos B) (m_iStartPos B) false = Some (len data, data, B') ∧ rb_holds B' w1 w2 ∧
    m_tsbpd B' = m_tsbpd B ∧ same_frame B B'.
Proof.
  intros [HC Ha Hm] Hn data. pose proof (rb_in _ _ HC) as Hin. unfold extractData. rewrite (proj2 (Z.ltb_lt 0 n)) by done.
  pose proof (rb_room _ _ HC) as Hr. cbn [app length] in Hr.
  destruct (extract_loop_run (w1 ++ w2) [p] (fuel B) B 0 n HC) as (B' & E & HC' & HS); [lia|unfold fuel, rb_size in *; cbn; lia|].
  cbn [length plus fmap list_fmap concat] in E, HC'. rewrite app_nil_r in E. rewrite at_0 in E by done.
  assert (shiftFwd B (m_iStartPos B) = at_ B 1) as Es by (rewrite <- (at_0 B) at 1 by done; by apply at_succ).
  rewrite Es. fold data in E. rewrite E. cbn [mbind option_bind].
  eexists. split; [f_equal; f_equal; f_equal; lia|]. destruct (HS) as (S1 & S2 & S3 & S4 & S5 & S6 & S7).
  split; [|split; [exact S6|by apply (same_rest_frame B B')]].
  assert (rb_holds B' (None :: w1) w2) as H' by (by apply (same_rest_holds B)). apply rb_holds_next in H'.
  rewrite S2 in H'. assert (shiftFwd B' (m_iStartPos B) = at_ B 1) as <- by (rewrite <- (at_0 B) at 1 by done; by apply at_next). done.
Qed.

(** A read: the result, the data, the time, the numbers of the packet, the clock and the
    cells after it. *)
Definition live_read (now n : Z) (T : CTsbpdTime) (w : list (option CUnit))
    : (Z * bytes * Z * option (Z * Z)) * CTsbpdTime * list (option CUnit) :=
  match next_ready now 0 0 T w with
  | (true, t, _, T, Some u :: w) =>
      let data := take (Z.to_nat n) (m_pcData (m_Packet u)) in
      ((len data, data, t, Some (m_iSeqNo (m_Packet u), getMsgSeq true (m_Packet u))), T, w)
  | (_, t, _, T, w) => ((0, [], t, None), T, w)
  end.
Lemma readMsg_live now n B w1 w2 :
  rb_holds B w1 w2 → m_bTsbPdMode (m_tsbpd B) = true → 0 < n →
  let r := live_read now n (m_tsbpd B) w1 in
  ∃ B', readMsg B now n (-1) = Some (r.1.1, B') ∧ rb_holds B' r.2 w2 ∧ m_tsbpd B' = r.1.2 ∧ same_frame B B'.
Proof.
  intros H Ht Hn. unfold readMsg, accessMsg, live_read. rewrite Ht. unfold getRcvReadyMsg. change (-1 =? -1) with true. cbn [mbind option_bind].
  pose proof (rb_room _ _ (rb_all _ _ _ H)) as Hr. rewrite length_app in Hr.
  destruct (ready_loop_run now w2 w1 (fuel B) B 0 0 H) as (B1 & -> & H1 & ET & HF); [unfold fuel, rb_size in *; lia|].
  destruct (next_ready now 0 0 (m_tsbpd B) w1) as [[[[ready t] cur] T] w] eqn:En. cbn [fst snd] in *. cbn [mbind option_bind].
  destruct ready; cbn [negb]; [|by eexists].
  apply next_ready_true in En as (p & w3 & -> & _ & _ & _). destruct (first_cell _ _ _ _ H1) as [_ ->]. cbn [mbind option_bind good m_Packet].
  destruct (extract_first B1 p w3 w2 n H1 Hn) as (B2 & -> & H2 & E2 & HF2). cbn [mbind option_bind].
  eexists. split; [done|]. split; [done|]. split; [by rewrite E2|]. by eapply same_frame_trans.
Qed.

(** ** Skipping, dropping *)

Lemma rb_holds_ext B B' w1 w2 :
  m_pUnit B' = m_pUnit B → m_pUnitQueue B' = m_pUnitQueue B → m_iStartPos B' = m_iStartPos B → m_iLastAckPos B' = m_iLastAckPos B →
  m_iMaxPos B' = m_iMaxPos B → rb_holds B w1 w2 → rb_holds B' w1 w2.
Proof.
  intros E1 E2 E3 E4 E5 [H1 H2 H3]. split; [by apply (rb_cells_ext B)| |by rewrite E5].
  rewrite E4, H2. symmetry. apply at_same; [|done]. unfold rb_size. by rewrite E1.
Qed.
Lemma skipData_run B w1 w2 n :
  rb_holds B w1 w2 → 0 <= n → Z.of_nat (length w1) + n < rb_size B →
  (w1 = [] → Forall (eq None) (take (Z.to_nat n) w2)) →
  let e := w2 ++ replicate (Z.to_nat n - length w2) None in
  rb_holds (skipData B n) (match w1 with [] => [] | _ => w1 ++ take (Z.to_nat n) e end) (drop (Z.to_nat n) w2) ∧
  m_tsbpd (skipData B n) = m_tsbpd B ∧ same_frame B (skipData B n).
Proof.
  intros H Hn Hr Hnone e. split; [|unfold skipData; by case_match].
  destruct (rcv_ackData_run B w1 w2 n H Hn Hr) as (B1 & E & H1 & _). fold e in H1. unfold ackData in E.
  destruct (count_units _ _ _ _ _ _) as [[pkts byts]|]; [|done]. cbn [mbind option_bind] in E. injection E as _ <-.
  assert (rb_holds (set_ackpos (shift B (m_iLastAckPos B) n) (Z.max 0 (m_iMaxPos B - n)) B) (w1 ++ take (Z.to_nat n) e) (drop (Z.to_nat n) w2)) as H2.
  { eapply rb_holds_ext; [| | | | |exact H1]; by case_match. }
  clear H1. destruct w1 as [|c w1].
  - specialize (Hnone eq_refl). unfold skipData. rewrite (no_cell _ _ H). cbn [app] in H2.
    assert (take (Z.to_nat n) e = replicate (Z.to_nat n) None) as Et.
    { symmetry. apply replicate_as_Forall_2; [unfold e; len|]. unfold e. rewrite take_app. apply Forall_app. split; [done|].
      by apply Forall_take, Forall_replicate. }
    rewrite Et in H2. destruct (H2) as [HC Ha Hm]. rewrite length_replicate in Ha. pose proof (rb_in _ _ HC) as Hin.
    apply rb_cells_skip in HC. set (B2 := set_ackpos _ _ B) in *.
    assert (at_ B2 (Z.to_nat n) = Z.rem (m_iStartPos B + n) (rb_size B)) as Es.
    { change (Z.rem (m_iStartPos B + n) (rb_size B)) with (shift B2 (m_iStartPos B2) n). rewrite <- (at_0 B2) by done. by rewrite at_shift. }
    split; [|cbn [length]|done].
    + eapply rb_cells_ext; [| | |exact HC]; [done..|]. cbn [set_start set_ackpos m_iStartPos]. by rewrite Es.
    + cbn [set_ackpos m_iLastAckPos]. rewrite at_0; [|unfold in_ring; cbn; rewrite <- Es; apply (at_bounds B2 _ Hin)].
      cbn [set_ackpos set_start m_iStartPos]. rewrite <- Es. rewrite <- Ha. done.
  - destruct (first_cell _ _ _ _ H) as [E _]. unfold skipData. rewrite E. exact H2.
Qed.

(** What [dropMsg] does to a cell. *)
Definition drop_cell (msgno : Z) (rexmit : bool) (c : option CUnit) : option CUnit :=
  (λ u, if getMsgSeq rexmit (m_Packet u) =? msgno then set_flag DROPPED u else u) <$> c.
Lemma drop_msg_loop_run msgno rexmit w : ∀ pre k B,
  rb_cells B (pre ++ w) → (length w < k)%nat →
  ∃ B', drop_msg_loop k B (at_ B (length pre)) (at_ B (length pre + length w)) msgno rexmit = Some B' ∧
    rb_cells B' (pre ++ (drop_cell msgno rexmit <$> w)) ∧ same_rest B B'.
Proof.
  induction w as [|c w IH]; intros pre k B H Hk; (destruct k as [|k]; [lia|]); cbn [drop_msg_loop length].
  { rewrite Nat.add_0_r, Z.eqb_refl. by exists B. }
  pose proof (rb_in _ _ H) as Hin. pose proof (rb_room _ _ H) as Hr. rewrite length_app in Hr. cbn [length] in Hr, Hk.
  rewrite at_neq by (done || lia). assert ((pre ++ c :: w) !! length pre = Some c) as Hl by (by apply list_lookup_middle).
  rewrite (cell_run _ _ _ H), Hl by lia. cbn [mjoin option_join mbind option_bind].
  assert (∃ B1, match c with
      | Some u => if getMsgSeq rexmit (m_Packet u) =? msgno then flag_at DROPPED B (at_ B (length pre)) else Some B
      | None => Some B
      end = Some B1 ∧ rb_cells B1 (pre ++ drop_cell msgno rexmit c :: w) ∧ same_rest B B1) as (B1 & -> & H1 & HS).
  { destruct c as [u|]; [|by exists B]. cbn [drop_cell fmap option_fmap option_map]. case_match; [|by exists B].
    destruct (flag_at_run DROPPED B _ _ _ H Hl) as (B1 & -> & H1 & HS & _); [done|]. exists B1. split; [done|]. split; [|done].
    rewrite insert_app_r_alt, Nat.sub_diag in H1 by lia. exact H1. }
  cbn [mbind option_bind]. destruct (HS) as (S1 & S2 & _). rewrite (at_next B B1) by done.
  rewrite (app_assoc pre [_] w : pre ++ _ :: w = _) in H1.
  destruct (IH (pre ++ [drop_cell msgno rexmit c]) k B1 H1) as (B2 & E & H2 & HS2); [lia|]. rewrite length_app in E. cbn [length] in E.
  rewrite !(at_same B B1) in E by done. replace (length pre + 1)%nat with (S (length pre)) in E by lia.
  replace (S (length pre) + length w)%nat with (length pre + S (length w))%nat in E by lia. rewrite E. exists B2. split; [done|].
  rewrite <- app_assoc in H2. split; [exact H2|]. by eapply same_rest_trans.
Qed.
Lemma dropMsg_run msgno rexmit B w1 w2 :
  rb_holds B w1 w2 →
  ∃ B', dropMsg B msgno rexmit = Some B' ∧ rb_holds B' (drop_cell msgno rexmit <$> w1) (drop_cell msgno rexmit <$> w2) ∧
    m_tsbpd B' = m_tsbpd B ∧ same_frame B B'.
Proof.
  intros [HC Ha Hm]. pose proof (rb_in _ _ HC) as Hin. pose proof (rb_room _ _ HC) as Hr. unfold dropMsg.
  rewrite Ha, Hm, at_shift by (done || lia). rewrite Nat2Z.id, <- (at_0 B) by done.
  destruct (drop_msg_loop_run msgno rexmit (w1 ++ w2) [] (fuel B) B HC) as (B' & E & HC' & HS); [unfold fuel, rb_size in *; lia|].
  cbn [length plus] in E. rewrite length_app in E. rewrite E. exists B'. split; [done|]. cbn [app] in HC'. rewrite fmap_app in HC'.
  destruct (HS) as (_ & _ & _ & _ & _ & S6 & _). split; [|split; [done|by apply same_rest_frame]].
  apply (same_rest_holds B); [done|done|by rewrite length_fmap|by rewrite length_fmap].
Qed.

(** ** The first packet, acknowledged or not *)

(** Among the cells that wait: whether it can be played, its time, the number to skip
    to when there is a gap before it, its number, and the clock. *)
Fixpoint first_waiting (now : Z) (haslost : bool) (cur : Z) (T : CTsbpdTime) (w : list (option CUnit)) : bool * Z * Z * Z * CTsbpdTime :=
  match w with
  | [] => (false, 0, SRT_SEQNO_NONE, cur, T)
  | c :: w =>
      match c with
      | Some u =>
          if unit_is GOOD u then
            let '(t, T) := play_time (getMsgTimeStamp (m_Packet u)) T in
            let seq := m_iSeqNo (m_Packet u) in
            if t <=? now then (true, t, if haslost then seq else SRT_SEQNO_NONE, seq, T)
            else (false, 0, SRT_SEQNO_NONE, cur, T)
          else first_waiting now true cur T w
      | None => first_waiting now true cur T w
      end
  end.
Lemma first_loop_run now cur w : ∀ pre k B haslost,
  rb_cells B (pre ++ w) → (length w < k)%nat →
  let r := first_waiting now haslost cur (m_tsbpd B) w in
  first_loop k B (at_ B (length pre)) (at_ B (length pre + length w)) now SRT_SEQNO_NONE haslost (-1) 0 SRT_SEQNO_NONE cur
  = Some (r.1.1.1.1, r.1.1.1.2, r.1.1.2, r.1.2, set_tsbpd r.2 B).
Proof.
  induction w as [|c w IH]; intros pre k B haslost H Hk; (destruct k as [|k]; [lia|]); cbn [first_loop first_waiting length].
  { rewrite Nat.add_0_r, Z.eqb_refl. cbn. by destruct B. }
  pose proof (rb_in _ _ H) as Hin. pose proof (rb_room _ _ H) as Hr. rewrite length_app in Hr. cbn [length] in Hr, Hk.
  rewrite at_neq by (done || lia). assert ((pre ++ c :: w) !! length pre = Some c) as Hl by (by apply list_lookup_middle).
  rewrite (cell_run _ _ _ H), Hl by lia. cbn [mjoin option_join mbind option_bind]. rewrite at_succ by done.
  assert (∀ b, let r := first_waiting now b cur (m_tsbpd B) w in
    first_loop k B (at_ B (S (length pre))) (at_ B (length pre + S (length w))) now SRT_SEQNO_NONE b (-1) 0 SRT_SEQNO_NONE cur
    = Some (r.1.1.1.1, r.1.1.1.2, r.1.1.2, r.1.2, set_tsbpd r.2 B)) as Hnext.
  { intros b. rewrite (app_assoc pre [_] w : pre ++ _ :: w = _) in H. specialize (IH (pre ++ [c]) k B b H ltac:(lia)).
    rewrite length_app in IH. cbn [length] in IH. replace (length pre + 1)%nat with (S (length pre)) in IH by lia.
    by replace (S (length pre) + length w)%nat with (length pre + S (length w))%nat in IH by lia. }
  destruct c as [u|]; cbn [good_cell negb]; [|apply Hnext]. destruct (unit_is GOOD u); cbn [negb]; [|apply Hnext].
  cbn [mbind option_bind]. unfold RcvBuf.getPktTsbPdTime. destruct (play_time (getMsgTimeStamp (m_Packet u)) (m_tsbpd B)) as [t T].
  cbn [fst snd]. by destruct (t <=? now).
Qed.

Definition first_msg (now : Z) (T : CTsbpdTime) (w1 w2 : list (option CUnit))
    : (bool * Z * bool * Z * Z) * CTsbpdTime * list (option CUnit) :=
  let '(ready, t, cur, T, w1) := next_ready now 0 0 T w1 in
  if ready : bool then ((true, t, false, SRT_SEQNO_NONE, cur), T, w1)
  else if negb (t =? 0) then ((false, t, false, SRT_SEQNO_NONE, cur), T, w1)
  else let r := first_waiting now false cur T w2 in ((r.1.1.1.1, r.1.1.1.2, true, r.1.1.2, r.1.2), r.2, w1).
Lemma getRcvFirstMsg_run now B w1 w2 :
  rb_holds B w1 w2 →
  let r := first_msg now (m_tsbpd B) w1 w2 in
  ∃ B', getRcvFirstMsg B now SRT_SEQNO_NONE 0 0 = Some (r.1.1, B') ∧ rb_holds B' r.2 w2 ∧ m_tsbpd B' = r.1.2 ∧ same_frame B B'.
Proof.
  intros H. unfold getRcvFirstMsg, first_msg, getRcvReadyMsg. change (-1 =? -1) with true. cbn [mbind option_bind].
  pose proof (rb_room _ _ (rb_all _ _ _ H)) as Hr. rewrite length_app in Hr.
  destruct (ready_loop_run now w2 w1 (fuel B) B 0 0 H) as (B1 & -> & H1 & ET & HF); [unfold fuel, rb_size in *; lia|].
  destruct (next_ready now 0 0 (m_tsbpd B) w1) as [[[[ready t] cur] T] w] eqn:En. cbn [fst snd] in *. cbn [mbind option_bind].
  destruct ready; [by eexists|]. destruct (negb (t =? 0)); [by eexists|].
  destruct (H1) as [HC Ha Hm]. pose proof (rb_in _ _ HC) as Hin. rewrite Ha, Hm, at_shift, Nat2Z.id by (done || lia).
  pose proof (rb_room _ _ HC) as Hr1. rewrite length_app in Hr1.
  pose proof (first_loop_run now cur w2 w (fuel B1) B1 false HC ltac:(unfold fuel, rb_size in *; lia)) as ->. rewrite ET.
  cbn [mbind option_bind]. eexists. split; [done|]. by split; [apply rb_holds_tsbpd|].
Qed.

(** ** A packet comes in *)

(** As [receive] and [processData] do: the result is that of [addData], and [None] is no unit. *)
Definition store (uninit p : CPacket) (offset : Z) (B : CRcvBuffer) : option (option Z * CRcvBuffer) :=
  '(a, Q) ← getNextAvailUnit uninit (m_pUnitQueue B);
  match a with
  | None => Some (None, set_ring (m_pUnit B) Q B)
  | Some a =>
      Q ← upd_unit a (set_packet p) Q;
      '(r, B) ← addData (set_ring (m_pUnit B) Q B) a offset; Some (Some r, B)
  end.
Definition place (size offset : Z) (p : CPacket) (w1 w2 : list (option CUnit)) : Z * list (option CUnit) :=
  if size - Z.of_nat (length w1) - 1 <=? offset then (-1, w2)
  else
    match mjoin (w2 !! Z.to_nat offset) with
    | Some _ => (-1, w2)
    | None => (0, <[Z.to_nat offset := good p]> (reach (Z.to_nat offset) w2))
    end.
Lemma store_run uninit p offset B w1 w2 :
  rb_holds B w1 w2 → uq_ok (m_pUnitQueue B) → 0 <= offset →
  ∃ r B', store uninit p offset B = Some (r, B') ∧ uq_ok (m_pUnitQueue B') ∧ m_tsbpd B' = m_tsbpd B ∧ rb_size B' = rb_size B ∧
    match r with
    | None => rb_holds B' w1 w2
    | Some r => r = (place (rb_size B) offset p w1 w2).1 ∧ rb_holds B' w1 (place (rb_size B) offset p w1 w2).2
    end.
Proof.
  intros H HQ Ho. unfold store, place. destruct (getNextAvailUnit_run uninit _ HQ) as ([i Q] & -> & (HQ' & HK & Hfree)).
  cbn [mbind option_bind fst snd] in *. destruct i as [i|].
  2: { eexists _, _. split; [done|]. split; [done|]. split; [done|]. split; [done|]. destruct H as [H1 H2 H3]. split; [by apply rb_cells_keeps|exact H2|exact H3]. }
  destruct (Hfree i eq_refl) as (u & Eu & Fu). rewrite (upd_unit_run _ _ _ _ Eu). cbn [mbind option_bind]. set (Q1 := set_units _ _ Q).
  assert (keeps_units (m_pUnitQueue B) Q1) as HK1.
  { intros j v Hv Fv. cbn. rewrite list_lookup_insert_ne; [by apply HK|]. intros ->. rewrite (HK _ _ Hv Fv) in Eu. congruence. }
  assert (uq_ok Q1) as HQ1.
  { eapply uq_ok_shape; [|exact HQ']. unfold uq_shape. cbn. by rewrite length_insert. }
  set (B1 := set_ring _ Q1 B). assert (rb_holds B1 w1 w2) as H1 by (destruct H as [A1 A2 A3]; split; [by apply rb_cells_keeps|exact A2|exact A3]).
  pose proof (getAvailBufSize_run _ _ _ H1) as Hav. change (rb_size B1) with (rb_size B) in Hav. rewrite <- Hav.
  destruct (Z.leb_spec (getAvailBufSize B1) offset) as [Hfull|Hroom].
  { exists (Some (-1)), B1. unfold addData. rewrite (proj2 (Z.leb_le _ _)) by done. done. }
  destruct (mjoin (w2 !! Z.to_nat offset)) as [u0|] eqn:Ew.
  - assert (w2 !! Z.to_nat offset = Some (Some u0)) as Ew' by (by destruct (w2 !! Z.to_nat offset) as [[?|]|]; cbn in Ew; simplify_eq).
    rewrite (addData_taken _ _ _ i offset u0 H1) by (done || lia). by exists (Some (-1)), B1.
  - assert (m_units (m_pUnitQueue B1) !! i = Some (set_packet p u)) as Ei by (cbn; apply list_lookup_insert_eq; by eapply lookup_lt_Some).
    destruct (addData_run _ _ _ i offset (set_packet p u) H1) as (B2 & -> & H2 & E1 & E2 & E3 & E4 & _); [lia|done|done|done|].
    cbn [mbind option_bind]. exists (Some 0), B2. split; [done|]. rewrite E4. split; [|done].
    eapply uq_ok_shape; [|exact HQ1]. unfold uq_shape. cbn. by rewrite !length_insert.
Qed.

(** ** Sequences of calls *)

(** The buffer as two lists of cells, the number of the first cell that waits, and the
    clock. *)
Record ring := mkRing { r_acked : list (option CUnit); r_waiting : list (option CUnit); r_next : Z; r_clock : CTsbpdTime }.
Definition ring_holds (size : Z) (B : CRcvBuffer) (A : ring) : Prop :=
  rb_holds B (r_acked A) (r_waiting A) ∧ uq_ok (m_pUnitQueue B) ∧ rb_size B = size ∧ m_tsbpd B = r_clock A.

Inductive ring_op :=
  | RingStore (p : CPacket) (offset : Z)
  | RingAck (n : Z)
  | RingSkip (n : Z)
  | RingDrop (msgno : Z) (rexmit : bool)
  | RingRead (now n : Z)
  | RingFirst (now : Z)
  | RingRoom.
Inductive ring_ans :=
  | AnsStored (r : option Z)
  | AnsAcked (distance : Z)
  | AnsDone
  | AnsRead (r : Z * bytes * Z * option (Z * Z))
  | AnsFirst (r : bool * Z * bool * Z * Z)
  | AnsRoom (n : Z).

Definition ring_step (uninit : CPacket) (op : ring_op) (B : CRcvBuffer) : option (ring_ans * CRcvBuffer) :=
  match op with
  | RingStore p offset => '(r, B) ← store uninit p offset B; Some (AnsStored r, B)
  | RingAck n => '(d, B) ← RcvBuf.ackData B n; Some (AnsAcked d, B)
  | RingSkip n => Some (AnsDone, skipData B n)
  | RingDrop msgno rexmit => B ← dropMsg B msgno rexmit; Some (AnsDone, B)
  | RingRead now n => '(r, B) ← readMsg B now n (-1); Some (AnsRead r, B)
  | RingFirst now => '(r, B) ← getRcvFirstMsg B now SRT_SEQNO_NONE 0 0; Some (AnsFirst r, B)
  | RingRoom => Some (AnsRoom (getAvailBufSize B), B)
  end.
Fixpoint ring_run (uninit : CPacket) (ops : list ring_op) (B : CRcvBuffer) : option (list ring_ans * CRcvBuffer) :=
  match ops with
  | [] => Some ([], B)
  | op :: ops => '(ans, B) ← ring_step uninit op B; '(anss, B) ← ring_run uninit ops B; Some (ans :: anss, B)
  end.

(** What a call does to the lists. *)
Definition upto (n : Z) (w : list (option CUnit)) : list (option CUnit) :=
  take (Z.to_nat n) (w ++ replicate (Z.to_nat n - length w) None).
Definition ring_spec (size : Z) (op : ring_op) (A : ring) : ring_ans * ring :=
  let '(mkRing w1 w2 a T) := A in
  match op with
  | RingStore p offset => let r := place size offset p w1 w2 in (AnsStored (Some r.1), mkRing w1 r.2 a T)
  | RingAck n => (AnsAcked (Z.of_nat (length w1) + n), mkRing (w1 ++ upto n w2) (drop (Z.to_nat n) w2) (a + n) T)
  | RingSkip n => (AnsDone, mkRing (match w1 with [] => [] | _ => w1 ++ upto n w2 end) (drop (Z.to_nat n) w2) (a + n) T)
  | RingDrop msgno rexmit => (AnsDone, mkRing (drop_cell msgno rexmit <$> w1) (drop_cell msgno rexmit <$> w2) a T)
  | RingRead now n => let r := live_read now n T w1 in (AnsRead r.1.1, mkRing r.2 w2 a r.1.2)
  | RingFirst now => let r := first_msg now T w1 w2 in (AnsFirst r.1.1, mkRing r.2 w2 a r.1.2)
  | RingRoom => (AnsRoom (size - Z.of_nat (length w1) - 1), A)
  end.
(** When there is no unit, nothing happens. *)
Fixpoint ring_agrees (size : Z) (ops : list ring_op) (anss : list ring_ans) (A A' : ring) : Prop :=
  match ops, anss with
  | [], [] => A' = A
  | op :: ops, ans :: anss =>
      ((∃ p offset, op = RingStore p offset) ∧ ans = AnsStored None ∧ ring_agrees size ops anss A A') ∨
      (ans = (ring_spec size op A).1 ∧ ring_agrees size ops anss (ring_spec size op A).2 A')
  | _, _ => False
  end.
(** What the callers keep to: a packet goes to the offset of its number, no more is
    acknowledged or skipped than the ring has cells, and what is skipped when there is
    nothing to read is empty. *)
Definition ring_valid (size : Z) (A : ring) (op : ring_op) : bool :=
  match op with
  | RingStore p offset => (0 <=? offset) && (m_iSeqNo p =? seqno (r_next A + offset))
  | RingAck n => (0 <=? n) && (Z.of_nat (length (r_acked A)) + n <? size)
  | RingSkip n => (0 <=? n) && (Z.of_nat (length (r_acked A)) + n <? size) &&
      (negb (bool_decide (length (r_acked A) = 0%nat)) ||
       forallb (λ c, match c with Some _ => false | None => true end) (take (Z.to_nat n) (r_waiting A)))
  | RingRead _ n => 0 <? n
  | _ => true
  end.
Fixpoint ring_ok (size : Z) (A : ring) (ops : list ring_op) : bool :=
  match ops with
  | [] => true
  | op :: ops =>
      ring_valid size A op && ring_ok size (ring_spec size op A).2 ops &&
      match op with RingStore _ _ => ring_ok size A ops | _ => true end
  end.

Lemma next_mode now w time cur T : m_bTsbPdMode (next_ready now time cur T w).1.2 = m_bTsbPdMode T.
Proof.
  revert time cur T. induction w as [|[u|] w IH]; intros time cur T; cbn [next_ready]; [done| |apply IH].
  destruct (negb _); [apply IH|]. destruct (play_time _ T) as [t T'] eqn:E. pose proof (play_mode (getMsgTimeStamp (m_Packet u)) T) as Em.
  rewrite E in Em. cbn [snd] in Em. destruct (now <? t); [done|]. destruct (_ =? _); [done|]. by rewrite IH.
Qed.
Lemma waiting_mode now w b cur T : m_bTsbPdMode (first_waiting now b cur T w).2 = m_bTsbPdMode T.
Proof.
  revert b. induction w as [|[u|] w IH]; intros b; cbn [first_waiting]; [done| |apply IH]. destruct (unit_is GOOD u); [|apply IH].
  destruct (play_time _ T) as [t T'] eqn:E. pose proof (play_mode (getMsgTimeStamp (m_Packet u)) T) as Em. rewrite E in Em. by destruct (t <=? now).
Qed.
Lemma ring_mode size op A : m_bTsbPdMode (r_clock (ring_spec size op A).2) = m_bTsbPdMode (r_clock A).
Proof.
  destruct A as [w1 w2 a T], op as [p o|n|n|m r|now n|now|]; cbn [ring_spec snd r_clock]; try done.
  - unfold live_read. pose proof (next_mode now w1 0 0 T) as E. destruct (next_ready _ _ _ _ _) as [[[[[|] t] c] T'] [|[u|] w]]; exact E.
  - unfold first_msg. pose proof (next_mode now w1 0 0 T) as E. destruct (next_ready _ _ _ _ _) as [[[[ready t] c] T'] w].
    destruct ready; [exact E|]. destruct (negb _); [exact E|]. cbn [fst snd r_clock]. by rewrite waiting_mode.
Qed.

Lemma ring_step_run uninit size op B A :
  ring_holds size B A → m_bTsbPdMode (r_clock A) = true → ring_valid size A op = true →
  ∃ ans B', ring_step uninit op B = Some (ans, B') ∧
    (((∃ p offset, op = RingStore p offset) ∧ ans = AnsStored None ∧ ring_holds size B' A) ∨
     (ans = (ring_spec size op A).1 ∧ ring_holds size B' (ring_spec size op A).2)).
Proof.
  intros (H & HQ & Hs & HT) Ht Hv. destruct A as [w1 w2 a T]. cbn [r_acked r_waiting r_next r_clock ring_valid] in *.
  assert (∀ B' w1' w2' a' T', rb_holds B' w1' w2' → m_tsbpd B' = T' → same_frame B B' → ring_holds size B' (mkRing w1' w2' a' T')) as Hring.
  { intros B' w1' w2' a' T' H' HT' (F1 & _ & F3). split; [done|]. split; [by eapply uq_ok_shape|]. split; [congruence|done]. }
  destruct op as [p o|n|n|m r|now n|now|]; cbn [ring_step ring_spec ring_valid r_acked r_waiting r_next] in *.
  - destruct (store_run uninit p o B w1 w2 H HQ ltac:(lia)) as (r & B' & -> & HQ' & HT' & Hs' & Hr). cbn [mbind option_bind].
    eexists _, B'. split; [done|]. destruct r as [r|]; [right|left].
    + rewrite Hs in Hr. destruct Hr as [-> Hr]. split; [done|]. split; [done|]. split; [done|]. cbn. split; congruence.
    + split; [by eexists _, _|]. split; [done|]. split; [done|]. split; [done|]. cbn. split; congruence.
  - destruct (rcv_ackData_run B w1 w2 n H ltac:(lia) ltac:(lia)) as (B' & -> & H' & E1 & E2 & E3 & E4). cbn [mbind option_bind].
    eexists _, B'. split; [done|]. right. split; [done|]. apply Hring; [done|congruence|]. split; [done|]. split; [done|by rewrite E4].
  - eexists _, _. split; [done|]. right. split; [done|]. destruct (skipData_run B w1 w2 n H) as (H' & E1 & HF); [lia|lia| |].
    { intros ->. rewrite bool_decide_true in Hv by done. apply andb_true_iff in Hv as [_ Hv]. cbn [negb orb] in Hv. apply Forall_forall.
      intros c Hc. apply list_elem_of_In in Hc. pose proof (proj1 (forallb_forall _ _) Hv c Hc). by destruct c. }
    apply Hring; [exact H'|congruence|done].
  - destruct (dropMsg_run m r B w1 w2 H) as (B' & -> & H' & E1 & HF). cbn [mbind option_bind]. eexists _, B'. split; [done|].
    right. split; [done|]. apply Hring; [done|congruence|done].
  - destruct (readMsg_live now n B w1 w2 H) as (B' & -> & H' & E1 & HF); [congruence|lia|]. rewrite HT in *. cbn [mbind option_bind].
    eexists _, B'. split; [done|]. right. split; [done|]. by apply Hring.
  - destruct (getRcvFirstMsg_run now B w1 w2 H) as (B' & -> & H' & E1 & HF). rewrite HT in *. cbn [mbind option_bind].
    eexists _, B'. split; [done|]. right. split; [done|]. by apply Hring.
  - eexists _, B. split; [done|]. right. rewrite (getAvailBufSize_run _ _ _ H), Hs. split; [done|]. by apply Hring.
Qed.

Lemma ring_steps uninit size ops B A :
  ring_holds size B A → m_bTsbPdMode (r_clock A) = true → ring_ok size A ops = true →
  ∃ anss B' A', ring_run uninit ops B = Some (anss, B') ∧ ring_agrees size ops anss A A' ∧ ring_holds size B' A'.
Proof.
  revert B A. induction ops as [|op ops IH]; intros B A H Ht Hok; [by exists [], B, A|]. cbn [ring_ok] in Hok.
  apply andb_true_iff in Hok as [[Hv Hok]%andb_true_iff Hno]. cbn [ring_run].
  destruct (ring_step_run uninit size op B A H Ht Hv) as (ans & B1 & -> & [((p & o & ->) & -> & H1)|(-> & H1)]); cbn [mbind option_bind].
  - destruct (IH _ _ H1 Ht Hno) as (anss & B2 & A2 & -> & Hag & H2). cbn [mbind option_bind]. eexists _, B2, A2. split; [done|].
    split; [|done]. left. split; [by eexists _, _|done].
  - destruct (IH _ _ H1) as (anss & B2 & A2 & -> & Hag & H2); [by rewrite ring_mode|done|]. cbn [mbind option_bind].
    eexists _, B2, A2. split; [done|]. split; [by right|done].
Qed.

(** ** What is read *)

(** The cells from the number [x] on hold packets of [ps], each at its number. *)
Definition cells_ok (ps : list CPacket) (x : Z) (w : list (option CUnit)) : Prop :=
  ∀ i u, w !! i = Some (Some u) → m_iSeqNo (m_Packet u) = seqno (x + Z.of_nat i) ∧ m_Packet u ∈ ps.
Lemma cells_ok_app ps x w1 w2 : cells_ok ps x (w1 ++ w2) ↔ cells_ok ps x w1 ∧ cells_ok ps (x + Z.of_nat (length w1)) w2.
Proof.
  split.
  - intros H. split; intros i u Hu; [apply (H i); by apply lookup_app_l_Some|].
    replace (x + Z.of_nat (length w1) + Z.of_nat i) with (x + Z.of_nat (length w1 + i)) by lia. apply H.
    rewrite lookup_app_r by lia. by replace (length w1 + i - length w1)%nat with i by lia.
  - intros [H1 H2] i u [Hu|[Hi Hu]]%lookup_app_Some; [by apply H1|].
    replace (x + Z.of_nat i) with (x + Z.of_nat (length w1) + Z.of_nat (i - length w1)) by lia. by apply H2.
Qed.
Lemma cells_ok_more ps qs x w : cells_ok ps x w → cells_ok (qs ++ ps) x w.
Proof. intros H i u Hu. destruct (H i u Hu). split; [done|]. apply elem_of_app. by right. Qed.
Lemma cells_ok_None ps x n : cells_ok ps x (replicate n None).
Proof. intros i u [? _]%lookup_replicate. done. Qed.
Lemma cells_ok_drop ps x w msgno rexmit : cells_ok ps x w → cells_ok ps x (drop_cell msgno rexmit <$> w).
Proof.
  intros H i u Hu. rewrite list_lookup_fmap in Hu. destruct (w !! i) as [[v|]|] eqn:E; [|done..]. destruct (H i v E) as [E1 E2].
  cbn in Hu. by destruct (getMsgSeq rexmit (m_Packet v) =? msgno); injection Hu as <-.
Qed.
Lemma next_suffix now w time cur T : ∃ dn, w = dn ++ (next_ready now time cur T w).2.
Proof.
  revert time cur T. induction w as [|[u|] w IH]; intros time cur T; cbn [next_ready]; [by exists []| |].
  - assert (∀ time cur T, ∃ dn, Some u :: w = dn ++ (next_ready now time cur T w).2) as Hs.
    { intros a b c. destruct (IH a b c) as (dn & E). exists (Some u :: dn). cbn [app]. by rewrite <- E. }
    destruct (negb _); [apply Hs|]. destruct (play_time _ T) as [t T']. destruct (now <? t); [by exists []|].
    destruct (_ =? _); [by exists []|apply Hs].
  - destruct (IH time cur T) as (dn & E). exists (None :: dn). cbn [app]. by rewrite <- E.
Qed.

Definition first_number (A : ring) : Z := r_next A - Z.of_nat (length (r_acked A)).
Definition ring_inv (ps : list CPacket) (A : ring) : Prop := cells_ok ps (first_number A) (r_acked A ++ r_waiting A).
Definition stored_packets (op : ring_op) : list CPacket := match op with RingStore p _ => [p] | _ => [] end.

(** What was read: the clock, the time to play, the number and the data. *)
Record delivery := mkDelivery { dl_now : Z; dl_time : Z; dl_seq : Z; dl_room : Z; dl_data : bytes }.
Definition delivered_by (op : ring_op) (ans : ring_ans) : option delivery :=
  match op, ans with
  | RingRead now n, AnsRead (_, data, t, Some (seq, _)) => Some (mkDelivery now t seq n data)
  | _, _ => None
  end.
Definition delivered (ops : list ring_op) (anss : list ring_ans) : list delivery :=
  omap (λ x, x) (zip_with delivered_by ops anss).
(** Packet [x], one of [ps] and in the clear, at or after its time. *)
Definition delivers (ps : list CPacket) (x : Z) (d : delivery) : Prop :=
  dl_time d <= dl_now d ∧ dl_seq d = seqno x ∧
  ∃ p, p ∈ ps ∧ m_iSeqNo p = seqno x ∧ getMsgCryptoFlags p = EK_NOENC ∧ dl_data d = take (Z.to_nat (dl_room d)) (m_pcData p).
Lemma delivers_more ps qs x d : delivers ps x d → delivers (qs ++ ps) x d.
Proof. intros (H1 & H2 & p & Hp & H). split; [done|]. split; [done|]. exists p. split; [apply elem_of_app; by right|done]. Qed.

Lemma ring_inv_suffix ps w1 w2 a T dn w T' :
  ring_inv ps (mkRing w1 w2 a T) → w1 = dn ++ w → ring_inv ps (mkRing w w2 a T') ∧
  first_number (mkRing w w2 a T') = first_number (mkRing w1 w2 a T) + Z.of_nat (length dn).
Proof.
  intros H ->. unfold ring_inv, first_number in *. cbn [r_acked r_waiting r_next] in *. rewrite <- app_assoc in H.
  apply cells_ok_app in H as [_ H]. rewrite length_app in *. split; [|lia].
  by replace (a - Z.of_nat (length w)) with (a - Z.of_nat (length dn + length w) + Z.of_nat (length dn)) by lia.
Qed.
Lemma ring_inv_step size ps op A :
  ring_inv ps A → ring_valid size A op = true →
  let r := ring_spec size op A in
  ring_inv (stored_packets op ++ ps) r.2 ∧ first_number A <= first_number r.2 ∧
  ∀ d, delivered_by op r.1 = Some d → ∃ x, first_number A <= x < first_number r.2 ∧ delivers ps x d.
Proof.
  intros H Hv. destruct A as [w1 w2 a T]. cbv zeta.
  assert (∀ n, 0 <= n → length (upto n w2) = Z.to_nat n ∧ upto n w2 ++ drop (Z.to_nat n) w2 = w2 ++ replicate (Z.to_nat n - length w2) None) as Hupto.
  { intros n Hn. unfold upto. split; [len|]. destruct (decide (length w2 <= Z.to_nat n)%nat).
    - rewrite (drop_ge w2), app_nil_r, take_ge by len. done.
    - replace (Z.to_nat n - length w2)%nat with 0%nat by lia. cbn [replicate]. by rewrite app_nil_r, take_drop. }
  assert (∀ n, 0 <= n → ring_inv ps (mkRing (w1 ++ upto n w2) (drop (Z.to_nat n) w2) (a + n) T) ∧
    first_number (mkRing (w1 ++ upto n w2) (drop (Z.to_nat n) w2) (a + n) T) = first_number (mkRing w1 w2 a T)) as Hack.
  { intros n Hn. destruct (Hupto n Hn) as [E1 E2]. assert (first_number (mkRing (w1 ++ upto n w2) (drop (Z.to_nat n) w2) (a + n) T) = first_number (mkRing w1 w2 a T)) as E.
    { unfold first_number. cbn [r_acked r_next]. rewrite length_app, E1. lia. }
    split; [|done]. unfold ring_inv. rewrite E. cbn [r_acked r_waiting]. rewrite <- app_assoc, E2, app_assoc. apply cells_ok_app. split; [exact H|apply cells_ok_None]. }
  destruct op as [p o|n|n|m r|now n|now|]; cbn [ring_spec ring_valid stored_packets app fst snd r_acked r_waiting r_next] in *.
  - split; [|split; [unfold first_number; cbn; lia|done]]. unfold place. case_match; cbn [snd]; [by apply (cells_ok_more ps [p])|].
    case_match; cbn [snd]; [by apply (cells_ok_more ps [p])|]. unfold ring_inv, first_number in *. cbn [r_acked r_waiting r_next] in *.
    apply cells_ok_app in H as [Ha H2]. apply cells_ok_app. split; [by apply (cells_ok_more ps [p])|].
    intros i u [(<- & [= <-] & _)|[_ Hu]]%list_lookup_insert_Some.
    + split; [|left]. cbn [m_Packet]. apply andb_true_iff in Hv as [? Hv%Z.eqb_eq]. rewrite Hv. f_equal. lia.
    + unfold reach in Hu. apply lookup_app_Some in Hu as [Hu|[_ Hu]]; [|by apply lookup_replicate in Hu as [? _]].
      destruct (H2 i u Hu). split; [done|]. by right.
  - destruct (Hack n ltac:(lia)) as [H1 H2]. rewrite H2. split; [done|]. split; [lia|done].
  - destruct w1 as [|c w1].
    + split; [|split; [unfold first_number; cbn; lia|done]]. unfold ring_inv, first_number in *. cbn [r_acked r_waiting r_next length app] in *.
      destruct (decide (Z.to_nat n <= length w2)%nat) as [Hle|Hgt].
      * rewrite <- (take_drop (Z.to_nat n) w2) in H. apply cells_ok_app in H as [_ H]. rewrite length_take in H.
        by replace (a + n - Z.of_nat 0) with (a - Z.of_nat 0 + Z.of_nat (Z.to_nat n `min` length w2)) by lia.
      * rewrite drop_ge by lia. intros i u Hu. by rewrite lookup_nil in Hu.
    + destruct (Hack n ltac:(lia)) as [H1 H2]. rewrite H2. split; [done|]. split; [lia|done].
  - unfold ring_inv, first_number in *. cbn [r_acked r_waiting r_next]. rewrite length_fmap, <- fmap_app. split; [by apply cells_ok_drop|]. by split.
  - pose proof (next_suffix now w1 0 0 T) as (dn & Ed). unfold live_read.
    destruct (next_ready now 0 0 T w1) as [[[[ready t] seq] T'] w] eqn:En. cbn [snd] in Ed.
    destruct (ring_inv_suffix ps w1 w2 a T dn w T' H Ed) as [H1 H2].
    destruct ready; [|split; [exact H1|]; cbn [fst snd]; rewrite H2; split; [lia|done]].
    apply next_ready_true in En as (p & w3 & -> & <- & Hcl & Ht). cbn [good fst snd m_Packet].
    destruct (ring_inv_suffix ps w1 w2 a T (dn ++ [good p]) w3 T' H) as [H3 H4]; [by rewrite <- app_assoc|].
    rewrite length_app in H4. cbn [length] in H4. split; [exact H3|]. rewrite H4. split; [lia|]. intros d [= <-].
    exists (first_number (mkRing w1 w2 a T) + Z.of_nat (length dn)). split; [lia|]. split; [done|].
    unfold ring_inv in H. cbn [r_acked r_waiting] in H. rewrite Ed in H at 2. rewrite <- app_assoc in H. apply cells_ok_app in H as [_ H].
    destruct (H 0%nat (mkUnit p GOOD) eq_refl) as [E1 E2]. rewrite Z.add_0_r in E1. cbn [m_Packet dl_seq] in *. split; [done|]. by exists p.
  - pose proof (next_suffix now w1 0 0 T) as (dn & Ed). unfold first_msg.
    destruct (next_ready now 0 0 T w1) as [[[[ready t] seq] T'] w]. cbn [snd] in Ed.
    assert (∀ T2, ring_inv ps (mkRing w w2 a T2) ∧ first_number (mkRing w1 w2 a T) <= first_number (mkRing w w2 a T2)) as Hw.
    { intros T2. destruct (ring_inv_suffix ps w1 w2 a T dn w T2 H Ed) as [? E]. split; [done|]. rewrite E. lia. }
    destruct ready; [|destruct (negb _)]; cbn [fst snd]; (split; [apply Hw|split; [apply Hw|done]]).
  - split; [exact H|]. split; [lia|done].
Qed.
Lemma ring_order size ops : ∀ anss A A' ps,
  ring_agrees size ops anss A A' → ring_ok size A ops = true → ring_inv ps A →
  ∃ xs, StronglySorted Z.lt xs ∧ Forall (λ x, first_number A <= x) xs ∧
    Forall2 (delivers (concat (reverse (stored_packets <$> ops)) ++ ps)) xs (delivered ops anss).
Proof.
  induction ops as [|op ops IH]; intros [|ans anss] A A' ps Hag Hok H; cbn [ring_agrees] in Hag; try done.
  { exists []. split; [constructor|]. split; constructor. }
  cbn [ring_ok] in Hok. apply andb_true_iff in Hok as [[Hv Hok]%andb_true_iff Hno].
  assert (∀ xs qs ds, Forall2 (delivers (concat (reverse (stored_packets <$> ops)) ++ qs)) xs ds →
    qs = ps ∨ qs = stored_packets op ++ ps → Forall2 (delivers (concat (reverse (stored_packets <$> op :: ops)) ++ ps)) xs ds) as Hmore.
  { intros xs qs ds HF Hqs. eapply Forall2_impl; [exact HF|]. intros x d (H1 & H2 & p & Hp & H3). split; [done|]. split; [done|]. exists p. split; [|done].
    rewrite fmap_cons, reverse_cons, concat_app. cbn [concat]. rewrite app_nil_r, !elem_of_app in *. destruct Hqs as [->| ->]; [tauto|].
    rewrite elem_of_app in Hp. tauto. }
  destruct Hag as [((p & o & ->) & -> & Hag)|[-> Hag]].
  - destruct (IH anss A A' ps Hag Hno H) as (xs & H1 & H2 & H3). exists xs. split; [done|]. split; [done|]. apply (Hmore _ ps); [exact H3|by left].
  - destruct (ring_inv_step size ps op A H Hv) as (Hi & Hle & Hd). cbv zeta in *.
    destruct (IH anss _ A' _ Hag Hok Hi) as (xs & H1 & H2 & H3).
    assert (Forall (λ x, first_number A <= x) xs) as H2' by (eapply Forall_impl; [exact H2|cbn; lia]).
    assert (delivered (op :: ops) ((ring_spec size op A).1 :: anss) =
      match delivered_by op (ring_spec size op A).1 with Some d => d :: delivered ops anss | None => delivered ops anss end) as -> by done.
    destruct (delivered_by op (ring_spec size op A).1) as [d|] eqn:Ed.
    + destruct (Hd d eq_refl) as (x & Hx & Hdx). exists (x :: xs). split; [|split].
      * constructor; [done|]. eapply Forall_impl; [exact H2|cbn; lia].
      * constructor; [lia|done].
      * constructor; [|apply (Hmore _ (stored_packets op ++ ps)); [done|by right]]. by apply delivers_more.
    + exists xs. split; [done|]. split; [done|]. apply (Hmore _ (stored_packets op ++ ps)); [done|by right].
Qed.
