(* ===== verification/RcvPath.v ===== *)
(** * The data path of the receiver (srtcore/core.cpp, queue.cpp)

    From a packet that comes in to its unit, the buffer and the loss list, the
    acknowledgements that go out, and the thread that gives up what is too late.  The
    state is the fields of [CUDT] that this touches; the lists of losses and the
    reports are those of [LossReport].  The locks make each function one step. *)
From S2P Require Import Prelude SeqNo LossRing RcvLoss RcvLossFacts SndLoss LossReport LossSend SndBuf SndPath TsbPd RcvBuf.

Record CUDT_rpath := {
  d_rcv : CUDT_rcv; m_pRcvBuffer : CRcvBuffer; m_iRcvLastSkipAck : Z; m_iRcvLastAck : Z; m_iRcvLastAckAck : Z;
  m_iAckSeqNo : Z; m_tsLastAckTime : Z }.
Definition set_rcv (r : CUDT_rcv) (R : CUDT_rpath) : CUDT_rpath :=
  {| d_rcv := r; m_pRcvBuffer := m_pRcvBuffer R; m_iRcvLastSkipAck := m_iRcvLastSkipAck R; m_iRcvLastAck := m_iRcvLastAck R;
     m_iRcvLastAckAck := m_iRcvLastAckAck R; m_iAckSeqNo := m_iAckSeqNo R; m_tsLastAckTime := m_tsLastAckTime R |}.
Definition set_buffer (B : CRcvBuffer) (R : CUDT_rpath) : CUDT_rpath :=
  {| d_rcv := d_rcv R; m_pRcvBuffer := B; m_iRcvLastSkipAck := m_iRcvLastSkipAck R; m_iRcvLastAck := m_iRcvLastAck R;
     m_iRcvLastAckAck := m_iRcvLastAckAck R; m_iAckSeqNo := m_iAckSeqNo R; m_tsLastAckTime := m_tsLastAckTime R |}.
Definition set_acks (skip last lastack : Z) (R : CUDT_rpath) : CUDT_rpath :=
  {| d_rcv := d_rcv R; m_pRcvBuffer := m_pRcvBuffer R; m_iRcvLastSkipAck := skip; m_iRcvLastAck := last;
     m_iRcvLastAckAck := lastack; m_iAckSeqNo := m_iAckSeqNo R; m_tsLastAckTime := m_tsLastAckTime R |}.
Definition set_journal (seq time : Z) (R : CUDT_rpath) : CUDT_rpath :=
  {| d_rcv := d_rcv R; m_pRcvBuffer := m_pRcvBuffer R; m_iRcvLastSkipAck := m_iRcvLastSkipAck R; m_iRcvLastAck := m_iRcvLastAck R;
     m_iRcvLastAckAck := m_iRcvLastAckAck R; m_iAckSeqNo := seq; m_tsLastAckTime := time |}.

(** [setInitialRcvSeq] (core.h). *)
Definition setInitialRcvSeq (isn : Z) (R : CUDT_rpath) : CUDT_rpath :=
  set_acks isn isn isn (set_rcv (with_currseq (decseq isn) (d_rcv R)) R).

(** What the connection agreed on, and its settings. *)
Record rcv_config := {
  m_bTsbPd : bool; m_bTLPktDrop : bool; m_uPeerSrtVersion : Z; m_tdACKInterval : Z; m_iMaxSRTPayloadSize : Z }.

(** ** A packet comes in *)

(** The number and the flag that the detection of losses looks at. *)
Definition loss_view (p : CPacket) : LossReport.CPacket :=
  {| LossReport.m_iSeqNo := m_iSeqNo p; LossReport.getRexmitFlag := getRexmitFlag p |}.
(** A decrypted packet: [setMsgCryptoFlags(EK_NOENC)], and its data. *)
Definition clear_packet (data : bytes) (p : CPacket) : CPacket :=
  {| m_iSeqNo := m_iSeqNo p; m_iMsgNo := Z.land (m_iMsgNo p) (Z.lnot MSGNO_ENCKEYSPEC_mask); m_iTimeStamp := m_iTimeStamp p;
     m_iID := m_iID p; m_pcData := data |}.

(** What becomes of a packet.  [NoUnit]: there is no unit and it is thrown away;
    [Belated]: its position was acknowledged; [NoRoom]; [Discrepancy]: there is no
    room and the buffer is empty, and the connection is closed. *)
Inductive arrived := NoUnit | Belated | NoRoom | Discrepancy | Processed (o : adding) (reports : list (list Z)).

Section receive.
(** The packets of new units, and the cipher: the clear data, or a failure. *)
Context (uninit : CPacket) (decrypt : CPacket → option bytes).

(** [processData], from the lock of the buffer on, without a packet filter: the packet
    is in unit [a] of the queue. *)
Definition processData (C : rcv_config) (a : nat) (now : Z) (R : CUDT_rpath) : option (arrived * CUDT_rpath) :=
  u ← m_units (m_pUnitQueue (m_pRcvBuffer R)) !! a;
  let p := m_Packet u in
  let offset := seqoff (m_iRcvLastSkipAck R) (m_iSeqNo p) in
  if offset <? 0 then
    Some (Belated, set_buffer (getPktTsbPdTime (m_pRcvBuffer R) (getMsgTimeStamp p)).2 R)
  else if getAvailBufSize (m_pRcvBuffer R) <=? offset then
    Some (if m_bTsbPd C && m_bTLPktDrop C && rb_empty (m_pRcvBuffer R) then Discrepancy else NoRoom, R)
  else
    '(r, B) ← addData (m_pRcvBuffer R) a offset;
    '(o, B) ←
      (if r <? 0 then Some (REDUNDANT, B)
       else if getMsgCryptoFlags p =? EK_NOENC then Some (ADDED, B)
       else
         match decrypt p with
         | None => Some (UNDECRYPTED, B)
         | Some data =>
             Q ← upd_unit a (set_packet (clear_packet data p)) (m_pUnitQueue B); Some (ADDED, set_ring (m_pUnit B) Q B)
         end);
    '(rcv, reports) ← process_packet (d_rcv R) (loss_view p) o now;
    Some (Processed o reports, set_rcv rcv (set_buffer B R)).

(** [worker_RetrieveUnit], and the packet goes to [processData]. *)
Definition receive (C : rcv_config) (p : CPacket) (now : Z) (R : CUDT_rpath) : option (arrived * CUDT_rpath) :=
  let B := m_pRcvBuffer R in
  '(a, Q) ← getNextAvailUnit uninit (m_pUnitQueue B);
  match a with
  | None => Some (NoUnit, set_buffer (set_ring (m_pUnit B) Q B) R)
  | Some a => Q ← upd_unit a (set_packet p) Q; processData C a now (set_buffer (set_ring (m_pUnit B) Q B) R)
  end.
End receive.

(** ** Acknowledgements *)

(** The first number that can be read. *)
Definition ackDataUpTo (ack : Z) (R : CUDT_rpath) : option (Z * CUDT_rpath) :=
  let acksize := seqoff (m_iRcvLastSkipAck R) ack in
  let R := set_acks ack ack (m_iRcvLastAckAck R) R in
  if 0 <? acksize then
    '(distance, B) ← RcvBuf.ackData (m_pRcvBuffer R) acksize; Some (decseq_by ack distance, set_buffer B R)
  else
    let distance := getRcvDataSize (m_pRcvBuffer R) in
    Some (if 0 <? distance then decseq_by ack distance else ack, R).

(** What the measurements say when an ACK is sent. *)
Record ack_measures := { k_rtt : Z; k_rttvar : Z; k_rcvSpeed : Z; k_bandwidth : Z; k_rcvRate : Z }.
Definition m_iMaxAckSeqNo : Z := 0x7FFFFFFF.
Definition incack (ackno : Z) : Z := if ackno =? m_iMaxAckSeqNo then 0 else ackno + 1.
Definition SrtVersion (major minor patch : Z) : Z := patch + minor * 0x100 + major * 0x10000.
(** The words of a full ACK, and the time of the last one. *)
Definition ack_words (C : rcv_config) (M : ack_measures) (now : Z) (R : CUDT_rpath) : list Z * Z :=
  let left := Z.max 2 (getAvailBufSize (m_pRcvBuffer R)) in
  let small := [m_iRcvLastAck R; k_rtt M; k_rttvar M; left] in
  if m_tdACKInterval C <? now - m_tsLastAckTime R then
    (small ++ [k_rcvSpeed M; k_bandwidth M]
       ++ (if m_uPeerSrtVersion C =? SrtVersion 1 0 2 then [k_rcvRate M; i32 (k_bandwidth M * m_iMaxSRTPayloadSize C)]
           else if SrtVersion 1 0 3 <=? m_uPeerSrtVersion C then [k_rcvRate M] else []), now)
  else (small, m_tsLastAckTime R).
(** What is sent: nothing, the number alone, or the words with a number of their own. *)
Inductive ack_sent := NoAck | LiteAck (ack : Z) | FullAck (ackseqno : Z) (words : list Z).
Definition send_full_ack (C : rcv_config) (M : ack_measures) (now : Z) (R : CUDT_rpath) : ack_sent * CUDT_rpath :=
  if 0 <? seqcmp (m_iRcvLastAck R) (m_iRcvLastAckAck R) then
    let seq := incack (m_iAckSeqNo R) in
    let '(words, time) := ack_words C M now R in
    (FullAck seq words, set_journal seq time R)
  else (NoAck, R).
Definition sendCtrlAck (C : rcv_config) (M : ack_measures) (lite : bool) (now : Z) (R : CUDT_rpath) : option (ack_sent * CUDT_rpath) :=
  ack ← ack_number (d_rcv R);
  if m_iRcvLastAckAck R =? ack then Some (NoAck, R)
  else if lite then Some (LiteAck ack, R)
  else if 0 <? seqcmp ack (m_iRcvLastAck R) then
    '(_, R) ← ackDataUpTo ack R; Some (send_full_ack C M now R)
  else if ack =? m_iRcvLastAck R then
    if now - m_tsLastAckTime R <? k_rtt M + 4 * k_rttvar M then Some (NoAck, R) else Some (send_full_ack C M now R)
  else Some (NoAck, R).
(** The end of [processCtrlAckAck]: the sender has seen the ACK of [ack]. *)
Definition ack_confirmed (ack : Z) (R : CUDT_rpath) : CUDT_rpath :=
  if 0 <? seqcmp ack (m_iRcvLastAckAck R) then set_acks (m_iRcvLastSkipAck R) (m_iRcvLastAck R) ack R else R.

(** ** Giving up *)

(** [processCtrlDropReq]: the sender gives up a message. *)
Definition processCtrlDropReq (msgno lo hi : Z) (R : CUDT_rpath) : option CUDT_rpath :=
  B ← dropMsg (m_pRcvBuffer R) msgno (LossReport.m_bPeerRexmitFlag (d_rcv R));
  rcv ← dropFromLossLists (d_rcv R) lo hi;
  let curr := m_iRcvCurrSeqNo rcv in
  let rcv := if (seqcmp lo (incseq curr) <=? 0) && (0 <? seqcmp hi curr) then with_currseq hi rcv else rcv in
  Some (set_rcv rcv (set_buffer B R)).

(** One round of [tsbpd]: whether a packet can be read, and the time to wait for (0:
    until something happens). *)
Definition tsbpd_round (C : rcv_config) (now : Z) (R : CUDT_rpath) : option (bool * Z * CUDT_rpath) :=
  '(rxready, time, R) ←
    (if m_bTLPktDrop C then
       '(rxready, time, passack, skipto, _, B) ← getRcvFirstMsg (m_pRcvBuffer R) now SRT_SEQNO_NONE 0 0;
       let R := set_buffer B R in
       if rxready : bool then
         let seqlen := seqoff (m_iRcvLastSkipAck R) skipto in
         if negb (skipto =? SRT_SEQNO_NONE) && (0 <? seqlen) then
           rcv ← dropFromLossLists (d_rcv R) (m_iRcvLastSkipAck R) (decseq skipto);
           Some (false, 0, set_acks skipto (m_iRcvLastAck R) (m_iRcvLastAckAck R)
             (set_buffer (skipData (m_pRcvBuffer R) seqlen) (set_rcv rcv R)))
         else if passack : bool then Some (false, 0, R)
         else Some (true, time, R)
       else Some (false, time, R)
     else
       '(rxready, time, _, B) ← isRcvDataReady (m_pRcvBuffer R) now (-1) 0;
       Some (rxready, time, set_buffer B R));
  Some (rxready, if rxready : bool then 0 else time, R).

(** ** The calls, one step each *)

Inductive rcv_op :=
  | Arrive (p : CPacket) (now : Z)
  | Ack (M : ack_measures) (lite : bool) (now : Z)
  | Confirm (ack : Z)
  | Read (now n : Z)
  | ReadMsg (now n : Z).
Inductive rcv_out :=
  | Arrived (p : CPacket) (r : arrived)
  | Acked (s : ack_sent)
  | Confirmed
  | Bytes (data : bytes)
  | Message (data : bytes).
Section run.
Context (uninit : CPacket) (decrypt : CPacket → option bytes) (C : rcv_config).
Definition rcv_step (op : rcv_op) (R : CUDT_rpath) : option (rcv_out * CUDT_rpath) :=
  match op with
  | Arrive p now => '(r, R) ← receive uninit decrypt C p now R; Some (Arrived p r, R)
  | Ack M lite now => '(s, R) ← sendCtrlAck C M lite now R; Some (Acked s, R)
  | Confirm ack => Some (Confirmed, ack_confirmed ack R)
  | Read now n => '(_, data, B) ← readBuffer (m_pRcvBuffer R) now n; Some (Bytes data, set_buffer B R)
  | ReadMsg now n => '(_, data, _, _, B) ← readMsg (m_pRcvBuffer R) now n (-1); Some (Message data, set_buffer B R)
  end.
Fixpoint rcv_run (ops : list rcv_op) (R : CUDT_rpath) : option (list rcv_out * CUDT_rpath) :=
  match ops with
  | [] => Some ([], R)
  | op :: ops => '(out, R) ← rcv_step op R; '(outs, R) ← rcv_run ops R; Some (out :: outs, R)
  end.
End run.
