(* ===== verification/RcvPathFacts.v ===== *)
(** * Lemmas on the data path of the receiver

    A stream is the list of packets that a sender made ([spkt]); packet [x] of it has
    the number [seqno x], from [isn] on.  The receiver holds, from some number on, the
    packets that were acknowledged and not yet read, and behind them those that came
    after a gap ([rpath_ok]). *)
From S2P Require Import Prelude SeqNo LossRing RcvLoss RcvLossFacts SndLoss LossReport LossReportFacts LossSend SndBuf SndBufFacts SndPath TsbPd RcvBuf RcvBufFacts RcvPath.

(** ** Packets of a stream *)

(** The flags of a message: first, last, in order. *)
Definition same_flags (a b : Z) : Prop :=
  Z.testbit a 31 = Z.testbit b 31 ∧ Z.testbit a 30 = Z.testbit b 30 ∧ Z.testbit a 29 = Z.testbit b 29.
Lemma bound_bits p : is_first (getMsgBoundary p) = Z.testbit (m_iMsgNo p) 31 ∧ is_last (getMsgBoundary p) = Z.testbit (m_iMsgNo p) 30.
Proof.
  unfold getMsgBoundary. set (z := Z.land (Z.shiftr (m_iMsgNo p) 30) 3).
  assert (Z.testbit z 0 = Z.testbit (m_iMsgNo p) 30 ∧ Z.testbit z 1 = Z.testbit (m_iMsgNo p) 31) as [<- <-].
  { unfold z. rewrite !Z.land_spec, !Z.shiftr_spec by lia. split; by rewrite andb_true_r. }
  assert (0 <= z < 4) as Hz by (unfold z; change 3 with (Z.ones 2); rewrite Z.land_ones by lia; apply Z.mod_pos_bound; lia).
  destruct (decide (z = 0)) as [->|]; [done|]. destruct (decide (z = 1)) as [->|]; [done|].
  destruct (decide (z = 2)) as [->|]; [done|]. by replace z with 3 by lia.
Qed.
Lemma clear_flags z : same_flags (Z.land z (Z.lnot MSGNO_ENCKEYSPEC_mask)) z.
Proof. unfold same_flags. rewrite !Z.land_spec, !Z.lnot_spec by lia. split_and!; by rewrite andb_true_r. Qed.
Lemma same_flags_trans a b c : same_flags a b → same_flags b c → same_flags a c.
Proof. intros (?&?&?) (?&?&?). split_and!; congruence. Qed.

Section stream.
Context (decrypt : CPacket → option bytes) (isn : Z) (stream : list spkt).
Definition pkt_at (x : Z) : option spkt := if isn <=? x then stream !! Z.to_nat (x - isn) else None.

(** The packet as the buffer keeps it. *)
Definition clear (p : CPacket) : option CPacket :=
  if getMsgCryptoFlags p =? EK_NOENC then Some p else (λ d, clear_packet d p) <$> decrypt p.
(** [q] is packet [x] of the stream, in the clear. *)
Definition is_pkt (x : Z) (q : CPacket) : Prop :=
  m_iSeqNo q = seqno x ∧ ∃ s, pkt_at x = Some s ∧ m_pcData q = q_data s ∧ same_flags (m_iMsgNo q) (q_bits s).
(** [p] is packet [x] as it comes from the network. *)
Definition carries (x : Z) (p : CPacket) : Prop := m_iSeqNo p = seqno x ∧ ∃ q, clear p = Some q ∧ is_pkt x q.

(** The cells from number [x] on. *)
Definition slot (x : Z) (c : option CUnit) : Prop := c = None ∨ ∃ q, c = good q ∧ is_pkt x q.
Definition slots (x : Z) (w : list (option CUnit)) : Prop := ∀ i c, w !! i = Some c → slot (x + Z.of_nat i) c.
Definition run_of (x : Z) (ps : list CPacket) : Prop := ∀ i q, ps !! i = Some q → is_pkt (x + Z.of_nat i) q.
(** What arrived: all before [a], and what is in the cells behind it. *)
Definition stored_in (a : Z) (w2 : list (option CUnit)) (y : Z) : Prop :=
  isn <= y < a ∨ a <= y ∧ ∃ q, w2 !! Z.to_nat (y - a) = Some (good q).

Record rpath_ok (size : Z) (R : CUDT_rpath) (x0 a : Z) (ps : list CPacket) (w2 : list (option CUnit)) (got : list Z) (curr : Z) : Prop := {
  ro_buf : rb_holds (m_pRcvBuffer R) (good <$> ps) w2;
  ro_units : uq_ok (m_pUnitQueue (m_pRcvBuffer R));
  ro_mode : m_bTsbPdMode (m_tsbpd (m_pRcvBuffer R)) = false;
  ro_read : run_of x0 ps;
  ro_a : a = x0 + Z.of_nat (length ps) ∧ isn <= x0;
  ro_end : a <= isn + Z.of_nat (length stream);
  ro_wait : slots a w2;
  ro_got : ∀ y, y ∈ got ↔ stored_in a w2 y;
  ro_loss : receiving size (d_rcv R) curr (gaps isn got curr);
  ro_le : ∀ y, y ∈ got → y <= curr;
  ro_curr : a - 1 <= curr < a + Z.of_nat (length w2);
  ro_size : rb_size (m_pRcvBuffer R) <= size;
  ro_skip : m_iRcvLastSkipAck R = seqno a;
  ro_last : m_iRcvLastAck R = seqno a }.

Lemma slots_app x w1 w2 : slots x (w1 ++ w2) ↔ slots x w1 ∧ slots (x + Z.of_nat (length w1)) w2.
Proof.
  split.
  - intros H. split; intros i c Hc; [apply (H i); by apply lookup_app_l_Some|].
    replace (x + Z.of_nat (length w1) + Z.of_nat i) with (x + Z.of_nat (length w1 + i)) by lia. apply H.
    rewrite lookup_app_r by lia. by replace (length w1 + i - length w1)%nat with i by lia.
  - intros [H1 H2] i c [Hc|[Hi Hc]]%lookup_app_Some; [by apply H1|].
    replace (x + Z.of_nat i) with (x + Z.of_nat (length w1) + Z.of_nat (i - length w1)) by lia. by apply H2.
Qed.
Lemma slots_None x k : slots x (replicate k None).
Proof. intros i c [-> _]%lookup_replicate. by left. Qed.
Lemma gaps_same got x curr : x ∈ got → gaps isn (x :: got) curr = gaps isn got curr.
Proof. intros Hx. unfold gaps. apply list_filter_iff. intros y. rewrite elem_of_cons. naive_solver. Qed.

(** A packet that finds its cell empty, or taken. *)
Lemma stored_empty a w2 x : isn <= a → a <= x → ¬ stored_in a w2 x → slots a w2 → mjoin (w2 !! Z.to_nat (x - a)) = None.
Proof.
  intros Hi Ha Hn Hs. destruct (w2 !! Z.to_nat (x - a)) as [c|] eqn:E; [|done]. destruct (Hs _ _ E) as [->|(q & -> & _)]; [done|].
  exfalso. apply Hn. right. split; [done|]. by exists q.
Qed.
Lemma stored_put a w2 x c q y :
  a <= x → c = good q → isn <= a →
  stored_in a (<[Z.to_nat (x - a) := c]> (reach (Z.to_nat (x - a)) w2)) y ↔ y = x ∨ stored_in a w2 y.
Proof.
  intros Hx -> Hi. set (o := Z.to_nat (x - a)). unfold stored_in. split.
  - intros [?|[Hy (q' & Hq)]]; [by right; left|]. apply list_lookup_insert_Some in Hq as [(E & _ & _)|[_ Hq]]; [left; lia|].
    right. right. split; [done|]. exists q'. pose proof (reach_lookup o w2 (Z.to_nat (y - a))) as Er. rewrite Hq in Er. cbn in Er.
    destruct (w2 !! Z.to_nat (y - a)) as [[u|]|]; cbn in Er; [|done..]. by injection Er as <-.
  - intros [->|[?|[Hy (q' & Hq)]]]; [right|by left|right].
    + split; [done|]. exists q. apply list_lookup_insert_eq. rewrite reach_length. lia.
    + split; [done|]. destruct (decide (Z.to_nat (y - a) = o)) as [E|Hn].
      * exists q. rewrite E. apply list_lookup_insert_eq. rewrite reach_length. lia.
      * exists q'. rewrite list_lookup_insert_ne by done. unfold reach. by apply lookup_app_l_Some.
Qed.
Lemma slots_put a w2 x q :
  a <= x → is_pkt x q → slots a w2 → slots a (<[Z.to_nat (x - a) := good q]> (reach (Z.to_nat (x - a)) w2)).
Proof.
  intros Hx Hq Hs i c [(<- & <- & _)|[_ Hc]]%list_lookup_insert_Some.
  - right. exists q. split; [done|]. by replace (a + Z.of_nat (Z.to_nat (x - a))) with x by lia.
  - unfold reach in Hc. apply lookup_app_Some in Hc as [Hc|[_ Hc]]; [by apply Hs|]. apply lookup_replicate in Hc as [-> _]. by left.
Qed.

(** ** A packet comes in *)

Lemma rb_holds_keeps B Q w1 w2 : rb_holds B w1 w2 → keeps_units (m_pUnitQueue B) Q → rb_holds (set_ring (m_pUnit B) Q B) w1 w2.
Proof. intros [H1 H2 H3] HK. split; [by apply rb_cells_keeps|exact H2|exact H3]. Qed.
Lemma uq_ok_units Q units n : uq_ok Q → length units = length (m_units Q) → uq_ok (set_units units n Q).
Proof. intros [H1 (k & H2) H3 H4] E. split; [done|exists k; cbn; by rewrite E|done|cbn; by rewrite E]. Qed.

(** The ghost state after the outcome [r] for packet [x]. *)
Definition got_after (x : Z) (r : arrived) (got : list Z) : list Z :=
  match r with Processed ADDED _ => x :: got | _ => got end.
Lemma set_buffer_ok size R B x0 a ps w2 got curr :
  rpath_ok size R x0 a ps w2 got curr → rb_holds B (good <$> ps) w2 → uq_ok (m_pUnitQueue B) →
  m_bTsbPdMode (m_tsbpd B) = false → rb_size B = rb_size (m_pRcvBuffer R) → rpath_ok size (set_buffer B R) x0 a ps w2 got curr.
Proof. intros [] HB HQ HT HE. split; try done. cbn. by rewrite HE. Qed.

Lemma processData_run C i now size R x0 a ps w2 got curr x u :
  rpath_ok size R x0 a ps w2 got curr → m_units (m_pUnitQueue (m_pRcvBuffer R)) !! i = Some u → m_iFlag u = FREE →
  carries x (m_Packet u) → isn <= x → Z.abs (x - a) <= 2 ^ 29 →
  ∃ r R' w2' curr', processData decrypt C i now R = Some (r, R') ∧ rpath_ok size R' x0 a ps w2' (got_after x r got) curr' ∧
    m_iNotch (m_pRcvBuffer R') = m_iNotch (m_pRcvBuffer R) ∧ m_iRcvLastAckAck R' = m_iRcvLastAckAck R.
Proof.
  intros H Hu Hf (Hseq & q & Hclear & Hq) Hx Hnear. destruct (H) as [HB HQ HT HP [Ha H0] HEnd HW HG HL HE HC HZ HS HA].
  unfold processData. rewrite Hu. cbn [mbind option_bind]. set (p := m_Packet u) in *.
  rewrite HS, Hseq, seqoff_seqno by (unfold near, m_iSeqNoTH; lia).
  destruct (Z.ltb_spec (x - a) 0) as [Hold|Hnew].
  { eexists Belated, _, w2, curr. split; [done|]. split; [|done]. apply set_buffer_ok; [done| |done|by rewrite <- HT; apply play_mode|done].
    destruct HB as [B1 B2 B3]. split; [by apply (rb_cells_ext (m_pRcvBuffer R))|exact B2|exact B3]. }
  destruct (Z.leb_spec (getAvailBufSize (m_pRcvBuffer R)) (x - a)) as [Hfull|Hroom].
  { eexists _, R, w2, curr. split; [done|]. by destruct (_ && _). }
  pose proof (getAvailBufSize_run _ _ _ HB) as Hav. rewrite length_fmap in Hav.
  pose proof (rb_all _ _ _ HB) as Hcells. pose proof (rb_room _ _ Hcells) as Hrm. rewrite length_app, length_fmap in Hrm.
  assert (0 < size <= 2 ^ 29) as Hsz by (destruct HL as [_ (c & l & HLL & _)]; apply HLL).
  assert (∀ y, y ∈ gaps isn got curr → y <= curr ∧ x <= y + size) as Hgaps.
  { intros y [Hy ?]%elem_of_gaps. split; [lia|]. rewrite HG in Hy. unfold stored_in in Hy. assert (¬ (y < a)) by (intros ?; apply Hy; left; lia). lia. }
  destruct (mjoin (w2 !! Z.to_nat (x - a))) as [u0|] eqn:Ew.
  - (* taken *)
    assert (w2 !! Z.to_nat (x - a) = Some (Some u0)) as Ew' by (by destruct (w2 !! Z.to_nat (x - a)) as [[?|]|]; cbn in Ew; simplify_eq).
    assert (x ∈ got) as Hin.
    { rewrite HG. right. split; [lia|]. destruct (HW _ _ Ew') as [?|(q' & Eq & _)]; [done|]. exists q'. by rewrite Ew', Eq. }
    rewrite (addData_taken _ _ _ i (x - a) u0 HB) by (done || lia). cbn [mbind option_bind]. change (-1 <? 0) with true. cbn [mbind option_bind].
    destruct (process_packet_run size (d_rcv R) curr (gaps isn got curr) (loss_view p) x REDUNDANT now HL) as (rcv & reports & -> & HL');
      [by cbn; rewrite Hseq|lia|done|right; split; [done|by apply HE]|].
    cbn [mbind option_bind]. rewrite gaps_after in HL' by (done || lia). pose proof (HE _ Hin). rewrite Z.max_l, gaps_same in HL' by (done || lia).
    eexists _, _, w2, curr. split; [done|]. split; [|done]. by split.
  - (* stored *)
    destruct (addData_run _ _ _ i (x - a) u HB) as (B & -> & HB' & E1 & E2 & E3 & E4 & Er); [lia|done|done|done|]. cbn [mbind option_bind]. change (0 <? 0) with false. cbn [mbind option_bind].
    set (o := Z.to_nat (x - a)) in *.
    assert (∃ B', (if getMsgCryptoFlags p =? EK_NOENC then Some (ADDED, B)
       else match decrypt p with
            | None => Some (UNDECRYPTED, B)
            | Some data => Q ← upd_unit i (set_packet (clear_packet data p)) (m_pUnitQueue B); Some (ADDED, set_ring (m_pUnit B) Q B)
            end) = Some (ADDED, B') ∧ rb_holds B' (good <$> ps) (<[o := good q]> (reach o w2)) ∧ uq_ok (m_pUnitQueue B') ∧
        rb_size B' = rb_size B ∧ m_iNotch B' = m_iNotch B ∧ m_tsbpd B' = m_tsbpd B) as (B' & EB & HB2 & HQ2 & E5 & E6 & E7).
    { assert (uq_ok (m_pUnitQueue B)) as HQ1 by (rewrite E4; apply uq_ok_units; [done|by rewrite length_insert]).
      unfold clear in Hclear. destruct (getMsgCryptoFlags p =? EK_NOENC); [injection Hclear as <-; by exists B|].
      destruct (decrypt p) as [data|]; [|done]. injection Hclear as <-.
      (* the unit is cell [o] behind the acknowledged ones *)
      set (w := (good <$> ps) ++ <[o:=Some (set_flag GOOD u)]> (reach o w2)) in *.
      assert (w !! (length ps + o)%nat = Some (Some (set_flag GOOD u))) as Hl.
      { unfold w. rewrite lookup_app_r by (rewrite length_fmap; lia). rewrite length_fmap.
        replace (length ps + o - length ps)%nat with o by lia. apply list_lookup_insert_eq. rewrite reach_length. lia. }
      assert (m_units (m_pUnitQueue B) !! i = Some (set_flag GOOD u)) as Hi.
      { rewrite E4. cbn. apply list_lookup_insert_eq. by eapply lookup_lt_Some. }
      destruct HB' as [B1 B2 B3]. fold w in B1. rewrite length_fmap in Er.
      destruct (upd_cell_run (set_packet (clear_packet data p)) B w _ _ i B1 Hl Er) as (Q & EQ & HC2 & _); [done|].
      rewrite EQ. cbn [mbind option_bind]. eexists. split; [done|].
      rewrite (upd_unit_run _ _ _ _ Hi) in EQ. injection EQ as <-. set (Q := set_units _ _ _) in *.
      assert (<[o:=good (clear_packet data p)]> (reach o w2) = <[o:=Some (set_packet (clear_packet data p) (set_flag GOOD u))]>
        (<[o:=Some (set_flag GOOD u)]> (reach o w2))) as Eo by (by rewrite list_insert_insert_eq).
      split; [|split; [apply uq_ok_units; [done|by rewrite length_insert]|done]].
      rewrite Eo. split; [|exact B2|cbn; rewrite B3; by rewrite !length_insert].
      unfold w in HC2. rewrite insert_app_r_alt in HC2 by (rewrite length_fmap; lia). rewrite length_fmap in HC2.
      by replace (length ps + o - length ps)%nat with o in HC2 by lia. }
    rewrite EB. cbn [mbind option_bind].
    destruct (process_packet_run size (d_rcv R) curr (gaps isn got curr) (loss_view p) x ADDED now HL) as (rcv & reports & -> & HL');
      [by cbn; rewrite Hseq|lia|done|by left|].
    cbn [mbind option_bind]. rewrite gaps_after in HL' by (done || lia).
    eexists _, _, (<[o := good q]> (reach o w2)), (Z.max curr x). split; [done|]. split; [|by cbn; rewrite E6, E2].
    assert (length (<[o := good q]> (reach o w2)) = Nat.max (length w2) (S o)) as Elen by (by rewrite length_insert, reach_length).
    split; cbn [set_rcv set_buffer m_pRcvBuffer d_rcv m_iRcvLastSkipAck m_iRcvLastAck got_after]; try done.
    + by rewrite E7, E3.
    + apply slots_put; [lia|done|done].
    + intros y. rewrite elem_of_cons, HG. symmetry. apply (stored_put a w2 x _ q); [lia|done|lia].
    + intros y [->|Hy]%elem_of_cons; [lia|]. specialize (HE y Hy). lia.
    + rewrite Elen. lia.
    + by rewrite E5, E1.
Qed.

Lemma receive_run uninit C p now size R x0 a ps w2 got curr x :
  rpath_ok size R x0 a ps w2 got curr → carries x p → isn <= x → Z.abs (x - a) <= 2 ^ 29 →
  ∃ r R' w2' curr', receive uninit decrypt C p now R = Some (r, R') ∧ rpath_ok size R' x0 a ps w2' (got_after x r got) curr' ∧
    m_iNotch (m_pRcvBuffer R') = m_iNotch (m_pRcvBuffer R) ∧ m_iRcvLastAckAck R' = m_iRcvLastAckAck R.
Proof.
  intros H Hp Hx Hnear. destruct (H) as [HB HQ HT _ _ _ _ _ _ _ _ _ _]. unfold receive.
  destruct (getNextAvailUnit_run uninit _ HQ) as ([i Q] & -> & (HQ' & HK & Hfree)). cbn [mbind option_bind fst snd] in *. destruct i as [i|].
  - destruct (Hfree i eq_refl) as (u & Eu & Fu). rewrite (upd_unit_run _ _ _ _ Eu). cbn [mbind option_bind]. set (Q1 := set_units _ _ Q).
    assert (keeps_units (m_pUnitQueue (m_pRcvBuffer R)) Q1) as HK1.
    { intros j v Hv Fv. cbn. rewrite list_lookup_insert_ne; [by apply HK|]. intros ->. rewrite (HK _ _ Hv Fv) in Eu. congruence. }
    apply (processData_run C i now size (set_buffer (set_ring (m_pUnit (m_pRcvBuffer R)) Q1 (m_pRcvBuffer R)) R) x0 a ps w2 got curr x (set_packet p u));
      [|cbn; apply list_lookup_insert_eq; by eapply lookup_lt_Some|done..].
    apply set_buffer_ok; [done|by apply rb_holds_keeps|apply uq_ok_units; [done|by rewrite length_insert]|done|done].
  - eexists NoUnit, _, w2, curr. split; [done|]. split; [|done]. apply set_buffer_ok; [done|by apply rb_holds_keeps|done|done|done].
Qed.

(** ** Acknowledgements *)

(** The first number that did not arrive. *)
Definition first_missing (got : list Z) (curr : Z) : Z := default (curr + 1) (head (gaps isn got curr)).
Lemma first_missing_spec size R x0 a ps w2 got curr :
  rpath_ok size R x0 a ps w2 got curr →
  let m := first_missing got curr in a <= m <= curr + 1 ∧ m ∉ got ∧ ∀ y, isn <= y < m → y ∈ got.
Proof.
  intros [HB HQ HT HP [Ha H0] HEnd HW HG HL HE HC HZ HS HA]. destruct (head_gaps isn got curr) as (A1 & A2 & A3); [lia|done|].
  fold (first_missing got curr) in *. cbv zeta. split; [|done]. split.
  - destruct (Z.le_gt_cases a (first_missing got curr)) as [|Hlt]; [done|]. exfalso. apply A1, HG. left. lia.
  - unfold first_missing.
    destruct (gaps isn got curr) as [|h l] eqn:E; cbn; [lia|]. assert (h ∈ gaps isn got curr) as Hh by (rewrite E; left).
    apply elem_of_gaps in Hh. unfold id. lia.
Qed.
Lemma all_good (l : list (option CUnit)) : (∀ i, (i < length l)%nat → ∃ q, l !! i = Some (good q)) → ∃ qs, l = good <$> qs.
Proof.
  induction l as [|c l IH]; intros H; [by exists []|]. destruct (H 0%nat) as (q & Hq); [cbn; lia|]. injection Hq as ->.
  destruct IH as (qs & ->); [intros i Hi; apply (H (S i)); cbn; lia|]. by exists (q :: qs).
Qed.
Lemma stored_drop a w2 n y : isn <= a → stored_in (a + Z.of_nat n) (drop n w2) y → (∀ z, a <= z < a + Z.of_nat n → stored_in a w2 z) → stored_in a w2 y.
Proof.
  intros Hi [Hy|[Hy (q & Hq)]] Hn.
  - destruct (decide (y < a)); [left; lia|]. apply Hn. lia.
  - right. split; [lia|]. exists q. rewrite lookup_drop in Hq. by replace (Z.to_nat (y - a)) with (n + Z.to_nat (y - (a + Z.of_nat n)))%nat by lia.
Qed.
Lemma stored_keep a w2 n y : isn <= a → stored_in a w2 y → stored_in (a + Z.of_nat n) (drop n w2) y.
Proof.
  intros Hi [Hy|[Hy (q & Hq)]]; [left; lia|]. destruct (decide (y < a + Z.of_nat n)); [left; lia|]. right. split; [lia|]. exists q.
  rewrite lookup_drop. by replace (n + Z.to_nat (y - (a + Z.of_nat n)))%nat with (Z.to_nat (y - a)) by lia.
Qed.

Lemma ackDataUpTo_run size R x0 a ps w2 got curr :
  rpath_ok size R x0 a ps w2 got curr → let m := first_missing got curr in a < m →
  ∃ v R' more, ackDataUpTo (seqno m) R = Some (v, R') ∧ rpath_ok size R' x0 m (ps ++ more) (drop (Z.to_nat (m - a)) w2) got curr ∧
    m_iNotch (m_pRcvBuffer R') = m_iNotch (m_pRcvBuffer R) ∧ m_iRcvLastAckAck R' = m_iRcvLastAckAck R.
Proof.
  intros H m Hm. pose proof (first_missing_spec _ _ _ _ _ _ _ _ H) as (Hb & Hmiss & Hall). fold m in Hb, Hmiss, Hall.
  destruct (H) as [HB HQ HT HP [Ha H0] HEnd HW HG HL HE HC HZ HS HA].
  pose proof (rb_room _ _ (rb_all _ _ _ HB)) as Hrm. rewrite length_app, length_fmap in Hrm.
  assert (0 < size <= 2 ^ 29) as Hsz by (destruct HL as [_ (c & l & HLL & _)]; apply HLL).
  unfold ackDataUpTo. rewrite HS, seqoff_seqno by (unfold near, m_iSeqNoTH; lia). rewrite (proj2 (Z.ltb_lt 0 (m - a))) by lia.
  cbn [set_acks m_pRcvBuffer]. set (n := Z.to_nat (m - a)).
  destruct (rcv_ackData_run _ _ _ (m - a) HB) as (B & -> & HB' & E1 & E2 & E3 & E4); [lia|rewrite length_fmap; lia|].
  fold n in HB'. replace (n - length w2)%nat with 0%nat in HB' by lia. cbn [replicate] in HB'. rewrite app_nil_r in HB'.
  destruct (all_good (take n w2)) as (more & Emore).
  { intros i Hi. rewrite length_take in Hi. assert (a + Z.of_nat i ∈ got) as Hin by (apply Hall; lia).
    rewrite HG in Hin. destruct Hin as [?|[_ (q & Hq)]]; [lia|]. exists q. rewrite lookup_take_lt by lia.
    by replace (Z.to_nat (a + Z.of_nat i - a)) with i in Hq by lia. }
  rewrite Emore, <- fmap_app in HB'. cbn [mbind option_bind].
  assert (length more = n) as Elen by (rewrite <- (length_fmap good), <- Emore, length_take; lia).
  eexists _, _, more. split; [done|]. split; [|split; [by cbn|done]].
  split; cbn [set_buffer set_acks m_pRcvBuffer d_rcv m_iRcvLastSkipAck m_iRcvLastAck]; try done.
  - by rewrite E4.
  - by rewrite E3.
  - intros i q [Hi|[Hge Hi]]%lookup_app_Some; [by apply HP|].
    assert (take n w2 !! (i - length ps)%nat = Some (good q)) as Hw by (rewrite Emore, list_lookup_fmap, Hi; done).
    apply lookup_take_Some in Hw as [Hw _]. destruct (HW _ _ Hw) as [?|(q' & Eq & Hq')]; [done|]. injection Eq as <-.
    by replace (x0 + Z.of_nat i) with (a + Z.of_nat (i - length ps)) by lia.
  - rewrite length_app. lia.
  - destruct (proj1 (HG (m - 1)) ltac:(apply Hall; lia)) as [?|[_ (q & Hq)]]; [lia|].
    destruct (HW _ _ Hq) as [?|(q' & _ & _ & s & Hs & _)]; [done|].
    unfold pkt_at in Hs. case_match; [|done]. apply lookup_lt_Some in Hs. lia.
  - rewrite <- (take_drop n w2) in HW. apply slots_app in HW as [_ HW]. rewrite length_take in HW.
    by replace m with (a + Z.of_nat (n `min` length w2)) by lia.
  - intros y. rewrite HG. replace m with (a + Z.of_nat n) by lia. split; [apply stored_keep; lia|]. intros Hy.
    apply (stored_drop a w2 n); [lia|done|]. intros z Hz. apply HG, Hall. lia.
  - rewrite length_drop. lia.
  - by rewrite E1.
Qed.

Lemma send_full_ack_ok size C M now R x0 a ps w2 got curr :
  rpath_ok size R x0 a ps w2 got curr → rpath_ok size (send_full_ack C M now R).2 x0 a ps w2 got curr ∧
  m_pRcvBuffer (send_full_ack C M now R).2 = m_pRcvBuffer R ∧ m_iRcvLastAckAck (send_full_ack C M now R).2 = m_iRcvLastAckAck R.
Proof. intros H. unfold send_full_ack. case_match; [|done]. destruct (ack_words _ _ _ _). by destruct H. Qed.
Lemma sendCtrlAck_run size C M lite now R x0 a ps w2 got curr :
  rpath_ok size R x0 a ps w2 got curr → let m := first_missing got curr in
  ∃ s R' a' more w2', sendCtrlAck C M lite now R = Some (s, R') ∧ rpath_ok size R' x0 a' (ps ++ more) w2' got curr ∧
    m_iNotch (m_pRcvBuffer R') = m_iNotch (m_pRcvBuffer R) ∧ m_iRcvLastAckAck R' = m_iRcvLastAckAck R ∧
    (lite = false → m_iRcvLastAckAck R ≠ seqno m → a' = m).
Proof.
  intros H m. pose proof (first_missing_spec _ _ _ _ _ _ _ _ H) as (Hb & _ & _). fold m in Hb.
  destruct (H) as [HB HQ HT HP [Ha H0] HEnd HW HG HL HE HC HZ HS HA]. unfold sendCtrlAck. rewrite (ack_number_run _ _ _ _ HL).
  fold (first_missing got curr). fold m. cbn [mbind option_bind].
  assert (∀ s, ∃ s0 R' a' more w2', Some (s : ack_sent, R) = Some (s0, R') ∧ rpath_ok size R' x0 a' (ps ++ more) w2' got curr ∧
    m_iNotch (m_pRcvBuffer R') = m_iNotch (m_pRcvBuffer R) ∧ m_iRcvLastAckAck R' = m_iRcvLastAckAck R ∧ a' = a) as Hsame.
  { intros s. exists s, R, a, [], w2. rewrite app_nil_r. done. }
  destruct (Z.eqb_spec (m_iRcvLastAckAck R) (seqno m)) as [Eq|Hne].
  { destruct (Hsame NoAck) as (s & R' & a' & more & w2' & E1 & E2 & E3 & E4 & E5). exists s, R', a', more, w2'. by split_and!. }
  destruct lite.
  { destruct (Hsame (LiteAck (seqno m))) as (s & R' & a' & more & w2' & E1 & E2 & E3 & E4 & E5). exists s, R', a', more, w2'. by split_and!. }
  assert (0 < size <= 2 ^ 29) as Hsz by (destruct HL as [_ (c & l & HLL & _)]; apply HLL).
  pose proof (rb_room _ _ (rb_all _ _ _ HB)) as Hrm. rewrite length_app, length_fmap in Hrm.
  rewrite HA, seqcmp_gt by (unfold near, m_iSeqNoTH; lia). destruct (Z.ltb_spec a m) as [Hlt|Hge].
  - destruct (ackDataUpTo_run _ _ _ _ _ _ _ _ H Hlt) as (v & R1 & more & E & H1 & E1 & E2). fold m in E, H1. rewrite E. cbn [mbind option_bind].
    destruct (send_full_ack_ok size C M now R1 _ _ _ _ _ _ H1) as (H2 & E3 & E4). destruct (send_full_ack C M now R1) as [s R2].
    cbn [snd] in *. eexists s, R2, m, more, _. split; [done|]. split; [exact H2|]. by rewrite E3, E4.
  - assert (m = a) as Em by lia. rewrite Em, Z.eqb_refl.
    destruct (send_full_ack_ok size C M now R _ _ _ _ _ _ H) as (H2 & E3 & E4). destruct (_ <? _).
    + destruct (Hsame NoAck) as (s & R' & a' & more & w2' & E1' & E2' & E3' & E4' & E5'). exists s, R', a', more, w2'. by split_and!.
    + destruct (send_full_ack C M now R) as [s R2]. cbn [snd] in *. eexists s, R2, a, [], w2. rewrite app_nil_r.
      split; [done|]. split; [exact H2|]. by rewrite E3, E4.
Qed.

(** ** Reading *)

Definition bytes_to (a : Z) : bytes := concat (q_data <$> take (Z.to_nat (a - isn)) stream).
Lemma run_slice x ps :
  run_of x ps → isn <= x → m_pcData <$> ps = q_data <$> take (length ps) (drop (Z.to_nat (x - isn)) stream).
Proof.
  intros H Hx. apply list_eq. intros i. rewrite !list_lookup_fmap. destruct (ps !! i) as [q|] eqn:E.
  - rewrite lookup_take_lt, lookup_drop by (by eapply lookup_lt_Some). destruct (H i q E) as (_ & s & Hs & Ed & _).
    unfold pkt_at in Hs. rewrite (proj2 (Z.leb_le _ _)) in Hs by lia.
    replace (Z.to_nat (x - isn) + i)%nat with (Z.to_nat (x + Z.of_nat i - isn)) by lia. rewrite Hs. cbn. by rewrite Ed.
  - rewrite lookup_take_ge; [done|]. by apply lookup_ge_None.
Qed.
Lemma run_app x ps qs : run_of x (ps ++ qs) ↔ run_of x ps ∧ run_of (x + Z.of_nat (length ps)) qs.
Proof.
  split.
  - intros H. split; intros i q Hq; [apply (H i); by apply lookup_app_l_Some|].
    replace (x + Z.of_nat (length ps) + Z.of_nat i) with (x + Z.of_nat (length ps + i)) by lia. apply H.
    rewrite lookup_app_r by lia. by replace (length ps + i - length ps)%nat with i by lia.
  - intros [H1 H2] i q [Hq|[Hi Hq]]%lookup_app_Some; [by apply H1|].
    replace (x + Z.of_nat i) with (x + Z.of_nat (length ps) + Z.of_nat (i - length ps)) by lia. by apply H2.
Qed.
Lemma bytes_to_app x ps : run_of x ps → isn <= x → bytes_to (x + Z.of_nat (length ps)) = bytes_to x ++ concat (m_pcData <$> ps).
Proof.
  intros H Hx. rewrite (run_slice x ps) by done. unfold bytes_to. rewrite <- concat_app, <- fmap_app. f_equal. f_equal.
  replace (Z.to_nat (x + Z.of_nat (length ps) - isn)) with (Z.to_nat (x - isn) + length ps)%nat by lia. by rewrite take_take_drop.
Qed.
Lemma unread_app notch ps qs : notch_ok notch ps → unread notch (ps ++ qs) = unread notch ps ++ concat (m_pcData <$> qs).
Proof.
  intros [H1 H2]. unfold unread. rewrite fmap_app, concat_app. apply drop_app_le. destruct ps as [|p ps]; [subst; cbn; lia|].
  cbn [fmap list_fmap concat]. rewrite length_app. unfold getLength, len in H2. lia.
Qed.
Lemma notch_app notch ps qs : notch_ok notch ps → notch_ok notch (ps ++ qs).
Proof. intros [H1 H2]. destruct ps as [|p ps]; [subst; apply notch_0|by split]. Qed.

(** The buffer after a read: [dn] were read, and the rest is as before. *)
Lemma read_ok size R x0 a dn ps w2 got curr B :
  rpath_ok size R x0 a (dn ++ ps) w2 got curr → rb_holds B (good <$> ps) w2 → rb_size B = rb_size (m_pRcvBuffer R) →
  m_tsbpd B = m_tsbpd (m_pRcvBuffer R) → uq_shape (m_pUnitQueue B) = uq_shape (m_pUnitQueue (m_pRcvBuffer R)) →
  rpath_ok size (set_buffer B R) (x0 + Z.of_nat (length dn)) a ps w2 got curr.
Proof.
  intros [HB HQ HT HP [Ha H0] HEnd HW HG HL HE HC HZ HS HA] HB' E1 E2 E3. apply run_app in HP as [_ HP]. rewrite length_app in Ha.
  split; cbn [set_buffer m_pRcvBuffer]; try done; [by eapply uq_ok_shape|by rewrite E2|lia|by rewrite E1].
Qed.

(** What was stored, by what the calls returned. *)
Definition was_stored (outs : list rcv_out) (y : Z) : Prop :=
  ∃ p reports, Arrived p (Processed ADDED reports) ∈ outs ∧ carries y p.
Definition stored_by (out : rcv_out) (got : list Z) (got' : list Z) : Prop := ∀ y, y ∈ got' ↔ y ∈ got ∨ was_stored [out] y.
Lemma not_stored out got : (∀ p r, out ≠ Arrived p (Processed ADDED r)) → stored_by out got got.
Proof. intros H y. split; [by left|]. intros [?|(p & r & Hin & _)]; [done|]. apply list_elem_of_singleton in Hin. by destruct (H p r). Qed.
Lemma carries_range x p : carries x p → isn <= x < isn + Z.of_nat (length stream).
Proof.
  intros (_ & q & _ & _ & s & Hs & _). unfold pkt_at in Hs. destruct (Z.leb_spec isn x); [|done]. apply lookup_lt_Some in Hs. lia.
Qed.
Lemma got_stored x p r got : Z.of_nat (length stream) <= 2 ^ 29 → carries x p → stored_by (Arrived p r) got (got_after x r got).
Proof.
  intros Hlen Hx. pose proof (carries_range _ _ Hx) as Hr.
  destruct r as [| | | |[| |] reports]; try (by apply not_stored). intros y. cbn [got_after]. rewrite elem_of_cons. split.
  - intros [->|?]; [|by left]. right. exists p, reports. split; [by left|done].
  - intros [?|(p' & r' & Hin & Hy)]; [by right|]. left. apply list_elem_of_singleton in Hin. injection Hin as -> ->.
    pose proof (carries_range _ _ Hy) as Hr'. destruct Hx as [E1 _], Hy as [E2 _]. rewrite E1 in E2.
    destruct (Z.eqb_spec (seqno x) (seqno y)) as [_|?]; [|done].
    pose proof (seqno_eqb x y ltac:(lia)) as Hq. rewrite E2, Z.eqb_refl in Hq. symmetry in Hq. apply Z.eqb_eq in Hq. by symmetry.
Qed.

Section calls.
Context (uninit : CPacket) (C : rcv_config) (size : Z) (Hlen : Z.of_nat (length stream) <= 2 ^ 29).

(** What a caller, or the network, may do: packets are those of the stream. *)
Definition op_ok (op : rcv_op) : Prop :=
  match op with
  | Arrive p _ => ∃ x, carries x p
  | Read _ n => 0 <= n
  | ReadMsg _ n => 0 < n
  | _ => True
  end.
Definition holding (R : CUDT_rpath) (x0 a : Z) (ps : list CPacket) (got : list Z) : Prop :=
  ∃ w2 curr, rpath_ok size R x0 a ps w2 got curr.

(** The calls that do not read. *)
Lemma receive_step op R x0 a ps got :
  holding R x0 a ps got → op_ok op → (match op with Read _ _ | ReadMsg _ _ => false | _ => true end) = true →
  ∃ out R' more got', rcv_step uninit decrypt C op R = Some (out, R') ∧
    holding R' x0 (a + Z.of_nat (length more)) (ps ++ more) got' ∧ run_of a more ∧
    stored_by out got got' ∧ m_iNotch (m_pRcvBuffer R') = m_iNotch (m_pRcvBuffer R) ∧
    (match out with Bytes _ | Message _ => false | _ => true end) = true.
Proof.
  intros (w2 & curr & H) Hop Hr.
  assert (a <= isn + Z.of_nat (length stream) ∧ isn <= a) as [He Hi] by (destruct H; lia).
  destruct op as [p now|M lite now|ack| |]; cbn [op_ok rcv_step] in *; try done.
  - destruct Hop as (x & Hx). pose proof (carries_range _ _ Hx).
    destruct (receive_run uninit C p now size R x0 a ps w2 got curr x H Hx) as (r & R' & w2' & curr' & -> & H' & E & _); [lia|lia|].
    cbn [mbind option_bind]. eexists _, R', [], _. split; [done|]. rewrite app_nil_r. cbn [length]. rewrite Z.add_0_r.
    split; [by exists w2', curr'|]. split; [done|]. split; [by apply got_stored|done].
  - destruct (sendCtrlAck_run size C M lite now R x0 a ps w2 got curr H) as (s & R' & a' & more & w2' & -> & H' & E & _).
    cbn [mbind option_bind]. eexists _, R', more, got. split; [done|].
    assert (a' = a + Z.of_nat (length more)) as Ea.
    { destruct H as [_ _ _ _ [Ha _] _ _ _ _ _ _ _ _ _], H' as [_ _ _ _ [Ha' _] _ _ _ _ _ _ _ _ _]. rewrite length_app in Ha'. lia. }
    rewrite <- Ea. split; [by exists w2', curr|]. split; [|split; [by apply not_stored|done]].
    destruct H as [_ _ _ _ [Ha _] _ _ _ _ _ _ _ _ _], H' as [_ _ _ HP' _ _ _ _ _ _ _ _ _ _]. apply run_app in HP' as [_ HP']. by rewrite Ha.
  - eexists _, _, [], got. split; [done|]. rewrite app_nil_r. cbn [length]. rewrite Z.add_0_r.
    split; [exists w2, curr; unfold ack_confirmed; case_match; by destruct H|]. split; [done|]. split; [by apply not_stored|].
    unfold ack_confirmed. by case_match.
Qed.

Lemma was_stored_cons out outs y : was_stored (out :: outs) y ↔ was_stored [out] y ∨ was_stored outs y.
Proof.
  split.
  - intros (p & r & [E|E]%elem_of_cons & Hc); [left|right]; exists p, r; (split; [|done]); [by rewrite E; left|done].
  - intros [(p & r & E & Hc)|(p & r & E & Hc)]; exists p, r; (split; [|done]); [|by right].
    apply list_elem_of_singleton in E. rewrite E. left.
Qed.

(** The full ACKs that were sent, and the confirmations of them only. *)
Definition acks_of (out : rcv_out) : list Z := match out with Acked (FullAck _ words) => take 1 words | _ => [] end.
Fixpoint confirms_sent (sent : list Z) (ops : list rcv_op) (outs : list rcv_out) : Prop :=
  match ops, outs with
  | op :: ops, out :: outs =>
      match op with Confirm ack => ack ∈ sent | _ => True end ∧ confirms_sent (acks_of out ++ sent) ops outs
  | _, _ => True
  end.
Definition acks_ok (sent : list Z) (R : CUDT_rpath) (a : Z) : Prop :=
  (∃ l, m_iRcvLastAckAck R = seqno l ∧ isn <= l <= a) ∧ ∀ s, s ∈ sent → ∃ l, s = seqno l ∧ isn <= l <= a.

Lemma send_full_ack_sent M now R s R' :
  send_full_ack C M now R = (s, R') → m_iRcvLastAckAck R' = m_iRcvLastAckAck R ∧ m_iRcvLastAck R' = m_iRcvLastAck R ∧
  ∀ q words, s = FullAck q words → take 1 words = [m_iRcvLastAck R'].
Proof.
  unfold send_full_ack. case_match; [|intros [= <- <-]; by split_and!].
  assert (take 1 (ack_words C M now R).1 = [m_iRcvLastAck R]) as Ew by (unfold ack_words; by case_match).
  destruct (ack_words C M now R) as [words time]. intros [= <- <-]. split_and!; try done. by intros q ? [= <- <-].
Qed.
Lemma ackDataUpTo_same ack R v R' : ackDataUpTo ack R = Some (v, R') → m_iRcvLastAckAck R' = m_iRcvLastAckAck R.
Proof. unfold ackDataUpTo. intros H. repeat case_match; simplify_option_eq; try done. by case_match; simplify_eq. Qed.
Lemma sendCtrlAck_sent M lite now R s R' :
  sendCtrlAck C M lite now R = Some (s, R') → m_iRcvLastAckAck R' = m_iRcvLastAckAck R ∧
  ∀ y, y ∈ acks_of (Acked s) → y = m_iRcvLastAck R'.
Proof.
  assert (∀ R s R', send_full_ack C M now R = (s, R') → m_iRcvLastAckAck R' = m_iRcvLastAckAck R ∧ ∀ y, y ∈ acks_of (Acked s) → y = m_iRcvLastAck R') as Hfull.
  { intros R0 s0 R1 (E1 & _ & E2)%send_full_ack_sent. split; [done|]. intros y Hy. destruct s0; try by apply elem_of_nil in Hy.
    cbn [acks_of] in Hy. rewrite (E2 _ _ eq_refl) in Hy. by apply list_elem_of_singleton in Hy. }
  assert (∀ y : Z, y ∈ [] → y = m_iRcvLastAck R) as Hnil by (by intros y Hy%elem_of_nil).
  unfold sendCtrlAck. destruct (ack_number (d_rcv R)) as [ack|]; [|done]. cbn [mbind option_bind].
  case_match; [by intros [= <- <-]|]. destruct lite; [by intros [= <- <-]|]. case_match.
  - destruct (ackDataUpTo ack R) as [[v R1]|] eqn:E; [|done]. cbn [mbind option_bind]. intros [= E2].
    rewrite <- (ackDataUpTo_same _ _ _ _ E). by apply Hfull.
  - repeat case_match; intros [= E2]; simplify_eq; try done. by apply Hfull.
Qed.
Lemma processData_acked i now R r R' : processData decrypt C i now R = Some (r, R') → m_iRcvLastAckAck R' = m_iRcvLastAckAck R.
Proof.
  unfold processData. intros H. destruct (_ !! i) as [u|]; [|done]. cbn [mbind option_bind] in H. case_match; [by simplify_eq|].
  case_match; [by simplify_eq|]. destruct (addData _ _ _) as [[r1 B]|]; [|done]. cbn [mbind option_bind] in H.
  destruct (if r1 <? 0 then _ else _) as [[o B']|]; [|done]. cbn [mbind option_bind] in H.
  destruct (process_packet _ _ _ _) as [[rcv reports]|]; [|done]. by injection H as <- <-.
Qed.
Lemma receive_acked p now R r R' : receive uninit decrypt C p now R = Some (r, R') → m_iRcvLastAckAck R' = m_iRcvLastAckAck R.
Proof.
  unfold receive. intros H. destruct (getNextAvailUnit _ _) as [[i Q]|]; [|done]. cbn [mbind option_bind] in H.
  destruct i as [i|]; [|by injection H as <- <-]. destruct (upd_unit i _ Q) as [Q'|]; [|done]. cbn [mbind option_bind] in H.
  by apply processData_acked in H.
Qed.
Lemma acks_step sent op R out R' a a' :
  rcv_step uninit decrypt C op R = Some (out, R') → acks_ok sent R a → isn <= a <= a' → m_iRcvLastAck R' = seqno a' →
  match op with Confirm ack => ack ∈ sent | _ => True end → acks_ok (acks_of out ++ sent) R' a'.
Proof.
  intros Es [(l & El & Hl) Hs] Ha Ea Hop.
  assert (acks_ok sent R a') as [Hl' Hs'].
  { split; [exists l; split; [done|lia]|]. intros s Hin. destruct (Hs s Hin) as (k & -> & ?). exists k. split; [done|lia]. }
  assert (m_iRcvLastAckAck R' = m_iRcvLastAckAck R → (∀ y, y ∈ acks_of out → y = seqno a') → acks_ok (acks_of out ++ sent) R' a') as Hkeep.
  { intros EA Hout. unfold acks_ok. rewrite EA. split; [done|]. intros s [->%Hout|Hin]%elem_of_app; [exists a'; split; [done|lia]|by apply Hs']. }
  destruct op as [p now|M lite now|ack|now n|now n]; cbn [rcv_step] in Es.
  - destruct (receive _ _ _ _ _ _) as [[r R1]|] eqn:E; [|done]. injection Es as <- <-. apply Hkeep; [by apply receive_acked in E|by intros y Hy%elem_of_nil].
  - destruct (sendCtrlAck _ _ _ _ _) as [[s R1]|] eqn:E; [|done]. injection Es as <- <-. apply sendCtrlAck_sent in E as [E1 E2].
    apply Hkeep; [done|]. intros y Hy%E2. congruence.
  - injection Es as <- <-. cbn [acks_of app]. split; [|done]. destruct (Hs' _ Hop) as (k & -> & Hk).
    unfold ack_confirmed. case_match; [by exists k|done].
  - destruct (readBuffer _ _ _) as [[[? ?] B]|]; [|done]. injection Es as <- <-. by apply Hkeep; [|intros y Hy%elem_of_nil].
  - destruct (readMsg _ _ _ _) as [[[[[? ?] ?] ?] B]|]; [|done]. injection Es as <- <-. by apply Hkeep; [|intros y Hy%elem_of_nil].
Qed.

(** ** Sequences of calls *)

(** What was read, call by call. *)
Definition reads (outs : list rcv_out) : list bytes := omap (λ o, match o with Bytes d | Message d => Some d | _ => None end) outs.
(** For a claim [St] of what was read, what arrived, the state and the number that is
    acknowledged, which every call that is [allowed] keeps. *)
Section run.
Context (St : list bytes → list Z → CUDT_rpath → Z → Prop) (allowed : rcv_op → Prop)
  (St_ack : ∀ D got R a, St D got R a → m_iRcvLastAck R = seqno a ∧ isn <= a)
  (St_step : ∀ D got R a op, St D got R a → op_ok op → allowed op →
    ∃ out R' a' got', rcv_step uninit decrypt C op R = Some (out, R') ∧ St (D ++ reads [out]) got' R' a' ∧ stored_by out got got' ∧ a <= a').
Lemma calls_run ops : ∀ D got R a,
  St D got R a → Forall op_ok ops → Forall allowed ops →
  ∃ outs R' a' got', rcv_run uninit decrypt C ops R = Some (outs, R') ∧ St (D ++ reads outs) got' R' a' ∧
    (∀ y, y ∈ got' ↔ y ∈ got ∨ was_stored outs y) ∧
    ∀ sent, acks_ok sent R a → confirms_sent sent ops outs → acks_ok [] R' a'.
Proof.
  induction ops as [|op ops IH]; intros D got R a H Hok Hall.
  { exists [], R, a, got. cbn [reads omap list_omap]. rewrite app_nil_r. split; [done|]. split; [done|]. split.
    - intros y. split; [by left|]. intros [?|(p & r & Hin & _)]; [done|]. by apply elem_of_nil in Hin.
    - intros sent [Hl _] _. split; [done|]. by intros s Hs%elem_of_nil. }
  apply Forall_cons in Hok as [Hop Hok]. apply Forall_cons in Hall as [Ha Hall].
  destruct (St_step D got R a op H Hop Ha) as (out & R1 & a1 & got1 & Es & H1 & S1 & Hle). cbn [rcv_run]. rewrite Es. cbn [mbind option_bind].
  destruct (IH _ _ _ _ H1 Hok Hall) as (outs & R2 & a2 & got2 & -> & H2 & S2 & Hacks). cbn [mbind option_bind].
  exists (out :: outs), R2, a2, got2. split; [done|]. split; [|split].
  - change (out :: outs) with ([out] ++ outs). unfold reads in *. by rewrite omap_app, app_assoc.
  - intros y. rewrite S2, (S1 y), (was_stored_cons out outs y). tauto.
  - intros sent Hs [Hc Hcs]. apply (Hacks (acks_of out ++ sent)); [|done]. destruct (St_ack _ _ _ _ H), (St_ack _ _ _ _ H1).
    by apply (acks_step _ op R _ _ a).
Qed.
End run.

(** ** A full ACK reaches the first number that did not arrive *)

Lemma ack_step M now R x0 a ps got :
  holding R x0 a ps got → acks_ok [] R a →
  ∃ s R' m more, rcv_step uninit decrypt C (Ack M false now) R = Some (Acked s, R') ∧ holding R' x0 m (ps ++ more) got ∧
    run_of a more ∧ m = a + Z.of_nat (length more) ∧ m ∉ got ∧ (∀ y, isn <= y < m → y ∈ got) ∧
    m_iNotch (m_pRcvBuffer R') = m_iNotch (m_pRcvBuffer R).
Proof.
  intros (w2 & curr & H) [(l & El & Hl) _]. pose proof (first_missing_spec _ _ _ _ _ _ _ _ H) as (Hm & Hn & Hall).
  destruct (sendCtrlAck_run size C M false now R x0 a ps w2 got curr H) as (s & R' & a' & more & w2' & E & H' & En & _ & Hto).
  set (m := first_missing got curr) in *.
  pose proof (ro_a _ _ _ _ _ _ _ _ H) as [Ha Hi]. pose proof (ro_a _ _ _ _ _ _ _ _ H') as [Ha' _]. rewrite length_app in Ha'.
  pose proof (ro_end _ _ _ _ _ _ _ _ H). pose proof (ro_end _ _ _ _ _ _ _ _ H'). pose proof (ro_curr _ _ _ _ _ _ _ _ H).
  assert (a' <= m) as Hle by (destruct (Z.le_gt_cases a' m); [done|]; destruct Hn; apply (ro_got _ _ _ _ _ _ _ _ H'); left; lia).
  pose proof (rb_room _ _ (rb_all _ _ _ (ro_buf _ _ _ _ _ _ _ _ H))) as Hrm. rewrite length_app, length_fmap in Hrm.
  pose proof (ro_size _ _ _ _ _ _ _ _ H) as Hsz.
  assert (0 < size <= 2 ^ 29) as Hsz2 by (destruct (ro_loss _ _ _ _ _ _ _ _ H) as [_ (c & ll & HLL & _)]; apply HLL).
  assert (a' = m) as Em.
  { destruct (decide (l = m)) as [->|Hlm]; [lia|]. apply Hto; [done|]. rewrite El. intros Eq.
    pose proof (seqno_eqb l m ltac:(lia)) as Hq. rewrite Eq, Z.eqb_refl in Hq. symmetry in Hq. by apply Z.eqb_eq in Hq. }
  cbn [rcv_step]. rewrite E. cbn [mbind option_bind]. exists s, R', m, more. split; [done|]. rewrite <- Em.
  split; [by exists w2', curr|]. split; [|split; [lia|by rewrite Em]].
  pose proof (ro_read _ _ _ _ _ _ _ _ H') as HP. apply run_app in HP as [_ HP]. by rewrite Ha.
Qed.

(** ** The receiver of a new connection *)

Lemma new_ring_ok b q : (0 < b)%nat → rb_holds (CRcvBuffer_new (CUnitQueue_init uninit q) b) [] [].
Proof.
  intros Hb. set (B := CRcvBuffer_new _ _). assert (rb_size B = Z.of_nat b) as Es by (unfold rb_size; cbn; by rewrite length_replicate).
  assert (in_ring B) as Hin by (unfold in_ring; rewrite Es; cbn; lia).
  split; [|by rewrite at_0|done]. split; [done|cbn; lia| |..].
  - intros i Hi. pose proof (at_bounds B i Hin). unfold cell. rewrite ring_at_lookup by done.
    assert (m_pUnit B !! Z.to_nat (at_ B i) = Some None) as -> by (apply lookup_replicate; split; [done|lia]). done.
  - intros i j u Hu. apply lookup_replicate in Hu as [? _]. done.
  - intros i u Hu. cbn [app] in Hu. by rewrite lookup_nil in Hu.
Qed.
Lemma new_units_ok q : (0 < q)%nat → uq_ok (CUnitQueue_init uninit q).
Proof. intros Hq. split; cbn; rewrite ?length_replicate; [done|exists 1%nat; lia|lia|lia]. Qed.
(** A receiver of which the buffer, the units and the list of losses are new. *)
Definition new_receiver (R : CUDT_rpath) : Prop :=
  ∃ b q nodes, (0 < b)%nat ∧ (0 < q)%nat ∧ Z.of_nat b <= size <= 2 ^ 29 ∧
    m_pRcvBuffer R = CRcvBuffer_new (CUnitQueue_init uninit q) b ∧ m_pRcvLossList (d_rcv R) = CRcvLossList_new nodes size.
Lemma new_rpath_ok R :
  new_receiver R → holding (setInitialRcvSeq (seqno isn) R) isn isn [] [] ∧ acks_ok [] (setInitialRcvSeq (seqno isn) R) isn ∧
    m_iNotch (m_pRcvBuffer (setInitialRcvSeq (seqno isn) R)) = 0.
Proof.
  intros (b & q & nodes & Hb & Hq & Hs & EB & EL). split; [|split; [|by cbn; rewrite EB]].
  - exists [], (isn - 1). split; cbn [setInitialRcvSeq set_acks set_rcv m_pRcvBuffer d_rcv m_iRcvLastSkipAck m_iRcvLastAck]; rewrite ?EB; try done.
    + by apply new_ring_ok.
    + by apply new_units_ok.
    + cbn. lia.
    + lia.
    + intros y. split; [by intros ?%elem_of_nil|]. intros [?|[_ (? & Hx)]]; [lia|by rewrite lookup_nil in Hx].
    + unfold gaps. rewrite seqZ_nil by lia. split; [cbn; apply decseq_seqno|].
      cbn [with_currseq m_pRcvLossList]. rewrite EL. apply CRcvLossList_new_ok. lia.
    + by intros y ?%elem_of_nil.
    + cbn. lia.
    + unfold rb_size. cbn. rewrite length_replicate. lia.
  - split; [exists isn; split; [done|lia]|by intros s ?%elem_of_nil].
Qed.

(** ** The stream mode *)

(** [D] was read up to now. *)
Definition stream_at (D : list bytes) (got : list Z) (R : CUDT_rpath) (a : Z) : Prop :=
  ∃ x0 ps, holding R x0 a ps got ∧ notch_ok (m_iNotch (m_pRcvBuffer R)) ps ∧
    concat D ++ unread (m_iNotch (m_pRcvBuffer R)) ps = bytes_to a.
Definition reads_stream (op : rcv_op) : Prop := match op with ReadMsg _ _ => False | _ => True end.

Lemma holding_ack R x0 a ps got : holding R x0 a ps got → m_iRcvLastAck R = seqno a ∧ isn <= a.
Proof. intros (w2 & curr & []). split; [done|lia]. Qed.
Lemma stream_step D got R a op :
  stream_at D got R a → op_ok op → reads_stream op →
  ∃ out R' a' got', rcv_step uninit decrypt C op R = Some (out, R') ∧ stream_at (D ++ reads [out]) got' R' a' ∧
    stored_by out got got' ∧ a <= a'.
Proof.
  intros (x0 & ps & H & Hn & E) Hop Hr. destruct (match op with Read _ _ => true | _ => false end) eqn:Erd.
  - destruct op as [| | |now n|]; try done. destruct H as (w2 & curr & H). destruct (H) as [HB HQ HT _ _ _ _ _ _ _ _ _ _ _].
    cbn [rcv_step op_ok] in *. destruct (readBuffer_run now n _ ps w2 HB HT Hn Hop) as (B & ps' & -> & HB' & Hn' & Hu & (dn & ->) & E1 & E2 & E3).
    cbn [mbind option_bind]. eexists _, _, a, got. split; [done|]. split; [|by split; [apply not_stored|]].
    exists (x0 + Z.of_nat (length dn)), ps'. split; [exists w2, curr; by eapply read_ok|]. cbn [set_buffer m_pRcvBuffer].
    split; [done|]. cbn [reads omap list_omap]. rewrite concat_app. cbn [concat]. by rewrite app_nil_r, Hu, <- app_assoc, take_drop.
  - destruct (receive_step op R x0 a ps got H Hop) as (out & R' & more & got' & Es & H' & Hmore & Hst & En & Hout); [by destruct op|].
    exists out, R', (a + Z.of_nat (length more)), got'. split; [done|]. split; [|split; [done|lia]]. exists x0, (ps ++ more). rewrite En.
    split; [done|]. split; [by apply notch_app|]. rewrite unread_app by done.
    assert (reads [out] = []) as -> by (by destruct out). rewrite app_nil_r, app_assoc, E. symmetry. apply bytes_to_app; [done|].
    apply (holding_ack _ _ _ _ _ H).
Qed.
Lemma rcv_stream_run ops D got R a :
  stream_at D got R a → Forall op_ok ops → Forall reads_stream ops →
  ∃ outs R' a' got', rcv_run uninit decrypt C ops R = Some (outs, R') ∧ stream_at (D ++ reads outs) got' R' a' ∧
    (∀ y, y ∈ got' ↔ y ∈ got ∨ was_stored outs y) ∧ ∀ sent, acks_ok sent R a → confirms_sent sent ops outs → acks_ok [] R' a'.
Proof.
  apply calls_run; [|by apply stream_step]. intros ? ? ? ? (x0 & ps & H & _). by eapply holding_ack.
Qed.

(** ** The message mode *)

Section messages.
Context (msgs : list (list spkt)) (Hstream : stream = concat msgs).
Definition msg_bytes (m : list spkt) : bytes := concat (q_data <$> m).
(** A message in order: its first and its last packet are marked. *)
Definition well_formed (m : list spkt) : Prop :=
  (0 < length m)%nat ∧ ∀ i s, m !! i = Some s →
    0 < len (q_data s) ∧ Z.testbit (q_bits s) 29 = true ∧ Z.testbit (q_bits s) 31 = (i =? 0)%nat ∧
    Z.testbit (q_bits s) 30 = (i =? length m - 1)%nat.
Context (Hmsgs : Forall well_formed msgs).
Definition begins (k : nat) : Z := isn + Z.of_nat (length (concat (take k msgs))).

Lemma begins_S k m : msgs !! k = Some m → begins (S k) = begins k + Z.of_nat (length m).
Proof. intros Hm. unfold begins. rewrite (take_S_r _ _ _ Hm), concat_app, length_app. cbn [concat]. rewrite app_nil_r. lia. Qed.
Lemma in_message k m j : msgs !! k = Some m → (j < length m)%nat → pkt_at (begins k + Z.of_nat j) = m !! j.
Proof.
  intros Hm Hj. unfold pkt_at, begins. rewrite (proj2 (Z.leb_le _ _)) by lia.
  set (pre := concat (take k msgs)). replace (Z.to_nat _) with (length pre + j)%nat by lia.
  rewrite Hstream. rewrite <- (take_drop k msgs), concat_app, (drop_S _ _ _ Hm). fold pre. cbn [concat].
  rewrite lookup_app_r by lia. rewrite lookup_app_l by lia. f_equal. lia.
Qed.
(** The packets read next: those of message [k] first. *)
Lemma message_bits k m ps i q :
  msgs !! k = Some m → run_of (begins k) ps → ps !! i = Some q → (i < length m)%nat →
  is_first (getMsgBoundary q) = (i =? 0)%nat ∧ is_last (getMsgBoundary q) = (S i =? length m)%nat ∧ q_data <$> m !! i = Some (m_pcData q).
Proof.
  intros Hm H Hq Hi. destruct (H i q Hq) as (_ & s & Hs & Ed & (E1 & E2 & _)). rewrite (in_message k m) in Hs by done.
  destruct (bound_bits q) as [-> ->]. rewrite E1, E2, Hs, Ed. destruct (proj1 (Forall_lookup _ _) Hmsgs k m Hm) as [_ Hw].
  destruct (Hw i s Hs) as (_ & _ & -> & ->). split; [done|]. split; [|done]. apply Bool.eq_iff_eq_true. rewrite !Nat.eqb_eq. lia.
Qed.
Lemma slots_ordered a w2 : isn <= a → slots a w2 → ordered w2.
Proof.
  intros Ha Hs i u Hu. destruct (Hs _ _ Hu) as [?|(q & Eq & _ & s & Hp & _ & (_ & _ & E))]; [done|]. injection Eq as ->.
  unfold getMsgOrderFlag. cbn [m_Packet]. rewrite E. unfold pkt_at in Hp. case_match; [|done].
  rewrite Hstream in Hp. apply list_elem_of_lookup_2, list_elem_of_In, in_concat in Hp as (m & Hin & Hm).
  apply list_elem_of_In in Hin, Hm. apply list_elem_of_lookup in Hm as [j Hj].
  destruct (proj1 (Forall_forall _ _) Hmsgs m Hin) as [_ Hw]. by destruct (Hw j s Hj) as (_ & -> & _).
Qed.

(** [D] was read up to now: the first messages, and calls that found none. *)
Definition msgs_at (D : list bytes) (got : list Z) (R : CUDT_rpath) (a : Z) : Prop :=
  ∃ k ps, holding R (begins k) a ps got ∧ (k <= length msgs)%nat ∧ filter (λ d, d ≠ []) D = msg_bytes <$> take k msgs.
(** The buffer of the reader has room for any message. *)
Definition reads_msgs (op : rcv_op) : Prop :=
  match op with Read _ _ => False | ReadMsg _ n => Forall (λ m, len (msg_bytes m) <= n) msgs | _ => True end.

Lemma holding_run R x0 a ps got : holding R x0 a ps got → run_of x0 ps ∧ a = x0 + Z.of_nat (length ps) ∧ a <= isn + Z.of_nat (length stream).
Proof. intros (w2 & curr & []). split; [done|lia]. Qed.
Lemma msg_not_empty m : well_formed m → msg_bytes m ≠ [].
Proof.
  intros [Hl Hw]. destruct m as [|s m]; [cbn in Hl; lia|]. destruct (Hw 0%nat s eq_refl) as [Hd _].
  unfold msg_bytes. cbn [fmap list_fmap concat]. destruct (q_data s); [by cbn in Hd|done].
Qed.

(** A message that is all acknowledged is read; otherwise nothing is. *)
Lemma read_whole now n R k a ps got m :
  holding R (begins k) a ps got → msgs !! k = Some m → (length m <= length ps)%nat → len (msg_bytes m) <= n → 0 < n →
  ∃ R', rcv_step uninit decrypt C (ReadMsg now n) R = Some (Message (msg_bytes m), R') ∧
    holding R' (begins (S k)) a (drop (length m) ps) got.
Proof.
  intros H Hm Hl Hn Hn0. destruct (holding_run _ _ _ _ _ H) as (HP & _ & _). destruct H as (w2 & curr & H).
  destruct (H) as [HB HQ HT _ _ _ _ _ _ _ _ _ _ _]. destruct (proj1 (Forall_lookup _ _) Hmsgs k m Hm) as [Hl0 _].
  assert (message_of ps (length m)) as HM.
  { split; [lia|..]; intros i q Hi Hq; by destruct (message_bits k m ps i q Hm HP Hq Hi) as (? & ? & _). }
  destruct (readMsg_message now n _ ps w2 _ HB HT HM Hn0) as (o & B & E & HB' & E1 & E2 & E3 & E4).
  assert (m_pcData <$> take (length m) ps = q_data <$> m) as Ed.
  { apply list_eq. intros i. rewrite !list_lookup_fmap. destruct (decide (i < length m)%nat) as [Hi|Hi].
    - rewrite lookup_take_lt by done. destruct (lookup_lt_is_Some_2 ps i) as [q Hq]; [lia|]. rewrite Hq.
      by destruct (message_bits k m ps i q Hm HP Hq Hi) as (_ & _ & ->).
    - rewrite lookup_take_ge, lookup_ge_None_2 by lia. done. }
  assert (take (Z.to_nat n) (concat (m_pcData <$> take (length m) ps)) = msg_bytes m) as Et.
  { rewrite Ed. apply take_ge. unfold msg_bytes, len in *. lia. }
  rewrite Et in E. cbn [rcv_step]. rewrite E. cbn [mbind option_bind]. eexists. split; [done|].
  exists w2, curr. rewrite (begins_S k m Hm). rewrite <- (take_drop (length m) ps) in H.
  assert (length (take (length m) ps) = length m) as El by (rewrite length_take; lia).
  rewrite <- El at 1. by eapply read_ok.
Qed.
Lemma read_nothing now n R k a ps got :
  holding R (begins k) a ps got → (k <= length msgs)%nat → (∀ m, msgs !! k = Some m → (length ps < length m)%nat) → 0 < n →
  ∃ R', rcv_step uninit decrypt C (ReadMsg now n) R = Some (Message [], R') ∧ holding R' (begins k) a ps got.
Proof.
  intros H Hk Hsh Hn. destruct (holding_run _ _ _ _ _ H) as (HP & Ha & He). destruct (holding_ack _ _ _ _ _ H) as [_ Hi].
  destruct H as (w2 & curr & H). destruct (H) as [HB HQ HT _ _ _ HW _ _ _ _ _ _ _].
  assert (∀ i q, ps !! i = Some q → is_first (getMsgBoundary q) = (i =? 0)%nat ∧ is_last (getMsgBoundary q) = false) as Hbits.
  { intros i q Hq. pose proof (lookup_lt_Some _ _ _ Hq) as Hil. destruct (msgs !! k) as [m|] eqn:Em.
    - specialize (Hsh m eq_refl). destruct (message_bits k m ps i q Em HP Hq ltac:(lia)) as (-> & -> & _). split; [done|].
      apply Nat.eqb_neq. lia.
    - apply lookup_ge_None in Em. unfold begins in Ha. rewrite take_ge, <- Hstream in Ha by lia. lia. }
  destruct (readMsg_none now n _ ps w2 HB HT) as (o & B & E & HB' & E1 & E2 & E3 & E4); [| | |done|].
  - intros i q Hq. by destruct (Hbits i q Hq).
  - by apply (slots_ordered a).
  - intros q Hq. destruct (Hbits 0%nat q) as [-> _]; [by destruct ps|done].
  - cbn [rcv_step]. rewrite E. cbn [mbind option_bind]. eexists. split; [done|]. exists w2, curr.
    pose proof (read_ok size R (begins k) a [] ps w2 got curr B H HB' E1 E3 E4) as H'. cbn [length] in H'. by rewrite Z.add_0_r in H'.
Qed.

Lemma msgs_step D got R a op :
  msgs_at D got R a → op_ok op → reads_msgs op →
  ∃ out R' a' got', rcv_step uninit decrypt C op R = Some (out, R') ∧ msgs_at (D ++ reads [out]) got' R' a' ∧
    stored_by out got got' ∧ a <= a'.
Proof.
  intros (k & ps & H & Hk & E) Hop Hr. destruct (match op with ReadMsg _ _ => true | _ => false end) eqn:Erd.
  - destruct op as [| | | |now n]; try done. cbn [op_ok reads_msgs] in Hop, Hr.
    assert ((∃ m, msgs !! k = Some m ∧ (length m <= length ps)%nat) ∨ ∀ m, msgs !! k = Some m → (length ps < length m)%nat)
      as [(m & Hm & Hl)|Hno].
    { destruct (msgs !! k) as [m|]; [|by right]. destruct (decide (length m <= length ps)%nat); [left; by exists m|].
      right. intros ? [= <-]. lia. }
    + destruct (read_whole now n R k a ps got m H Hm Hl) as (R' & -> & H'); [by apply (proj1 (Forall_lookup _ _) Hr k)|done|].
      eexists _, R', a, got. split; [done|]. split; [|by split; [apply not_stored|]]. exists (S k), (drop (length m) ps).
      split; [done|]. split; [by apply lookup_lt_Some in Hm|]. rewrite filter_app, E. cbn [reads omap list_omap].
      rewrite filter_cons_True, filter_nil by (apply msg_not_empty; by apply (proj1 (Forall_lookup _ _) Hmsgs k)).
      by rewrite (take_S_r _ _ _ Hm), fmap_app.
    + destruct (read_nothing now n R k a ps got H Hk) as (R' & -> & H'); [done..|].
      eexists _, R', a, got. split; [done|]. split; [|by split; [apply not_stored|]]. exists k, ps.
      split; [done|]. split; [done|]. rewrite filter_app, E. cbn [reads omap list_omap]. rewrite filter_cons_False by (by intros []).
      by rewrite filter_nil, app_nil_r.
  - destruct (receive_step op R (begins k) a ps got H Hop) as (out & R' & more & got' & Es & H' & Hmore & Hst & En & Hout); [by destruct op|].
    exists out, R', (a + Z.of_nat (length more)), got'. split; [done|]. split; [|split; [done|lia]]. exists k, (ps ++ more).
    assert (reads [out] = []) as -> by (by destruct out). by rewrite app_nil_r.
Qed.
Lemma msgs_run ops D got R a :
  msgs_at D got R a → Forall op_ok ops → Forall reads_msgs ops →
  ∃ outs R' a' got', rcv_run uninit decrypt C ops R = Some (outs, R') ∧ msgs_at (D ++ reads outs) got' R' a' ∧
    (∀ y, y ∈ got' ↔ y ∈ got ∨ was_stored outs y) ∧ ∀ sent, acks_ok sent R a → confirms_sent sent ops outs → acks_ok [] R' a'.
Proof.
  apply calls_run; [|by apply msgs_step]. intros ? ? ? ? (k & ps & H & _). by eapply holding_ack.
Qed.
End messages.
End calls.
End stream.
