(* ===== verification/AckWindow.v ===== *)
(** * The window of acknowledgements

    CACKWindow of window.h and window.cpp: which ACK had which number, and when it was
    sent; and processCtrlAckAck of core.cpp, which measures the round trip and tells the
    receiver ([RcvPath]) what the sender has seen. *)
From S2P Require Import Prelude SndBuf SndPath TsbPd RcvBuf RcvPath.

Record Seq := { iACKSeqNo : Z; iACK : Z; tsTimeStamp : Z }.
(** The size is the length of the array, a power of two in the code. *)
Record CACKWindow := { m_aSeq : list Seq; m_iHead : Z; m_iTail : Z }.
Definition aw_size (W : CACKWindow) : Z := Z.of_nat (length (m_aSeq W)).
Definition ACK_WND_SIZE : nat := 1024.
Definition no_number (s : Seq) : Seq := {| iACKSeqNo := -1; iACK := iACK s; tsTimeStamp := tsTimeStamp s |}.
Definition CACKWindow_new (size : nat) : CACKWindow :=
  {| m_aSeq := alter no_number 0%nat (replicate size {| iACKSeqNo := 0; iACK := 0; tsTimeStamp := 0 |}); m_iHead := 0; m_iTail := 0 |}.

(** [None] is an index outside of the array. *)
Definition aw_at (W : CACKWindow) (i : Z) : option Seq := if i <? 0 then None else m_aSeq W !! Z.to_nat i.
Definition aw_set (f : Seq → Seq) (i : Z) (W : CACKWindow) : option CACKWindow :=
  _ ← aw_at W i; Some {| m_aSeq := alter f (Z.to_nat i) (m_aSeq W); m_iHead := m_iHead W; m_iTail := m_iTail W |}.
Definition aw_move (head tail : Z) (W : CACKWindow) : CACKWindow := {| m_aSeq := m_aSeq W; m_iHead := head; m_iTail := tail |}.

(** [ACKWindowTools::store]. *)
Definition aw_store (seq ack now : Z) (W : CACKWindow) : option CACKWindow :=
  W ← aw_set (λ _, {| iACKSeqNo := seq; iACK := ack; tsTimeStamp := now |}) (m_iHead W) W;
  let head := (m_iHead W + 1) mod aw_size W in
  Some (aw_move head (if head =? m_iTail W then (m_iTail W + 1) mod aw_size W else m_iTail W) W).

(** [ACKWindowTools::acknowledge]: the two loops, over the indices from [i] to [n]. *)
Fixpoint ack_loop (fuel : nat) (W : CACKWindow) (i n seq : Z) : option (option Z) :=
  match fuel with
  | O => None
  | S fuel' =>
      if i <? n then
        s ← aw_at W (i mod aw_size W);
        if seq =? iACKSeqNo s then Some (Some (i mod aw_size W)) else ack_loop fuel' W (i + 1) n seq
      else Some None
  end.
Definition aw_empty (W : CACKWindow) : option CACKWindow := aw_set no_number 0 (aw_move 0 0 W).
(** The time since the ACK was sent and what it acknowledged; -1 and nothing when there is
    no such ACK. *)
Definition acknowledge (seq currtime : Z) (W : CACKWindow) : option (Z * option Z * CACKWindow) :=
  let straight := m_iTail W <=? m_iHead W in
  i ← ack_loop (S (length (m_aSeq W))) W (m_iTail W) (if straight then m_iHead W else m_iHead W + aw_size W) seq;
  match i with
  | None => Some (-1, None, W)
  | Some i =>
      s ← aw_at W i;
      W ← (if (if straight then i + 1 =? m_iHead W else i =? m_iHead W) then aw_empty W
           else Some (aw_move (m_iHead W) ((i + 1) mod aw_size W) W));
      Some (i32 (currtime - tsTimeStamp s), Some (iACK s), W)
  end.

(** ** The round trip *)

(** [avg_iir<n>]; the template's [size_t] makes the arithmetic unsigned. *)
Definition avg_iir (n old_value new_value : Z) : Z := i32 (u64 (u64 (old_value * (n - 1)) + new_value) / n).
Record CUDT_acks := { m_ACKWindow : CACKWindow; m_iSRTT : Z; m_iRTTVar : Z; m_bIsFirstRTTReceived : bool }.
Definition rtt_sample (rtt : Z) (A : CUDT_acks) : CUDT_acks :=
  if m_bIsFirstRTTReceived A then
    {| m_ACKWindow := m_ACKWindow A; m_iSRTT := avg_iir 8 (m_iSRTT A) rtt;
       m_iRTTVar := avg_iir 4 (m_iRTTVar A) (Z.abs (rtt - m_iSRTT A)); m_bIsFirstRTTReceived := true |}
  else {| m_ACKWindow := m_ACKWindow A; m_iSRTT := rtt; m_iRTTVar := Z.quot rtt 2; m_bIsFirstRTTReceived := true |}.
Definition with_window (W : CACKWindow) (A : CUDT_acks) : CUDT_acks :=
  {| m_ACKWindow := W; m_iSRTT := m_iSRTT A; m_iRTTVar := m_iRTTVar A; m_bIsFirstRTTReceived := m_bIsFirstRTTReceived A |}.
(** [processCtrlAckAck], with the time stamp of the packet and the time [now] at which the
    drift is sampled. *)
Definition processCtrlAckAck (bDriftTracer : bool) (seq stamp tsArrival now : Z) (A : CUDT_acks) (R : CUDT_rpath) : option (CUDT_acks * CUDT_rpath) :=
  '(rtt, ack, W) ← acknowledge seq tsArrival (m_ACKWindow A);
  let A := with_window W A in
  match ack with
  | Some ack =>
      if rtt <=? 0 then Some (A, R)
      else
        let R := if bDriftTracer then set_buffer (addRcvTsbPdDriftSample stamp rtt now (m_pRcvBuffer R)).2 R else R in
        Some (rtt_sample rtt A, ack_confirmed ack R)
  | None => Some (A, R)
  end.

(** ** The receiver with its window, one step each *)

Inductive win_op :=
  | Call (op : rcv_op)
  | AckAck (seq stamp tsArrival now : Z).
Section run.
Context (uninit : CPacket) (decrypt : CPacket → option bytes) (C : rcv_config) (bDriftTracer : bool).
(** A full ACK is written into the window. *)
Definition win_step (op : win_op) (X : CUDT_acks * CUDT_rpath) : option (rcv_out * (CUDT_acks * CUDT_rpath)) :=
  let '(A, R) := X in
  match op with
  | Call op =>
      '(out, R) ← rcv_step uninit decrypt C op R;
      A ← match op, out with
          | Ack _ _ now, Acked (FullAck seq _) => W ← aw_store seq (m_iRcvLastAck R) now (m_ACKWindow A); Some (with_window W A)
          | _, _ => Some A
          end;
      Some (out, (A, R))
  | AckAck seq stamp tsArrival now => X ← processCtrlAckAck bDriftTracer seq stamp tsArrival now A R; Some (Confirmed, X)
  end.
Fixpoint win_run (ops : list win_op) (X : CUDT_acks * CUDT_rpath) : option (list rcv_out * (CUDT_acks * CUDT_rpath)) :=
  match ops with
  | [] => Some ([], X)
  | op :: ops => '(out, X) ← win_step op X; '(outs, X) ← win_run ops X; Some (out :: outs, X)
  end.
End run.
