(* ===== verification/AckWindowFacts.v ===== *)
(** * The window of acknowledgements as a queue

    The window holds the records of the last ACKs, the oldest first ([aw_holds]); an
    ACKACK takes out the first record with its number, and those before it. *)
From S2P Require Import Prelude SeqNo SndBuf SndBufFacts SndPath TsbPd RcvBuf RcvPath RcvPathFacts AckWindow.

Lemma mod_once x s : 0 <= x < 2 * s → x mod s = if x <? s then x else x - s.
Proof.
  intros Hx. destruct (Z.ltb_spec x s); [by rewrite Z.mod_small by lia|].
  replace x with (x - s + 1 * s) at 1 by lia. rewrite Z.mod_add by lia. by rewrite Z.mod_small by lia.
Qed.

Record aw_holds (W : CACKWindow) (q : list Seq) : Prop := {
  aw_tail : 0 <= m_iTail W < aw_size W;
  aw_head : m_iHead W = (m_iTail W + Z.of_nat (length q)) mod aw_size W;
  aw_room : 1 < aw_size W ∧ Z.of_nat (length q) < aw_size W;
  aw_in : ∀ i s, q !! i = Some s → m_aSeq W !! Z.to_nat ((m_iTail W + Z.of_nat i) mod aw_size W) = Some s }.
Definition find_ack (seq : Z) (q : list Seq) : option (nat * Seq) := list_find (λ s, iACKSeqNo s = seq) q.

Lemma aw_size_alter W f i : aw_size {| m_aSeq := alter f i (m_aSeq W); m_iHead := m_iHead W; m_iTail := m_iTail W |} = aw_size W.
Proof. unfold aw_size. cbn. by rewrite length_alter. Qed.
Lemma aw_set_run f i W : 0 <= i < aw_size W →
  aw_set f i W = Some {| m_aSeq := alter f (Z.to_nat i) (m_aSeq W); m_iHead := m_iHead W; m_iTail := m_iTail W |}.
Proof.
  intros Hi. unfold aw_set, aw_at. rewrite (proj2 (Z.ltb_ge _ _)) by lia.
  destruct (lookup_lt_is_Some_2 (m_aSeq W) (Z.to_nat i)) as [s ->]; [unfold aw_size in *; lia|done].
Qed.
(** A record at the end of the queue; the oldest one makes room. *)
Definition push (size : Z) (s : Seq) (q : list Seq) : list Seq := (if Z.of_nat (length q) =? size - 1 then tail q else q) ++ [s].
Lemma aw_store_run seq ack now W q :
  aw_holds W q →
  ∃ W', aw_store seq ack now W = Some W' ∧ aw_holds W' (push (aw_size W) {| iACKSeqNo := seq; iACK := ack; tsTimeStamp := now |} q) ∧ aw_size W' = aw_size W.
Proof.
  intros [Ht Hh [Hs Hl] Hq]. unfold aw_store, push. set (s := {| iACKSeqNo := _ |}). set (n := aw_size W) in *.
  rewrite (mod_once (m_iTail W + Z.of_nat (length q)) n) in Hh by lia.
  assert ((m_iHead W = m_iTail W + Z.of_nat (length q) ∧ m_iHead W < n) ∨ (m_iHead W = m_iTail W + Z.of_nat (length q) - n ∧ 0 <= m_iHead W))
    as Hd by (destruct (Z.ltb_spec (m_iTail W + Z.of_nat (length q)) n); lia). clear Hh.
  rewrite aw_set_run by lia. cbn [mbind option_bind m_iHead m_iTail]. rewrite aw_size_alter. fold n.
  assert (m_aSeq W !! Z.to_nat (m_iHead W) ≠ None) as Hin by (apply not_eq_None_Some, lookup_lt_is_Some_2; unfold n, aw_size in *; lia).
  assert (∀ x, (0 <= x < n ∧ m_iHead W ≠ x → alter (λ _, s) (Z.to_nat (m_iHead W)) (m_aSeq W) !! Z.to_nat x = m_aSeq W !! Z.to_nat x) ∧
    alter (λ _, s) (Z.to_nat (m_iHead W)) (m_aSeq W) !! Z.to_nat (m_iHead W) = Some s) as Hget.
  { intros x. split.
    - intros [Hx Hne]. apply list_lookup_alter_ne. lia.
    - rewrite list_lookup_alter_eq. by destruct (m_aSeq W !! Z.to_nat (m_iHead W)). }
  rewrite (mod_once (m_iHead W + 1)), (mod_once (m_iTail W + 1)) by lia.
  eexists. split; [done|]. split; [|exact (aw_size_alter W _ _)].
  unfold aw_move. cbn [m_aSeq m_iHead m_iTail].
  split; unfold aw_size; cbn [m_aSeq m_iHead m_iTail]; rewrite ?length_alter; fold (aw_size W); fold n.
  - repeat case_match; lia.
  - destruct (Z.eqb_spec (Z.of_nat (length q)) (n - 1)); destruct q as [|x q]; cbn [tail] in *; rewrite ?length_app; cbn [length] in *;
      rewrite mod_once by (repeat case_match; lia); repeat case_match; lia.
  - split; [done|]. destruct (Z.eqb_spec (Z.of_nat (length q)) (n - 1)); destruct q as [|x q]; cbn [tail]; rewrite ?length_app; cbn [length] in *; lia.
  - intros i y Hi. assert (∀ j, q !! j = Some y → (j < length q)%nat) as Hlen by (intros j Hj; by eapply lookup_lt_Some).
    destruct (Z.eqb_spec (Z.of_nat (length q)) (n - 1)) as [El|El].
    + assert (length (tail q) = (length q - 1)%nat) as Etl by (by destruct q; cbn; lia).
      apply lookup_app_Some in Hi as [Hi|[Hge Hi]].
      * rewrite lookup_tail in Hi. pose proof (Hlen _ Hi). pose proof (Hq _ _ Hi) as Hy.
        rewrite mod_once in * by (repeat case_match; lia). rewrite (proj1 (Hget _)); [|repeat case_match; lia].
        rewrite <- Hy. f_equal. f_equal. repeat case_match; lia.
      * apply list_lookup_singleton_Some in Hi as [Hz <-]. rewrite mod_once by (repeat case_match; lia).
        rewrite <- (proj2 (Hget 0)). f_equal. f_equal. repeat case_match; lia.
    + apply lookup_app_Some in Hi as [Hi|[Hge Hi]].
      * pose proof (Hlen _ Hi). pose proof (Hq _ _ Hi) as Hy.
        rewrite mod_once in * by (repeat case_match; lia). rewrite (proj1 (Hget _)); [|repeat case_match; lia].
        rewrite <- Hy. f_equal. f_equal. repeat case_match; lia.
      * apply list_lookup_singleton_Some in Hi as [Hz <-]. rewrite mod_once by (repeat case_match; lia).
        rewrite <- (proj2 (Hget 0)). f_equal. f_equal. repeat case_match; lia.
Qed.
Lemma ack_search_run W q fuel : aw_holds W q → ∀ k seq,
  (k <= length q)%nat → (length q - k < fuel)%nat →
  ack_loop fuel W (m_iTail W + Z.of_nat k) (m_iTail W + Z.of_nat (length q)) seq
  = Some (match find_ack seq (drop k q) with Some (j, _) => Some ((m_iTail W + Z.of_nat (k + j)) mod aw_size W) | None => None end).
Proof.
  intros H. induction fuel as [|fuel IH]; intros k seq Hk Hf; [lia|]. cbn [ack_loop].
  destruct (Z.ltb_spec (m_iTail W + Z.of_nat k) (m_iTail W + Z.of_nat (length q))).
  2: { rewrite drop_ge by lia. done. }
  destruct (lookup_lt_is_Some_2 q k) as [s Hs]; [lia|]. destruct (aw_room _ _ H).
  unfold aw_at. rewrite (proj2 (Z.ltb_ge _ _)) by (apply Z.mod_pos_bound; lia). rewrite (aw_in _ _ H _ _ Hs). cbn [mbind option_bind].
  rewrite (drop_S _ _ _ Hs). unfold find_ack. cbn [list_find]. destruct (Z.eqb_spec seq (iACKSeqNo s)) as [->|Hne].
  - rewrite decide_True by done. by rewrite Nat.add_0_r.
  - rewrite decide_False by done. replace (m_iTail W + Z.of_nat k + 1) with (m_iTail W + Z.of_nat (S k)) by lia.
    rewrite IH by lia. unfold find_ack. destruct (list_find _ (drop (S k) q)) as [[j x]|]; [|done]. cbn.
    do 3 f_equal. lia.
Qed.
Definition acknowledged (seq currtime : Z) (q : list Seq) : Z * option Z * list Seq :=
  match find_ack seq q with
  | Some (j, s) => (i32 (currtime - tsTimeStamp s), Some (iACK s), drop (S j) q)
  | None => (-1, None, q)
  end.
Lemma acknowledge_run seq currtime W q :
  aw_holds W q → ∃ W', acknowledge seq currtime W = Some ((acknowledged seq currtime q).1, W') ∧
    aw_holds W' (acknowledged seq currtime q).2 ∧ aw_size W' = aw_size W.
Proof.
  intros H. destruct (H) as [Ht Hh [Hs Hl] Hq]. unfold acknowledge, acknowledged. set (n := aw_size W) in *.
  rewrite mod_once in Hh by lia.
  assert ((if m_iTail W <=? m_iHead W then m_iHead W else m_iHead W + n) = m_iTail W + Z.of_nat (length q)) as ->.
  { destruct (Z.leb_spec (m_iTail W) (m_iHead W)), (Z.ltb_spec (m_iTail W + Z.of_nat (length q)) n); lia. }
  pose proof (ack_search_run W q (S (length (m_aSeq W))) H 0 seq ltac:(lia)) as E. rewrite Z.add_0_r, drop_0 in E.
  rewrite E by (unfold n, aw_size in *; lia). clear E. cbn [mbind option_bind]. fold n.
  destruct (find_ack seq q) as [[j s]|] eqn:Ef; [|by exists W]. apply list_find_Some in Ef as (Hj & _). pose proof (lookup_lt_Some _ _ _ Hj) as Hjl.
  cbn [Nat.add fst snd]. pose proof (Hq _ _ Hj) as Hat. pose proof (Z.mod_pos_bound (m_iTail W + Z.of_nat j) n ltac:(lia)) as Hb.
  unfold aw_at at 1. rewrite (proj2 (Z.ltb_ge _ _)) by lia. rewrite Hat. cbn [mbind option_bind].
  rewrite (mod_once (m_iTail W + Z.of_nat j)) in * by lia. set (i := if m_iTail W + Z.of_nat j <? n then _ else _) in *.
  assert ((i = m_iTail W + Z.of_nat j ∧ i < n) ∨ (i = m_iTail W + Z.of_nat j - n ∧ n <= m_iTail W + Z.of_nat j)) as Hi
    by (unfold i; destruct (Z.ltb_spec (m_iTail W + Z.of_nat j) n); lia). clearbody i.
  assert ((m_iHead W = m_iTail W + Z.of_nat (length q) ∧ m_iHead W < n) ∨ (m_iHead W = m_iTail W + Z.of_nat (length q) - n ∧ n <= m_iTail W + Z.of_nat (length q)))
    as Hd by (destruct (Z.ltb_spec (m_iTail W + Z.of_nat (length q)) n); lia). clear Hh.
  destruct (if m_iTail W <=? m_iHead W then i + 1 =? m_iHead W else i =? m_iHead W) eqn:Ee.
  - assert (S j = length q) as Elast by (destruct (Z.leb_spec (m_iTail W) (m_iHead W)); lia).
    unfold aw_empty. rewrite aw_set_run by (unfold aw_move, aw_size in *; cbn; lia). cbn [mbind option_bind]. eexists. split; [done|].
    rewrite drop_ge by lia. split; [|unfold n, aw_size; cbn; by rewrite length_alter].
    split; unfold aw_size; cbn [aw_move m_iTail m_iHead m_aSeq length]; rewrite ?length_alter; fold (aw_size W); fold n; try lia.
    + by rewrite Z.mod_0_l by lia.
    + intros k x Hx. by rewrite lookup_nil in Hx.
  - cbn [mbind option_bind]. eexists. split; [done|]. split; [|done].
    rewrite (mod_once (i + 1)) by lia.
    split; unfold aw_size; cbn [aw_move m_iTail m_iHead m_aSeq]; fold (aw_size W); fold n; rewrite ?length_drop.
    + repeat case_match; lia.
    + rewrite mod_once by (repeat case_match; lia). repeat case_match; lia.
    + lia.
    + intros k x Hx. rewrite lookup_drop in Hx. pose proof (lookup_lt_Some _ _ _ Hx). rewrite <- (Hq _ _ Hx). f_equal. f_equal.
      rewrite !mod_once by (repeat case_match; lia). repeat case_match; lia.
Qed.
Lemma new_window size : (1 < size)%nat → aw_holds (CACKWindow_new size) [].
Proof.
  intros Hs. assert (aw_size (CACKWindow_new size) = Z.of_nat size) as E by (unfold aw_size; cbn; by rewrite length_alter, length_replicate).
  split; rewrite ?E; cbn [CACKWindow_new m_iTail m_iHead length]; try lia.
  - by rewrite Z.mod_0_l by lia.
  - intros i s Hi. by rewrite lookup_nil in Hi.
Qed.

(** ** The round trip *)

Lemma avg_iir_run n a b : 0 < n <= 2 ^ 31 → 0 <= a < 2 ^ 31 → 0 <= b < 2 ^ 31 → avg_iir n a b = (a * (n - 1) + b) / n.
Proof.
  intros Hn Ha Hb. unfold avg_iir. assert (0 <= a * (n - 1) + b < 2 ^ 31 * n) as Hs by nia.
  assert (2 ^ 31 * n <= 2 ^ 62) by (pow2; lia). assert (0 <= a * (n - 1)) by nia. assert (2 ^ 62 < 2 ^ 64) by done.
  unfold u64. rewrite !Z.mod_small by (rewrite ?Z.mod_small; lia).
  assert (0 <= (a * (n - 1) + b) / n < 2 ^ 31) by (split; [apply Z.div_pos; lia|apply Z.div_lt_upper_bound; lia]).
  unfold i32. rewrite Z.mod_small by lia. lia.
Qed.
Lemma avg_iir_between lo hi n a b : 0 < n <= 2 ^ 31 → 0 <= lo → hi < 2 ^ 31 → lo <= a <= hi → lo <= b <= hi → lo <= avg_iir n a b <= hi.
Proof.
  intros Hn Hlo Hhi Ha Hb. rewrite avg_iir_run by lia.
  split; [apply Z.div_le_lower_bound; [lia|nia]|apply Z.div_le_upper_bound; [lia|nia]].
Qed.
(** The smoothed round trip stays between the samples. *)
Definition rtt_between (lo hi : Z) (A : CUDT_acks) : Prop := lo <= m_iSRTT A <= hi ∧ 0 <= m_iRTTVar A <= hi.
Lemma rtt_sample_between lo hi rtt A :
  0 < lo → hi < 2 ^ 31 → lo <= rtt <= hi → (m_bIsFirstRTTReceived A = true → rtt_between lo hi A) → rtt_between lo hi (rtt_sample rtt A).
Proof.
  intros Hlo Hhi Hr HA. unfold rtt_sample. destruct (m_bIsFirstRTTReceived A); cbn [rtt_between m_iSRTT m_iRTTVar].
  - destruct (HA eq_refl) as [H1 H2]. split; apply avg_iir_between; lia.
  - unfold rtt_between. cbn [m_iSRTT m_iRTTVar]. split; [done|]. rewrite Z.quot_div_nonneg by lia. divlia.
Qed.

(** ** Sequences of calls *)

Inductive aw_op :=
  | Store (seq ack now : Z)
  | Acknowledge (seq currtime : Z).
Definition aw_step (op : aw_op) (W : CACKWindow) : option (option (Z * option Z) * CACKWindow) :=
  match op with
  | Store seq ack now => W ← aw_store seq ack now W; Some (None, W)
  | Acknowledge seq currtime => '(rtt, ack, W) ← acknowledge seq currtime W; Some (Some (rtt, ack), W)
  end.
Fixpoint aw_run (ops : list aw_op) (W : CACKWindow) : option (list (option (Z * option Z)) * CACKWindow) :=
  match ops with
  | [] => Some ([], W)
  | op :: ops => '(o, W) ← aw_step op W; '(os, W) ← aw_run ops W; Some (o :: os, W)
  end.
(** The same on a queue. *)
Definition aw_spec (size : Z) (op : aw_op) (q : list Seq) : option (Z * option Z) * list Seq :=
  match op with
  | Store seq ack now => (None, push size {| iACKSeqNo := seq; iACK := ack; tsTimeStamp := now |} q)
  | Acknowledge seq currtime => let r := acknowledged seq currtime q in (Some r.1, r.2)
  end.
Fixpoint aw_specs (size : Z) (ops : list aw_op) (q : list Seq) : list (option (Z * option Z)) * list Seq :=
  match ops with
  | [] => ([], q)
  | op :: ops => let r := aw_spec size op q in let rs := aw_specs size ops r.2 in (r.1 :: rs.1, rs.2)
  end.
Lemma aw_runs ops : ∀ W q,
  aw_holds W q → ∃ W', aw_run ops W = Some ((aw_specs (aw_size W) ops q).1, W') ∧ aw_holds W' (aw_specs (aw_size W) ops q).2.
Proof.
  induction ops as [|op ops IH]; intros W q H; [by exists W|].
  assert (∃ W1, aw_step op W = Some ((aw_spec (aw_size W) op q).1, W1) ∧ aw_holds W1 (aw_spec (aw_size W) op q).2 ∧ aw_size W1 = aw_size W)
    as (W1 & E & H1 & Es).
  { destruct op as [seq ack now|seq t]; cbn [aw_step aw_spec fst snd].
    - destruct (aw_store_run seq ack now W q H) as (W1 & -> & H1 & Es). by exists W1.
    - destruct (acknowledge_run seq t W q H) as (W1 & -> & H1 & Es). destruct (acknowledged seq t q) as [[? ?] ?]. by exists W1. }
  cbn [aw_run aw_specs fst snd]. rewrite E. cbn [mbind option_bind]. destruct (IH W1 _ H1) as (W2 & E2 & H2). rewrite Es in *. rewrite E2.
  cbn [mbind option_bind]. by exists W2.
Qed.

(** ** The receiver with its window *)

Lemma drift_off stamp rtt now R : m_bTsbPdMode (m_tsbpd (m_pRcvBuffer R)) = false →
  set_buffer (addRcvTsbPdDriftSample stamp rtt now (m_pRcvBuffer R)).2 R = R.
Proof. intros E. unfold addRcvTsbPdDriftSample, addDriftSample. rewrite E. cbn [negb snd]. by destruct R as [? [] ? ? ? ? ?]. Qed.
Lemma ackack_run drift seq stamp arr now A R q :
  aw_holds (m_ACKWindow A) q → m_bTsbPdMode (m_tsbpd (m_pRcvBuffer R)) = false →
  ∃ A' R' q', processCtrlAckAck drift seq stamp arr now A R = Some (A', R') ∧ aw_holds (m_ACKWindow A') q' ∧ (∀ s, s ∈ q' → s ∈ q) ∧
    (R' = R ∨ ∃ s, s ∈ q ∧ R' = ack_confirmed (iACK s) R).
Proof.
  intros H HT. unfold processCtrlAckAck. destruct (acknowledge_run seq arr _ _ H) as (W & -> & HW & _). unfold acknowledged in *.
  destruct (find_ack seq q) as [[j s]|] eqn:Ef; cbn [fst snd mbind option_bind].
  2: { eexists _, R, q. split; [done|]. split; [exact HW|]. split; [done|by left]. }
  apply list_find_Some in Ef as (Hj & _). assert (∀ x, x ∈ drop (S j) q → x ∈ q) as Hsub.
  { intros x Hx. rewrite <- (take_drop (S j) q), elem_of_app. by right. }
  case_match.
  - eexists _, R, _. split; [done|]. split; [exact HW|]. split; [done|by left].
  - eexists _, _, _. split; [done|]. split; [unfold rtt_sample; case_match; exact HW|]. split; [done|]. right. exists s.
    split; [by eapply list_elem_of_lookup_2|]. destruct drift; [by rewrite drift_off|done].
Qed.

Section stream.
Context (decrypt : CPacket → option bytes) (isn : Z) (stream : list spkt) (uninit : CPacket) (C : rcv_config) (size : Z) (drift : bool)
  (Hlen : Z.of_nat (length stream) <= 2 ^ 29).
(** What the network and the application do; a confirmation is an ACKACK with any number. *)
Definition win_ok (op : win_op) : Prop :=
  match op with
  | Call op => op_ok decrypt isn stream op ∧ reads_stream op ∧ match op with Confirm _ => False | _ => True end
  | AckAck _ _ _ _ => True
  end.
(** The records of the window are numbers up to what is acknowledged. *)
Definition window_ok (A : CUDT_acks) (R : CUDT_rpath) (a : Z) : Prop := ∃ q, aw_holds (m_ACKWindow A) q ∧ acks_ok isn (iACK <$> q) R a.

Lemma win_step_run D got A R a op :
  stream_at isn stream size D got R a → window_ok A R a → win_ok op →
  ∃ out A' R' a' got', win_step uninit decrypt C drift op (A, R) = Some (out, (A', R')) ∧ stream_at isn stream size (D ++ reads [out]) got' R' a' ∧
    window_ok A' R' a' ∧ stored_by decrypt isn stream out got got'.
Proof.
  intros H (q & HW & HA) Hop. assert (isn <= a) as Ha by (destruct H as (x0 & ps & H & _); by apply holding_ack in H as [_ ?]).
  assert (∀ op out R', rcv_step uninit decrypt C op R = Some (out, R') → match op with Confirm ack => ack ∈ iACK <$> q | _ => True end →
    ∀ D' got' a', stream_at isn stream size D' got' R' a' → a <= a' → acks_ok isn (acks_of out ++ (iACK <$> q)) R' a') as Hacks.
  { intros op' out R' Es Hc D' got' a' (x0 & ps & Hh & _) Hle. apply holding_ack in Hh as [E _].
    by apply (acks_step decrypt isn stream uninit C _ op' R out R' a a'). }
  destruct op as [op|seq stamp arr now]; cbn [win_step].
  - destruct Hop as (Hop & Hr & Hc). destruct (stream_step decrypt isn stream uninit C size Hlen D got R a op H Hop Hr) as (out & R' & a' & got' & Es & H' & Hst & Hle).
    rewrite Es. cbn [mbind option_bind]. pose proof (Hacks _ _ _ Es ltac:(by destruct op) _ _ _ H' Hle) as [HA1 HA2].
    assert (window_ok A R' a') as Hkeep by (exists q; split; [done|]; split; [done|]; intros s Hs; apply HA2, elem_of_app; by right).
    destruct op as [|M lite now| | |]; cbn [mbind option_bind]; try (by exists out, A, R', a', got').
    destruct out as [|s| | |]; cbn [mbind option_bind]; try (by eexists _, A, R', a', got').
    destruct s as [| |seq words]; cbn [mbind option_bind]; try (by eexists _, A, R', a', got').
    destruct (aw_store_run seq (m_iRcvLastAck R') now _ _ HW) as (W & -> & HW' & _). cbn [mbind option_bind].
    eexists _, _, R', a', got'. split; [done|]. split; [done|]. split; [|done]. exists (push (aw_size (m_ACKWindow A)) {| iACKSeqNo := seq; iACK := m_iRcvLastAck R'; tsTimeStamp := now |} q).
    split; [done|]. split; [done|]. intros s (x & -> & Hx)%list_elem_of_fmap. unfold push in Hx. apply elem_of_app in Hx as [Hx|Hx%list_elem_of_singleton].
    + apply HA2, elem_of_app. right. apply list_elem_of_fmap. exists x. split; [done|]. case_match; [|done]. destruct q; [done|by right].
    + subst x. destruct H' as (x0 & ps & Hh & _). apply holding_ack in Hh as [E Hi]. exists a'. cbn [iACK]. split; [done|lia].
  - assert (m_bTsbPdMode (m_tsbpd (m_pRcvBuffer R)) = false) as HT by (destruct H as (x0 & ps & (w2 & curr & H) & _); apply H).
    destruct (ackack_run drift seq stamp arr now A R q HW HT) as (A' & R' & q' & -> & HW' & Hsub & HR). cbn [mbind option_bind].
    assert (∀ R2 b, acks_ok isn (iACK <$> q) R2 b → acks_ok isn (iACK <$> q') R2 b) as Hq.
    { intros R2 b [H1 H2]. split; [done|]. intros s (x & -> & Hx)%list_elem_of_fmap. apply H2, list_elem_of_fmap. exists x. split; [done|by apply Hsub]. }
    destruct HR as [->|(s & Hs & ->)].
    + eexists _, A', R, a, got. split; [done|]. cbn [reads omap list_omap]. rewrite app_nil_r. split; [done|]. split; [|by apply not_stored].
      exists q'. split; [done|]. by apply (Hq R).
    + destruct (stream_step decrypt isn stream uninit C size Hlen D got R a (Confirm (iACK s)) H I I) as (out & R2 & a2 & got2 & Es & H2 & Hst & Hle).
      assert (iACK s ∈ iACK <$> q) as Hin by (apply list_elem_of_fmap; by exists s).
      pose proof (Hacks (Confirm (iACK s)) _ _ Es Hin _ _ _ H2 Hle) as HA2.
      cbn [rcv_step] in Es. injection Es as <- <-. eexists _, A', _, a2, got2. split; [done|]. split; [done|]. split; [|done].
      exists q'. split; [done|]. by apply Hq.
Qed.
Lemma win_stream_run ops : ∀ D got A R a,
  stream_at isn stream size D got R a → window_ok A R a → Forall win_ok ops →
  ∃ outs A' R' a' got', win_run uninit decrypt C drift ops (A, R) = Some (outs, (A', R')) ∧ stream_at isn stream size (D ++ reads outs) got' R' a' ∧
    acks_ok isn [] R' a' ∧ ∀ y, y ∈ got' ↔ y ∈ got ∨ was_stored decrypt isn stream outs y.
Proof.
  induction ops as [|op ops IH]; intros D got A R a H HW Hok.
  { exists [], A, R, a, got. cbn [reads omap list_omap]. rewrite app_nil_r. split; [done|]. split; [done|]. split.
    - destruct HW as (q & _ & Hl & _). split; [done|]. by intros s Hs%elem_of_nil.
    - intros y. split; [by left|]. intros [?|(p & r & Hin & _)]; [done|]. by apply elem_of_nil in Hin. }
  apply Forall_cons in Hok as [Hop Hok]. destruct (win_step_run D got A R a op H HW Hop) as (out & A1 & R1 & a1 & got1 & Es & H1 & HW1 & S1).
  cbn [win_run]. rewrite Es. cbn [mbind option_bind]. destruct (IH _ _ _ _ _ H1 HW1 Hok) as (outs & A2 & R2 & a2 & got2 & -> & H2 & HA & S2).
  cbn [mbind option_bind]. exists (out :: outs), A2, R2, a2, got2. split; [done|]. split; [|split; [done|]].
  - change (out :: outs) with ([out] ++ outs). unfold reads in *. by rewrite omap_app, app_assoc.
  - intros y. rewrite S2, (S1 y), (was_stored_cons _ _ _ out outs y). tauto.
Qed.
End stream.
