(* ===== verification/StreamMode.v ===== *)
(** * The loop skeleton of OpenSSL's 128-bit stream modes

    [CRYPTO_ctr128_encrypt], [CRYPTO_ofb128_encrypt] and
    [CRYPTO_cfb128_encrypt] (crypto/modes/{ctr128,ofb128,cfb128}.c) share one
    control structure: a [while (n && len)] loop that drains the current block
    of key stream, a [while (len >= 16)] loop over whole blocks that works a
    [size_t] at a time, a tail loop, and, for the configurations where the
    word accesses are not allowed, a byte loop.  This file writes the four
    loops once, over the record of operations in which the modes differ, with
    the law a mode has to satisfy, and proves that the three compile-time
    variants of the control structure compute the same thing. *)
From S2P Require Import Prelude.

(** The compile-time and run-time variants of the functions:
    [!OPENSSL_SMALL_FOOTPRINT] with word accesses allowed, the same with
    [STRICT_ALIGNMENT] and a misaligned pointer ([break] out of the
    [do { } while (0)]), and [OPENSSL_SMALL_FOOTPRINT]. *)
Inductive variant := Words | Misaligned | SmallFootprint.

(** What a mode does with its state [St] (IV and, in CTR, the encrypted
    counter): compute the next block of key stream (in the byte loop and in
    the word loops), process byte [n] of a block, process a whole block by
    words. *)
Record stream_mode (St : Type) := {
  sm_refill : St → St;
  sm_refill_w : St → St;
  sm_emit : nat → Z → St → Z * St;
  sm_words : bytes → St → bytes * St;
}.
Arguments sm_refill {St}. Arguments sm_refill_w {St}. Arguments sm_emit {St}. Arguments sm_words {St}.

Section loops.
Context {St : Type} (m : stream_mode St).

(** [while (n && len) { ...; --len; n = (n + 1) % 16; }] *)
Fixpoint sm_drain (s : St) (n : nat) (inp : bytes) : bytes * St * nat * bytes :=
  match inp with
  | [] => ([], s, n, [])
  | x :: r =>
      if (n =? 0)%nat then ([], s, n, inp) else
      let '(y, s1) := sm_emit m n x s in
      let '(o, s2, n2, r2) := sm_drain s1 ((n + 1) mod 16) r in
      (y :: o, s2, n2, r2)
  end.

(** [while (len >= 16) { ...; len -= 16; out += 16; in += 16; n = 0; }] *)
Fixpoint sm_blocks (fuel : nat) (s : St) (n : nat) (inp : bytes) : bytes * St * nat * bytes :=
  match fuel with
  | O => ([], s, n, inp)
  | S fuel' =>
      if (16 <=? length inp)%nat then
        let '(o, s1) := sm_words m (take 16 inp) (sm_refill_w m s) in
        let '(o2, s2, n2, r2) := sm_blocks fuel' s1 0 (drop 16 inp) in
        (o ++ o2, s2, n2, r2)
      else ([], s, n, inp)
  end.

(** [while (len--) { ...; ++n; }] *)
Fixpoint sm_tail (s : St) (n : nat) (inp : bytes) : bytes * St * nat :=
  match inp with
  | [] => ([], s, n)
  | x :: r =>
      let '(y, s1) := sm_emit m n x s in
      let '(o, s2, n2) := sm_tail s1 (n + 1) r in
      (y :: o, s2, n2)
  end.

(** [while (l < len) { if (n == 0) refill; ...; ++l; n = (n + 1) % 16; }] *)
Fixpoint sm_bytes (s : St) (n : nat) (inp : bytes) : bytes * St * nat :=
  match inp with
  | [] => ([], s, n)
  | x :: r =>
      let s0 := if (n =? 0)%nat then sm_refill m s else s in
      let '(y, s1) := sm_emit m n x s0 in
      let '(o, s2, n2) := sm_bytes s1 ((n + 1) mod 16) r in
      (y :: o, s2, n2)
  end.

(** The whole function: output, state and [*num] after the call. *)
Definition sm_crypt (v : variant) (s : St) (num : nat) (inp : bytes) : bytes * St * nat :=
  match v with
  | SmallFootprint => sm_bytes s num inp
  | Misaligned =>
      let '(o1, s1, n1, r1) := sm_drain s num inp in
      let '(o2, s2, n2) := sm_bytes s1 n1 r1 in
      (o1 ++ o2, s2, n2)
  | Words =>
      let '(o1, s1, n1, r1) := sm_drain s num inp in
      let '(o2, s2, n2, r2) := sm_blocks (length r1) s1 n1 r1 in
      if (0 <? length r2)%nat then
        let '(o3, s3, n3) := sm_tail (sm_refill_w m s2) n2 r2 in
        (o1 ++ o2 ++ o3, s3, n3)
      else (o1 ++ o2, s2, n2)
  end.
End loops.

(** The law of a mode: on the states the mode can be in, a step by words is
    sixteen steps by bytes, and the operations stay inside those states. *)
Class StreamModeOk {St} (m : stream_mode St) (P : St → Prop) := {
  smo_refill s : P s → P (sm_refill m s);
  smo_refill_w s : P s → sm_refill_w m s = sm_refill m s;
  smo_emit n x s : P s → is_byte x → P (sm_emit m n x s).2;
  smo_words chunk s :
    P s → length chunk = 16%nat → are_bytes chunk →
    sm_words m chunk s = (sm_tail m s 0 chunk).1;
}.

Section facts.
Context {St : Type} (m : stream_mode St) (P : St → Prop) `{!StreamModeOk m P}.

Lemma sm_bytes_app s n a b :
  sm_bytes m s n (a ++ b) =
    let '(o1, s1, n1) := sm_bytes m s n a in
    let '(o2, s2, n2) := sm_bytes m s1 n1 b in
    (o1 ++ o2, s2, n2).
Proof.
  revert s n. induction a as [|x a IH]; intros s n; simpl.
  - by destruct (sm_bytes m s n b) as [[??]?].
  - destruct (sm_emit _ _ _ _) as [y s1]. rewrite IH.
    destruct (sm_bytes m s1 _ a) as [[o1 s2] n2].
    by destruct (sm_bytes m s2 n2 b) as [[o2 s3] n3].
Qed.

Lemma sm_bytes_length s n inp : length (sm_bytes m s n inp).1.1 = length inp.
Proof.
  revert s n. induction inp as [|x r IH]; intros s n; simpl; [done|].
  destruct (sm_emit _ _ _ _) as [y s1]. specialize (IH s1 ((n + 1) mod 16)%nat).
  destruct (sm_bytes m s1 _ r) as [[o1 s2] n2]. simpl in *. by rewrite IH.
Qed.

Lemma sm_bytes_num s n inp : (n < 16)%nat → (sm_bytes m s n inp).2 = ((n + length inp) mod 16)%nat.
Proof.
  revert s n. induction inp as [|x r IH]; intros s n Hn; simpl.
  - rewrite Nat.add_0_r, Nat.mod_small; lia.
  - destruct (sm_emit _ _ _ _) as [y s1].
    assert ((n + 1) mod 16 < 16)%nat by (apply Nat.mod_upper_bound; lia).
    specialize (IH s1 ((n + 1) mod 16)%nat ltac:(done)).
    destruct (sm_bytes m s1 _ r) as [[o1 s2] n2]. simpl in *. rewrite IH.
    rewrite Nat.Div0.add_mod_idemp_l. f_equal. lia.
Qed.

(** A tail that stays inside the current block is the byte loop. *)
Lemma sm_tail_bytes s n inp :
  (0 < n)%nat → (n + length inp <= 16)%nat →
  sm_tail m s n inp = let '(o, s', _) := sm_bytes m s n inp in (o, s', n + length inp)%nat.
Proof.
  revert s n. induction inp as [|x r IH]; intros s n Hn Hlen; simpl.
  - by rewrite Nat.add_0_r.
  - replace (n =? 0)%nat with false by (symmetry; apply Nat.eqb_neq; lia).
    destruct (sm_emit m n x s) as [y s1]. simpl in Hlen.
    destruct r as [|x' r'].
    + simpl. f_equal; lia.
    + rewrite (Nat.mod_small (n + 1)) by (simpl in *; lia). rewrite IH by (simpl in *; lia).
      destruct (sm_bytes _ _ _ _) as [[??]?]. f_equal. simpl; lia.
Qed.

Lemma sm_tail_refill s x r :
  (length (x :: r) <= 16)%nat →
  sm_tail m (sm_refill m s) 0 (x :: r) =
    let '(o, s', _) := sm_bytes m s 0 (x :: r) in (o, s', length (x :: r)).
Proof.
  intros Hlen. simpl. destruct (sm_emit m 0 x _) as [y s1]. simpl in Hlen.
  rewrite sm_tail_bytes by lia.
  by destruct (sm_bytes _ _ _ _) as [[??]?].
Qed.

Lemma sm_bytes_inv s n inp : P s → are_bytes inp → P (sm_bytes m s n inp).1.2.
Proof.
  revert s n. induction inp as [|x r IH]; intros s n Hs; [done|].
  rewrite are_bytes_cons. intros [Hx Hr]. simpl.
  assert (Hs0 : P (if (n =? 0)%nat then sm_refill m s else s)).
  { destruct (n =? 0)%nat; [by apply smo_refill|done]. }
  pose proof (smo_emit (P := P) n x _ Hs0 Hx) as Hs1.
  destruct (sm_emit m n x _) as [y s1]. specialize (IH s1 ((n + 1) mod 16)%nat Hs1 Hr).
  by destruct (sm_bytes _ _ _ _) as [[??]?].
Qed.

Lemma sm_drain_bytes s n inp :
  let '(o, s', n', r) := sm_drain m s n inp in
  let k := (length inp - length r)%nat in
  sm_bytes m s n (take k inp) = (o, s', n') ∧ r = drop k inp ∧
  (length r <= length inp)%nat ∧ (r = [] ∨ n' = 0%nat).
Proof.
  revert s n. induction inp as [|x inp IH]; intros s n; cbn [sm_drain].
  - simpl. auto.
  - destruct (n =? 0)%nat eqn:Hn.
    + rewrite Nat.sub_diag. simpl. apply Nat.eqb_eq in Hn. auto with lia.
    + destruct (sm_emit m n x s) as [y s1] eqn:He.
      specialize (IH s1 ((n + 1) mod 16)%nat).
      destruct (sm_drain m s1 _ inp) as [[[o s2] n2] r]. destruct IH as (IH & Hr & Hl & Hor).
      replace (length (x :: inp) - length r)%nat with (S (length inp - length r))
        by (simpl; lia).
      cbn [take drop sm_bytes]. rewrite Hn, He, IH. simpl. auto with lia.
Qed.

Lemma sm_block_bytes s chunk :
  P s → length chunk = 16%nat → are_bytes chunk →
  sm_bytes m s 0 chunk = (sm_words m chunk (sm_refill m s), 0%nat).
Proof.
  intros Hs Hl Hb. rewrite (smo_words (P := P)) by (done || by apply smo_refill).
  pose proof (sm_bytes_num s 0 chunk ltac:(lia)) as Hnum. rewrite Hl in Hnum.
  destruct chunk as [|x r]; [done|].
  rewrite sm_tail_refill by lia.
  destruct (sm_bytes _ _ _ _) as [[o s'] n']. simpl in *. by subst.
Qed.

Lemma sm_blocks_bytes fuel s inp :
  P s → are_bytes inp → (length inp <= fuel)%nat →
  let '(o, s', n', r) := sm_blocks m fuel s 0 inp in
  n' = 0%nat ∧ P s' ∧ (length r < 16)%nat ∧ are_bytes r ∧
  sm_bytes m s 0 inp = let '(o2, s2, n2) := sm_bytes m s' 0 r in (o ++ o2, s2, n2).
Proof.
  revert s inp. induction fuel as [|fuel IH]; intros s inp Hs Hb Hl.
  { destruct inp; [|simpl in Hl; lia]. simpl. split_and!; auto; lia. }
  cbn [sm_blocks]. destruct (16 <=? length inp)%nat eqn:Hge.
  - apply Nat.leb_le in Hge.
    assert (Hc : length (take 16 inp) = 16%nat) by len.
    pose proof (sm_block_bytes s (take 16 inp) Hs Hc ltac:(auto with bytes)) as Hblk.
    pose proof (sm_bytes_inv s 0 (take 16 inp) Hs ltac:(auto with bytes)) as Hs1.
    rewrite Hblk in Hs1.
    rewrite (smo_refill_w (P := P)) by done.
    destruct (sm_words m _ _) as [o1 s1]. simpl in Hs1.
    specialize (IH s1 (drop 16 inp) Hs1 ltac:(auto with bytes) ltac:(len)).
    destruct (sm_blocks m fuel s1 0 _) as [[[o2 s2] n2] r]. destruct IH as (-> & ? & ? & ? & IH).
    split_and!; auto.
    rewrite <- (take_drop 16 inp) at 1. rewrite sm_bytes_app, Hblk, IH.
    destruct (sm_bytes m s2 0 r) as [[??]?]. by rewrite app_assoc.
  - apply Nat.leb_gt in Hge. split_and!; auto. by destruct (sm_bytes _ _ _ _) as [[??]?].
Qed.

(** The three variants of the control structure agree. *)
Lemma sm_crypt_variant v s n inp :
  P s → (n < 16)%nat → are_bytes inp → sm_crypt m v s n inp = sm_crypt m SmallFootprint s n inp.
Proof.
  intros Hs Hn Hb. destruct v; [| |done]; unfold sm_crypt;
    pose proof (sm_drain_bytes s n inp) as Hd;
    destruct (sm_drain m s n inp) as [[[o1 s1] n1] r1];
    set (k := (length inp - length r1)%nat) in *; destruct Hd as (Hd & Hr1 & _ & Hor);
    rewrite <- (take_drop k inp) at 1; rewrite sm_bytes_app, Hd, <- Hr1; [|done].
  assert (Hs1 : P s1).
  { pose proof (sm_bytes_inv s n (take k inp) Hs ltac:(auto with bytes)) as H. by rewrite Hd in H. }
  destruct Hor as [-> | ->].
  { simpl. done. }
  assert (Hb1 : are_bytes r1) by (rewrite Hr1; auto with bytes).
  pose proof (sm_blocks_bytes (length r1) s1 r1 Hs1 Hb1 ltac:(lia)) as Hblk.
  destruct (sm_blocks m _ s1 0 r1) as [[[o2 s2] n2] r2].
  destruct Hblk as (-> & Hs2 & Hl2 & Hb2 & ->).
  destruct r2 as [|x r2]; [simpl; by rewrite app_nil_r|].
  pose proof (sm_bytes_num s2 0 (x :: r2) ltac:(lia)) as Hnum.
  rewrite Nat.mod_small in Hnum by (simpl in *; lia).
  cbn [length Nat.ltb Nat.leb]. rewrite (smo_refill_w (P := P)) by done.
  rewrite sm_tail_refill by (simpl in *; lia).
  destruct (sm_bytes m s2 0 (x :: r2)) as [[o3 s3] n3]. simpl in Hnum. subst n3.
  by rewrite app_assoc.
Qed.

(** Encrypting in pieces is encrypting at once, state included. *)
Lemma sm_crypt_app v s n a b :
  P s → (n < 16)%nat → are_bytes a → are_bytes b →
  sm_crypt m v s n (a ++ b) =
    let '(o1, s1, n1) := sm_crypt m v s n a in
    let '(o2, s2, n2) := sm_crypt m v s1 n1 b in
    (o1 ++ o2, s2, n2).
Proof.
  intros Hs Hn Ha Hb. rewrite !(sm_crypt_variant v s n) by (rewrite ?are_bytes_app; auto).
  unfold sm_crypt at 1 2. rewrite sm_bytes_app.
  pose proof (sm_bytes_inv s n a Hs Ha) as Hs1.
  pose proof (sm_bytes_num s n a Hn) as Hn1.
  destruct (sm_bytes m s n a) as [[o1 s1] n1]. simpl in *.
  rewrite sm_crypt_variant; auto. subst. apply Nat.mod_upper_bound. lia.
Qed.
End facts.
