(* ===== verification/Ctr128.v ===== *)
(** * Counter mode: crypto/modes/ctr128.c *)
From S2P Require Import Prelude StreamMode.

(** [typedef void ( *block128_f) (const unsigned char in[16], unsigned char
    out[16], const void *key);] as the function from the input block and the
    key to the output block. *)
Definition block128_f (K : Type) : Type := bytes → K → bytes.

(** What the modes rely on: a block goes to a block. *)
Class Block128 {K} (block : block128_f K) (key : K) := {
  block_length b : length b = 16%nat → length (block b key) = 16%nat;
  block_bytes b : length b = 16%nat → are_bytes b → are_bytes (block b key);
}.

(** ** Counter increment *)

(** The [do { --n; c += counter[n]; counter[n] = (u8)c; c >>= 8; } while (n)]
    loop, from byte [n] down to byte 0. *)
Fixpoint ctr_inc_loop (n : nat) (c : Z) (counter : bytes) : bytes :=
  match n with
  | O => counter
  | S n' =>
      let c := u32 (c + counter !!! n') in
      ctr_inc_loop n' (Z.shiftr c 8) (<[n' := u8 c]> counter)
  end.

Definition ctr128_inc (counter : bytes) : bytes := ctr_inc_loop 16 1 counter.
Definition ctr96_inc (counter : bytes) : bytes := ctr_inc_loop 12 1 counter.

(** The word loop of [ctr128_inc_aligned] over the counter as an array of
    [size_t] (64-bit, loaded in the machine's big-endian order). *)
Fixpoint ctr_inc_words (n : nat) (c : Z) (data : list Z) : list Z :=
  match n with
  | O => data
  | S n' =>
      let d := u64 (data !!! n' + c) in
      let c := Z.shiftr (Z.land (u64 (d - c)) (u64 (Z.lnot d))) (64 - 1) in
      ctr_inc_words n' c (<[n' := d]> data)
  end.

Definition ctr128_inc_aligned (little aligned : bool) (counter : bytes) : bytes :=
  if little || negb aligned then ctr128_inc counter else
  let data := ctr_inc_words 2 1 [be_val (take 8 counter); be_val (drop 8 counter)] in
  be_bytes 8 (data !!! 0%nat) ++ be_bytes 8 (data !!! 1%nat).

(** ** CRYPTO_ctr128_encrypt *)

(** The state the caller keeps between calls, besides [*num]. *)
Record ctr_state := { ctr_ivec : bytes; ctr_ecount_buf : bytes }.

Section ctr128.
Context {K : Type} (block : block128_f K) (key : K).
(** Byte order of the machine, alignment of [ivec]. *)
Context (little aligned : bool).

Definition ctr_mode : stream_mode ctr_state := {|
  (* ( *block) (ivec, ecount_buf, key); ctr128_inc(ivec); *)
  sm_refill s := {| ctr_ivec := ctr128_inc (ctr_ivec s);
                    ctr_ecount_buf := block (ctr_ivec s) key |};
  (* ( *block) (ivec, ecount_buf, key); ctr128_inc_aligned(ivec); *)
  sm_refill_w s := {| ctr_ivec := ctr128_inc_aligned little aligned (ctr_ivec s);
                      ctr_ecount_buf := block (ctr_ivec s) key |};
  (* out[n] = in[n] ^ ecount_buf[n]; *)
  sm_emit n x s := (Z.lxor x (ctr_ecount_buf s !!! n), s);
  (* out[n..] = in[n..] ^ ecount_buf[n..] by size_t *)
  sm_words inp s := (xor_words inp (ctr_ecount_buf s), s);
|}.

Definition CRYPTO_ctr128_encrypt (v : variant) (inp : bytes) (s : ctr_state) (num : nat)
    : bytes * ctr_state * nat :=
  sm_crypt ctr_mode v s num inp.
End ctr128.

(** ** CRYPTO_ctr128_encrypt_ctr32 *)

(** [typedef void ( *ctr128_f) (in, out, blocks, key, ivec)]: encrypts
    [blocks] blocks with a counter whose low 32 bits alone are incremented. *)
Definition ctr128_f (K : Type) : Type := bytes → nat → K → bytes → bytes.

Definition GETU32 (p : bytes) : Z := be_val (take 4 p).
Definition PUTU32 (buf : bytes) (ofs : nat) (v : Z) : bytes := memcpy buf ofs (be_bytes 4 v).

Section ctr32.
Context {K : Type} (func : ctr128_f K) (key : K).

(** [if (ctr32 == 0) ctr96_inc(ivec);] after [PUTU32(ivec + 12, ctr32)] *)
Definition ctr32_store (ivec : bytes) (ctr32 : Z) : bytes :=
  let ivec := PUTU32 ivec 12 ctr32 in
  if ctr32 =? 0 then ctr96_inc ivec else ivec.

(** The [while (len >= 16)] loop: output, [ivec], [ctr32], remaining input. *)
Fixpoint ctr32_blocks (fuel : nat) (ctr32 : Z) (ivec inp : bytes) : bytes * bytes * Z * bytes :=
  match fuel with
  | O => ([], ivec, ctr32, inp)
  | S fuel' =>
      if (16 <=? length inp)%nat then
        let blocks := Z.of_nat (length inp / 16) in
        let blocks := if 2 ^ 28 <? blocks then 2 ^ 28 else blocks in
        let ctr32 := u32 (ctr32 + u32 blocks) in
        let '(blocks, ctr32) :=
          if ctr32 <? blocks then (blocks - ctr32, 0) else (blocks, ctr32) in
        let len := (16 * Z.to_nat blocks)%nat in
        let out := func (take len inp) (Z.to_nat blocks) key ivec in
        let ivec := ctr32_store ivec ctr32 in
        let '(out2, ivec2, ctr2, r) := ctr32_blocks fuel' ctr32 ivec (drop len inp) in
        (out ++ out2, ivec2, ctr2, r)
      else ([], ivec, ctr32, inp)
  end.

(** [out[n] = in[n] ^ ecount_buf[n]; ++n] *)
Fixpoint ctr32_xor (ecount : bytes) (n : nat) (inp : bytes) : bytes :=
  match inp with
  | [] => []
  | x :: r => Z.lxor x (ecount !!! n) :: ctr32_xor ecount (S n) r
  end.

(** [while (n && len)] *)
Fixpoint ctr32_drain (ecount : bytes) (n : nat) (inp : bytes) : bytes * nat * bytes :=
  match inp with
  | [] => ([], n, [])
  | x :: r =>
      if (n =? 0)%nat then ([], n, inp) else
      let '(o, n2, r2) := ctr32_drain ecount ((n + 1) mod 16) r in
      (Z.lxor x (ecount !!! n) :: o, n2, r2)
  end.

Definition CRYPTO_ctr128_encrypt_ctr32 (inp : bytes) (s : ctr_state) (num : nat)
    : bytes * ctr_state * nat :=
  let '(o1, n, r1) := ctr32_drain (ctr_ecount_buf s) num inp in
  let ctr32 := GETU32 (drop 12 (ctr_ivec s)) in
  let '(o2, ivec, ctr32, r2) := ctr32_blocks (length r1) ctr32 (ctr_ivec s) r1 in
  if (0 <? length r2)%nat then
    let ecount := func (replicate 16 0) 1%nat key ivec in
    let ctr32 := u32 (ctr32 + 1) in
    let ivec := ctr32_store ivec ctr32 in
    (o1 ++ o2 ++ ctr32_xor ecount n r2,
     {| ctr_ivec := ivec; ctr_ecount_buf := ecount |}, (n + length r2)%nat)
  else (o1 ++ o2, {| ctr_ivec := ivec; ctr_ecount_buf := ctr_ecount_buf s |}, n).
End ctr32.

(** ** The counter is a 128-bit big-endian integer *)
Lemma length_ctr_inc_loop n c counter : length (ctr_inc_loop n c counter) = length counter.
Proof. revert c counter. induction n; intros; simpl; [done|]. by rewrite IHn, length_insert. Qed.
#[export] Hint Rewrite length_ctr_inc_loop : len.

Lemma are_bytes_ctr_inc_loop n c counter :
  are_bytes counter → are_bytes (ctr_inc_loop n c counter).
Proof. revert c counter. induction n; intros; simpl; auto with bytes. Qed.
#[export] Hint Resolve are_bytes_ctr_inc_loop : bytes.

Lemma ctr_inc_loop_drop n c counter :
  drop n (ctr_inc_loop n c counter) = drop n counter.
Proof.
  revert c counter. induction n as [|n IH]; intros; simpl; [done|].
  rewrite <- (Nat.add_1_r n), <- drop_drop, IH, drop_drop.
  by rewrite drop_insert_lt by lia.
Qed.

Lemma ctr_inc_loop_take n c counter :
  (n <= length counter)%nat → are_bytes counter → 0 <= c < 2 ^ 16 →
  be_val (take n (ctr_inc_loop n c counter)) = (be_val (take n counter) + c) mod 2 ^ (8 * Z.of_nat n).
Proof.
  revert c counter. induction n as [|n IH]; intros c counter Hn Hb Hc; simpl ctr_inc_loop.
  { by rewrite !take_0, Z.mod_1_r. }
  set (x := counter !!! n). pose proof (are_bytes_lookup counter n Hb) as Hx. fold x in Hx.
  rewrite u32_small by (unfold is_byte in Hx; lia).
  set (l := ctr_inc_loop _ _ _).
  assert (Hlen : length l = length counter) by (unfold l; len).
  assert (Hl : l !! n = Some (u8 (c + x))).
  { assert (Hd : drop n l = drop n (<[n:=u8 (c + x)]> counter)) by apply ctr_inc_loop_drop.
    rewrite <- (Nat.add_0_r n), <- lookup_drop, Hd, lookup_drop, Nat.add_0_r.
    apply list_lookup_insert_eq. lia. }
  rewrite (take_S_r _ _ _ Hl), be_val_snoc. unfold l.
  rewrite IH; [|len|auto with bytes|].
  2:{ rewrite Z.shiftr_div_pow2 by lia. unfold is_byte in Hx.
      split; [apply Z.div_pos; lia|]. apply Z.div_lt_upper_bound; lia. }
  rewrite take_insert_ge by lia.
  rewrite (take_S_r counter n x), be_val_snoc by (apply list_lookup_lookup_total_lt; lia).
  rewrite Z.shiftr_div_pow2 by lia. unfold u8.
  replace (8 * Z.of_nat (S n)) with (8 + 8 * Z.of_nat n) by lia.
  rewrite Z.pow_add_r, (Z.rem_mul_r _ (2 ^ 8)) by lia.
  set (v := be_val (take n counter)).
  replace (v * 2 ^ 8 + x + c) with (c + x + v * 2 ^ 8) by lia.
  rewrite Z.mod_add, Z.div_add by lia. rewrite (Z.add_comm v). lia.
Qed.

Lemma ctr128_inc_val counter :
  length counter = 16%nat → are_bytes counter →
  be_val (ctr128_inc counter) = (be_val counter + 1) mod 2 ^ 128.
Proof.
  intros Hl Hb. pose proof (ctr_inc_loop_take 16 1 counter ltac:(lia) Hb ltac:(lia)) as H.
  rewrite !take_ge in H by (unfold ctr128_inc; len). exact H.
Qed.

Lemma length_ctr128_inc counter : length (ctr128_inc counter) = length counter.
Proof. unfold ctr128_inc. len. Qed.
Lemma are_bytes_ctr128_inc counter : are_bytes counter → are_bytes (ctr128_inc counter).
Proof. unfold ctr128_inc. auto with bytes. Qed.
#[export] Hint Rewrite length_ctr128_inc : len.
#[export] Hint Resolve are_bytes_ctr128_inc : bytes.

Lemma ctr128_inc_be counter :
  length counter = 16%nat → are_bytes counter →
  ctr128_inc counter = be_bytes 16 (be_val counter + 1).
Proof.
  intros Hl Hb. apply be_val_inj; [len|auto with bytes..|].
  by rewrite ctr128_inc_val, be_val_bytes by done.
Qed.

Lemma iter_ctr128_inc i counter :
  length counter = 16%nat → are_bytes counter →
  length (Nat.iter i ctr128_inc counter) = 16%nat ∧
  are_bytes (Nat.iter i ctr128_inc counter) ∧
  be_val (Nat.iter i ctr128_inc counter) = (be_val counter + Z.of_nat i) mod 2 ^ 128.
Proof.
  intros Hl Hb. induction i as [|i (IHl & IHb & IH)].
  - simpl. split_and!; try done. rewrite Z.add_0_r, Z.mod_small; [done|].
    pose proof (be_val_bounds counter Hb) as H. by rewrite Hl in H.
  - rewrite Nat.iter_succ. split_and!; [len|auto with bytes|].
    rewrite ctr128_inc_val, IH by done. rewrite Zplus_mod_idemp_l. f_equal. lia.
Qed.

(** The carry out of [d = w + c] as the code detects it. *)
Lemma word_carry w c :
  0 <= w < 2 ^ 64 → (c = 0 ∨ c = 1) →
  let d := u64 (w + c) in
  Z.shiftr (Z.land (u64 (d - c)) (u64 (Z.lnot d))) (64 - 1) = (w + c) / 2 ^ 64.
Proof.
  intros Hw Hc d. unfold d.
  assert (Hd : u64 (u64 (w + c) - c) = w).
  { unfold u64. rewrite Zminus_mod_idemp_l, Z.add_simpl_r. by apply Z.mod_small. }
  rewrite Hd, Z.shiftr_land, !Z.shiftr_div_pow2 by lia.
  assert (Hln : u64 (Z.lnot (u64 (w + c))) = 2 ^ 64 - 1 - u64 (w + c)).
  { pose proof (u64_range (w + c)). unfold Z.lnot, u64 at 1. rewrite <- Z.sub_1_r.
    replace (- u64 (w + c) - 1) with (2 ^ 64 - 1 - u64 (w + c) + (-1) * 2 ^ 64) by lia.
    rewrite Z.mod_add by lia. apply Z.mod_small. lia. }
  rewrite Hln. destruct (decide (w + c < 2 ^ 64)) as [Hlt|Hge].
  - rewrite u64_small by lia. rewrite (Z.div_small (w + c)) by lia.
    destruct (decide (w < 2 ^ 63)) as [Hw63|Hw63].
    + by rewrite (Z.div_small w) by lia.
    + rewrite (Z.div_small (2 ^ 64 - 1 - (w + c))) by lia. apply Z.land_0_r.
  - assert (w = 2 ^ 64 - 1 ∧ c = 1) as [-> ->] by lia. reflexivity.
Qed.

Lemma ctr128_inc_aligned_eq little aligned counter :
  length counter = 16%nat → are_bytes counter →
  ctr128_inc_aligned little aligned counter = ctr128_inc counter.
Proof.
  intros Hl Hb. unfold ctr128_inc_aligned. destruct (little || negb aligned); [done|].
  rewrite ctr128_inc_be by done.
  assert (Hhi : 0 <= be_val (take 8 counter) < 2 ^ 64).
  { pose proof (be_val_bounds (take 8 counter) ltac:(auto with bytes)) as H.
    rewrite length_take, Hl in H. done. }
  assert (Hlo : 0 <= be_val (drop 8 counter) < 2 ^ 64).
  { pose proof (be_val_bounds (drop 8 counter) ltac:(auto with bytes)) as H.
    rewrite length_drop, Hl in H. done. }
  assert (Hv : be_val counter = be_val (take 8 counter) * 2 ^ 64 + be_val (drop 8 counter)).
  { rewrite <- (take_drop 8 counter) at 1. rewrite be_val_app, length_drop, Hl. done. }
  rewrite Hv. clear Hv. set (hi := be_val (take 8 counter)) in *.
  set (lo := be_val (drop 8 counter)) in *. cbn [ctr_inc_words].
  change ([hi; lo] !!! 1%nat) with lo. rewrite word_carry by lia.
  change (<[1%nat := u64 (lo + 1)]> [hi; lo]) with [hi; u64 (lo + 1)].
  change ([hi; u64 (lo + 1)] !!! 0%nat) with hi.
  change (<[0%nat:=?x]> [hi; u64 (lo + 1)]) with [x; u64 (lo + 1)].
  set (e := u64 (hi + _)). cbv zeta.
  change ([e; u64 (lo + 1)] !!! 0%nat) with e.
  change ([e; u64 (lo + 1)] !!! 1%nat) with (u64 (lo + 1)). unfold e.
  apply be_val_inj; [len| |auto with bytes|].
  { apply are_bytes_app. auto with bytes. }
  rewrite be_val_app, length_be_bytes, !be_val_bytes. unfold u64.
  change (8 * Z.of_nat 8) with 64. change (8 * Z.of_nat 16) with (64 + 64).
  rewrite !Z.mod_mod, Z.pow_add_r, (Z.rem_mul_r _ (2 ^ 64)) by lia.
  rewrite <- Z.add_assoc, Z.add_comm, (Z.add_comm (hi * _)), Z.mod_add, Z.div_add by lia.
  rewrite (Z.add_comm (_ / _)). lia.
Qed.

Definition ctr_state_ok (s : ctr_state) : Prop :=
  length (ctr_ivec s) = 16%nat ∧ are_bytes (ctr_ivec s) ∧
  length (ctr_ecount_buf s) = 16%nat ∧ are_bytes (ctr_ecount_buf s).

Section ctr128_facts.
Context {K : Type} (block : block128_f K) (key : K) `{!Block128 block key}.
Context (little aligned : bool).
Let mode := ctr_mode block key little aligned.
Let encrypt := CRYPTO_ctr128_encrypt block key little aligned.

Lemma ctr_tail s n inp :
  (n + length inp <= length (ctr_ecount_buf s))%nat →
  sm_tail mode s n inp = (xor_bytes inp (drop n (ctr_ecount_buf s)), s, (n + length inp)%nat).
Proof.
  revert n. induction inp as [|x r IH]; intros n Hl; simpl.
  - by rewrite Nat.add_0_r.
  - simpl in Hl. rewrite IH by lia.
    erewrite (drop_S _ _ n) by (apply list_lookup_lookup_total_lt; lia).
    rewrite Nat.add_1_r. simpl. repeat f_equal; lia.
Qed.

#[export] Instance ctr_mode_ok : StreamModeOk mode ctr_state_ok.
Proof.
  split.
  - intros s (? & ? & ? & ?). unfold ctr_state_ok; simpl.
    split_and!; auto using block_length, block_bytes with bytes. len.
  - intros s (? & ? & ? & ?). simpl. by rewrite ctr128_inc_aligned_eq.
  - intros n x s Hs _. done.
  - intros chunk s (? & ? & ? & ?) Hl Hb. rewrite ctr_tail by lia.
    simpl. by rewrite xor_words_bytes.
Qed.

(** The key stream: block [i] is the encryption of the counter plus [i]. *)
Definition ctr_keystream (iv : bytes) (k : nat) : bytes :=
  concat (map (λ i, block (Nat.iter i ctr128_inc iv) key) (seq 0 k)).

Lemma ctr_keystream_S iv k :
  ctr_keystream iv (S k) = block iv key ++ ctr_keystream (ctr128_inc iv) k.
Proof.
  unfold ctr_keystream. cbn [seq map concat]. f_equal. f_equal.
  rewrite <- seq_shift, map_map. apply map_ext. intros i. by rewrite Nat.iter_succ_r.
Qed.

Lemma length_ctr_keystream iv k :
  length iv = 16%nat → are_bytes iv → length (ctr_keystream iv k) = (16 * k)%nat.
Proof.
  revert iv. induction k as [|k IH]; intros iv Hl Hb; [done|].
  rewrite ctr_keystream_S, length_app, block_length, IH by (len; auto with bytes). lia.
Qed.

Definition blocks_of (len : nat) : nat := (len + 15) / 16.

Lemma blocks_of_ge n : (n <= 16 * blocks_of n)%nat.
Proof.
  unfold blocks_of. pose proof (Nat.div_mod_eq (n + 15) 16).
  pose proof (Nat.mod_upper_bound (n + 15) 16). lia.
Qed.

Lemma ctr_bytes_first s x r :
  ctr_state_ok s → (length (x :: r) <= 16)%nat →
  sm_bytes mode s 0 (x :: r) =
    (xor_bytes (x :: r) (block (ctr_ivec s) key), sm_refill mode s, length (x :: r) mod 16)%nat.
Proof.
  intros Hs Hl. pose proof (sm_tail_refill mode s x r Hl) as Ht.
  pose proof (sm_bytes_num mode s 0 (x :: r) ltac:(lia)) as Hn.
  pose proof (smo_refill (P := ctr_state_ok) s Hs) as Hs'.
  rewrite ctr_tail in Ht by (destruct Hs' as (_ & _ & -> & _); lia).
  rewrite drop_0 in Ht. destruct (sm_bytes mode s 0 (x :: r)) as [[o s'] n'].
  simpl in Hn. injection Ht as <- <-. by rewrite Hn.
Qed.

(** From a fresh state the output is the input xored with the key stream. *)
Lemma ctr_encrypt_keystream v iv ecount inp :
  length iv = 16%nat → are_bytes iv → length ecount = 16%nat → are_bytes ecount →
  are_bytes inp →
  let '(out, s', num') := encrypt v inp {| ctr_ivec := iv; ctr_ecount_buf := ecount |} 0 in
  let k := blocks_of (length inp) in
  out = xor_bytes inp (ctr_keystream iv k) ∧
  ctr_ivec s' = Nat.iter k ctr128_inc iv ∧
  num' = (length inp mod 16)%nat ∧
  (num' ≠ 0%nat →
   ctr_ecount_buf s' = block (Nat.iter (length inp / 16) ctr128_inc iv) key).
Proof.
  intros Hiv Hivb He Heb Hb. unfold encrypt, CRYPTO_ctr128_encrypt. fold mode.
  rewrite (sm_crypt_variant mode ctr_state_ok) by (done || lia). unfold sm_crypt.
  revert iv ecount Hiv Hivb He Heb.
  induction inp as [inp IH] using (induction_ltof1 _ (@length Z)). unfold ltof in IH.
  intros iv ecount Hiv Hivb He Heb.
  destruct (decide (inp = [])) as [->|Hne]; [done|].
  destruct (decide (length inp <= 16)%nat) as [Hle|Hgt].
  - destruct inp as [|x r]; [done|].
    rewrite ctr_bytes_first by done.
    assert (blocks_of (length (x :: r)) = 1%nat) as ->.
    { unfold blocks_of. symmetry. apply (Nat.div_unique _ 16 1 (length r)); simpl in *; lia. }
    rewrite ctr_keystream_S. split_and!; [by rewrite app_nil_r|done|done|].
    intros Hm. rewrite Nat.div_small; [done|].
    destruct (decide (length (x :: r) = 16%nat)) as [He16|]; [|lia].
    by rewrite He16 in Hm.
  - set (s0 := {| ctr_ivec := iv; ctr_ecount_buf := ecount |}).
    assert (Hs0 : ctr_state_ok s0) by done.
    assert (Hc : length (take 16 inp) = 16%nat) by len.
    pose proof (sm_bytes_app mode s0 0 (take 16 inp) (drop 16 inp)) as Happ.
    rewrite take_drop in Happ. rewrite Happ. clear Happ.
    destruct (take 16 inp) as [|x r] eqn:Ht; [done|].
    rewrite ctr_bytes_first by (done || lia). rewrite Hc, Nat.Div0.mod_same.
    change (sm_refill mode s0) with
      {| ctr_ivec := ctr128_inc iv; ctr_ecount_buf := block iv key |}.
    specialize (IH (drop 16 inp) ltac:(len) ltac:(auto with bytes)
      (ctr128_inc iv) (block iv key) ltac:(len) ltac:(auto with bytes)
      ltac:(auto using block_length) ltac:(auto using block_bytes)).
    destruct (sm_bytes mode _ _ _) as [[o2 s2] n2]. destruct IH as (-> & -> & -> & He2).
    assert (Hmod : (length (drop 16 inp) mod 16 = length inp mod 16)%nat).
    { rewrite length_drop. replace (length inp) with (length inp - 16 + 1 * 16)%nat at 2 by lia.
      by rewrite Nat.Div0.mod_add. }
    assert (blocks_of (length inp) = S (blocks_of (length (drop 16 inp)))) as ->.
    { unfold blocks_of. rewrite length_drop.
      replace (length inp + 15)%nat with (length inp - 16 + 15 + 1 * 16)%nat by lia.
      rewrite Nat.div_add by lia. lia. }
    rewrite ctr_keystream_S, Nat.iter_succ_r. split_and!; [|done|done|].
    + rewrite <- (take_drop 16 inp) at 3. rewrite Ht, xor_bytes_app; [done|].
      by rewrite Hc, block_length.
    + intros Hm. rewrite He2 by done. rewrite length_drop.
      replace (length inp / 16)%nat with (S ((length inp - 16) / 16))
        by (replace (length inp) with (length inp - 16 + 1 * 16)%nat at 2 by lia;
            rewrite Nat.div_add by lia; lia).
      by rewrite Nat.iter_succ_r.
Qed.
End ctr128_facts.

(** ** The 32-bit counter variant *)

(** What a [ctr128_f] implementation does, as the callers of
    [CRYPTO_ctr128_encrypt_ctr32] rely on: block [i] is xored with the
    encryption of the counter whose low 32-bit word is advanced by [i]. *)
Definition ctr32_add (iv : bytes) (i : nat) : bytes :=
  PUTU32 iv 12 (u32 (GETU32 (drop 12 iv) + Z.of_nat i)).

Class Ctr32Func {K} (func : ctr128_f K) (block : block128_f K) (key : K) :=
  ctr32_func inp k iv :
    length inp = (16 * k)%nat →
    func inp k key iv = xor_bytes inp (concat (map (λ i, block (ctr32_add iv i) key) (seq 0 k))).

Section ctr32_facts.
Context {K : Type} (func : ctr128_f K) (block : block128_f K) (key : K).
Context `{!Block128 block key, !Ctr32Func func block key}.

Lemma iv_split iv :
  length iv = 16%nat → are_bytes iv →
  be_val iv = be_val (take 12 iv) * 2 ^ 32 + GETU32 (drop 12 iv) ∧
  0 <= be_val (take 12 iv) < 2 ^ 96 ∧ 0 <= GETU32 (drop 12 iv) < 2 ^ 32.
Proof.
  intros Hl Hb. unfold GETU32. rewrite (take_ge (drop 12 iv)) by len. split; [|split].
  - rewrite <- (take_drop 12 iv) at 1. by rewrite be_val_app, length_drop, Hl.
  - pose proof (be_val_bounds (take 12 iv) ltac:(auto with bytes)) as H.
    by rewrite length_take, Hl in H.
  - pose proof (be_val_bounds (drop 12 iv) ltac:(auto with bytes)) as H.
    by rewrite length_drop, Hl in H.
Qed.

Lemma put_split iv v :
  length iv = 16%nat → PUTU32 iv 12 v = take 12 iv ++ be_bytes 4 v.
Proof.
  intros Hl. unfold PUTU32, memcpy. rewrite (drop_ge iv) by len. by rewrite app_nil_r.
Qed.

(** A counter update that does not pass the end of the low word. *)
Lemma ctr32_add_iter iv i :
  length iv = 16%nat → are_bytes iv → GETU32 (drop 12 iv) + Z.of_nat i < 2 ^ 32 →
  ctr32_add iv i = Nat.iter i ctr128_inc iv.
Proof.
  intros Hl Hb Hi. destruct (iv_split iv Hl Hb) as (Hv & Hhi & Hlo).
  destruct (iter_ctr128_inc i iv Hl Hb) as (Hl' & Hb' & Hv').
  unfold ctr32_add. rewrite put_split, u32_small by lia.
  apply be_val_inj; [len| |done|].
  { apply are_bytes_app. auto with bytes. }
  rewrite be_val_app, be_val_bytes, length_be_bytes, Hv', Hv.
  change (8 * Z.of_nat 4) with 32. rewrite !Z.mod_small by lia. lia.
Qed.

Lemma ctr32_store_iter iv b :
  length iv = 16%nat → are_bytes iv → 1 <= b → GETU32 (drop 12 iv) + b <= 2 ^ 32 →
  ctr32_store iv (u32 (GETU32 (drop 12 iv) + b)) = Nat.iter (Z.to_nat b) ctr128_inc iv.
Proof.
  intros Hl Hb Hb1 Hle. destruct (iv_split iv Hl Hb) as (Hv & Hhi & Hlo).
  destruct (iter_ctr128_inc (Z.to_nat b) iv Hl Hb) as (Hl' & Hb' & Hv').
  unfold ctr32_store. set (c := GETU32 (drop 12 iv)) in *.
  destruct (decide (c + b = 2 ^ 32)) as [Heq|Hne].
  - rewrite Heq. change (u32 (2 ^ 32)) with 0. cbn [Z.eqb].
    set (l := PUTU32 iv 12 0).
    assert (Hpl : l = take 12 iv ++ be_bytes 4 0) by (by apply put_split).
    assert (Hbl : are_bytes l).
    { rewrite Hpl. apply are_bytes_app. auto with bytes. }
    assert (Hll : length l = 16%nat) by (rewrite Hpl; len).
    unfold ctr96_inc. apply be_val_inj; [len|auto with bytes|done|].
    rewrite <- (take_drop 12 (ctr_inc_loop 12 1 l)), be_val_app, ctr_inc_loop_drop.
    rewrite ctr_inc_loop_take by (lia || done).
    assert (take 12 l = take 12 iv) as -> by (rewrite Hpl, take_app_le, take_take by len; done).
    assert (drop 12 l = be_bytes 4 0) as -> by (rewrite Hpl; apply drop_app_length'; len).
    rewrite be_val_bytes, length_be_bytes, Hv', Hv.
    change (8 * Z.of_nat 4) with 32. change (8 * Z.of_nat 12) with 96.
    replace (be_val (take 12 iv) * 2 ^ 32 + c + Z.of_nat (Z.to_nat b))
      with (2 ^ 32 * (be_val (take 12 iv) + 1)) by lia.
    change (2 ^ 128) with (2 ^ 32 * 2 ^ 96). rewrite Z.mul_mod_distr_l by lia.
    rewrite Z.mod_0_l by lia. lia.
  - rewrite u32_small by lia. replace (c + b =? 0) with false by lia.
    rewrite <- ctr32_add_iter by (done || lia). unfold ctr32_add.
    fold c. rewrite Z2Nat.id, u32_small by lia. done.
Qed.

Lemma getu32_store iv b :
  length iv = 16%nat → are_bytes iv → 1 <= b → GETU32 (drop 12 iv) + b <= 2 ^ 32 →
  GETU32 (drop 12 (Nat.iter (Z.to_nat b) ctr128_inc iv)) = u32 (GETU32 (drop 12 iv) + b).
Proof.
  intros Hl Hb Hb1 Hle. destruct (iv_split iv Hl Hb) as (Hv & Hhi & Hlo).
  destruct (iter_ctr128_inc (Z.to_nat b) iv Hl Hb) as (Hl' & Hb' & Hv').
  destruct (iv_split _ Hl' Hb') as (Hv2 & Hhi2 & Hlo2).
  rewrite Hv', Hv in Hv2. unfold u32. rewrite Z2Nat.id in Hv2 by lia.
  rewrite <- (Z.mod_small (GETU32 (drop 12 (Nat.iter _ _ _))) (2 ^ 32)) by lia.
  rewrite <- (Z.mod_add _ (be_val (take 12 (Nat.iter (Z.to_nat b) ctr128_inc iv)))) by lia.
  rewrite (Z.add_comm (GETU32 _)), <- Hv2.
  rewrite Z.mod_mod_divide by (exists (2 ^ 96); lia).
  rewrite <- Z.add_assoc, Z.add_comm, Z.mod_add by lia. done.
Qed.

Lemma ctr_keystream_app iv a b :
  ctr_keystream block key iv (a + b) =
    ctr_keystream block key iv a ++ ctr_keystream block key (Nat.iter a ctr128_inc iv) b.
Proof.
  revert iv. induction a as [|a IH]; intros iv; [done|].
  rewrite Nat.add_succ_l, !ctr_keystream_S, IH, <- app_assoc. by rewrite Nat.iter_succ_r.
Qed.

Lemma func_keystream inp k iv :
  length inp = (16 * k)%nat → length iv = 16%nat → are_bytes iv →
  GETU32 (drop 12 iv) + Z.of_nat k <= 2 ^ 32 →
  func inp k key iv = xor_bytes inp (ctr_keystream block key iv k).
Proof.
  intros Hl Hiv Hb Hk. rewrite ctr32_func by done. f_equal. unfold ctr_keystream. f_equal.
  apply map_ext_in. intros i Hi%in_seq. f_equal. apply ctr32_add_iter; auto. lia.
Qed.

(** The [while (len >= 16)] loop computes [len / 16] blocks of key stream
    whatever the batches the 32-bit counter forces on it. *)
Lemma ctr32_blocks_spec fuel iv inp :
  (length inp <= fuel)%nat → length iv = 16%nat → are_bytes iv →
  let q := (length inp / 16)%nat in
  let iv' := Nat.iter q ctr128_inc iv in
  ctr32_blocks func key fuel (GETU32 (drop 12 iv)) iv inp =
    (xor_bytes (take (16 * q) inp) (ctr_keystream block key iv q), iv',
     GETU32 (drop 12 iv'), drop (16 * q) inp).
Proof.
  revert iv inp. induction fuel as [|fuel IH]; intros iv inp Hf Hl Hb.
  { destruct inp; [done|simpl in *; lia]. }
  cbn [ctr32_blocks]. destruct (16 <=? length inp)%nat eqn:Hge; cycle 1.
  { apply Nat.leb_gt in Hge. by rewrite (Nat.div_small (length inp)) by lia. }
  apply Nat.leb_le in Hge. destruct (iv_split iv Hl Hb) as (_ & _ & Hc).
  set (c := GETU32 (drop 12 iv)) in *. set (q := (length inp / 16)%nat).
  assert (Hq1 : (1 <= q)%nat) by (apply Nat.div_le_lower_bound; lia).
  assert (Hq16 : (16 * q <= length inp)%nat) by (apply Nat.Div0.mul_div_le).
  set (b0 := if 2 ^ 28 <? Z.of_nat q then 2 ^ 28 else Z.of_nat q).
  assert (Hb0 : 1 <= b0 <= 2 ^ 28 ∧ b0 <= Z.of_nat q) by (unfold b0; destruct (_ <? _) eqn:?; lia).
  rewrite (u32_small b0) by lia.
  (* the batch the overflow check leaves *)
  assert (∃ b, (if u32 (c + b0) <? b0 then (b0 - u32 (c + b0), 0) else (b0, u32 (c + b0))) =
             (b, u32 (c + b)) ∧ 1 <= b <= b0 ∧ c + b <= 2 ^ 32) as (b & -> & Hb1 & Hcb).
  { destruct (decide (c + b0 < 2 ^ 32)) as [Hlt|Hov].
    - rewrite (u32_small (c + b0)) by lia. replace (c + b0 <? b0) with false by lia.
      exists b0. rewrite u32_small by lia. auto with lia.
    - assert (u32 (c + b0) = c + b0 - 2 ^ 32) as ->.
      { unfold u32. rewrite <- (Z.mod_add _ (-1)) by lia. apply Z.mod_small. lia. }
      replace (c + b0 - 2 ^ 32 <? b0) with true by lia. exists (2 ^ 32 - c).
      replace (c + (2 ^ 32 - c)) with (2 ^ 32) by lia. split; [f_equal; lia|lia]. }
  set (k := Z.to_nat b). assert (Hk : (1 <= k <= q)%nat) by lia.
  rewrite func_keystream by (done || len).
  unfold c at 1 2. rewrite ctr32_store_iter by (done || lia). fold k.
  rewrite <- (getu32_store iv b) by (done || lia). fold k.
  destruct (iter_ctr128_inc k iv Hl Hb) as (Hl' & Hb' & _).
  rewrite (IH _ (drop (16 * k) inp)) by (len || done). rewrite length_drop.
  assert (Hq : ((length inp - 16 * k) / 16 = q - k)%nat).
  { assert (q = (length inp - 16 * k) / 16 + k)%nat; [|lia].
    unfold q. rewrite <- Nat.div_add by lia. f_equal. lia. }
  rewrite Hq, <- Nat.iter_add, drop_drop.
  replace (q - k + k)%nat with q by lia.
  replace (16 * k + 16 * (q - k))%nat with (16 * q)%nat by lia. do 3 f_equal.
  assert (ctr_keystream block key iv q = ctr_keystream block key iv k ++
    ctr_keystream block key (Nat.iter k ctr128_inc iv) (q - k)) as ->.
  { rewrite <- ctr_keystream_app. f_equal. lia. }
  rewrite <- xor_bytes_app by (rewrite length_ctr_keystream by done; len).
  f_equal. rewrite take_drop_commute.
  replace (16 * k + 16 * (q - k))%nat with (16 * q)%nat by lia.
  rewrite <- (take_drop (16 * k) (take (16 * q) inp)) at 2.
  by rewrite take_take, Nat.min_l by lia.
Qed.

Lemma ctr32_xor_bytes ecount n inp :
  (n + length inp <= length ecount)%nat → ctr32_xor ecount n inp = xor_bytes inp (drop n ecount).
Proof.
  revert n. induction inp as [|x r IH]; intros n Hl; [done|]. simpl in *. rewrite IH by lia.
  by erewrite (drop_S _ _ n) by (apply list_lookup_lookup_total_lt; lia).
Qed.

Lemma ctr32_drain_sm little aligned s n inp :
  sm_drain (ctr_mode block key little aligned) s n inp =
    let '(o, n', r) := ctr32_drain (ctr_ecount_buf s) n inp in (o, s, n', r).
Proof.
  revert n. induction inp as [|x r IH]; intros n; simpl; [done|].
  destruct (n =? 0)%nat; [done|]. rewrite IH. by destruct (ctr32_drain _ _ _) as [[??]?].
Qed.

(** The part after the drain loop, where [n = 0]. *)
Lemma ctr32_rest iv r :
  length iv = 16%nat → are_bytes iv → are_bytes r →
  let '(o2, ivec, ctr32, r2) := ctr32_blocks func key (length r) (GETU32 (drop 12 iv)) iv r in
  let k := blocks_of (length r) in
  let tl := func (replicate 16 0) 1%nat key ivec in
  o2 ++ (if (0 <? length r2)%nat then ctr32_xor tl 0 r2 else []) =
    xor_bytes r (ctr_keystream block key iv k) ∧
  (if (0 <? length r2)%nat then ctr32_store ivec (u32 (ctr32 + 1)) else ivec) =
    Nat.iter k ctr128_inc iv ∧
  length r2 = (length r mod 16)%nat ∧
  (length r2 ≠ 0%nat → tl = block (Nat.iter (length r / 16) ctr128_inc iv) key).
Proof.
  intros Hl Hb Hr. rewrite ctr32_blocks_spec by (done || lia).
  set (q := (length r / 16)%nat).
  destruct (iter_ctr128_inc q iv Hl Hb) as (Hl' & Hb' & _).
  pose proof (Nat.div_mod_eq (length r) 16) as Hdm. fold q in Hdm.
  pose proof (Nat.mod_upper_bound (length r) 16 ltac:(lia)) as Hmb.
  destruct (iv_split _ Hl' Hb') as (_ & _ & Hc).
  assert (Htl : func (replicate 16 0) 1%nat key (Nat.iter q ctr128_inc iv) =
            block (Nat.iter q ctr128_inc iv) key).
  { rewrite func_keystream by (done || lia). rewrite ctr_keystream_S.
    unfold ctr_keystream. simpl concat. rewrite app_nil_r, xor_bytes_comm.
    apply xor_bytes_zero. by rewrite block_length. }
  cbv zeta. rewrite Htl. assert (Hlr : length (drop (16 * q) r) = (length r mod 16)%nat) by len.
  rewrite Hlr. destruct (decide (length r mod 16 = 0)%nat) as [Hz|Hnz].
  - rewrite Hz. simpl. assert (blocks_of (length r) = q) as ->.
    { unfold blocks_of. symmetry. apply (Nat.div_unique _ 16 q 15); lia. }
    rewrite app_nil_r, take_ge by lia. done.
  - replace (0 <? length r mod 16)%nat with true by lia.
    assert (blocks_of (length r) = q + 1)%nat as ->.
    { unfold blocks_of. symmetry.
      apply (Nat.div_unique _ 16 (q + 1) (length r mod 16 - 1)); lia. }
    rewrite ctr_keystream_app, ctr32_xor_bytes, drop_0 by (rewrite block_length, Hlr by done; lia).
    split_and!; [| |done|done].
    + rewrite <- xor_bytes_app by (rewrite length_ctr_keystream by done; len).
      rewrite take_drop. f_equal. rewrite ctr_keystream_S. unfold ctr_keystream.
      by rewrite app_nil_r.
    + rewrite (ctr32_store_iter _ 1) by (done || lia).
      rewrite Nat.add_comm, Nat.iter_add. reflexivity.
Qed.

Lemma ctr32_encrypt v little aligned s num inp :
  ctr_state_ok s → (num < 16)%nat → are_bytes inp →
  let '(o, s', n') := CRYPTO_ctr128_encrypt_ctr32 func key inp s num in
  let '(o2, s2, n2) := CRYPTO_ctr128_encrypt block key little aligned v inp s num in
  o = o2 ∧ n' = n2 ∧ ctr_ivec s' = ctr_ivec s2 ∧
  (n' ≠ 0%nat → ctr_ecount_buf s' = ctr_ecount_buf s2).
Proof.
  intros Hs Hn Hb. unfold CRYPTO_ctr128_encrypt.
  rewrite (sm_crypt_variant _ ctr_state_ok) by done. unfold sm_crypt.
  unfold CRYPTO_ctr128_encrypt_ctr32.
  pose proof (sm_drain_bytes (ctr_mode block key little aligned) s num inp) as Hd.
  rewrite ctr32_drain_sm in Hd. destruct (ctr32_drain _ _ _) as [[o1 n1] r1].
  set (k := (length inp - length r1)%nat) in *. destruct Hd as (Hd & Hr1 & _ & Hor).
  pose proof (sm_bytes_app (ctr_mode block key little aligned) s num (take k inp) (drop k inp)) as Happ.
  rewrite take_drop, Hd, <- Hr1 in Happ. rewrite Happ. clear Happ Hd.
  destruct s as [iv ec]. destruct Hs as (Hl & Hbi & Hle & Hbe).
  cbn [ctr_ivec ctr_ecount_buf] in *. destruct Hor as [-> | ->].
  { simpl. by rewrite app_nil_r. }
  assert (Hbr : are_bytes r1) by (rewrite Hr1; auto with bytes).
  pose proof (ctr32_rest iv r1 Hl Hbi Hbr) as Hrest.
  pose proof (ctr_encrypt_keystream block key little aligned SmallFootprint iv ec r1
    Hl Hbi Hle Hbe Hbr) as Hks.
  unfold CRYPTO_ctr128_encrypt, sm_crypt in Hks.
  destruct (sm_bytes _ _ _ r1) as [[o3 s3] n3].
  destruct (ctr32_blocks _ _ _ _ _ _) as [[[o2 ivec] c32] r2].
  destruct Hks as (-> & Hiv & -> & Hec). destruct Hrest as (Ho & Hiv' & Hlr & Htl).
  destruct (0 <? length r2)%nat eqn:Hr2; cbn [ctr_ivec ctr_ecount_buf].
  - rewrite Ho, Hiv'. split_and!; [done|done|done|].
    intros Hne. rewrite Hec, Htl by lia. done.
  - rewrite app_nil_r in Ho. rewrite Ho, Hiv'. split_and!; [done|lia|done|lia].
Qed.
End ctr32_facts.
