(* ===== verification/CfbOfb128.v ===== *)
(** * Output and cipher feedback modes: crypto/modes/{ofb128,cfb128}.c *)
From S2P Require Import Prelude StreamMode Ctr128.

(** ** CRYPTO_ofb128_encrypt *)
Section ofb128.
Context {K : Type} (block : block128_f K) (key : K).

Definition ofb_mode : stream_mode bytes := {|
  sm_refill ivec := block ivec key;
  sm_refill_w ivec := block ivec key;
  (* out[n] = in[n] ^ ivec[n]; *)
  sm_emit n x ivec := (Z.lxor x (ivec !!! n), ivec);
  sm_words inp ivec := (xor_words inp ivec, ivec);
|}.

Definition CRYPTO_ofb128_encrypt (v : variant) (inp ivec : bytes) (num : nat)
    : bytes * bytes * nat :=
  sm_crypt ofb_mode v ivec num inp.
End ofb128.

(** ** CRYPTO_cfb128_encrypt *)
Section cfb128.
Context {K : Type} (block : block128_f K) (key : K).

(** The [if (enc)] half: [out[n] = ivec[n] ^= in[n];] *)
Definition cfb_enc_mode : stream_mode bytes := {|
  sm_refill ivec := block ivec key;
  sm_refill_w ivec := block ivec key;
  sm_emit n x ivec := let c := Z.lxor (ivec !!! n) x in (c, <[n := c]> ivec);
  sm_words inp ivec := let w := xor_words ivec inp in (w, w);
|}.

(** The [else] half: [out[n] = ivec[n] ^ (c = in[n]); ivec[n] = c;] *)
Definition cfb_dec_mode : stream_mode bytes := {|
  sm_refill ivec := block ivec key;
  sm_refill_w ivec := block ivec key;
  sm_emit n x ivec := (Z.lxor (ivec !!! n) x, <[n := x]> ivec);
  sm_words inp ivec := (xor_words ivec inp, inp);
|}.

Definition CRYPTO_cfb128_encrypt (v : variant) (inp ivec : bytes) (num : nat) (enc : bool)
    : bytes * bytes * nat :=
  if enc then sm_crypt cfb_enc_mode v ivec num inp
  else sm_crypt cfb_dec_mode v ivec num inp.

(** ** cfbr_encrypt_block: a block of [nbits] bits, [1 <= nbits <= 128] *)
Definition cfbr_encrypt_block (inp : bytes) (nbits : nat) (ivec : bytes) (enc : bool)
    : option (bytes * bytes) :=
  if ((nbits =? 0) || (128 <? nbits))%nat then None else
  let ovec := ivec in
  let ivec := block ivec key in
  let num := ((nbits + 7) / 8)%nat in
  (* (second half of ovec, out) *)
  let '(hi, out) :=
    if enc then let o := xor_bytes (take num inp) ivec in (o, o)
    else (take num inp, xor_bytes (take num inp) ivec) in
  let ovec := ovec ++ hi in
  let rem := (nbits mod 8)%nat in
  let num := (nbits / 8)%nat in
  let ivec :=
    if (rem =? 0)%nat then take 16 (drop num ovec)
    else map (λ n, u8 (Z.lor (Z.shiftl (ovec !!! (n + num)%nat) (Z.of_nat rem))
                             (Z.shiftr (ovec !!! (n + num + 1)%nat) (8 - Z.of_nat rem))))
             (seq 0 16) in
  Some (out, ivec).

(** [for (n = 0; n < length; ++n) cfbr_encrypt_block(&in[n], &out[n], 8, ...)] *)
Fixpoint CRYPTO_cfb128_8_encrypt (inp ivec : bytes) (enc : bool) : bytes * bytes :=
  match inp with
  | [] => ([], ivec)
  | x :: r =>
      match cfbr_encrypt_block [x] 8 ivec enc with
      | Some (out, ivec) =>
          let '(o, ivec') := CRYPTO_cfb128_8_encrypt r ivec enc in
          (out ++ o, ivec')
      | None => let '(o, ivec') := CRYPTO_cfb128_8_encrypt r ivec enc in (x :: o, ivec')
      end
  end.

(** The body of the bit loop: [c[0] = (in[n/8] & (1 << (7 - n%8))) ? 0x80 : 0;]
    one-bit block; store bit [n] of [out]. *)
Definition cfb1_step (inp : bytes) (enc : bool) (n : nat) (st : bytes * bytes) : bytes * bytes :=
  let '(out, ivec) := st in
  let sh := 7 - Z.of_nat (n mod 8) in
  let c := if Z.land (inp !!! (n / 8)%nat) (Z.shiftl 1 sh) =? 0 then 0 else 0x80 in
  match cfbr_encrypt_block [c] 1 ivec enc with
  | Some (d, ivec) =>
      let o := Z.lor (Z.land (out !!! (n / 8)%nat) (Z.lnot (Z.shiftl 1 sh)))
                     (Z.shiftr (Z.land (d !!! 0%nat) 0x80) (Z.of_nat (n mod 8))) in
      (<[(n / 8)%nat := o]> out, ivec)
  | None => st
  end.

(** [for (n = 0; n < bits; ++n)], on the bits [n, n + k). *)
Fixpoint cfb1_loop (inp : bytes) (enc : bool) (k n : nat) (st : bytes * bytes) : bytes * bytes :=
  match k with
  | O => st
  | S k' => cfb1_loop inp enc k' (S n) (cfb1_step inp enc n st)
  end.

Definition CRYPTO_cfb128_1_encrypt (inp out : bytes) (bits : nat) (ivec : bytes) (enc : bool)
    : bytes * bytes :=
  cfb1_loop inp enc bits 0 (out, ivec).
End cfb128.

(** ** The modes satisfy the laws of the loop skeleton *)
Definition iv_ok (ivec : bytes) : Prop := length ivec = 16%nat ∧ are_bytes ivec.

Section facts.
Context {K : Type} (block : block128_f K) (key : K) `{!Block128 block key}.

Lemma iv_ok_block iv : iv_ok iv → iv_ok (block iv key).
Proof. intros [??]. split; [by apply block_length|by apply block_bytes]. Qed.

Lemma ofb_tail iv n inp :
  (n + length inp <= length iv)%nat →
  sm_tail (ofb_mode block key) iv n inp =
    (xor_bytes inp (drop n iv), iv, (n + length inp)%nat).
Proof.
  revert n. induction inp as [|x r IH]; intros n Hl; simpl.
  - by rewrite Nat.add_0_r.
  - simpl in Hl. rewrite IH by lia.
    erewrite (drop_S _ _ n) by (apply list_lookup_lookup_total_lt; lia).
    rewrite Nat.add_1_r. f_equal; (done || (simpl; lia)).
Qed.

#[export] Instance ofb_mode_ok : StreamModeOk (ofb_mode block key) iv_ok.
Proof.
  split; [by apply iv_ok_block|done|done|].
  intros chunk iv [??] ??. rewrite ofb_tail by lia. simpl. by rewrite xor_words_bytes.
Qed.

Lemma cfb_enc_tail iv n inp :
  (n + length inp <= length iv)%nat →
  sm_tail (cfb_enc_mode block key) iv n inp =
    (xor_bytes inp (drop n iv), memcpy iv n (xor_bytes inp (drop n iv)), (n + length inp)%nat).
Proof.
  revert iv n. induction inp as [|x r IH]; intros iv n Hl; simpl.
  - unfold memcpy. simpl. by rewrite !Nat.add_0_r, take_drop.
  - simpl in Hl. rewrite IH by len.
    rewrite (drop_S iv (iv !!! n) n) by (apply list_lookup_lookup_total_lt; lia).
    rewrite Nat.add_1_r, drop_insert_lt by lia. unfold xor_bytes at 3 4. simpl zip_with.
    rewrite (Z.lxor_comm x). fold (xor_bytes r (drop (S n) iv)).
    rewrite memcpy_cons by len. f_equal; (done || (simpl; lia)).
Qed.

Lemma cfb_dec_tail iv n inp :
  (n + length inp <= length iv)%nat →
  sm_tail (cfb_dec_mode block key) iv n inp =
    (xor_bytes inp (drop n iv), memcpy iv n inp, (n + length inp)%nat).
Proof.
  revert iv n. induction inp as [|x r IH]; intros iv n Hl; simpl.
  - unfold memcpy. simpl. by rewrite !Nat.add_0_r, take_drop.
  - simpl in Hl. rewrite IH by len.
    rewrite (drop_S iv (iv !!! n) n) by (apply list_lookup_lookup_total_lt; lia).
    rewrite Nat.add_1_r, drop_insert_lt by lia. unfold xor_bytes at 2. simpl zip_with.
    rewrite (Z.lxor_comm x). fold (xor_bytes r (drop (S n) iv)).
    rewrite memcpy_cons by len. f_equal; (done || (simpl; lia)).
Qed.

#[export] Instance cfb_enc_mode_ok : StreamModeOk (cfb_enc_mode block key) iv_ok.
Proof.
  split; [by apply iv_ok_block|done| |].
  - intros n x iv [??] ?. split; simpl; [len|auto with bytes].
  - intros chunk iv [??] ??. rewrite cfb_enc_tail by lia. simpl.
    rewrite xor_words_bytes, drop_0, xor_bytes_comm by done.
    rewrite memcpy_full; [done|len].
Qed.

#[export] Instance cfb_dec_mode_ok : StreamModeOk (cfb_dec_mode block key) iv_ok.
Proof.
  split; [by apply iv_ok_block|done| |].
  - intros n x iv [??] ?. split; simpl; [len|auto with bytes].
  - intros chunk iv [??] ??. rewrite cfb_dec_tail by lia. simpl.
    rewrite xor_words_bytes, drop_0, xor_bytes_comm by done.
    rewrite memcpy_full; [done|len].
Qed.

(** Decryption follows encryption byte by byte, feedback included. *)
Lemma cfb_bytes_roundtrip iv n inp :
  (n < 16)%nat → iv_ok iv → are_bytes inp →
  let '(c, iv', n') := sm_bytes (cfb_enc_mode block key) iv n inp in
  sm_bytes (cfb_dec_mode block key) iv n c = (inp, iv', n').
Proof.
  revert iv n. induction inp as [|x r IH]; intros iv n Hn Hiv; [done|].
  rewrite are_bytes_cons. intros [Hx Hr]. cbn [sm_bytes sm_refill cfb_enc_mode sm_emit].
  set (iv0 := if (n =? 0)%nat then block iv key else iv).
  assert (Hiv0 : iv_ok iv0) by (unfold iv0; destruct (n =? 0)%nat; auto using iv_ok_block).
  set (c := Z.lxor (iv0 !!! n) x). destruct Hiv0 as [Hl0 Hb0].
  assert (Hc : is_byte c) by (unfold c; auto with bytes).
  specialize (IH (<[n := c]> iv0) ((n + 1) mod 16)%nat).
  destruct (sm_bytes (cfb_enc_mode block key) _ _ r) as [[o iv'] n'].
  cbn [sm_bytes sm_refill cfb_dec_mode sm_emit]. fold iv0.
  rewrite IH; [|apply Nat.mod_upper_bound; lia|split; [len|auto with bytes]|done].
  unfold c. by rewrite Z.lxor_comm, Z.lxor_assoc, (Z.lxor_comm x), <- Z.lxor_assoc,
    Z.lxor_nilpotent, Z.lxor_0_l.
Qed.
End facts.

(** ** The r-bit feedback modes *)
Definition getbit (b : bytes) (n : nat) : bool :=
  Z.testbit (b !!! (n / 8)%nat) (7 - Z.of_nat (n mod 8)).

Section cfbr_facts.
Context {K : Type} (block : block128_f K) (key : K) `{!Block128 block key}.

Lemma cfbr_roundtrip inp nbits iv c iv' :
  iv_ok iv → length inp = ((nbits + 7) / 8)%nat →
  cfbr_encrypt_block block key inp nbits iv true = Some (c, iv') →
  cfbr_encrypt_block block key c nbits iv false = Some (inp, iv').
Proof.
  intros Hiv Hl. unfold cfbr_encrypt_block.
  destruct ((nbits =? 0) || (128 <? nbits))%nat eqn:Hn; [done|].
  apply orb_false_iff in Hn as [Hn0 Hn1]. apply Nat.eqb_neq in Hn0. apply Nat.ltb_ge in Hn1.
  assert (((nbits + 7) / 8 <= 16)%nat).
  { assert ((nbits + 7) / 8 < 17)%nat; [apply Nat.Div0.div_lt_upper_bound; lia|lia]. }
  destruct (iv_ok_block block key iv Hiv) as [Hbl _].
  rewrite (take_ge inp) by lia. intros [= <- <-].
  rewrite take_ge by len. rewrite xor_bytes_cancel by lia. done.
Qed.

Lemma cfbr_ok inp nbits iv enc c iv' :
  iv_ok iv → are_bytes inp → length inp = ((nbits + 7) / 8)%nat →
  cfbr_encrypt_block block key inp nbits iv enc = Some (c, iv') →
  length c = length inp ∧ are_bytes c ∧ iv_ok iv'.
Proof.
  intros Hiv Hb Hl. unfold cfbr_encrypt_block.
  destruct ((nbits =? 0) || (128 <? nbits))%nat eqn:Hn; [done|].
  apply orb_false_iff in Hn as [Hn0 Hn1]. apply Nat.eqb_neq in Hn0. apply Nat.ltb_ge in Hn1.
  assert (((nbits + 7) / 8 <= 16)%nat).
  { assert ((nbits + 7) / 8 < 17)%nat; [apply Nat.Div0.div_lt_upper_bound; lia|lia]. }
  pose proof (Nat.div_mod_eq nbits 8) as Hdm.
  assert (Hle : (nbits / 8 <= (nbits + 7) / 8)%nat) by (apply Nat.Div0.div_le_mono; lia).
  destruct (iv_ok_block block key iv Hiv) as [Hbl Hbb]. destruct Hiv as [Hil Hib].
  rewrite (take_ge inp) by lia.
  set (o := xor_bytes inp (block iv key)).
  assert (Hlo : length o = length inp) by (unfold o; len).
  assert (Hbo : are_bytes o) by (unfold o; auto with bytes).
  destruct enc; intros [<- <-]%(inj Some)%pair_equal_spec; (split; [done|split; [done|]]);
    (destruct (_ =? 0)%nat;
      [split; [len|apply are_bytes_take, are_bytes_drop, are_bytes_app; auto]
      |split; [by rewrite length_map, length_seq|apply Forall_map, Forall_true; intros; apply u8_is_byte]]).
Qed.

Lemma cfb8_roundtrip inp iv :
  iv_ok iv → are_bytes inp →
  let '(c, iv') := CRYPTO_cfb128_8_encrypt block key inp iv true in
  CRYPTO_cfb128_8_encrypt block key c iv false = (inp, iv').
Proof.
  revert iv. induction inp as [|x r IH]; intros iv Hiv; [done|].
  rewrite are_bytes_cons. intros [Hx Hr]. cbn [CRYPTO_cfb128_8_encrypt].
  destruct (cfbr_encrypt_block block key [x] 8 iv true) as [[c iv1]|] eqn:Hc; [|done].
  pose proof (cfbr_ok [x] 8 iv true c iv1 Hiv (proj2 (are_bytes_cons x []) (conj Hx are_bytes_nil)) eq_refl Hc)
    as (Hlc & _ & Hiv1).
  pose proof (cfbr_roundtrip [x] 8 iv c iv1 Hiv eq_refl Hc) as Hd.
  specialize (IH iv1 Hiv1 Hr).
  destruct (CRYPTO_cfb128_8_encrypt block key r iv1 true) as [o iv2].
  destruct c as [|c0 [|]]; try done. cbn [app CRYPTO_cfb128_8_encrypt]. by rewrite Hd, IH.
Qed.

(** One bit of [CRYPTO_cfb128_1_encrypt], as a function on bits. *)
Definition cfb1_byte (b : bool) : Z := if b then 0x80 else 0.
Definition cfb1_iv (iv : bytes) (b : bool) : bytes :=
  map (λ n, u8 (Z.lor (Z.shiftl ((iv ++ [cfb1_byte b]) !!! (n + 0)%nat) 1)
                      (Z.shiftr ((iv ++ [cfb1_byte b]) !!! (n + 0 + 1)%nat) (8 - 1)))) (seq 0 16).
Definition cfb1_key (iv : bytes) : bool := Z.testbit (block iv key !!! 0%nat) 7.
Fixpoint cfb1_bits (enc : bool) (iv : bytes) (bs : list bool) : list bool * bytes :=
  match bs with
  | [] => ([], iv)
  | b :: bs' =>
      let o := xorb b (cfb1_key iv) in
      let '(os, iv') := cfb1_bits enc (cfb1_iv iv (if enc then o else b)) bs' in
      (o :: os, iv')
  end.

Lemma cfb1_bits_roundtrip iv bs :
  let '(os, iv') := cfb1_bits true iv bs in cfb1_bits false iv os = (bs, iv').
Proof.
  revert iv. induction bs as [|b bs IH]; intros iv; simpl; [done|].
  specialize (IH (cfb1_iv iv (xorb b (cfb1_key iv)))).
  destruct (cfb1_bits true _ bs) as [os iv']. simpl. rewrite IH.
  by rewrite xorb_assoc, xorb_nilpotent, xorb_false_r.
Qed.

Lemma byte_shiftr7 x : is_byte x → Z.shiftr x 7 = Z.shiftr (cfb1_byte (Z.testbit x 7)) 7.
Proof.
  intros Hx. rewrite Z.shiftr_div_pow2 by lia. unfold is_byte in Hx.
  assert (Hd : x / 2 ^ 7 = 0 ∨ x / 2 ^ 7 = 1).
  { assert (0 <= x / 2 ^ 7 < 2); [|lia]. split; [apply Z.div_pos; lia|apply Z.div_lt_upper_bound; lia]. }
  destruct (Z.testbit x 7) eqn:Ht.
  - apply Z.testbit_true in Ht; [|lia]. destruct Hd as [Hd|Hd]; rewrite Hd in Ht |- *; vm_compute in Ht |- *; congruence.
  - apply Z.testbit_false in Ht; [|lia]. destruct Hd as [Hd|Hd]; rewrite Hd in Ht |- *; vm_compute in Ht |- *; congruence.
Qed.

Lemma cfb1_iv_byte iv x :
  length iv = 16%nat → is_byte x →
  map (λ n, u8 (Z.lor (Z.shiftl ((iv ++ [x]) !!! (n + 0)%nat) 1)
                      (Z.shiftr ((iv ++ [x]) !!! (n + 0 + 1)%nat) (8 - 1)))) (seq 0 16) =
  cfb1_iv iv (Z.testbit x 7).
Proof.
  intros Hl Hx. apply map_ext_in. intros n Hn%in_seq.
  rewrite !Nat.add_0_r, !(lookup_total_app_l iv _ n) by lia. do 2 f_equal.
  destruct (decide (n < 15)%nat).
  - by rewrite !lookup_total_app_l by lia.
  - rewrite !lookup_total_app_r by lia.
    replace (n + 1 - length iv)%nat with 0%nat by lia.
    change ([?a] !!! 0%nat) with a. by apply byte_shiftr7.
Qed.

Lemma cfbr_bit iv enc b :
  iv_ok iv → ∃ d,
    cfbr_encrypt_block block key [cfb1_byte b] 1 iv enc =
      Some ([d], cfb1_iv iv (if enc then xorb b (cfb1_key iv) else b)) ∧
    Z.testbit d 7 = xorb b (cfb1_key iv).
Proof.
  intros Hiv. destruct (iv_ok_block block key iv Hiv) as [Hbl Hbb]. destruct Hiv as [Hil Hib].
  assert (Hbit : Z.testbit (cfb1_byte b) 7 = b) by (by destruct b).
  assert (Hcb : is_byte (cfb1_byte b)) by (unfold is_byte; destruct b; simpl; lia).
  unfold cfbr_encrypt_block. change ((1 + 7) / 8)%nat with 1%nat.
  change (1 mod 8)%nat with 1%nat. change (1 / 8)%nat with 0%nat.
  cbn [Nat.eqb orb Nat.ltb Nat.leb firstn]. change (Z.of_nat 1) with 1.
  unfold cfb1_key. destruct (block iv key) as [|k0 ks]; [done|].
  apply are_bytes_cons in Hbb as [Hk0 _].
  unfold xor_bytes. cbn [zip_with]. change ((k0 :: ks) !!! 0%nat) with k0.
  assert (Hd : Z.testbit (Z.lxor (cfb1_byte b) k0) 7 = xorb b (Z.testbit k0 7)).
  { by rewrite Z.lxor_spec, Hbit. }
  exists (Z.lxor (cfb1_byte b) k0). split; [|done]. destruct enc.
  - rewrite cfb1_iv_byte by auto with bytes. by rewrite Hd.
  - rewrite cfb1_iv_byte by auto with bytes. by rewrite Hbit.
Qed.

Lemma cfb1_store o d m j :
  (m < 8)%nat → 0 <= j < 8 →
  Z.testbit (Z.lor (Z.land o (Z.lnot (Z.shiftl 1 (7 - Z.of_nat m))))
                   (Z.shiftr (Z.land d 0x80) (Z.of_nat m))) j =
  if decide (j = 7 - Z.of_nat m) then Z.testbit d 7 else Z.testbit o j.
Proof.
  intros Hm Hj. rewrite Z.shiftl_1_l, Z.lor_spec, Z.land_spec, Z.lnot_spec, Z.shiftr_spec by lia.
  change 0x80 with (2 ^ 7). rewrite Z.land_spec. case_decide as Hd.
  - subst j. rewrite Z.pow2_bits_true by lia. replace (7 - Z.of_nat m + Z.of_nat m) with 7 by lia.
    rewrite Z.pow2_bits_true by lia. simpl. by rewrite !andb_false_r, andb_true_r.
  - rewrite (Z.pow2_bits_false (7 - _)), (Z.pow2_bits_false 7) by lia. simpl.
    by rewrite andb_true_r, andb_false_r, orb_false_r.
Qed.

Lemma cfb1_step_spec inp enc n out iv :
  iv_ok iv → (n / 8 < length out)%nat →
  let '(out', iv') := cfb1_step block key inp enc n (out, iv) in
  let b := getbit inp n in let o := xorb b (cfb1_key iv) in
  iv' = cfb1_iv iv (if enc then o else b) ∧ length out' = length out ∧
  (∀ i, getbit out' i = if decide (i = n) then o else getbit out i).
Proof.
  intros Hiv Hn. cbn [cfb1_step]. pose proof (Nat.mod_upper_bound n 8 ltac:(lia)) as Hm.
  rewrite land_bit by lia. fold (getbit inp n).
  assert ((if negb (getbit inp n) then 0 else 128) = cfb1_byte (getbit inp n)) as ->
    by (by destruct (getbit inp n)).
  destruct (cfbr_bit iv enc (getbit inp n) Hiv) as (d & -> & Hd).
  split; [done|]. split; [len|]. intros i. unfold getbit at 1.
  pose proof (Nat.mod_upper_bound i 8 ltac:(lia)) as Hmi.
  destruct (decide (i / 8 = n / 8)%nat) as [Heq|Hne].
  - rewrite Heq, list_lookup_total_insert_eq by done.
    change ([d] !!! 0%nat) with d. rewrite cfb1_store by lia.
    assert (7 - Z.of_nat (i mod 8) = 7 - Z.of_nat (n mod 8) ↔ i = n) as Hiff.
    { pose proof (Nat.div_mod_eq i 8). pose proof (Nat.div_mod_eq n 8). lia. }
    case_decide as H1; case_decide as H2; try tauto. unfold getbit. by rewrite Heq.
  - rewrite list_lookup_total_insert_ne by done. case_decide; [congruence|done].
Qed.

Lemma cfb1_iv_ok iv b : iv_ok (cfb1_iv iv b).
Proof.
  unfold cfb1_iv. split; [by rewrite length_map, length_seq|].
  apply Forall_map, Forall_true. intros; apply u8_is_byte.
Qed.

Lemma cfb1_loop_spec inp enc k n out iv :
  iv_ok iv → (n + k <= 8 * length out)%nat →
  let '(out', iv') := cfb1_loop block key inp enc k n (out, iv) in
  let '(os, iv2) := cfb1_bits enc iv (map (getbit inp) (seq n k)) in
  iv' = iv2 ∧ map (getbit out') (seq n k) = os ∧
  (∀ i, (i < n)%nat → getbit out' i = getbit out i).
Proof.
  revert n out iv. induction k as [|k IH]; intros n out iv Hiv Hk; [done|].
  cbn [cfb1_loop seq map cfb1_bits].
  pose proof (cfb1_step_spec inp enc n out iv Hiv) as Hs.
  destruct (cfb1_step block key inp enc n (out, iv)) as [out1 iv1].
  destruct Hs as (Hiv1 & Hl1 & Hb1); [apply Nat.Div0.div_lt_upper_bound; lia|].
  assert (iv_ok iv1) by (rewrite Hiv1; apply cfb1_iv_ok).
  specialize (IH (S n) out1 iv1 ltac:(done) ltac:(rewrite Hl1; lia)).
  rewrite <- Hiv1.
  destruct (cfb1_loop _ _ _ _ _ _ _) as [out2 iv2].
  destruct (cfb1_bits _ _ _) as [os iv3]. destruct IH as (-> & Hos & Hb2).
  split; [done|]. split.
  - f_equal; [|done]. rewrite Hb2, Hb1 by lia. by rewrite decide_True.
  - intros i Hi. rewrite Hb2, Hb1 by lia. by rewrite decide_False by lia.
Qed.
End cfbr_facts.
