(* ===== verification/Cbc128.v ===== *)
(** * Cipher block chaining: crypto/modes/cbc128.c *)
From S2P Require Import Prelude StreamMode Ctr128 CfbOfb128.

Section cbc128.
Context {K : Type} (block : block128_f K) (key : K).

(** The loops of [CRYPTO_cbc128_encrypt]: the produced output and the block
    [iv] points to.  [xor] is the word-wise or the byte-wise copy of
    [out[n] = in[n] ^ iv[n]]. *)
Fixpoint cbc_enc_blocks (xor : bytes → bytes → bytes) (fuel : nat) (iv inp : bytes)
    : bytes * bytes * bytes :=
  match fuel with
  | O => ([], iv, inp)
  | S fuel' =>
      if (16 <=? length inp)%nat then
        let out := block (xor (take 16 inp) iv) key in
        let '(o, iv', r) := cbc_enc_blocks xor fuel' out (drop 16 inp) in
        (out ++ o, iv', r)
      else ([], iv, inp)
  end.

(** [while (len) { ... if (len <= 16) break; ... }]: a partial block is
    completed with the bytes of [iv]. *)
Fixpoint cbc_enc_tail (fuel : nat) (iv inp : bytes) : bytes * bytes :=
  match fuel with
  | O => ([], iv)
  | S fuel' =>
      if (0 <? length inp)%nat then
        let n := Nat.min 16 (length inp) in
        let out := block (xor_bytes (take n inp) iv ++ drop n iv) key in
        if (length inp <=? 16)%nat then (out, out) else
        let '(o, iv') := cbc_enc_tail fuel' out (drop 16 inp) in
        (out ++ o, iv')
      else ([], iv)
  end.

Definition CRYPTO_cbc128_encrypt (v : variant) (inp ivec : bytes) : bytes * bytes :=
  if (length inp =? 0)%nat then ([], ivec) else
  let '(o1, iv, r) :=
    match v with
    | Words => cbc_enc_blocks xor_words (length inp) ivec inp
    | Misaligned => cbc_enc_blocks xor_bytes (length inp) ivec inp
    | SmallFootprint => ([], ivec, inp)
    end in
  let '(o2, iv) := cbc_enc_tail (length r) iv r in
  (o1 ++ o2, iv).

(** The [in != out] loops of [CRYPTO_cbc128_decrypt] on [len] bytes of the
    buffer [inp]; [iv] points to the previous ciphertext block. *)
Fixpoint cbc_dec_blocks (xor : bytes → bytes → bytes) (fuel len : nat) (iv inp : bytes)
    : bytes * bytes * nat * bytes :=
  match fuel with
  | O => ([], iv, len, inp)
  | S fuel' =>
      if (16 <=? len)%nat then
        let out := xor (block (take 16 inp) key) iv in
        let '(o, iv', len', r) := cbc_dec_blocks xor fuel' (len - 16) (take 16 inp) (drop 16 inp) in
        (out ++ o, iv', len', r)
      else ([], iv, len, inp)
  end.

(** One block of the [in == out] loops: [c = in[n]; out[n] = tmp[n] ^ ivec[n];
    ivec[n] = c] for the bytes [n, n + k) of the block at [ofs] of the one
    buffer both pointers refer to. *)
Fixpoint cbc_inplace_block (tmp : bytes) (ofs k n : nat) (buf ivec : bytes) : bytes * bytes :=
  match k with
  | O => (buf, ivec)
  | S k' =>
      let c := buf !!! (ofs + n)%nat in
      let buf := <[(ofs + n)%nat := Z.lxor (tmp !!! n) (ivec !!! n)]> buf in
      let ivec := <[n := c]> ivec in
      cbc_inplace_block tmp ofs k' (S n) buf ivec
  end.

(** [while (len >= 16)] in place, from offset [ofs] of the buffer. *)
Fixpoint cbc_inplace_blocks (fuel len ofs : nat) (buf ivec : bytes)
    : bytes * bytes * nat * nat :=
  match fuel with
  | O => (buf, ivec, len, ofs)
  | S fuel' =>
      if (16 <=? len)%nat then
        let tmp := block (take 16 (drop ofs buf)) key in
        let '(buf, ivec) := cbc_inplace_block tmp ofs 16 0 buf ivec in
        cbc_inplace_blocks fuel' (len - 16) (ofs + 16) buf ivec
      else (buf, ivec, len, ofs)
  end.

(** The last [while (len)] loop: [ivec] receives the 16 bytes read, [out]
    only the bytes below [len]. *)
Fixpoint cbc_dec_tail (fuel len : nat) (ivec inp : bytes) : bytes * bytes :=
  match fuel with
  | O => ([], ivec)
  | S fuel' =>
      if (0 <? len)%nat then
        let tmp := block (take 16 inp) key in
        let n := Nat.min 16 len in
        let out := take n (xor_bytes tmp ivec) in
        let ivec := take n inp ++ drop n ivec in
        if (len <=? 16)%nat then (out, take n ivec ++ drop n (take 16 inp)) else
        let '(o, ivec') := cbc_dec_tail fuel' (len - 16) ivec (drop 16 inp) in
        (out ++ o, ivec')
      else ([], ivec)
  end.

(** [CRYPTO_cbc128_decrypt(in, out, len, ...)]: [inp] is the readable input
    buffer (the last block is read whole), the result the [len] bytes
    written to [out] and the new [ivec]. *)
Definition CRYPTO_cbc128_decrypt (v : variant) (inplace : bool) (inp : bytes) (len : nat)
    (ivec : bytes) : bytes * bytes :=
  if (len =? 0)%nat then ([], ivec) else
  match v with
  | SmallFootprint => cbc_dec_tail len len ivec inp
  | _ =>
      if inplace then
        let '(buf, ivec, len', ofs) := cbc_inplace_blocks len len 0 inp ivec in
        let '(o, ivec) := cbc_dec_tail len' len' ivec (drop ofs buf) in
        (take ofs buf ++ o, ivec)
      else
        let xor := match v with Words => xor_words | _ => xor_bytes end in
        let '(o1, iv, len', r) := cbc_dec_blocks xor len len ivec inp in
        let '(o2, iv) := cbc_dec_tail len' len' iv r in
        (o1 ++ o2, iv)
  end.
End cbc128.

(** ** Facts *)

(** Decryption undoes encryption on blocks. *)
Class BlockInverse {K1 K2} (enc : block128_f K1) (ek : K1) (dec : block128_f K2) (dk : K2) :=
  block_inverse b : length b = 16%nat → are_bytes b → dec (enc b ek) dk = b.

(** The textbook definition, over whole and last partial blocks. *)
Fixpoint cbc_enc_spec {K} (block : block128_f K) (key : K) (fuel : nat) (iv inp : bytes)
    : bytes * bytes :=
  match fuel with
  | O => ([], iv)
  | S fuel' =>
      if (0 <? length inp)%nat then
        let c := block (xor_bytes (take 16 inp) iv ++ drop (length (take 16 inp)) iv) key in
        let '(o, iv') := cbc_enc_spec block key fuel' c (drop 16 inp) in
        (c ++ o, iv')
      else ([], iv)
  end.

Section cbc_facts.
Context {K : Type} (block : block128_f K) (key : K) `{!Block128 block key}.

Lemma cbc_spec_fuel f1 f2 iv inp :
  (length inp <= f1)%nat → (length inp <= f2)%nat →
  cbc_enc_spec block key f1 iv inp = cbc_enc_spec block key f2 iv inp.
Proof.
  revert f2 iv inp. induction f1 as [|f1 IH]; intros [|f2] iv inp H1 H2; simpl; try done.
  - by replace (0 <? length inp)%nat with false by lia.
  - by replace (0 <? length inp)%nat with false by lia.
  - destruct (0 <? length inp)%nat eqn:?; [|done]. rewrite (IH f2) by len. done.
Qed.

Lemma cbc_tail_spec fuel iv inp :
  (length inp <= fuel)%nat →
  cbc_enc_tail block key fuel iv inp = cbc_enc_spec block key fuel iv inp.
Proof.
  revert iv inp. induction fuel as [|fuel IH]; intros iv inp Hl; [done|].
  cbn [cbc_enc_tail cbc_enc_spec]. destruct (0 <? length inp)%nat eqn:?; [|done].
  rewrite length_take. set (n := Nat.min 16 (length inp)).
  assert (take n inp = take 16 inp) as -> by (unfold n; destruct (decide (16 <= length inp)%nat);
    [by rewrite Nat.min_l by lia|by rewrite Nat.min_r, !take_ge by lia]).
  destruct (length inp <=? 16)%nat eqn:?.
  - rewrite (drop_ge inp) by lia. destruct fuel; simpl; by rewrite app_nil_r.
  - by rewrite IH by len.
Qed.

Lemma cbc_blocks_spec xor fuel iv inp :
  (xor = xor_words ∨ xor = xor_bytes) → iv_ok iv → are_bytes inp → (length inp <= fuel)%nat →
  let '(o, iv', r) := cbc_enc_blocks block key xor fuel iv inp in
  iv_ok iv' ∧ (length r <= fuel)%nat ∧
  cbc_enc_spec block key fuel iv inp =
    let '(o2, iv2) := cbc_enc_spec block key fuel iv' r in (o ++ o2, iv2).
Proof.
  intros Hxor. revert iv inp. induction fuel as [|fuel IH]; intros iv inp Hiv Hb Hl.
  { simpl. auto. }
  cbn [cbc_enc_blocks]. destruct (16 <=? length inp)%nat eqn:Hge; cycle 1.
  { split_and!; auto. by destruct (cbc_enc_spec _ _ _ _ _). }
  assert (Hc : length (take 16 inp) = 16%nat) by len.
  assert (xor (take 16 inp) iv = xor_bytes (take 16 inp) iv) as ->.
  { destruct Hiv. destruct Hxor as [-> | ->]; [|done]. apply xor_words_bytes; auto with bytes. }
  set (c := block (xor_bytes (take 16 inp) iv) key).
  assert (Hiv' : iv_ok c).
  { apply iv_ok_block; [done|]. destruct Hiv. split; [len|auto with bytes]. }
  specialize (IH c (drop 16 inp) Hiv' ltac:(auto with bytes) ltac:(len)).
  destruct (cbc_enc_blocks _ _ _ _ _ _) as [[o iv'] r]. destruct IH as (? & ? & IH).
  split; [done|]. split; [lia|]. rewrite (cbc_spec_fuel (S fuel) fuel iv' r) by lia.
  cbn [cbc_enc_spec]. replace (0 <? length inp)%nat with true by lia.
  rewrite Hc, (drop_ge iv), app_nil_r by (destruct Hiv; lia). fold c. rewrite IH.
  destruct (cbc_enc_spec block key fuel iv' r). by rewrite app_assoc.
Qed.

Lemma cbc_encrypt_spec v iv inp :
  iv_ok iv → are_bytes inp →
  CRYPTO_cbc128_encrypt block key v inp iv = cbc_enc_spec block key (length inp) iv inp.
Proof.
  intros Hiv Hb. unfold CRYPTO_cbc128_encrypt.
  destruct (length inp =? 0)%nat eqn:H0.
  { apply Nat.eqb_eq, nil_length_inv in H0. by subst. }
  assert (∀ xor, (xor = xor_words ∨ xor = xor_bytes) →
    (let '(o1, iv1, r) := cbc_enc_blocks block key xor (length inp) iv inp in
     let '(o2, iv2) := cbc_enc_tail block key (length r) iv1 r in (o1 ++ o2, iv2)) =
    cbc_enc_spec block key (length inp) iv inp) as Hx.
  { intros xor Hxor. pose proof (cbc_blocks_spec xor (length inp) iv inp Hxor Hiv Hb ltac:(lia)) as H.
    destruct (cbc_enc_blocks _ _ _ _ _ _) as [[o1 iv1] r]. destruct H as (_ & Hl & ->).
    by rewrite cbc_tail_spec, (cbc_spec_fuel (length r) (length inp)) by lia. }
  destruct v; [by apply Hx; left|by apply Hx; right|].
  rewrite cbc_tail_spec by lia. by destruct (cbc_enc_spec _ _ _ _ _).
Qed.

Lemma cbc_enc_ok fuel iv inp :
  iv_ok iv → are_bytes inp → (length inp <= fuel)%nat →
  let '(o, iv') := cbc_enc_spec block key fuel iv inp in
  iv_ok iv' ∧ are_bytes o ∧ length o = (16 * ((length inp + 15) / 16))%nat.
Proof.
  revert iv inp. induction fuel as [|fuel IH]; intros iv inp Hiv Hb Hl.
  { destruct inp; [done|simpl in *; lia]. }
  cbn [cbc_enc_spec]. destruct (0 <? length inp)%nat eqn:H0; cycle 1.
  { destruct inp; [done|simpl in *; lia]. }
  set (c := block _ _). assert (Hc : iv_ok c).
  { apply iv_ok_block; [done|]. destruct Hiv. split; [len|]. apply are_bytes_app; auto with bytes. }
  specialize (IH c (drop 16 inp) Hc ltac:(auto with bytes) ltac:(len)).
  destruct (cbc_enc_spec _ _ _ _ _) as [o iv']. destruct IH as (? & ? & Hlo). destruct Hc.
  split_and!; [done|by apply are_bytes_app|].
  rewrite length_app, Hlo, length_drop.
  destruct (decide (length inp <= 16)%nat) as [Hle|].
  - replace (length inp - 16 + 15)%nat with 15%nat by lia. change (15 / 16)%nat with 0%nat.
    rewrite <- (Nat.div_unique (length inp + 15) 16 1 (length inp - 1)); lia.
  - replace (length inp + 15)%nat with (length inp - 16 + 15 + 1 * 16)%nat by lia.
    rewrite Nat.div_add by lia. lia.
Qed.
End cbc_facts.

(** The textbook decryption of [len] bytes. *)
Fixpoint cbc_dec_spec {K} (block : block128_f K) (key : K) (fuel len : nat) (iv inp : bytes)
    : bytes * bytes :=
  match fuel with
  | O => ([], iv)
  | S fuel' =>
      if (0 <? len)%nat then
        let '(o, iv') := cbc_dec_spec block key fuel' (len - 16) (take 16 inp) (drop 16 inp) in
        (take (Nat.min 16 len) (xor_bytes (block (take 16 inp) key) iv) ++ o, iv')
      else ([], iv)
  end.

(** The readable part of the buffer covers the last block. *)
Definition cbc_readable (len : nat) (inp : bytes) : Prop :=
  (16 * ((len + 15) / 16) <= length inp)%nat.

Lemma cbc_readable_first len inp :
  (0 < len)%nat → cbc_readable len inp → (16 <= length inp)%nat.
Proof.
  unfold cbc_readable. intros Hl Hr.
  assert (1 <= (len + 15) / 16)%nat by (apply Nat.div_le_lower_bound; lia). lia.
Qed.
Lemma cbc_readable_rest len inp : cbc_readable len inp → cbc_readable (len - 16) (drop 16 inp).
Proof.
  unfold cbc_readable. intros Hr. rewrite length_drop. destruct (decide (len <= 16)%nat).
  - replace (len - 16 + 15)%nat with 15%nat by lia. change (15 / 16)%nat with 0%nat. lia.
  - replace (len + 15)%nat with (len - 16 + 15 + 1 * 16)%nat in Hr by lia.
    rewrite Nat.div_add in Hr by lia. lia.
Qed.

Section cbc_dec_facts.
Context {K : Type} (block : block128_f K) (key : K) `{!Block128 block key}.

Lemma cbc_dec_spec_fuel f1 f2 len iv inp :
  (len <= f1)%nat → (len <= f2)%nat →
  cbc_dec_spec block key f1 len iv inp = cbc_dec_spec block key f2 len iv inp.
Proof.
  revert f2 len iv inp. induction f1 as [|f1 IH]; intros [|f2] len iv inp H1 H2; simpl; try done.
  - by replace (0 <? len)%nat with false by lia.
  - by replace (0 <? len)%nat with false by lia.
  - destruct (0 <? len)%nat eqn:?; [|done]. by rewrite (IH f2) by lia.
Qed.

Lemma cbc_dec_tail_spec fuel len iv inp :
  length iv = 16%nat → cbc_readable len inp → (len <= fuel)%nat →
  cbc_dec_tail block key fuel len iv inp = cbc_dec_spec block key fuel len iv inp.
Proof.
  revert len iv inp. induction fuel as [|fuel IH]; intros len iv inp Hiv Hr Hl; [done|].
  cbn [cbc_dec_tail cbc_dec_spec]. destruct (0 <? len)%nat eqn:H0; [|done].
  pose proof (cbc_readable_first len inp ltac:(lia) Hr) as H16.
  destruct (len <=? 16)%nat eqn:Hle.
  - replace (len - 16)%nat with 0%nat by lia. rewrite (Nat.min_r 16 len) by lia.
    rewrite take_app_length' by len.
    assert (take len inp ++ drop len (take 16 inp) = take 16 inp) as Hj.
    { rewrite <- (take_drop len (take 16 inp)) at 2. by rewrite take_take, Nat.min_l by lia. }
    rewrite Hj. destruct fuel; simpl; by rewrite app_nil_r.
  - rewrite (Nat.min_l 16 len) by lia. rewrite (drop_ge iv), app_nil_r by lia.
    rewrite IH; [done|len|by apply cbc_readable_rest|lia].
Qed.

Lemma cbc_dec_blocks_spec xor fuel len iv inp :
  (xor = xor_words ∨ xor = xor_bytes) → iv_ok iv → are_bytes inp → cbc_readable len inp →
  (len <= fuel)%nat →
  let '(o, iv', len', r) := cbc_dec_blocks block key xor fuel len iv inp in
  iv_ok iv' ∧ cbc_readable len' r ∧ (len' <= fuel)%nat ∧
  cbc_dec_spec block key fuel len iv inp =
    let '(o2, iv2) := cbc_dec_spec block key fuel len' iv' r in (o ++ o2, iv2).
Proof.
  intros Hxor. revert len iv inp.
  induction fuel as [|fuel IH]; intros len iv inp Hiv Hb Hr Hl; [done|].
  cbn [cbc_dec_blocks]. destruct (16 <=? len)%nat eqn:Hge; cycle 1.
  { split_and!; auto. by destruct (cbc_dec_spec block key (S fuel) len iv inp). }
  pose proof (cbc_readable_first len inp ltac:(lia) Hr) as H16.
  assert (Hc : iv_ok (take 16 inp)) by (split; [len|auto with bytes]).
  specialize (IH (len - 16)%nat (take 16 inp) (drop 16 inp) Hc ltac:(auto with bytes)
    ltac:(by apply cbc_readable_rest) ltac:(lia)).
  pose proof (iv_ok_block block key _ Hc) as [Hbl Hbb].
  assert (xor (block (take 16 inp) key) iv = xor_bytes (block (take 16 inp) key) iv) as ->.
  { destruct Hiv. destruct Hxor as [-> | ->]; [|done]. by apply xor_words_bytes. }
  destruct (cbc_dec_blocks block key xor fuel _ _ _) as [[[o iv'] len'] r].
  destruct IH as (? & ? & ? & IH). split_and!; [done|done|lia|].
  rewrite (cbc_dec_spec_fuel (S fuel) fuel len' iv' r) by lia.
  cbn [cbc_dec_spec]. replace (0 <? len)%nat with true by lia. rewrite IH.
  destruct (cbc_dec_spec block key fuel len' iv' r).
  rewrite (take_ge (xor_bytes _ _)) by (destruct Hiv; len). by rewrite app_assoc.
Qed.

(** A block decrypted in place: the buffer holds the plaintext, [ivec] the
    ciphertext that was there. *)
Lemma cbc_inplace_block_spec tmp ofs k n buf ivec :
  (n + k = 16)%nat → length tmp = 16%nat → length ivec = 16%nat → (ofs + 16 <= length buf)%nat →
  cbc_inplace_block tmp ofs k n buf ivec =
    (memcpy buf (ofs + n) (xor_bytes (drop n tmp) (drop n ivec)),
     memcpy ivec n (take k (drop (ofs + n) buf))).
Proof.
  revert n buf ivec. induction k as [|k IH]; intros n buf ivec Hn Ht Hi Hb.
  - simpl. rewrite (drop_ge tmp) by lia. unfold xor_bytes, memcpy. simpl.
    by rewrite !Nat.add_0_r, !take_drop.
  - cbn [cbc_inplace_block]. rewrite IH by len.
    rewrite (drop_S tmp (tmp !!! n) n) by (apply list_lookup_lookup_total_lt; lia).
    rewrite (drop_S ivec (ivec !!! n) n) by (apply list_lookup_lookup_total_lt; lia).
    rewrite (drop_S buf (buf !!! (ofs + n)%nat) (ofs + n)) by (apply list_lookup_lookup_total_lt; lia).
    rewrite !drop_insert_lt by lia. cbn [firstn]. unfold xor_bytes at 2. cbn [zip_with].
    fold (xor_bytes (drop (S n) tmp) (drop (S n) ivec)).
    rewrite Nat.add_succ_r, !memcpy_cons by lia. done.
Qed.

Lemma cbc_inplace_blocks_spec fuel len ofs buf ivec :
  iv_ok ivec → are_bytes buf → cbc_readable len (drop ofs buf) →
  (len <= fuel)%nat →
  let '(buf', iv', len', ofs') := cbc_inplace_blocks block key fuel len ofs buf ivec in
  iv_ok iv' ∧ are_bytes buf' ∧ cbc_readable len' (drop ofs' buf') ∧
  (len' <= fuel)%nat ∧ (ofs <= ofs')%nat ∧ take ofs buf' = take ofs buf ∧
  cbc_dec_spec block key fuel len ivec (drop ofs buf) =
    let '(o2, iv2) := cbc_dec_spec block key fuel len' iv' (drop ofs' buf') in
    (drop ofs (take ofs' buf') ++ o2, iv2).
Proof.
  revert len ofs buf ivec.
  induction fuel as [|fuel IH]; intros len ofs buf ivec Hiv Hb Hr Hl.
  { simpl. split_and!; try done. by rewrite (drop_ge (take ofs buf)) by len. }
  cbn [cbc_inplace_blocks]. destruct (16 <=? len)%nat eqn:Hge; cycle 1.
  { split_and!; try done. rewrite (drop_ge (take ofs buf)) by len.
    by destruct (cbc_dec_spec block key (S fuel) len ivec _). }
  pose proof (cbc_readable_first len _ ltac:(lia) Hr) as H16. rewrite length_drop in H16.
  assert (Hc : iv_ok (take 16 (drop ofs buf))) by (split; [len|auto with bytes]).
  pose proof (iv_ok_block block key _ Hc) as [Hbl Hbb].
  set (tmp := block (take 16 (drop ofs buf)) key) in *. destruct Hiv as [Hil Hib].
  rewrite cbc_inplace_block_spec by (done || lia).
  rewrite Nat.add_0_r, !drop_0, (memcpy_full ivec) by len.
  set (p := xor_bytes tmp ivec). assert (Hp : length p = 16%nat) by (unfold p; len).
  assert (Hpb : are_bytes p) by (unfold p; auto with bytes).
  set (buf1 := memcpy buf ofs p).
  assert (Hd1 : drop (ofs + 16) buf1 = drop (ofs + 16) buf).
  { unfold buf1, memcpy. rewrite app_assoc, drop_app_length' by len. by rewrite Hp. }
  assert (Hl1 : length buf1 = length buf) by (unfold buf1; rewrite length_memcpy; lia).
  specialize (IH (len - 16)%nat (ofs + 16)%nat buf1 (take 16 (drop ofs buf)) Hc
    ltac:(unfold buf1; auto with bytes)
    ltac:(rewrite Hd1, <- drop_drop; by apply cbc_readable_rest) ltac:(lia)).
  destruct (cbc_inplace_blocks block key fuel _ _ _ _) as [[[buf' iv'] len'] ofs'].
  destruct IH as (? & ? & ? & ? & ? & Htake & IH).
  assert (Ht1 : take (ofs + 16) buf1 = take ofs buf ++ p).
  { unfold buf1, memcpy. rewrite app_assoc. apply take_app_length'. len. }
  assert (Htk : take ofs buf' = take ofs buf).
  { rewrite <- (Nat.min_l ofs (ofs + 16)), <- take_take, Htake, Ht1 by lia.
    rewrite take_app_length' by len. by rewrite Nat.min_l by lia. }
  split_and!; [done|done|done|lia|lia|done|].
  rewrite (cbc_dec_spec_fuel (S fuel) fuel len' iv') by lia.
  cbn [cbc_dec_spec]. replace (0 <? len)%nat with true by lia.
  rewrite drop_drop, <- Hd1, IH.
  destruct (cbc_dec_spec block key fuel len' iv' _). fold tmp. fold p.
  rewrite (take_ge p), app_assoc by lia. do 2 f_equal.
  assert (Hs : take ofs' buf' = take ofs buf ++ p ++ drop (ofs + 16) (take ofs' buf')).
  { rewrite app_assoc, <- Ht1, <- Htake. rewrite <- (take_drop (ofs + 16) (take ofs' buf')) at 1.
    by rewrite take_take, Nat.min_l by lia. }
  rewrite Hs at 2. by rewrite drop_app_length' by len.
Qed.

Lemma cbc_decrypt_spec v inplace inp len iv :
  iv_ok iv → are_bytes inp → cbc_readable len inp →
  CRYPTO_cbc128_decrypt block key v inplace inp len iv = cbc_dec_spec block key len len iv inp.
Proof.
  intros Hiv Hb Hr. pose proof Hiv as [Hil _]. unfold CRYPTO_cbc128_decrypt.
  destruct (len =? 0)%nat eqn:H0; [apply Nat.eqb_eq in H0; by subst|].
  assert (Hin : (let '(buf, ivec, len', ofs) := cbc_inplace_blocks block key len len 0 inp iv in
    let '(o, ivec) := cbc_dec_tail block key len' len' ivec (drop ofs buf) in
    (take ofs buf ++ o, ivec)) = cbc_dec_spec block key len len iv inp).
  { pose proof (cbc_inplace_blocks_spec len len 0 inp iv Hiv Hb Hr ltac:(lia)) as H.
    destruct (cbc_inplace_blocks block key len len 0 inp iv) as [[[buf' iv'] len'] ofs'].
    destruct H as ([? ?] & ? & ? & ? & ? & _ & H). rewrite drop_0 in H. rewrite H.
    rewrite cbc_dec_tail_spec, (cbc_dec_spec_fuel len' len) by (done || lia). done. }
  assert (Hout : ∀ xor, (xor = xor_words ∨ xor = xor_bytes) →
    (let '(o1, iv, len', r) := cbc_dec_blocks block key xor len len iv inp in
     let '(o2, iv) := cbc_dec_tail block key len' len' iv r in (o1 ++ o2, iv)) =
    cbc_dec_spec block key len len iv inp).
  { intros xor Hxor.
    pose proof (cbc_dec_blocks_spec xor len len iv inp Hxor Hiv Hb Hr ltac:(lia)) as H.
    destruct (cbc_dec_blocks block key xor len len iv inp) as [[[o iv'] len'] r].
    destruct H as ([? ?] & ? & ? & ->).
    rewrite cbc_dec_tail_spec, (cbc_dec_spec_fuel len' len) by (done || lia). done. }
  destruct v, inplace; auto; by apply cbc_dec_tail_spec.
Qed.
End cbc_dec_facts.

Section cbc_roundtrip.
Context {K1 K2 : Type} (enc : block128_f K1) (ek : K1) (dec : block128_f K2) (dk : K2).
Context `{!Block128 enc ek, !Block128 dec dk, !BlockInverse enc ek dec dk}.

Lemma cbc_spec_roundtrip f1 f2 iv inp :
  iv_ok iv → are_bytes inp → (length inp <= f1)%nat → (length inp <= f2)%nat →
  let '(c, iv') := cbc_enc_spec enc ek f1 iv inp in
  cbc_dec_spec dec dk f2 (length inp) iv c = (inp, iv').
Proof.
  revert f2 iv inp. induction f1 as [|f1 IH]; intros f2 iv inp Hiv Hb Hl1 Hl2.
  { destruct inp; [destruct f2; done|simpl in *; lia]. }
  cbn [cbc_enc_spec]. destruct (0 <? length inp)%nat eqn:H0; cycle 1.
  { destruct inp; [destruct f2; done|simpl in *; lia]. }
  destruct f2 as [|f2]; [lia|].
  set (p := xor_bytes (take 16 inp) iv ++ drop (length (take 16 inp)) iv).
  destruct Hiv as [Hil Hib].
  assert (Hp : length p = 16%nat) by (unfold p; len).
  assert (Hpb : are_bytes p) by (unfold p; apply are_bytes_app; auto with bytes).
  assert (Hc : iv_ok (enc p ek)) by (by apply iv_ok_block).
  specialize (IH f2 (enc p ek) (drop 16 inp) Hc ltac:(auto with bytes) ltac:(len) ltac:(len)).
  destruct (cbc_enc_spec enc ek f1 (enc p ek) (drop 16 inp)) as [o iv'].
  destruct Hc as [Hcl Hcb]. cbn [cbc_dec_spec]. rewrite H0.
  rewrite take_app_length', drop_app_length' by done.
  rewrite (block_inverse (enc := enc) (ek := ek) (dec := dec) (dk := dk)), <- length_drop, IH by done. f_equal.
  rewrite <- (take_drop 16 inp) at 3. f_equal. unfold p. rewrite <- length_take.
  set (q := take 16 inp).
  assert (Hq : (length q <= 16)%nat) by (unfold q; len).
  rewrite take_xor_bytes, take_app_length' by len.
  rewrite <- (xor_bytes_take_r (length q) q iv) by lia. apply xor_bytes_cancel. len.
Qed.
End cbc_roundtrip.
