(* ===== verification/Wrap128.v ===== *)
(** * AES key wrap: crypto/modes/wrap128.c (RFC 3394 and RFC 5649) *)
From S2P Require Import Prelude Ctr128 CfbOfb128 Cbc128.

Definition default_iv : bytes := replicate 8 0xA6.
Definition default_aiv : bytes := [0xA6; 0x59; 0x59; 0xA6].
Definition CRYPTO128_WRAP_MAX : Z := Z.shiftl 1 31.

(** [A[7] ^= t & 0xff; if (t > 0xff) { A[6] ^= ...; A[5] ^= ...; A[4] ^= ... }] *)
Definition wrap_xor_t (A : bytes) (t : Z) : bytes :=
  let A := <[7%nat := Z.lxor (A !!! 7%nat) (u8 (Z.land t 0xff))]> A in
  if 0xff <? t then
    let A := <[6%nat := Z.lxor (A !!! 6%nat) (u8 (Z.land (Z.shiftr t 8) 0xff))]> A in
    let A := <[5%nat := Z.lxor (A !!! 5%nat) (u8 (Z.land (Z.shiftr t 16) 0xff))]> A in
    <[4%nat := Z.lxor (A !!! 4%nat) (u8 (Z.land (Z.shiftr t 24) 0xff))]> A
  else A.

Section wrap128.
Context {K : Type} (block : block128_f K) (key : K).

(** One turn of the inner loop of the wrapping: [R] points at offset [ofs]
    of the data area ([out + 8] in [CRYPTO_128_wrap]). *)
Definition wrap_step (t : Z) (ofs : nat) (st : bytes * bytes) : bytes * bytes :=
  let '(A, R) := st in
  let B := block (A ++ take 8 (drop ofs R)) key in
  (wrap_xor_t (take 8 B) t, memcpy R ofs (drop 8 B)).

(** [for (i = 0; i < inlen; i += 8, t++, R += 8)]; [k] turns remain. *)
Fixpoint wrap_inner (k : nat) (t : Z) (ofs : nat) (st : bytes * bytes) : bytes * bytes :=
  match k with
  | O => st
  | S k' => wrap_inner k' (t + 1) (ofs + 8) (wrap_step t ofs st)
  end.

(** [for (j = 0; j < 6; j++) { R = out + 8; ... }] *)
Fixpoint wrap_outer (j n : nat) (t : Z) (st : bytes * bytes) : bytes * bytes :=
  match j with
  | O => st
  | S j' => wrap_outer j' n (t + Z.of_nat n) (wrap_inner n t 0 st)
  end.

(** [None] is the return value 0, [Some out] the return of [inlen + 8]
    with [out] written. *)
Definition CRYPTO_128_wrap (iv : option bytes) (inp : bytes) : option bytes :=
  let inlen := Z.of_nat (length inp) in
  if negb (Z.land inlen 0x7 =? 0) || (inlen <? 16) || (CRYPTO128_WRAP_MAX <? inlen) then None
  else
    let '(A, R) := wrap_outer 6 (length inp / 8) 1 (default default_iv iv, inp) in
    Some (A ++ R).

(** ** Unwrapping; [block] is the decryption function *)
Definition unwrap_step (t : Z) (ofs : nat) (st : bytes * bytes) : bytes * bytes :=
  let '(A, R) := st in
  let B := block (wrap_xor_t A t ++ take 8 (drop ofs R)) key in
  (take 8 B, memcpy R ofs (drop 8 B)).

(** [for (i = 0; i < inlen; i += 8, t--, R -= 8)] *)
Fixpoint unwrap_inner (k : nat) (t : Z) (ofs : nat) (st : bytes * bytes) : bytes * bytes :=
  match k with
  | O => st
  | S k' => unwrap_inner k' (t - 1) (ofs - 8) (unwrap_step t ofs st)
  end.

(** [for (j = 0; j < 6; j++) { R = out + inlen - 8; ... }] *)
Fixpoint unwrap_outer (j n : nat) (t : Z) (st : bytes * bytes) : bytes * bytes :=
  match j with
  | O => st
  | S j' => unwrap_outer j' n (t - Z.of_nat n) (unwrap_inner n t (8 * n - 8) st)
  end.

(** The recovered IV and plaintext. *)
Definition crypto_128_unwrap_raw (inp : bytes) : option (bytes * bytes) :=
  let inlen := u64 (Z.of_nat (length inp) - 8) in
  if negb (Z.land inlen 0x7 =? 0) || (inlen <? 16) || (CRYPTO128_WRAP_MAX <? inlen) then None
  else
    let n := ((length inp - 8) / 8)%nat in
    let t := 6 * Z.shiftr inlen 3 in
    Some (unwrap_outer 6 n t (take 8 inp, drop 8 inp)).

Definition CRYPTO_128_unwrap (iv : option bytes) (inp : bytes) : option bytes :=
  match crypto_128_unwrap_raw inp with
  | None => None
  | Some (got_iv, out) =>
      if decide (got_iv = default default_iv iv) then Some out else None
  end.

(** ** With padding *)

(** The alternative IV: the constant and the length on 32 bits. *)
Definition wrap_aiv (icv : option bytes) (inlen : Z) : bytes :=
  default default_aiv icv ++
  [Z.land (Z.shiftr inlen 24) 0xFF; Z.land (Z.shiftr inlen 16) 0xFF;
   Z.land (Z.shiftr inlen 8) 0xFF; Z.land inlen 0xFF].

(** The value returned (an [int] converted to [size_t]) and the output. *)
Definition CRYPTO_128_wrap_pad (icv : option bytes) (inp : bytes) : option (Z * bytes) :=
  let inlen := Z.of_nat (length inp) in
  let blocks_padded := ((length inp + 7) / 8)%nat in
  let padded_len := (blocks_padded * 8)%nat in
  let padding_len := (padded_len - length inp)%nat in
  if (inlen =? 0) || (CRYPTO128_WRAP_MAX <=? inlen) then None else
  let aiv := wrap_aiv icv inlen in
  let out := inp ++ replicate padding_len 0 in
  if (padded_len =? 8)%nat then Some (16, block (aiv ++ out) key)
  else
    match CRYPTO_128_wrap (Some aiv) out with
    | None => None
    | Some c => Some (u64 (i32 (Z.of_nat padded_len + 8)), c)
    end.

(** Unwrapping with padding; [None] is the return value 0. *)
Definition CRYPTO_128_unwrap_pad (icv : option bytes) (inp : bytes) : option bytes :=
  let inlen := Z.of_nat (length inp) in
  let n := u64 (inlen / 8 - 1) in
  if negb (Z.land inlen 0x7 =? 0) || (inlen <? 16) || (CRYPTO128_WRAP_MAX <=? inlen) then None
  else
    match (if inlen =? 16 then
             let buff := block inp key in Some (take 8 buff, drop 8 buff)
           else crypto_128_unwrap_raw inp) with
    | None => None
    | Some (aiv, out) =>
        let padded_len := if inlen =? 16 then 8 else inlen - 8 in
        if negb (bool_decide (take 4 aiv = default default_aiv icv)) then None else
        let ptext_len :=
          Z.lor (Z.lor (Z.lor (Z.shiftl (aiv !!! 4%nat) 24) (Z.shiftl (aiv !!! 5%nat) 16))
                       (Z.shiftl (aiv !!! 6%nat) 8)) (aiv !!! 7%nat) in
        if (ptext_len <=? 8 * (n - 1)) || (8 * n <? ptext_len) then None else
        let padding_len := Z.to_nat (padded_len - ptext_len) in
        if bool_decide (take padding_len (drop (Z.to_nat ptext_len) out) = replicate padding_len 0)
        then Some (take (Z.to_nat ptext_len) out)
        else None
    end.
End wrap128.

(** ** Facts: every step is invertible *)
Lemma length_8 (A : bytes) :
  length A = 8%nat → ∃ a0 a1 a2 a3 a4 a5 a6 a7, A = [a0; a1; a2; a3; a4; a5; a6; a7].
Proof.
  destruct A as [|a0 [|a1 [|a2 [|a3 [|a4 [|a5 [|a6 [|a7 [|]]]]]]]]]; try done. eauto 10.
Qed.

Lemma length_wrap_xor_t A t : length (wrap_xor_t A t) = length A.
Proof. unfold wrap_xor_t. destruct (0xff <? t); len. Qed.
#[export] Hint Rewrite length_wrap_xor_t : len.

Lemma are_bytes_wrap_xor_t A t : are_bytes A → are_bytes (wrap_xor_t A t).
Proof. intros. unfold wrap_xor_t. destruct (0xff <? t); auto 20 with bytes. Qed.
#[export] Hint Resolve are_bytes_wrap_xor_t : bytes.

Lemma wrap_xor_t_involutive A t : length A = 8%nat → wrap_xor_t (wrap_xor_t A t) t = A.
Proof.
  intros (a0 & a1 & a2 & a3 & a4 & a5 & a6 & a7 & ->)%length_8. unfold wrap_xor_t.
  destruct (0xff <? t); cbn [lookup_total list_lookup_total insert list_insert];
    by rewrite !lxor_cancel_r.
Qed.

(** The registers the loops work on: [A] and the data area of [n] blocks. *)
Definition wrap_ok (n : nat) (st : bytes * bytes) : Prop :=
  length st.1 = 8%nat ∧ are_bytes st.1 ∧ length st.2 = (8 * n)%nat ∧ are_bytes st.2.

Section wrap_steps.
Context {K1 K2 : Type} (enc : block128_f K1) (ek : K1) (dec : block128_f K2) (dk : K2).
Context `{!Block128 enc ek, !Block128 dec dk}.

Lemma wrap_input_ok n ofs A R :
  wrap_ok n (A, R) → (ofs + 8 <= 8 * n)%nat → iv_ok (A ++ take 8 (drop ofs R)).
Proof.
  intros (HA & HAb & HR & HRb) Hofs. simpl in *. split; [len|].
  apply are_bytes_app. auto with bytes.
Qed.

Lemma wrap_step_ok n t ofs st :
  wrap_ok n st → (ofs + 8 <= 8 * n)%nat → wrap_ok n (wrap_step enc ek t ofs st).
Proof.
  destruct st as [A R]. intros Hok Hofs.
  destruct (iv_ok_block enc ek _ (wrap_input_ok n ofs A R Hok Hofs)) as [HB HBb].
  destruct Hok as (HA & HAb & HR & HRb). simpl in *.
  split_and!; simpl; [len|auto with bytes| |auto with bytes].
  rewrite length_memcpy; [done|len].
Qed.

Lemma unwrap_step_ok n t ofs st :
  wrap_ok n st → (ofs + 8 <= 8 * n)%nat → wrap_ok n (unwrap_step dec dk t ofs st).
Proof.
  destruct st as [A R]. intros Hok Hofs.
  assert (Hok' : wrap_ok n (wrap_xor_t A t, R)).
  { destruct Hok as (HA & HAb & HR & HRb). simpl in *. split_and!; simpl; auto with bytes. len. }
  destruct (iv_ok_block dec dk _ (wrap_input_ok n ofs _ R Hok' Hofs)) as [HB HBb].
  destruct Hok as (HA & HAb & HR & HRb). simpl in *.
  split_and!; simpl; [len|auto with bytes| |auto with bytes].
  rewrite length_memcpy; [done|len].
Qed.

Lemma take_drop_block (A B : bytes) : length A = 8%nat → take 8 (A ++ B) = A ∧ drop 8 (A ++ B) = B.
Proof. intros HA. by rewrite take_app_length', drop_app_length'. Qed.

Lemma memcpy_restore n ofs (R B : bytes) :
  length R = (8 * n)%nat → (ofs + 8 <= 8 * n)%nat → length B = 8%nat →
  memcpy (memcpy R ofs B) ofs (take 8 (drop ofs R)) = R.
Proof.
  intros HR Hofs HB. unfold memcpy. rewrite take_app_length' by len.
  rewrite length_take, length_drop, Nat.min_l by lia.
  rewrite (app_assoc (take ofs R) B), drop_app_length' by len.
  rewrite HB, <- drop_drop. by rewrite !take_drop.
Qed.

Lemma unwrap_wrap_step `{!BlockInverse enc ek dec dk} n t ofs st :
  wrap_ok n st → (ofs + 8 <= 8 * n)%nat →
  unwrap_step dec dk t ofs (wrap_step enc ek t ofs st) = st.
Proof.
  destruct st as [A R]. intros Hok Hofs.
  pose proof (wrap_input_ok n ofs A R Hok Hofs) as [Hil Hib].
  destruct (iv_ok_block enc ek _ (conj Hil Hib)) as [HB HBb].
  destruct Hok as (HA & HAb & HR & HRb). simpl in *.
  set (B := enc (A ++ take 8 (drop ofs R)) ek) in *.
  rewrite wrap_xor_t_involutive by len.
  assert (take 8 (drop ofs (memcpy R ofs (drop 8 B))) = drop 8 B) as ->.
  { replace 8%nat with (length (drop 8 B)) at 1 by len. apply memcpy_read. len. }
  rewrite take_drop.
  assert (dec B dk = A ++ take 8 (drop ofs R)) as ->
    by exact (block_inverse _ Hil Hib).
  destruct (take_drop_block A (take 8 (drop ofs R)) HA) as [-> ->].
  by rewrite (memcpy_restore n) by len.
Qed.

Lemma wrap_unwrap_step `{!BlockInverse dec dk enc ek} n t ofs st :
  wrap_ok n st → (ofs + 8 <= 8 * n)%nat →
  wrap_step enc ek t ofs (unwrap_step dec dk t ofs st) = st.
Proof.
  destruct st as [A R]. intros Hok Hofs.
  destruct Hok as (HA & HAb & HR & HRb). simpl in HA, HAb, HR, HRb.
  assert (Hok' : wrap_ok n (wrap_xor_t A t, R)).
  { split_and!; simpl; auto with bytes. len. }
  pose proof (wrap_input_ok n ofs _ R Hok' Hofs) as [Hil Hib].
  destruct (iv_ok_block dec dk _ (conj Hil Hib)) as [HB HBb]. cbn [wrap_step unwrap_step].
  set (B := dec (wrap_xor_t A t ++ take 8 (drop ofs R)) dk) in *.
  assert (take 8 (drop ofs (memcpy R ofs (drop 8 B))) = drop 8 B) as ->.
  { replace 8%nat with (length (drop 8 B)) at 1 by len. apply memcpy_read. len. }
  rewrite take_drop.
  assert (enc B ek = wrap_xor_t A t ++ take 8 (drop ofs R)) as ->
    by exact (block_inverse _ Hil Hib).
  destruct (take_drop_block (wrap_xor_t A t) (take 8 (drop ofs R)) ltac:(len)) as [-> ->].
  rewrite wrap_xor_t_involutive by done. by rewrite (memcpy_restore n) by len.
Qed.

(** The loops, seen from their last turn. *)
Lemma wrap_inner_snoc k t ofs st :
  wrap_inner enc ek (S k) t ofs st =
    wrap_step enc ek (t + Z.of_nat k) (ofs + 8 * k) (wrap_inner enc ek k t ofs st).
Proof.
  revert t ofs st. induction k as [|k IH]; intros t ofs st.
  - cbn [wrap_inner]. f_equal; lia.
  - cbn [wrap_inner] in *. rewrite IH. f_equal; lia.
Qed.
Lemma unwrap_inner_snoc k t ofs st :
  unwrap_inner dec dk (S k) t ofs st =
    unwrap_step dec dk (t - Z.of_nat k) (ofs - 8 * k) (unwrap_inner dec dk k t ofs st).
Proof.
  revert t ofs st. induction k as [|k IH]; intros t ofs st.
  - cbn [unwrap_inner]. f_equal; lia.
  - cbn [unwrap_inner] in *. rewrite IH. f_equal; lia.
Qed.
Lemma wrap_outer_snoc j n t st :
  wrap_outer enc ek (S j) n t st =
    wrap_inner enc ek n (t + Z.of_nat (j * n)) 0 (wrap_outer enc ek j n t st).
Proof.
  revert t st. induction j as [|j IH]; intros t st.
  - cbn [wrap_outer]. f_equal; lia.
  - cbn [wrap_outer] in *. rewrite IH. f_equal. lia.
Qed.
Lemma unwrap_outer_snoc j n t st :
  unwrap_outer dec dk (S j) n t st =
    unwrap_inner dec dk n (t - Z.of_nat (j * n)) (8 * n - 8) (unwrap_outer dec dk j n t st).
Proof.
  revert t st. induction j as [|j IH]; intros t st.
  - cbn [unwrap_outer]. f_equal; lia.
  - cbn [unwrap_outer] in *. rewrite IH. f_equal. lia.
Qed.

Lemma wrap_inner_ok n k t ofs st :
  wrap_ok n st → (ofs + 8 * k <= 8 * n)%nat → wrap_ok n (wrap_inner enc ek k t ofs st).
Proof.
  revert t ofs st. induction k as [|k IH]; intros t ofs st Hok Hofs; [done|].
  cbn [wrap_inner]. apply IH; [apply wrap_step_ok|]; lia || done.
Qed.
Lemma unwrap_inner_ok n k t ofs st :
  wrap_ok n st → (ofs + 8 <= 8 * n)%nat → wrap_ok n (unwrap_inner dec dk k t ofs st).
Proof.
  revert t ofs st. induction k as [|k IH]; intros t ofs st Hok Hofs; [done|].
  cbn [unwrap_inner]. apply IH; [apply unwrap_step_ok|]; lia || done.
Qed.
Lemma wrap_outer_ok n j t st : wrap_ok n st → wrap_ok n (wrap_outer enc ek j n t st).
Proof.
  revert t st. induction j as [|j IH]; intros t st Hok; [done|].
  cbn [wrap_outer]. apply IH, wrap_inner_ok; done || lia.
Qed.
Lemma unwrap_outer_ok n j t st :
  (1 <= n)%nat → wrap_ok n st → wrap_ok n (unwrap_outer dec dk j n t st).
Proof.
  intros Hn. revert t st. induction j as [|j IH]; intros t st Hok; [done|].
  cbn [unwrap_outer]. apply IH, unwrap_inner_ok; done || lia.
Qed.

Lemma unwrap_wrap_inner `{!BlockInverse enc ek dec dk} n k t ofs st :
  wrap_ok n st → (ofs + 8 * k <= 8 * n)%nat →
  unwrap_inner dec dk k (t + Z.of_nat k - 1) (ofs + 8 * k - 8) (wrap_inner enc ek k t ofs st) = st.
Proof.
  induction k as [|k IH]; intros Hok Hofs; [done|].
  rewrite wrap_inner_snoc. cbn [unwrap_inner].
  replace (t + Z.of_nat (S k) - 1) with (t + Z.of_nat k) by lia.
  replace (ofs + 8 * S k - 8)%nat with (ofs + 8 * k)%nat by lia.
  rewrite (unwrap_wrap_step n) by (lia || (apply wrap_inner_ok; [done|lia])).
  apply IH; [done|lia].
Qed.

Lemma unwrap_wrap_outer `{!BlockInverse enc ek dec dk} n j t st :
  wrap_ok n st →
  unwrap_outer dec dk j n (t + Z.of_nat (j * n) - 1) (wrap_outer enc ek j n t st) = st.
Proof.
  induction j as [|j IH]; intros Hok; [done|].
  rewrite wrap_outer_snoc. cbn [unwrap_outer].
  replace (t + Z.of_nat (S j * n) - 1) with (t + Z.of_nat (j * n) + Z.of_nat n - 1) by lia.
  rewrite (unwrap_wrap_inner n n _ 0) by (lia || by apply wrap_outer_ok).
  replace (t + Z.of_nat (j * n) + Z.of_nat n - 1 - Z.of_nat n)
    with (t + Z.of_nat (j * n) - 1) by lia.
  by apply IH.
Qed.

Lemma wrap_unwrap_inner `{!BlockInverse dec dk enc ek} n k t st :
  wrap_ok n st → (k <= n)%nat →
  wrap_inner enc ek k (t - Z.of_nat k + 1) (8 * (n - k)) (unwrap_inner dec dk k t (8 * n - 8) st) = st.
Proof.
  revert t. induction k as [|k IH]; intros t Hok Hk; [done|].
  rewrite unwrap_inner_snoc. cbn [wrap_inner].
  replace (t - Z.of_nat (S k) + 1) with (t - Z.of_nat k) by lia.
  replace (8 * n - 8 - 8 * k)%nat with (8 * (n - S k))%nat by lia.
  rewrite (wrap_unwrap_step n) by (lia || (apply unwrap_inner_ok; [done|lia])).
  replace (8 * (n - S k) + 8)%nat with (8 * (n - k))%nat by lia.
  apply IH; [done|lia].
Qed.

Lemma wrap_unwrap_outer `{!BlockInverse dec dk enc ek} n j t st :
  (1 <= n)%nat → wrap_ok n st →
  wrap_outer enc ek j n (t - Z.of_nat (j * n) + 1) (unwrap_outer dec dk j n t st) = st.
Proof.
  intros Hn. induction j as [|j IH]; intros Hok; [done|].
  rewrite unwrap_outer_snoc. cbn [wrap_outer].
  pose proof (wrap_unwrap_inner n n (t - Z.of_nat (j * n))
    (unwrap_outer dec dk j n t st) ltac:(by apply unwrap_outer_ok) ltac:(lia)) as H.
  rewrite Nat.sub_diag, Nat.mul_0_r in H.
  replace (t - Z.of_nat (S j * n) + 1) with (t - Z.of_nat (j * n) - Z.of_nat n + 1) by lia.
  rewrite H. replace (t - Z.of_nat (j * n) - Z.of_nat n + 1 + Z.of_nat n)
    with (t - Z.of_nat (j * n) + 1) by lia.
  by apply IH.
Qed.
End wrap_steps.

(** The loops depend on the block function at whole blocks only. *)
Section wrap_ext.
Context {K1 K2 : Type} (f : block128_f K1) (fk : K1) (g : block128_f K2) (gk : K2).
Context `{!Block128 g gk} (Hfg : ∀ b, iv_ok b → f b fk = g b gk).

Lemma wrap_outer_ext n j t st :
  wrap_ok n st → wrap_outer f fk j n t st = wrap_outer g gk j n t st.
Proof using All.
  assert (Hi : ∀ k t ofs st, wrap_ok n st → (ofs + 8 * k <= 8 * n)%nat →
    wrap_inner f fk k t ofs st = wrap_inner g gk k t ofs st).
  { induction k as [|k IH]; intros t' ofs [A R] Hok Hofs; [done|]. cbn [wrap_inner].
    assert (wrap_step f fk t' ofs (A, R) = wrap_step g gk t' ofs (A, R)) as ->.
    { simpl. by rewrite Hfg by (apply (wrap_input_ok n); [done|lia]). }
    apply IH; [apply wrap_step_ok; [done|done|lia]|lia]. }
  revert t st. induction j as [|j IH]; intros t st Hok; [done|]. cbn [wrap_outer].
  rewrite Hi by (done || lia). apply IH, wrap_inner_ok; done || lia.
Qed.

Lemma unwrap_outer_ext n j t st :
  (1 <= n)%nat → wrap_ok n st → unwrap_outer f fk j n t st = unwrap_outer g gk j n t st.
Proof using All.
  intros Hn. assert (Hi : ∀ k t ofs st, wrap_ok n st → (ofs + 8 <= 8 * n)%nat →
    unwrap_inner f fk k t ofs st = unwrap_inner g gk k t ofs st).
  { induction k as [|k IH]; intros t' ofs [A R] Hok Hofs; [done|]. cbn [unwrap_inner].
    assert (unwrap_step f fk t' ofs (A, R) = unwrap_step g gk t' ofs (A, R)) as ->.
    { simpl. rewrite Hfg; [done|]. apply (wrap_input_ok n); [|lia].
      destruct Hok as (? & ? & ? & ?). simpl in *. split_and!; simpl; auto with bytes. len. }
    apply IH; [apply unwrap_step_ok; [done|done|lia]|lia]. }
  revert t st. induction j as [|j IH]; intros t st Hok; [done|]. cbn [unwrap_outer].
  rewrite Hi by (done || lia). apply IH, unwrap_inner_ok; done || lia.
Qed.
End wrap_ext.

(** The guard of the entry points, as a condition on the number of blocks. *)
Definition wrap_len (n : nat) : Prop := (2 <= n)%nat ∧ Z.of_nat (8 * n) <= 2 ^ 31.

Lemma wrap_guard (len : Z) :
  0 <= len →
  negb (Z.land len 0x7 =? 0) || (len <? 16) || (CRYPTO128_WRAP_MAX <? len) = false ↔
  wrap_len (Z.to_nat (len / 8)) ∧ len = 8 * (len / 8).
Proof.
  intros Hlen. change 0x7 with (Z.ones 3). rewrite Z.land_ones by lia.
  change CRYPTO128_WRAP_MAX with 2147483648. unfold wrap_len.
  change (2 ^ 31) with 2147483648. change (2 ^ 3) with 8.
  rewrite !orb_false_iff, negb_false_iff, Z.eqb_eq, !Z.ltb_ge.
  pose proof (Z.div_mod len 8). pose proof (Z.mod_pos_bound len 8). lia.
Qed.

Section wrap_theory.
Context {K1 K2 : Type} (enc : block128_f K1) (ek : K1) (dec : block128_f K2) (dk : K2).

Lemma wrap_some iv inp c :
  CRYPTO_128_wrap enc ek iv inp = Some c ↔
  ∃ n, wrap_len n ∧ length inp = (8 * n)%nat ∧
    let st := wrap_outer enc ek 6 n 1 (default default_iv iv, inp) in c = st.1 ++ st.2.
Proof.
  unfold CRYPTO_128_wrap. pose proof (wrap_guard (Z.of_nat (length inp)) ltac:(lia)) as Hg.
  assert (Hdiv : Z.to_nat (Z.of_nat (length inp) / 8) = (length inp / 8)%nat)
    by (rewrite <- (Nat2Z.inj_div _ 8); lia).
  rewrite Hdiv in Hg. destruct (negb _ || _ || _).
  - split; [done|]. intros (n & Hn & Hl & _). rewrite Hl, Nat.mul_comm, Nat.div_mul in Hg by done.
    assert (true = false); [|done]. apply Hg. split; [done|].
    replace (Z.of_nat (n * 8)) with (Z.of_nat n * 8) by lia. by rewrite Z.div_mul; lia.
  - destruct Hg as [Hg _]. destruct (Hg eq_refl) as [Hn Hl].
    assert (Hl' : length inp = (8 * (length inp / 8))%nat) by lia.
    split.
    + intros Hc. exists (length inp / 8)%nat. split; [exact Hn|]. split; [done|].
      destruct (wrap_outer _ _ _ _ _ _). by simplify_eq/=.
    + intros (n & _ & Hln & ->). rewrite Hln, Nat.mul_comm, Nat.div_mul by done.
      by destruct (wrap_outer _ _ _ _ _ _).
Qed.

Lemma unwrap_raw_some c st :
  Z.of_nat (length c) < 2 ^ 64 →
  crypto_128_unwrap_raw dec dk c = Some st ↔
  ∃ n, wrap_len n ∧ length c = (8 * n + 8)%nat ∧
    st = unwrap_outer dec dk 6 n (6 * Z.of_nat n) (take 8 c, drop 8 c).
Proof.
  intros Hc. unfold crypto_128_unwrap_raw.
  assert (Hu : (8 <= length c)%nat → u64 (Z.of_nat (length c) - 8) = Z.of_nat (length c) - 8)
    by (intros; apply u64_small; lia).
  pose proof (wrap_guard (u64 (Z.of_nat (length c) - 8)) ltac:(apply u64_range)) as Hg.
  destruct (negb _ || _ || _).
  - split; [done|]. intros (n & Hn & Hl & _). rewrite Hu, Hl in Hg by lia.
    assert (true = false); [|done]. apply Hg.
    replace (Z.of_nat (8 * n + 8) - 8) with (Z.of_nat n * 8) by lia.
    rewrite Z.div_mul, Nat2Z.id by done. split; [done|lia].
  - destruct Hg as [Hg _]. destruct (Hg eq_refl) as [Hn Hl]. clear Hg.
    assert (Hge : (8 <= length c)%nat).
    { destruct (decide (8 <= length c)%nat); [done|]. exfalso. revert Hn. unfold u64.
      rewrite <- (Z.mod_add _ 1) by lia. rewrite Z.mod_small by lia. unfold wrap_len.
      assert (2 ^ 40 <= (Z.of_nat (length c) - 8 + 1 * 2 ^ 64) / 8); [|lia].
      apply Z.div_le_lower_bound; lia. }
    rewrite Hu in * by done. rewrite Z.shiftr_div_pow2 by lia. change (2 ^ 3) with 8.
    set (q := (Z.of_nat (length c) - 8) / 8) in *.
    assert (Hq : ((length c - 8) / 8)%nat = Z.to_nat q).
    { unfold q. replace (Z.of_nat (length c) - 8) with (Z.of_nat (length c - 8)) by lia.
      rewrite <- (Nat2Z.inj_div _ 8). lia. }
    rewrite Hq. unfold wrap_len in Hn.
    assert (Hqn : q = Z.of_nat (Z.to_nat q)) by lia.
    split.
    + intros <-%(inj Some). exists (Z.to_nat q). split; [exact Hn|]. split; [lia|]. by rewrite <- Hqn.
    + intros (n & _ & Hln & ->). assert (Z.to_nat q = n) as -> by lia.
      f_equal. f_equal. lia.
Qed.

Context `{!Block128 enc ek, !Block128 dec dk}.

Lemma wrap_init_ok n (A R : bytes) :
  length A = 8%nat → are_bytes A → length R = (8 * n)%nat → are_bytes R → wrap_ok n (A, R).
Proof. done. Qed.

(** What wrapping produces, unwrapping recovers with the IV. *)
Lemma unwrap_raw_wrap `{!BlockInverse enc ek dec dk} iv inp c :
  length (default default_iv iv) = 8%nat → are_bytes (default default_iv iv) → are_bytes inp →
  CRYPTO_128_wrap enc ek iv inp = Some c →
  crypto_128_unwrap_raw dec dk c = Some (default default_iv iv, inp).
Proof.
  intros Hiv Hivb Hb (n & Hn & Hl & ->)%wrap_some.
  pose proof (wrap_init_ok n _ _ Hiv Hivb Hl Hb) as Hok.
  pose proof (wrap_outer_ok enc ek n 6 1 _ Hok) as (HA & _ & HR & _).
  set (st := wrap_outer _ _ _ _ _ _) in *. unfold wrap_len in Hn.
  apply unwrap_raw_some; [len|]. exists n. split; [exact Hn|]. split; [len|].
  rewrite take_app_length', drop_app_length' by done. rewrite <- surjective_pairing. unfold st.
  by rewrite <- (unwrap_wrap_outer enc ek dec dk n 6 1 _ Hok) at 1;
    replace (6 * Z.of_nat n) with (1 + Z.of_nat (6 * n) - 1) by lia.
Qed.

(** The converse: what unwraps is a wrapping of what is recovered. *)
Lemma wrap_unwrap_raw `{!BlockInverse dec dk enc ek} c iv out :
  Z.of_nat (length c) < 2 ^ 64 → are_bytes c →
  crypto_128_unwrap_raw dec dk c = Some (iv, out) →
  CRYPTO_128_wrap enc ek (Some iv) out = Some c ∧ length iv = 8%nat ∧
  are_bytes iv ∧ are_bytes out.
Proof.
  intros Hc Hb (n & Hn & Hl & Hst)%unwrap_raw_some; [|done].
  assert (Hok : wrap_ok n (take 8 c, drop 8 c)).
  { apply wrap_init_ok; auto with bytes; len. }
  pose proof (unwrap_outer_ok dec dk n 6 (6 * Z.of_nat n) _ ltac:(destruct Hn; lia) Hok) as Hok'.
  rewrite <- Hst in Hok'. destruct Hok' as (HA & HAb & HR & HRb).
  split_and!; [|done..]. apply wrap_some. exists n. split; [exact Hn|]. split; [done|]. cbn [default].
  unfold id. rewrite Hst.
  pose proof (wrap_unwrap_outer enc ek dec dk n 6 (6 * Z.of_nat n) _ ltac:(destruct Hn; lia) Hok) as Hw.
  replace (6 * Z.of_nat n - Z.of_nat (6 * n) + 1) with 1 in Hw by lia.
  rewrite Hw. simpl. by rewrite take_drop.
Qed.
End wrap_theory.

(** ** Padding *)
Lemma CRYPTO_128_wrap_total {K} (block : block128_f K) key iv inp n :
  wrap_len n → length inp = (8 * n)%nat → ∃ c, CRYPTO_128_wrap block key iv inp = Some c.
Proof. intros. eexists. apply wrap_some. eauto. Qed.

Lemma take_replicate_ge n m (x : Z) : (n <= m)%nat → take n (replicate m x) = replicate n x.
Proof. intros. rewrite take_replicate. f_equal. lia. Qed.

(** The number of padding bytes and of blocks. *)
Definition pad_len (n : nat) : nat := ((n + 7) / 8 * 8)%nat.
Lemma pad_len_bounds n :
  (n <= pad_len n < n + 8)%nat ∧ pad_len n = (8 * ((n + 7) / 8))%nat.
Proof.
  unfold pad_len. pose proof (Nat.div_mod_eq (n + 7) 8).
  pose proof (Nat.mod_upper_bound (n + 7) 8). lia.
Qed.

Section wrap_pad_theory.
Context {K1 K2 : Type} (enc : block128_f K1) (ek : K1) (dec : block128_f K2) (dk : K2).
Context `{!Block128 enc ek, !Block128 dec dk, !BlockInverse enc ek dec dk}.
Context (icv : option bytes) (Hicv : length (default default_aiv icv) = 4%nat)
  (Hicvb : are_bytes (default default_aiv icv)).

Lemma wrap_aiv_eq z : wrap_aiv icv z = default default_aiv icv ++ be_bytes 4 z.
Proof using Type. unfold wrap_aiv. by rewrite be32_bytes. Qed.

Lemma wrap_aiv_ok z : length (wrap_aiv icv z) = 8%nat ∧ are_bytes (wrap_aiv icv z).
Proof using Hicv Hicvb.
  rewrite wrap_aiv_eq, are_bytes_app. split; [len|]. split; [done|auto with bytes].
Qed.

(** Reading back the fields of the alternative IV. *)
Lemma wrap_aiv_fields z :
  0 <= z < 2 ^ 32 → let aiv := wrap_aiv icv z in
  take 4 aiv = default default_aiv icv ∧
  Z.lor (Z.lor (Z.lor (Z.shiftl (aiv !!! 4%nat) 24) (Z.shiftl (aiv !!! 5%nat) 16))
    (Z.shiftl (aiv !!! 6%nat) 8)) (aiv !!! 7%nat) = z.
Proof using Hicv Hicvb.
  intros Hz aiv. destruct (wrap_aiv_ok z) as [Hl Hb]. split.
  - unfold aiv. rewrite wrap_aiv_eq. by rewrite take_app_length'.
  - rewrite be32_lor by auto with bytes.
    assert (aiv = take 4 aiv ++ [aiv !!! 4%nat; aiv !!! 5%nat; aiv !!! 6%nat; aiv !!! 7%nat]) as Ha.
    { destruct (length_8 aiv Hl) as (? & ? & ? & ? & ? & ? & ? & ? & ->). done. }
    rewrite <- (take_drop 4 aiv) in Ha at 1. apply app_inv_head in Ha.
    unfold aiv at 1 in Ha. rewrite wrap_aiv_eq, drop_app_length' in Ha by done.
    rewrite <- Ha, be_val_bytes. by apply Z.mod_small.
Qed.

(** The final checks of the unwrapping accept a padded text and strip the padding. *)
Definition unwrap_pad_finish (n padded_len : Z) (aiv out : bytes) : option bytes :=
  if negb (bool_decide (take 4 aiv = default default_aiv icv)) then None else
  let ptext_len :=
    Z.lor (Z.lor (Z.lor (Z.shiftl (aiv !!! 4%nat) 24) (Z.shiftl (aiv !!! 5%nat) 16))
                 (Z.shiftl (aiv !!! 6%nat) 8)) (aiv !!! 7%nat) in
  if (ptext_len <=? 8 * (n - 1)) || (8 * n <? ptext_len) then None else
  let padding_len := Z.to_nat (padded_len - ptext_len) in
  if bool_decide (take padding_len (drop (Z.to_nat ptext_len) out) = replicate padding_len 0)
  then Some (take (Z.to_nat ptext_len) out)
  else None.

Lemma unwrap_pad_finish_ok inp n :
  Z.of_nat (length inp) < 2 ^ 32 → (0 < length inp)%nat → pad_len (length inp) = (8 * n)%nat →
  unwrap_pad_finish (Z.of_nat n) (Z.of_nat (8 * n)) (wrap_aiv icv (Z.of_nat (length inp)))
    (inp ++ replicate (pad_len (length inp) - length inp) 0) = Some inp.
Proof using Hicv Hicvb.
  intros Hl Hpos Hn. pose proof (pad_len_bounds (length inp)) as Hpad.
  destruct (wrap_aiv_fields (Z.of_nat (length inp)) ltac:(lia)) as [Hf1 Hf2].
  unfold unwrap_pad_finish. rewrite Hf2, Hf1, bool_decide_true, Nat2Z.id by done. cbn [negb].
  destruct (_ || _) eqn:Hg; [lia|].
  rewrite drop_app_length, take_app_length.
  rewrite Hn, bool_decide_true; [done|]. rewrite take_replicate_ge by lia. f_equal; lia.
Qed.

Lemma unwrap_pad_eq c :
  length c = 16%nat ∨ (24 <= length c)%nat →
  (length c = 8 * (length c / 8))%nat → Z.of_nat (length c) < 2 ^ 31 →
  CRYPTO_128_unwrap_pad dec dk icv c =
    match (if (length c =? 16)%nat then
             let buff := dec c dk in Some (take 8 buff, drop 8 buff)
           else crypto_128_unwrap_raw dec dk c) with
    | None => None
    | Some (aiv, out) =>
        unwrap_pad_finish (Z.of_nat (length c / 8) - 1) (Z.of_nat (length c) - 8) aiv out
    end.
Proof using Type.
  clear Hicv Hicvb. intros Hc Hdiv Hlt. unfold CRYPTO_128_unwrap_pad.
  change 0x7 with (Z.ones 3). rewrite Z.land_ones by lia.
  assert (Z.of_nat (length c) mod 2 ^ 3 = 0 ∧
    Z.of_nat (length c) / 8 = Z.of_nat (length c / 8)) as [-> ->].
  { split; [|by rewrite Nat2Z.inj_div]. remember (length c / 8)%nat as q.
    rewrite Hdiv, Nat2Z.inj_mul, Z.mul_comm. by apply Z.mod_mul. }
  cbn [Z.eqb negb orb].
  change CRYPTO128_WRAP_MAX with (2 ^ 31).
  destruct (_ || _) eqn:Hg; [lia|].
  replace (Z.of_nat (length c) =? 16) with (length c =? 16)%nat by lia.
  rewrite u64_small by lia. unfold unwrap_pad_finish.
  destruct (Nat.eqb_spec (length c) 16) as [H16|]; [|done].
  by rewrite H16.
Qed.

Lemma wrap_pad_roundtrip inp :
  are_bytes inp → (0 < length inp)%nat → Z.of_nat (pad_len (length inp)) + 8 < 2 ^ 31 →
  ∃ c, CRYPTO_128_wrap_pad enc ek icv inp = Some (Z.of_nat (length c), c) ∧
    length c = (pad_len (length inp) + 8)%nat ∧
    CRYPTO_128_unwrap_pad dec dk icv c = Some inp.
Proof.
  intros Hb Hpos Hlt. pose proof (pad_len_bounds (length inp)) as [Hp Hpn].
  destruct (wrap_aiv_ok (Z.of_nat (length inp))) as [Ha Hab].
  set (n := ((length inp + 7) / 8)%nat) in *.
  assert (Hout : are_bytes (inp ++ replicate (pad_len (length inp) - length inp) 0)).
  { apply are_bytes_app. split; [done|]. apply are_bytes_replicate. by unfold is_byte. }
  pose proof (unwrap_pad_finish_ok inp n ltac:(lia) Hpos Hpn) as Hfin.
  unfold CRYPTO_128_wrap_pad. fold (pad_len (length inp)).
  change CRYPTO128_WRAP_MAX with (2 ^ 31). destruct (_ || _) eqn:Hg; [lia|]. clear Hg.
  destruct (Nat.eqb_spec (pad_len (length inp)) 8) as [H8|H8].
  - set (P := wrap_aiv _ _ ++ _ ++ _) in *.
    assert (HP : length P = 16%nat ∧ are_bytes P).
    { unfold P. rewrite !are_bytes_app. rewrite are_bytes_app in Hout. split; [len|tauto]. }
    destruct (iv_ok_block enc ek P HP) as [HB _].
    exists (enc P ek). rewrite HB. split_and!; [done|lia|].
    rewrite unwrap_pad_eq by (rewrite HB; auto with lia). rewrite HB. cbn [Nat.eqb].
    rewrite (block_inverse P) by apply HP. unfold P.
    rewrite take_app_length', drop_app_length' by done.
    replace (Z.of_nat (16 / 8) - 1) with (Z.of_nat n) by (change (16 / 8)%nat with 2%nat; lia).
    by replace (Z.of_nat 16 - 8) with (Z.of_nat (8 * n)) by lia.
  - destruct (CRYPTO_128_wrap_total enc ek (Some (wrap_aiv icv (Z.of_nat (length inp))))
      (inp ++ replicate (pad_len (length inp) - length inp) 0) n) as [c Hc].
    { split; lia. } { len. }
    rewrite Hc.
    pose proof (unwrap_raw_wrap enc ek dec dk (Some (wrap_aiv icv (Z.of_nat (length inp))))
      _ _ Ha Hab Hout Hc) as Hraw.
    apply wrap_some in Hc as (n' & Hn' & Hln & Hst).
    assert (n' = n) as -> by len.
    assert (Hlc : length c = (pad_len (length inp) + 8)%nat).
    { destruct (wrap_outer_ok enc ek n 6 1 (wrap_aiv icv (Z.of_nat (length inp)),
        inp ++ replicate (pad_len (length inp) - length inp) 0)) as (H1 & _ & H2 & _).
      { apply wrap_init_ok; done || len. }
      cbn [default] in Hst. unfold id in Hst. rewrite Hst. len. }
    exists c. split_and!; [|done|].
    { do 2 f_equal. unfold i32, u64. rewrite (Z.mod_small (_ + _)) by lia.
      rewrite Z.mod_small by lia. lia. }
    assert (Hdiv : (length c / 8 = n + 1)%nat).
    { rewrite Hlc, Hpn. replace (8 * n + 8)%nat with ((n + 1) * 8)%nat by lia. by apply Nat.div_mul. }
    rewrite unwrap_pad_eq by lia. rewrite (proj2 (Nat.eqb_neq _ _)) by lia. rewrite Hraw.
    cbn [default]. unfold id.
    replace (Z.of_nat (length c / 8) - 1) with (Z.of_nat n) by lia.
    by replace (Z.of_nat (length c) - 8) with (Z.of_nat (8 * n)) by lia.
Qed.

(** The [int ret] of the source is the length written exactly as long as
    it does not reach the sign bit. *)
Lemma wrap_pad_return inp r c :
  CRYPTO_128_wrap_pad enc ek icv inp = Some (r, c) →
  are_bytes inp → r = Z.of_nat (length c) ↔ Z.of_nat (length c) < 2 ^ 31.
Proof.
  intros Hc Hb. pose proof (pad_len_bounds (length inp)) as [Hp Hpn].
  destruct (wrap_aiv_ok (Z.of_nat (length inp))) as [Ha Hab].
  revert Hc. unfold CRYPTO_128_wrap_pad. fold (pad_len (length inp)).
  change CRYPTO128_WRAP_MAX with (2 ^ 31). destruct (_ || _) eqn:Hg; [done|].
  destruct (Nat.eqb_spec (pad_len (length inp)) 8) as [H8|H8].
  - intros [<- Hce]%(inj Some)%pair_equal_spec.
    destruct (iv_ok_block enc ek (wrap_aiv icv (Z.of_nat (length inp)) ++
      inp ++ replicate (pad_len (length inp) - length inp) 0)) as [HB _].
    { split; [len|]. rewrite !are_bytes_app. split_and!; [done..|].
      apply are_bytes_replicate. by unfold is_byte. }
    rewrite <- Hce. rewrite HB. lia.
  - destruct (CRYPTO_128_wrap _ _ _ _) as [c'|] eqn:Hw; [|done].
    intros [<- ->]%(inj Some)%pair_equal_spec.
    apply wrap_some in Hw as (n' & Hn' & Hln & Hst).
    assert (Hlc : length c = (pad_len (length inp) + 8)%nat).
    { destruct (wrap_outer_ok enc ek n' 6 1 (wrap_aiv icv (Z.of_nat (length inp)),
        inp ++ replicate (pad_len (length inp) - length inp) 0)) as (H1 & _ & H2 & _).
      { apply wrap_init_ok; [done..| |]; [len|]. apply are_bytes_app. split; [done|].
        apply are_bytes_replicate. by unfold is_byte. }
      cbn [default] in Hst. unfold id in Hst. rewrite Hst. len. }
    rewrite Hlc. replace (Z.of_nat (pad_len _ + 8)) with (Z.of_nat (pad_len (length inp)) + 8) by lia.
    set (m := Z.of_nat (pad_len (length inp)) + 8) in *.
    assert (Hm : 0 <= m < 2 ^ 32) by (unfold m; lia). unfold i32, u64.
    destruct (decide (m < 2 ^ 31)).
    + rewrite (Z.mod_small (_ + _)), Z.mod_small by lia. lia.
    + rewrite <- (Z.mod_add (m + _) (-1)), (Z.mod_small (m + _ + _)) by lia.
      rewrite <- (Z.mod_add _ 1), Z.mod_small by lia. lia.
Qed.
End wrap_pad_theory.
