(* ===== verification/HcMsg.v ===== *)
(** * HaiCrypt transport messages: haicrypt/hcrypt_msg.h, hcrypt_xpt_srt.c

    The SRT data header and the Keying Material message, the accessors of
    [hcrypt_msg.h] and the handler record of [hcrypt_xpt_srt.c].  A message is
    the byte array the C code gets a pointer to; the SRT data header holds
    32-bit words in host order, the host being little-endian. *)
From S2P Require Import Prelude Ctr128.

Definition HCRYPT_MSG_VERSION : Z := 1.
(** [(('H'-'@')<<10 | ('A'-'@')<<5 | ('I'-'@'))] *)
Definition HCRYPT_MSG_SIGN : Z :=
  Z.lor (Z.lor (Z.shiftl (72 - 64) 10) (Z.shiftl (65 - 64) 5)) (73 - 64).
Definition HCRYPT_PKI_SZ : nat := 4.
Definition HCRYPT_MSG_PT_MS : Z := 1.
Definition HCRYPT_MSG_PT_KM : Z := 2.
Definition HCRYPT_MSG_F_eSEK : Z := 1.
Definition HCRYPT_MSG_F_oSEK : Z := 2.
Definition HCRYPT_MSG_F_xSEK : Z := 3.

Definition HCRYPT_MSG_KM_OFS_VERSION : nat := 0.
Definition HCRYPT_MSG_KM_OFS_PT : nat := 0.
Definition HCRYPT_MSG_KM_OFS_SIGN : nat := 1.
Definition HCRYPT_MSG_KM_OFS_KFLGS : nat := 3.
Definition HCRYPT_MSG_KM_OFS_CIPHER : nat := 8.
Definition HCRYPT_MSG_KM_OFS_AUTH : nat := 9.
Definition HCRYPT_MSG_KM_OFS_SE : nat := 10.
Definition HCRYPT_MSG_KM_OFS_SLEN : nat := 14.
Definition HCRYPT_MSG_KM_OFS_KLEN : nat := 15.
Definition HCRYPT_MSG_KM_OFS_SALT : nat := 16.
Definition HCRYPT_CIPHER_AES_CTR : Z := 2.
Definition HCRYPT_AUTH_NONE : Z := 0.
Definition HCRYPT_SE_TSSRT : Z := 2.

(** haicrypt.h *)
Definition HAICRYPT_PWD_MAX_SZ : nat := 80.
Definition HAICRYPT_KEY_MAX_SZ : nat := 32.
Definition HAICRYPT_SECRET_MAX_SZ : nat := 80.
Definition HAICRYPT_SALT_SZ : nat := 16.
Definition HAICRYPT_WRAPKEY_SIGN_SZ : nat := 8.
Definition HAICRYPT_PBKDF2_SALT_LEN : nat := 8.
Definition HAICRYPT_PBKDF2_ITER_CNT : Z := 2048.
Definition HCRYPT_MSG_KM_MAX_SZ : nat :=
  0 + HCRYPT_MSG_KM_OFS_SALT + HAICRYPT_SALT_SZ + HAICRYPT_KEY_MAX_SZ * 2 + HAICRYPT_WRAPKEY_SIGN_SZ.

(** [((((len)+(fact)-1)/(fact))*(fact))] on [size_t] *)
Definition hcryptMsg_PaddedLen (len fact : Z) : Z := u64 (u64 (len + fact - 1) / fact * fact).

(** ** Keying Material message *)
Definition hcryptMsg_KM_GetVersion (msg : bytes) : Z :=
  Z.land (Z.shiftr (msg !!! HCRYPT_MSG_KM_OFS_VERSION) 4) 0xF.
Definition hcryptMsg_KM_GetPktType (msg : bytes) : Z := Z.land (msg !!! HCRYPT_MSG_KM_OFS_PT) 0xF.
Definition hcryptMsg_KM_GetSign (msg : bytes) : Z :=
  Z.lor (Z.shiftl (msg !!! HCRYPT_MSG_KM_OFS_SIGN) 8) (msg !!! S HCRYPT_MSG_KM_OFS_SIGN).
Definition hcryptMsg_KM_GetKeyIndex (msg : bytes) : Z :=
  Z.shiftr (Z.land (msg !!! HCRYPT_MSG_KM_OFS_KFLGS) HCRYPT_MSG_F_xSEK) 1.
Definition hcryptMsg_KM_HasBothSek (msg : bytes) : bool :=
  HCRYPT_MSG_F_xSEK =? Z.land (msg !!! HCRYPT_MSG_KM_OFS_KFLGS) HCRYPT_MSG_F_xSEK.
Definition hcryptMsg_KM_HasNoSek (msg : bytes) : bool :=
  0 =? Z.land (msg !!! HCRYPT_MSG_KM_OFS_KFLGS) HCRYPT_MSG_F_xSEK.
Definition hcryptMsg_KM_GetSE (msg : bytes) : Z := msg !!! HCRYPT_MSG_KM_OFS_SE.
Definition hcryptMsg_KM_GetSaltLen (msg : bytes) : nat :=
  Z.to_nat (msg !!! HCRYPT_MSG_KM_OFS_SLEN * 4).
Definition hcryptMsg_KM_GetSekLen (msg : bytes) : nat :=
  Z.to_nat (msg !!! HCRYPT_MSG_KM_OFS_KLEN * 4).
Definition hcryptMsg_KM_SetSaltLen (msg : bytes) (len : nat) : bytes :=
  <[HCRYPT_MSG_KM_OFS_SLEN := u8 (Z.of_nat (len / 4))]> msg.
Definition hcryptMsg_KM_SetSekLen (msg : bytes) (len : nat) : bytes :=
  <[HCRYPT_MSG_KM_OFS_KLEN := u8 (Z.of_nat (len / 4))]> msg.

(** ** The transport handler *)
Record hcrypt_MsgInfo := {
  hdr_len : nat;
  pfx_len : nat;
  getKeyFlags : bytes → Z;
  getPki : bytes → bool → Z;
  setPki : bytes → Z → bytes;
  resetCache : bytes → Z → Z → bytes;
  indexMsg : bytes → bytes → bytes;
  parseMsg : bytes → Z;
}.

Definition HCRYPT_MSG_SRT_HDR_SZ : nat := 16.
Definition HCRYPT_MSG_SRT_PFX_SZ : nat := 16.
Definition HCRYPT_MSG_SRT_OFS_PKI : nat := 0.
Definition HCRYPT_MSG_SRT_OFS_MSGNO : nat := 4.
Definition HCRYPT_MSG_SRT_SHF_KFLGS : Z := 27.

(** Byte order of the network, seen as a word of the little-endian host. *)
Definition htonl (x : Z) : Z := le_val (be_bytes 4 x).

Definition hcryptMsg_SRT_GetKeyFlags (msg : bytes) : Z :=
  let msgno := le_val (take 4 (drop HCRYPT_MSG_SRT_OFS_MSGNO msg)) in
  Z.land (Z.shiftr msgno HCRYPT_MSG_SRT_SHF_KFLGS) HCRYPT_MSG_F_xSEK.

Definition hcryptMsg_SRT_GetPki (msg : bytes) (nwkorder : bool) : Z :=
  let pki := le_val (take 4 (drop HCRYPT_MSG_SRT_OFS_PKI msg)) in
  if nwkorder then htonl pki else pki.

Definition hcryptMsg_SRT_SetPki (msg : bytes) (pki : Z) : bytes :=
  memcpy msg HCRYPT_MSG_SRT_OFS_PKI (le_bytes 4 pki).

Definition hcryptMsg_SRT_ResetCache (pfx_cache : bytes) (pkt_type kflgs : Z) : bytes :=
  if pkt_type =? HCRYPT_MSG_PT_MS then pfx_cache
  else if pkt_type =? HCRYPT_MSG_PT_KM then
    let pfx_cache := <[HCRYPT_MSG_KM_OFS_VERSION :=
                        u8 (Z.lor (Z.shiftl HCRYPT_MSG_VERSION 4) pkt_type)]> pfx_cache in
    let pfx_cache := <[HCRYPT_MSG_KM_OFS_SIGN :=
                        u8 (Z.land (Z.shiftr HCRYPT_MSG_SIGN 8) 0xFF)]> pfx_cache in
    let pfx_cache := <[S HCRYPT_MSG_KM_OFS_SIGN := u8 (Z.land HCRYPT_MSG_SIGN 0xFF)]> pfx_cache in
    <[HCRYPT_MSG_KM_OFS_KFLGS := u8 kflgs]> pfx_cache
  else pfx_cache.

(** Nothing to do: header and index are maintained by SRT. *)
Definition hcryptMsg_SRT_IndexMsg (msg pfx_cache : bytes) : bytes := msg.

Definition hcryptMsg_SRT_ParseMsg (msg : bytes) : Z :=
  let rc :=
    if (HCRYPT_MSG_VERSION =? hcryptMsg_KM_GetVersion msg) &&
       (HCRYPT_MSG_PT_KM =? hcryptMsg_KM_GetPktType msg) &&
       (HCRYPT_MSG_SIGN =? hcryptMsg_KM_GetSign msg)
    then HCRYPT_MSG_PT_KM else HCRYPT_MSG_PT_MS in
  if rc =? HCRYPT_MSG_PT_MS then
    let fl := Z.land (hcryptMsg_SRT_GetKeyFlags msg) HCRYPT_MSG_F_xSEK in
    if (0 =? fl) || (HCRYPT_MSG_F_xSEK =? fl) then -1 else rc
  else if rc =? HCRYPT_MSG_PT_KM then
    if negb (HCRYPT_SE_TSSRT =? hcryptMsg_KM_GetSE msg) then -1
    else if hcryptMsg_KM_HasNoSek msg then -1
    else rc
  else 0.

Definition hcryptMsg_SRT_MsgInfo : hcrypt_MsgInfo := {|
  hdr_len := HCRYPT_MSG_SRT_HDR_SZ;
  pfx_len := HCRYPT_MSG_SRT_PFX_SZ;
  getKeyFlags := hcryptMsg_SRT_GetKeyFlags;
  getPki := hcryptMsg_SRT_GetPki;
  setPki := hcryptMsg_SRT_SetPki;
  resetCache := hcryptMsg_SRT_ResetCache;
  indexMsg := hcryptMsg_SRT_IndexMsg;
  parseMsg := hcryptMsg_SRT_ParseMsg;
|}.

(** [hcryptMsg_GetKeyIndex(mi,msg)] *)
Definition hcryptMsg_GetKeyIndex (mi : hcrypt_MsgInfo) (msg : bytes) : Z :=
  Z.shiftr (getKeyFlags mi msg) 1.

(** ** Counter-mode IV: hcrypt.h *)

(** [hcrypt_XorStream(dst, strm, len)] *)
Fixpoint hcrypt_XorStream (dst strm : bytes) (len : nat) : bytes :=
  match len, dst, strm with
  | S len', d :: dst', s :: strm' => Z.lxor d s :: hcrypt_XorStream dst' strm' len'
  | _, _, _ => dst
  end.

(** [pki] is the memory of the index: its bytes in network order. *)
Definition hcrypt_SetCtrIV (pki nonce : bytes) : bytes :=
  let iv := replicate 16 0 in
  let iv := memcpy iv 10 (take HCRYPT_PKI_SZ pki) in
  hcrypt_XorStream iv nonce 14.

(** ** Facts *)
Lemma hcrypt_XorStream_spec dst strm len :
  (len <= length strm)%nat → (len <= length dst)%nat →
  hcrypt_XorStream dst strm len = xor_bytes (take len dst) strm ++ drop len dst.
Proof.
  revert dst strm. induction len as [|len IH]; intros [|d dst] [|s strm]; simpl; try done; try lia.
  intros. unfold xor_bytes in *. simpl. f_equal. apply IH; lia.
Qed.

Lemma length_XorStream dst strm len : length (hcrypt_XorStream dst strm len) = length dst.
Proof.
  revert dst strm. induction len as [|len IH]; intros [|d dst] [|s strm]; simpl; auto.
Qed.

Lemma are_bytes_XorStream dst strm len :
  are_bytes dst → are_bytes strm → are_bytes (hcrypt_XorStream dst strm len).
Proof.
  revert dst strm. induction len as [|len IH]; intros [|d dst] [|s strm]; simpl; auto.
  rewrite !are_bytes_cons. intros [??] [??]. split; auto with bytes.
Qed.
#[export] Hint Rewrite length_XorStream : len.
#[export] Hint Resolve are_bytes_XorStream : bytes.

Lemma SetCtrIV_ok pki nonce :
  (4 <= length pki)%nat → are_bytes pki → are_bytes nonce →
  length (hcrypt_SetCtrIV pki nonce) = 16%nat ∧ are_bytes (hcrypt_SetCtrIV pki nonce).
Proof.
  intros. unfold hcrypt_SetCtrIV, HCRYPT_PKI_SZ. rewrite length_XorStream, length_memcpy by len.
  split; [done|]. apply are_bytes_XorStream; [|done]. apply are_bytes_memcpy; [|auto with bytes].
  apply are_bytes_replicate. by unfold is_byte.
Qed.

(** The last two bytes of the IV, the block counter, start at zero. *)
Lemma SetCtrIV_counter pki nonce :
  length pki = 4%nat → length nonce = 16%nat → drop 14 (hcrypt_SetCtrIV pki nonce) = [0; 0].
Proof.
  intros. unfold hcrypt_SetCtrIV, HCRYPT_PKI_SZ.
  rewrite hcrypt_XorStream_spec by (rewrite ?length_memcpy; len).
  rewrite drop_app_length' by (rewrite length_xor_bytes, length_take, length_memcpy; len).
  unfold memcpy. rewrite (take_ge pki) by lia.
  destruct pki as [|? [|? [|? [|? [|]]]]]; done.
Qed.

Lemma htonl_bytes x : le_bytes 4 (htonl x) = be_bytes 4 x.
Proof. unfold htonl. exact (le_bytes_val (be_bytes 4 x) (are_bytes_be_bytes 4 x)). Qed.

Lemma key_flags_range msg : 0 <= hcryptMsg_SRT_GetKeyFlags msg < 4.
Proof.
  unfold hcryptMsg_SRT_GetKeyFlags. change HCRYPT_MSG_F_xSEK with (Z.ones 2).
  rewrite Z.land_ones by lia. apply Z.mod_pos_bound. lia.
Qed.

(** Setting the packet index leaves the key flags alone. *)
Lemma SetPki_GetPki msg pki :
  (4 <= length msg)%nat → 0 <= pki < 2 ^ 32 →
  hcryptMsg_SRT_GetPki (hcryptMsg_SRT_SetPki msg pki) false = pki ∧
  hcryptMsg_SRT_GetKeyFlags (hcryptMsg_SRT_SetPki msg pki) = hcryptMsg_SRT_GetKeyFlags msg.
Proof.
  intros Hl Hp. unfold hcryptMsg_SRT_GetPki, hcryptMsg_SRT_GetKeyFlags, hcryptMsg_SRT_SetPki.
  unfold HCRYPT_MSG_SRT_OFS_PKI, HCRYPT_MSG_SRT_OFS_MSGNO. rewrite drop_0.
  rewrite memcpy_read_app, le_val_bytes by len. split; [by apply Z.mod_small|].
  unfold memcpy. rewrite take_0, app_nil_l, drop_app_length' by len. done.
Qed.

(** The dispatcher returns an error, a media-stream or a keying-material
    type, never the unknown type 0 of its default case. *)
Lemma ParseMsg_cases msg :
  hcryptMsg_SRT_ParseMsg msg = -1 ∨ hcryptMsg_SRT_ParseMsg msg = HCRYPT_MSG_PT_MS ∨
  hcryptMsg_SRT_ParseMsg msg = HCRYPT_MSG_PT_KM.
Proof.
  unfold hcryptMsg_SRT_ParseMsg. destruct (_ && _); cbn -[Z.land Z.shiftr hcryptMsg_SRT_GetKeyFlags];
    repeat case_match; auto.
Qed.
