(* ===== verification/HcCtx.v ===== *)
(** * Crypto contexts: haicrypt/hcrypt_ctx.h

    One context per stream encrypting key: the even and the odd one. *)
From S2P Require Import Prelude HcMsg.

Definition HCRYPT_CTX_F_eSEK : Z := HCRYPT_MSG_F_eSEK.
Definition HCRYPT_CTX_F_oSEK : Z := HCRYPT_MSG_F_oSEK.
Definition HCRYPT_CTX_F_xSEK : Z := HCRYPT_MSG_F_xSEK.
Definition HCRYPT_CTX_F_ENCRYPT : Z := 0x0100.
Definition HCRYPT_CTX_F_ANNOUNCE : Z := 0x0200.
Definition HCRYPT_CTX_F_TTSEND : Z := 0x0400.

Definition HCRYPT_CTX_S_INIT : Z := 1.
Definition HCRYPT_CTX_S_SARDY : Z := 2.
Definition HCRYPT_CTX_S_KEYED : Z := 3.
Definition HCRYPT_CTX_S_ACTIVE : Z := 4.
Definition HCRYPT_CTX_S_DEPRECATED : Z := 5.

Definition HCRYPT_CTX_MODE_CLRTXT : Z := 0.
Definition HCRYPT_CTX_MODE_AESECB : Z := 1.
Definition HCRYPT_CTX_MODE_AESCTR : Z := 2.
Definition HCRYPT_CTX_MAX_KM_PFX_SZ : nat := 16.
Definition HCRYPT_CTX_MAX_MS_PFX_SZ : nat := 16.

(** [struct tag_hcrypt_Ctx].  The [alt] pointer is the other element of
    [ctx_pair] from the moment the session is prepared; [None] is the NULL of
    [msg_info]. *)
Record hcrypt_Ctx := {
  flags : Z;
  status : Z;
  mode : Z;
  key_len : nat;
  pwd_len : nat;
  pwd : bytes;
  salt_len : nat;
  salt : bytes;
  sek_len : nat;
  sek : bytes;
  msg_info : option hcrypt_MsgInfo;
  pkt_cnt : Z;
  KMmsg_len : nat;
  KMmsg_cache : bytes;
  MSpfx_cache : bytes;
}.

(** The context of a session cleared by [memset]. *)
Definition ctx_zero : hcrypt_Ctx := {|
  flags := 0; status := 0; mode := 0; key_len := 0; pwd_len := 0;
  pwd := replicate HAICRYPT_PWD_MAX_SZ 0;
  salt_len := 0; salt := replicate HAICRYPT_SALT_SZ 0;
  sek_len := 0; sek := replicate HAICRYPT_KEY_MAX_SZ 0;
  msg_info := None; pkt_cnt := 0;
  KMmsg_len := 0; KMmsg_cache := replicate (HCRYPT_CTX_MAX_KM_PFX_SZ + HCRYPT_MSG_KM_MAX_SZ) 0;
  MSpfx_cache := replicate HCRYPT_CTX_MAX_MS_PFX_SZ 0;
|}.

(** [ctx->field = v] *)
Definition set_flags v c := {| flags := v; status := status c; mode := mode c;
  key_len := key_len c; pwd_len := pwd_len c; pwd := pwd c; salt_len := salt_len c; salt := salt c;
  sek_len := sek_len c; sek := sek c; msg_info := msg_info c; pkt_cnt := pkt_cnt c;
  KMmsg_len := KMmsg_len c; KMmsg_cache := KMmsg_cache c; MSpfx_cache := MSpfx_cache c |}.
Definition set_status v c := {| flags := flags c; status := v; mode := mode c;
  key_len := key_len c; pwd_len := pwd_len c; pwd := pwd c; salt_len := salt_len c; salt := salt c;
  sek_len := sek_len c; sek := sek c; msg_info := msg_info c; pkt_cnt := pkt_cnt c;
  KMmsg_len := KMmsg_len c; KMmsg_cache := KMmsg_cache c; MSpfx_cache := MSpfx_cache c |}.
Definition set_mode v c := {| flags := flags c; status := status c; mode := v;
  key_len := key_len c; pwd_len := pwd_len c; pwd := pwd c; salt_len := salt_len c; salt := salt c;
  sek_len := sek_len c; sek := sek c; msg_info := msg_info c; pkt_cnt := pkt_cnt c;
  KMmsg_len := KMmsg_len c; KMmsg_cache := KMmsg_cache c; MSpfx_cache := MSpfx_cache c |}.
(** The [cfg] structure: key length and pass phrase. *)
Definition set_key_len v c := {| flags := flags c; status := status c; mode := mode c;
  key_len := v; pwd_len := pwd_len c; pwd := pwd c; salt_len := salt_len c; salt := salt c;
  sek_len := sek_len c; sek := sek c; msg_info := msg_info c; pkt_cnt := pkt_cnt c;
  KMmsg_len := KMmsg_len c; KMmsg_cache := KMmsg_cache c; MSpfx_cache := MSpfx_cache c |}.
Definition set_pwd n v c := {| flags := flags c; status := status c; mode := mode c;
  key_len := key_len c; pwd_len := n; pwd := v; salt_len := salt_len c; salt := salt c;
  sek_len := sek_len c; sek := sek c; msg_info := msg_info c; pkt_cnt := pkt_cnt c;
  KMmsg_len := KMmsg_len c; KMmsg_cache := KMmsg_cache c; MSpfx_cache := MSpfx_cache c |}.
Definition set_salt n v c := {| flags := flags c; status := status c; mode := mode c;
  key_len := key_len c; pwd_len := pwd_len c; pwd := pwd c; salt_len := n; salt := v;
  sek_len := sek_len c; sek := sek c; msg_info := msg_info c; pkt_cnt := pkt_cnt c;
  KMmsg_len := KMmsg_len c; KMmsg_cache := KMmsg_cache c; MSpfx_cache := MSpfx_cache c |}.
Definition set_sek n v c := {| flags := flags c; status := status c; mode := mode c;
  key_len := key_len c; pwd_len := pwd_len c; pwd := pwd c; salt_len := salt_len c; salt := salt c;
  sek_len := n; sek := v; msg_info := msg_info c; pkt_cnt := pkt_cnt c;
  KMmsg_len := KMmsg_len c; KMmsg_cache := KMmsg_cache c; MSpfx_cache := MSpfx_cache c |}.
Definition set_msg_info v c := {| flags := flags c; status := status c; mode := mode c;
  key_len := key_len c; pwd_len := pwd_len c; pwd := pwd c; salt_len := salt_len c; salt := salt c;
  sek_len := sek_len c; sek := sek c; msg_info := v; pkt_cnt := pkt_cnt c;
  KMmsg_len := KMmsg_len c; KMmsg_cache := KMmsg_cache c; MSpfx_cache := MSpfx_cache c |}.
Definition set_pkt_cnt v c := {| flags := flags c; status := status c; mode := mode c;
  key_len := key_len c; pwd_len := pwd_len c; pwd := pwd c; salt_len := salt_len c; salt := salt c;
  sek_len := sek_len c; sek := sek c; msg_info := msg_info c; pkt_cnt := v;
  KMmsg_len := KMmsg_len c; KMmsg_cache := KMmsg_cache c; MSpfx_cache := MSpfx_cache c |}.
Definition set_KMmsg n v c := {| flags := flags c; status := status c; mode := mode c;
  key_len := key_len c; pwd_len := pwd_len c; pwd := pwd c; salt_len := salt_len c; salt := salt c;
  sek_len := sek_len c; sek := sek c; msg_info := msg_info c; pkt_cnt := pkt_cnt c;
  KMmsg_len := n; KMmsg_cache := v; MSpfx_cache := MSpfx_cache c |}.
Definition set_MSpfx v c := {| flags := flags c; status := status c; mode := mode c;
  key_len := key_len c; pwd_len := pwd_len c; pwd := pwd c; salt_len := salt_len c; salt := salt c;
  sek_len := sek_len c; sek := sek c; msg_info := msg_info c; pkt_cnt := pkt_cnt c;
  KMmsg_len := KMmsg_len c; KMmsg_cache := KMmsg_cache c; MSpfx_cache := v |}.

(** [ctx->flags |= f], [ctx->flags &= ~f], [ctx->flags & f] *)
Definition or_flags f c := set_flags (Z.lor (flags c) f) c.
Definition clear_flags f c := set_flags (Z.ldiff (flags c) f) c.
Definition has_flag (f : Z) (c : hcrypt_Ctx) : bool := negb (Z.land (flags c) f =? 0).

Definition hcryptCtx_GetKeyFlags (c : hcrypt_Ctx) : Z := Z.land (flags c) HCRYPT_CTX_F_xSEK.
Definition hcryptCtx_GetKeyIndex (c : hcrypt_Ctx) : nat :=
  Z.to_nat (Z.shiftr (Z.land (flags c) HCRYPT_CTX_F_xSEK) 1).

(** ** Flag algebra *)

(** Distinct single-bit flags do not interfere. *)
Lemma has_or_flags f g c :
  Z.land g f = 0 → has_flag f (or_flags g c) = has_flag f c.
Proof.
  intros H. unfold has_flag, or_flags. simpl. by rewrite Z.land_lor_distr_l, H, Z.lor_0_r.
Qed.
Lemma has_or_flags_in f g c : Z.land g f ≠ 0 → has_flag f (or_flags g c) = true.
Proof.
  intros H. unfold has_flag, or_flags. simpl. rewrite Z.land_lor_distr_l.
  apply negb_true_iff, Z.eqb_neq. by intros [_ ?]%Z.lor_eq_0_iff.
Qed.
Lemma has_or_flags_eq f c : 0 < f → has_flag f (or_flags f c) = true.
Proof.
  intros Hf. unfold has_flag, or_flags. simpl.
  rewrite Z.land_lor_distr_l, Z.land_diag. apply negb_true_iff, Z.eqb_neq.
  intros [_ ?]%Z.lor_eq_0_iff. lia.
Qed.
Lemma has_clear_flags f g c :
  Z.land g f = 0 → has_flag f (clear_flags g c) = has_flag f c.
Proof.
  intros H. unfold has_flag, clear_flags. simpl.
  replace (Z.land (Z.ldiff (flags c) g) f) with (Z.land (flags c) f); [done|].
  apply Z.bits_inj'. intros i Hi. apply (f_equal (λ x, Z.testbit x i)) in H.
  rewrite Z.land_spec, Z.bits_0 in H. rewrite !Z.land_spec, Z.ldiff_spec.
  destruct (Z.testbit g i), (Z.testbit f i), (Z.testbit (flags c) i); done.
Qed.
Lemma has_clear_flags_eq f c : has_flag f (clear_flags f c) = false.
Proof.
  unfold has_flag, clear_flags. simpl. apply negb_false_iff, Z.eqb_eq.
  apply Z.bits_inj'. intros i Hi. rewrite Z.land_spec, Z.ldiff_spec, Z.bits_0.
  destruct (Z.testbit (flags c) i), (Z.testbit f i); done.
Qed.
Lemma key_flags_or g c :
  Z.land g HCRYPT_CTX_F_xSEK = 0 → hcryptCtx_GetKeyFlags (or_flags g c) = hcryptCtx_GetKeyFlags c.
Proof.
  intros H. unfold hcryptCtx_GetKeyFlags, or_flags. simpl. by rewrite Z.land_lor_distr_l, H, Z.lor_0_r.
Qed.
Lemma key_flags_clear g c :
  Z.land g HCRYPT_CTX_F_xSEK = 0 →
  hcryptCtx_GetKeyFlags (clear_flags g c) = hcryptCtx_GetKeyFlags c.
Proof.
  intros H. unfold hcryptCtx_GetKeyFlags, clear_flags. simpl.
  apply Z.bits_inj'. intros i Hi. apply (f_equal (λ x, Z.testbit x i)) in H.
  rewrite Z.land_spec, Z.bits_0 in H. rewrite !Z.land_spec, Z.ldiff_spec.
  destruct (Z.testbit g i), (Z.testbit HCRYPT_CTX_F_xSEK i), (Z.testbit (flags c) i); done.
Qed.
Lemma key_index_flags c c' :
  hcryptCtx_GetKeyFlags c = hcryptCtx_GetKeyFlags c' →
  hcryptCtx_GetKeyIndex c = hcryptCtx_GetKeyIndex c'.
Proof. unfold hcryptCtx_GetKeyFlags, hcryptCtx_GetKeyIndex. by intros ->. Qed.
