(* ===== verification/Cryspr.v ===== *)
(** * The crypto service provider: haicrypt/cryspr.c, cryspr-openssl.c,
    crypto/aes/aes_wrap.c

    The AES library behind it is an interface, the class [AesLib]; the modes
    of operation it is used in are those of [Ctr128] and [Wrap128]. *)
From S2P Require Import Prelude StreamMode Ctr128 CfbOfb128 Cbc128 Wrap128 HcMsg HcCtx.

(** What cryspr-openssl.c calls in OpenSSL, apart from the modes: key set-up
    ([None] is a non-zero return value), the block functions, and
    PKCS#5 PBKDF2 ([None] is a return value other than 1). *)
Class AesLib (AES_KEY : Type) := {
  AES_set_encrypt_key : bytes → Z → option AES_KEY;
  AES_set_decrypt_key : bytes → Z → option AES_KEY;
  AES_encrypt : block128_f AES_KEY;
  AES_decrypt : block128_f AES_KEY;
  PKCS5_PBKDF2_HMAC_SHA1 : bytes → bytes → Z → nat → option bytes;
}.

(** The key lengths of AES, in bytes. *)
Definition aes_key_len (n : nat) : Prop := n = 16%nat ∨ n = 24%nat ∨ n = 32%nat.

(** What HaiCrypt relies on. *)
Class AesLibOk (AES_KEY : Type) {L : AesLib AES_KEY} := {
  set_key_total str :
    aes_key_len (length str) → are_bytes str →
    is_Some (AES_set_encrypt_key str (Z.of_nat (length str) * 8)) ∧
    is_Some (AES_set_decrypt_key str (Z.of_nat (length str) * 8));
  enc_key_block str bits k : AES_set_encrypt_key str bits = Some k → Block128 AES_encrypt k;
  dec_key_block str bits k : AES_set_decrypt_key str bits = Some k → Block128 AES_decrypt k;
  aes_inverse str bits ek dk :
    AES_set_encrypt_key str bits = Some ek → AES_set_decrypt_key str bits = Some dk →
    BlockInverse AES_encrypt ek AES_decrypt dk ∧ BlockInverse AES_decrypt dk AES_encrypt ek;
  pbkdf2_total pwd salt itr n :
    ∃ out, PKCS5_PBKDF2_HMAC_SHA1 pwd salt itr n = Some out ∧ length out = n ∧ are_bytes out;
}.

Definition CRYSPR_AESBLKSZ : nat := 16.
Definition CRYSPR_OUTMSGMAX : Z := 6.
Definition HCRYPT_CTR_BLK_SZ : nat := CRYSPR_AESBLKSZ.
Definition HCRYPT_CTR_STREAM_SZ : nat := 2048.

(** [struct tag_CRYSPR_cb].  The structure is allocated by [malloc]: a key
    schedule is [None] until it is set. *)
Record CRYSPR_cb (AES_KEY : Type) := {
  aes_kek : option AES_KEY;
  aes_sek : list (option AES_KEY);
  outbuf : bytes;
  outbuf_ofs : Z;
  outbuf_siz : Z;
}.
Arguments aes_kek {_}. Arguments aes_sek {_}. Arguments outbuf {_}.
Arguments outbuf_ofs {_}. Arguments outbuf_siz {_}.

(** The result of [ms_encrypt] and [ms_decrypt]: the return value, the control
    block, the prefix and payload of [in_data[0]], and, when it is set, the
    place in [outbuf] of [out_p[0]] ([ *nbout_p = 1]). *)
Record ms_result (AES_KEY : Type) := {
  ms_ret : Z;
  ms_cb : CRYSPR_cb AES_KEY;
  ms_pfx : bytes;
  ms_payload : bytes;
  ms_out : option (nat * nat);
}.
Arguments ms_ret {_}. Arguments ms_cb {_}. Arguments ms_pfx {_}.
Arguments ms_payload {_}. Arguments ms_out {_}.

Section cryspr.
Context {AES_KEY : Type} `{!AesLib AES_KEY}.
(** The configuration OpenSSL was compiled in, the byte order of the machine
    and the alignment of the IV. *)
Context (v : variant) (little aligned : bool).
Local Abbreviation cb_t := (CRYSPR_cb AES_KEY).

(** ** aes_wrap.c *)
Definition AES_wrap_key (key : AES_KEY) (iv : option bytes) (inp : bytes) : option bytes :=
  CRYPTO_128_wrap AES_encrypt key iv inp.
Definition AES_unwrap_key (key : AES_KEY) (iv : option bytes) (inp : bytes) : option bytes :=
  CRYPTO_128_unwrap AES_decrypt key iv inp.

(** ** cryspr-openssl.c *)
Definition crysprOpenSSL_AES_SetKey (bEncrypt : bool) (kstr : bytes) : option AES_KEY :=
  if bEncrypt then AES_set_encrypt_key kstr (Z.of_nat (length kstr) * 8)
  else AES_set_decrypt_key kstr (Z.of_nat (length kstr) * 8).

Fixpoint ecb_blocks (f : block128_f AES_KEY) (key : AES_KEY) (nblk : nat) (inp : bytes) : bytes :=
  match nblk with
  | O => []
  | S n => f (take 16 inp) key ++ ecb_blocks f key n (drop 16 inp)
  end.

(** [outlen] is [*outlen] on entry, 0 for a NULL pointer; [None] is the
    return value -1; the length of the output is the new [*outlen]. *)
Definition crysprOpenSSL_AES_EcbCipher (bEncrypt : bool) (aes_key : AES_KEY) (indata : bytes)
    (outlen : Z) : option bytes :=
  let nblk := (length indata / CRYSPR_AESBLKSZ)%nat in
  let nmore := (length indata mod CRYSPR_AESBLKSZ)%nat in
  let outsiz := outlen in
  if negb (outsiz mod Z.of_nat CRYSPR_AESBLKSZ =? 0) then None
  else if bEncrypt then
    if (16 <? outsiz) && (outsiz <? Z.of_nat ((nblk + nmore) * CRYSPR_AESBLKSZ)) then None
    else
      let out := ecb_blocks AES_encrypt aes_key nblk indata in
      if (0 <? nmore)%nat then
        let pad := (CRYSPR_AESBLKSZ - nmore)%nat in
        let intxt := drop (nblk * CRYSPR_AESBLKSZ) indata ++ replicate pad (Z.of_nat pad) in
        Some (out ++ AES_encrypt intxt aes_key)
      else Some out
  else Some (ecb_blocks AES_decrypt aes_key nblk indata).

(** [CRYPTO_ctr128_encrypt(indata, out_txt, inlen, aes_key, iv, ctr, &blk_ofs,
    AES_encrypt)] from a cleared [ctr] *)
Definition crysprOpenSSL_AES_CtrCipher (aes_key : AES_KEY) (iv indata : bytes) : bytes :=
  (CRYPTO_ctr128_encrypt AES_encrypt aes_key little aligned v indata
     {| ctr_ivec := iv; ctr_ecount_buf := replicate CRYSPR_AESBLKSZ 0 |} 0).1.1.

Definition crysprOpenSSL_KmPbkdf2 (passwd salt : bytes) (itr : Z) (key_len : nat) : option bytes :=
  PKCS5_PBKDF2_HMAC_SHA1 passwd salt itr key_len.

(** [None]: the KEK is not set; [Some None]: -1; [Some (Some wrap)]: 0. *)
Definition crysprOpenSSL_KmWrap (cb : cb_t) (sek : bytes) : option (option bytes) :=
  kek ← aes_kek cb;
  let wrap := AES_wrap_key kek None sek in
  let ret := match wrap with Some w => Z.of_nat (length w) | None => 0 end in
  Some (if u32 (Z.of_nat (length sek + HAICRYPT_WRAPKEY_SIGN_SZ)) =? u32 ret then wrap else None).

Definition crysprOpenSSL_KmUnwrap (cb : cb_t) (wrap : bytes) : option (option bytes) :=
  kek ← aes_kek cb;
  let sek := AES_unwrap_key kek None wrap in
  let ret := match sek with Some s => Z.of_nat (length s) | None => 0 end in
  Some (if u32 (Z.of_nat (length wrap) - Z.of_nat HAICRYPT_WRAPKEY_SIGN_SZ) =? u32 ret
        then sek else None).

(** ** cryspr.c: key set-up *)
Definition set_kek (k : AES_KEY) (cb : cb_t) : cb_t :=
  {| aes_kek := Some k; aes_sek := aes_sek cb; outbuf := outbuf cb;
     outbuf_ofs := outbuf_ofs cb; outbuf_siz := outbuf_siz cb |}.
Definition set_aes_sek (i : nat) (k : AES_KEY) (cb : cb_t) : cb_t :=
  {| aes_kek := aes_kek cb; aes_sek := <[i := Some k]> (aes_sek cb); outbuf := outbuf cb;
     outbuf_ofs := outbuf_ofs cb; outbuf_siz := outbuf_siz cb |}.

(** [None] is the return value -1, with the control block unchanged. *)
Definition crysprFallback_KmSetKey (cb : cb_t) (bWrap : bool) (kek : bytes) : option cb_t :=
  match crysprOpenSSL_AES_SetKey bWrap kek with
  | None => None
  | Some k => Some (set_kek k cb)
  end.

Definition crysprFallback_MsSetKey (cb : cb_t) (ctx : hcrypt_Ctx) (key : bytes) : option cb_t :=
  let i := hcryptCtx_GetKeyIndex ctx in
  if has_flag HCRYPT_CTX_F_ENCRYPT ctx || (mode ctx =? HCRYPT_CTX_MODE_AESCTR) then
    match crysprOpenSSL_AES_SetKey true key with
    | None => None
    | Some k => Some (set_aes_sek i k cb)
    end
  else
    match crysprOpenSSL_AES_SetKey false key with
    | None => None
    | Some k => Some (set_aes_sek i k cb)
    end.

(** ** The key wrap of a provider without one *)
Definition default_iv : bytes := replicate 8 0xA6.

(** The ECB cipher on one block, its return value ignored. *)
Definition ecb_block (bEncrypt : bool) (B : bytes) (kek : AES_KEY) : bytes :=
  default B (crysprOpenSSL_AES_EcbCipher bEncrypt kek B 16).

Definition crysprFallback_AES_WrapKey (cb : cb_t) (inp : bytes) : option (option bytes) :=
  kek ← aes_kek cb;
  let inlen := Z.of_nat (length inp) in
  Some (if negb (Z.land inlen 0x7 =? 0) || (inlen <? 8) then None
        else
          let '(A, R) := wrap_outer (ecb_block true) kek 6 (length inp / 8) 1 (default_iv, inp) in
          Some (A ++ R)).

(** [None] also when a wrapped key of less than 8 bytes, whose length wraps
    around, is read past its end. *)
Definition crysprFallback_AES_UnwrapKey (cb : cb_t) (inp : bytes) : option (option bytes) :=
  kek ← aes_kek cb;
  let inlen := u32 (Z.of_nat (length inp) - 8) in
  if negb (Z.land inlen 0x7 =? 0) then Some None
  else if inlen <? 8 then Some None
  else if Z.of_nat (length inp) <? inlen + 8 then None
  else
    let t := 6 * Z.shiftr inlen 3 in
    let '(A, out) := unwrap_outer (ecb_block false) kek 6 (Z.to_nat (inlen / 8)) t
                       (take 8 inp, drop 8 inp) in
    Some (if decide (A = default_iv) then Some out else None).

(** ** The output buffer *)

(** The place reserved and the new write offset. *)
Definition _crysprFallback_GetOutbuf (cb : cb_t) (pfx_len out_len : Z) : nat * cb_t :=
  let ofs := if u64 (outbuf_siz cb - outbuf_ofs cb) <? u64 (pfx_len + out_len)
             then 0 else outbuf_ofs cb in
  (Z.to_nat ofs,
   {| aes_kek := aes_kek cb; aes_sek := aes_sek cb; outbuf := outbuf cb;
      outbuf_ofs := u64 (ofs + (pfx_len + out_len)); outbuf_siz := outbuf_siz cb |}).

(** [malloc]ed memory has arbitrary contents [mem]. *)
Definition crysprFallback_Open (mem : nat → bytes) (max_len : Z) : cb_t :=
  let padded_len := hcryptMsg_PaddedLen max_len 16 in
  let siz := u64 (CRYSPR_OUTMSGMAX * padded_len) in
  {| aes_kek := None; aes_sek := [None; None]; outbuf := mem (Z.to_nat siz);
     outbuf_ofs := 0; outbuf_siz := siz |}.

(** Writing to the output buffer; [None] is a write past its end. *)
Definition out_write (cb : cb_t) (ofs : nat) (b : bytes) : option cb_t :=
  if (ofs + length b <=? length (outbuf cb))%nat then
    Some {| aes_kek := aes_kek cb; aes_sek := aes_sek cb; outbuf := memcpy (outbuf cb) ofs b;
            outbuf_ofs := outbuf_ofs cb; outbuf_siz := outbuf_siz cb |}
  else None.
Definition out_read (cb : cb_t) (ofs len : nat) : bytes := take len (drop ofs (outbuf cb)).

(** ** The counter stream of a provider without CTR *)

(** [if (0 == ++(ctr[15])) ++(ctr[14]);] *)
Definition ctr_stream_inc (ctr : bytes) : bytes :=
  let c15 := u8 (ctr !!! 15%nat + 1) in
  let ctr := <[15%nat := c15]> ctr in
  if c15 =? 0 then <[14%nat := u8 (ctr !!! 14%nat + 1)]> ctr else ctr.

Fixpoint ctr_stream_blocks (nblk : nat) (ctr : bytes) : bytes :=
  match nblk with
  | O => []
  | S n => ctr ++ ctr_stream_blocks n (ctr_stream_inc ctr)
  end.

(** The contents of [ctr_stream] up to [ctr_stream_len]; [None] is -1. *)
Definition _crysprFallback_AES_SetCtrStream (len : nat) (iv : bytes) : option bytes :=
  let nblk := ((len + (HCRYPT_CTR_BLK_SZ - 1)) / HCRYPT_CTR_BLK_SZ)%nat in
  if (nblk * HCRYPT_CTR_BLK_SZ <=? HCRYPT_CTR_STREAM_SZ)%nat
  then Some (ctr_stream_blocks nblk iv) else None.

(** ** Media stream encryption, in the configuration with CTR *)

(** [None]: a key that is not set is used, a NULL [msg_info] is followed, or
    the output buffer is overrun. *)
Definition crysprFallback_MsEncrypt (cb : cb_t) (ctx : hcrypt_Ctx) (pfx payload : bytes)
    (out_p : bool) : option (ms_result AES_KEY) :=
  mi ← msg_info ctx;
  let len := length payload in
  let pfx_len := pfx_len mi in
  let '(ofs, cb) := _crysprFallback_GetOutbuf cb (Z.of_nat pfx_len) (Z.of_nat len) in
  let finish (cb : cb_t) : option (ms_result AES_KEY) :=
    if (0 <? len)%nat then
      if negb out_p then
        Some {| ms_ret := 0; ms_cb := cb; ms_pfx := memcpy pfx 0 (out_read cb ofs pfx_len);
                ms_payload := out_read cb (ofs + pfx_len) len; ms_out := None |}
      else
        cb ← (if (0 <? pfx_len)%nat then out_write cb ofs (take pfx_len pfx) else Some cb);
        Some {| ms_ret := 0; ms_cb := cb; ms_pfx := pfx; ms_payload := payload;
                ms_out := Some (ofs, pfx_len + len)%nat |}
    else Some {| ms_ret := -1; ms_cb := cb; ms_pfx := pfx; ms_payload := payload;
                 ms_out := None |} in
  if mode ctx =? HCRYPT_CTX_MODE_AESCTR then
    aes_key ← mjoin (aes_sek cb !! hcryptCtx_GetKeyIndex ctx);
    let pki := getPki mi pfx true in
    let iv := hcrypt_SetCtrIV (le_bytes 4 pki) (salt ctx) in
    cb ← out_write cb (ofs + pfx_len) (crysprOpenSSL_AES_CtrCipher aes_key iv payload);
    cb ← out_write cb ofs (take pfx_len pfx);
    finish cb
  else if mode ctx =? HCRYPT_CTX_MODE_CLRTXT then
    cb ← out_write cb (ofs + pfx_len) payload;
    cb ← out_write cb ofs (take pfx_len pfx);
    finish cb
  else Some {| ms_ret := -1; ms_cb := cb; ms_pfx := pfx; ms_payload := payload; ms_out := None |}.

Definition crysprFallback_MsDecrypt (cb : cb_t) (ctx : hcrypt_Ctx) (pfx payload : bytes)
    (out_p : bool) : option (ms_result AES_KEY) :=
  let len := length payload in
  let '(ofs, cb) := _crysprFallback_GetOutbuf cb 0 (Z.of_nat len) in
  let finish (cb : cb_t) : option (ms_result AES_KEY) :=
    if (0 <? len)%nat then
      if negb out_p then
        Some {| ms_ret := 0; ms_cb := cb; ms_pfx := pfx; ms_payload := out_read cb ofs len;
                ms_out := None |}
      else
        Some {| ms_ret := 0; ms_cb := cb; ms_pfx := pfx; ms_payload := payload;
                ms_out := Some (ofs, len) |}
    else Some {| ms_ret := -1; ms_cb := cb; ms_pfx := pfx; ms_payload := payload;
                 ms_out := None |} in
  if mode ctx =? HCRYPT_CTX_MODE_AESCTR then
    mi ← msg_info ctx;
    aes_key ← mjoin (aes_sek cb !! hcryptCtx_GetKeyIndex ctx);
    let pki := getPki mi pfx true in
    let iv := hcrypt_SetCtrIV (le_bytes 4 pki) (salt ctx) in
    cb ← out_write cb ofs (crysprOpenSSL_AES_CtrCipher aes_key iv payload);
    finish cb
  else if mode ctx =? HCRYPT_CTX_MODE_CLRTXT then
    cb ← out_write cb ofs payload;
    finish cb
  else Some {| ms_ret := -1; ms_cb := cb; ms_pfx := pfx; ms_payload := payload; ms_out := None |}.
End cryspr.

(** ** Facts *)

(** The control block is sound: two key slots, and a buffer of the size it
    announces with the write offset inside. *)
Definition cb_ok {K} (cb : CRYSPR_cb K) : Prop :=
  length (aes_sek cb) = 2%nat ∧ length (outbuf cb) = Z.to_nat (outbuf_siz cb) ∧
  0 <= outbuf_ofs cb <= outbuf_siz cb ∧ outbuf_siz cb < 2 ^ 63.

Section cryspr_facts.
Context {AES_KEY : Type} `{!AesLib AES_KEY}.
Context (v : variant) (little aligned : bool).
Local Abbreviation cb_t := (CRYSPR_cb AES_KEY).
Local Abbreviation CtrCipher := (crysprOpenSSL_AES_CtrCipher v little aligned).

Lemma CtrCipher_keystream k iv inp :
  Block128 AES_encrypt k → iv_ok iv → are_bytes inp →
  CtrCipher k iv inp = xor_bytes inp (ctr_keystream AES_encrypt k iv (blocks_of (length inp))).
Proof.
  intros Hk [Hl Hb] Hi. unfold crysprOpenSSL_AES_CtrCipher, CRYSPR_AESBLKSZ.
  pose proof (ctr_encrypt_keystream AES_encrypt k little aligned v iv (replicate 16 0) inp Hl Hb
    ltac:(done) ltac:(apply are_bytes_replicate; by unfold is_byte) Hi) as H.
  destruct (CRYPTO_ctr128_encrypt _ _ _ _ _ _ _ _) as [[out s'] num'].
  by destruct H as (-> & _).
Qed.

Lemma length_CtrCipher k iv inp :
  Block128 AES_encrypt k → iv_ok iv → are_bytes inp → length (CtrCipher k iv inp) = length inp.
Proof.
  intros. rewrite CtrCipher_keystream by done. destruct H0.
  rewrite length_xor_bytes, length_ctr_keystream by done.
  pose proof (blocks_of_ge (length inp)). lia.
Qed.

Lemma are_bytes_ctr_keystream k iv n :
  Block128 AES_encrypt k → iv_ok iv → are_bytes (ctr_keystream AES_encrypt k iv n).
Proof.
  intros ?. revert iv. induction n as [|n IH]; intros iv Hiv; [apply are_bytes_nil|].
  rewrite ctr_keystream_S. apply are_bytes_app.
  split; [by apply (iv_ok_block AES_encrypt k)|]. apply IH.
  destruct Hiv. split; [len|auto with bytes].
Qed.

Lemma are_bytes_CtrCipher k iv inp :
  Block128 AES_encrypt k → iv_ok iv → are_bytes inp → are_bytes (CtrCipher k iv inp).
Proof.
  intros. rewrite CtrCipher_keystream by done.
  apply are_bytes_xor; [done|by apply are_bytes_ctr_keystream].
Qed.

(** Decryption is encryption. *)
Lemma CtrCipher_involutive k iv inp :
  Block128 AES_encrypt k → iv_ok iv → are_bytes inp →
  CtrCipher k iv (CtrCipher k iv inp) = inp.
Proof.
  intros Hk Hiv Hi. rewrite CtrCipher_keystream by auto using are_bytes_CtrCipher.
  rewrite length_CtrCipher, CtrCipher_keystream by done.
  apply xor_bytes_cancel. destruct Hiv. rewrite length_ctr_keystream by done.
  apply blocks_of_ge.
Qed.

(** ** The fallback key wrap *)
Lemma ecb_block_enc kek b : iv_ok b → ecb_block true b kek = AES_encrypt b kek.
Proof.
  intros [Hl _]. unfold ecb_block, crysprOpenSSL_AES_EcbCipher, CRYSPR_AESBLKSZ. rewrite Hl.
  change (16 / 16)%nat with 1%nat. change (16 mod 16)%nat with 0%nat. cbn -[AES_encrypt take].
  by rewrite take_ge, app_nil_r by lia.
Qed.
Lemma ecb_block_dec kek b : iv_ok b → ecb_block false b kek = AES_decrypt b kek.
Proof.
  intros [Hl _]. unfold ecb_block, crysprOpenSSL_AES_EcbCipher, CRYSPR_AESBLKSZ. rewrite Hl.
  change (16 / 16)%nat with 1%nat. cbn -[AES_decrypt take].
  by rewrite take_ge, app_nil_r by lia.
Qed.

Lemma default_iv_ok : length Cryspr.default_iv = 8%nat ∧ are_bytes Cryspr.default_iv.
Proof. split; [done|]. apply are_bytes_replicate. by unfold is_byte. Qed.

Lemma unwrap_rejects (c : bytes) (kek : AES_KEY) :
  Z.of_nat (length c) < 2 ^ 31 → (length c < 24)%nat →
  AES_unwrap_key kek None c = None.
Proof.
  intros Hc Hl. unfold AES_unwrap_key, CRYPTO_128_unwrap.
  destruct (crypto_128_unwrap_raw _ _ _) eqn:Hr; [|done].
  apply unwrap_raw_some in Hr as (n & [Hn _] & Hln & _); lia.
Qed.

(** The key wrap written over the ECB cipher computes OpenSSL's. *)
Lemma fallback_wrap_eq cb kek sek :
  aes_kek cb = Some kek → Block128 AES_encrypt kek → are_bytes sek →
  (16 <= length sek)%nat → Z.of_nat (length sek) <= 2 ^ 31 →
  crysprFallback_AES_WrapKey cb sek = crysprOpenSSL_KmWrap cb sek.
Proof.
  intros Hkek Hb Hs H16 Hmax. unfold crysprFallback_AES_WrapKey, crysprOpenSSL_KmWrap.
  rewrite Hkek. cbn [mbind option_bind]. f_equal. unfold AES_wrap_key.
  pose proof (wrap_some AES_encrypt kek None sek) as Hw.
  pose proof (wrap_guard (Z.of_nat (length sek)) ltac:(lia)) as Hg.
  destruct (decide (Z.land (Z.of_nat (length sek)) 0x7 = 0)) as [H7|H7].
  - rewrite H7 in *. cbn [Z.eqb negb orb] in *.
    replace (Z.of_nat (length sek) <? 8) with false by lia.
    assert (Hg' : false = false) by done. change CRYPTO128_WRAP_MAX with (2 ^ 31) in Hg.
    replace (_ || _) with false in Hg by lia. apply Hg in Hg' as [Hn Hl]. clear Hg.
    assert (Hdiv : Z.to_nat (Z.of_nat (length sek) / 8) = (length sek / 8)%nat)
      by (rewrite <- (Nat2Z.inj_div _ 8); lia).
    rewrite Hdiv in Hn. assert (Hl' : length sek = (8 * (length sek / 8))%nat) by lia.
    set (n := (length sek / 8)%nat) in *.
    assert (Hok : wrap_ok n (Cryspr.default_iv, sek)) by (by apply wrap_init_ok; try apply default_iv_ok).
    rewrite (wrap_outer_ext _ _ AES_encrypt kek (ecb_block_enc kek) n) by done.
    pose proof (wrap_outer_ok AES_encrypt kek n 6 1 _ Hok) as (HA & _ & HR & _).
    destruct (wrap_outer AES_encrypt kek 6 n 1 (Cryspr.default_iv, sek)) as [A R] eqn:Hst.
    rewrite (proj2 (Hw (A ++ R))).
    2: { exists n. split; [done|]. split; [done|]. cbn [default].
         change Wrap128.default_iv with Cryspr.default_iv. by rewrite Hst. }
    simpl in HA, HR. unfold HAICRYPT_WRAPKEY_SIGN_SZ.
    by replace (length (A ++ R)) with (length sek + 8)%nat by len; rewrite Z.eqb_refl.
  - replace (Z.land (Z.of_nat (length sek)) 0x7 =? 0) with false by lia. cbn [negb orb].
    assert (CRYPTO_128_wrap AES_encrypt kek None sek = None) as ->; [|by case_match].
    unfold CRYPTO_128_wrap.
    by replace (Z.land (Z.of_nat (length sek)) 0x7 =? 0) with false by lia.
Qed.

Lemma fallback_unwrap_eq cb kek c :
  aes_kek cb = Some kek → Block128 AES_decrypt kek → are_bytes c →
  (24 <= length c)%nat → Z.of_nat (length c) <= 2 ^ 31 →
  crysprFallback_AES_UnwrapKey cb c = crysprOpenSSL_KmUnwrap cb c.
Proof.
  intros Hkek Hb Hc H24 Hmax. unfold crysprFallback_AES_UnwrapKey, crysprOpenSSL_KmUnwrap.
  rewrite Hkek. cbn [mbind option_bind].
  unfold AES_unwrap_key, CRYPTO_128_unwrap, HAICRYPT_WRAPKEY_SIGN_SZ.
  set (L := Z.of_nat (length c) - 8). assert (HL : 16 <= L < 2 ^ 31) by lia.
  change (Z.of_nat 8) with 8. fold L. rewrite (u32_small L) by lia.
  pose proof (wrap_guard L ltac:(lia)) as Hg.
  pose proof (unwrap_raw_some AES_decrypt kek c) as Hraw.
  destruct (decide (Z.land L 0x7 = 0)) as [H7|H7].
  - rewrite H7 in *. cbn [Z.eqb negb orb] in *.
    assert ((L <? 8) = false ∧ (Z.of_nat (length c) <? L + 8) = false) as [-> ->] by lia.
    assert (Hg' : false = false) by done. change CRYPTO128_WRAP_MAX with (2 ^ 31) in Hg.
    replace (_ || _) with false in Hg by lia. apply Hg in Hg' as [Hn Hl]. clear Hg.
    rewrite Z.shiftr_div_pow2 by lia. change (2 ^ 3) with 8.
    set (n := Z.to_nat (L / 8)) in *. assert (Hq : L / 8 = Z.of_nat n) by lia. rewrite Hq.
    assert (Hln : length c = (8 * n + 8)%nat) by lia.
    assert (Hok : wrap_ok n (take 8 c, drop 8 c))
      by (apply wrap_init_ok; auto with bytes; len).
    rewrite (unwrap_outer_ext _ _ AES_decrypt kek (ecb_block_dec kek) n)
      by (done || destruct Hn; lia).
    rewrite (proj2 (Hraw _ ltac:(lia))) by eauto.
    pose proof (unwrap_outer_ok AES_decrypt kek n 6 (6 * Z.of_nat n) _
      ltac:(destruct Hn; lia) Hok) as (HA & _ & HR & _).
    destruct (unwrap_outer _ _ _ _ _ _) as [A R]. cbn [fst snd default] in *. unfold id.
    change Wrap128.default_iv with Cryspr.default_iv.
    destruct (decide (A = Cryspr.default_iv)); [|by case_match].
    by rewrite HR, u32_small by lia; replace (Z.of_nat (8 * n)) with L by lia; rewrite Z.eqb_refl.
  - replace (Z.land L 0x7 =? 0) with false by lia. cbn [negb].
    destruct (crypto_128_unwrap_raw AES_decrypt kek c) as [st|]; [exfalso|by case_match].
    destruct (proj1 (Hraw st ltac:(lia)) eq_refl) as (n & _ & Hln & _). apply H7.
    change 7 with (Z.ones 3). rewrite Z.land_ones by lia.
    replace L with (Z.of_nat n * 2 ^ 3) by (unfold L; lia). by apply Z.mod_mul.
Qed.

(** ** The fallback counter stream *)
Lemma ctr_stream_inc_eq c :
  length c = 16%nat → are_bytes c → be_val (drop 14 c) + 1 < 2 ^ 16 →
  ctr_stream_inc c = ctr128_inc c.
Proof.
  intros Hl Hb Hlt. apply be_val_inj; [unfold ctr_stream_inc; case_match; len| |auto with bytes|].
  { unfold ctr_stream_inc. case_match; auto 10 with bytes. }
  rewrite ctr128_inc_val by done.
  assert (Hc : c = take 14 c ++ [c !!! 14%nat; c !!! 15%nat]).
  { rewrite <- (take_drop 14 c) at 1. f_equal.
    do 16 (destruct c as [|? c]; [done|]). by destruct c. }
  assert (H14 : is_byte (c !!! 14%nat) ∧ is_byte (c !!! 15%nat)) by auto with bytes.
  assert (Ht : length (take 14 c) = 14%nat) by len.
  pose proof (be_val_bounds (take 14 c) ltac:(auto with bytes)) as Hbt. rewrite Ht in Hbt.
  assert (Hv : be_val c = be_val (take 14 c) * 2 ^ 16 + (c !!! 14%nat * 2 ^ 8 + c !!! 15%nat)).
  { rewrite Hc at 1. rewrite be_val_app. f_equal.
    change [c !!! 14%nat; c !!! 15%nat] with ([c !!! 14%nat] ++ [c !!! 15%nat]).
    by rewrite be_val_snoc, be_val_single. }
  assert (Hd : be_val (drop 14 c) = c !!! 14%nat * 2 ^ 8 + c !!! 15%nat).
  { rewrite Hc at 1. rewrite drop_app_length' by done.
    change [c !!! 14%nat; c !!! 15%nat] with ([c !!! 14%nat] ++ [c !!! 15%nat]).
    by rewrite be_val_snoc, be_val_single. }
  rewrite Hv. destruct H14 as [H14 H15]. unfold is_byte in H14, H15. change (8 * Z.of_nat 14) with 112 in Hbt.
  rewrite Z.mod_small by lia.
  set (x := c !!! 14%nat) in *. set (y := c !!! 15%nat) in *. set (p := take 14 c) in *.
  assert (Hs : ctr_stream_inc c = p ++ (if u8 (y + 1) =? 0 then [u8 (x + 1); u8 (y + 1)]
                                         else [x; u8 (y + 1)])).
  { unfold ctr_stream_inc. fold y. rewrite Hc.
    rewrite insert_app_r_alt by lia. rewrite Ht. change (15 - 14)%nat with 1%nat. cbn [insert list_insert].
    rewrite lookup_total_app_r by lia. rewrite Ht.
    destruct (_ =? _); [|done]. rewrite insert_app_r_alt by lia. by rewrite Ht. }
  rewrite Hs, be_val_app. unfold u8.
  assert (Hp2 : ∀ a b, be_val [a; b] = a * 2 ^ 8 + b).
  { intros a b. change [a; b] with ([a] ++ [b]). by rewrite be_val_snoc, be_val_single. }
  destruct (decide (y = 255)) as [->|Hy].
  - change (255 + 1) with (2 ^ 8). rewrite Z.mod_same by lia. cbn [Z.eqb].
    rewrite Hp2, Z.mod_small by lia. cbn [length]. lia.
  - rewrite (Z.mod_small (y + 1)) by lia. rewrite (proj2 (Z.eqb_neq _ _)) by lia.
    rewrite Hp2. cbn [length]. lia.
Qed.

(** Encrypting the counter stream gives the key stream. *)
Lemma ctr_stream_keystream k n iv :
  Block128 AES_encrypt k → iv_ok iv → be_val (drop 14 iv) + Z.of_nat n <= 2 ^ 16 →
  length (ctr_stream_blocks n iv) = (16 * n)%nat ∧
  ecb_blocks AES_encrypt k n (ctr_stream_blocks n iv) = ctr_keystream AES_encrypt k iv n.
Proof.
  intros Hk. revert iv. induction n as [|n IH]; intros iv [Hl Hb] Hlt; [done|].
  cbn [ctr_stream_blocks ecb_blocks].
  rewrite length_app, Hl, take_app_length', drop_app_length' by done.
  rewrite ctr_keystream_S. destruct n as [|n].
  { split; [done|]. done. }
  assert (Hinc : ctr_stream_inc iv = ctr128_inc iv) by (apply ctr_stream_inc_eq; done || lia).
  rewrite Hinc. destruct (IH (ctr128_inc iv)) as [-> ->];
    [split; [len|auto with bytes]| |split; [lia|done]].
  rewrite be_val_drop in Hlt |- * by auto with bytes. rewrite length_ctr128_inc, Hl in *.
  change (8 * Z.of_nat (16 - 14)) with 16 in *.
  assert (Hdvd : (2 ^ 16 | 2 ^ 128)) by (exists (2 ^ 112); lia).
  rewrite ctr128_inc_val, Z.mod_mod_divide by done.
  rewrite mod_add_1; lia.
Qed.

(** ** Packets *)

(** The IV of a packet. *)
Definition packet_iv (ctx : hcrypt_Ctx) (pfx : bytes) : bytes :=
  hcrypt_SetCtrIV (le_bytes 4 (hcryptMsg_SRT_GetPki pfx true)) (salt ctx).

(** Encryption and decryption of packets change only the output buffer. *)
Definition cb_same (cb cb' : cb_t) : Prop :=
  aes_kek cb' = aes_kek cb ∧ aes_sek cb' = aes_sek cb ∧ outbuf_siz cb' = outbuf_siz cb.

Lemma GetOutbuf_spec (cb : cb_t) (p n : nat) ofs cb' :
  cb_ok cb → Z.of_nat (p + n) < 2 ^ 63 →
  _crysprFallback_GetOutbuf cb (Z.of_nat p) (Z.of_nat n) = (ofs, cb') →
  cb_same cb cb' ∧ outbuf cb' = outbuf cb ∧
  ((ofs + p + n <= length (outbuf cb))%nat ↔ Z.of_nat (p + n) <= outbuf_siz cb) ∧
  (Z.of_nat (p + n) <= outbuf_siz cb → cb_ok cb').
Proof.
  intros (Hs & Hl & Ho & Hsz) Hlt. unfold _crysprFallback_GetOutbuf.
  rewrite !(u64_small (_ - _)), (u64_small (Z.of_nat p + _)) by lia.
  destruct (_ <? _) eqn:Hw; intros [<- <-]%pair_equal_spec; simpl.
  - rewrite u64_small by lia. split_and!; try done; [lia|]. intros. split_and!; simpl; done || lia.
  - rewrite u64_small by lia. split_and!; try done; [lia|]. intros. split_and!; simpl; done || lia.
Qed.

Lemma packet_iv_ok ctx pfx :
  length (salt ctx) = 16%nat → are_bytes (salt ctx) → iv_ok (packet_iv ctx pfx).
Proof. intros. apply SetCtrIV_ok; [len|auto with bytes|done]. Qed.

Lemma out_write_ok (cb : cb_t) ofs b :
  (ofs + length b <= length (outbuf cb))%nat →
  ∃ cb', out_write cb ofs b = Some cb' ∧ outbuf cb' = memcpy (outbuf cb) ofs b ∧
    cb_same cb cb' ∧ outbuf_ofs cb' = outbuf_ofs cb.
Proof.
  intros Hl. unfold out_write. rewrite (proj2 (Nat.leb_le _ _)) by done. by eexists.
Qed.
Lemma out_write_none (cb : cb_t) ofs b :
  (length (outbuf cb) < ofs + length b)%nat → out_write cb ofs b = None.
Proof. intros Hl. unfold out_write. by rewrite (proj2 (Nat.leb_gt _ _)). Qed.

(** Writing the payload and then the prefix in front of it. *)
Lemma out_write2 (cb : cb_t) ofs p (h b : bytes) :
  length h = p → (ofs + p + length b <= length (outbuf cb))%nat →
  ∃ cb1 cb2, out_write cb (ofs + p) b = Some cb1 ∧ out_write cb1 ofs h = Some cb2 ∧
    cb_same cb cb2 ∧ outbuf_ofs cb2 = outbuf_ofs cb ∧ length (outbuf cb2) = length (outbuf cb) ∧
    outbuf cb2 = memcpy (outbuf cb) ofs (h ++ b).
Proof.
  intros Hh Hl. destruct (out_write_ok cb (ofs + p) b) as (cb1 & H1 & Ho1 & (Hk1 & Hs1 & Hz1) & Hf1); [lia|].
  destruct (out_write_ok cb1 ofs h) as (cb2 & H2 & Ho2 & (Hk2 & Hs2 & Hz2) & Hf2).
  { rewrite Ho1, length_memcpy; lia. }
  exists cb1, cb2. split_and!; try done; try congruence.
  - split_and!; congruence.
  - rewrite Ho2, Ho1. rewrite !length_memcpy; [done|lia|rewrite length_memcpy; lia].
  - rewrite Ho2, Ho1. unfold memcpy. rewrite take_app_le by len. rewrite take_take, Nat.min_l by lia.
    f_equal. rewrite <- app_assoc. f_equal. rewrite Hh, drop_app_ge by len.
    rewrite length_take, Nat.min_l, Nat.sub_diag, drop_0 by lia.
    do 2 f_equal. len.
Qed.

Lemma memcpy_read_at dst ofs src n m :
  (ofs + length src <= length dst)%nat → (n + m <= length src)%nat →
  take m (drop (ofs + n) (memcpy dst ofs src)) = take m (drop n src).
Proof.
  intros Hl Hn. unfold memcpy. rewrite drop_app_ge by len.
  rewrite length_take, Nat.min_l by lia. replace (ofs + n - ofs)%nat with n by lia.
  rewrite drop_app_le by lia. by rewrite take_app_le by len.
Qed.

Section packet.
Context (ctx : hcrypt_Ctx) (pfx : bytes) (k : AES_KEY).
Context (Hmi : msg_info ctx = Some hcryptMsg_SRT_MsgInfo).
Context (Hmode : mode ctx = HCRYPT_CTX_MODE_AESCTR).
Context (Hk : Block128 AES_encrypt k).
Context (Hsl : length (salt ctx) = 16%nat) (Hsb : are_bytes (salt ctx)).

Lemma MsEncrypt_spec cb payload out_p :
  cb_ok cb → aes_sek cb !! hcryptCtx_GetKeyIndex ctx = Some (Some k) →
  (16 <= length pfx)%nat → are_bytes payload → (0 < length payload)%nat →
  Z.of_nat (16 + length payload) <= outbuf_siz cb →
  let c := CtrCipher k (packet_iv ctx pfx) payload in
  ∃ cb' ofs,
    crysprFallback_MsEncrypt v little aligned cb ctx pfx payload out_p =
      Some {| ms_ret := 0; ms_cb := cb'; ms_pfx := pfx;
              ms_payload := if out_p then payload else c;
              ms_out := if out_p then Some (ofs, 16 + length payload)%nat else None |} ∧
    cb_ok cb' ∧ cb_same cb cb' ∧
    out_read cb' ofs (16 + length payload) = take 16 pfx ++ c.
Proof using All.
  intros Hcb Hkey Hpl Hpb Hpos Hfit c. unfold crysprFallback_MsEncrypt. rewrite Hmi.
  cbn [mbind option_bind]. change (pfx_len hcryptMsg_SRT_MsgInfo) with 16%nat.
  destruct (_crysprFallback_GetOutbuf _ _ _) as [ofs cb1] eqn:Hget.
  pose proof (proj2 (proj2 (proj2 Hcb))) as Hsz.
  apply GetOutbuf_spec in Hget as ((Hs1 & Hs2 & Hs3) & Hob & Hin & Hok); [|done|lia].
  specialize (Hok ltac:(lia)). apply proj2 in Hin. specialize (Hin ltac:(lia)).
  rewrite Hmode. cbn [Z.eqb HCRYPT_CTX_MODE_AESCTR Pos.eqb].
  rewrite Hs2, Hkey. cbn [mjoin option_join mbind option_bind].
  change (getPki hcryptMsg_SRT_MsgInfo) with hcryptMsg_SRT_GetPki. fold (packet_iv ctx pfx). fold c.
  assert (Hc : length c = length payload) by (by apply length_CtrCipher; [|apply packet_iv_ok|]).
  assert (Hh : length (take 16 pfx) = 16%nat) by len.
  destruct (out_write2 cb1 ofs 16 (take 16 pfx) c Hh) as (cb2 & cb3 & -> & H3 & (Hk3 & Hs3' & Hz3) & Hf3 & Hl3 & Ho3).
  { rewrite Hob. lia. }
  cbn [mbind option_bind]. rewrite H3. cbn [mbind option_bind].
  rewrite (proj2 (Nat.ltb_lt _ _)) by done. cbn [Nat.ltb Nat.leb].
  assert (Hfit3 : (ofs + length (take 16 pfx ++ c) <= length (outbuf cb1))%nat) by (rewrite Hob; len).
  assert (Hread : ∀ n m, (n + m <= 16 + length c)%nat →
    out_read cb3 (ofs + n) m = take m (drop n (take 16 pfx ++ c))).
  { intros n m Hnm. unfold out_read. rewrite Ho3. apply memcpy_read_at; [done|len]. }
  assert (Hok3 : cb_ok cb3).
  { destruct Hok as (? & ? & ? & ?). split_and!; [congruence|congruence|lia..]. }
  assert (Hall : out_read cb3 ofs (16 + length payload) = take 16 pfx ++ c).
  { rewrite <- (Nat.add_0_r ofs), Hread by lia. rewrite drop_0. apply take_ge. len. }
  destruct out_p; cbn [negb].
  - assert (Hw : (ofs + length (take 16 pfx) <= length (outbuf cb3))%nat) by (rewrite Hl3; len).
    destruct (out_write_ok cb3 ofs (take 16 pfx) Hw) as (cb4 & -> & Ho4 & (Hk4 & Hs4 & Hz4) & Hf4).
    cbn [mbind option_bind]. exists cb4, ofs. split; [done|].
    assert (Hsame : outbuf cb4 = outbuf cb3).
    { rewrite Ho4, Ho3. unfold memcpy. rewrite Hh, take_app_le by len.
      rewrite take_take, Nat.min_id. f_equal. rewrite <- !app_assoc. f_equal.
      rewrite drop_app_ge by len. rewrite length_take, Nat.min_l by len.
      replace (ofs + 16 - ofs)%nat with 16%nat by lia. by rewrite drop_app_length'. }
    split_and!; [|split_and!; congruence|].
    + destruct Hok3 as (? & ? & ? & ?). split_and!; [congruence|congruence|lia..].
    + unfold out_read. rewrite Hsame. apply Hall.
  - exists cb3, ofs. split; [|split_and!; [done|split_and!; congruence|done]].
    do 2 f_equal.
    + rewrite <- (Nat.add_0_r ofs), Hread by lia. rewrite drop_0, take_app_length' by done.
      unfold memcpy. rewrite Hh, take_0. by rewrite app_nil_l, take_drop.
    + rewrite Hread by lia. rewrite drop_app_length' by done. by apply take_ge; lia.
Qed.

Lemma MsDecrypt_spec cb payload out_p :
  cb_ok cb → aes_sek cb !! hcryptCtx_GetKeyIndex ctx = Some (Some k) →
  are_bytes payload → (0 < length payload)%nat →
  Z.of_nat (length payload) <= outbuf_siz cb →
  let c := CtrCipher k (packet_iv ctx pfx) payload in
  ∃ cb' ofs,
    crysprFallback_MsDecrypt v little aligned cb ctx pfx payload out_p =
      Some {| ms_ret := 0; ms_cb := cb'; ms_pfx := pfx;
              ms_payload := if out_p then payload else c;
              ms_out := if out_p then Some (ofs, length payload)%nat else None |} ∧
    cb_ok cb' ∧ cb_same cb cb' ∧ out_read cb' ofs (length payload) = c.
Proof using All.
  intros Hcb Hkey Hpb Hpos Hfit c. unfold crysprFallback_MsDecrypt.
  destruct (_crysprFallback_GetOutbuf _ _ _) as [ofs cb1] eqn:Hget.
  pose proof (proj2 (proj2 (proj2 Hcb))) as Hsz.
  apply (GetOutbuf_spec cb 0) in Hget as ((Hs1 & Hs2 & Hs3) & Hob & Hin & Hok); [|done|lia].
  specialize (Hok ltac:(lia)). apply proj2 in Hin. specialize (Hin ltac:(lia)).
  rewrite Hmode, Hmi. cbn [Z.eqb HCRYPT_CTX_MODE_AESCTR Pos.eqb mbind option_bind].
  rewrite Hs2, Hkey. cbn [mjoin option_join mbind option_bind].
  change (getPki hcryptMsg_SRT_MsgInfo) with hcryptMsg_SRT_GetPki. fold (packet_iv ctx pfx). fold c.
  assert (Hc : length c = length payload) by (by apply length_CtrCipher; [|apply packet_iv_ok|]).
  destruct (out_write_ok cb1 ofs c) as (cb2 & -> & Ho2 & (Hk2 & Hs2' & Hz2) & Hf2);
    [rewrite Hob; lia|].
  cbn [mbind option_bind]. rewrite (proj2 (Nat.ltb_lt _ _)) by done.
  assert (Hread : out_read cb2 ofs (length payload) = c).
  { unfold out_read. rewrite Ho2, <- Hc. apply memcpy_read. rewrite Hob. lia. }
  assert (Hok2 : cb_ok cb2).
  { destruct Hok as (? & Hlo & ? & ?). split_and!; [congruence| |lia..].
    rewrite Ho2, length_memcpy; [congruence|rewrite Hob; lia]. }
  exists cb2, ofs. destruct out_p; cbn [negb]; rewrite ?Hread.
  all: split; [done|split_and!; [done|split_and!; congruence|done]].
Qed.

(** A packet that does not fit overruns the output buffer. *)
Lemma MsEncrypt_overrun cb payload out_p :
  cb_ok cb → are_bytes payload → (16 <= length pfx)%nat →
  aes_sek cb !! hcryptCtx_GetKeyIndex ctx = Some (Some k) →
  outbuf_siz cb < Z.of_nat (16 + length payload) < 2 ^ 63 →
  crysprFallback_MsEncrypt v little aligned cb ctx pfx payload out_p = None.
Proof using All.
  intros Hcb Hpb Hpl Hkey Hfit. unfold crysprFallback_MsEncrypt. rewrite Hmi.
  cbn [mbind option_bind]. change (pfx_len hcryptMsg_SRT_MsgInfo) with 16%nat.
  destruct (_crysprFallback_GetOutbuf _ _ _) as [ofs cb1] eqn:Hget.
  apply GetOutbuf_spec in Hget as ((Hs1 & Hs2 & Hs3) & Hob & Hin & _); [|done|lia].
  rewrite Hmode. cbn [Z.eqb HCRYPT_CTX_MODE_AESCTR Pos.eqb].
  rewrite Hs2, Hkey. cbn [mjoin option_join mbind option_bind].
  change (getPki hcryptMsg_SRT_MsgInfo) with hcryptMsg_SRT_GetPki. fold (packet_iv ctx pfx).
  rewrite out_write_none; [done|].
  rewrite length_CtrCipher by (done || by apply packet_iv_ok). rewrite Hob. lia.
Qed.
End packet.

(** The IV only depends on the packet index and the salt. *)
Lemma packet_iv_salt ctx ctx' pfx : salt ctx' = salt ctx → packet_iv ctx' pfx = packet_iv ctx pfx.
Proof. intros H. unfold packet_iv. by rewrite H. Qed.

(** ** Keys *)
Lemma Open_ok mem max_len :
  (∀ n, length (mem n) = n) → 0 < max_len < 2 ^ 59 →
  let cb := crysprFallback_Open mem max_len : cb_t in
  cb_ok cb ∧ max_len + 16 <= outbuf_siz cb.
Proof.
  intros Hmem Hmax. simpl.
  assert (Hp : max_len <= hcryptMsg_PaddedLen max_len 16 < max_len + 16 ∧
    16 <= hcryptMsg_PaddedLen max_len 16).
  { unfold hcryptMsg_PaddedLen. rewrite (u64_small (_ - 1)) by lia.
    pose proof (Z.div_mod (max_len + 16 - 1) 16). pose proof (Z.mod_pos_bound (max_len + 16 - 1) 16).
    rewrite u64_small; lia. }
  assert (Hsz : u64 (CRYSPR_OUTMSGMAX * hcryptMsg_PaddedLen max_len 16) =
    6 * hcryptMsg_PaddedLen max_len 16) by (apply u64_small; unfold CRYSPR_OUTMSGMAX; lia).
  rewrite Hsz. split; [|lia]. unfold cb_ok. simpl. rewrite Hsz.
  split_and!; [done|apply Hmem|lia..].
Qed.
End cryspr_facts.
