(* ===== verification/ToyCipher.v ===== *)
(** * A block cipher for concrete runs

    The theorems on HaiCrypt and on the modes hold for any block cipher with
    the laws of [AesLibOk].  This small one (reverse the block after adding
    the key) has them, so that the theorems can be applied to closed inputs
    and the definitions evaluated. *)
From S2P Require Import Prelude StreamMode Ctr128 CfbOfb128 Cbc128 Wrap128 HcMsg HcCtx Cryspr.

Definition toy_key : Type := bytes.
Definition toy_enc (b : bytes) (k : toy_key) : bytes := reverse (xor_bytes b k).
Definition toy_dec (b : bytes) (k : toy_key) : bytes := xor_bytes (reverse b) k.
Definition toy_set_key (str : bytes) (bits : Z) : option toy_key :=
  if (bits =? 128) || (bits =? 192) || (bits =? 256)
  then Some (take 16 (map u8 str ++ replicate 16 0)) else None.

#[export] Instance toy_aes : AesLib toy_key := {
  AES_set_encrypt_key := toy_set_key;
  AES_set_decrypt_key := toy_set_key;
  AES_encrypt := toy_enc;
  AES_decrypt := toy_dec;
  PKCS5_PBKDF2_HMAC_SHA1 := λ pwd salt _ n, Some (take n (map u8 (pwd ++ salt) ++ replicate n 0));
}.

Definition key_ok (k : toy_key) : Prop := length k = 16%nat ∧ are_bytes k.

Lemma are_bytes_map_u8 l : are_bytes (map u8 l).
Proof. apply Forall_map, Forall_true. intros x. apply u8_is_byte. Qed.

Lemma toy_padded l n : length (take n (map u8 l ++ replicate n 0)) = n ∧
  are_bytes (take n (map u8 l ++ replicate n 0)).
Proof.
  split; [rewrite length_take, length_app, length_replicate; lia|].
  apply are_bytes_take, are_bytes_app. split; [apply are_bytes_map_u8|].
  apply are_bytes_replicate. by unfold is_byte.
Qed.

Lemma toy_set_key_ok str bits k : toy_set_key str bits = Some k → key_ok k.
Proof.
  unfold toy_set_key. destruct (_ || _); [|done]. intros [= <-]. apply toy_padded.
Qed.

Lemma toy_enc_block k : key_ok k → Block128 toy_enc k.
Proof.
  intros [Hl Hb]. split; intros b Hbl; unfold toy_enc.
  - rewrite length_reverse. len.
  - intros Hbb. by apply are_bytes_reverse, are_bytes_xor.
Qed.
Lemma toy_dec_block k : key_ok k → Block128 toy_dec k.
Proof.
  intros [Hl Hb]. split; intros b Hbl; unfold toy_dec.
  - rewrite length_xor_bytes, length_reverse. lia.
  - intros Hbb. apply are_bytes_xor; [by apply are_bytes_reverse|done].
Qed.
Lemma toy_inverse k : key_ok k → BlockInverse toy_enc k toy_dec k ∧ BlockInverse toy_dec k toy_enc k.
Proof.
  intros [Hl Hb]. split; intros b Hbl Hbb; unfold toy_enc, toy_dec.
  - rewrite reverse_involutive. apply xor_bytes_cancel. lia.
  - rewrite xor_bytes_cancel by (rewrite length_reverse; lia). apply reverse_involutive.
Qed.

#[export] Instance toy_aes_ok : AesLibOk toy_key.
Proof.
  split.
  - intros str Hl _. cbn [AES_set_encrypt_key AES_set_decrypt_key toy_aes]. unfold toy_set_key.
    destruct Hl as [->|[->| ->]]; simpl; eauto.
  - intros str bits k H. eapply toy_enc_block, toy_set_key_ok, H.
  - intros str bits k H. eapply toy_dec_block, toy_set_key_ok, H.
  - intros str bits ek dk H1 H2. cbn in H1, H2. rewrite H1 in H2. apply (inj Some) in H2 as <-.
    eapply toy_inverse, toy_set_key_ok, H1.
  - intros pwd salt itr n. eexists. split; [reflexivity|]. apply toy_padded.
Qed.

(** Concrete inputs shared by the examples. *)
Definition key1 : toy_key := [1; 2; 3; 4; 5; 6; 7; 8; 9; 10; 11; 12; 13; 14; 15; 200].
Definition iv1 : bytes := [9; 8; 7; 6; 5; 4; 3; 2; 1; 0; 255; 254; 253; 252; 255; 255].
Definition msg1 : bytes := [72; 101; 108; 108; 111; 44; 32; 119; 111; 114; 108; 100; 33; 0; 255; 128; 7; 7; 7].

Lemma key1_ok : key_ok key1.
Proof. split; [done|]. by repeat constructor. Qed.
#[export] Instance key1_enc : Block128 toy_enc key1.
Proof. apply toy_enc_block, key1_ok. Qed.
#[export] Instance key1_dec : Block128 toy_dec key1.
Proof. apply toy_dec_block, key1_ok. Qed.
