(* ===== verification/HcSession.v ===== *)
(** * Crypto sessions and keying: haicrypt/hcrypt.h, hcrypt_sa.c,
    hcrypt_ctx_tx.c

    A session is explicit state, threaded through a state monad whose failure
    is a failed [ASSERT] or undefined behaviour (a NULL or foreign pointer
    followed, a key schedule used before it is set, a buffer overrun).  The
    random generator and the clock are arguments of the operations. *)
From S2P Require Import Prelude StreamMode Ctr128 CfbOfb128 Cbc128 Wrap128 HcMsg HcCtx Cryspr.

(** The two contexts of [ctx_pair]. *)
Inductive side := Even | Odd.
#[export] Instance side_dec : EqDecision side.
Proof. solve_decision. Defined.
(** [ctx->alt] *)
Definition alt (sd : side) : side := match sd with Even => Odd | Odd => Even end.
(** [&ctx_pair[i]] *)
Definition side_of (i : Z) : side := if i =? 0 then Even else Odd.

(** [crypto->ctx]: NULL, a context of the session itself, or, in a session
    copied by [memcpy] from another one, a context of that other session. *)
Inductive ctx_ptr := NullCtx | OwnCtx (sd : side) | SrcCtx (sd : side).

(** [struct timeval] *)
Definition timeval : Type := Z * Z.
Definition timerisset (t : timeval) : bool := negb ((t.1 =? 0) && (t.2 =? 0)).
Definition timeradd (a b : timeval) : timeval :=
  let sec := a.1 + b.1 in
  let usec := a.2 + b.2 in
  if 1000000 <=? usec then (sec + 1, usec - 1000000) else (sec, usec).
(** [timercmp(a, b, >)] *)
Definition timer_gt (a b : timeval) : bool := if a.1 =? b.1 then b.2 <? a.2 else b.1 <? a.1.

Record hcrypt_Session (AES_KEY : Type) := {
  ctx_pair0 : hcrypt_Ctx;
  ctx_pair1 : hcrypt_Ctx;
  cur : ctx_ptr;
  cryspr_cb : CRYSPR_cb AES_KEY;
  inbuf_siz : Z;
  se : Z;
  ses_msg_info : hcrypt_MsgInfo;
  data_max_len : Z;
  tx_period : timeval;
  tx_last : timeval;
  refresh_rate : Z;
  pre_announce : Z;
}.
Arguments ctx_pair0 {_}. Arguments ctx_pair1 {_}. Arguments cur {_}. Arguments cryspr_cb {_}.
Arguments inbuf_siz {_}. Arguments se {_}. Arguments ses_msg_info {_}. Arguments data_max_len {_}.
Arguments tx_period {_}. Arguments tx_last {_}. Arguments refresh_rate {_}.
Arguments pre_announce {_}.

(** [HaiCrypt_Secret], [HaiCrypt_Cfg] *)
Definition HAICRYPT_SECTYP_PRESHARED : Z := 1.
Definition HAICRYPT_SECTYP_PASSPHRASE : Z := 2.
Record HaiCrypt_Secret := { typ : Z; len : nat; str : bytes }.
Definition HAICRYPT_CFG_F_TX : Z := 1.
Definition HAICRYPT_CFG_F_CRYPTO : Z := 2.
Definition HAICRYPT_XPT_SRT : Z := 1.
Record HaiCrypt_Cfg := {
  cfg_flags : Z;
  cfg_secret : HaiCrypt_Secret;
  cfg_cryspr : bool;   (* not NULL *)
  cfg_key_len : nat;
  cfg_data_max_len : Z;
  cfg_xport : Z;
  km_tx_period_ms : Z;
  km_refresh_rate_pkt : Z;
  km_pre_announce_pkt : Z;
}.

(** ** The monad *)
Declare Scope hc_scope.
Delimit Scope hc_scope with hc.

Section monad.
Context {K : Type}.
Local Abbreviation ses := (hcrypt_Session K).

Definition M (A : Type) : Type := ses → option (A * ses).
Definition ret {A} (x : A) : M A := λ s, Some (x, s).
Definition bind {A B} (m : M A) (f : A → M B) : M B :=
  λ s, match m s with Some (x, s') => f x s' | None => None end.
(** [ASSERT(b)], or a condition of defined behaviour *)
Definition assert (b : bool) : M unit := λ s, if b then Some (tt, s) else None.
Definition gets {A} (f : ses → A) : M A := λ s, Some (f s, s).
(** Following a pointer, or using a result that must be there. *)
Definition deref {A} (o : option A) : M A := λ s, option_map (λ x, (x, s)) o.

Definition get_ctx (sd : side) (s : ses) : hcrypt_Ctx :=
  match sd with Even => ctx_pair0 s | Odd => ctx_pair1 s end.
Definition upd_ctx (sd : side) (f : hcrypt_Ctx → hcrypt_Ctx) (s : ses) : ses :=
  {| ctx_pair0 := match sd with Even => f (ctx_pair0 s) | Odd => ctx_pair0 s end;
     ctx_pair1 := match sd with Even => ctx_pair1 s | Odd => f (ctx_pair1 s) end;
     cur := cur s; cryspr_cb := cryspr_cb s; inbuf_siz := inbuf_siz s; se := se s;
     ses_msg_info := ses_msg_info s; data_max_len := data_max_len s; tx_period := tx_period s;
     tx_last := tx_last s; refresh_rate := refresh_rate s; pre_announce := pre_announce s |}.
Definition set_cur (p : ctx_ptr) (s : ses) : ses :=
  {| ctx_pair0 := ctx_pair0 s; ctx_pair1 := ctx_pair1 s; cur := p; cryspr_cb := cryspr_cb s;
     inbuf_siz := inbuf_siz s; se := se s; ses_msg_info := ses_msg_info s;
     data_max_len := data_max_len s; tx_period := tx_period s; tx_last := tx_last s;
     refresh_rate := refresh_rate s; pre_announce := pre_announce s |}.
Definition set_cb (cb : CRYSPR_cb K) (s : ses) : ses :=
  {| ctx_pair0 := ctx_pair0 s; ctx_pair1 := ctx_pair1 s; cur := cur s; cryspr_cb := cb;
     inbuf_siz := inbuf_siz s; se := se s; ses_msg_info := ses_msg_info s;
     data_max_len := data_max_len s; tx_period := tx_period s; tx_last := tx_last s;
     refresh_rate := refresh_rate s; pre_announce := pre_announce s |}.
Definition set_tx_last (t : timeval) (s : ses) : ses :=
  {| ctx_pair0 := ctx_pair0 s; ctx_pair1 := ctx_pair1 s; cur := cur s; cryspr_cb := cryspr_cb s;
     inbuf_siz := inbuf_siz s; se := se s; ses_msg_info := ses_msg_info s;
     data_max_len := data_max_len s; tx_period := tx_period s; tx_last := t;
     refresh_rate := refresh_rate s; pre_announce := pre_announce s |}.

Definition modify (f : ses → ses) : M unit := λ s, Some (tt, f s).
Definition getc (sd : side) : M hcrypt_Ctx := gets (get_ctx sd).
Definition modc (sd : side) (f : hcrypt_Ctx → hcrypt_Ctx) : M unit := modify (upd_ctx sd f).
(** The current context; NULL and foreign pointers are not followed. *)
Definition get_cur : M side :=
  λ s, match cur s with OwnCtx sd => Some (sd, s) | _ => None end.
End monad.

Notation "x <- m ;; k" := (bind m (λ x, k))
  (at level 100, m at next level, right associativity) : hc_scope.
Notation "m ;;; k" := (bind m (λ _, k)) (at level 100, right associativity) : hc_scope.
Open Scope hc_scope.

Section session.
Context {AES_KEY : Type} `{!AesLib AES_KEY}.
Local Abbreviation ses := (hcrypt_Session AES_KEY).
Local Abbreviation M := (@M AES_KEY).

(** [cryspr->km_setkey], [cryspr->ms_setkey]: 0 or -1. *)
Definition km_setkey (bWrap : bool) (kek : bytes) : M Z :=
  cb <- gets cryspr_cb ;;
  match crysprFallback_KmSetKey cb bWrap kek with
  | None => ret (-1)
  | Some cb' => modify (set_cb cb') ;;; ret 0
  end.
Definition ms_setkey (sd : side) (key : bytes) : M Z :=
  cb <- gets cryspr_cb ;;
  ctx <- getc sd ;;
  match crysprFallback_MsSetKey cb ctx key with
  | None => ret (-1)
  | Some cb' => modify (set_cb cb') ;;; ret 0
  end.

(** ** hcrypt_sa.c *)
Definition hcryptCtx_SetSecret (sd : side) (secret : HaiCrypt_Secret) : M Z :=
  if typ secret =? HAICRYPT_SECTYP_PRESHARED then
    assert (len secret <=? HAICRYPT_KEY_MAX_SZ)%nat ;;;
    modc sd (λ c, set_pwd 0 (pwd c) c) ;;;
    ctx <- getc sd ;;
    iret <- km_setkey (has_flag HCRYPT_CTX_F_ENCRYPT ctx) (take (len secret) (str secret)) ;;
    if iret <? 0 then ret (-1)
    else modc sd (set_status HCRYPT_CTX_S_SARDY) ;;; ret 0
  else if typ secret =? HAICRYPT_SECTYP_PASSPHRASE then
    assert (len secret <=? HAICRYPT_PWD_MAX_SZ)%nat ;;;
    modc sd (λ c, set_pwd (len secret) (memcpy (pwd c) 0 (take (len secret) (str secret))) c) ;;;
    modc sd (set_status HCRYPT_CTX_S_SARDY) ;;;
    ret 0
  else ret (-1).

Definition hcryptCtx_GenSecret (sd : side) : M Z :=
  ctx <- getc sd ;;
  let kek_len := sek_len ctx in
  let pbkdf_salt_len :=
    if (HAICRYPT_PBKDF2_SALT_LEN <=? salt_len ctx)%nat then HAICRYPT_PBKDF2_SALT_LEN
    else salt_len ctx in
  assert (kek_len <=? HAICRYPT_KEY_MAX_SZ)%nat ;;;
  match crysprOpenSSL_KmPbkdf2 (take (pwd_len ctx) (pwd ctx))
          (take pbkdf_salt_len (drop (salt_len ctx - pbkdf_salt_len) (salt ctx)))
          HAICRYPT_PBKDF2_ITER_CNT kek_len with
  | None => ret (-1)
  | Some kek =>
      iret <- km_setkey (has_flag HCRYPT_CTX_F_ENCRYPT ctx) kek ;;
      if iret <? 0 then ret (-1) else ret 0
  end.

(** ** hcrypt_ctx_tx.c *)
Definition hcryptCtx_Tx_Init (sd : side) (cfg : HaiCrypt_Cfg) : M Z :=
  modc sd (set_key_len (cfg_key_len cfg)) ;;;
  modc sd (set_mode HCRYPT_CTX_MODE_AESCTR) ;;;
  modc sd (set_status HCRYPT_CTX_S_INIT) ;;;
  mi <- gets ses_msg_info ;;
  modc sd (set_msg_info (Some mi)) ;;;
  iret <- hcryptCtx_SetSecret sd (cfg_secret cfg) ;;
  if negb (iret =? 0) then ret (-1) else ret 0.

(** The message before its keys are wrapped. *)
Definition asm_km_header (mi : hcrypt_MsgInfo) (ctx : hcrypt_Ctx) (se : Z) (sek_cnt msg_len : nat)
    : bytes :=
  let km_msg := memcpy (KMmsg_cache ctx) 0 (replicate msg_len 0) in
  let km_msg := resetCache mi km_msg HCRYPT_MSG_PT_KM
    (if (2 =? sek_cnt)%nat then HCRYPT_MSG_F_xSEK else Z.land (flags ctx) HCRYPT_MSG_F_xSEK) in
  let km_msg := <[HCRYPT_MSG_KM_OFS_CIPHER := HCRYPT_CIPHER_AES_CTR]> km_msg in
  let km_msg := <[HCRYPT_MSG_KM_OFS_AUTH := HCRYPT_AUTH_NONE]> km_msg in
  let km_msg := <[HCRYPT_MSG_KM_OFS_SE := u8 se]> km_msg in
  let km_msg := hcryptMsg_KM_SetSaltLen km_msg (salt_len ctx) in
  let km_msg := hcryptMsg_KM_SetSekLen km_msg (sek_len ctx) in
  memcpy km_msg HCRYPT_MSG_KM_OFS_SALT (take (salt_len ctx) (salt ctx)).

(** Even SEK first in dual SEK KMmsg. *)
Definition asm_km_seks (ctx : hcrypt_Ctx) (alt_sek : option bytes) : bytes :=
  let n := sek_len ctx in
  match alt_sek with
  | None => take n (sek ctx)
  | Some a =>
      if negb (Z.land HCRYPT_MSG_F_eSEK (flags ctx) =? 0) then take n (sek ctx) ++ take n a
      else take n a ++ take n (sek ctx)
  end.

Definition hcryptCtx_Tx_AsmKM (sd : side) (alt_sek : option bytes) : M Z :=
  ctx <- getc sd ;;
  let sek_cnt := match alt_sek with None => 1%nat | Some _ => 2%nat end in
  let msg_len := (HCRYPT_MSG_KM_OFS_SALT + salt_len ctx + sek_len ctx * sek_cnt
                  + HAICRYPT_WRAPKEY_SIGN_SZ)%nat in
  assert ((msg_len <=? length (KMmsg_cache ctx)) && (sek_len ctx <=? HAICRYPT_KEY_MAX_SZ))%nat ;;;
  mi <- deref (msg_info ctx) ;;
  se <- gets se ;;
  let km_msg := asm_km_header mi ctx se sek_cnt msg_len in
  modc sd (set_KMmsg 0 km_msg) ;;;
  cb <- gets cryspr_cb ;;
  wrap <- deref (crysprOpenSSL_KmWrap cb (asm_km_seks ctx alt_sek)) ;;
  match wrap with
  | None => ret (-1)
  | Some w =>
      modc sd (set_KMmsg msg_len (memcpy km_msg (HCRYPT_MSG_KM_OFS_SALT + salt_len ctx) w)) ;;;
      ret 0
  end.

(** What [hcryptCtx_Tx_Rekey] and [hcryptCtx_Tx_CloneKey] do once the salt
    and the SEK are in the context. *)
Definition hcryptCtx_Tx_Keyed (sd : side) : M Z :=
  ctx <- getc sd ;;
  iret <- ms_setkey sd (take (sek_len ctx) (sek ctx)) ;;
  if negb (iret =? 0) then ret (-1) else
  iret <- (if (0 <? pwd_len ctx)%nat then hcryptCtx_GenSecret sd else ret 0) ;;
  if iret <? 0 then ret iret else
  iret <- hcryptCtx_Tx_AsmKM sd None ;;
  if negb (iret =? 0) then ret iret else
  actx <- getc (alt sd) ;;
  (if (HCRYPT_CTX_S_KEYED <=? status actx) && hcryptMsg_KM_HasBothSek (KMmsg_cache actx)
   then hcryptCtx_Tx_AsmKM (alt sd) None else ret 0) ;;;
  mi <- deref (msg_info ctx) ;;
  modc sd (λ c, set_MSpfx (resetCache mi (MSpfx_cache c) HCRYPT_MSG_PT_MS
                             (Z.land (flags c) HCRYPT_CTX_F_xSEK)) c) ;;;
  modc sd (set_pkt_cnt 1) ;;;
  modc sd (set_status HCRYPT_CTX_S_KEYED) ;;;
  ret 0.

(** [rn_salt], [rn_sek]: what [cryspr->prng] writes, [None] when it fails. *)
Definition hcryptCtx_Tx_Rekey (sd : side) (rn_salt rn_sek : option bytes) : M Z :=
  ctx <- getc sd ;;
  assert (HCRYPT_CTX_S_SARDY <=? status ctx) ;;;
  modc sd (λ c, set_salt HAICRYPT_SALT_SZ (salt c) c) ;;;
  match rn_salt with
  | None => ret (-1)
  | Some r1 =>
      modc sd (λ c, set_salt (salt_len c) (memcpy (salt c) 0 (take (salt_len c) r1)) c) ;;;
      modc sd (λ c, set_sek (key_len c) (sek c) c) ;;;
      match rn_sek with
      | None => ret (-1)
      | Some r2 =>
          modc sd (λ c, set_sek (sek_len c) (memcpy (sek c) 0 (take (sek_len c) r2)) c) ;;;
          hcryptCtx_Tx_Keyed sd
      end
  end.

Definition hcryptCtx_Tx_CloneKey (sd : side) (cryptoSrc : ses) : M Z :=
  ctx <- getc sd ;;
  assert (HCRYPT_CTX_S_SARDY <=? status ctx) ;;;
  ctxSrc <- deref (match cur cryptoSrc with
                   | NullCtx => Some (ctx_pair0 cryptoSrc)
                   | OwnCtx sd' => Some (get_ctx sd' cryptoSrc)
                   | SrcCtx _ => None
                   end) ;;
  modc sd (λ c, set_salt (salt_len ctxSrc)
                  (memcpy (salt c) 0 (take (salt_len ctxSrc) (salt ctxSrc))) c) ;;;
  modc sd (λ c, set_sek (sek_len ctxSrc)
                  (memcpy (sek c) 0 (take (sek_len ctxSrc) (sek ctxSrc))) c) ;;;
  hcryptCtx_Tx_Keyed sd.

Definition hcryptCtx_Tx_Refresh (rn_sek : option bytes) : M Z :=
  sd <- get_cur ;;
  ctx <- getc sd ;;
  assert (HCRYPT_CTX_S_ACTIVE =? status ctx) ;;;
  let nsd := alt sd in
  nctx <- getc nsd ;;
  assert (HCRYPT_CTX_S_SARDY <=? status nctx) ;;;
  (* memcpy(&new_ctx->cfg, &ctx->cfg, sizeof(new_ctx->cfg)) *)
  modc nsd (λ c, set_pwd (pwd_len ctx) (pwd ctx) (set_key_len (key_len ctx) c)) ;;;
  modc nsd (λ c, set_salt (salt_len ctx) (memcpy (salt c) 0 (take HAICRYPT_SALT_SZ (salt ctx))) c) ;;;
  modc nsd (λ c, set_sek (key_len c) (sek c) c) ;;;
  match rn_sek with
  | None => ret (-1)
  | Some r =>
      modc nsd (λ c, set_sek (sek_len c) (memcpy (sek c) 0 (take (sek_len c) r)) c) ;;;
      nctx <- getc nsd ;;
      iret <- ms_setkey nsd (take (sek_len nctx) (sek nctx)) ;;
      if negb (iret =? 0) then ret (-1) else
      iret <- hcryptCtx_Tx_AsmKM nsd (Some (sek ctx)) ;;
      if negb (iret =? 0) then ret iret else
      mi <- deref (msg_info nctx) ;;
      modc nsd (λ c, set_MSpfx (resetCache mi (MSpfx_cache c) HCRYPT_MSG_PT_MS
                                  (Z.land (flags c) HCRYPT_MSG_F_xSEK)) c) ;;;
      modc nsd (set_pkt_cnt 0) ;;;
      modc nsd (set_status HCRYPT_CTX_S_KEYED) ;;;
      ret 0
  end.

Definition hcryptCtx_Tx_PreSwitch : M Z :=
  sd <- get_cur ;;
  ctx <- getc sd ;;
  assert (HCRYPT_CTX_S_ACTIVE =? status ctx) ;;;
  actx <- getc (alt sd) ;;
  assert (HCRYPT_CTX_S_KEYED =? status actx) ;;;
  modc (alt sd) (or_flags HCRYPT_CTX_F_ANNOUNCE) ;;;
  modc (alt sd) (or_flags HCRYPT_CTX_F_TTSEND) ;;;
  (if hcryptMsg_KM_HasBothSek (KMmsg_cache actx)
   then modc sd (clear_flags HCRYPT_CTX_F_ANNOUNCE) else ret tt) ;;;
  ret 0.

Definition hcryptCtx_Tx_Switch : M Z :=
  sd <- get_cur ;;
  actx <- getc (alt sd) ;;
  assert (HCRYPT_CTX_S_KEYED <=? status actx) ;;;
  modc sd (set_status HCRYPT_CTX_S_DEPRECATED) ;;;
  modc (alt sd) (set_status HCRYPT_CTX_S_ACTIVE) ;;;
  modc (alt sd) (or_flags HCRYPT_CTX_F_ANNOUNCE) ;;;
  modify (set_cur (OwnCtx (alt sd))) ;;;
  ret 0.

Definition hcryptCtx_Tx_PostSwitch : M Z :=
  sd <- get_cur ;;
  modc (alt sd) (clear_flags HCRYPT_CTX_F_ANNOUNCE) ;;;
  modc (alt sd) (set_status HCRYPT_CTX_S_SARDY) ;;;
  ctx <- getc sd ;;
  (if hcryptMsg_KM_HasBothSek (KMmsg_cache ctx)
   then hcryptCtx_Tx_AsmKM sd None else ret 0) ;;;
  ret 0.

(** [if (ctx->flags & ANNOUNCE) ctx->flags |= TTSEND;] *)
Definition km_remind (sd : side) : M unit :=
  c <- getc sd ;;
  if has_flag HCRYPT_CTX_F_ANNOUNCE c then modc sd (or_flags HCRYPT_CTX_F_TTSEND) else ret tt.

(** Check if it is time to send Keying Material. *)
Definition km_reminder (now : timeval) : M unit :=
  period <- gets tx_period ;;
  last <- gets tx_last ;;
  if timerisset period && timer_gt now (timeradd last period)
  then km_remind Even ;;; km_remind Odd
  else ret tt.

(** Refresh, announce and decommission the keys. *)
Definition km_manage_phase (rn_sek : option bytes) : M Z :=
  sd <- get_cur ;;
  ctx <- getc sd ;;
  actx <- getc (alt sd) ;;
  refresh <- gets refresh_rate ;;
  pre <- gets pre_announce ;;
  if (refresh <? pkt_cnt ctx) || (pkt_cnt ctx =? 0) then
    hcryptCtx_Tx_Switch
  else if (u32 (refresh - pre) <? pkt_cnt ctx) && negb (has_flag HCRYPT_CTX_F_ANNOUNCE actx) then
    hcryptCtx_Tx_Refresh rn_sek ;;;
    hcryptCtx_Tx_PreSwitch
  else if (status actx =? HCRYPT_CTX_S_DEPRECATED) && (pre <? pkt_cnt ctx) then
    hcryptCtx_Tx_PostSwitch
  else ret 0.

(** [rn_sek]: the random generator, [now]: [gettimeofday]. *)
Definition hcryptCtx_Tx_ManageKM (rn_sek : option bytes) (now : timeval) : M Z :=
  km_manage_phase rn_sek ;;;
  km_reminder now ;;;
  ret 0.

(** One turn of the loop of [hcryptCtx_Tx_InjectKM]. *)
Definition km_inject (sd : side) : M (list bytes) :=
  c <- getc sd ;;
  if has_flag HCRYPT_CTX_F_TTSEND c then
    modc sd (clear_flags HCRYPT_CTX_F_TTSEND) ;;;
    ret [take (KMmsg_len c) (KMmsg_cache c)]
  else ret [].

(** The messages put in [out_p]; [nbout] is their number. *)
Definition hcryptCtx_Tx_InjectKM (maxout : Z) (now : timeval) : M (list bytes) :=
  assert (2 <=? maxout) ;;;
  m0 <- km_inject Even ;;
  m1 <- km_inject Odd ;;
  let out := m0 ++ m1 in
  (if (0 <? length out)%nat then modify (set_tx_last now) else ret tt) ;;;
  ret out.
End session.

(** ** Reading the state after an update *)
Lemma alt_alt sd : alt (alt sd) = sd.
Proof. by destruct sd. Qed.
Lemma alt_ne sd : alt sd ≠ sd.
Proof. by destruct sd. Qed.

Section state_facts.
Context {K : Type}.
Implicit Types (s : hcrypt_Session K) (f g : hcrypt_Ctx → hcrypt_Ctx).

Lemma get_upd_eq sd f s : get_ctx sd (upd_ctx sd f s) = f (get_ctx sd s).
Proof. by destruct sd. Qed.
Lemma get_upd_ne sd sd' f s : sd ≠ sd' → get_ctx sd (upd_ctx sd' f s) = get_ctx sd s.
Proof. by destruct sd, sd'. Qed.
Lemma get_alt_upd sd f s : get_ctx (alt sd) (upd_ctx sd f s) = get_ctx (alt sd) s.
Proof. by destruct sd. Qed.
Lemma get_upd_alt sd f s : get_ctx sd (upd_ctx (alt sd) f s) = get_ctx sd s.
Proof. by destruct sd. Qed.
Lemma get_set_cb sd cb s : get_ctx sd (set_cb cb s) = get_ctx sd s.
Proof. by destruct sd. Qed.
Lemma get_set_cur sd p s : get_ctx sd (set_cur p s) = get_ctx sd s.
Proof. by destruct sd. Qed.
Lemma get_set_tx_last sd t s : get_ctx sd (set_tx_last t s) = get_ctx sd s.
Proof. by destruct sd. Qed.
Lemma upd_upd sd f g s : upd_ctx sd f (upd_ctx sd g s) = upd_ctx sd (λ c, f (g c)) s.
Proof. by destruct sd. Qed.
Lemma upd_ext sd f g s : f (get_ctx sd s) = g (get_ctx sd s) → upd_ctx sd f s = upd_ctx sd g s.
Proof. destruct sd; unfold upd_ctx; simpl; by intros ->. Qed.
Lemma upd_id sd f s : f (get_ctx sd s) = get_ctx sd s → upd_ctx sd f s = s.
Proof. destruct sd, s; unfold upd_ctx; simpl; by intros ->. Qed.

(** Sequencing. *)
Lemma bind_some {A B} (m : M (K := K) A) (k : A → M B) s x s' :
  m s = Some (x, s') → bind m k s = k x s'.
Proof. unfold bind. by intros ->. Qed.
Lemma bind_none {A B} (m : M (K := K) A) (k : A → M B) s : m s = None → bind m k s = None.
Proof. unfold bind. by intros ->. Qed.
Lemma bind_assert {B} (b : bool) (k : unit → M (K := K) B) s :
  b = true → bind (assert b) k s = k tt s.
Proof. unfold bind, assert. by intros ->. Qed.
Lemma bind_deref {A B} (o : option A) (k : A → M (K := K) B) s x :
  o = Some x → bind (deref o) k s = k x s.
Proof. unfold bind, deref. by intros ->. Qed.
Lemma bind_get_cur {B} (k : side → M (K := K) B) s sd :
  cur s = OwnCtx sd → bind get_cur k s = k sd s.
Proof. unfold bind, get_cur. by intros ->. Qed.
End state_facts.

Create Rewrite HintDb hc.
#[export] Hint Rewrite @get_upd_eq @get_alt_upd @get_upd_alt @get_set_cb @get_set_cur
  @get_set_tx_last @alt_alt : hc.

(** Run the pure steps of a program. *)
Ltac hc_step :=
  cbv beta; first
  [ rewrite bind_some with (1 := eq_refl)
  | match goal with |- context [bind (gets ?f) ?k ?s] => change (bind (gets f) k s) with (k (f s) s) end
  | match goal with |- context [bind (getc ?sd) ?k ?s] => change (bind (getc sd) k s) with (k (get_ctx sd s) s) end
  | match goal with |- context [bind (modify ?f) ?k ?s] => change (bind (modify f) k s) with (k tt (f s)) end
  | match goal with |- context [bind (modc ?sd ?f) ?k ?s] =>
      change (bind (modc sd f) k s) with (k tt (upd_ctx sd f s)) end
  | match goal with |- context [bind (ret ?x) ?k ?s] => change (bind (ret x) k s) with (k x s) end ];
  cbv beta.
#[global] Arguments upd_ctx : simpl never.
#[global] Arguments get_ctx : simpl never.
