(* ===== verification/HaiCrypt.v ===== *)
(** * The HaiCrypt API: haicrypt/hcrypt_tx.c, hcrypt_ctx_rx.c, hcrypt_rx.c,
    hcrypt.c

    Sending, receiving, creating and cloning sessions, over the keying
    operations of [HcSession]. *)
From S2P Require Import Prelude StreamMode Ctr128 CfbOfb128 Cbc128 Wrap128 HcMsg HcCtx Cryspr HcSession.

Section haicrypt.
Context {AES_KEY : Type} `{!AesLib AES_KEY}.
Context (v : variant) (little aligned : bool).
Local Abbreviation ses := (hcrypt_Session AES_KEY).
Local Abbreviation M := (@M AES_KEY).
Local Abbreviation ms_encrypt := (crysprFallback_MsEncrypt v little aligned).
Local Abbreviation ms_decrypt := (crysprFallback_MsDecrypt v little aligned).

(** ** hcrypt_tx.c *)

(** Room for the prefix and the payload in the input buffer: the offset of
    the payload, or -1. *)
Definition HaiCrypt_Tx_GetBuf (data_len : Z) : M Z :=
  sd <- get_cur ;;
  ctx <- getc sd ;;
  let pad_factor := if HCRYPT_CTX_MODE_AESECB =? mode ctx then 16 else 1 in
  siz <- gets inbuf_siz ;;
  assert (negb (siz =? 0)) ;;;
  mi <- gets ses_msg_info ;;
  let in_len := u64 (Z.of_nat (pfx_len mi) + hcryptMsg_PaddedLen data_len pad_factor) in
  if siz <? in_len then ret (-1) else ret (Z.of_nat (pfx_len mi)).

(** [out_p]: the output arrays are not NULL.  The number returned and the
    messages to send. *)
Definition HaiCrypt_Tx_ManageKeys (rn_sek : option bytes) (now1 now2 : timeval) (out_p : bool)
    (maxout : Z) : M (Z * list bytes) :=
  p <- gets cur ;;
  match p with
  | NullCtx => ret (-1, [])
  | _ =>
      if negb out_p then ret (-1, []) else
      hcryptCtx_Tx_ManageKM rn_sek now1 ;;;
      sd <- get_cur ;;
      ctx <- getc sd ;;
      assert (status ctx =? HCRYPT_CTX_S_ACTIVE) ;;;
      out <- hcryptCtx_Tx_InjectKM maxout now2 ;;
      ret (Z.of_nat (length out), out)
  end.

Definition HaiCrypt_Tx_GetKeyFlags : M Z :=
  p <- gets cur ;;
  match p with
  | NullCtx => ret (-1)
  | _ => sd <- get_cur ;; ctx <- getc sd ;; ret (hcryptCtx_GetKeyFlags ctx)
  end.

(** Encryption in place: the return value, the prefix and the payload. *)
Definition HaiCrypt_Tx_Data (in_pfx in_data : bytes) : M (Z * bytes * bytes) :=
  p <- gets cur ;;
  match p with
  | NullCtx => ret (-1, in_pfx, in_data)
  | _ =>
      sd <- get_cur ;;
      ctx <- getc sd ;;
      mi <- deref (msg_info ctx) ;;
      let in_pfx := indexMsg mi in_pfx (MSpfx_cache ctx) in
      cb <- gets cryspr_cb ;;
      r <- deref (ms_encrypt cb ctx in_pfx in_data false) ;;
      modify (set_cb (ms_cb r)) ;;;
      if ms_ret r <? 0 then ret (ms_ret r, ms_pfx r, ms_payload r)
      else
        modc sd (λ c, set_pkt_cnt (u32 (pkt_cnt c + 1)) c) ;;;
        ret (ms_ret r, ms_pfx r, ms_payload r)
  end.

(** The number of messages and the messages: keying material, then the
    encrypted packet read from the output buffer. *)
Definition HaiCrypt_Tx_Process (rn_sek : option bytes) (now1 now2 : timeval) (in_msg : bytes)
    (out_p : bool) (maxout : Z) : M (Z * list bytes) :=
  p <- gets cur ;;
  match p with
  | NullCtx => ret (-1, [])
  | _ =>
      if negb out_p then ret (-1, []) else
      hcryptCtx_Tx_ManageKM rn_sek now1 ;;;
      sd <- get_cur ;;
      ctx <- getc sd ;;
      assert (status ctx =? HCRYPT_CTX_S_ACTIVE) ;;;
      kms <- hcryptCtx_Tx_InjectKM maxout now2 ;;
      ctx <- getc sd ;;
      mi <- deref (msg_info ctx) ;;
      let in_msg := indexMsg mi in_msg (MSpfx_cache ctx) in
      assert (pfx_len mi <=? length in_msg)%nat ;;;
      cb <- gets cryspr_cb ;;
      r <- deref (ms_encrypt cb ctx in_msg (drop (pfx_len mi) in_msg) true) ;;
      modify (set_cb (ms_cb r)) ;;;
      if negb (ms_ret r =? 0) then ret (Z.of_nat (length kms), kms)
      else
        let out := match ms_out r with
                   | Some (ofs, n) => kms ++ [out_read (ms_cb r) ofs n]
                   | None => kms
                   end in
        modc sd (λ c, set_pkt_cnt (u32 (pkt_cnt c + 1)) c) ;;;
        ret (Z.of_nat (length out), out)
  end.

(** ** hcrypt_ctx_rx.c *)

(** [secret]: the one of the configuration, [None] for a NULL [cfg]. *)
Definition hcryptCtx_Rx_Init (sd : side) (secret : option HaiCrypt_Secret) : M Z :=
  modc sd (set_mode HCRYPT_CTX_MODE_AESCTR) ;;;
  modc sd (set_status HCRYPT_CTX_S_INIT) ;;;
  mi <- gets ses_msg_info ;;
  modc sd (set_msg_info (Some mi)) ;;;
  iret <- match secret with Some x => hcryptCtx_SetSecret sd x | None => ret 0 end ;;
  if negb (iret =? 0) then ret (-1)
  else modc sd (set_status HCRYPT_CTX_S_SARDY) ;;; ret 0.

Definition hcryptCtx_Rx_Rekey (sd : side) (sek' : bytes) : M Z :=
  iret <- ms_setkey sd sek' ;;
  if negb (iret =? 0) then ret (-1) else
  modc sd (λ c, set_sek (length sek') (memcpy (sek c) 0 sek') c) ;;;
  modc sd (set_status HCRYPT_CTX_S_KEYED) ;;;
  ret 0.

(** The checks on the message: salt length, key length and number of keys,
    or [None] for the return value -1. *)
Definition km_validate (se : Z) (km_msg : bytes) : option (nat * nat * nat) :=
  if (length km_msg <=? HCRYPT_MSG_KM_OFS_SALT)%nat then None else
  let salt_len := hcryptMsg_KM_GetSaltLen km_msg in
  let sek_len := hcryptMsg_KM_GetSekLen km_msg in
  if (HAICRYPT_SALT_SZ <? salt_len)%nat || (HAICRYPT_KEY_MAX_SZ <? sek_len)%nat then None else
  if negb (16 =? sek_len)%nat && negb (24 =? sek_len)%nat && negb (32 =? sek_len)%nat then None else
  let sek_cnt := if hcryptMsg_KM_HasBothSek km_msg then 2%nat else 1%nat in
  if negb (length km_msg =? HCRYPT_MSG_KM_OFS_SALT + salt_len + sek_cnt * sek_len
             + HAICRYPT_WRAPKEY_SIGN_SZ)%nat then None else
  if negb (HCRYPT_CIPHER_AES_CTR =? km_msg !!! HCRYPT_MSG_KM_OFS_CIPHER) ||
     negb (HCRYPT_AUTH_NONE =? km_msg !!! HCRYPT_MSG_KM_OFS_AUTH) then None else
  if negb (se =? km_msg !!! HCRYPT_MSG_KM_OFS_SE) then None else
  Some (salt_len, sek_len, sek_cnt).

(** The SEK of a context among those of the message: the even one is first
    if both are present. *)
Definition km_pick_sek (sek_cnt sek_len : nat) (fl : Z) (seks : bytes) : bytes :=
  if (2 =? sek_cnt)%nat && negb (Z.land fl HCRYPT_MSG_F_oSEK =? 0)
  then take sek_len (drop sek_len seks) else take sek_len seks.

(** The salt and the key length of the message become those of the context;
    when one of them changed, the KEK derived from a pass phrase is
    regenerated.  The new [kek_len], or [None] for the return value -1. *)
Definition rx_update_kek (sd : side) (salt_len' sek_len' : nat) (km_salt : bytes)
    : M (option nat) :=
  ctx <- getc sd ;;
  (* Check Salt and get if new *)
  let new_salt := negb (salt_len' =? salt_len ctx)%nat ||
                  negb (bool_decide (take salt_len' (salt ctx) = km_salt)) in
  (if new_salt then modc sd (λ c, set_salt salt_len' (memcpy (salt c) 0 km_salt) c)
   else ret tt) ;;;
  (* Check SEK length and get if new *)
  let new_len := negb (sek_len' =? sek_len ctx)%nat in
  (if new_len then modc sd (λ c, set_sek sek_len' (sek c) c) else ret tt) ;;;
  let do_pbkdf := new_salt || new_len in
  (* Regenerate KEK *)
  if negb (pwd_len ctx =? 0)%nat && do_pbkdf then
    iret <- hcryptCtx_GenSecret sd ;;
    if negb (iret =? 0) then ret None else
    modc sd (set_status HCRYPT_CTX_S_SARDY) ;;;
    ret (Some sek_len')
  else ret (Some 0%nat).

(** The unwrapped SEK(s) are set in the context, and in the other one when
    both are provided; the KMmsg caches are refreshed. *)
Definition rx_install_seks (sd : side) (km_msg km_salt : bytes) (salt_len' sek_len' sek_cnt : nat)
    (kek_len : nat) (seks : bytes) : M unit :=
  ctx <- getc sd ;;
  hcryptCtx_Rx_Rekey sd (km_pick_sek sek_cnt sek_len' (flags ctx) seks) ;;;
  modc sd (λ c, set_KMmsg (length km_msg) (memcpy (KMmsg_cache c) 0 km_msg) c) ;;;
  if (2 =? sek_cnt)%nat then
    actx <- getc (alt sd) ;;
    modc (alt sd) (λ c, set_salt salt_len' (memcpy (salt c) 0 km_salt) c) ;;;
    (if (0 <? kek_len)%nat then modc (alt sd) (set_status HCRYPT_CTX_S_SARDY) else ret tt) ;;;
    hcryptCtx_Rx_Rekey (alt sd) (km_pick_sek sek_cnt sek_len' (flags actx) seks) ;;;
    modc (alt sd) (λ c, set_KMmsg (length km_msg) (memcpy (KMmsg_cache c) 0 km_msg) c)
  else ret tt.

Definition hcryptCtx_Rx_ParseKM (km_msg : bytes) : M Z :=
  se <- gets se ;;
  match km_validate se km_msg with
  | None => ret (-1)
  | Some (salt_len', sek_len', sek_cnt) =>
      let km_salt := take salt_len' (drop HCRYPT_MSG_KM_OFS_SALT km_msg) in
      (* Pick the context updated by this KMmsg *)
      p <- gets cur ;;
      sd <- (match hcryptMsg_KM_HasBothSek km_msg, p with
             | true, OwnCtx sd => ret (alt sd)
             | true, SrcCtx _ => deref None
             | _, _ => ret (side_of (hcryptMsg_KM_GetKeyIndex km_msg))
             end) ;;
      kek_len <- rx_update_kek sd salt_len' sek_len' km_salt ;;
      match kek_len with
      | None => ret (-1)
      | Some kek_len =>
          (* Unwrap SEK(s) and set in context *)
          cb <- gets cryspr_cb ;;
          unwrapped <- deref (crysprOpenSSL_KmUnwrap cb
            (take (sek_cnt * sek_len' + HAICRYPT_WRAPKEY_SIGN_SZ)
               (drop (HCRYPT_MSG_KM_OFS_SALT + salt_len') km_msg))) ;;
          match unwrapped with
          | None => ret (-2)
          | Some seks =>
              rx_install_seks sd km_msg km_salt salt_len' sek_len' sek_cnt kek_len seks ;;;
              ret 0
          end
      end
  end.

(** ** hcrypt_rx.c *)

(** Decryption in place ([data] is not NULL): the return value and the
    payload. *)
Definition HaiCrypt_Rx_Data (in_pfx data : bytes) : M (Z * bytes) :=
  mi <- gets ses_msg_info ;;
  let sd := side_of (hcryptMsg_GetKeyIndex mi in_pfx) in
  ctx <- getc sd ;;
  modify (set_cur (OwnCtx sd)) ;;;
  if HCRYPT_CTX_S_KEYED <=? status ctx then
    cb <- gets cryspr_cb ;;
    r <- deref (ms_decrypt cb ctx in_pfx data false) ;;
    modify (set_cb (ms_cb r)) ;;;
    if ms_ret r <? 0 then ret (ms_ret r, ms_payload r)
    else ret (i32 (Z.of_nat (length data)), ms_payload r)
  else ret (0, data).

(** [out_p]: the output arrays are not NULL.  The return value and the
    message put in [out_p[0]]. *)
Definition HaiCrypt_Rx_Process (in_msg : bytes) (out_p : bool) (maxout : Z)
    : M (Z * option bytes) :=
  mi <- gets ses_msg_info ;;
  let msg_type := parseMsg mi in_msg in
  if msg_type <? 0 then ret (-1, None)
  else if msg_type =? HCRYPT_MSG_PT_MS then
    let sd := side_of (hcryptMsg_GetKeyIndex mi in_msg) in
    if negb out_p then ret (-1, None) else
    ctx <- getc sd ;;
    modify (set_cur (OwnCtx sd)) ;;;
    if HCRYPT_CTX_S_KEYED <=? status ctx then
      assert (pfx_len mi <=? length in_msg)%nat ;;;
      cb <- gets cryspr_cb ;;
      r <- deref (ms_decrypt cb ctx in_msg (drop (pfx_len mi) in_msg) true) ;;
      modify (set_cb (ms_cb r)) ;;;
      if negb (ms_ret r =? 0) then ret (-1, None)
      else ret (1, option_map (λ '(ofs, n), out_read (ms_cb r) ofs n) (ms_out r))
    else ret (0, None)
  else if msg_type =? HCRYPT_MSG_PT_KM then
    let sd := side_of (hcryptMsg_GetKeyIndex mi in_msg) in
    ctx <- getc sd ;;
    nbout <- (if (status ctx <? HCRYPT_CTX_S_KEYED) || negb (length in_msg =? KMmsg_len ctx)%nat ||
                 negb (bool_decide (take (length in_msg) (KMmsg_cache ctx) = in_msg))
              then hcryptCtx_Rx_ParseKM in_msg else ret 0) ;;
    ret (nbout, None)
  else ret (0, None).

(** ** hcrypt.c *)

(** What [malloc] answers: for the session, and for the control block of the
    provider the memory it returns. *)
Record mem_oracle := { mem_session : bool; mem_cb : option (nat → bytes) }.

Definition sHaiCrypt_PrepareHandle (mem : mem_oracle) (cfg : HaiCrypt_Cfg) (tx : bool)
    : option ses :=
  let inbuf_siz := hcryptMsg_PaddedLen (cfg_data_max_len cfg) 16 in
  if negb (mem_session mem) then None else
  if negb (cfg_xport cfg =? HAICRYPT_XPT_SRT) then None else
  let tx_flag := if tx then HCRYPT_CTX_F_ENCRYPT else 0 in
  match mem_cb mem with
  | None => None
  | Some m =>
      Some {| ctx_pair0 := set_flags (Z.lor HCRYPT_MSG_F_eSEK tx_flag) ctx_zero;
              ctx_pair1 := set_flags (Z.lor HCRYPT_MSG_F_oSEK tx_flag) ctx_zero;
              cur := NullCtx;
              cryspr_cb := crysprFallback_Open m (cfg_data_max_len cfg);
              inbuf_siz := inbuf_siz;
              se := HCRYPT_SE_TSSRT;
              ses_msg_info := hcryptMsg_SRT_MsgInfo;
              data_max_len := cfg_data_max_len cfg;
              tx_period := (km_tx_period_ms cfg / 1000, km_tx_period_ms cfg mod 1000 * 1000);
              tx_last := (0, 0);
              refresh_rate := km_refresh_rate_pkt cfg;
              pre_announce := km_pre_announce_pkt cfg |}
  end.

(** [if (f(ctx0) || f(ctx1)) return -1;] *)
Definition init_both (f : side → M Z) : M bool :=
  r0 <- f Even ;;
  if negb (r0 =? 0) then ret false else
  r1 <- f Odd ;;
  if negb (r1 =? 0) then ret false else ret true.

Definition create_valid (cfg : HaiCrypt_Cfg) : bool :=
  let secret := cfg_secret cfg in
  if Z.land HAICRYPT_CFG_F_CRYPTO (cfg_flags cfg) =? 0 then false
  else if negb (16 =? cfg_key_len cfg)%nat && negb (24 =? cfg_key_len cfg)%nat &&
          negb (32 =? cfg_key_len cfg)%nat then false
  else if (HAICRYPT_SECTYP_PASSPHRASE =? typ secret) &&
          ((0 =? len secret)%nat || (HAICRYPT_SECRET_MAX_SZ <? len secret)%nat) then false
  else if (HAICRYPT_SECTYP_PRESHARED =? typ secret) && (len secret <? cfg_key_len cfg)%nat
  then false
  else if negb (cfg_cryspr cfg) then false
  else if 0 =? cfg_data_max_len cfg then false
  else true.

(** The keys of the first context of a sender, and its activation. *)
Definition tx_start (cfg : HaiCrypt_Cfg) (key0 : M Z) : M Z :=
  ok <- init_both (λ sd, hcryptCtx_Tx_Init sd cfg) ;;
  if negb ok then ret (-1) else
  iret <- key0 ;;
  if negb (iret =? 0) then ret (-1) else
  modify (set_cur (OwnCtx Even)) ;;;
  modc Even (or_flags (Z.lor HCRYPT_CTX_F_ANNOUNCE HCRYPT_CTX_F_TTSEND)) ;;;
  modc Even (set_status HCRYPT_CTX_S_ACTIVE) ;;;
  ret 0.

(** [phhc]: the session created when the value returned is 0. *)
Definition run_create (m : M Z) (s : ses) : option (Z * option ses) :=
  match m s with
  | None => None
  | Some (iret, s') => if iret =? 0 then Some (0, Some s') else Some (-1, None)
  end.

Definition HaiCrypt_Create (mem : mem_oracle) (rn_salt rn_sek : option bytes)
    (cfg : HaiCrypt_Cfg) : option (Z * option ses) :=
  let tx := negb (Z.land HAICRYPT_CFG_F_TX (cfg_flags cfg) =? 0) in
  if negb (create_valid cfg) then Some (-1, None) else
  match sHaiCrypt_PrepareHandle mem cfg tx with
  | None => Some (-1, None)
  | Some s =>
      if tx then run_create (tx_start cfg (hcryptCtx_Tx_Rekey Even rn_salt rn_sek)) s
      else run_create (ok <- init_both (λ sd, hcryptCtx_Rx_Init sd (Some (cfg_secret cfg))) ;;
                       ret (if ok then 0 else -1)) s
  end.

(** [None] for the return value -1, which leaves [pcfg] alone. *)
Definition HaiCrypt_ExtractConfig (s : ses) : option (option HaiCrypt_Cfg) :=
  let extract (ctx : hcrypt_Ctx) :=
    Some (Some {|
      cfg_flags := Z.lor HAICRYPT_CFG_F_CRYPTO
                     (if Z.land (flags ctx) HCRYPT_CTX_F_ENCRYPT =? HCRYPT_CTX_F_ENCRYPT
                      then HAICRYPT_CFG_F_TX else 0);
      cfg_secret := {| typ := HAICRYPT_SECTYP_PASSPHRASE; len := pwd_len ctx;
                       str := take (pwd_len ctx) (pwd ctx) |};
      cfg_cryspr := true;
      cfg_key_len := if (key_len ctx =? 0)%nat then sek_len ctx else key_len ctx;
      cfg_data_max_len := data_max_len s;
      cfg_xport := HAICRYPT_XPT_SRT;
      km_tx_period_ms := 0;
      km_refresh_rate_pkt := refresh_rate s;
      km_pre_announce_pkt := pre_announce s |}) in
  match cur s with
  | OwnCtx sd => extract (get_ctx sd s)
  | SrcCtx _ => None
  | NullCtx =>
      let ctx := ctx_pair0 s in
      if negb (status ctx =? HCRYPT_CTX_S_KEYED) && negb (status ctx =? HCRYPT_CTX_S_ACTIVE)
      then Some None else extract ctx
  end.

(** [None] also when the configuration that could not be extracted is used. *)
Definition HaiCrypt_Clone (mem : mem_oracle) (src : ses) (tx : bool) : option (Z * option ses) :=
  if tx then
    cfg ← mjoin (HaiCrypt_ExtractConfig src);
    match sHaiCrypt_PrepareHandle mem cfg tx with
    | None => Some (-1, None)
    | Some s => run_create (tx_start cfg (hcryptCtx_Tx_CloneKey Even src)) s
    end
  else
    if negb (mem_session mem) then Some (-1, None) else
    match mem_cb mem with
    | None => Some (-1, None)
    | Some m =>
        let s := {| ctx_pair0 := ctx_pair0 src; ctx_pair1 := ctx_pair1 src;
                    cur := match cur src with OwnCtx sd => SrcCtx sd | p => p end;
                    cryspr_cb := crysprFallback_Open m (data_max_len src);
                    inbuf_siz := inbuf_siz src; se := se src; ses_msg_info := ses_msg_info src;
                    data_max_len := data_max_len src; tx_period := tx_period src;
                    tx_last := (0, 0); refresh_rate := refresh_rate src;
                    pre_announce := pre_announce src |} in
        run_create (
          ok <- init_both (λ sd, hcryptCtx_Rx_Init sd None) ;;
          if negb ok then ret (-1) else
          modc Even (clear_flags HCRYPT_CTX_F_ENCRYPT) ;;;
          modc Odd (clear_flags HCRYPT_CTX_F_ENCRYPT) ;;;
          modc Even (set_salt 0 (replicate HAICRYPT_SALT_SZ 0)) ;;;
          ret 0) s
    end.

(** 0 for a session, which is freed, -1 for NULL. *)
Definition HaiCrypt_Close (s : option ses) : Z :=
  match s with Some _ => 0 | None => -1 end.
End haicrypt.
