(* ===== verification/HcFacts.v ===== *)
(** * Properties of the keying operations

    The Keying Material message that a sender assembles and what a receiver
    makes of it; key derivation; the well-formedness of contexts. *)
From S2P Require Import Prelude StreamMode Ctr128 CfbOfb128 Cbc128 Wrap128 HcMsg HcCtx Cryspr HcSession HaiCrypt.

(** ** Well-formed contexts *)
Definition side_flag (sd : side) : Z :=
  match sd with Even => HCRYPT_MSG_F_eSEK | Odd => HCRYPT_MSG_F_oSEK end.
Definition side_index (sd : side) : nat := match sd with Even => 0 | Odd => 1 end.

(** The buffers have the sizes of the C arrays, the handlers are in place. *)
Record ctx_wf (sd : side) (c : hcrypt_Ctx) : Prop := {
  wf_flags : hcryptCtx_GetKeyFlags c = side_flag sd;
  wf_mode : mode c = HCRYPT_CTX_MODE_AESCTR;
  wf_msg_info : msg_info c = Some hcryptMsg_SRT_MsgInfo;
  wf_pwd : length (pwd c) = HAICRYPT_PWD_MAX_SZ;
  wf_pwd_len : (pwd_len c <= HAICRYPT_PWD_MAX_SZ)%nat;
  wf_salt : length (salt c) = HAICRYPT_SALT_SZ;
  wf_salt_bytes : are_bytes (salt c);
  wf_sek : length (sek c) = HAICRYPT_KEY_MAX_SZ;
  wf_sek_bytes : are_bytes (sek c);
  wf_cache : length (KMmsg_cache c) = (HCRYPT_CTX_MAX_KM_PFX_SZ + HCRYPT_MSG_KM_MAX_SZ)%nat;
}.

Lemma wf_key_index sd c : ctx_wf sd c → hcryptCtx_GetKeyIndex c = side_index sd.
Proof.
  intros [H _ _ _ _ _ _ _ _ _]. unfold hcryptCtx_GetKeyIndex, hcryptCtx_GetKeyFlags in *.
  rewrite H. by destruct sd.
Qed.

(** The pass phrase and the keys in use. *)
Definition ctx_pwd (c : hcrypt_Ctx) : bytes := take (pwd_len c) (pwd c).
Definition ctx_sek (c : hcrypt_Ctx) : bytes := take (sek_len c) (sek c).

(** ** The Keying Material message *)
Definition km_header (kf klen4 : Z) : bytes :=
  [0x12; 0x20; 0x29; kf; 0; 0; 0; 0; 2; 0; 2; 0; 0; 0; 4; klen4].
(** [n]: key length, [w]: wrapped keys *)
Definition km_msg (kf : Z) (n : nat) (salt w : bytes) : bytes :=
  km_header kf (Z.of_nat (n / 4)) ++ salt ++ w.

Lemma length_km_header kf k : length (km_header kf k) = 16%nat.
Proof. done. Qed.
#[export] Hint Rewrite length_km_header : len.

Lemma aes_key_len_div n :
  aes_key_len n → Z.to_nat (Z.of_nat (n / 4) * 4) = n ∧ u8 (Z.of_nat (n / 4)) = Z.of_nat (n / 4) ∧
  (n <= 32)%nat ∧ (16 <= n)%nat.
Proof. intros [->|[->| ->]]; (split_and!; [reflexivity|reflexivity|lia..]). Qed.

Lemma asm_km_header_eq ctx n cnt len :
  length (salt ctx) = 16%nat → salt_len ctx = 16%nat → sek_len ctx = n → aes_key_len n →
  (32 <= len <= length (KMmsg_cache ctx))%nat →
  let kf := if (2 =? cnt)%nat then HCRYPT_MSG_F_xSEK else Z.land (flags ctx) HCRYPT_MSG_F_xSEK in
  asm_km_header hcryptMsg_SRT_MsgInfo ctx HCRYPT_SE_TSSRT cnt len =
    km_msg kf n (salt ctx) (replicate (len - 32) 0) ++ drop len (KMmsg_cache ctx).
Proof.
  intros Hs Hsl Hn Haes Hlen kf. destruct (aes_key_len_div n Haes) as (_ & Hu8 & _).
  unfold asm_km_header. fold kf. rewrite Hsl, Hn, (take_ge (salt ctx)) by lia.
  assert (Hkf : u8 kf = kf).
  { apply u8_small. unfold kf. destruct (_ =? _)%nat; [done|].
    change HCRYPT_MSG_F_xSEK with (Z.ones 2). rewrite Z.land_ones by lia.
    pose proof (Z.mod_pos_bound (flags ctx) (2 ^ 2) ltac:(lia)). lia. }
  assert (Hz : memcpy (KMmsg_cache ctx) 0 (replicate len 0) =
    replicate 16 0 ++ (replicate (len - 16) 0 ++ drop len (KMmsg_cache ctx))).
  { unfold memcpy. rewrite take_0, app_nil_l, length_replicate, app_assoc, <- replicate_add.
    f_equal. f_equal. lia. }
  rewrite Hz. set (rest := replicate (len - 16) 0 ++ _).
  unfold hcryptMsg_KM_SetSaltLen, hcryptMsg_KM_SetSekLen.
  change (resetCache hcryptMsg_SRT_MsgInfo) with hcryptMsg_SRT_ResetCache.
  unfold hcryptMsg_SRT_ResetCache. cbn [Z.eqb HCRYPT_MSG_PT_KM HCRYPT_MSG_PT_MS Pos.eqb].
  rewrite Hkf, Hu8.
  rewrite !insert_app_l by (rewrite ?length_insert; vm_compute; lia).
  match goal with |- memcpy (?h ++ rest) _ _ = _ =>
    change h with (km_header kf (Z.of_nat (n / 4))) end.
  unfold memcpy, km_msg. change HCRYPT_MSG_KM_OFS_SALT with 16%nat.
  rewrite take_app_length' by done. rewrite <- !app_assoc. f_equal. f_equal.
  rewrite Hs, drop_app_ge by (rewrite length_km_header; lia). rewrite length_km_header.
  change (16 + 16 - 16)%nat with 16%nat. unfold rest. rewrite drop_app_le by len.
  f_equal. rewrite drop_replicate. f_equal. lia.
Qed.

(** What the checks of the receiver read in it. *)
Section km_read.
Context (kf : Z) (n : nat) (salt w : bytes).
Context (Hkf : 1 <= kf <= 3) (Hn : aes_key_len n) (Hsalt : length salt = 16%nat).

Lemma km_msg_byte i : (i < 16)%nat → km_msg kf n salt w !!! i = km_header kf (Z.of_nat (n / 4)) !!! i.
Proof using Type. clear Hkf Hn Hsalt. intros. unfold km_msg. by apply lookup_total_app_l. Qed.

Lemma length_km_msg : length (km_msg kf n salt w) = (32 + length w)%nat.
Proof using All. unfold km_msg. len. Qed.

Definition km_cnt : nat := if (kf =? 3)%Z then 2%nat else 1%nat.

Lemma km_both : hcryptMsg_KM_HasBothSek (km_msg kf n salt w) = (kf =? 3).
Proof using All.
  unfold hcryptMsg_KM_HasBothSek. rewrite km_msg_byte by (unfold HCRYPT_MSG_KM_OFS_KFLGS; lia).
  assert (kf = 1 ∨ kf = 2 ∨ kf = 3) as [->|[->| ->]] by lia; done.
Qed.

Lemma km_key_index :
  side_of (hcryptMsg_KM_GetKeyIndex (km_msg kf n salt w)) = if kf =? 1 then Even else Odd.
Proof using All.
  unfold hcryptMsg_KM_GetKeyIndex. rewrite km_msg_byte by (unfold HCRYPT_MSG_KM_OFS_KFLGS; lia).
  assert (kf = 1 ∨ kf = 2 ∨ kf = 3) as [->|[->| ->]] by lia; done.
Qed.

Lemma km_validate_ok :
  length w = (km_cnt * n + 8)%nat →
  km_validate HCRYPT_SE_TSSRT (km_msg kf n salt w) = Some (16%nat, n, km_cnt).
Proof using All.
  intros Hw. unfold km_validate, hcryptMsg_KM_GetSaltLen, hcryptMsg_KM_GetSekLen.
  rewrite km_both, length_km_msg, !km_msg_byte
    by (unfold HCRYPT_MSG_KM_OFS_SLEN, HCRYPT_MSG_KM_OFS_KLEN, HCRYPT_MSG_KM_OFS_SE,
         HCRYPT_MSG_KM_OFS_CIPHER, HCRYPT_MSG_KM_OFS_AUTH; lia).
  change (km_header kf (Z.of_nat (n / 4)) !!! HCRYPT_MSG_KM_OFS_SLEN) with 4.
  change (km_header kf (Z.of_nat (n / 4)) !!! HCRYPT_MSG_KM_OFS_KLEN) with (Z.of_nat (n / 4)).
  destruct (aes_key_len_div n Hn) as (-> & _ & Hle & Hge). change (Z.to_nat (4 * 4)) with 16%nat.
  fold km_cnt. rewrite Hw. unfold HCRYPT_MSG_KM_OFS_SALT, HAICRYPT_SALT_SZ, HAICRYPT_KEY_MAX_SZ,
    HAICRYPT_WRAPKEY_SIGN_SZ.
  rewrite (proj2 (Nat.leb_gt _ _)) by lia.
  rewrite (proj2 (Nat.ltb_ge 32 n)) by lia. change (16 <? 16)%nat with false. cbn [orb].
  replace (negb _ && negb _ && negb _) with false by (destruct Hn as [->|[->| ->]]; done).
  replace (_ =? _)%nat with true; [done|]. symmetry. apply Nat.eqb_eq. lia.
Qed.

Lemma km_salt : take 16 (drop HCRYPT_MSG_KM_OFS_SALT (km_msg kf n salt w)) = salt.
Proof using All.
  unfold km_msg, HCRYPT_MSG_KM_OFS_SALT. rewrite drop_app_length' by done.
  by rewrite take_app_length'.
Qed.

Lemma km_wrapped m :
  m = length w → take m (drop (HCRYPT_MSG_KM_OFS_SALT + 16) (km_msg kf n salt w)) = w.
Proof using All.
  intros ->. unfold km_msg, HCRYPT_MSG_KM_OFS_SALT. rewrite app_assoc, drop_app_length' by len.
  by apply take_ge.
Qed.

(** The transport handler takes it for a Keying Material message. *)
Lemma km_parseMsg : hcryptMsg_SRT_ParseMsg (km_msg kf n salt w) = HCRYPT_MSG_PT_KM.
Proof using All.
  unfold hcryptMsg_SRT_ParseMsg, hcryptMsg_KM_GetVersion, hcryptMsg_KM_GetPktType,
    hcryptMsg_KM_GetSign, hcryptMsg_KM_GetSE, hcryptMsg_KM_HasNoSek.
  rewrite !km_msg_byte by (unfold HCRYPT_MSG_KM_OFS_VERSION, HCRYPT_MSG_KM_OFS_PT,
    HCRYPT_MSG_KM_OFS_SIGN, HCRYPT_MSG_KM_OFS_SE, HCRYPT_MSG_KM_OFS_KFLGS; lia).
  assert (kf = 1 ∨ kf = 2 ∨ kf = 3) as [->|[->| ->]] by lia; done.
Qed.

(** Its key index read at the place of a data header is that of the KEKI: 0. *)
Lemma km_data_index :
  side_of (hcryptMsg_GetKeyIndex hcryptMsg_SRT_MsgInfo (km_msg kf n salt w)) = Even.
Proof using Type. done. Qed.
End km_read.

(** ** Keys *)
Section keys.
Context {AES_KEY : Type} `{!AesLib AES_KEY, !AesLibOk AES_KEY}.
Local Abbreviation ses := (hcrypt_Session AES_KEY).
Implicit Types (s : ses) (sd : side).

(** The key schedule of a SEK, and that of the KEK derived from a pass
    phrase. *)
Definition sek_key (key : bytes) : option AES_KEY := crysprOpenSSL_AES_SetKey true key.
Definition kek_key (bWrap : bool) (pwd salt : bytes) (n : nat) : option AES_KEY :=
  kek ← crysprOpenSSL_KmPbkdf2 pwd (drop 8 salt) HAICRYPT_PBKDF2_ITER_CNT n;
  crysprOpenSSL_AES_SetKey bWrap kek.

Lemma sek_key_total key :
  aes_key_len (length key) → are_bytes key → ∃ k, sek_key key = Some k ∧ Block128 AES_encrypt k.
Proof.
  intros Hl Hb. destruct (set_key_total key Hl Hb) as [[k Hk] _].
  exists k. split; [done|]. eapply enc_key_block, Hk.
Qed.

Lemma kek_key_total pwd salt n :
  aes_key_len n → ∃ ek dk, kek_key true pwd salt n = Some ek ∧ kek_key false pwd salt n = Some dk.
Proof.
  intros Hn. destruct (pbkdf2_total pwd (drop 8 salt) HAICRYPT_PBKDF2_ITER_CNT n) as (kek & Hkek & Hl & Hb).
  destruct (set_key_total kek) as [[ek Hek] [dk Hdk]]; [by rewrite Hl|done|].
  exists ek, dk. unfold kek_key, crysprOpenSSL_KmPbkdf2. by rewrite Hkek.
Qed.

Lemma kek_key_pair pwd salt n ek dk :
  kek_key true pwd salt n = Some ek → kek_key false pwd salt n = Some dk →
  Block128 AES_encrypt ek ∧ Block128 AES_decrypt dk ∧
  BlockInverse AES_encrypt ek AES_decrypt dk ∧ BlockInverse AES_decrypt dk AES_encrypt ek.
Proof.
  unfold kek_key. destruct (crysprOpenSSL_KmPbkdf2 _ _ _ _) as [kek|]; [|done].
  cbn [mbind option_bind crysprOpenSSL_AES_SetKey]. intros He Hd.
  split; [by eapply enc_key_block|]. split; [by eapply dec_key_block|]. by eapply aes_inverse.
Qed.

(** Wrapping and unwrapping one or two SEKs. *)
Lemma wrap_seks pwd salt n ek dk seks m :
  kek_key true pwd salt n = Some ek → kek_key false pwd salt n = Some dk →
  are_bytes seks → length seks = (8 * m)%nat → (2 <= m <= 8)%nat →
  ∃ w, AES_wrap_key ek None seks = Some w ∧ length w = (length seks + 8)%nat ∧
    AES_unwrap_key dk None w = Some seks.
Proof.
  intros Hek Hdk Hb Hl Hm. destruct (kek_key_pair _ _ _ _ _ Hek Hdk) as (He & Hd & Hinv & _).
  destruct (CRYPTO_128_wrap_total AES_encrypt ek None seks m) as [w Hw]; [split; lia|done|].
  exists w. split; [done|].
  assert (Hiv : length (default Wrap128.default_iv (None : option bytes)) = 8%nat ∧
    are_bytes (default Wrap128.default_iv (None : option bytes))).
  { split; [done|]. apply are_bytes_replicate. by unfold is_byte. }
  destruct Hiv as [Hivl Hivb]. split.
  - apply wrap_some in Hw as (m' & Hm' & Hl' & Hw). assert (m' = m) as -> by lia.
    pose proof (wrap_outer_ok AES_encrypt ek m 6 1 _ (wrap_init_ok m _ _ Hivl Hivb Hl' Hb))
      as (HA & _ & HR & _). cbv zeta in Hw. rewrite Hw. len.
  - unfold AES_unwrap_key, CRYPTO_128_unwrap.
    rewrite (unwrap_raw_wrap AES_encrypt ek AES_decrypt dk None seks w) by done.
    by rewrite decide_True.
Qed.

(** ** Single operations *)
Lemma ms_setkey_run s sd key :
  ctx_wf sd (get_ctx sd s) → aes_key_len (length key) → are_bytes key →
  ∃ k, sek_key key = Some k ∧
    ms_setkey sd key s = Some (0, set_cb (set_aes_sek (side_index sd) k (cryspr_cb s)) s).
Proof.
  intros Hwf Hl Hb. destruct (sek_key_total key Hl Hb) as (k & Hk & _). exists k. split; [done|].
  unfold ms_setkey. hc_step. hc_step. unfold crysprFallback_MsSetKey.
  rewrite (wf_mode _ _ Hwf), (wf_key_index _ _ Hwf). cbn [Z.eqb HCRYPT_CTX_MODE_AESCTR Pos.eqb].
  rewrite orb_true_r. unfold sek_key in Hk. by rewrite Hk.
Qed.

Lemma GenSecret_run s sd n :
  ctx_wf sd (get_ctx sd s) → salt_len (get_ctx sd s) = 16%nat → sek_len (get_ctx sd s) = n →
  aes_key_len n →
  let c := get_ctx sd s in
  ∃ k, kek_key (has_flag HCRYPT_CTX_F_ENCRYPT c) (ctx_pwd c) (salt c) n = Some k ∧
    hcryptCtx_GenSecret sd s = Some (0, set_cb (set_kek k (cryspr_cb s)) s).
Proof.
  intros Hwf Hsl Hn Haes c. fold c in Hwf, Hsl, Hn.
  destruct (kek_key_total (ctx_pwd c) (salt c) n Haes) as (ek & dk & Hek & Hdk).
  assert (∃ k, kek_key (has_flag HCRYPT_CTX_F_ENCRYPT c) (ctx_pwd c) (salt c) n = Some k)
    as [k Hk] by (destruct (has_flag _ _); eauto).
  exists k. split; [done|]. unfold hcryptCtx_GenSecret. hc_step. fold c. rewrite Hn, Hsl.
  unfold HAICRYPT_PBKDF2_SALT_LEN. change (8 <=? 16)%nat with true. cbv iota.
  destruct (aes_key_len_div n Haes) as (_ & _ & Hle & _).
  rewrite bind_assert by (apply Nat.leb_le; unfold HAICRYPT_KEY_MAX_SZ; lia).
  change (16 - 8)%nat with 8%nat. pose proof (wf_salt _ _ Hwf) as Hs. unfold HAICRYPT_SALT_SZ in Hs.
  rewrite (take_ge (drop 8 _)) by len.
  unfold kek_key in Hk. fold (ctx_pwd c).
  destruct (crysprOpenSSL_KmPbkdf2 _ _ _ _) as [kek|]; [|done]. cbn [mbind option_bind] in Hk.
  unfold km_setkey. unfold bind at 1. hc_step. unfold crysprFallback_KmSetKey. by rewrite Hk.
Qed.

(** The keys of a message are one or two. *)
Definition sek_count (alt_sek : option bytes) : nat :=
  match alt_sek with None => 1 | Some _ => 2 end.
Definition km_flags (sd : side) (alt_sek : option bytes) : Z :=
  match alt_sek with None => side_flag sd | Some _ => 3 end.

Lemma asm_km_seks_ok sd c alt_sek n :
  ctx_wf sd c → sek_len c = n → aes_key_len n →
  match alt_sek with Some a => length a = 32%nat ∧ are_bytes a | None => True end →
  are_bytes (asm_km_seks c alt_sek) ∧ length (asm_km_seks c alt_sek) = (sek_count alt_sek * n)%nat.
Proof.
  intros Hwf Hn Haes Ha. destruct (aes_key_len_div n Haes) as (_ & _ & Hle & _).
  pose proof (wf_sek _ _ Hwf) as Hs. pose proof (wf_sek_bytes _ _ Hwf) as Hb.
  unfold HAICRYPT_KEY_MAX_SZ in Hs. unfold asm_km_seks. rewrite Hn.
  destruct alt_sek as [a|]; cbn [sek_count]; [destruct Ha as [Hal Hab]|split; [auto with bytes|len]].
  destruct (negb _); (split; [apply are_bytes_app; auto with bytes|len]).
Qed.

Lemma AsmKM_run s sd alt_sek n pwd' salt' ek :
  let c := get_ctx sd s in
  ctx_wf sd c → salt_len c = 16%nat → sek_len c = n → aes_key_len n → se s = HCRYPT_SE_TSSRT →
  match alt_sek with Some a => length a = 32%nat ∧ are_bytes a | None => True end →
  kek_key true pwd' salt' n = Some ek → aes_kek (cryspr_cb s) = Some ek →
  ∃ w, AES_wrap_key ek None (asm_km_seks c alt_sek) = Some w ∧
    length w = (sek_count alt_sek * n + 8)%nat ∧
    let len := (32 + length w)%nat in
    hcryptCtx_Tx_AsmKM sd alt_sek s =
      Some (0, upd_ctx sd (set_KMmsg len (km_msg (km_flags sd alt_sek) n (salt c) w ++
                                           drop len (KMmsg_cache c))) s).
Proof.
  intros c Hwf Hsl Hn Haes Hse Ha Hek Hcb.
  destruct (asm_km_seks_ok sd c alt_sek n Hwf Hn Haes Ha) as [Hsb Hslen].
  destruct (aes_key_len_div n Haes) as (_ & _ & Hle & Hge).
  destruct (kek_key_total pwd' salt' n Haes) as (ek' & dk & Hek' & Hdk). simplify_eq.
  assert (Hcnt : sek_count alt_sek = 1%nat ∨ sek_count alt_sek = 2%nat) by (destruct alt_sek; auto).
  assert (∃ m, length (asm_km_seks c alt_sek) = (8 * m)%nat ∧ (2 <= m <= 8)%nat) as (m & Hm & Hmb).
  { exists (sek_count alt_sek * sek_len c / 8)%nat. rewrite Hslen.
    destruct Haes as [->|[->| ->]], Hcnt as [-> | ->]; vm_compute; lia. }
  destruct (wrap_seks _ _ _ _ _ _ m Hek Hdk Hsb Hm Hmb) as (w & Hw & Hwl & _).
  rewrite Hslen in Hwl. exists w. split; [done|]. split; [done|].
  intros len. unfold hcryptCtx_Tx_AsmKM. hc_step. fold c. fold (sek_count alt_sek).
  rewrite Hsl.
  set (n := sek_len c) in *.
  assert (Hlen : (HCRYPT_MSG_KM_OFS_SALT + 16 + n * sek_count alt_sek
    + HAICRYPT_WRAPKEY_SIGN_SZ)%nat = len).
  { unfold len. rewrite Hwl. unfold HCRYPT_MSG_KM_OFS_SALT, HAICRYPT_WRAPKEY_SIGN_SZ. lia. }
  rewrite Hlen. pose proof (wf_cache _ _ Hwf) as Hcache.
  change (HCRYPT_CTX_MAX_KM_PFX_SZ + HCRYPT_MSG_KM_MAX_SZ)%nat with 120%nat in Hcache.
  assert (Hl120 : (len <= 120)%nat) by (unfold len; destruct Hcnt as [Hc|Hc]; rewrite Hc in Hwl; lia).
  rewrite bind_assert.
  2: { apply andb_true_iff. rewrite !Nat.leb_le. unfold HAICRYPT_KEY_MAX_SZ. lia. }
  rewrite (bind_deref _ _ _ _ (wf_msg_info _ _ Hwf)). hc_step. rewrite Hse. hc_step. hc_step.
  change (cryspr_cb (upd_ctx _ _ s)) with (cryspr_cb s).
  unfold crysprOpenSSL_KmWrap. rewrite Hcb. cbn [mbind option_bind]. rewrite Hw.
  rewrite (bind_deref _ _ _ (Some w)).
  2: { unfold HAICRYPT_WRAPKEY_SIGN_SZ. by rewrite Hslen, Hwl, Z.eqb_refl. }
  hc_step. unfold ret. do 2 f_equal. rewrite upd_upd. apply upd_ext. fold c.
  rewrite (asm_km_header_eq c n (sek_count alt_sek) len) 
    by (exact (wf_salt _ _ Hwf) || done || (unfold len; lia)).
  assert (Hset : ∀ a b a' b' x, set_KMmsg a b (set_KMmsg a' b' x) = set_KMmsg a b x) by done.
  rewrite Hset. clear Hset.
  assert (Hkf : (if (2 =? sek_count alt_sek)%nat then HCRYPT_MSG_F_xSEK
    else Z.land (flags c) HCRYPT_MSG_F_xSEK) = km_flags sd alt_sek).
  { destruct alt_sek; [done|]. cbn. apply (wf_flags _ _ Hwf). }
  rewrite Hkf. f_equal. pose proof (wf_salt _ _ Hwf) as Hs. unfold HAICRYPT_SALT_SZ in Hs.
  unfold km_msg at 1, HCRYPT_MSG_KM_OFS_SALT, memcpy.
  rewrite <- !app_assoc, (app_assoc (km_header _ _)), take_app_length' by len.
  unfold km_msg. rewrite <- !app_assoc. do 3 f_equal.
  rewrite (app_assoc (km_header _ _)), drop_app_ge by len.
  replace (16 + 16 + length w - length _)%nat with (length w) by len.
  rewrite drop_app_length'; [done|]. unfold len. rewrite length_replicate. lia.
Qed.

(** ** The receiver *)

(** A receiver of the stream keyed by pass phrase [pw], with salt [sl] and
    keys of [n] bytes: its contexts are well formed, and the KEK in place is
    that of the stream as soon as one context has the salt and the key
    length of the stream. *)
Record rx_ready (s : ses) (pw sl : bytes) (n : nat) : Prop := {
  rx_se : se s = HCRYPT_SE_TSSRT;
  rx_mi : ses_msg_info s = hcryptMsg_SRT_MsgInfo;
  rx_cb : cb_ok (cryspr_cb s);
  rx_own : ∀ sd, cur s ≠ SrcCtx sd;
  rx_wf : ∀ sd, ctx_wf sd (get_ctx sd s);
  rx_pwd : ∀ sd, pwd_len (get_ctx sd s) ≠ 0%nat ∧ ctx_pwd (get_ctx sd s) = pw;
  rx_dec : ∀ sd, has_flag HCRYPT_CTX_F_ENCRYPT (get_ctx sd s) = false;
  rx_kek : ∀ sd, salt_len (get_ctx sd s) = 16%nat → salt (get_ctx sd s) = sl →
    sek_len (get_ctx sd s) = n → aes_kek (cryspr_cb s) = kek_key false pw sl n;
}.

(** Context [sd] holds the key [key] of the stream. *)
Definition rx_keyed (s : ses) (sd : side) (sl : bytes) (key : bytes) : Prop :=
  let c := get_ctx sd s in
  HCRYPT_CTX_S_KEYED <= status c ∧ salt_len c = 16%nat ∧ salt c = sl ∧
  sek_len c = length key ∧ ctx_sek c = key ∧
  ∃ k, sek_key key = Some k ∧ aes_sek (cryspr_cb s) !! side_index sd = Some (Some k).

Lemma side_index_lt sd : (side_index sd < 2)%nat.
Proof. destruct sd; simpl; lia. Qed.
Lemma side_index_ne sd : side_index (alt sd) ≠ side_index sd.
Proof. by destruct sd. Qed.

(** Effect of [hcryptCtx_Rx_Rekey]. *)
Definition rekeyed (sd : side) (key : bytes) (k : AES_KEY) (s : ses) : ses :=
  upd_ctx sd (λ c, set_status HCRYPT_CTX_S_KEYED (set_sek (length key) (memcpy (sek c) 0 key) c))
    (set_cb (set_aes_sek (side_index sd) k (cryspr_cb s)) s).

Lemma Rx_Rekey_run s sd key :
  ctx_wf sd (get_ctx sd s) → aes_key_len (length key) → are_bytes key →
  ∃ k, sek_key key = Some k ∧ hcryptCtx_Rx_Rekey sd key s = Some (0, rekeyed sd key k s).
Proof.
  intros Hwf Hl Hb. destruct (ms_setkey_run s sd key Hwf Hl Hb) as (k & Hk & Hrun).
  exists k. split; [done|]. unfold hcryptCtx_Rx_Rekey. rewrite (bind_some _ _ _ _ _ Hrun).
  change (negb (0 =? 0)) with false. cbv iota. hc_step. hc_step. unfold ret, rekeyed.
  by rewrite upd_upd.
Qed.

(** What a context update keeps. *)
Lemma wf_set_status sd v c : ctx_wf sd c → ctx_wf sd (set_status v c).
Proof. by intros []. Qed.
Lemma wf_set_sek sd n b c :
  length b = 32%nat → are_bytes b → ctx_wf sd c → ctx_wf sd (set_sek n b c).
Proof. by intros ?? []. Qed.
Lemma wf_set_salt sd n b c :
  length b = 16%nat → are_bytes b → ctx_wf sd c → ctx_wf sd (set_salt n b c).
Proof. by intros ?? []. Qed.
Lemma wf_set_KMmsg sd n b c : length b = 120%nat → ctx_wf sd c → ctx_wf sd (set_KMmsg n b c).
Proof. by intros ? []. Qed.
Lemma wf_sek_update sd key c :
  (length key <= 32)%nat → are_bytes key → ctx_wf sd c →
  length (memcpy (sek c) 0 key) = 32%nat ∧ are_bytes (memcpy (sek c) 0 key) ∧
  take (length key) (memcpy (sek c) 0 key) = key.
Proof.
  intros Hl Hb Hwf. pose proof (wf_sek _ _ Hwf) as Hs. pose proof (wf_sek_bytes _ _ Hwf).
  unfold HAICRYPT_KEY_MAX_SZ in Hs.
  split_and!; [rewrite length_memcpy; lia|auto with bytes|by apply memcpy_read_app].
Qed.

(** Salt and key length of the stream, set in a context. *)
Definition km_ctx (n : nat) (sl : bytes) (c : hcrypt_Ctx) : hcrypt_Ctx :=
  set_sek n (sek c) (set_salt 16 sl c).

Lemma km_ctx_id n sl c : salt_len c = 16%nat → salt c = sl → sek_len c = n → km_ctx n sl c = c.
Proof. destruct c; simpl. by intros -> -> ->. Qed.

Lemma wf_km_ctx sd n sl c :
  length sl = 16%nat → are_bytes sl → ctx_wf sd c → ctx_wf sd (km_ctx n sl c).
Proof. intros ?? Hwf. unfold km_ctx. destruct Hwf. by split. Qed.

Lemma update_kek_run s sd pw sl n :
  rx_ready s pw sl n → aes_key_len n → length sl = 16%nat → are_bytes sl →
  ∃ dk kl st, kek_key false pw sl n = Some dk ∧
    rx_update_kek sd 16 n sl s =
      Some (Some kl, upd_ctx sd (λ c, set_status (st c) (km_ctx n sl c))
                       (set_cb (set_kek dk (cryspr_cb s)) s)).
Proof.
  intros Hrx Haes Hsl Hslb. pose proof (rx_wf _ _ _ _ Hrx sd) as Hwf.
  destruct (kek_key_total pw sl n Haes) as (ek & dk & _ & Hdk).
  set (c := get_ctx sd s) in *. pose proof (wf_salt _ _ Hwf) as Hcs. unfold HAICRYPT_SALT_SZ in Hcs.
  exists dk. set (new_salt := negb (16 =? salt_len c)%nat || negb (bool_decide (take 16 (salt c) = sl))).
  set (new_len := negb (n =? sek_len c)%nat).
  assert (Hns : new_salt = false → salt_len c = 16%nat ∧ salt c = sl).
  { unfold new_salt. rewrite orb_false_iff, !negb_false_iff, bool_decide_eq_true, Nat.eqb_eq.
    rewrite take_ge by lia. intros []; auto. }
  assert (Hnl : new_len = false → sek_len c = n).
  { unfold new_len. rewrite negb_false_iff, Nat.eqb_eq. auto. }
  unfold rx_update_kek. hc_step. fold c. fold new_salt new_len.
  assert (Hm1 : (if new_salt then modc sd (λ c, set_salt 16 (memcpy (salt c) 0 sl) c) else ret tt) s =
    Some (tt, upd_ctx sd (set_salt 16 sl) s)).
  { destruct new_salt; unfold modc, modify, ret.
    - do 2 f_equal. apply upd_ext. fold c. by rewrite memcpy_full by lia.
    - destruct (Hns eq_refl). do 2 f_equal. symmetry. apply upd_id. fold c.
      unfold set_salt. destruct c; simpl in *. by subst. }
  rewrite (bind_some _ _ _ _ _ Hm1).
  assert (Hm2 : (if new_len then modc sd (λ c, set_sek n (sek c) c) else ret tt)
      (upd_ctx sd (set_salt 16 sl) s) = Some (tt, upd_ctx sd (km_ctx n sl) s)).
  { destruct new_len; unfold modc, modify, ret; [by rewrite upd_upd|].
    do 2 f_equal. apply upd_ext. fold c. unfold km_ctx, set_sek, set_salt.
    destruct c; simpl in *. by rewrite (Hnl eq_refl). }
  rewrite (bind_some _ _ _ _ _ Hm2).
  rewrite (proj2 (Nat.eqb_neq _ _)) by apply (rx_pwd _ _ _ _ Hrx). cbn [negb andb].
  destruct (new_salt || new_len) eqn:Hdo.
  - destruct (GenSecret_run (upd_ctx sd (km_ctx n sl) s) sd n) as (k & Hk & Hrun);
      rewrite ?get_upd_eq; fold c; [by apply wf_km_ctx|done|done|done|].
    rewrite get_upd_eq in Hk. fold c in Hk.
    change (has_flag _ (km_ctx n sl c)) with (has_flag HCRYPT_CTX_F_ENCRYPT c) in Hk.
    change (ctx_pwd (km_ctx n sl c)) with (ctx_pwd c) in Hk.
    change (salt (km_ctx n sl c)) with sl in Hk.
    pose proof (rx_dec _ _ _ _ Hrx sd) as Hdec. pose proof (proj2 (rx_pwd _ _ _ _ Hrx sd)) as Hpw.
    fold c in Hdec, Hpw. rewrite Hdec, Hpw, Hdk in Hk. simplify_eq.
    rewrite (bind_some _ _ _ _ _ Hrun). change (negb (0 =? 0)) with false. cbv iota. hc_step.
    exists n, (λ _, HCRYPT_CTX_S_SARDY). split; [done|]. unfold ret. do 2 f_equal.
    change (set_cb ?cb (upd_ctx sd ?f s)) with (upd_ctx sd f (set_cb cb s)).
    by rewrite upd_upd.
  - apply orb_false_iff in Hdo as [Hd1 Hd2]. destruct (Hns Hd1) as [H1 H2].
    exists 0%nat, status. split; [done|]. unfold ret. do 2 f_equal.
    assert (Hkek : aes_kek (cryspr_cb s) = Some dk).
    { rewrite <- Hdk. apply (rx_kek _ _ _ _ Hrx sd); auto. }
    assert (set_cb (set_kek dk (cryspr_cb s)) s = s) as ->.
    { unfold set_kek. rewrite <- Hkek. by destruct s as [???[] ????????]. }
    apply upd_ext. by destruct (get_ctx sd s).
Qed.

(** The part of [rx_ready] that concerns one context, and the updates that
    keep it. *)
Definition rx_ctx (pw : bytes) (sd : side) (c : hcrypt_Ctx) : Prop :=
  ctx_wf sd c ∧ (pwd_len c ≠ 0%nat ∧ ctx_pwd c = pw) ∧ has_flag HCRYPT_CTX_F_ENCRYPT c = false.

Lemma rx_ready_ctx s pw sl n sd : rx_ready s pw sl n → rx_ctx pw sd (get_ctx sd s).
Proof. intros []. split; [auto|split; auto]. Qed.

Lemma rx_ready_intro s pw sl n :
  se s = HCRYPT_SE_TSSRT → ses_msg_info s = hcryptMsg_SRT_MsgInfo → cb_ok (cryspr_cb s) →
  (∀ sd, cur s ≠ SrcCtx sd) → (∀ sd, rx_ctx pw sd (get_ctx sd s)) →
  aes_kek (cryspr_cb s) = kek_key false pw sl n → rx_ready s pw sl n.
Proof. intros ???? Hc ?. split; try done; intros sd; destruct (Hc sd) as (?&?&?); auto. Qed.

Lemma rx_ctx_status pw sd v c : rx_ctx pw sd c → rx_ctx pw sd (set_status v c).
Proof. intros (?&?&?). split; [by apply wf_set_status|done]. Qed.
Lemma rx_ctx_km_ctx pw sd n sl c :
  length sl = 16%nat → are_bytes sl → rx_ctx pw sd c → rx_ctx pw sd (km_ctx n sl c).
Proof. intros ?? (?&?&?). split; [by apply wf_km_ctx|done]. Qed.
Lemma rx_ctx_salt pw sd n sl c :
  length sl = 16%nat → are_bytes sl → rx_ctx pw sd c → rx_ctx pw sd (set_salt n sl c).
Proof. intros ?? (?&?&?). split; [by apply wf_set_salt|done]. Qed.

(** Effect of the rekeying of a context and of the refresh of its cache. *)
Definition install_ctx (key msg : bytes) (c : hcrypt_Ctx) : hcrypt_Ctx :=
  set_KMmsg (length msg) (memcpy (KMmsg_cache c) 0 msg)
    (set_status HCRYPT_CTX_S_KEYED (set_sek (length key) (memcpy (sek c) 0 key) c)).
Definition installed (sd : side) (key : bytes) (k : AES_KEY) (msg : bytes) (s : ses) : ses :=
  upd_ctx sd (install_ctx key msg) (set_cb (set_aes_sek (side_index sd) k (cryspr_cb s)) s).

Lemma rx_ctx_install pw sd key msg c :
  (length key <= 32)%nat → are_bytes key → (length msg <= 120)%nat →
  rx_ctx pw sd c → rx_ctx pw sd (install_ctx key msg c).
Proof.
  intros Hk Hkb Hm (Hwf & ? & ?). destruct (wf_sek_update sd key c Hk Hkb Hwf) as (? & ? & _).
  split; [|done]. apply wf_set_KMmsg.
  { pose proof (wf_cache _ _ Hwf) as Hc.
    change (HCRYPT_CTX_MAX_KM_PFX_SZ + HCRYPT_MSG_KM_MAX_SZ)%nat with 120%nat in Hc.
    by rewrite length_memcpy; lia. }
  by apply wf_set_status, wf_set_sek.
Qed.

Lemma install_run s sd key msg :
  ctx_wf sd (get_ctx sd s) → aes_key_len (length key) → are_bytes key →
  ∃ k, sek_key key = Some k ∧
    (hcryptCtx_Rx_Rekey sd key ;;;
     modc sd (λ c, set_KMmsg (length msg) (memcpy (KMmsg_cache c) 0 msg) c)) s =
      Some (tt, installed sd key k msg s).
Proof.
  intros Hwf Hl Hb. destruct (Rx_Rekey_run s sd key Hwf Hl Hb) as (k & Hk & Hrun).
  exists k. split; [done|]. rewrite (bind_some _ _ _ _ _ Hrun). unfold modc, modify, rekeyed.
  by rewrite upd_upd.
Qed.

(** After it the context holds the key. *)
Lemma installed_keyed pw s sd key k msg sl :
  rx_ctx pw sd (get_ctx sd s) → sek_key key = Some k → (length key <= 32)%nat → are_bytes key →
  (length msg <= 120)%nat → length (aes_sek (cryspr_cb s)) = 2%nat →
  salt_len (get_ctx sd s) = 16%nat → salt (get_ctx sd s) = sl →
  let s' := installed sd key k msg s in
  rx_keyed s' sd sl key ∧ KMmsg_len (get_ctx sd s') = length msg ∧
  take (length msg) (KMmsg_cache (get_ctx sd s')) = msg.
Proof.
  intros (Hwf & _) Hk Hkl Hkb Hm Hcb Hsl Hs s'. unfold s', installed, rx_keyed.
  rewrite !get_upd_eq, !get_set_cb. set (c := get_ctx sd s) in *.
  destruct (wf_sek_update sd key c Hkl Hkb Hwf) as (_ & _ & Hsek).
  split; [|split; [done|by apply memcpy_read_app]].
  split_and!; [done|done|done|done| |].
  - unfold ctx_sek. simpl. done.
  - exists k. split; [done|]. simpl. apply list_lookup_insert_eq. pose proof (side_index_lt sd). lia.
Qed.

(** The key that a message with flags [kf] brings to context [sd]. *)
Definition km_key (kf : Z) (n : nat) (sd : side) (seks : bytes) : bytes :=
  match sd with
  | Odd => if kf =? 3 then take n (drop n seks) else take n seks
  | Even => take n seks
  end.
(** Whether it brings one. *)
Definition km_covers (kf : Z) (sd : side) : bool := negb (Z.land kf (side_flag sd) =? 0).

Lemma wf_odd_flag sd c :
  ctx_wf sd c → negb (Z.land (flags c) HCRYPT_MSG_F_oSEK =? 0) = bool_decide (sd = Odd).
Proof.
  intros Hwf. pose proof (wf_flags _ _ Hwf) as H. unfold hcryptCtx_GetKeyFlags in H.
  replace (Z.land (flags c) HCRYPT_MSG_F_oSEK) with (Z.land (side_flag sd) HCRYPT_MSG_F_oSEK).
  - by destruct sd.
  - rewrite <- H, <- Z.land_assoc. done.
Qed.

Lemma pick_key sd c kf n seks :
  ctx_wf sd c → km_pick_sek (km_cnt kf) n (flags c) seks = km_key kf n sd seks.
Proof.
  intros Hwf. unfold km_pick_sek. rewrite (wf_odd_flag sd) by done. unfold km_cnt, km_key.
  by destruct (kf =? 3), sd.
Qed.

Lemma km_key_ok kf n sd seks :
  are_bytes seks → length seks = (km_cnt kf * n)%nat →
  length (km_key kf n sd seks) = n ∧ are_bytes (km_key kf n sd seks).
Proof.
  intros Hb Hl. unfold km_key, km_cnt in *.
  destruct sd, (kf =? 3); (split; [len|auto with bytes]).
Qed.

(** What the installation of the keys of a message makes of the session. *)
Definition km_installed (s s' : ses) (kf : Z) (n : nat) (sl seks msg : bytes) : Prop :=
  cur s' = cur s ∧ outbuf_siz (cryspr_cb s') = outbuf_siz (cryspr_cb s) ∧
  ∀ sd, if km_covers kf sd
        then rx_keyed s' sd sl (km_key kf n sd seks) ∧ KMmsg_len (get_ctx sd s') = length msg ∧
             take (length msg) (KMmsg_cache (get_ctx sd s')) = msg
        else get_ctx sd s' = get_ctx sd s ∧
             aes_sek (cryspr_cb s') !! side_index sd = aes_sek (cryspr_cb s) !! side_index sd.

Lemma cb_ok_set_sek (cb : CRYSPR_cb AES_KEY) i k : cb_ok cb → cb_ok (set_aes_sek i k cb).
Proof. intros (?&?&?&?). split; [simpl; len|done]. Qed.
Lemma cb_ok_set_kek (cb : CRYSPR_cb AES_KEY) k : cb_ok cb → cb_ok (set_kek k cb).
Proof. done. Qed.

Section install.
Context (pw sl : bytes) (n : nat) (kf : Z) (seks msg : bytes).
Context (Haes : aes_key_len n) (Hsl : length sl = 16%nat) (Hslb : are_bytes sl).
Context (Hkf : 1 <= kf <= 3) (Hsb : are_bytes seks) (Hsl' : length seks = (km_cnt kf * n)%nat).
Context (Hmsg : (length msg <= 120)%nat).

Lemma rx_install_run s sd kl :
  se s = HCRYPT_SE_TSSRT → ses_msg_info s = hcryptMsg_SRT_MsgInfo → cb_ok (cryspr_cb s) →
  (∀ sd, cur s ≠ SrcCtx sd) → (∀ sd, rx_ctx pw sd (get_ctx sd s)) →
  aes_kek (cryspr_cb s) = kek_key false pw sl n →
  salt_len (get_ctx sd s) = 16%nat → salt (get_ctx sd s) = sl → km_covers kf sd = true →
  ∃ s', rx_install_seks sd msg sl 16 n (km_cnt kf) kl seks s = Some (tt, s') ∧
    rx_ready s' pw sl n ∧ km_installed s s' kf n sl seks msg.
Proof using All.
  intros Hse Hmi Hcb Hown Hctx Hkek Hs1 Hs2 Hcov.
  destruct (aes_key_len_div n Haes) as (_ & _ & Hle & _).
  destruct (km_key_ok kf n sd seks Hsb Hsl') as [Hkl Hkb].
  unfold rx_install_seks. hc_step. rewrite (pick_key sd) by apply (Hctx sd).
  destruct (install_run s sd (km_key kf n sd seks) msg) as (k & Hk & Hrun);
    [apply (Hctx sd)|by rewrite Hkl|done|].
  assert (Hbind : ∀ A B C (m1 : M (K := AES_KEY) A) (m2 : M B) (m3 : M C) x,
    (m1 ;;; m2 ;;; m3) x = ((m1 ;;; m2) ;;; m3) x).
  { intros. unfold bind. by destruct (m1 x) as [[]|]. }
  rewrite Hbind, (bind_some _ _ _ _ _ Hrun). clear Hrun.
  destruct (installed_keyed pw s sd (km_key kf n sd seks) k msg sl) as (Hk1 & Hk2 & Hk3);
    [done|done|lia|done|done|apply Hcb|done|done|].
  set (s1 := installed sd (km_key kf n sd seks) k msg s) in *.
  assert (Hc1 : rx_ctx pw sd (get_ctx sd s1)).
  { unfold s1, installed. rewrite get_upd_eq, get_set_cb. apply rx_ctx_install; [lia|done..]. }
  assert (Ha1 : get_ctx (alt sd) s1 = get_ctx (alt sd) s).
  { unfold s1, installed. by rewrite get_alt_upd, get_set_cb. }
  assert (Hcb1 : cb_ok (cryspr_cb s1)) by (by apply cb_ok_set_sek).
  assert (Hsek1 : aes_sek (cryspr_cb s1) !! side_index (alt sd) =
    aes_sek (cryspr_cb s) !! side_index (alt sd)).
  { simpl. by rewrite list_lookup_insert_ne by (pose proof (side_index_ne sd); done). }
  assert (Hside : ∀ sd', sd' = sd ∨ sd' = alt sd) by (intros []; destruct sd; auto).
  destruct (2 =? km_cnt kf)%nat eqn:Hcnt.
  - assert (Hcov' : km_covers kf (alt sd) = true).
    { unfold km_cnt in Hcnt. destruct (Z.eqb_spec kf 3) as [->|]; [|done]. by destruct sd. }
    hc_step. rewrite Ha1. hc_step.
    assert (Hst : (if (0 <? kl)%nat then modc (alt sd) (set_status HCRYPT_CTX_S_SARDY) else ret tt)
      (upd_ctx (alt sd) (λ c, set_salt 16 (memcpy (salt c) 0 sl) c) s1) =
      Some (tt, upd_ctx (alt sd) (λ c, set_status (if (0 <? kl)%nat then HCRYPT_CTX_S_SARDY
        else status c) (set_salt 16 sl c)) s1)).
    { pose proof (wf_salt _ _ (proj1 (Hctx (alt sd)))) as Hws. unfold HAICRYPT_SALT_SZ in Hws.
      destruct (0 <? kl)%nat; unfold modc, modify, ret; [rewrite upd_upd|]; do 2 f_equal;
        apply upd_ext; rewrite Ha1; rewrite memcpy_full by lia; [done|].
      by destruct (get_ctx (alt sd) s). }
    rewrite (bind_some _ _ _ _ _ Hst). clear Hst.
    set (s2 := upd_ctx (alt sd) _ s1).
    assert (Hc2 : rx_ctx pw (alt sd) (get_ctx (alt sd) s2)).
    { unfold s2. rewrite get_upd_eq, Ha1. by apply rx_ctx_status, rx_ctx_salt. }
    destruct (km_key_ok kf n (alt sd) seks Hsb Hsl') as [Hkl' Hkb'].
    rewrite (pick_key (alt sd)) by apply (Hctx (alt sd)).
    destruct (install_run s2 (alt sd) (km_key kf n (alt sd) seks) msg) as (k' & Hk' & Hrun);
      [apply Hc2|by rewrite Hkl'|done|].
    destruct (installed_keyed pw s2 (alt sd) (km_key kf n (alt sd) seks) k' msg sl)
      as (Hk1' & Hk2' & Hk3'); [done|done|lia|done|done|apply Hcb1| | |].
    { unfold s2. by rewrite get_upd_eq. } { unfold s2. by rewrite get_upd_eq. }
    set (s3 := installed (alt sd) (km_key kf n (alt sd) seks) k' msg s2) in *.
    assert (Hg3 : get_ctx sd s3 = get_ctx sd s1).
    { unfold s3, installed. rewrite get_upd_alt, get_set_cb. unfold s2. by rewrite get_upd_alt. }
    assert (Hsek3 : aes_sek (cryspr_cb s3) !! side_index sd = aes_sek (cryspr_cb s1) !! side_index sd).
    { simpl. by rewrite list_lookup_insert_ne by apply side_index_ne. }
    exists s3. split; [done|]. split.
    + apply rx_ready_intro; try done; [by apply cb_ok_set_sek|].
      intros sd'. destruct (Hside sd') as [->| ->]; [by rewrite Hg3|].
      unfold s3, installed. rewrite get_upd_eq, get_set_cb. apply rx_ctx_install; [lia|done..].
    + split; [done|]. split; [done|]. intros sd'. destruct (Hside sd') as [->| ->].
      * rewrite Hcov, Hg3. split; [|done]. unfold rx_keyed. rewrite Hg3, Hsek3. exact Hk1.
      * by rewrite Hcov'.
  - assert (Hcov' : km_covers kf (alt sd) = false).
    { unfold km_cnt in Hcnt. destruct (Z.eqb_spec kf 3) as [->|]; [done|].
      unfold km_covers in *. assert (kf = 1 ∨ kf = 2) as [->| ->] by lia; by destruct sd. }
    exists s1. split; [done|]. split.
    + apply rx_ready_intro; try done.
      intros sd'. destruct (Hside sd') as [->| ->]; [done|by rewrite Ha1].
    + split; [done|]. split; [done|]. intros sd'. destruct (Hside sd') as [->| ->].
      * by rewrite Hcov.
      * by rewrite Hcov'.
Qed.
End install.

(** The context a message is checked against first. *)
Definition km_first (s : ses) (kf : Z) : side :=
  if kf =? 3 then match cur s with OwnCtx sd => alt sd | _ => Odd end
  else if kf =? 1 then Even else Odd.

Lemma km_first_covered s kf : 1 <= kf <= 3 → km_covers kf (km_first s kf) = true.
Proof.
  intros. unfold km_first. assert (kf = 1 ∨ kf = 2 ∨ kf = 3) as [->|[->| ->]] by lia; try done.
  destruct (cur s) as [|[]|]; done.
Qed.

(** A receiver that knows the pass phrase of the stream takes over the keys
    of a message: parsing answers 0, and every context the message has a key
    for holds that key and the salt. *)
Lemma ParseKM_run s pw sl n kf seks ek w :
  rx_ready s pw sl n → aes_key_len n → length sl = 16%nat → are_bytes sl →
  1 <= kf <= 3 → are_bytes seks → length seks = (km_cnt kf * n)%nat →
  kek_key true pw sl n = Some ek → AES_wrap_key ek None seks = Some w →
  let msg := km_msg kf n sl w in
  ∃ s', hcryptCtx_Rx_ParseKM msg s = Some (0, s') ∧ rx_ready s' pw sl n ∧
    km_installed s s' kf n sl seks msg.
Proof.
  intros Hrx Haes Hsl Hslb Hkf Hsb Hsl' Hek Hw msg.
  destruct (aes_key_len_div n Haes) as (_ & _ & Hle & Hge).
  assert (Hcnt : km_cnt kf = 1%nat ∨ km_cnt kf = 2%nat) by (unfold km_cnt; destruct (_ =? _); auto).
  destruct (kek_key_total pw sl n Haes) as (ek' & dk & Hek' & Hdk). simplify_eq.
  assert (∃ m, length seks = (8 * m)%nat ∧ (2 <= m <= 8)%nat) as (m & Hm & Hmb).
  { exists (km_cnt kf * n / 8)%nat. rewrite Hsl'.
    destruct Haes as [->|[->| ->]], Hcnt as [-> | ->]; vm_compute; lia. }
  destruct (wrap_seks _ _ _ _ _ _ m Hek Hdk Hsb Hm Hmb) as (w' & Hw' & Hwl & Hunw). simplify_eq.
  assert (Hmsgl : (length msg <= 120)%nat).
  { unfold msg. rewrite (length_km_msg kf n) by done. rewrite Hwl, Hsl'.
    destruct Hcnt as [-> | ->]; lia. }
  assert (Hcov := km_first_covered s kf Hkf).
  unfold hcryptCtx_Rx_ParseKM. hc_step. rewrite (rx_se _ _ _ _ Hrx). unfold msg.
  rewrite (km_validate_ok kf n sl w) by (done || lia). rewrite (km_salt kf n sl w) by done.
  hc_step. rewrite (km_both kf n sl w) by done.
  assert (Hsd : (match (kf =? 3)%Z, cur s with
    | true, OwnCtx sd => ret (alt sd)
    | true, SrcCtx _ => deref None
    | _, _ => ret (side_of (hcryptMsg_KM_GetKeyIndex (km_msg kf n sl w)))
    end) s = Some (km_first s kf, s)).
  { rewrite (km_key_index kf n sl w) by done. unfold km_first.
    pose proof (rx_own _ _ _ _ Hrx) as Hown.
    destruct (Z.eqb_spec kf 3) as [->|]; [|done].
    destruct (cur s) as [| |sd]; [done|done|by destruct (Hown sd)]. }
  rewrite (bind_some _ _ _ _ _ Hsd). clear Hsd. set (sd := km_first s kf) in *.
  destruct (update_kek_run s sd pw sl n Hrx Haes Hsl Hslb) as (dk' & kl & st & Hdk' & Hrun).
  simplify_eq. rewrite (bind_some _ _ _ _ _ Hrun). clear Hrun.
  set (s1 := upd_ctx sd _ _). hc_step. change (cryspr_cb s1) with (set_kek dk (cryspr_cb s)).
  assert (Hu : crysprOpenSSL_KmUnwrap (set_kek dk (cryspr_cb s))
    (take (km_cnt kf * n + HAICRYPT_WRAPKEY_SIGN_SZ)
       (drop (HCRYPT_MSG_KM_OFS_SALT + 16) (km_msg kf n sl w))) = Some (Some seks)).
  { rewrite (km_wrapped kf n sl w) by (done || (unfold HAICRYPT_WRAPKEY_SIGN_SZ; lia)).
    unfold crysprOpenSSL_KmUnwrap. simpl. rewrite Hunw. unfold HAICRYPT_WRAPKEY_SIGN_SZ.
    replace (Z.of_nat (length w) - Z.of_nat 8) with (Z.of_nat (length seks)) by lia.
    by rewrite Z.eqb_refl. }
  rewrite (bind_deref _ _ _ _ Hu). clear Hu.
  assert (Hctx1 : ∀ sd', rx_ctx pw sd' (get_ctx sd' s1)).
  { intros sd'. unfold s1. destruct (decide (sd' = sd)) as [->|].
    - rewrite get_upd_eq, get_set_cb. apply rx_ctx_status, rx_ctx_km_ctx; [done..|].
      by apply (rx_ready_ctx _ _ _ _ _ Hrx).
    - rewrite get_upd_ne, get_set_cb by done. by apply (rx_ready_ctx _ _ _ _ _ Hrx). }
  destruct (rx_install_run pw sl n kf seks (km_msg kf n sl w) Haes Hsl Hslb Hkf Hsb Hsl' Hmsgl s1 sd kl)
    as (s' & Hrun & Hrx' & Hcur & Hsiz & Hinst).
  { apply (rx_se _ _ _ _ Hrx). } { apply (rx_mi _ _ _ _ Hrx). }
  { apply cb_ok_set_kek, (rx_cb _ _ _ _ Hrx). } { apply (rx_own _ _ _ _ Hrx). } { done. } { done. }
  { unfold s1. by rewrite get_upd_eq. } { unfold s1. by rewrite get_upd_eq. } { done. }
  rewrite (bind_some _ _ _ _ _ Hrun). exists s'. split; [done|]. split; [done|].
  split; [done|]. split; [done|]. intros sd'. specialize (Hinst sd').
  destruct (km_covers kf sd') eqn:Hc; [done|]. destruct Hinst as [-> ->]. split; [|done].
  unfold s1. rewrite get_upd_ne, get_set_cb; [done|]. intros ->. congruence.
Qed.

(** A message that is refused installs no key: the provider keeps its SEKs, the current
    context stays the current one, the context that the message is for keeps its SEK, its
    cached message and all but the salt, the length of the SEK and the status, and the
    other context is not changed. *)
Definition kept_ctx (c c' : hcrypt_Ctx) : Prop :=
  ∃ l sl n st, c' = set_status st (set_sek n (sek c) (set_salt l sl c)).
Definition same_seks (sd : side) (s s' : ses) : Prop :=
  aes_sek (cryspr_cb s') = aes_sek (cryspr_cb s) ∧ cur s' = cur s ∧
  kept_ctx (get_ctx sd s) (get_ctx sd s') ∧ get_ctx (alt sd) s' = get_ctx (alt sd) s.

Lemma kept_ctx_refl c : kept_ctx c c.
Proof. exists (salt_len c), (salt c), (sek_len c), (status c). by destruct c. Qed.
Lemma same_seks_refl sd s : same_seks sd s s.
Proof. split_and!; try done. apply kept_ctx_refl. Qed.
Lemma same_seks_trans sd s s' s'' : same_seks sd s s' → same_seks sd s' s'' → same_seks sd s s''.
Proof.
  intros (?&?&(?&?&?&?&Hk)&?) (?&?&(l&sl&n&st&Hk')&?). split_and!; [congruence..| |congruence].
  exists l, sl, n, st. by rewrite Hk', Hk.
Qed.
Lemma same_seks_upd s sd f :
  (∀ c, kept_ctx c (f c)) → same_seks sd s (upd_ctx sd f s).
Proof. intros Hf. split_and!; [done|done| |]; destruct sd; simpl; auto. Qed.
Lemma same_seks_kek sd s k : same_seks sd s (set_cb (set_kek k (cryspr_cb s)) s).
Proof. split_and!; try done; destruct sd; try done; apply kept_ctx_refl. Qed.

Lemma GenSecret_same s sd r s' : hcryptCtx_GenSecret sd s = Some (r, s') → same_seks sd s s'.
Proof.
  unfold hcryptCtx_GenSecret. hc_step. unfold bind at 1, assert.
  destruct (_ <=? HAICRYPT_KEY_MAX_SZ)%nat; [|done].
  destruct (crysprOpenSSL_KmPbkdf2 _ _ _ _) as [kek|]; [|intros [= _ <-]; apply same_seks_refl].
  unfold km_setkey. unfold bind at 1. hc_step. unfold crysprFallback_KmSetKey.
  destruct (crysprOpenSSL_AES_SetKey _ _) as [k|]; cbn; intros [= _ <-]; [|apply same_seks_refl].
  apply same_seks_kek.
Qed.

Lemma update_kek_same s sd a b c r s' : rx_update_kek sd a b c s = Some (r, s') → same_seks sd s s'.
Proof.
  unfold rx_update_kek. hc_step. set (new_salt := _ || _). set (new_len := negb _).
  assert (∃ s1, (if new_salt then modc sd (λ c0, set_salt a (memcpy (salt c0) 0 c) c0) else ret tt) s =
    Some (tt, s1) ∧ same_seks sd s s1) as (s1 & Hs1 & H1).
  { destruct new_salt; eexists; (split; [done|]); [apply same_seks_upd; intros c0; exists a, (memcpy (salt c0) 0 c), (sek_len c0), (status c0); by destruct c0|apply same_seks_refl]. }
  rewrite (bind_some _ _ _ _ _ Hs1).
  assert (∃ s2, (if new_len then modc sd (λ c0, set_sek b (sek c0) c0) else ret tt) s1 =
    Some (tt, s2) ∧ same_seks sd s s2) as (s2 & Hs2 & H2).
  { destruct new_len; eexists; (split; [done|]); [|done].
    eapply same_seks_trans; [done|apply same_seks_upd; intros c0; exists (salt_len c0), (salt c0), b, (status c0); by destruct c0]. }
  rewrite (bind_some _ _ _ _ _ Hs2). destruct (_ && _); [|unfold ret; intros ?; by simplify_eq].
  destruct (hcryptCtx_GenSecret sd s2) as [[r3 s3]|] eqn:Hg; [|by rewrite bind_none].
  rewrite (bind_some _ _ _ _ _ Hg). apply GenSecret_same in Hg.
  destruct (negb (r3 =? 0)); [unfold ret; intros ?; simplify_eq; by apply (same_seks_trans _ _ s2)|].
  hc_step. unfold ret. intros ?. simplify_eq.
  apply (same_seks_trans _ _ s2); [done|]. apply (same_seks_trans _ _ s3); [done|].
  apply same_seks_upd. intros c0. eexists (salt_len c0), (salt c0), (sek_len c0), _. by destruct c0.
Qed.

Lemma ParseKM_refused s msg r s' :
  hcryptCtx_Rx_ParseKM msg s = Some (r, s') → r ≠ 0 → (∃ sd, same_seks sd s s') ∧ (r = -1 ∨ r = -2).
Proof.
  unfold hcryptCtx_Rx_ParseKM. hc_step. destruct (km_validate _ _) as [[[a b] c]|].
  2: { intros [= <- <-]. split; [exists Even; apply same_seks_refl|by left]. }
  hc_step. set (pick := match hcryptMsg_KM_HasBothSek msg with true => _ | false => _ end).
  assert (Hpick : pick s = None ∨ ∃ sd, pick s = Some (sd, s)).
  { unfold pick. destruct (hcryptMsg_KM_HasBothSek msg), (cur s); eauto. }
  destruct Hpick as [Hp|[sd Hp]]; [by rewrite bind_none|].
  rewrite (bind_some _ _ _ _ _ Hp).
  destruct (rx_update_kek sd a b (take a (drop HCRYPT_MSG_KM_OFS_SALT msg)) s)
    as [[kl s1]|] eqn:Hu; [|by rewrite bind_none].
  rewrite (bind_some _ _ _ _ _ Hu). apply update_kek_same in Hu.
  destruct kl as [kl|]; [|intros [= <- <-]; split; [by exists sd|by left]].
  hc_step. unfold bind at 1, deref. destruct (crysprOpenSSL_KmUnwrap _ _) as [[seks|]|]; simpl; [| |done].
  - unfold bind. destruct (rx_install_seks _ _ _ _ _ _ _ _ _) as [[]|]; [|done]. by intros [= <- <-].
  - intros [= <- <-]. split; [by exists sd|by right].
Qed.

(** ** Data packets *)
Context (v : variant) (little aligned : bool).
Local Abbreviation CtrCipher := (crysprOpenSSL_AES_CtrCipher v little aligned).
Local Abbreviation Tx_Data := (HaiCrypt_Tx_Data v little aligned).
Local Abbreviation Rx_Data := (HaiCrypt_Rx_Data v little aligned).

Lemma Tx_Data_run s sd k pfx payload :
  cur s = OwnCtx sd → ctx_wf sd (get_ctx sd s) → cb_ok (cryspr_cb s) →
  aes_sek (cryspr_cb s) !! side_index sd = Some (Some k) → Block128 AES_encrypt k →
  (16 <= length pfx)%nat → are_bytes payload → (0 < length payload)%nat →
  Z.of_nat (16 + length payload) <= outbuf_siz (cryspr_cb s) →
  ∃ cb', Tx_Data pfx payload s =
      Some ((0, pfx, CtrCipher k (packet_iv (get_ctx sd s) pfx) payload),
            upd_ctx sd (λ c, set_pkt_cnt (u32 (pkt_cnt c + 1)) c) (set_cb cb' s)) ∧
    cb_ok cb' ∧ cb_same (cryspr_cb s) cb'.
Proof.
  intros Hcur Hwf Hcb Hk Hblk Hpl Hpb Hpos Hfit.
  destruct (MsEncrypt_spec v little aligned (get_ctx sd s) pfx k (wf_msg_info _ _ Hwf) (wf_mode _ _ Hwf)
    Hblk (wf_salt _ _ Hwf) (wf_salt_bytes _ _ Hwf) (cryspr_cb s) payload false Hcb)
    as (cb' & ofs & Hrun & Hcb' & Hsame & _); try done.
  { by rewrite (wf_key_index sd). }
  exists cb'. split; [|done]. unfold HaiCrypt_Tx_Data. hc_step. rewrite Hcur.
  rewrite (bind_get_cur _ _ _ Hcur). hc_step. rewrite (bind_deref _ _ _ _ (wf_msg_info _ _ Hwf)).
  change (indexMsg hcryptMsg_SRT_MsgInfo pfx (MSpfx_cache (get_ctx sd s))) with pfx.
  hc_step. rewrite (bind_deref _ _ _ _ Hrun). hc_step. cbn [ms_ret ms_cb ms_pfx ms_payload].
  change (0 <? 0) with false. cbv iota. by hc_step.
Qed.

Lemma data_side pfx sd :
  hcryptMsg_SRT_GetKeyFlags pfx = side_flag sd →
  side_of (hcryptMsg_GetKeyIndex hcryptMsg_SRT_MsgInfo pfx) = sd.
Proof.
  intros H. unfold hcryptMsg_GetKeyIndex. change (getKeyFlags _ pfx) with (hcryptMsg_SRT_GetKeyFlags pfx).
  rewrite H. by destruct sd.
Qed.

Lemma Rx_Data_run s sd k pfx payload :
  ses_msg_info s = hcryptMsg_SRT_MsgInfo → ctx_wf sd (get_ctx sd s) → cb_ok (cryspr_cb s) →
  HCRYPT_CTX_S_KEYED <= status (get_ctx sd s) →
  aes_sek (cryspr_cb s) !! side_index sd = Some (Some k) → Block128 AES_encrypt k →
  hcryptMsg_SRT_GetKeyFlags pfx = side_flag sd →
  are_bytes payload → (0 < length payload)%nat → Z.of_nat (length payload) < 2 ^ 31 →
  Z.of_nat (length payload) <= outbuf_siz (cryspr_cb s) →
  ∃ cb', Rx_Data pfx payload s =
      Some ((Z.of_nat (length payload), CtrCipher k (packet_iv (get_ctx sd s) pfx) payload),
            set_cb cb' (set_cur (OwnCtx sd) s)) ∧
    cb_ok cb' ∧ cb_same (cryspr_cb s) cb'.
Proof.
  intros Hmi Hwf Hcb Hst Hk Hblk Hfl Hpb Hpos H31 Hfit.
  destruct (MsDecrypt_spec v little aligned (get_ctx sd s) pfx k (wf_msg_info _ _ Hwf) (wf_mode _ _ Hwf)
    Hblk (wf_salt _ _ Hwf) (wf_salt_bytes _ _ Hwf) (cryspr_cb s) payload false Hcb)
    as (cb' & ofs & Hrun & Hcb' & Hsame & _); try done.
  { by rewrite (wf_key_index sd). }
  exists cb'. split; [|done]. unfold HaiCrypt_Rx_Data. hc_step. rewrite Hmi, (data_side pfx sd Hfl).
  hc_step. hc_step. rewrite (proj2 (Z.leb_le _ _)) by done. hc_step.
  change (cryspr_cb (set_cur _ s)) with (cryspr_cb s).
  rewrite (bind_deref _ _ _ _ Hrun). hc_step. cbn [ms_ret ms_cb ms_pfx ms_payload].
  change (0 <? 0) with false. cbv iota. unfold ret. do 3 f_equal. unfold i32.
  rewrite Z.mod_small by lia. lia.
Qed.

(** Context [sd] of a sender encrypts with [key]. *)
Definition tx_keyed (s : ses) (sd : side) (sl key : bytes) : Prop :=
  salt (get_ctx sd s) = sl ∧
  ∃ k, sek_key key = Some k ∧ aes_sek (cryspr_cb s) !! side_index sd = Some (Some k).

(** What one side encrypts the other decrypts, as soon as they hold the same
    key and salt. *)
Lemma data_roundtrip s r sd sl key pfx payload :
  cur s = OwnCtx sd → ctx_wf sd (get_ctx sd s) → cb_ok (cryspr_cb s) → tx_keyed s sd sl key →
  ses_msg_info r = hcryptMsg_SRT_MsgInfo → ctx_wf sd (get_ctx sd r) → cb_ok (cryspr_cb r) →
  rx_keyed r sd sl key →
  (16 <= length pfx)%nat → hcryptMsg_SRT_GetKeyFlags pfx = side_flag sd →
  are_bytes payload → (0 < length payload)%nat → Z.of_nat (length payload) < 2 ^ 31 →
  Z.of_nat (16 + length payload) <= outbuf_siz (cryspr_cb s) →
  Z.of_nat (length payload) <= outbuf_siz (cryspr_cb r) →
  ∃ c s' r',
    Tx_Data pfx payload s = Some ((0, pfx, c), s') ∧ length c = length payload ∧ are_bytes c ∧
    Rx_Data pfx c r = Some ((Z.of_nat (length payload), payload), r').
Proof.
  intros Hcur Hwf Hcb (Hsl & k & Hk & Hslot) Hmi Hwf' Hcb' (Hst & _ & Hsl' & _ & _ & k2 & Hk2 & Hslot')
    Hpl Hfl Hpb Hpos H31 Hfit Hfit'.
  rewrite Hk in Hk2. apply (inj Some) in Hk2 as <-.
  assert (Hblk : Block128 AES_encrypt k) by (eapply enc_key_block, Hk).
  destruct (Tx_Data_run s sd k pfx payload) as (cb1 & Htx & _); try done.
  set (iv := packet_iv (get_ctx sd s) pfx) in *.
  assert (Hiv : iv_ok iv) by (apply packet_iv_ok; [apply (wf_salt _ _ Hwf)|apply (wf_salt_bytes _ _ Hwf)]).
  assert (Hcl : length (CtrCipher k iv payload) = length payload) by (by apply length_CtrCipher).
  assert (Hcb2 : are_bytes (CtrCipher k iv payload)) by (by apply are_bytes_CtrCipher).
  destruct (Rx_Data_run r sd k pfx (CtrCipher k iv payload)) as (cb2 & Hrx & _);
    rewrite ?Hcl; try done.
  do 3 eexists. split; [exact Htx|]. split; [done|]. split; [done|]. rewrite Hrx, Hcl.
  do 3 f_equal. rewrite (packet_iv_salt (get_ctx sd s)) by congruence. by apply CtrCipher_involutive.
Qed.
End keys.
