(* ===== verification/HcStream.v ===== *)
(** * The encrypted stream: key rotation and end-to-end correctness

    The key schedule of a sender as a state machine with two phases, its
    invariant, and a sender and a receiver joined by a lossless channel that
    carries the Keying Material messages and the data packets in order, the
    way srtcore/crypto.cpp drives HaiCrypt: [HaiCrypt_Tx_ManageKeys], whose
    messages go to [HaiCrypt_Rx_Process] of the peer, then data packets with
    the key flags of the sender set in their header. *)
From S2P Require Import Prelude StreamMode Ctr128 CfbOfb128 Cbc128 Wrap128 HcMsg HcCtx Cryspr HcSession HaiCrypt HcFacts.

(** [CPacket::setMsgCryptoFlags]: the message number word of the header. *)
Definition setMsgCryptoFlags (hdr : bytes) (spec : Z) : bytes :=
  let msgno := le_val (take 4 (drop 4 hdr)) in
  let clr_msgno := Z.ldiff msgno (Z.shiftl 3 27) in
  memcpy hdr 4 (le_bytes 4 (Z.lor clr_msgno (Z.shiftl spec 27))).

Lemma set_key_flags hdr fl :
  length hdr = 16%nat → 0 <= fl < 4 →
  length (setMsgCryptoFlags hdr fl) = 16%nat ∧
  hcryptMsg_SRT_GetKeyFlags (setMsgCryptoFlags hdr fl) = fl.
Proof.
  intros Hl Hfl. unfold setMsgCryptoFlags. set (X := Z.lor _ _). split; [by rewrite length_memcpy; len|].
  unfold hcryptMsg_SRT_GetKeyFlags, HCRYPT_MSG_SRT_OFS_MSGNO, HCRYPT_MSG_SRT_SHF_KFLGS.
  pose proof (memcpy_read hdr 4 (le_bytes 4 X)) as Hm. rewrite length_le_bytes in Hm.
  rewrite Hm, le_val_bytes by lia. change (8 * Z.of_nat 4) with 32.
  apply Z.bits_inj'. intros i Hi. rewrite Z.land_spec, Z.shiftr_spec by done.
  change HCRYPT_MSG_F_xSEK with (Z.ones 2). destruct (decide (i < 2)).
  - rewrite Z.ones_spec_low, andb_true_r by lia. rewrite Z.mod_pow2_bits_low by lia.
    unfold X. rewrite Z.lor_spec, Z.ldiff_spec, !Z.shiftl_spec by lia.
    replace (i + 27 - 27) with i by lia. change 3 with (Z.ones 2). rewrite Z.ones_spec_low by lia.
    cbn [negb]. by rewrite andb_false_r.
  - rewrite Z.ones_spec_high, andb_false_r by lia.
    rewrite <- (Z.mod_small fl (2 ^ 2)) by lia. by rewrite Z.mod_pow2_bits_high by lia.
Qed.

Section channel.
Context {AES_KEY : Type} `{!AesLib AES_KEY}.
Context (v : variant) (little aligned : bool).
Local Abbreviation ses := (hcrypt_Session AES_KEY).

(** The messages of the sender are given to the receiver. *)
Fixpoint deliver (msgs : list bytes) (r : ses) : option ses :=
  match msgs with
  | [] => Some r
  | m :: msgs' =>
      match HaiCrypt_Rx_Process v little aligned m false 0 r with
      | Some ((0, _), r') => deliver msgs' r'
      | _ => None
      end
  end.

(** One packet: flags in the header, encryption, decryption.  What the
    receiver gets: the value returned and the payload. *)
Definition send_packet (pkt : bytes * bytes) (st : ses * ses) : option ((Z * bytes) * (ses * ses)) :=
  let '(s, r) := st in
  '(fl, s) ← HaiCrypt_Tx_GetKeyFlags s;
  '((rc, pfx, c), s) ← HaiCrypt_Tx_Data v little aligned (setMsgCryptoFlags pkt.1 fl) pkt.2 s;
  if rc <? 0 then None else
  '(res, r) ← HaiCrypt_Rx_Data v little aligned pfx c r;
  Some (res, (s, r)).

Fixpoint send_packets (pkts : list (bytes * bytes)) (st : ses * ses)
    : option (list (Z * bytes) * (ses * ses)) :=
  match pkts with
  | [] => Some ([], st)
  | p :: pkts' =>
      '(res, st) ← send_packet p st;
      '(ress, st) ← send_packets pkts' st;
      Some (res :: ress, st)
  end.

(** A call of [HaiCrypt_Tx_ManageKeys] and the packets sent until the next:
    what the random generator and the clock answer, headers and payloads. *)
Record round := {
  rd_rnd : bytes; rd_now1 : timeval; rd_now2 : timeval; rd_pkts : list (bytes * bytes) }.

Definition channel_round (rd : round) (st : ses * ses)
    : option (list (Z * bytes) * (ses * ses)) :=
  let '(s, r) := st in
  '((_, msgs), s) ← HaiCrypt_Tx_ManageKeys (Some (rd_rnd rd)) (rd_now1 rd) (rd_now2 rd) true 2 s;
  r ← deliver msgs r;
  send_packets (rd_pkts rd) (s, r).

Fixpoint channel_run (rds : list round) (st : ses * ses)
    : option (list (Z * bytes) * (ses * ses)) :=
  match rds with
  | [] => Some ([], st)
  | rd :: rds' =>
      '(out, st) ← channel_round rd st;
      '(outs, st) ← channel_run rds' st;
      Some (out ++ outs, st)
  end.
End channel.

Section stream.
Context {AES_KEY : Type} `{!AesLib AES_KEY, !AesLibOk AES_KEY}.
Context (v : variant) (little aligned : bool).
Local Abbreviation ses := (hcrypt_Session AES_KEY).
Implicit Types (s r : ses) (sd : side).

(** The stream: pass phrase, salt, key length, KEK, refresh rate,
    pre-announce period, and the size of the output buffer of the sender. *)
Context (pw sl : bytes) (n : nat) (ek : AES_KEY) (R P SZ : Z).
Context (Haes : aes_key_len n) (Hsl : length sl = 16%nat) (Hslb : are_bytes sl).
Context (Hek : kek_key true pw sl n = Some ek).
Context (HP : 0 < P) (HR : 2 * P < R) (HR32 : R + P < 2 ^ 32).

(** [key] is the SEK of context [sd], set in the provider. *)
Definition tx_ctx (s : ses) (sd : side) : Prop :=
  let c := get_ctx sd s in
  key_len c = n ∧ salt_len c = 16%nat ∧ salt c = sl ∧ sek_len c = n ∧
  ∃ k, sek_key (ctx_sek c) = Some k ∧ aes_sek (cryspr_cb s) !! side_index sd = Some (Some k).

(** The cached message of context [sd] is the Keying Material message of
    the keys the sender holds. *)
Definition km_carries (s : ses) (seks : bytes) (kf : Z) : Prop :=
  1 <= kf <= 3 ∧ are_bytes seks ∧ length seks = (km_cnt kf * n)%nat ∧
  ∀ sd', km_covers kf sd' = true → km_key kf n sd' seks = ctx_sek (get_ctx sd' s).

Definition km_ok (s : ses) (sd : side) : Prop :=
  let c := get_ctx sd s in
  ∃ kf seks w,
    take (KMmsg_len c) (KMmsg_cache c) = km_msg kf n sl w ∧
    hcryptMsg_KM_HasBothSek (KMmsg_cache c) = (kf =? 3) ∧
    AES_wrap_key ek None seks = Some w ∧ km_carries s seks kf ∧ km_covers kf sd = true.

(** The two phases of the key schedule: only the current key is in use, or
    the next one is ready and announced. *)
Inductive phase := Normal | Prepared.

Record tx_inv (s : ses) (sd : side) (ph : phase) : Prop := {
  ti_cur : cur s = OwnCtx sd;
  ti_se : se s = HCRYPT_SE_TSSRT;
  ti_cb : cb_ok (cryspr_cb s);
  ti_siz : outbuf_siz (cryspr_cb s) = SZ;
  ti_kek : aes_kek (cryspr_cb s) = Some ek;
  ti_refresh : refresh_rate s = R;
  ti_pre : pre_announce s = P;
  ti_wf : ∀ sd', ctx_wf sd' (get_ctx sd' s);
  ti_active : status (get_ctx sd s) = HCRYPT_CTX_S_ACTIVE;
  ti_key : tx_ctx s sd;
  ti_alt : match ph with
           | Normal => HCRYPT_CTX_S_SARDY <= status (get_ctx (alt sd) s) ∧
               has_flag HCRYPT_CTX_F_ANNOUNCE (get_ctx (alt sd) s) = false
           | Prepared => status (get_ctx (alt sd) s) = HCRYPT_CTX_S_KEYED ∧ tx_ctx s (alt sd) ∧
               has_flag HCRYPT_CTX_F_ANNOUNCE (get_ctx (alt sd) s) = true ∧
               pkt_cnt (get_ctx (alt sd) s) = 0 ∧
               hcryptMsg_KM_HasBothSek (KMmsg_cache (get_ctx (alt sd) s)) = true ∧
               has_flag HCRYPT_CTX_F_ANNOUNCE (get_ctx sd s) = false
           end;
  ti_km : ∀ sd', has_flag HCRYPT_CTX_F_ANNOUNCE (get_ctx sd' s) = true ∨
    has_flag HCRYPT_CTX_F_TTSEND (get_ctx sd' s) = true → km_ok s sd';
  ti_tt : ∀ sd', has_flag HCRYPT_CTX_F_TTSEND (get_ctx sd' s) = true →
    has_flag HCRYPT_CTX_F_ANNOUNCE (get_ctx sd' s) = true;
}.

(** ** Flags and messages under context updates *)
Lemma side_cases sd sd' : sd' = sd ∨ sd' = alt sd.
Proof. destruct sd, sd'; auto. Qed.

Lemma wf_or_flags sd f c : Z.land f 3 = 0 → ctx_wf sd c → ctx_wf sd (or_flags f c).
Proof.
  intros Hf []. split; simpl; try done. unfold hcryptCtx_GetKeyFlags in *. simpl.
  change HCRYPT_CTX_F_xSEK with 3 in *. by rewrite Z.land_lor_distr_l, Hf, Z.lor_0_r.
Qed.
Lemma wf_clear_flags sd f c : Z.land f 3 = 0 → ctx_wf sd c → ctx_wf sd (clear_flags f c).
Proof. intros Hf []. split; simpl; try done. by rewrite key_flags_clear. Qed.

(** ** Steps that leave the keys alone *)

(** [c'] is [c] with another packet count and other flags, the key flags and
    [ANNOUNCE] unchanged, and [TTSEND] set only where it was or where the
    key is announced. *)
Definition ctx_similar (c c' : hcrypt_Ctx) : Prop :=
  c' = set_pkt_cnt (pkt_cnt c') (set_flags (flags c') c) ∧
  hcryptCtx_GetKeyFlags c' = hcryptCtx_GetKeyFlags c ∧
  has_flag HCRYPT_CTX_F_ANNOUNCE c' = has_flag HCRYPT_CTX_F_ANNOUNCE c ∧
  (has_flag HCRYPT_CTX_F_TTSEND c' = true →
   has_flag HCRYPT_CTX_F_TTSEND c = true ∨ has_flag HCRYPT_CTX_F_ANNOUNCE c = true).

Lemma ctx_similar_refl c : ctx_similar c c.
Proof. split; [by destruct c|]. auto. Qed.
Lemma ctx_similar_pkt x c : ctx_similar c (set_pkt_cnt x c).
Proof. split; [by destruct c|]. auto. Qed.
Lemma ctx_similar_clear c : ctx_similar c (clear_flags HCRYPT_CTX_F_TTSEND c).
Proof.
  split; [by destruct c|]. split; [by rewrite key_flags_clear|].
  split; [by rewrite has_clear_flags|]. rewrite has_clear_flags_eq. done.
Qed.
Lemma ctx_similar_remind c :
  has_flag HCRYPT_CTX_F_ANNOUNCE c = true → ctx_similar c (or_flags HCRYPT_CTX_F_TTSEND c).
Proof.
  intros H. split; [by destruct c|]. split; [by rewrite key_flags_or|].
  split; [by rewrite has_or_flags|]. auto.
Qed.

Lemma wf_similar sd c c' : ctx_similar c c' → ctx_wf sd c → ctx_wf sd c'.
Proof.
  intros (-> & Hk & _) [Hf ?????????]. split; simpl; try done. by rewrite <- Hf, <- Hk.
Qed.

Definition ses_similar (s s' : ses) : Prop :=
  (∀ sd, ctx_similar (get_ctx sd s) (get_ctx sd s')) ∧
  cur s' = cur s ∧ se s' = se s ∧ aes_kek (cryspr_cb s') = aes_kek (cryspr_cb s) ∧
  aes_sek (cryspr_cb s') = aes_sek (cryspr_cb s) ∧ refresh_rate s' = refresh_rate s ∧
  pre_announce s' = pre_announce s ∧ outbuf_siz (cryspr_cb s') = outbuf_siz (cryspr_cb s).

Lemma similar_sek s s' sd : ses_similar s s' → ctx_sek (get_ctx sd s') = ctx_sek (get_ctx sd s).
Proof. intros [H _]. destruct (H sd) as [-> _]. done. Qed.

Lemma tx_inv_similar s s' sd ph :
  tx_inv s sd ph → ses_similar s s' → cb_ok (cryspr_cb s') →
  pkt_cnt (get_ctx (alt sd) s') = pkt_cnt (get_ctx (alt sd) s) → tx_inv s' sd ph.
Proof.
  intros [] Hsim Hcb Hcnt. pose proof Hsim as (Hc & Hcur & Hse & Hkek & Hsek & Hr & Hp & Hsz).
  assert (Htx : ∀ sd', tx_ctx s sd' → tx_ctx s' sd').
  { intros sd'. unfold tx_ctx. destruct (Hc sd') as [-> _]. by rewrite Hsek. }
  split; [congruence|congruence|done|congruence|congruence|congruence|congruence| | | | | |].
  - intros sd'. by eapply wf_similar.
  - destruct (Hc sd) as [-> _]. done.
  - auto.
  - destruct ph; rewrite ?(proj1 (proj2 (proj2 (Hc _)))).
    + destruct (Hc (alt sd)) as [-> _]. done.
    + destruct ti_alt0 as (? & ? & ? & ? & ? & ?). rewrite Hcnt. split_and!; auto.
      * by destruct (Hc (alt sd)) as [-> _].
      * by destruct (Hc (alt sd)) as [-> _].
  - intros sd' Hfl. destruct (Hc sd') as (Heq & _ & Han & Htt).
    destruct (ti_km0 sd') as (kf & seks & w & H1 & H2 & H3 & (H4 & H5 & H6 & H7) & H8).
    { rewrite Han in Hfl. destruct Hfl as [|Hfl]; [auto|]. destruct (Htt Hfl); auto. }
    exists kf, seks, w. rewrite Heq. split; [done|]. split; [done|]. split; [done|].
    split; [|done]. split; [done|]. split; [done|]. split; [done|]. intros sd'' Hcov. rewrite (similar_sek s s') by done. auto.
  - intros sd' Hfl. destruct (Hc sd') as (_ & _ & -> & Htt). destruct (Htt Hfl); auto.
Qed.

(** ** Sending the announced messages *)
Definition flagged (s : ses) (sd : side) : list bytes :=
  let c := get_ctx sd s in
  if has_flag HCRYPT_CTX_F_TTSEND c then [take (KMmsg_len c) (KMmsg_cache c)] else [].

Lemma InjectKM_run s sd ph maxout now :
  tx_inv s sd ph → 2 <= maxout →
  ∃ s', hcryptCtx_Tx_InjectKM maxout now s = Some (flagged s Even ++ flagged s Odd, s') ∧
    tx_inv s' sd ph ∧ ses_similar s s' ∧
    (∀ sd', pkt_cnt (get_ctx sd' s') = pkt_cnt (get_ctx sd' s)) ∧
    (∀ sd', has_flag HCRYPT_CTX_F_TTSEND (get_ctx sd' s') = false).
Proof.
  intros Hinv Hmax. unfold hcryptCtx_Tx_InjectKM. rewrite bind_assert by lia.
  assert (Hinj : ∀ sd0 s0, km_inject sd0 s0 = Some (flagged s0 sd0,
    if has_flag HCRYPT_CTX_F_TTSEND (get_ctx sd0 s0)
    then upd_ctx sd0 (clear_flags HCRYPT_CTX_F_TTSEND) s0 else s0)).
  { intros sd0 s0. unfold km_inject, flagged. hc_step. by destruct (has_flag _ _). }
  rewrite (bind_some _ _ _ _ _ (Hinj _ _)), (bind_some _ _ _ _ _ (Hinj _ _)).
  set (s1 := if has_flag _ (get_ctx Even s) then _ else _).
  assert (Ho : get_ctx Odd s1 = get_ctx Odd s) by (unfold s1; by destruct (has_flag _ _)).
  assert (Hfo : flagged s1 Odd = flagged s Odd) by (unfold flagged; by rewrite Ho).
  rewrite Hfo, Ho. clear Hfo. set (s2 := if has_flag _ (get_ctx Odd s) then _ else s1).
  assert (Hg : ∀ sd', get_ctx sd' s2 = get_ctx sd' s ∧ has_flag HCRYPT_CTX_F_TTSEND (get_ctx sd' s) = false ∨
    get_ctx sd' s2 = clear_flags HCRYPT_CTX_F_TTSEND (get_ctx sd' s)).
  { intros sd'. unfold s2, s1. destruct sd'.
    - destruct (has_flag _ (get_ctx Odd s)), (has_flag _ (get_ctx Even s)); auto.
    - destruct (has_flag _ (get_ctx Odd s)), (has_flag _ (get_ctx Even s)); auto. }
  assert (Hrest : cur s2 = cur s ∧ se s2 = se s ∧ cryspr_cb s2 = cryspr_cb s ∧
    refresh_rate s2 = refresh_rate s ∧ pre_announce s2 = pre_announce s).
  { unfold s2, s1. by destruct (has_flag _ (get_ctx Odd s)), (has_flag _ (get_ctx Even s)). }
  clearbody s2. clear s1 Ho. destruct Hrest as (Hcur & Hse & Hcb & Hr & Hp).
  set (msgs := flagged s Even ++ flagged s Odd).
  assert (∃ s3, (if (0 <? length msgs)%nat then modify (set_tx_last now) else ret tt) s2 = Some (tt, s3) ∧
    (∀ sd', get_ctx sd' s3 = get_ctx sd' s2) ∧ cur s3 = cur s ∧ se s3 = se s ∧
    cryspr_cb s3 = cryspr_cb s ∧ refresh_rate s3 = refresh_rate s ∧ pre_announce s3 = pre_announce s)
    as (s3 & Hrun & Hg3 & Hcur3 & Hse3 & Hcb3 & Hr3 & Hp3).
  { destruct (0 <? _)%nat; eexists; (split; [done|]); [|done].
    split; [intros; apply get_set_tx_last|done]. }
  rewrite (bind_some _ _ _ _ _ Hrun). exists s3. split; [done|].
  assert (Hsim : ses_similar s s3).
  { split; [|split_and!; congruence]. intros sd'. rewrite Hg3.
    destruct (Hg sd') as [[-> _]| ->]; [apply ctx_similar_refl|apply ctx_similar_clear]. }
  assert (Hcnt : ∀ sd', pkt_cnt (get_ctx sd' s3) = pkt_cnt (get_ctx sd' s)).
  { intros sd'. rewrite Hg3. by destruct (Hg sd') as [[-> _]| ->]. }
  split; [|split; [done|split; [done|]]].
  - apply (tx_inv_similar s); auto. rewrite Hcb3. apply (ti_cb _ _ _ Hinv).
  - intros sd'. rewrite Hg3. destruct (Hg sd') as [[-> H]| ->]; [done|apply has_clear_flags_eq].
Qed.

(** ** Assembling a message *)
Lemma AsmKM_ok s sd alt_sek :
  let c := get_ctx sd s in
  ctx_wf sd c → salt_len c = 16%nat → salt c = sl → sek_len c = n → se s = HCRYPT_SE_TSSRT →
  match alt_sek with Some a => length a = 32%nat ∧ are_bytes a | None => True end →
  aes_kek (cryspr_cb s) = Some ek →
  let kf := km_flags sd alt_sek in
  ∃ w cache,
    AES_wrap_key ek None (asm_km_seks c alt_sek) = Some w ∧
    hcryptCtx_Tx_AsmKM sd alt_sek s = Some (0, upd_ctx sd (set_KMmsg (32 + length w) cache) s) ∧
    take (32 + length w) cache = km_msg kf n sl w ∧
    hcryptMsg_KM_HasBothSek cache = (kf =? 3) ∧ length cache = 120%nat.
Proof using AesLibOk0 Haes Hsl Hek.
  intros c Hwf Hl Hs Hn Hse Ha Hkek kf.
  destruct (AsmKM_run s sd alt_sek n pw sl ek Hwf Hl Hn Haes Hse Ha Hek Hkek) as (w & Hw & Hwl & Hrun).
  fold c in Hw, Hrun. rewrite Hs in Hrun. cbv zeta in Hrun. exists w. eexists. split; [done|].
  split; [exact Hrun|].
  assert (Hkf : 1 <= kf <= 3) by (unfold kf; destruct alt_sek, sd; done).
  assert (Hml : length (km_msg kf n sl w) = (32 + length w)%nat) by (by apply length_km_msg).
  split; [by apply take_app_length'|]. split.
  - rewrite <- (km_both kf n sl w) by done. unfold hcryptMsg_KM_HasBothSek.
    rewrite lookup_total_app_l; [done|]. unfold HCRYPT_MSG_KM_OFS_KFLGS. unfold kf in Hml. lia.
  - pose proof (wf_cache _ _ Hwf) as Hc. fold c in Hc.
    change (HCRYPT_CTX_MAX_KM_PFX_SZ + HCRYPT_MSG_KM_MAX_SZ)%nat with 120%nat in Hc.
    destruct (aes_key_len_div n Haes) as (_ & _ & Hle & _).
    rewrite length_app, length_drop, Hc. unfold kf in Hml. rewrite Hml.
    assert (length w <= 72)%nat; [|lia]. rewrite Hwl. destruct alt_sek; simpl; lia.
Qed.

(** The keys it carries. *)
Lemma asm_km_carries s sd c alt_sek :
  ctx_wf sd c → sek_len c = n → ctx_sek c = ctx_sek (get_ctx sd s) →
  match alt_sek with
  | Some a => length a = 32%nat ∧ are_bytes a ∧ take n a = ctx_sek (get_ctx (alt sd) s)
  | None => True
  end →
  km_carries s (asm_km_seks c alt_sek) (km_flags sd alt_sek) ∧
  km_covers (km_flags sd alt_sek) sd = true.
Proof using AesLibOk0 Haes Hsl.
  intros Hwf Hn Hs Ha. destruct (aes_key_len_div n Haes) as (_ & _ & Hle & _).
  assert (Ha' : match alt_sek with Some a => length a = 32%nat ∧ are_bytes a | None => True end)
    by (destruct alt_sek; tauto).
  destruct (asm_km_seks_ok sd c alt_sek n Hwf Hn Haes Ha') as [Hb Hl].
  split; [|by destruct alt_sek, sd].
  split; [destruct alt_sek, sd; done|]. split; [done|]. split; [rewrite Hl; by destruct alt_sek, sd|].
  assert (Hcn : length (take n (sek c)) = n).
  { pose proof (wf_sek _ _ Hwf) as H. unfold HAICRYPT_KEY_MAX_SZ in H. len. }
  assert (He : negb (Z.land HCRYPT_MSG_F_eSEK (flags c) =? 0) =
    match sd with Even => true | Odd => false end).
  { pose proof (wf_flags _ _ Hwf) as H. unfold hcryptCtx_GetKeyFlags in H. rewrite Z.land_comm.
    replace (Z.land (flags c) HCRYPT_MSG_F_eSEK) with (Z.land (side_flag sd) HCRYPT_MSG_F_eSEK).
    - by destruct sd.
    - rewrite <- H, <- Z.land_assoc. done. }
  intros sd' Hcov. unfold asm_km_seks. rewrite He, Hn.
  unfold ctx_sek in Hs at 1. rewrite Hn in Hs.
  destruct alt_sek as [a|].
  - destruct Ha as (Hal & _ & Ha).
    assert (Han : length (take n a) = n) by len.
    assert (Hpair : ∀ x y : bytes, length x = n → length y = n →
      take n (x ++ y) = x ∧ take n (drop n (x ++ y)) = y).
    { intros x y Hx Hy. rewrite take_app_length', drop_app_length' by done.
      by rewrite take_ge by lia. }
    destruct sd; cbv iota; destruct sd'; unfold km_key; cbn [km_flags Z.eqb Pos.eqb alt] in *;
      rewrite ?(proj1 (Hpair _ _ Hcn Han)), ?(proj2 (Hpair _ _ Hcn Han)),
        ?(proj1 (Hpair _ _ Han Hcn)), ?(proj2 (Hpair _ _ Han Hcn)); done.
  - assert (sd' = sd) as -> by (by destruct sd, sd').
    rewrite <- Hs. unfold km_key. assert (Hlt : take n (take n (sek c)) = take n (sek c)) by (apply take_ge; lia).
    by destruct sd.
Qed.

(** ** Preparing the next key *)

(** The next key is in context [alt sd], which is not announced yet. *)
Record refreshed (s s' : ses) (sd : side) (rnd : bytes) : Prop := {
  rf_ctx : get_ctx sd s' = get_ctx sd s;
  rf_cur : cur s' = cur s;
  rf_se : se s' = se s;
  rf_cb : cb_ok (cryspr_cb s');
  rf_siz : outbuf_siz (cryspr_cb s') = outbuf_siz (cryspr_cb s);
  rf_kek : aes_kek (cryspr_cb s') = aes_kek (cryspr_cb s);
  rf_slot : aes_sek (cryspr_cb s') !! side_index sd = aes_sek (cryspr_cb s) !! side_index sd;
  rf_rates : refresh_rate s' = refresh_rate s ∧ pre_announce s' = pre_announce s;
  rf_wf : ctx_wf (alt sd) (get_ctx (alt sd) s');
  rf_tx : tx_ctx s' (alt sd);
  rf_sek : ctx_sek (get_ctx (alt sd) s') = rnd;
  rf_flags : flags (get_ctx (alt sd) s') = flags (get_ctx (alt sd) s);
  rf_status : status (get_ctx (alt sd) s') = HCRYPT_CTX_S_KEYED;
  rf_cnt : pkt_cnt (get_ctx (alt sd) s') = 0;
  rf_both : hcryptMsg_KM_HasBothSek (KMmsg_cache (get_ctx (alt sd) s')) = true;
  rf_km : km_ok s' (alt sd);
}.

(** The alternate context with the configuration and the salt of the current
    one and the new SEK. *)
Definition next_ctx (c : hcrypt_Ctx) (rnd : bytes) (a : hcrypt_Ctx) : hcrypt_Ctx :=
  set_sek n (memcpy (sek a) 0 rnd)
    (set_salt 16 sl (set_pwd (pwd_len c) (pwd c) (set_key_len n a))).

Lemma wf_next_ctx sd c rnd a :
  ctx_wf sd c → ctx_wf (alt sd) a → length rnd = n → are_bytes rnd →
  ctx_wf (alt sd) (next_ctx c rnd a) ∧ ctx_sek (next_ctx c rnd a) = rnd.
Proof using Haes Hsl Hslb.
  intros Hc Ha Hl Hb. destruct (aes_key_len_div n Haes) as (_ & _ & Hle & _).
  destruct (wf_sek_update (alt sd) rnd a) as (H1 & H2 & H3); [lia|done..|].
  split; [|unfold ctx_sek; simpl; by rewrite <- Hl].
  destruct Hc, Ha. by split.
Qed.

Lemma Refresh_run s sd rnd :
  tx_inv s sd Normal → length rnd = n → are_bytes rnd →
  ∃ s', hcryptCtx_Tx_Refresh (Some rnd) s = Some (0, s') ∧ refreshed s s' sd rnd.
Proof using AesLibOk0 Haes Hsl Hslb Hek.
  intros Hinv Hrl Hrb. pose proof (ti_wf _ _ _ Hinv) as Hwf.
  destruct (ti_key _ _ _ Hinv) as (Hkl & Hsal & Hs & Hsekl & k0 & Hk0 & Hslot0).
  destruct (ti_alt _ _ _ Hinv) as [Hst _].
  destruct (wf_next_ctx sd (get_ctx sd s) rnd (get_ctx (alt sd) s)) as [Hwfn Hsekn]; [done..|].
  unfold hcryptCtx_Tx_Refresh. rewrite (bind_get_cur _ _ _ (ti_cur _ _ _ Hinv)). hc_step.
  rewrite bind_assert by (by rewrite (ti_active _ _ _ Hinv)). hc_step.
  rewrite bind_assert by lia. do 4 hc_step.
  set (c := get_ctx sd s) in *. set (s1 := upd_ctx (alt sd) _ (upd_ctx _ _ (upd_ctx _ _ (upd_ctx _ _ s)))).
  assert (Hs1 : s1 = upd_ctx (alt sd) (next_ctx c rnd) s).
  { unfold s1. rewrite !upd_upd. apply upd_ext. unfold next_ctx, set_sek, set_salt, set_pwd, set_key_len.
    simpl. rewrite Hkl, Hsal, Hs. pose proof (wf_salt _ _ (Hwf (alt sd))) as Hws. unfold HAICRYPT_SALT_SZ in *.
    rewrite (take_ge sl), (take_ge rnd) by lia. by rewrite memcpy_full by lia. }
  rewrite Hs1. clear s1 Hs1. set (s1 := upd_ctx (alt sd) (next_ctx c rnd) s).
  hc_step. assert (Hg1 : get_ctx (alt sd) s1 = next_ctx c rnd (get_ctx (alt sd) s)) by apply get_upd_eq.
  fold (ctx_sek (get_ctx (alt sd) s1)). rewrite Hg1, Hsekn.
  destruct (ms_setkey_run s1 (alt sd) rnd) as (k & Hk & Hrun); [by rewrite Hg1|by rewrite Hrl|done|].
  rewrite (bind_some _ _ _ _ _ Hrun). change (negb (0 =? 0)) with false. cbv iota.
  set (s2 := set_cb _ s1).
  assert (Hg2 : get_ctx (alt sd) s2 = next_ctx c rnd (get_ctx (alt sd) s)) by (unfold s2; by rewrite get_set_cb).
  pose proof (wf_sek _ _ (Hwf sd)) as Hcs. unfold HAICRYPT_KEY_MAX_SZ in Hcs. fold c in Hcs.
  destruct (AsmKM_ok s2 (alt sd) (Some (sek c))) as (w & cache & Hw & Hasm & Htake & Hboth & Hcl);
    rewrite ?Hg2; try done.
  { apply (ti_se _ _ _ Hinv). } { split; [done|apply (wf_sek_bytes _ _ (Hwf sd))]. }
  { apply (ti_kek _ _ _ Hinv). }
  rewrite (bind_some _ _ _ _ _ Hasm). change (negb (0 =? 0)) with false. cbv iota.
  rewrite (bind_deref _ _ _ _ (wf_msg_info _ _ Hwfn)). do 3 hc_step. rewrite !upd_upd.
  eexists. split; [reflexivity|]. set (F := λ c0, set_status _ _).
  set (s3 := upd_ctx (alt sd) F s2).
  assert (Hg3 : get_ctx (alt sd) s3 = F (next_ctx c rnd (get_ctx (alt sd) s))) by (unfold s3; by rewrite get_upd_eq, Hg2).
  assert (Hg3' : get_ctx sd s3 = c).
  { unfold s3. rewrite get_upd_alt. unfold s2. rewrite get_set_cb. unfold s1. by rewrite get_upd_alt. }
  assert (Hslot : aes_sek (cryspr_cb s3) !! side_index (alt sd) = Some (Some k)).
  { simpl. apply list_lookup_insert_eq. pose proof (side_index_lt (alt sd)).
    destruct (ti_cb _ _ _ Hinv) as [-> _]. lia. }
  split; try done.
  - simpl. by apply cb_ok_set_sek, (ti_cb _ _ _ Hinv).
  - simpl. apply list_lookup_insert_ne. apply side_index_ne.
  - rewrite Hg3. unfold F. destruct Hwfn. by split.
  - unfold tx_ctx. rewrite Hg3. split_and!; try done. exists k. split; [|done].
    change (ctx_sek _) with (ctx_sek (next_ctx c rnd (get_ctx (alt sd) s))). by rewrite Hsekn.
  - by rewrite Hg3.
  - by rewrite Hg3.
  - by rewrite Hg3.
  - by rewrite Hg3.
  - by rewrite Hg3.
  - unfold km_ok. rewrite Hg3. exists 3, (asm_km_seks (get_ctx (alt sd) s2) (Some (sek c))), w.
    rewrite Hg2. split; [done|]. split; [done|]. split; [by rewrite <- Hg2|].
    apply (asm_km_carries s3 (alt sd)); [done|done| |].
    + rewrite Hg3. done.
    + split; [done|]. split; [apply (wf_sek_bytes _ _ (Hwf sd))|]. rewrite alt_alt, Hg3'.
      unfold ctx_sek. by rewrite Hsekl.
Qed.

(** What the invariant reads of a context besides flags, status and packet
    count. *)
Definition same_keys (c c' : hcrypt_Ctx) : Prop :=
  key_len c' = key_len c ∧ salt_len c' = salt_len c ∧ salt c' = salt c ∧ sek_len c' = sek_len c ∧
  sek c' = sek c ∧ KMmsg_len c' = KMmsg_len c ∧ KMmsg_cache c' = KMmsg_cache c.
Lemma same_keys_sek c c' : same_keys c c' → ctx_sek c' = ctx_sek c.
Proof. intros (_ & _ & _ & H1 & H2 & _). unfold ctx_sek. by rewrite H1, H2. Qed.

Lemma tx_ctx_same s s' sd :
  same_keys (get_ctx sd s) (get_ctx sd s') →
  aes_sek (cryspr_cb s') !! side_index sd = aes_sek (cryspr_cb s) !! side_index sd →
  tx_ctx s sd → tx_ctx s' sd.
Proof.
  intros Hsame Hslot (H1 & H2 & H3 & H4 & k & Hk & Hk').
  pose proof Hsame as (E1 & E2 & E3 & E4 & _).
  split_and!; [congruence..|]. exists k. rewrite (same_keys_sek _ _ Hsame), Hslot. done.
Qed.

Lemma km_ok_same s s' sd :
  same_keys (get_ctx sd s) (get_ctx sd s') →
  (∀ sd', ctx_sek (get_ctx sd' s') = ctx_sek (get_ctx sd' s)) →
  km_ok s sd → km_ok s' sd.
Proof.
  intros (_ & _ & _ & _ & _ & E1 & E2) Hsek (kf & seks & w & H1 & H2 & H3 & (H4 & H5 & H6 & H7) & H8).
  exists kf, seks, w. rewrite E1, E2. split; [done|]. split; [done|]. split; [done|]. split; [|done].
  split; [done|]. split; [done|]. split; [done|]. intros sd' Hc. rewrite Hsek. auto.
Qed.

Definition no_ttsend (s : ses) : Prop :=
  ∀ sd, has_flag HCRYPT_CTX_F_TTSEND (get_ctx sd s) = false.

Lemma Prepare_run s sd rnd :
  tx_inv s sd Normal → no_ttsend s → length rnd = n → are_bytes rnd →
  ∃ s', (hcryptCtx_Tx_Refresh (Some rnd) ;;; hcryptCtx_Tx_PreSwitch) s = Some (0, s') ∧
    tx_inv s' sd Prepared ∧ has_flag HCRYPT_CTX_F_TTSEND (get_ctx (alt sd) s') = true ∧
    ctx_sek (get_ctx sd s') = ctx_sek (get_ctx sd s) ∧
    pkt_cnt (get_ctx sd s') = pkt_cnt (get_ctx sd s).
Proof using AesLibOk0 Haes Hsl Hslb Hek.
  intros Hinv Htt Hrl Hrb. destruct (Refresh_run s sd rnd Hinv Hrl Hrb) as (s1 & Hrun & Hrf).
  rewrite (bind_some _ _ _ _ _ Hrun). unfold hcryptCtx_Tx_PreSwitch.
  assert (Hcur : cur s1 = OwnCtx sd) by (rewrite (rf_cur _ _ _ _ Hrf); apply (ti_cur _ _ _ Hinv)).
  rewrite (bind_get_cur _ _ _ Hcur). hc_step.
  rewrite bind_assert by (by rewrite (rf_ctx _ _ _ _ Hrf), (ti_active _ _ _ Hinv)).
  hc_step. rewrite bind_assert by (by rewrite (rf_status _ _ _ _ Hrf)). do 2 hc_step.
  rewrite (rf_both _ _ _ _ Hrf). hc_step. rewrite upd_upd.
  eexists. split; [reflexivity|]. set (F := λ c0, or_flags _ (or_flags _ _)).
  set (s' := upd_ctx sd _ _).
  assert (Hg : get_ctx sd s' = clear_flags HCRYPT_CTX_F_ANNOUNCE (get_ctx sd s)).
  { unfold s'. rewrite get_upd_eq, get_upd_alt. by rewrite (rf_ctx _ _ _ _ Hrf). }
  assert (Hga : get_ctx (alt sd) s' = F (get_ctx (alt sd) s1)).
  { unfold s'. by rewrite get_alt_upd, get_upd_eq. }
  assert (Hsk : ∀ sd', same_keys (get_ctx sd' s1) (get_ctx sd' s')).
  { intros sd'. destruct (side_cases sd sd') as [->| ->]; [|by rewrite Hga].
    rewrite Hg, (rf_ctx _ _ _ _ Hrf). done. }
  assert (Htt' : has_flag HCRYPT_CTX_F_TTSEND (get_ctx sd s') = false).
  { rewrite Hg, has_clear_flags by done. apply Htt. }
  assert (Han' : has_flag HCRYPT_CTX_F_ANNOUNCE (get_ctx sd s') = false).
  { rewrite Hg. apply has_clear_flags_eq. }
  assert (Hkey1 : tx_ctx s1 sd).
  { apply (tx_ctx_same s); [|apply (rf_slot _ _ _ _ Hrf)|apply (ti_key _ _ _ Hinv)].
    rewrite (rf_ctx _ _ _ _ Hrf). done. }
  destruct (rf_rates _ _ _ _ Hrf) as [Hr Hp].
  split; [split|].
  - done.
  - change (se s') with (se s1). rewrite (rf_se _ _ _ _ Hrf). apply (ti_se _ _ _ Hinv).
  - apply (rf_cb _ _ _ _ Hrf).
  - change (cryspr_cb s') with (cryspr_cb s1). rewrite (rf_siz _ _ _ _ Hrf). apply (ti_siz _ _ _ Hinv).
  - change (cryspr_cb s') with (cryspr_cb s1). rewrite (rf_kek _ _ _ _ Hrf). apply (ti_kek _ _ _ Hinv).
  - change (refresh_rate s') with (refresh_rate s1). rewrite Hr. apply (ti_refresh _ _ _ Hinv).
  - change (pre_announce s') with (pre_announce s1). rewrite Hp. apply (ti_pre _ _ _ Hinv).
  - intros sd'. destruct (side_cases sd sd') as [->| ->].
    + rewrite Hg. apply wf_clear_flags; [done|]. apply (ti_wf _ _ _ Hinv).
    + rewrite Hga. apply wf_or_flags; [done|]. apply wf_or_flags; [done|]. apply (rf_wf _ _ _ _ Hrf).
  - rewrite Hg. apply (ti_active _ _ _ Hinv).
  - apply (tx_ctx_same s1); auto.
  - split; [rewrite Hga; apply (rf_status _ _ _ _ Hrf)|].
    split; [apply (tx_ctx_same s1); auto; apply (rf_tx _ _ _ _ Hrf)|].
    split; [rewrite Hga; unfold F; rewrite has_or_flags by done; by apply has_or_flags_eq|].
    split; [rewrite Hga; apply (rf_cnt _ _ _ _ Hrf)|].
    split; [rewrite Hga; apply (rf_both _ _ _ _ Hrf)|done].
  - intros sd'. destruct (side_cases sd sd') as [->| ->].
    + rewrite Htt', Han'. intros []; done.
    + intros _. apply (km_ok_same s1); [auto| |apply (rf_km _ _ _ _ Hrf)].
      intros sd'. apply same_keys_sek, Hsk.
  - intros sd'. destruct (side_cases sd sd') as [->| ->]; [by rewrite Htt'|].
    rewrite Hga. unfold F. intros _. rewrite has_or_flags by done. by apply has_or_flags_eq.
  - rewrite Hga, Hg. split; [by apply has_or_flags_eq|]. done.
Qed.

Lemma Switch_run s sd :
  tx_inv s sd Prepared → no_ttsend s →
  ∃ s', hcryptCtx_Tx_Switch s = Some (0, s') ∧ tx_inv s' (alt sd) Normal ∧ no_ttsend s' ∧
    (∀ sd', ctx_sek (get_ctx sd' s') = ctx_sek (get_ctx sd' s)) ∧
    pkt_cnt (get_ctx (alt sd) s') = 0.
Proof using Type.
  intros Hinv Htt. destruct (ti_alt _ _ _ Hinv) as (Hst & Htx & Han & Hcnt & Hboth & Hanc).
  unfold hcryptCtx_Tx_Switch. rewrite (bind_get_cur _ _ _ (ti_cur _ _ _ Hinv)). hc_step.
  rewrite bind_assert by (by rewrite Hst). do 4 hc_step. rewrite upd_upd.
  eexists. split; [reflexivity|]. set (F := λ c0, or_flags _ (set_status _ _)).
  set (s' := set_cur _ _).
  assert (Hg : get_ctx sd s' = set_status HCRYPT_CTX_S_DEPRECATED (get_ctx sd s)).
  { unfold s'. by rewrite get_set_cur, get_upd_alt, get_upd_eq. }
  assert (Hga : get_ctx (alt sd) s' = F (get_ctx (alt sd) s)).
  { unfold s'. by rewrite get_set_cur, get_upd_eq, get_alt_upd. }
  assert (Hsk : ∀ sd', same_keys (get_ctx sd' s) (get_ctx sd' s')).
  { intros sd'. by destruct (side_cases sd sd') as [->| ->]; rewrite ?Hg, ?Hga. }
  assert (Htt' : no_ttsend s').
  { intros sd'. destruct (side_cases sd sd') as [->| ->]; rewrite ?Hg, ?Hga; [apply Htt|].
    unfold F. rewrite has_or_flags by done. apply (Htt (alt sd)). }
  split; [split|].
  - done.
  - apply (ti_se _ _ _ Hinv).
  - apply (ti_cb _ _ _ Hinv).
  - apply (ti_siz _ _ _ Hinv).
  - apply (ti_kek _ _ _ Hinv).
  - apply (ti_refresh _ _ _ Hinv).
  - apply (ti_pre _ _ _ Hinv).
  - intros sd'. destruct (side_cases sd sd') as [->| ->].
    + rewrite Hg. apply wf_set_status, (ti_wf _ _ _ Hinv).
    + rewrite Hga. apply wf_or_flags; [done|]. apply wf_set_status, (ti_wf _ _ _ Hinv).
  - by rewrite Hga.
  - by apply (tx_ctx_same s).
  - rewrite alt_alt, Hg. done.
  - intros sd'. destruct (side_cases sd sd') as [->| ->].
    + rewrite (Htt' sd), Hg. intros [H|H]; [|done].
      change (has_flag HCRYPT_CTX_F_ANNOUNCE (get_ctx sd s) = true) in H. congruence.
    + intros _. apply (km_ok_same s); [auto| |].
      * intros sd'. apply same_keys_sek, Hsk.
      * apply (ti_km _ _ _ Hinv). auto.
  - intros sd'. by rewrite Htt'.
  - split; [done|]. split; [intros; apply same_keys_sek, Hsk|]. by rewrite Hga.
Qed.

Lemma PostSwitch_run s sd :
  tx_inv s sd Normal → no_ttsend s →
  ∃ s', hcryptCtx_Tx_PostSwitch s = Some (0, s') ∧ tx_inv s' sd Normal ∧ no_ttsend s' ∧
    ctx_sek (get_ctx sd s') = ctx_sek (get_ctx sd s) ∧
    pkt_cnt (get_ctx sd s') = pkt_cnt (get_ctx sd s).
Proof using AesLibOk0 Haes Hsl Hek.
  intros Hinv Htt. destruct (ti_alt _ _ _ Hinv) as [Hst Han].
  unfold hcryptCtx_Tx_PostSwitch. rewrite (bind_get_cur _ _ _ (ti_cur _ _ _ Hinv)).
  do 3 hc_step. rewrite upd_upd, get_upd_alt.
  set (F := λ c0, set_status _ (clear_flags _ _)). set (s1 := upd_ctx (alt sd) F s).
  assert (Hg1 : get_ctx sd s1 = get_ctx sd s) by (unfold s1; by rewrite get_upd_alt).
  assert (Hga1 : get_ctx (alt sd) s1 = F (get_ctx (alt sd) s)) by (unfold s1; by rewrite get_upd_eq).
  destruct (ti_key _ _ _ Hinv) as (Hkl & Hsal & Hs & Hsekl & k0 & Hk0 & Hslot0).
  assert (∃ s', (if hcryptMsg_KM_HasBothSek (KMmsg_cache (get_ctx sd s))
    then hcryptCtx_Tx_AsmKM sd None else ret 0) s1 = Some (0, s') ∧
    ∃ G, s' = upd_ctx sd G s1 ∧
      (G (get_ctx sd s) = get_ctx sd s ∨
       ∃ len cache w, G (get_ctx sd s) = set_KMmsg len cache (get_ctx sd s) ∧ length cache = 120%nat ∧
         take len cache = km_msg (side_flag sd) n sl w ∧
         hcryptMsg_KM_HasBothSek cache = (side_flag sd =? 3) ∧
         AES_wrap_key ek None (asm_km_seks (get_ctx sd s) None) = Some w))
    as (s2 & Hrun & G & -> & HG).
  { destruct (hcryptMsg_KM_HasBothSek _).
    - destruct (AsmKM_ok s1 sd None) as (w & cache & Hw & Hasm & Ht & Hb & Hcl); rewrite ?Hg1; try done.
      { apply (ti_wf _ _ _ Hinv). } { apply (ti_se _ _ _ Hinv). } { apply (ti_kek _ _ _ Hinv). }
      rewrite Hg1 in Hw. eexists. split; [exact Hasm|]. eexists. split; [done|]. right. eauto 10.
    - exists s1. split; [done|]. exists id. split; [symmetry; by apply upd_id|auto]. }
  rewrite (bind_some _ _ _ _ _ Hrun). eexists. split; [reflexivity|].
  set (s' := upd_ctx sd G s1).
  assert (Hg : get_ctx sd s' = G (get_ctx sd s)) by (unfold s'; by rewrite get_upd_eq, Hg1).
  assert (Hga : get_ctx (alt sd) s' = F (get_ctx (alt sd) s)) by (unfold s'; by rewrite get_alt_upd).
  assert (HGp : ∀ A (f : hcrypt_Ctx → A), (∀ l c x, f (set_KMmsg l c x) = f x) →
    f (G (get_ctx sd s)) = f (get_ctx sd s)).
  { intros A f Hf. by destruct HG as [->|(? & ? & ? & -> & _)]. }
  assert (Hsek : ∀ sd', ctx_sek (get_ctx sd' s') = ctx_sek (get_ctx sd' s)).
  { intros sd'. destruct (side_cases sd sd') as [->| ->]; [|by rewrite Hga].
    rewrite Hg. by apply (HGp _ ctx_sek). }
  assert (Htt' : no_ttsend s').
  { intros sd'. destruct (side_cases sd sd') as [->| ->].
    - rewrite Hg, (HGp _ (has_flag HCRYPT_CTX_F_TTSEND)) by done. apply Htt.
    - rewrite Hga. unfold F.
      change (has_flag HCRYPT_CTX_F_TTSEND (clear_flags HCRYPT_CTX_F_ANNOUNCE (get_ctx (alt sd) s)) = false).
      rewrite has_clear_flags by done. apply (Htt (alt sd)). }
  assert (Han' : has_flag HCRYPT_CTX_F_ANNOUNCE (get_ctx (alt sd) s') = false).
  { rewrite Hga. apply has_clear_flags_eq. }
  split; [split|].
  - apply (ti_cur _ _ _ Hinv).
  - apply (ti_se _ _ _ Hinv).
  - apply (ti_cb _ _ _ Hinv).
  - apply (ti_siz _ _ _ Hinv).
  - apply (ti_kek _ _ _ Hinv).
  - apply (ti_refresh _ _ _ Hinv).
  - apply (ti_pre _ _ _ Hinv).
  - intros sd'. destruct (side_cases sd sd') as [->| ->].
    + rewrite Hg. destruct HG as [->|(l & cache & w & -> & Hcl & _)]; [apply (ti_wf _ _ _ Hinv)|].
      apply wf_set_KMmsg; [done|]. apply (ti_wf _ _ _ Hinv).
    + rewrite Hga. unfold F. apply wf_set_status, wf_clear_flags; [done|]. apply (ti_wf _ _ _ Hinv).
  - rewrite Hg, (HGp _ status) by done. apply (ti_active _ _ _ Hinv).
  - unfold tx_ctx. rewrite Hsek, Hg, (HGp _ key_len), (HGp _ salt_len), (HGp _ salt), (HGp _ sek_len) by done.
    split_and!; eauto.
  - rewrite Han', Hga. done.
  - intros sd'. destruct (side_cases sd sd') as [->| ->]; [|rewrite Han', Htt'; intros []; done].
    rewrite (Htt' sd). intros [Hann|]; [|done].
    destruct HG as [HG|(l & cache & w & HG & Hcl & Ht & Hb & Hw)].
    + apply (km_ok_same s); [by rewrite Hg, HG|done|]. apply (ti_km _ _ _ Hinv). left.
      rewrite Hg in Hann. by rewrite HG in Hann.
    + unfold km_ok. rewrite Hg, HG.
      exists (side_flag sd), (asm_km_seks (get_ctx sd s) None), w.
      split; [done|]. split; [done|]. split; [done|].
      apply (asm_km_carries s' sd _ None); [apply (ti_wf _ _ _ Hinv)|done|by rewrite Hsek|done].
  - intros sd'. by rewrite Htt'.
  - split; [done|]. split; [apply Hsek|]. rewrite Hg. by apply (HGp _ pkt_cnt).
Qed.

(** ** The reminder *)
Lemma remind_run s sd ph :
  tx_inv s sd ph →
  ∃ s', (km_remind Even ;;; km_remind Odd) s = Some (tt, s') ∧ tx_inv s' sd ph ∧
    ses_similar s s' ∧ (∀ sd', pkt_cnt (get_ctx sd' s') = pkt_cnt (get_ctx sd' s)) ∧
    (∀ sd', has_flag HCRYPT_CTX_F_TTSEND (get_ctx sd' s) = true →
       has_flag HCRYPT_CTX_F_TTSEND (get_ctx sd' s') = true).
Proof using Type.
  intros Hinv.
  set (f := λ sd0 (s0 : ses), if has_flag HCRYPT_CTX_F_ANNOUNCE (get_ctx sd0 s0)
    then upd_ctx sd0 (or_flags HCRYPT_CTX_F_TTSEND) s0 else s0).
  assert (Hr : ∀ sd0 s0, km_remind sd0 s0 = Some (tt, f sd0 s0)).
  { intros. unfold km_remind, f. hc_step. by destruct (has_flag _ _). }
  rewrite (bind_some _ _ _ _ _ (Hr _ _)), Hr. eexists. split; [done|].
  set (s' := f Odd (f Even s)).
  assert (Hg : ∀ sd', get_ctx sd' s' = get_ctx sd' s ∨
    has_flag HCRYPT_CTX_F_ANNOUNCE (get_ctx sd' s) = true ∧
    get_ctx sd' s' = or_flags HCRYPT_CTX_F_TTSEND (get_ctx sd' s)).
  { intros sd'. unfold s', f.
    destruct (has_flag _ (get_ctx Even s)) eqn:He; destruct (has_flag _ (get_ctx Odd _)) eqn:Ho;
      destruct sd'; auto. }
  assert (Hsim : ses_similar s s').
  { split.
    - intros sd'. destruct (Hg sd') as [->|[Ha ->]]; [apply ctx_similar_refl|by apply ctx_similar_remind].
    - unfold s', f. by do 2 destruct (has_flag _ _). }
  assert (Hcnt : ∀ sd', pkt_cnt (get_ctx sd' s') = pkt_cnt (get_ctx sd' s)).
  { intros sd'. by destruct (Hg sd') as [->|[_ ->]]. }
  split; [|split; [done|split; [done|]]].
  - apply (tx_inv_similar s); auto. unfold s', f. do 2 destruct (has_flag _ _); apply (ti_cb _ _ _ Hinv).
  - intros sd' H. destruct (Hg sd') as [->|[_ ->]]; [done|]. by apply has_or_flags_eq.
Qed.

(** ** The schedule *)

(** Packet counts when [HaiCrypt_Tx_ManageKeys] is called and when it
    returns. *)
Definition cnt_before (ph : phase) (cnt : Z) : Prop :=
  1 <= cnt <= match ph with Normal => R | Prepared => R + P end.
Definition cnt_after (ph : phase) (cnt : Z) : Prop :=
  0 <= cnt <= match ph with Normal => R - P | Prepared => R end.

(** How the keys of the sender evolve: the current key remains, and a next
    key is new only if its message is about to be sent; or the next key,
    announced before, becomes the current one. *)
Definition key_step (s s' : ses) (sd sd' : side) (ph ph' : phase) : Prop :=
  (sd' = sd ∧ ctx_sek (get_ctx sd s') = ctx_sek (get_ctx sd s) ∧
   (ph' = Prepared →
    ph = Prepared ∧ ctx_sek (get_ctx (alt sd) s') = ctx_sek (get_ctx (alt sd) s) ∨
    has_flag HCRYPT_CTX_F_TTSEND (get_ctx (alt sd) s') = true)) ∨
  (sd' = alt sd ∧ ph = Prepared ∧ ph' = Normal ∧
   ctx_sek (get_ctx (alt sd) s') = ctx_sek (get_ctx (alt sd) s)).

(** The sender has just been created and its message was never sent. *)
Definition fresh (s : ses) (sd : side) (ph : phase) : Prop :=
  ph = Normal ∧ pkt_cnt (get_ctx sd s) = 1.

Lemma manage_phase_run s sd ph rnd :
  tx_inv s sd ph → cnt_before ph (pkt_cnt (get_ctx sd s)) → no_ttsend s ∨ fresh s sd ph →
  length rnd = n → are_bytes rnd →
  ∃ s' sd' ph', km_manage_phase (Some rnd) s = Some (0, s') ∧ tx_inv s' sd' ph' ∧
    cnt_after ph' (pkt_cnt (get_ctx sd' s')) ∧ key_step s s' sd sd' ph ph' ∧
    (fresh s sd ph → s' = s ∧ sd' = sd ∧ ph' = Normal).
Proof using AesLibOk0 Haes Hsl Hslb Hek HP HR HR32.
  intros Hinv Hcnt Htt Hrl Hrb. unfold km_manage_phase.
  rewrite (bind_get_cur _ _ _ (ti_cur _ _ _ Hinv)). do 4 hc_step.
  rewrite (ti_refresh _ _ _ Hinv), (ti_pre _ _ _ Hinv).
  rewrite u32_small by lia. unfold cnt_before in Hcnt.
  assert (Hnf : (1 < pkt_cnt (get_ctx sd s)) → no_ttsend s).
  { destruct Htt as [|[_ H]]; [done|lia]. }
  assert (Hfr : (1 < pkt_cnt (get_ctx sd s)) → ¬ fresh s sd ph) by (intros ? [_ ?]; lia).
  destruct (Z.ltb_spec R (pkt_cnt (get_ctx sd s))) as [Hr|Hr]; cbn [orb].
  - destruct ph; [lia|]. destruct (Switch_run s sd Hinv (Hnf ltac:(lia))) as (s' & -> & Hinv' & _ & Hsek & Hc0).
    exists s', (alt sd), Normal. split; [done|]. split; [done|]. split; [unfold cnt_after; rewrite Hc0; lia|].
    split; [right; auto|]. intros H. by destruct (Hfr ltac:(lia)).
  - rewrite (proj2 (Z.eqb_neq _ _)) by lia.
    destruct (Z.ltb_spec (R - P) (pkt_cnt (get_ctx sd s))) as [Hp|Hp]; cbn [andb].
    + destruct ph.
      * destruct (ti_alt _ _ _ Hinv) as [_ ->]. cbn [negb].
        destruct (Prepare_run s sd rnd Hinv (Hnf ltac:(lia)) Hrl Hrb)
          as (s' & -> & Hinv' & Htt' & Hsek & Hc).
        exists s', sd, Prepared. split; [done|]. split; [done|]. split; [unfold cnt_after; lia|].
        split; [left; auto|]. intros H. by destruct (Hfr ltac:(lia)).
      * destruct (ti_alt _ _ _ Hinv) as (Hst & _ & -> & _). cbn [negb]. rewrite Hst.
        exists s, sd, Prepared. split; [done|]. split; [done|]. split; [unfold cnt_after; lia|].
        split; [left; auto|]. intros H. by destruct (Hfr ltac:(lia)).
    + destruct ph.
      * destruct (status (get_ctx (alt sd) s) =? HCRYPT_CTX_S_DEPRECATED); cbn [andb].
        -- destruct (Z.ltb_spec P (pkt_cnt (get_ctx sd s))).
           ++ destruct (PostSwitch_run s sd Hinv (Hnf ltac:(lia))) as (s' & -> & Hinv' & _ & Hsek & Hc).
              exists s', sd, Normal. split; [done|]. split; [done|]. split; [unfold cnt_after; lia|].
              split; [left; done|]. intros H'. by destruct (Hfr ltac:(lia)).
           ++ exists s, sd, Normal. split; [done|]. split; [done|]. split; [unfold cnt_after; lia|].
              split; [left; done|done].
        -- exists s, sd, Normal. split; [done|]. split; [done|]. split; [unfold cnt_after; lia|].
           split; [left; done|done].
      * destruct (ti_alt _ _ _ Hinv) as (Hst & _). rewrite Hst.
        exists s, sd, Prepared. split; [done|]. split; [done|]. split; [unfold cnt_after; lia|].
        split; [left; auto|]. intros [? _]. done.
Qed.

Lemma ManageKM_run s sd ph rnd now :
  tx_inv s sd ph → cnt_before ph (pkt_cnt (get_ctx sd s)) → no_ttsend s ∨ fresh s sd ph →
  length rnd = n → are_bytes rnd →
  ∃ s' sd' ph', hcryptCtx_Tx_ManageKM (Some rnd) now s = Some (0, s') ∧ tx_inv s' sd' ph' ∧
    cnt_after ph' (pkt_cnt (get_ctx sd' s')) ∧ key_step s s' sd sd' ph ph' ∧
    (fresh s sd ph → sd' = sd ∧ ph' = Normal ∧
      ∀ sd0, has_flag HCRYPT_CTX_F_TTSEND (get_ctx sd0 s) = true →
        has_flag HCRYPT_CTX_F_TTSEND (get_ctx sd0 s') = true).
Proof using AesLibOk0 Haes Hsl Hslb Hek HP HR HR32.
  intros Hinv Hcnt Htt Hrl Hrb.
  destruct (manage_phase_run s sd ph rnd Hinv Hcnt Htt Hrl Hrb)
    as (s1 & sd' & ph' & Hrun & Hinv1 & Hcnt1 & Hstep & Hfr).
  assert (∃ s', km_reminder now s1 = Some (tt, s') ∧
    tx_inv s' sd' ph' ∧ ses_similar s1 s' ∧ (∀ sd', pkt_cnt (get_ctx sd' s') = pkt_cnt (get_ctx sd' s1)) ∧
    (∀ sd', has_flag HCRYPT_CTX_F_TTSEND (get_ctx sd' s1) = true →
       has_flag HCRYPT_CTX_F_TTSEND (get_ctx sd' s') = true)) as (s' & Hrun' & Hinv' & Hsim & Hc & Ht).
  { unfold km_reminder. do 2 hc_step. destruct (_ && _); [by apply (remind_run s1 sd' ph')|].
    exists s1. split; [done|]. split; [done|]. split; [|done].
    split; [intros; apply ctx_similar_refl|done]. }
  exists s', sd', ph'. split.
  { unfold hcryptCtx_Tx_ManageKM. rewrite (bind_some _ _ _ _ _ Hrun). by rewrite (bind_some _ _ _ _ _ Hrun'). }
  split; [done|]. split; [by rewrite Hc|]. split.
  - destruct Hstep as [(-> & Hs & Hp)|(-> & -> & -> & Hs)].
    + left. split; [done|]. rewrite !(similar_sek s1 s') by done. split; [done|].
      intros Hph. destruct (Hp Hph); auto.
    + right. by rewrite (similar_sek s1 s').
  - intros Hf. destruct (Hfr Hf) as (-> & -> & ->). auto.
Qed.

(** ** The receiver end of the channel *)

Lemma wrapped_seks kf seks w :
  are_bytes seks → length seks = (km_cnt kf * n)%nat → AES_wrap_key ek None seks = Some w →
  length w = (length seks + 8)%nat ∧
  ∃ dk, kek_key false pw sl n = Some dk ∧ AES_unwrap_key dk None w = Some seks.
Proof using AesLibOk0 Haes Hsl Hek.
  intros Hb Hl Hw. destruct (kek_key_total pw sl n Haes) as (ek' & dk & Hek' & Hdk). simplify_eq.
  assert (Hcnt : km_cnt kf = 1%nat ∨ km_cnt kf = 2%nat) by (unfold km_cnt; destruct (_ =? _); auto).
  assert (∃ m, length seks = (8 * m)%nat ∧ (2 <= m <= 8)%nat) as (m & Hm & Hmb).
  { exists (km_cnt kf * n / 8)%nat. rewrite Hl.
    destruct Haes as [->|[->| ->]], Hcnt as [-> | ->]; vm_compute; lia. }
  destruct (wrap_seks _ _ _ _ _ _ m Hek Hdk Hb Hm Hmb) as (w' & Hw' & Hwl & Hunw).
  rewrite Hw in Hw'. apply (inj Some) in Hw' as <-. eauto.
Qed.

Lemma km_msg_inj kf seks w kf' seks' w' :
  1 <= kf <= 3 → are_bytes seks → length seks = (km_cnt kf * n)%nat → AES_wrap_key ek None seks = Some w →
  1 <= kf' <= 3 → are_bytes seks' → length seks' = (km_cnt kf' * n)%nat → AES_wrap_key ek None seks' = Some w' →
  km_msg kf n sl w = km_msg kf' n sl w' → kf = kf' ∧ seks = seks' ∧ w = w'.
Proof using AesLibOk0 Haes Hsl Hek.
  intros _ Hb Hl Hw _ Hb' Hl' Hw' Heq. unfold km_msg in Heq.
  apply app_inj_1 in Heq as [Hh Hr]; [|done]. injection Hh as Hkf.
  apply app_inv_head in Hr. subst w'.
  destruct (wrapped_seks kf seks w Hb Hl Hw) as (_ & dk & Hdk & Hu).
  destruct (wrapped_seks kf' seks' w Hb' Hl' Hw') as (_ & dk' & Hdk' & Hu'). split_and!; congruence.
Qed.

(** The message cached in the even context, which [HaiCrypt_Rx_Process]
    compares with what it receives, tells the keys in use. *)
Definition rx_cache_ok (r : ses) : Prop :=
  ∀ kf seks w, 1 <= kf <= 3 → are_bytes seks → length seks = (km_cnt kf * n)%nat →
    AES_wrap_key ek None seks = Some w →
    let m := km_msg kf n sl w in
    let c := get_ctx Even r in
    HCRYPT_CTX_S_KEYED <= status c → KMmsg_len c = length m → take (length m) (KMmsg_cache c) = m →
    ∀ sd, km_covers kf sd = true → rx_keyed r sd sl (km_key kf n sd seks).

Lemma rx_keyed_same r r' sd key :
  get_ctx sd r' = get_ctx sd r →
  aes_sek (cryspr_cb r') !! side_index sd = aes_sek (cryspr_cb r) !! side_index sd →
  rx_keyed r sd sl key → rx_keyed r' sd sl key.
Proof. unfold rx_keyed. by intros -> ->. Qed.

Lemma rx_keyed_unique r sd key key' : rx_keyed r sd sl key → rx_keyed r sd sl key' → key = key'.
Proof. intros (_ & _ & _ & _ & H & _) (_ & _ & _ & _ & H' & _). congruence. Qed.

(** Delivery of a message the receiver may have seen before. *)
Lemma deliver_run r kf seks w :
  rx_ready r pw sl n → rx_cache_ok r →
  1 <= kf <= 3 → are_bytes seks → length seks = (km_cnt kf * n)%nat → AES_wrap_key ek None seks = Some w →
  (kf = 2 → rx_keyed r Odd sl (km_key kf n Odd seks)) →
  ∃ r', HaiCrypt_Rx_Process v little aligned (km_msg kf n sl w) false 0 r = Some ((0, None), r') ∧
    rx_ready r' pw sl n ∧ rx_cache_ok r' ∧
    outbuf_siz (cryspr_cb r') = outbuf_siz (cryspr_cb r) ∧
    (∀ sd, km_covers kf sd = true → rx_keyed r' sd sl (km_key kf n sd seks)) ∧
    (∀ sd key, km_covers kf sd = false → rx_keyed r sd sl key → rx_keyed r' sd sl key).
Proof using AesLibOk0 Haes Hsl Hslb Hek.
  intros Hrx Hcache Hkf Hb Hl Hw Hodd.
  destruct (wrapped_seks kf seks w Hb Hl Hw) as (Hwl & _).
  set (m := km_msg kf n sl w). unfold HaiCrypt_Rx_Process. hc_step. rewrite (rx_mi _ _ _ _ Hrx).
  change (parseMsg hcryptMsg_SRT_MsgInfo m) with (hcryptMsg_SRT_ParseMsg m).
  unfold m. rewrite (km_parseMsg kf n sl w) by done. fold m.
  change (HCRYPT_MSG_PT_KM <? 0) with false. change (HCRYPT_MSG_PT_KM =? HCRYPT_MSG_PT_MS) with false.
  change (HCRYPT_MSG_PT_KM =? HCRYPT_MSG_PT_KM) with true. cbv iota.
  change (side_of (hcryptMsg_GetKeyIndex hcryptMsg_SRT_MsgInfo m)) with Even. hc_step.
  set (cond := (status (get_ctx Even r) <? HCRYPT_CTX_S_KEYED) || _ || _).
  destruct cond eqn:Hcond.
  - destruct (ParseKM_run r pw sl n kf seks ek w Hrx Haes Hsl Hslb Hkf Hb Hl Hek Hw)
      as (r' & Hrun & Hrx' & Hcur & Hsiz & Hinst). fold m in Hrun, Hinst.
    rewrite (bind_some _ _ _ _ _ Hrun). exists r'. split; [done|]. split; [done|].
    assert (Hcov : ∀ sd, km_covers kf sd = true → rx_keyed r' sd sl (km_key kf n sd seks)).
    { intros sd Hc. specialize (Hinst sd). rewrite Hc in Hinst. apply Hinst. }
    assert (Hunc : ∀ sd, km_covers kf sd = false → get_ctx sd r' = get_ctx sd r ∧
      aes_sek (cryspr_cb r') !! side_index sd = aes_sek (cryspr_cb r) !! side_index sd).
    { intros sd Hc. specialize (Hinst sd). by rewrite Hc in Hinst. }
    split; [|split; [done|split; [done|]]].
    + intros kf2 seks2 w2 Hkf2 Hb2 Hl2 Hw2 m2 c Hst Hlen Htake sd Hc. unfold c in *.
      destruct (km_covers kf Even) eqn:He.
      * pose proof (Hinst Even) as Hi. rewrite He in Hi. destruct Hi as (_ & Hi1 & Hi2).
        rewrite Hi1 in Hlen. rewrite <- Hlen, Hi2 in Htake.
        destruct (km_msg_inj kf seks w kf2 seks2 w2) as (<- & <- & <-); auto.
      * destruct (Hunc Even He) as [Hge Hse]. rewrite Hge in *.
        assert (kf = 2) as -> by (assert (kf = 1 ∨ kf = 2 ∨ kf = 3) as [->|[->| ->]] by lia; done).
        specialize (Hcache kf2 seks2 w2 Hkf2 Hb2 Hl2 Hw2 Hst Hlen Htake sd Hc).
        destruct sd; [by apply (rx_keyed_same r)|].
        rewrite (rx_keyed_unique r Odd _ _ Hcache (Hodd eq_refl)). by apply Hcov.
    + intros sd key Hc. destruct (Hunc sd Hc). by apply (rx_keyed_same r).
  - exists r. split; [done|]. split; [done|]. split; [done|]. split; [done|]. split; [|auto].
    unfold cond in Hcond. rewrite !orb_false_iff, !negb_false_iff, Nat.eqb_eq, bool_decide_eq_true in Hcond.
    destruct Hcond as [[H1 H2] H3]. intros sd Hc.
    apply (Hcache kf seks w Hkf Hb Hl Hw); auto. lia.
Qed.

(** ** Packets *)

(** Receiver states that differ in the output buffer and the current
    context. *)
Lemma rx_frame r cb' p :
  rx_ready r pw sl n → cb_ok cb' → cb_same (cryspr_cb r) cb' → (∀ sd, p ≠ SrcCtx sd) →
  let r' := set_cb cb' (set_cur p r) in
  rx_ready r' pw sl n ∧ (rx_cache_ok r → rx_cache_ok r') ∧
  (∀ sd key, rx_keyed r sd sl key → rx_keyed r' sd sl key).
Proof using Type.
  intros [] Hcb (Hk & Hs & Hz) Hp r'.
  assert (Hg : ∀ sd, get_ctx sd r' = get_ctx sd r) by (intros; unfold r'; by rewrite get_set_cb, get_set_cur).
  assert (Hkeyed : ∀ sd key, rx_keyed r sd sl key → rx_keyed r' sd sl key).
  { intros sd key. apply rx_keyed_same; [done|]. simpl. by rewrite Hs. }
  split; [|split; [|done]].
  - split; try done; intros sd; rewrite ?Hg; auto. intros. simpl. rewrite Hk. eauto.
  - intros Hc kf seks w H1 H2 H3 H4 m c. unfold c. rewrite Hg. intros. eauto.
Qed.

(** What the two ends of the channel agree on between two calls of
    [HaiCrypt_Tx_ManageKeys]. *)
Definition both_keyed (s r : ses) (sd : side) : Prop :=
  rx_keyed r sd sl (ctx_sek (get_ctx sd s)).
Record chan_inv (SZr : Z) (s r : ses) (sd : side) (ph : phase) : Prop := {
  ch_tx : tx_inv s sd ph;
  ch_tt : no_ttsend s;
  ch_rx : rx_ready r pw sl n;
  ch_cache : rx_cache_ok r;
  ch_siz : outbuf_siz (cryspr_cb r) = SZr;
  ch_cur : both_keyed s r sd;
  ch_alt : ph = Prepared → both_keyed s r (alt sd);
}.

(** A packet the buffers of both ends have room for. *)
Definition pkt_ok (SZr : Z) (pkt : bytes * bytes) : Prop :=
  length pkt.1 = 16%nat ∧ are_bytes pkt.2 ∧ (0 < length pkt.2)%nat ∧
  Z.of_nat (length pkt.2) < 2 ^ 31 ∧ Z.of_nat (16 + length pkt.2) <= SZ ∧
  Z.of_nat (length pkt.2) <= SZr.

Definition received (pkt : bytes * bytes) : Z * bytes := (Z.of_nat (length pkt.2), pkt.2).

Lemma send_packet_run SZr s r sd ph pkt :
  chan_inv SZr s r sd ph → pkt_ok SZr pkt → pkt_cnt (get_ctx sd s) + 1 < 2 ^ 32 →
  0 <= pkt_cnt (get_ctx sd s) →
  ∃ s' r', send_packet v little aligned pkt (s, r) = Some (received pkt, (s', r')) ∧
    chan_inv SZr s' r' sd ph ∧ pkt_cnt (get_ctx sd s') = pkt_cnt (get_ctx sd s) + 1.
Proof using All.
  intros [] (Hh & Hb & Hpos & H31 & Hfit & Hfit') Hc32 Hc0.
  pose proof (ti_wf _ _ _ ch_tx0) as Hwf. pose proof (ti_cur _ _ _ ch_tx0) as Hcur.
  assert (Hfl : 0 <= side_flag sd < 4) by (by destruct sd).
  destruct (set_key_flags pkt.1 (side_flag sd) Hh Hfl) as [Hhl Hhf].
  set (pfx := setMsgCryptoFlags pkt.1 (side_flag sd)) in *.
  destruct (ti_key _ _ _ ch_tx0) as (_ & _ & Hsal & _ & k & Hk & Hslot).
  pose proof ch_cur0 as (Hst & _ & Hsal' & _ & _ & k' & Hk' & Hslot').
  rewrite Hk in Hk'. apply (inj Some) in Hk' as <-.
  assert (Hblk : Block128 AES_encrypt k) by (eapply enc_key_block, Hk).
  pose proof (ti_cb _ _ _ ch_tx0) as Hcb. pose proof (ti_siz _ _ _ ch_tx0) as Hsiz.
  destruct (Tx_Data_run v little aligned s sd k pfx pkt.2) as (cb1 & Htx & Hcb1 & Hsame1); try done; [lia|lia|].
  set (iv := packet_iv (get_ctx sd s) pfx) in *.
  assert (Hiv : iv_ok iv)
    by (apply packet_iv_ok; [apply (wf_salt _ _ (Hwf sd))|apply (wf_salt_bytes _ _ (Hwf sd))]).
  set (ct := crysprOpenSSL_AES_CtrCipher v little aligned k iv pkt.2) in *.
  assert (Hcl : length ct = length pkt.2) by (by apply length_CtrCipher).
  assert (Hcb2 : are_bytes ct) by (by apply are_bytes_CtrCipher).
  destruct (Rx_Data_run v little aligned r sd k pfx ct) as (cb2 & Hrx & Hcb2' & Hsame2); rewrite ?Hcl; try done.
  { apply (rx_mi _ _ _ _ ch_rx0). } { apply (rx_wf _ _ _ _ ch_rx0). } { apply (rx_cb _ _ _ _ ch_rx0). } { lia. }
  rewrite (packet_iv_salt (get_ctx sd s)) in Hrx by congruence. fold iv in Hrx.
  rewrite Hcl in Hrx. unfold ct in Hrx at 2. rewrite CtrCipher_involutive in Hrx by done.
  unfold send_packet.
  assert (Hgf : HaiCrypt_Tx_GetKeyFlags s = Some (side_flag sd, s)).
  { unfold HaiCrypt_Tx_GetKeyFlags. hc_step. rewrite Hcur. rewrite (bind_get_cur _ _ _ Hcur). hc_step.
    unfold ret. by rewrite (wf_flags _ _ (Hwf sd)). }
  rewrite Hgf. cbn [mbind option_bind]. fold pfx. rewrite Htx. cbn [mbind option_bind].
  change (0 <? 0) with false. cbv iota. rewrite Hrx. cbn [mbind option_bind].
  do 2 eexists. split; [done|]. set (s' := upd_ctx sd _ _). set (r' := set_cb cb2 _).
  destruct (rx_frame r cb2 (OwnCtx sd)) as (Hrx' & Hcache' & Hkeyed'); [done..|].
  assert (Hg : get_ctx sd s' = set_pkt_cnt (pkt_cnt (get_ctx sd s) + 1) (get_ctx sd s)).
  { unfold s'. rewrite get_upd_eq, get_set_cb. by rewrite u32_small by lia. }
  assert (Hga : get_ctx (alt sd) s' = get_ctx (alt sd) s).
  { unfold s'. by rewrite get_alt_upd, get_set_cb. }
  assert (Hsim : ses_similar s s').
  { destruct Hsame1 as (E1 & E2 & E3). split; [|done]. intros sd'.
    destruct (side_cases sd sd') as [->| ->]; [rewrite Hg; apply ctx_similar_pkt|].
    rewrite Hga. apply ctx_similar_refl. }
  split; [|by rewrite Hg]. split; auto.
  - apply (tx_inv_similar s); auto. by rewrite Hga.
  - intros sd'. destruct (side_cases sd sd') as [->| ->]; rewrite ?Hg, ?Hga; apply ch_tt0.
  - destruct Hsame2 as (_ & _ & E). simpl. congruence.
  - unfold both_keyed. rewrite (similar_sek s s') by done. by apply Hkeyed'.
  - intros Hph. unfold both_keyed. rewrite (similar_sek s s') by done. by apply Hkeyed', ch_alt0.
Qed.

Lemma send_packets_run SZr s r sd ph pkts :
  chan_inv SZr s r sd ph → Forall (pkt_ok SZr) pkts → 0 <= pkt_cnt (get_ctx sd s) →
  pkt_cnt (get_ctx sd s) + Z.of_nat (length pkts) < 2 ^ 32 →
  ∃ s' r', send_packets v little aligned pkts (s, r) = Some (map received pkts, (s', r')) ∧
    chan_inv SZr s' r' sd ph ∧
    pkt_cnt (get_ctx sd s') = pkt_cnt (get_ctx sd s) + Z.of_nat (length pkts).
Proof using All.
  intros Hinv Hok. revert s r Hinv. induction Hok as [|p pkts Hp Hok IH]; intros s r Hinv Hc0 Hc.
  - exists s, r. split; [done|]. split; [done|]. simpl. lia.
  - rewrite length_cons in Hc. cbn [send_packets].
    destruct (send_packet_run SZr s r sd ph p Hinv Hp ltac:(lia) Hc0) as (s1 & r1 & -> & Hinv1 & Hc1).
    cbn [mbind option_bind]. destruct (IH s1 r1 Hinv1) as (s2 & r2 & -> & Hinv2 & Hc2); [lia..|].
    cbn [mbind option_bind]. exists s2, r2. split; [done|]. split; [done|].
    rewrite length_cons. lia.
Qed.

(** ** Delivery of what the sender announces *)
Lemma deliver_app l1 l2 r r1 :
  deliver v little aligned l1 r = Some r1 →
  deliver v little aligned (l1 ++ l2) r = deliver v little aligned l2 r1.
Proof using Type.
  revert r. induction l1 as [|m l1 IH]; intros r; simpl; [by intros [= ->]|].
  destruct (HaiCrypt_Rx_Process _ _ _ _ _ _ _) as [[[[| |] o] r']|]; try done. apply IH.
Qed.

(** The receiver is ready for the stream and its cache is in order. *)
Definition rx_good (SZr : Z) (r : ses) : Prop :=
  rx_ready r pw sl n ∧ rx_cache_ok r ∧ outbuf_siz (cryspr_cb r) = SZr.

Lemma deliver_flagged SZr s sd ph r sd0 :
  tx_inv s sd ph → rx_good SZr r →
  (sd0 = Odd → has_flag HCRYPT_CTX_F_TTSEND (get_ctx Odd s) = true →
   hcryptMsg_KM_HasBothSek (KMmsg_cache (get_ctx Odd s)) = false → both_keyed s r Odd) →
  ∃ r', deliver v little aligned (flagged s sd0) r = Some r' ∧ rx_good SZr r' ∧
    (∀ sd', both_keyed s r sd' → both_keyed s r' sd') ∧
    (has_flag HCRYPT_CTX_F_TTSEND (get_ctx sd0 s) = true → both_keyed s r' sd0).
Proof using All.
  intros Hinv (Hrx & Hcache & Hsiz) Hodd. unfold flagged.
  destruct (has_flag HCRYPT_CTX_F_TTSEND (get_ctx sd0 s)) eqn:Hfl; [|exists r; done].
  destruct (ti_km _ _ _ Hinv sd0) as (kf & seks & w & Ht & Hb & Hw & (Hkf & Hsb & Hsl' & Hkeys) & Hcov);
    [by right|].
  destruct (deliver_run r kf seks w Hrx Hcache Hkf Hsb Hsl' Hw) as (r' & Hrun & Hrx' & Hcache' & Hs & Hc & Hu).
  { intros ->. assert (sd0 = Odd) as -> by (by destruct sd0). rewrite (Hkeys Odd) by done. by apply Hodd. }
  rewrite Ht. cbn [deliver]. rewrite Hrun. exists r'. split; [done|]. split; [split; [done|split; [done|congruence]]|].
  assert (Hkey : ∀ sd', km_covers kf sd' = true → both_keyed s r' sd').
  { intros sd' Hcv. unfold both_keyed. rewrite <- (Hkeys sd' Hcv). by apply Hc. }
  split; [|auto]. intros sd' Hbk. destruct (km_covers kf sd') eqn:Hcv; [auto|]. by apply Hu.
Qed.

(** The state before a call of [HaiCrypt_Tx_ManageKeys]: between two calls,
    or just after the creation of the two ends. *)
Definition chan_pre (SZr : Z) (s r : ses) (sd : side) (ph : phase) : Prop :=
  tx_inv s sd ph ∧ cnt_before ph (pkt_cnt (get_ctx sd s)) ∧ rx_good SZr r ∧
  (no_ttsend s ∧ both_keyed s r sd ∧ (ph = Prepared → both_keyed s r (alt sd)) ∨
   fresh s sd ph ∧ sd = Even ∧ has_flag HCRYPT_CTX_F_TTSEND (get_ctx Even s) = true).

Lemma both_keyed_sek s s' r sd :
  ctx_sek (get_ctx sd s') = ctx_sek (get_ctx sd s) → both_keyed s r sd → both_keyed s' r sd.
Proof. unfold both_keyed. by intros ->. Qed.

Lemma manage_deliver SZr s r sd ph rnd now1 now2 :
  chan_pre SZr s r sd ph → length rnd = n → are_bytes rnd →
  ∃ nb msgs s' r' sd' ph',
    HaiCrypt_Tx_ManageKeys (Some rnd) now1 now2 true 2 s = Some ((nb, msgs), s') ∧
    deliver v little aligned msgs r = Some r' ∧
    chan_inv SZr s' r' sd' ph' ∧ cnt_after ph' (pkt_cnt (get_ctx sd' s')).
Proof using All.
  intros (Hinv & Hcnt & Hgood & Hcase) Hrl Hrb.
  destruct (ManageKM_run s sd ph rnd now1 Hinv Hcnt) as (s1 & sd1 & ph1 & Hrun & Hinv1 & Hcnt1 & Hstep & Hfr);
    [destruct Hcase as [(? & _)|(? & _)]; auto|done|done|].
  destruct (InjectKM_run s1 sd1 ph1 2 now2 Hinv1 ltac:(lia)) as (s2 & Hrun2 & Hinv2 & Hsim & Hc2 & Htt2).
  (* keys the receiver has before the messages *)
  assert (Hbefore : ∀ sd', sd' = sd1 ∨ ph1 = Prepared ∧ sd' = alt sd1 →
    both_keyed s1 r sd' ∨ has_flag HCRYPT_CTX_F_TTSEND (get_ctx sd' s1) = true).
  { destruct Hcase as [(Htt & Hk & Hka)|(Hf & -> & Hf')].
    - intros sd' Hsd'. destruct Hstep as [(-> & Hs & Hp)|(-> & -> & -> & Hs)].
      + destruct Hsd' as [->|[-> ->]]; [left; by apply (both_keyed_sek s)|].
        destruct (Hp eq_refl) as [[-> Hs']|]; [left; apply (both_keyed_sek s); auto|auto].
      + destruct Hsd' as [->|[? _]]; [left; apply (both_keyed_sek s); auto|done].
    - intros sd' Hsd'. destruct (Hfr Hf) as (-> & -> & Hmono).
      destruct Hsd' as [->|[? _]]; [right; auto|done]. }
  assert (Hodd : has_flag HCRYPT_CTX_F_TTSEND (get_ctx Odd s1) = true →
    hcryptMsg_KM_HasBothSek (KMmsg_cache (get_ctx Odd s1)) = false → both_keyed s1 r Odd).
  { intros Hf Hb. pose proof (ti_tt _ _ _ Hinv1 Odd Hf) as Han. pose proof (ti_alt _ _ _ Hinv1) as Halt.
    destruct (side_cases sd1 Odd) as [Hs|Hs].
    - destruct Hcase as [(Htt & Hk & Hka)|(Hfresh & -> & _)].
      + rewrite Hs. destruct Hstep as [(-> & Hs' & _)|(-> & -> & -> & Hs')].
        * by apply (both_keyed_sek s).
        * apply (both_keyed_sek s); auto.
      + destruct (Hfr Hfresh) as (-> & _). done.
    - rewrite Hs in Han, Hb. destruct ph1.
      + destruct Halt as [_ Ha]. congruence.
      + destruct Halt as (_ & _ & _ & _ & Hboth & _). congruence. }
  destruct (deliver_flagged SZr s1 sd1 ph1 r Even Hinv1 Hgood) as (r1 & Hd1 & Hgood1 & Hk1 & Hn1); [done|].
  destruct (deliver_flagged SZr s1 sd1 ph1 r1 Odd Hinv1 Hgood1) as (r2 & Hd2 & Hgood2 & Hk2 & Hn2); [auto|].
  assert (Hafter : ∀ sd', sd' = sd1 ∨ ph1 = Prepared ∧ sd' = alt sd1 → both_keyed s2 r2 sd').
  { intros sd' Hsd'. apply (both_keyed_sek s1); [by apply similar_sek|].
    destruct (Hbefore sd' Hsd') as [|Hf]; [auto|]. destruct sd'; auto. }
  exists (Z.of_nat (length (flagged s1 Even ++ flagged s1 Odd))), (flagged s1 Even ++ flagged s1 Odd), s2, r2, sd1, ph1.
  split; [|split; [by rewrite (deliver_app _ _ _ r1)|split]].
  - unfold HaiCrypt_Tx_ManageKeys. hc_step. rewrite (ti_cur _ _ _ Hinv). cbn [negb].
    rewrite (bind_some _ _ _ _ _ Hrun), (bind_get_cur _ _ _ (ti_cur _ _ _ Hinv1)). hc_step.
    rewrite bind_assert by (by rewrite (ti_active _ _ _ Hinv1)).
    by rewrite (bind_some _ _ _ _ _ Hrun2).
  - destruct Hgood2 as (? & ? & ?). split; auto.
  - by rewrite Hc2.
Qed.

(** ** Rounds *)
Definition round_ok (SZr : Z) (rd : round) : Prop :=
  length (rd_rnd rd) = n ∧ are_bytes (rd_rnd rd) ∧ Forall (pkt_ok SZr) (rd_pkts rd) ∧
  1 <= Z.of_nat (length (rd_pkts rd)) <= P.

Lemma channel_round_run SZr s r sd ph rd :
  chan_pre SZr s r sd ph → round_ok SZr rd →
  ∃ s' r' sd' ph', channel_round v little aligned rd (s, r) = Some (map received (rd_pkts rd), (s', r')) ∧
    chan_pre SZr s' r' sd' ph'.
Proof using All.
  intros Hpre (Hrl & Hrb & Hok & Hn).
  destruct (manage_deliver SZr s r sd ph (rd_rnd rd) (rd_now1 rd) (rd_now2 rd) Hpre Hrl Hrb)
    as (nb & msgs & s1 & r1 & sd1 & ph1 & Hm & Hd & Hinv & Hcnt).
  unfold cnt_after in Hcnt.
  assert (Hcb : 0 <= pkt_cnt (get_ctx sd1 s1) <= R) by (destruct ph1; lia).
  destruct (send_packets_run SZr s1 r1 sd1 ph1 (rd_pkts rd) Hinv Hok) as (s2 & r2 & Hs & Hinv2 & Hc2); [lia|lia|].
  unfold channel_round. rewrite Hm. cbn [mbind option_bind]. rewrite Hd. cbn [mbind option_bind]. rewrite Hs.
  exists s2, r2, sd1, ph1. split; [done|]. destruct Hinv2.
  split; [done|]. split; [unfold cnt_before; rewrite Hc2; destruct ph1; lia|]. split; [done|]. left. auto.
Qed.

Lemma channel_run_ok SZr rds s r sd ph :
  chan_pre SZr s r sd ph → Forall (round_ok SZr) rds →
  ∃ s' r' sd' ph', channel_run v little aligned rds (s, r) =
    Some (concat (map (λ rd, map received (rd_pkts rd)) rds), (s', r')) ∧ chan_pre SZr s' r' sd' ph'.
Proof using All.
  intros Hpre Hok. revert s r sd ph Hpre. induction Hok as [|rd rds Hrd Hok IH]; intros s r sd ph Hpre.
  - by exists s, r, sd, ph.
  - destruct (channel_round_run SZr s r sd ph rd Hpre Hrd) as (s1 & r1 & sd1 & ph1 & Hrun & Hpre1).
    cbn [channel_run]. rewrite Hrun. cbn [mbind option_bind].
    destruct (IH s1 r1 sd1 ph1 Hpre1) as (s2 & r2 & sd2 & ph2 & -> & Hpre2). cbn [mbind option_bind].
    by exists s2, r2, sd2, ph2.
Qed.
End stream.
