(* ===== verification/HcCreate.v ===== *)
(** * Creation of the two ends of a stream

    What [HaiCrypt_Create] returns for a sender and for a receiver configured
    with the same pass phrase, and the correctness of the stream between
    them. *)
From S2P Require Import Prelude StreamMode Ctr128 CfbOfb128 Cbc128 Wrap128 HcMsg HcCtx Cryspr HcSession HaiCrypt HcFacts HcStream.

(** A configuration that [HaiCrypt_Create] accepts, with a pass phrase. *)
Record cfg_for (tx : bool) (pw : bytes) (cfg : HaiCrypt_Cfg) : Prop := {
  cf_crypto : Z.land HAICRYPT_CFG_F_CRYPTO (cfg_flags cfg) ≠ 0;
  cf_tx : negb (Z.land HAICRYPT_CFG_F_TX (cfg_flags cfg) =? 0) = tx;
  cf_typ : typ (cfg_secret cfg) = HAICRYPT_SECTYP_PASSPHRASE;
  cf_len : (0 < len (cfg_secret cfg) <= HAICRYPT_PWD_MAX_SZ)%nat;
  cf_pw : take (len (cfg_secret cfg)) (str (cfg_secret cfg)) = pw;
  cf_str : (len (cfg_secret cfg) <= length (str (cfg_secret cfg)))%nat;
  cf_cryspr : cfg_cryspr cfg = true;
  cf_key_len : aes_key_len (cfg_key_len cfg);
  cf_max : 0 < cfg_data_max_len cfg < 2 ^ 31;
  cf_xport : cfg_xport cfg = HAICRYPT_XPT_SRT;
}.

(** Memory: the allocations succeed and have the size asked for. *)
Definition mem_ok (mem : mem_oracle) (m : nat → bytes) : Prop :=
  mem_session mem = true ∧ mem_cb mem = Some m ∧ ∀ k, length (m k) = k.

Lemma cfg_for_valid tx pw cfg : cfg_for tx pw cfg → create_valid cfg = true.
Proof.
  intros []. unfold create_valid. rewrite cf_typ0, cf_cryspr0.
  rewrite (proj2 (Z.eqb_neq _ _)) by done.
  replace (negb _ && negb _ && negb _) with false by (destruct cf_key_len0 as [->|[->| ->]]; done).
  change (HAICRYPT_SECTYP_PASSPHRASE =? HAICRYPT_SECTYP_PASSPHRASE) with true.
  change (HAICRYPT_SECTYP_PRESHARED =? HAICRYPT_SECTYP_PASSPHRASE) with false.
  unfold HAICRYPT_SECRET_MAX_SZ. unfold HAICRYPT_PWD_MAX_SZ in cf_len0.
  rewrite (proj2 (Nat.eqb_neq _ _)), (proj2 (Nat.ltb_ge _ _)) by lia. cbn [orb andb negb].
  by rewrite (proj2 (Z.eqb_neq _ _)) by lia.
Qed.

Section create.
Context {AES_KEY : Type} `{!AesLib AES_KEY, !AesLibOk AES_KEY}.
Local Abbreviation ses := (hcrypt_Session AES_KEY).
Implicit Types (s r : ses) (sd : side).

(** ** Preparing the handle *)
Lemma PrepareHandle_run mem m tx pw cfg :
  cfg_for tx pw cfg → mem_ok mem m →
  ∃ s, sHaiCrypt_PrepareHandle mem cfg tx = Some s ∧
    (∀ sd, get_ctx sd s =
       set_flags (Z.lor (side_flag sd) (if tx then HCRYPT_CTX_F_ENCRYPT else 0)) ctx_zero) ∧
    cur s = NullCtx ∧ cb_ok (cryspr_cb s) ∧ cfg_data_max_len cfg + 16 <= outbuf_siz (cryspr_cb s) ∧
    se s = HCRYPT_SE_TSSRT ∧ ses_msg_info s = hcryptMsg_SRT_MsgInfo ∧
    refresh_rate s = km_refresh_rate_pkt cfg ∧ pre_announce s = km_pre_announce_pkt cfg.
Proof.
  intros [] (Hm1 & Hm2 & Hm). unfold sHaiCrypt_PrepareHandle. rewrite Hm1, Hm2, cf_xport0.
  change (HAICRYPT_XPT_SRT =? HAICRYPT_XPT_SRT) with true. cbn [negb].
  eexists. split; [done|]. split; [by intros []|]. split; [done|].
  cbn [cryspr_cb]. destruct (Open_ok (AES_KEY := AES_KEY) m (cfg_data_max_len cfg)) as [Hok Hsz];
    [done|lia|]. done.
Qed.

(** ** The contexts before they are keyed *)
Definition secret_ctx (x : HaiCrypt_Secret) (c : hcrypt_Ctx) : hcrypt_Ctx :=
  set_status HCRYPT_CTX_S_SARDY
    (set_pwd (len x) (memcpy (pwd c) 0 (take (len x) (str x))) c).

Lemma SetSecret_run s sd tx pw cfg :
  cfg_for tx pw cfg →
  hcryptCtx_SetSecret sd (cfg_secret cfg) s = Some (0, upd_ctx sd (secret_ctx (cfg_secret cfg)) s).
Proof.
  intros []. unfold hcryptCtx_SetSecret. rewrite cf_typ0.
  change (HAICRYPT_SECTYP_PASSPHRASE =? HAICRYPT_SECTYP_PASSPHRASE) with true.
  change (HAICRYPT_SECTYP_PASSPHRASE =? HAICRYPT_SECTYP_PRESHARED) with false. cbv iota.
  rewrite bind_assert by (apply Nat.leb_le; lia). hc_step. hc_step. unfold ret.
  by rewrite upd_upd.
Qed.

(** The context of side [sd] once [hcryptCtx_Tx_Init] or
    [hcryptCtx_Rx_Init] is done with it. *)
Record init_ctx (tx : bool) (pw : bytes) (cfg : HaiCrypt_Cfg) (sd : side) (c : hcrypt_Ctx) : Prop := {
  ic_wf : ctx_wf sd c;
  ic_flags : flags c = Z.lor (side_flag sd) (if tx then HCRYPT_CTX_F_ENCRYPT else 0);
  ic_status : status c = HCRYPT_CTX_S_SARDY;
  ic_pwd : ctx_pwd c = pw;
  ic_pwd_len : (0 < pwd_len c)%nat;
  ic_key_len : tx = true → key_len c = cfg_key_len cfg;
  ic_salt_len : salt_len c = 0%nat;
}.

Lemma init_ctx_intro tx pw cfg sd kl st :
  cfg_for tx pw cfg → (tx = true → kl = cfg_key_len cfg) →
  init_ctx tx pw cfg sd (secret_ctx (cfg_secret cfg) (set_msg_info (Some hcryptMsg_SRT_MsgInfo)
    (set_status st (set_mode HCRYPT_CTX_MODE_AESCTR (set_key_len kl
      (set_flags (Z.lor (side_flag sd) (if tx then HCRYPT_CTX_F_ENCRYPT else 0)) ctx_zero)))))).
Proof.
  intros [] Hkl. split; simpl; try done.
  - split; simpl; try done.
    + by destruct sd, tx.
    + rewrite length_memcpy; [done|]. rewrite length_take. change (length _) with HAICRYPT_PWD_MAX_SZ at 2. lia.
    + lia.
    + apply (are_bytes_replicate 16 0). by unfold is_byte.
    + apply (are_bytes_replicate 32 0). by unfold is_byte.
  - unfold ctx_pwd, secret_ctx. simpl. rewrite cf_pw0.
    assert (Hl : length pw = len (cfg_secret cfg)) by (rewrite <- cf_pw0, length_take; lia).
    rewrite <- Hl. by apply memcpy_read_app.
  - lia.
Qed.

(** A session whose two contexts are initialised. *)
Record inited (tx : bool) (pw : bytes) (cfg : HaiCrypt_Cfg) (s : ses) : Prop := {
  in_ctx : ∀ sd, init_ctx tx pw cfg sd (get_ctx sd s);
  in_cur : cur s = NullCtx;
  in_cb : cb_ok (cryspr_cb s);
  in_siz : cfg_data_max_len cfg + 16 <= outbuf_siz (cryspr_cb s);
  in_se : se s = HCRYPT_SE_TSSRT;
  in_mi : ses_msg_info s = hcryptMsg_SRT_MsgInfo;
  in_refresh : refresh_rate s = km_refresh_rate_pkt cfg;
  in_pre : pre_announce s = km_pre_announce_pkt cfg;
}.

Definition tx_init_ctx cfg mi c :=
  secret_ctx (cfg_secret cfg) (set_msg_info (Some mi) (set_status HCRYPT_CTX_S_INIT
    (set_mode HCRYPT_CTX_MODE_AESCTR (set_key_len (cfg_key_len cfg) c)))).
Definition rx_init_ctx cfg mi c :=
  set_status HCRYPT_CTX_S_SARDY (secret_ctx (cfg_secret cfg) (set_msg_info (Some mi)
    (set_status HCRYPT_CTX_S_INIT (set_mode HCRYPT_CTX_MODE_AESCTR c)))).

Lemma Tx_Init_run s sd tx pw cfg :
  cfg_for tx pw cfg →
  hcryptCtx_Tx_Init sd cfg s = Some (0, upd_ctx sd (tx_init_ctx cfg (ses_msg_info s)) s).
Proof.
  intros Hcfg. unfold hcryptCtx_Tx_Init. do 5 hc_step.
  rewrite (bind_some _ _ _ _ _ (SetSecret_run _ sd _ _ _ Hcfg)).
  change (negb (0 =? 0)) with false. cbv iota. unfold ret. by rewrite !upd_upd.
Qed.

Lemma Rx_Init_run s sd tx pw cfg :
  cfg_for tx pw cfg →
  hcryptCtx_Rx_Init sd (Some (cfg_secret cfg)) s =
    Some (0, upd_ctx sd (rx_init_ctx cfg (ses_msg_info s)) s).
Proof.
  intros Hcfg. unfold hcryptCtx_Rx_Init. do 4 hc_step.
  rewrite (bind_some _ _ _ _ _ (SetSecret_run _ sd _ _ _ Hcfg)).
  change (negb (0 =? 0)) with false. cbv iota. hc_step. unfold ret. by rewrite !upd_upd.
Qed.

(** Both contexts are initialised the same way. *)
Lemma init_sessions tx pw cfg s0 F s2 (f : side → @M AES_KEY Z) kl st :
  cfg_for tx pw cfg → (tx = true → kl = cfg_key_len cfg) →
  (∀ sd, get_ctx sd s0 =
     set_flags (Z.lor (side_flag sd) (if tx then HCRYPT_CTX_F_ENCRYPT else 0)) ctx_zero) →
  cur s0 = NullCtx → cb_ok (cryspr_cb s0) → cfg_data_max_len cfg + 16 <= outbuf_siz (cryspr_cb s0) →
  se s0 = HCRYPT_SE_TSSRT → ses_msg_info s0 = hcryptMsg_SRT_MsgInfo →
  refresh_rate s0 = km_refresh_rate_pkt cfg → pre_announce s0 = km_pre_announce_pkt cfg →
  (∀ sd s, f sd s = Some (0, upd_ctx sd (F (ses_msg_info s)) s)) →
  (∀ c, F hcryptMsg_SRT_MsgInfo c = secret_ctx (cfg_secret cfg) (set_msg_info (Some hcryptMsg_SRT_MsgInfo)
     (set_status st (set_mode HCRYPT_CTX_MODE_AESCTR (set_key_len (if tx then kl else key_len c) c))))) →
  s2 = upd_ctx Odd (F hcryptMsg_SRT_MsgInfo) (upd_ctx Even (F hcryptMsg_SRT_MsgInfo) s0) →
  init_both f s0 = Some (true, s2) ∧ inited tx pw cfg s2.
Proof.
  intros Hcfg Hkl Hctx Hcur Hcb Hsiz Hse Hmi Hr Hp Hf HF ->. split.
  - unfold init_both. rewrite (bind_some _ _ _ _ _ (Hf _ _)), Hmi.
    change (negb (0 =? 0)) with false. cbv iota.
    rewrite (bind_some _ _ _ _ _ (Hf _ _)). change (ses_msg_info (upd_ctx _ _ s0)) with (ses_msg_info s0).
    by rewrite Hmi.
  - split; try done. intros sd.
    assert (Hg : get_ctx sd (upd_ctx Odd (F hcryptMsg_SRT_MsgInfo) (upd_ctx Even (F hcryptMsg_SRT_MsgInfo) s0)) =
      F hcryptMsg_SRT_MsgInfo (get_ctx sd s0)) by (by destruct sd).
    rewrite Hg, HF, Hctx. apply init_ctx_intro; [done|]. intros ->. auto.
Qed.

(** ** The receiver *)
Lemma Create_rx_run mem m pw cfg sl n :
  cfg_for false pw cfg → mem_ok mem m → aes_key_len n → length sl = 16%nat →
  ∃ r : ses, HaiCrypt_Create mem None None cfg = Some (0, Some r) ∧
    rx_ready r pw sl n ∧ (∀ sd, status (get_ctx sd r) = HCRYPT_CTX_S_SARDY) ∧
    cfg_data_max_len cfg + 16 <= outbuf_siz (cryspr_cb r).
Proof.
  intros Hcfg Hmem Hn Hsl. unfold HaiCrypt_Create. rewrite (cfg_for_valid _ _ _ Hcfg).
  rewrite (cf_tx _ _ _ Hcfg). cbn [negb].
  destruct (PrepareHandle_run mem m false pw cfg Hcfg Hmem)
    as (s0 & -> & Hctx & Hcur & Hcb & Hsiz & Hse & Hmi & Hr & Hp).
  edestruct (init_sessions false pw cfg s0 (rx_init_ctx cfg)) with (f := λ sd, hcryptCtx_Rx_Init (AES_KEY := AES_KEY) sd (Some (cfg_secret cfg)))
    (kl := 0%nat) (st := HCRYPT_CTX_S_INIT) as [Hrun Hin]; try done.
  { intros sd s. by eapply Rx_Init_run. }
  unfold run_create. rewrite (bind_some _ _ _ _ _ Hrun). unfold ret.
  change (0 =? 0) with true. cbv iota. set (r := upd_ctx Odd _ _) in *. exists r. split; [done|].
  destruct Hin. split; [split; try done|split].
  - intros sd. congruence.
  - intros sd. apply in_ctx0.
  - intros sd. split; [|apply in_ctx0]. pose proof (ic_pwd_len _ _ _ _ _ (in_ctx0 sd)). lia.
  - intros sd. unfold has_flag. rewrite (ic_flags _ _ _ _ _ (in_ctx0 sd)). by destruct sd.
  - intros sd. rewrite (ic_salt_len _ _ _ _ _ (in_ctx0 sd)). done.
  - intros sd. apply (in_ctx0 sd).
  - done.
Qed.

(** ** The sender *)
Lemma Tx_Keyed_run s sd pw sl n ek :
  let c := get_ctx sd s in
  ctx_wf sd c → salt_len c = 16%nat → salt c = sl → sek_len c = n → aes_key_len n →
  ctx_pwd c = pw → (0 < pwd_len c)%nat → has_flag HCRYPT_CTX_F_ENCRYPT c = true →
  status (get_ctx (alt sd) s) < HCRYPT_CTX_S_KEYED → se s = HCRYPT_SE_TSSRT →
  kek_key true pw sl n = Some ek →
  ∃ k w cache ms, sek_key (ctx_sek c) = Some k ∧ AES_wrap_key ek None (ctx_sek c) = Some w ∧
    take (32 + length w) cache = km_msg (side_flag sd) n sl w ∧ length cache = 120%nat ∧
    hcryptMsg_KM_HasBothSek cache = false ∧
    hcryptCtx_Tx_Keyed sd s = Some (0, upd_ctx sd (λ c, set_status HCRYPT_CTX_S_KEYED
      (set_pkt_cnt 1 (set_MSpfx ms (set_KMmsg (32 + length w) cache c))))
      (set_cb (set_kek ek (set_aes_sek (side_index sd) k (cryspr_cb s))) s)).
Proof.
  intros c Hwf Hsl Hs Hn Haes Hpw Hpl Henc Halt Hse Hek.
  assert (Hkl : length (ctx_sek c) = n).
  { pose proof (wf_sek _ _ Hwf) as H. unfold HAICRYPT_KEY_MAX_SZ in H.
    destruct (aes_key_len_div n Haes) as (_ & _ & Hle & _). unfold ctx_sek. rewrite Hn. len. }
  assert (Hkb : are_bytes (ctx_sek c)) by (apply are_bytes_take, (wf_sek_bytes _ _ Hwf)).
  destruct (ms_setkey_run s sd (ctx_sek c)) as (k & Hk & Hset); [done|by rewrite Hkl|done|].
  set (s1 := set_cb (set_aes_sek (side_index sd) k (cryspr_cb s)) s) in *.
  assert (Hg1 : ∀ sd', get_ctx sd' s1 = get_ctx sd' s) by (intros; apply get_set_cb).
  destruct (GenSecret_run s1 sd n) as (ek' & Hek' & Hgen); rewrite ?Hg1; try done.
  rewrite Hg1 in Hek'. fold c in Hek'. rewrite Henc, Hpw, Hs, Hek in Hek'.
  apply (inj Some) in Hek' as <-. set (s2 := set_cb _ s1) in *.
  assert (Hg2 : ∀ sd', get_ctx sd' s2 = get_ctx sd' s) by (intros; unfold s2; by rewrite get_set_cb, Hg1).
  assert (Hsl16 : length sl = 16%nat) by (rewrite <- Hs; apply (wf_salt _ _ Hwf)).
  destruct (AsmKM_ok pw sl n ek Haes Hsl16 Hek s2 sd None) as (w & cache & Hw & Hasm & Ht & Hb & Hcl);
    rewrite ?Hg2; try done.
  rewrite Hg2 in Hw. fold c in Hw.
  exists k, w, cache. eexists. split; [done|]. split; [exact Hw|]. split; [exact Ht|]. split; [done|].
  split; [rewrite Hb; by destruct sd|].
  unfold hcryptCtx_Tx_Keyed. hc_step. fold c.
  change (take (sek_len c) (sek c)) with (ctx_sek c).
  rewrite (bind_some _ _ _ _ _ Hset). change (negb (0 =? 0)) with false. cbv iota.
  rewrite (proj2 (Nat.ltb_lt _ _) Hpl), (bind_some _ _ _ _ _ Hgen).
  change (0 <? 0) with false. cbv iota. rewrite (bind_some _ _ _ _ _ Hasm).
  change (negb (0 =? 0)) with false. cbv iota. hc_step. rewrite get_alt_upd, Hg2.
  rewrite (proj2 (Z.leb_gt _ _)) by done. cbn [andb].
  rewrite (bind_some _ _ _ 0 _ eq_refl), (bind_deref _ _ _ _ (wf_msg_info _ _ Hwf)).
  do 3 hc_step. unfold ret. do 2 f_equal. rewrite !upd_upd. apply upd_ext.
  rewrite Hg2. fold c. reflexivity.
Qed.

(** Salt and key of the first context. *)
Definition salted (n : nat) (rsalt rsek : bytes) (c : hcrypt_Ctx) : hcrypt_Ctx :=
  set_sek n (memcpy (sek c) 0 (take n rsek)) (set_salt 16 (memcpy (salt c) 0 (take 16 rsalt)) c).

Lemma Tx_Rekey_salted s sd n rsalt rsek :
  HCRYPT_CTX_S_SARDY <= status (get_ctx sd s) → key_len (get_ctx sd s) = n →
  hcryptCtx_Tx_Rekey sd (Some rsalt) (Some rsek) s =
    hcryptCtx_Tx_Keyed sd (upd_ctx sd (salted n rsalt rsek) s).
Proof.
  intros Hst Hn. unfold hcryptCtx_Tx_Rekey. hc_step. rewrite bind_assert by lia.
  do 4 hc_step. rewrite !upd_upd. f_equal. apply upd_ext.
  unfold salted, set_sek, set_salt. cbn. by rewrite Hn.
Qed.

Lemma salted_wf sd n rsalt rsek c :
  ctx_wf sd c → aes_key_len n → length rsalt = 16%nat → are_bytes rsalt →
  length rsek = n → are_bytes rsek →
  ctx_wf sd (salted n rsalt rsek c) ∧ salt (salted n rsalt rsek c) = rsalt.
Proof.
  intros Hwf Haes Hsl Hsb Hkl Hkb. destruct (aes_key_len_div n Haes) as (_ & _ & Hle & _).
  pose proof (wf_salt _ _ Hwf) as Hs. unfold HAICRYPT_SALT_SZ in Hs.
  pose proof (wf_sek _ _ Hwf) as Hk. unfold HAICRYPT_KEY_MAX_SZ in Hk.
  assert (Hm : memcpy (salt c) 0 (take 16 rsalt) = rsalt) by (rewrite take_ge by lia; apply memcpy_full; lia).
  unfold salted. rewrite Hm. split; [|done]. rewrite take_ge by lia.
  destruct (wf_sek_update sd rsek c) as (? & ? & _); [lia|done|done|].
  apply wf_set_sek; [done|done|]. by apply wf_set_salt.
Qed.

Lemma wf_keyed sd ms l cache c :
  length cache = 120%nat → ctx_wf sd c →
  ctx_wf sd (set_pkt_cnt 1 (set_MSpfx ms (set_KMmsg l cache c))).
Proof. by intros ? []. Qed.

(** The first context of a new sender. *)
Definition started_ctx (l : nat) (cache ms : bytes) (c : hcrypt_Ctx) : hcrypt_Ctx :=
  set_status HCRYPT_CTX_S_ACTIVE (or_flags (Z.lor HCRYPT_CTX_F_ANNOUNCE HCRYPT_CTX_F_TTSEND)
    (set_status HCRYPT_CTX_S_KEYED (set_pkt_cnt 1 (set_MSpfx ms (set_KMmsg l cache c))))).

Lemma started_flag f l cache ms c :
  Z.land (Z.lor HCRYPT_CTX_F_ANNOUNCE HCRYPT_CTX_F_TTSEND) f ≠ 0 →
  has_flag f (started_ctx l cache ms c) = true.
Proof.
  intros H. unfold has_flag, started_ctx. cbn [flags set_status or_flags set_flags].
  by apply (has_or_flags_in f _ (set_status HCRYPT_CTX_S_KEYED
    (set_pkt_cnt 1 (set_MSpfx ms (set_KMmsg l cache c))))).
Qed.

Record started (s1 s : ses) (c : hcrypt_Ctx) (k ek : AES_KEY) : Prop := {
  sd_even : get_ctx Even s = c;
  sd_odd : get_ctx Odd s = get_ctx Odd s1;
  sd_cb : cryspr_cb s = set_kek ek (set_aes_sek 0 k (cryspr_cb s1));
  sd_cur : cur s = OwnCtx Even;
  sd_se : se s = se s1;
  sd_refresh : refresh_rate s = refresh_rate s1;
  sd_pre : pre_announce s = pre_announce s1;
}.

Lemma tx_start_run cfg pw rsalt rsek s0 s1 :
  let n := cfg_key_len cfg in
  let c := salted n rsalt rsek (get_ctx Even s1) in
  init_both (λ sd, hcryptCtx_Tx_Init sd cfg) s0 = Some (true, s1) → inited true pw cfg s1 →
  aes_key_len n → length rsalt = 16%nat → are_bytes rsalt → length rsek = n → are_bytes rsek →
  ∃ s k ek w cache ms,
    tx_start cfg (hcryptCtx_Tx_Rekey Even (Some rsalt) (Some rsek)) s0 = Some (0, s) ∧
    started s1 s (started_ctx (32 + length w) cache ms c) k ek ∧
    kek_key true pw rsalt n = Some ek ∧ sek_key (ctx_sek c) = Some k ∧
    AES_wrap_key ek None (ctx_sek c) = Some w ∧
    take (32 + length w) cache = km_msg 1 n rsalt w ∧ length cache = 120%nat ∧
    hcryptMsg_KM_HasBothSek cache = false.
Proof.
  intros n c Hrun Hin Haes Hsl Hsb Hkl Hkb. pose proof (in_ctx _ _ _ _ Hin) as Hic.
  destruct (salted_wf Even n rsalt rsek (get_ctx Even s1)) as [Hwf Hsalt]; try done. { apply (Hic Even). }
  fold c in Hwf, Hsalt. destruct (kek_key_total pw rsalt n Haes) as (ek & _ & Hek & _).
  set (s2 := upd_ctx Even (salted n rsalt rsek) s1).
  assert (Hg2 : get_ctx Even s2 = c) by (unfold s2; by rewrite get_upd_eq).
  destruct (Tx_Keyed_run s2 Even pw rsalt n ek) as (k & w & cache & ms & Hk & Hw & Ht & Hcl & Hb & Hkeyed);
    rewrite ?Hg2; try done.
  { apply (ic_pwd _ _ _ _ _ (Hic Even)). } { apply (ic_pwd_len _ _ _ _ _ (Hic Even)). }
  { unfold has_flag. change (flags c) with (flags (get_ctx Even s1)).
    by rewrite (ic_flags _ _ _ _ _ (Hic Even)). }
  { change (get_ctx (alt Even) s2) with (get_ctx Odd s1). by rewrite (ic_status _ _ _ _ _ (Hic Odd)). }
  { apply (in_se _ _ _ _ Hin). }
  rewrite Hg2 in Hk, Hw. unfold s2 in Hkeyed.
  rewrite <- (Tx_Rekey_salted s1 Even n rsalt rsek) in Hkeyed;
    [|by rewrite (ic_status _ _ _ _ _ (Hic Even))|by apply (ic_key_len _ _ _ _ _ (Hic Even))].
  unfold tx_start. rewrite (bind_some _ _ _ _ _ Hrun). cbn [negb].
  rewrite (bind_some _ _ _ _ _ Hkeyed).
  change (negb (0 =? 0)) with false. cbv iota. do 3 hc_step.
  eexists _, k, ek, w, cache, ms. split; [reflexivity|]. by split.
Qed.

Lemma started_inv cfg pw rsalt rsek s1 s k ek w cache ms :
  let n := cfg_key_len cfg in
  let c := salted n rsalt rsek (get_ctx Even s1) in
  inited true pw cfg s1 → started s1 s (started_ctx (32 + length w) cache ms c) k ek →
  aes_key_len n → length rsalt = 16%nat → are_bytes rsalt → length rsek = n → are_bytes rsek →
  sek_key (ctx_sek c) = Some k → AES_wrap_key ek None (ctx_sek c) = Some w →
  take (32 + length w) cache = km_msg 1 n rsalt w → length cache = 120%nat →
  hcryptMsg_KM_HasBothSek cache = false →
  tx_inv rsalt n ek (km_refresh_rate_pkt cfg) (km_pre_announce_pkt cfg)
    (outbuf_siz (cryspr_cb s)) s Even Normal.
Proof.
  intros n c Hin [Hg Hgo Hcb Hcur Hse Hr Hp] Haes Hsl Hsb Hkl Hkb Hk Hw Ht Hcl Hb.
  pose proof (in_ctx _ _ _ _ Hin) as Hic.
  destruct (salted_wf Even n rsalt rsek (get_ctx Even s1)) as [Hwf Hsalt]; try done. { apply (Hic Even). }
  fold c in Hwf, Hsalt.
  assert (Hoann : has_flag HCRYPT_CTX_F_ANNOUNCE (get_ctx Odd s1) = false ∧
    has_flag HCRYPT_CTX_F_TTSEND (get_ctx Odd s1) = false).
  { unfold has_flag. by rewrite (ic_flags _ _ _ _ _ (Hic Odd)). }
  assert (Hwf' : ctx_wf Even (started_ctx (32 + length w) cache ms c)).
  { apply wf_set_status, wf_or_flags; [done|]. by apply wf_set_status, wf_keyed. }
  assert (Hsek : ctx_sek (get_ctx Even s) = ctx_sek c) by (by rewrite Hg).
  split.
  - done.
  - rewrite Hse. apply (in_se _ _ _ _ Hin).
  - rewrite Hcb. apply cb_ok_set_kek, cb_ok_set_sek, (in_cb _ _ _ _ Hin).
  - done.
  - by rewrite Hcb.
  - rewrite Hr. apply (in_refresh _ _ _ _ Hin).
  - rewrite Hp. apply (in_pre _ _ _ _ Hin).
  - intros []; [by rewrite Hg|rewrite Hgo; apply (Hic Odd)].
  - by rewrite Hg.
  - unfold tx_ctx. rewrite Hsek, Hg, Hcb. split; [by apply (ic_key_len _ _ _ _ _ (Hic Even))|].
    split; [done|]. split; [done|]. split; [done|]. exists k. split; [done|].
    destruct (in_cb _ _ _ _ Hin) as (H2 & _). simpl. by rewrite list_lookup_insert_eq by lia.
  - cbn [alt]. rewrite Hgo. split; [by rewrite (ic_status _ _ _ _ _ (Hic Odd))|apply Hoann].
  - intros []; [intros _|rewrite Hgo; destruct Hoann as [-> ->]; intros []; done].
    destruct (asm_km_carries rsalt n Haes Hsl s Even c None) as (Hcar & Hcov); [done..|].
    exists 1, (ctx_sek c), w. by rewrite Hg.
  - intros []; [rewrite Hg; intros _; by apply started_flag|rewrite Hgo]. by destruct Hoann as [_ ->].
Qed.

(** The sender: the invariant of the stream holds, with the salt drawn and
    the KEK derived from it. *)
Lemma Create_tx_run mem m pw cfg rsalt rsek :
  let n := cfg_key_len cfg in
  cfg_for true pw cfg → mem_ok mem m →
  length rsalt = 16%nat → are_bytes rsalt → length rsek = n → are_bytes rsek →
  ∃ (s : ses) ek, HaiCrypt_Create mem (Some rsalt) (Some rsek) cfg = Some (0, Some s) ∧
    kek_key true pw rsalt n = Some ek ∧
    tx_inv rsalt n ek (km_refresh_rate_pkt cfg) (km_pre_announce_pkt cfg)
      (outbuf_siz (cryspr_cb s)) s Even Normal ∧
    pkt_cnt (get_ctx Even s) = 1 ∧ has_flag HCRYPT_CTX_F_TTSEND (get_ctx Even s) = true ∧
    cfg_data_max_len cfg + 16 <= outbuf_siz (cryspr_cb s).
Proof.
  intros n Hcfg Hmem Hsl Hsb Hkl Hkb. unfold HaiCrypt_Create. rewrite (cfg_for_valid _ _ _ Hcfg).
  rewrite (cf_tx _ _ _ Hcfg). cbn [negb]. pose proof (cf_key_len _ _ _ Hcfg) as Haes. fold n in Haes.
  destruct (PrepareHandle_run mem m true pw cfg Hcfg Hmem)
    as (s0 & -> & Hctx & Hcur & Hcb & Hsiz & Hse & Hmi & Hr & Hp).
  edestruct (init_sessions true pw cfg s0 (tx_init_ctx cfg)) with (f := λ sd, hcryptCtx_Tx_Init (AES_KEY := AES_KEY) sd cfg)
    (kl := n) (st := HCRYPT_CTX_S_INIT) as [Hrun Hin]; try done.
  { intros sd s. by eapply Tx_Init_run. }
  destruct (tx_start_run cfg pw rsalt rsek _ _ Hrun Hin)
    as (s & k & ek & w & cache & ms & Hstart & Hst & Hek & Hk & Hw & Ht & Hcl & Hb); try done.
  unfold run_create. rewrite Hstart. change (0 =? 0) with true. cbv iota.
  exists s, ek. split; [done|]. split; [done|]. split; [by eapply started_inv|].
  rewrite (sd_even _ _ _ _ _ Hst), (sd_cb _ _ _ _ _ Hst).
  split; [done|]. split; [by apply started_flag|]. apply (in_siz _ _ _ _ Hin).
Qed.

(** ** The stream *)

(** What is sent in a round: the random bytes of a key, and one packet at
    least and at most [P], which both ends have room for. *)
Definition pkt_fits (max : Z) (pkt : bytes * bytes) : Prop :=
  length pkt.1 = 16%nat ∧ are_bytes pkt.2 ∧ 0 < Z.of_nat (length pkt.2) <= max.
Definition round_fits (n : nat) (P max : Z) (rd : round) : Prop :=
  length (rd_rnd rd) = n ∧ are_bytes (rd_rnd rd) ∧ Forall (pkt_fits max) (rd_pkts rd) ∧
  1 <= Z.of_nat (length (rd_pkts rd)) <= P.

Lemma round_fits_ok n P max SZ SZr rd :
  max < 2 ^ 31 → max + 16 <= SZ → max <= SZr → round_fits n P max rd → round_ok n P SZ SZr rd.
Proof.
  intros Hm Hs Hr (? & ? & Hp & ?). split; [done|]. split; [done|]. split; [|done].
  eapply Forall_impl; [exact Hp|]. intros pkt (? & ? & ?). split_and!; [done|done|lia..].
Qed.

(** Both ends after [HaiCrypt_Create], and a stream over them. *)
Lemma stream_run v little aligned mems ms memr mr pw cs cr rsalt rsek rds :
  let n := cfg_key_len cs in
  let R := km_refresh_rate_pkt cs in
  let P := km_pre_announce_pkt cs in
  cfg_for true pw cs → cfg_for false pw cr → mem_ok mems ms → mem_ok memr mr →
  length rsalt = 16%nat → are_bytes rsalt → length rsek = n → are_bytes rsek →
  0 < P → 2 * P < R → R + P < 2 ^ 32 →
  Forall (round_fits n P (Z.min (cfg_data_max_len cs) (cfg_data_max_len cr))) rds →
  ∃ s r s' r' : ses,
    HaiCrypt_Create mems (Some rsalt) (Some rsek) cs = Some (0, Some s) ∧
    HaiCrypt_Create memr None None cr = Some (0, Some r) ∧
    channel_run v little aligned rds (s, r) =
      Some (concat (map (λ rd, map (λ pkt, (Z.of_nat (length pkt.2), pkt.2)) (rd_pkts rd)) rds), (s', r')) ∧
    ∃ ek sd ph, chan_pre pw rsalt n ek R P (outbuf_siz (cryspr_cb s)) (outbuf_siz (cryspr_cb r)) s' r' sd ph.
Proof.
  intros n R P Hcs Hcr Hms Hmr Hsl Hsb Hkl Hkb HP HR HR32 Hrds.
  pose proof (cf_key_len _ _ _ Hcs) as Haes. fold n in Haes.
  destruct (Create_tx_run mems ms pw cs rsalt rsek) as (s & ek & Hs & Hek & Hinv & Hcnt & Htt & Hsz); try done.
  destruct (Create_rx_run memr mr pw cr rsalt n) as (r & Hr & Hrx & Hst & Hszr); try done.
  pose proof (cf_max _ _ _ Hcs). pose proof (cf_max _ _ _ Hcr).
  destruct (channel_run_ok v little aligned pw rsalt n ek R P (outbuf_siz (cryspr_cb s)) Haes Hsl Hsb Hek
    HP HR HR32 (outbuf_siz (cryspr_cb r)) rds s r Even Normal) as (s' & r' & sd' & ph' & Hrun & Hpre).
  - split; [done|]. split; [unfold cnt_before; lia|]. split.
    + split; [done|]. split; [|done]. intros kf seks w _ _ _ _ m c Hc. unfold c in Hc.
      rewrite Hst in Hc. exfalso. by apply Hc.
    + right. split; [by split|]. by split.
  - eapply Forall_impl; [exact Hrds|]. intros rd. apply round_fits_ok; lia.
  - exists s, r, s', r'. eauto 10.
Qed.
End create.
