(* ===== verification/Bitmap.v ===== *)
(** * The DTLS replay window: ssl/record/dtls1_bitmap.c

    The bitmap of the record numbers received, as a window of [w] bits below
    the highest one ([w] is the width of [unsigned long]: 32 or 64). *)
From S2P Require Import Prelude.

Definition SEQ_NUM_SIZE : nat := 8.

(** [n2l8] of ssl_local.h *)
Definition n2l8 (c : bytes) : Z :=
  let l := Z.shiftl (c !!! 0%nat) 56 in
  let l := Z.lor l (Z.shiftl (c !!! 1%nat) 48) in
  let l := Z.lor l (Z.shiftl (c !!! 2%nat) 40) in
  let l := Z.lor l (Z.shiftl (c !!! 3%nat) 32) in
  let l := Z.lor l (Z.shiftl (c !!! 4%nat) 24) in
  let l := Z.lor l (Z.shiftl (c !!! 5%nat) 16) in
  let l := Z.lor l (Z.shiftl (c !!! 6%nat) 8) in
  Z.lor l (c !!! 7%nat).

(** mod 128 saturating subtract of two 64-bit values in big-endian order *)
Definition satsub64be (v1 v2 : bytes) : Z :=
  let l1 := n2l8 v1 in
  let l2 := n2l8 v2 in
  let ret := i64 (l1 - l2) in
  if (l2 <? l1) && (ret <? 0) then 128
  else if (l1 <? l2) && (0 <? ret) then -128
  else if 128 <? ret then 128
  else if ret <? -128 then -128
  else ret.

Record DTLS1_BITMAP := { map_bits : Z; max_seq_num : bytes }.

Section bitmap.
(** [sizeof(bitmap->map) * 8] *)
Context (w : Z).

(** The return value; [SSL3_RECORD_set_seq_num] copies [seq] into the record
    when it is 1. *)
Definition dtls1_record_replay_check (seq : bytes) (bitmap : DTLS1_BITMAP) : bool :=
  let cmp := satsub64be seq (max_seq_num bitmap) in
  if 0 <? cmp then true else
  let shift := u32 (- cmp) in
  if w <=? shift then false
  else if negb (Z.land (map_bits bitmap) (Z.shiftl 1 shift) =? 0) then false
  else true.

Definition dtls1_record_bitmap_update (seq : bytes) (bitmap : DTLS1_BITMAP) : DTLS1_BITMAP :=
  let cmp := satsub64be seq (max_seq_num bitmap) in
  if 0 <? cmp then
    let shift := u32 cmp in
    {| map_bits := if shift <? w then Z.lor (Z.shiftl (map_bits bitmap) shift mod 2 ^ w) 1 else 1;
       max_seq_num := memcpy (max_seq_num bitmap) 0 (take SEQ_NUM_SIZE seq) |}
  else
    let shift := u32 (- cmp) in
    if shift <? w then
      {| map_bits := Z.lor (map_bits bitmap) (Z.shiftl 1 shift);
         max_seq_num := max_seq_num bitmap |}
    else bitmap.

(** A record read off the network, with whether [dtls1_process_record]
    authenticates it: [goto again] on a replay, the update once it is
    processed. *)
Definition dtls_receive (rec : bytes * bool) (bitmap : DTLS1_BITMAP) : bool * DTLS1_BITMAP :=
  let '(seq, mac_ok) := rec in
  if dtls1_record_replay_check seq bitmap then
    if mac_ok then (true, dtls1_record_bitmap_update seq bitmap) else (false, bitmap)
  else (false, bitmap).

Fixpoint dtls_run (recs : list (bytes * bool)) (bitmap : DTLS1_BITMAP) : list bool * DTLS1_BITMAP :=
  match recs with
  | [] => ([], bitmap)
  | rec :: recs' =>
      let '(b, bitmap) := dtls_receive rec bitmap in
      let '(bs, bitmap) := dtls_run recs' bitmap in
      (b :: bs, bitmap)
  end.

(** [memset(&d->bitmap, 0, sizeof(d->bitmap))] *)
Definition bitmap_zero : DTLS1_BITMAP :=
  {| map_bits := 0; max_seq_num := replicate SEQ_NUM_SIZE 0 |}.
End bitmap.

(** ** The specification: a window over the set of record numbers accepted *)
Definition window_max (rcv : list Z) : Z := foldr Z.max 0 rcv.
Definition window_accepts (w : Z) (rcv : list Z) (rec : bytes * bool) : bool :=
  rec.2 && bool_decide (window_max rcv - w < be_val rec.1) && bool_decide (be_val rec.1 ∉ rcv).
Fixpoint window_run (w : Z) (rcv : list Z) (recs : list (bytes * bool)) : list bool :=
  match recs with
  | [] => []
  | rec :: recs' =>
      let b := window_accepts w rcv rec in
      b :: window_run w (if b then be_val rec.1 :: rcv else rcv) recs'
  end.
(** The record numbers accepted. *)
Definition accepted (recs : list (bytes * bool)) (bs : list bool) : list Z :=
  map (λ p, be_val p.1.1) (filter (λ p, p.2 = true) (zip recs bs)).

(** ** Facts *)
Definition seq_ok (seq : bytes) : Prop := length seq = 8%nat ∧ are_bytes seq.

Lemma n2l8_val c : seq_ok c → n2l8 c = be_val c.
Proof.
  intros [Hl Hb].
  destruct c as [|a [|b [|c [|d [|e [|f [|g [|h [|]]]]]]]]]; try done.
  unfold are_bytes in Hb. rewrite !Forall_cons in Hb. unfold is_byte in Hb.
  unfold n2l8. cbn [lookup_total list_lookup_total]. rewrite <- !Z.lor_assoc.
  rewrite (lor_shiftl_add g h), (lor_shiftl_add f), (lor_shiftl_add e), (lor_shiftl_add d),
    (lor_shiftl_add c), (lor_shiftl_add b), (lor_shiftl_add a) by lia.
  change [a; b; c; d; e; f; g; h] with ([a; b; c; d; e; f; g] ++ [h]). rewrite be_val_snoc.
  change [a; b; c; d; e; f; g] with ([a; b; c; d; e; f] ++ [g]). rewrite be_val_snoc.
  change [a; b; c; d; e; f] with ([a; b; c; d; e] ++ [f]). rewrite be_val_snoc.
  change [a; b; c; d; e] with ([a; b; c; d] ++ [e]). rewrite be_val_snoc.
  change [a; b; c; d] with ([a; b; c] ++ [d]). rewrite be_val_snoc.
  change [a; b; c] with ([a; b] ++ [c]). rewrite be_val_snoc.
  change [a; b] with ([a] ++ [b]). rewrite be_val_snoc, be_val_single. lia.
Qed.

Lemma seq_bounds c : seq_ok c → 0 <= be_val c < 2 ^ 64.
Proof. intros [Hl Hb]. pose proof (be_val_bounds c Hb) as H. by rewrite Hl in H. Qed.

(** The subtraction saturates at 128 on both sides, without wrap-around. *)
Lemma satsub_spec a b :
  seq_ok a → seq_ok b → satsub64be a b = Z.max (-128) (Z.min 128 (be_val a - be_val b)).
Proof.
  intros Ha Hb. pose proof (seq_bounds a Ha). pose proof (seq_bounds b Hb).
  unfold satsub64be. rewrite !n2l8_val by done. set (d := be_val a - be_val b).
  assert (Hi : i64 d = d ∨ 2 ^ 63 <= d ∧ i64 d = d - 2 ^ 64 ∨ d < - 2 ^ 63 ∧ i64 d = d + 2 ^ 64).
  { unfold i64. destruct (decide (2 ^ 63 <= d)).
    - right; left. split; [done|]. rewrite <- (Z.mod_add _ (-1)), Z.mod_small; lia.
    - destruct (decide (d < - 2 ^ 63)).
      + right; right. split; [done|]. rewrite <- (Z.mod_add _ 1), Z.mod_small; lia.
      + left. rewrite Z.mod_small; lia. }
  destruct Hi as [->|[[? ->]|[? ->]]]; unfold d in *;
    repeat case_match; rewrite ?andb_true_iff, ?andb_false_iff in *; lia.
Qed.

(** The bitmap is the window over the set of numbers received. *)
Record bm_inv (w : Z) (bm : DTLS1_BITMAP) (rcv : list Z) : Prop := {
  bi_seq : seq_ok (max_seq_num bm);
  bi_max : be_val (max_seq_num bm) = window_max rcv;
  bi_map : 0 <= map_bits bm < 2 ^ w;
  bi_bits i : 0 <= i < w → Z.testbit (map_bits bm) i = bool_decide (window_max rcv - i ∈ rcv);
}.

Lemma window_max_ge rcv x : x ∈ rcv → x <= window_max rcv.
Proof.
  induction rcv as [|y rcv IH]; [by intros ?%not_elem_of_nil|]. cbn [window_max foldr].
  intros [->|?]%elem_of_cons; [lia|]. specialize (IH H). unfold window_max in IH. lia.
Qed.

Section window.
Context (w : Z) (Hw : 0 < w <= 64).

Lemma replay_check_spec bm rcv seq :
  bm_inv w bm rcv → seq_ok seq →
  dtls1_record_replay_check w seq bm =
    bool_decide (window_max rcv - w < be_val seq) && bool_decide (be_val seq ∉ rcv).
Proof using Hw.
  intros [Hs Hm Hmap Hbits] Hseq. unfold dtls1_record_replay_check.
  rewrite satsub_spec, Hm by done. pose proof (seq_bounds _ Hseq). pose proof (seq_bounds _ Hs).
  set (d := be_val seq - window_max rcv). destruct (0 <? _) eqn:Hpos.
  - rewrite !bool_decide_true; [done| |lia]. intros Hin%window_max_ge. lia.
  - rewrite u32_small by lia. destruct (w <=? _) eqn:Hst.
    + by rewrite bool_decide_false by lia.
    + assert (Z.max (-128) (Z.min 128 d) = d) as Hd by lia. rewrite Hd in *.
      rewrite bool_decide_true, land_bit, Hbits by lia. cbn [andb].
      replace (window_max rcv - - d) with (be_val seq) by lia.
      rewrite bool_decide_not. by destruct (bool_decide _).
Qed.

Lemma bitmap_update_inv bm rcv seq :
  bm_inv w bm rcv → seq_ok seq →
  bm_inv w (dtls1_record_bitmap_update w seq bm) (be_val seq :: rcv).
Proof using Hw.
  intros [Hs Hm Hmap Hbits] Hseq. unfold dtls1_record_bitmap_update.
  rewrite satsub_spec, Hm by done. pose proof (seq_bounds _ Hseq). pose proof (seq_bounds _ Hs).
  set (d := be_val seq - window_max rcv).
  assert (Hmax : window_max (be_val seq :: rcv) = Z.max (be_val seq) (window_max rcv)) by done.
  destruct (0 <? _) eqn:Hpos.
  - assert (Hmem : memcpy (max_seq_num bm) 0 (take SEQ_NUM_SIZE seq) = seq).
    { destruct Hseq, Hs. unfold SEQ_NUM_SIZE. rewrite take_ge by lia. apply memcpy_full. lia. }
    assert (Hnew : window_max (be_val seq :: rcv) = be_val seq) by lia.
    rewrite u32_small by lia. split; cbn [max_seq_num map_bits]; rewrite ?Hmem; [done|lia| |].
    + destruct (_ <? w) eqn:Hsh; [|split; [lia|apply Z.pow_gt_1; lia]].
      pose proof (Z.mod_pos_bound (Z.shiftl (map_bits bm) (Z.max (-128) (Z.min 128 d))) (2 ^ w) ltac:(lia)).
      apply lor_lt_pow2; [lia|done|].
      split; [lia|apply Z.pow_gt_1; lia].
    + intros i Hi. rewrite Hnew. destruct (decide (i = 0)) as [->|Hi0].
      { rewrite Z.sub_0_r, bool_decide_true by (by apply elem_of_cons; left).
        destruct (_ <? w); [|done]. rewrite Z.lor_spec. apply orb_true_r. }
      destruct (_ <? w) eqn:Hsh.
      * assert (Z.max (-128) (Z.min 128 d) = d) as -> by lia.
        assert (Hb1 : Z.testbit 1 i = false) by (apply (Z.bits_above_log2 1); simpl; lia).
        rewrite Z.lor_spec, Hb1, orb_false_r, Z.mod_pow2_bits_low, Z.shiftl_spec by lia.
        destruct (decide (i < d)).
        -- rewrite Z.testbit_neg_r by lia. symmetry. apply bool_decide_eq_false_2.
           intros [|Hin%window_max_ge]%elem_of_cons; lia.
        -- rewrite Hbits by lia. apply bool_decide_ext. rewrite elem_of_cons.
           replace (window_max rcv - (i - d)) with (be_val seq - i) by lia.
           split; [auto|]. intros [|]; [lia|done].
      * rewrite (Z.bits_above_log2 1) by (simpl; lia). symmetry. apply bool_decide_eq_false_2.
        intros [|Hin%window_max_ge]%elem_of_cons; lia.
  - rewrite u32_small by lia.
    destruct (_ <? w) eqn:Hsh.
    + assert (Z.max (-128) (Z.min 128 d) = d) as Hd by lia. rewrite Hd in *.
      split; cbn [max_seq_num map_bits]; [done|lia| |].
      * apply lor_lt_pow2; [lia|done|]. rewrite Z.shiftl_1_l.
        split; [lia|apply Z.pow_lt_mono_r; lia].
      * intros i Hi. rewrite Z.lor_spec, Hbits, Z.shiftl_1_l, Z.pow2_bits_eqb by lia.
        rewrite Hmax, Z.max_r by lia.
        destruct (Z.eqb_spec (- d) i) as [<-|Hne].
        -- rewrite orb_true_r. symmetry. apply bool_decide_eq_true_2, elem_of_cons. left. lia.
        -- rewrite orb_false_r. apply bool_decide_ext. rewrite elem_of_cons.
           split; [auto|]. intros [|]; [lia|done].
    + split; [done|lia|done|]. intros i Hi. rewrite Hmax, Z.max_r, Hbits by lia.
      apply bool_decide_ext. rewrite elem_of_cons. split; [auto|]. intros [|]; [lia|done].
Qed.

Lemma bitmap_zero_inv : bm_inv w bitmap_zero [].
Proof using Hw.
  split; [split; [done|by repeat constructor]|done|simpl; lia|].
  intros i Hi. rewrite Z.testbit_0_l. symmetry. apply bool_decide_eq_false_2, not_elem_of_nil.
Qed.

Lemma dtls_run_window bm rcv recs :
  bm_inv w bm rcv → Forall (λ rec, seq_ok rec.1) recs →
  (dtls_run w recs bm).1 = window_run w rcv recs.
Proof using Hw.
  intros Hinv Hok. revert bm rcv Hinv. induction Hok as [|[seq mac] recs Hseq Hok IH]; intros bm rcv Hinv; [done|].
  simpl in Hseq. cbn [dtls_run window_run dtls_receive]. unfold window_accepts. cbn [fst snd].
  rewrite (replay_check_spec bm rcv seq) by done. rewrite <- andb_assoc.
  destruct (bool_decide _ && bool_decide _), mac; cbn [andb].
  - specialize (IH _ _ (bitmap_update_inv _ _ _ Hinv Hseq)). destruct (dtls_run _ _ _). simpl in *. by f_equal.
  - specialize (IH _ _ Hinv). destruct (dtls_run _ _ _). simpl in *. by f_equal.
  - specialize (IH _ _ Hinv). destruct (dtls_run _ _ _). simpl in *. by f_equal.
  - specialize (IH _ _ Hinv). destruct (dtls_run _ _ _). simpl in *. by f_equal.
Qed.

Lemma window_run_nodup rcv recs :
  NoDup (accepted recs (window_run w rcv recs)) ∧
  ∀ x, x ∈ accepted recs (window_run w rcv recs) → x ∉ rcv.
Proof using Type.
  revert rcv. induction recs as [|rec recs IH]; intros rcv.
  { split; [constructor|]. by intros x ?%not_elem_of_nil. }
  cbn [window_run]. unfold accepted in *. cbn [zip zip_with]. 
  destruct (window_accepts w rcv rec) eqn:Hacc.
  - rewrite filter_cons_True by done. cbn [map fst]. destruct (IH (be_val rec.1 :: rcv)) as [Hnd Hout].
    unfold window_accepts in Hacc. apply andb_true_iff in Hacc as [_ Hnew%bool_decide_eq_true].
    split.
    + apply NoDup_cons. split; [|done]. intros Hin%Hout. apply Hin, elem_of_cons. by left.
    + intros x [->|Hx%Hout]%elem_of_cons; [done|]. intros Hin. apply Hx, elem_of_cons. by right.
  - rewrite filter_cons_False by done. apply IH.
Qed.
End window.
