(* ===== verification/PQueue.v ===== *)
(** * The priority queue of DTLS: ssl/pqueue.c

    The queue is a linked list in the heap, a map from addresses to items, and
    the operations follow and write its pointers.  [None] is an access to
    memory that is not an item (or a walk longer than the fuel given). *)
From S2P Require Import Prelude.
From Stdlib Require Import Sorted.

(** ** memcmp *)

(** The sign of the first difference of the [n] first bytes. *)
Fixpoint memcmp (a b : bytes) (n : nat) : Z :=
  match n with
  | O => 0
  | S n' =>
      let x := a !!! 0%nat in
      let y := b !!! 0%nat in
      if x =? y then memcmp (drop 1 a) (drop 1 b) n' else if x <? y then -1 else 1
  end.

(** ** Items and queues *)
Record pitem := { priority : bytes; data : Z; next : Z }.
Definition set_next (p : Z) (it : pitem) : pitem :=
  {| priority := priority it; data := data it; next := p |}.
(** NULL is 0. *)
Abbreviation heap := (gmap Z pitem).
Record pqueue := { items : Z; count : Z }.

(** [p]: the address [OPENSSL_malloc] answers, 0 when it fails. *)
Definition pitem_new (h : heap) (p : Z) (prio64be : bytes) (d : Z) : Z * heap :=
  if p =? 0 then (0, h)
  else (p, <[p := {| priority := take 8 prio64be; data := d; next := 0 |}]> h).

Definition pitem_free (h : heap) (p : Z) : heap := delete p h.

Definition pqueue_new : pqueue := {| items := 0; count := 0 |}.

(** The [for] loop of [pqueue_insert] and what follows it: the value returned,
    the heap and [pq->items]. *)
Fixpoint pqueue_insert_loop (fuel : nat) (h : heap) (first curr nxt item : Z)
    : option (Z * heap * Z) :=
  match fuel with
  | O => None
  | S fuel' =>
      it ← h !! item;
      if nxt =? 0 then
        let h := <[item := set_next 0 it]> h in
        c ← h !! curr;
        Some (item, <[curr := set_next item c]> h, first)
      else
        n ← h !! nxt;
        let cmp := memcmp (priority n) (priority it) 8 in
        if 0 <? cmp then
          let h := <[item := set_next nxt it]> h in
          if curr =? 0 then Some (item, h, item)
          else c ← h !! curr; Some (item, <[curr := set_next item c]> h, first)
        else if cmp =? 0 then Some (0, h, first)
        else pqueue_insert_loop fuel' h first nxt (next n) item
  end.

Definition pqueue_insert (fuel : nat) (h : heap) (pq : pqueue) (item : Z)
    : option (Z * heap * pqueue) :=
  if items pq =? 0 then Some (item, h, {| items := item; count := count pq |})
  else
    '(r, h, first) ← pqueue_insert_loop fuel h (items pq) 0 (items pq) item;
    Some (r, h, {| items := first; count := count pq |}).

Definition pqueue_peek (pq : pqueue) : Z := items pq.

Definition pqueue_pop (h : heap) (pq : pqueue) : option (Z * pqueue) :=
  let item := items pq in
  if item =? 0 then Some (0, pq)
  else it ← h !! item; Some (item, {| items := next it; count := count pq |}).

(** The loop over all the nodes but the last, then the last one. *)
Fixpoint pqueue_find_loop (fuel : nat) (h : heap) (nxt : Z) (prio64be : bytes) : option Z :=
  match fuel with
  | O => None
  | S fuel' =>
      n ← h !! nxt;
      if negb (next n =? 0) && negb (memcmp (priority n) prio64be 8 =? 0)
      then pqueue_find_loop fuel' h (next n) prio64be
      else Some (if memcmp (priority n) prio64be 8 =? 0 then nxt else 0)
  end.

Definition pqueue_find (fuel : nat) (h : heap) (pq : pqueue) (prio64be : bytes) : option Z :=
  if items pq =? 0 then Some 0 else pqueue_find_loop fuel h (items pq) prio64be.

Definition pqueue_iterator (pq : pqueue) : Z := pqueue_peek pq.

(** The item returned and the new value of the iterator. *)
Definition pqueue_next (h : heap) (item : Z) : option (Z * Z) :=
  if item =? 0 then Some (0, item) else it ← h !! item; Some (item, next it).

Fixpoint pqueue_size_loop (fuel : nat) (h : heap) (item cnt : Z) : option Z :=
  match fuel with
  | O => None
  | S fuel' =>
      if item =? 0 then Some cnt
      else it ← h !! item; pqueue_size_loop fuel' h (next it) (u64 (cnt + 1))
  end.
Definition pqueue_size (fuel : nat) (h : heap) (pq : pqueue) : option Z :=
  pqueue_size_loop fuel h (items pq) 0.

(** ** Facts *)

(** Priorities are 64-bit big-endian numbers, and [memcmp] compares them. *)
Definition prio_ok (b : bytes) : Prop := length b = 8%nat ∧ are_bytes b.

Lemma memcmp_spec a b :
  length a = length b → are_bytes a → are_bytes b →
  let c := memcmp a b (length a) in
  (0 < c ↔ be_val b < be_val a) ∧ (c = 0 ↔ be_val a = be_val b).
Proof.
  revert b. induction a as [|x a IH]; intros [|y b]; [simpl; lia|done|done|].
  rewrite !are_bytes_cons. intros [= Hl] [Hx Ha] [Hy Hb]. cbn [memcmp length].
  cbn [lookup_total list_lookup_total]. change (drop 1 (?z :: ?l)) with l.
  change (x :: a) with ([x] ++ a). change (y :: b) with ([y] ++ b).
  rewrite !be_val_app, !be_val_single, <- Hl. specialize (IH b Hl Ha Hb). cbv zeta in IH.
  change (drop 1 ([x] ++ a)) with a. change (drop 1 ([y] ++ b)) with b.
  pose proof (be_val_bounds a Ha) as Hba. pose proof (be_val_bounds b Hb) as Hbb. rewrite <- Hl in Hbb.
  set (P := 2 ^ _) in *. destruct (Z.eqb_spec x y) as [->|Hne]; [lia|].
  destruct (Z.ltb_spec x y); nia.
Qed.

Definition key (it : pitem) : Z := be_val (priority it).

Lemma memcmp_key a b :
  prio_ok a → prio_ok b →
  (0 < memcmp a b 8 ↔ be_val b < be_val a) ∧ (memcmp a b 8 = 0 ↔ be_val a = be_val b).
Proof. intros [Hl Ha] [Hl' Hb]. rewrite <- Hl. apply memcmp_spec; congruence || done. Qed.

(** [l] lists the addresses and items of the nodes from [p] up to [q]. *)
Fixpoint is_seg (h : heap) (p : Z) (l : list (Z * pitem)) (q : Z) : Prop :=
  match l with
  | [] => p = q
  | (a, it) :: l' =>
      p = a ∧ a ≠ 0 ∧ h !! a = Some it ∧ prio_ok (priority it) ∧ is_seg h (next it) l' q
  end.
Definition is_list (h : heap) (p : Z) (l : list (Z * pitem)) : Prop := is_seg h p l 0.
Definition keys (l : list (Z * pitem)) : list Z := (λ n, key n.2) <$> l.
(** What a node is, whatever its position: address, priority and data. *)
Definition node (n : Z * pitem) : Z * (bytes * Z) := (n.1, (priority n.2, data n.2)).

(** A queue: the nodes are in strictly increasing order of priority. *)
Definition is_queue (h : heap) (pq : pqueue) (l : list (Z * pitem)) : Prop :=
  is_list h (items pq) l ∧ StronglySorted Z.lt (keys l).

(** Sorted insertion. *)
Fixpoint insert_node (n : Z * (bytes * Z)) (l : list (Z * (bytes * Z))) : list (Z * (bytes * Z)) :=
  match l with
  | [] => [n]
  | m :: l' => if be_val n.2.1 <? be_val m.2.1 then n :: l else m :: insert_node n l'
  end.

(** ** Segments *)
Lemma is_seg_app h p l1 l2 q :
  is_seg h p (l1 ++ l2) q ↔ ∃ m, is_seg h p l1 m ∧ is_seg h m l2 q.
Proof.
  revert p. induction l1 as [|[a it] l1 IH]; intros p; simpl.
  - split; [by exists p|]. by intros (m & -> & ?).
  - rewrite IH. split.
    + intros (? & ? & ? & ? & m & ? & ?). by exists m.
    + intros (m & (? & ? & ? & ? & ?) & ?). split_and!; try done. by exists m.
Qed.

Lemma is_seg_frame h h' p l q :
  (∀ a, a ∈ l.*1 → h' !! a = h !! a) → is_seg h p l q → is_seg h' p l q.
Proof.
  revert p. induction l as [|[a it] l IH]; intros p Hf; [done|].
  intros (-> & Ha & Hh & Hp & Hseg). csimpl in Hf. split_and!; try done.
  - rewrite Hf by set_solver. done.
  - apply IH; [set_solver|done].
Qed.

Lemma is_seg_lookup h p l q a it : is_seg h p l q → (a, it) ∈ l → h !! a = Some it.
Proof.
  revert p. induction l as [|[b it'] l IH]; intros p; [by intros _ ?%not_elem_of_nil|].
  intros (-> & Ha & Hh & Hp & Hseg) [[= -> ->]|Hin]%elem_of_cons; eauto.
Qed.

Lemma is_seg_prio h p l q n : is_seg h p l q → n ∈ l → prio_ok (priority n.2).
Proof.
  revert p. induction l as [|[b it'] l IH]; intros p; [by intros _ ?%not_elem_of_nil|].
  intros (-> & Ha & Hh & Hp & Hseg) [->|Hin]%elem_of_cons; eauto.
Qed.

(** Priorities are distinct, so addresses are. *)
Lemma sorted_NoDup l : StronglySorted Z.lt l → NoDup l.
Proof.
  induction 1 as [|x l Hs IH Hx]; constructor; [|done].
  intros Hin. rewrite Forall_forall in Hx. specialize (Hx _ Hin). lia.
Qed.

Lemma queue_NoDup h p l q : is_seg h p l q → StronglySorted Z.lt (keys l) → NoDup l.*1.
Proof.
  intros Hseg Hs. apply sorted_NoDup in Hs.
  assert (∀ p, is_seg h p l q → NoDup (keys l) → NoDup l.*1) as H; [|eauto].
  clear. induction l as [|[a it] l IH]; intros p; [constructor|].
  intros (-> & Ha & Hh & Hp & Hseg) [Hnin Hnd]%NoDup_cons. csimpl. apply NoDup_cons.
  split; [|by eapply IH]. intros ((b & it') & Heq & Hin)%list_elem_of_fmap. simpl in Heq. subst b.
  pose proof (is_seg_lookup _ _ _ _ _ _ Hseg Hin) as Hit. rewrite Hit in Hh.
  apply (inj Some) in Hh as ->. apply Hnin. apply list_elem_of_fmap. by exists (a, it).
Qed.

Lemma keys_app l1 l2 : keys (l1 ++ l2) = keys l1 ++ keys l2.
Proof. apply fmap_app. Qed.

(** Linking [item] between the node before it and the rest of the list. *)
Lemma link_first h item it nxt suf :
  item ≠ 0 → prio_ok (priority it) → item ∉ suf.*1 → is_seg h nxt suf 0 →
  is_list (<[item := set_next nxt it]> h) item ((item, set_next nxt it) :: suf).
Proof.
  intros Hi Hp Hnin Hseg. split; [done|]. split; [done|]. split; [by rewrite lookup_insert_eq|].
  split; [done|]. simpl. eapply is_seg_frame; [|done]. intros a Ha.
  rewrite lookup_insert_ne; [done|]. by intros <-.
Qed.

Lemma link_after h first pre curr c item it nxt suf :
  item ≠ 0 → prio_ok (priority it) → item ∉ (pre ++ [(curr, c)] ++ suf).*1 →
  NoDup (pre ++ [(curr, c)] ++ suf).*1 →
  is_seg h first (pre ++ [(curr, c)]) nxt → is_seg h nxt suf 0 →
  is_list (<[curr := set_next item c]> (<[item := set_next nxt it]> h)) first
    (pre ++ [(curr, set_next item c)] ++ (item, set_next nxt it) :: suf).
Proof.
  intros Hi Hp Hnin Hnd Hpre Hsuf. apply is_seg_app in Hpre as (m & Hpre & Hc).
  simpl in Hc. destruct Hc as (-> & Hc0 & Hhc & Hpc & Hnext).
  rewrite !fmap_app in *. csimpl in *. apply NoDup_app in Hnd as (_ & Hd1 & Hd2).
  apply NoDup_cons in Hd2 as [Hd2 _]. rewrite !not_elem_of_app, not_elem_of_cons in Hnin.
  destruct Hnin as (Hn1 & Hn2 & Hn3).
  apply is_seg_app. exists curr. split.
  { eapply is_seg_frame; [|done]. intros a Ha. rewrite !lookup_insert_ne; set_solver. }
  simpl. split; [done|]. split; [done|]. split; [by rewrite lookup_insert_eq|]. split; [done|].
  split; [done|]. split; [done|]. split.
  { rewrite lookup_insert_ne by done. by rewrite lookup_insert_eq. }
  split; [done|]. eapply is_seg_frame; [|done]. intros a Ha. rewrite !lookup_insert_ne; set_solver.
Qed.

(** ** Insertion *)
Lemma insert_node_skip n l1 l2 :
  Forall (λ m, be_val m.2.1 <= be_val n.2.1) l1 →
  insert_node n (l1 ++ l2) = l1 ++ insert_node n l2.
Proof.
  induction 1 as [|m l1 Hm Hl IH]; [done|]. cbn [app insert_node].
  destruct (Z.ltb_spec (be_val n.2.1) (be_val m.2.1)); [lia|]. by rewrite IH.
Qed.

(** The address of the last node, NULL if there is none. *)
Definition last_addr (l : list (Z * pitem)) : Z := default 0 (fst <$> last l).

Lemma last_addr_snoc l n : last_addr (l ++ [n]) = n.1.
Proof. unfold last_addr. by rewrite last_snoc. Qed.

(** Where the loop stands: [pre] has been passed, [suf] remains. *)
Record insert_state (h : heap) (first item : Z) (it : pitem) (pre suf : list (Z * pitem)) : Prop := {
  is_item : h !! item = Some it ∧ item ≠ 0 ∧ prio_ok (priority it);
  is_first : is_list h first (pre ++ suf);
  is_nin : item ∉ (pre ++ suf).*1;
  is_nodup : NoDup (pre ++ suf).*1;
  is_pre : Forall (λ n, key n.2 < key it) pre;
  is_sorted : StronglySorted Z.lt (keys suf);
}.

(** What the insertion establishes: the same nodes and the new one, in
    order, and nothing else written. *)
Definition inserted (h h' : heap) (first' item : Z) (it : pitem) (l : list (Z * pitem)) : Prop :=
  ∃ l', is_list h' first' l' ∧
    node <$> l' = insert_node (node (item, it)) (node <$> l) ∧
    ∀ a, a ∉ item :: l.*1 → h' !! a = h !! a.

Lemma node_set_next a p it : node (a, set_next p it) = node (a, it).
Proof. done. Qed.

Lemma insert_here h first item it pre suf nxt :
  insert_state h first item it pre suf → is_list h nxt suf →
  Forall (λ n, key it < key n.2) suf →
  let h1 := <[item := set_next nxt it]> h in
  match last pre with
  | None => inserted h h1 item item it (pre ++ suf)
  | Some (curr, c) =>
      h1 !! curr = Some c ∧ curr ≠ 0 ∧
      inserted h (<[curr := set_next item c]> h1) first item it (pre ++ suf)
  end.
Proof.
  intros [(Hit & Hi0 & Hp) Hl Hnin Hnd Hpre _] Hsuf Hgt h1.
  assert (Hins : insert_node (node (item, it)) (node <$> pre ++ suf) =
    (node <$> pre) ++ node (item, it) :: (node <$> suf)).
  { rewrite fmap_app, insert_node_skip.
    - f_equal. destruct Hgt as [|n suf' Hn _]; [done|]. cbn [fmap list_fmap insert_node].
      by rewrite (proj2 (Z.ltb_lt _ _)) by exact Hn.
    - apply Forall_fmap. eapply Forall_impl; [exact Hpre|]. intros n Hn. simpl in *.
      unfold key in Hn. simpl. lia. }
  destruct (last pre) as [[curr c]|] eqn:Hlast.
  - apply last_Some in Hlast as [pre' ->]. rewrite <- !app_assoc in *.
    pose proof Hl as Hl2. unfold is_list in Hl2. rewrite app_assoc, is_seg_app in Hl2.
    destruct Hl2 as (m & Hpre1 & Hsuf1).
    assert (m = nxt) as ->.
    { unfold is_list in Hsuf. destruct suf as [|[a ?] suf]; simpl in Hsuf1, Hsuf; [congruence|].
      destruct Hsuf1 as (-> & _), Hsuf as (-> & _). done. }
    assert (Hcurr : (curr, c) ∈ pre' ++ [(curr, c)] ++ suf) by set_solver.
    assert (Hne : curr ≠ item).
    { intros ->. apply Hnin. apply list_elem_of_fmap. by exists (item, c). }
    pose proof Hpre1 as (m & _ & Hc)%is_seg_app. simpl in Hc. destruct Hc as (-> & Hc0 & Hhc & _).
    split; [by unfold h1; rewrite lookup_insert_ne by done|]. split; [done|].
    eexists. split; [by apply link_after|]. split.
    + rewrite app_assoc, Hins, !fmap_app. by rewrite <- !app_assoc.
    + intros a Ha. rewrite not_elem_of_cons in Ha. destruct Ha as [Ha1 Ha2].
      assert (a ≠ curr) by (intros ->; apply Ha2, list_elem_of_fmap; by exists (curr, c)).
      unfold h1. by rewrite !lookup_insert_ne by done.
  - apply last_None in Hlast as ->. simpl in *. eexists. split; [by apply link_first|]. split.
    + by rewrite Hins.
    + intros a [Ha _]%not_elem_of_cons. unfold h1. by rewrite lookup_insert_ne by done.
Qed.

Lemma sorted_cons_lt x l : StronglySorted Z.lt (x :: l) → Forall (Z.lt x) l ∧ StronglySorted Z.lt l.
Proof. by intros [? ?]%StronglySorted_inv. Qed.

Lemma keys_Forall (P : Z → Prop) l : Forall P (keys l) ↔ Forall (λ n, P (key n.2)) l.
Proof. unfold keys. by rewrite Forall_fmap. Qed.

Lemma insert_loop_run fuel h first item it pre suf nxt :
  insert_state h first item it pre suf → is_list h nxt suf → pre ++ suf ≠ [] →
  (length suf < fuel)%nat →
  ∃ r h' first', pqueue_insert_loop fuel h first (last_addr pre) nxt item = Some (r, h', first') ∧
    if bool_decide (key it ∈ keys suf) then r = 0 ∧ h' = h ∧ first' = first
    else r = item ∧ inserted h h' first' item it (pre ++ suf).
Proof.
  revert fuel pre nxt. induction suf as [|[a n] suf IH]; intros fuel pre nxt Hst Hsuf Hne Hfuel;
    (destruct fuel as [|fuel]; [simpl in Hfuel; lia|]); cbn [pqueue_insert_loop];
    destruct (is_item _ _ _ _ _ _ Hst) as (Hit & Hi0 & Hp); rewrite Hit; cbn [mbind option_bind].
  - unfold is_list in Hsuf. simpl in Hsuf. subst nxt. change (0 =? 0) with true. cbv iota.
    pose proof (insert_here _ _ _ _ _ _ 0 Hst eq_refl (Forall_nil_2 _)) as Hins. cbv zeta in Hins.
    unfold last_addr. destruct (last pre) as [[curr c]|] eqn:Hlast.
    + change (default 0 (fst <$> Some (curr, c))) with curr. destruct Hins as (-> & Hc0 & Hins). cbn [mbind option_bind].
      do 3 eexists. split; [done|]. rewrite bool_decide_false by (by apply not_elem_of_nil). done.
    + apply last_None in Hlast as ->. exfalso. by apply Hne.
  - pose proof Hsuf as Hsuf'. destruct Hsuf' as (-> & Ha0 & Hn & Hpn & Hrest).
    rewrite (proj2 (Z.eqb_neq a 0)) by done. rewrite Hn. cbn [mbind option_bind].
    destruct (memcmp_key (priority n) (priority it)) as [Hgt Heq]; [done..|]. fold (key it) (key n) in *.
    set (cmp := memcmp _ _ _) in *.
    destruct (sorted_cons_lt _ _ (is_sorted _ _ _ _ _ _ Hst)) as [Hlt Hs]. cbn [snd] in Hlt.
    destruct (Z.ltb_spec 0 cmp) as [Hcmp|Hcmp].
    + apply Hgt in Hcmp.
      assert (Hall : Forall (λ m, key it < key m.2) ((a, n) :: suf)).
      { constructor; [done|]. apply keys_Forall. eapply Forall_impl; [exact Hlt|]. simpl. lia. }
      rewrite bool_decide_false.
      2: { intros Hin. apply (keys_Forall (Z.lt (key it))) in Hall. rewrite Forall_forall in Hall.
           specialize (Hall _ Hin). lia. }
      pose proof (insert_here _ _ _ _ _ _ a Hst Hsuf Hall) as Hins. cbv zeta in Hins.
      unfold last_addr. destruct (last pre) as [[curr c]|] eqn:Hlast.
      * change (default 0 (fst <$> Some (curr, c))) with curr. destruct Hins as (-> & Hc0 & Hins). rewrite (proj2 (Z.eqb_neq curr 0)) by done.
        cbn [mbind option_bind]. by do 3 eexists.
      * change (default 0 (fst <$> None) =? 0) with true. cbv iota. by do 3 eexists.
    + destruct (Z.eqb_spec cmp 0) as [Hc|Hc].
      * rewrite bool_decide_true; [by do 3 eexists|]. apply elem_of_cons. left. symmetry. by apply Heq.
      * assert (Hkn : key n < key it) by lia.
        destruct (IH fuel (pre ++ [(a, n)]) (next n)) as (r & h' & first' & Hrun & Hres).
        -- destruct Hst as [? Hf Hni Hnd Hpre _]. rewrite cons_middle, app_assoc in Hf, Hni, Hnd.
           split; try done. apply Forall_app. split; [done|]. by repeat constructor.
        -- done.
        -- by destruct pre.
        -- simpl in Hfuel. lia.
        -- rewrite last_addr_snoc in Hrun. exists r, h', first'. split; [done|].
           rewrite <- app_assoc in Hres.
           assert (key it ∈ keys ((a, n) :: suf) ↔ key it ∈ keys suf) as Hiff.
           { unfold keys. rewrite fmap_cons, elem_of_cons. simpl. split; [intros [|]; [lia|done]|auto]. }
           by rewrite (bool_decide_ext _ _ Hiff).
Qed.

(** ** The operations on a queue *)
Definition item_ok (h : heap) (item : Z) (it : pitem) (l : list (Z * pitem)) : Prop :=
  h !! item = Some it ∧ item ≠ 0 ∧ prio_ok (priority it) ∧ item ∉ l.*1.

Lemma insert_node_sorted n l :
  StronglySorted Z.lt ((λ m, be_val m.2.1) <$> l) → be_val n.2.1 ∉ ((λ m, be_val m.2.1) <$> l) →
  StronglySorted Z.lt ((λ m, be_val m.2.1) <$> insert_node n l).
Proof.
  induction l as [|m l IH]; [by repeat constructor|]. cbn [insert_node].
  rewrite fmap_cons. intros [Hm Hs]%sorted_cons_lt [Hne Hnin]%not_elem_of_cons.
  destruct (Z.ltb_spec (be_val n.2.1) (be_val m.2.1)); rewrite !fmap_cons.
  - constructor; [by constructor|]. constructor; [done|]. eapply Forall_impl; [exact Hm|]. simpl. lia.
  - constructor; [by apply IH|]. clear IH Hs Hnin. induction l as [|k l IH]; cbn [insert_node].
    + repeat constructor. lia.
    + rewrite fmap_cons in Hm. apply Forall_cons in Hm as [Hk Hm].
      destruct (_ <? _); rewrite !fmap_cons; repeat constructor; auto; lia.
Qed.

Lemma keys_node l : keys l = (λ m, be_val m.2.1) <$> (node <$> l).
Proof. unfold keys. by rewrite <- list_fmap_compose. Qed.

Lemma pqueue_insert_run fuel h pq l item it :
  is_queue h pq l → item_ok h item it l → (l = [] → next it = 0) → (length l < fuel)%nat →
  ∃ r h' pq', pqueue_insert fuel h pq item = Some (r, h', pq') ∧
    if bool_decide (key it ∈ keys l) then r = 0 ∧ h' = h ∧ pq' = pq
    else r = item ∧ (∀ a, a ∉ item :: l.*1 → h' !! a = h !! a) ∧
      ∃ l', is_queue h' pq' l' ∧ node <$> l' = insert_node (node (item, it)) (node <$> l).
Proof.
  intros [Hl Hs] (Hit & Hi0 & Hp & Hnin) Hnext Hfuel. unfold pqueue_insert.
  destruct l as [|[a n] l].
  - unfold is_list in Hl. simpl in Hl. rewrite Hl. change (0 =? 0) with true. cbv iota.
    do 3 eexists. split; [done|]. rewrite bool_decide_false by (by apply not_elem_of_nil).
    split; [done|]. split; [done|]. exists [(item, it)]. split; [|done].
    split; [|by repeat constructor]. split_and!; try done. simpl. by apply Hnext.
  - pose proof Hl as (Ha & Ha0 & _). rewrite Ha in Hl |- *. rewrite (proj2 (Z.eqb_neq a 0)) by done.
    destruct (insert_loop_run fuel h a item it [] ((a, n) :: l) a)
      as (r & h' & first' & Hrun & Hres); [|done|done|done|].
    { split; try done. by eapply queue_NoDup. }
    unfold last_addr in Hrun. simpl in Hrun. rewrite Hrun. cbn [mbind option_bind].
    do 3 eexists. split; [done|]. destruct (bool_decide _) eqn:Hb.
    + destruct Hres as (-> & -> & ->). split; [done|]. split; [done|]. by destruct pq; simpl in *; subst.
    + destruct Hres as (-> & l' & Hl' & Hn' & Hframe). split; [done|]. split; [done|].
      exists l'. split; [|done]. split; [done|]. rewrite keys_node, Hn'.
      apply insert_node_sorted; rewrite <- keys_node; [done|].
      by apply bool_decide_eq_false in Hb.
Qed.

Lemma pqueue_pop_run h pq l :
  is_queue h pq l →
  match l with
  | [] => pqueue_pop h pq = Some (0, pq)
  | (a, it) :: l' =>
      ∃ pq', pqueue_pop h pq = Some (a, pq') ∧ a ≠ 0 ∧ h !! a = Some it ∧ is_queue h pq' l' ∧
        Forall (λ k, key it < k) (keys l')
  end.
Proof.
  intros [Hl Hs]. unfold pqueue_pop. destruct l as [|[a it] l].
  - unfold is_list in Hl. simpl in Hl. by rewrite Hl.
  - destruct Hl as (-> & Ha & Hit & Hp & Hl). rewrite (proj2 (Z.eqb_neq _ _)), Hit by done.
    apply sorted_cons_lt in Hs as [Hk Hs]. eexists. by split_and!.
Qed.

Lemma find_loop_run fuel h p l prio :
  is_list h p l → l ≠ [] → prio_ok prio → (length l < fuel)%nat →
  ∃ r, pqueue_find_loop fuel h p prio = Some r ∧
    (r ≠ 0 ∧ (∃ it, (r, it) ∈ l ∧ key it = be_val prio) ∨ r = 0 ∧ be_val prio ∉ keys l).
Proof.
  intros Hl Hne Hp. revert fuel p Hl Hne. induction l as [|[a it] l IH]; intros fuel p Hl Hne Hfuel; [done|].
  destruct fuel as [|fuel]; [simpl in Hfuel; lia|].
  destruct Hl as (-> & Ha & Hit & Hpr & Hl). cbn [pqueue_find_loop]. rewrite Hit. cbn [mbind option_bind].
  destruct (memcmp_key (priority it) prio Hpr Hp) as [_ Heq]. fold (key it) in Heq.
  set (cmp := memcmp _ _ _) in *. destruct (Z.eqb_spec cmp 0) as [Hc|Hc].
  - rewrite andb_false_r. exists a. split; [done|]. left. split; [done|]. exists it.
    split; [by apply elem_of_cons; left|tauto].
  - assert (Hk : be_val prio ≠ key it) by (intros E; by apply Hc, Heq). destruct (Z.eqb_spec (next it) 0) as [Hn|Hn]; cbn [negb andb].
    + exists 0. split; [done|]. right. split; [done|].
      assert (l = []) as -> by (destruct l as [|[b ?] l]; [done|]; by destruct Hl as (? & ? & _); congruence).
      unfold keys. rewrite fmap_cons, elem_of_cons. intros [|?%not_elem_of_nil]; done.
    + destruct (IH fuel (next it)) as (r & -> & Hr); [done| |simpl in Hfuel; lia|].
      { intros ->. by unfold is_list in Hl. }
      exists r. split; [done|]. unfold keys. rewrite fmap_cons, elem_of_cons.
      destruct Hr as [(? & it' & Hin & ?)|[? Hr]]; [left; split; [done|]; exists it'|right]; split; try done.
      * by apply elem_of_cons; right.
      * by intros [|].
Qed.

Lemma pqueue_find_run fuel h pq l prio :
  is_queue h pq l → prio_ok prio → (length l < fuel)%nat →
  ∃ r, pqueue_find fuel h pq prio = Some r ∧
    (r ≠ 0 ∧ (∃ it, (r, it) ∈ l ∧ key it = be_val prio) ∨ r = 0 ∧ be_val prio ∉ keys l).
Proof.
  intros [Hl Hs] Hp Hf. unfold pqueue_find. destruct l as [|[a it] l].
  - unfold is_list in Hl. simpl in Hl. rewrite Hl. exists 0. split; [done|]. right.
    split; [done|apply not_elem_of_nil].
  - pose proof Hl as (Ha & Ha0 & _). rewrite Ha in Hl |- *. rewrite (proj2 (Z.eqb_neq _ _)) by done.
    by apply find_loop_run.
Qed.

Lemma size_loop_run fuel h p l cnt :
  is_list h p l → (length l < fuel)%nat → 0 <= cnt → cnt + Z.of_nat (length l) < 2 ^ 64 →
  pqueue_size_loop fuel h p cnt = Some (cnt + Z.of_nat (length l)).
Proof.
  revert fuel p cnt. induction l as [|[a it] l IH]; intros fuel p cnt Hl Hf Hc0 Hc;
    (destruct fuel as [|fuel]; [simpl in Hf; lia|]); cbn [pqueue_size_loop].
  - unfold is_list in Hl. simpl in Hl. rewrite Hl. simpl. by rewrite Z.add_0_r.
  - destruct Hl as (-> & Ha & Hit & Hp & Hl). rewrite (proj2 (Z.eqb_neq _ _)), Hit by done.
    cbn [mbind option_bind]. rewrite length_cons in *. rewrite u64_small by lia.
    rewrite (IH fuel) by (done || lia). f_equal. lia.
Qed.

(** ** A queue filled, then emptied *)
Fixpoint insert_all (fuel : nat) (h : heap) (pq : pqueue) (its : list Z) : option (heap * pqueue) :=
  match its with
  | [] => Some (h, pq)
  | item :: its' => '(_, h, pq) ← pqueue_insert fuel h pq item; insert_all fuel h pq its'
  end.
Fixpoint drain (fuel : nat) (h : heap) (pq : pqueue) : option (list Z) :=
  match fuel with
  | O => None
  | S fuel' =>
      '(item, pq) ← pqueue_pop h pq;
      if item =? 0 then Some [] else cons item <$> drain fuel' h pq
  end.

Lemma insert_node_elem m n l : m ∈ insert_node n l ↔ m = n ∨ m ∈ l.
Proof.
  induction l as [|k l IH]; cbn [insert_node].
  - rewrite elem_of_cons. tauto.
  - destruct (_ <? _); rewrite !elem_of_cons, ?IH; tauto.
Qed.

Lemma insert_node_length n l : length (insert_node n l) = S (length l).
Proof.
  induction l as [|k l IH]; cbn [insert_node]; [done|].
  destruct (_ <? _); simpl; by rewrite ?IH.
Qed.

(** What the insertion of a new item does to addresses and keys. *)
Lemma inserted_elems item it l l' :
  node <$> l' = insert_node (node (item, it)) (node <$> l) →
  (∀ a, a ∈ l'.*1 ↔ a = item ∨ a ∈ l.*1) ∧ (∀ k, k ∈ keys l' ↔ k = key it ∨ k ∈ keys l) ∧
  length l' = S (length l).
Proof.
  intros Hn.
  assert (Hgen : ∀ {B : Type} (f : Z * (bytes * Z) → B) x,
    x ∈ (f ∘ node) <$> l' ↔ x = f (node (item, it)) ∨ x ∈ (f ∘ node) <$> l).
  { intros B f x. rewrite !list_fmap_compose, Hn, !list_elem_of_fmap. split.
    - intros (y & -> & [->|Hy]%insert_node_elem); eauto.
    - intros [->|(y & -> & Hy)]; eexists; (split; [done|]); apply insert_node_elem; auto. }
  split; [|split].
  - apply (Hgen _ fst).
  - apply (Hgen _ (λ m, be_val m.2.1)).
  - by rewrite <- (length_fmap node l'), Hn, insert_node_length, length_fmap.
Qed.

Lemma insert_all_run fuel h pq l its :
  is_queue h pq l → NoDup its.*1 → (∀ a, a ∈ its.*1 → a ∉ l.*1) →
  Forall (λ n, item_ok h n.1 n.2 [] ∧ next n.2 = 0) its → (length its + length l < fuel)%nat →
  ∃ h' pq' l', insert_all fuel h pq its.*1 = Some (h', pq') ∧ is_queue h' pq' l' ∧
    (length l' < fuel)%nat ∧ ∀ k, k ∈ keys l' ↔ k ∈ keys l ∨ k ∈ keys its.
Proof.
  revert h pq l. induction its as [|[a it] its IH]; intros h pq l Hq Hnd Hdis Hok Hfuel.
  { exists h, pq, l. split; [done|]. split; [done|]. split; [simpl in Hfuel; lia|]. intros k. simpl.
    split; [auto|]. by intros [|?%not_elem_of_nil]. }
  csimpl in *. apply NoDup_cons in Hnd as [Ha Hnd]. apply Forall_cons in Hok as [[(Hit & Ha0 & Hp & _) Hnx] Hok].
  cbn [fst snd] in *.
  destruct (pqueue_insert_run fuel h pq l a it Hq) as (r & h1 & pq1 & -> & Hres).
  { split_and!; try done. apply Hdis, elem_of_cons. by left. } { done. } { lia. }
  cbn [mbind option_bind].
  assert (Hkeys : ∀ k, k ∈ keys ((a, it) :: its) ↔ k = key it ∨ k ∈ keys its).
  { intros k. unfold keys. by rewrite fmap_cons, elem_of_cons. }
  destruct (bool_decide _) eqn:Hdup.
  - destruct Hres as (_ & -> & ->). apply bool_decide_eq_true in Hdup.
    destruct (IH h pq l) as (h' & pq' & l' & Hrun & Hq' & Hf' & Hk'); try done; [|lia|].
    { intros b Hb. apply Hdis, elem_of_cons. by right. }
    exists h', pq', l'. split; [done|]. split; [done|]. split; [done|]. intros k.
    rewrite Hk', Hkeys. split; [tauto|]. intros [|[->|]]; auto.
  - destruct Hres as (_ & Hframe & l1 & Hq1 & Hn1).
    destruct (inserted_elems _ _ _ _ Hn1) as (Hadr & Hk1 & Hlen).
    destruct (IH h1 pq1 l1) as (h' & pq' & l' & Hrun & Hq' & Hf' & Hk'); try done; [| |lia|].
    + intros b Hb. rewrite Hadr. intros [->|Hb2]; [done|]. eapply Hdis; [|done]. apply elem_of_cons. by right.
    + rewrite Forall_forall in Hok |- *. intros [b itb] Hin. destruct (Hok _ Hin) as [(Hb & Hb0 & Hpb & _) Hnb].
      split; [|done]. split_and!; try done; [|apply not_elem_of_nil]. cbn [fst snd] in *.
      assert (Hbin : b ∈ its.*1) by (apply list_elem_of_fmap; by exists (b, itb)).
      rewrite Hframe; [done|]. rewrite elem_of_cons. intros [->|Hb2]; [done|].
      eapply Hdis; [|done]. apply elem_of_cons. by right.
    + exists h', pq', l'. split; [done|]. split; [done|]. split; [done|]. intros k. rewrite Hk', Hkeys, Hk1. tauto.
Qed.

Lemma drain_run fuel h pq l :
  is_queue h pq l → (length l < fuel)%nat → drain fuel h pq = Some l.*1.
Proof.
  revert pq l. induction fuel as [|fuel IH]; intros pq l Hq Hf; [lia|]. cbn [drain].
  pose proof (pqueue_pop_run _ _ _ Hq) as Hpop. destruct l as [|[a it] l].
  - by rewrite Hpop.
  - destruct Hpop as (pq' & -> & Ha & _ & Hq' & _). cbn [mbind option_bind].
    rewrite (proj2 (Z.eqb_neq _ _)) by done. simpl in Hf. by rewrite (IH pq' l) by (done || lia).
Qed.
