(* ===== verification/Stack.v ===== *)
(** * Stacks (growable arrays): crypto/stack/stack.c, OBJ_bsearch_ex_

    Elements and function pointers are addresses ([Z], NULL is 0).  [None] as
    the result of an operation is undefined behaviour of the C code: an access
    outside the allocated array or a signed overflow.  Allocation is an
    argument: [None] when it fails, otherwise the contents of fresh memory. *)
From S2P Require Import Prelude.
From Stdlib Require Import Sorted.

Definition INT_MAX : Z := 2 ^ 31 - 1.
Definition min_nodes : Z := 4.

Record stack_st := {
  num : Z;
  sk_data : option (list Z);
  sorted : bool;
  num_alloc : Z;
  comp : Z;
}.
(** [OPENSSL_STACK *]: [None] is NULL. *)
Abbreviation OPENSSL_STACK := (option stack_st).
Abbreviation alloc := (option (nat → list Z)).

Definition set_data (d : list Z) (n a : Z) (st : stack_st) : stack_st :=
  {| num := n; sk_data := Some d; sorted := sorted st; num_alloc := a; comp := comp st |}.
Definition set_sorted (b : bool) (st : stack_st) : stack_st :=
  {| num := num st; sk_data := sk_data st; sorted := b; num_alloc := num_alloc st; comp := comp st |}.
Definition set_comp (c : Z) (st : stack_st) : stack_st :=
  {| num := num st; sk_data := sk_data st; sorted := sorted st; num_alloc := num_alloc st; comp := c |}.
Definition set_num (n : Z) (st : stack_st) : stack_st :=
  {| num := n; sk_data := sk_data st; sorted := sorted st; num_alloc := num_alloc st; comp := comp st |}.

(** ** OBJ_bsearch_ex_ (crypto/objects/obj_dat.c) *)
Definition OBJ_BSEARCH_VALUE_ON_NOMATCH : Z := 1.
Definition OBJ_BSEARCH_FIRST_VALUE_ON_MATCH : Z := 2.

Section bsearch.
(** [cmp] applied to the key and to the element pointed to. *)
Context (cmp : Z → Z → Z) (key : Z) (base : list Z).

(** [while (l < h)]: the last [i] and [c]. *)
Fixpoint bsearch_loop (fuel : nat) (l h i c : Z) : option (Z * Z) :=
  match fuel with
  | O => None
  | S fuel' =>
      if l <? h then
        if INT_MAX <? l + h then None else
        let i := (l + h) / 2 in
        x ← base !! Z.to_nat i;
        let c := cmp key x in
        if c <? 0 then bsearch_loop fuel' l i i c
        else if 0 <? c then bsearch_loop fuel' (i + 1) h i c
        else Some (i, c)
      else Some (i, c)
  end.

(** [while (i > 0 && cmp(key, &base[i - 1]) == 0) i--;] *)
Fixpoint bsearch_first (i : nat) : nat :=
  match i with
  | O => O
  | S j => if cmp key (base !!! j) =? 0 then bsearch_first j else i
  end.

(** The index of the element returned, [Some None] for NULL. *)
Definition OBJ_bsearch_ex_ (n : Z) (flags : Z) : option (option Z) :=
  if n =? 0 then Some None else
  '(i, c) ← bsearch_loop (S (Z.to_nat n)) 0 n 0 0;
  Some (
    if negb (c =? 0) && (Z.land flags OBJ_BSEARCH_VALUE_ON_NOMATCH =? 0) then None
    else if (c =? 0) && negb (Z.land flags OBJ_BSEARCH_FIRST_VALUE_ON_MATCH =? 0)
    then Some (Z.of_nat (bsearch_first (Z.to_nat i)))
    else Some i).
End bsearch.

(** ** qsort of the C library *)
Class Qsort := qsort : (Z → Z → Z) → list Z → list Z.
(** What a comparison function must satisfy for [qsort] and [bsearch]. *)
Record cmp_ok (c : Z → Z → Z) : Prop := {
  cmp_refl x : c x x = 0;
  cmp_anti x y : c x y < 0 ↔ 0 < c y x;
  cmp_trans x y z : c x y <= 0 → c y z <= 0 → c x z <= 0;
}.
Abbreviation le_of c := (λ x y : Z, c x y <= 0).
Class QsortOk {Q : Qsort} := {
  qsort_perm c l : qsort c l ≡ₚ l;
  qsort_sorted c l : cmp_ok c → StronglySorted (le_of c) (qsort c l);
}.

Section stack.
(** The width of [size_t] and of pointers, the functions that function
    pointers stand for, and the library's [qsort]. *)
Context (W : Z) (fn : Z → Z → Z → Z) `{!Qsort}.

Definition SIZE_MAX : Z := 2 ^ W - 1.
Definition max_nodes : Z :=
  if SIZE_MAX / (W / 8) <? INT_MAX then SIZE_MAX / (W / 8) else INT_MAX.

Definition OPENSSL_sk_set_cmp_func (sk : stack_st) (c : Z) : Z * stack_st :=
  let old := comp sk in
  let sk := if negb (comp sk =? c) then set_sorted false sk else sk in
  (old, set_comp c sk).

(** [while (current < target)]; [fuel] bounds the number of turns. *)
Fixpoint growth_loop (fuel : nat) (target current : Z) : option Z :=
  let limit := max_nodes / 3 * 2 + (if max_nodes mod 3 =? 0 then 0 else 1) in
  match fuel with
  | O => None
  | S fuel' =>
      if current <? target then
        if max_nodes <=? current then Some 0
        else growth_loop fuel' target (if current <? limit then current + current / 2 else max_nodes)
      else Some current
  end.
Definition compute_growth (target current : Z) : option Z := growth_loop 64 target current.

(** [realloc] to [k] pointers. *)
Definition realloc (m : nat → list Z) (d : list Z) (k : nat) : list Z :=
  take k d ++ m (k - length d)%nat.

Definition sk_reserve (mem : alloc) (st : stack_st) (n : Z) (exact : bool) : option (Z * stack_st) :=
  if max_nodes - num st <? n then Some (0, st) else
  let na := num st + n in
  let na := if na <? min_nodes then min_nodes else na in
  match sk_data st with
  | None =>
      match mem with
      | None => Some (0, st)
      | Some _ => Some (1, set_data (replicate (Z.to_nat na) 0) (num st) na st)
      end
  | Some d =>
      let grow na :=
        match mem with
        | None => Some (0, st)
        | Some m => Some (1, set_data (realloc m d (Z.to_nat na)) (num st) na st)
        end in
      if negb exact then
        if na <=? num_alloc st then Some (1, st) else
        na ← compute_growth na (num_alloc st);
        if na =? 0 then Some (0, st) else grow na
      else if na =? num_alloc st then Some (1, st)
      else grow na
  end.

(** [mem_st]: whether the structure itself can be allocated. *)
Definition OPENSSL_sk_new_reserve (mem_st : bool) (mem : alloc) (c n : Z) : option OPENSSL_STACK :=
  if negb mem_st then Some None else
  let st := {| num := 0; sk_data := None; sorted := false; num_alloc := 0; comp := c |} in
  if n <=? 0 then Some (Some st) else
  '(r, st) ← sk_reserve mem st n true;
  Some (if r =? 0 then None else Some st).
Definition OPENSSL_sk_new (mem_st : bool) (c : Z) : option OPENSSL_STACK :=
  OPENSSL_sk_new_reserve mem_st None c 0.
Definition OPENSSL_sk_new_null (mem_st : bool) : option OPENSSL_STACK :=
  OPENSSL_sk_new_reserve mem_st None 0 0.

Definition OPENSSL_sk_reserve (mem : alloc) (st : OPENSSL_STACK) (n : Z)
    : option (Z * OPENSSL_STACK) :=
  match st with
  | None => Some (0, None)
  | Some s =>
      if n <? 0 then Some (1, st)
      else '(r, s) ← sk_reserve mem s n true; Some (r, Some s)
  end.

(** The array once [data] is at position [loc]; the last slot written is
    [num]. *)
Definition sk_place (s : stack_st) (d : list Z) (data loc : Z) : option (list Z) :=
  let n := Z.to_nat (num s) in
  if (length d <=? n)%nat then None else
  Some (
    if (num s <=? loc) || (loc <? 0) then <[n := data]> d
    else
      let l := Z.to_nat loc in
      <[l := data]> (memcpy d (l + 1) (take (n - l) (drop l d)))).

Definition OPENSSL_sk_insert (mem : alloc) (st : OPENSSL_STACK) (data loc : Z)
    : option (Z * OPENSSL_STACK) :=
  match st with
  | None => Some (0, None)
  | Some s =>
      if num s =? max_nodes then Some (0, st) else
      '(r, s) ← sk_reserve mem s 1 false;
      if r =? 0 then Some (0, Some s) else
      d ← sk_data s;
      d ← sk_place s d data loc;
      let s := set_sorted false (set_data d (num s + 1) (num_alloc s) s) in
      Some (num s, Some s)
  end.

Definition internal_delete (s : stack_st) (loc : Z) : option (Z * stack_st) :=
  d ← sk_data s;
  ret ← d !! Z.to_nat loc;
  let n := Z.to_nat (num s) in
  let l := Z.to_nat loc in
  let d := if negb (loc =? num s - 1) then memcpy d l (take (n - l - 1) (drop (l + 1) d)) else d in
  Some (ret, set_data d (num s - 1) (num_alloc s) s).

(** The first index [i < num] of [p], if any. *)
Fixpoint index_of (p : Z) (d : list Z) (n : nat) : option nat :=
  match n, d with
  | S n', x :: d' => if x =? p then Some O else S <$> index_of p d' n'
  | _, _ => None
  end.
Definition elements (s : stack_st) : list Z := take (Z.to_nat (num s)) (default [] (sk_data s)).

Definition OPENSSL_sk_delete_ptr (s : stack_st) (p : Z) : option (Z * stack_st) :=
  match index_of p (default [] (sk_data s)) (Z.to_nat (num s)) with
  | Some i => internal_delete s (Z.of_nat i)
  | None => Some (0, s)
  end.

Definition OPENSSL_sk_delete (st : OPENSSL_STACK) (loc : Z) : option (Z * OPENSSL_STACK) :=
  match st with
  | None => Some (0, None)
  | Some s =>
      if (loc <? 0) || (num s <=? loc) then Some (0, st)
      else '(r, s) ← internal_delete s loc; Some (r, Some s)
  end.

(** [qsort(st->data, st->num, ...)] *)
Definition sort_data (s : stack_st) : stack_st :=
  if 1 <? num s then
    match sk_data s with
    | None => s
    | Some d =>
        let n := Z.to_nat (num s) in
        set_data (qsort (fn (comp s)) (take n d) ++ drop n d) (num s) (num_alloc s) s
    end
  else s.

Definition internal_find (st : OPENSSL_STACK) (data ret_val_options : Z)
    : option (Z * OPENSSL_STACK) :=
  match st with
  | None => Some (-1, None)
  | Some s =>
      if num s =? 0 then Some (-1, st) else
      if comp s =? 0 then
        Some (match index_of data (default [] (sk_data s)) (Z.to_nat (num s)) with
              | Some i => Z.of_nat i | None => -1 end, st)
      else
        let s := if negb (sorted s) then set_sorted true (sort_data s) else s in
        if data =? 0 then Some (-1, Some s) else
        r ← OBJ_bsearch_ex_ (fn (comp s)) data (default [] (sk_data s)) (num s) ret_val_options;
        Some (default (-1) r, Some s)
  end.
Definition OPENSSL_sk_find (st : OPENSSL_STACK) (data : Z) : option (Z * OPENSSL_STACK) :=
  internal_find st data OBJ_BSEARCH_FIRST_VALUE_ON_MATCH.
Definition OPENSSL_sk_find_ex (st : OPENSSL_STACK) (data : Z) : option (Z * OPENSSL_STACK) :=
  internal_find st data OBJ_BSEARCH_VALUE_ON_NOMATCH.

Definition OPENSSL_sk_push (mem : alloc) (st : OPENSSL_STACK) (data : Z)
    : option (Z * OPENSSL_STACK) :=
  match st with
  | None => Some (-1, None)
  | Some s => OPENSSL_sk_insert mem st data (num s)
  end.
Definition OPENSSL_sk_unshift (mem : alloc) (st : OPENSSL_STACK) (data : Z)
    : option (Z * OPENSSL_STACK) := OPENSSL_sk_insert mem st data 0.

Definition OPENSSL_sk_shift (st : OPENSSL_STACK) : option (Z * OPENSSL_STACK) :=
  match st with
  | None => Some (0, None)
  | Some s => if num s =? 0 then Some (0, st) else '(r, s) ← internal_delete s 0; Some (r, Some s)
  end.
Definition OPENSSL_sk_pop (st : OPENSSL_STACK) : option (Z * OPENSSL_STACK) :=
  match st with
  | None => Some (0, None)
  | Some s =>
      if num s =? 0 then Some (0, st)
      else '(r, s) ← internal_delete s (num s - 1); Some (r, Some s)
  end.

Definition OPENSSL_sk_zero (st : OPENSSL_STACK) : option OPENSSL_STACK :=
  match st with
  | None => Some None
  | Some s =>
      if num s =? 0 then Some st else
      d ← sk_data s;
      Some (Some (set_data (memcpy d 0 (replicate (Z.to_nat (num s)) 0)) 0 (num_alloc s) s))
  end.

(** The calls of [func], in order; the stack is freed. *)
Definition OPENSSL_sk_pop_free (st : OPENSSL_STACK) : list Z :=
  match st with
  | None => []
  | Some s => filter (λ x, x ≠ 0) (elements s)
  end.

Definition OPENSSL_sk_num (st : OPENSSL_STACK) : Z :=
  match st with None => -1 | Some s => num s end.
Definition OPENSSL_sk_value (st : OPENSSL_STACK) (i : Z) : option Z :=
  match st with
  | None => Some 0
  | Some s =>
      if (i <? 0) || (num s <=? i) then Some 0
      else d ← sk_data s; d !! Z.to_nat i
  end.
Definition OPENSSL_sk_set (st : OPENSSL_STACK) (i data : Z) : option (Z * OPENSSL_STACK) :=
  match st with
  | None => Some (0, None)
  | Some s =>
      if (i <? 0) || (num s <=? i) then Some (0, st) else
      d ← sk_data s;
      _ ← d !! Z.to_nat i;
      Some (data, Some (set_sorted false (set_data (<[Z.to_nat i := data]> d) (num s) (num_alloc s) s)))
  end.

Definition OPENSSL_sk_sort (st : OPENSSL_STACK) : OPENSSL_STACK :=
  match st with
  | None => None
  | Some s =>
      if negb (sorted s) && negb (comp s =? 0) then Some (set_sorted true (sort_data s)) else st
  end.
Definition OPENSSL_sk_is_sorted (st : OPENSSL_STACK) : bool :=
  match st with None => true | Some s => sorted s end.

(** The copy, [Some None] when an allocation fails. *)
Definition OPENSSL_sk_dup (mem_st : bool) (mem : alloc) (sk : stack_st) : option OPENSSL_STACK :=
  if negb mem_st then Some None else
  if num sk =? 0 then
    Some (Some {| num := 0; sk_data := None; sorted := sorted sk; num_alloc := 0; comp := comp sk |})
  else
    match mem with
    | None => Some None
    | Some m =>
        d ← sk_data sk;
        let n := Z.to_nat (num sk) in
        if (Z.to_nat (num_alloc sk) <? n)%nat then None else
        Some (Some (set_data (memcpy (m (Z.to_nat (num_alloc sk))) 0 (take n d)) (num sk) (num_alloc sk) sk))
    end.

(** The loop of [OPENSSL_sk_deep_copy] over the elements: the copies, or the
    copies that are freed when [copy_func] fails. *)
Fixpoint copy_elements (copy_func : Z → Z) (l : list Z) (done : list Z) : list Z + list Z :=
  match l with
  | [] => inl (reverse done)
  | x :: l' =>
      if x =? 0 then copy_elements copy_func l' (0 :: done)
      else if copy_func x =? 0 then inr (filter (λ y, y ≠ 0) done)
      else copy_elements copy_func l' (copy_func x :: done)
  end.
(** The copy and the calls of [free_func]. *)
Definition OPENSSL_sk_deep_copy (mem_st : bool) (mem : alloc) (copy_func : Z → Z) (sk : stack_st)
    : OPENSSL_STACK * list Z :=
  if negb mem_st then (None, []) else
  if num sk =? 0 then
    (Some {| num := 0; sk_data := None; sorted := sorted sk; num_alloc := 0; comp := comp sk |}, [])
  else
    let na := if min_nodes <? num sk then num sk else min_nodes in
    match mem with
    | None => (None, [])
    | Some _ =>
        match copy_elements copy_func (elements sk) [] with
        | inl l => (Some (set_data (l ++ replicate (Z.to_nat (na - num sk)) 0) (num sk) na sk), [])
        | inr freed => (None, freed)
        end
    end.
End stack.

(** ** Well-formed stacks *)

(** ** The specification: operations on lists *)
Inductive sk_op :=
  | Push (x : Z) | Unshift (x : Z) | Insert (x loc : Z) | Pop | Shift | Delete (loc : Z)
  | DeletePtr (p : Z) | Set_ (i x : Z) | Value (i : Z) | Zero | Num | SetCmp (c : Z).

Definition insert_at (loc : Z) (x : Z) (l : list Z) : list Z :=
  let k := if (Z.of_nat (length l) <=? loc) || (loc <? 0) then length l else Z.to_nat loc in
  take k l ++ x :: drop k l.
Definition delete_at (loc : Z) (l : list Z) : Z * list Z :=
  if (loc <? 0) || (Z.of_nat (length l) <=? loc) then (0, l)
  else (l !!! Z.to_nat loc, delete (Z.to_nat loc) l).

(** The value returned and the list. *)
Definition list_step (op : sk_op) (l : list Z) : Z * list Z :=
  match op with
  | Push x => (Z.of_nat (length l) + 1, l ++ [x])
  | Unshift x => (Z.of_nat (length l) + 1, x :: l)
  | Insert x loc => (Z.of_nat (length l) + 1, insert_at loc x l)
  | Pop => delete_at (Z.of_nat (length l) - 1) l
  | Shift => delete_at 0 l
  | Delete loc => delete_at loc l
  | DeletePtr p =>
      match index_of p l (length l) with Some i => delete_at (Z.of_nat i) l | None => (0, l) end
  | Set_ i x =>
      if (i <? 0) || (Z.of_nat (length l) <=? i) then (0, l) else (x, <[Z.to_nat i := x]> l)
  | Value i =>
      (if (i <? 0) || (Z.of_nat (length l) <=? i) then 0 else l !!! Z.to_nat i, l)
  | Zero => (0, [])
  | Num => (Z.of_nat (length l), l)
  | SetCmp _ => (0, l)
  end.

(** The operations of the C code on a stack (0 for a [void] result, or for the
    previous comparison function). *)
Definition sk_step (W : Z) (m : nat → list Z) (op : sk_op) (s : stack_st)
    : option (Z * OPENSSL_STACK) :=
  match op with
  | Push x => OPENSSL_sk_push W (Some m) (Some s) x
  | Unshift x => OPENSSL_sk_unshift W (Some m) (Some s) x
  | Insert x loc => OPENSSL_sk_insert W (Some m) (Some s) x loc
  | Pop => OPENSSL_sk_pop (Some s)
  | Shift => OPENSSL_sk_shift (Some s)
  | Delete loc => OPENSSL_sk_delete (Some s) loc
  | DeletePtr p => '(r, s) ← OPENSSL_sk_delete_ptr s p; Some (r, Some s)
  | Set_ i x => OPENSSL_sk_set (Some s) i x
  | Value i => r ← OPENSSL_sk_value (Some s) i; Some (r, Some s)
  | Zero => st ← OPENSSL_sk_zero (Some s); Some (0, st)
  | Num => Some (OPENSSL_sk_num (Some s), Some s)
  | SetCmp c => Some (0, Some (OPENSSL_sk_set_cmp_func s c).2)
  end.
Fixpoint sk_run (W : Z) (m : nat → list Z) (ops : list sk_op) (s : stack_st)
    : option (list Z * stack_st) :=
  match ops with
  | [] => Some ([], s)
  | op :: ops' =>
      '(r, st) ← sk_step W m op s;
      s ← st;
      '(rs, s) ← sk_run W m ops' s;
      Some (r :: rs, s)
  end.
Fixpoint list_run (ops : list sk_op) (l : list Z) : list Z * list Z :=
  match ops with
  | [] => ([], l)
  | op :: ops' =>
      let '(r, l) := list_step op l in
      let '(rs, l) := list_run ops' l in
      (r :: rs, l)
  end.
Section facts.
Context (W : Z) (fn : Z → Z → Z → Z) {Qs : Qsort} {Qok : QsortOk}.
Context (HW : W = 32 ∨ W = 64).

Lemma max_nodes_bounds : 2 ^ 30 - 1 <= max_nodes W <= INT_MAX.
Proof using HW. by destruct HW as [->| ->]. Qed.

Record wf (s : stack_st) : Prop := {
  wf_num : 0 <= num s <= num_alloc s;
  wf_alloc : num_alloc s <= max_nodes W;
  wf_data : match sk_data s with
            | None => num_alloc s = 0
            | Some d => Z.of_nat (length d) = num_alloc s ∧ min_nodes <= num_alloc s
            end;
  wf_sorted : sorted s = true → comp s ≠ 0 → cmp_ok (fn (comp s)) →
    StronglySorted (le_of (fn (comp s))) (elements s);
}.

(** Fresh memory has the size asked for. *)
Definition alloc_ok (mem : alloc) : Prop :=
  match mem with None => True | Some m => ∀ k, length (m k) = k end.

Lemma length_elements s : wf s → Z.of_nat (length (elements s)) = num s.
Proof.
  intros [Hn _ Hd _]. unfold elements. destruct (sk_data s) as [d|]; simpl; len.
Qed.

(** *** Growth *)
Lemma growth_max fuel target :
  target <= max_nodes W → growth_loop W (S fuel) target (max_nodes W) = Some (max_nodes W).
Proof. intros. cbn [growth_loop]. by destruct (Z.ltb_spec (max_nodes W) target); [lia|]. Qed.

Lemma growth_loop_run fuel target current :
  2 <= current <= max_nodes W → target <= max_nodes W →
  2 ^ 31 * 2 ^ Z.of_nat fuel < (current - 1) * 3 ^ Z.of_nat fuel →
  ∃ c, growth_loop W (S fuel) target current = Some c ∧ target <= c <= max_nodes W ∧ current <= c.
Proof using HW.
  pose proof max_nodes_bounds as Hmax. unfold INT_MAX in Hmax. revert current.
  induction fuel as [|fuel IH]; intros current Hc Ht Hf.
  { change (2 ^ Z.of_nat 0) with 1 in Hf. change (3 ^ Z.of_nat 0) with 1 in Hf. lia. }
  set (f := S fuel) in *. cbn [growth_loop].
  destruct (Z.ltb_spec current target) as [Hlt|Hge]; [|exists current; split; [done|lia]].
  destruct (Z.leb_spec (max_nodes W) current) as [|Hm]; [lia|].
  pose proof (Z.div_mod current 2 ltac:(lia)) as Hd2. pose proof (Z.mod_pos_bound current 2 ltac:(lia)).
  pose proof (Z.div_mod (max_nodes W) 3 ltac:(lia)) as Hd3.
  pose proof (Z.mod_pos_bound (max_nodes W) 3 ltac:(lia)).
  destruct (Z.ltb_spec current (max_nodes W / 3 * 2 + (if max_nodes W mod 3 =? 0 then 0 else 1))) as [Hl|Hl].
  - assert (current + current / 2 <= max_nodes W).
    { destruct (Z.eqb_spec (max_nodes W mod 3) 0); lia. }
    destruct (IH (current + current / 2)) as (c & -> & ?); [lia|done| |exists c; split; [done|lia]].
    unfold f in Hf. rewrite Nat2Z.inj_succ, !Z.pow_succ_r in Hf by lia. nia.
  - unfold f. rewrite growth_max by done. exists (max_nodes W). split; [done|lia].
Qed.

Lemma compute_growth_run target current :
  2 <= current <= max_nodes W → target <= max_nodes W →
  ∃ c, compute_growth W target current = Some c ∧ target <= c <= max_nodes W ∧ current <= c.
Proof using HW.
  intros Hc Ht. apply (growth_loop_run 63); [done|done|].
  apply Z.lt_le_trans with (1 * 3 ^ 63); [done|]. apply Z.mul_le_mono_nonneg_r; lia.
Qed.

(** *** Reservation *)
Lemma length_realloc m d k : (∀ k, length (m k) = k) → length (realloc m d k) = k.
Proof. intros Hm. unfold realloc. rewrite length_app, length_take, Hm. lia. Qed.

Lemma take_realloc m d k n :
  (n <= k)%nat → (n <= length d)%nat → take n (realloc m d k) = take n d.
Proof.
  intros. unfold realloc. rewrite take_app_le by len. rewrite take_take. f_equal. lia.
Qed.

Lemma wf_with s d a :
  wf s → Z.of_nat (length d) = a → min_nodes <= a → a <= max_nodes W → num s <= a →
  take (Z.to_nat (num s)) d = elements s → wf (set_data d (num s) a s).
Proof.
  intros [Hn Ha Hd Hs] Hl Hmin Hmax Hle He. split; simpl; try done; [lia|].
  intros H1 H2 H3. unfold elements. simpl. rewrite He. auto.
Qed.

Lemma elements_with s d a :
  take (Z.to_nat (num s)) d = elements s → elements (set_data d (num s) a s) = elements s.
Proof. done. Qed.

Lemma sk_reserve_run mem s n exact :
  wf s → alloc_ok mem → 0 <= n →
  ∃ r s', sk_reserve W mem s n exact = Some (r, s') ∧ wf s' ∧ elements s' = elements s ∧
    num s' = num s ∧ comp s' = comp s ∧ sorted s' = sorted s ∧
    (r = 0 ∧ s' = s ∨
     r = 1 ∧ ∃ d, sk_data s' = Some d ∧ num s + n <= Z.of_nat (length d)) ∧
    (is_Some mem → num s + n <= max_nodes W → r = 1).
Proof using HW.
  intros Hwf Hmem Hn. pose proof max_nodes_bounds as Hmax. unfold INT_MAX in Hmax.
  pose proof (wf_num _ Hwf) as Hnum. pose proof (wf_alloc _ Hwf) as Hal.
  unfold sk_reserve. destruct (Z.ltb_spec (max_nodes W - num s) n).
  { exists 0, s. split; [done|]. split; [done|]. split_and!; auto; lia. }
  set (na := if num s + n <? min_nodes then min_nodes else num s + n).
  assert (Hna : min_nodes <= na <= max_nodes W ∧ num s + n <= na).
  { unfold na, min_nodes. destruct (Z.ltb_spec (num s + n) 4); lia. }
  pose proof (wf_data _ Hwf) as Hd. destruct (sk_data s) as [d|] eqn:Hdata.
  - destruct Hd as [Hdl Hmin].
    assert (Hgrow : ∀ a, na <= a <= max_nodes W → ∃ r s',
      match mem with
      | None => Some (0, s)
      | Some m => Some (1, set_data (realloc m d (Z.to_nat a)) (num s) a s)
      end = Some (r, s') ∧ wf s' ∧ elements s' = elements s ∧
      num s' = num s ∧ comp s' = comp s ∧ sorted s' = sorted s ∧
      (r = 0 ∧ s' = s ∨ r = 1 ∧ ∃ d, sk_data s' = Some d ∧ num s + n <= Z.of_nat (length d)) ∧
      (is_Some mem → num s + n <= max_nodes W → r = 1)).
    { intros a Ha. destruct mem as [m|].
      - assert (He : take (Z.to_nat (num s)) (realloc m d (Z.to_nat a)) = elements s).
        { rewrite take_realloc by lia. unfold elements. by rewrite Hdata. }
        do 2 eexists. split; [done|]. split.
        { apply wf_with; rewrite ?length_realloc by done; done || lia. }
        split; [done|]. split; [done|]. split; [done|]. split; [done|]. split; [|done]. right. split; [done|].
        eexists. split; [done|]. rewrite length_realloc by done. lia.
      - exists 0, s. split; [done|]. split; [done|]. split_and!; auto. by intros []. }
    assert (Hstay : na <= num_alloc s → ∃ r s', Some (1, s) = Some (r, s') ∧ wf s' ∧ elements s' = elements s ∧
      num s' = num s ∧ comp s' = comp s ∧ sorted s' = sorted s ∧
      (r = 0 ∧ s' = s ∨ r = 1 ∧ ∃ d, sk_data s' = Some d ∧ num s + n <= Z.of_nat (length d)) ∧
      (is_Some mem → num s + n <= max_nodes W → r = 1)).
    { intros Hle. exists 1, s. split_and!; auto. right. split; [done|]. exists d. split; [done|lia]. }
    destruct exact; cbn [negb].
    + destruct (Z.eqb_spec na (num_alloc s)) as [->|]; [apply Hstay; lia|apply Hgrow; lia].
    + destruct (Z.leb_spec na (num_alloc s)); [apply Hstay; lia|].
      destruct (compute_growth_run na (num_alloc s)) as (c & -> & Hc1 & Hc2); [unfold min_nodes in *; lia|lia|].
      cbn [mbind option_bind]. rewrite (proj2 (Z.eqb_neq c 0)) by (unfold min_nodes in *; lia).
      apply Hgrow. lia.
  - assert (num s = 0) as Hn0 by lia. destruct mem as [m|].
    + do 2 eexists. split; [done|]. split.
      { apply wf_with; rewrite ?length_replicate; try (done || lia).
        unfold elements. by rewrite Hdata, Hn0. }
      split; [unfold elements; by rewrite Hdata, !Hn0|]. split; [done|]. split; [done|]. split; [done|].
      split; [|done]. right. split; [done|]. eexists. split; [done|]. rewrite length_replicate. lia.
    + exists 0, s. split; [done|]. split; [done|]. split_and!; auto. by intros [].
Qed.

(** *** Insertion *)
Lemma place_elements d n l (x : Z) :
  (n < length d)%nat → (l < n)%nat →
  let d' := <[l := x]> (memcpy d (l + 1) (take (n - l) (drop l d))) in
  length d' = length d ∧ take (n + 1) d' = take l (take n d) ++ x :: drop l (take n d).
Proof.
  intros Hn Hl d'. assert (Hsrc : length (take (n - l) (drop l d)) = (n - l)%nat) by len.
  assert (Hlen : length (memcpy d (l + 1) (take (n - l) (drop l d))) = length d)
    by (apply length_memcpy; lia).
  split; [unfold d'; by rewrite length_insert|]. unfold d'.
  rewrite insert_take_drop by lia.
  assert (Ht : take l (memcpy d (l + 1) (take (n - l) (drop l d))) = take l d).
  { unfold memcpy. rewrite take_app_le by len. rewrite take_take. f_equal. lia. }
  assert (Hd : drop (S l) (memcpy d (l + 1) (take (n - l) (drop l d))) =
    take (n - l) (drop l d) ++ drop (n + 1) d).
  { unfold memcpy. rewrite drop_app_length' by len. rewrite Hsrc. do 2 f_equal. lia. }
  rewrite Ht, Hd. rewrite take_take, Nat.min_l by lia.
  rewrite take_app_ge by len. f_equal. rewrite length_take, Nat.min_l by lia.
  replace (n + 1 - l)%nat with (S (n - l)) by lia. cbn [take]. f_equal.
  rewrite take_app_length' by done. by rewrite skipn_firstn_comm.
Qed.

Lemma sk_place_run s d x loc :
  wf s → sk_data s = Some d → num s + 1 <= Z.of_nat (length d) →
  ∃ d', sk_place s d x loc = Some d' ∧ length d' = length d ∧
    take (Z.to_nat (num s + 1)) d' = insert_at loc x (elements s).
Proof using Type.
  intros Hwf Hd Hlt. pose proof (wf_num _ Hwf) as Hn. pose proof (length_elements _ Hwf) as He.
  unfold sk_place. set (n := Z.to_nat (num s)).
  rewrite (proj2 (Nat.leb_gt _ _)) by lia. eexists. split; [done|].
  replace (Z.to_nat (num s + 1)) with (n + 1)%nat by lia.
  assert (Hel : elements s = take n d) by (unfold elements; by rewrite Hd).
  unfold insert_at. rewrite He. destruct ((num s <=? loc) || (loc <? 0)) eqn:Hloc.
  - split; [by rewrite length_insert|]. rewrite drop_ge, (take_ge (elements s)) by lia.
    rewrite Hel, Nat.add_1_r, (take_S_r _ _ x) by (apply list_lookup_insert_eq; lia).
    by rewrite take_insert_ge by lia.
  - rewrite Hel. apply place_elements; lia.
Qed.

Lemma OPENSSL_sk_insert_run mem s x loc :
  wf s → alloc_ok mem →
  ∃ r s', OPENSSL_sk_insert W mem (Some s) x loc = Some (r, Some s') ∧ wf s' ∧ comp s' = comp s ∧
    (r = 0 ∧ s' = s ∨ r = num s + 1 ∧ elements s' = insert_at loc x (elements s) ∧ num s' = r) ∧
    (is_Some mem → num s < max_nodes W → r ≠ 0).
Proof using HW.
  intros Hwf Hmem. unfold OPENSSL_sk_insert. pose proof (wf_num _ Hwf) as Hn.
  destruct (Z.eqb_spec (num s) (max_nodes W)) as [Hm|Hm].
  { exists 0, s. split; [done|]. split; [done|]. split_and!; auto. lia. }
  destruct (sk_reserve_run mem s 1 false Hwf Hmem ltac:(lia))
    as (r & s1 & -> & Hwf1 & He1 & Hn1 & Hc1 & Hs1 & Hr & Hok).
  cbn [mbind option_bind]. destruct Hr as [[-> ->]|[-> (d & Hd & Hlt)]].
  - change (0 =? 0) with true. cbv iota. exists 0, s. split; [done|]. split; [done|].
    split_and!; auto. intros Hi Hlt. specialize (Hok Hi). lia.
  - change (1 =? 0) with false. cbv iota. rewrite Hd. cbn [mbind option_bind].
    destruct (sk_place_run s1 d x loc Hwf1 Hd) as (d' & -> & Hl' & He'); [lia|]. cbn [mbind option_bind].
    do 2 eexists. split; [done|].
    pose proof (wf_alloc _ Hwf1) as Ha1. pose proof (wf_data _ Hwf1) as Hd1. rewrite Hd in Hd1.
    split; [split; simpl; try done; lia|]. split; [done|]. split; [|intros; simpl; lia].
    right. split; [simpl; lia|]. split; [|done]. unfold elements at 1. simpl. by rewrite He', He1.
Qed.

(** *** Deletion *)
Lemma StronglySorted_delete (R : Z → Z → Prop) i l :
  StronglySorted R l → StronglySorted R (delete i l).
Proof.
  revert i. induction l as [|x l IH]; intros [|i] Hs; simpl; try done.
  - by apply StronglySorted_inv in Hs as [? _].
  - apply StronglySorted_inv in Hs as [Hs Hx]. constructor; [by apply IH|].
    by apply Forall_delete.
Qed.

Lemma delete_elements (d : list Z) n l :
  (n <= length d)%nat → (l < n)%nat →
  let d' := memcpy d l (take (n - l - 1) (drop (l + 1) d)) in
  length d' = length d ∧ take (n - 1) d' = delete l (take n d).
Proof.
  intros Hn Hl d'. assert (Hsrc : length (take (n - l - 1) (drop (l + 1) d)) = (n - l - 1)%nat) by len.
  split; [apply length_memcpy; lia|]. unfold d', memcpy. rewrite Hsrc, app_assoc.
  rewrite take_app_length' by len. rewrite delete_take_drop, take_take, Nat.min_l by lia.
  f_equal. rewrite Nat.add_1_r, skipn_firstn_comm. f_equal. lia.
Qed.

Lemma internal_delete_run s loc :
  wf s → 0 <= loc < num s →
  ∃ x s', internal_delete s loc = Some (x, s') ∧ elements s !! Z.to_nat loc = Some x ∧
    elements s' = delete (Z.to_nat loc) (elements s) ∧ num s' = num s - 1 ∧
    comp s' = comp s ∧ wf s'.
Proof using Type.
  intros Hwf Hloc. pose proof (wf_num _ Hwf) as Hn. pose proof (wf_data _ Hwf) as Hd.
  unfold internal_delete. destruct (sk_data s) as [d|] eqn:Hdata; [|lia]. destruct Hd as [Hdl Hmin].
  cbn [mbind option_bind]. set (n := Z.to_nat (num s)). set (l := Z.to_nat loc).
  assert (Hel : elements s = take n d) by (unfold elements; by rewrite Hdata).
  destruct (lookup_lt_is_Some_2 d l) as [x Hx]; [lia|]. rewrite Hx. cbn [mbind option_bind].
  set (d' := if negb (loc =? num s - 1) then _ else d).
  assert (Hd' : length d' = length d ∧ take (n - 1) d' = delete l (take n d)).
  { unfold d'. destruct (Z.eqb_spec loc (num s - 1)) as [E|E]; cbn [negb]; [|apply delete_elements; lia].
    split; [done|]. rewrite delete_take_drop, take_take, drop_ge, app_nil_r by len. f_equal. lia. }
  destruct Hd' as [Hl' He']. do 2 eexists. split; [done|].
  assert (Hel' : elements (set_data d' (num s - 1) (num_alloc s) s) = delete l (elements s)).
  { unfold elements at 1. simpl. replace (Z.to_nat (num s - 1)) with (n - 1)%nat by lia. by rewrite He', Hel. }
  split; [rewrite Hel; by rewrite lookup_take_lt by lia|]. split; [done|]. split; [done|]. split; [done|].
  split; simpl; [lia|apply (wf_alloc _ Hwf)|by rewrite Hl'|].
  intros H1 H2 H3. rewrite Hel'. apply StronglySorted_delete. by apply (wf_sorted _ Hwf).
Qed.

(** *** Searching *)
Section search.
Context (c : Z → Z → Z) (Hc : cmp_ok c) (key : Z) (base : list Z).
Context (Hsorted : StronglySorted (le_of c) base).

Lemma sorted_lookup i j x y :
  (i < j)%nat → base !! i = Some x → base !! j = Some y → c x y <= 0.
Proof using Hsorted.
  clear Hc. revert i j. induction Hsorted as [|z l Hs IH Hz]; intros [|i] [|j] Hij Hx Hy; try done; try lia.
  - simpl in *. simplify_eq. rewrite Forall_forall in Hz. apply Hz. by eapply list_elem_of_lookup_2.
  - simpl in *. apply (IH Hs i j); auto. lia.
Qed.

Lemma key_before i j x y :
  (i <= j)%nat → base !! i = Some x → base !! j = Some y → 0 < c key y → 0 < c key x.
Proof using Hc Hsorted.
  intros Hij Hx Hy Hlt. destruct (decide (i = j)) as [->|]; [by simplify_eq|].
  pose proof (sorted_lookup i j x y ltac:(lia) Hx Hy) as Hxy.
  apply (cmp_anti c Hc). apply (cmp_anti c Hc) in Hlt.
  destruct (Z.lt_trichotomy (c x key) 0) as [|[H0|H0]]; [done| |].
  - assert (H1 : c key x = 0).
    { pose proof (proj1 (cmp_anti c Hc key x)). pose proof (proj2 (cmp_anti c Hc x key)). lia. }
    pose proof (cmp_trans c Hc key x y). pose proof (proj1 (cmp_anti c Hc y key)). lia.
  - assert (H1 : c key x < 0) by (by apply (cmp_anti c Hc)).
    pose proof (cmp_trans c Hc key x y). pose proof (proj1 (cmp_anti c Hc y key)). lia.
Qed.

Lemma key_after i j x y :
  (i <= j)%nat → base !! i = Some x → base !! j = Some y → c key x < 0 → c key y < 0.
Proof using Hc Hsorted.
  intros Hij Hx Hy Hlt. destruct (decide (i = j)) as [->|]; [by simplify_eq|].
  pose proof (sorted_lookup i j x y ltac:(lia) Hx Hy) as Hxy.
  destruct (Z.lt_trichotomy (c key y) 0) as [|[H0|H0]]; [done| |].
  - assert (H1 : c y key = 0).
    { pose proof (proj1 (cmp_anti c Hc y key)). pose proof (proj2 (cmp_anti c Hc key y)). lia. }
    pose proof (cmp_trans c Hc x y key). pose proof (proj1 (cmp_anti c Hc key x)). lia.
  - pose proof (key_before i j x y Hij Hx Hy H0). lia.
Qed.

Lemma bsearch_loop_run fuel l h i0 c0 :
  0 <= l <= h → h <= Z.of_nat (length base) → Z.of_nat (length base) <= 2 ^ 30 →
  h - l < Z.of_nat fuel → l < h ∨ c0 ≠ 0 →
  (∀ j x, base !! j = Some x → Z.of_nat j < l → 0 < c key x) →
  (∀ j x, base !! j = Some x → h <= Z.of_nat j → c key x < 0) →
  ∃ i c', bsearch_loop c key base fuel l h i0 c0 = Some (i, c') ∧
    (c' = 0 ∧ 0 <= i ∧ (∃ x, base !! Z.to_nat i = Some x ∧ c key x = 0) ∨
     c' ≠ 0 ∧ ∀ x, x ∈ base → c key x ≠ 0).
Proof using Hc Hsorted.
  revert l h i0 c0. induction fuel as [|fuel IH]; intros l h i0 c0 Hlh Hh Hlen Hfuel Hne Hlo Hhi; [lia|].
  cbn [bsearch_loop]. destruct (Z.ltb_spec l h) as [Hlt|Hge].
  - pose proof (Z.div_mod (l + h) 2 ltac:(lia)). pose proof (Z.mod_pos_bound (l + h) 2 ltac:(lia)).
    unfold INT_MAX. destruct (Z.ltb_spec (2 ^ 31 - 1) (l + h)); [lia|].
    set (i := (l + h) / 2) in *. destruct (lookup_lt_is_Some_2 base (Z.to_nat i)) as [x Hx]; [lia|].
    rewrite Hx. cbn [mbind option_bind]. destruct (Z.ltb_spec (c key x) 0) as [Hneg|Hnn].
    + apply IH; try done; try lia. intros j y Hy Hj. apply (key_after (Z.to_nat i) j x y); done || lia.
    + destruct (Z.ltb_spec 0 (c key x)) as [Hpos|Hzero].
      * apply IH; try done; try lia. intros j y Hy Hj. apply (key_before j (Z.to_nat i) y x); done || lia.
      * exists i, (c key x). split; [done|]. left. split; [lia|]. split; [lia|]. exists x. split; [done|lia].
  - exists i0, c0. split; [done|]. right. split; [lia|]. intros x [j Hj]%list_elem_of_lookup.
    destruct (decide (Z.of_nat j < l)); [specialize (Hlo j x Hj)|specialize (Hhi j x Hj)]; lia.
Qed.

Lemma bsearch_first_run i x :
  base !! i = Some x → c key x = 0 →
  let k := bsearch_first c key base i in
  (k <= i)%nat ∧ (∃ y, base !! k = Some y ∧ c key y = 0) ∧
  ∀ j y, (j < k)%nat → base !! j = Some y → 0 < c key y.
Proof using Hc Hsorted.
  intros Hx H0. revert x Hx H0. induction i as [|i IH]; intros x Hx H0; cbn [bsearch_first].
  - split; [lia|]. split; [by exists x|]. lia.
  - pose proof (lookup_lt_Some _ _ _ Hx). destruct (lookup_lt_is_Some_2 base i) as [y Hy]; [lia|].
    rewrite (list_lookup_total_correct _ _ _ Hy). destruct (Z.eqb_spec (c key y) 0) as [Hy0|Hy0].
    + destruct (IH y Hy Hy0) as (? & ? & ?). split; [lia|auto].
    + split; [lia|]. split; [by exists x|]. intros j z Hj Hz.
      apply (key_before j i z y); [lia|done|done|].
      destruct (Z.lt_trichotomy (c key y) 0) as [Hn|[|]]; [|done|done].
      pose proof (key_after i (S i) y x ltac:(lia) Hy Hx Hn). lia.
Qed.
End search.

(** The first match, or NULL when nothing matches. *)
Lemma bsearch_first_match c key base :
  cmp_ok c → StronglySorted (le_of c) base → Z.of_nat (length base) <= 2 ^ 30 →
  ∃ r, OBJ_bsearch_ex_ c key base (Z.of_nat (length base)) OBJ_BSEARCH_FIRST_VALUE_ON_MATCH = Some r ∧
    match r with
    | Some i => 0 <= i ∧ (∃ x, base !! Z.to_nat i = Some x ∧ c key x = 0) ∧
        ∀ j y, (j < Z.to_nat i)%nat → base !! j = Some y → 0 < c key y
    | None => ∀ x, x ∈ base → c key x ≠ 0
    end.
Proof using Type.
  intros Hc Hs Hlen. unfold OBJ_bsearch_ex_. destruct (Z.eqb_spec (Z.of_nat (length base)) 0) as [H0|H0].
  { exists None. split; [done|]. destruct base; [by intros x ?%not_elem_of_nil|done]. }
  rewrite Nat2Z.id.
  destruct (bsearch_loop_run c Hc key base Hs (S (length base)) 0 (Z.of_nat (length base)) 0 0)
    as (i & c' & -> & Hres); try lia.
  { intros j x Hj. apply lookup_lt_Some in Hj. lia. }
  cbn [mbind option_bind]. eexists. split; [done|].
  change (Z.land OBJ_BSEARCH_FIRST_VALUE_ON_MATCH OBJ_BSEARCH_VALUE_ON_NOMATCH =? 0) with true.
  change (Z.land OBJ_BSEARCH_FIRST_VALUE_ON_MATCH OBJ_BSEARCH_FIRST_VALUE_ON_MATCH =? 0) with false.
  destruct Hres as [(-> & Hi & x & Hx & Hx0)|[Hne Hno]].
  - change (negb (0 =? 0) && true) with false. change ((0 =? 0) && negb false) with true. cbv iota.
    destruct (bsearch_first_run c Hc key base Hs _ _ Hx Hx0) as (? & ? & ?).
    split; [lia|]. rewrite Nat2Z.id. auto.
  - rewrite (proj2 (Z.eqb_neq c' 0)) by done. done.
Qed.

(** *** Sorting *)
Lemma sort_data_run s :
  wf s → cmp_ok (fn (comp s)) →
  let s' := set_sorted true (sort_data fn s) in
  wf s' ∧ elements s' ≡ₚ elements s ∧ num s' = num s ∧ comp s' = comp s ∧
  StronglySorted (le_of (fn (comp s))) (elements s').
Proof using Qok.
  intros Hwf Hc s'. pose proof (wf_num _ Hwf) as Hn. pose proof (wf_data _ Hwf) as Hd.
  pose proof (length_elements _ Hwf) as Hle.
  assert (Hres : num s' = num s ∧ comp s' = comp s ∧ num_alloc s' = num_alloc s ∧
    match sk_data s' with Some d' => Z.of_nat (length d') = num_alloc s ∧ min_nodes <= num_alloc s
      | None => num_alloc s = 0 end ∧
    elements s' ≡ₚ elements s ∧ StronglySorted (le_of (fn (comp s))) (elements s')).
  { unfold s', sort_data. destruct (Z.ltb_spec 1 (num s)).
    - destruct (sk_data s) as [d|] eqn:Hdata; [|lia]. destruct Hd as [Hdl Hmin].
      set (l := take (Z.to_nat (num s)) d).
      assert (Hql : length (qsort (fn (comp s)) l) = Z.to_nat (num s))
        by (rewrite (qsort_perm _ l); unfold l; len).
      split; [done|]. split; [done|]. split; [done|]. split.
      { simpl. split; [|done]. rewrite length_app, Hql. len. }
      assert (He : elements (set_sorted true (set_data (qsort (fn (comp s)) l ++ drop (Z.to_nat (num s)) d)
        (num s) (num_alloc s) s)) = qsort (fn (comp s)) l).
      { unfold elements. simpl. by apply take_app_length'. }
      rewrite He. split; [|by apply qsort_sorted]. rewrite qsort_perm. unfold elements. by rewrite Hdata.
    - split; [done|]. split; [done|]. split; [done|]. split; [done|]. split; [done|].
      change (elements (set_sorted true s)) with (elements s).
      destruct (elements s) as [|x [|y l]]; [constructor|by repeat constructor|simpl in Hle; lia]. }
  destruct Hres as (R1 & R2 & R3 & R4 & R5 & R6). split; [|auto].
  split; rewrite ?R1, ?R2, ?R3; [lia|apply (wf_alloc _ Hwf)|done|auto].
Qed.

Lemma index_of_spec p d n :
  match index_of p d n with
  | Some i => (i < n)%nat ∧ take n d !! i = Some p ∧
      ∀ j y, (j < i)%nat → take n d !! j = Some y → y ≠ p
  | None => ∀ x, x ∈ take n d → x ≠ p
  end.
Proof using Type.
  revert n. induction d as [|x d IH]; intros [|n]; simpl; try (by intros ? ?%not_elem_of_nil).
  destruct (Z.eqb_spec x p) as [->|Hne].
  - split; [lia|]. split; [done|]. lia.
  - specialize (IH n). destruct (index_of p d n) as [i|]; simpl.
    + destruct IH as (? & ? & Hno). split; [lia|]. split; [done|].
      intros [|j] y Hj; simpl; [by intros [= <-]|]. apply Hno. lia.
    + intros y [->|Hy]%elem_of_cons; auto.
Qed.

(** The search reads the first [n] slots of the array only. *)
Lemma bsearch_take c key d n flags :
  (n <= length d)%nat →
  OBJ_bsearch_ex_ c key d (Z.of_nat n) flags = OBJ_bsearch_ex_ c key (take n d) (Z.of_nat n) flags.
Proof using Type.
  intros Hn.
  assert (Hloop : ∀ fuel l h i0 c0, 0 <= l → h <= Z.of_nat n →
    bsearch_loop c key d fuel l h i0 c0 = bsearch_loop c key (take n d) fuel l h i0 c0 ∧
    ∀ i c', 0 <= i0 <= Z.of_nat n → bsearch_loop c key d fuel l h i0 c0 = Some (i, c') → 0 <= i <= Z.of_nat n).
  { induction fuel as [|fuel IH]; intros l h i0 c0 Hl Hh; [done|]. cbn [bsearch_loop].
    destruct (Z.ltb_spec l h); [|by split; [done|intros i c' Hi [= <- <-]]].
    destruct (INT_MAX <? l + h); [done|].
    pose proof (Z.div_mod (l + h) 2 ltac:(lia)). pose proof (Z.mod_pos_bound (l + h) 2 ltac:(lia)).
    rewrite lookup_take_lt by lia. destruct (d !! _) as [x|]; [|done]. cbn [mbind option_bind].
    destruct (_ <? 0); [split; [apply IH; lia|intros i c' _; apply IH; lia]|].
    destruct (0 <? _); [split; [apply IH; lia|intros i c' _; apply IH; lia]|].
    split; [done|]. intros i c' _ [= <- <-]. lia. }
  assert (Hfirst : ∀ i, (i <= n)%nat → bsearch_first c key d i = bsearch_first c key (take n d) i).
  { induction i as [|i IH]; intros Hi; [done|]. cbn [bsearch_first].
    assert (take n d !!! i = d !!! i) as ->.
    { rewrite !list_lookup_total_alt. by rewrite lookup_take_lt by lia. }
    destruct (_ =? 0); [apply IH; lia|done]. }
  unfold OBJ_bsearch_ex_. destruct (_ =? 0); [done|].
  destruct (Hloop (S (Z.to_nat (Z.of_nat n))) 0 (Z.of_nat n) 0 0) as [<- Hb]; [lia..|].
  destruct (bsearch_loop _ _ _ _ _ _ _ _) as [[i c']|]; [|done]. cbn [mbind option_bind].
  rewrite Hfirst; [done|]. specialize (Hb i c' ltac:(lia) eq_refl). lia.
Qed.

(** What [OPENSSL_sk_find] looks for. *)
Definition matches (s : stack_st) (p x : Z) : Prop :=
  if comp s =? 0 then x = p else fn (comp s) p x = 0.

Lemma OPENSSL_sk_find_run s p :
  wf s → num s <= 2 ^ 30 → p ≠ 0 → (comp s ≠ 0 → cmp_ok (fn (comp s))) →
  ∃ r s', OPENSSL_sk_find fn (Some s) p = Some (r, Some s') ∧ wf s' ∧ elements s' ≡ₚ elements s ∧
    num s' = num s ∧ comp s' = comp s ∧
    (r = -1 ∧ (∀ x, x ∈ elements s → ¬ matches s p x) ∨
     0 <= r ∧ (∃ x, elements s' !! Z.to_nat r = Some x ∧ matches s p x) ∧
       ∀ j y, (j < Z.to_nat r)%nat → elements s' !! j = Some y → ¬ matches s p y).
Proof using Qok.
  intros Hwf Hsmall Hp Hcmp. pose proof (length_elements _ Hwf) as Hle. pose proof (wf_num _ Hwf) as Hn.
  unfold OPENSSL_sk_find, internal_find, matches. destruct (Z.eqb_spec (num s) 0) as [Hn0|Hn0].
  { exists (-1), s. split; [done|]. split; [done|]. split; [done|]. split; [done|]. split; [done|].
    left. split; [done|]. destruct (elements s); [by intros x ?%not_elem_of_nil|simpl in Hle; lia]. }
  destruct (Z.eqb_spec (comp s) 0) as [Hc0|Hc0].
  { pose proof (index_of_spec p (default [] (sk_data s)) (Z.to_nat (num s))) as Hix.
    do 2 eexists. split; [done|]. split; [done|]. split; [done|]. split; [done|]. split; [done|].
    destruct (index_of _ _ _) as [i|]; [right|left].
    - destruct Hix as (Hi & Hx & Hno). split; [lia|]. rewrite Nat2Z.id. split; [by exists p|done].
    - split; [done|]. intros x Hx ->. by apply (Hix _ Hx). }
  specialize (Hcmp Hc0). set (s1 := if negb (sorted s) then _ else s).
  assert (H1 : wf s1 ∧ elements s1 ≡ₚ elements s ∧ num s1 = num s ∧ comp s1 = comp s ∧
    StronglySorted (le_of (fn (comp s))) (elements s1)).
  { unfold s1. destruct (sorted s) eqn:Hs; cbn [negb]; [|by apply sort_data_run].
    split; [done|]. split; [done|]. split; [done|]. split; [done|]. by apply (wf_sorted _ Hwf). }
  destruct H1 as (Hwf1 & Hp1 & Hn1 & Hc1 & Hs1). clearbody s1.
  rewrite (proj2 (Z.eqb_neq p 0)) by done. rewrite Hn1, Hc1.
  assert (Hd : (Z.to_nat (num s) <= length (default [] (sk_data s1)))%nat).
  { pose proof (wf_data _ Hwf1) as Hd1. pose proof (wf_num _ Hwf1). destruct (sk_data s1); simpl in *; lia. }
  assert (Hel : take (Z.to_nat (num s)) (default [] (sk_data s1)) = elements s1)
    by (unfold elements; by rewrite Hn1).
  pose proof (length_elements _ Hwf1) as Hle1.
  rewrite <- (Z2Nat.id (num s)) by lia. rewrite bsearch_take by lia. rewrite Hel.
  destruct (bsearch_first_match (fn (comp s)) p (elements s1) Hcmp Hs1) as (r & Hr & Hres); [lia|].
  replace (Z.of_nat (Z.to_nat (num s))) with (Z.of_nat (length (elements s1))) by lia.
  rewrite Hr. cbn [mbind option_bind]. do 2 eexists. split; [done|]. split; [done|]. split; [done|].
  split; [lia|]. split; [done|]. destruct r as [i|]; cbn [default].
  - right. destruct Hres as (Hi & Hx & Hno). split; [done|]. split; [done|].
    intros j y Hj Hy E. specialize (Hno j y Hj Hy). lia.
  - left. split; [done|]. intros x Hx. apply Hres. by rewrite Hp1.
Qed.

(** *** Refinement *)
Lemma delete_run s loc :
  wf s →
  ∃ s', OPENSSL_sk_delete (Some s) loc = Some ((delete_at loc (elements s)).1, Some s') ∧ wf s' ∧
    elements s' = (delete_at loc (elements s)).2 ∧ num s' <= num s.
Proof using Type.
  intros Hwf. pose proof (length_elements _ Hwf) as Hle. unfold OPENSSL_sk_delete, delete_at.
  rewrite Hle. destruct ((loc <? 0) || (num s <=? loc)) eqn:Hloc; [exists s; split_and!; done || lia|].
  destruct (internal_delete_run s loc Hwf) as (x & s' & -> & Hx & He & Hn & Hc & Hwf'); [lia|].
  cbn [mbind option_bind fst snd]. exists s'. rewrite (list_lookup_total_correct _ _ _ Hx).
  split_and!; try done. lia.
Qed.

Lemma set_run s i x :
  wf s →
  ∃ s', OPENSSL_sk_set (Some s) i x = Some ((list_step (Set_ i x) (elements s)).1, Some s') ∧ wf s' ∧
    elements s' = (list_step (Set_ i x) (elements s)).2 ∧ num s' = num s.
Proof using Type.
  intros Hwf. pose proof (length_elements _ Hwf) as Hle. unfold OPENSSL_sk_set, list_step.
  rewrite Hle. destruct ((i <? 0) || (num s <=? i)) eqn:Hi; [by exists s|].
  pose proof (wf_data _ Hwf) as Hd. pose proof (wf_num _ Hwf) as Hn.
  assert (Hel : elements s = take (Z.to_nat (num s)) (default [] (sk_data s))) by done.
  destruct (sk_data s) as [d|] eqn:Hdata; [|lia].
  cbn [mbind option_bind]. destruct (lookup_lt_is_Some_2 d (Z.to_nat i)) as [y ->]; [lia|].
  cbn [mbind option_bind fst snd]. eexists. split; [done|]. split.
  - split; simpl; [lia|apply (wf_alloc _ Hwf)|by rewrite length_insert|done].
  - split; [|done]. rewrite Hel. unfold elements. simpl. by rewrite take_insert_lt by lia.
Qed.

Lemma zero_run s :
  wf s → ∃ s', OPENSSL_sk_zero (Some s) = Some (Some s') ∧ wf s' ∧ elements s' = [] ∧ num s' = 0.
Proof using Type.
  intros Hwf. pose proof (length_elements _ Hwf) as Hle. pose proof (wf_num _ Hwf) as Hn.
  unfold OPENSSL_sk_zero. destruct (Z.eqb_spec (num s) 0) as [H0|H0].
  - exists s. split_and!; try done. destruct (elements s); [done|simpl in Hle; lia].
  - pose proof (wf_data _ Hwf) as Hd. destruct (sk_data s) as [d|] eqn:Hdata; [|lia].
    cbn [mbind option_bind]. eexists. split; [done|]. split; [|done].
    split; simpl; [lia|apply (wf_alloc _ Hwf)| |constructor].
    rewrite length_memcpy; [done|]. rewrite length_replicate. lia.
Qed.

Lemma insert_step m s x loc :
  wf s → alloc_ok (Some m) → num s + 1 <= max_nodes W →
  ∃ s', OPENSSL_sk_insert W (Some m) (Some s) x loc = Some (num s + 1, Some s') ∧ wf s' ∧
    elements s' = insert_at loc x (elements s) ∧ num s' = num s + 1.
Proof using HW.
  intros Hwf Hm Hlt.
  destruct (OPENSSL_sk_insert_run (Some m) s x loc Hwf Hm) as (r & s' & Hrun & Hwf' & _ & Hr & Hok).
  specialize (Hok ltac:(eauto) ltac:(lia)). destruct Hr as [[? _]|(-> & He & Hn)]; [done|]. eauto.
Qed.

Lemma index_of_elements s p :
  wf s → index_of p (default [] (sk_data s)) (Z.to_nat (num s)) =
    index_of p (elements s) (length (elements s)).
Proof using Type.
  intros Hwf. pose proof (length_elements _ Hwf) as Hle.
  replace (length (elements s)) with (Z.to_nat (num s)) by lia. unfold elements.
  generalize (Z.to_nat (num s)). intros n. revert n.
  induction (default [] (sk_data s)) as [|x d IH]; intros [|n]; simpl; [done..|].
  destruct (x =? p); [done|]. by rewrite IH.
Qed.

Lemma sk_step_run m op s :
  wf s → alloc_ok (Some m) → num s + 1 <= max_nodes W →
  ∃ s', sk_step W m op s = Some ((list_step op (elements s)).1, Some s') ∧ wf s' ∧
    elements s' = (list_step op (elements s)).2 ∧ num s' <= num s + 1.
Proof using HW.
  intros Hwf Hm Hlt. pose proof (length_elements _ Hwf) as Hle. pose proof (wf_num _ Hwf) as Hn.
  destruct op as [x|x|x loc| | |loc|p|i x|i| | |c]; cbn [sk_step].
  - destruct (insert_step m s x (num s) Hwf Hm Hlt) as (s' & Hrun & Hwf' & He & Hn').
    exists s'. unfold OPENSSL_sk_push. cbn [list_step fst snd]. rewrite Hle, Hrun, He, Hn'.
    split_and!; try done. unfold insert_at. rewrite Hle, Z.leb_refl. cbn [orb].
    by rewrite take_ge, drop_ge by lia.
  - destruct (insert_step m s x 0 Hwf Hm Hlt) as (s' & Hrun & Hwf' & He & Hn').
    exists s'. unfold OPENSSL_sk_unshift. cbn [list_step fst snd]. rewrite Hle, Hrun, He, Hn'.
    split_and!; try done. unfold insert_at. rewrite Hle.
    destruct (Z.leb_spec (num s) 0); cbn [orb]; [|done].
    by destruct (elements s); [|simpl in Hle; lia].
  - destruct (insert_step m s x loc Hwf Hm Hlt) as (s' & Hrun & Hwf' & He & Hn').
    exists s'. cbn [list_step fst snd]. rewrite Hle, Hrun, He, Hn'. split_and!; done || lia.
  - destruct (delete_run s (num s - 1) Hwf) as (s' & Hrun & Hwf' & He & Hn').
    exists s'. cbn [list_step]. rewrite Hle. split_and!; try done; [|lia]. rewrite <- Hrun.
    unfold OPENSSL_sk_pop, OPENSSL_sk_delete. destruct (Z.eqb_spec (num s) 0) as [->|]; [done|].
    by replace ((num s - 1 <? 0) || (num s <=? num s - 1)) with false by lia.
  - destruct (delete_run s 0 Hwf) as (s' & Hrun & Hwf' & He & Hn').
    exists s'. cbn [list_step]. split_and!; try done; [|lia]. rewrite <- Hrun.
    unfold OPENSSL_sk_shift, OPENSSL_sk_delete. destruct (Z.eqb_spec (num s) 0) as [->|]; [done|].
    by replace ((0 <? 0) || (num s <=? 0)) with false by lia.
  - destruct (delete_run s loc Hwf) as (s' & Hrun & Hwf' & He & Hn').
    exists s'. cbn [list_step]. split_and!; try done. lia.
  - unfold OPENSSL_sk_delete_ptr. cbn [list_step]. rewrite (index_of_elements s p Hwf).
    pose proof (index_of_spec p (elements s) (length (elements s))) as Hix.
    destruct (index_of _ _ _) as [i|]; [|exists s; split_and!; done || lia].
    destruct (delete_run s (Z.of_nat i) Hwf) as (s' & Hrun & Hwf' & He & Hn').
    exists s'. split_and!; try done; [|lia]. rewrite <- Hrun. unfold OPENSSL_sk_delete.
    replace ((Z.of_nat i <? 0) || (num s <=? Z.of_nat i)) with false by lia. done.
  - destruct (set_run s i x Hwf) as (s' & Hrun & Hwf' & He & Hn').
    exists s'. split_and!; try done. lia.
  - exists s. cbn [list_step fst snd]. rewrite Hle. unfold OPENSSL_sk_value.
    split; [|split_and!; done || lia].
    destruct ((i <? 0) || (num s <=? i)) eqn:Hi; [done|]. pose proof (wf_data _ Hwf) as Hd.
    unfold elements. destruct (sk_data s) as [d|]; [|lia]. cbn [mbind option_bind default].
    destruct (lookup_lt_is_Some_2 d (Z.to_nat i)) as [y Hy]; [lia|]. rewrite Hy.
    cbn [mbind option_bind]. do 2 f_equal. symmetry. apply list_lookup_total_correct.
    by rewrite lookup_take_lt by lia.
  - destruct (zero_run s Hwf) as (s' & -> & Hwf' & He & Hn'). exists s'. split_and!; try done. lia.
  - exists s. cbn [list_step fst snd]. rewrite Hle. split_and!; done || lia.
  - eexists. split; [done|]. unfold OPENSSL_sk_set_cmp_func. cbn [snd].
    destruct Hwf as [? ? ? Hs]. destruct (Z.eqb_spec (comp s) c) as [<-|]; cbn [negb].
    + split; [by split|]. split; [done|simpl; lia].
    + split; [by split|]. split; [done|simpl; lia].
Qed.

Lemma sk_run_refines m ops s :
  wf s → alloc_ok (Some m) → num s + Z.of_nat (length ops) <= max_nodes W →
  ∃ s', sk_run W m ops s = Some ((list_run ops (elements s)).1, s') ∧ wf s' ∧
    elements s' = (list_run ops (elements s)).2.
Proof using HW.
  intros Hwf Hm. revert s Hwf. induction ops as [|op ops IH]; intros s Hwf Hlt; [by exists s|].
  rewrite length_cons in Hlt. cbn [sk_run list_run].
  destruct (sk_step_run m op s Hwf Hm) as (s1 & -> & Hwf1 & He1 & Hn1); [lia|].
  cbn [mbind option_bind]. destruct (IH s1 Hwf1) as (s2 & -> & Hwf2 & He2); [lia|].
  cbn [mbind option_bind]. exists s2. rewrite He1 in *.
  destruct (list_step op (elements s)) as [r l]. simpl in *. by destruct (list_run ops l).
Qed.

(** *** Creation and copies *)
Lemma new_reserve_run mem c n :
  alloc_ok mem → n <= max_nodes W →
  ∃ st, OPENSSL_sk_new_reserve W true mem c n = Some st ∧
    match st with
    | Some s => wf s ∧ elements s = [] ∧ comp s = c ∧ (0 < n → n <= num_alloc s)
    | None => 0 < n ∧ mem = None
    end.
Proof using HW.
  intros Hm Hn. pose proof max_nodes_bounds as Hmax. unfold OPENSSL_sk_new_reserve. cbn [negb].
  set (s0 := {| num := 0; sk_data := None; sorted := false; num_alloc := 0; comp := c |}).
  assert (Hwf0 : wf s0) by (split; simpl; done || lia).
  destruct (Z.leb_spec n 0); [exists (Some s0); split_and!; done || lia|].
  destruct (sk_reserve_run mem s0 n true Hwf0 Hm) as (r & s & -> & Hwf & He & _ & Hc & _ & Hr & Hok); [lia|].
  cbn [mbind option_bind]. eexists. split; [done|]. destruct Hr as [[-> ->]|[-> (d & Hd & Hl)]].
  - change (0 =? 0) with true. cbv iota. split; [done|]. destruct mem; [|done].
    specialize (Hok ltac:(eauto) ltac:(simpl; lia)). done.
  - change (1 =? 0) with false. cbv iota. split; [done|]. split; [done|]. split; [done|]. intros _.
    pose proof (wf_data _ Hwf) as Hd'. rewrite Hd in Hd'. simpl in Hl. lia.
Qed.

Lemma dup_run mem s :
  wf s → alloc_ok mem →
  ∃ st, OPENSSL_sk_dup true mem s = Some st ∧
    match st with
    | Some s' => wf s' ∧ elements s' = elements s ∧ comp s' = comp s ∧ sorted s' = sorted s
    | None => mem = None ∧ num s ≠ 0
    end.
Proof using Type.
  intros Hwf Hm. pose proof (length_elements _ Hwf) as Hle. pose proof (wf_num _ Hwf) as Hn.
  unfold OPENSSL_sk_dup. cbn [negb]. destruct (Z.eqb_spec (num s) 0) as [H0|H0].
  - eexists. split; [done|]. split; [|split; [|done]].
    + split; simpl; try done; [pose proof (wf_alloc _ Hwf); lia|constructor].
    + unfold elements at 1. simpl. by destruct (elements s); [|simpl in Hle; lia].
  - destruct mem as [m|]; [|by eexists]. pose proof (wf_data _ Hwf) as Hd.
    destruct (sk_data s) as [d|] eqn:Hdata; [|lia]. destruct Hd as [Hdl Hmin].
    cbn [mbind option_bind]. rewrite (proj2 (Nat.ltb_ge _ _)) by lia. eexists. split; [done|].
    set (d' := memcpy _ _ _).
    assert (Hd' : length d' = Z.to_nat (num_alloc s)).
    { unfold d'. rewrite length_memcpy; [apply Hm|]. rewrite Hm. len. }
    assert (He : take (Z.to_nat (num s)) d' = elements s).
    { unfold d', elements. rewrite Hdata. simpl. apply memcpy_read_app. len. }
    split; [|split; [|done]].
    + apply wf_with; try done; [lia|apply (wf_alloc _ Hwf)|lia].
    + by apply elements_with.
Qed.

(** NULL elements are copied as NULL. *)
Definition copy_of (copy_func : Z → Z) (x : Z) : Z := if x =? 0 then 0 else copy_func x.
Definition copies (copy_func : Z → Z) (x : Z) : Prop := x ≠ 0 → copy_func x ≠ 0.

Lemma copy_elements_ok f l done :
  Forall (copies f) l → copy_elements f l done = inl (reverse done ++ (copy_of f <$> l)).
Proof using Type.
  intros Hl. revert done. induction Hl as [|x l Hx Hl IH]; intros done; cbn [copy_elements].
  { by rewrite app_nil_r. }
  assert (H : copy_elements f l (copy_of f x :: done) = inl (reverse done ++ (copy_of f <$> x :: l))).
  { by rewrite IH, reverse_cons, <- app_assoc. }
  unfold copy_of at 1 in H. destruct (Z.eqb_spec x 0) as [->|Hx0]; [done|].
  by rewrite (proj2 (Z.eqb_neq (f x) 0)) by by apply Hx.
Qed.

Lemma copy_elements_fail f l1 x l2 done :
  Forall (copies f) l1 → ¬ copies f x →
  copy_elements f (l1 ++ x :: l2) done =
    inr (filter (λ y, y ≠ 0) (reverse (copy_of f <$> l1) ++ done)).
Proof using Type.
  clear HW fn. intros Hl Hx. revert done. induction Hl as [|y l Hy Hl IH]; intros done; cbn [copy_elements app].
  { unfold copies in Hx. destruct (Z.eqb_spec x 0); [tauto|].
    destruct (Z.eqb_spec (f x) 0); [done|tauto]. }
  rewrite fmap_cons, reverse_cons, <- app_assoc. cbn [app]. rewrite <- IH. unfold copy_of at 1.
  destruct (Z.eqb_spec y 0) as [->|Hy0]; [done|].
  by rewrite (proj2 (Z.eqb_neq (f y) 0)) by by apply Hy.
Qed.

Lemma deep_copy_ok m f s :
  wf s → Forall (copies f) (elements s) →
  (∀ x y, fn (comp s) (copy_of f x) (copy_of f y) = fn (comp s) x y) →
  ∃ s', OPENSSL_sk_deep_copy true (Some m) f s = (Some s', []) ∧ wf s' ∧
    elements s' = copy_of f <$> elements s.
Proof using Type.
  intros Hwf Hf Hcmp. pose proof (length_elements _ Hwf) as Hle. pose proof (wf_num _ Hwf) as Hn.
  pose proof (wf_alloc _ Hwf) as Ha. pose proof (wf_data _ Hwf) as Hd.
  unfold OPENSSL_sk_deep_copy. cbn [negb]. destruct (Z.eqb_spec (num s) 0) as [H0|H0].
  - eexists. split; [done|]. split; [split; simpl; try done; [lia|constructor]|].
    unfold elements at 1. simpl. by destruct (elements s); [|simpl in Hle; lia].
  - rewrite copy_elements_ok by done. cbn [reverse rev_append app].
    change (reverse [] ++ (copy_of f <$> elements s)) with (copy_of f <$> elements s).
    assert (Hmin : min_nodes <= num_alloc s) by (destruct (sk_data s); lia).
    set (na := if min_nodes <? num s then num s else min_nodes).
    assert (Hna : num s <= na ∧ min_nodes <= na <= max_nodes W).
    { unfold na. destruct (Z.ltb_spec min_nodes (num s)); lia. }
    eexists. split; [done|].
    assert (He : elements (set_data ((copy_of f <$> elements s) ++ replicate (Z.to_nat (na - num s)) 0)
      (num s) na s) = copy_of f <$> elements s).
    { unfold elements at 1. simpl. apply take_app_length'. rewrite length_fmap. lia. }
    split; [|done]. split; simpl; [lia|lia| |].
    + rewrite length_app, length_replicate, length_fmap. lia.
    + intros Hs Hc Hok. rewrite He. pose proof (wf_sorted _ Hwf Hs Hc Hok) as Hsort. clear -Hsort Hcmp.
      induction Hsort as [|x l Hl IH Hx]; [constructor|]. rewrite fmap_cons. constructor; [done|].
      apply Forall_fmap. eapply Forall_impl; [exact Hx|]. intros y Hy. simpl. by rewrite Hcmp.
Qed.
End facts.
