(* ===== verification/RunTask.v ===== *)
(** * Tasks run by time and count: src/base/run_task.{hpp,cpp}

    A [RunTask] runs a function once a number of calls and a duration have
    been reached.  The steady clock is an argument: [selfIncForTime] reads it
    twice.  Times are in nanoseconds. *)
From S2P Require Import Prelude.

Record RunTask := {
  run_time_ : option Z;
  run_count_ : option Z;
  run_max_time_ : option Z;
  run_max_count_ : option Z;
  start_run_time_point_ : option Z;
}.

(** [RunTask(int64_t)], [RunTask(nanoseconds, int64_t)] *)
Definition RunTask_count (run_max_count : Z) : RunTask :=
  {| run_time_ := None; run_count_ := None; run_max_time_ := None;
     run_max_count_ := Some run_max_count; start_run_time_point_ := None |}.
Definition RunTask_time (run_max_time run_max_count : Z) : RunTask :=
  {| run_time_ := None; run_count_ := None; run_max_time_ := Some run_max_time;
     run_max_count_ := Some run_max_count; start_run_time_point_ := None |}.

Definition checkCountDone (t : RunTask) : bool :=
  match run_max_count_ t with None => true | Some m => m <=? default 0 (run_count_ t) end.
Definition checkTimeDone (t : RunTask) : bool :=
  match run_max_time_ t with None => true | Some m => m <=? default 0 (run_time_ t) end.

Definition selfIncForCount (t : RunTask) : RunTask :=
  match run_max_count_ t with
  | None => t
  | Some _ =>
      {| run_time_ := run_time_ t; run_count_ := Some (default 0 (run_count_ t) + 1);
         run_max_time_ := run_max_time_ t; run_max_count_ := run_max_count_ t;
         start_run_time_point_ := start_run_time_point_ t |}
  end.

(** [now1]: the reading for the start point, [now2]: the second one. *)
Definition selfIncForTime (now1 now2 : Z) (t : RunTask) : RunTask :=
  match run_max_time_ t with
  | None => t
  | Some _ =>
      let start := match start_run_time_point_ t with None => now1 | Some p => p end in
      {| run_time_ := Some (now2 - start); run_count_ := run_count_ t;
         run_max_time_ := run_max_time_ t; run_max_count_ := run_max_count_ t;
         start_run_time_point_ := Some start |}
  end.

(** The value returned; [yet] is called exactly when it is [true]. *)
Definition doByTimeAndCount (now1 now2 : Z) (t : RunTask) : bool * RunTask :=
  if checkCountDone t && checkTimeDone t then (false, t) else
  let t := selfIncForTime now1 now2 (selfIncForCount t) in
  if negb (checkCountDone t && checkTimeDone t) then (false, t) else (true, t).

Definition doByTimeOrCount (now1 now2 : Z) (t : RunTask) : bool * RunTask :=
  if checkCountDone t || checkTimeDone t then (false, t) else
  let t := selfIncForTime now1 now2 (selfIncForCount t) in
  if negb (checkCountDone t || checkTimeDone t) then (false, t) else (true, t).

Definition reset (t : RunTask) : RunTask :=
  {| run_time_ := None; run_count_ := None; run_max_time_ := run_max_time_ t;
     run_max_count_ := run_max_count_ t; start_run_time_point_ := start_run_time_point_ t |}.

(** Calls at the times [nows] (one reading per call), without and with a
    [reset] after each run, as the congestion controller does. *)
Fixpoint calls (nows : list Z) (t : RunTask) : list bool * RunTask :=
  match nows with
  | [] => ([], t)
  | now :: nows' =>
      let '(b, t) := doByTimeAndCount now now t in
      let '(bs, t) := calls nows' t in (b :: bs, t)
  end.
Fixpoint calls_reset (nows : list Z) (t : RunTask) : list bool * RunTask :=
  match nows with
  | [] => ([], t)
  | now :: nows' =>
      let '(b, t) := doByTimeAndCount now now t in
      let '(bs, t) := calls_reset nows' (if b then reset t else t) in (b :: bs, t)
  end.

(** ** The specification: the first call that is late enough and frequent
    enough, and no other. *)
Fixpoint fires (T N start k : Z) (nows : list Z) : list bool :=
  match nows with
  | [] => []
  | now :: nows' =>
      if (N <=? k + 1) && (T <=? now - start) then true :: ((λ _, false) <$> nows')
      else false :: fires T N start (k + 1) nows'
  end.

(** ** Facts *)

(** A task after [k] calls, started at [start] and last called at [now]. *)
Definition running (T N start k now : Z) (t : RunTask) : Prop :=
  run_max_time_ t = Some T ∧ run_max_count_ t = Some N ∧ run_count_ t = Some k ∧
  run_time_ t = Some (now - start) ∧ start_run_time_point_ t = Some start.

Lemma running_done T N start k now t :
  running T N start k now t →
  checkCountDone t && checkTimeDone t = (N <=? k) && (T <=? now - start).
Proof. intros (E1 & E2 & E3 & E4 & E5). unfold checkCountDone, checkTimeDone. by rewrite E1, E2, E3, E4. Qed.

Lemma step_running T N start k now0 now t :
  running T N start k now0 t →
  (N <=? k) && (T <=? now0 - start) = false →
  ∃ t', doByTimeAndCount now now t = ((N <=? k + 1) && (T <=? now - start), t') ∧
    running T N start (k + 1) now t'.
Proof.
  intros Hr Hd. unfold doByTimeAndCount. rewrite (running_done _ _ _ _ _ _ Hr), Hd.
  set (t' := selfIncForTime _ _ _).
  assert (Hr' : running T N start (k + 1) now t').
  { destruct Hr as (E1 & E2 & E3 & E4 & E5). unfold t', selfIncForTime, selfIncForCount, running.
    rewrite E2. simpl. rewrite E1, E3, E5. done. }
  rewrite (running_done _ _ _ _ _ _ Hr'). exists t'.
  by destruct ((N <=? k + 1) && _).
Qed.

Lemma stopped T N start k now0 nows t :
  running T N start k now0 t → (N <=? k) && (T <=? now0 - start) = true →
  calls nows t = ((λ _, false) <$> nows, t).
Proof.
  intros Hr Hd. induction nows as [|now nows IH]; [done|]. cbn [calls fmap list_fmap].
  unfold doByTimeAndCount. by rewrite (running_done _ _ _ _ _ _ Hr), Hd, IH.
Qed.

Lemma calls_running T N start k now0 nows t :
  running T N start k now0 t → (N <=? k) && (T <=? now0 - start) = false →
  (calls nows t).1 = fires T N start k nows.
Proof.
  revert k now0 t. induction nows as [|now nows IH]; intros k now0 t Hr Hd; [done|].
  cbn [calls fires]. destruct (step_running _ _ _ _ _ now _ Hr Hd) as (t' & -> & Hr').
  destruct ((N <=? k + 1) && (T <=? now - start)) eqn:Hf.
  - by rewrite (stopped _ _ _ _ _ _ _ Hr' Hf).
  - specialize (IH _ _ _ Hr' Hf). destruct (calls nows t'). simpl in *. by f_equal.
Qed.

(** The first call of a new task, or of a task reset before it was started. *)
Lemma calls_fresh T N now nows :
  0 < N ∨ 0 < T → (calls (now :: nows) (RunTask_time T N)).1 = fires T N now 0 (now :: nows).
Proof.
  intros HTN. cbn [calls fires]. unfold doByTimeAndCount.
  assert (checkCountDone (RunTask_time T N) && checkTimeDone (RunTask_time T N) = false) as ->.
  { unfold checkCountDone, checkTimeDone. simpl. lia. }
  set (t' := selfIncForTime _ _ _).
  assert (Hr' : running T N now 1 now t') by done.
  rewrite (running_done _ _ _ _ _ _ Hr'). change (0 + 1) with 1.
  destruct ((N <=? 1) && (T <=? now - now)) eqn:Hf; cbn [negb].
  - by rewrite (stopped _ _ _ _ _ _ _ Hr' Hf).
  - pose proof (calls_running _ _ _ _ _ nows _ Hr' Hf) as Hc.
    destruct (calls nows t'). simpl in *. by f_equal.
Qed.

Lemma fires_count T N start k nows :
  (length (filter (λ b, b = true) (fires T N start k nows)) <= 1)%nat.
Proof.
  assert (Hno : ∀ l : list Z, filter (λ b, b = true) ((λ _, false) <$> l) = []).
  { induction l; [done|]. rewrite fmap_cons. by rewrite filter_cons_False. }
  revert k. induction nows as [|now nows IH]; intros k; simpl; [lia|].
  destruct (_ && _); [|by rewrite filter_cons_False].
  rewrite filter_cons_True by done. rewrite Hno. simpl. lia.
Qed.

(** [reset] keeps the start point: once the first interval is over, every
    call runs the task. *)
Definition restarted (T N start : Z) (t : RunTask) : Prop :=
  run_max_time_ t = Some T ∧ run_max_count_ t = Some N ∧ run_count_ t = None ∧
  run_time_ t = None ∧ start_run_time_point_ t = Some start.

Lemma restarted_fires T start nows t :
  0 < T → restarted T 1 start t → Forall (λ now, T <= now - start) nows →
  (calls_reset nows t).1 = (λ _, true) <$> nows.
Proof.
  intros HT Hr Hn. revert t Hr. induction Hn as [|now nows Hnow Hn IH]; intros t Hr; [done|].
  pose proof Hr as (E1 & E2 & E3 & E4 & E5). cbn [calls_reset fmap list_fmap]. unfold doByTimeAndCount.
  assert (checkCountDone t && checkTimeDone t = false) as ->.
  { unfold checkCountDone, checkTimeDone. rewrite E1, E2, E3, E4. simpl. lia. }
  set (t' := selfIncForTime _ _ _).
  assert (Hr' : running T 1 start 1 now t').
  { unfold t', selfIncForTime, selfIncForCount, running. rewrite E2. simpl. by rewrite E1, E3, E5. }
  rewrite (running_done _ _ _ _ _ _ Hr'). replace ((1 <=? 1) && (T <=? now - start)) with true by lia.
  cbn [negb].
  assert (Hr2 : restarted T 1 start (reset t')) by (destruct Hr' as (? & ? & ? & ? & ?); by split_and!).
  specialize (IH _ Hr2). destruct (calls_reset nows (reset t')). simpl in *. by f_equal.
Qed.

Lemma first_interval T now nows :
  0 < T → Forall (λ now', now' - now < T) nows →
  calls_reset (now :: nows) (RunTask_time T 1) =
    (replicate (S (length nows)) false, (calls_reset (now :: nows) (RunTask_time T 1)).2) ∧
  ∃ k now0, 0 <= k ∧ running T 1 now k now0 (calls_reset (now :: nows) (RunTask_time T 1)).2 ∧
    now0 - now < T.
Proof.
  intros HT Hn. cbn [calls_reset]. unfold doByTimeAndCount at 1 2 3.
  replace (checkCountDone (RunTask_time T 1) && checkTimeDone (RunTask_time T 1)) with false
    by (unfold checkCountDone, checkTimeDone; simpl; lia).
  set (t' := selfIncForTime _ _ _).
  assert (Hr' : running T 1 now 1 now t') by done.
  rewrite (running_done _ _ _ _ _ _ Hr'). replace ((1 <=? 1) && (T <=? now - now)) with false by lia.
  cbn [negb].
  assert (H : ∀ nows k now0 t, 0 <= k → running T 1 now k now0 t → now0 - now < T →
    Forall (λ now', now' - now < T) nows →
    (calls_reset nows t).1 = replicate (length nows) false ∧
    ∃ k now0, 0 <= k ∧ running T 1 now k now0 (calls_reset nows t).2 ∧ now0 - now < T).
  { clear. induction nows as [|n nows IH]; intros k now0 t Hk Hr H0 Hn; [simpl; eauto 6|].
    apply Forall_cons in Hn as [Hn1 Hn]. cbn [calls_reset].
    destruct (step_running _ _ _ _ _ n _ Hr) as (t2 & -> & Hr2); [lia|].
    replace ((1 <=? k + 1) && (T <=? n - now)) with false by lia.
    destruct (IH (k + 1) _ _ ltac:(lia) Hr2 ltac:(lia) Hn) as [IH1 IH2].
    destruct (calls_reset nows t2). simpl in *. split; [by f_equal|done]. }
  destruct (H nows 1 now t' ltac:(lia) Hr' ltac:(lia) Hn) as [H1 H2].
  destruct (calls_reset nows t') as [bs t2]. simpl in *. split; [|done]. f_equal. by f_equal.
Qed.

Lemma calls_reset_app a b t :
  (calls_reset (a ++ b) t).1 = (calls_reset a t).1 ++ (calls_reset b (calls_reset a t).2).1.
Proof.
  revert t. induction a as [|now a IH]; intros t; [done|]. cbn [calls_reset app].
  destruct (doByTimeAndCount now now t) as [x t']. specialize (IH (if x then reset t' else t')).
  destruct (calls_reset a _), (calls_reset (a ++ b) _). simpl in *. by rewrite IH.
Qed.

(** Past the interval every call runs the task, and resets it. *)
Lemma reset_runs T start k now0 nows t :
  0 < T → 0 <= k → running T 1 start k now0 t → now0 - start < T →
  Forall (λ now, T <= now - start) nows →
  (calls_reset nows t).1 = replicate (length nows) true.
Proof.
  intros HT Hk Hr H0 Hn. destruct Hn as [|now nows Hnow Hn]; [done|]. cbn [calls_reset].
  destruct (step_running _ _ _ _ _ now _ Hr) as (t' & -> & Hr'); [lia|].
  replace ((1 <=? k + 1) && (T <=? now - start)) with true by lia.
  pose proof (restarted_fires T start nows (reset t')) as Hf.
  destruct (calls_reset nows (reset t')). simpl in *. f_equal.
  rewrite Hf; [|done| |done].
  - by apply const_fmap.
  - destruct Hr' as (? & ? & ? & ? & ?). by split_and!.
Qed.
