(* ===== verification/SrtCC.v ===== *)
(** * The congestion controller: src/srt_net/srt_cc.{hpp,cpp}

    Doubles are IEEE 754 binary64 numbers ([spec_float] of the standard
    library, with its rounding to nearest even), integers have their width.
    [None] is undefined behaviour: a signed overflow, or a double out of the
    range of the integer it is converted to.  What [srt_bstats] reports and the
    readings of the steady clock are arguments. *)
From S2P Require Import Prelude RunTask.
From Stdlib Require Import SpecFloat.

(** ** Doubles *)
Definition prec : Z := 53.
Definition emax : Z := 1024.
Definition of_int (z : Z) : spec_float := binary_normalize prec emax z 0 false.
Definition dmul : spec_float → spec_float → spec_float := SFmul prec emax.
Definition dsub : spec_float → spec_float → spec_float := SFsub prec emax.
Definition ddiv : spec_float → spec_float → spec_float := SFdiv prec emax.
(** Truncation towards zero. *)
Definition trunc (x : spec_float) : option Z :=
  match x with
  | S754_zero _ => Some 0
  | S754_finite s m e =>
      let a := if 0 <=? e then Zpos m * 2 ^ e else Zpos m / 2 ^ (- e) in
      Some (if s then - a else a)
  | _ => None
  end.
Definition in_range (lo hi z : Z) : option Z := if (lo <=? z) && (z <=? hi) then Some z else None.
Definition to_int (x : spec_float) : option Z := z ← trunc x; in_range (- 2 ^ 31) (2 ^ 31 - 1) z.
Definition to_int64 (x : spec_float) : option Z := z ← trunc x; in_range (- 2 ^ 63) (2 ^ 63 - 1) z.
Definition to_uint64 (x : spec_float) : option Z := z ← trunc x; in_range 0 (2 ^ 64 - 1) z.
(** Signed [int] and [int64_t] results. *)
Definition int32 (z : Z) : option Z := in_range (- 2 ^ 31) (2 ^ 31 - 1) z.
Definition int64 (z : Z) : option Z := in_range (- 2 ^ 63) (2 ^ 63 - 1) z.

(** The literals 1.3, 1.08, 0.85, 0.4 and 1.2. *)
Definition d1_3 : spec_float := S754_finite false 5854679515581645 (-52).
Definition d1_08 : spec_float := S754_finite false 4863887597560136 (-52).
Definition d0_85 : spec_float := S754_finite false 7656119366529843 (-53).
Definition d0_4 : spec_float := S754_finite false 7205759403792794 (-54).
Definition d1_2 : spec_float := S754_finite false 5404319552844595 (-52).

(** ** Constants and state *)
Definition STATE_INCR : Z := 1.
Definition STATE_DECR : Z := 2.
Definition STATE_KEEP : Z := 3.
Definition VIDEO_UPDATE_INTERVAL : Z := 500 * 1000000.
Definition SRT_CHECK_INTERVAL : Z := 300 * 1000000.
Definition RTT_LIST_MAX : nat := 6.
Definition BW_LIST_MAX : nat := 6.
Definition STATE_LIST_MAX : nat := 6.
Definition CWND_GAIN_DEF : spec_float := d1_3.
Definition RTT_INIT : Z := 100.
Definition RTT_MIN : Z := 35.

Record SrtCongestionCtrl := {
  rtt_array_ : list Z;
  rtt_min_ : Z;
  rtt_ready_ : bool;
  bw_array_ : list Z;
  bw_max_ : Z;
  avg_bw_ : Z;
  bw_ready_ : bool;
  state_array_ : list Z;
  state_ready_ : bool;
  cwnd_gain_ : spec_float;
  congestion_state_ : Z;
  update_vencode_bitrate_task_ : RunTask;
  srt_congestion_ctrl_task_ : RunTask;
}.

Definition cc_init : SrtCongestionCtrl := {|
  rtt_array_ := []; rtt_min_ := RTT_INIT; rtt_ready_ := false;
  bw_array_ := []; bw_max_ := 0; avg_bw_ := 0; bw_ready_ := false;
  state_array_ := []; state_ready_ := false;
  cwnd_gain_ := CWND_GAIN_DEF; congestion_state_ := STATE_KEEP;
  update_vencode_bitrate_task_ := RunTask_time VIDEO_UPDATE_INTERVAL 1;
  srt_congestion_ctrl_task_ := RunTask_time SRT_CHECK_INTERVAL 1;
|}.

Definition set_rtt (a : list Z) (m : Z) (r : bool) (c : SrtCongestionCtrl) : SrtCongestionCtrl :=
  {| rtt_array_ := a; rtt_min_ := m; rtt_ready_ := r; bw_array_ := bw_array_ c;
     bw_max_ := bw_max_ c; avg_bw_ := avg_bw_ c; bw_ready_ := bw_ready_ c;
     state_array_ := state_array_ c; state_ready_ := state_ready_ c; cwnd_gain_ := cwnd_gain_ c;
     congestion_state_ := congestion_state_ c;
     update_vencode_bitrate_task_ := update_vencode_bitrate_task_ c;
     srt_congestion_ctrl_task_ := srt_congestion_ctrl_task_ c |}.
Definition set_bw (a : list Z) (m v : Z) (r : bool) (c : SrtCongestionCtrl) : SrtCongestionCtrl :=
  {| rtt_array_ := rtt_array_ c; rtt_min_ := rtt_min_ c; rtt_ready_ := rtt_ready_ c;
     bw_array_ := a; bw_max_ := m; avg_bw_ := v; bw_ready_ := r;
     state_array_ := state_array_ c; state_ready_ := state_ready_ c; cwnd_gain_ := cwnd_gain_ c;
     congestion_state_ := congestion_state_ c;
     update_vencode_bitrate_task_ := update_vencode_bitrate_task_ c;
     srt_congestion_ctrl_task_ := srt_congestion_ctrl_task_ c |}.
Definition set_states (a : list Z) (r : bool) (c : SrtCongestionCtrl) : SrtCongestionCtrl :=
  {| rtt_array_ := rtt_array_ c; rtt_min_ := rtt_min_ c; rtt_ready_ := rtt_ready_ c;
     bw_array_ := bw_array_ c; bw_max_ := bw_max_ c; avg_bw_ := avg_bw_ c; bw_ready_ := bw_ready_ c;
     state_array_ := a; state_ready_ := r; cwnd_gain_ := cwnd_gain_ c;
     congestion_state_ := congestion_state_ c;
     update_vencode_bitrate_task_ := update_vencode_bitrate_task_ c;
     srt_congestion_ctrl_task_ := srt_congestion_ctrl_task_ c |}.
Definition set_congestion (st : Z) (t1 t2 : RunTask) (c : SrtCongestionCtrl) : SrtCongestionCtrl :=
  {| rtt_array_ := rtt_array_ c; rtt_min_ := rtt_min_ c; rtt_ready_ := rtt_ready_ c;
     bw_array_ := bw_array_ c; bw_max_ := bw_max_ c; avg_bw_ := avg_bw_ c; bw_ready_ := bw_ready_ c;
     state_array_ := state_array_ c; state_ready_ := state_ready_ c; cwnd_gain_ := cwnd_gain_ c;
     congestion_state_ := st; update_vencode_bitrate_task_ := t1; srt_congestion_ctrl_task_ := t2 |}.

(** ** Operations *)
Definition min_element (l : list Z) : Z := foldr Z.min (l !!! 0%nat) l.
Definition max_element (l : list Z) : Z := foldr Z.max (l !!! 0%nat) l.
(** [std::accumulate(first, last, 0)] over [uint64_t]: the accumulator is an
    [int]. *)
Definition accumulate_int (l : list Z) : Z := foldl (λ acc x, i32 (acc + x)) 0 l.
(** [std::accumulate(first, last, 0l)] *)
Definition accumulate_long (l : list Z) : option Z :=
  foldl (λ acc x, a ← acc; int64 (a + x)) (Some 0) l.

Definition updateRTT (rtt : Z) (c : SrtCongestionCtrl) : SrtCongestionCtrl :=
  let rtt := Z.max rtt RTT_MIN in
  let a := rtt_array_ c ++ [rtt] in
  if (RTT_LIST_MAX <=? length a)%nat then set_rtt [] (min_element a) true c
  else set_rtt a (rtt_min_ c) false c.

Definition updateMaxBW (maxbw : Z) (c : SrtCongestionCtrl) : option SrtCongestionCtrl :=
  let a := bw_array_ c ++ [maxbw] in
  if (BW_LIST_MAX <=? length a)%nat then
    let avg := u64 (accumulate_int a) / Z.of_nat (length a) in
    let m := max_element a in
    m ← to_uint64 (ddiv (dmul (of_int (u64 (m + avg))) d1_2) (of_int 2));
    Some (set_bw [] m avg true c)
  else Some (set_bw a (bw_max_ c) (avg_bw_ c) false c).

Definition srtBitrateGetState (inflight : Z) (c : SrtCongestionCtrl)
    : option (Z * SrtCongestionCtrl) :=
  let INCR := 1316 * 8 * 3 in
  let DECR := - 1316 * 8 * 6 in
  if negb (rtt_ready_ c) || negb (bw_ready_ c) then Some (STATE_KEEP, c) else
  let bdp := of_int (u64 (bw_max_ c * rtt_min_ c) / 1000) in
  inflight ← int32 (inflight * 8);
  current_state ← to_int64 (dsub (dmul (cwnd_gain_ c) bdp) (of_int inflight));
  let a := state_array_ c ++ [current_state] in
  if negb (STATE_LIST_MAX <=? length a)%nat then Some (STATE_KEEP, set_states a false c) else
  let c := set_states a true c in
  final_state ← accumulate_long a;
  Some (if INCR <? final_state then STATE_INCR
        else if final_state <? DECR - 1 then STATE_DECR else STATE_KEEP, c).

(** What the code reads of [SRT_TRACEBSTATS]. *)
Record perf := { pktFlightSize : Z; mbpsSendRate : spec_float; msRTT : spec_float }.

(** The function [congestionCtrl] runs; [None] as statistics is a result of
    [srt_bstats] other than 0. *)
Definition congestion_task (stats : option perf) (c : SrtCongestionCtrl) : option SrtCongestionCtrl :=
  match stats with
  | None => Some c
  | Some p =>
      i1 ← int32 (pktFlightSize p * 188);
      inflight ← int32 (i1 * 7);
      bw_bitrate ← to_int64 (dmul (dmul (mbpsSendRate p) (of_int 1000)) (of_int 1000));
      r ← to_int (msRTT p);
      let rtt := Z.max r RTT_MIN in
      let c := updateRTT rtt c in
      c ← updateMaxBW (u64 bw_bitrate) c;
      '(st, c) ← srtBitrateGetState inflight c;
      Some (set_congestion st (update_vencode_bitrate_task_ c) (srt_congestion_ctrl_task_ c) c)
  end.

Definition congestionCtrl (now : Z) (stats : option perf) (c : SrtCongestionCtrl)
    : option SrtCongestionCtrl :=
  let '(run, t) := doByTimeAndCount now now (srt_congestion_ctrl_task_ c) in
  let c := set_congestion (congestion_state_ c) (update_vencode_bitrate_task_ c) t c in
  if run then
    c ← congestion_task stats c;
    Some (set_congestion (congestion_state_ c) (update_vencode_bitrate_task_ c)
            (reset (srt_congestion_ctrl_task_ c)) c)
  else Some c.

(** The function [updateVideoEncodeBitate] runs: the new bitrate. *)
Definition bitrate_task (st current video : Z) : option Z :=
  if st =? STATE_INCR then
    if SFltb (of_int current) (dmul (of_int video) d1_3)
    then to_int64 (dmul (of_int current) d1_08) else Some current
  else if st =? STATE_DECR then
    if SFltb (dmul (of_int video) d0_4) (of_int current)
    then to_int64 (dmul (of_int current) d0_85) else Some current
  else Some current.

(** The value returned and [current_vencode_bitrate]. *)
Definition updateVideoEncodeBitate (now current video : Z) (c : SrtCongestionCtrl)
    : option (bool * Z * SrtCongestionCtrl) :=
  let '(run, t) := doByTimeAndCount now now (update_vencode_bitrate_task_ c) in
  if run then
    tmp ← bitrate_task (congestion_state_ c) current video;
    let c := set_congestion (congestion_state_ c) (reset t) (srt_congestion_ctrl_task_ c) c in
    if negb (tmp =? current) then Some (true, tmp, c) else Some (false, current, c)
  else
    Some (false, current, set_congestion (congestion_state_ c) t (srt_congestion_ctrl_task_ c) c).

(** [getSndBuffer]: from the results of [srt_getsndbuffer]. *)
Definition SRT_ERROR : Z := -1.
Definition getSndBuffer (st : Z) : bool := negb (st =? SRT_ERROR).

(** ** Facts: samples are taken in windows of six *)
Definition window (l : list Z) : list Z := drop (6 * (length l / 6)) l.
Definition last_window (l : list Z) : list Z := take 6 (drop (6 * (length l / 6 - 1)) l).

Lemma length_window l : length (window l) = (length l mod 6)%nat.
Proof. unfold window. rewrite length_drop. pose proof (Nat.div_mod_eq (length l) 6). lia. Qed.

Lemma window_snoc l x :
  (6 <=? length (window l ++ [x]))%nat = (S (length l) mod 6 =? 0)%nat ∧
  window (l ++ [x]) = (if (S (length l) mod 6 =? 0)%nat then [] else window l ++ [x]) ∧
  (S (length l) mod 6 = 0 → last_window (l ++ [x]) = window l ++ [x])%nat ∧
  (S (length l) mod 6 ≠ 0 → last_window (l ++ [x]) = if (length l <? 6)%nat then l ++ [x] else last_window l)%nat ∧
  (S (length l) / 6 = length l / 6 + (if S (length l) mod 6 =? 0 then 1 else 0))%nat.
Proof.
  rewrite length_app, length_window. cbn [length]. set (n := length l).
  pose proof (Nat.div_mod_eq n 6) as H1. pose proof (Nat.div_mod_eq (S n) 6) as H2.
  pose proof (Nat.mod_upper_bound n 6 ltac:(lia)). pose proof (Nat.mod_upper_bound (S n) 6 ltac:(lia)).
  assert (Hl : length (l ++ [x]) = S n) by (rewrite length_app; simpl; lia).
  destruct (Nat.eqb_spec (S n mod 6) 0) as [E|E].
  - assert (n mod 6 = 5 ∧ S n / 6 = n / 6 + 1)%nat as [E5 Ed] by lia.
    split; [apply Nat.leb_le; lia|]. unfold window, last_window. rewrite Hl, Ed. fold n.
    split; [apply drop_ge; len|]. split; [intros _|lia].
    replace (n / 6 + 1 - 1)%nat with (n / 6)%nat by lia.
    rewrite drop_app_le by len. apply take_ge. rewrite length_app, length_drop. simpl. lia.
  - assert (S n / 6 = n / 6)%nat as Ed by lia.
    split; [apply Nat.leb_gt; lia|]. unfold window, last_window. rewrite Hl, Ed. fold n.
    split; [by rewrite drop_app_le by len|]. split; [lia|]. split; [intros _|lia].
    destruct (Nat.ltb_spec n 6).
    + rewrite (Nat.div_small n 6), drop_0 by lia. apply take_ge. lia.
    + assert (1 <= n / 6)%nat by (apply Nat.div_le_lower_bound; lia).
      rewrite drop_app_le, take_app_le by len. done.
Qed.

(** What the controller holds after the samples [rs] of the round-trip time
    and [bs] of the bandwidth. *)
Record cc_inv (rs bs : list Z) (c : SrtCongestionCtrl) : Prop := {
  ci_len : length rs = length bs;
  ci_rtt : rtt_array_ c = window rs;
  ci_bw : bw_array_ c = window bs;
  ci_rtt_ready : rtt_ready_ c = (0 <? length rs)%nat && (length rs mod 6 =? 0)%nat;
  ci_bw_ready : bw_ready_ c = (0 <? length rs)%nat && (length rs mod 6 =? 0)%nat;
  ci_rtt_min : rtt_min_ c = if (length rs <? 6)%nat then RTT_INIT else min_element (last_window rs);
  ci_states : length (state_array_ c) = (length rs / 6)%nat;
}.

Lemma updateRTT_run rs bs rtt c :
  cc_inv rs bs c →
  let r := Z.max rtt RTT_MIN in
  let k := S (length rs) in
  ∃ m, updateRTT rtt c = set_rtt (window (rs ++ [r])) m (k mod 6 =? 0)%nat c ∧
    m = if (k <? 6)%nat then RTT_INIT else min_element (last_window (rs ++ [r])).
Proof.
  intros [] r k. destruct (window_snoc rs r) as (Hw & -> & Hlast & Hkeep & _). fold k in Hw, Hlast, Hkeep |- *.
  unfold updateRTT. rewrite ci_rtt0. change RTT_LIST_MAX with 6%nat. fold r. rewrite Hw.
  pose proof (Nat.mod_upper_bound k 6 ltac:(lia)).
  destruct (Nat.eqb_spec (k mod 6) 0) as [E|E]; (eexists; split; [done|]).
  - rewrite Hlast by done. destruct (Nat.ltb_spec k 6); [rewrite Nat.mod_small in E; lia|done].
  - rewrite Hkeep by done. rewrite ci_rtt_min0. subst k. destruct (Nat.ltb_spec (length rs) 6) as [Hlt|Hlt].
    + destruct (Nat.ltb_spec (S (length rs)) 6); [done|].
      assert (S (length rs) = 6)%nat as Heq by lia. by rewrite Heq in E.
    + by rewrite (proj2 (Nat.ltb_ge _ _)) by lia.
Qed.

Lemma updateMaxBW_run rs bs bw c c' :
  cc_inv rs bs c → updateMaxBW bw c = Some c' →
  ∃ m v, c' = set_bw (window (bs ++ [bw])) m v (S (length rs) mod 6 =? 0)%nat c.
Proof.
  intros [] Hrun. destruct (window_snoc bs bw) as (Hw & -> & _ & _ & _). rewrite <- ci_len0 in *.
  unfold updateMaxBW in Hrun. rewrite ci_bw0 in Hrun. change BW_LIST_MAX with 6%nat in Hrun.
  rewrite Hw in Hrun. destruct (S (length rs) mod 6 =? 0)%nat.
  2: { apply (inj Some) in Hrun as <-. by do 2 eexists. }
  destruct (to_uint64 _); [|done]. apply (inj Some) in Hrun as <-. by do 2 eexists.
Qed.

Lemma getState_run inflight c st c' :
  srtBitrateGetState inflight c = Some (st, c') →
  if rtt_ready_ c && bw_ready_ c then
    ∃ x r, c' = set_states (state_array_ c ++ [x]) r c ∧
      ((length (state_array_ c) < 5)%nat → st = STATE_KEEP)
  else c' = c ∧ st = STATE_KEEP.
Proof.
  unfold srtBitrateGetState. destruct (rtt_ready_ c), (bw_ready_ c); cbn [negb orb andb];
    try (by intros Hrun; simplify_eq).
  destruct (int32 _) as [i|]; [|done]. cbn [mbind option_bind].
  destruct (to_int64 _) as [x|]; [|done]. cbn [mbind option_bind]. change STATE_LIST_MAX with 6%nat.
  rewrite length_app. cbn [length]. destruct (Nat.leb_spec 6 (length (state_array_ c) + 1)); cbn [negb].
  - destruct (accumulate_long _); [|done]. cbn [mbind option_bind].
    intros Hrun. simplify_eq. do 2 eexists. split; [done|]. lia.
  - intros Hrun. simplify_eq. by do 2 eexists.
Qed.

Lemma congestion_task_run rs bs p c c' :
  cc_inv rs bs c → congestion_task (Some p) c = Some c' →
  ∃ r b, to_int (msRTT p) = Some r ∧ cc_inv (rs ++ [Z.max r RTT_MIN]) (bs ++ [b]) c' ∧
    let k := S (length rs) in
    ((k mod 6 ≠ 0 ∨ k < 36)%nat → congestion_state_ c' = STATE_KEEP).
Proof.
  intros Hinv. unfold congestion_task.
  destruct (int32 (pktFlightSize p * 188)) as [i1|]; [|done]. cbn [mbind option_bind].
  destruct (int32 (i1 * 7)) as [inflight|]; [|done]. cbn [mbind option_bind].
  destruct (to_int64 _) as [b|]; [|done]. cbn [mbind option_bind].
  destruct (to_int (msRTT p)) as [r|]; [|done]. cbn [mbind option_bind].
  destruct (updateRTT_run rs bs (Z.max r RTT_MIN) c Hinv) as (m & -> & Hm).
  rewrite (Z.max_l (Z.max r RTT_MIN)) in Hm |- * by lia.
  set (r' := Z.max r RTT_MIN) in *. set (c1 := set_rtt _ _ _ c).
  destruct (updateMaxBW (u64 b) c1) as [c2|] eqn:Hbw; [|done]. cbn [mbind option_bind].
  assert (Hbw' : ∃ m v, c2 = set_bw (window (bs ++ [u64 b])) m v (S (length rs) mod 6 =? 0)%nat c1).
  { assert (∃ c3, updateMaxBW (u64 b) c = Some c3 ∧ bw_array_ c3 = bw_array_ c2 ∧ bw_ready_ c3 = bw_ready_ c2 ∧
      c2 = set_bw (bw_array_ c2) (bw_max_ c2) (avg_bw_ c2) (bw_ready_ c2) c1) as (c3 & H3 & E1 & E2 & E3).
    { unfold updateMaxBW in Hbw |- *. change (bw_array_ c1) with (bw_array_ c) in Hbw.
      destruct (_ <=? _)%nat; [|simplify_eq; by eexists].
      destruct (to_uint64 _); [|done]. simpl in *. simplify_eq. by eexists. }
    destruct (updateMaxBW_run rs bs (u64 b) c c3 Hinv H3) as (m' & v & ->).
    simpl in E1, E2. rewrite E1, E2. eauto. }
  clear Hbw. destruct Hbw' as (m' & v & ->). set (c2 := set_bw _ _ _ _ c1).
  destruct (srtBitrateGetState inflight c2) as [[st c3]|] eqn:Hst; [|done]. cbn [mbind option_bind].
  intros Hrun. simplify_eq. apply getState_run in Hst.
  change (rtt_ready_ c2) with (S (length rs) mod 6 =? 0)%nat in Hst.
  change (bw_ready_ c2) with (S (length rs) mod 6 =? 0)%nat in Hst.
  change (state_array_ c2) with (state_array_ c) in Hst. rewrite andb_diag in Hst.
  exists r, (u64 b). split; [done|].
  destruct (window_snoc rs r') as (_ & _ & _ & _ & Hdiv).
  assert (Hl : length (rs ++ [r']) = S (length rs)) by (rewrite length_app; simpl; lia).
  assert (Hrest : ∀ st' t1 t2 a q, length a = (S (length rs) / 6)%nat →
    cc_inv (rs ++ [r']) (bs ++ [u64 b]) (set_congestion st' t1 t2 (set_states a q c2))).
  { intros st' t1 t2 a q Ha. destruct Hinv. split; rewrite ?Hl; simpl; try done.
    rewrite length_app, <- ci_len0. simpl. lia. }
  destruct (Nat.eqb_spec (S (length rs) mod 6) 0) as [E|E].
  - destruct Hst as (x & q & -> & Hkeep). split.
    + apply Hrest. rewrite length_app, (ci_states _ _ _ Hinv), Hdiv. simpl. lia.
    + intros [|Hk]; [done|]. apply Hkeep. rewrite (ci_states _ _ _ Hinv). rewrite Nat.add_comm in Hdiv.
      assert (S (length rs) / 6 < 6)%nat by (apply Nat.Div0.div_lt_upper_bound; lia). lia.
  - destruct Hst as (-> & ->). split; [|done].
    assert (c2 = set_states (state_array_ c) (state_ready_ c) c2) as Hc2 by done.
    rewrite Hc2. apply Hrest. rewrite (ci_states _ _ _ Hinv), Hdiv. lia.
Qed.

(** The samples of a list of statistics. *)
Fixpoint tasks (ps : list perf) (c : SrtCongestionCtrl) : option SrtCongestionCtrl :=
  match ps with
  | [] => Some c
  | p :: ps' => c ← congestion_task (Some p) c; tasks ps' c
  end.
Definition rtt_samples (ps : list perf) : list Z :=
  (λ p, Z.max (default 0 (to_int (msRTT p))) RTT_MIN) <$> ps.

Lemma cc_init_inv : cc_inv [] [] cc_init.
Proof. by split. Qed.

Lemma tasks_run ps c rs bs c' :
  cc_inv rs bs c → (length rs = 0%nat → congestion_state_ c = STATE_KEEP) →
  ((length rs mod 6 ≠ 0 ∨ length rs < 36)%nat → congestion_state_ c = STATE_KEEP) →
  tasks ps c = Some c' →
  ∃ bs', cc_inv (rs ++ rtt_samples ps) bs' c' ∧
    (((length rs + length ps) mod 6 ≠ 0 ∨ length rs + length ps < 36)%nat → congestion_state_ c' = STATE_KEEP).
Proof.
  revert c rs bs. induction ps as [|p ps IH]; intros c rs bs Hinv H0 Hk Hrun.
  - simpl in Hrun. simplify_eq. exists bs. rewrite app_nil_r, Nat.add_0_r. done.
  - cbn [tasks] in Hrun. destruct (congestion_task (Some p) c) as [c1|] eqn:Hc; [|done].
    cbn [mbind option_bind] in Hrun.
    destruct (congestion_task_run rs bs p c c1 Hinv Hc) as (r & b & Hr & Hinv1 & Hk1).
    assert (Hl : length (rs ++ [Z.max r RTT_MIN]) = S (length rs)) by (rewrite length_app; simpl; lia).
    destruct (IH c1 _ _ Hinv1) as (bs' & Hinv' & Hk'); rewrite ?Hl; try done.
    exists bs'. unfold rtt_samples in *. rewrite fmap_cons, Hr. cbn [default].
    rewrite <- app_assoc in Hinv'. split; [done|]. rewrite Hl in Hk'. simpl length.
    by rewrite <- Nat.add_succ_comm.
Qed.
