(* ===== verification/StdMap.v ===== *)
(** * [std::map] with integer keys

    A finite map; it is traversed in the order of its keys. *)
From stdpp Require Import sorting.
From S2P Require Import Prelude.
Open Scope Z_scope.

Definition key_le (a b : Z * Z) : Prop := a.1 <= b.1.
#[export] Instance key_le_dec : RelDecision key_le.
Proof. intros a b. unfold key_le. apply _. Defined.
Definition in_order (l : gmap Z Z) : list (Z * Z) := merge_sort key_le (map_to_list l).

Lemma in_order_perm l : in_order l ≡ₚ map_to_list l.
Proof. apply merge_sort_Permutation. Qed.

Lemma in_order_keys l : NoDup (in_order l).*1.
Proof. rewrite in_order_perm. apply NoDup_fst_map_to_list. Qed.

Lemma in_order_in l s c : (s, c) ∈ in_order l ↔ l !! s = Some c.
Proof. rewrite in_order_perm. apply elem_of_map_to_list. Qed.

Lemma in_order_dom l s : s ∈ (in_order l).*1 ↔ is_Some (l !! s).
Proof.
  rewrite list_elem_of_fmap. split.
  - intros ([s' c] & -> & H%in_order_in). eauto.
  - intros [c H]. exists (s, c). by rewrite in_order_in.
Qed.
