(* ===== verification/SrtNet.v ===== *)
(** * The SRT endpoint: src/srt_net/srt_net.{hpp,cpp}

    The methods are programs that call the SRT library, the resolver, the
    threads and the callbacks of the user; what these answer is an input.  A
    program is run on a list of answers and yields its result and the calls it
    made. *)
From S2P Require Import Prelude StdMap.
Open Scope Z_scope.

(** ** Programs *)
Inductive prog (E A : Type) :=
  | Ret (a : A)
  | Call (e : E) (k : Z → prog E A).
Arguments Ret {E A}. Arguments Call {E A}.

Fixpoint pbind {E A B} (p : prog E A) (f : A → prog E B) : prog E B :=
  match p with
  | Ret a => f a
  | Call e k => Call e (λ z, pbind (k z) f)
  end.
Definition call {E} (e : E) : prog E Z := Call e Ret.

Declare Scope prog_scope.
Delimit Scope prog_scope with prog.
Notation "x <- p ;; q" := (pbind p (λ x, q))
  (at level 100, p at next level, right associativity) : prog_scope.
Notation "p ;;; q" := (pbind p (λ _, q)) (at level 100, right associativity) : prog_scope.
Open Scope prog_scope.

(** The result and the calls with their answers; [None] when the answers run
    out. *)
Fixpoint run {E A} (p : prog E A) (answers : list Z) : option (A * list (E * Z)) :=
  match p with
  | Ret a => Some (a, [])
  | Call e k =>
      match answers with
      | [] => None
      | z :: answers' => '(a, tr) ← run (k z) answers'; Some (a, (e, z) :: tr)
      end
  end.

(** The same as a relation: [p] makes the calls of [tr] and returns [a]. *)
Definition does {E A} (p : prog E A) (tr : list (E * Z)) (a : A) : Prop :=
  run p tr.*2 = Some (a, tr).

(** ** The calls *)
Definition SRT_ERROR : Z := -1.
Definition AF_INET : Z := 2.
Definition AF_INET6 : Z := 10.

Inductive srt_opt :=
  | SRTO_RCVSYN | SRTO_SENDER | SRTO_LATENCY | SRTO_LOSSMAXTTL | SRTO_OHEADBW | SRTO_PAYLOADSIZE
  | SRTO_PBKEYLEN | SRTO_PASSPHRASE.
Inductive opt_val := VInt (z : Z) | VStr (s : bytes).
Inductive thread := Worker | Event.

Inductive net_call :=
  | inet_pton (family : Z) (str : bytes)
  | srt_create_socket
  | srt_setsockflag (sock : Z) (opt : srt_opt) (v : opt_val)
  | srt_bind (sock family : Z) (ip : bytes) (port : Z)
  | srt_listen (sock backlog : Z)
  | srt_connect (sock addr : Z)
  | srt_close (sock : Z)
  | srt_sendmsg2 (sock : Z) (data : bytes)
  | srt_bistats (sock clear instantaneous : Z)
  | getaddrinfo (host : bytes) (port : Z)
  | freeaddrinfo
  | clientDisconnected (ctx sock : Z)
  | start_thread (t : thread)
  | join_thread (t : thread).

(** ** The object *)
Inductive Mode := unknown | server | client.
#[export] Instance Mode_dec : EqDecision Mode.
Proof. solve_decision. Defined.

Record SRTNet := {
  server_active_ : bool;
  client_active_ : bool;
  context_ : Z;
  current_mode_ : Mode;
  client_list_ : gmap Z Z;
  client_context_ : option Z;
  connection_context_ : option Z;
  (** whether the callbacks are set *)
  has_clientConnected : bool;
  has_clientDisconnected : bool;
  (** whether the threads are joinable *)
  worker_joinable : bool;
  event_joinable : bool;
}.

Definition set_state (sa ca : bool) (c : Z) (m : Mode) (n : SRTNet) : SRTNet :=
  {| server_active_ := sa; client_active_ := ca; context_ := c; current_mode_ := m;
     client_list_ := client_list_ n; client_context_ := client_context_ n;
     connection_context_ := connection_context_ n; has_clientConnected := has_clientConnected n;
     has_clientDisconnected := has_clientDisconnected n; worker_joinable := worker_joinable n;
     event_joinable := event_joinable n |}.
Definition set_context (c : Z) (n : SRTNet) : SRTNet :=
  set_state (server_active_ n) (client_active_ n) c (current_mode_ n) n.
Definition set_clients (l : gmap Z Z) (n : SRTNet) : SRTNet :=
  {| server_active_ := server_active_ n; client_active_ := client_active_ n; context_ := context_ n;
     current_mode_ := current_mode_ n; client_list_ := l; client_context_ := client_context_ n;
     connection_context_ := connection_context_ n; has_clientConnected := has_clientConnected n;
     has_clientDisconnected := has_clientDisconnected n; worker_joinable := worker_joinable n;
     event_joinable := event_joinable n |}.
Definition set_contexts (cl cn : option Z) (n : SRTNet) : SRTNet :=
  {| server_active_ := server_active_ n; client_active_ := client_active_ n; context_ := context_ n;
     current_mode_ := current_mode_ n; client_list_ := client_list_ n; client_context_ := cl;
     connection_context_ := cn; has_clientConnected := has_clientConnected n;
     has_clientDisconnected := has_clientDisconnected n; worker_joinable := worker_joinable n;
     event_joinable := event_joinable n |}.
Definition set_threads (w e : bool) (n : SRTNet) : SRTNet :=
  {| server_active_ := server_active_ n; client_active_ := client_active_ n; context_ := context_ n;
     current_mode_ := current_mode_ n; client_list_ := client_list_ n;
     client_context_ := client_context_ n; connection_context_ := connection_context_ n;
     has_clientConnected := has_clientConnected n;
     has_clientDisconnected := has_clientDisconnected n; worker_joinable := w; event_joinable := e |}.

Abbreviation M A := (prog net_call A).

(** ** Methods *)

Fixpoint close_each (notify : bool) (l : list (Z * Z)) : M unit :=
  match l with
  | [] => Ret tt
  | (socket, ctx) :: l' =>
      call (srt_close socket) ;;;
      (if notify then call (clientDisconnected ctx socket) ;;; Ret tt else Ret tt) ;;;
      close_each notify l'
  end.
Definition closeAllClientSockets (n : SRTNet) : M SRTNet :=
  close_each (has_clientDisconnected n) (in_order (client_list_ n)) ;;;
  Ret (set_clients ∅ n).

Definition isIPv4 (str : bytes) : M bool := r <- call (inet_pton AF_INET str) ;; Ret (negb (r =? 0)).
Definition isIPv6 (str : bytes) : M bool := r <- call (inet_pton AF_INET6 str) ;; Ret (negb (r =? 0)).

(** [result = srt_setsockflag(...); if (result == SRT_ERROR) return false;]
    for each option in turn. *)
Fixpoint set_options (sock : Z) (opts : list (srt_opt * opt_val)) : M bool :=
  match opts with
  | [] => Ret true
  | (o, v) :: opts' =>
      result <- call (srt_setsockflag sock o v) ;;
      if result =? SRT_ERROR then Ret false else set_options sock opts'
  end.

Definition psk_options (psk : bytes) : list (srt_opt * opt_val) :=
  match psk with [] => [] | _ => [(SRTO_PBKEYLEN, VInt 16); (SRTO_PASSPHRASE, VStr psk)] end.
Definition server_options (reorder latency overhead mtu : Z) (psk : bytes) : list (srt_opt * opt_val) :=
  [(SRTO_RCVSYN, VInt 1); (SRTO_LATENCY, VInt latency); (SRTO_LOSSMAXTTL, VInt reorder);
   (SRTO_OHEADBW, VInt overhead); (SRTO_PAYLOADSIZE, VInt mtu)] ++ psk_options psk.
Definition client_options (reorder latency overhead mtu : Z) (psk : bytes) : list (srt_opt * opt_val) :=
  [(SRTO_SENDER, VInt 1); (SRTO_LATENCY, VInt latency); (SRTO_LOSSMAXTTL, VInt reorder);
   (SRTO_OHEADBW, VInt overhead); (SRTO_PAYLOADSIZE, VInt mtu)] ++ psk_options psk.

(** The address family of the IP; an invalid IP is taken for IPv4. *)
Definition ip_type (ip : bytes) : M Z :=
  v4 <- isIPv4 ip ;;
  if (v4 : bool) then Ret AF_INET else
  v6 <- isIPv6 ip ;;
  Ret (if (v6 : bool) then AF_INET6 else AF_INET).

(** [srt_close(context_); return false;] *)
Definition close_and_fail (n : SRTNet) : M (bool * SRTNet) :=
  call (srt_close (context_ n)) ;;; Ret (false, n).

Definition startServer (ip : bytes) (port reorder latency overhead mtu : Z) (psk : bytes)
    (ctx : option Z) (n : SRTNet) : M (bool * SRTNet) :=
  ipType <- ip_type ip ;;
  if negb (bool_decide (current_mode_ n = unknown)) then Ret (false, n) else
  if negb (has_clientConnected n) then Ret (false, n) else
  let n := set_contexts (client_context_ n) ctx n in
  s <- call srt_create_socket ;;
  let n := set_context s n in
  if s =? SRT_ERROR then Ret (false, n) else
  r <- call (inet_pton ipType ip) ;;
  if negb (r =? 1) then close_and_fail n else
  ok <- set_options s (server_options reorder latency overhead mtu psk) ;;
  if negb ok then Ret (false, n) else
  result <- call (srt_bind s ipType ip port) ;;
  if result =? SRT_ERROR then close_and_fail n else
  result <- call (srt_listen s 2) ;;
  if result =? SRT_ERROR then close_and_fail n else
  call (start_thread Worker) ;;;
  Ret (true, set_threads true (event_joinable n) (set_state true (client_active_ n) s server n)).

(** The addresses tried in turn: the last result of [srt_connect], 0 when
    there is no address. *)
Fixpoint connect_first (sock : Z) (addrs : list Z) (result : Z) : M Z :=
  match addrs with
  | [] => Ret result
  | a :: addrs' =>
      result <- call (srt_connect sock a) ;;
      if negb (result =? SRT_ERROR) then Ret result else connect_first sock addrs' result
  end.

(** [addrs]: the list [getaddrinfo] returns. *)
Definition startClient (host : bytes) (port reorder latency overhead : Z) (ctx : option Z) (mtu : Z)
    (psk : bytes) (addrs : list Z) (n : SRTNet) : M (bool * SRTNet) :=
  if negb (bool_decide (current_mode_ n = unknown)) then Ret (false, n) else
  let n := set_contexts ctx (connection_context_ n) n in
  s <- call srt_create_socket ;;
  let n := set_context s n in
  if s =? SRT_ERROR then Ret (false, n) else
  ok <- set_options s (client_options reorder latency overhead mtu psk) ;;
  if negb ok then Ret (false, n) else
  result <- call (getaddrinfo host port) ;;
  if negb (result =? 0) then Ret (false, n) else
  result <- connect_first s addrs result ;;
  if result =? SRT_ERROR then
    call (srt_close s) ;;; call freeaddrinfo ;;; Ret (false, n)
  else
    call freeaddrinfo ;;;
    call (start_thread Worker) ;;;
    Ret (true, set_threads true (event_joinable n) (set_state (server_active_ n) true s client n)).

Definition getConnectedServer (n : SRTNet) : Z * option Z :=
  if bool_decide (current_mode_ n = client) then (context_ n, client_context_ n) else (0, None).

Definition sendData (data : bytes) (targetSystem : Z) (n : SRTNet) : M bool :=
  let send sock :=
    result <- call (srt_sendmsg2 sock data) ;;
    if result =? SRT_ERROR then Ret false
    else Ret (u64 result =? Z.of_nat (length data)) in
  if bool_decide (current_mode_ n = client) && negb (context_ n =? 0) && client_active_ n
  then send (context_ n)
  else if bool_decide (current_mode_ n = server) && negb (targetSystem =? 0) && server_active_ n
  then send targetSystem
  else Ret false.

Definition join (t : thread) (joinable : bool) : M unit :=
  if joinable then call (join_thread t) ;;; Ret tt else Ret tt.

(** [if (context_) { result = srt_close(context_); ... }]: whether to go on. *)
Definition close_context (n : SRTNet) : M bool :=
  if negb (context_ n =? 0) then
    result <- call (srt_close (context_ n)) ;; Ret (negb (result =? SRT_ERROR))
  else Ret true.

Definition stop (n : SRTNet) : M (bool * SRTNet) :=
  match current_mode_ n with
  | server =>
      let n := set_state false (client_active_ n) (context_ n) server n in
      ok <- close_context n ;;
      if negb ok then Ret (false, n) else
      n <- closeAllClientSockets n ;;
      join Worker (worker_joinable n) ;;;
      join Event (event_joinable n) ;;;
      Ret (true, set_threads false false
                   (set_state (server_active_ n) (client_active_ n) (context_ n) unknown n))
  | client =>
      let n := set_state (server_active_ n) false (context_ n) client n in
      ok <- close_context n ;;
      if negb ok then Ret (false, n) else
      join Worker (worker_joinable n) ;;;
      Ret (true, set_threads false (event_joinable n)
                   (set_state (server_active_ n) (client_active_ n) (context_ n) unknown n))
  | unknown => Ret (true, n)
  end.

Definition getStatistics (clear instantaneous targetSystem : Z) (n : SRTNet) : M bool :=
  let stats sock :=
    result <- call (srt_bistats sock clear instantaneous) ;; Ret (negb (result =? SRT_ERROR)) in
  if bool_decide (current_mode_ n = client) && client_active_ n && negb (context_ n =? 0)
  then stats (context_ n)
  else if bool_decide (current_mode_ n = server) && server_active_ n && negb (targetSystem =? 0)
  then stats targetSystem
  else Ret false.

(** ** The calls of a program *)
Lemma does_ret {E A} (a : A) tr b : does (E := E) (Ret a) tr b ↔ tr = [] ∧ a = b.
Proof.
  unfold does. split.
  - intros H. destruct tr; by simplify_eq/=.
  - by intros [-> ->].
Qed.

Lemma does_call {E A} (e : E) (k : Z → prog E A) tr b :
  does (Call e k) tr b ↔ ∃ z tr', tr = (e, z) :: tr' ∧ does (k z) tr' b.
Proof.
  unfold does. split.
  - destruct tr as [|[e' z] tr]; [done|]. simpl. intros H.
    change (list_fmap _ _ snd tr) with tr.*2 in H.
    destruct (run (k z) tr.*2) as [[a t]|] eqn:Hr; simplify_eq/=. eauto.
  - intros (z & tr' & -> & H). simpl. change (list_fmap _ _ snd tr') with tr'.*2. by rewrite H.
Qed.

Lemma does_bind {E A B} (p : prog E A) (f : A → prog E B) tr b :
  does (pbind p f) tr b ↔ ∃ tr1 a tr2, tr = tr1 ++ tr2 ∧ does p tr1 a ∧ does (f a) tr2 b.
Proof.
  revert tr. induction p as [a|e k IH]; intros tr; simpl.
  - split.
    + intros H. exists [], a, tr. by rewrite does_ret.
    + intros (? & ? & ? & -> & [-> ->]%does_ret & H). done.
  - rewrite does_call. split.
    + intros (z & tr' & -> & (tr1 & a & tr2 & -> & H1 & H2)%IH).
      exists ((e, z) :: tr1), a, tr2. rewrite does_call. naive_solver.
    + intros (? & a & tr2 & -> & (z & tr1 & -> & H1)%does_call & H2).
      exists z, (tr1 ++ tr2). rewrite IH. naive_solver.
Qed.

Lemma does_one {E} (e : E) tr (z : Z) : does (call e) tr z ↔ tr = [(e, z)].
Proof.
  unfold call. rewrite does_call. setoid_rewrite does_ret. naive_solver.
Qed.

(** Reads the calls off a hypothesis on a program. *)
Ltac calls :=
  repeat match goal with
  | H : does (Ret _) _ _ |- _ => apply does_ret in H as [? ?]
  | H : does (call _) _ _ |- _ => apply does_one in H
  | H : does (Call _ _) _ _ |- _ => apply does_call in H as (? & ? & ? & H)
  | H : does (pbind _ _) _ _ |- _ => apply does_bind in H as (? & ? & ? & ? & ? & H)
  | H : does (if ?b then _ else _) _ _ |- _ => destruct b eqn:?
  | H : does (close_and_fail _) _ _ |- _ => unfold close_and_fail in H
  end; simplify_list_eq.

Lemma ip_type_calls ip tr t :
  does (ip_type ip) tr t →
  (t = AF_INET ∨ t = AF_INET6) ∧
  Forall (λ c, c.1 = inet_pton AF_INET ip ∨ c.1 = inet_pton AF_INET6 ip) tr.
Proof.
  unfold ip_type, isIPv4, isIPv6. intros H. calls; (split; [repeat case_match; eauto | rewrite ?Forall_cons, ?Forall_nil; naive_solver]).
Qed.

Definition option_call (sock : Z) (o : srt_opt * opt_val) : net_call := srt_setsockflag sock o.1 o.2.

(** All the options are set, or the last call is the one that failed. *)
Lemma set_options_calls sock opts tr ok :
  does (set_options sock opts) tr ok →
  if ok then tr.*1 = option_call sock <$> opts ∧ Forall (λ c, c.2 ≠ SRT_ERROR) tr
  else ∃ pre o post, opts = pre ++ o :: post ∧
       tr.*1 = option_call sock <$> (pre ++ [o]) ∧ last tr = Some (option_call sock o, SRT_ERROR).
Proof.
  revert tr ok. induction opts as [|[o v] opts IH]; intros tr ok H; simpl in H; calls.
  - done.
  - apply Z.eqb_eq in Heqb as ->. by exists [], (o, v), opts.
  - match goal with H : does (set_options _ _) _ _ |- _ => apply IH in H end.
    apply Z.eqb_neq in Heqb. destruct ok.
    + destruct_and?. simpl. split; [by f_equal | by constructor].
    + destruct H as (pre & o' & post & -> & Htr & Hl). exists ((o, v) :: pre), o', post.
      split; [done|]. split; [simpl; by rewrite Htr|].
      rewrite last_cons, Hl. done.
Qed.

Arguments set_options : simpl never.
Arguments server_options : simpl never.
Arguments client_options : simpl never.

Ltac flags :=
  rewrite ?negb_true_iff, ?negb_false_iff, ?Z.eqb_eq, ?Z.eqb_neq, ?bool_decide_eq_true,
    ?bool_decide_eq_false in *.

(** ** Starting *)
Definition is_probe (ip : bytes) (c : net_call * Z) : Prop :=
  c.1 = inet_pton AF_INET ip ∨ c.1 = inet_pton AF_INET6 ip.

(** The socket a run leaves open: created, and neither closed nor kept. *)
Definition leaks (s : Z) (tr : list (net_call * Z)) : Prop :=
  (srt_create_socket, s) ∈ tr ∧ s ≠ SRT_ERROR ∧ srt_close s ∉ tr.*1.

(** Every call of [tr] satisfies [P]. *)
Definition only (P : net_call → Prop) (tr : list (net_call * Z)) : Prop := Forall (λ c, P c.1) tr.

Lemma only_app P tr1 tr2 : only P (tr1 ++ tr2) ↔ only P tr1 ∧ only P tr2.
Proof. unfold only. by rewrite Forall_app. Qed.
Lemma only_cons P c z tr : only P ((c, z) :: tr) ↔ P c ∧ only P tr.
Proof. unfold only. by rewrite Forall_cons. Qed.
Lemma only_nil P : only P [] ↔ True.
Proof. unfold only. by rewrite Forall_nil. Qed.
Lemma only_mono P Q tr : only P tr → (∀ c, P c → Q c) → only Q tr.
Proof. intros H HPQ. eapply Forall_impl; [exact H|]. intros [??]. apply HPQ. Qed.
Lemma only_in P tr c : only P tr → c ∈ tr.*1 → P c.
Proof.
  intros H ([c' z] & -> & Hin)%list_elem_of_fmap. unfold only in H. rewrite Forall_forall in H.
  by apply (H (c', z)).
Qed.

Lemma probe_only ip tr (P : net_call → Prop) :
  Forall (is_probe ip) tr → (∀ f, P (inet_pton f ip)) → only P tr.
Proof.
  intros H HP. eapply Forall_impl; [exact H|]. intros [c z] [Hc|Hc]; simpl in *; subst; apply HP.
Qed.
Lemma set_options_only sock opts tr ok (P : net_call → Prop) :
  does (set_options sock opts) tr ok → (∀ o v, P (srt_setsockflag sock o v)) → only P tr.
Proof.
  intros H HP.
  assert (∃ os, tr.*1 = option_call sock <$> os) as [os Hos].
  { apply set_options_calls in H. destruct ok; [naive_solver|]. destruct H as (? & ? & ? & ? & ? & ?). eauto. }
  apply Forall_forall. intros [c z] Hin. simpl.
  assert (c ∈ option_call sock <$> os) as ([o v] & -> & _)%list_elem_of_fmap.
  { rewrite <- Hos. apply list_elem_of_fmap. by exists (c, z). }
  apply HP.
Qed.

Definition not_create (c : net_call) : Prop := c ≠ srt_create_socket.

Lemma leaks_none s tr : only not_create tr → ¬ leaks s tr.
Proof.
  intros H (Hin & _). apply (only_in _ _ srt_create_socket H); [|done].
  apply list_elem_of_fmap. by exists (srt_create_socket, s).
Qed.

Lemma leaks_one s pre x post :
  only not_create pre → only not_create post →
  leaks s (pre ++ (srt_create_socket, x) :: post) →
  s = x ∧ x ≠ SRT_ERROR ∧ srt_close x ∉ post.*1.
Proof.
  intros Hpre Hpost (Hin & Hs & Hc).
  assert (∀ l, only not_create l → (srt_create_socket, s) ∉ l) as Hno.
  { intros l Hl Hl'. apply (only_in _ _ srt_create_socket Hl); [|done].
    apply list_elem_of_fmap. by exists (srt_create_socket, s). }
  apply elem_of_app in Hin as [Hin|[Hin|Hin]%elem_of_cons]; [by apply Hno in Hin| |by apply Hno in Hin].
  simplify_eq. repeat split; [done|]. intros Hin. apply Hc.
  rewrite fmap_app. apply elem_of_app. right. by apply elem_of_cons; right.
Qed.

Lemma last_app_some {A} (l1 l2 : list A) x : last l2 = Some x → last (l1 ++ l2) = Some x.
Proof. intros H. by rewrite last_app, H. Qed.

(** A call is in a concrete trace. *)
Ltac in_calls :=
  repeat (rewrite fmap_cons || rewrite fmap_app || rewrite fmap_nil); cbn [fst];
  repeat (rewrite elem_of_cons || rewrite elem_of_app); tauto.

(** [only P] of a concrete trace. *)
Ltac only_tac :=
  repeat (rewrite only_app || rewrite only_cons || rewrite only_nil);
  repeat split; try done; try (by eapply probe_only); try (by eapply set_options_only).

Lemma server_started ip port reorder latency overhead mtu psk ctx n tr n' :
  does (startServer ip port reorder latency overhead mtu psk ctx n) tr (true, n') →
  current_mode_ n = unknown ∧ has_clientConnected n = true ∧
  current_mode_ n' = server ∧ server_active_ n' = true ∧ worker_joinable n' = true ∧
  client_list_ n' = client_list_ n ∧ connection_context_ n' = ctx ∧
  context_ n' ≠ SRT_ERROR ∧
  ∃ probe t, Forall (is_probe ip) probe ∧ (t = AF_INET ∨ t = AF_INET6) ∧
    tr.*1 = probe.*1 ++ [srt_create_socket; inet_pton t ip] ++
            (option_call (context_ n') <$> server_options reorder latency overhead mtu psk) ++
            [srt_bind (context_ n') t ip port; srt_listen (context_ n') 2; start_thread Worker].
Proof.
  unfold startServer. intros H.
  apply does_bind in H as (probe & t & tr2 & -> & [Ht Hp]%ip_type_calls & H).
  calls. flags. subst.
  match goal with Ho : does (set_options _ _) ?o true |- _ =>
    apply set_options_calls in Ho as [Hopts _] end.
  simpl. repeat split; try done.
  exists probe, t. repeat split; [exact Hp | exact Ht |].
  simpl. rewrite ?fmap_app; simpl. by rewrite ?fmap_app, Hopts.
Qed.

Lemma server_refused ip port reorder latency overhead mtu psk ctx n tr n' :
  does (startServer ip port reorder latency overhead mtu psk ctx n) tr (false, n') →
  current_mode_ n' = current_mode_ n ∧ server_active_ n' = server_active_ n ∧
  only (λ c, ∀ t, c ≠ start_thread t) tr ∧
  (current_mode_ n ≠ unknown ∨ has_clientConnected n = false → Forall (is_probe ip) tr ∧ n' = n) ∧
  (∀ s, leaks s tr → ∃ o, last tr = Some (option_call s o, SRT_ERROR)).
Proof.
  unfold startServer. intros H.
  apply does_bind in H as (probe & t & tr2 & -> & [Ht Hp]%ip_type_calls & H).
  calls; flags; subst; simpl.
  all: split; [done|]; split; [done|]; split; [only_tac|]; split; [intros [Hm|Hm]; done || congruence|].
  all: intros s Hs.
  1,2: by apply leaks_none in Hs; [|only_tac].
  all: apply leaks_one in Hs as (-> & ? & Hc); [|only_tac|only_tac].
  1: done.
  2: match goal with Ho : does (set_options _ _) _ _ |- _ =>
       apply set_options_calls in Ho as (? & o & ? & ? & ? & Hl);
       exists o; apply last_app_some; by rewrite !last_cons, Hl end.
  all: destruct Hc; in_calls.
Qed.

(** The addresses are tried in order up to the first that answers. *)
Lemma connect_first_calls sock addrs r0 tr r :
  does (connect_first sock addrs r0) tr r →
  if r =? SRT_ERROR then tr = (λ a, (srt_connect sock a, SRT_ERROR)) <$> addrs ∧ (addrs = [] → r0 = r)
  else (addrs = [] ∧ r0 = r ∧ tr = []) ∨
       ∃ pre a post, addrs = pre ++ a :: post ∧
         tr = ((λ a, (srt_connect sock a, SRT_ERROR)) <$> pre) ++ [(srt_connect sock a, r)].
Proof.
  revert r0 tr. induction addrs as [|a addrs IH]; intros r0 tr H; simpl in H.
  { apply does_ret in H as [-> ->]. case_match; eauto. }
  apply does_call in H as (z & tr' & -> & H). simpl in H.
  destruct (negb (z =? SRT_ERROR)) eqn:Hz.
  - apply does_ret in H as [-> ->]. apply negb_true_iff in Hz. rewrite Hz.
    right. by exists [], a, addrs.
  - apply negb_false_iff, Z.eqb_eq in Hz as ->. apply IH in H.
    destruct (r =? SRT_ERROR) eqn:Hr.
    + destruct H as [-> _]. done.
    + apply Z.eqb_neq in Hr. destruct H as [(-> & <- & ->)|(pre & a' & post & -> & ->)]; [done|].
      right. by exists (a :: pre), a', post.
Qed.

Lemma connect_first_only sock addrs r0 tr r (P : net_call → Prop) :
  does (connect_first sock addrs r0) tr r → (∀ a, P (srt_connect sock a)) → only P tr.
Proof.
  intros H HP.
  assert (∀ l, only P ((λ a, (srt_connect sock a, SRT_ERROR)) <$> l)) as Hl.
  { intros l. apply Forall_forall. intros ? (a & -> & _)%list_elem_of_fmap. apply HP. }
  apply connect_first_calls in H. case_match; destruct_and?; subst; [done|].
  destruct H as [(? & ? & ->)|(? & ? & ? & ? & ->)]; [by rewrite only_nil|].
  rewrite only_app, only_cons, only_nil. auto.
Qed.
Arguments connect_first : simpl never.

Lemma client_started host port reorder latency overhead ctx mtu psk addrs n tr n' :
  does (startClient host port reorder latency overhead ctx mtu psk addrs n) tr (true, n') →
  current_mode_ n = unknown ∧ current_mode_ n' = client ∧ client_active_ n' = true ∧
  worker_joinable n' = true ∧ client_context_ n' = ctx ∧ context_ n' ≠ SRT_ERROR ∧
  (addrs ≠ [] → ∃ pre a post, addrs = pre ++ a :: post ∧
    tr.*1 = [srt_create_socket] ++
            (option_call (context_ n') <$> client_options reorder latency overhead mtu psk) ++
            [getaddrinfo host port] ++ (srt_connect (context_ n') <$> (pre ++ [a])) ++
            [freeaddrinfo; start_thread Worker]).
Proof.
  unfold startClient. intros H. calls. flags. subst. simpl. repeat split; try done.
  intros Ha.
  match goal with Ho : does (set_options _ _) ?o true |- _ =>
    apply set_options_calls in Ho as [Hopts _] end.
  match goal with Ho : does (connect_first _ _ _) _ _ |- _ => apply connect_first_calls in Ho; rename Ho into Hc end.
  destruct (_ =? SRT_ERROR) eqn:Hr in Hc; [by apply Z.eqb_eq in Hr|].
  destruct Hc as [(? & _ & _)|(pre & a & post & -> & ->)]; [done|].
  exists pre, a, post. split; [done|].
  repeat (rewrite fmap_cons || rewrite fmap_app || rewrite fmap_nil || rewrite Hopts).
  rewrite <- list_fmap_compose, <- !app_assoc. done.
Qed.

Lemma client_refused host port reorder latency overhead ctx mtu psk addrs n tr n' :
  does (startClient host port reorder latency overhead ctx mtu psk addrs n) tr (false, n') →
  current_mode_ n' = current_mode_ n ∧ client_active_ n' = client_active_ n ∧
  only (λ c, ∀ t, c ≠ start_thread t) tr ∧
  (current_mode_ n ≠ unknown → tr = [] ∧ n' = n) ∧
  (∀ s, leaks s tr → (∃ o, last tr = Some (option_call s o, SRT_ERROR)) ∨
                     ∃ r, r ≠ 0 ∧ last tr = Some (getaddrinfo host port, r)).
Proof.
  unfold startClient. intros H. calls; flags; subst; simpl.
  all: repeat match goal with Ho : does (connect_first ?s ?l ?r) ?o ?v |- _ =>
    pose proof (connect_first_only s l r o v not_create Ho ltac:(done));
    pose proof (connect_first_only s l r o v (λ c, ∀ t, c ≠ start_thread t) Ho ltac:(done)); clear Ho end.
  all: split; [done|]; split; [done|]; split; [only_tac|]; split; [done || (intros; congruence)|].
  all: intros s Hs.
  1: by apply leaks_none in Hs; [|only_tac].
  all: apply (leaks_one _ []) in Hs as (-> & ? & Hc); [|only_tac|only_tac].
  1: done.
  1: match goal with Ho : does (set_options _ _) _ _ |- _ =>
       apply set_options_calls in Ho as (? & o & ? & ? & ? & Hl);
       left; exists o; by rewrite !last_cons, Hl end.
  1: right; eexists; split; [eassumption|]; by rewrite last_cons, last_snoc.
  destruct Hc; in_calls.
Qed.

(** ** Stopping *)
Definition notices (notify : bool) (l : list (Z * Z)) : list net_call :=
  mjoin ((λ c, srt_close c.1 :: if notify then [clientDisconnected c.2 c.1] else []) <$> l).

Lemma close_each_calls notify l tr u : does (close_each notify l) tr u → tr.*1 = notices notify l.
Proof.
  revert tr. induction l as [|[s c] l IH]; intros tr H; simpl in H; [by calls|].
  unfold notices. destruct notify; calls; simpl.
  all: by match goal with H : does (close_each _ _) _ _ |- _ => apply IH in H as -> end.
Qed.

(** Every client is in the list of the notices once. *)

Lemma closeAll_calls n tr n' :
  does (closeAllClientSockets n) tr n' →
  n' = set_clients ∅ n ∧ tr.*1 = notices (has_clientDisconnected n) (in_order (client_list_ n)).
Proof.
  unfold closeAllClientSockets. intros H. calls. split; [done|].
  by eapply close_each_calls.
Qed.

Definition joins (t : thread) (joinable : bool) : list net_call :=
  if joinable then [join_thread t] else [].

Lemma join_calls t j tr u : does (join t j) tr u → tr.*1 = joins t j.
Proof. unfold join, joins. intros H. calls; done. Qed.

Definition close_calls (n : SRTNet) : list net_call :=
  if context_ n =? 0 then [] else [srt_close (context_ n)].

Lemma close_context_calls n tr ok :
  does (close_context n) tr ok →
  tr.*1 = close_calls n ∧ (ok = false ↔ last tr = Some (srt_close (context_ n), SRT_ERROR)).
Proof.
  unfold close_context, close_calls. destruct (context_ n =? 0); intros H; simpl in H; calls.
  - done.
  - split; [done|]. destruct (_ =? SRT_ERROR) eqn:Hx; simpl; flags; naive_solver.
Qed.

Lemma server_stopped n tr n' :
  current_mode_ n = server →
  does (stop n) tr (true, n') →
  current_mode_ n' = unknown ∧ server_active_ n' = false ∧ client_list_ n' = ∅ ∧
  worker_joinable n' = false ∧ event_joinable n' = false ∧
  tr.*1 = close_calls n ++ notices (has_clientDisconnected n) (in_order (client_list_ n)) ++
          joins Worker (worker_joinable n) ++ joins Event (event_joinable n).
Proof.
  unfold stop. intros -> H. calls.
  repeat match goal with
  | H : does (close_context _) _ _ |- _ => apply close_context_calls in H as [? _]
  | H : does (closeAllClientSockets _) _ _ |- _ => apply closeAll_calls in H as [-> ?]
  | H : does (join _ _) _ _ |- _ => apply join_calls in H
  end.
  rewrite ?fmap_app, ?fmap_nil. repeat split; try done.
  by repeat match goal with H : _.*1 = _ |- _ => rewrite H; clear H end.
Qed.

Lemma stop_refused n tr n' :
  does (stop n) tr (false, n') →
  current_mode_ n ≠ unknown ∧ current_mode_ n' = current_mode_ n ∧ client_list_ n' = client_list_ n ∧
  tr = [(srt_close (context_ n), SRT_ERROR)].
Proof.
  unfold stop. destruct (current_mode_ n) eqn:Hm; intros H; calls.
  all: match goal with H : does (close_context _) _ _ |- _ => unfold close_context in H end.
  all: simpl in *; calls; flags; subst; done.
Qed.

(** ** Sending *)
Lemma sendData_calls data target n tr ok :
  does (sendData data target n) tr ok →
  let sock := match current_mode_ n with
              | client => if negb (context_ n =? 0) && client_active_ n then Some (context_ n) else None
              | server => if negb (target =? 0) && server_active_ n then Some target else None
              | unknown => None end in
  match sock with
  | Some s => ∃ r, tr = [(srt_sendmsg2 s data, r)] ∧
                   (ok = true ↔ r ≠ SRT_ERROR ∧ u64 r = Z.of_nat (length data))
  | None => tr = [] ∧ ok = false
  end.
Proof.
  unfold sendData. destruct (current_mode_ n) eqn:Hm; simpl; intros H; [by calls|..].
  all: repeat case_match; calls; flags; eauto 10; try (eexists; split; [done|]; rewrite ?Z.eqb_eq; naive_solver).
Qed.
