(* ===== verification/SrtNetThreads.v ===== *)
(** * The threads of the SRT server: src/srt_net/srt_net.cpp

    The worker ([waitForSRTClient]), the event thread ([serverEventHandler])
    and the thread that calls [stop] share [client_list_] and
    [server_active_].  Each critical section of [client_list_mtx_] is one
    step, and so is each read of the atomic flag and each call that blocks.
    What the SRT library answers is free.  The sockets [srt_epoll_uwait] reports
    are, because its result can exceed the 5 entries it was given and the code
    then reads an entry that was not written; so is the number of the socket
    that [srt_accept] answers: that it gives no number twice is a hypothesis of
    what needs it ([log_once]). *)
From S2P Require Import Prelude StdMap SrtNet.
From stdpp Require Import relations.
Open Scope Z_scope.

(** The values the threads can be at. *)
Inductive worker_pc :=
  | WStart                        (** before the event thread is started *)
  | WClear                        (** before [closeAllClientSockets()] *)
  | WLoop                         (** at the test of [server_active_] *)
  | WAccept                       (** in [srt_accept] *)
  | WInsert (sock ctx : Z)        (** [clientConnected] answered a context *)
  | WDone.
Inductive event_pc :=
  | ENone                         (** not started *)
  | ELoop                         (** at the test of [server_active_] *)
  | EWait                         (** in [srt_epoll_uwait] *)
  | ERun (ready : list Z)         (** the sockets left to read *)
  | EGot (sock result : Z) (ready : list Z)  (** [srt_recvmsg2] answered *)
  | EDone.
Inductive stop_pc :=
  | SIdle | SClosing | SClear | SJoinWorker | SJoinEvent | SDone.

(** What the user and the library see. *)
Inductive occurrence :=
  | Connected (sock ctx : Z)        (** [clientConnected] kept the client *)
  | Refused (sock : Z)              (** it did not: [close(sock)] *)
  | Disconnected (sock ctx : Z)     (** [srt_close] and [clientDisconnected] *)
  | Received (sock : Z) (ctx : option Z).
                                    (** [receivedData] with [iterator->second];
                                        [None] when the iterator is at [end()] *)
#[export] Instance worker_pc_eq_dec : EqDecision worker_pc.
Proof. solve_decision. Defined.
#[export] Instance occurrence_eq_dec : EqDecision occurrence.
Proof. solve_decision. Defined.

Record server_st := {
  active : bool;
  clients : gmap Z Z;
  worker : worker_pc;
  event : event_pc;
  stopper : stop_pc;
  (** what happened, the last first *)
  log : list occurrence;
}.

(** The server as [startServer] leaves it (lines 172-174). *)
Definition started : server_st :=
  {| active := true; clients := ∅; worker := WStart; event := ENone; stopper := SIdle; log := [] |}.

Definition with_worker (w : worker_pc) (s : server_st) : server_st :=
  {| active := active s; clients := clients s; worker := w; event := event s; stopper := stopper s;
     log := log s |}.
Definition with_event (e : event_pc) (s : server_st) : server_st :=
  {| active := active s; clients := clients s; worker := worker s; event := e; stopper := stopper s;
     log := log s |}.
Definition with_stopper (p : stop_pc) (s : server_st) : server_st :=
  {| active := active s; clients := clients s; worker := worker s; event := event s; stopper := p;
     log := log s |}.
Definition with_active (b : bool) (s : server_st) : server_st :=
  {| active := b; clients := clients s; worker := worker s; event := event s; stopper := stopper s;
     log := log s |}.
Definition with_clients (l : gmap Z Z) (s : server_st) : server_st :=
  {| active := active s; clients := l; worker := worker s; event := event s; stopper := stopper s;
     log := log s |}.
Definition note (o : list occurrence) (s : server_st) : server_st :=
  {| active := active s; clients := clients s; worker := worker s; event := event s;
     stopper := stopper s; log := o ++ log s |}.

Definition closings (l : list (Z * Z)) : list occurrence :=
  reverse ((λ c, Disconnected c.1 c.2) <$> l).

(** [closeAllClientSockets] with the callback set. *)
Definition close_all (s : server_st) : server_st :=
  with_clients ∅ (note (closings (in_order (clients s))) s).

(** The body of the loop of [serverEventHandler] under the lock (lines
    194-214), with [clientDisconnected] and [receivedData] set. *)
Definition handle (sock result : Z) (s : server_st) : server_st :=
  if result =? SRT_ERROR then
    match clients s !! sock with
    | None => s
    | Some ctx => with_clients (delete sock (clients s)) (note [Disconnected sock ctx] s)
    end
  else if 0 <? result then note [Received sock (clients s !! sock)] s
  else s.

Definition restart (s : server_st) : server_st :=
  with_stopper SIdle (with_active true (with_worker WStart (with_event ENone s))).

Inductive step : server_st → server_st → Prop :=
  (** [waitForSRTClient] *)
  | w_start s : worker s = WStart → step s (with_worker WClear (with_event ELoop s))
  | w_clear s : worker s = WClear → step s (with_worker WLoop (close_all s))
  | w_active s : worker s = WLoop → active s = true → step s (with_worker WAccept s)
  | w_exit s : worker s = WLoop → active s = false → step s (with_worker WDone s)
  | w_no_client s : worker s = WAccept → step s (with_worker WLoop s)
  | w_accept s sock ctx : worker s = WAccept →
      step s (with_worker (WInsert sock ctx) (note [Connected sock ctx] s))
  | w_refuse s sock : worker s = WAccept →
      step s (with_worker WLoop (note [Refused sock] s))
  | w_insert s sock ctx : worker s = WInsert sock ctx →
      step s (with_worker WLoop (with_clients (<[sock := ctx]> (clients s)) s))
  (** [serverEventHandler] *)
  | e_active s : event s = ELoop → active s = true → step s (with_event EWait s)
  | e_exit s : event s = ELoop → active s = false → step s (with_event EDone s)
  | e_ready s ready : event s = EWait → step s (with_event (ERun ready) s)
  | e_recv s sock result ready : event s = ERun (sock :: ready) →
      step s (with_event (EGot sock result ready) s)
  | e_handle s sock result ready : event s = EGot sock result ready →
      step s (with_event (ERun ready) (handle sock result s))
  | e_next s : event s = ERun [] → step s (with_event ELoop s)
  (** [stop] (lines 437-456) *)
  | s_begin s : stopper s = SIdle → step s (with_stopper SClosing (with_active false s))
  | s_close s : stopper s = SClosing → step s (with_stopper SClear s)
  | s_refused s : stopper s = SClosing → step s (with_stopper SIdle s)
  | s_clear s : stopper s = SClear → step s (with_stopper SJoinWorker (close_all s))
  | s_join_worker s : stopper s = SJoinWorker → worker s = WDone → step s (with_stopper SJoinEvent s)
  | s_join_event s : stopper s = SJoinEvent → event s = EDone → step s (with_stopper SDone s)
  (** [startServer] after a [stop]: the list of clients is kept *)
  | s_restart s : stopper s = SDone → step s (restart s).

Definition reachable (s : server_st) : Prop := rtc step started s.

(** ** What the callbacks see *)
Definition occurs (o : occurrence) (l : list occurrence) : nat := length (filter (o =.) l).
(** The socket announced last. *)
Fixpoint newest (l : list occurrence) : option Z :=
  match l with
  | [] => None
  | Connected sock _ :: _ => Some sock
  | _ :: l => newest l
  end.

(** The data and the end of a client are told with the context of an
    announcement whose end was not told before; data is delivered with no
    context only for a socket that was never announced, is the one announced
    last, or was told an end. *)
Fixpoint log_ok (l : list occurrence) : Prop :=
  match l with
  | [] => True
  | o :: l' =>
      log_ok l' ∧
      match o with
      | Connected _ _ | Refused _ => True
      | Disconnected sock ctx | Received sock (Some ctx) =>
          (occurs (Disconnected sock ctx) l' < occurs (Connected sock ctx) l')%nat
      | Received sock None =>
          (∃ ctx, Connected sock ctx ∈ l') → newest l' = Some sock ∨ ∃ c, Disconnected sock c ∈ l'
      end
  end.

(** The sockets announced, and the context of one whose end was not told. *)
Definition announced (l : list occurrence) : list Z :=
  omap (λ o, match o with Connected sock _ => Some sock | _ => None end) l.
Definition opened (l : list occurrence) (sock ctx : Z) : Prop :=
  Connected sock ctx ∈ l ∧ ∀ c, Disconnected sock c ∉ l.

(** When no socket is announced twice, a client is read and closed between its
    announcement and its end, with the context of the announcement, and closed
    once. *)
Fixpoint log_once (l : list occurrence) : Prop :=
  match l with
  | [] => True
  | o :: l' =>
      log_once l' ∧
      match o with
      | Disconnected sock ctx | Received sock (Some ctx) => opened l' sock ctx
      | _ => True
      end
  end.

(** The threads hold an announcement: in the list, or on its way there. *)
Definition held (s : server_st) (sock ctx : Z) : nat :=
  (if decide (clients s !! sock = Some ctx) then 1 else 0) + (if decide (worker s = WInsert sock ctx) then 1 else 0).

Record core (s : server_st) : Prop := {
  co_log : log_ok (log s);
  co_held sock ctx :
    (occurs (Disconnected sock ctx) (log s) + held s sock ctx ≤ occurs (Connected sock ctx) (log s))%nat;
  co_ended sock ctx : Connected sock ctx ∈ log s →
    is_Some (clients s !! sock) ∨ (∃ c, worker s = WInsert sock c) ∨ ∃ c, Disconnected sock c ∈ log s;
  co_newest sock ctx : worker s = WInsert sock ctx → newest (log s) = Some sock;
}.

(** *** Counting *)
Lemma occurs_cons o o' l : occurs o (o' :: l) = ((if decide (o = o') then 1 else 0) + occurs o l)%nat.
Proof. unfold occurs. rewrite filter_cons. by case_decide. Qed.
Lemma occurs_app o l l' : occurs o (l ++ l') = (occurs o l + occurs o l')%nat.
Proof. unfold occurs. by rewrite filter_app, length_app. Qed.
Lemma occurs_in o l : (0 < occurs o l)%nat ↔ o ∈ l.
Proof.
  induction l as [|o' l IH]; [split; [unfold occurs; simpl; lia|by intros ?%not_elem_of_nil]|].
  rewrite occurs_cons, elem_of_cons, <- IH. case_decide as E; (split; [intros Hn|intros [?|?]]).
  all: first [lia|done|by left|right; lia].
Qed.
Lemma occurs_nodup o l : NoDup l → (occurs o l ≤ 1)%nat.
Proof.
  induction 1 as [|o' l Hn _ IH]; [unfold occurs; simpl; lia|]. rewrite occurs_cons.
  case_decide as E; [|done]. subst o'. enough (¬ (0 < occurs o l)%nat) by lia. by rewrite occurs_in.
Qed.

(** *** Closing the clients *)
Lemma closings_in l o : o ∈ closings l ↔ ∃ c, o = Disconnected c.1 c.2 ∧ c ∈ l.
Proof. unfold closings. rewrite elem_of_reverse. apply list_elem_of_fmap. Qed.
Lemma closings_nodup l : NoDup l.*1 → NoDup (closings l).
Proof.
  intros H. unfold closings. rewrite reverse_Permutation. apply NoDup_fmap_2_strong; [|by apply NoDup_fmap_1 in H].
  by intros [s c] [s' c'] _ _ [= -> ->].
Qed.
Lemma newest_closings l lg : newest (closings l ++ lg) = newest lg.
Proof.
  assert (∀ o, o ∈ closings l → ∃ s c, o = Disconnected s c) as H by (intros o (c & -> & _)%closings_in; eauto).
  revert H. generalize (closings l). intros os. induction os as [|o os IH]; intros H; [done|].
  destruct (H o ltac:(by left)) as (s & c & ->). apply IH. intros o' Ho'. apply H. by right.
Qed.

Lemma log_ok_closings l lg :
  NoDup l.*1 → log_ok lg →
  (∀ s c, (s, c) ∈ l → (occurs (Disconnected s c) lg < occurs (Connected s c) lg)%nat) → log_ok (closings l ++ lg).
Proof.
  revert lg. induction l as [|[s c] l IH]; intros lg Hnd Hlg Ho; [done|].
  apply NoDup_cons in Hnd as [Hn Hnd].
  unfold closings. rewrite fmap_cons, reverse_cons, <- app_assoc. apply IH; [done|..].
  - split; [done|]. apply Ho. left.
  - intros s' c' Hin. cbn [app fst snd]. rewrite !occurs_cons. destruct (decide (Connected _ _ = _)) as [[=]|_].
    destruct (decide _) as [[= -> ->]|_]; [|apply Ho; by right]. destruct Hn. apply list_elem_of_fmap. by exists (s, c).
Qed.

Lemma close_all_core s : core s → core (close_all s).
Proof.
  intros [Hlog Hheld He Hn]. constructor; simpl.
  - apply log_ok_closings; [apply in_order_keys | done |].
    intros sock ctx Hin%in_order_in. specialize (Hheld sock ctx). unfold held in Hheld. rewrite decide_True in Hheld by done. lia.
  - intros sock ctx. rewrite !occurs_app. specialize (Hheld sock ctx). unfold held in *. simpl. rewrite lookup_empty.
    rewrite (decide_False (P := None = Some ctx)) by done.
    pose proof (occurs_nodup (Disconnected sock ctx) _ (closings_nodup _ (in_order_keys (clients s)))) as H1.
    pose proof (proj1 (occurs_in (Disconnected sock ctx) (closings (in_order (clients s))))) as H2.
    destruct (decide (clients s !! sock = Some ctx)) as [Hc|Hc]; [lia|].
    enough (¬ (0 < occurs (Disconnected sock ctx) (closings (in_order (clients s))))%nat) by lia.
    intros ([s' c'] & [= <- <-] & Hin)%H2%closings_in. by apply Hc, in_order_in.
  - intros sock ctx Hin. right. apply elem_of_app in Hin as [([? ?] & [=] & _)%closings_in|Hin].
    setoid_rewrite elem_of_app. destruct (He sock ctx Hin) as [[c Hc]|[?|[c ?]]]; [|by left|right; by eauto].
    right. exists c. left. apply closings_in. exists (sock, c). split; [done|]. by apply in_order_in.
  - intros sock ctx Hw. rewrite newest_closings. by apply (Hn sock ctx).
Qed.

(** *** Every step keeps the core *)
Lemma core_ext s s' :
  core s → clients s' = clients s → worker s' = worker s → log s' = log s → core s'.
Proof. intros [? Hh He Hn] Hc Hw Hl. constructor; unfold held in *; rewrite ?Hc, ?Hw, ?Hl; done. Qed.

(** The worker moves between places where it holds no client. *)
Lemma core_worker s s' :
  core s → clients s' = clients s → log s' = log s →
  (∀ sock ctx, worker s ≠ WInsert sock ctx) → (∀ sock ctx, worker s' ≠ WInsert sock ctx) → core s'.
Proof.
  intros [? Hh He Hn] Hc Hl Hw Hw'. constructor; [by rewrite Hl| | |].
  - intros sock ctx. rewrite Hl. specialize (Hh sock ctx). unfold held in *. rewrite Hc.
    by rewrite (decide_False (P := worker s = _)) in Hh by done; rewrite (decide_False (P := worker s' = _)) by done.
  - intros sock ctx Hin. rewrite Hl in Hin. rewrite Hl, Hc. destruct (He sock ctx Hin) as [?|[[c Hc']|?]]; [by left|by apply Hw in Hc'|by right; right].
  - intros sock ctx H. by apply Hw' in H.
Qed.

Lemma handle_core s sock result : core s → core (handle sock result s).
Proof.
  intros Hs. assert (Hs' := Hs). destruct Hs' as [Hl Hh He Hn]. unfold handle.
  destruct (result =? SRT_ERROR); [destruct (clients s !! sock) as [ctx|] eqn:Hc; [|done]|destruct (0 <? result); [|done]].
  - pose proof (Hh sock ctx) as Hlt. unfold held in Hlt. rewrite decide_True in Hlt by done.
    constructor; simpl; [split; [done|lia]| | |done].
    + intros sock' ctx'. rewrite !occurs_cons. specialize (Hh sock' ctx'). unfold held in *. simpl.
      destruct (decide (Disconnected sock' ctx' = Disconnected sock ctx)) as [[= -> ->]|Hne].
      * rewrite lookup_delete_eq, (decide_False (P := None = Some ctx)) by done. rewrite decide_True in Hh by done. lia.
      * destruct (decide (delete sock (clients s) !! sock' = Some ctx')) as [Hd|_]; [|simpl in *; lia].
        apply lookup_delete_Some in Hd as [_ Hd]. rewrite decide_True in Hh by done. lia.
    + intros sock' ctx' [[=]|Hin]%elem_of_cons. setoid_rewrite elem_of_cons.
      destruct (decide (sock' = sock)) as [->|Hne]; [by right; right; exists ctx; left|].
      rewrite lookup_delete_ne by done. naive_solver.
  - constructor; simpl; [| | |done].
    + split; [done|]. destruct (clients s !! sock) as [ctx|] eqn:Hc.
      * specialize (Hh sock ctx). unfold held in Hh. rewrite decide_True in Hh by done. lia.
      * intros [ctx Hin]. destruct (He sock ctx Hin) as [[? Hs']|[[c Hw]|?]]; [by rewrite Hc in Hs'|left; by apply (Hn sock c)|by right].
    + intros sock' ctx'. rewrite !occurs_cons. by apply Hh.
    + intros sock' ctx' [[=]|Hin]%elem_of_cons. setoid_rewrite elem_of_cons.
      destruct (He sock' ctx' Hin) as [?|[?|[c ?]]]; [by left|by right; left|right; right; exists c; by right].
Qed.

(** A client is accepted: any number, used before or not. *)
Lemma accept_core s sock ctx :
  core s → worker s = WAccept → core (with_worker (WInsert sock ctx) (note [Connected sock ctx] s)).
Proof.
  intros [Hl Hh He Hn] Hw. constructor; simpl; [done| | |by intros ? ? [= <- <-]].
  - intros sock' ctx'. rewrite !occurs_cons. specialize (Hh sock' ctx'). unfold held in *. simpl. rewrite Hw in Hh.
    simpl in Hh.
    destruct (decide (WInsert sock ctx = WInsert sock' ctx')) as [[= -> ->]|_]; [rewrite (decide_True (P := Connected _ _ = _)) by done; lia|].
    lia.
  - intros sock' ctx' Hin. setoid_rewrite elem_of_cons. apply elem_of_cons in Hin as [[= -> ->]|Hin]; [right; left; by exists ctx|].
    rewrite Hw in He. destruct (He sock' ctx' Hin) as [?|[[? [=]]|[c ?]]]; [by left|right; right; exists c; by right].
Qed.
Lemma insert_core s sock ctx :
  core s → worker s = WInsert sock ctx → core (with_worker WLoop (with_clients (<[sock := ctx]> (clients s)) s)).
Proof.
  intros [Hl Hh He Hn] Hw. constructor; simpl; [done| | |done].
  - intros sock' ctx'. specialize (Hh sock' ctx'). unfold held in *. simpl.
    rewrite Hw in Hh. destruct (decide (<[sock := ctx]> (clients s) !! sock' = Some ctx')) as [Hi|_]; [|lia].
    apply lookup_insert_Some in Hi as [[-> ->]|[_ Hi]]; [|rewrite decide_True in Hh by done; lia].
    rewrite (decide_True (P := WInsert sock' ctx' = _)) in Hh by done. lia.
  - intros sock' ctx' Hin. destruct (decide (sock' = sock)) as [->|Hne]; [left; rewrite lookup_insert_eq; by eexists|].
    rewrite lookup_insert_ne by done. rewrite Hw in He. naive_solver.
Qed.

Lemma step_core s s' :
  core s → (stopper s = SDone → worker s = WDone) → step s s' → core s'.
Proof.
  intros Hs Hd Hstep. destruct Hstep.
  all: try (by apply (core_ext s)).
  all: try (by apply (core_worker s); [done|done|done| intros; simpl; congruence..]).
  - apply (core_worker (close_all s)); [by apply close_all_core|done|done|intros; simpl; congruence..].
  - by apply accept_core.
  - (* it is refused *)
    apply (core_worker (note [Refused sock] s)); [|done|done|intros; simpl; congruence..].
    destruct Hs as [Hl Hh He Hn]. constructor; simpl; [done|intros; rewrite !occurs_cons; by apply Hh| |done].
    intros sock' ctx' [[=]|Hin]%elem_of_cons. setoid_rewrite elem_of_cons.
    destruct (He sock' ctx' Hin) as [?|[?|[c ?]]]; [by left|by right; left|right; right; exists c; by right].
  - by apply insert_core.
  - by apply (core_ext (handle sock result s)); [apply handle_core|..].
  - by apply (core_ext (close_all s)); [apply close_all_core|..].
  - apply (core_worker s); [done|done|done|intros; rewrite Hd by done; congruence|intros; simpl; congruence].
Qed.

(** *** When no number is given twice *)
Lemma occurs_announced sock ctx l : NoDup (announced l) → (occurs (Connected sock ctx) l ≤ 1)%nat.
Proof.
  induction l as [|o l IH]; intros Hnd; [unfold occurs; simpl; lia|]. rewrite occurs_cons.
  destruct (decide (Connected sock ctx = o)) as [<-|_].
  - cbn in Hnd. apply NoDup_cons in Hnd as [Hn _]. enough (¬ (0 < occurs (Connected sock ctx) l)%nat) by lia.
    rewrite occurs_in. intros Hin. apply Hn, list_elem_of_omap. by exists (Connected sock ctx).
  - apply IH. destruct o; cbn in Hnd; try done. by apply NoDup_cons in Hnd as [_ ?].
Qed.
Lemma announced_fun l sock c c' : NoDup (announced l) → Connected sock c ∈ l → Connected sock c' ∈ l → c = c'.
Proof.
  induction l as [|o l IH]; intros Hnd; [by intros ?%not_elem_of_nil|].
  assert (∀ c, Connected sock c ∈ l → sock ∈ announced l) as Ha by (intros; apply list_elem_of_omap; by eexists (Connected _ _)).
  intros [<-|H]%elem_of_cons [E|H']%elem_of_cons; [by injection E| | |].
  - cbn in Hnd. apply NoDup_cons in Hnd as [[] _]. by eapply Ha.
  - subst o. cbn in Hnd. apply NoDup_cons in Hnd as [[] _]. by eapply Ha.
  - apply IH; [|done..]. destruct o; cbn in Hnd; try done. by apply NoDup_cons in Hnd as [_ ?].
Qed.
(** Whose end was told was announced. *)
Lemma ended_announced l sock ctx : log_ok l → Disconnected sock ctx ∈ l → Connected sock ctx ∈ l.
Proof.
  induction l as [|o l IH]; [by intros _ ?%not_elem_of_nil|]. intros [Hl Ho] [<-|Hin]%elem_of_cons; right.
  - apply occurs_in. lia.
  - by apply IH.
Qed.
Lemma log_ok_once l : log_ok l → NoDup (announced l) → log_once l.
Proof.
  induction l as [|o l IH]; [done|]. intros [Hl Ho] Hnd.
  assert (NoDup (announced l)) as Hnd' by (destruct o; cbn in Hnd; try done; by apply NoDup_cons in Hnd as [_ ?]).
  assert (∀ sock ctx, (occurs (Disconnected sock ctx) l < occurs (Connected sock ctx) l)%nat → opened l sock ctx) as Hop.
  { intros sock ctx Hlt. pose proof (occurs_announced sock ctx l Hnd'). split; [apply occurs_in; lia|].
    intros c Hd. assert (c = ctx) as -> by (apply (announced_fun l sock); [done|by apply ended_announced|apply occurs_in; lia]).
    apply occurs_in in Hd. lia. }
  split; [by apply IH|]. destruct o as [| | |sock [ctx|]]; by auto.
Qed.

(** ** Where the threads are *)
Definition may_add (w : worker_pc) : nat :=
  match w with WAccept | WInsert _ _ => 1 | _ => 0 end.

Record control (s : server_st) : Prop := {
  ct_active : match stopper s with SIdle => True | _ => active s = false end;
  ct_worker : match stopper s with SJoinEvent | SDone => worker s = WDone | _ => True end;
  ct_event : match stopper s with SDone => event s = EDone | _ => True end;
  ct_started : event s = ENone → worker s = WStart;
  ct_left : match stopper s with
            | SJoinWorker | SJoinEvent | SDone => (size (clients s) + may_add (worker s) ≤ 1)%nat
            | _ => True end;
}.

Lemma size_handle s sock result : (size (clients (handle sock result s)) ≤ size (clients s))%nat.
Proof.
  unfold handle. repeat case_match; simpl; try lia. rewrite map_size_delete. case_match; simpl; lia.
Qed.

Lemma handle_fields s sock result :
  active (handle sock result s) = active s ∧ worker (handle sock result s) = worker s ∧
  stopper (handle sock result s) = stopper s.
Proof. unfold handle. by repeat case_match. Qed.

Lemma size_insert_le (l : gmap Z Z) k v : (size (<[k := v]> l) ≤ size l + 1)%nat.
Proof. rewrite map_size_insert. case_match; simpl; lia. Qed.

Lemma step_control s s' : control s → step s s' → control s'.
Proof.
  intros [Ha Hw He Hst Hl] Hstep. destruct Hstep.
  13: { destruct (handle_fields s sock result) as (Ea & Ew & Es).
    pose proof (size_handle s sock result).
    constructor; simpl; rewrite ?Ea, ?Ew, ?Es; try done.
    - destruct (stopper s); try done. congruence.
    - destruct (stopper s); try done; lia. }
  all: constructor; simpl; rewrite ?map_size_empty; try done; try congruence.
  all: repeat match goal with
    | H : worker ?s = _, H' : context [worker ?s] |- _ => rewrite H in H'
    | H : worker ?s = _ |- context [worker ?s] => rewrite H
    | H : stopper ?s = _, H' : context [stopper ?s] |- _ => rewrite H in H'
    end; try done; try congruence.
  all: try match goal with |- context [match stopper ?s with _ => _ end] => destruct (stopper s) end.
  all: simpl in *; try done; try congruence; try lia.
  all: try match goal with |- context [may_add ?w] => destruct w; simpl; lia end.
  all: try (intros Hn; match goal with H : _ = ENone → _ |- _ => apply H in Hn; congruence end).
  all: match goal with |- context [<[?k := ?v]> ?l] => pose proof (size_insert_le l k v); lia end.
Qed.

Lemma started_core : core started.
Proof.
  constructor; simpl; [done| | |done]; intros sock ctx; [|by intros ?%not_elem_of_nil].
  unfold held. simpl. by rewrite lookup_empty.
Qed.

Lemma started_control : control started.
Proof. by constructor. Qed.

Lemma reachable_inv s : reachable s → core s ∧ control s.
Proof.
  unfold reachable. revert s. apply rtc_ind_r.
  { split; [apply started_core | apply started_control]. }
  intros s s' _ Hstep [Hco Hct]. split; [|by eapply step_control].
  eapply step_core; [done| |done]. intros Hs. pose proof (ct_worker _ Hct) as Hw. by rewrite Hs in Hw.
Qed.

(** ** A stop can always complete *)
Arguments handle : simpl never.

Lemma handle_all ready s :
  event s = ERun ready → active s = false →
  ∃ s', rtc step s s' ∧ event s' = EDone ∧ worker s' = worker s ∧ stopper s' = stopper s ∧
        active s' = false.
Proof.
  revert s. induction ready as [|sock ready IH]; intros s He Ha.
  - exists (with_event EDone (with_event ELoop s)). split; [|done].
    eapply rtc_l; [by apply e_next|]. apply rtc_once. by apply e_exit.
  - destruct (handle_fields (with_event (EGot sock 0 ready) s) sock 0) as (Ha' & Hw' & Hs').
    destruct (IH (with_event (ERun ready) (handle sock 0 (with_event (EGot sock 0 ready) s))))
      as (s' & Hrun & He' & Hw & Hs & Ha''); [done|by etrans; [exact Ha'|]|].
    exists s'. split; [|split; [done|split; [by etrans; [exact Hw|]|split; [by etrans; [exact Hs|]|done]]]].
    eapply rtc_l; [by eapply e_recv with (result := 0)|].
    eapply rtc_l; [by eapply e_handle|]. exact Hrun.
Qed.

(** The event thread ends once the flag is down, *)
Lemma event_ends s :
  active s = false → event s ≠ ENone →
  ∃ s', rtc step s s' ∧ event s' = EDone ∧ worker s' = worker s ∧ stopper s' = stopper s ∧
        active s' = false.
Proof.
  intros Ha He. destruct (event s) as [| | |ready|sock result ready|] eqn:Hev; [done|..].
  - exists (with_event EDone s). split; [|done]. apply rtc_once. by apply e_exit.
  - exists (with_event EDone (with_event ELoop (with_event (ERun []) s))). split; [|done].
    eapply rtc_l; [by apply e_ready with (ready := [])|].
    eapply rtc_l; [by apply e_next|]. apply rtc_once. by apply e_exit.
  - by apply (handle_all ready).
  - destruct (handle_fields s sock result) as (Ha' & Hw' & Hs').
    destruct (handle_all ready (with_event (ERun ready) (handle sock result s)))
      as (s' & Hrun & ? & Hw & Hs & ?); [done|by etrans; [exact Ha'|]|].
    exists s'. split; [|split; [done|split; [by etrans; [exact Hw|]|split; [by etrans; [exact Hs|]|done]]]].
    eapply rtc_l; [by eapply e_handle|exact Hrun].
  - by exists s.
Qed.

(** and so does the worker. *)
Lemma worker_ends s :
  active s = false →
  ∃ s', rtc step s s' ∧ worker s' = WDone ∧ stopper s' = stopper s ∧ active s' = false ∧
        (worker s ≠ WStart → event s' = event s).
Proof.
  intros Ha.
  assert (∀ s, active s = false → worker s = WLoop →
    ∃ s', rtc step s s' ∧ worker s' = WDone ∧ stopper s' = stopper s ∧ active s' = false ∧
          event s' = event s) as Hloop.
  { intros s0 Ha0 Hw. exists (with_worker WDone s0). split; [|done]. apply rtc_once. by apply w_exit. }
  destruct (worker s) as [| | | |sock ctx|] eqn:Hw.
  - destruct (Hloop (with_worker WLoop (close_all (with_worker WClear (with_event ELoop s)))))
      as (s' & Hrun & ? & ? & ? & ?); [done..|].
    exists s'. split; [|done]. eapply rtc_l; [by apply w_start|]. eapply rtc_l; [by apply w_clear|done].
  - destruct (Hloop (with_worker WLoop (close_all s))) as (s' & Hrun & ? & ? & ? & ?); [done..|].
    exists s'. split; [|done]. eapply rtc_l; [by apply w_clear|done].
  - destruct (Hloop s) as (s' & Hrun & ? & ? & ? & ?); [done..|]. by exists s'.
  - destruct (Hloop (with_worker WLoop s)) as (s' & Hrun & ? & ? & ? & ?); [done..|].
    exists s'. split; [|done]. eapply rtc_l; [by apply w_no_client|done].
  - destruct (Hloop (with_worker WLoop (with_clients (<[sock := ctx]> (clients s)) s)))
      as (s' & Hrun & ? & ? & ? & ?); [done..|].
    exists s'. split; [|done]. eapply rtc_l; [by eapply w_insert|done].
  - by exists s.
Qed.

(** The steps [stop] has left. *)
Lemma stop_ends s :
  control s → stopper s ≠ SIdle → ∃ s', rtc step s s' ∧ stopper s' = SDone.
Proof.
  assert (∀ s, control s → stopper s = SJoinEvent → ∃ s', rtc step s s' ∧ stopper s' = SDone) as H1.
  { intros s0 [Ha Hw _ Hst _] Hs. rewrite Hs in *.
    destruct (event_ends s0 Ha) as (s' & Hrun & He & Hw' & Hs' & _).
    { intros He. apply Hst in He. congruence. }
    exists (with_stopper SDone s'). split; [|done].
    eapply rtc_r; [exact Hrun|]. apply s_join_event; congruence. }
  assert (∀ s, control s → stopper s = SJoinWorker → ∃ s', rtc step s s' ∧ stopper s' = SDone) as H2.
  { intros s0 Hc Hs. assert (active s0 = false) as Ha by (destruct Hc as [Ha _ _ _ _]; by rewrite Hs in Ha).
    destruct (worker_ends s0 Ha) as (s' & Hrun & Hw & Hs' & Ha' & _).
    assert (control s') as Hc'.
    { clear -Hc Hrun. induction Hrun; eauto using step_control. }
    assert (step s' (with_stopper SJoinEvent s')) as Hj by (apply s_join_worker; congruence).
    destruct (H1 (with_stopper SJoinEvent s')) as (s'' & Hrun' & Hs''); [by eapply step_control|done|].
    exists s''. split; [|done]. etrans; [exact Hrun|]. eapply rtc_l; done. }
  assert (∀ s, control s → stopper s = SClear → ∃ s', rtc step s s' ∧ stopper s' = SDone) as H3.
  { intros s0 Hc Hs. assert (step s0 (with_stopper SJoinWorker (close_all s0))) as Hj by by apply s_clear.
    destruct (H2 (with_stopper SJoinWorker (close_all s0))) as (s' & ? & ?);
      [by eapply step_control|done|]. exists s'. split; [by eapply rtc_l|done]. }
  intros Hc Hs. destruct (stopper s) eqn:Hst; [done| |by apply H3|by apply H2|by apply H1|by exists s].
  assert (step s (with_stopper SClear s)) as Hj by by apply s_close.
  destruct (H3 (with_stopper SClear s)) as (s' & ? & ?); [by eapply step_control|done|].
  exists s'. split; [by eapply rtc_l|done].
Qed.
