(* ===== verification/TsBuffer.v ===== *)
(** * Buffers of the MPEG-TS library: src/3rd/mpegts/simple_buffer.cpp,
    common.cpp, crc.cpp

    A buffer is a vector of bytes and a read position; the machine is
    little-endian, as simple_buffer.hpp requires.  [None] is a failed
    assertion, an exception or an access out of bounds.  Positions are those
    of buffers below 2^31 bytes. *)
From S2P Require Import Prelude.

#[global] Arguments be_bytes : simpl never.

(** Narrow integers *)
Definition u16 (x : Z) : Z := x mod 2 ^ 16.
Definition i8 (x : Z) : Z := (x + 2 ^ 7) mod 2 ^ 8 - 2 ^ 7.
Definition i16 (x : Z) : Z := (x + 2 ^ 15) mod 2 ^ 16 - 2 ^ 15.

Record SimpleBuffer := { mData : bytes; mPos : Z }.

Definition SimpleBuffer_new : SimpleBuffer := {| mData := []; mPos := 0 |}.
Definition size (b : SimpleBuffer) : Z := Z.of_nat (length (mData b)).
Definition with_data (d : bytes) (b : SimpleBuffer) : SimpleBuffer :=
  {| mData := d; mPos := mPos b |}.

(** ** Writing *)
Definition push_back (l : bytes) (b : SimpleBuffer) : SimpleBuffer := with_data (mData b ++ l) b.
Definition write1Byte (val : Z) : SimpleBuffer → SimpleBuffer := push_back [u8 val].
Definition write2Bytes (val : Z) : SimpleBuffer → SimpleBuffer := push_back (be_bytes 2 val).
Definition write3Bytes (val : Z) : SimpleBuffer → SimpleBuffer := push_back (be_bytes 3 val).
Definition write4Bytes (val : Z) : SimpleBuffer → SimpleBuffer := push_back (be_bytes 4 val).
Definition write8Bytes (val : Z) : SimpleBuffer → SimpleBuffer := push_back (be_bytes 8 val).
Definition append (l : bytes) : SimpleBuffer → SimpleBuffer := push_back l.
Definition prepend (l : bytes) (b : SimpleBuffer) : SimpleBuffer := with_data (l ++ mData b) b.

(** ** Reading *)

(** [required_size <= mData.size() - mPos]: past the end the unsigned
    difference wraps around. *)
Definition require (n : Z) (b : SimpleBuffer) : bool :=
  (n <=? size b - mPos b) || (size b <? mPos b).

(** [mData.at(mPos); mPos++;], [n] times *)
Fixpoint read_at (n : nat) (b : SimpleBuffer) : option (bytes * SimpleBuffer) :=
  match n with
  | O => Some ([], b)
  | S n' =>
      if mPos b <? 0 then None else
      x ← mData b !! Z.to_nat (mPos b);
      '(l, b) ← read_at n' {| mData := mData b; mPos := mPos b + 1 |};
      Some (x :: l, b)
  end.
Definition read_be (n : nat) (b : SimpleBuffer) : option (Z * SimpleBuffer) :=
  if require (Z.of_nat n) b then '(l, b) ← read_at n b; Some (be_val l, b) else None.

Definition read1Byte (b : SimpleBuffer) : option (Z * SimpleBuffer) :=
  '(v, b) ← read_be 1 b; Some (i8 v, b).
Definition read2Bytes (b : SimpleBuffer) : option (Z * SimpleBuffer) :=
  '(v, b) ← read_be 2 b; Some (i16 v, b).
Definition read3Bytes (b : SimpleBuffer) : option (Z * SimpleBuffer) := read_be 3 b.
Definition read4Bytes (b : SimpleBuffer) : option (Z * SimpleBuffer) :=
  '(v, b) ← read_be 4 b; Some (i32 v, b).
Definition read8Bytes (b : SimpleBuffer) : option (Z * SimpleBuffer) :=
  '(v, b) ← read_be 8 b; Some (i64 v, b).

(** The constructor of [val] is given the first byte of [mData] (a signed
    [char]) plus [mPos], and [len]: it makes a string of that many characters
    [len]. *)
Definition readString (len : Z) (b : SimpleBuffer) : option (bytes * SimpleBuffer) :=
  if negb (0 <=? len) || negb (require len b) then None else
  x ← mData b !! 0%nat;
  let count := i8 x + mPos b in
  if count <? 0 then None else
  Some (replicate (Z.to_nat count) (u8 len), {| mData := mData b; mPos := mPos b + len |}).

Definition skip (n : Z) (b : SimpleBuffer) : SimpleBuffer :=
  {| mData := mData b; mPos := mPos b + n |}.
Definition empty (b : SimpleBuffer) : bool := size b <=? mPos b.
Definition clear (b : SimpleBuffer) : SimpleBuffer := SimpleBuffer_new.

(** ** Memory accesses through [data()] *)
Definition peek (i : Z) (b : SimpleBuffer) : option Z :=
  if i <? 0 then None else mData b !! Z.to_nat i.
Definition slice (ofs len : Z) (b : SimpleBuffer) : option bytes :=
  if (0 <=? ofs) && (0 <=? len) && (ofs + len <=? size b)
  then Some (take (Z.to_nat len) (drop (Z.to_nat ofs) (mData b))) else None.
Definition store (ofs : Z) (l : bytes) (b : SimpleBuffer) : option SimpleBuffer :=
  if (0 <=? ofs) && (ofs + Z.of_nat (length l) <=? size b)
  then Some (with_data (memcpy (mData b) (Z.to_nat ofs) l) b) else None.

(** [setData(pos, data, len)], [l] being the [len] bytes at [data] *)
Definition setData (pos : Z) (l : bytes) (b : SimpleBuffer) : option SimpleBuffer :=
  if size b <? pos + Z.of_nat (length l) then Some b else store pos l b.

(** ** common.cpp *)
Definition writePcr (lPcr : Z) (rSb : SimpleBuffer) : SimpleBuffer :=
  let rSb := write1Byte (Z.shiftr lPcr 25) rSb in
  let rSb := write1Byte (Z.shiftr lPcr 17) rSb in
  let rSb := write1Byte (Z.shiftr lPcr 9) rSb in
  let rSb := write1Byte (Z.shiftr lPcr 1) rSb in
  let rSb := write1Byte (Z.lor (u64 (Z.shiftl lPcr 7)) 0x7e) rSb in
  write1Byte 0 rSb.

Definition writePts (lFb lPts : Z) (rSb : SimpleBuffer) : SimpleBuffer :=
  let lVal := u32 (Z.lor (Z.lor (u32 (Z.shiftl lFb 4))
                            (Z.shiftl (Z.land (Z.shiftr lPts 30) 0x07) 1)) 1) in
  let rSb := write1Byte lVal rSb in
  let lVal := u32 (Z.lor (Z.shiftl (Z.land (Z.shiftr lPts 15) 0x7fff) 1) 1) in
  let rSb := write2Bytes lVal rSb in
  let lVal := u32 (Z.lor (Z.shiftl (Z.land lPts 0x7fff) 1) 1) in
  write2Bytes lVal rSb.

(** [lVal] has 32 bits, so the shift by 30 is one of 32 bits. *)
Definition readPts (rSb : SimpleBuffer) : option (Z * SimpleBuffer) :=
  '(v, rSb) ← read1Byte rSb;
  let lVal := u32 v in
  let lPts := u32 (Z.shiftl (Z.land (Z.shiftr lVal 1) 0x07) 30) in
  '(v, rSb) ← read2Bytes rSb;
  let lVal := u32 v in
  let lPts := Z.lor lPts (u32 (Z.shiftl (Z.land (Z.shiftr lVal 1) 0x7fff) 15)) in
  '(v, rSb) ← read2Bytes rSb;
  let lVal := u32 v in
  let lPts := Z.lor lPts (Z.land (Z.shiftr lVal 1) 0x7fff) in
  Some (lPts, rSb).

Definition readPcr (rSb : SimpleBuffer) : option (Z * SimpleBuffer) :=
  '(v, rSb) ← read1Byte rSb;
  let lPcr := Z.land (u64 (Z.shiftl (u64 v) 25)) 0x1FE000000 in
  '(v, rSb) ← read1Byte rSb;
  let lPcr := Z.lor lPcr (Z.land (u64 (Z.shiftl (u64 v) 17)) 0x1FE0000) in
  '(v, rSb) ← read1Byte rSb;
  let lPcr := Z.lor lPcr (Z.land (u64 (Z.shiftl (u64 v) 9)) 0x1FE00) in
  '(v, rSb) ← read1Byte rSb;
  let lPcr := Z.lor lPcr (Z.land (u64 (Z.shiftl (u64 v) 1)) 0x1FE) in
  '(v, rSb) ← read1Byte rSb;
  let lPcr := Z.lor lPcr (Z.land (Z.shiftr (u64 v) 7) 0x01) in
  '(_, rSb) ← read1Byte rSb;
  Some (lPcr, rSb).

(** ** crc.cpp *)
Definition crcTable : list Z := [
   0x00000000; 0x04c11db7; 0x09823b6e; 0x0d4326d9; 0x130476dc; 0x17c56b6b; 0x1a864db2; 0x1e475005;
   0x2608edb8; 0x22c9f00f; 0x2f8ad6d6; 0x2b4bcb61; 0x350c9b64; 0x31cd86d3; 0x3c8ea00a; 0x384fbdbd;
   0x4c11db70; 0x48d0c6c7; 0x4593e01e; 0x4152fda9; 0x5f15adac; 0x5bd4b01b; 0x569796c2; 0x52568b75;
   0x6a1936c8; 0x6ed82b7f; 0x639b0da6; 0x675a1011; 0x791d4014; 0x7ddc5da3; 0x709f7b7a; 0x745e66cd;
   0x9823b6e0; 0x9ce2ab57; 0x91a18d8e; 0x95609039; 0x8b27c03c; 0x8fe6dd8b; 0x82a5fb52; 0x8664e6e5;
   0xbe2b5b58; 0xbaea46ef; 0xb7a96036; 0xb3687d81; 0xad2f2d84; 0xa9ee3033; 0xa4ad16ea; 0xa06c0b5d;
   0xd4326d90; 0xd0f37027; 0xddb056fe; 0xd9714b49; 0xc7361b4c; 0xc3f706fb; 0xceb42022; 0xca753d95;
   0xf23a8028; 0xf6fb9d9f; 0xfbb8bb46; 0xff79a6f1; 0xe13ef6f4; 0xe5ffeb43; 0xe8bccd9a; 0xec7dd02d;
   0x34867077; 0x30476dc0; 0x3d044b19; 0x39c556ae; 0x278206ab; 0x23431b1c; 0x2e003dc5; 0x2ac12072;
   0x128e9dcf; 0x164f8078; 0x1b0ca6a1; 0x1fcdbb16; 0x018aeb13; 0x054bf6a4; 0x0808d07d; 0x0cc9cdca;
   0x7897ab07; 0x7c56b6b0; 0x71159069; 0x75d48dde; 0x6b93dddb; 0x6f52c06c; 0x6211e6b5; 0x66d0fb02;
   0x5e9f46bf; 0x5a5e5b08; 0x571d7dd1; 0x53dc6066; 0x4d9b3063; 0x495a2dd4; 0x44190b0d; 0x40d816ba;
   0xaca5c697; 0xa864db20; 0xa527fdf9; 0xa1e6e04e; 0xbfa1b04b; 0xbb60adfc; 0xb6238b25; 0xb2e29692;
   0x8aad2b2f; 0x8e6c3698; 0x832f1041; 0x87ee0df6; 0x99a95df3; 0x9d684044; 0x902b669d; 0x94ea7b2a;
   0xe0b41de7; 0xe4750050; 0xe9362689; 0xedf73b3e; 0xf3b06b3b; 0xf771768c; 0xfa325055; 0xfef34de2;
   0xc6bcf05f; 0xc27dede8; 0xcf3ecb31; 0xcbffd686; 0xd5b88683; 0xd1799b34; 0xdc3abded; 0xd8fba05a;
   0x690ce0ee; 0x6dcdfd59; 0x608edb80; 0x644fc637; 0x7a089632; 0x7ec98b85; 0x738aad5c; 0x774bb0eb;
   0x4f040d56; 0x4bc510e1; 0x46863638; 0x42472b8f; 0x5c007b8a; 0x58c1663d; 0x558240e4; 0x51435d53;
   0x251d3b9e; 0x21dc2629; 0x2c9f00f0; 0x285e1d47; 0x36194d42; 0x32d850f5; 0x3f9b762c; 0x3b5a6b9b;
   0x0315d626; 0x07d4cb91; 0x0a97ed48; 0x0e56f0ff; 0x1011a0fa; 0x14d0bd4d; 0x19939b94; 0x1d528623;
   0xf12f560e; 0xf5ee4bb9; 0xf8ad6d60; 0xfc6c70d7; 0xe22b20d2; 0xe6ea3d65; 0xeba91bbc; 0xef68060b;
   0xd727bbb6; 0xd3e6a601; 0xdea580d8; 0xda649d6f; 0xc423cd6a; 0xc0e2d0dd; 0xcda1f604; 0xc960ebb3;
   0xbd3e8d7e; 0xb9ff90c9; 0xb4bcb610; 0xb07daba7; 0xae3afba2; 0xaafbe615; 0xa7b8c0cc; 0xa379dd7b;
   0x9b3660c6; 0x9ff77d71; 0x92b45ba8; 0x9675461f; 0x8832161a; 0x8cf30bad; 0x81b02d74; 0x857130c3;
   0x5d8a9099; 0x594b8d2e; 0x5408abf7; 0x50c9b640; 0x4e8ee645; 0x4a4ffbf2; 0x470cdd2b; 0x43cdc09c;
   0x7b827d21; 0x7f436096; 0x7200464f; 0x76c15bf8; 0x68860bfd; 0x6c47164a; 0x61043093; 0x65c52d24;
   0x119b4be9; 0x155a565e; 0x18197087; 0x1cd86d30; 0x029f3d35; 0x065e2082; 0x0b1d065b; 0x0fdc1bec;
   0x3793a651; 0x3352bbe6; 0x3e119d3f; 0x3ad08088; 0x2497d08d; 0x2056cd3a; 0x2d15ebe3; 0x29d4f654;
   0xc5a92679; 0xc1683bce; 0xcc2b1d17; 0xc8ea00a0; 0xd6ad50a5; 0xd26c4d12; 0xdf2f6bcb; 0xdbee767c;
   0xe3a1cbc1; 0xe760d676; 0xea23f0af; 0xeee2ed18; 0xf0a5bd1d; 0xf464a0aa; 0xf9278673; 0xfde69bc4;
   0x89b8fd09; 0x8d79e0be; 0x803ac667; 0x84fbdbd0; 0x9abc8bd5; 0x9e7d9662; 0x933eb0bb; 0x97ffad0c;
   0xafb010b1; 0xab710d06; 0xa6322bdf; 0xa2f33668; 0xbcb4666d; 0xb8757bda; 0xb5365d03; 0xb1f740b4].

(** One byte: [lCrc = (lCrc << 8) ^ crcTable[((lCrc >> 24) ^ *pData++) & 0xff]] *)
Definition crc32_step (lCrc x : Z) : Z :=
  Z.lxor (u32 (Z.shiftl lCrc 8)) (crcTable !!! Z.to_nat (Z.land (Z.lxor (Z.shiftr lCrc 24) x) 0xff)).
Definition crc32 (pData : bytes) : Z := foldl crc32_step 0xffffffff pData.

(** ** Facts: writing *)
Lemma push_push l1 l2 b : push_back l2 (push_back l1 b) = push_back (l1 ++ l2) b.
Proof. destruct b. unfold push_back, with_data. simpl. by rewrite app_assoc. Qed.
Lemma push_data l b : mData (push_back l b) = mData b ++ l.
Proof. done. Qed.
Lemma push_pos l b : mPos (push_back l b) = mPos b.
Proof. done. Qed.
Lemma push_new l : push_back l SimpleBuffer_new = {| mData := l; mPos := 0 |}.
Proof. done. Qed.
Lemma size_push l b : size (push_back l b) = size b + Z.of_nat (length l).
Proof. unfold size. rewrite push_data. len. Qed.

(** ** Facts: bit fields *)

(** A field of [n] bits at bit [k]. *)
Lemma mask_field x k n m :
  0 <= k → 0 <= n → m = (2 ^ n - 1) * 2 ^ k → Z.land (Z.shiftl x k) m = x mod 2 ^ n * 2 ^ k.
Proof.
  intros Hk Hn ->. replace ((2 ^ n - 1) * 2 ^ k) with (Z.shiftl (Z.ones n) k).
  2: { rewrite Z.shiftl_mul_pow2, Z.ones_equiv by done. by rewrite <- Z.sub_1_r. }
  by rewrite <- Z.shiftl_land, Z.land_ones, Z.shiftl_mul_pow2 by done.
Qed.
Lemma mask_low x n m : 0 <= n → m = 2 ^ n - 1 → Z.land x m = x mod 2 ^ n.
Proof. intros Hn ->. rewrite <- Z.land_ones by done. rewrite Z.ones_equiv. by rewrite <- Z.sub_1_r. Qed.
Lemma lor_add a b k : 0 <= k → 0 <= a < 2 ^ k → Z.lor a (b * 2 ^ k) = a + b * 2 ^ k.
Proof.
  intros Hk Ha. rewrite Z.lor_comm, <- Z.shiftl_mul_pow2, lor_shiftl_add, Z.shiftl_mul_pow2 by done.
  lia.
Qed.

(** Rewrites masks, shifts and ors of bit fields into arithmetic. *)
Ltac fields :=
  repeat match goal with
  | |- context [Z.land (Z.shiftl ?x ?k) ?m] =>
      let n := eval vm_compute in (Z.log2 (m / 2 ^ k) + 1) in
      rewrite (mask_field x k n m) by (reflexivity || lia)
  | |- context [Z.land ?x ?m] =>
      let n := eval vm_compute in (Z.log2 m + 1) in
      rewrite (mask_low x n m) by (reflexivity || lia)
  end;
  repeat rewrite Z.shiftr_div_pow2 by lia;
  repeat match goal with
  | |- context [?a mod 2 ^ ?k] => rewrite (Z.mod_small a (2 ^ k)) by lia
  end;
  repeat match goal with
  | |- context [Z.lor ?a (?b * 2 ^ ?k)] => rewrite (lor_add a b k) by lia
  end.

Lemma u8_i8 x : u8 (i8 x) = u8 x.
Proof. unfold u8, i8. divlia. Qed.
Lemma u16_i16 x : u16 (i16 x) = u16 x.
Proof. unfold u16, i16. divlia. Qed.
Lemma u32_i32 x : u32 (i32 x) = u32 x.
Proof. unfold u32, i32. divlia. Qed.
Lemma u16_small x : 0 <= x < 2 ^ 16 → u16 x = x.
Proof. apply Z.mod_small. Qed.

Lemma be_bytes_1 x : be_bytes 1 x = [u8 x].
Proof. done. Qed.
Lemma be_bytes_2 x : be_bytes 2 x = [u8 (x / 2 ^ 8); u8 x].
Proof. done. Qed.

(** ** Facts: reading *)

(** A buffer whose position is behind [pre]. *)
Definition cur (pre rest : bytes) : SimpleBuffer :=
  {| mData := pre ++ rest; mPos := Z.of_nat (length pre) |}.

Lemma cur_intro b : 0 <= mPos b <= size b →
  b = cur (take (Z.to_nat (mPos b)) (mData b)) (drop (Z.to_nat (mPos b)) (mData b)).
Proof.
  intros H. destruct b as [d p]. unfold cur, size in *. simpl in *. rewrite take_drop.
  f_equal. len.
Qed.

Lemma size_cur pre rest : size (cur pre rest) = Z.of_nat (length pre) + Z.of_nat (length rest).
Proof. unfold size, cur. simpl. len. Qed.

Lemma skip_cur pre l rest n :
  n = Z.of_nat (length l) → skip n (cur pre (l ++ rest)) = cur (pre ++ l) rest.
Proof. intros ->. unfold skip, cur. simpl. rewrite app_assoc. f_equal. len. Qed.

Lemma slice_cur pre l rest n :
  n = Z.of_nat (length l) → slice (mPos (cur pre (l ++ rest))) n (cur pre (l ++ rest)) = Some l.
Proof.
  intros ->. unfold slice. rewrite size_cur. unfold cur. simpl.
  rewrite length_app. rewrite (proj2 (Z.leb_le 0 _)), (proj2 (Z.leb_le 0 _)), (proj2 (Z.leb_le _ _)) by lia.
  simpl. by rewrite !Nat2Z.id, drop_app_length, take_app_length.
Qed.

Lemma read_at_cur l : ∀ pre rest, read_at (length l) (cur pre (l ++ rest)) = Some (l, cur (pre ++ l) rest).
Proof.
  induction l as [|x l IH]; intros pre rest; simpl.
  - by rewrite app_nil_r.
  - rewrite (proj2 (Z.ltb_ge _ _)) by lia. rewrite Nat2Z.id, lookup_app_r, Nat.sub_diag by done. simpl.
    replace {| mData := pre ++ x :: l ++ rest; mPos := Z.of_nat (length pre) + 1 |}
      with (cur (pre ++ [x]) (l ++ rest)).
    2: { unfold cur. rewrite <- app_assoc. f_equal. len. }
    rewrite IH. simpl. by rewrite <- app_assoc.
Qed.

Lemma read_be_cur n l pre rest : length l = n →
  read_be n (cur pre (l ++ rest)) = Some (be_val l, cur (pre ++ l) rest).
Proof.
  intros <-. unfold read_be, require. rewrite size_cur. unfold cur at 1 2. simpl mPos.
  rewrite (proj2 (Z.leb_le _ _)) by len. simpl. by rewrite read_at_cur.
Qed.

Lemma read1_cur x pre rest : read1Byte (cur pre (x :: rest)) = Some (i8 x, cur (pre ++ [x]) rest).
Proof.
  unfold read1Byte. change (x :: rest) with ([x] ++ rest). rewrite read_be_cur by done. simpl.
  by rewrite be_val_single.
Qed.
Lemma read2_cur v pre rest :
  read2Bytes (cur pre (be_bytes 2 v ++ rest)) = Some (i16 (v mod 2 ^ 16), cur (pre ++ be_bytes 2 v) rest).
Proof.
  unfold read2Bytes. rewrite read_be_cur by len. simpl. by rewrite be_val_bytes.
Qed.
Lemma read4_cur v pre rest :
  read4Bytes (cur pre (be_bytes 4 v ++ rest)) = Some (i32 (v mod 2 ^ 32), cur (pre ++ be_bytes 4 v) rest).
Proof.
  unfold read4Bytes. rewrite read_be_cur by len. simpl. by rewrite be_val_bytes.
Qed.

(** ** Facts: time stamps *)
Lemma lor_high a b k : 0 <= k → 0 <= b < 2 ^ k → a mod 2 ^ k = 0 → Z.lor a b = a + b.
Proof.
  intros Hk Hb Ha. rewrite (Z.div_mod a (2 ^ k)) by lia. rewrite Ha, Z.add_0_r, Z.mul_comm.
  rewrite <- Z.shiftl_mul_pow2 at 1 by done. rewrite lor_shiftl_add by done. lia.
Qed.

Definition pts_bytes (fb pts : Z) : bytes :=
  (fb * 2 ^ 4 + pts / 2 ^ 30 mod 2 ^ 3 * 2 + 1) ::
  be_bytes 2 (pts / 2 ^ 15 mod 2 ^ 15 * 2 + 1) ++ be_bytes 2 (pts mod 2 ^ 15 * 2 + 1).

Lemma writePts_bytes fb pts b : 0 <= fb < 2 ^ 4 → writePts fb pts b = push_back (pts_bytes fb pts) b.
Proof.
  intros Hfb. unfold writePts, write1Byte, write2Bytes. rewrite !push_push. f_equal.
  unfold pts_bytes. cbn [app].
  rewrite !(mask_low _ 15 0x7fff), (mask_low _ 3 0x07) by done.
  rewrite !Z.shiftr_div_pow2, !Z.shiftl_mul_pow2 by lia.
  pose proof (Z.mod_pos_bound (pts / 2 ^ 30) (2 ^ 3)). pose proof (Z.mod_pos_bound (pts / 2 ^ 15) (2 ^ 15)).
  pose proof (Z.mod_pos_bound pts (2 ^ 15)).
  rewrite (u32_small (fb * 2 ^ 4)) by lia.
  rewrite (lor_high (fb * 2 ^ 4) _ 4) by (lia || by apply Z.mod_mul; lia).
  rewrite !(lor_high _ 1 1) by (lia || divlia).
  rewrite !u32_small, u8_small by lia. done.
Qed.

(** Bit 32 is lost. *)
Lemma readPts_bytes fb pts pre rest : 0 <= fb < 2 ^ 4 → 0 <= pts < 2 ^ 33 →
  readPts (cur pre (pts_bytes fb pts ++ rest)) =
  Some (pts mod 2 ^ 32, cur (pre ++ pts_bytes fb pts) rest).
Proof.
  intros Hfb Hp. unfold readPts, pts_bytes. cbn [app]. rewrite <- !app_assoc.
  rewrite read1_cur. cbn [mbind option_bind]. rewrite !read2_cur. cbn [mbind option_bind].
  rewrite read2_cur. cbn [mbind option_bind]. rewrite <- !app_assoc. cbn [app].
  rewrite !(mask_low _ 15 0x7fff), (mask_low _ 3 0x07) by done.
  rewrite !Z.shiftr_div_pow2, !Z.shiftl_mul_pow2 by lia. do 2 f_equal.
  set (a := pts / 2 ^ 30 mod 2 ^ 3). set (b := pts / 2 ^ 15 mod 2 ^ 15). set (c := pts mod 2 ^ 15).
  assert (Ha : 0 <= a < 2 ^ 3) by (apply Z.mod_pos_bound; lia).
  assert (Hb : 0 <= b < 2 ^ 15) by (apply Z.mod_pos_bound; lia).
  assert (Hc : 0 <= c < 2 ^ 15) by (apply Z.mod_pos_bound; lia).
  assert (E1 : u32 (i8 (fb * 2 ^ 4 + a * 2 + 1)) / 2 ^ 1 mod 2 ^ 3 = a) by (unfold u32, i8; divlia).
  assert (E2 : ∀ y, 0 <= y < 2 ^ 15 → u32 (i16 ((y * 2 + 1) mod 2 ^ 16)) / 2 ^ 1 mod 2 ^ 15 = y)
    by (intros; unfold u32, i16; divlia).
  rewrite E1, !E2 by done.
  rewrite (u32_small (b * 2 ^ 15)) by lia.
  assert (Hz : u32 (a * 2 ^ 30) = a mod 2 ^ 2 * 2 ^ 30) by (unfold u32; divlia).
  rewrite Hz, (lor_high _ (b * 2 ^ 15) 30) by (lia || by apply Z.mod_mul).
  rewrite (lor_high _ c 15) by (lia || divlia). unfold a, b, c in *. clear -Hp. divlia.
Qed.

Lemma length_pts_bytes fb pts : length (pts_bytes fb pts) = 5%nat.
Proof. unfold pts_bytes. len. Qed.
#[export] Hint Rewrite length_pts_bytes : len.

Definition pcr_bytes (pcr : Z) : bytes :=
  [u8 (pcr / 2 ^ 25); u8 (pcr / 2 ^ 17); u8 (pcr / 2 ^ 9); u8 (pcr / 2 ^ 1);
   pcr mod 2 * 2 ^ 7 + 0x7e; 0].

Lemma writePcr_bytes pcr b : writePcr pcr b = push_back (pcr_bytes pcr) b.
Proof.
  unfold writePcr, write1Byte. rewrite !push_push. f_equal. unfold pcr_bytes. cbn [app].
  rewrite !Z.shiftr_div_pow2, Z.shiftl_mul_pow2 by lia.
  rewrite (lor_high _ 0x7e 7) by (lia || (unfold u64; divlia)).
  do 4 f_equal. f_equal. unfold u8, u64. divlia.
Qed.

Lemma pcr_field x k : 0 <= k <= 25 → is_byte x →
  Z.land (u64 (Z.shiftl (u64 (i8 x)) k)) (255 * 2 ^ k) = x * 2 ^ k.
Proof.
  intros Hk Hx. unfold u64 at 1.
  assert (E : Z.land (Z.shiftl (u64 (i8 x)) k mod 2 ^ 64) (255 * 2 ^ k) =
              Z.land (Z.shiftl (u64 (i8 x)) k) (255 * 2 ^ k)).
  { rewrite <- Z.land_ones by lia. rewrite <- Z.land_assoc. f_equal.
    rewrite Z.land_comm, Z.land_ones by lia. apply Z.mod_small.
    assert (2 ^ k <= 2 ^ 25) by (apply Z.pow_le_mono_r; lia). lia. }
  rewrite E, (mask_field _ k 8) by (lia || done). f_equal. unfold is_byte, u64, i8 in *. divlia.
Qed.

Lemma readPcr_bytes pcr pre rest : 0 <= pcr < 2 ^ 33 →
  readPcr (cur pre (pcr_bytes pcr ++ rest)) = Some (pcr, cur (pre ++ pcr_bytes pcr) rest).
Proof.
  intros Hp. unfold readPcr, pcr_bytes. cbn [app].
  do 6 (rewrite read1_cur; cbn [mbind option_bind]). rewrite <- !app_assoc. cbn [app].
  change 0x1FE000000 with (255 * 2 ^ 25). change 0x1FE0000 with (255 * 2 ^ 17).
  change 0x1FE00 with (255 * 2 ^ 9). change 0x1FE with (255 * 2 ^ 1).
  rewrite !pcr_field by (lia || apply u8_is_byte).
  rewrite (mask_low _ 1 1), Z.shiftr_div_pow2 by lia.
  pose proof (u8_range (pcr / 2 ^ 25)). pose proof (u8_range (pcr / 2 ^ 17)).
  pose proof (u8_range (pcr / 2 ^ 9)). pose proof (u8_range (pcr / 2 ^ 1)).
  assert (E : u64 (i8 (pcr mod 2 * 2 ^ 7 + 126)) / 2 ^ 7 mod 2 ^ 1 = pcr mod 2)
    by (unfold u64, i8; divlia).
  rewrite E. do 2 f_equal.
  rewrite (lor_high _ (u8 (pcr / 2 ^ 17) * 2 ^ 17) 25) by (lia || by apply Z.mod_mul).
  rewrite (lor_high _ (u8 (pcr / 2 ^ 9) * 2 ^ 9) 17) by (lia || divlia).
  rewrite (lor_high _ (u8 (pcr / 2 ^ 1) * 2 ^ 1) 9) by (lia || divlia).
  rewrite (lor_high _ (pcr mod 2) 1) by (lia || divlia).
  unfold u8 in *. clear -Hp. divlia.
Qed.

(** ** Facts: the crc *)
Lemma crcTable_range : Forall (λ x, 0 <= x < 2 ^ 32) crcTable.
Proof. apply (bool_decide_unpack _). vm_compute. exact I. Qed.
Lemma crcTable_bounds i : 0 <= crcTable !!! i < 2 ^ 32.
Proof.
  rewrite list_lookup_total_alt. destruct (crcTable !! i) as [x|] eqn:Hx; simpl; [|lia].
  by apply (Forall_lookup_1 _ _ _ _ crcTable_range Hx).
Qed.

Lemma lxor_lt_pow2 w x y :
  0 <= w → 0 <= x < 2 ^ w → 0 <= y < 2 ^ w → 0 <= Z.lxor x y < 2 ^ w.
Proof.
  intros Hw Hx Hy. rewrite <- (Z.mod_small x (2 ^ w)), <- (Z.mod_small y (2 ^ w)) by done.
  rewrite <- lxor_mod_pow2 by done. apply Z.mod_pos_bound. lia.
Qed.

Lemma crc32_step_range s x : 0 <= crc32_step s x < 2 ^ 32.
Proof. apply lxor_lt_pow2; [lia|apply u32_range|apply crcTable_bounds]. Qed.
Lemma crc32_range d : 0 <= crc32 d < 2 ^ 32.
Proof.
  unfold crc32. induction d as [|x d _] using rev_ind; [simpl; lia|].
  rewrite foldl_app. apply crc32_step_range.
Qed.

(** Feeding the top byte of the crc shifts it out. *)
Lemma crc32_step_top s : 0 <= s < 2 ^ 32 → crc32_step s (s / 2 ^ 24) = s mod 2 ^ 24 * 2 ^ 8.
Proof.
  intros Hs. unfold crc32_step. rewrite Z.shiftr_div_pow2, Z.lxor_nilpotent by lia.
  change (crcTable !!! Z.to_nat (Z.land 0 255)) with 0.
  rewrite Z.lxor_0_r, Z.shiftl_mul_pow2 by lia. unfold u32. divlia.
Qed.

(** The crc of data followed by its crc is zero. *)
Lemma crc32_residue d : crc32 (d ++ be_bytes 4 (crc32 d)) = 0.
Proof.
  pose proof (crc32_range d) as Hr. unfold crc32 at 1. rewrite foldl_app. fold (crc32 d).
  revert Hr. generalize (crc32 d). intros s Hs.
  assert (E : be_bytes 4 s =
    [s / 2 ^ 24; s mod 2 ^ 24 * 2 ^ 8 / 2 ^ 24; s mod 2 ^ 16 * 2 ^ 16 / 2 ^ 24;
     s mod 2 ^ 8 * 2 ^ 24 / 2 ^ 24]).
  { change (be_bytes 4 s) with
      [s / 2 ^ 8 / 2 ^ 8 / 2 ^ 8 mod 2 ^ 8; s / 2 ^ 8 / 2 ^ 8 mod 2 ^ 8; s / 2 ^ 8 mod 2 ^ 8; s mod 2 ^ 8].
    repeat f_equal; divlia. }
  rewrite E. cbn [foldl]. rewrite crc32_step_top by done.
  rewrite crc32_step_top by divlia.
  replace ((s mod 2 ^ 24 * 2 ^ 8) mod 2 ^ 24 * 2 ^ 8) with (s mod 2 ^ 16 * 2 ^ 16) by divlia.
  rewrite crc32_step_top by divlia.
  replace ((s mod 2 ^ 16 * 2 ^ 16) mod 2 ^ 24 * 2 ^ 8) with (s mod 2 ^ 8 * 2 ^ 24) by divlia.
  rewrite crc32_step_top by divlia. divlia.
Qed.

(** *** The polynomial of the table *)

(** The crc of MPEG-2, one bit at a time. *)
Definition CRC_POLY : Z := 0x04C11DB7.
Definition crc_shift (s : Z) : Z :=
  Z.lxor (u32 (2 * s)) (if Z.testbit s 31 then CRC_POLY else 0).
Definition crc_byte (s x : Z) : Z := Nat.iter 8 crc_shift (Z.lxor s (x * 2 ^ 24)).
Definition crc_bitwise (d : bytes) : Z := foldl crc_byte 0xffffffff d.

Lemma crc_shift_lxor a b : crc_shift (Z.lxor a b) = Z.lxor (crc_shift a) (crc_shift b).
Proof.
  unfold crc_shift, u32. rewrite Z.lxor_spec.
  replace (2 * Z.lxor a b) with (Z.lxor (2 * a) (2 * b))
    by (rewrite !(Z.mul_comm 2); change 2 with (2 ^ 1); by rewrite <- !Z.shiftl_mul_pow2, Z.shiftl_lxor).
  rewrite lxor_mod_pow2 by lia. apply Z.bits_inj'. intros n _.
  destruct (Z.testbit a 31), (Z.testbit b 31); cbn [xorb]; rewrite !Z.lxor_spec, ?Z.bits_0;
    destruct (Z.testbit _ n), (Z.testbit _ n), (Z.testbit CRC_POLY n); done.
Qed.
Lemma crc_iter_lxor n a b :
  Nat.iter n crc_shift (Z.lxor a b) = Z.lxor (Nat.iter n crc_shift a) (Nat.iter n crc_shift b).
Proof. induction n as [|n IH]; simpl; [done|]. by rewrite IH, crc_shift_lxor. Qed.

(** Bits below the top ones only move. *)
Lemma crc_shift_low s : 0 <= s < 2 ^ 31 → crc_shift s = 2 * s.
Proof.
  intros Hs. unfold crc_shift. rewrite <- (Z.mod_small s (2 ^ 31)) at 2 by done.
  rewrite Z.mod_pow2_bits_high by lia. rewrite Z.lxor_0_r. apply u32_small. lia.
Qed.
Lemma crc_iter_low n s : 0 <= s < 2 ^ (32 - Z.of_nat n) → (n <= 8)%nat →
  Nat.iter n crc_shift s = s * 2 ^ Z.of_nat n.
Proof.
  induction n as [|n IH]; intros Hs Hn; simpl Nat.iter; [lia|].
  assert (E : 2 ^ (32 - Z.of_nat n) = 2 * 2 ^ (32 - Z.of_nat (S n)))
    by (rewrite <- Z.pow_succ_r by lia; f_equal; lia).
  assert (E' : 2 ^ Z.of_nat (S n) = 2 * 2 ^ Z.of_nat n) by (rewrite <- Z.pow_succ_r by lia; f_equal; lia).
  rewrite IH by lia. rewrite crc_shift_low, E'; [lia|]. split; [nia|].
  assert (2 ^ (32 - Z.of_nat (S n)) * 2 ^ Z.of_nat n = 2 ^ 31) by (rewrite <- Z.pow_add_r by lia; f_equal; lia).
  nia.
Qed.

(** The entries of the table are the crcs of the top byte. *)
Lemma crcTable_shift : crcTable = map (λ i, Nat.iter 8 crc_shift (Z.of_nat i * 2 ^ 24)) (seq 0 256).
Proof. vm_compute. reflexivity. Qed.
Lemma crcTable_lookup h : is_byte h → crcTable !!! Z.to_nat h = Nat.iter 8 crc_shift (h * 2 ^ 24).
Proof.
  intros Hh. rewrite crcTable_shift. unfold is_byte in Hh. apply list_lookup_total_correct.
  rewrite list_lookup_fmap, lookup_seq_lt by lia.
  cbn [fmap option_fmap option_map]. by rewrite Nat.add_0_l, Z2Nat.id by lia.
Qed.

Lemma crc32_step_bitwise s x : 0 <= s < 2 ^ 32 → is_byte x → crc32_step s x = crc_byte s x.
Proof.
  intros Hs Hx. unfold crc32_step, crc_byte. rewrite land_255, Z.shiftl_mul_pow2, Z.shiftr_div_pow2 by lia.
  set (h := Z.lxor (s / 2 ^ 24) x).
  assert (Hh : is_byte h) by (apply lxor_byte; [unfold is_byte; divlia|done]).
  rewrite Z.mod_small, crcTable_lookup by done.
  assert (E : Z.lxor s (x * 2 ^ 24) = Z.lxor (s mod 2 ^ 24) (h * 2 ^ 24)).
  { rewrite (Z.div_mod s (2 ^ 24)) at 1 by lia.
    replace (2 ^ 24 * (s / 2 ^ 24) + s mod 2 ^ 24) with (Z.lor (s mod 2 ^ 24) (s / 2 ^ 24 * 2 ^ 24))
      by (rewrite lor_add; [lia|lia|apply Z.mod_pos_bound; lia]).
    replace (Z.lor (s mod 2 ^ 24) _) with (Z.lxor (s mod 2 ^ 24) (s / 2 ^ 24 * 2 ^ 24)).
    2: { symmetry. rewrite <- Z.shiftl_mul_pow2 by lia.
         apply Z.bits_inj'. intros n Hn. rewrite Z.lor_spec, Z.lxor_spec.
         destruct (Z.lt_ge_cases n 24).
         - rewrite Z.shiftl_spec_low by done. by destruct (Z.testbit _ n).
         - by rewrite Z.mod_pow2_bits_high by lia. }
    unfold h. rewrite Z.lxor_assoc. f_equal. rewrite <- !Z.shiftl_mul_pow2 by lia.
    by rewrite Z.shiftl_lxor. }
  rewrite E, crc_iter_lxor, (crc_iter_low 8 (s mod 2 ^ 24)) by (lia || by apply Z.mod_pos_bound).
  f_equal. unfold u32. change (Z.of_nat 8) with 8. divlia.
Qed.
Lemma crc32_bitwise d : are_bytes d → crc32 d = crc_bitwise d.
Proof.
  unfold crc_bitwise. induction d as [|x d IH] using rev_ind; intros Hd; [done|].
  apply are_bytes_app in Hd as [Hd Hx]. apply are_bytes_cons in Hx as [Hx _].
  unfold crc32 in *. rewrite !foldl_app, <- IH by done. cbn [foldl].
  apply crc32_step_bitwise; [apply (crc32_range d)|done].
Qed.
