(* ===== verification/TsPacket.v ===== *)
(** * Headers of MPEG-TS: src/3rd/mpegts/ts_packet.cpp

    Each header is a record of its fields, with [encode], [decode] and [size]
    of its class.  [decode] starts from the object it is called on and reads a
    buffer; it is [None] when the buffer ends too soon. *)
From S2P Require Import Prelude TsBuffer.

(** MpegTsAdaptationFieldType *)
Definition mPayloadOnly : Z := 0x01.
Definition mAdaptionOnly : Z := 0x02.
Definition mPayloadAdaptionBoth : Z := 0x03.

(** ** TsHeader *)
Record TsHeader := {
  th_mSyncByte : Z;
  th_mTransportErrorIndicator : Z;
  th_mPayloadUnitStartIndicator : Z;
  th_mTransportPriority : Z;
  th_mPid : Z;
  th_mTransportScramblingControl : Z;
  th_mAdaptationFieldControl : Z;
  th_mContinuityCounter : Z;
}.
Definition TsHeader_new : TsHeader := {|
  th_mSyncByte := 0x47; th_mTransportErrorIndicator := 0; th_mPayloadUnitStartIndicator := 0;
  th_mTransportPriority := 0; th_mPid := 0; th_mTransportScramblingControl := 0;
  th_mAdaptationFieldControl := 0; th_mContinuityCounter := 0 |}.

Definition TsHeader_encode (h : TsHeader) (rSb : SimpleBuffer) : SimpleBuffer :=
  let rSb := write1Byte (th_mSyncByte h) rSb in
  let lB1b2 := Z.land (th_mPid h) 0x1FFF in
  let lB1b2 := Z.lor lB1b2 (Z.land (Z.shiftl (th_mTransportPriority h) 13) 0x2000) in
  let lB1b2 := Z.lor lB1b2 (Z.land (Z.shiftl (th_mPayloadUnitStartIndicator h) 14) 0x4000) in
  let lB1b2 := Z.lor lB1b2 (Z.land (Z.shiftl (th_mTransportErrorIndicator h) 15) 0x8000) in
  let rSb := write2Bytes lB1b2 rSb in
  let lB3 := Z.land (th_mContinuityCounter h) 0x0F in
  let lB3 := Z.lor lB3 (Z.land (Z.shiftl (th_mAdaptationFieldControl h) 4) 0x30) in
  let lB3 := Z.lor lB3 (Z.land (Z.shiftl (th_mTransportScramblingControl h) 6) 0xC0) in
  write1Byte lB3 rSb.

(** [mTransportErrorIndicator] is assigned twice and [mTransportPriority]
    never. *)
Definition TsHeader_decode (h : TsHeader) (rSb : SimpleBuffer) : option (TsHeader * SimpleBuffer) :=
  '(sync, rSb) ← read1Byte rSb;
  '(v, rSb) ← read2Bytes rSb;
  let lB1b2 := u16 v in
  '(v, rSb) ← read1Byte rSb;
  let lB3 := u8 v in
  Some ({| th_mSyncByte := u8 sync;
           th_mTransportErrorIndicator := Z.land (Z.shiftr lB1b2 15) 0x01;
           th_mPayloadUnitStartIndicator := Z.land (Z.shiftr lB1b2 14) 0x01;
           th_mTransportPriority := th_mTransportPriority h;
           th_mPid := Z.land lB1b2 0x1FFF;
           th_mTransportScramblingControl := Z.land (Z.shiftr lB3 6) 0x03;
           th_mAdaptationFieldControl := Z.land (Z.shiftr lB3 4) 0x03;
           th_mContinuityCounter := Z.land lB3 0x0F |}, rSb).

(** ** PATHeader *)
Record PATHeader := {
  pat_mTableId : Z;
  pat_mSectionSyntaxIndicator : Z;
  pat_mB0 : Z;
  pat_mReserved0 : Z;
  pat_mSectionLength : Z;
  pat_mTransportStreamId : Z;
  pat_mReserved1 : Z;
  pat_mVersionNumber : Z;
  pat_mCurrentNextIndicator : Z;
  pat_mSectionNumber : Z;
  pat_mLastSectionNumber : Z;
}.
Definition PATHeader_new : PATHeader := {|
  pat_mTableId := 0; pat_mSectionSyntaxIndicator := 0; pat_mB0 := 0; pat_mReserved0 := 0;
  pat_mSectionLength := 0; pat_mTransportStreamId := 0; pat_mReserved1 := 0;
  pat_mVersionNumber := 0; pat_mCurrentNextIndicator := 0; pat_mSectionNumber := 0;
  pat_mLastSectionNumber := 0 |}.

(** What the PAT and the PMT share: the fields up to the section numbers.
    [mask] is the mask of the section length. *)
Definition section_head (mask tid sl r0 b0 ssi id cni ver r1 sn lsn : Z) (rSb : SimpleBuffer)
    : SimpleBuffer :=
  let rSb := write1Byte tid rSb in
  let lB1b2 := Z.land sl mask in
  let lB1b2 := Z.lor lB1b2 (Z.land (Z.shiftl r0 12) 0x3000) in
  let lB1b2 := Z.lor lB1b2 (Z.land (Z.shiftl b0 14) 0x4000) in
  let lB1b2 := Z.lor lB1b2 (Z.land (Z.shiftl ssi 15) 0x8000) in
  let rSb := write2Bytes lB1b2 rSb in
  let rSb := write2Bytes id rSb in
  let lB5 := Z.land cni 0x01 in
  let lB5 := Z.lor lB5 (Z.land (Z.shiftl ver 1) 0x3E) in
  let lB5 := Z.lor lB5 (Z.land (Z.shiftl r1 6) 0xC0) in
  let rSb := write1Byte lB5 rSb in
  write1Byte lsn (write1Byte sn rSb).

Definition PATHeader_encode (h : PATHeader) (rSb : SimpleBuffer) : SimpleBuffer :=
  section_head 0x0FFF (pat_mTableId h) (pat_mSectionLength h) (pat_mReserved0 h) (pat_mB0 h)
    (pat_mSectionSyntaxIndicator h) (pat_mTransportStreamId h) (pat_mCurrentNextIndicator h)
    (pat_mVersionNumber h) (pat_mReserved1 h) (pat_mSectionNumber h) (pat_mLastSectionNumber h) rSb.

(** [mReserved0] is not read. *)
Definition PATHeader_decode (h : PATHeader) (rSb : SimpleBuffer)
    : option (PATHeader * SimpleBuffer) :=
  '(tid, rSb) ← read1Byte rSb;
  '(v, rSb) ← read2Bytes rSb;
  let lB1b2 := u16 v in
  '(id, rSb) ← read2Bytes rSb;
  '(v, rSb) ← read1Byte rSb;
  let lB5 := u8 v in
  '(sn, rSb) ← read1Byte rSb;
  '(lsn, rSb) ← read1Byte rSb;
  Some ({| pat_mTableId := u8 tid;
           pat_mSectionSyntaxIndicator := Z.land (Z.shiftr lB1b2 15) 0x01;
           pat_mB0 := Z.land (Z.shiftr lB1b2 14) 0x01;
           pat_mReserved0 := pat_mReserved0 h;
           pat_mSectionLength := Z.land lB1b2 0x0FFF;
           pat_mTransportStreamId := u16 id;
           pat_mReserved1 := Z.land (Z.shiftr lB5 6) 0x03;
           pat_mVersionNumber := Z.land (Z.shiftr lB5 1) 0x1F;
           pat_mCurrentNextIndicator := Z.land lB5 0x01;
           pat_mSectionNumber := u8 sn;
           pat_mLastSectionNumber := u8 lsn |}, rSb).

(** ** PMTElementInfo *)
Record PMTElementInfo := {
  ei_mStreamType : Z;
  ei_mReserved0 : Z;
  ei_mElementaryPid : Z;
  ei_mReserved1 : Z;
  ei_mEsInfoLength : Z;
  ei_mEsInfo : bytes;
}.
Definition PMTElementInfo_new (lSt lPid : Z) : PMTElementInfo := {|
  ei_mStreamType := lSt; ei_mReserved0 := 0x7; ei_mElementaryPid := lPid; ei_mReserved1 := 0xf;
  ei_mEsInfoLength := 0; ei_mEsInfo := [] |}.

(** [mEsInfo] is not written. *)
Definition PMTElementInfo_encode (e : PMTElementInfo) (rSb : SimpleBuffer) : SimpleBuffer :=
  let rSb := write1Byte (ei_mStreamType e) rSb in
  let lB1b2 := Z.land (ei_mElementaryPid e) 0x1FFF in
  let lB1b2 := Z.lor lB1b2 (Z.land (Z.shiftl (ei_mReserved0 e) 13) 0xE000) in
  let rSb := write2Bytes lB1b2 rSb in
  let lB3b4 := Z.land (ei_mEsInfoLength e) 0x0FFF in
  let lB3b4 := Z.lor lB3b4 (Z.land (Z.shiftl (ei_mReserved1 e) 12) 0xF000) in
  write2Bytes lB3b4 rSb.

Definition PMTElementInfo_decode (e : PMTElementInfo) (rSb : SimpleBuffer)
    : option (PMTElementInfo * SimpleBuffer) :=
  '(st, rSb) ← read1Byte rSb;
  '(v, rSb) ← read2Bytes rSb;
  let lB1b2 := u16 v in
  '(v, rSb) ← read2Bytes rSb;
  let lB3b4 := u16 v in
  let len := Z.land lB3b4 0xFFF in
  '(info, rSb) ← (if 0 <? len then readString len rSb else Some (ei_mEsInfo e, rSb));
  Some ({| ei_mStreamType := u8 st;
           ei_mReserved0 := Z.land (Z.shiftr lB1b2 13) 0x07;
           ei_mElementaryPid := Z.land lB1b2 0x1FFF;
           ei_mReserved1 := Z.land (Z.shiftr lB3b4 12) 0xF;
           ei_mEsInfoLength := len;
           ei_mEsInfo := info |}, rSb).

Definition PMTElementInfo_size (e : PMTElementInfo) : Z := u16 (5 + ei_mEsInfoLength e).

(** ** PMTHeader *)
Record PMTHeader := {
  pmt_mTableId : Z;
  pmt_mSectionSyntaxIndicator : Z;
  pmt_mB0 : Z;
  pmt_mReserved0 : Z;
  pmt_mSectionLength : Z;
  pmt_mProgramNumber : Z;
  pmt_mReserved1 : Z;
  pmt_mVersionNumber : Z;
  pmt_mCurrentNextIndicator : Z;
  pmt_mSectionNumber : Z;
  pmt_mLastSectionNumber : Z;
  pmt_mReserved2 : Z;
  pmt_mPcrPid : Z;
  pmt_mReserved3 : Z;
  pmt_mProgramInfoLength : Z;
  pmt_mInfos : list PMTElementInfo;
}.
Definition PMTHeader_new : PMTHeader := {|
  pmt_mTableId := 0x02; pmt_mSectionSyntaxIndicator := 0; pmt_mB0 := 0; pmt_mReserved0 := 0;
  pmt_mSectionLength := 0; pmt_mProgramNumber := 0; pmt_mReserved1 := 0; pmt_mVersionNumber := 0;
  pmt_mCurrentNextIndicator := 0; pmt_mSectionNumber := 0; pmt_mLastSectionNumber := 0;
  pmt_mReserved2 := 0; pmt_mPcrPid := 0; pmt_mReserved3 := 0; pmt_mProgramInfoLength := 0;
  pmt_mInfos := [] |}.

Definition PMTHeader_encode (h : PMTHeader) (rSb : SimpleBuffer) : SimpleBuffer :=
  let rSb := section_head 0xFFFF (pmt_mTableId h) (pmt_mSectionLength h) (pmt_mReserved0 h)
    (pmt_mB0 h) (pmt_mSectionSyntaxIndicator h) (pmt_mProgramNumber h)
    (pmt_mCurrentNextIndicator h) (pmt_mVersionNumber h) (pmt_mReserved1 h)
    (pmt_mSectionNumber h) (pmt_mLastSectionNumber h) rSb in
  let lB8b9 := Z.land (pmt_mPcrPid h) 0x1FFF in
  let lB8b9 := Z.lor lB8b9 (Z.land (Z.shiftl (pmt_mReserved2 h) 13) 0xE000) in
  let rSb := write2Bytes lB8b9 rSb in
  let lB10b11 := Z.land (pmt_mProgramInfoLength h) 0xFFF in
  let lB10b11 := Z.lor lB10b11 (Z.land (Z.shiftl (pmt_mReserved3 h) 12) 0xF000) in
  let rSb := write2Bytes lB10b11 rSb in
  foldl (λ rSb e, PMTElementInfo_encode e rSb) rSb (pmt_mInfos h).

(** [while (lRemainBytes > 0)]: an element takes 5 bytes at least, so
    [lRemainBytes] rounds are enough. *)
Fixpoint decode_infos (fuel : nat) (lRemainBytes : Z) (infos : list PMTElementInfo)
    (rSb : SimpleBuffer) : option (list PMTElementInfo * SimpleBuffer) :=
  if lRemainBytes <=? 0 then Some (infos, rSb) else
  match fuel with
  | O => None
  | S fuel' =>
      '(e, rSb) ← PMTElementInfo_decode (PMTElementInfo_new 0 0) rSb;
      decode_infos fuel' (lRemainBytes - PMTElementInfo_size e) (infos ++ [e]) rSb
  end.

Definition PMTHeader_decode (h : PMTHeader) (rSb : SimpleBuffer)
    : option (PMTHeader * SimpleBuffer) :=
  '(tid, rSb) ← read1Byte rSb;
  '(v, rSb) ← read2Bytes rSb;
  let lB1b2 := u16 v in
  let sl := Z.land lB1b2 0xFFF in
  '(pn, rSb) ← read2Bytes rSb;
  '(v, rSb) ← read1Byte rSb;
  let lB5 := u8 v in
  '(sn, rSb) ← read1Byte rSb;
  '(lsn, rSb) ← read1Byte rSb;
  '(v, rSb) ← read2Bytes rSb;
  let lB8b9 := u16 v in
  '(v, rSb) ← read2Bytes rSb;
  let lB10b11 := u16 v in
  let pil := Z.land lB10b11 0xFFF in
  '(_, rSb) ← (if 0 <? pil then readString pil rSb else Some ([], rSb));
  let lRemainBytes := sl - 4 - 9 - pil in
  '(infos, rSb) ← decode_infos (Z.to_nat lRemainBytes) lRemainBytes (pmt_mInfos h) rSb;
  Some ({| pmt_mTableId := u8 tid;
           pmt_mSectionSyntaxIndicator := Z.land (Z.shiftr lB1b2 15) 0x01;
           pmt_mB0 := Z.land (Z.shiftr lB1b2 14) 0x01;
           pmt_mReserved0 := Z.land (Z.shiftr lB1b2 12) 0x03;
           pmt_mSectionLength := sl;
           pmt_mProgramNumber := u16 pn;
           pmt_mReserved1 := Z.land (Z.shiftr lB5 6) 0x03;
           pmt_mVersionNumber := Z.land (Z.shiftr lB5 1) 0x1F;
           pmt_mCurrentNextIndicator := Z.land lB5 0x01;
           pmt_mSectionNumber := u8 sn;
           pmt_mLastSectionNumber := u8 lsn;
           pmt_mReserved2 := Z.land (Z.shiftr lB8b9 13) 0x07;
           pmt_mPcrPid := Z.land lB8b9 0x1FFF;
           pmt_mReserved3 := Z.land (Z.shiftr lB10b11 12) 0xF;
           pmt_mProgramInfoLength := pil;
           pmt_mInfos := infos |}, rSb).

Definition PMTHeader_size (h : PMTHeader) : Z :=
  foldl (λ lRet e, u16 (lRet + PMTElementInfo_size e)) 12 (pmt_mInfos h).

(** ** AdaptationFieldHeader *)
Record AdaptationFieldHeader := {
  af_mAdaptationFieldLength : Z;
  af_mAdaptationFieldExtensionFlag : Z;
  af_mTransportPrivateDataFlag : Z;
  af_mSplicingPointFlag : Z;
  af_mOpcrFlag : Z;
  af_mPcrFlag : Z;
  af_mElementaryStreamPriorityIndicator : Z;
  af_mRandomAccessIndicator : Z;
  af_mDiscontinuityIndicator : Z;
}.
Definition AdaptationFieldHeader_new : AdaptationFieldHeader := {|
  af_mAdaptationFieldLength := 0; af_mAdaptationFieldExtensionFlag := 0;
  af_mTransportPrivateDataFlag := 0; af_mSplicingPointFlag := 0; af_mOpcrFlag := 0;
  af_mPcrFlag := 0; af_mElementaryStreamPriorityIndicator := 0; af_mRandomAccessIndicator := 0;
  af_mDiscontinuityIndicator := 0 |}.

Definition AdaptationFieldHeader_encode (h : AdaptationFieldHeader) (rSb : SimpleBuffer)
    : SimpleBuffer :=
  let rSb := write1Byte (af_mAdaptationFieldLength h) rSb in
  if negb (af_mAdaptationFieldLength h =? 0) then
    let lVal := Z.land (af_mAdaptationFieldExtensionFlag h) 0x01 in
    let lVal := Z.lor lVal (Z.land (Z.shiftl (af_mTransportPrivateDataFlag h) 1) 0x02) in
    let lVal := Z.lor lVal (Z.land (Z.shiftl (af_mSplicingPointFlag h) 2) 0x04) in
    let lVal := Z.lor lVal (Z.land (Z.shiftl (af_mOpcrFlag h) 3) 0x08) in
    let lVal := Z.lor lVal (Z.land (Z.shiftl (af_mPcrFlag h) 4) 0x10) in
    let lVal := Z.lor lVal (Z.land (Z.shiftl (af_mElementaryStreamPriorityIndicator h) 5) 0x20) in
    let lVal := Z.lor lVal (Z.land (Z.shiftl (af_mRandomAccessIndicator h) 6) 0x40) in
    let lVal := Z.lor lVal (Z.land (Z.shiftl (af_mDiscontinuityIndicator h) 7) 0x80) in
    write1Byte lVal rSb
  else rSb.

Definition AdaptationFieldHeader_decode (h : AdaptationFieldHeader) (rSb : SimpleBuffer)
    : option (AdaptationFieldHeader * SimpleBuffer) :=
  '(len, rSb) ← read1Byte rSb;
  if negb (u8 len =? 0) then
    '(v, rSb) ← read1Byte rSb;
    let lVal := u8 v in
    Some ({| af_mAdaptationFieldLength := u8 len;
             af_mAdaptationFieldExtensionFlag := Z.land lVal 0x01;
             af_mTransportPrivateDataFlag := Z.land (Z.shiftr lVal 1) 0x01;
             af_mSplicingPointFlag := Z.land (Z.shiftr lVal 2) 0x01;
             af_mOpcrFlag := Z.land (Z.shiftr lVal 3) 0x01;
             af_mPcrFlag := Z.land (Z.shiftr lVal 4) 0x01;
             af_mElementaryStreamPriorityIndicator := Z.land (Z.shiftr lVal 5) 0x01;
             af_mRandomAccessIndicator := Z.land (Z.shiftr lVal 6) 0x01;
             af_mDiscontinuityIndicator := Z.land (Z.shiftr lVal 7) 0x01 |}, rSb)
  else
    Some ({| af_mAdaptationFieldLength := 0;
             af_mAdaptationFieldExtensionFlag := af_mAdaptationFieldExtensionFlag h;
             af_mTransportPrivateDataFlag := af_mTransportPrivateDataFlag h;
             af_mSplicingPointFlag := af_mSplicingPointFlag h;
             af_mOpcrFlag := af_mOpcrFlag h;
             af_mPcrFlag := af_mPcrFlag h;
             af_mElementaryStreamPriorityIndicator := af_mElementaryStreamPriorityIndicator h;
             af_mRandomAccessIndicator := af_mRandomAccessIndicator h;
             af_mDiscontinuityIndicator := af_mDiscontinuityIndicator h |}, rSb).

(** ** PESHeader *)
Record PESHeader := {
  pes_mPacketStartCode : Z;
  pes_mStreamId : Z;
  pes_mPesPacketLength : Z;
  pes_mOriginalOrCopy : Z;
  pes_mCopyright : Z;
  pes_mDataAlignmentIndicator : Z;
  pes_mPesPriority : Z;
  pes_mPesScramblingControl : Z;
  pes_mMarkerBits : Z;
  pes_mPesExtFlag : Z;
  pes_mPesCrcFlag : Z;
  pes_mAddCopyInfoFlag : Z;
  pes_mDsmTrickModeFlag : Z;
  pes_mEsRateFlag : Z;
  pes_mEscrFlag : Z;
  pes_mPtsDtsFlags : Z;
  pes_mHeaderDataLength : Z;
}.
Definition PESHeader_new : PESHeader := {|
  pes_mPacketStartCode := 0x000001; pes_mStreamId := 0; pes_mPesPacketLength := 0;
  pes_mOriginalOrCopy := 0; pes_mCopyright := 0; pes_mDataAlignmentIndicator := 0;
  pes_mPesPriority := 0; pes_mPesScramblingControl := 0; pes_mMarkerBits := 0x02;
  pes_mPesExtFlag := 0; pes_mPesCrcFlag := 0; pes_mAddCopyInfoFlag := 0;
  pes_mDsmTrickModeFlag := 0; pes_mEsRateFlag := 0; pes_mEscrFlag := 0; pes_mPtsDtsFlags := 0;
  pes_mHeaderDataLength := 0 |}.

Definition PESHeader_encode (h : PESHeader) (rSb : SimpleBuffer) : SimpleBuffer :=
  let lB0b1b2b3 := Z.land (u32 (Z.shiftl (pes_mPacketStartCode h) 8)) 0xFFFFFF00 in
  let lB0b1b2b3 := Z.lor lB0b1b2b3 (Z.land (pes_mStreamId h) 0xFF) in
  let rSb := write4Bytes lB0b1b2b3 rSb in
  let rSb := write2Bytes (pes_mPesPacketLength h) rSb in
  let lB6 := Z.land (pes_mOriginalOrCopy h) 0x01 in
  let lB6 := Z.lor lB6 (Z.land (Z.shiftl (pes_mCopyright h) 1) 0x02) in
  let lB6 := Z.lor lB6 (Z.land (Z.shiftl (pes_mDataAlignmentIndicator h) 2) 0x04) in
  let lB6 := Z.lor lB6 (Z.land (Z.shiftl (pes_mPesPriority h) 3) 0x08) in
  let lB6 := Z.lor lB6 (Z.land (Z.shiftl (pes_mPesScramblingControl h) 4) 0x30) in
  let lB6 := Z.lor lB6 (Z.land (Z.shiftl (pes_mMarkerBits h) 6) 0xC0) in
  let rSb := write1Byte lB6 rSb in
  let lB7 := Z.land (pes_mPesExtFlag h) 0x01 in
  let lB7 := Z.lor lB7 (Z.land (Z.shiftl (pes_mPesCrcFlag h) 1) 0x02) in
  let lB7 := Z.lor lB7 (Z.land (Z.shiftl (pes_mAddCopyInfoFlag h) 2) 0x04) in
  let lB7 := Z.lor lB7 (Z.land (Z.shiftl (pes_mDsmTrickModeFlag h) 3) 0x08) in
  let lB7 := Z.lor lB7 (Z.land (Z.shiftl (pes_mEsRateFlag h) 4) 0x10) in
  let lB7 := Z.lor lB7 (Z.land (Z.shiftl (pes_mEscrFlag h) 5) 0x20) in
  let lB7 := Z.lor lB7 (Z.land (Z.shiftl (pes_mPtsDtsFlags h) 6) 0xC0) in
  let rSb := write1Byte lB7 rSb in
  write1Byte (pes_mHeaderDataLength h) rSb.

Definition PESHeader_decode (h : PESHeader) (rSb : SimpleBuffer)
    : option (PESHeader * SimpleBuffer) :=
  '(v, rSb) ← read4Bytes rSb;
  let lB0b1b2b3 := u32 v in
  '(len, rSb) ← read2Bytes rSb;
  '(v, rSb) ← read1Byte rSb;
  let lB6 := u8 v in
  '(v, rSb) ← read1Byte rSb;
  let lB7 := u8 v in
  '(hdl, rSb) ← read1Byte rSb;
  Some ({| pes_mPacketStartCode := Z.land (Z.shiftr lB0b1b2b3 8) 0x00FFFFFF;
           pes_mStreamId := Z.land lB0b1b2b3 0xFF;
           pes_mPesPacketLength := u16 len;
           pes_mOriginalOrCopy := Z.land lB6 0x01;
           pes_mCopyright := Z.land (Z.shiftr lB6 1) 0x01;
           pes_mDataAlignmentIndicator := Z.land (Z.shiftr lB6 2) 0x01;
           pes_mPesPriority := Z.land (Z.shiftr lB6 3) 0x01;
           pes_mPesScramblingControl := Z.land (Z.shiftr lB6 4) 0x03;
           pes_mMarkerBits := Z.land (Z.shiftr lB6 6) 0x03;
           pes_mPesExtFlag := Z.land lB7 0x01;
           pes_mPesCrcFlag := Z.land (Z.shiftr lB7 1) 0x01;
           pes_mAddCopyInfoFlag := Z.land (Z.shiftr lB7 2) 0x01;
           pes_mDsmTrickModeFlag := Z.land (Z.shiftr lB7 3) 0x01;
           pes_mEsRateFlag := Z.land (Z.shiftr lB7 4) 0x01;
           pes_mEscrFlag := Z.land (Z.shiftr lB7 5) 0x01;
           pes_mPtsDtsFlags := Z.land (Z.shiftr lB7 6) 0x03;
           pes_mHeaderDataLength := u8 hdl |}, rSb).

(** ** Facts: the bytes of a header

    Each header is written as a list of bytes at the end of the buffer, and
    reading these bytes gives the fields back. *)
Definition bit (x : Z) : Prop := 0 <= x < 2.

(** Reads a buffer given by [cur] step by step. *)
Lemma cur_app pre l1 l2 rest : cur pre ((l1 ++ l2) ++ rest) = cur pre (l1 ++ l2 ++ rest).
Proof. by rewrite app_assoc. Qed.
Lemma cur_cons pre x l rest : cur pre ((x :: l) ++ rest) = cur pre (x :: (l ++ rest)).
Proof. done. Qed.
Ltac read_step :=
  first [ rewrite read1_cur | rewrite read2_cur | rewrite read4_cur ]; cbn [mbind option_bind].

Definition ts_word (h : TsHeader) : Z :=
  th_mPid h + th_mTransportPriority h * 2 ^ 13 + th_mPayloadUnitStartIndicator h * 2 ^ 14 +
  th_mTransportErrorIndicator h * 2 ^ 15.
Definition ts_last (h : TsHeader) : Z :=
  th_mContinuityCounter h + th_mAdaptationFieldControl h * 2 ^ 4 +
  th_mTransportScramblingControl h * 2 ^ 6.
Definition ts_bytes (h : TsHeader) : bytes :=
  th_mSyncByte h :: be_bytes 2 (ts_word h) ++ [ts_last h].

Record ts_ok (h : TsHeader) : Prop := {
  tk_sync : is_byte (th_mSyncByte h);
  tk_tei : bit (th_mTransportErrorIndicator h);
  tk_pusi : bit (th_mPayloadUnitStartIndicator h);
  tk_prio : bit (th_mTransportPriority h);
  tk_pid : 0 <= th_mPid h < 2 ^ 13;
  tk_tsc : 0 <= th_mTransportScramblingControl h < 2 ^ 2;
  tk_afc : 0 <= th_mAdaptationFieldControl h < 2 ^ 2;
  tk_cc : 0 <= th_mContinuityCounter h < 2 ^ 4;
}.

Lemma TsHeader_encode_bytes h b : ts_ok h → TsHeader_encode h b = push_back (ts_bytes h) b.
Proof.
  intros []. unfold bit, is_byte in *. unfold TsHeader_encode, write1Byte, write2Bytes.
  rewrite !push_push. f_equal. unfold ts_bytes, ts_word, ts_last. cbn [app]. fields.
  by rewrite !u8_small by lia.
Qed.

(** The transport priority is not read. *)
Definition ts_with_priority (p : Z) (h : TsHeader) : TsHeader := {|
  th_mSyncByte := th_mSyncByte h; th_mTransportErrorIndicator := th_mTransportErrorIndicator h;
  th_mPayloadUnitStartIndicator := th_mPayloadUnitStartIndicator h; th_mTransportPriority := p; th_mPid := th_mPid h;
  th_mTransportScramblingControl := th_mTransportScramblingControl h;
  th_mAdaptationFieldControl := th_mAdaptationFieldControl h; th_mContinuityCounter := th_mContinuityCounter h |}.
Lemma TsHeader_decode_bytes h0 h pre rest : ts_ok h →
  TsHeader_decode h0 (cur pre (ts_bytes h ++ rest)) =
  Some ({| th_mSyncByte := th_mSyncByte h;
           th_mTransportErrorIndicator := th_mTransportErrorIndicator h;
           th_mPayloadUnitStartIndicator := th_mPayloadUnitStartIndicator h;
           th_mTransportPriority := th_mTransportPriority h0; th_mPid := th_mPid h;
           th_mTransportScramblingControl := th_mTransportScramblingControl h;
           th_mAdaptationFieldControl := th_mAdaptationFieldControl h;
           th_mContinuityCounter := th_mContinuityCounter h |}, cur (pre ++ ts_bytes h) rest).
Proof.
  intros []. unfold bit, is_byte in *. unfold TsHeader_decode, ts_bytes.
  cbn [app]. rewrite <- app_assoc. cbn [app].
  repeat read_step. rewrite <- !app_assoc. cbn [app].
  rewrite u16_i16, !u8_i8. fields.
  assert (0 <= ts_word h < 2 ^ 16) by (unfold ts_word; lia).
  assert (0 <= ts_last h < 2 ^ 8) by (unfold ts_last; lia).
  rewrite (Z.mod_small (ts_word h)), u16_small, !u8_small by lia.
  do 3 f_equal; unfold ts_word, ts_last in *; divlia.
Qed.

(** *** PES headers *)
Definition pes_b6 (h : PESHeader) : Z :=
  pes_mOriginalOrCopy h + pes_mCopyright h * 2 ^ 1 + pes_mDataAlignmentIndicator h * 2 ^ 2 +
  pes_mPesPriority h * 2 ^ 3 + pes_mPesScramblingControl h * 2 ^ 4 + pes_mMarkerBits h * 2 ^ 6.
Definition pes_b7 (h : PESHeader) : Z :=
  pes_mPesExtFlag h + pes_mPesCrcFlag h * 2 ^ 1 + pes_mAddCopyInfoFlag h * 2 ^ 2 +
  pes_mDsmTrickModeFlag h * 2 ^ 3 + pes_mEsRateFlag h * 2 ^ 4 + pes_mEscrFlag h * 2 ^ 5 +
  pes_mPtsDtsFlags h * 2 ^ 6.
Definition pes_bytes (h : PESHeader) : bytes :=
  be_bytes 4 (pes_mStreamId h + pes_mPacketStartCode h * 2 ^ 8) ++
  be_bytes 2 (pes_mPesPacketLength h) ++ [pes_b6 h; pes_b7 h; pes_mHeaderDataLength h].

Record pes_ok (h : PESHeader) : Prop := {
  pk_start : 0 <= pes_mPacketStartCode h < 2 ^ 24;
  pk_sid : is_byte (pes_mStreamId h);
  pk_len : 0 <= pes_mPesPacketLength h < 2 ^ 16;
  pk_b6 : bit (pes_mOriginalOrCopy h) ∧ bit (pes_mCopyright h) ∧
          bit (pes_mDataAlignmentIndicator h) ∧ bit (pes_mPesPriority h) ∧
          0 <= pes_mPesScramblingControl h < 2 ^ 2 ∧ 0 <= pes_mMarkerBits h < 2 ^ 2;
  pk_b7 : bit (pes_mPesExtFlag h) ∧ bit (pes_mPesCrcFlag h) ∧ bit (pes_mAddCopyInfoFlag h) ∧
          bit (pes_mDsmTrickModeFlag h) ∧ bit (pes_mEsRateFlag h) ∧ bit (pes_mEscrFlag h) ∧
          0 <= pes_mPtsDtsFlags h < 2 ^ 2;
  pk_hdl : is_byte (pes_mHeaderDataLength h);
}.

Lemma PESHeader_encode_bytes h b : pes_ok h → PESHeader_encode h b = push_back (pes_bytes h) b.
Proof.
  intros []. unfold bit, is_byte in *. unfold PESHeader_encode, write1Byte, write2Bytes, write4Bytes.
  rewrite !push_push. f_equal. unfold pes_bytes, pes_b6, pes_b7. cbn [app].
  rewrite u32_small by (rewrite Z.shiftl_mul_pow2 by lia; lia). rewrite Z.lor_comm. fields.
  by rewrite !u8_small by lia.
Qed.

Lemma PESHeader_decode_bytes h0 h pre rest : pes_ok h →
  PESHeader_decode h0 (cur pre (pes_bytes h ++ rest)) = Some (h, cur (pre ++ pes_bytes h) rest).
Proof.
  intros []. unfold bit, is_byte in *. unfold PESHeader_decode, pes_bytes.
  rewrite <- !app_assoc. cbn [app].
  repeat read_step. rewrite <- !app_assoc. cbn [app].
  rewrite u16_i16, u32_i32, !u8_i8.
  set (w := pes_mStreamId h + pes_mPacketStartCode h * 2 ^ 8).
  assert (0 <= w < 2 ^ 32) by (unfold w; lia).
  assert (0 <= pes_b6 h < 2 ^ 8) by (unfold pes_b6; lia).
  assert (0 <= pes_b7 h < 2 ^ 8) by (unfold pes_b7; lia).
  rewrite (u32_small (_ mod _)), u16_small, !u8_small by (rewrite ?Z.mod_small by lia; lia).
  fields. destruct h. unfold w, pes_b6, pes_b7 in *. cbn in *. do 3 f_equal; divlia.
Qed.

(** *** Adaptation fields *)
Definition af_flags (h : AdaptationFieldHeader) : Z :=
  af_mAdaptationFieldExtensionFlag h + af_mTransportPrivateDataFlag h * 2 ^ 1 +
  af_mSplicingPointFlag h * 2 ^ 2 + af_mOpcrFlag h * 2 ^ 3 + af_mPcrFlag h * 2 ^ 4 +
  af_mElementaryStreamPriorityIndicator h * 2 ^ 5 + af_mRandomAccessIndicator h * 2 ^ 6 +
  af_mDiscontinuityIndicator h * 2 ^ 7.
Definition af_bytes (h : AdaptationFieldHeader) : bytes :=
  if af_mAdaptationFieldLength h =? 0 then [0] else [af_mAdaptationFieldLength h; af_flags h].

Record af_ok (h : AdaptationFieldHeader) : Prop := {
  ak_len : is_byte (af_mAdaptationFieldLength h);
  ak_flags : bit (af_mAdaptationFieldExtensionFlag h) ∧ bit (af_mTransportPrivateDataFlag h) ∧
             bit (af_mSplicingPointFlag h) ∧ bit (af_mOpcrFlag h) ∧ bit (af_mPcrFlag h) ∧
             bit (af_mElementaryStreamPriorityIndicator h) ∧ bit (af_mRandomAccessIndicator h) ∧
             bit (af_mDiscontinuityIndicator h);
}.

Lemma af_encode_bytes h b : af_ok h → AdaptationFieldHeader_encode h b = push_back (af_bytes h) b.
Proof.
  intros []. unfold bit, is_byte in *. unfold AdaptationFieldHeader_encode, write1Byte, af_bytes.
  destruct (Z.eqb_spec (af_mAdaptationFieldLength h) 0) as [->|]; [done|]. cbn [negb].
  rewrite !push_push. f_equal. cbn [app]. unfold af_flags. fields. by rewrite !u8_small by lia.
Qed.

Lemma af_decode_bytes h0 h pre rest : af_ok h → af_mAdaptationFieldLength h ≠ 0 →
  AdaptationFieldHeader_decode h0 (cur pre (af_bytes h ++ rest)) =
  Some (h, cur (pre ++ af_bytes h) rest).
Proof.
  intros [] Hl. unfold bit, is_byte in *. unfold AdaptationFieldHeader_decode, af_bytes.
  rewrite (proj2 (Z.eqb_neq _ _) Hl). cbn [app].
  assert (0 <= af_flags h < 2 ^ 8) by (unfold af_flags; lia).
  read_step. rewrite u8_i8, u8_small, (proj2 (Z.eqb_neq _ _) Hl) by lia. cbn [negb].
  read_step. rewrite u8_i8, u8_small, <- app_assoc by lia. cbn [app]. fields.
  destruct h. unfold af_flags in *. cbn in *. do 3 f_equal; divlia.
Qed.

(** A field of length 0 has no flags: those of the header that is read stay. *)
Definition af_without (h : AdaptationFieldHeader) : AdaptationFieldHeader := {|
  af_mAdaptationFieldLength := 0; af_mAdaptationFieldExtensionFlag := af_mAdaptationFieldExtensionFlag h;
  af_mTransportPrivateDataFlag := af_mTransportPrivateDataFlag h; af_mSplicingPointFlag := af_mSplicingPointFlag h;
  af_mOpcrFlag := af_mOpcrFlag h; af_mPcrFlag := af_mPcrFlag h;
  af_mElementaryStreamPriorityIndicator := af_mElementaryStreamPriorityIndicator h;
  af_mRandomAccessIndicator := af_mRandomAccessIndicator h; af_mDiscontinuityIndicator := af_mDiscontinuityIndicator h |}.
Lemma af_decode_empty h0 h pre rest : af_mAdaptationFieldLength h = 0 →
  AdaptationFieldHeader_decode h0 (cur pre (af_bytes h ++ rest)) = Some (af_without h0, cur (pre ++ af_bytes h) rest).
Proof. intros E. unfold AdaptationFieldHeader_decode, af_bytes. rewrite E. cbn [app Z.eqb]. by read_step. Qed.

(** The empty field, of one byte: it is also the pointer field of a section. *)
Lemma af_encode_new b : AdaptationFieldHeader_encode AdaptationFieldHeader_new b = push_back [0] b.
Proof. done. Qed.
Lemma af_decode_zero h pre rest :
  ∃ h', AdaptationFieldHeader_decode h (cur pre (0 :: rest)) = Some (h', cur (pre ++ [0]) rest) ∧
    af_mAdaptationFieldLength h' = 0 ∧ af_mPcrFlag h' = af_mPcrFlag h ∧
    af_mRandomAccessIndicator h' = af_mRandomAccessIndicator h.
Proof.
  unfold AdaptationFieldHeader_decode. read_step. simpl. by eexists.
Qed.

(** *** Sections *)
Definition sec_word (sl r0 b0 ssi : Z) : Z := sl + r0 * 2 ^ 12 + b0 * 2 ^ 14 + ssi * 2 ^ 15.
Definition sec_b5 (cni ver r1 : Z) : Z := cni + ver * 2 ^ 1 + r1 * 2 ^ 6.
Definition section_bytes (tid sl r0 b0 ssi id cni ver r1 sn lsn : Z) : bytes :=
  tid :: be_bytes 2 (sec_word sl r0 b0 ssi) ++ be_bytes 2 id ++ [sec_b5 cni ver r1; sn; lsn].

Definition section_ok (tid sl r0 b0 ssi id cni ver r1 sn lsn : Z) : Prop :=
  is_byte tid ∧ 0 <= sl < 2 ^ 12 ∧ 0 <= r0 < 2 ^ 2 ∧ bit b0 ∧ bit ssi ∧ 0 <= id < 2 ^ 16 ∧
  bit cni ∧ 0 <= ver < 2 ^ 5 ∧ 0 <= r1 < 2 ^ 2 ∧ is_byte sn ∧ is_byte lsn.

Lemma section_head_bytes mask tid sl r0 b0 ssi id cni ver r1 sn lsn b :
  section_ok tid sl r0 b0 ssi id cni ver r1 sn lsn → mask = 0xFFF ∨ mask = 0xFFFF →
  section_head mask tid sl r0 b0 ssi id cni ver r1 sn lsn b =
  push_back (section_bytes tid sl r0 b0 ssi id cni ver r1 sn lsn) b.
Proof.
  unfold section_ok, bit, is_byte. intros (?&?&?&?&?&?&?&?&?&?&?) Hm.
  unfold section_head, write1Byte, write2Bytes. rewrite !push_push. f_equal.
  unfold section_bytes, sec_word, sec_b5. cbn [app].
  destruct Hm as [-> | ->]; fields; by rewrite !u8_small by lia.
Qed.

Definition pat_ok (h : PATHeader) : Prop :=
  section_ok (pat_mTableId h) (pat_mSectionLength h) (pat_mReserved0 h) (pat_mB0 h)
    (pat_mSectionSyntaxIndicator h) (pat_mTransportStreamId h) (pat_mCurrentNextIndicator h)
    (pat_mVersionNumber h) (pat_mReserved1 h) (pat_mSectionNumber h) (pat_mLastSectionNumber h).
Definition pat_bytes (h : PATHeader) : bytes :=
  section_bytes (pat_mTableId h) (pat_mSectionLength h) (pat_mReserved0 h) (pat_mB0 h)
    (pat_mSectionSyntaxIndicator h) (pat_mTransportStreamId h) (pat_mCurrentNextIndicator h)
    (pat_mVersionNumber h) (pat_mReserved1 h) (pat_mSectionNumber h) (pat_mLastSectionNumber h).

Lemma PATHeader_encode_bytes h b : pat_ok h → PATHeader_encode h b = push_back (pat_bytes h) b.
Proof. intros H. unfold PATHeader_encode. apply section_head_bytes; auto. Qed.

(** The reserved bits of the first word are not read. *)
Definition pat_with_reserved (r : Z) (h : PATHeader) : PATHeader := {|
  pat_mTableId := pat_mTableId h; pat_mSectionSyntaxIndicator := pat_mSectionSyntaxIndicator h;
  pat_mB0 := pat_mB0 h; pat_mReserved0 := r; pat_mSectionLength := pat_mSectionLength h;
  pat_mTransportStreamId := pat_mTransportStreamId h; pat_mReserved1 := pat_mReserved1 h;
  pat_mVersionNumber := pat_mVersionNumber h;
  pat_mCurrentNextIndicator := pat_mCurrentNextIndicator h;
  pat_mSectionNumber := pat_mSectionNumber h; pat_mLastSectionNumber := pat_mLastSectionNumber h |}.
Lemma PATHeader_decode_bytes h0 h pre rest : pat_ok h →
  PATHeader_decode h0 (cur pre (pat_bytes h ++ rest)) =
  Some (pat_with_reserved (pat_mReserved0 h0) h, cur (pre ++ pat_bytes h) rest).
Proof.
  unfold pat_ok, section_ok, bit, is_byte. intros (?&?&?&?&?&?&?&?&?&?&?).
  unfold PATHeader_decode, pat_bytes, section_bytes. cbn [app]. rewrite <- !app_assoc. cbn [app].
  repeat read_step. rewrite <- !app_assoc. cbn [app]. rewrite !u16_i16, !u8_i8.
  set (w := sec_word _ _ _ _). set (c := sec_b5 _ _ _).
  assert (0 <= w < 2 ^ 16) by (unfold w, sec_word; lia).
  assert (0 <= c < 2 ^ 8) by (unfold c, sec_b5; lia).
  rewrite !(Z.mod_small _ (2 ^ 16)), !u16_small, !u8_small by lia. fields. unfold pat_with_reserved.
  destruct h. unfold w, c, sec_word, sec_b5 in *. cbn in *. do 3 f_equal; divlia.
Qed.

(** *** The elements of a PMT, without descriptors *)
Definition ei_bytes (e : PMTElementInfo) : bytes :=
  ei_mStreamType e :: be_bytes 2 (ei_mElementaryPid e + ei_mReserved0 e * 2 ^ 13) ++
  be_bytes 2 (ei_mEsInfoLength e + ei_mReserved1 e * 2 ^ 12).
Record ei_ok (e : PMTElementInfo) : Prop := {
  ek_type : is_byte (ei_mStreamType e);
  ek_r0 : 0 <= ei_mReserved0 e < 2 ^ 3;
  ek_pid : 0 <= ei_mElementaryPid e < 2 ^ 13;
  ek_r1 : 0 <= ei_mReserved1 e < 2 ^ 4;
  ek_len : ei_mEsInfoLength e = 0;
  ek_info : ei_mEsInfo e = [];
}.

Lemma ei_encode_bytes e b : ei_ok e → PMTElementInfo_encode e b = push_back (ei_bytes e) b.
Proof.
  intros []. unfold is_byte in *. unfold PMTElementInfo_encode, write1Byte, write2Bytes.
  rewrite !push_push. f_equal. unfold ei_bytes. cbn [app]. fields. by rewrite !u8_small by lia.
Qed.

Lemma ei_decode_bytes e pre rest : ei_ok e →
  PMTElementInfo_decode (PMTElementInfo_new 0 0) (cur pre (ei_bytes e ++ rest)) =
  Some (e, cur (pre ++ ei_bytes e) rest).
Proof.
  intros []. unfold is_byte in *. unfold PMTElementInfo_decode, ei_bytes. cbn [app].
  rewrite <- !app_assoc. repeat read_step. rewrite <- !app_assoc. cbn [app].
  rewrite !u16_i16, !u8_i8, !u16_small, u8_small by (rewrite ?Z.mod_small by lia; lia).
  rewrite ek_len0. fields.
  rewrite (proj2 (Z.ltb_ge _ _)) by divlia. cbn [mbind option_bind].
  destruct e. cbn in *. subst. do 3 f_equal; divlia.
Qed.

Lemma length_ei_bytes e : length (ei_bytes e) = 5%nat.
Proof. unfold ei_bytes. len. Qed.
Lemma ei_size e : ei_ok e → PMTElementInfo_size e = 5.
Proof. intros []. unfold PMTElementInfo_size. by rewrite ek_len0. Qed.
#[export] Hint Rewrite length_ei_bytes : len.

Lemma ei_encodes l : ∀ b, Forall ei_ok l →
  foldl (λ rSb e, PMTElementInfo_encode e rSb) b l = push_back (concat (map ei_bytes l)) b.
Proof.
  induction l as [|e l IH]; intros b Hl; simpl.
  - destruct b. unfold push_back, with_data. simpl. by rewrite app_nil_r.
  - apply Forall_cons in Hl as [He Hl]. by rewrite IH, ei_encode_bytes, push_push.
Qed.

Lemma decode_infos_bytes l : ∀ fuel n infos pre rest,
  Forall ei_ok l → n = 5 * Z.of_nat (length l) → (length l <= fuel)%nat →
  decode_infos fuel n infos (cur pre (concat (map ei_bytes l) ++ rest)) =
  Some (infos ++ l, cur (pre ++ concat (map ei_bytes l)) rest).
Proof.
  induction l as [|e l IH]; intros fuel n infos pre rest Hl -> Hf.
  - simpl. destruct fuel; simpl; by rewrite !app_nil_r.
  - apply Forall_cons in Hl as [He Hl]. destruct fuel as [|fuel]; simpl length in *; [lia|].
    cbn [decode_infos]. rewrite (proj2 (Z.leb_gt _ _)) by lia.
    cbn [map concat]. rewrite <- app_assoc, ei_decode_bytes by done. cbn [mbind option_bind].
    rewrite ei_size by done. rewrite IH by (done || lia). by rewrite <- !app_assoc.
Qed.

Lemma pmt_size_infos l n : Forall ei_ok l → 0 <= n → n + 5 * Z.of_nat (length l) < 2 ^ 16 →
  foldl (λ lRet e, u16 (lRet + PMTElementInfo_size e)) n l = n + 5 * Z.of_nat (length l).
Proof.
  revert n. induction l as [|e l IH]; intros n Hl Hn Hs; simpl; [lia|].
  apply Forall_cons in Hl as [He Hl]. simpl length in Hs.
  rewrite ei_size, u16_small, IH by (done || lia). lia.
Qed.

(** *** PMT headers *)
Definition pmt_bytes (h : PMTHeader) : bytes :=
  section_bytes (pmt_mTableId h) (pmt_mSectionLength h) (pmt_mReserved0 h) (pmt_mB0 h)
    (pmt_mSectionSyntaxIndicator h) (pmt_mProgramNumber h) (pmt_mCurrentNextIndicator h)
    (pmt_mVersionNumber h) (pmt_mReserved1 h) (pmt_mSectionNumber h) (pmt_mLastSectionNumber h) ++
  be_bytes 2 (pmt_mPcrPid h + pmt_mReserved2 h * 2 ^ 13) ++
  be_bytes 2 (pmt_mProgramInfoLength h + pmt_mReserved3 h * 2 ^ 12) ++
  concat (map ei_bytes (pmt_mInfos h)).
Record pmt_ok (h : PMTHeader) : Prop := {
  mk_sec : section_ok (pmt_mTableId h) (pmt_mSectionLength h) (pmt_mReserved0 h) (pmt_mB0 h)
    (pmt_mSectionSyntaxIndicator h) (pmt_mProgramNumber h) (pmt_mCurrentNextIndicator h)
    (pmt_mVersionNumber h) (pmt_mReserved1 h) (pmt_mSectionNumber h) (pmt_mLastSectionNumber h);
  mk_r2 : 0 <= pmt_mReserved2 h < 2 ^ 3;
  mk_pcr : 0 <= pmt_mPcrPid h < 2 ^ 13;
  mk_r3 : 0 <= pmt_mReserved3 h < 2 ^ 4;
  mk_pil : pmt_mProgramInfoLength h = 0;
  mk_infos : Forall ei_ok (pmt_mInfos h);
  (** the section length covers the elements and the crc *)
  mk_len : pmt_mSectionLength h = 13 + 5 * Z.of_nat (length (pmt_mInfos h));
}.

Lemma PMTHeader_encode_bytes h b : pmt_ok h → PMTHeader_encode h b = push_back (pmt_bytes h) b.
Proof.
  intros []. unfold PMTHeader_encode. rewrite section_head_bytes, ei_encodes by auto.
  unfold write2Bytes. rewrite !push_push. f_equal. unfold pmt_bytes. fields. done.
Qed.

Lemma PMTHeader_decode_bytes h0 h pre rest :
  pmt_ok h → pmt_mInfos h0 = [] →
  PMTHeader_decode h0 (cur pre (pmt_bytes h ++ rest)) = Some (h, cur (pre ++ pmt_bytes h) rest).
Proof.
  intros [Hsec ?????] Hi. unfold section_ok, bit, is_byte in Hsec.
  destruct Hsec as (?&?&?&?&?&?&?&?&?&?&?).
  unfold PMTHeader_decode, pmt_bytes, section_bytes. cbn [app]. rewrite <- !app_assoc. cbn [app].
  repeat read_step. rewrite !u16_i16, !u8_i8.
  set (w := sec_word _ _ _ _). set (c := sec_b5 _ _ _).
  assert (0 <= w < 2 ^ 16) by (unfold w, sec_word; lia).
  assert (0 <= c < 2 ^ 8) by (unfold c, sec_b5; lia).
  rewrite mk_pil0, !(Z.mod_small _ (2 ^ 16)), !u16_small, !u8_small by lia. fields.
  rewrite (proj2 (Z.ltb_ge _ _)) by divlia. cbn [mbind option_bind].
  assert (Hw : w mod 2 ^ 12 = pmt_mSectionLength h) by (unfold w, sec_word; divlia).
  assert (Hz : (0 + pmt_mReserved3 h * 2 ^ 12) mod 2 ^ 12 = 0) by divlia.
  rewrite Hw, Hz, Hi, mk_len0. rewrite decode_infos_bytes by (done || lia).
  cbn [mbind option_bind app]. rewrite <- !app_assoc. cbn [app].
  destruct h. unfold w, c, sec_word, sec_b5 in *. cbn in *. subst. do 3 f_equal; divlia.
Qed.
