(* ===== verification/TsMux.v ===== *)
(** * The MPEG-TS muxer: src/3rd/mpegts/mpegts_muxer.cpp and
    src/simple/simple_mpegts_muxer.cpp

    The muxer is a record of its members; each method that changes it returns
    the new one, and what [tsOutCallback] is given is a result.  [None] is an
    access out of bounds.  The mutexes serialise the calls and are left out. *)
From S2P Require Import Prelude StdMap TsBuffer TsPacket.

(** ** EsFrame *)
Record EsFrame := {
  es_mData : SimpleBuffer;
  es_mPts : Z;
  es_mDts : Z;
  es_mPcr : Z;
  es_mRandomAccess : Z;
  es_mStreamType : Z;
  es_mStreamId : Z;
  es_mPid : Z;
  es_mExpectedPesPacketLength : Z;
  es_mExpectedPayloadLength : Z;
  es_mCompleted : bool;
  es_mBroken : bool;
}.
Definition es_with_data (b : SimpleBuffer) (f : EsFrame) : EsFrame := {|
  es_mData := b; es_mPts := es_mPts f; es_mDts := es_mDts f; es_mPcr := es_mPcr f;
  es_mRandomAccess := es_mRandomAccess f; es_mStreamType := es_mStreamType f;
  es_mStreamId := es_mStreamId f; es_mPid := es_mPid f;
  es_mExpectedPesPacketLength := es_mExpectedPesPacketLength f;
  es_mExpectedPayloadLength := es_mExpectedPayloadLength f;
  es_mCompleted := es_mCompleted f; es_mBroken := es_mBroken f |}.

(** ** MpegTsMuxer *)
Definition MPEGTS_NULL_PACKET_PID : Z := 0x1FFF.
Definition MPEGTS_PAT_PID : Z := 0x0000.
Definition MPEGTS_PAT_INTERVAL : Z := 20.

Inductive MuxType := mux_unknown | segmentType | h222Type | dvbType.

Record MpegTsMuxer := {
  mCurrentIndex : Z;
  mPidCcMap : gmap Z Z;
  mPmtPid : Z;
  mStreamPidMap : gmap Z Z;
  mPcrPid : Z;
  mMuxType : MuxType;
  (** whether [tsOutCallback] is set *)
  has_tsOut : bool;
}.
Definition MpegTsMuxer_new (lStreamPidMap : gmap Z Z) (lPmtPid lPcrPid : Z) (lType : MuxType)
    : MpegTsMuxer :=
  {| mCurrentIndex := 0; mPidCcMap := ∅; mPmtPid := lPmtPid; mStreamPidMap := lStreamPidMap;
     mPcrPid := lPcrPid; mMuxType := lType; has_tsOut := false |}.
Definition with_counters (i : Z) (cc : gmap Z Z) (m : MpegTsMuxer) : MpegTsMuxer :=
  {| mCurrentIndex := i; mPidCcMap := cc; mPmtPid := mPmtPid m; mStreamPidMap := mStreamPidMap m;
     mPcrPid := mPcrPid m; mMuxType := mMuxType m; has_tsOut := has_tsOut m |}.

Definition getCc (lWithPid : Z) (m : MpegTsMuxer) : Z * MpegTsMuxer :=
  let v := match mPidCcMap m !! lWithPid with Some v => Z.land (v + 1) 0x0F | None => 0 end in
  (v, with_counters (mCurrentIndex m) (<[lWithPid := v]> (mPidCcMap m)) m).

Definition shouldCreatePat (m : MpegTsMuxer) : bool * MpegTsMuxer :=
  let lRet := mCurrentIndex m mod MPEGTS_PAT_INTERVAL =? 0 in
  let i := if lRet && (0 <? mCurrentIndex m) then 0 else mCurrentIndex m in
  (lRet, with_counters (u32 (i + 1)) (mPidCcMap m) m).

(** The header of a packet: [pusi], [afc] and [cc] are the payload unit start
    indicator, the adaptation field control and the continuity counter. *)
Definition ts_header (pusi pid afc cc : Z) : TsHeader :=
  {| th_mSyncByte := 0x47; th_mTransportErrorIndicator := 0;
     th_mPayloadUnitStartIndicator := pusi; th_mTransportPriority := 0; th_mPid := pid;
     th_mTransportScramblingControl := 0; th_mAdaptationFieldControl := afc;
     th_mContinuityCounter := cc |}.

(** [std::vector<uint8_t> lStuff(188 - sb.size(), 0xff); sb.append(...)]: a
    vector of a size that wraps around is not allocated. *)
Definition stuff_to_188 (sb : SimpleBuffer) : option SimpleBuffer :=
  if 188 <? size sb then None
  else Some (append (replicate (Z.to_nat (188 - size sb)) 0xff) sb).

(** The crc of a section, and the stuffing, of [createPat] and [createPmt]. *)
Definition finish_section (sb : SimpleBuffer) (rSb : SimpleBuffer) : option SimpleBuffer :=
  sec ← slice 5 (size sb - 5) sb;
  let sb := write4Bytes (crc32 sec) sb in
  sb ← stuff_to_188 sb;
  Some (append (mData sb) rSb).

Definition createPat (lPmtPid lCc : Z) (rSb : SimpleBuffer) : option SimpleBuffer :=
  let lTsHeader := ts_header 1 MPEGTS_PAT_PID mPayloadOnly lCc in
  let lSectionLength := 4 + 4 + 5 in
  let lPatHeader := {|
    pat_mTableId := 0x00; pat_mSectionSyntaxIndicator := 1; pat_mB0 := 0; pat_mReserved0 := 0x3;
    pat_mSectionLength := Z.land lSectionLength 0x3ff; pat_mTransportStreamId := 0;
    pat_mReserved1 := 0x3; pat_mVersionNumber := 0; pat_mCurrentNextIndicator := 1;
    pat_mSectionNumber := 0x0; pat_mLastSectionNumber := 0x0 |} in
  let lProgramNumber := 0x0001 in
  let lProgramMapPid := Z.lor 0xe000 (Z.land lPmtPid 0x1fff) in
  let sb := TsHeader_encode lTsHeader SimpleBuffer_new in
  let sb := AdaptationFieldHeader_encode AdaptationFieldHeader_new sb in
  let sb := PATHeader_encode lPatHeader sb in
  let sb := write2Bytes lProgramNumber sb in
  let sb := write2Bytes lProgramMapPid sb in
  finish_section sb rSb.

(** [PMTElementInfo(lIt->first, lIt->second)]: the PID has 16 bits. *)
Definition pmt_infos (l : gmap Z Z) : list PMTElementInfo :=
  map (λ p, PMTElementInfo_new p.1 (u16 p.2)) (in_order l).

Definition createPmt (m : MpegTsMuxer) (lStreamPidMap : gmap Z Z) (lPmtPid lCc : Z)
    (rSb : SimpleBuffer) : option SimpleBuffer :=
  let lTsHeader := ts_header 1 lPmtPid mPayloadOnly lCc in
  let header sl := {|
    pmt_mTableId := 0x02; pmt_mSectionSyntaxIndicator := 1; pmt_mB0 := 0; pmt_mReserved0 := 0x3;
    pmt_mSectionLength := sl; pmt_mProgramNumber := 0x0001; pmt_mReserved1 := 0x3;
    pmt_mVersionNumber := 0; pmt_mCurrentNextIndicator := 1; pmt_mSectionNumber := 0x00;
    pmt_mLastSectionNumber := 0x00; pmt_mReserved2 := 0x7; pmt_mPcrPid := mPcrPid m;
    pmt_mReserved3 := 0xf; pmt_mProgramInfoLength := 0;
    pmt_mInfos := pmt_infos lStreamPidMap |} in
  let lSectionLength := u16 (PMTHeader_size (header 0) - 3 + 4) in
  let sb := TsHeader_encode lTsHeader SimpleBuffer_new in
  let sb := AdaptationFieldHeader_encode AdaptationFieldHeader_new sb in
  let sb := PMTHeader_encode (header (Z.land lSectionLength 0x3ff)) sb in
  finish_section sb rSb.

(** ** createPes *)

(** The PES header of the first packet and its time stamps. *)
Definition pes_two (f : EsFrame) : bool := negb (es_mPts f =? es_mDts f).
Definition pes_hdl (f : EsFrame) : Z := if pes_two f then 0x0A else 0x05.
Definition pes_header (f : EsFrame) : PESHeader :=
  let lPesSize := u32 (pes_hdl f + size (es_mData f) + 3) in
  {| pes_mPacketStartCode := 0x000001; pes_mStreamId := es_mStreamId f;
     pes_mPesPacketLength := if 0xffff <? lPesSize then 0 else lPesSize;
     pes_mOriginalOrCopy := 0x01; pes_mCopyright := 0; pes_mDataAlignmentIndicator := 0;
     pes_mPesPriority := 0; pes_mPesScramblingControl := 0; pes_mMarkerBits := 0x02;
     pes_mPesExtFlag := 0; pes_mPesCrcFlag := 0; pes_mAddCopyInfoFlag := 0;
     pes_mDsmTrickModeFlag := 0; pes_mEsRateFlag := 0; pes_mEscrFlag := 0;
     pes_mPtsDtsFlags := if pes_two f then 0x03 else 0x2; pes_mHeaderDataLength := pes_hdl f |}.
Definition pes_start (f : EsFrame) (p : SimpleBuffer) : SimpleBuffer :=
  let p := PESHeader_encode (pes_header f) p in
  if pes_mPtsDtsFlags (pes_header f) =? 0x03 then writePts 1 (es_mDts f) (writePts 3 (es_mPts f) p)
  else writePts 2 (es_mPts f) p.

(** The packet up to its body, and its adaptation field control. *)
Definition pes_head (m : MpegTsMuxer) (f : EsFrame) (lFirst : bool) (cc : Z) : Z * SimpleBuffer :=
  if lFirst then
    let '(afc, p) :=
      if es_mPid f =? mPcrPid m then
        let afc := Z.lor mPayloadOnly 0x02 in
        let af := {|
          af_mAdaptationFieldLength := 0x07; af_mAdaptationFieldExtensionFlag := 0;
          af_mTransportPrivateDataFlag := 0; af_mSplicingPointFlag := 0; af_mOpcrFlag := 0;
          af_mPcrFlag := 0x01; af_mElementaryStreamPriorityIndicator := 0;
          af_mRandomAccessIndicator := es_mRandomAccess f; af_mDiscontinuityIndicator := 0 |} in
        let p := TsHeader_encode (ts_header 0x01 (es_mPid f) afc cc) SimpleBuffer_new in
        (afc, writePcr (es_mPcr f) (AdaptationFieldHeader_encode af p))
      else if negb (es_mRandomAccess f =? 0) then
        let afc := Z.lor mPayloadOnly 0x02 in
        let af := {|
          af_mAdaptationFieldLength := 0x01; af_mAdaptationFieldExtensionFlag := 0;
          af_mTransportPrivateDataFlag := 0; af_mSplicingPointFlag := 0; af_mOpcrFlag := 0;
          af_mPcrFlag := 0; af_mElementaryStreamPriorityIndicator := 0;
          af_mRandomAccessIndicator := es_mRandomAccess f; af_mDiscontinuityIndicator := 0 |} in
        let p := TsHeader_encode (ts_header 0x01 (es_mPid f) afc cc) SimpleBuffer_new in
        (afc, AdaptationFieldHeader_encode af p)
      else
        (mPayloadOnly,
         TsHeader_encode (ts_header 0x01 (es_mPid f) mPayloadOnly cc) SimpleBuffer_new) in
    (afc, pes_start f p)
  else
    (mPayloadOnly, TsHeader_encode (ts_header 0 (es_mPid f) mPayloadOnly cc) SimpleBuffer_new).

(** [lPacket.data()[i] op= v] *)
Definition update (i : Z) (op : Z → Z) (p : SimpleBuffer) : option SimpleBuffer :=
  x ← peek i p; store i [u8 (op x)] p.

(** [lPacket.data()[4] = lStuffSize - 1;], the flags and the stuffing *)
Definition stuff_field (lStuffSize : Z) (p : SimpleBuffer) : option SimpleBuffer :=
  p ← store 4 [u8 (lStuffSize - 1)] p;
  if 2 <=? lStuffSize then
    p ← store 5 [0] p;
    store 6 (replicate (Z.to_nat (lStuffSize - 2)) 0xff) p
  else Some p.

(** The last packet of a frame: [lStuffSize] bytes of stuffing between the
    adaptation field and the rest of the packet. *)
Definition pes_stuff (afc : Z) (lFirst : bool) (lPos lStuffSize : Z) (p : SimpleBuffer)
    : option SimpleBuffer :=
  if (afc =? mAdaptionOnly) || (afc =? mPayloadAdaptionBoth) then
    len ← peek 4 p;
    let lpBase := 5 + len in
    p ← (if lFirst then
           pesHeader ← slice lpBase (lPos - (len + 5)) p;
           store (lpBase + lStuffSize) pesHeader p
         else
           l ← slice lpBase (mPos p - lpBase) p;
           setData (lpBase + lStuffSize) l p);
    p ← store lpBase (replicate (Z.to_nat lStuffSize) 0xff) p;
    update 4 (λ x, x + lStuffSize) (skip lStuffSize p)
  else if lFirst then
    p ← update 3 (λ x, Z.lor x 0x20) p;
    pesHeader ← slice 4 (lPos - 4) p;
    p ← store (4 + lStuffSize) pesHeader p;
    p ← stuff_field lStuffSize p;
    stuff_field lStuffSize (skip lStuffSize p)
  else
    p ← update 3 (λ x, Z.lor x 0x20) p;
    let lDestPosition := 188 - 4 - lStuffSize in
    l ← slice 4 (mPos p - 4) p;
    p ← setData lDestPosition l p;
    stuff_field lStuffSize (skip lStuffSize p).

(** One round of the loop: the packet made, and the muxer and the frame. *)
Definition createPes_packet (lFirst : bool) (m : MpegTsMuxer) (f : EsFrame)
    : option (SimpleBuffer * MpegTsMuxer * EsFrame) :=
  let '(cc, m) := getCc (es_mStreamType f) m in
  let '(afc, p) := pes_head m f lFirst cc in
  let lPos := size p in
  let lBodySize := u32 (188 - lPos) in
  let p := append (replicate (Z.to_nat lBodySize) 0x00) p in
  let p := skip lPos p in
  let data := es_mData f in
  let lInSize := u32 (size data - mPos data) in
  if lBodySize <=? lInSize then
    l ← slice (mPos data) lBodySize data;
    p ← setData lPos l p;
    Some (p, m, es_with_data (skip lBodySize data) f)
  else
    let lStuffSize := u16 (lBodySize - lInSize) in
    p ← pes_stuff afc lFirst lPos lStuffSize p;
    l ← slice (mPos data) lInSize data;
    p ← setData (mPos p) l p;
    Some (p, m, es_with_data (skip lInSize data) f).

Fixpoint createPes_loop (fuel : nat) (lFirst : bool) (m : MpegTsMuxer) (f : EsFrame)
    (rSb : SimpleBuffer) : option (MpegTsMuxer * EsFrame * SimpleBuffer) :=
  if empty (es_mData f) then Some (m, f, rSb) else
  match fuel with
  | O => None
  | S fuel' =>
      '(p, m, f) ← createPes_packet lFirst m f;
      createPes_loop fuel' false m f (append (mData p) rSb)
  end.

(** A packet takes at least one byte of the frame. *)
Definition createPes (m : MpegTsMuxer) (f : EsFrame) (rSb : SimpleBuffer)
    : option (MpegTsMuxer * EsFrame * SimpleBuffer) :=
  createPes_loop (Z.to_nat (size (es_mData f) - mPos (es_mData f))) true m f rSb.

(** ** The other methods; the result is what [tsOutCallback] is given *)
Definition ts_out (m : MpegTsMuxer) (sb : SimpleBuffer) (lTag : Z) (ra : bool)
    : list (SimpleBuffer * Z * bool) :=
  if has_tsOut m then [(sb, lTag, ra)] else [].

Definition createPcr (m : MpegTsMuxer) (lPcr lTag : Z) : option (list (SimpleBuffer * Z * bool)) :=
  let h := ts_header 0 (mPcrPid m) mAdaptionOnly 0 in
  let af := {|
    af_mAdaptationFieldLength := 188 - 4 - 1; af_mAdaptationFieldExtensionFlag := 0;
    af_mTransportPrivateDataFlag := 0; af_mSplicingPointFlag := 0; af_mOpcrFlag := 0;
    af_mPcrFlag := 1; af_mElementaryStreamPriorityIndicator := 0; af_mRandomAccessIndicator := 0;
    af_mDiscontinuityIndicator := 0 |} in
  let sb := TsHeader_encode h SimpleBuffer_new in
  let sb := AdaptationFieldHeader_encode af sb in
  let sb := writePcr lPcr sb in
  sb ← stuff_to_188 sb;
  Some (ts_out m sb lTag false).

Definition createNull (m : MpegTsMuxer) (lTag : Z) : list (SimpleBuffer * Z * bool) :=
  ts_out m (TsHeader_encode (ts_header 0 MPEGTS_NULL_PACKET_PID mPayloadOnly 0) SimpleBuffer_new)
    lTag false.

Definition patpmt (m : MpegTsMuxer) : option (MpegTsMuxer * SimpleBuffer) :=
  let '(lPatPmtCc, m) := getCc 0 m in
  lSb ← createPat (mPmtPid m) lPatPmtCc SimpleBuffer_new;
  lSb ← createPmt m (mStreamPidMap m) (mPmtPid m) lPatPmtCc lSb;
  Some (m, lSb).

Definition MpegTsMuxer_encode (m : MpegTsMuxer) (f : EsFrame) (lTag : Z) (lRandomAccess : bool)
    : option (MpegTsMuxer * EsFrame * list (SimpleBuffer * Z * bool)) :=
  '(m, lSb) ← (
    match mMuxType m with
    | segmentType => if lRandomAccess then patpmt m else Some (m, SimpleBuffer_new)
    | h222Type =>
        let '(b, m) := shouldCreatePat m in
        if b : bool then patpmt m else Some (m, SimpleBuffer_new)
    | _ => Some (m, SimpleBuffer_new)
    end);
  '(m, f, lSb) ← createPes m f lSb;
  Some (m, f, ts_out m lSb lTag lRandomAccess).

(** ** SimpleMpegtsMuxer *)
Definition VIDEO_PID : Z := 256.
Definition AUDIO_PID : Z := 257.
Definition PMT_PID : Z := 100.
Definition PCR_PID : Z := VIDEO_PID.

Inductive MediaType := _UNKNOWN | _VIDEO | _AUDIO.
Definition media_value (t : MediaType) : Z :=
  match t with _UNKNOWN => 0 | _VIDEO => 0xe0 | _AUDIO => 0xc0 end.
Inductive StreamType := _AVC | _HEVC | _AAC | _OPUS.
#[export] Instance StreamType_eq_dec : EqDecision StreamType.
Proof. solve_decision. Defined.
Definition stream_value (t : StreamType) : Z :=
  match t with _AVC => 0x1b | _HEVC => 0x24 | _AAC => 0x0f | _OPUS => 0x12 end.
Definition getMediaType (t : StreamType) : MediaType :=
  match t with _AVC | _HEVC => _VIDEO | _AAC | _OPUS => _AUDIO end.

Record SimpleMpegtsMuxer := {
  ts_muxer_ : MpegTsMuxer;
  (** whether [output_] is set *)
  has_output : bool;
}.

Definition with_tsOut (m : MpegTsMuxer) : MpegTsMuxer :=
  {| mCurrentIndex := mCurrentIndex m; mPidCcMap := mPidCcMap m; mPmtPid := mPmtPid m;
     mStreamPidMap := mStreamPidMap m; mPcrPid := mPcrPid m; mMuxType := mMuxType m;
     has_tsOut := true |}.

Definition stream_map (stream_types : list StreamType) : gmap Z Z :=
  foldl (λ l t, match getMediaType t with
                | _VIDEO => <[stream_value t := VIDEO_PID]> l
                | _AUDIO => <[stream_value t := AUDIO_PID]> l
                | _UNKNOWN => l
                end) ∅ stream_types.

(** [assert(!stream_map.empty())] *)
Definition SimpleMpegtsMuxer_new (stream_types : list StreamType) : option SimpleMpegtsMuxer :=
  if bool_decide (stream_map stream_types = ∅) then None
  else Some {| ts_muxer_ := with_tsOut (MpegTsMuxer_new (stream_map stream_types) PMT_PID PCR_PID h222Type);
               has_output := false |}.

Definition setOutputCallBack (set : bool) (s : SimpleMpegtsMuxer) : SimpleMpegtsMuxer :=
  {| ts_muxer_ := ts_muxer_ s; has_output := set |}.

(** The frame [encode] makes; [uninit] holds the members the constructor of
    [EsFrame] leaves alone. *)
Definition simple_frame (uninit : EsFrame) (data : bytes) (dts_us : Z) (t : StreamType)
    (is_key_frame : bool) : EsFrame := {|
  es_mData := append data SimpleBuffer_new; es_mPts := u64 dts_us; es_mDts := u64 dts_us;
  es_mPcr := 0; es_mRandomAccess := if is_key_frame then 1 else 0;
  es_mStreamType := stream_value t; es_mStreamId := u8 (media_value (getMediaType t));
  es_mPid := VIDEO_PID; es_mExpectedPesPacketLength := 0;
  es_mExpectedPayloadLength := es_mExpectedPayloadLength uninit; es_mCompleted := true;
  es_mBroken := es_mBroken uninit |}.

(** The output callback is [output_(rSb.data(), rSb.size(), lRandomAccess)]. *)
Definition SimpleMpegtsMuxer_encode (uninit : EsFrame) (s : SimpleMpegtsMuxer) (data : bytes)
    (dts_us : Z) (t : StreamType) (is_key_frame : bool)
    : option (SimpleMpegtsMuxer * list (bytes * bool)) :=
  '(m, _, out) ← MpegTsMuxer_encode (ts_muxer_ s) (simple_frame uninit data dts_us t is_key_frame) 0 false;
  Some ({| ts_muxer_ := m; has_output := has_output s |},
        if has_output s then map (λ o, (mData o.1.1, o.2)) out else []).
