(* ===== verification/TsMuxFacts.v ===== *)
(** * The packets the muxer makes

    [packet_bytes] is the shape of every packet of [createPes]: a header, an
    adaptation field and a part of the PES packet.  The stores and moves of
    the last packet of a frame come down to a longer adaptation field. *)
From S2P Require Import Prelude StdMap TsBuffer TsPacket TsMux.

(** ** Adaptation fields *)

(** No field, the field of one byte, and a field with a random access
    indicator, maybe a clock reference, and stuffing. *)
Inductive adaptation := NoAdapt | Adapt0 | Adapt (ra : Z) (pcr : option Z) (stuff : nat).

Definition pcr_part (pcr : option Z) : bytes :=
  match pcr with Some v => pcr_bytes v | None => [] end.
Definition adapt_header (ra : Z) (pcr : option Z) (stuff : nat) : AdaptationFieldHeader := {|
  af_mAdaptationFieldLength := Z.of_nat (1 + length (pcr_part pcr) + stuff);
  af_mAdaptationFieldExtensionFlag := 0; af_mTransportPrivateDataFlag := 0;
  af_mSplicingPointFlag := 0; af_mOpcrFlag := 0;
  af_mPcrFlag := match pcr with Some _ => 1 | None => 0 end; af_mElementaryStreamPriorityIndicator := 0;
  af_mRandomAccessIndicator := ra; af_mDiscontinuityIndicator := 0 |}.
Definition adapt_bytes (a : adaptation) : bytes :=
  match a with
  | NoAdapt => []
  | Adapt0 => [0]
  | Adapt ra pcr stuff =>
      af_bytes (adapt_header ra pcr stuff) ++ pcr_part pcr ++ replicate stuff 0xff
  end.
Definition adapt_afc (a : adaptation) : Z :=
  match a with NoAdapt => mPayloadOnly | _ => mPayloadAdaptionBoth end.
Definition adapt_ok (a : adaptation) : Prop :=
  match a with
  | Adapt ra pcr stuff => bit ra ∧ (stuff <= 184)%nat ∧ from_option (λ v, 0 <= v < 2 ^ 33) True pcr
  | _ => True
  end.
(** [n] bytes of stuffing more *)
Definition stuffed (a : adaptation) (n : nat) : adaptation :=
  match a, n with
  | NoAdapt, O => NoAdapt
  | NoAdapt, 1%nat => Adapt0
  | NoAdapt, S (S k) => Adapt 0 None k
  | Adapt0, _ => Adapt0
  | Adapt ra pcr k, _ => Adapt ra pcr (k + n)
  end.

(** ** Packets *)
Definition packet_bytes (pusi pid cc : Z) (a : adaptation) (payload : bytes) : bytes :=
  ts_bytes (ts_header pusi pid (adapt_afc a) cc) ++ adapt_bytes a ++ payload.

Lemma length_ts_bytes h : length (ts_bytes h) = 4%nat.
Proof. unfold ts_bytes. len. Qed.
Lemma length_pes_bytes h : length (pes_bytes h) = 9%nat.
Proof. unfold pes_bytes. len. Qed.
Lemma length_pcr_bytes pcr : length (pcr_bytes pcr) = 6%nat.
Proof. done. Qed.
#[export] Hint Rewrite length_ts_bytes length_pes_bytes length_pcr_bytes : len.

(** The flags of the field *)
Definition adapt_flags (ra : Z) (pcr : option Z) : Z :=
  match pcr with Some _ => 2 ^ 4 | None => 0 end + ra * 2 ^ 6.
Lemma af_bytes_adapt ra pcr k :
  af_bytes (adapt_header ra pcr k) =
  [Z.of_nat (1 + length (pcr_part pcr) + k); adapt_flags ra pcr].
Proof.
  unfold af_bytes. rewrite (proj2 (Z.eqb_neq _ _)) by (simpl; lia).
  f_equal. f_equal. unfold af_flags, adapt_flags. destruct pcr; simpl; lia.
Qed.
Lemma length_af_bytes ra pcr k : length (af_bytes (adapt_header ra pcr k)) = 2%nat.
Proof. by rewrite af_bytes_adapt. Qed.
#[export] Hint Rewrite length_af_bytes : len.

Lemma length_stuffed a n : a ≠ Adapt0 →
  length (adapt_bytes (stuffed a n)) = (length (adapt_bytes a) + n)%nat.
Proof. intros H. destruct a as [| |ra pcr k]; [destruct n as [|[|k]]|done|]; simpl; len. Qed.

Lemma adapt_afc_stuffed a n : adapt_afc (stuffed a n) = mPayloadOnly ↔ a = NoAdapt ∧ n = 0%nat.
Proof. destruct a; [destruct n as [|[|k]]| |]; simpl; naive_solver. Qed.

(** ** Stores *)

(** A store between two parts. *)
Lemma store_mid a x y l ofs pos :
  ofs = Z.of_nat (length a) → length l = length x →
  store ofs l {| mData := a ++ x ++ y; mPos := pos |} = Some {| mData := a ++ l ++ y; mPos := pos |}.
Proof.
  intros -> Hl. unfold store, size. simpl.
  rewrite (proj2 (Z.leb_le 0 _)), (proj2 (Z.leb_le _ _)) by len. cbn [andb].
  unfold with_data, memcpy. simpl. rewrite Nat2Z.id, take_app_length, Hl.
  rewrite (app_assoc a x y), drop_app_length' by len. done.
Qed.
Lemma slice_mid a x y n ofs pos :
  ofs = Z.of_nat (length a) → n = Z.of_nat (length x) →
  slice ofs n {| mData := a ++ x ++ y; mPos := pos |} = Some x.
Proof.
  intros -> ->. unfold slice, size. simpl.
  rewrite (proj2 (Z.leb_le 0 _)), (proj2 (Z.leb_le 0 _)), (proj2 (Z.leb_le _ _)) by len. cbn [andb].
  by rewrite !Nat2Z.id, drop_app_length, take_app_length.
Qed.
Lemma setData_mid a x y l ofs pos :
  ofs = Z.of_nat (length a) → length l = length x →
  setData ofs l {| mData := a ++ x ++ y; mPos := pos |} = Some {| mData := a ++ l ++ y; mPos := pos |}.
Proof.
  intros Ho Hl. unfold setData, size at 1. simpl.
  rewrite (proj2 (Z.ltb_ge _ _)) by len. by apply store_mid.
Qed.
Lemma update_mid a x y op i pos :
  i = Z.of_nat (length a) →
  update i op {| mData := a ++ x :: y; mPos := pos |} =
  Some {| mData := a ++ u8 (op x) :: y; mPos := pos |}.
Proof.
  intros ->. unfold update, peek. rewrite (proj2 (Z.ltb_ge _ _)) by lia. simpl mData.
  rewrite Nat2Z.id, lookup_app_r, Nat.sub_diag by lia. cbn [lookup list_lookup mbind option_bind].
  by apply (store_mid a [x] y [_]).
Qed.

(** The stuffing written at 4 by [stuff_field]. *)
Definition stuff_bytes (n : nat) : bytes := adapt_bytes (stuffed NoAdapt n).

Lemma stuff_field_bytes n h x y pos :
  length h = 4%nat → length x = n → (1 <= n <= 184)%nat →
  stuff_field (Z.of_nat n) {| mData := h ++ x ++ y; mPos := pos |} =
  Some {| mData := h ++ stuff_bytes n ++ y; mPos := pos |}.
Proof.
  intros Hh Hx Hn. unfold stuff_field, stuff_bytes. rewrite u8_small by lia.
  destruct n as [|[|k]]; [lia| |]; destruct x as [|x0 x]; simpl in Hx; try lia.
  - destruct x; [|done]. rewrite (store_mid h [x0] y [_]) by (lia || done). done.
  - destruct x as [|x1 x]; simpl in Hx; [lia|].
    rewrite (store_mid h [x0] (x1 :: x ++ y) [_]) by (lia || done). cbn [mbind option_bind].
    rewrite (proj2 (Z.leb_le _ _)) by lia.
    rewrite !app_assoc. change ((h ++ [?z]) ++ x1 :: x ++ y) with ((h ++ [z]) ++ [x1] ++ x ++ y).
    rewrite (store_mid (h ++ [_]) [x1] (x ++ y) [_]) by len. cbn [mbind option_bind].
    rewrite (app_assoc (h ++ [_]) [0]).
    rewrite (store_mid ((h ++ [_]) ++ [0]) x y) by len.
    do 2 f_equal. cbn [stuffed adapt_bytes]. rewrite af_bytes_adapt, <- !app_assoc. cbn [app pcr_part].
    do 2 f_equal; [simpl; lia|]. f_equal. f_equal. f_equal. lia.
Qed.

Lemma length_stuff_bytes n : length (stuff_bytes n) = n.
Proof. unfold stuff_bytes. by rewrite length_stuffed. Qed.
#[export] Hint Rewrite length_stuff_bytes : len.

(** ** The last packet of a frame *)

Lemma ts_bytes_last h l : ts_bytes h ++ l = (th_mSyncByte h :: be_bytes 2 (ts_word h)) ++ ts_last h :: l.
Proof. unfold ts_bytes. cbn [app]. by rewrite <- app_assoc. Qed.

(** Turning on the adaptation field of a header. *)
Lemma update_afc pusi pid cc l pos : 0 <= cc < 2 ^ 4 →
  update 3 (λ x, Z.lor x 0x20)
    {| mData := ts_bytes (ts_header pusi pid mPayloadOnly cc) ++ l; mPos := pos |} =
  Some {| mData := ts_bytes (ts_header pusi pid mPayloadAdaptionBoth cc) ++ l; mPos := pos |}.
Proof.
  intros Hc. rewrite !ts_bytes_last, update_mid by (len; done).
  do 4 f_equal. unfold ts_last, mPayloadOnly, mPayloadAdaptionBoth. cbn.
  change 0x20 with (1 * 2 ^ 5). rewrite (lor_add _ 1 5) by lia.
  rewrite u8_small; lia.
Qed.

Lemma setData_nil pos b : 0 <= pos <= size b → setData pos [] b = Some b.
Proof.
  intros Hp. destruct b as [d q]. unfold size in Hp. simpl in Hp.
  rewrite <- (take_drop (Z.to_nat pos) d).
  rewrite (setData_mid (take (Z.to_nat pos) d) [] (drop (Z.to_nat pos) d) []) by len. done.
Qed.

(** Moving [x] up by [n] within [x ++ y]. *)
Lemma split_moved {A} (x y : list A) n : (n <= length y)%nat →
  ∃ w1 w2, x ++ y = w1 ++ w2 ++ drop n y ∧ length w1 = n ∧ length w2 = length x.
Proof.
  intros Hn. exists (take n (x ++ y)), (take (length x) (drop n (x ++ y))). split_and!; [|len|len].
  rewrite <- (take_drop n (x ++ y)) at 1. f_equal.
  rewrite <- (take_drop (length x) (drop n (x ++ y))) at 1. f_equal.
  by rewrite drop_drop, Nat.add_comm, <- drop_drop, drop_app_length.
Qed.

Section pes_stuff.
Context (pusi pid cc : Z) (ph zs : bytes) (n : nat).
Context (Hcc : 0 <= cc < 2 ^ 4) (Hn : (1 <= n <= length zs)%nat).

Lemma pes_stuff_adapt ra pcr k :
  length (packet_bytes pusi pid cc (Adapt ra pcr k) ph ++ zs) = 188%nat →
  let lPos := Z.of_nat (length (packet_bytes pusi pid cc (Adapt ra pcr k) ph)) in
  pes_stuff mPayloadAdaptionBoth true lPos (Z.of_nat n)
    {| mData := packet_bytes pusi pid cc (Adapt ra pcr k) ph ++ zs; mPos := lPos |} =
  Some {| mData := packet_bytes pusi pid cc (Adapt ra pcr (k + n)) ph ++ drop n zs;
          mPos := lPos + Z.of_nat n |}.
Proof.
  intros Hl lPos. unfold packet_bytes in *. cbn [adapt_afc] in *.
  set (ts := ts_bytes _) in *. cbn [adapt_bytes] in *. rewrite !af_bytes_adapt in *.
  set (L := Z.of_nat (1 + length (pcr_part pcr) + k)).
  set (A := ts ++ [L; adapt_flags ra pcr] ++ pcr_part pcr ++ replicate k 255).
  assert (HA : Z.of_nat (length A) = 5 + L) by (unfold A, ts, L; len).
  assert (HlP : lPos = Z.of_nat (length A) + Z.of_nat (length ph)) by (unfold lPos, A; len).
  assert (HL : L + Z.of_nat n < 2 ^ 8) by (unfold A in HA; len).
  replace ((ts ++ ([L; adapt_flags ra pcr] ++ pcr_part pcr ++ replicate k 255) ++ ph) ++ zs)
    with (A ++ ph ++ zs) by (unfold A; by rewrite !app_assoc).
  unfold pes_stuff. change ((_ =? mAdaptionOnly) || _) with true. cbn match.
  replace (peek 4 _) with (Some L) by (unfold A, ts; by rewrite <- !app_assoc, ts_bytes_last).
  cbn [mbind option_bind].
  destruct (split_moved ph zs n) as (w1 & w2 & E & H1 & H2); [lia|].
  rewrite (slice_mid A ph zs), E by lia. cbn [mbind option_bind].
  rewrite (app_assoc A w1), (store_mid (A ++ w1) w2) by len. cbn [mbind option_bind].
  rewrite <- (app_assoc A w1), (store_mid A w1) by len. cbn [mbind option_bind].
  unfold A, skip. cbn [mData mPos]. rewrite <- !app_assoc. cbn [app].
  rewrite (update_mid ts) by (unfold ts; len; done).
  rewrite Nat2Z.id, u8_small, replicate_add, <- !app_assoc by (unfold L in *; lia).
  do 4 f_equal. unfold L. lia.
Qed.

Lemma pes_stuff_first :
  length (packet_bytes pusi pid cc NoAdapt ph ++ zs) = 188%nat →
  let lPos := Z.of_nat (length (packet_bytes pusi pid cc NoAdapt ph)) in
  pes_stuff mPayloadOnly true lPos (Z.of_nat n)
    {| mData := packet_bytes pusi pid cc NoAdapt ph ++ zs; mPos := lPos |} =
  Some {| mData := packet_bytes pusi pid cc (stuffed NoAdapt n) ph ++ drop n zs;
          mPos := lPos + Z.of_nat n |}.
Proof.
  intros Hl lPos. unfold packet_bytes in *. cbn [adapt_afc adapt_bytes app] in *.
  rewrite <- !app_assoc in *. unfold pes_stuff. change ((_ =? mAdaptionOnly) || _) with false.
  cbn match. rewrite update_afc by done. cbn [mbind option_bind].
  assert (HlP : lPos = 4 + Z.of_nat (length ph)) by (unfold lPos; len).
  destruct (split_moved ph zs n) as (w1 & w2 & E & H1 & H2); [lia|].
  rewrite (slice_mid (ts_bytes _) ph zs), E by len. cbn [mbind option_bind].
  rewrite (app_assoc (ts_bytes _) w1), (store_mid (ts_bytes _ ++ w1) w2) by len.
  cbn [mbind option_bind]. rewrite <- (app_assoc (ts_bytes _) w1).
  rewrite stuff_field_bytes by len. cbn [mbind option_bind]. unfold skip. cbn [mData mPos].
  rewrite stuff_field_bytes by len.
  replace (adapt_afc (stuffed NoAdapt n)) with mPayloadAdaptionBoth; [done|].
  destruct n as [|[|]]; [lia|done|done].
Qed.

Lemma pes_stuff_next :
  length (packet_bytes pusi pid cc NoAdapt [] ++ zs) = 188%nat →
  let lPos := Z.of_nat (length (packet_bytes pusi pid cc NoAdapt [])) in
  pes_stuff mPayloadOnly false lPos (Z.of_nat n)
    {| mData := packet_bytes pusi pid cc NoAdapt [] ++ zs; mPos := lPos |} =
  Some {| mData := packet_bytes pusi pid cc (stuffed NoAdapt n) [] ++ drop n zs;
          mPos := lPos + Z.of_nat n |}.
Proof.
  intros Hl lPos. unfold packet_bytes in *. cbn [adapt_afc adapt_bytes app] in *.
  rewrite !app_nil_r in *. rewrite <- ?app_assoc in *. unfold pes_stuff.
  change ((_ =? mAdaptionOnly) || _) with false. cbn match.
  rewrite update_afc by done. cbn [mbind option_bind mPos].
  assert (HlP : lPos = 4) by (unfold lPos; len). rewrite HlP.
  rewrite (slice_mid (ts_bytes _) [] zs 0) by len. cbn [mbind option_bind].
  rewrite setData_nil by (unfold size; simpl; len). cbn [mbind option_bind]. unfold skip. cbn [mData mPos].
  rewrite <- (take_drop n zs) at 1. rewrite stuff_field_bytes by len.
  replace (adapt_afc (stuffed NoAdapt n)) with mPayloadAdaptionBoth; [done|].
  destruct n as [|[|]]; [lia|done|done].
Qed.
End pes_stuff.

(** ** One packet *)

(** The members of a frame within the width of their fields. *)
Record es_ok (f : EsFrame) : Prop := {
  eo_pid : 0 <= es_mPid f < 2 ^ 13;
  eo_sid : is_byte (es_mStreamId f);
  eo_ra : bit (es_mRandomAccess f);
  eo_pcr : 0 <= es_mPcr f < 2 ^ 33;
  eo_pos : 0 <= mPos (es_mData f) <= size (es_mData f);
  eo_size : size (es_mData f) + 13 < 2 ^ 31;
}.

(** The data that is left of the frame. *)
Definition es_left (f : EsFrame) : bytes := drop (Z.to_nat (mPos (es_mData f))) (mData (es_mData f)).

(** The PES header and its time stamps. *)
Definition pes_part (f : EsFrame) : bytes :=
  pes_bytes (pes_header f) ++
  (if pes_two f then pts_bytes 3 (es_mPts f) ++ pts_bytes 1 (es_mDts f) else pts_bytes 2 (es_mPts f)).
Definition base_adapt (m : MpegTsMuxer) (f : EsFrame) : adaptation :=
  if es_mPid f =? mPcrPid m then Adapt (es_mRandomAccess f) (Some (es_mPcr f)) 0
  else if negb (es_mRandomAccess f =? 0) then Adapt (es_mRandomAccess f) None 0 else NoAdapt.

Lemma pes_hdl_range f : pes_hdl f = 5 ∨ pes_hdl f = 10.
Proof. unfold pes_hdl. destruct (pes_two f); auto. Qed.
(** The announced length: 0 when it does not fit. *)
Lemma pes_length f : es_ok f →
  pes_mPesPacketLength (pes_header f) =
  let l := pes_hdl f + size (es_mData f) + 3 in if 0xffff <? l then 0 else l.
Proof.
  intros []. cbn. pose proof (pes_hdl_range f). rewrite u32_small; [done|lia].
Qed.
Lemma pes_header_ok f : es_ok f → pes_ok (pes_header f).
Proof.
  intros Hf. pose proof (pes_hdl_range f). pose proof (pes_length f Hf) as Hl. destruct Hf.
  constructor; unfold bit, is_byte in *; try (simpl; split_and?; lia).
  - rewrite Hl. cbn zeta. destruct (Z.ltb_spec 0xffff (pes_hdl f + size (es_mData f) + 3)); lia.
  - cbn. destruct (pes_two f); lia.
Qed.

Lemma length_pes_part f : Z.of_nat (length (pes_part f)) = 9 + pes_hdl f.
Proof. unfold pes_part, pes_hdl. destruct (pes_two f); len. Qed.

Lemma pes_start_bytes f p : es_ok f → pes_start f p = push_back (pes_part f) p.
Proof.
  intros Hf. unfold pes_start, pes_part. rewrite PESHeader_encode_bytes by by apply pes_header_ok.
  cbn [pes_mPtsDtsFlags pes_header].
  destruct (pes_two f); cbn match; change (0x03 =? 0x03) with true; change (0x02 =? 0x03) with false;
    cbn match; by rewrite !writePts_bytes, !push_push, ?app_assoc by lia.
Qed.

Lemma ts_header_ok pusi pid a cc :
  bit pusi → 0 <= pid < 2 ^ 13 → 0 <= cc < 2 ^ 4 → ts_ok (ts_header pusi pid (adapt_afc a) cc).
Proof.
  intros Hp Hpid Hc. constructor; unfold bit, is_byte in *; simpl; try lia.
  destruct a; simpl; unfold mPayloadOnly, mPayloadAdaptionBoth; lia.
Qed.
Lemma adapt_header_ok ra pcr k : bit ra → (k <= 184)%nat → af_ok (adapt_header ra pcr k).
Proof.
  intros Hr Hk. constructor; unfold bit, is_byte in *; simpl; destruct pcr; simpl; lia.
Qed.

Lemma base_adapt_ok m f : es_ok f → adapt_ok (base_adapt m f) ∧ base_adapt m f ≠ Adapt0.
Proof.
  intros []. unfold base_adapt. destruct (_ =? _); [|destruct (negb _)]; split; simpl; done || split_and!; auto; lia.
Qed.

Lemma pes_head_first m f cc : es_ok f → 0 <= cc < 2 ^ 4 →
  pes_head m f true cc =
  (adapt_afc (base_adapt m f),
   {| mData := packet_bytes 1 (es_mPid f) cc (base_adapt m f) (pes_part f); mPos := 0 |}).
Proof.
  intros Hf Hc. unfold pes_head, base_adapt, packet_bytes.
  pose proof (ts_header_ok 1 (es_mPid f) (Adapt 0 None 0) cc ltac:(done) (eo_pid f Hf) Hc) as Ht3.
  pose proof (ts_header_ok 1 (es_mPid f) NoAdapt cc ltac:(done) (eo_pid f Hf) Hc) as Ht1.
  cbn [adapt_afc] in *. change (Z.lor mPayloadOnly 0x02) with mPayloadAdaptionBoth.
  destruct (es_mPid f =? mPcrPid m); [|destruct (negb _)]; cbn [adapt_afc adapt_bytes];
    rewrite pes_start_bytes, TsHeader_encode_bytes by done.
  - rewrite (af_encode_bytes (adapt_header (es_mRandomAccess f) (Some (es_mPcr f)) 0))
      by (apply adapt_header_ok; [apply eo_ra; done|lia]).
    rewrite writePcr_bytes, !push_push, push_new, <- !app_assoc. done.
  - rewrite (af_encode_bytes (adapt_header (es_mRandomAccess f) None 0))
      by (apply adapt_header_ok; [apply eo_ra; done|lia]).
    rewrite !push_push, push_new, <- !app_assoc. done.
  - by rewrite !push_push, push_new.
Qed.
Lemma pes_head_next m f cc : es_ok f → 0 <= cc < 2 ^ 4 →
  pes_head m f false cc =
  (adapt_afc NoAdapt, {| mData := packet_bytes 0 (es_mPid f) cc NoAdapt []; mPos := 0 |}).
Proof.
  intros Hf Hc. unfold pes_head, packet_bytes.
  pose proof (ts_header_ok 0 (es_mPid f) NoAdapt cc ltac:(done) (eo_pid f Hf) Hc) as Ht1.
  rewrite TsHeader_encode_bytes by done. rewrite push_new. cbn [adapt_bytes app]. by rewrite app_nil_r.
Qed.

Lemma stuffed_0 a : stuffed a 0 = a.
Proof. destruct a; simpl; by rewrite ?Nat.add_0_r. Qed.
Lemma length_packet_bytes pusi pid cc a l :
  length (packet_bytes pusi pid cc a l) = (4 + length (adapt_bytes a) + length l)%nat.
Proof. unfold packet_bytes. len. Qed.
#[export] Hint Rewrite length_packet_bytes : len.
Lemma packet_bytes_app pusi pid cc a l1 l2 :
  packet_bytes pusi pid cc a (l1 ++ l2) = packet_bytes pusi pid cc a l1 ++ l2.
Proof. unfold packet_bytes. by rewrite <- !app_assoc. Qed.

(** What a packet holds besides the data. *)
Definition head_pusi (lFirst : bool) : Z := if lFirst then 1 else 0.
Definition head_adapt (m : MpegTsMuxer) (f : EsFrame) (lFirst : bool) : adaptation :=
  if lFirst then base_adapt m f else NoAdapt.
Definition head_part (f : EsFrame) (lFirst : bool) : bytes := if lFirst then pes_part f else [].
(** The room for data, and how much of it is used. *)
Definition room (m : MpegTsMuxer) (f : EsFrame) (lFirst : bool) : nat :=
  184 - length (adapt_bytes (head_adapt m f lFirst)) - length (head_part f lFirst).
Definition chunk (m : MpegTsMuxer) (f : EsFrame) (lFirst : bool) : nat :=
  room m f lFirst `min` length (es_left f).
Definition pes_packet (m : MpegTsMuxer) (f : EsFrame) (lFirst : bool) (cc : Z) : bytes :=
  let n := chunk m f lFirst in
  packet_bytes (head_pusi lFirst) (es_mPid f) cc
    (stuffed (head_adapt m f lFirst) (room m f lFirst - n)) (head_part f lFirst ++ take n (es_left f)).

Lemma pes_head_bytes m f lFirst cc : es_ok f → 0 <= cc < 2 ^ 4 →
  pes_head m f lFirst cc =
  (adapt_afc (head_adapt m f lFirst),
   {| mData := packet_bytes (head_pusi lFirst) (es_mPid f) cc (head_adapt m f lFirst)
                 (head_part f lFirst); mPos := 0 |}).
Proof. intros. destruct lFirst; [by apply pes_head_first|by apply pes_head_next]. Qed.

Lemma head_adapt_ok m f lFirst : es_ok f →
  adapt_ok (head_adapt m f lFirst) ∧ head_adapt m f lFirst ≠ Adapt0.
Proof. intros. destruct lFirst; [by apply base_adapt_ok|done]. Qed.
Lemma length_base_adapt m f : (length (adapt_bytes (base_adapt m f)) <= 8)%nat.
Proof. unfold base_adapt. destruct (_ =? _); [|destruct (negb _)]; simpl; len. Qed.
(** At least 157 bytes of a packet carry data. *)
Lemma room_head m f lFirst :
  (4 + length (adapt_bytes (head_adapt m f lFirst)) + length (head_part f lFirst) +
   room m f lFirst = 188)%nat ∧ (157 <= room m f lFirst)%nat.
Proof.
  unfold room. pose proof (length_base_adapt m f). pose proof (length_pes_part f).
  pose proof (pes_hdl_range f). unfold head_adapt, head_part. destruct lFirst; cbn [adapt_bytes length]; lia.
Qed.

Lemma length_es_left f : es_ok f →
  Z.of_nat (length (es_left f)) = size (es_mData f) - mPos (es_mData f).
Proof. intros []. unfold es_left, size in *. len. Qed.
Lemma slice_left f n : es_ok f → (n <= length (es_left f))%nat →
  slice (mPos (es_mData f)) (Z.of_nat n) (es_mData f) = Some (take n (es_left f)).
Proof.
  intros Hf Hn. pose proof (length_es_left f Hf). destruct Hf. unfold slice.
  rewrite !(proj2 (Z.leb_le _ _)) by lia. cbn [andb]. by rewrite Nat2Z.id.
Qed.

Lemma pes_stuff_bytes m f lFirst cc n zs pos :
  es_ok f → 0 <= cc < 2 ^ 4 → length zs = room m f lFirst → (1 <= n <= length zs)%nat →
  let p := packet_bytes (head_pusi lFirst) (es_mPid f) cc (head_adapt m f lFirst) (head_part f lFirst) in
  pos = Z.of_nat (length p) →
  pes_stuff (adapt_afc (head_adapt m f lFirst)) lFirst pos (Z.of_nat n) {| mData := p ++ zs; mPos := pos |} =
  Some {| mData := packet_bytes (head_pusi lFirst) (es_mPid f) cc (stuffed (head_adapt m f lFirst) n)
                     (head_part f lFirst) ++ drop n zs;
          mPos := pos + Z.of_nat n |}.
Proof.
  intros Hf Hc Hz Hn p ->. pose proof (room_head m f lFirst) as [Hr _].
  destruct (head_adapt_ok m f lFirst Hf) as [_ Ha].
  assert (Hl : length (p ++ zs) = 188%nat) by (unfold p; len). unfold p in *.
  destruct (head_adapt m f lFirst) as [| |ra pcr k] eqn:E; [|done|].
  - destruct lFirst; [by apply pes_stuff_first|by apply pes_stuff_next].
  - destruct lFirst; [by apply pes_stuff_adapt|done].
Qed.

Lemma createPes_packet_spec lFirst m f cc m' :
  es_ok f → getCc (es_mStreamType f) m = (cc, m') → mPcrPid m' = mPcrPid m → 0 <= cc < 2 ^ 4 →
  ∃ p, createPes_packet lFirst m f =
         Some (p, m', es_with_data (skip (Z.of_nat (chunk m f lFirst)) (es_mData f)) f) ∧
       mData p = pes_packet m f lFirst cc ∧ length (mData p) = 188%nat.
Proof.
  intros Hf Hcc Hpcr Hc. unfold createPes_packet. rewrite Hcc.
  pose proof (room_head m f lFirst) as [Hr _]. pose proof (length_es_left f Hf) as Hlen.
  rewrite pes_head_bytes by done.
  replace (head_adapt m' f lFirst) with (head_adapt m f lFirst)
    by (unfold head_adapt, base_adapt; by rewrite Hpcr).
  set (hd := packet_bytes _ _ _ _ _). pose proof (λ n, slice_left f n Hf) as Hsl.
  set (data := es_mData f) in *.
  assert (Hhd : size {| mData := hd; mPos := 0 |} = 188 - Z.of_nat (room m f lFirst)).
  { unfold size, hd. simpl. len. }
  assert (Hok : size data < 2 ^ 31 ∧ 0 <= mPos data) by (destruct Hf; unfold data; lia).
  rewrite Hhd. replace (u32 (188 - _)) with (Z.of_nat (room m f lFirst)) by (rewrite u32_small; lia).
  rewrite u32_small by lia. rewrite Nat2Z.id, <- Hlen. unfold append, push_back, skip, with_data.
  cbn [mData mPos]. rewrite Z.add_0_l. unfold pes_packet, chunk.
  destruct (Z.leb_spec (Z.of_nat (room m f lFirst)) (Z.of_nat (length (es_left f)))) as [Hle|Hlt].
  - rewrite Nat.min_l, Nat.sub_diag, stuffed_0 by lia.
    rewrite Hsl by lia. cbn [mbind option_bind].
    rewrite <- (app_nil_r (replicate _ 0)), (setData_mid hd _ []) by (unfold hd; len).
    cbn [mbind option_bind]. eexists. split; [done|]. cbn [mData].
    rewrite app_nil_r, packet_bytes_app. fold hd. split; [done|]. unfold hd. len.
  - rewrite Nat.min_r by lia.
    replace (u16 _) with (Z.of_nat (room m f lFirst - length (es_left f)))
      by (rewrite u16_small; lia).
    unfold hd. rewrite (pes_stuff_bytes m f lFirst cc) by (done || len). cbn [mbind option_bind].
    rewrite Hsl by lia. cbn [mbind option_bind mPos].
    rewrite drop_replicate.
    set (hs := packet_bytes _ _ _ (stuffed _ _) _).
    rewrite <- (app_nil_r (replicate _ 0)), (setData_mid hs _ []).
    2: { unfold hs. rewrite length_packet_bytes, length_stuffed by by apply head_adapt_ok. lia. }
    2: { len. }
    cbn [mbind option_bind]. eexists. split; [done|]. cbn [mData].
    rewrite app_nil_r, packet_bytes_app. split; [done|]. unfold hs.
    rewrite length_app, length_packet_bytes, length_stuffed, length_take by by apply head_adapt_ok. lia.
Qed.

(** ** All packets of a frame *)

(** [carried pid a0 ph first c data ps]: the packets [ps] of [pid] carry
    [data], the first one after [ph] and with the adaptation field [a0], with
    continuity counters from [c]. *)
Inductive carried (pid : Z) (a0 : adaptation) (ph : bytes)
    : bool → Z → bytes → list bytes → Prop :=
| carried_end first c : carried pid a0 ph first c [] []
| carried_packet (first : bool) c k x data ps :
    let a := stuffed (if first then a0 else NoAdapt) k in
    let p := packet_bytes (head_pusi first) pid c a ((if first then ph else []) ++ x) in
    (k <= 184)%nat → x ≠ [] → length p = 188%nat →
    carried pid a0 ph false (Z.land (c + 1) 0x0F) data ps →
    carried pid a0 ph first c (x ++ data) (p :: ps).

(** The counter the next packet of a stream gets. *)
Definition next_cc (m : MpegTsMuxer) (k : Z) : Z :=
  match mPidCcMap m !! k with Some v => Z.land (v + 1) 0x0F | None => 0 end.
Definition with_cc (cc : gmap Z Z) (m : MpegTsMuxer) : MpegTsMuxer :=
  with_counters (mCurrentIndex m) cc m.

Lemma next_cc_range m k : 0 <= next_cc m k < 2 ^ 4.
Proof.
  unfold next_cc. destruct (_ !! _); [|lia].
  rewrite (mask_low _ 4 0x0F) by done. apply Z.mod_pos_bound. lia.
Qed.
Lemma next_cc_mod m k : next_cc m k mod 16 = next_cc m k.
Proof. apply Z.mod_small, next_cc_range. Qed.
Lemma getCc_next k m : getCc k m = (next_cc m k, with_cc (<[k := next_cc m k]> (mPidCcMap m)) m).
Proof. done. Qed.
Lemma with_cc_twice c1 c2 m : with_cc c2 (with_cc c1 m) = with_cc c2 m.
Proof. done. Qed.
Lemma with_cc_id m : with_cc (mPidCcMap m) m = m.
Proof. by destruct m. Qed.
Lemma next_cc_insert m k c : next_cc (with_cc (<[k := c]> (mPidCcMap m)) m) k = Z.land (c + 1) 0x0F.
Proof. unfold next_cc. simpl. by rewrite lookup_insert_eq. Qed.

(** The frame after [n] bytes more. *)
Definition advance (n : nat) (f : EsFrame) : EsFrame := es_with_data (skip (Z.of_nat n) (es_mData f)) f.
Lemma advance_ok n f : es_ok f → (n <= length (es_left f))%nat → es_ok (advance n f).
Proof.
  intros Hf Hn. pose proof (length_es_left f Hf) as Hl. destruct Hf.
  constructor; unfold advance, skip, es_with_data, size in *; simpl in *; try done; lia.
Qed.
Lemma es_left_advance n f : es_ok f → es_left (advance n f) = drop n (es_left f).
Proof.
  intros []. unfold es_left, advance. simpl. rewrite drop_drop. f_equal. lia.
Qed.
Lemma advance_advance n k f : advance k (advance n f) = advance (n + k) f.
Proof. unfold advance, es_with_data, skip. simpl. do 2 f_equal. lia. Qed.
Lemma advance_0 f : advance 0 f = f.
Proof. unfold advance, skip, es_with_data. destruct f as [[]]. simpl. do 2 f_equal. lia. Qed.
Lemma empty_left f : es_ok f → empty (es_mData f) = bool_decide (es_left f = []).
Proof.
  intros Hf. pose proof (length_es_left f Hf). unfold empty. symmetry.
  apply bool_decide_ext' || idtac. case_bool_decide as E.
  - rewrite E in *. simpl in *. symmetry. apply Z.leb_le. lia.
  - symmetry. apply Z.leb_gt. destruct (es_left f); simpl in *; [done|lia].
Qed.

Lemma createPes_loop_spec fuel : ∀ lFirst m f rSb,
  es_ok f → (length (es_left f) <= fuel)%nat →
  ∃ cc ps,
    createPes_loop fuel lFirst m f rSb =
      Some (with_cc cc m, advance (length (es_left f)) f, push_back (concat ps) rSb) ∧
    carried (es_mPid f) (base_adapt m f) (pes_part f) lFirst (next_cc m (es_mStreamType f))
      (es_left f) ps ∧
    (∀ k, k ≠ es_mStreamType f → cc !! k = mPidCcMap m !! k) ∧
    next_cc (with_cc cc m) (es_mStreamType f) = (next_cc m (es_mStreamType f) + Z.of_nat (length ps)) mod 16.
Proof.
  induction fuel as [|fuel IH]; intros lFirst m f rSb Hf Hl; simpl; rewrite empty_left by done.
  - destruct (es_left f) eqn:E; [|simpl in Hl; lia]. simpl.
    exists (mPidCcMap m), []. rewrite with_cc_id, advance_0.
    split_and!; [|constructor|done|by rewrite Z.add_0_r, next_cc_mod].
    destruct rSb. unfold push_back, with_data. simpl. by rewrite app_nil_r.
  - case_bool_decide as E.
    + exists (mPidCcMap m), []. rewrite E, with_cc_id. simpl. rewrite advance_0.
      split_and!; [|constructor|done|by rewrite Z.add_0_r, next_cc_mod].
      destruct rSb. unfold push_back, with_data. simpl. by rewrite app_nil_r.
    + destruct (createPes_packet_spec lFirst m f _ _ Hf (getCc_next _ m) eq_refl (next_cc_range m _))
        as (p & Hp & Hd & H188).
      rewrite Hp. cbn [mbind option_bind]. set (n := chunk m f lFirst) in *.
      fold (advance n f).
      pose proof (room_head m f lFirst) as [_ Hroom].
      assert (Hn : (1 <= n <= length (es_left f))%nat).
      { unfold n, chunk. destruct (es_left f); [done|simpl; lia]. }
      set (m1 := with_cc _ m).
      destruct (IH false m1 (advance n f) (append (mData p) rSb)) as (cc & ps & Hrun & Hcar & Hoth & Hnext).
      { apply advance_ok; [done|lia]. }
      { rewrite es_left_advance, length_drop by done. lia. }
      rewrite es_left_advance in Hrun, Hcar by done.
      exists cc, (mData p :: ps). split_and!.
      * rewrite Hrun, advance_advance. unfold m1, append. rewrite with_cc_twice, push_push, length_drop.
        simpl. do 4 f_equal. f_equal. lia.
      * rewrite Hd. unfold pes_packet. fold n.
        pose proof (λ H1 H2 H3, carried_packet (es_mPid f) (base_adapt m f) (pes_part f) lFirst
          (next_cc m (es_mStreamType f)) (room m f lFirst - n) (take n (es_left f))
          (drop n (es_left f)) ps H1 H2 H3) as Hc.
        rewrite take_drop in Hc. apply Hc.
        -- unfold room. lia.
        -- intros Hnil. apply (f_equal length) in Hnil. rewrite length_take in Hnil. simpl in Hnil. lia.
        -- by rewrite <- H188, Hd.
        -- unfold m1 in Hcar. change (es_mStreamType (advance n f)) with (es_mStreamType f) in Hcar.
           rewrite next_cc_insert in Hcar. exact Hcar.
      * intros k Hk. rewrite Hoth by done. unfold m1. simpl. by rewrite lookup_insert_ne.
      * unfold m1 in Hnext. rewrite with_cc_twice in Hnext. change (es_mStreamType (advance n f)) with (es_mStreamType f) in Hnext.
        rewrite Hnext, next_cc_insert, (mask_low _ 4 0x0F) by done. change (2 ^ 4) with 16.
        rewrite Zplus_mod_idemp_l. f_equal. simpl. lia.
Qed.

(** The frame, all of it. *)
Lemma createPes_spec m f rSb : es_ok f →
  ∃ cc ps,
    createPes m f rSb =
      Some (with_cc cc m, advance (length (es_left f)) f, push_back (concat ps) rSb) ∧
    carried (es_mPid f) (base_adapt m f) (pes_part f) true (next_cc m (es_mStreamType f))
      (es_left f) ps ∧
    (∀ k, k ≠ es_mStreamType f → cc !! k = mPidCcMap m !! k) ∧
    next_cc (with_cc cc m) (es_mStreamType f) = (next_cc m (es_mStreamType f) + Z.of_nat (length ps)) mod 16.
Proof.
  intros Hf. apply createPes_loop_spec; [done|]. pose proof (length_es_left f Hf). lia.
Qed.

(** ** The PAT and the PMT *)

(** The configuration of a muxer: the tables fit into a packet, and the PID of
    the PMT is not one of the others. *)
Record mux_ok (m : MpegTsMuxer) : Prop := {
  mo_pmt : 0 < mPmtPid m < 2 ^ 13;
  mo_pcr : 0 < mPcrPid m < 2 ^ 13;
  mo_pmt_pcr : mPmtPid m ≠ mPcrPid m;
  mo_streams : map_Forall (λ t pid, is_byte t ∧ 0 < pid < 2 ^ 13 ∧ pid ≠ mPmtPid m) (mStreamPidMap m);
  mo_count : (base.size (mStreamPidMap m) <= 33)%nat;
}.

Definition pat_header : PATHeader := {|
  pat_mTableId := 0x00; pat_mSectionSyntaxIndicator := 1; pat_mB0 := 0; pat_mReserved0 := 0x3;
  pat_mSectionLength := 13; pat_mTransportStreamId := 0; pat_mReserved1 := 0x3;
  pat_mVersionNumber := 0; pat_mCurrentNextIndicator := 1; pat_mSectionNumber := 0x0;
  pat_mLastSectionNumber := 0x0 |}.
Definition pmt_header (m : MpegTsMuxer) : PMTHeader := {|
  pmt_mTableId := 0x02; pmt_mSectionSyntaxIndicator := 1; pmt_mB0 := 0; pmt_mReserved0 := 0x3;
  pmt_mSectionLength := 13 + 5 * Z.of_nat (base.size (mStreamPidMap m)); pmt_mProgramNumber := 0x0001;
  pmt_mReserved1 := 0x3; pmt_mVersionNumber := 0; pmt_mCurrentNextIndicator := 1;
  pmt_mSectionNumber := 0x00; pmt_mLastSectionNumber := 0x00; pmt_mReserved2 := 0x7;
  pmt_mPcrPid := mPcrPid m; pmt_mReserved3 := 0xf; pmt_mProgramInfoLength := 0;
  pmt_mInfos := pmt_infos (mStreamPidMap m) |}.

(** A section: its bytes and their crc. *)
Definition pat_section (lPmtPid : Z) : bytes :=
  pat_bytes pat_header ++ be_bytes 2 1 ++ be_bytes 2 (0xe000 + lPmtPid).
(** The packet of a section, with its pointer field. *)
Definition psi_packet (pid cc : Z) (sec : bytes) : bytes :=
  packet_bytes 1 pid cc NoAdapt
    (0 :: sec ++ be_bytes 4 (crc32 sec) ++ replicate (179 - length sec) 0xff).
Definition pat_packet (m : MpegTsMuxer) (cc : Z) : bytes := psi_packet 0 cc (pat_section (mPmtPid m)).
Definition pmt_packet (m : MpegTsMuxer) (cc : Z) : bytes :=
  psi_packet (mPmtPid m) cc (pmt_bytes (pmt_header m)).

Lemma finish_section_bytes hd sec rSb : length hd = 5%nat → (length sec <= 179)%nat →
  finish_section {| mData := hd ++ sec; mPos := 0 |} rSb =
  Some (push_back (hd ++ sec ++ be_bytes 4 (crc32 sec) ++ replicate (179 - length sec) 0xff) rSb).
Proof.
  intros Hh Hs. unfold finish_section.
  assert (Hz : size {| mData := hd ++ sec; mPos := 0 |} - 5 = Z.of_nat (length sec))
    by (unfold size; simpl; len).
  pose proof (slice_mid hd sec [] (Z.of_nat (length sec)) 5 0) as Hsl. rewrite app_nil_r in Hsl.
  rewrite Hz, Hsl by lia.
  cbn [mbind option_bind]. unfold write4Bytes, push_back, with_data, stuff_to_188. cbn [mData mPos].
  assert (Hz' : size {| mData := (hd ++ sec) ++ be_bytes 4 (crc32 sec); mPos := 0 |} =
                9 + Z.of_nat (length sec)) by (unfold size; simpl; len).
  rewrite Hz'. rewrite (proj2 (Z.ltb_ge _ _)) by lia. cbn [mbind option_bind mData append push_back with_data].
  replace (Z.to_nat _) with (179 - length sec)%nat by lia.
  unfold append, push_back, with_data. by rewrite <- !app_assoc.
Qed.

Lemma length_section_bytes tid sl r0 b0 ssi id cni ver r1 sn lsn :
  length (section_bytes tid sl r0 b0 ssi id cni ver r1 sn lsn) = 8%nat.
Proof. unfold section_bytes. len. Qed.
#[export] Hint Rewrite length_section_bytes : len.
Lemma length_pat_section pid : length (pat_section pid) = 12%nat.
Proof. unfold pat_section, pat_bytes. len. Qed.
Lemma length_concat_ei l : length (concat (map ei_bytes l)) = (5 * length l)%nat.
Proof. induction l; simpl; [done|]. len. Qed.
Lemma length_pmt_infos l : length (pmt_infos l) = base.size l.
Proof.
  unfold pmt_infos. rewrite length_map, in_order_perm. apply map_size_list || by rewrite length_map_to_list.
Qed.
Lemma length_pmt_bytes m : length (pmt_bytes (pmt_header m)) = (12 + 5 * base.size (mStreamPidMap m))%nat.
Proof. unfold pmt_bytes. cbn [pmt_mInfos pmt_header]. len. rewrite length_concat_ei, length_pmt_infos. lia. Qed.

Lemma pmt_infos_ok m : mux_ok m → Forall ei_ok (pmt_infos (mStreamPidMap m)).
Proof.
  intros [_ _ _ Hs _]. unfold pmt_infos. apply Forall_map, Forall_forall. intros [t pid] Hin.
  apply in_order_in in Hin. destruct (Hs _ _ Hin) as (Ht & Hp & _). simpl in *.
  rewrite u16_small by lia. constructor; simpl; try done; lia.
Qed.
Lemma pmt_header_ok m : mux_ok m → pmt_ok (pmt_header m).
Proof.
  intros Hm. pose proof (pmt_infos_ok m Hm). destruct Hm. constructor; cbn; try done; try lia.
  - unfold section_ok, bit, is_byte. split_and!; lia.
  - rewrite length_pmt_infos. lia.
Qed.

Lemma createPat_bytes m cc rSb : mux_ok m → 0 <= cc < 2 ^ 4 →
  createPat (mPmtPid m) cc rSb = Some (push_back (pat_packet m cc) rSb).
Proof.
  intros [Hp _ _ _ _] Hc. unfold createPat, pat_packet, psi_packet, packet_bytes.
  rewrite (TsHeader_encode_bytes (ts_header 1 MPEGTS_PAT_PID mPayloadOnly cc))
    by (apply (ts_header_ok 1 _ NoAdapt); unfold bit, MPEGTS_PAT_PID; lia).
  rewrite af_encode_new.
  change (Z.land (4 + 4 + 5) 0x3ff) with 13. fold pat_header.
  rewrite (PATHeader_encode_bytes pat_header) by (unfold pat_ok, section_ok, bit, is_byte; simpl; lia).
  unfold write2Bytes. rewrite !push_push, push_new.
  replace (Z.lor 0xe000 _) with (0xe000 + mPmtPid m).
  2: { rewrite (mask_low _ 13 0x1fff), Z.mod_small by (done || lia).
       rewrite (lor_high _ _ 13) by (done || lia). lia. }
  rewrite (app_assoc (ts_bytes _)).
  rewrite (finish_section_bytes (ts_bytes _ ++ [0]) (pat_section (mPmtPid m)))
    by (len; rewrite ?length_pat_section; lia).
  by rewrite <- !app_assoc.
Qed.

Lemma createPmt_bytes m cc rSb : mux_ok m → 0 <= cc < 2 ^ 4 →
  createPmt m (mStreamPidMap m) (mPmtPid m) cc rSb = Some (push_back (pmt_packet m cc) rSb).
Proof.
  intros Hm Hc. pose proof (pmt_header_ok m Hm) as Hok. pose proof (pmt_infos_ok m Hm) as Hinf.
  assert (Hn : (base.size (mStreamPidMap m) <= 33)%nat) by by destruct Hm.
  unfold createPmt, pmt_packet, psi_packet, packet_bytes, PMTHeader_size. cbn [pmt_mInfos].
  rewrite (TsHeader_encode_bytes (ts_header 1 (mPmtPid m) mPayloadOnly cc))
    by (apply (ts_header_ok 1 _ NoAdapt); destruct Hm; unfold bit; lia).
  rewrite af_encode_new, pmt_size_infos by (done || rewrite ?length_pmt_infos; lia).
  rewrite length_pmt_infos. replace (Z.land _ 0x3ff) with (13 + 5 * Z.of_nat (base.size (mStreamPidMap m))).
  2: { rewrite u16_small, (mask_low _ 10 0x3ff), Z.mod_small by (done || lia). lia. }
  fold (pmt_header m). rewrite PMTHeader_encode_bytes, !push_push, push_new by done.
  rewrite (app_assoc (ts_bytes _)).
  rewrite finish_section_bytes by (len; rewrite ?length_pmt_bytes; lia).
  by rewrite <- !app_assoc.
Qed.

Lemma length_psi_packet pid cc sec : (length sec <= 179)%nat → length (psi_packet pid cc sec) = 188%nat.
Proof. intros. unfold psi_packet. rewrite length_packet_bytes. simpl. len. Qed.

Lemma length_pat_packet m cc : length (pat_packet m cc) = 188%nat.
Proof. apply length_psi_packet. rewrite length_pat_section. lia. Qed.
Lemma length_pmt_packet m cc :
  (base.size (mStreamPidMap m) <= 33)%nat → length (pmt_packet m cc) = 188%nat.
Proof. intros. apply length_psi_packet. rewrite length_pmt_bytes. lia. Qed.

(** ** encode *)

(** Whether [encode] sends the tables. *)
Definition sends_tables (m : MpegTsMuxer) (lRandomAccess : bool) : bool :=
  match mMuxType m with
  | segmentType => lRandomAccess
  | h222Type => (mCurrentIndex m mod MPEGTS_PAT_INTERVAL =? 0)
  | _ => false
  end.
Definition tables (m : MpegTsMuxer) : list bytes :=
  [pat_packet m (next_cc m 0); pmt_packet m (next_cc m 0)].
Definition next_index (m : MpegTsMuxer) : Z :=
  match mMuxType m with
  | h222Type => mCurrentIndex (shouldCreatePat m).2
  | _ => mCurrentIndex m
  end.

Lemma patpmt_bytes m : mux_ok m →
  patpmt m = Some (with_cc (<[0 := next_cc m 0]> (mPidCcMap m)) m, push_back (concat (tables m)) SimpleBuffer_new).
Proof.
  intros Hm. unfold patpmt. rewrite getCc_next. pose proof (next_cc_range m 0) as Hc.
  set (m1 := with_cc _ m). change (mPmtPid m1) with (mPmtPid m).
  rewrite createPat_bytes by done. cbn [mbind option_bind].
  rewrite (createPmt_bytes m1) by (done || by destruct Hm; constructor). cbn [mbind option_bind].
  rewrite push_push. unfold tables. simpl. by rewrite app_nil_r.
Qed.

(** [encode] hands out the tables when they are due, then the packets of the
    frame; the frame is used up. *)
Lemma encode_spec m f lTag lRandomAccess : mux_ok m → es_ok f → es_mStreamType f ≠ 0 →
  ∃ cc ps out,
    let m' := with_counters (next_index m) cc m in
    MpegTsMuxer_encode m f lTag lRandomAccess =
      Some (m', advance (length (es_left f)) f, ts_out m out lTag lRandomAccess) ∧
    mData out = concat ((if sends_tables m lRandomAccess then tables m else []) ++ ps) ∧
    carried (es_mPid f) (base_adapt m f) (pes_part f) true (next_cc m (es_mStreamType f))
      (es_left f) ps ∧
    next_cc m' 0 = (if sends_tables m lRandomAccess then Z.land (next_cc m 0 + 1) 0x0F else next_cc m 0) ∧
    (∀ k, k ≠ es_mStreamType f → k ≠ 0 → cc !! k = mPidCcMap m !! k).
Proof.
  intros Hm Hf Ht. unfold MpegTsMuxer_encode.
  set (c0 := if sends_tables m lRandomAccess then <[0 := next_cc m 0]> (mPidCcMap m) else mPidCcMap m).
  set (l0 := concat (if sends_tables m lRandomAccess then tables m else [])).
  set (m1 := with_counters (next_index m) c0 m).
  assert (Hhead : match mMuxType m with
    | segmentType => if lRandomAccess then patpmt m else Some (m, SimpleBuffer_new)
    | h222Type =>
        let '(b, m) := shouldCreatePat m in
        if b : bool then patpmt m else Some (m, SimpleBuffer_new)
    | _ => Some (m, SimpleBuffer_new)
    end = Some (m1, push_back l0 SimpleBuffer_new)).
  { unfold m1, c0, l0, sends_tables, next_index.
    destruct (mMuxType m) eqn:E; [by destruct m| | |by destruct m].
    - destruct lRandomAccess; [by rewrite patpmt_bytes|by destruct m].
    - unfold shouldCreatePat. destruct (_ =? 0); [|done].
      rewrite patpmt_bytes by (by destruct Hm; constructor). done. }
  rewrite Hhead. cbn [mbind option_bind].
  destruct (createPes_spec m1 f (push_back l0 SimpleBuffer_new) Hf) as (cc & ps & Hrun & Hcar & Hoth & _).
  rewrite Hrun. cbn [mbind option_bind].
  exists cc, ps. eexists. split_and!.
  - unfold m1. reflexivity.
  - rewrite push_push, push_new, concat_app. done.
  - unfold next_cc in *. unfold m1 in Hcar. simpl in Hcar.
    replace (c0 !! es_mStreamType f) with (mPidCcMap m !! es_mStreamType f) in Hcar; [done|].
    unfold c0. destruct (sends_tables _ _); [|done]. by rewrite lookup_insert_ne.
  - unfold next_cc at 1. simpl. rewrite Hoth by done. unfold m1, c0. simpl.
    destruct (sends_tables _ _); [|done]. by rewrite lookup_insert_eq.
  - intros k Hk Hk0. rewrite Hoth by done. unfold m1, c0. simpl.
    destruct (sends_tables _ _); [|done]. by rewrite lookup_insert_ne.
Qed.

(** ** A packet read as ISO/IEC 13818-1 lays it out *)
Record wire_packet := { wp_pusi : Z; wp_pid : Z; wp_cc : Z; wp_payload : bytes }.
Definition ts_parse (p : bytes) : option wire_packet :=
  match p with
  | sync :: b1 :: b2 :: b3 :: rest =>
      if (sync =? 0x47) && (Z.of_nat (length p) =? 188) then
        payload ← (
          if b3 / 2 ^ 4 mod 2 ^ 2 =? 1 then Some rest
          else if b3 / 2 ^ 4 mod 2 ^ 2 =? 3 then
            match rest with
            | len :: rest' =>
                if (0 <=? len) && (len <=? Z.of_nat (length rest')) then Some (drop (Z.to_nat len) rest') else None
            | [] => None
            end
          else None);
        Some {| wp_pusi := b1 / 2 ^ 6 mod 2; wp_pid := b1 mod 2 ^ 5 * 2 ^ 8 + b2;
                wp_cc := b3 mod 2 ^ 4; wp_payload := payload |}
      else None
  | _ => None
  end.

Lemma ts_parse_packet pusi pid cc a l :
  bit pusi → 0 <= pid < 2 ^ 13 → 0 <= cc < 2 ^ 4 → length (packet_bytes pusi pid cc a l) = 188%nat →
  ts_parse (packet_bytes pusi pid cc a l) =
  Some {| wp_pusi := pusi; wp_pid := pid; wp_cc := cc; wp_payload := l |}.
Proof.
  intros Hp Hpid Hc Hl. unfold bit in Hp.
  set (w := ts_word (ts_header pusi pid (adapt_afc a) cc)).
  set (b3 := ts_last (ts_header pusi pid (adapt_afc a) cc)).
  assert (Hw : w = pid + pusi * 2 ^ 14) by (unfold w, ts_word; simpl; lia).
  assert (Hb3 : b3 = cc + adapt_afc a * 2 ^ 4) by (unfold b3, ts_last; simpl; lia).
  assert (Hafc : 0 <= adapt_afc a < 2 ^ 2)
    by (destruct a; unfold adapt_afc, mPayloadOnly, mPayloadAdaptionBoth; lia).
  assert (E : packet_bytes pusi pid cc a l =
              0x47 :: u8 (w / 2 ^ 8) :: u8 w :: b3 :: adapt_bytes a ++ l) by done.
  rewrite E in *. unfold ts_parse. rewrite Hl. change ((0x47 =? 0x47) && _) with true. cbn match.
  assert (Hf : b3 / 2 ^ 4 mod 2 ^ 2 = adapt_afc a) by (rewrite Hb3; clear -Hc Hafc; divlia).
  assert (Hcc : b3 mod 2 ^ 4 = cc) by (rewrite Hb3; clear -Hc Hafc; divlia).
  assert (Hpu : u8 (w / 2 ^ 8) / 2 ^ 6 mod 2 = pusi) by (rewrite Hw; clear -Hp Hpid; unfold u8; divlia).
  assert (Hpi : u8 (w / 2 ^ 8) mod 2 ^ 5 * 2 ^ 8 + u8 w = pid)
    by (rewrite Hw; clear -Hp Hpid; unfold u8; divlia).
  rewrite Hf, Hcc, Hpu, Hpi.
  assert (Hpay : (if adapt_afc a =? 1 then Some (adapt_bytes a ++ l)
     else if adapt_afc a =? 3 then
       match adapt_bytes a ++ l with
       | len :: rest' =>
           if (0 <=? len) && (len <=? Z.of_nat (length rest')) then Some (drop (Z.to_nat len) rest') else None
       | [] => None
       end
     else None) = Some l).
  { destruct a as [| |ra pcr k]; [done|..].
    - cbn. rewrite (proj2 (Z.leb_le _ _)) by lia. done.
    - cbn [adapt_afc adapt_bytes]. change (mPayloadAdaptionBoth =? 1) with false.
      change (mPayloadAdaptionBoth =? 3) with true. cbn match. rewrite af_bytes_adapt. cbn [app].
      rewrite !(proj2 (Z.leb_le _ _)) by len. cbn [andb]. f_equal.
      rewrite Nat2Z.id. rewrite app_comm_cons. apply drop_app_length'. len. }
  rewrite Hpay. done.
Qed.

(** The packets of a frame, read back: they are of its PID, the first one
    starts a unit, the counters follow each other, and the payloads are the
    PES packet. *)
Definition wire_ok (pid : Z) (first : bool) (c : Z) (l : bytes) (ws : list wire_packet) : Prop :=
  concat (map wp_payload ws) = l ∧
  Forall (λ w, wp_pid w = pid) ws ∧
  (∀ i w, ws !! i = Some w → wp_pusi w = (if first && (i =? 0)%nat then 1 else 0)) ∧
  (∀ i w, ws !! i = Some w → wp_cc w = (c + Z.of_nat i) mod 16).

Lemma carried_length pid a0 ph first c data ps :
  carried pid a0 ph first c data ps → Forall (λ p, length p = 188%nat) ps.
Proof. induction 1; by constructor. Qed.
Lemma carried_wire pid a0 ph first c data ps :
  0 <= pid < 2 ^ 13 → carried pid a0 ph first c data ps → 0 <= c < 2 ^ 4 → data ≠ [] →
  ∃ ws, mapM ts_parse ps = Some ws ∧ wire_ok pid first c ((if first then ph else []) ++ data) ws.
Proof.
  intros Hpid. induction 1 as [|first c k x data ps a p Hk Hx Hlen Hcar IH]; intros Hc Hd; [done|].
  assert (Hpu : bit (head_pusi first)) by (destruct first; unfold bit; simpl; lia).
  assert (Hcc : Z.land (c + 1) 15 = (c + 1) mod 2 ^ 4) by by apply mask_low.
  assert (Hrest : ∃ ws, mapM ts_parse ps = Some ws ∧ wire_ok pid false (Z.land (c + 1) 15) data ws).
  { destruct data as [|y data].
    - inversion Hcar; subst; [|by destruct x0]. exists []. done.
    - apply IH; [|done]. rewrite Hcc. apply Z.mod_pos_bound. lia. }
  destruct Hrest as (ws & Hws & Hpay & Hpids & Hpus & Hccs).
  eexists (_ :: ws). split.
  - cbn [mapM]. unfold p. rewrite ts_parse_packet by done. cbn [mbind option_bind]. by rewrite Hws.
  - split_and!.
    + cbn [map concat wp_payload]. by rewrite Hpay, <- app_assoc.
    + by constructor.
    + intros [|i] w Hw; simpl in Hw; [simplify_eq; simpl; by destruct first|].
      rewrite (Hpus i w Hw), andb_false_r. done.
    + intros [|i] w Hw; simpl in Hw; [simplify_eq; simpl; rewrite Z.add_0_r, Z.mod_small; lia|].
      rewrite (Hccs i w Hw), Hcc. change (2 ^ 4) with 16. rewrite Zplus_mod_idemp_l. f_equal. lia.
Qed.
