(* ===== verification/TsDemux.v ===== *)
(** * The MPEG-TS demuxer: src/3rd/mpegts/mpegts_demuxer.cpp

    [decode] goes through the packets of a buffer.  What it hands to the
    callbacks is a list of events; a frame is given by its contents at the
    time of the call.  [None] is a failed assertion or an exception of the
    buffer. *)
From S2P Require Import Prelude TsBuffer TsPacket TsMux.

(** ** EsFrame *)
Definition es_set_head (ra sid len : Z) (f : EsFrame) : EsFrame := {|
  es_mData := es_mData f; es_mPts := es_mPts f; es_mDts := es_mDts f; es_mPcr := es_mPcr f;
  es_mRandomAccess := ra; es_mStreamType := es_mStreamType f; es_mStreamId := sid;
  es_mPid := es_mPid f; es_mExpectedPesPacketLength := len;
  es_mExpectedPayloadLength := es_mExpectedPayloadLength f;
  es_mCompleted := es_mCompleted f; es_mBroken := es_mBroken f |}.
Definition es_set_ts (pts dts : Z) (f : EsFrame) : EsFrame := {|
  es_mData := es_mData f; es_mPts := pts; es_mDts := dts; es_mPcr := es_mPcr f;
  es_mRandomAccess := es_mRandomAccess f; es_mStreamType := es_mStreamType f;
  es_mStreamId := es_mStreamId f; es_mPid := es_mPid f;
  es_mExpectedPesPacketLength := es_mExpectedPesPacketLength f;
  es_mExpectedPayloadLength := es_mExpectedPayloadLength f;
  es_mCompleted := es_mCompleted f; es_mBroken := es_mBroken f |}.
Definition es_set_state (pid payload : Z) (completed broken : bool) (f : EsFrame) : EsFrame := {|
  es_mData := es_mData f; es_mPts := es_mPts f; es_mDts := es_mDts f; es_mPcr := es_mPcr f;
  es_mRandomAccess := es_mRandomAccess f; es_mStreamType := es_mStreamType f;
  es_mStreamId := es_mStreamId f; es_mPid := pid;
  es_mExpectedPesPacketLength := es_mExpectedPesPacketLength f;
  es_mExpectedPayloadLength := payload; es_mCompleted := completed; es_mBroken := broken |}.

(** [EsFrame(lSt)]; [uninit] holds the members it leaves alone. *)
Definition EsFrame_new (uninit : EsFrame) (lSt : Z) : EsFrame := {|
  es_mData := SimpleBuffer_new; es_mPts := es_mPts uninit; es_mDts := es_mDts uninit;
  es_mPcr := es_mPcr uninit; es_mRandomAccess := es_mRandomAccess uninit; es_mStreamType := lSt;
  es_mStreamId := es_mStreamId uninit; es_mPid := 0; es_mExpectedPesPacketLength := 0;
  es_mExpectedPayloadLength := 0; es_mCompleted := false; es_mBroken := false |}.

Definition EsFrame_empty (f : EsFrame) : bool := size (es_mData f) =? 0.

Definition EsFrame_reset (f : EsFrame) : EsFrame := {|
  es_mData := SimpleBuffer_new; es_mPts := es_mPts f; es_mDts := es_mDts f; es_mPcr := es_mPcr f;
  es_mRandomAccess := es_mRandomAccess f; es_mStreamType := es_mStreamType f;
  es_mStreamId := es_mStreamId f; es_mPid := 0; es_mExpectedPesPacketLength := 0;
  es_mExpectedPayloadLength := 0; es_mCompleted := false; es_mBroken := false |}.

(** ** MpegTsDemuxer *)
Record MpegTsDemuxer := {
  dm_mStreamPidMap : gmap Z Z;
  dm_mPmtId : Z;
  dm_mPatHeader : PATHeader;
  dm_mPatIsValid : bool;
  dm_mPmtHeader : PMTHeader;
  dm_mPmtIsValid : bool;
  dm_mEsFrames : gmap Z EsFrame;
  dm_mPcrId : Z;
  dm_mRestData : SimpleBuffer;
  (** whether the callbacks are set *)
  has_esOut : bool;
  has_pcrOut : bool;
}.
Definition MpegTsDemuxer_new : MpegTsDemuxer := {|
  dm_mStreamPidMap := ∅; dm_mPmtId := 0; dm_mPatHeader := PATHeader_new; dm_mPatIsValid := false;
  dm_mPmtHeader := PMTHeader_new; dm_mPmtIsValid := false; dm_mEsFrames := ∅; dm_mPcrId := 0;
  dm_mRestData := SimpleBuffer_new; has_esOut := false; has_pcrOut := false |}.
Definition dm_set_pat (id : Z) (h : PATHeader) (d : MpegTsDemuxer) : MpegTsDemuxer := {|
  dm_mStreamPidMap := dm_mStreamPidMap d; dm_mPmtId := id; dm_mPatHeader := h;
  dm_mPatIsValid := true; dm_mPmtHeader := dm_mPmtHeader d; dm_mPmtIsValid := dm_mPmtIsValid d;
  dm_mEsFrames := dm_mEsFrames d; dm_mPcrId := dm_mPcrId d; dm_mRestData := dm_mRestData d;
  has_esOut := has_esOut d; has_pcrOut := has_pcrOut d |}.
Definition dm_set_pmt (l : gmap Z Z) (h : PMTHeader) (fs : gmap Z EsFrame) (d : MpegTsDemuxer)
    : MpegTsDemuxer := {|
  dm_mStreamPidMap := l; dm_mPmtId := dm_mPmtId d; dm_mPatHeader := dm_mPatHeader d;
  dm_mPatIsValid := dm_mPatIsValid d; dm_mPmtHeader := h; dm_mPmtIsValid := true;
  dm_mEsFrames := fs; dm_mPcrId := pmt_mPcrPid h; dm_mRestData := dm_mRestData d;
  has_esOut := has_esOut d; has_pcrOut := has_pcrOut d |}.
Definition dm_set_frame (pid : Z) (f : EsFrame) (d : MpegTsDemuxer) : MpegTsDemuxer := {|
  dm_mStreamPidMap := dm_mStreamPidMap d; dm_mPmtId := dm_mPmtId d;
  dm_mPatHeader := dm_mPatHeader d; dm_mPatIsValid := dm_mPatIsValid d;
  dm_mPmtHeader := dm_mPmtHeader d; dm_mPmtIsValid := dm_mPmtIsValid d;
  dm_mEsFrames := <[pid := f]> (dm_mEsFrames d); dm_mPcrId := dm_mPcrId d;
  dm_mRestData := dm_mRestData d; has_esOut := has_esOut d; has_pcrOut := has_pcrOut d |}.
Definition dm_set_rest (b : SimpleBuffer) (d : MpegTsDemuxer) : MpegTsDemuxer := {|
  dm_mStreamPidMap := dm_mStreamPidMap d; dm_mPmtId := dm_mPmtId d;
  dm_mPatHeader := dm_mPatHeader d; dm_mPatIsValid := dm_mPatIsValid d;
  dm_mPmtHeader := dm_mPmtHeader d; dm_mPmtIsValid := dm_mPmtIsValid d;
  dm_mEsFrames := dm_mEsFrames d; dm_mPcrId := dm_mPcrId d; dm_mRestData := b;
  has_esOut := has_esOut d; has_pcrOut := has_pcrOut d |}.

Inductive ts_event := EsOut (f : EsFrame) | PcrOut (lPcr : Z).
Definition es_out (d : MpegTsDemuxer) (f : EsFrame) : list ts_event :=
  if has_esOut d then [EsOut f] else [].
Definition pcr_out (d : MpegTsDemuxer) (lPcr : Z) : list ts_event :=
  if has_pcrOut d then [PcrOut lPcr] else [].

Definition has_adaption (afc : Z) : bool := (afc =? mAdaptionOnly) || (afc =? mPayloadAdaptionBoth).
Definition has_payload (afc : Z) : bool := (afc =? mPayloadOnly) || (afc =? mPayloadAdaptionBoth).

(** [lAdaptionField.decode(rIn); rIn.skip(...)], when there is one *)
Definition skip_adaption (afc : Z) (rIn : SimpleBuffer) : option SimpleBuffer :=
  if has_adaption afc then
    '(af, rIn) ← AdaptationFieldHeader_decode AdaptationFieldHeader_new rIn;
    let len := af_mAdaptationFieldLength af in
    Some (skip (if 0 <? len then len - 1 else 0) rIn)
  else Some rIn.

(** [mData->append(rIn.data() + rIn.pos(), len)] reads [len] bytes. *)
Definition append_from (rIn : SimpleBuffer) (len : Z) (b : SimpleBuffer) : option SimpleBuffer :=
  if len <=? 0 then Some b else l ← slice (mPos rIn) len rIn; Some (append l b).

(** The PAT. *)
Definition decode_pat (h : TsHeader) (d : MpegTsDemuxer) (rIn : SimpleBuffer)
    : option (MpegTsDemuxer * SimpleBuffer) :=
  let afc := th_mAdaptationFieldControl h in
  rIn ← skip_adaption afc rIn;
  if has_payload afc then
    rIn ← (if th_mPayloadUnitStartIndicator h =? 0x01
           then '(_, rIn) ← read1Byte rIn; Some rIn else Some rIn);
    '(pat, rIn) ← PATHeader_decode (dm_mPatHeader d) rIn;
    '(_, rIn) ← read2Bytes rIn;
    '(v, rIn) ← read2Bytes rIn;
    Some (dm_set_pat (Z.land v 0x1fff) pat d, rIn)
  else Some (d, rIn).

(** The PMT. *)
Definition decode_pmt (uninit : EsFrame) (h : TsHeader) (d : MpegTsDemuxer) (rIn : SimpleBuffer)
    : option (MpegTsDemuxer * SimpleBuffer) :=
  rIn ← skip_adaption (th_mAdaptationFieldControl h) rIn;
  if th_mPayloadUnitStartIndicator h =? 0x01 then
    '(_, rIn) ← read1Byte rIn;
    '(pmt, rIn) ← PMTHeader_decode (dm_mPmtHeader d) rIn;
    let infos := pmt_mInfos pmt in
    let fs := foldl (λ fs e, <[ei_mElementaryPid e := EsFrame_new uninit (ei_mStreamType e)]> fs)
                    (dm_mEsFrames d) infos in
    let l := foldl (λ l e, <[ei_mStreamType e := ei_mElementaryPid e]> l)
                   (dm_mStreamPidMap d) infos in
    Some (dm_set_pmt l pmt fs d, rIn)
  else Some (d, rIn).

(** The adaptation field of a packet of a stream: the random access indicator,
    and the clock reference when there is one. *)
Definition decode_adaption (d : MpegTsDemuxer) (afc : Z) (rIn : SimpleBuffer)
    : option (Z * list ts_event * SimpleBuffer) :=
  if has_adaption afc then
    '(af, rIn) ← AdaptationFieldHeader_decode AdaptationFieldHeader_new rIn;
    let len := af_mAdaptationFieldLength af in
    '(len, evs, rIn) ← (
      if af_mPcrFlag af =? 1 then
        '(lPcr, rIn) ← readPcr rIn; Some (len - 6, pcr_out d lPcr, rIn)
      else Some (len, [], rIn));
    Some (af_mRandomAccessIndicator af, evs, skip (if 0 <? len then len - 1 else 0) rIn)
  else Some (0, [], rIn).

(** The frame is handed out complete and starts afresh. *)
Definition deliver (d : MpegTsDemuxer) (pid : Z) (f : EsFrame) : EsFrame * list ts_event :=
  let f := es_set_state pid (es_mExpectedPayloadLength f) true (es_mBroken f) f in
  (EsFrame_reset f, es_out d f).

(** A packet that starts a frame: a frame that is not complete is handed out
    as broken. *)
Definition start_frame (d : MpegTsDemuxer) (pid ra : Z) (f : EsFrame) : EsFrame * list ts_event :=
  let f := es_set_head ra (es_mStreamId f) (es_mExpectedPesPacketLength f) f in
  if es_mCompleted f then (EsFrame_reset f, [])
  else if negb (size (es_mData f) =? 0) then
    let fb := es_set_state pid (es_mExpectedPayloadLength f) (es_mCompleted f) true f in
    (EsFrame_reset f, es_out d fb)
  else (f, []).

(** The PES header of that packet. *)
Definition decode_pes (f : EsFrame) (rIn : SimpleBuffer)
    : option (PESHeader * EsFrame * SimpleBuffer) :=
  '(h, rIn) ← PESHeader_decode PESHeader_new rIn;
  let f := es_set_head (es_mRandomAccess f) (pes_mStreamId h) (pes_mPesPacketLength h) f in
  if pes_mPtsDtsFlags h =? 0x02 then
    '(pts, rIn) ← readPts rIn; Some (h, es_set_ts pts pts f, rIn)
  else if pes_mPtsDtsFlags h =? 0x03 then
    '(pts, rIn) ← readPts rIn;
    '(dts, rIn) ← readPts rIn; Some (h, es_set_ts pts dts f, rIn)
  else Some (h, f, rIn).

(** The first packet of a frame whose length is announced. *)
Definition first_payload (d : MpegTsDemuxer) (pid lPos : Z) (h : PESHeader) (f : EsFrame)
    (rIn : SimpleBuffer) : option (EsFrame * list ts_event) :=
  let payloadLength := pes_mPesPacketLength h - 3 - pes_mHeaderDataLength h in
  let f := es_set_state (es_mPid f) (u16 payloadLength) (es_mCompleted f) (es_mBroken f) f in
  b ← (if (188 <? payloadLength + mPos rIn) || (payloadLength <? 0)
       then append_from rIn (188 - (mPos rIn - lPos)) (es_mData f)
       else append_from rIn payloadLength (es_mData f));
  let f := es_with_data b f in
  if size b =? payloadLength then Some (deliver d pid f) else Some (f, []).

(** The other packets. *)
Definition next_payload (d : MpegTsDemuxer) (pid lPos : Z) (f : EsFrame) (rIn : SimpleBuffer)
    : option (EsFrame * list ts_event) :=
  let rest := 188 - (mPos rIn - lPos) in
  let have := size (es_mData f) in
  b ← (if negb (es_mExpectedPesPacketLength f =? 0) &&
          (es_mExpectedPesPacketLength f <? have + rest)
       then append_from rIn (es_mExpectedPesPacketLength f - have) (es_mData f)
       else append_from rIn rest (es_mData f));
  let f := es_with_data b f in
  if es_mExpectedPayloadLength f =? size b then Some (deliver d pid f) else Some (f, []).

(** The packet of an elementary stream [f]; the position is left to the caller. *)
Definition decode_es (d : MpegTsDemuxer) (h : TsHeader) (lPos : Z) (f : EsFrame)
    (rIn : SimpleBuffer) : option (EsFrame * list ts_event * SimpleBuffer) :=
  let pid := th_mPid h in
  let afc := th_mAdaptationFieldControl h in
  '(ra, evs, rIn) ← decode_adaption d afc rIn;
  if has_payload afc then
    if th_mPayloadUnitStartIndicator h =? 0x01 then
      let '(f, evs1) := start_frame d pid ra f in
      '(ph, f, rIn) ← decode_pes f rIn;
      '(f, evs2) ← (if negb (pes_mPesPacketLength ph =? 0) then first_payload d pid lPos ph f rIn
                    else next_payload d pid lPos f rIn);
      Some (f, evs ++ evs1 ++ evs2, rIn)
    else
      '(f, evs1) ← next_payload d pid lPos f rIn;
      Some (f, evs ++ evs1, rIn)
  else Some (f, evs, rIn).

(** One round of the loop of [decode]. *)
Definition decode_packet (uninit : EsFrame) (d : MpegTsDemuxer) (rIn : SimpleBuffer)
    : option (MpegTsDemuxer * list ts_event * SimpleBuffer) :=
  let lPos := mPos rIn in
  '(h, rIn) ← TsHeader_decode TsHeader_new rIn;
  let pid := th_mPid h in
  '(d, rIn) ← (if (pid =? 0) && (dm_mPmtId d =? 0) then decode_pat h d rIn else Some (d, rIn));
  '(d, rIn) ← (if bool_decide (dm_mEsFrames d = ∅) && negb (dm_mPmtId d =? 0) && (pid =? dm_mPmtId d)
               then decode_pmt uninit h d rIn else Some (d, rIn));
  '(d, evs, rIn) ← (
    match dm_mEsFrames d !! pid with
    | Some f =>
        '(f, evs, rIn) ← decode_es d h lPos f rIn;
        Some (dm_set_frame pid f d, evs, rIn)
    | None =>
        if negb (dm_mPcrId d =? 0) && (dm_mPcrId d =? pid) then
          '(_, rIn) ← AdaptationFieldHeader_decode AdaptationFieldHeader_new rIn;
          '(lPcr, rIn) ← readPcr rIn;
          Some (d, pcr_out d lPcr, rIn)
        else Some (d, [], rIn)
    end);
  Some (d, evs, skip (188 - (mPos rIn - lPos)) rIn).

(** [while ((rIn.size() - rIn.pos()) >= 188)]; a round moves on by 188 bytes. *)
Fixpoint decode_loop (fuel : nat) (uninit : EsFrame) (d : MpegTsDemuxer) (rIn : SimpleBuffer)
    : option (MpegTsDemuxer * list ts_event * SimpleBuffer) :=
  if size rIn - mPos rIn <? 188 then Some (d, [], rIn) else
  match fuel with
  | O => None
  | S fuel' =>
      '(d, evs, rIn) ← decode_packet uninit d rIn;
      '(d, evs', rIn) ← decode_loop fuel' uninit d rIn;
      Some (d, evs ++ evs', rIn)
  end.

(** The bytes left are kept for the next call; [rIn] is cleared. *)
Definition MpegTsDemuxer_decode (uninit : EsFrame) (d : MpegTsDemuxer) (rIn : SimpleBuffer)
    : option (MpegTsDemuxer * list ts_event) :=
  let rIn := if negb (size (dm_mRestData d) =? 0) then prepend (mData (dm_mRestData d)) rIn else rIn in
  let d := if negb (size (dm_mRestData d) =? 0) then dm_set_rest SimpleBuffer_new d else d in
  '(d, evs, rIn) ← decode_loop (Z.to_nat (size rIn - mPos rIn)) uninit d rIn;
  let left := drop (Z.to_nat (mPos rIn)) (mData rIn) in
  Some (dm_set_rest (append left (dm_mRestData d)) d, evs).
