(* ===== verification/TsDemuxFacts.v ===== *)
(** * What the demuxer does with the packets of the muxer

    [demuxes] says which events a sequence of packets gives and what state it
    leaves, wherever the packets are in the buffer; [decode] over any split of
    the packets follows. *)
From S2P Require Import Prelude StdMap TsBuffer TsPacket TsMux TsMuxFacts TsDemux.

Section demux.
Context (uninit : EsFrame).

(** A packet is decoded the same wherever it is. *)
Definition packet_step (d : MpegTsDemuxer) (p : bytes) (evs : list ts_event) (d' : MpegTsDemuxer)
    : Prop :=
  ∀ pre rest, decode_packet uninit d (cur pre (p ++ rest)) = Some (d', evs, cur (pre ++ p) rest).

Inductive demuxes : MpegTsDemuxer → list bytes → list ts_event → MpegTsDemuxer → Prop :=
| demuxes_nil d : demuxes d [] [] d
| demuxes_cons d d1 d2 p ps evs evs' :
    length p = 188%nat → packet_step d p evs d1 → demuxes d1 ps evs' d2 →
    demuxes d (p :: ps) (evs ++ evs') d2.

Lemma demuxes_app d d1 d2 ps ps' evs evs' :
  demuxes d ps evs d1 → demuxes d1 ps' evs' d2 → demuxes d (ps ++ ps') (evs ++ evs') d2.
Proof.
  induction 1 as [|d d1' d1 p ps e1 e2 Hl Hs Hd IH]; intros H2; [done|].
  cbn [app]. rewrite <- app_assoc. econstructor; eauto.
Qed.
Lemma demuxes_one d p evs d' : length p = 188%nat → packet_step d p evs d' → demuxes d [p] evs d'.
Proof. intros Hl Hs. rewrite <- (app_nil_r evs). econstructor; [done|done|constructor]. Qed.
Lemma demuxes_silent d d1 d2 p ps evs :
  length p = 188%nat → packet_step d p [] d1 → demuxes d1 ps evs d2 → demuxes d (p :: ps) evs d2.
Proof. intros. by apply (demuxes_cons d d1 d2 p ps [] evs). Qed.
Lemma demuxes_length d ps evs d' : demuxes d ps evs d' → length (concat ps) = (188 * length ps)%nat.
Proof. induction 1; simpl; [done|]. len. Qed.

(** ** The loop of [decode] *)
Lemma decode_loop_demuxes d ps evs d' : demuxes d ps evs d' → ∀ fuel pre rest,
  (length ps <= fuel)%nat → (length rest < 188)%nat →
  decode_loop fuel uninit d (cur pre (concat ps ++ rest)) = Some (d', evs, cur (pre ++ concat ps) rest).
Proof.
  induction 1 as [d|d d1 d2 p ps e1 e2 Hl Hs Hd IH]; intros fuel pre rest Hf Hr.
  - simpl. rewrite app_nil_r. assert (E : (size (cur pre rest) - mPos (cur pre rest) <? 188) = true).
    { apply Z.ltb_lt. rewrite size_cur. unfold cur. simpl. lia. }
    destruct fuel; cbn [decode_loop]; by rewrite E.
  - destruct fuel as [|fuel]; [simpl in Hf; lia|]. cbn [decode_loop concat].
    rewrite (proj2 (Z.ltb_ge _ _)) by (rewrite size_cur; unfold cur; simpl; len).
    rewrite <- app_assoc, Hs. cbn [mbind option_bind].
    rewrite IH by (simpl in Hf; lia). cbn [mbind option_bind]. by rewrite app_assoc.
Qed.

(** ** decode, over a stream in pieces *)

(** Between two calls [mRestData] holds the bytes behind the last packet. *)
Definition holding (rest : bytes) (d : MpegTsDemuxer) : MpegTsDemuxer :=
  dm_set_rest {| mData := rest; mPos := 0 |} d.

Lemma decode_holding d rest chunk ps evs d' rest' :
  dm_mRestData d = SimpleBuffer_new → dm_mRestData d' = SimpleBuffer_new →
  demuxes d ps evs d' → rest ++ chunk = concat ps ++ rest' → (length rest' < 188)%nat →
  MpegTsDemuxer_decode uninit (holding rest d) {| mData := chunk; mPos := 0 |} =
  Some (holding rest' d', evs).
Proof.
  intros Hd Hd' Hps Hsplit Hr. unfold MpegTsDemuxer_decode, holding. cbn [dm_mRestData dm_set_rest].
  set (r := {| mData := rest; mPos := 0 |}).
  assert (E1 : (if negb (size r =? 0) then prepend (mData r) {| mData := chunk; mPos := 0 |}
                else {| mData := chunk; mPos := 0 |}) = cur [] (concat ps ++ rest')).
  { rewrite <- Hsplit. unfold size, r, prepend, with_data, cur. simpl. by destruct rest. }
  assert (E2 : (if negb (size r =? 0) then dm_set_rest SimpleBuffer_new (dm_set_rest r d)
                else dm_set_rest r d) = d).
  { destruct d. unfold dm_set_rest. cbn in *. subst. unfold size, r. simpl. by destruct rest. }
  rewrite E1, E2. rewrite (decode_loop_demuxes _ _ _ _ Hps).
  2: { rewrite size_cur. unfold cur. simpl. pose proof (demuxes_length _ _ _ _ Hps). len. }
  2: { done. }
  cbn [mbind option_bind]. rewrite Hd'. unfold cur. cbn [mData mPos app].
  rewrite Nat2Z.id, drop_app_length. done.
Qed.

(** What a packet leaves alone. *)
Definition same_outside (d d' : MpegTsDemuxer) : Prop :=
  dm_mRestData d' = dm_mRestData d ∧ has_esOut d' = has_esOut d ∧ has_pcrOut d' = has_pcrOut d.

Lemma decode_pat_outside h d rIn d' r : decode_pat h d rIn = Some (d', r) → same_outside d d'.
Proof.
  unfold decode_pat. intros H. destruct (skip_adaption _ rIn) as [r1|]; [|done]. cbn in H.
  destruct (has_payload _); [|by simplify_eq].
  destruct (if _ =? 1 then _ else _) as [r2|]; [|done]. cbn in H.
  destruct (PATHeader_decode _ _) as [[]|]; [|done]. cbn in H.
  destruct (read2Bytes _) as [[? r3]|]; [|done]. cbn in H.
  destruct (read2Bytes r3) as [[]|]; [|done]. cbn in H. by simplify_eq.
Qed.
Lemma decode_pmt_outside h d rIn d' r : decode_pmt uninit h d rIn = Some (d', r) → same_outside d d'.
Proof.
  unfold decode_pmt. intros H. destruct (skip_adaption _ rIn) as [r1|]; [|done]. cbn in H.
  destruct (_ =? 1); [|by simplify_eq].
  destruct (read1Byte r1) as [[]|]; [|done]. cbn in H.
  destruct (PMTHeader_decode _ _) as [[]|]; [|done]. cbn in H. by simplify_eq.
Qed.
Lemma same_outside_trans d1 d2 d3 : same_outside d1 d2 → same_outside d2 d3 → same_outside d1 d3.
Proof. unfold same_outside. intuition congruence. Qed.

Lemma decode_packet_outside d rIn d' evs r :
  decode_packet uninit d rIn = Some (d', evs, r) → same_outside d d'.
Proof.
  unfold decode_packet. intros H. destruct (TsHeader_decode _ _) as [[h r1]|]; [|done]. cbn in H.
  destruct (if _ && _ then _ else _) as [[d1 r2]|] eqn:E1; [|done]. cbn in H.
  destruct (if _ && _ && _ then _ else _) as [[d2 r3]|] eqn:E2; [|done]. cbn in H.
  assert (H1 : same_outside d d1).
  { destruct (_ && _); [by eapply decode_pat_outside|by simplify_eq]. }
  assert (H2 : same_outside d1 d2).
  { destruct (_ && _ && _); [by eapply decode_pmt_outside|by simplify_eq]. }
  eapply same_outside_trans; [by eapply same_outside_trans|].
  destruct (dm_mEsFrames d2 !! th_mPid h).
  - destruct (decode_es _ _ _ _ _) as [[[]]|]; [|done]. cbn in H. by simplify_eq.
  - destruct (negb (dm_mPcrId d2 =? 0) && _); cbn in H; [|by simplify_eq].
    destruct (AdaptationFieldHeader_decode _ _) as [[]|]; [|done]. cbn in H.
    destruct (readPcr _) as [[]|]; [|done]. cbn in H. by simplify_eq.
Qed.

Lemma demuxes_outside d ps evs d' : demuxes d ps evs d' → same_outside d d'.
Proof.
  induction 1 as [|d d1 d2 p ps e1 e2 Hl Hs Hd IH]; [done|].
  eapply same_outside_trans; [|done]. eapply decode_packet_outside, (Hs [] []).
Qed.

Lemma demuxes_split n ps : ∀ d evs d', demuxes d ps evs d' →
  ∃ d1 e1 e2, demuxes d (take n ps) e1 d1 ∧ demuxes d1 (drop n ps) e2 d' ∧ evs = e1 ++ e2.
Proof.
  revert n. induction ps as [|p ps IH]; intros n d evs d' H.
  - rewrite take_nil, drop_nil. inversion H; subst. eexists _, [], []. split_and!; [constructor| |]; done.
  - inversion H as [|? d1 ? ? ? e1 e2 Hl Hs Hd]; subst. destruct n as [|n]; simpl.
    + eexists _, [], _. split_and!; [constructor|done|done].
    + destruct (IH n _ _ _ Hd) as (d2 & f1 & f2 & H1 & H2 & ->).
      exists d2, (e1 ++ f1), f2. split_and!; [by econstructor|done|by rewrite app_assoc].
Qed.

(** The calls for the pieces of a stream. *)
Fixpoint decode_pieces (d : MpegTsDemuxer) (chunks : list bytes)
    : option (MpegTsDemuxer * list ts_event) :=
  match chunks with
  | [] => Some (d, [])
  | c :: chunks =>
      '(d, evs) ← MpegTsDemuxer_decode uninit d {| mData := c; mPos := 0 |};
      '(d, evs') ← decode_pieces d chunks;
      Some (d, evs ++ evs')
  end.

Lemma decode_pieces_demuxes chunks : ∀ d ps evs d' rest,
  dm_mRestData d = SimpleBuffer_new → demuxes d ps evs d' →
  rest ++ concat chunks = concat ps → (length rest < 188)%nat →
  decode_pieces (holding rest d) chunks = Some (holding [] d', evs).
Proof.
  induction chunks as [|c chunks IH]; intros d ps evs d' rest Hd Hps Hs Hr; simpl in Hs.
  - rewrite app_nil_r in Hs. subst. pose proof (demuxes_length _ _ _ _ Hps) as Hl.
    assert (ps = []) as -> by (apply nil_length_inv; lia). by inversion Hps.
  - cbn [decode_pieces]. set (n := (length (rest ++ c) / 188)%nat).
    destruct (demuxes_split n _ _ _ _ Hps) as (d1 & e1 & e2 & H1 & H2 & ->).
    pose proof (Nat.div_mod_eq (length (rest ++ c)) 188) as Hdm. fold n in Hdm.
    pose proof (Nat.mod_upper_bound (length (rest ++ c)) 188 ltac:(lia)) as Hmb.
    assert (Hn : (n <= length ps)%nat).
    { pose proof (demuxes_length _ _ _ _ Hps) as Hl. rewrite <- Hs in Hl. len. }
    set (rest1 := drop (188 * n) (rest ++ c)).
    assert (Hl1 : length (concat (take n ps)) = (188 * n)%nat)
      by (rewrite (demuxes_length _ _ _ _ H1); len).
    assert (Hcat : concat (take n ps) ++ concat (drop n ps) = rest ++ c ++ concat chunks)
      by by rewrite <- concat_app, take_drop.
    assert (Ht : take (188 * n) (rest ++ c) = concat (take n ps)).
    { rewrite <- (take_app_le _ (concat chunks)) by lia. rewrite <- app_assoc, <- Hcat.
      by rewrite take_app_length' by lia. }
    destruct (demuxes_outside _ _ _ _ H1) as [Hd1 _]. rewrite Hd in Hd1.
    rewrite (decode_holding d rest c (take n ps) e1 d1 rest1); try done.
    2: { rewrite <- Ht. unfold rest1. by rewrite take_drop. }
    2: { unfold rest1. len. }
    cbn [mbind option_bind]. rewrite (IH d1 (drop n ps) e2 d' rest1); try done.
    + unfold rest1. rewrite <- (drop_app_le _ (concat chunks)) by lia.
      rewrite <- app_assoc, <- Hcat. by rewrite drop_app_length' by lia.
    + unfold rest1. len.
Qed.
End demux.

(** ** The parts of a packet of a stream *)

(** What an adaptation field tells. *)
Definition adapt_ra (a : adaptation) : Z := match a with Adapt ra _ _ => ra | _ => 0 end.
Definition adapt_evs (d : MpegTsDemuxer) (a : adaptation) : list ts_event :=
  match a with Adapt _ (Some v) _ => pcr_out d v | _ => [] end.

Lemma has_adaption_afc a : has_adaption (adapt_afc a) = match a with NoAdapt => false | _ => true end.
Proof. by destruct a. Qed.
Lemma has_payload_afc a : has_payload (adapt_afc a) = true.
Proof. by destruct a. Qed.

Lemma decode_adaption_bytes d a pre rest : adapt_ok a →
  decode_adaption d (adapt_afc a) (cur pre (adapt_bytes a ++ rest)) =
  Some (adapt_ra a, adapt_evs d a, cur (pre ++ adapt_bytes a) rest).
Proof.
  intros Ha. unfold decode_adaption. rewrite has_adaption_afc.
  destruct a as [| |ra pcr k]; cbn [adapt_bytes adapt_ra adapt_evs].
  - by rewrite app_nil_r.
  - destruct (af_decode_zero AdaptationFieldHeader_new pre rest) as (h & Hd & Hl & Hp & Hr).
    cbn [app]. rewrite Hd. cbn [mbind option_bind]. rewrite Hp, Hl, Hr. cbn [mbind option_bind].
    change (0 <? 0) with false. change (0 =? 1) with false. cbn. unfold skip. simpl.
    by rewrite Z.add_0_r.
  - destruct Ha as (Hra & Hk & Hpcr). rewrite <- app_assoc.
    rewrite af_decode_bytes by (try (by apply adapt_header_ok); simpl; lia).
    cbn [mbind option_bind adapt_header af_mPcrFlag af_mAdaptationFieldLength af_mRandomAccessIndicator].
    destruct pcr as [v|]; cbn [pcr_part app]; rewrite <- ?app_assoc.
    + change (1 =? 1) with true. rewrite readPcr_bytes by done. cbn [mbind option_bind].
      rewrite (proj2 (Z.ltb_lt _ _)) by (simpl; lia).
      rewrite skip_cur by (len; simpl; lia). by rewrite <- !app_assoc.
    + change (0 =? 1) with false. cbn [mbind option_bind].
      rewrite (proj2 (Z.ltb_lt _ _)) by (simpl; lia).
      rewrite skip_cur by (len; simpl; lia). by rewrite <- !app_assoc.
Qed.

Lemma append_from_cur pre x rest n b : n = Z.of_nat (length x) →
  append_from (cur pre (x ++ rest)) n b = Some (append x b).
Proof.
  intros ->. unfold append_from. destruct (Z.leb_spec (Z.of_nat (length x)) 0) as [H|H].
  - destruct x; [|simpl in H; lia]. destruct b. unfold append, push_back, with_data. simpl. by rewrite app_nil_r.
  - by rewrite slice_cur.
Qed.

(** The header of a packet. *)
Lemma decode_header_bytes pusi pid a cc pre rest :
  bit pusi → 0 <= pid < 2 ^ 13 → 0 <= cc < 2 ^ 4 →
  TsHeader_decode TsHeader_new (cur pre (ts_bytes (ts_header pusi pid (adapt_afc a) cc) ++ rest)) =
  Some (ts_header pusi pid (adapt_afc a) cc, cur (pre ++ ts_bytes (ts_header pusi pid (adapt_afc a) cc)) rest).
Proof. intros. rewrite TsHeader_decode_bytes by by apply ts_header_ok. done. Qed.

Lemma mPos_cur pre rest : mPos (cur pre rest) = Z.of_nat (length pre).
Proof. done. Qed.
Lemma packet_cur pre pusi pid cc a payload rest :
  cur pre (packet_bytes pusi pid cc a payload ++ rest) =
  cur pre (ts_bytes (ts_header pusi pid (adapt_afc a) cc) ++ adapt_bytes a ++ payload ++ rest).
Proof. unfold packet_bytes. by rewrite <- !app_assoc. Qed.

(** The demuxer knows the streams. *)
Definition tuned (d : MpegTsDemuxer) : Prop := dm_mPmtId d ≠ 0 ∧ dm_mEsFrames d ≠ ∅.

(** A packet of a stream. *)
Lemma decode_packet_es uninit d pusi pid cc a payload f evs f' :
  tuned d → dm_mEsFrames d !! pid = Some f → bit pusi → 0 <= pid < 2 ^ 13 → 0 <= cc < 2 ^ 4 →
  length (packet_bytes pusi pid cc a payload) = 188%nat →
  (∀ pre rest, let lPos := Z.of_nat (length pre) in
    ∃ pre' rest', decode_es d (ts_header pusi pid (adapt_afc a) cc) lPos f
      (cur (pre ++ ts_bytes (ts_header pusi pid (adapt_afc a) cc)) (adapt_bytes a ++ payload ++ rest)) =
      Some (f', evs, cur pre' rest') ∧ pre' ++ rest' = pre ++ packet_bytes pusi pid cc a payload ++ rest) →
  packet_step uninit d (packet_bytes pusi pid cc a payload) evs (dm_set_frame pid f' d).
Proof.
  intros [Hpmt Hfr] Hf Hpu Hpid Hcc Hlen Hes pre rest. destruct (Hes pre rest) as (pre' & rest' & He & Hcat).
  unfold decode_packet. rewrite packet_cur.
  rewrite decode_header_bytes by done. cbn [mbind option_bind ts_header th_mPid].
  rewrite (proj2 (Z.eqb_neq _ _) Hpmt), andb_false_r. cbn [mbind option_bind].
  rewrite (bool_decide_eq_false_2 _ Hfr). cbn [andb mbind option_bind]. rewrite Hf.
  rewrite !mPos_cur, He. cbn [mbind option_bind].
  do 2 f_equal. unfold skip, cur. cbn [mData mPos]. rewrite Hcat, <- app_assoc. f_equal.
  rewrite length_app, Hlen. lia.
Qed.

(** A packet of no stream is left alone. *)
Lemma decode_packet_other uninit d pusi pid cc a payload :
  tuned d → dm_mEsFrames d !! pid = None → pid ≠ dm_mPcrId d →
  bit pusi → 0 <= pid < 2 ^ 13 → 0 <= cc < 2 ^ 4 →
  length (packet_bytes pusi pid cc a payload) = 188%nat →
  packet_step uninit d (packet_bytes pusi pid cc a payload) [] d.
Proof.
  intros [Hpmt Hfr] Hf Hpcr Hpu Hpid Hcc Hlen pre rest.
  unfold decode_packet. rewrite packet_cur.
  rewrite decode_header_bytes by done. cbn [mbind option_bind ts_header th_mPid].
  rewrite (proj2 (Z.eqb_neq _ _) Hpmt), andb_false_r. cbn [mbind option_bind].
  rewrite (bool_decide_eq_false_2 _ Hfr). cbn [andb mbind option_bind]. rewrite Hf.
  rewrite (proj2 (Z.eqb_neq (dm_mPcrId d) pid)), andb_false_r by congruence. cbn [mbind option_bind].
  do 2 f_equal. unfold skip, cur, packet_bytes in *. cbn [mData mPos].
  rewrite <- !app_assoc. f_equal. len.
Qed.

(** ** A frame in the making *)

(** The frame with the data [l]. *)
Definition es_data (l : bytes) (f : EsFrame) : EsFrame := es_with_data {| mData := l; mPos := 0 |} f.
(** The frame handed out when it is complete. *)
Definition completed (pid : Z) (f : EsFrame) : EsFrame :=
  es_set_state pid (es_mExpectedPayloadLength f) true (es_mBroken f) f.

(** The announced length, if there is one, is not exceeded. *)
Definition within (f : EsFrame) (n : nat) : Prop :=
  es_mExpectedPesPacketLength f = 0 ∨ Z.of_nat n <= es_mExpectedPesPacketLength f.

(** A frame is complete or goes on. *)
Definition settle (d : MpegTsDemuxer) (pid : Z) (l : bytes) (f : EsFrame) : EsFrame * list ts_event :=
  if es_mExpectedPayloadLength f =? Z.of_nat (length l)
  then (EsFrame_reset f, es_out d (completed pid (es_data l f))) else (es_data l f, []).

Lemma next_payload_bytes d pid lPos l f x pre rest :
  Z.of_nat (length pre) - lPos = 188 - Z.of_nat (length x) → within f (length (l ++ x)) →
  next_payload d pid lPos (es_data l f) (cur pre (x ++ rest)) = Some (settle d pid (l ++ x) f).
Proof.
  intros Hp Hw. unfold next_payload. rewrite mPos_cur, Hp.
  assert (Hs : size (es_mData (es_data l f)) = Z.of_nat (length l)) by done. rewrite Hs.
  change (es_mExpectedPesPacketLength (es_data l f)) with (es_mExpectedPesPacketLength f).
  assert (E : negb (es_mExpectedPesPacketLength f =? 0) &&
     (es_mExpectedPesPacketLength f <? Z.of_nat (length l) + (188 - (188 - Z.of_nat (length x)))) = false).
  { unfold within in Hw. rewrite length_app in Hw. destruct (Z.eqb_spec (es_mExpectedPesPacketLength f) 0); [done|].
    simpl. apply Z.ltb_ge. lia. }
  rewrite E, append_from_cur by lia. cbn [mbind option_bind].
  unfold settle. change (es_mExpectedPayloadLength (es_with_data _ _)) with (es_mExpectedPayloadLength f).
  replace (size _) with (Z.of_nat (length (l ++ x))) by (unfold size; simpl; len).
  by destruct (es_mExpectedPayloadLength f =? Z.of_nat (length (l ++ x))).
Qed.

(** A packet that is not the first one. *)
Lemma next_packet uninit d pid cc a x l f :
  tuned d → dm_mEsFrames d !! pid = Some (es_data l f) → 0 <= pid < 2 ^ 13 → 0 <= cc < 2 ^ 4 →
  adapt_ok a → length (packet_bytes 0 pid cc a x) = 188%nat → within f (length (l ++ x)) →
  let '(f', evs) := settle d pid (l ++ x) f in
  packet_step uninit d (packet_bytes 0 pid cc a x) (adapt_evs d a ++ evs) (dm_set_frame pid f' d).
Proof.
  intros Ht Hf Hpid Hcc Ha Hlen Hw. destruct (settle d pid (l ++ x) f) as [f' evs] eqn:Es.
  eapply decode_packet_es; [done|done|by (unfold bit; lia)|done|done|done|].
  intros pre rest lPos. unfold decode_es. cbn [ts_header th_mAdaptationFieldControl th_mPid].
  rewrite decode_adaption_bytes by done. cbn [mbind option_bind]. rewrite has_payload_afc.
  change (th_mPayloadUnitStartIndicator _ =? 0x01) with false. cbn match.
  rewrite next_payload_bytes by (done || (unfold lPos; rewrite length_packet_bytes in Hlen; len)).
  rewrite Es. cbn [mbind option_bind]. eexists _, _. split; [done|].
  unfold packet_bytes. by rewrite <- !app_assoc.
Qed.

(** *** The first packet *)

(** The demuxer's frame [f] after the header of [g]. *)
Definition opened (g f : EsFrame) : EsFrame :=
  let len := pes_mPesPacketLength (pes_header g) in
  es_set_state 0 (if len =? 0 then 0 else size (es_mData g)) false false
    (es_set_ts (es_mPts g mod 2 ^ 32) (if pes_two g then es_mDts g mod 2 ^ 32 else es_mPts g mod 2 ^ 32)
       (es_set_head (es_mRandomAccess g) (es_mStreamId g) len (EsFrame_reset f))).

(** A frame is empty as after [reset], or not complete. *)
Definition pending (f : EsFrame) : Prop :=
  es_mCompleted f = false ∧ (size (es_mData f) = 0 → f = EsFrame_reset f).
(** What is handed out when another frame starts. *)
Definition broken (d : MpegTsDemuxer) (pid ra : Z) (f : EsFrame) : list ts_event :=
  if size (es_mData f) =? 0 then [] else
  es_out d (es_set_state pid (es_mExpectedPayloadLength f) false true
    (es_set_head ra (es_mStreamId f) (es_mExpectedPesPacketLength f) f)).

Lemma start_frame_pending d pid ra f : pending f →
  start_frame d pid ra f =
  (es_set_head ra (es_mStreamId f) 0 (EsFrame_reset f), broken d pid ra f).
Proof.
  intros [Hc Hz]. unfold start_frame, broken.
  change (es_mCompleted (es_set_head _ _ _ _)) with (es_mCompleted f).
  change (es_mData (es_set_head _ _ _ _)) with (es_mData f). rewrite Hc.
  destruct (Z.eqb_spec (size (es_mData f)) 0) as [E|E]; cbn [negb].
  - rewrite (Hz E) at 1 2 3. done.
  - done.
Qed.

Lemma decode_pes_bytes g f pre rest :
  es_ok g → 0 <= es_mPts g < 2 ^ 33 → 0 <= es_mDts g < 2 ^ 33 →
  decode_pes f (cur pre (pes_part g ++ rest)) =
  Some (pes_header g,
        es_set_ts (es_mPts g mod 2 ^ 32) (if pes_two g then es_mDts g mod 2 ^ 32 else es_mPts g mod 2 ^ 32)
          (es_set_head (es_mRandomAccess f) (es_mStreamId g) (pes_mPesPacketLength (pes_header g)) f),
        cur (pre ++ pes_part g) rest).
Proof.
  intros Hg Hp Hd. unfold decode_pes, pes_part. rewrite <- !app_assoc.
  rewrite PESHeader_decode_bytes by by apply pes_header_ok. cbn [mbind option_bind].
  change (pes_mPtsDtsFlags (pes_header g)) with (if pes_two g then 0x03 else 0x2).
  destruct (pes_two g); cbn match.
  - change (0x03 =? 0x02) with false. change (0x03 =? 0x03) with true. cbn match.
    rewrite <- !app_assoc, readPts_bytes by lia. cbn [mbind option_bind].
    rewrite readPts_bytes by lia. cbn [mbind option_bind]. by rewrite <- !app_assoc.
  - change (0x02 =? 0x02) with true. cbn match. rewrite readPts_bytes by lia. cbn [mbind option_bind].
    by rewrite <- !app_assoc.
Qed.

Lemma adapt_ra_stuffed a k : adapt_ra (stuffed a k) = adapt_ra a.
Proof. by destruct a; [destruct k as [|[|]]| |]. Qed.
Lemma adapt_evs_stuffed d a k : adapt_evs d (stuffed a k) = adapt_evs d a.
Proof. by destruct a; [destruct k as [|[|]]| |]. Qed.
Lemma adapt_ok_stuffed a k :
  (length (adapt_bytes (stuffed a k)) <= 184)%nat → adapt_ok a → adapt_ok (stuffed a k).
Proof.
  destruct a as [| |ra pcr n]; [destruct k as [|[|]]|done|]; simpl; try done.
  - intros. unfold bit. len.
  - intros Hl (?&?&?). len. split_and!; [done|lia|done].
Qed.
Lemma adapt_ra_base m g : adapt_ra (base_adapt m g) = es_mRandomAccess g.
Proof.
  unfold base_adapt. destruct (_ =? _); [done|].
  destruct (Z.eqb_spec (es_mRandomAccess g) 0) as [->|]; done.
Qed.

(** The length the first packet announces. *)
Lemma pes_length_payload g : es_ok g → pes_mPesPacketLength (pes_header g) ≠ 0 →
  pes_mPesPacketLength (pes_header g) - 3 - pes_mHeaderDataLength (pes_header g) = size (es_mData g) ∧
  0 <= size (es_mData g) < 2 ^ 16.
Proof.
  intros Hg. rewrite pes_length by done. cbn zeta. pose proof (pes_hdl_range g).
  change (pes_mHeaderDataLength _) with (pes_hdl g). unfold size.
  destruct (Z.ltb_spec 0xffff (pes_hdl g + Z.of_nat (length (mData (es_mData g))) + 3)); [done|].
  intros _. split; lia.
Qed.

Lemma first_payload_bytes g d pid (pre0 pre : bytes) f x data rest :
  es_ok g → pes_mPesPacketLength (pes_header g) ≠ 0 → mData (es_mData g) = x ++ data →
  Z.of_nat (length pre) - Z.of_nat (length pre0) = 188 - Z.of_nat (length x) →
  let f1 := es_set_state (es_mPid f) (size (es_mData g)) (es_mCompleted f) (es_mBroken f) f in
  es_mData f = SimpleBuffer_new →
  first_payload d pid (Z.of_nat (length pre0)) (pes_header g) f (cur pre (x ++ rest)) =
  Some (settle d pid x f1).
Proof.
  intros Hg Hlen Hx Hp f1 Hf. destruct (pes_length_payload g Hg Hlen) as [Hn Hr].
  unfold first_payload. rewrite Hn, mPos_cur, Hp, u16_small by lia. fold f1.
  assert (Hs : size (es_mData g) = Z.of_nat (length x) + Z.of_nat (length data))
    by (unfold size; rewrite Hx; len).
  assert (E : (if (188 <? size (es_mData g) + Z.of_nat (length pre)) || (size (es_mData g) <? 0)
     then append_from (cur pre (x ++ rest)) (188 - (188 - Z.of_nat (length x))) (es_mData f1)
     else append_from (cur pre (x ++ rest)) (size (es_mData g)) (es_mData f1)) =
     Some {| mData := x; mPos := 0 |}).
  { change (es_mData f1) with (es_mData f). rewrite Hf.
    destruct (Z.ltb_spec 188 (size (es_mData g) + Z.of_nat (length pre))); cbn [orb].
    - by rewrite append_from_cur by lia.
    - rewrite (proj2 (Z.ltb_ge _ _)) by lia. by rewrite append_from_cur by lia. }
  rewrite E. cbn [mbind option_bind]. unfold settle.
  change (es_mExpectedPayloadLength f1) with (size (es_mData g)).
  rewrite Z.eqb_sym. change (size {| mData := x; mPos := 0 |}) with (Z.of_nat (length x)).
  by destruct (size (es_mData g) =? Z.of_nat (length x)).
Qed.

Lemma first_packet uninit m d g f cc k x data :
  let pid := es_mPid g in
  let a := stuffed (base_adapt m g) k in
  tuned d → dm_mEsFrames d !! pid = Some f → pending f → 0 <= cc < 2 ^ 4 →
  es_ok g → 0 <= es_mPts g < 2 ^ 33 → 0 <= es_mDts g < 2 ^ 33 → mData (es_mData g) = x ++ data →
  length (packet_bytes 1 pid cc a (pes_part g ++ x)) = 188%nat →
  let '(f', evs) := settle d pid x (opened g f) in
  packet_step uninit d (packet_bytes 1 pid cc a (pes_part g ++ x))
    (adapt_evs d (base_adapt m g) ++ broken d pid (es_mRandomAccess g) f ++ evs) (dm_set_frame pid f' d).
Proof.
  intros pid a Ht Hf Hpend Hcc Hg Hpts Hdts Hx Hlen.
  destruct (settle d pid x (opened g f)) as [f' evs] eqn:Es.
  eapply decode_packet_es; [done|done|by (unfold bit; lia)|by apply eo_pid|done|done|].
  intros pre rest lPos. unfold decode_es. cbn [ts_header th_mAdaptationFieldControl th_mPid].
  rewrite decode_adaption_bytes.
  2: { apply adapt_ok_stuffed; [|by apply base_adapt_ok]. rewrite length_packet_bytes in Hlen. fold a. lia. }
  cbn [mbind option_bind]. rewrite has_payload_afc.
  change (th_mPayloadUnitStartIndicator _ =? 0x01) with true. cbn match.
  unfold a. rewrite adapt_ra_stuffed, adapt_evs_stuffed, adapt_ra_base, start_frame_pending by done.
  rewrite <- (app_assoc (pes_part g)), decode_pes_bytes by done. cbn [mbind option_bind].
  set (f1 := es_set_ts _ _ _). set (here := (_ ++ _) ++ pes_part g).
  assert (Hpos : Z.of_nat (length here) - lPos = 188 - Z.of_nat (length x)).
  { unfold here, lPos. rewrite length_packet_bytes in Hlen. unfold a in Hlen. len. }
  assert (Hrun : (if negb (pes_mPesPacketLength (pes_header g) =? 0)
     then first_payload d pid lPos (pes_header g) f1 (cur here (x ++ rest))
     else next_payload d pid lPos f1 (cur here (x ++ rest))) = Some (f', evs)).
  { rewrite <- Es. unfold opened.
    destruct (Z.eqb_spec (pes_mPesPacketLength (pes_header g)) 0) as [Hl|Hl]; cbn [negb].
    - set (f2 := es_set_state _ _ _ _ _). change f1 with (es_data [] f2).
      rewrite next_payload_bytes; [done|done|]. left. exact Hl.
    - by apply (first_payload_bytes g d pid pre here f1 x data rest). }
  rewrite Hrun. cbn [mbind option_bind]. eexists _, _. split; [done|].
  unfold here, packet_bytes. by rewrite <- !app_assoc.
Qed.

(** ** All packets of a frame *)
Lemma tuned_set_frame pid f d : tuned d → tuned (dm_set_frame pid f d).
Proof. intros [H1 H2]. split; [done|]. simpl. apply insert_non_empty. Qed.
Lemma set_frame_twice pid f f' d : dm_set_frame pid f (dm_set_frame pid f' d) = dm_set_frame pid f d.
Proof. unfold dm_set_frame. simpl. by rewrite insert_insert_eq. Qed.
Lemma set_frame_id pid f d : dm_mEsFrames d !! pid = Some f → dm_set_frame pid f d = d.
Proof. intros H. unfold dm_set_frame. rewrite insert_id by done. by destruct d. Qed.
Lemma set_frame_lookup pid f d : dm_mEsFrames (dm_set_frame pid f d) !! pid = Some f.
Proof. simpl. by rewrite lookup_insert_eq. Qed.

Lemma adapt_ok_none k : (length (adapt_bytes (stuffed NoAdapt k)) <= 184)%nat → adapt_ok (stuffed NoAdapt k).
Proof. intros. by apply adapt_ok_stuffed. Qed.

Section frame.
Context (uninit : EsFrame) (pid : Z) (a0 : adaptation) (ph : bytes).
Context (Hpid : 0 <= pid < 2 ^ 13).

Lemma land_cc c : 0 <= Z.land (c + 1) 0x0F < 2 ^ 4.
Proof. rewrite (mask_low _ 4 0x0F) by done. apply Z.mod_pos_bound. lia. Qed.

(** The data [l] is there; the packets bring [data].  Either the frame
    becomes complete with the last packet, or no packet completes it. *)
Lemma demuxes_next c data ps : carried pid a0 ph false c data ps → ∀ d l f,
  0 <= c < 2 ^ 4 → tuned d → dm_mEsFrames d !! pid = Some (es_data l f) →
  within f (length (l ++ data)) →
  (es_mExpectedPayloadLength f = Z.of_nat (length (l ++ data)) ∧ data ≠ [] →
     demuxes uninit d ps (es_out d (completed pid (es_data (l ++ data) f)))
       (dm_set_frame pid (EsFrame_reset f) d)) ∧
  (es_mExpectedPayloadLength f = 0 → 
     demuxes uninit d ps [] (dm_set_frame pid (es_data (l ++ data) f) d)).
Proof.
  remember false as b eqn:Eb. induction 1 as [|? c k x data ps a p Hk Hx Hlen Hcar IH]; subst.
  - intros d l f Hc Ht Hf Hw. rewrite app_nil_r. split; [by intros []|].
    intros _. rewrite set_frame_id by done. constructor.
  - intros d l f Hc Ht Hf Hw. cbn [app] in *.
    assert (Hal : (length (adapt_bytes a) <= 184)%nat)
      by (unfold p in Hlen; rewrite length_packet_bytes in Hlen; lia).
    pose proof (next_packet uninit d pid c a x l f Ht Hf Hpid Hc (adapt_ok_none k Hal) Hlen) as Hstep.
    assert (Hw1 : within f (length (l ++ x))) by (unfold within in *; len).
    specialize (Hstep Hw1). unfold a in Hstep at 2. rewrite adapt_evs_stuffed in Hstep. cbn [adapt_evs app] in Hstep.
    assert (Hxl : (0 < length x)%nat) by (destruct x; [done|simpl; lia]).
    unfold settle in Hstep. split.
    + intros [He _]. destruct data as [|y data].
      * rewrite app_nil_r in *. rewrite (proj2 (Z.eqb_eq _ _) He) in Hstep.
        inversion Hcar; subst; [|by destruct x0]. by apply demuxes_one.
      * rewrite (proj2 (Z.eqb_neq _ _)) in Hstep by (rewrite He; simpl; len; simpl; lia).
        rewrite <- (app_nil_l (es_out d _)). econstructor; [done|exact Hstep|].
        destruct (IH eq_refl (dm_set_frame pid (es_data (l ++ x) f) d) (l ++ x) f) as [IH1 _].
        -- apply land_cc.
        -- by apply tuned_set_frame.
        -- apply set_frame_lookup.
        -- by rewrite <- app_assoc.
        -- rewrite set_frame_twice, <- app_assoc in IH1. apply IH1. done.
    + intros He. rewrite (proj2 (Z.eqb_neq _ _)) in Hstep by (rewrite He; len).
      rewrite <- (app_nil_l []). econstructor; [done|exact Hstep|].
      destruct (IH eq_refl (dm_set_frame pid (es_data (l ++ x) f) d) (l ++ x) f) as [_ IH2].
      * apply land_cc.
      * by apply tuned_set_frame.
      * apply set_frame_lookup.
      * by rewrite <- app_assoc.
      * rewrite set_frame_twice, <- app_assoc in IH2. by apply IH2.
Qed.
End frame.

(** What the demuxer makes of a frame [g]. *)
Definition delivered (g f : EsFrame) : EsFrame :=
  completed (es_mPid g) (es_data (mData (es_mData g)) (opened g f)).
Definition fits (g : EsFrame) : bool := negb (pes_mPesPacketLength (pes_header g) =? 0).
Definition receive_in (d : MpegTsDemuxer) (g f : EsFrame) : MpegTsDemuxer * list ts_event :=
  if fits g then (dm_set_frame (es_mPid g) (EsFrame_reset (opened g f)) d, es_out d (delivered g f))
  else (dm_set_frame (es_mPid g) (es_data (mData (es_mData g)) (opened g f)) d, []).
(** With the events of a frame before it that was not complete *)
Definition receive (m : MpegTsMuxer) (d : MpegTsDemuxer) (g : EsFrame) : MpegTsDemuxer * list ts_event :=
  match dm_mEsFrames d !! es_mPid g with
  | Some f =>
      let '(d', evs) := receive_in d g f in
      (d', adapt_evs d (base_adapt m g) ++ broken d (es_mPid g) (es_mRandomAccess g) f ++ evs)
  | None => (d, [])
  end.

(** A frame given to the muxer: data that is not empty, from its start. *)
Record frame_ok (g : EsFrame) : Prop := {
  fo_ok : es_ok g;
  fo_pos : mPos (es_mData g) = 0;
  fo_data : mData (es_mData g) ≠ [];
  fo_pts : 0 <= es_mPts g < 2 ^ 33;
  fo_dts : 0 <= es_mDts g < 2 ^ 33;
  fo_type : es_mStreamType g ≠ 0;
}.
Lemma frame_left g : frame_ok g → es_left g = mData (es_mData g).
Proof. intros [_ Hp _ _ _ _]. unfold es_left. by rewrite Hp. Qed.

Lemma within_opened g f : es_ok g → within (opened g f) (length (mData (es_mData g))).
Proof.
  intros Hg. unfold within. change (es_mExpectedPesPacketLength _) with (pes_mPesPacketLength (pes_header g)).
  destruct (decide (pes_mPesPacketLength (pes_header g) = 0)) as [|Hl]; [by left|right].
  destruct (pes_length_payload g Hg Hl) as [Hn _]. revert Hn.
  change (pes_mHeaderDataLength (pes_header g)) with (pes_hdl g). unfold size.
  pose proof (pes_hdl_range g). lia.
Qed.
Lemma payload_opened g f :
  es_mExpectedPayloadLength (opened g f) = if fits g then size (es_mData g) else 0.
Proof. unfold fits. simpl. by destruct (_ =? 0). Qed.

Lemma demuxes_frame uninit m d g f c ps :
  frame_ok g → tuned d → dm_mEsFrames d !! es_mPid g = Some f → pending f → 0 <= c < 2 ^ 4 →
  carried (es_mPid g) (base_adapt m g) (pes_part g) true c (es_left g) ps →
  demuxes uninit d ps (receive m d g).2 (receive m d g).1.
Proof.
  intros Hg Ht Hf Hp Hc. rewrite frame_left by done. pose proof (fo_ok g Hg) as Hok.
  pose proof (fo_pts g Hg) as Hpts. pose proof (fo_dts g Hg) as Hdts.
  remember true as b eqn:Eb. remember (mData (es_mData g)) as data eqn:Ed. intros Hcar.
  destruct Hcar as [|? c k x data ps a p Hk Hx Hlen Hcar]; subst; [by destruct (fo_data g Hg)|].
  cbn [app] in *. symmetry in Ed.
  assert (Hpid : 0 <= es_mPid g < 2 ^ 13) by apply Hok.
  pose proof (first_packet uninit m d g f c k x data Ht Hf Hp Hc Hok Hpts Hdts Ed Hlen) as Hstep.
  fold a p in Hstep. unfold receive, receive_in. rewrite Hf. unfold settle in Hstep.
  rewrite payload_opened in Hstep.
  pose proof (within_opened g f Hok) as Hw. rewrite Ed in Hw.
  assert (Hs : size (es_mData g) = Z.of_nat (length (x ++ data))) by (unfold size; by rewrite Ed).
  assert (Hx0 : (0 < length x)%nat) by (destruct x; [done|simpl; lia]).
  pose proof (payload_opened g f) as Hpay. unfold delivered. rewrite Ed.
  set (ev := adapt_evs d (base_adapt m g) ++ broken d (es_mPid g) (es_mRandomAccess g) f).
  destruct (demuxes_next uninit _ _ _ Hpid _ _ _ Hcar (dm_set_frame (es_mPid g) (es_data x (opened g f)) d) x
    (opened g f) (land_cc c) (tuned_set_frame _ _ _ Ht) (set_frame_lookup _ _ _) Hw) as [Hn1 Hn2].
  rewrite set_frame_twice in Hn1, Hn2.
  destruct (fits g); cbn [fst snd].
  - destruct data as [|y data].
    + rewrite app_nil_r in *. rewrite (proj2 (Z.eqb_eq _ _) Hs) in Hstep.
      inversion Hcar; subst; [|by destruct x0]. by apply demuxes_one.
    + rewrite (proj2 (Z.eqb_neq _ _)) in Hstep by (rewrite Hs; simpl; len; simpl; lia).
      rewrite app_nil_r in Hstep. fold ev in Hstep. rewrite app_assoc. fold ev.
      econstructor; [done|exact Hstep|]. apply Hn1. split; [by rewrite Hpay|done].
  - rewrite (proj2 (Z.eqb_neq _ _)) in Hstep by lia.
    rewrite <- (app_nil_r (_ ++ _ ++ [])). econstructor; [done|exact Hstep|]. by apply Hn2.
Qed.

(** ** The tables *)

(** The demuxer has the tables of [m]: it knows the streams and nothing else. *)
Record synced (m : MpegTsMuxer) (d : MpegTsDemuxer) : Prop := {
  sy_pmt : dm_mPmtId d = mPmtPid m;
  sy_pcr : dm_mPcrId d = mPcrPid m;
  sy_frames : ∀ pid, is_Some (dm_mEsFrames d !! pid) ↔ ∃ t, mStreamPidMap m !! t = Some pid;
  sy_pending : map_Forall (λ _ f, pending f) (dm_mEsFrames d);
  sy_some : mStreamPidMap m ≠ ∅;
}.

Lemma synced_tuned m d : mux_ok m → synced m d → tuned d.
Proof.
  intros Hm [Hp _ Hf _ Hs]. split; [rewrite Hp; destruct Hm; lia|].
  apply map_choose in Hs as (t & pid & Ht).
  intros He. destruct (proj2 (Hf pid)) as [f Hfr]; [by eauto|]. by rewrite He in Hfr.
Qed.

(** Tables the demuxer has already are left alone. *)
Lemma demuxes_tables uninit m m' d :
  mux_ok m → synced m d → mPmtPid m' = mPmtPid m → mStreamPidMap m' = mStreamPidMap m →
  demuxes uninit d (tables m') [] d.
Proof.
  intros Hm Hd Hp Hs. pose proof (synced_tuned m d Hm Hd) as Ht. pose proof (next_cc_range m' 0) as Hc.
  assert (Hno : ∀ pid, pid = 0 ∨ pid = mPmtPid m → dm_mEsFrames d !! pid = None ∧ pid ≠ dm_mPcrId d).
  { intros pid Hpid. split.
    - apply eq_None_not_Some. rewrite (sy_frames m d Hd). intros [t Hst].
      destruct (mo_streams m Hm _ _ Hst) as (_ & ? & ?). destruct Hpid; lia.
    - rewrite (sy_pcr m d Hd). destruct Hm, Hpid; lia. }
  unfold tables. apply demuxes_silent with d; [apply length_pat_packet| |].
  - destruct (Hno 0) as [H1 H2]; [auto|].
    by apply decode_packet_other; [done..| |].
  - assert (Hl : length (pmt_packet m' (next_cc m' 0)) = 188%nat)
      by (apply length_pmt_packet; rewrite Hs; by destruct Hm).
    destruct (Hno (mPmtPid m')) as [H1 H2]; [auto|]. apply demuxes_one; [done|].
    apply decode_packet_other; try done. rewrite Hp. destruct Hm. lia.
Qed.

(** A demuxer that knows no tables yet. *)
Record untuned (d : MpegTsDemuxer) : Prop := {
  un_pmt : dm_mPmtId d = 0;
  un_pcr : dm_mPcrId d = 0;
  un_frames : dm_mEsFrames d = ∅;
  un_infos : pmt_mInfos (dm_mPmtHeader d) = [];
}.
Definition learn_pat (m : MpegTsMuxer) (d : MpegTsDemuxer) : MpegTsDemuxer :=
  dm_set_pat (mPmtPid m) (pat_with_reserved (pat_mReserved0 (dm_mPatHeader d)) pat_header) d.
Definition new_frames (uninit : EsFrame) (infos : list PMTElementInfo) (fs : gmap Z EsFrame) : gmap Z EsFrame :=
  foldl (λ fs e, <[ei_mElementaryPid e := EsFrame_new uninit (ei_mStreamType e)]> fs) fs infos.
Definition learn_pmt (uninit : EsFrame) (m : MpegTsMuxer) (d : MpegTsDemuxer) : MpegTsDemuxer :=
  let infos := pmt_infos (mStreamPidMap m) in
  dm_set_pmt (foldl (λ l e, <[ei_mStreamType e := ei_mElementaryPid e]> l) (dm_mStreamPidMap d) infos)
    (pmt_header m) (new_frames uninit infos (dm_mEsFrames d)) d.

Lemma decode_pat_bytes m d cc pre rest : mux_ok m →
  decode_pat (ts_header 1 0 mPayloadOnly cc) d (cur pre (0 :: pat_section (mPmtPid m) ++ rest)) =
  Some (learn_pat m d, cur (pre ++ 0 :: pat_section (mPmtPid m)) rest).
Proof.
  intros Hm. unfold decode_pat, skip_adaption.
  cbn [ts_header th_mAdaptationFieldControl th_mPayloadUnitStartIndicator].
  change (has_adaption mPayloadOnly) with false. change (has_payload mPayloadOnly) with true.
  change (1 =? 1) with true. cbn [mbind option_bind]. rewrite read1_cur. cbn [mbind option_bind].
  unfold pat_section. rewrite <- !app_assoc, PATHeader_decode_bytes
    by (unfold pat_ok, section_ok, bit, is_byte; simpl; lia).
  cbn [mbind option_bind]. rewrite read2_cur. cbn [mbind option_bind].
  rewrite read2_cur. cbn [mbind option_bind].
  assert (Hid : Z.land (i16 ((0xe000 + mPmtPid m) mod 2 ^ 16)) 0x1fff = mPmtPid m).
  { rewrite (mask_low _ 13 0x1fff) by done. destruct Hm. unfold i16. divlia. }
  rewrite Hid. do 2 f_equal. by rewrite <- !app_assoc.
Qed.

Lemma decode_pmt_bytes uninit m d cc pre rest : mux_ok m → pmt_mInfos (dm_mPmtHeader d) = [] →
  decode_pmt uninit (ts_header 1 (mPmtPid m) mPayloadOnly cc) d
    (cur pre (0 :: pmt_bytes (pmt_header m) ++ rest)) =
  Some (learn_pmt uninit m d, cur (pre ++ 0 :: pmt_bytes (pmt_header m)) rest).
Proof.
  intros Hm Hi. unfold decode_pmt, skip_adaption.
  cbn [ts_header th_mAdaptationFieldControl th_mPayloadUnitStartIndicator].
  change (has_adaption mPayloadOnly) with false. change (1 =? 1) with true.
  cbn [mbind option_bind]. rewrite read1_cur. cbn [mbind option_bind].
  rewrite PMTHeader_decode_bytes by (done || by apply pmt_header_ok).
  cbn [mbind option_bind]. do 2 f_equal. by rewrite <- !app_assoc.
Qed.

(** The rest of a packet of a section is skipped. *)
Lemma skip_psi pid cc sec pre rest tail :
  tail = be_bytes 4 (crc32 sec) ++ replicate (179 - length sec) 0xff → (length sec <= 179)%nat →
  let hd := pre ++ ts_bytes (ts_header 1 pid mPayloadOnly cc) in
  skip (188 - (mPos (cur (hd ++ 0 :: sec) (tail ++ rest)) - Z.of_nat (length pre)))
    (cur (hd ++ 0 :: sec) (tail ++ rest)) = cur (pre ++ psi_packet pid cc sec) rest.
Proof.
  intros -> Hs hd. rewrite mPos_cur.
  assert (Hl : Z.of_nat (length (hd ++ 0 :: sec)) = Z.of_nat (length pre) + 5 + Z.of_nat (length sec))
    by (unfold hd; len; simpl; lia).
  rewrite Hl, skip_cur by len. unfold psi_packet, packet_bytes, hd. cbn [adapt_afc adapt_bytes app].
  by rewrite <- !app_assoc.
Qed.

Lemma psi_cur pre pid cc sec rest :
  cur pre (psi_packet pid cc sec ++ rest) =
  cur pre (ts_bytes (ts_header 1 pid mPayloadOnly cc) ++
           0 :: sec ++ (be_bytes 4 (crc32 sec) ++ replicate (179 - length sec) 0xff) ++ rest).
Proof. unfold psi_packet. rewrite packet_cur. cbn [adapt_bytes app]. by rewrite <- !app_assoc. Qed.

Lemma step_pat uninit m d cc : mux_ok m → untuned d → 0 <= cc < 2 ^ 4 →
  packet_step uninit d (pat_packet m cc) [] (learn_pat m d).
Proof.
  intros Hm [Hp Hpcr Hfr _] Hc pre rest. unfold pat_packet, decode_packet. rewrite psi_cur, mPos_cur.
  rewrite (decode_header_bytes 1 0 NoAdapt cc) by (done || lia). cbn [mbind option_bind].
  change (th_mPid (ts_header 1 0 (adapt_afc NoAdapt) cc)) with 0. rewrite Hp. change ((0 =? 0) && (0 =? 0)) with true.
  cbn match. rewrite decode_pat_bytes by done. cbn [mbind option_bind].
  change (dm_mPmtId (learn_pat m d)) with (mPmtPid m).
  change (dm_mEsFrames (learn_pat m d)) with (dm_mEsFrames d).
  change (dm_mPcrId (learn_pat m d)) with (dm_mPcrId d).
  rewrite (proj2 (Z.eqb_neq 0 (mPmtPid m))), andb_false_r by (destruct Hm; lia). cbn [mbind option_bind].
  change (dm_mEsFrames (learn_pat m d)) with (dm_mEsFrames d).
  change (dm_mPcrId (learn_pat m d)) with (dm_mPcrId d).
  rewrite Hfr, lookup_empty, Hpcr. change (negb (0 =? 0) && (0 =? 0)) with false.
  cbn [mbind option_bind]. do 2 f_equal. apply skip_psi; [done|]. rewrite length_pat_section. lia.
Qed.

(** The new frames are empty, one for each stream. *)
Lemma new_frames_lookup uninit infos fs pid :
  new_frames uninit infos fs !! pid =
  match list_find (λ e, ei_mElementaryPid e = pid) (reverse infos) with
  | Some (_, e) => Some (EsFrame_new uninit (ei_mStreamType e))
  | None => fs !! pid
  end.
Proof.
  unfold new_frames. induction infos as [|e infos IH] using rev_ind; [done|].
  rewrite foldl_app. cbn [foldl]. rewrite reverse_snoc. cbn [list_find].
  destruct (decide (ei_mElementaryPid e = pid)) as [->|Hn].
  - by rewrite lookup_insert_eq.
  - rewrite lookup_insert_ne by done. rewrite IH.
    destruct (list_find _ (reverse infos)) as [[]|]; done.
Qed.

(** Every stream of the table has a frame. *)
Lemma new_frames_dom uninit l pid :
  is_Some (new_frames uninit (pmt_infos l) ∅ !! pid) ↔ ∃ t p, l !! t = Some p ∧ u16 p = pid.
Proof.
  rewrite new_frames_lookup, lookup_empty. destruct (list_find _ _) as [[i e]|] eqn:E.
  - apply list_find_Some in E as (Hi & He & _). split; [|by eauto]. intros _.
    assert (Hin : e ∈ pmt_infos l) by (apply elem_of_reverse; by eapply list_elem_of_lookup_2).
    unfold pmt_infos in Hin. apply list_elem_of_fmap in Hin as ([t p] & -> & Hin).
    apply in_order_in in Hin. by exists t, p.
  - apply list_find_None in E. split; [by intros []|]. intros (t & p & Ht & Hp). exfalso.
    rewrite Forall_forall in E. apply (E (PMTElementInfo_new t (u16 p))); [|done].
    apply elem_of_reverse. unfold pmt_infos. apply list_elem_of_fmap. exists (t, p). split; [done|].
    by apply in_order_in.
Qed.

Lemma pending_new uninit t : pending (EsFrame_new uninit t).
Proof. done. Qed.
Lemma pending_reset f : pending (EsFrame_reset f).
Proof. done. Qed.

Lemma learn_synced uninit m d : mux_ok m → mStreamPidMap m ≠ ∅ → untuned d →
  synced m (learn_pmt uninit m (learn_pat m d)).
Proof.
  intros Hm Hs [Hp Hpcr Hfr Hi].
  assert (Hf : dm_mEsFrames (learn_pmt uninit m (learn_pat m d)) =
               new_frames uninit (pmt_infos (mStreamPidMap m)) ∅)
    by (rewrite <- Hfr; done).
  constructor; [done|done| | |done].
  - intros pid. rewrite Hf, new_frames_dom. split.
    + intros (t & p & Ht & <-). exists t. destruct (mo_streams m Hm _ _ Ht). by rewrite u16_small by lia.
    + intros [t Ht]. exists t, pid. split; [done|]. destruct (mo_streams m Hm _ _ Ht).
      by rewrite u16_small by lia.
  - intros pid f Hl. rewrite Hf, new_frames_lookup, lookup_empty in Hl.
    destruct (list_find _ _) as [[i e]|]; [|done]. simplify_eq. apply pending_new.
Qed.

Lemma step_pmt uninit m d cc : mux_ok m → mStreamPidMap m ≠ ∅ → untuned d → 0 <= cc < 2 ^ 4 →
  packet_step uninit (learn_pat m d) (pmt_packet m cc) [] (learn_pmt uninit m (learn_pat m d)).
Proof.
  intros Hm Hs Hd Hc pre rest. pose proof (learn_synced uninit m d Hm Hs Hd) as Hsy.
  unfold pmt_packet, decode_packet. rewrite psi_cur, mPos_cur.
  rewrite (decode_header_bytes 1 (mPmtPid m) NoAdapt cc) by (done || destruct Hm; lia).
  cbn [mbind option_bind].
  change (th_mPid (ts_header 1 (mPmtPid m) (adapt_afc NoAdapt) cc)) with (mPmtPid m).
  rewrite (proj2 (Z.eqb_neq (mPmtPid m) 0)) by (destruct Hm; lia). cbn [andb mbind option_bind].
  change (dm_mEsFrames (learn_pat m d)) with (dm_mEsFrames d).
  change (dm_mPmtId (learn_pat m d)) with (mPmtPid m).
  rewrite (bool_decide_eq_true_2 _ (un_frames d Hd)), Z.eqb_refl.
  rewrite (proj2 (Z.eqb_neq (mPmtPid m) 0)) by (destruct Hm; lia). cbn [andb negb].
  rewrite decode_pmt_bytes by (done || apply Hd). cbn [mbind option_bind].
  set (d1 := learn_pmt _ _ _) in *.
  assert (Hno : dm_mEsFrames d1 !! mPmtPid m = None).
  { apply eq_None_not_Some. rewrite (sy_frames m d1 Hsy). intros [t Ht].
    destruct (mo_streams m Hm _ _ Ht). lia. }
  rewrite Hno, (sy_pcr m d1 Hsy).
  rewrite (proj2 (Z.eqb_neq (mPcrPid m) (mPmtPid m))), andb_false_r by (destruct Hm; congruence).
  cbn [mbind option_bind]. do 2 f_equal. apply skip_psi; [done|]. rewrite length_pmt_bytes.
  destruct Hm. lia.
Qed.

(** The tables tell a demuxer about the streams. *)
Lemma demuxes_learn uninit m d : mux_ok m → mStreamPidMap m ≠ ∅ → untuned d →
  demuxes uninit d (tables m) [] (learn_pmt uninit m (learn_pat m d)).
Proof.
  intros Hm Hs Hd. pose proof (next_cc_range m 0). unfold tables.
  apply demuxes_silent with (learn_pat m d); [apply length_pat_packet|by apply step_pat|].
  apply demuxes_one; [|by apply step_pmt]. apply length_pmt_packet. by destruct Hm.
Qed.

(** ** A stream of frames *)
Lemma receive_synced m d g : synced m d → frame_ok g → synced m (receive m d g).1.
Proof.
  intros [H1 H2 H3 H4 H5] Hg. unfold receive.
  destruct (dm_mEsFrames d !! es_mPid g) as [f|] eqn:Hf; [|by constructor].
  unfold receive_in.
  assert (Hins : ∀ f', pending f' → synced m (dm_set_frame (es_mPid g) f' d)).
  { intros f' Hp. constructor; [done|done| | |done].
    - intros pid. rewrite <- H3. simpl. destruct (decide (pid = es_mPid g)) as [->|Hn].
      + rewrite lookup_insert_eq, Hf. split; eauto.
      + by rewrite lookup_insert_ne.
    - by apply map_Forall_insert_2. }
  destruct (fits g); simpl; apply Hins; [apply pending_reset|].
  split; [done|]. unfold size. simpl. destruct (mData (es_mData g)) eqn:E; [|done].
  by destruct (fo_data g Hg).
Qed.

(** The muxer on a list of frames, each with [lTag] 0. *)
Fixpoint encode_all (m : MpegTsMuxer) (gs : list (EsFrame * bool))
    : option (MpegTsMuxer * list (SimpleBuffer * Z * bool)) :=
  match gs with
  | [] => Some (m, [])
  | (g, ra) :: gs =>
      '(m, _, out) ← MpegTsMuxer_encode m g 0 ra;
      '(m, outs) ← encode_all m gs;
      Some (m, out ++ outs)
  end.
Fixpoint receive_all (m : MpegTsMuxer) (d : MpegTsDemuxer) (gs : list EsFrame)
    : MpegTsDemuxer * list ts_event :=
  match gs with
  | [] => (d, [])
  | g :: gs =>
      let '(d, evs) := receive m d g in
      let '(d, evs') := receive_all m d gs in
      (d, evs ++ evs')
  end.
Definition out_bytes (outs : list (SimpleBuffer * Z * bool)) : bytes := concat (map (λ o, mData o.1.1) outs).

Lemma mux_ok_counters i cc m : mux_ok m → mux_ok (with_counters i cc m).
Proof. intros []. by constructor. Qed.
Lemma synced_counters i cc m d : synced m d → synced (with_counters i cc m) d.
Proof. intros []. by constructor. Qed.
Lemma receive_counters i cc m d g : receive (with_counters i cc m) d g = receive m d g.
Proof. done. Qed.
Lemma receive_all_counters i cc m gs : ∀ d, receive_all (with_counters i cc m) d gs = receive_all m d gs.
Proof.
  induction gs as [|g gs IH]; intros d; simpl; [done|].
  change (receive (with_counters i cc m) d g) with (receive m d g).
  destruct (receive m d g) as [d' evs]. by rewrite IH.
Qed.

(** The frame is one of a stream of [m]. *)
Definition streamed (m : MpegTsMuxer) (g : EsFrame) : Prop :=
  ∃ t, mStreamPidMap m !! t = Some (es_mPid g).

(** One call of [encode], seen by a demuxer that has the tables, or one that
    gets them with this call. *)
Lemma encode_demuxes uninit m d0 d g tag ra :
  mux_ok m → has_tsOut m = true → mStreamPidMap m ≠ ∅ → frame_ok g → streamed m g → synced m d →
  (d0 = d ∨ untuned d0 ∧ sends_tables m ra = true ∧ d = learn_pmt uninit m (learn_pat m d0)) →
  ∃ i cc g' out ps,
    MpegTsMuxer_encode m g tag ra = Some (with_counters i cc m, g', [(out, tag, ra)]) ∧
    mData out = concat ps ∧
    demuxes uninit d0 ps (receive m d g).2 (receive m d g).1.
Proof.
  intros Hm Ho Hs Hg [t Ht] Hsy Hd0. pose proof (fo_ok g Hg) as Hok.
  destruct (encode_spec m g tag ra Hm Hok (fo_type g Hg)) as (cc & ps & out & Hrun & Hout & Hcar & _).
  exists (next_index m), cc, (advance (length (es_left g)) g), out.
  exists ((if sends_tables m ra then tables m else []) ++ ps).
  unfold ts_out in Hrun. rewrite Ho in Hrun. split_and!; [exact Hrun|exact Hout|].
  assert (Htab : demuxes uninit d0 (if sends_tables m ra then tables m else []) [] d).
  { destruct Hd0 as [->|(Hun & -> & ->)].
    - destruct (sends_tables m ra); [|constructor]. by apply (demuxes_tables uninit m).
    - by apply demuxes_learn. }
  destruct (proj2 (sy_frames m d Hsy (es_mPid g))) as [f Hf]; [by eauto|].
  rewrite <- (app_nil_l (receive m d g).2). eapply demuxes_app; [exact Htab|].
  eapply demuxes_frame; [done|by eapply synced_tuned|exact Hf|by apply (sy_pending m d Hsy _ _ Hf)| |exact Hcar].
  apply next_cc_range.
Qed.

Lemma encode_all_demuxes uninit gs : ∀ m d0 d,
  mux_ok m → has_tsOut m = true → mStreamPidMap m ≠ ∅ →
  Forall (λ g, frame_ok g.1 ∧ streamed m g.1) gs → synced m d →
  (d0 = d ∨ untuned d0 ∧ from_option (λ g, sends_tables m g.2) false (head gs) = true ∧
            d = learn_pmt uninit m (learn_pat m d0)) →
  ∃ i cc outs ps,
    encode_all m gs = Some (with_counters i cc m, outs) ∧ out_bytes outs = concat ps ∧
    demuxes uninit d0 ps (receive_all m d gs.*1).2 (receive_all m d gs.*1).1.
Proof.
  induction gs as [|[g ra] gs IH]; intros m d0 d Hm Ho Hs Hgs Hsy Hd0.
  - destruct Hd0 as [->|(_ & ? & _)]; [|done]. exists (mCurrentIndex m), (mPidCcMap m), [], [].
    split_and!; [by destruct m|done|constructor].
  - apply Forall_cons in Hgs as [[Hg Hst] Hgs]. simpl in Hg, Hst.
    destruct (encode_demuxes uninit m d0 d g 0 ra Hm Ho Hs Hg Hst Hsy Hd0)
      as (i & cc & g' & out & ps & Hrun & Hout & Hdm).
    destruct (IH (with_counters i cc m) (receive m d g).1 (receive m d g).1)
      as (i2 & cc2 & outs & ps2 & Hrun2 & Hout2 & Hdm2); try done.
    + by apply mux_ok_counters.
    + by apply synced_counters, receive_synced.
    + by left.
    + exists i2, cc2, ((out, 0, ra) :: outs), (ps ++ ps2). split_and!.
      * cbn [encode_all]. rewrite Hrun. cbn [mbind option_bind]. rewrite Hrun2. done.
      * unfold out_bytes in *. simpl. by rewrite Hout, Hout2, concat_app.
      * rewrite receive_all_counters in Hdm2. cbn [receive_all fmap list_fmap fst].
        destruct (receive m d g) as [d1 e1]. cbn [fst snd] in *.
        destruct (receive_all m d1 gs.*1) as [d2 e2]. cbn [fst snd] in *.
        by eapply demuxes_app.
Qed.

(** ** What the frames look like on the other side *)
Record frame_view := {
  fv_pid : Z; fv_sid : Z; fv_pts : Z; fv_dts : Z; fv_ra : Z; fv_broken : bool; fv_data : bytes;
}.
Definition view (e : EsFrame) : frame_view := {|
  fv_pid := es_mPid e; fv_sid := es_mStreamId e; fv_pts := es_mPts e; fv_dts := es_mDts e;
  fv_ra := es_mRandomAccess e; fv_broken := es_mBroken e; fv_data := mData (es_mData e) |}.
(** The frame that was sent, with the 32 low bits of its time stamps. *)
Definition sent (g : EsFrame) : frame_view := {|
  fv_pid := es_mPid g; fv_sid := es_mStreamId g; fv_pts := es_mPts g mod 2 ^ 32;
  fv_dts := es_mDts g mod 2 ^ 32; fv_ra := es_mRandomAccess g; fv_broken := false;
  fv_data := mData (es_mData g) |}.
Fixpoint frames_out (evs : list ts_event) : list frame_view :=
  match evs with
  | [] => []
  | EsOut e :: evs => view e :: frames_out evs
  | PcrOut _ :: evs => frames_out evs
  end.

Lemma frames_out_app e1 e2 : frames_out (e1 ++ e2) = frames_out e1 ++ frames_out e2.
Proof. induction e1 as [|[]]; simpl; congruence. Qed.
Lemma frames_out_pcr d a : frames_out (adapt_evs d a) = [].
Proof. destruct a as [| |? [] ?]; simpl; try done. unfold pcr_out. by destruct (has_pcrOut d). Qed.
Lemma view_delivered g f : view (delivered g f) = sent g.
Proof.
  unfold view, sent, delivered. simpl. f_equal. unfold pes_two.
  by destruct (Z.eqb_spec (es_mPts g) (es_mDts g)) as [->|].
Qed.

(** All frames of the demuxer are empty. *)
Definition all_empty (d : MpegTsDemuxer) : Prop := map_Forall (λ _ f, size (es_mData f) = 0) (dm_mEsFrames d).

Lemma receive_all_frames m gs : ∀ d, synced m d → has_esOut d = true → all_empty d →
  Forall (λ g, frame_ok g ∧ streamed m g ∧ fits g = true) gs →
  frames_out (receive_all m d gs).2 = map sent gs ∧ all_empty (receive_all m d gs).1.
Proof.
  induction gs as [|g gs IH]; intros d Hsy Ho He Hgs; [done|].
  apply Forall_cons in Hgs as [(Hg & [t Ht] & Hfit) Hgs]. cbn [receive_all map].
  pose proof (receive_synced m d g Hsy Hg) as Hsy1. revert Hsy1. unfold receive.
  destruct (proj2 (sy_frames m d Hsy (es_mPid g))) as [f Hf]; [by eauto|]. rewrite Hf.
  unfold receive_in. rewrite Hfit. intros Hsy1. cbn [fst] in Hsy1.
  set (d1 := dm_set_frame _ _ _) in *.
  destruct (IH d1) as [IH1 IH2]; try done.
  { unfold all_empty, d1. simpl. by apply map_Forall_insert_2. }
  destruct (receive_all m d1 gs) as [d2 evs]. cbn [fst snd] in *. split; [|done].
  rewrite !frames_out_app, frames_out_pcr, IH1. unfold broken, es_out.
  rewrite (He _ _ Hf), Ho. change (0 =? 0) with true. cbn [frames_out app]. by rewrite view_delivered.
Qed.

Lemma learn_empty uninit m d : untuned d → all_empty (learn_pmt uninit m (learn_pat m d)).
Proof.
  intros [_ _ Hfr _] pid f Hl.
  change (dm_mEsFrames _) with (new_frames uninit (pmt_infos (mStreamPidMap m)) (dm_mEsFrames d)) in Hl.
  rewrite Hfr, new_frames_lookup, lookup_empty in Hl.
  destruct (list_find _ _) as [[]|]; [|done]. by simplify_eq.
Qed.
