(* ===== verification/ModesSpec.v ===== *)
(** * What the modes of crypto/modes promise

    The properties of [CRYPTO_ctr128_encrypt], [CRYPTO_ofb128_encrypt],
    [CRYPTO_cfb128_encrypt], [CRYPTO_cbc128_encrypt] and of the key wrap, each
    with an application to the small cipher of [ToyCipher]. *)
From S2P Require Import Prelude StreamMode Ctr128 CfbOfb128 Cbc128 Wrap128 ToyCipher.

(** The state of a counter-mode stream before its first byte. *)
Definition ctr_start (iv : bytes) : ctr_state := {| ctr_ivec := iv; ctr_ecount_buf := replicate 16 0 |}.

(** The key stream of the standard: the encryption of the counter plus [i]. *)
Definition counter_stream {K} (block : block128_f K) (key : K) (iv : bytes) (k : nat) : bytes :=
  concat (map (λ i, block (be_bytes 16 (be_val iv + Z.of_nat i)) key) (seq 0 k)).

Lemma be_bytes_be_val (n : nat) (b : bytes) :
  length b = n → are_bytes b → be_bytes n (be_val b) = b.
Proof. intros <- Hb. by apply be_bytes_val. Qed.

Lemma be_bytes_mod (n : nat) (z : Z) : be_bytes n (z mod 2 ^ (8 * Z.of_nat n)) = be_bytes n z.
Proof.
  apply be_val_inj; [by rewrite !length_be_bytes|auto with bytes..|].
  rewrite !be_val_bytes. apply Z.mod_mod. lia.
Qed.

Lemma counter_stream_eq {K} (block : block128_f K) key iv k :
  length iv = 16%nat → are_bytes iv → counter_stream block key iv k = ctr_keystream block key iv k.
Proof.
  intros Hl Hb. unfold counter_stream, ctr_keystream. f_equal. apply map_ext. intros i. f_equal.
  destruct (iter_ctr128_inc i iv Hl Hb) as (Hl' & Hb' & Hv).
  rewrite <- (be_bytes_be_val 16 (Nat.iter i ctr128_inc iv)) by done. rewrite Hv.
  symmetry. apply (be_bytes_mod 16).
Qed.

Lemma ctr_start_ok iv : iv_ok iv → ctr_state_ok (ctr_start iv).
Proof. intros [??]. split_and!; simpl; try done. by repeat constructor. Qed.

(** C30. Counter mode, one call at the start of a block ([*num] is 0): whatever the
    configuration of the build, the alignment of the pointers and the byte order of the
    machine, the output is the input, of any length, under the key stream
    [E(iv), E(iv + 1), ...] with the counter taken as a 128-bit big-endian integer that
    wraps around; the counter left behind is past the last block used and [*num] is the
    position in it. *)
Theorem ctr_is_keystream {K} (block : block128_f K) (key : K) (HB : Block128 block key)
    little aligned v iv inp :
  iv_ok iv → are_bytes inp →
  let '(out, s', num') := CRYPTO_ctr128_encrypt block key little aligned v inp (ctr_start iv) 0 in
  let k := blocks_of (length inp) in
  out = xor_bytes inp (counter_stream block key iv k) ∧
  ctr_ivec s' = be_bytes 16 (be_val iv + Z.of_nat k) ∧
  num' = (length inp mod 16)%nat.
Proof.
  intros [Hl Hb] Hi.
  pose proof (ctr_encrypt_keystream block key little aligned v iv (replicate 16 0) inp Hl Hb eq_refl
    ltac:(by apply are_bytes_replicate) Hi) as H.
  unfold ctr_start. destruct (CRYPTO_ctr128_encrypt _ _ _ _ _ _ _ _) as [[out s'] num'].
  destruct H as (-> & -> & -> & _). rewrite counter_stream_eq by done. split_and!; [done| |done].
  destruct (iter_ctr128_inc (blocks_of (length inp)) iv Hl Hb) as (Hl' & Hb' & Hv).
  rewrite <- (be_bytes_be_val 16 (Nat.iter _ ctr128_inc iv)), Hv by done.
  apply (be_bytes_mod 16).
Qed.

Lemma iv1_ok : iv_ok iv1.
Proof. split; [done|]. by repeat constructor. Qed.
Lemma msg1_ok : are_bytes msg1.
Proof. by repeat constructor. Qed.

Lemma ctr_is_keystream_witness :
  let '(out, s', num') := CRYPTO_ctr128_encrypt toy_enc key1 true false Words msg1 (ctr_start iv1) 0 in
  out = xor_bytes msg1 (counter_stream toy_enc key1 iv1 2) ∧
  ctr_ivec s' = be_bytes 16 (be_val iv1 + 2) ∧ num' = 3%nat.
Proof. exact (ctr_is_keystream toy_enc key1 _ true false Words iv1 msg1 iv1_ok msg1_ok). Defined.

(** The word-wise, the misaligned and the small-footprint build of counter
    mode and the two ways of incrementing the counter are the same function
    of any state of a stream. *)
Theorem ctr_builds_agree {K} (block : block128_f K) (key : K) (HB : Block128 block key)
    l1 a1 v1 l2 a2 v2 s num inp :
  ctr_state_ok s → (num < 16)%nat → are_bytes inp →
  CRYPTO_ctr128_encrypt block key l1 a1 v1 inp s num = CRYPTO_ctr128_encrypt block key l2 a2 v2 inp s num.
Proof.
  intros Hs Hn Hi. unfold CRYPTO_ctr128_encrypt.
  rewrite (sm_crypt_variant _ ctr_state_ok v1), (sm_crypt_variant _ ctr_state_ok v2) by done.
  simpl. clear. revert s num. induction inp as [|x r IH]; intros s num; [done|].
  simpl. by rewrite IH.
Qed.

Definition ctr_mid : ctr_state := {| ctr_ivec := iv1; ctr_ecount_buf := key1 |}.

Lemma ctr_mid_ok : ctr_state_ok ctr_mid.
Proof. destruct iv1_ok, key1_ok. done. Qed.

Lemma ctr_builds_agree_witness :
  CRYPTO_ctr128_encrypt toy_enc key1 false true Words msg1 ctr_mid 5 =
  CRYPTO_ctr128_encrypt toy_enc key1 true false SmallFootprint msg1 ctr_mid 5.
Proof. apply (ctr_builds_agree toy_enc key1 _); [exact ctr_mid_ok|lia|exact msg1_ok]. Defined.

(** A stream may be cut anywhere: encrypting two pieces one after the
    other, with the state and [*num] of the first call, is encrypting their
    concatenation. *)
Theorem ctr_stream_append {K} (block : block128_f K) (key : K) (HB : Block128 block key)
    little aligned v s num a b :
  ctr_state_ok s → (num < 16)%nat → are_bytes a → are_bytes b →
  CRYPTO_ctr128_encrypt block key little aligned v (a ++ b) s num =
    let '(o1, s1, n1) := CRYPTO_ctr128_encrypt block key little aligned v a s num in
    let '(o2, s2, n2) := CRYPTO_ctr128_encrypt block key little aligned v b s1 n1 in
    (o1 ++ o2, s2, n2).
Proof. intros. by apply (sm_crypt_app _ ctr_state_ok). Qed.

Lemma ctr_stream_append_witness :
  CRYPTO_ctr128_encrypt toy_enc key1 true true Words (msg1 ++ msg1) ctr_mid 3 =
    let '(o1, s1, n1) := CRYPTO_ctr128_encrypt toy_enc key1 true true Words msg1 ctr_mid 3 in
    let '(o2, s2, n2) := CRYPTO_ctr128_encrypt toy_enc key1 true true Words msg1 s1 n1 in
    (o1 ++ o2, s2, n2).
Proof. apply (ctr_stream_append toy_enc key1 _); [exact ctr_mid_ok|lia|exact msg1_ok..]. Defined.

(** The accelerated routine of the platform, by its definition. *)
Definition toy_ctr32 : ctr128_f toy_key := λ inp k key iv,
  xor_bytes inp (concat (map (λ i, toy_enc (ctr32_add iv i) key) (seq 0 k))).

(** C31. [CRYPTO_ctr128_encrypt_ctr32], which counts on 32 bits and hands
    runs of blocks to the accelerated routine, carries into the upper 96 bits
    of the counter where [CRYPTO_ctr128_encrypt] does: both give the same
    output, counter and position, and the same unused key stream. *)
Theorem ctr32_is_ctr128 {K} (func : ctr128_f K) (block : block128_f K) (key : K)
    (HB : Block128 block key) (HF : Ctr32Func func block key) v little aligned s num inp :
  ctr_state_ok s → (num < 16)%nat → are_bytes inp →
  let '(o, s', n') := CRYPTO_ctr128_encrypt_ctr32 func key inp s num in
  let '(o2, s2, n2) := CRYPTO_ctr128_encrypt block key little aligned v inp s num in
  o = o2 ∧ n' = n2 ∧ ctr_ivec s' = ctr_ivec s2 ∧
  (n' ≠ 0%nat → ctr_ecount_buf s' = ctr_ecount_buf s2).
Proof. intros. by apply ctr32_encrypt. Qed.

Lemma ctr32_is_ctr128_witness :
  (CRYPTO_ctr128_encrypt_ctr32 toy_ctr32 key1 msg1 ctr_mid 1).1.1 =
  (CRYPTO_ctr128_encrypt toy_enc key1 true true Words msg1 ctr_mid 1).1.1.
Proof.
  pose proof (ctr32_is_ctr128 toy_ctr32 toy_enc key1 _ (λ inp k iv _, eq_refl) Words true true ctr_mid 1
    msg1 ctr_mid_ok ltac:(lia) msg1_ok) as H.
  destruct (CRYPTO_ctr128_encrypt_ctr32 _ _ _ _ _) as [[o s'] n'].
  destruct (CRYPTO_ctr128_encrypt _ _ _ _ _ _ _ _) as [[o2 s2] n2]. exact (proj1 H).
Defined.

(** ** Output and cipher feedback *)

(** The key stream of output feedback: the IV encrypted over and over. *)
Definition ofb_stream {K} (block : block128_f K) (key : K) (iv : bytes) (k : nat) : bytes :=
  concat (map (λ i, Nat.iter (S i) (λ b, block b key) iv) (seq 0 k)).

Lemma ofb_stream_S {K} (block : block128_f K) key iv k :
  ofb_stream block key iv (S k) = block iv key ++ ofb_stream block key (block iv key) k.
Proof.
  unfold ofb_stream. simpl. f_equal. rewrite <- seq_shift, map_map. f_equal.
  apply map_ext. intros i. change (block (Nat.iter (S i) (λ b, block b key) iv) key) with
    (Nat.iter (S (S i)) (λ b, block b key) iv). by rewrite Nat.iter_succ_r.
Qed.

Lemma blocks_of_cons (inp : bytes) :
  (0 < length inp)%nat → blocks_of (length inp) = S (blocks_of (length (drop 16 inp))).
Proof.
  intros H. rewrite length_drop. unfold blocks_of. destruct (decide (length inp <= 16)%nat).
  - replace (length inp - 16)%nat with 0%nat by lia. change ((0 + 15) / 16)%nat with 0%nat.
    symmetry. apply (Nat.div_unique _ 16 1 (length inp - 1)); lia.
  - replace (length inp + 15)%nat with (length inp - 16 + 15 + 1 * 16)%nat by lia.
    rewrite Nat.div_add by lia. lia.
Qed.

Lemma sm_bytes_first {St} (m : stream_mode St) (P : St → Prop) (HP : StreamModeOk m P) s inp :
  (0 < length inp)%nat →
  sm_bytes m s 0 inp =
    let '(o1, s1, n1) := sm_bytes m s 0 (take 16 inp) in
    let '(o2, s2, n2) := sm_bytes m s1 n1 (drop 16 inp) in
    (o1 ++ o2, s2, n2).
Proof. intros _. rewrite <- (take_drop 16 inp) at 1. by rewrite sm_bytes_app. Qed.

Lemma ofb_bytes_first {K} (block : block128_f K) (key : K) (HB : Block128 block key) iv inp :
  iv_ok iv → (0 < length inp <= 16)%nat →
  sm_bytes (ofb_mode block key) iv 0 inp =
    (xor_bytes inp (block iv key), block iv key, (length inp mod 16)%nat).
Proof.
  intros Hiv Hl. destruct (iv_ok_block block key iv Hiv) as [Hbl _].
  destruct inp as [|x r]; [simpl in Hl; lia|].
  pose proof (sm_tail_refill (ofb_mode block key) iv x r ltac:(lia)) as Hr.
  pose proof (sm_bytes_num (ofb_mode block key) iv 0 (x :: r) ltac:(lia)) as Hn.
  rewrite ofb_tail, drop_0 in Hr by (cbn [sm_refill ofb_mode]; lia).
  destruct (sm_bytes _ iv 0 (x :: r)) as [[o s] n]. injection Hr as <- <-. simpl in Hn. by subst n.
Qed.

Lemma ofb_bytes_stream {K} (block : block128_f K) (key : K) (HB : Block128 block key) k iv inp :
  iv_ok iv → (length inp <= 16 * k)%nat →
  (sm_bytes (ofb_mode block key) iv 0 inp).1.1 =
    xor_bytes inp (ofb_stream block key iv (blocks_of (length inp))).
Proof.
  revert iv inp. induction k as [|k IH]; intros iv inp Hiv Hk.
  { by destruct inp; [|simpl in Hk; lia]. }
  destruct (decide (length inp = 0)%nat) as [Hz|Hz]; [by destruct inp|].
  destruct (iv_ok_block block key iv Hiv) as [Hbl Hbb].
  rewrite blocks_of_cons, ofb_stream_S by lia.
  destruct (decide (length inp <= 16)%nat) as [Hle|Hgt].
  - rewrite ofb_bytes_first by (done || lia). rewrite (drop_ge inp) by lia.
    change (ofb_stream block key (block iv key) (blocks_of (length []))) with (@nil Z).
    by rewrite app_nil_r.
  - rewrite (sm_bytes_first _ iv_ok _) by lia.
    rewrite ofb_bytes_first by (done || rewrite length_take; lia).
    rewrite length_take, Nat.min_l by lia. change (16 mod 16)%nat with 0%nat.
    specialize (IH (block iv key) (drop 16 inp) ltac:(by split) ltac:(rewrite length_drop; lia)).
    destruct (sm_bytes _ (block iv key) 0 (drop 16 inp)) as [[o2 s2] n2]. simpl in IH |- *. subst o2.
    rewrite <- xor_bytes_app by (rewrite length_take; lia). by rewrite take_drop.
Qed.

Lemma ofb_stream_ok {K} (block : block128_f K) (key : K) (HB : Block128 block key) iv k :
  iv_ok iv → length (ofb_stream block key iv k) = (16 * k)%nat ∧ are_bytes (ofb_stream block key iv k).
Proof.
  revert iv. induction k as [|k IH]; intros iv Hiv; [by split; [|constructor]|].
  destruct (iv_ok_block block key iv Hiv) as [Hbl Hbb]. destruct (IH (block iv key)) as [Hl Hb]; [done|].
  rewrite ofb_stream_S, length_app, Hl, Hbl. split; [lia|]. by apply are_bytes_app.
Qed.

Lemma ofb_out {K} (block : block128_f K) (key : K) (HB : Block128 block key) v iv inp :
  iv_ok iv → are_bytes inp →
  (CRYPTO_ofb128_encrypt block key v inp iv 0).1.1 =
    xor_bytes inp (ofb_stream block key iv (blocks_of (length inp))).
Proof.
  intros Hiv Hi. unfold CRYPTO_ofb128_encrypt.
  rewrite (sm_crypt_variant _ iv_ok v) by (done || lia).
  by apply (ofb_bytes_stream block key HB (length inp)); [|lia].
Qed.

(** Output feedback: the output is the input under the IV encrypted over
    and over, in every build; so the same call decrypts. *)
Theorem ofb_is_keystream {K} (block : block128_f K) (key : K) (HB : Block128 block key) v iv inp :
  iv_ok iv → are_bytes inp →
  let out := (CRYPTO_ofb128_encrypt block key v inp iv 0).1.1 in
  out = xor_bytes inp (ofb_stream block key iv (blocks_of (length inp))) ∧
  (CRYPTO_ofb128_encrypt block key v out iv 0).1.1 = inp.
Proof.
  intros Hiv Hi out. subst out. rewrite ofb_out by done. split; [done|].
  destruct (ofb_stream_ok block key HB iv (blocks_of (length inp)) Hiv) as [Hl Hb].
  pose proof (blocks_of_ge (length inp)).
  rewrite ofb_out by (done || by apply are_bytes_xor).
  rewrite length_xor_bytes, Hl, Nat.min_l by done. apply xor_bytes_cancel. lia.
Qed.

Lemma ofb_is_keystream_witness :
  let out := (CRYPTO_ofb128_encrypt toy_enc key1 Words msg1 iv1 0).1.1 in
  out = xor_bytes msg1 (ofb_stream toy_enc key1 iv1 2) ∧
  (CRYPTO_ofb128_encrypt toy_enc key1 Words out iv1 0).1.1 = msg1.
Proof. exact (ofb_is_keystream toy_enc key1 _ Words iv1 msg1 iv1_ok msg1_ok). Defined.

Lemma cfb_enc_bytes {K} (block : block128_f K) (key : K) (HB : Block128 block key) iv n inp :
  iv_ok iv → (n < 16)%nat → are_bytes inp → are_bytes (sm_bytes (cfb_enc_mode block key) iv n inp).1.1.
Proof.
  revert iv n. induction inp as [|x r IH]; intros iv n Hiv Hn Hi; [constructor|].
  apply are_bytes_cons in Hi as [Hx Hr]. simpl.
  set (iv0 := if (n =? 0)%nat then block iv key else iv).
  assert (iv_ok iv0) as [Hl0 Hb0] by (unfold iv0; destruct (n =? 0)%nat; [by apply iv_ok_block|done]).
  assert (is_byte (Z.lxor (iv0 !!! n) x)) as Hc.
  { auto with bytes. }
  specialize (IH (<[n := Z.lxor (iv0 !!! n) x]> iv0) ((n + 1) mod 16)%nat).
  destruct (sm_bytes _ (<[_ := _]> iv0) _ r) as [[o s] m].
  apply are_bytes_cons. split; [done|]. apply IH; [|by apply Nat.mod_upper_bound|done].
  split; [by rewrite length_insert|auto with bytes].
Qed.

(** Cipher feedback: from any point of a stream, decrypting what was
    encrypted gives the plaintext back and leaves the IV and [*num] as the
    encryption did, whichever builds the two ends run. *)
Theorem cfb_roundtrip {K} (block : block128_f K) (key : K) (HB : Block128 block key) v1 v2 iv num inp :
  iv_ok iv → (num < 16)%nat → are_bytes inp →
  let '(c, iv', num') := CRYPTO_cfb128_encrypt block key v1 inp iv num true in
  CRYPTO_cfb128_encrypt block key v2 c iv num false = (inp, iv', num').
Proof.
  intros Hiv Hn Hi. unfold CRYPTO_cfb128_encrypt.
  rewrite (sm_crypt_variant _ iv_ok v1) by done. simpl.
  pose proof (cfb_bytes_roundtrip block key iv num inp Hn Hiv Hi) as H.
  pose proof (cfb_enc_bytes block key HB iv num inp Hiv Hn Hi) as Hc.
  destruct (sm_bytes _ iv num inp) as [[c iv'] num'].
  by rewrite (sm_crypt_variant _ iv_ok v2).
Qed.

Lemma cfb_roundtrip_witness :
  let '(c, iv', num') := CRYPTO_cfb128_encrypt toy_enc key1 Words msg1 iv1 7 true in
  CRYPTO_cfb128_encrypt toy_enc key1 Misaligned c iv1 7 false = (msg1, iv', num').
Proof.
  pose proof (cfb_roundtrip toy_enc key1 _ Words Misaligned iv1 7 msg1 iv1_ok ltac:(lia) msg1_ok) as H.
  destruct (CRYPTO_cfb128_encrypt _ _ Words _ _ _ _) as [[c iv'] n']. exact H.
Defined.

(** The first [k] bits of a buffer. *)
Definition first_bits (k : nat) (b : bytes) : list bool := map (getbit b) (seq 0 k).

(** One-bit cipher feedback: decrypting the [bits] bits that were
    encrypted gives the bits of the plaintext back, and the two ends leave the
    same IV, whatever the output buffers held. *)
Theorem cfb1_roundtrip {K} (block : block128_f K) (key : K) (HB : Block128 block key)
    iv inp buf1 buf2 bits :
  iv_ok iv → (bits <= 8 * length buf1)%nat → (bits <= 8 * length buf2)%nat →
  let '(c, iv') := CRYPTO_cfb128_1_encrypt block key inp buf1 bits iv true in
  let '(p, iv'') := CRYPTO_cfb128_1_encrypt block key c buf2 bits iv false in
  first_bits bits p = first_bits bits inp ∧ iv'' = iv'.
Proof.
  intros Hiv H1 H2. unfold CRYPTO_cfb128_1_encrypt, first_bits.
  pose proof (cfb1_loop_spec block key inp true bits 0 buf1 iv Hiv ltac:(lia)) as Hc.
  destruct (cfb1_loop block key inp true bits 0 (buf1, iv)) as [c iv'] eqn:E1.
  pose proof (cfb1_loop_spec block key c false bits 0 buf2 iv Hiv ltac:(lia)) as Hp.
  destruct (cfb1_loop block key c false bits 0 (buf2, iv)) as [p iv''].
  pose proof (cfb1_bits_roundtrip block key iv (map (getbit inp) (seq 0 bits))) as Hr.
  destruct (cfb1_bits block key true iv (map (getbit inp) (seq 0 bits))) as [os iv2].
  destruct Hc as (<- & Hc & _). rewrite Hc, Hr in Hp. by destruct Hp as (<- & -> & _).
Qed.

Lemma cfb1_roundtrip_witness :
  let '(c, iv') := CRYPTO_cfb128_1_encrypt toy_enc key1 msg1 msg1 13 iv1 true in
  let '(p, iv'') := CRYPTO_cfb128_1_encrypt toy_enc key1 c iv1 13 iv1 false in
  first_bits 13 p = first_bits 13 msg1 ∧ iv'' = iv'.
Proof. apply (cfb1_roundtrip toy_enc key1 _); [exact iv1_ok|simpl; lia..]. Defined.

(** ** Cipher block chaining *)

(** C32. Cipher block chaining: decrypting [len] bytes, in place or not and in
    any build, of what encrypting the [len] bytes of the plaintext in any build
    produced gives the plaintext and the IV of the encryption; a last partial
    block takes the whole block of ciphertext it was padded to. *)
Theorem cbc_roundtrip {K1 K2} (enc : block128_f K1) (ek : K1) (dec : block128_f K2) (dk : K2)
    (HE : Block128 enc ek) (HD : Block128 dec dk) (HI : BlockInverse enc ek dec dk)
    v1 v2 inplace iv inp :
  iv_ok iv → are_bytes inp →
  let '(c, iv') := CRYPTO_cbc128_encrypt enc ek v1 inp iv in
  length c = (16 * ((length inp + 15) / 16))%nat ∧
  CRYPTO_cbc128_decrypt dec dk v2 inplace c (length inp) iv = (inp, iv').
Proof.
  intros Hiv Hi. rewrite cbc_encrypt_spec by done.
  pose proof (cbc_enc_ok enc ek (length inp) iv inp Hiv Hi ltac:(lia)) as Hok.
  pose proof (cbc_spec_roundtrip enc ek dec dk (length inp) (length inp) iv inp Hiv Hi
    ltac:(lia) ltac:(lia)) as Hr.
  destruct (cbc_enc_spec enc ek (length inp) iv inp) as [c iv'].
  destruct Hok as (Hiv' & Hc & Hl). split; [done|].
  rewrite (cbc_decrypt_spec _ _); [done..|]. unfold cbc_readable. lia.
Qed.

Lemma cbc_roundtrip_witness :
  let '(c, iv') := CRYPTO_cbc128_encrypt toy_enc key1 Words msg1 iv1 in
  length c = 32%nat ∧
  CRYPTO_cbc128_decrypt toy_dec key1 SmallFootprint true c 19 iv1 = (msg1, iv').
Proof.
  pose proof (cbc_roundtrip toy_enc key1 toy_dec key1 _ _ (proj1 (toy_inverse key1 key1_ok)) Words
    SmallFootprint true iv1 msg1 iv1_ok msg1_ok) as H.
  destruct (CRYPTO_cbc128_encrypt _ _ Words _ _) as [c iv']. exact H.
Defined.

(** ** Key wrap *)

Lemma wrap_unwrap {K1 K2} (enc : block128_f K1) (ek : K1) (dec : block128_f K2) (dk : K2)
    (HE : Block128 enc ek) (HD : Block128 dec dk) (HI : BlockInverse enc ek dec dk) iv inp n :
  length (default default_iv iv) = 8%nat → are_bytes (default default_iv iv) → are_bytes inp →
  wrap_len n → length inp = (8 * n)%nat →
  ∃ c, CRYPTO_128_wrap enc ek iv inp = Some c ∧ length c = (8 * n + 8)%nat ∧
       CRYPTO_128_unwrap dec dk iv c = Some inp.
Proof.
  intros Hl Hb Hi Hn Hlen.
  destruct (CRYPTO_128_wrap_total enc ek iv inp n Hn Hlen) as [c Hc]. exists c.
  pose proof (unwrap_raw_wrap enc ek dec dk iv inp c Hl Hb Hi Hc) as Hu.
  apply wrap_some in Hc as Hst. destruct Hst as (n' & _ & Hn' & Hst).
  assert (n' = n) as -> by lia.
  destruct (wrap_outer_ok enc ek n 6 1 (default default_iv iv, inp)) as (H1 & _ & H2 & _);
    [by apply wrap_init_ok|].
  split; [done|]. split; [rewrite Hst, length_app, H1, H2; lia|].
  unfold CRYPTO_128_unwrap. rewrite Hu. by rewrite decide_True.
Qed.
(** The test of the length in [unwrap] is made after the subtraction of 8: a message of
    8 bytes more than the largest length of its comment is accepted. *)
Lemma unwrap_over_max {K1 K2} (enc : block128_f K1) (ek : K1) (dec : block128_f K2) (dk : K2)
    (HE : Block128 enc ek) (HD : Block128 dec dk) (HI : BlockInverse enc ek dec dk) iv inp :
  length (default default_iv iv) = 8%nat → are_bytes (default default_iv iv) → are_bytes inp →
  Z.of_nat (length inp) = CRYPTO128_WRAP_MAX →
  ∃ c, Z.of_nat (length c) = CRYPTO128_WRAP_MAX + 8 ∧ CRYPTO_128_unwrap dec dk iv c = Some inp.
Proof.
  intros Hl Hb Hi. change CRYPTO128_WRAP_MAX with (2 ^ 31). intros Hlen.
  assert (∃ n, Z.of_nat n = 2 ^ 28) as [n Hn] by (eexists; apply Z2Nat.id; discriminate).
  destruct (wrap_unwrap enc ek dec dk HE HD HI iv inp n Hl Hb Hi) as (c & _ & Hc & Hu); [split; lia|lia|].
  exists c. split; [lia|exact Hu].
Qed.

(** C29. The key wrap of RFC 3394: a key of at least two and at most [2^28]
    blocks of 8 bytes is wrapped into one block more, and unwrapping with the
    same IV gives it back.  The largest length is that of the code: the wrapped
    key may be 8 bytes longer than the comment of [unwrap] allows
    ([unwrap_over_max]). *)
Theorem wrap_roundtrip {K1 K2} (enc : block128_f K1) (ek : K1) (dec : block128_f K2) (dk : K2)
    (HE : Block128 enc ek) (HD : Block128 dec dk) (HI : BlockInverse enc ek dec dk) iv inp n :
  length (default default_iv iv) = 8%nat → are_bytes (default default_iv iv) → are_bytes inp →
  wrap_len n → length inp = (8 * n)%nat →
  ∃ c, CRYPTO_128_wrap enc ek iv inp = Some c ∧ length c = (8 * n + 8)%nat ∧
       CRYPTO_128_unwrap dec dk iv c = Some inp.
Proof. by apply wrap_unwrap. Qed.

Definition sek1 : bytes := take 16 msg1 ++ take 8 iv1.

Lemma wrap_roundtrip_witness :
  ∃ c, CRYPTO_128_wrap toy_enc key1 None sek1 = Some c ∧ length c = 32%nat ∧
       CRYPTO_128_unwrap toy_dec key1 None c = Some sek1.
Proof.
  apply (wrap_roundtrip toy_enc key1 toy_dec key1 _ _ (proj1 (toy_inverse key1 key1_ok)) None sek1 3);
    [reflexivity|by repeat constructor|by repeat constructor|split; [lia|vm_compute; discriminate]|reflexivity].
Defined.

(** C35. Unwrapping accepts only what wrapping produces: when
    [CRYPTO_128_unwrap] returns a key, wrapping that key with the same IV gives
    back the very input, so any other input is refused. *)
Theorem unwrap_authentic {K1 K2} (enc : block128_f K1) (ek : K1) (dec : block128_f K2) (dk : K2)
    (HE : Block128 enc ek) (HD : Block128 dec dk) (HI : BlockInverse dec dk enc ek) iv c out :
  Z.of_nat (length c) < 2 ^ 64 → are_bytes c →
  CRYPTO_128_unwrap dec dk iv c = Some out →
  CRYPTO_128_wrap enc ek (Some (default default_iv iv)) out = Some c ∧ are_bytes out.
Proof.
  intros Hl Hb. unfold CRYPTO_128_unwrap.
  destruct (crypto_128_unwrap_raw dec dk c) as [[got out']|] eqn:Hr; [|done].
  case_decide as Hg; [|done]. intros [= <-]. subst got.
  by destruct (wrap_unwrap_raw enc ek dec dk c _ out' Hl Hb Hr) as (? & _ & _ & ?).
Qed.

Lemma unwrap_authentic_witness :
  let c := default [] (CRYPTO_128_wrap toy_enc key1 None sek1) in
  CRYPTO_128_wrap toy_enc key1 (Some default_iv) sek1 = Some c ∧ are_bytes sek1.
Proof.
  apply (unwrap_authentic toy_enc key1 toy_dec key1 _ _ (proj2 (toy_inverse key1 key1_ok)) None);
    [vm_compute; reflexivity|vm_compute; by repeat constructor|vm_compute; reflexivity].
Defined.

(** The key wrap with padding of RFC 5649: any input of 1 to [2^31 - 9]
    bytes is padded, wrapped and recovered; the value returned is the length
    written. *)
Theorem wrap_pad_recovers {K1 K2} (enc : block128_f K1) (ek : K1) (dec : block128_f K2) (dk : K2)
    (HE : Block128 enc ek) (HD : Block128 dec dk) (HI : BlockInverse enc ek dec dk) icv inp :
  length (default default_aiv icv) = 4%nat → are_bytes (default default_aiv icv) →
  are_bytes inp → (0 < length inp)%nat → Z.of_nat (pad_len (length inp)) + 8 < 2 ^ 31 →
  ∃ c, CRYPTO_128_wrap_pad enc ek icv inp = Some (Z.of_nat (length c), c) ∧
    length c = (pad_len (length inp) + 8)%nat ∧
    CRYPTO_128_unwrap_pad dec dk icv c = Some inp.
Proof. intros. by apply wrap_pad_roundtrip. Qed.

Lemma wrap_pad_recovers_witness :
  ∃ c, CRYPTO_128_wrap_pad toy_enc key1 None msg1 = Some (Z.of_nat (length c), c) ∧
    length c = 32%nat ∧ CRYPTO_128_unwrap_pad toy_dec key1 None c = Some msg1.
Proof.
  apply (wrap_pad_recovers toy_enc key1 toy_dec key1 _ _ (proj1 (toy_inverse key1 key1_ok)) None msg1);
    [reflexivity|by repeat constructor|exact msg1_ok|simpl; lia|vm_compute; reflexivity].
Defined.

(** The length returned by [CRYPTO_128_wrap_pad] is an [int]: it is the
    length written exactly when that is below [2^31], although inputs of up to
    [2^31 - 1] bytes are accepted. *)
Theorem wrap_pad_length_overflow {K} (enc : block128_f K) (ek : K) (HE : Block128 enc ek)
    icv inp r c :
  length (default default_aiv icv) = 4%nat → are_bytes (default default_aiv icv) → are_bytes inp →
  CRYPTO_128_wrap_pad enc ek icv inp = Some (r, c) →
  r = Z.of_nat (length c) ↔ Z.of_nat (length c) < 2 ^ 31.
Proof. intros Hl Hb Hi Hw. by apply (wrap_pad_return enc ek icv Hl Hb inp). Qed.

Lemma wrap_pad_length_overflow_witness :
  let c := snd (default (0, []) (CRYPTO_128_wrap_pad toy_enc key1 None msg1)) in
  32 = Z.of_nat (length c) ↔ Z.of_nat (length c) < 2 ^ 31.
Proof.
  apply (wrap_pad_length_overflow toy_enc key1 _ None msg1 32);
    [reflexivity|by repeat constructor|exact msg1_ok|vm_compute; reflexivity].
Defined.
