(* ===== verification/HaiCryptSpec.v ===== *)
(** * What HaiCrypt promises

    The properties of haicrypt/: the stream between two ends created with the
    same pass phrase, the exchange of the keys, the bounds of the buffers and
    the equivalence of the fallback code with the code of OpenSSL.  Each is
    applied to the small cipher of [ToyCipher]. *)
From S2P Require Import Prelude StreamMode Ctr128 CfbOfb128 Cbc128 Wrap128 HcMsg HcCtx Cryspr ToyCipher ModesSpec HcSession HaiCrypt HcFacts HcStream HcCreate.

Section spec.
Context {AES_KEY : Type} `{!AesLib AES_KEY, !AesLibOk AES_KEY}.
Local Abbreviation ses := (hcrypt_Session AES_KEY).

(** C1. End to end: a sender and a receiver created with the same pass
    phrase (any key length, any salt and key drawn) stay in step for any
    number of rounds.  In each round the key manager runs, its messages go
    to the receiver, and then up to [km_pre_announce_pkt] packets are
    encrypted and decrypted: no assertion of the code fails, no buffer is
    overrun, and every packet is received with its payload, across all the
    key refreshes, switches and decommissions that happen on the way. *)
Theorem stream_end_to_end v little aligned mems ms memr mr pw cs cr rsalt rsek rds :
  let n := cfg_key_len cs in
  let R := km_refresh_rate_pkt cs in
  let P := km_pre_announce_pkt cs in
  cfg_for true pw cs → cfg_for false pw cr → mem_ok mems ms → mem_ok memr mr →
  length rsalt = 16%nat → are_bytes rsalt → length rsek = n → are_bytes rsek →
  0 < P → 2 * P < R → R + P < 2 ^ 32 →
  Forall (round_fits n P (Z.min (cfg_data_max_len cs) (cfg_data_max_len cr))) rds →
  ∃ s r s' r' : ses,
    HaiCrypt_Create mems (Some rsalt) (Some rsek) cs = Some (0, Some s) ∧
    HaiCrypt_Create memr None None cr = Some (0, Some r) ∧
    channel_run v little aligned rds (s, r) =
      Some (concat (map (λ rd, map (λ pkt, (Z.of_nat (length pkt.2), pkt.2)) (rd_pkts rd)) rds), (s', r')).
Proof.
  intros n R P Hcs Hcr Hms Hmr Hsl Hsb Hkl Hkb HP HR HR32 Hrds.
  destruct (stream_run v little aligned mems ms memr mr pw cs cr rsalt rsek rds)
    as (s & r & s' & r' & Hs & Hr & Hrun & _); try done.
  by exists s, r, s', r'.
Qed.

(** C19. The life of a key: after any number of rounds the sender has an
    active context whose key has protected at most
    [km_refresh_rate_pkt + km_pre_announce_pkt] packets, and both ends hold the
    key of the active context, or the sender has not sent its first message. *)
Theorem key_lifetime v little aligned mems ms memr mr pw cs cr rsalt rsek rds :
  let n := cfg_key_len cs in
  let R := km_refresh_rate_pkt cs in
  let P := km_pre_announce_pkt cs in
  cfg_for true pw cs → cfg_for false pw cr → mem_ok mems ms → mem_ok memr mr →
  length rsalt = 16%nat → are_bytes rsalt → length rsek = n → are_bytes rsek →
  0 < P → 2 * P < R → R + P < 2 ^ 32 →
  Forall (round_fits n P (Z.min (cfg_data_max_len cs) (cfg_data_max_len cr))) rds →
  ∃ (s r s' r' : ses) out sd,
    HaiCrypt_Create mems (Some rsalt) (Some rsek) cs = Some (0, Some s) ∧
    HaiCrypt_Create memr None None cr = Some (0, Some r) ∧
    channel_run v little aligned rds (s, r) = Some (out, (s', r')) ∧
    cur s' = OwnCtx sd ∧ status (get_ctx sd s') = HCRYPT_CTX_S_ACTIVE ∧
    1 <= pkt_cnt (get_ctx sd s') <= R + P ∧
    (tx_keyed s' sd rsalt (ctx_sek (get_ctx sd s')) ∧ rx_keyed r' sd rsalt (ctx_sek (get_ctx sd s')) ∨
     has_flag HCRYPT_CTX_F_TTSEND (get_ctx Even s') = true).
Proof.
  intros n R P Hcs Hcr Hms Hmr Hsl Hsb Hkl Hkb HP HR HR32 Hrds.
  destruct (stream_run v little aligned mems ms memr mr pw cs cr rsalt rsek rds)
    as (s & r & s' & r' & Hs & Hr & Hrun & ek & sd & ph & Hinv & Hcnt & _ & Hk); try done.
  do 5 eexists. exists sd. split; [exact Hs|]. split; [exact Hr|]. split; [exact Hrun|].
  split; [apply Hinv|]. split; [apply Hinv|]. split.
  - unfold cnt_before in Hcnt. destruct ph; fold R P in Hcnt; lia.
  - destruct Hk as [(_ & Hb & _)|(_ & _ & Ht)]; [left|by right].
    destruct (ti_key _ _ _ _ _ _ _ _ _ Hinv) as (Hlen & Hsalt & Hs2 & Haes' & k & Hk & Hslot).
    split; [|exact Hb]. split; [done|]. by exists k.
Qed.

(** C33. The exchange of the keys: a receiver that knows the pass phrase
    answers 0 to a Keying Material message that wraps the keys [seks] of a
    sender; every context the message has a key for then holds that key, the
    salt and the message, and the other context is untouched. *)
Theorem km_message_installs (s : ses) pw sl n kf seks ek w :
  rx_ready s pw sl n → aes_key_len n → length sl = 16%nat → are_bytes sl →
  1 <= kf <= 3 → are_bytes seks → length seks = (km_cnt kf * n)%nat →
  kek_key true pw sl n = Some ek → AES_wrap_key ek None seks = Some w →
  let msg := km_msg kf n sl w in
  ∃ s', hcryptCtx_Rx_ParseKM msg s = Some (0, s') ∧ rx_ready s' pw sl n ∧
    ∀ sd, if km_covers kf sd
          then rx_keyed s' sd sl (km_key kf n sd seks) ∧
               take (KMmsg_len (get_ctx sd s')) (KMmsg_cache (get_ctx sd s')) = msg
          else get_ctx sd s' = get_ctx sd s.
Proof.
  intros. destruct (ParseKM_run s pw sl n kf seks ek w) as (s' & Hp & Hr & _ & _ & Hi); try done.
  exists s'. split; [done|]. split; [done|]. intros sd. specialize (Hi sd).
  destruct (km_covers kf sd); [|by destruct Hi]. destruct Hi as (? & -> & ?). done.
Qed.


(** The bound of the output buffer: encrypting a packet into the buffer
    of the crypto service provider stays inside it exactly when header and
    payload fit its size, which is computed from [data_max_len]; the code does
    not compare the two. *)
Theorem encrypt_in_bounds v little aligned ctx pfx k (cb : CRYSPR_cb AES_KEY) payload out_p :
  msg_info ctx = Some hcryptMsg_SRT_MsgInfo → mode ctx = HCRYPT_CTX_MODE_AESCTR →
  Block128 AES_encrypt k → length (salt ctx) = 16%nat → are_bytes (salt ctx) →
  cb_ok cb → aes_sek cb !! hcryptCtx_GetKeyIndex ctx = Some (Some k) →
  (16 <= length pfx)%nat → are_bytes payload → (0 < length payload)%nat →
  Z.of_nat (16 + length payload) < 2 ^ 63 →
  is_Some (crysprFallback_MsEncrypt v little aligned cb ctx pfx payload out_p) ↔
  Z.of_nat (16 + length payload) <= outbuf_siz cb.
Proof.
  intros Hmi Hm Hk Hsl Hsb Hcb Hslot Hp Hb Hpos H63. split.
  - intros Hs. destruct (decide (Z.of_nat (16 + length payload) <= outbuf_siz cb)) as [|Hgt]; [done|].
    rewrite (MsEncrypt_overrun v little aligned ctx pfx k) in Hs by (done || lia).
    by destruct Hs.
  - intros Hfit. destruct (MsEncrypt_spec v little aligned ctx pfx k Hmi Hm Hk Hsl Hsb cb payload out_p)
      as (cb' & ofs & -> & _); done.
Qed.

(** The two implementations of the key wrap are the same function: the
    fallback of cryspr.c, which drives AES block by block, and the one of
    OpenSSL give the same wrapped keys and accept the same messages, for keys
    of 16 bytes and more. *)
Theorem fallback_is_openssl (cb : CRYSPR_cb AES_KEY) kek sek c :
  aes_kek cb = Some kek → Block128 AES_encrypt kek → Block128 AES_decrypt kek →
  are_bytes sek → (16 <= length sek)%nat → Z.of_nat (length sek) <= 2 ^ 31 →
  are_bytes c → (24 <= length c)%nat → Z.of_nat (length c) <= 2 ^ 31 →
  crysprFallback_AES_WrapKey cb sek = crysprOpenSSL_KmWrap cb sek ∧
  crysprFallback_AES_UnwrapKey cb c = crysprOpenSSL_KmUnwrap cb c.
Proof.
  intros. split; [by eapply fallback_wrap_eq|by eapply fallback_unwrap_eq].
Qed.

End spec.

(** ** Applied to the small cipher *)
Definition secret1 : HaiCrypt_Secret :=
  {| typ := HAICRYPT_SECTYP_PASSPHRASE; len := 5; str := [104; 101; 108; 108; 111] |}.
Definition cfg1 (tx : bool) : HaiCrypt_Cfg :=
  {| cfg_flags := Z.lor HAICRYPT_CFG_F_CRYPTO (if tx then HAICRYPT_CFG_F_TX else 0);
     cfg_secret := secret1; cfg_cryspr := true; cfg_key_len := 16; cfg_data_max_len := 32;
     cfg_xport := HAICRYPT_XPT_SRT; km_tx_period_ms := 0; km_refresh_rate_pkt := 3;
     km_pre_announce_pkt := 1 |}.
Definition zeroes (n : nat) : bytes := replicate n 0.
Definition mem1 : mem_oracle := {| mem_session := true; mem_cb := Some zeroes |}.
(** A round with one packet; [i] marks its key and its payload. *)
Definition round1 (i : Z) : round :=
  {| rd_rnd := replicate 16 i; rd_now1 := (0, 0); rd_now2 := (0, 0);
     rd_pkts := [([i; 0; 0; 0; 0; 0; 0; 0; 0; 0; 0; 0; 0; 0; 0; 0], [i; 65; 66; 67])] |}.
Definition rounds1 : list round := map round1 [1; 2; 3; 4; 5; 6; 7; 8].

Lemma cfg1_ok tx : cfg_for tx (str secret1) (cfg1 tx).
Proof. split; try done; destruct tx; try done; simpl; unfold HAICRYPT_PWD_MAX_SZ; try lia; by left. Qed.
Lemma mem1_ok : mem_ok mem1 zeroes.
Proof. split; [done|]. split; [done|]. intros k. apply length_replicate. Qed.
Lemma rounds1_ok : Forall (round_fits 16 1 32) rounds1.
Proof. repeat constructor; simpl; try done; repeat constructor; done. Qed.

Lemma stream_end_to_end_witness : ∃ s r s' r' : hcrypt_Session toy_key,
  HaiCrypt_Create mem1 (Some iv1) (Some key1) (cfg1 true) = Some (0, Some s) ∧
  HaiCrypt_Create mem1 None None (cfg1 false) = Some (0, Some r) ∧
  channel_run Words true false rounds1 (s, r) =
    Some (map (λ i, (4, [i; 65; 66; 67])) [1; 2; 3; 4; 5; 6; 7; 8], (s', r')).
Proof.
  apply (stream_end_to_end Words true false mem1 zeroes mem1 zeroes (str secret1) (cfg1 true) (cfg1 false)
    iv1 key1 rounds1); [apply cfg1_ok|apply cfg1_ok|apply mem1_ok|apply mem1_ok|reflexivity
    |by repeat constructor|reflexivity|by repeat constructor|simpl; lia..|apply rounds1_ok].
Defined.

Lemma key_lifetime_witness : ∃ (s r s' r' : hcrypt_Session toy_key) out sd,
  HaiCrypt_Create mem1 (Some iv1) (Some key1) (cfg1 true) = Some (0, Some s) ∧
  HaiCrypt_Create mem1 None None (cfg1 false) = Some (0, Some r) ∧
  channel_run Words true false rounds1 (s, r) = Some (out, (s', r')) ∧
  cur s' = OwnCtx sd ∧ status (get_ctx sd s') = HCRYPT_CTX_S_ACTIVE ∧
  1 <= pkt_cnt (get_ctx sd s') <= 3 + 1 ∧
  (tx_keyed s' sd iv1 (ctx_sek (get_ctx sd s')) ∧ rx_keyed r' sd iv1 (ctx_sek (get_ctx sd s')) ∨
   has_flag HCRYPT_CTX_F_TTSEND (get_ctx Even s') = true).
Proof.
  apply (key_lifetime Words true false mem1 zeroes mem1 zeroes (str secret1) (cfg1 true) (cfg1 false)
    iv1 key1 rounds1); [apply cfg1_ok|apply cfg1_ok|apply mem1_ok|apply mem1_ok|reflexivity
    |by repeat constructor|reflexivity|by repeat constructor|simpl; lia..|apply rounds1_ok].
Defined.

Definition kek1 : toy_key := default [] (kek_key true (str secret1) iv1 16).
Definition wrapped1 : bytes := default [] (AES_wrap_key kek1 None key1).

Lemma km_message_installs_witness : ∃ (r s' : hcrypt_Session toy_key),
  HaiCrypt_Create mem1 None None (cfg1 false) = Some (0, Some r) ∧
  hcryptCtx_Rx_ParseKM (km_msg 1 16 iv1 wrapped1) r = Some (0, s') ∧
  rx_keyed s' Even iv1 key1.
Proof.
  destruct (Create_rx_run mem1 zeroes (str secret1) (cfg1 false) iv1 16 (cfg1_ok false) mem1_ok
    (or_introl eq_refl) eq_refl) as (r & Hr & Hrx & _ & _).
  destruct (km_message_installs r (str secret1) iv1 16 1 key1 kek1 wrapped1 Hrx (or_introl eq_refl)
    eq_refl ltac:(by repeat constructor) ltac:(lia) ltac:(by repeat constructor) eq_refl
    ltac:(vm_compute; reflexivity) ltac:(vm_compute; reflexivity)) as (s' & Hp & _ & Hi).
  exists r, s'. split; [exact Hr|]. split; [exact Hp|]. exact (proj1 (Hi Even)).
Defined.



(** A message with another salt that is not unwrapped, to a receiver that has a key: the
    context goes back to the status without a key, and for its packets the answer is 0 and
    the data stays encrypted, until the sender repeats its message. *)
Definition km_other : bytes := km_msg 1 16 (<[0%nat := 99]> iv1) (<[0%nat := 0]> wrapped1).
Definition data_after (msgs : list bytes) : option (list Z * Z * bytes) :=
  match HaiCrypt_Create mem1 None None (cfg1 false) with
  | Some (0, Some r) =>
      '(rs, r) ← foldl (λ acc m, '(rs, r) ← acc; '(x, r) ← hcryptCtx_Rx_ParseKM m r; Some (rs ++ [x], r))
        (Some ([], r : hcrypt_Session toy_key)) msgs;
      '(d, _) ← HaiCrypt_Rx_Data Words true false ([0; 0; 0; 1] ++ [0x08; 0; 0; 1] ++ zeroes 8) [1; 2; 3; 4] r;
      Some (rs, d.1, d.2)
  | _ => None
  end.
Lemma refused_message_unkeys :
  data_after [km_msg 1 16 iv1 wrapped1] = Some ([0], 4, [201; 13; 241; 244]) ∧
  data_after [km_msg 1 16 iv1 wrapped1; km_other] = Some ([0; -2], 0, [1; 2; 3; 4]) ∧
  data_after [km_msg 1 16 iv1 wrapped1; km_other; km_msg 1 16 iv1 wrapped1] = Some ([0; -2; 0], 4, [201; 13; 241; 244]).
Proof. vm_compute. by split_and!. Qed.

Definition ctx1 : hcrypt_Ctx :=
  set_salt 16 iv1 (set_mode HCRYPT_CTX_MODE_AESCTR (set_msg_info (Some hcryptMsg_SRT_MsgInfo)
    (set_flags HCRYPT_CTX_F_eSEK ctx_zero))).
Definition cb1 : CRYSPR_cb toy_key :=
  {| aes_kek := Some key1; aes_sek := [Some key1; None]; outbuf := zeroes 40; outbuf_ofs := 0;
     outbuf_siz := 40 |}.
Lemma cb1_ok : cb_ok cb1.
Proof. split; [done|]. split; [done|]. simpl. lia. Qed.

Lemma encrypt_in_bounds_witness :
  is_Some (crysprFallback_MsEncrypt Words true false cb1 ctx1 (zeroes 16) msg1 true) ↔
  Z.of_nat (16 + 19) <= 40.
Proof.
  apply (encrypt_in_bounds Words true false ctx1 (zeroes 16) key1 cb1 msg1 true);
    [reflexivity|reflexivity|exact key1_enc|reflexivity|by repeat constructor|exact cb1_ok|reflexivity
    |simpl; lia|exact msg1_ok|simpl; lia|vm_compute; reflexivity].
Defined.

Lemma fallback_is_openssl_witness :
  crysprFallback_AES_WrapKey cb1 sek1 = crysprOpenSSL_KmWrap cb1 sek1 ∧
  crysprFallback_AES_UnwrapKey cb1 (wrapped1 ++ zeroes 8) = crysprOpenSSL_KmUnwrap cb1 (wrapped1 ++ zeroes 8).
Proof.
  apply (fallback_is_openssl cb1 key1); [reflexivity|exact key1_enc|exact key1_dec
    |by repeat constructor|vm_compute; lia|vm_compute; discriminate
    |vm_compute; by repeat constructor|vm_compute; lia|vm_compute; discriminate].
Defined.

(** The packet index: what [hcryptMsg_SRT_SetPki] writes into a header
    [hcryptMsg_SRT_GetPki] reads back, the key flags of the header are kept,
    and the rest of the message is not touched. *)
Theorem pki_roundtrip msg pki :
  (4 <= length msg)%nat → 0 <= pki < 2 ^ 32 →
  hcryptMsg_SRT_GetPki (hcryptMsg_SRT_SetPki msg pki) false = pki ∧
  hcryptMsg_SRT_GetKeyFlags (hcryptMsg_SRT_SetPki msg pki) = hcryptMsg_SRT_GetKeyFlags msg ∧
  drop 4 (hcryptMsg_SRT_SetPki msg pki) = drop 4 msg.
Proof.
  intros Hl Hp. destruct (SetPki_GetPki msg pki Hl Hp) as [? ?]. split; [done|]. split; [done|].
  unfold hcryptMsg_SRT_SetPki, memcpy, HCRYPT_MSG_SRT_OFS_PKI. rewrite length_le_bytes. simpl.
  by rewrite drop_0.
Qed.

Lemma pki_roundtrip_witness :
  hcryptMsg_SRT_GetPki (hcryptMsg_SRT_SetPki msg1 0xDEADBEEF) false = 0xDEADBEEF ∧
  hcryptMsg_SRT_GetKeyFlags (hcryptMsg_SRT_SetPki msg1 0xDEADBEEF) = hcryptMsg_SRT_GetKeyFlags msg1 ∧
  drop 4 (hcryptMsg_SRT_SetPki msg1 0xDEADBEEF) = drop 4 msg1.
Proof. apply pki_roundtrip; simpl; lia. Defined.
