(* ===== verification/ContainersSpec.v ===== *)
(** * What the containers promise

    The properties of the DTLS replay window (ssl/record/dtls1_bitmap.c), of
    the DTLS priority queue (ssl/pqueue.c) and of the stacks
    (crypto/stack/stack.c), with their applications to concrete inputs. *)
From stdpp Require Import sorting.
From Stdlib Require Import Sorted.
From S2P Require Import Prelude Bitmap PQueue Stack.
Open Scope Z_scope.

(** ** The replay window *)

(** C25. The sliding window of DTLS refines its specification: from an empty
    bitmap of [w] bits (32 or 64), a record is taken exactly when it is
    authentic, its 64-bit number has not been taken before, and the number is
    not more than [w - 1] below the greatest one taken. *)
Theorem window_refines w recs :
  0 < w <= 64 → Forall (λ rec, seq_ok rec.1) recs →
  (dtls_run w recs bitmap_zero).1 = window_run w [] recs.
Proof. intros Hw H. by apply dtls_run_window; [|apply bitmap_zero_inv|]. Qed.

Definition seq1 (i : Z) : bytes := [0; 0; 0; 0; 0; 0; 0; i].
Definition recs1 : list (bytes * bool) :=
  [(seq1 5, true); (seq1 3, true); (seq1 5, true); (seq1 200, false); (seq1 100, true); (seq1 20, true);
   (seq1 99, true); (seq1 99, true)].

Lemma recs1_ok : Forall (λ rec, seq_ok rec.1) recs1.
Proof. repeat constructor; simpl; lia. Qed.

Lemma window_refines_witness : (dtls_run 64 recs1 bitmap_zero).1 = window_run 64 [] recs1.
Proof. apply window_refines; [lia|exact recs1_ok]. Defined.

(** C26. No record is taken twice, whatever the order of arrival, the
    duplicates and the forged records in between. *)
Theorem no_replay w recs :
  0 < w <= 64 → Forall (λ rec, seq_ok rec.1) recs →
  NoDup (accepted recs (dtls_run w recs bitmap_zero).1).
Proof.
  intros Hw H. rewrite (dtls_run_window w Hw _ [] recs) by (done || by apply bitmap_zero_inv).
  apply window_run_nodup.
Qed.

Lemma no_replay_witness : NoDup (accepted recs1 (dtls_run 32 recs1 bitmap_zero).1).
Proof. apply no_replay; [lia|exact recs1_ok]. Defined.

(** ** The priority queue *)

(** [pqueue_insert] is sorted insertion: the item becomes a node before
    the first node of greater priority (an unsigned 64-bit number) and no
    other address of the heap changes; an item whose priority is already there
    is refused with NULL, and nothing changes. *)
Theorem pqueue_insert_sorted fuel h pq l item it :
  is_queue h pq l → item_ok h item it l → (l = [] → next it = 0) → (length l < fuel)%nat →
  ∃ r h' pq', pqueue_insert fuel h pq item = Some (r, h', pq') ∧
    if bool_decide (key it ∈ keys l) then r = 0 ∧ h' = h ∧ pq' = pq
    else r = item ∧ (∀ a, a ∉ item :: l.*1 → h' !! a = h !! a) ∧
      ∃ l', is_queue h' pq' l' ∧ node <$> l' = insert_node (node (item, it)) (node <$> l).
Proof. apply pqueue_insert_run. Qed.

Definition item1 (i nxt : Z) : pitem := {| priority := seq1 i; data := i; next := nxt |}.
Definition heap1 : heap := <[100 := item1 7 0]> (<[200 := item1 9 0]> (<[300 := item1 8 0]> ∅)).

Lemma seq1_ok i : 0 <= i < 256 → prio_ok (seq1 i).
Proof. intros. split; [done|]. repeat constructor; try lia. Qed.

Definition heap2 : heap := <[100 := item1 7 200]> heap1.
Definition list2 : list (Z * pitem) := [(100, item1 7 200); (200, item1 9 0)].
Lemma queue2_ok : is_queue heap2 {| items := 100; count := 0 |} list2.
Proof.
  split; [|repeat constructor; vm_compute; done].
  repeat split; try done; try (by repeat constructor).
Qed.

Lemma pqueue_insert_sorted_witness : ∃ r h' pq',
  pqueue_insert 3 heap2 {| items := 100; count := 0 |} 300 = Some (r, h', pq') ∧
  r = 300 ∧ (∀ a, a ∉ [300; 100; 200] → h' !! a = heap2 !! a) ∧
  ∃ l', is_queue h' pq' l' ∧
    node <$> l' = [node (100, item1 7 0); node (300, item1 8 0); node (200, item1 9 0)].
Proof.
  apply (pqueue_insert_sorted 3 heap2 {| items := 100; count := 0 |} list2 300 (item1 8 0));
    [exact queue2_ok| |done|simpl; lia].
  split; [done|]. split; [done|]. split; [by apply seq1_ok|].
  by apply (bool_decide_unpack _).
Defined.

(** [pqueue_find] finds: on a queue it answers the node of the priority
    given, and NULL exactly when there is none. *)
Theorem pqueue_find_correct fuel h pq l prio :
  is_queue h pq l → prio_ok prio → (length l < fuel)%nat →
  ∃ r, pqueue_find fuel h pq prio = Some r ∧
    (r ≠ 0 ∧ (∃ it, (r, it) ∈ l ∧ key it = be_val prio) ∨ r = 0 ∧ be_val prio ∉ keys l).
Proof. apply pqueue_find_run. Qed.

Lemma pqueue_find_correct_witness :
  ∃ r, pqueue_find 3 heap2 {| items := 100; count := 0 |} (seq1 9) = Some r ∧
    (r ≠ 0 ∧ (∃ it, (r, it) ∈ list2 ∧ key it = 9) ∨ r = 0 ∧ 9 ∉ keys list2).
Proof.
  apply (pqueue_find_correct 3 heap2 {| items := 100; count := 0 |} list2 (seq1 9));
    [exact queue2_ok|by apply seq1_ok|simpl; lia].
Defined.

(** Fill and drain: inserting fresh items in any order into an empty queue
    and popping until NULL terminates and gives items in strictly increasing
    order of priority; each priority that was inserted comes out once. *)
Theorem pqueue_sorts fuel h its :
  NoDup its.*1 → Forall (λ n, item_ok h n.1 n.2 [] ∧ next n.2 = 0) its → (length its < fuel)%nat →
  ∃ h' pq' l', insert_all fuel h pqueue_new its.*1 = Some (h', pq') ∧
    drain fuel h' pq' = Some l'.*1 ∧ StronglySorted Z.lt (keys l') ∧
    ∀ k, k ∈ keys l' ↔ k ∈ keys its.
Proof.
  intros Hnd Hok Hf.
  destruct (insert_all_run fuel h pqueue_new [] its) as (h' & pq' & l' & Hrun & Hq & Hlen & Hk); try done.
  { split; [done|constructor]. }
  { intros a _ Ha. by apply not_elem_of_nil in Ha. }
  { simpl. lia. }
  exists h', pq', l'. split; [done|]. split; [by apply drain_run|]. split; [apply Hq|].
  intros k. rewrite Hk. split; [intros [Hin|]; [by apply not_elem_of_nil in Hin|done]|by right].
Qed.

Definition items1 : list (Z * pitem) := [(200, item1 9 0); (300, item1 8 0); (100, item1 7 0)].

Lemma pqueue_sorts_witness : ∃ h' pq' l',
  insert_all 4 heap1 pqueue_new [200; 300; 100] = Some (h', pq') ∧
  drain 4 h' pq' = Some l'.*1 ∧ StronglySorted Z.lt (keys l') ∧ ∀ k, k ∈ keys l' ↔ k ∈ keys items1.
Proof.
  apply (pqueue_sorts 4 heap1 items1); [by apply (bool_decide_unpack _)| |simpl; lia].
  repeat constructor; try done; by apply not_elem_of_nil.
Defined.

(** ** Stacks *)

(** A [qsort], and a comparison function for the examples: function pointer 1
    compares the two numbers. *)
Definition le_dec' (c : Z → Z → Z) (x y : Z) : Prop := c x y <= 0.
#[export] Instance le_dec'_dec c : RelDecision (le_dec' c).
Proof. intros x y. unfold le_dec'. apply _. Defined.
#[export] Instance merge_qsort : Qsort := λ c l, merge_sort (le_dec' c) l.
#[export] Instance merge_qsort_ok : QsortOk.
Proof.
  split.
  - intros c l. apply merge_sort_Permutation.
  - intros c l [_ Ha Ht]. unfold qsort, merge_qsort.
    assert (Total (le_dec' c)) by (intros x y; unfold le_dec'; pose proof (Ha x y); pose proof (Ha y x); lia).
    assert (Transitive (le_dec' c)) by (intros x y z; apply Ht).
    apply (StronglySorted_merge_sort (le_dec' c)).
Qed.
Definition fn1 (f x y : Z) : Z := x - y.
Lemma fn1_ok f : cmp_ok (fn1 f).
Proof. split; unfold fn1; lia. Qed.

Definition fresh1 (n : nat) : list Z := replicate n 0.
Lemma fresh1_ok : alloc_ok (Some fresh1).
Proof. intros k. apply length_replicate. Qed.
Definition stack1 : stack_st :=
  {| num := 3; sk_data := Some [30; 10; 20; 77]; sorted := false; num_alloc := 4; comp := 1 |}.
Lemma stack1_ok : wf 64 fn1 stack1.
Proof. split; [simpl; lia|vm_compute; discriminate|simpl; unfold min_nodes; lia|done]. Qed.

(** Refinement of the stack: any sequence of pushes, insertions, deletions,
    pops, shifts, reads and writes on a well-formed stack returns what the same
    operations return on a list, as long as memory lasts and the number of
    elements stays within [max_nodes]; no access leaves the array, through all
    its reallocations. *)
Theorem stack_refines_list W fn m ops s :
  (W = 32 ∨ W = 64) → wf W fn s → alloc_ok (Some m) → num s + Z.of_nat (length ops) <= max_nodes W →
  ∃ s', sk_run W m ops s = Some ((list_run ops (elements s)).1, s') ∧ wf W fn s' ∧
    elements s' = (list_run ops (elements s)).2.
Proof. intros HW. by apply sk_run_refines. Qed.

Definition ops1 : list sk_op :=
  [Push 40; Push 50; Unshift 5; Insert 60 2; Delete 0; DeletePtr 20; Pop; Shift; Value 1; Set_ 0 99; Num].

Lemma stack_refines_list_witness :
  ∃ s', sk_run 64 fresh1 ops1 stack1 = Some ([4; 5; 6; 7; 5; 20; 50; 30; 10; 99; 3], s') ∧ wf 64 fn1 s' ∧
    elements s' = [99; 10; 40].
Proof.
  apply (stack_refines_list 64 fn1 fresh1 ops1 stack1);
    [by right|exact stack1_ok|exact fresh1_ok|vm_compute; discriminate].
Defined.

(** [OPENSSL_sk_find] finds: with a comparison function that orders the
    elements it sorts the stack at need and returns the first index whose
    element compares equal, without one the first index of the pointer itself;
    -1 exactly when there is none; the elements are kept (up to order). *)
Theorem stack_find_first W fn {Qs : Qsort} {Qok : QsortOk} s p :
  wf W fn s → num s <= 2 ^ 30 → p ≠ 0 → (comp s ≠ 0 → cmp_ok (fn (comp s))) →
  ∃ r s', OPENSSL_sk_find fn (Some s) p = Some (r, Some s') ∧ wf W fn s' ∧ elements s' ≡ₚ elements s ∧
    (r = -1 ∧ (∀ x, x ∈ elements s → ¬ matches fn s p x) ∨
     0 <= r ∧ (∃ x, elements s' !! Z.to_nat r = Some x ∧ matches fn s p x) ∧
       ∀ j y, (j < Z.to_nat r)%nat → elements s' !! j = Some y → ¬ matches fn s p y).
Proof.
  intros. destruct (OPENSSL_sk_find_run W fn s p) as (r & s' & ? & ? & ? & _ & _ & ?); try done.
  by exists r, s'.
Qed.

Lemma stack_find_first_witness :
  ∃ r s', OPENSSL_sk_find fn1 (Some stack1) 20 = Some (r, Some s') ∧ wf 64 fn1 s' ∧
    elements s' ≡ₚ [30; 10; 20] ∧
    (r = -1 ∧ (∀ x, x ∈ elements stack1 → ¬ matches fn1 stack1 20 x) ∨
     0 <= r ∧ (∃ x, elements s' !! Z.to_nat r = Some x ∧ matches fn1 stack1 20 x) ∧
       ∀ j y, (j < Z.to_nat r)%nat → elements s' !! j = Some y → ¬ matches fn1 stack1 20 y).
Proof.
  apply (stack_find_first 64 fn1 stack1 20);
    [exact stack1_ok|vm_compute; discriminate|lia|intros _; apply fn1_ok].
Defined.

(** C36. Growth: [compute_growth] terminates within the turns its loop is given
    and, for a target within [max_nodes], returns a capacity that is at least
    the target and the current one and never more than [max_nodes], so that
    the size in bytes of the array does not overflow [size_t]. *)
Theorem growth_bounds W target current :
  (W = 32 ∨ W = 64) → 2 <= current <= max_nodes W → target <= max_nodes W →
  ∃ c, compute_growth W target current = Some c ∧ target <= c ∧ current <= c ∧ c <= INT_MAX ∧
    c * (W / 8) < 2 ^ W.
Proof.
  intros HW Hc Ht. destruct (compute_growth_run W HW target current Hc Ht) as (c & Hr & [? ?] & ?).
  exists c. split; [done|]. split; [done|]. split; [done|].
  clear Hc Hr. destruct HW as [-> | ->].
  - change (max_nodes 32) with 1073741823 in *. change INT_MAX with 2147483647.
    change (32 / 8) with 4. lia.
  - change (max_nodes 64) with 2147483647 in *. change INT_MAX with 2147483647.
    change (64 / 8) with 8. lia.
Qed.

Lemma growth_bounds_witness :
  ∃ c, compute_growth 32 (2 ^ 29) 5 = Some c ∧ 2 ^ 29 <= c ∧ 5 <= c ∧ c <= INT_MAX ∧ c * (32 / 8) < 2 ^ 32.
Proof. apply growth_bounds; [by left|split; vm_compute; discriminate|vm_compute; discriminate]. Defined.

(** A failed deep copy leaks nothing: when the copy function fails on an
    element, NULL is returned and the copies made before are given to the free
    function, the last first, each once. *)
Theorem deep_copy_failure m f s l1 x l2 :
  num s ≠ 0 → elements s = l1 ++ x :: l2 → Forall (copies f) l1 → ¬ copies f x →
  OPENSSL_sk_deep_copy true (Some m) f s = (None, filter (λ y, y ≠ 0) (reverse (copy_of f <$> l1))).
Proof.
  intros Hn He H1 Hx. unfold OPENSSL_sk_deep_copy. simpl.
  rewrite (proj2 (Z.eqb_neq (num s) 0)) by done. rewrite He, copy_elements_fail by done.
  by rewrite app_nil_r.
Qed.

Lemma deep_copy_failure_witness :
  OPENSSL_sk_deep_copy true (Some fresh1) (λ x, if x =? 20 then 0 else x + 1) stack1 = (None, [11; 31]).
Proof.
  apply (deep_copy_failure fresh1 (λ x, if x =? 20 then 0 else x + 1) stack1 [30; 10] 20 []);
    [done|reflexivity|by repeat constructor|intros H; by apply H].
Defined.
