(* ===== verification/EndpointSpec.v ===== *)
(** * What the endpoint promises

    The properties of the own code of the repository: the tasks of src/base,
    the congestion controller and the SRT endpoint of src/srt_net, with their
    applications to concrete inputs. *)
From stdpp Require Import sorting relations.
From Stdlib Require Import SpecFloat.
From S2P Require Import Prelude StdMap RunTask SrtCC SrtNet SrtNetThreads.
Open Scope Z_scope.

(** ** Tasks *)

(** A task runs once: called with a clock that may do anything, a new task
    runs at the first call that is at least the [N]th and at least [T] after
    the first call, and at no other. *)
Theorem task_runs_once T N now nows :
  0 < N ∨ 0 < T →
  let r := (calls (now :: nows) (RunTask_time T N)).1 in
  r = fires T N now 0 (now :: nows) ∧ (length (filter (λ b, b = true) r) <= 1)%nat.
Proof. intros H r. unfold r. rewrite calls_fresh by done. split; [done|apply fires_count]. Qed.

Lemma task_runs_once_witness :
  let r := (calls [1; 5; 9; 12; 30] (RunTask_time 8 2)).1 in
  r = [false; false; true; false; false] ∧ (length (filter (λ b, b = true) r) <= 1)%nat.
Proof. apply (task_runs_once 8 2 1 [5; 9; 12; 30]). lia. Defined.

(** [reset] does not restart the interval: the task of the congestion
    controller, reset after every run, stays silent for the first interval
    [T]; from then on it runs at every call, because the start point is kept,
    instead of once per interval. *)
Theorem reset_keeps_start T now early late :
  0 < T → Forall (λ x, x - now < T) early → Forall (λ x, T <= x - now) late →
  (calls_reset (now :: early ++ late) (RunTask_time T 1)).1 =
    replicate (S (length early)) false ++ replicate (length late) true.
Proof.
  intros HT He Hl. destruct (first_interval T now early HT He) as [Hr (k & now0 & Hk & Hrun & Hlt)].
  rewrite app_comm_cons, calls_reset_app, Hr. cbn [fst snd].
  rewrite (reset_runs _ _ _ _ _ _ HT Hk Hrun Hlt Hl). done.
Qed.

Lemma reset_keeps_start_witness :
  (calls_reset [0; 100; 250; 299; 300; 301; 302; 900] (RunTask_time 300 1)).1 =
    [false; false; false; false; true; true; true; true].
Proof.
  apply (reset_keeps_start 300 0 [100; 250; 299] [300; 301; 302; 900]);
    [lia|by repeat constructor|repeat constructor; lia].
Defined.

(** A task without a duration never runs by [doByTimeOrCount]: the missing
    duration counts as reached, so that the function returns before the first
    call is counted, and no call changes the task. *)
Theorem or_without_time_never_runs N now1 now2 k :
  let t := Nat.iter k (λ t, (doByTimeOrCount now1 now2 t).2) (RunTask_count N) in
  doByTimeOrCount now1 now2 t = (false, RunTask_count N).
Proof.
  assert (doByTimeOrCount now1 now2 (RunTask_count N) = (false, RunTask_count N)) as H.
  { unfold doByTimeOrCount. cbn [checkTimeDone RunTask_count run_max_time_]. by rewrite orb_true_r. }
  intros t. assert (t = RunTask_count N) as ->; [|done].
  unfold t. induction k as [|k IH]; [done|]. simpl. by rewrite IH, H.
Qed.

(** ** The congestion controller *)

(** The schedule of the controller: after [k] samples the minimal round
    trip is the least of the last six samples that completed a window (100 ms
    before the first one, never under 35 ms), the history of states has grown
    by one per window and was never emptied, and the decision is to keep the
    bitrate unless [k] is a multiple of six and six windows are over. *)
Theorem controller_schedule ps c :
  tasks ps cc_init = Some c →
  let k := length ps in
  rtt_min_ c = (if (k <? 6)%nat then 100 else min_element (last_window (rtt_samples ps))) ∧
  length (state_array_ c) = (k / 6)%nat ∧
  ((k mod 6 ≠ 0 ∨ k < 36)%nat → congestion_state_ c = STATE_KEEP).
Proof.
  intros H. destruct (tasks_run ps cc_init [] [] c cc_init_inv) as (bs & Hinv & Hk); try done.
  assert (length (rtt_samples ps) = length ps) as Hl by apply length_fmap.
  simpl in Hinv, Hk |- *. split; [|split; [|done]].
  - rewrite (ci_rtt_min _ _ _ Hinv), Hl. done.
  - by rewrite (ci_states _ _ _ Hinv), Hl.
Qed.

Definition perf1 (rtt : Z) : perf :=
  {| pktFlightSize := 10; mbpsSendRate := of_int 4; msRTT := of_int rtt |}.
Definition perfs1 : list perf := map perf1 [50; 40; 20; 60; 70; 80; 10].

Lemma controller_schedule_witness : ∃ c, tasks perfs1 cc_init = Some c ∧
  rtt_min_ c = 35 ∧ length (state_array_ c) = 1%nat ∧ congestion_state_ c = STATE_KEEP.
Proof.
  eexists. split; [vm_compute; reflexivity|].
  edestruct (controller_schedule perfs1) as (H1 & H2 & H3); [vm_compute; reflexivity|].
  split; [exact H1|]. split; [exact H2|]. apply H3. right. simpl. lia.
Defined.

Definition sum (l : list Z) : Z := foldr Z.add 0 l.

Lemma i32_add_l a x : i32 (i32 a + x) = i32 (a + x).
Proof.
  unfold i32. f_equal.
  replace ((a + 2 ^ 31) mod 2 ^ 32 - 2 ^ 31 + x + 2 ^ 31) with ((a + 2 ^ 31) mod 2 ^ 32 + x) by lia.
  rewrite Zplus_mod_idemp_l. f_equal. lia.
Qed.

Lemma accumulate_int_sum l : accumulate_int l = i32 (sum l).
Proof.
  unfold accumulate_int.
  assert (∀ acc, foldl (λ acc x, i32 (acc + x)) (i32 acc) l = i32 (acc + sum l)) as H.
  { induction l as [|x l IH]; intros acc; simpl; [by rewrite Z.add_0_r|].
    rewrite i32_add_l, IH. f_equal. lia. }
  specialize (H 0). rewrite Z.add_0_l in H. exact H.
Qed.

(** The average after six samples. *)
Lemma updateMaxBW_average a x c c' :
  bw_array_ c = a → length a = 5%nat → updateMaxBW x c = Some c' →
  avg_bw_ c' = u64 (i32 (sum (a ++ [x]))) / 6.
Proof.
  intros Ha Hl. unfold updateMaxBW. rewrite Ha.
  assert (length (a ++ [x]) = 6%nat) as -> by (rewrite length_app, Hl; done).
  change (BW_LIST_MAX <=? 6)%nat with true. cbv iota zeta.
  destruct (to_uint64 _); [|done]. cbn [mbind option_bind]. intros [= <-]. simpl.
  by rewrite accumulate_int_sum.
Qed.

(** The average bandwidth is accumulated in an [int]: after the sixth
    sample of a window the average kept is the average of the six exactly when
    their sum is below [2^31], that is at most 357 Mbit/s each. *)
Theorem average_bandwidth a x c c' :
  bw_array_ c = a → length a = 5%nat → Forall (λ b, 0 <= b < 2 ^ 50) (a ++ [x]) →
  updateMaxBW x c = Some c' →
  avg_bw_ c' = sum (a ++ [x]) / 6 ↔ sum (a ++ [x]) < 2 ^ 31.
Proof.
  intros Ha Hl Hb Hrun. rewrite (updateMaxBW_average a x c c' Ha Hl Hrun).
  assert (0 <= sum (a ++ [x]) < 6 * 2 ^ 50) as Hs.
  { destruct a as [|a1 [|a2 [|a3 [|a4 [|a5 [|]]]]]]; try done. rewrite !Forall_app, !Forall_cons in Hb.
    simpl. lia. }
  set (S := sum (a ++ [x])) in *. clearbody S. clear -Hs. unfold i32, u64.
  destruct (decide (S < 2 ^ 31)) as [Hlt|Hge].
  - rewrite (Z.mod_small (S + 2 ^ 31)), (Z.mod_small (_ - _)) by lia.
    replace (S + 2 ^ 31 - 2 ^ 31) with S by lia. done.
  - split; [|done]. intros He. exfalso.
    pose proof (Z.div_mod (S + 2 ^ 31) (2 ^ 32) ltac:(lia)).
    pose proof (Z.mod_pos_bound (S + 2 ^ 31) (2 ^ 32) ltac:(lia)).
    assert (1 <= (S + 2 ^ 31) / 2 ^ 32) by (apply Z.div_le_lower_bound; lia).
    set (m := (S + 2 ^ 31) mod 2 ^ 32) in *. set (q := (S + 2 ^ 31) / 2 ^ 32) in *. clearbody m q.
    destruct (decide (m - 2 ^ 31 < 0)) as [Hneg|Hpos].
    + rewrite <- (Z.mod_add _ 1), (Z.mod_small) in He by lia.
      pose proof (Z.div_mod (m - 2 ^ 31 + 1 * 2 ^ 64) 6 ltac:(lia)).
      pose proof (Z.mod_pos_bound (m - 2 ^ 31 + 1 * 2 ^ 64) 6 ltac:(lia)).
      pose proof (Z.mul_div_le S 6 ltac:(lia)). lia.
    + rewrite Z.mod_small in He by lia.
      pose proof (Z.div_mod (m - 2 ^ 31) 6 ltac:(lia)). pose proof (Z.mod_pos_bound (m - 2 ^ 31) 6 ltac:(lia)).
      pose proof (Z.div_mod S 6 ltac:(lia)). pose proof (Z.mod_pos_bound S 6 ltac:(lia)). lia.
Qed.

(** Five samples of 400 Mbit/s. *)
Definition cc_fast : SrtCongestionCtrl := set_bw (replicate 5 400000000) 0 0 false cc_init.
Definition cc_fast' : SrtCongestionCtrl := default cc_init (updateMaxBW 400000000 cc_fast).

Lemma average_bandwidth_witness :
  avg_bw_ cc_fast' = 3074457345302430720 ∧ avg_bw_ cc_fast' ≠ 400000000.
Proof.
  split; [vm_compute; reflexivity|]. intros H.
  assert (updateMaxBW 400000000 cc_fast = Some cc_fast') as Hrun by (vm_compute; reflexivity).
  pose proof (proj1 (average_bandwidth (replicate 5 400000000) 400000000 cc_fast cc_fast' eq_refl eq_refl
    ltac:(repeat constructor; lia) Hrun) H) as Hc.
  revert Hc. vm_compute. discriminate.
Defined.

(** ** The SRT endpoint *)

(** Starting a server: it succeeds only on an idle object with a
    [clientConnected] callback, after creating a socket, setting every option,
    binding it to the address, listening and starting the worker, in this
    order; when it fails no thread was started, the object is still idle and
    the socket it created was closed, unless the failing call was one that sets
    an option: then the socket is lost. *)
Theorem start_server ip port reorder latency overhead mtu psk ctx n tr ok n' :
  does (startServer ip port reorder latency overhead mtu psk ctx n) tr (ok, n') →
  if ok then
    current_mode_ n = unknown ∧ has_clientConnected n = true ∧
    current_mode_ n' = server ∧ server_active_ n' = true ∧ client_list_ n' = client_list_ n ∧
    ∃ probe t, Forall (is_probe ip) probe ∧ (t = AF_INET ∨ t = AF_INET6) ∧
      tr.*1 = probe.*1 ++ [srt_create_socket; inet_pton t ip] ++
              (option_call (context_ n') <$> server_options reorder latency overhead mtu psk) ++
              [srt_bind (context_ n') t ip port; srt_listen (context_ n') 2; start_thread Worker]
  else
    current_mode_ n' = current_mode_ n ∧ server_active_ n' = server_active_ n ∧
    only (λ c, ∀ t, c ≠ start_thread t) tr ∧
    (current_mode_ n ≠ unknown ∨ has_clientConnected n = false → Forall (is_probe ip) tr ∧ n' = n) ∧
    (∀ s, leaks s tr → ∃ o, last tr = Some (option_call s o, SRT_ERROR)).
Proof.
  destruct ok; intros H.
  - apply server_started in H as (? & ? & ? & ? & _ & ? & _ & _ & ?). done.
  - by eapply server_refused.
Qed.

Definition net1 : SRTNet :=
  {| server_active_ := false; client_active_ := false; context_ := 0; current_mode_ := unknown;
     client_list_ := ∅; client_context_ := None; connection_context_ := None;
     has_clientConnected := true; has_clientDisconnected := true; worker_joinable := false;
     event_joinable := false |}.

(** The calls and the result of [startServer] when the library answers [z]. *)
Definition start1 (answers : list Z) : (bool * SRTNet) * list (net_call * Z) :=
  default ((false, net1), []) (run (startServer [49] 9000 20 120 25 1316 [] (Some 7) net1) answers).

(** The third option fails: socket 42 is lost. *)
Lemma start_server_witness :
  leaks 42 (start1 [1; 42; 1; 0; 0; -1]).2 ∧
  ∃ o, last (start1 [1; 42; 1; 0; 0; -1]).2 = Some (option_call 42 o, SRT_ERROR).
Proof.
  assert (leaks 42 (start1 [1; 42; 1; 0; 0; -1]).2) as Hl.
  { split; [|split; [discriminate|]].
    - vm_compute. repeat (apply elem_of_cons; (left; reflexivity) || right).
    - intros H. vm_compute in H.
      repeat (apply elem_of_cons in H as [H|H]; [discriminate|]). by apply not_elem_of_nil in H. }
  split; [exact Hl|].
  apply (start_server [49] 9000 20 120 25 1316 [] (Some 7) net1 (start1 [1; 42; 1; 0; 0; -1]).2 false
    (start1 [1; 42; 1; 0; 0; -1]).1.2); [vm_compute; reflexivity|exact Hl].
Defined.

(** Starting a client: it succeeds only on an idle object, after setting
    every option on a new socket, resolving the host and connecting to the
    first address that answers, the addresses being tried in their order; when
    it fails the object is still idle, no thread was started, and the socket
    was closed, unless setting an option or resolving the host failed. *)
Theorem start_client host port reorder latency overhead ctx mtu psk addrs n tr ok n' :
  does (startClient host port reorder latency overhead ctx mtu psk addrs n) tr (ok, n') →
  if ok then
    current_mode_ n = unknown ∧ current_mode_ n' = client ∧ client_active_ n' = true ∧
    (addrs ≠ [] → ∃ pre a post, addrs = pre ++ a :: post ∧
      tr.*1 = [srt_create_socket] ++
              (option_call (context_ n') <$> client_options reorder latency overhead mtu psk) ++
              [getaddrinfo host port] ++ (srt_connect (context_ n') <$> (pre ++ [a])) ++
              [freeaddrinfo; start_thread Worker])
  else
    current_mode_ n' = current_mode_ n ∧ client_active_ n' = client_active_ n ∧
    only (λ c, ∀ t, c ≠ start_thread t) tr ∧
    (current_mode_ n ≠ unknown → tr = [] ∧ n' = n) ∧
    (∀ s, leaks s tr → (∃ o, last tr = Some (option_call s o, SRT_ERROR)) ∨
                       ∃ r, r ≠ 0 ∧ last tr = Some (getaddrinfo host port, r)).
Proof.
  destruct ok; intros H.
  - apply client_started in H as (? & ? & ? & _ & _ & _ & ?). done.
  - by eapply client_refused.
Qed.

Definition client1 (answers : list Z) : (bool * SRTNet) * list (net_call * Z) :=
  default ((false, net1), [])
    (run (startClient [49] 9000 20 120 25 (Some 7) 1316 [115] [1001; 1002; 1003] net1) answers).

(** The second of three addresses answers. *)
Lemma start_client_witness :
  let r := client1 [42; 0; 0; 0; 0; 0; 0; 0; 0; -1; 5; 0; 0] in
  r.1.1 = true ∧ ∃ pre a post, [1001; 1002; 1003] = pre ++ a :: post ∧
    r.2.*1 = [srt_create_socket] ++ (option_call 42 <$> client_options 20 120 25 1316 [115]) ++
             [getaddrinfo [49] 9000] ++ (srt_connect 42 <$> (pre ++ [a])) ++
             [freeaddrinfo; start_thread Worker].
Proof.
  intros r. split; [vm_compute; reflexivity|].
  apply (start_client [49] 9000 20 120 25 (Some 7) 1316 [115] [1001; 1002; 1003] net1 r.2 true r.1.2);
    [vm_compute; reflexivity|done].
Defined.

(** Stopping: [stop] succeeds unless closing the socket of the object
    fails, and then nothing else was done but taking the active flag down.  A
    server that stops closes every client in its list once, telling the
    callback each time, empties the list, joins its threads and is idle
    again. *)
Theorem stop_server n tr ok n' :
  current_mode_ n = server → does (stop n) tr (ok, n') →
  if ok then
    current_mode_ n' = unknown ∧ server_active_ n' = false ∧ client_list_ n' = ∅ ∧
    ∃ l, l ≡ₚ map_to_list (client_list_ n) ∧
      tr.*1 = close_calls n ++ notices (has_clientDisconnected n) l ++
              joins Worker (worker_joinable n) ++ joins Event (event_joinable n)
  else
    current_mode_ n' = server ∧ client_list_ n' = client_list_ n ∧
    tr = [(srt_close (context_ n), SRT_ERROR)].
Proof.
  intros Hm. destruct ok; intros H.
  - apply server_stopped in H as (? & ? & ? & _ & _ & ?); [|done].
    split; [done|]. split; [done|]. split; [done|].
    exists (in_order (client_list_ n)). split; [apply in_order_perm|done].
  - apply stop_refused in H as (_ & -> & ? & ?). done.
Qed.

Definition net2 : SRTNet := set_clients {[ 5 := 50; 3 := 30 ]} (set_state true false 42 server net1).

Lemma stop_server_witness :
  ∃ l, l ≡ₚ map_to_list (client_list_ net2) ∧
    [srt_close 42; srt_close 3; clientDisconnected 30 3; srt_close 5; clientDisconnected 50 5] =
    [srt_close 42] ++ notices true l.
Proof.
  pose (tr := [(srt_close 42, 0); (srt_close 3, 0); (clientDisconnected 30 3, 0); (srt_close 5, 0);
               (clientDisconnected 50 5, 0)]).
  destruct (stop_server net2 tr true (set_threads false false (set_state false false 42 unknown
    (set_clients ∅ net2))) eq_refl) as (_ & _ & _ & l & Hl & Htr); [vm_compute; reflexivity|].
  exists l. split; [exact Hl|]. change (close_calls net2) with [srt_close 42] in Htr.
  simpl in Htr. rewrite app_nil_r in Htr. exact Htr.
Defined.

(** Sending: data goes to the connected server in client mode and to the
    socket given in server mode, only while the mode is active, in one
    [srt_sendmsg2] call; the answer is [true] exactly when the library took
    all of it. *)
Theorem send_data data target n tr ok :
  does (sendData data target n) tr ok →
  let sock := match current_mode_ n with
              | client => if negb (context_ n =? 0) && client_active_ n then Some (context_ n) else None
              | server => if negb (target =? 0) && server_active_ n then Some target else None
              | unknown => None end in
  match sock with
  | Some s => ∃ r, tr = [(srt_sendmsg2 s data, r)] ∧
                   (ok = true ↔ r ≠ SRT_ERROR ∧ u64 r = Z.of_nat (length data))
  | None => tr = [] ∧ ok = false
  end.
Proof. apply sendData_calls. Qed.

Lemma send_data_witness :
  ∃ r, [(srt_sendmsg2 5 [1; 2; 3], 2)] = [(srt_sendmsg2 5 [1; 2; 3], r)] ∧
       (false = true ↔ r ≠ SRT_ERROR ∧ u64 r = 3).
Proof. apply (send_data [1; 2; 3] 5 net2 [(srt_sendmsg2 5 [1; 2; 3], 2)] false). vm_compute. reflexivity. Defined.

(** ** The threads of the server *)

(** C22. What the callbacks see, in every interleaving of the accepting thread,
    the event thread and [stop], restarts included, and whatever numbers the
    library gives to the sockets: data with a context, and the end of a client,
    are told only for an announcement (socket and context) whose end was not
    told before; data without a context ([iterator->second] at [end()], which
    is undefined in the code) is delivered only for a socket that was never
    announced, is the one announced last, or was told an end.  When no number was
    announced twice, data with a context and the end come between the
    announcement and the end of that client, with the context of the
    announcement, and the end comes at most once. *)
Theorem callbacks_in_order s :
  reachable s → log_ok (log s) ∧ (NoDup (announced (log s)) → log_once (log s)).
Proof. intros H. pose proof (co_log s (proj1 (reachable_inv s H))). split; [done|by apply log_ok_once]. Qed.

(** A run: client 5 is accepted, sends, and goes away. *)
Definition served (s : server_st) : Prop :=
  log s = [Disconnected 5 50; Received 5 (Some 50); Connected 5 50].
Lemma served_reachable : ∃ s, reachable s ∧ served s.
Proof.
  eexists. split.
  { eapply rtc_l; [by eapply w_start|]. eapply rtc_l; [by eapply w_clear|].
    eapply rtc_l; [by eapply w_active|].
    eapply rtc_l; [by eapply (w_accept _ 5 50)|].
    eapply rtc_l; [by eapply w_insert|].
    eapply rtc_l; [by eapply e_active|]. eapply rtc_l; [by eapply (e_ready _ [5; 5])|].
    eapply rtc_l; [by eapply (e_recv _ 5 100)|]. eapply rtc_l; [by eapply e_handle|].
    eapply rtc_l; [by eapply (e_recv _ 5 SRT_ERROR)|]. eapply rtc_l; [by eapply e_handle|].
    apply rtc_refl. }
  vm_compute. reflexivity.
Qed.

(** The library gives the number again: another client, with another context. *)
Definition served_again (s : server_st) : Prop :=
  log s = [Received 5 (Some 51); Connected 5 51; Disconnected 5 50; Received 5 (Some 50); Connected 5 50].
Lemma served_again_reachable : ∃ s, reachable s ∧ served_again s.
Proof.
  eexists. split.
  { eapply rtc_l; [by eapply w_start|]. eapply rtc_l; [by eapply w_clear|].
    eapply rtc_l; [by eapply w_active|]. eapply rtc_l; [by eapply (w_accept _ 5 50)|].
    eapply rtc_l; [by eapply w_insert|].
    eapply rtc_l; [by eapply e_active|]. eapply rtc_l; [by eapply (e_ready _ [5; 5; 5])|].
    eapply rtc_l; [by eapply (e_recv _ 5 100)|]. eapply rtc_l; [by eapply e_handle|].
    eapply rtc_l; [by eapply (e_recv _ 5 SRT_ERROR)|]. eapply rtc_l; [by eapply e_handle|].
    eapply rtc_l; [by eapply w_active|]. eapply rtc_l; [by eapply (w_accept _ 5 51)|].
    eapply rtc_l; [by eapply w_insert|].
    eapply rtc_l; [by eapply (e_recv _ 5 100)|]. eapply rtc_l; [by eapply e_handle|].
    apply rtc_refl. }
  vm_compute. reflexivity.
Qed.

Lemma callbacks_in_order_witness :
  (∃ s, served s ∧ log_ok (log s) ∧ (NoDup (announced (log s)) → log_once (log s))) ∧
  (∃ s, served_again s ∧ log_ok (log s)).
Proof.
  split.
  - destruct served_reachable as (s & Hr & Hs). exists s. split; [exact Hs|exact (callbacks_in_order s Hr)].
  - destruct served_again_reachable as (s & Hr & Hs). exists s. split; [exact Hs|exact (proj1 (callbacks_in_order s Hr))].
Defined.

(** What [stop] leaves: when it has returned, both threads have ended and
    every announced socket has been told an end, except at most one, which is
    still in the list (its socket stays open). *)
Theorem stop_leaves_at_most_one s :
  reachable s → stopper s = SDone →
  worker s = WDone ∧ event s = EDone ∧ (size (clients s) ≤ 1)%nat ∧
  ∀ sock ctx, Connected sock ctx ∈ log s →
    is_Some (clients s !! sock) ∨ ∃ c, Disconnected sock c ∈ log s.
Proof.
  intros Hr Hs. destruct (reachable_inv s Hr) as [Hco Hct]. destruct Hct as [_ Hw He _ Hl].
  rewrite Hs in Hw, He, Hl. split; [done|]. split; [done|]. split; [lia|].
  intros sock ctx Hin. destruct (co_ended _ Hco sock ctx Hin) as [?|[[c Hc]|?]]; [by left|by rewrite Hw in Hc|by right].
Qed.

(** A client accepted while [stop] empties the list. *)
Lemma left_behind :
  ∃ s, reachable s ∧ stopper s = SDone ∧ clients s = {[ 5 := 50 ]} ∧ log s = [Connected 5 50].
Proof.
  eexists. split.
  { eapply rtc_l; [by eapply w_start|]. eapply rtc_l; [by eapply w_clear|].
  eapply rtc_l; [by eapply w_active|].
  eapply rtc_l; [by eapply s_begin|]. eapply rtc_l; [by eapply s_close|]. eapply rtc_l; [by eapply s_clear|].
  eapply rtc_l; [by eapply (w_accept _ 5 50)|].
  eapply rtc_l; [by eapply w_insert|]. eapply rtc_l; [by eapply w_exit|].
  eapply rtc_l; [by eapply s_join_worker|]. eapply rtc_l; [by eapply e_exit|].
  eapply rtc_l; [by eapply s_join_event|]. apply rtc_refl. }
  repeat split; vm_compute; reflexivity.
Qed.

(** Data read just before the list is emptied. *)
Lemma end_iterator : ∃ s, reachable s ∧ log s = [Received 5 None; Disconnected 5 50; Connected 5 50].
Proof.
  eexists. split.
  { eapply rtc_l; [by eapply w_start|]. eapply rtc_l; [by eapply w_clear|].
  eapply rtc_l; [by eapply w_active|].
  eapply rtc_l; [by eapply (w_accept _ 5 50)|].
  eapply rtc_l; [by eapply w_insert|].
  eapply rtc_l; [by eapply e_active|]. eapply rtc_l; [by eapply (e_ready _ [5])|].
  eapply rtc_l; [by eapply (e_recv _ 5 100)|].
  eapply rtc_l; [by eapply s_begin|]. eapply rtc_l; [by eapply s_close|]. eapply rtc_l; [by eapply s_clear|].
  eapply rtc_l; [by eapply e_handle|]. apply rtc_refl. }
  repeat split; vm_compute; reflexivity.
Qed.

Lemma stop_leaves_at_most_one_witness : ∃ s, clients s = {[ 5 := 50 ]} ∧
  worker s = WDone ∧ event s = EDone ∧ (size (clients s) ≤ 1)%nat.
Proof.
  destruct left_behind as (s & Hr & Hs & Hc & _). exists s. split; [exact Hc|].
  destruct (stop_leaves_at_most_one s Hr Hs) as (Hw & He & Hn & _). exact (conj Hw (conj He Hn)).
Defined.

(** [stop] can leave a client behind, and the event thread can run into
    undefined behaviour: a client accepted while [stop] empties the list
    stays in it after [stop] has returned, and data read just before the list
    is emptied is delivered through an iterator that is at the end. *)
Theorem stop_races :
  (∃ s, reachable s ∧ stopper s = SDone ∧ clients s = {[ 5 := 50 ]} ∧ log s = [Connected 5 50]) ∧
  (∃ s, reachable s ∧ log s = [Received 5 None; Disconnected 5 50; Connected 5 50]).
Proof. split; [exact left_behind|exact end_iterator]. Qed.

(** [stop] can always complete: once it has started, whatever the two
    threads are doing, there is a way for them to end and for [stop] to
    return. *)
Theorem stop_completes s :
  reachable s → stopper s ≠ SIdle → ∃ s', rtc step s s' ∧ stopper s' = SDone.
Proof. intros Hr. apply stop_ends, reachable_inv, Hr. Qed.

(** [stop] is called while a client is being accepted. *)
Lemma accepting : ∃ s, reachable s ∧ stopper s = SClosing ∧ worker s = WInsert 5 50.
Proof.
  eexists. split.
  { eapply rtc_l; [by eapply w_start|]. eapply rtc_l; [by eapply w_clear|].
  eapply rtc_l; [by eapply w_active|].
  eapply rtc_l; [by eapply (w_accept _ 5 50)|].
  eapply rtc_l; [by eapply s_begin|]. apply rtc_refl. }
  repeat split; vm_compute; reflexivity.
Qed.

Lemma stop_completes_witness : ∃ s s', worker s = WInsert 5 50 ∧ rtc step s s' ∧ stopper s' = SDone.
Proof.
  destruct accepting as (s & Hr & Hs & Hw).
  destruct (stop_completes s Hr) as (s' & Hrun & Hd); [rewrite Hs; discriminate|].
  exists s, s'. exact (conj Hw (conj Hrun Hd)).
Defined.
