(* ===== verification/MpegTsSpec.v ===== *)
(** * What the MPEG-TS muxer and demuxer promise

    The properties of src/3rd/mpegts and src/simple: the packets the muxer
    makes, the tables, and what a demuxer at the other end is handed, with
    their applications to concrete inputs. *)
From S2P Require Import Prelude StdMap TsBuffer TsPacket TsMux TsMuxFacts TsDemux TsDemuxFacts.

(** ** From the muxer to the demuxer *)

(** The events of a stream that starts with tables, cut in any way. *)
Lemma pieces_of_stream uninit m gs ras d :
  mux_ok m → has_tsOut m = true → mStreamPidMap m ≠ ∅ → mMuxType m = h222Type → mCurrentIndex m = 0 →
  gs ≠ [] → length ras = length gs → Forall (λ g, frame_ok g ∧ streamed m g) gs →
  untuned d → dm_mRestData d = SimpleBuffer_new →
  ∃ i cc outs,
    encode_all m (zip gs ras) = Some (with_counters i cc m, outs) ∧
    let d1 := learn_pmt uninit m (learn_pat m d) in
    ∀ chunks, concat chunks = out_bytes outs →
      decode_pieces uninit d chunks = Some (holding [] (receive_all m d1 gs).1, (receive_all m d1 gs).2).
Proof.
  intros Hm Ho Hs Hty Hix Hne Hl Hgs Hun Hrest.
  assert (Hfst : (zip gs ras).*1 = gs) by (apply fst_zip; lia).
  destruct (encode_all_demuxes uninit (zip gs ras) m d (learn_pmt uninit m (learn_pat m d)))
    as (i & cc & outs & ps & Hrun & Hout & Hdm); try done.
  - rewrite <- Hfst in Hgs. by apply Forall_fmap in Hgs.
  - by apply learn_synced.
  - right. split_and!; [done| |done]. destruct gs as [|g gs]; [done|]. destruct ras as [|ra ras]; [done|].
    simpl. unfold sends_tables. by rewrite Hty, Hix.
  - exists i, cc, outs. split; [done|]. intros d1 chunks Hc. rewrite Hfst in Hdm.
    assert (E : holding [] d = d) by (unfold holding; destruct d; simpl in *; by subst).
    rewrite <- E at 1. eapply (decode_pieces_demuxes uninit chunks d ps _ _ []); try done.
    + simpl. by rewrite Hc, Hout.
    + simpl. lia.
Qed.

(** C18. Frames that go through a muxer with streams, of the type H.222, before its first
    packet, each for one of its streams, come out of a new demuxer, in order and with their data, whatever pieces the stream is cut into, when
    each frame has data, has fields within their widths, a stream type and time stamps of
    33 bits ([frame_ok]), and its PES packet has a length of 16 bits, that is, at most
    65535 bytes ([fits]): PID, stream id, random access indicator and data are those of the
    frame sent, the time stamps are its low 32 bits of 33.  The first output
    starts with the tables, so that no frame is missed; each frame is handed
    out with its own last packet and not as broken.  A longer frame does not
    ([long_frame_broken]). *)
Theorem ts_stream_roundtrip uninit m gs ras d :
  mux_ok m → has_tsOut m = true → mStreamPidMap m ≠ ∅ → mMuxType m = h222Type → mCurrentIndex m = 0 →
  gs ≠ [] → length ras = length gs →
  Forall (λ g, frame_ok g ∧ streamed m g ∧ fits g = true) gs →
  untuned d → dm_mRestData d = SimpleBuffer_new → has_esOut d = true →
  ∃ m' outs d' evs,
    encode_all m (zip gs ras) = Some (m', outs) ∧
    frames_out evs = map sent gs ∧ size (dm_mRestData d') = 0 ∧
    (∀ chunks, concat chunks = out_bytes outs → decode_pieces uninit d chunks = Some (d', evs)).
Proof.
  intros Hm Ho Hs Hty Hix Hne Hl Hgs Hun Hrest Hes.
  destruct (pieces_of_stream uninit m gs ras d) as (i & cc & outs & Hrun & Hpieces); try done.
  { eapply Forall_impl; [exact Hgs|]. intros g. naive_solver. }
  eexists (with_counters i cc m), outs, _, _. split; [done|]. split; [|split; [|exact Hpieces]]; [|done].
  apply receive_all_frames; [by apply learn_synced|done|by apply learn_empty|done].
Qed.

(** A frame of [n] bytes of a stream. *)
Definition demo_frame (pid t sid pts dts ra : Z) (n : nat) : EsFrame := {|
  es_mData := append (map (λ i, Z.of_nat i mod 251) (seq 1 n)) SimpleBuffer_new;
  es_mPts := pts; es_mDts := dts; es_mPcr := 0; es_mRandomAccess := ra; es_mStreamType := t;
  es_mStreamId := sid; es_mPid := pid; es_mExpectedPesPacketLength := 0;
  es_mExpectedPayloadLength := 0; es_mCompleted := true; es_mBroken := false |}.
Definition demo_mux : MpegTsMuxer :=
  with_tsOut (MpegTsMuxer_new {[0x1b := 256; 0x0f := 257]} 100 256 h222Type).
Definition demo_demux : MpegTsDemuxer := {|
  dm_mStreamPidMap := ∅; dm_mPmtId := 0; dm_mPatHeader := PATHeader_new; dm_mPatIsValid := false;
  dm_mPmtHeader := PMTHeader_new; dm_mPmtIsValid := false; dm_mEsFrames := ∅; dm_mPcrId := 0;
  dm_mRestData := SimpleBuffer_new; has_esOut := true; has_pcrOut := true |}.
Definition demo_frames : list EsFrame :=
  [demo_frame 256 0x1b 0xe0 9000 6000 1 700; demo_frame 257 0x0f 0xc0 (2 ^ 32 + 5) (2 ^ 32 + 5) 0 170;
   demo_frame 256 0x1b 0xe0 9001 9001 0 169].

Lemma demo_mux_ok : mux_ok demo_mux.
Proof.
  constructor; try (vm_compute; done); try (vm_compute; lia).
  apply (bool_decide_unpack _). vm_compute. exact I.
Qed.
Lemma demo_frame_ok pid t sid pts dts ra n :
  bool_decide (0 <= pid < 2 ^ 13 ∧ is_byte sid ∧ 0 <= ra < 2 ∧ 0 < Z.of_nat n < 2 ^ 30 ∧ 0 <= pts < 2 ^ 33 ∧
               0 <= dts < 2 ^ 33 ∧ t ≠ 0) = true →
  frame_ok (demo_frame pid t sid pts dts ra n).
Proof.
  intros H%bool_decide_eq_true_1. destruct H as (?&?&?&?&?&?&?).
  assert (Hs : size (es_mData (demo_frame pid t sid pts dts ra n)) = Z.of_nat n)
    by (unfold size; simpl; by rewrite length_map, length_seq).
  constructor; try done.
  - constructor; try done; try rewrite Hs; simpl; try lia.
  - simpl. destruct n; [lia|done].
Qed.

Lemma demo_streams : mStreamPidMap demo_mux ≠ ∅.
Proof. apply insert_non_empty. Qed.
Lemma demo_frames_ok : Forall (λ g, frame_ok g ∧ streamed demo_mux g ∧ fits g = true) demo_frames.
Proof.
  repeat constructor; try (by apply demo_frame_ok); [exists 0x1b|exists 0x0f|exists 0x1b]; reflexivity.
Qed.
Lemma demo_untuned : untuned demo_demux.
Proof. by constructor. Qed.

Lemma ts_stream_roundtrip_witness :
  ∃ m' outs d' evs,
    encode_all demo_mux (zip demo_frames [true; false; false]) = Some (m', outs) ∧
    frames_out evs = map sent demo_frames ∧ size (dm_mRestData d') = 0 ∧
    (∀ chunks, concat chunks = out_bytes outs →
       decode_pieces (demo_frame 0 0 0 0 0 0 0) demo_demux chunks = Some (d', evs)).
Proof.
  exact (ts_stream_roundtrip (demo_frame 0 0 0 0 0 0 0) demo_mux demo_frames [true; false; false] demo_demux
    demo_mux_ok eq_refl demo_streams eq_refl eq_refl ltac:(discriminate) eq_refl demo_frames_ok
    demo_untuned eq_refl eq_refl).
Defined.

(** *** The muxer of src/simple *)

(** A call of [encode]: the data, the time stamp, the stream type and the key
    frame flag. *)
Definition call : Type := bytes * Z * StreamType * bool.
Definition call_frame (uninit : EsFrame) (c : call) : EsFrame :=
  let '(data, dts_us, t, key) := c in simple_frame uninit data dts_us t key.
Fixpoint simple_all (uninit : EsFrame) (s : SimpleMpegtsMuxer) (l : list call)
    : option (SimpleMpegtsMuxer * list (bytes * bool)) :=
  match l with
  | [] => Some (s, [])
  | (data, dts_us, t, key) :: l =>
      '(s, out) ← SimpleMpegtsMuxer_encode uninit s data dts_us t key;
      '(s, outs) ← simple_all uninit s l;
      Some (s, out ++ outs)
  end.
(** Data that is not empty and fits the length field of PES, and a time stamp
    of 33 bits. *)
Definition call_ok (c : call) : Prop :=
  let '(data, dts_us, _, _) := c in
  data ≠ [] ∧ Z.of_nat (length data) + 8 <= 0xffff ∧ 0 <= dts_us < 2 ^ 33.
Definition call_sent (c : call) : frame_view :=
  let '(data, dts_us, t, key) := c in {|
    fv_pid := 256; fv_sid := media_value (getMediaType t); fv_pts := dts_us mod 2 ^ 32;
    fv_dts := dts_us mod 2 ^ 32; fv_ra := if key : bool then 1 else 0; fv_broken := false; fv_data := data |}.

Lemma simple_all_encode uninit l : ∀ s, has_output s = true →
  simple_all uninit s l =
  '(m, outs) ← encode_all (ts_muxer_ s) (map (λ c, (call_frame uninit c, false)) l);
  Some ({| ts_muxer_ := m; has_output := true |}, map (λ o, (mData o.1.1, o.2)) outs).
Proof.
  induction l as [|[[[data dts] t] key] l IH]; intros s Hs.
  - simpl. destruct s; simpl in *. by subst.
  - cbn [simple_all map encode_all call_frame]. unfold SimpleMpegtsMuxer_encode. rewrite Hs.
    destruct (MpegTsMuxer_encode _ _ 0 false) as [[[m g] out]|]; [|done]. cbn [mbind option_bind].
    rewrite IH by done. cbn [ts_muxer_].
    destruct (encode_all m _) as [[m' outs]|]; [|done]. cbn [mbind option_bind].
    by rewrite map_app.
Qed.

Lemma call_frame_ok uninit c : call_ok c →
  frame_ok (call_frame uninit c) ∧ fits (call_frame uninit c) = true ∧
  sent (call_frame uninit c) = call_sent c.
Proof.
  destruct c as [[[data dts] t] key]. intros (Hd & Hl & Ht).
  assert (Hs : size (append data SimpleBuffer_new) = Z.of_nat (length data)) by done.
  assert (Hok : es_ok (simple_frame uninit data dts t key)).
  { constructor; try done; cbn [simple_frame es_mData es_mStreamId es_mRandomAccess es_mPcr]; try rewrite Hs;
      try lia; [apply u8_is_byte|unfold bit; by destruct key|simpl; lia]. }
  assert (Hu : u64 dts = dts) by (apply u64_small; lia).
  assert (Hm : u8 (media_value (getMediaType t)) = media_value (getMediaType t)) by by destruct t.
  split_and!.
  - constructor; try done; cbn [call_frame simple_frame es_mPts es_mDts es_mStreamType]; rewrite ?Hu; try done.
    by destruct t.
  - unfold fits. rewrite pes_length by done. cbn [call_frame simple_frame es_mData]. rewrite Hs.
    assert (Hh : pes_hdl (simple_frame uninit data dts t key) = 5).
    { unfold pes_hdl, pes_two. cbn. by rewrite Z.eqb_refl. }
    cbn zeta. rewrite Hh, (proj2 (Z.ltb_ge _ _)) by lia. rewrite (proj2 (Z.eqb_neq _ _)); [done|lia].
  - unfold sent, call_sent. cbn [call_frame simple_frame es_mData es_mPid es_mStreamId es_mPts es_mDts
      es_mRandomAccess]. by rewrite Hu, Hm.
Qed.

Lemma stream_map_snoc l t :
  stream_map (l ++ [t]) =
  <[stream_value t := match getMediaType t with _VIDEO => VIDEO_PID | _ => AUDIO_PID end]> (stream_map l).
Proof. unfold stream_map. rewrite foldl_app. by destruct t. Qed.
Lemma stream_map_entries l :
  map_Forall (λ k pid, k ∈ [0x1b; 0x24; 0x0f; 0x12] ∧ (pid = 256 ∨ pid = 257)) (stream_map l).
Proof.
  induction l as [|t l IH] using rev_ind; [apply map_Forall_empty|].
  rewrite stream_map_snoc. apply map_Forall_insert_2; [|done].
  unfold VIDEO_PID, AUDIO_PID. destruct t; (split; [apply (bool_decide_unpack _); done|auto]).
Qed.
Lemma stream_map_video l t : t ∈ l → getMediaType t = _VIDEO → stream_map l !! stream_value t = Some VIDEO_PID.
Proof.
  induction l as [|t' l IH] using rev_ind; intros Hin Ht; [by apply not_elem_of_nil in Hin|].
  rewrite stream_map_snoc. destruct (decide (t = t')) as [<-|Hn].
  - by rewrite Ht, lookup_insert_eq.
  - apply elem_of_app in Hin as [Hin|Hin%list_elem_of_singleton]; [|by subst].
    rewrite lookup_insert_ne; [by apply IH|]. by destruct t, t'.
Qed.
Lemma stream_map_ok l i : mux_ok (with_tsOut (MpegTsMuxer_new (stream_map l) PMT_PID PCR_PID i)).
Proof.
  unfold PMT_PID, PCR_PID, VIDEO_PID. constructor; simpl; try lia.
  - intros k pid H. destruct (stream_map_entries l k pid H) as [Hk Hp]. split_and!; try lia.
    set_unfold in Hk. unfold is_byte. intuition lia.
  - rewrite <- size_dom.
    assert (dom (stream_map l) ⊆ list_to_set (C := gset Z) [0x1b; 0x24; 0x0f; 0x12]) as Hsub.
    { intros k [pid H]%elem_of_dom. apply elem_of_list_to_set. by destruct (stream_map_entries l k pid H). }
    apply subseteq_size in Hsub. etransitivity; [exact Hsub|]. vm_compute. lia.
Qed.

Lemma encode_flags m f tag ra m' f' out :
  MpegTsMuxer_encode m f tag ra = Some (m', f', out) → Forall (λ o, o.2 = ra) out.
Proof.
  unfold MpegTsMuxer_encode. intros ([m1 sb] & _ & H)%bind_Some.
  apply bind_Some in H as ([[m2 f2] sb2] & _ & H). simplify_eq.
  unfold ts_out. destruct (has_tsOut m'); by repeat constructor.
Qed.
Lemma encode_all_flags b gs : ∀ m m' outs,
  encode_all m gs = Some (m', outs) → Forall (λ g, g.2 = b) gs → Forall (λ o, o.2 = b) outs.
Proof.
  induction gs as [|[g ra] gs IH]; intros m m' outs Hrun Hgs; simpl in Hrun; [by simplify_eq|].
  apply Forall_cons in Hgs as [Hb Hgs]. simpl in Hb. subst ra.
  apply bind_Some in Hrun as ([[m1 g1] out1] & H1 & Hrun).
  apply bind_Some in Hrun as ([m2 outs2] & H2 & Hrun). simplify_eq.
  apply Forall_app. split; [by eapply encode_flags|by eapply IH].
Qed.

(** C14. What [SimpleMpegtsMuxer::encode] puts out, one piece for each call, is a
    stream from which a new demuxer recovers the frames, in order, whatever pieces it
    arrives in, when a video type is among the stream types and each frame has from 1 to
    65527 bytes and a time stamp of 33 bits ([call_ok]): the data, the stream id of its
    media type and the key frame indicator are those given to [encode]; both time stamps
    are the low 32 bits of the one given; all frames, audio too, come on PID 256; and the
    flag handed to the callback is always false.  Without a video type, or for a longer
    frame, it does not hold ([audio_alone_is_lost], [long_frame_broken]). *)
Theorem simple_muxer_roundtrip uninit uninit' types v l d :
  v ∈ types → getMediaType v = _VIDEO → l ≠ [] → Forall call_ok l →
  untuned d → dm_mRestData d = SimpleBuffer_new → has_esOut d = true →
  ∃ s0 s outs d' evs,
    SimpleMpegtsMuxer_new types = Some s0 ∧
    simple_all uninit (setOutputCallBack true s0) l = Some (s, outs) ∧
    Forall (λ o, o.2 = false) outs ∧ frames_out evs = map call_sent l ∧
    (∀ chunks, concat chunks = concat outs.*1 → decode_pieces uninit' d chunks = Some (d', evs)).
Proof.
  intros Hv Hvt Hne Hl Hun Hrest Hes.
  pose proof (stream_map_video types v Hv Hvt) as Hvm.
  assert (Hs : stream_map types ≠ ∅) by (intros E; by rewrite E in Hvm).
  set (m := with_tsOut (MpegTsMuxer_new (stream_map types) PMT_PID PCR_PID h222Type)).
  set (gs := map (call_frame uninit) l).
  assert (Hgs : Forall (λ g, frame_ok g ∧ streamed m g ∧ fits g = true) gs).
  { unfold gs. apply Forall_map. eapply Forall_impl; [exact Hl|]. intros c Hc.
    destruct (call_frame_ok uninit c Hc) as (H1 & H2 & _). split_and!; [done| |done].
    exists (stream_value v). destruct c as [[[? ?] ?] ?]. exact Hvm. }
  destruct (pieces_of_stream uninit' m gs (replicate (length l) false) d)
    as (i & cc & outs & Hrun & Hpieces); try done.
  - apply stream_map_ok.
  - unfold gs. by destruct l.
  - unfold gs. by rewrite length_replicate, length_map.
  - eapply Forall_impl; [exact Hgs|]. intros g. naive_solver.
  - assert (Hz : zip gs (replicate (length l) false) = map (λ c, (call_frame uninit c, false)) l).
    { unfold gs. clear. induction l as [|c l IH]; simpl; [done|]. by rewrite IH. }
    rewrite Hz in Hrun.
    eexists _, _, _, _, _. split; [unfold SimpleMpegtsMuxer_new; by rewrite (bool_decide_eq_false_2 _ Hs)|].
    split; [rewrite simple_all_encode by done; cbn [ts_muxer_ setOutputCallBack]; fold m; by rewrite Hrun|].
    split.
    + apply Forall_map. apply (encode_all_flags false _ _ _ _ Hrun). apply Forall_map. by apply Forall_true.
    + split.
      2: { intros chunks Hc. apply Hpieces. rewrite Hc. unfold out_bytes. f_equal. clear.
           by induction outs; f_equal/=. }
      destruct (receive_all_frames m gs (learn_pmt uninit' m (learn_pat m d))) as [-> _]; try done.
      * apply learn_synced; [apply stream_map_ok|done|done].
      * by apply learn_empty.
      * unfold gs. rewrite map_map. apply map_ext_Forall. eapply Forall_impl; [exact Hl|].
        intros c Hc'. by destruct (call_frame_ok uninit c Hc') as (_ & _ & ?).
Qed.

Definition demo_calls : list call :=
  [([1; 2; 3], 40000, _AVC, true); (map Z.of_nat (seq 0 500), 80000, _AAC, false)].
Lemma demo_calls_ok : Forall call_ok demo_calls.
Proof. repeat constructor; simpl; try lia; discriminate. Qed.

Lemma simple_muxer_roundtrip_witness :
  ∃ s0 s outs d' evs,
    SimpleMpegtsMuxer_new [_AAC; _AVC] = Some s0 ∧
    simple_all (demo_frame 0 0 0 0 0 0 0) (setOutputCallBack true s0) demo_calls = Some (s, outs) ∧
    Forall (λ o, o.2 = false) outs ∧ frames_out evs = map call_sent demo_calls ∧
    (∀ chunks, concat chunks = concat outs.*1 →
       decode_pieces (demo_frame 0 0 0 0 0 0 0) demo_demux chunks = Some (d', evs)).
Proof.
  refine (simple_muxer_roundtrip (demo_frame 0 0 0 0 0 0 0) (demo_frame 0 0 0 0 0 0 0) [_AAC; _AVC] _AVC
    demo_calls demo_demux _ eq_refl _ demo_calls_ok demo_untuned eq_refl eq_refl).
  - right. left.
  - discriminate.
Defined.

(** *** Long frames *)

(** A frame as it comes out when another one starts. *)
Definition sent_broken (g : EsFrame) (ra : Z) : frame_view := {|
  fv_pid := es_mPid g; fv_sid := es_mStreamId g; fv_pts := es_mPts g mod 2 ^ 32;
  fv_dts := es_mDts g mod 2 ^ 32; fv_ra := ra; fv_broken := true;
  fv_data := mData (es_mData g) |}.

Lemma receive_long m d g1 g2 f :
  dm_mEsFrames d !! es_mPid g1 = Some f → size (es_mData f) = 0 → has_esOut d = true →
  mData (es_mData g1) ≠ [] → es_mPid g2 = es_mPid g1 → fits g1 = false → fits g2 = true →
  frames_out (receive_all m d [g1; g2]).2 = [sent_broken g1 (es_mRandomAccess g2); sent g2].
Proof.
  intros Hf Hz Ho Hd Hpid H1 H2. cbn [receive_all]. unfold receive at 1. rewrite Hf. unfold receive_in. rewrite H1.
  set (d1 := dm_set_frame _ _ _). unfold receive. rewrite Hpid. unfold d1. rewrite set_frame_lookup.
  unfold receive_in. rewrite H2. cbn [snd]. rewrite !frames_out_app, !frames_out_pcr. unfold broken.
  rewrite Hz. change (0 =? 0) with true. cbn [frames_out app].
  set (fb := es_data _ _). assert (Hs : (size (es_mData fb) =? 0) = false).
  { apply Z.eqb_neq. unfold fb, size. simpl. destruct (mData (es_mData g1)); [done|simpl; lia]. }
  rewrite Hs. unfold es_out, dm_set_frame. cbn [has_esOut]. rewrite Ho. cbn [frames_out app].
  rewrite view_delivered. f_equal. unfold view, sent_broken. simpl. f_equal. unfold pes_two.
  by destruct (Z.eqb_spec (es_mPts g1) (es_mDts g1)) as [->|].
Qed.

(** A frame whose PES packet is longer than 65535 bytes has no length in its
    header; the demuxer does not hand it out with its last packet.  It comes
    out with the first packet of the next frame of its PID, complete, but as
    broken and with the random access indicator of that next frame. *)
Theorem long_frame_broken uninit m g1 g2 ra1 ra2 d :
  mux_ok m → has_tsOut m = true → mStreamPidMap m ≠ ∅ → mMuxType m = h222Type → mCurrentIndex m = 0 →
  frame_ok g1 → frame_ok g2 → streamed m g1 → es_mPid g2 = es_mPid g1 →
  pes_hdl g1 + size (es_mData g1) + 3 > 0xffff → pes_hdl g2 + size (es_mData g2) + 3 <= 0xffff →
  untuned d → dm_mRestData d = SimpleBuffer_new → has_esOut d = true →
  ∃ m' outs d' evs,
    encode_all m [(g1, ra1); (g2, ra2)] = Some (m', outs) ∧
    frames_out evs = [sent_broken g1 (es_mRandomAccess g2); sent g2] ∧
    (∀ chunks, concat chunks = out_bytes outs → decode_pieces uninit d chunks = Some (d', evs)).
Proof.
  intros Hm Ho Hs Hty Hix Hg1 Hg2 [t Ht] Hpid Hl1 Hl2 Hun Hrest Hes.
  assert (H1 : fits g1 = false).
  { unfold fits. rewrite pes_length by apply Hg1. cbn zeta. by rewrite (proj2 (Z.ltb_lt _ _)) by lia. }
  assert (H2 : fits g2 = true).
  { unfold fits. rewrite pes_length by apply Hg2. cbn zeta. rewrite (proj2 (Z.ltb_ge _ _)) by lia.
    pose proof (pes_hdl_range g2). unfold size in *. rewrite (proj2 (Z.eqb_neq _ _)); [done|lia]. }
  destruct (pieces_of_stream uninit m [g1; g2] [ra1; ra2] d) as (i & cc & outs & Hrun & Hpieces); try done.
  { apply Forall_cons; split; [|apply Forall_singleton]; (split; [done|]); exists t; by rewrite ?Hpid. }
  eexists (with_counters i cc m), outs, _, _. split; [done|]. split; [|exact Hpieces].
  pose proof (learn_synced uninit m d Hm Hs Hun) as Hsy.
  destruct (proj2 (sy_frames m _ Hsy (es_mPid g1))) as [f Hf]; [by eauto|].
  eapply (receive_long m _ g1 g2 f); [exact Hf| |done|apply Hg1|done|done|done].
  by apply (learn_empty uninit m d Hun _ _ Hf).
Qed.

Definition long_frame : EsFrame := demo_frame 256 0x1b 0xe0 100 100 1 (Z.to_nat 70000).
Lemma size_demo_frame pid t sid pts dts ra n : size (es_mData (demo_frame pid t sid pts dts ra n)) = Z.of_nat n.
Proof. unfold size. simpl. by rewrite length_map, length_seq. Qed.

Lemma long_frame_broken_witness :
  let g2 := demo_frame 256 0x1b 0xe0 200 200 0 10 in
  ∃ m' outs d' evs,
    encode_all demo_mux [(long_frame, true); (g2, false)] = Some (m', outs) ∧
    frames_out evs = [sent_broken long_frame 0; sent g2] ∧
    (∀ chunks, concat chunks = out_bytes outs →
       decode_pieces (demo_frame 0 0 0 0 0 0 0) demo_demux chunks = Some (d', evs)).
Proof.
  refine (long_frame_broken (demo_frame 0 0 0 0 0 0 0) demo_mux long_frame
    (demo_frame 256 0x1b 0xe0 200 200 0 10) true false demo_demux
    demo_mux_ok eq_refl demo_streams eq_refl eq_refl _ _ _ eq_refl _ _ demo_untuned eq_refl eq_refl).
  - apply demo_frame_ok. vm_compute. reflexivity.
  - apply demo_frame_ok. vm_compute. reflexivity.
  - exists 0x1b. change (es_mPid long_frame) with 256. vm_compute. reflexivity.
  - unfold long_frame. rewrite size_demo_frame. unfold pes_hdl, pes_two.
    cbn [demo_frame es_mPts es_mDts]. vm_compute. reflexivity.
  - rewrite size_demo_frame. unfold pes_hdl, pes_two. cbn [demo_frame es_mPts es_mDts].
    vm_compute. discriminate.
Defined.

(** ** The packets of a frame *)

(** [createPes] ends, uses up the frame and appends packets of 188 bytes that
    a parser of the standard's packet layout reads: the PID of the frame, the
    start indicator on the first packet alone, continuity counters that
    follow each other modulo 16 from the counter of the stream, and payloads
    that make up the PES header and the data of the frame, byte for byte,
    whatever the stuffing, the clock reference and the random access flag. *)
Theorem createPes_wire m f rSb :
  es_ok f → es_left f ≠ [] →
  ∃ m' f' ps ws,
    createPes m f rSb = Some (m', f', append (concat ps) rSb) ∧
    es_left f' = [] ∧
    Forall (λ p, length p = 188%nat) ps ∧
    mapM ts_parse ps = Some ws ∧
    wire_ok (es_mPid f) true (next_cc m (es_mStreamType f)) (pes_part f ++ es_left f) ws ∧
    next_cc m' (es_mStreamType f) = (next_cc m (es_mStreamType f) + Z.of_nat (length ps)) mod 16.
Proof.
  intros Hf Hl. destruct (createPes_spec m f rSb Hf) as (cc & ps & Hrun & Hcar & _ & Hnext).
  destruct (carried_wire _ _ _ _ _ _ _ (eo_pid f Hf) Hcar (next_cc_range _ _) Hl) as (ws & Hws & Hok).
  exists (with_cc cc m), (advance (length (es_left f)) f), ps, ws. split_and!; try done.
  - by rewrite es_left_advance, drop_ge by done.
  - by eapply carried_length.
Qed.

Lemma createPes_wire_witness :
  let f := demo_frame 256 0x1b 0xe0 9000 6000 1 700 in
  ∃ m' f' ps ws,
    createPes demo_mux f SimpleBuffer_new = Some (m', f', append (concat ps) SimpleBuffer_new) ∧
    es_left f' = [] ∧ Forall (λ p, length p = 188%nat) ps ∧ mapM ts_parse ps = Some ws ∧
    wire_ok 256 true 0 (pes_part f ++ es_left f) ws ∧
    next_cc m' 0x1b = (0 + Z.of_nat (length ps)) mod 16.
Proof.
  refine (createPes_wire demo_mux (demo_frame 256 0x1b 0xe0 9000 6000 1 700) SimpleBuffer_new _ _).
  - apply (demo_frame_ok 256 0x1b 0xe0 9000 6000 1 700). vm_compute. reflexivity.
  - discriminate.
Defined.

(** ** The tables *)

(** The payload of a packet with one section: the pointer field, the section
    with its length and its crc, and stuffing. *)
Definition section_payload (l : bytes) : Prop :=
  ∃ sec fill, l = 0 :: sec ++ fill ∧ Forall (λ x, x = 0xff) fill ∧
    3 + be_val (take 2 (drop 1 sec)) mod 2 ^ 12 = Z.of_nat (length sec) ∧
    crc32 sec = 0.

Lemma section_payload_intro tid sl r0 b0 ssi rest fill :
  0 <= sl < 2 ^ 12 → sl = Z.of_nat (length rest) + 4 →
  let sec := tid :: be_bytes 2 (sec_word sl r0 b0 ssi) ++ rest in
  Forall (λ x, x = 0xff) fill →
  section_payload (0 :: sec ++ be_bytes 4 (crc32 sec) ++ fill).
Proof.
  intros Hsl Hlen sec Hfill. exists (sec ++ be_bytes 4 (crc32 sec)), fill. split_and!; [|done| |].
  - by rewrite <- app_assoc.
  - unfold sec at 1. cbn [app drop]. rewrite drop_0, <- app_assoc, take_app_length' by len.
    rewrite be_val_bytes. change (8 * Z.of_nat 2) with 16. unfold sec_word.
    assert (E : ((sl + r0 * 2 ^ 12 + b0 * 2 ^ 14 + ssi * 2 ^ 15) mod 2 ^ 16) mod 2 ^ 12 = sl)
      by (clear -Hsl; divlia).
    rewrite E. unfold sec. len.
  - apply crc32_residue.
Qed.

(** The tables the muxer sends are two packets, the PAT on PID 0 and the PMT
    on its PID, with the continuity counter they share; in each the section
    length is right, the crc over the section is zero, and the rest of the
    packet is stuffing. *)
Theorem tables_well_formed m : mux_ok m →
  ∃ m' sb p1 p2 w1 w2,
    patpmt m = Some (m', sb) ∧ mData sb = p1 ++ p2 ∧
    ts_parse p1 = Some w1 ∧ ts_parse p2 = Some w2 ∧
    wp_pid w1 = 0 ∧ wp_pid w2 = mPmtPid m ∧ wp_pusi w1 = 1 ∧ wp_pusi w2 = 1 ∧
    wp_cc w1 = next_cc m 0 ∧ wp_cc w2 = next_cc m 0 ∧
    section_payload (wp_payload w1) ∧ section_payload (wp_payload w2).
Proof.
  intros Hm. eexists _, _, (pat_packet m (next_cc m 0)), (pmt_packet m (next_cc m 0)), _, _.
  pose proof (next_cc_range m 0) as Hc.
  assert (Hn : (base.size (mStreamPidMap m) <= 33)%nat) by by destruct Hm.
  split; [by apply patpmt_bytes|]. split; [unfold tables; simpl; by rewrite app_nil_r|].
  split; [apply ts_parse_packet; [done|lia|done|apply length_pat_packet]|].
  split; [apply ts_parse_packet; [done|destruct Hm; lia|done|by apply length_pmt_packet]|].
  cbn [wp_pid wp_pusi wp_cc wp_payload]. split_and!; try done.
  - apply (section_payload_intro _ 13); [lia|done|]. by apply Forall_replicate.
  - assert (E : ∃ tid w r0 b0 ssi rest, pmt_bytes (pmt_header m) = tid :: be_bytes 2 (sec_word w r0 b0 ssi) ++ rest ∧
                  w = Z.of_nat (length rest) + 4 ∧ 0 <= w < 2 ^ 12).
    { pose proof (length_pmt_bytes m) as Hl. unfold pmt_bytes, section_bytes in *. cbn [app] in *.
      rewrite <- !app_assoc in *. eexists _, _, _, _, _, _. split; [reflexivity|].
      cbn [length] in Hl. rewrite length_app, length_be_bytes in Hl. cbn [pmt_header pmt_mSectionLength]. lia. }
    destruct E as (tid & w & r0 & b0 & ssi & rest & E & Hw & Hr). rewrite E.
    apply section_payload_intro; [done|done|]. by apply Forall_replicate.
Qed.

Lemma tables_well_formed_witness :
  ∃ m' sb p1 p2 w1 w2,
    patpmt demo_mux = Some (m', sb) ∧ mData sb = p1 ++ p2 ∧
    ts_parse p1 = Some w1 ∧ ts_parse p2 = Some w2 ∧
    wp_pid w1 = 0 ∧ wp_pid w2 = 100 ∧ wp_pusi w1 = 1 ∧ wp_pusi w2 = 1 ∧
    wp_cc w1 = 0 ∧ wp_cc w2 = 0 ∧
    section_payload (wp_payload w1) ∧ section_payload (wp_payload w2).
Proof. exact (tables_well_formed demo_mux demo_mux_ok). Defined.

(** C37. The table of crc.hpp is that of the polynomial 0x04C11DB7: the crc of any
    bytes is the one computed bit by bit. *)
Theorem crc32_is_mpeg_crc d : are_bytes d → crc32 d = crc_bitwise d.
Proof. apply crc32_bitwise. Qed.

Lemma crc32_is_mpeg_crc_witness :
  crc32 [0x31; 0x32; 0x33] = crc_bitwise [0x31; 0x32; 0x33] ∧ crc32 (map Z.of_nat (seq 0x31 9)) = 0x0376E6E7.
Proof.
  split; [|vm_compute; reflexivity].
  apply crc32_is_mpeg_crc. unfold are_bytes. apply (bool_decide_unpack _). vm_compute. exact I.
Defined.

(** The index after [k] calls. *)
Lemma pat_index m k : mCurrentIndex m = 0 →
  mCurrentIndex (Nat.iter k (λ m, (shouldCreatePat m).2) m) =
  if (k =? 0)%nat then 0 else (Z.of_nat k - 1) mod 20 + 1.
Proof.
  intros Hm. induction k as [|k IH]; [done|]. rewrite Nat.iter_succ. cbn [Nat.eqb].
  set (m' := Nat.iter k _ m) in *.
  unfold shouldCreatePat, with_counters, MPEGTS_PAT_INTERVAL. cbn [snd mCurrentIndex]. rewrite IH.
  destruct k as [|k]; [done|]. cbn [Nat.eqb].
  set (r := (Z.of_nat (S k) - 1) mod 20). assert (0 <= r < 20) by by apply Z.mod_pos_bound.
  assert (E : (Z.of_nat (S (S k)) - 1) mod 20 = if decide (r = 19) then 0 else r + 1).
  { unfold r. case_decide; Z.to_euclidean_division_equations; lia. }
  rewrite E. unfold u32. case_decide as Hr.
  - rewrite Hr. done.
  - rewrite (Z.mod_small (r + 1)) by lia. rewrite (proj2 (Z.eqb_neq (r + 1) 0)) by lia. cbn [andb].
    rewrite Z.mod_small; lia.
Qed.

(** Of the calls of a new muxer, exactly those whose number is a multiple of
    20 send the tables. *)
Theorem pat_interval m k : mCurrentIndex m = 0 →
  (shouldCreatePat (Nat.iter k (λ m, (shouldCreatePat m).2) m)).1 = (Z.of_nat k mod 20 =? 0).
Proof.
  intros Hm. unfold shouldCreatePat at 1, MPEGTS_PAT_INTERVAL. cbn [fst]. rewrite pat_index by done.
  destruct k as [|k]; [done|]. cbn [Nat.eqb]. f_equal.
  assert (E : Z.of_nat (S k) = (Z.of_nat (S k) - 1) + 1) by lia. rewrite E at 2.
  by rewrite Zplus_mod_idemp_l.
Qed.

Lemma pat_interval_witness :
  (shouldCreatePat (Nat.iter 40 (λ m, (shouldCreatePat m).2) demo_mux)).1 = true ∧
  (shouldCreatePat (Nat.iter 41 (λ m, (shouldCreatePat m).2) demo_mux)).1 = false.
Proof. split; rewrite pat_interval by reflexivity; reflexivity. Defined.

(** Time stamps and clock references that are written are read back; of a
    time stamp of 33 bits the top bit is lost. *)
Theorem timestamps_roundtrip fb pts pcr b :
  0 <= fb < 2 ^ 4 → 0 <= pts < 2 ^ 33 → 0 <= pcr < 2 ^ 33 → mPos b = size b →
  readPts (writePts fb pts b) = Some (pts mod 2 ^ 32, skip 5 (writePts fb pts b)) ∧
  readPcr (writePcr pcr b) = Some (pcr, skip 6 (writePcr pcr b)).
Proof.
  intros Hf Hp Hc Hb. rewrite writePts_bytes, writePcr_bytes by done.
  assert (E : ∀ l, push_back l b = cur (mData b) (l ++ [])).
  { intros l. unfold push_back, with_data, cur. by rewrite app_nil_r, Hb. }
  rewrite !E, readPts_bytes, readPcr_bytes by done.
  rewrite !skip_cur by (len; done). done.
Qed.

Lemma timestamps_roundtrip_witness :
  let b := {| mData := [7; 8]; mPos := 2 |} in
  readPts (writePts 2 (2 ^ 32 + 5) b) = Some (5, skip 5 (writePts 2 (2 ^ 32 + 5) b)) ∧
  readPcr (writePcr (2 ^ 32 + 5) b) = Some (2 ^ 32 + 5, skip 6 (writePcr (2 ^ 32 + 5) b)).
Proof. apply (timestamps_roundtrip 2 (2 ^ 32 + 5) (2 ^ 32 + 5) {| mData := [7; 8]; mPos := 2 |}); [lia|lia|lia|reflexivity]. Defined.

(** ** Headers *)



(** ** What does not work *)

(** With audio types alone the packets come on PID 256 all the same, which the
    PMT does not list: the demuxer hands out no frame. *)
Theorem audio_alone_is_lost :
  let u := demo_frame 0 0 0 0 0 0 0 in
  (s0 ← SimpleMpegtsMuxer_new [_AAC];
   '(_, outs) ← simple_all u (setOutputCallBack true s0) [(map Z.of_nat (seq 0 500), 80000, _AAC, true)];
   '(_, evs) ← decode_pieces u demo_demux outs.*1;
   Some (frames_out evs)) = Some [].
Proof. vm_compute. reflexivity. Qed.

(** [createNull] puts out four bytes instead of a packet. *)
Theorem null_packet_short m lTag : has_tsOut m = true →
  createNull m lTag = [({| mData := [0x47; 0x1f; 0xff; 0x10]; mPos := 0 |}, lTag, false)].
Proof. intros H. unfold createNull, ts_out. by rewrite H. Qed.

(** A PES packet that ends before its transport packet does is handed out only
    in the first packet of the buffer: the bound is compared with the position
    in the buffer, not in the packet, and behind another packet the stuffing
    is taken for data. *)
Definition short_pes : bytes :=
  ts_bytes (ts_header 1 256 mPayloadOnly 0) ++
  pes_bytes {| pes_mPacketStartCode := 1; pes_mStreamId := 0xe0; pes_mPesPacketLength := 6;
     pes_mOriginalOrCopy := 0; pes_mCopyright := 0; pes_mDataAlignmentIndicator := 0;
     pes_mPesPriority := 0; pes_mPesScramblingControl := 0; pes_mMarkerBits := 2;
     pes_mPesExtFlag := 0; pes_mPesCrcFlag := 0; pes_mAddCopyInfoFlag := 0;
     pes_mDsmTrickModeFlag := 0; pes_mEsRateFlag := 0; pes_mEscrFlag := 0; pes_mPtsDtsFlags := 0;
     pes_mHeaderDataLength := 0 |} ++ [1; 2; 3] ++ replicate 172 0xff.
Definition short_demux : MpegTsDemuxer :=
  dm_set_frame 256 (EsFrame_new (demo_frame 0 0 0 0 0 0 0) 0x1b)
    (dm_set_pat 100 PATHeader_new demo_demux).
Theorem short_pes_position :
  let data chunks :=
    '(_, evs) ← decode_pieces (demo_frame 0 0 0 0 0 0 0) short_demux chunks;
    Some (map fv_data (frames_out evs)) in
  data [short_pes] = Some [[1; 2; 3]] ∧
  data [short_pes; short_pes] = Some [[1; 2; 3]; [1; 2; 3]] ∧
  data [short_pes ++ short_pes] = Some [[1; 2; 3]].
Proof. vm_compute. split_and!; reflexivity. Qed.
