(* ===== verification/LossSpec.v ===== *)
(** * Correctness of the loss recovery

    The numbers are unwrapped: packet [x] of a stream carries [seqno x].  The
    lists hold sets of numbers ([rcv_holds], [snd_holds], in increasing order). *)
From S2P Require Import Prelude SeqNo LossRing RcvLoss RcvLossFacts SndLossFacts LossReport LossReportFacts LossSend LossSendFacts.
From S2P Require SndLoss.
From Stdlib Require Import Sorted.

(** ** The list of the receiver is a set *)

Inductive rcv_op :=
  | RcvInsert (s e : Z) | RcvRemove (x : Z) | RcvFind (x1 x2 : Z) | RcvLength | RcvFirst.
(** The answers: a bool as 0 or 1. *)
Definition b2z (b : bool) : Z := if b then 1 else 0.
Definition rcv_step (L : CRcvLossList) (o : rcv_op) : option (Z * CRcvLossList) :=
  match o with
  | RcvInsert s e => L ← CRcvLossList_insert L (seqno s) (seqno e); Some (0, L)
  | RcvRemove x => '(b, L) ← CRcvLossList_remove L (seqno x); Some (b2z b, L)
  | RcvFind x1 x2 => b ← CRcvLossList_find L (seqno x1) (seqno x2); Some (b2z b, L)
  | RcvLength => Some (CRcvLossList_getLossLength L, L)
  | RcvFirst => x ← CRcvLossList_getFirstLostSeq L; Some (x, L)
  end.
Fixpoint rcv_run (L : CRcvLossList) (ops : list rcv_op) : option (list Z * CRcvLossList) :=
  match ops with
  | [] => Some ([], L)
  | o :: ops => '(r, L) ← rcv_step L o; '(rs, L) ← rcv_run L ops; Some (r :: rs, L)
  end.
Definition rcv_spec (ns : list Z) (o : rcv_op) : Z * list Z :=
  match o with
  | RcvInsert s e => (0, ns ++ seqZ s (e - s + 1))
  | RcvRemove x => (b2z (bool_decide (x ∈ ns)), filter (λ y, y ≠ x) ns)
  | RcvFind x1 x2 => (b2z (bool_decide (Exists (λ y, x1 <= y <= x2) ns)), ns)
  | RcvLength => (Z.of_nat (length ns), ns)
  | RcvFirst => (match ns with [] => SRT_SEQNO_NONE | h :: _ => seqno h end, ns)
  end.
Fixpoint rcv_spec_run (ns : list Z) (ops : list rcv_op) : list Z * list Z :=
  match ops with
  | [] => ([], ns)
  | o :: ops => let p := rcv_spec ns o in let q := rcv_spec_run p.2 ops in (p.1 :: q.1, q.2)
  end.
(** What a caller keeps to: new losses are above the old ones and less than
    [size] away from the first, and other numbers within the window of the
    comparisons. *)
Definition nearb (x y : Z) : bool := Z.abs (x - y) <? m_iSeqNoTH.
Definition rcv_op_ok (size : Z) (ns : list Z) (o : rcv_op) : bool :=
  match o with
  | RcvInsert s e => (s <=? e) && (e <? s + size) && forallb (λ x, (x <? s) && (e <? x + size)) ns
  | RcvRemove x => forallb (λ h, nearb h x) (option_list (head ns))
  | RcvFind x1 x2 => (x1 <=? x2) && forallb (λ y, nearb y x1 && nearb y x2) ns
  | _ => true
  end.
Fixpoint rcv_ops_ok (size : Z) (ns : list Z) (ops : list rcv_op) : bool :=
  match ops with
  | [] => true
  | o :: ops => rcv_op_ok size ns o && rcv_ops_ok size (rcv_spec ns o).2 ops
  end.

Lemma forallb_elem (f : Z → bool) l : forallb f l = true → ∀ x, x ∈ l → f x = true.
Proof. rewrite forallb_forall. intros H x Hx. by apply H, list_elem_of_In. Qed.
Lemma near_firstb ns x : forallb (λ h, nearb h x) (option_list (head ns)) = true → near_first ns x.
Proof.
  intros H h Hh. rewrite Hh in H. pose proof (forallb_elem _ _ H h ltac:(left)) as Hn.
  by apply Z.ltb_lt in Hn.
Qed.

Lemma rcv_step_run size L ns o :
  rcv_holds size L ns → rcv_op_ok size ns o = true →
  ∃ L', rcv_step L o = Some ((rcv_spec ns o).1, L') ∧ rcv_holds size L' (rcv_spec ns o).2.
Proof.
  intros H Ho. destruct o as [s e|x|x1 x2| |]; cbn [rcv_step rcv_spec rcv_op_ok fst snd] in *.
  - apply andb_true_iff in Ho as [H1 H2]. pose proof (forallb_elem _ _ H2) as H3. cbn beta in H3.
    destruct (CRcvLossList_insert_run _ _ _ s e H) as (L' & -> & H'); [lia| |by exists L'].
    intros x Hx. specialize (H3 x Hx). lia.
  - destruct (CRcvLossList_remove_run _ _ _ _ H (near_firstb _ _ Ho)) as (L' & -> & H'). by exists L'.
  - apply andb_true_iff in Ho as [H1 H2]. pose proof (forallb_elem _ _ H2) as H3. cbn beta in H3.
    unfold nearb in H3. rewrite (CRcvLossList_find_run _ _ _ x1 x2 H); [by exists L|lia|..];
      intros y Hy; specialize (H3 y Hy); unfold near; lia.
  - rewrite (getLossLength_run _ _ _ H). by exists L.
  - rewrite (getFirstLostSeq_run _ _ _ H). by exists L.
Qed.

(** C21. The loss list of the receiver refines a sorted set: from any state that
    holds the numbers [ns], any sequence of insertions of new losses, removals,
    searches and readings, across the wrap of the sequence numbers too, gives
    the answers that the set gives, never leaves the array, and ends in a state
    that holds the set. *)
Theorem rcv_list_refines size L ns ops :
  rcv_holds size L ns → rcv_ops_ok size ns ops = true →
  ∃ L', rcv_run L ops = Some ((rcv_spec_run ns ops).1, L') ∧ rcv_holds size L' (rcv_spec_run ns ops).2.
Proof.
  revert L ns. induction ops as [|o ops IH]; intros L ns H Hops; [by exists L|]. apply andb_true_iff in Hops as [Ho Hops].
  destruct (rcv_step_run _ _ _ _ H Ho) as (L1 & E & H1). cbn [rcv_run rcv_spec_run]. rewrite E.
  destruct (IH _ _ H1 Hops) as (L2 & E2 & H2). cbn [mbind option_bind fst snd]. rewrite E2. by exists L2.
Qed.

(** ** The list of the sender is a set *)

Inductive snd_op := SndInsert (s e : Z) | SndPop | SndRemoveUpTo (x : Z) | SndLength.
Definition snd_step (L : SndLoss.CSndLossList) (o : snd_op) : option (Z * SndLoss.CSndLossList) :=
  match o with
  | SndInsert s e => SndLoss.CSndLossList_insert L (seqno s) (seqno e)
  | SndPop => SndLoss.CSndLossList_popLostSeq L
  | SndRemoveUpTo x => L ← SndLoss.CSndLossList_removeUpTo L (seqno x); Some (0, L)
  | SndLength => Some (SndLoss.CSndLossList_getLossLength L, L)
  end.
Fixpoint snd_run (L : SndLoss.CSndLossList) (ops : list snd_op) : option (list Z * SndLoss.CSndLossList) :=
  match ops with
  | [] => Some ([], L)
  | o :: ops => '(r, L) ← snd_step L o; '(rs, L) ← snd_run L ops; Some (r :: rs, L)
  end.
Definition snd_spec (ns : list Z) (o : snd_op) : Z * list Z :=
  match o with
  | SndInsert s e =>
      (Z.of_nat (length (lost_union ns s e)) - Z.of_nat (length ns), lost_union ns s e)
  | SndPop => (match ns with [] => SRT_SEQNO_NONE | x :: _ => seqno x end, tail ns)
  | SndRemoveUpTo x => (0, filter (λ y, x < y) ns)
  | SndLength => (Z.of_nat (length ns), ns)
  end.
Fixpoint snd_spec_run (ns : list Z) (ops : list snd_op) : list Z * list Z :=
  match ops with
  | [] => ([], ns)
  | o :: ops => let p := snd_spec ns o in let q := snd_spec_run p.2 ops in (p.1 :: q.1, q.2)
  end.
Definition snd_op_ok (size : Z) (ns : list Z) (o : snd_op) : bool :=
  match o with
  | SndInsert s e =>
      (s <=? e) && (e - s + 1 <? size) && forallb (λ x, (x <? s + size) && (e <? x + size)) ns
  | SndRemoveUpTo x => forallb (λ h, nearb h x) (option_list (head ns))
  | _ => true
  end.
Fixpoint snd_ops_ok (size : Z) (ns : list Z) (ops : list snd_op) : bool :=
  match ops with
  | [] => true
  | o :: ops => snd_op_ok size ns o && snd_ops_ok size (snd_spec ns o).2 ops
  end.

Lemma snd_step_run size L ns o :
  snd_holds size L ns → snd_op_ok size ns o = true →
  ∃ L', snd_step L o = Some ((snd_spec ns o).1, L') ∧ snd_holds size L' (snd_spec ns o).2.
Proof.
  intros H Ho. destruct o as [s e| |x|]; cbn [snd_step snd_spec snd_op_ok fst snd] in *.
  - apply andb_true_iff in Ho as [H1 H2]. pose proof (forallb_elem _ _ H2) as H3. cbn beta in H3.
    apply CSndLossList_insert_run; [done|lia|lia|]. intros x Hx. specialize (H3 x Hx). lia.
  - by apply CSndLossList_popLostSeq_run.
  - destruct (CSndLossList_removeUpTo_run _ _ _ _ H (near_firstb _ _ Ho)) as (L' & -> & H'). by exists L'.
  - rewrite (snd_getLossLength_run _ _ _ H). by exists L.
Qed.

(** C20. The loss list of the sender refines a sorted set: any sequence of
    insertions of ranges, overlapping or not and in any order, of removals of the
    first number and of all numbers up to one gives the answers of the set (an
    insertion: how many numbers are new), never leaves the array, and ends in a
    state that holds the set. *)
Theorem snd_list_refines size L ns ops :
  snd_holds size L ns → snd_ops_ok size ns ops = true →
  ∃ L', snd_run L ops = Some ((snd_spec_run ns ops).1, L') ∧ snd_holds size L' (snd_spec_run ns ops).2.
Proof.
  revert L ns. induction ops as [|o ops IH]; intros L ns H Hops; [by exists L|]. apply andb_true_iff in Hops as [Ho Hops].
  destruct (snd_step_run _ _ _ _ H Ho) as (L1 & E & H1). cbn [snd_run snd_spec_run]. rewrite E.
  destruct (IH _ _ H1 Hops) as (L2 & E2 & H2). cbn [mbind option_bind fst snd]. rewrite E2. by exists L2.
Qed.

(** The witnesses: lists of 16 nodes, and numbers about the wrap. *)
Definition new_rcv : CRcvLossList := CRcvLossList_new (λ i, mkSeq i i i i) 16.
Definition new_snd : SndLoss.CSndLossList := SndLoss.CSndLossList_new (λ i, SndLoss.mkSeq i i i) 16.
Definition wrap : Z := 2 ^ 31.

Lemma rcv_list_refines_witness :
  ∃ L, rcv_run new_rcv [RcvInsert (wrap - 4) (wrap + 2); RcvInsert (wrap + 5) (wrap + 5);
      RcvRemove (wrap - 1); RcvFirst; RcvLength; RcvFind (wrap + 3) (wrap + 4); RcvRemove (wrap - 1)]
    = Some ([0; 0; 1; 0x7FFFFFFC; 7; 0; 0], L)
    ∧ rcv_holds 16 L (((λ d, wrap + d) <$> [-4; -3; -2; 0; 1; 2; 5])).
Proof.
  destruct (rcv_list_refines 16 new_rcv [] [RcvInsert (wrap - 4) (wrap + 2); RcvInsert (wrap + 5) (wrap + 5);
      RcvRemove (wrap - 1); RcvFirst; RcvLength; RcvFind (wrap + 3) (wrap + 4); RcvRemove (wrap - 1)])
    as (L & E & H).
  - apply CRcvLossList_new_ok. lia.
  - vm_compute. reflexivity.
  - exists L. split; [exact E|exact H].
Defined.

Lemma snd_list_refines_witness :
  ∃ L, snd_run new_snd [SndInsert (wrap + 3) (wrap + 3); SndInsert (wrap - 2) (wrap + 1); SndPop;
      SndInsert (wrap + 1) (wrap + 5); SndLength; SndRemoveUpTo wrap; SndPop]
    = Some ([1; 4; 0x7FFFFFFE; 3; 7; 0; 1], L)
    ∧ snd_holds 16 L ((λ d, wrap + d) <$> [2; 3; 4; 5]).
Proof.
  destruct (snd_list_refines 16 new_snd [] [SndInsert (wrap + 3) (wrap + 3); SndInsert (wrap - 2) (wrap + 1); SndPop;
      SndInsert (wrap + 1) (wrap + 5); SndLength; SndRemoveUpTo wrap; SndPop]) as (L & E & H).
  - apply CSndLossList_new_ok. lia.
  - vm_compute. reflexivity.
  - exists L. split; [exact E|exact H].
Defined.

(** ** The receiver knows what is missing *)

(** C11. Packets may arrive in any order, more than once, and across the wrap of
    the sequence numbers: as long as each is in the room of the receiver, the loss
    list holds exactly the numbers that did not arrive, from the initial one to the
    largest that did. *)
Theorem gaps_recorded size isn R xs :
  receiving size R (isn - 1) [] → arrivals_fit size isn (isn - 1) [] xs = true →
  ∃ R', deliver R [] xs = Some R' ∧
    m_iRcvCurrSeqNo R' = seqno (largest (isn - 1) xs) ∧
    rcv_holds size (m_pRcvLossList R') (gaps isn (number <$> xs) (largest (isn - 1) xs)).
Proof.
  intros H Hf. destruct (arrivals_run size isn (isn - 1) [] R xs) as (R' & E & [Hc HL]); [|lia|set_solver|done|].
  - unfold gaps. by rewrite seqZ_nil by lia.
  - exists R'. split; [done|]. split; [done|].
    unfold gaps. erewrite (list_filter_iff _ (λ y, y ∉ all_got [] xs)); [exact HL|].
    intros y. rewrite all_got_elem, list_elem_of_fmap. set_solver.
Qed.

(** The number an ACK carries is the first that did not arrive: every number
    before it, from the initial one on, did. *)
Theorem ack_is_first_missing size isn R xs :
  receiving size R (isn - 1) [] → arrivals_fit size isn (isn - 1) [] xs = true →
  ∃ R' a, deliver R [] xs = Some R' ∧ ack_number R' = Some (seqno a) ∧ isn <= a ∧
    a ∉ number <$> xs ∧ ∀ y, isn <= y < a → y ∈ number <$> xs.
Proof.
  intros H Hf. destruct (arrivals_run size isn (isn - 1) [] R xs) as (R' & E & H'); [|lia|set_solver|done|].
  - unfold gaps. by rewrite seqZ_nil by lia.
  - pose proof (all_got_elem [] xs) as Hgot. pose proof (largest_bounds (isn - 1) xs) as [Hl1 Hl2].
    destruct (head_gaps isn (all_got [] xs) (largest (isn - 1) xs)) as (A1 & A2 & A3); [lia| |].
    { intros y Hy%Hgot. destruct Hy as [Hy|(a & Ha & <-)]; [by apply elem_of_nil in Hy|by apply Hl2]. }
    eexists R', _. split; [done|]. split; [by eapply ack_number_run|]. split; [done|].
    assert (∀ y, y ∈ all_got [] xs ↔ y ∈ number <$> xs) as Heq by (intros y; rewrite Hgot, list_elem_of_fmap; set_solver).
    split; [by rewrite <- Heq|]. intros y Hy. apply Heq. by apply A3.
Qed.

(** A receiver that has got nothing: [tol] is the reordering tolerance. *)
Definition new_receiver (isn tol : Z) : CUDT_rcv :=
  {| m_pRcvLossList := new_rcv; m_FreshLoss := []; m_iRcvCurrSeqNo := seqno (isn - 1);
     m_bPeerRexmitFlag := true; m_iReorderTolerance := tol; iMaxReorderTolerance := 8;
     m_iConsecEarlyDelivery := 0; m_iConsecOrderedDelivery := 0; traceReorderDistance := 0 |}.
Lemma new_receiver_ok isn tol : receiving 16 (new_receiver isn tol) (isn - 1) [].
Proof. split; [done|]. apply CRcvLossList_new_ok. lia. Qed.
Definition arrive (x : Z) : arrival := {| number := x; rexmit := false; now := 0 |}.

(** Numbers about the wrap: some are late, one comes twice. *)
Definition some_arrivals : list arrival :=
  (λ d, arrive (wrap + d)) <$> [-5; -3; 2; -1; 2; 5; 1].

Lemma gaps_recorded_witness :
  ∃ R', deliver (new_receiver (wrap - 5) 2) [] some_arrivals = Some R' ∧ m_iRcvCurrSeqNo R' = 5 ∧
    rcv_holds 16 (m_pRcvLossList R') ((λ d, wrap + d) <$> [-4; -2; 0; 3; 4]).
Proof.
  destruct (gaps_recorded 16 (wrap - 5) (new_receiver (wrap - 5) 2) some_arrivals) as (R' & E & C & H).
  - apply new_receiver_ok.
  - vm_compute. reflexivity.
  - exists R'. split; [exact E|]. split; [exact C|exact H].
Defined.
Lemma ack_is_first_missing_witness :
  ∃ R' a, deliver (new_receiver (wrap - 5) 2) [] some_arrivals = Some R' ∧ ack_number R' = Some (seqno a) ∧
    a ∉ number <$> some_arrivals.
Proof.
  destruct (ack_is_first_missing 16 (wrap - 5) (new_receiver (wrap - 5) 2) some_arrivals)
    as (R' & a & E & A & _ & Ha & _).
  - apply new_receiver_ok.
  - vm_compute. reflexivity.
  - exists R', a. split; [exact E|]. split; [exact A|exact Ha].
Defined.

(** ** A report reaches the loss list of the sender *)

(** C10. End to end: the words of the periodic report of a receiver with any
    losses, read by the sender, put exactly the numbers reported and not yet
    acknowledged into its loss list, which then gives them out in increasing order
    for retransmission; the reported numbers are the first ones of the list, all of
    them when the packet has room, and the statistics count the new ones. *)
Theorem report_reaches_sender size_r size_s L ns S ack curr ms limit :
  rcv_holds size_r L ns → sending size_s S ack curr ms →
  (∀ x, x ∈ ns → ack - 2 ^ 29 <= x <= curr) → 2 <= limit →
  ∃ words S' actions ns1 ns2 ms' L',
    CRcvLossList_getLossArray L limit = Some words ∧ Z.of_nat (length words) <= limit ∧
    ns = ns1 ++ ns2 ∧ (ns ≠ [] → ns1 ≠ []) ∧ (2 * Z.of_nat (length ns) < limit → ns2 = []) ∧
    processCtrlLossReport S words = Some (S', actions) ∧ Reschedule ∈ actions ∧ m_bBroken S' = m_bBroken S ∧
    sending size_s S' ack curr ms' ∧ counted S S' ms ms' ∧
    (∀ x, x ∈ ms' ↔ x ∈ ms ∨ ack <= x ∧ x ∈ ns1) ∧ StronglySorted Z.lt ms' ∧
    pop_all (length ms') (m_pSndLossList S') = Some (seqno <$> ms', L') ∧ snd_holds size_s L' [].
Proof.
  intros (c & l & HL & <-) HS Hw Hlim. set (l1 := reported limit 0 l).
  destruct (reported_prefix limit 0 l) as [l2 El]. fold l1 in El.
  destruct (at_fits _ _ _ _ HL) as [b [Hb _]].
  assert (report_ok ack curr l1) as Hok.
  { intros r Hr. assert (r ∈ l) as Hrl by (rewrite El; apply elem_of_app; by left).
    destruct (sorted_from_bounds _ _ _ Hb Hrl) as [Hse _].
    pose proof (Hw r.1 ltac:(apply elem_of_numbers; exists r; split; [done|lia])).
    pose proof (Hw r.2 ltac:(apply elem_of_numbers; exists r; split; [done|lia])). lia. }
  destruct (read_losses_run _ _ _ _ _ _ [] HS Hok) as (S' & ms' & E & H' & (B1 & B2 & B3 & B4 & B5) & C & X).
  rewrite app_nil_r in E. cbn [read_losses mbind option_bind] in E.
  destruct (pop_all_run size_s (m_pSndLossList S') ms') as (L' & P & HL'); [apply H'|].
  exists (loss_words l1), (count_nak S'). eexists _, (numbers l1), (numbers l2), ms', L'.
  split; [by eapply getLossArray_run|]. split; [by apply (reported_room limit 0 l); lia|].
  split; [by rewrite <- numbers_app, <- El|]. split; [|split; [|split]].
  - intros Hne En. apply Hne. destruct l as [|r l]; [done|]. exfalso. unfold l1 in En. cbn [reported] in En.
    rewrite (proj2 (Z.ltb_lt 0 (limit - 1))) in En by lia. apply app_nil in En as [En _].
    destruct r as [s e]. pose proof (length_range_numbers s e) as Hl. rewrite En in Hl. cbn in Hb, Hl. lia.
  - intros Hroom. assert (l1 = l) as E1.
    { apply reported_all. pose proof (length_loss_words _ _ Hb). lia. }
    rewrite E1 in El. rewrite <- (app_nil_r l) in El at 1. apply app_inv_head in El as <-. done.
  - unfold processCtrlLossReport. by rewrite E.
  - split; [apply elem_of_app; right; left|]. split; [done|]. split; [by destruct H'|]. split; [by destruct C|].
    split; [done|]. split; [by eapply snd_holds_sorted, H'|]. done.
Qed.

(** A sender that has sent up to [curr], with nothing to send again. *)
Definition new_sender (ack curr : Z) : CUDT_snd :=
  {| m_pSndLossList := new_snd; m_iSndLastAck := seqno ack; m_iSndCurrSeqNo := seqno curr;
     m_iReXmitCount := 1; traceSndLoss := 0; sndLossTotal := 0; recvNAK := 0; recvNAKTotal := 0;
     m_bBroken := false; m_iBrokenCounter := 0 |}.
Lemma new_sender_ok ack curr : ack <= curr + 1 → curr - ack + 1 < 16 → sending 16 (new_sender ack curr) ack curr [].
Proof.
  intros H1 H2. split; [done|done| |done|].
  - apply CSndLossList_new_ok. lia.
  - intros x Hx. by apply elem_of_nil in Hx.
Qed.

Lemma report_reaches_sender_witness :
  ∃ L words S' actions ms', rcv_holds 16 L (seqZ (wrap - 2) 5) ∧ CRcvLossList_getLossArray L 364 = Some words ∧
    processCtrlLossReport (new_sender (wrap - 1) (wrap + 6)) words = Some (S', actions) ∧
    sending 16 S' (wrap - 1) (wrap + 6) ms' ∧ ∀ x, x ∈ ms' ↔ wrap - 1 <= x <= wrap + 2.
Proof.
  destruct (CRcvLossList_insert_run 16 new_rcv [] (wrap - 2) (wrap + 2)) as (L & _ & HL).
  - apply CRcvLossList_new_ok. lia.
  - lia.
  - intros x Hx. by apply elem_of_nil in Hx.
  - change (wrap + 2 - (wrap - 2) + 1) with 5 in HL. cbn [app] in HL.
    destruct (report_reaches_sender 16 16 L (seqZ (wrap - 2) 5) (new_sender (wrap - 1) (wrap + 6))
      (wrap - 1) (wrap + 6) [] 364)
      as (words & S' & actions & ns1 & ns2 & ms' & L' & E1 & _ & En & _ & Eall & E2 & _ & _ & H' & _ & X & _).
    + exact HL.
    + apply new_sender_ok; lia.
    + intros x Hx. apply elem_of_seqZ in Hx. lia.
    + lia.
    + exists L, words, S', actions, ms'. split; [exact HL|]. split; [exact E1|]. split; [exact E2|].
      split; [exact H'|]. intros x. rewrite X, (Eall ltac:(rewrite length_seqZ; lia)), app_nil_r in *.
      rewrite <- En, elem_of_nil, elem_of_seqZ. lia.
Defined.

(** A report of what was never sent breaks the connection: at the first
    reversed range, or number beyond the last one sent, the sender stops reading,
    marks the connection as broken and does not schedule it for sending; what the
    report said before that is in the list. *)
Theorem report_beyond_sent size S ack curr ms l w rest :
  sending size S ack curr ms → report_ok ack curr l → bad_words ack curr w →
  ∃ S' actions ms', processCtrlLossReport S (loss_words l ++ w ++ rest) = Some (S', actions) ∧
    m_bBroken S' = true ∧ m_iBrokenCounter S' = 0 ∧ recvNAK S' = recvNAK S ∧ Reschedule ∉ actions ∧
    sending size S' ack curr ms' ∧ ∀ x, x ∈ ms' ↔ x ∈ ms ∨ ack <= x ∧ x ∈ numbers l.
Proof.
  intros HS Hl Hw.
  destruct (read_losses_run _ _ _ _ _ l (w ++ rest) HS Hl) as (S' & ms' & E & H' & (B1 & B2 & B3 & _) & _ & X).
  rewrite (read_bad_run _ _ _ _ _ _ rest H' Hw) in E. cbn [mbind option_bind] in E.
  unfold processCtrlLossReport. rewrite E. cbn [mbind option_bind].
  eexists _, _, ms'. split; [done|]. split; [done|]. split; [done|]. split; [done|].
  split; [|split; [by destruct H'|done]].
  rewrite app_nil_r, elem_of_app, list_elem_of_singleton. intros [Hin|?]; [|done].
  clear -Hin. induction l as [|r l IH]; cbn [drop_requests] in Hin; [by apply elem_of_nil in Hin|].
  apply elem_of_app in Hin as [Hin|Hin]; [|by apply IH].
  destruct ((r.1 <? r.2) && (r.2 <? ack)); [apply list_elem_of_singleton in Hin as [=]|by apply elem_of_nil in Hin].
Qed.
Lemma report_beyond_sent_witness :
  ∃ S' actions ms', processCtrlLossReport (new_sender (wrap - 1) (wrap + 6))
      (loss_words [(wrap - 1, wrap + 1)] ++
       [Z.lor (seqno (wrap + 5)) LOSSDATA_SEQNO_RANGE_FIRST; seqno (wrap + 7)] ++ [0]) = Some (S', actions) ∧
    m_bBroken S' = true ∧ sending 16 S' (wrap - 1) (wrap + 6) ms'.
Proof.
  destruct (report_beyond_sent 16 (new_sender (wrap - 1) (wrap + 6)) (wrap - 1) (wrap + 6) []
    [(wrap - 1, wrap + 1)] [Z.lor (seqno (wrap + 5)) LOSSDATA_SEQNO_RANGE_FIRST; seqno (wrap + 7)] [0])
    as (S' & actions & ms' & E & B & _ & _ & _ & H & _).
  - apply new_sender_ok; lia.
  - intros r Hr. apply list_elem_of_singleton in Hr as ->. cbn [fst snd]. lia.
  - apply bad_range; unfold near, m_iSeqNoTH; lia.
  - exists S', actions, ms'. split; [exact E|]. split; [exact B|exact H].
Defined.

(** A timeout of the sender sends everything in flight again: all numbers from
    the first not acknowledged to the last sent are in its list, whatever was there
    - unless the congestion controller is the one for files and the list is not
    empty, which is left alone. *)
Theorem timeout_resends_flight size S E ack curr ms :
  sending size S ack curr ms → ack <= curr → rexmit_due S E = true →
  ∃ S' L', checkRexmitTimer S E = Some (S', [CheckSndTimers; UpdateCC_checktimer (rexmitMethod E); Reschedule]) ∧
    let ms' := if is_laterexmit E && negb (bool_decide (ms = [])) then ms else seqZ ack (curr - ack + 1) in
    sending size S' ack curr ms' ∧ pop_all (length ms') (m_pSndLossList S') = Some (seqno <$> ms', L') ∧
    m_iReXmitCount S' = i32 (m_iReXmitCount S + 1).
Proof.
  intros HS Hf Hdue. destruct (rexmit_unacked_run _ _ E _ _ _ HS Hf) as (S' & E' & H' & (_ & _ & _ & _ & B)).
  cbv zeta. set (ms' := if is_laterexmit E && _ then ms else _) in *.
  destruct (pop_all_run size (m_pSndLossList S') ms') as (L' & P & _); [apply H'|].
  exists (count_rexmit S'), L'. unfold checkRexmitTimer. rewrite Hdue, E'. split; [done|].
  split; [by destruct H'|]. split; [done|]. simpl. by rewrite B.
Qed.
Definition timeout_inputs : rexmit_inputs :=
  {| currtime := 1000000; m_tsLastRspAckTime := 0; m_iSRTT := 100000; m_iRTTVar := 50000;
     getCurrBufSize := 8; rexmitMethod := SRM_FASTREXMIT; m_bPeerNakReport := false |}.
Lemma timeout_resends_flight_witness :
  ∃ S' actions, checkRexmitTimer (new_sender (wrap - 1) (wrap + 6)) timeout_inputs = Some (S', actions) ∧
    sending 16 S' (wrap - 1) (wrap + 6) (seqZ (wrap - 1) 8).
Proof.
  destruct (timeout_resends_flight 16 (new_sender (wrap - 1) (wrap + 6)) timeout_inputs (wrap - 1) (wrap + 6) [])
    as (S' & L' & E & H & _).
  - apply new_sender_ok; lia.
  - lia.
  - vm_compute. reflexivity.
  - eexists S', _. split; [exact E|exact H].
Defined.

(** ** Losses that are reported late *)

(** The belated report: with a reordering tolerance [t], a gap is not reported
    by the packet after it nor by the next [t - 1], and is reported, once and with
    the words of its range, by the [t]-th packet in order after that one. *)
Theorem gap_reported_after_tolerance size R curr ns p x ps now t :
  receiving size R curr ns → m_FreshLoss R = [] → m_bPeerRexmitFlag R = true →
  m_iReorderTolerance R = t → 0 < t → Z.of_nat (length ps) = t → m_iConsecOrderedDelivery R + t + 1 < 50 →
  m_iSeqNo p = seqno x → curr + 1 < x <= curr + size → (∀ y, y ∈ ns → y <= curr ∧ x <= y + size) →
  (∀ i q, ps !! i = Some q → m_iSeqNo q = seqno (x + 1 + Z.of_nat i)) →
  ∃ R', reports_of R (p :: ps) now =
      Some (replicate (Z.to_nat t) [] ++ [[addLossRecord [] (seqno (curr + 1)) (seqno (x - 1))]], R') ∧
    receiving size R' (x + t) (ns ++ seqZ (curr + 1) (x - curr - 1)) ∧ m_FreshLoss R' = [].
Proof.
  intros H Hf Hflag Ht Htpos Hlen Hord Hp Hx Hns Hps.
  assert (0 < size <= 2 ^ 29) as Hs by (destruct H as [_ (c & l & HL & _)]; apply HL).
  destruct (process_packet_run size R curr ns p x ADDED now) as (R1 & reports & E & H1); [done..|lia|done|by left|].
  cbn [reports_of]. rewrite E. cbn [mbind option_bind].
  destruct (gap_step R curr p x now R1 reports E) as (-> & F1 & T1 & O1 & Q1);
    [apply H|done|lia|unfold near, m_iSeqNoTH; lia..|done|lia|lia|done|].
  unfold missing_after in H1. rewrite decide_True, Z.max_r in H1 by lia. rewrite Ht in Q1, T1.
  destruct (in_order_run size R1 x _ ps _ now H1 Hps F1 ltac:(lia) ltac:(lia) Q1) as (R2 & -> & H2 & Q2).
  { cbn [ttl]. lia. }
  exists R2. cbn [mbind option_bind seq0 seq1]. rewrite Hlen in H2. split; [|done]. do 2 f_equal.
  replace (Z.to_nat t) with (S (length ps - 1)) by lia. done.
Qed.
Lemma gap_reported_after_tolerance_witness :
  ∃ R', reports_of (new_receiver (wrap - 3) 2)
      ((λ d, packet_of (arrive (wrap + d))) <$> [1; 2; 3]) 0
    = Some ([[]; []; [[Z.lor 0x7FFFFFFD LOSSDATA_SEQNO_RANGE_FIRST; 0]]], R') ∧
    rcv_holds 16 (m_pRcvLossList R') (seqZ (wrap - 3) 4).
Proof.
  destruct (gap_reported_after_tolerance 16 (new_receiver (wrap - 3) 2) (wrap - 4) []
    (packet_of (arrive (wrap + 1))) (wrap + 1) ((λ d, packet_of (arrive (wrap + d))) <$> [2; 3]) 0 2)
    as (R' & E & [_ H] & _).
  - apply (new_receiver_ok (wrap - 3) 2).
  - reflexivity.
  - reflexivity.
  - reflexivity.
  - lia.
  - reflexivity.
  - vm_compute. reflexivity.
  - reflexivity.
  - lia.
  - intros y Hy. by apply elem_of_nil in Hy.
  - intros i q Hq. destruct i as [|[|i]]; [injection Hq as <-; reflexivity|injection Hq as <-; reflexivity|discriminate].
  - exists R'. split; [exact E|exact H].
Defined.

(** A late packet is taken back from both lists: its number leaves the loss
    list, and the record of the losses still to be reported, which is shortened,
    split in two or deleted - the latter only while there is a tolerance. *)
Theorem late_packet_taken_back size R curr ns fs p x now :
  receiving size R curr ns → fresh_holds (m_FreshLoss R) fs → m_iSeqNo p = seqno x →
  near_all ns x → near_all fs x →
  ∃ R', unlose R p now = Some R' ∧ receiving size R' curr (filter (λ y, y ≠ x) ns) ∧
    fresh_holds (m_FreshLoss R')
      (if m_bPeerRexmitFlag R && negb (m_iReorderTolerance (raise_tolerance R p).2 =? 0)
       then filter (λ y, y ≠ x) fs else fs).
Proof.
  intros [Hc HL] Hfs Hp Hn1 Hn2. unfold unlose. rewrite Hp.
  destruct (CRcvLossList_remove_run size _ _ x HL (near_all_first _ _ Hn1)) as (L & -> & HL').
  cbn [mbind option_bind]. destruct (raise_tolerance_fields R p L) as (E1 & E2 & E3 & E4 & E5).
  destruct (raise_tolerance (with_losses L (m_FreshLoss R) R) p) as [up R1]. cbn [snd] in *. rewrite E1, E2.
  assert (receiving size R1 curr (filter (λ y, y ≠ x) ns)) as HR1 by (split; [by rewrite E5|by rewrite E4]).
  set (tolerance := m_iReorderTolerance (raise_tolerance R p).2 =? 0).
  destruct (m_bPeerRexmitFlag R), tolerance; cbn [negb andb orb];
    try (exists R1; split; [done|]; split; [exact HR1|by rewrite E3]).
  pose proof (unlose_fresh_run (m_FreshLoss R1) fs x 0 now) as Hu. rewrite E3 in Hu |- *. specialize (Hu Hfs Hn2).
  destruct (unlose_fresh (m_FreshLoss R) (seqno x) 0 now) as [fresh t]. cbn [fst] in Hu.
  assert (receiving size (with_losses (m_pRcvLossList R1) fresh R1) curr (filter (λ y, y ≠ x) ns)) as HR2
    by (destruct HR1; by split).
  eexists. split; [done|]. case_match; [|by split]. split; [|by rewrite lower_tolerance_fresh].
  eapply receiving_same; [apply lower_tolerance_same|exact HR2].
Qed.
(** A receiver with a tolerance of 2 that lacks [wrap - 2] to [wrap + 2], and has
    the range to report. *)
Definition lacking (L : CRcvLossList) : CUDT_rcv :=
  with_losses L [mkFresh (seqno (wrap - 2)) (seqno (wrap + 2)) 2 0]
    (with_currseq (seqno (wrap + 3)) (new_receiver wrap 2)).
Lemma lacking_ok :
  ∃ L, receiving 16 (lacking L) (wrap + 3) (seqZ (wrap - 2) 5) ∧
    fresh_holds (m_FreshLoss (lacking L)) (seqZ (wrap - 2) 5).
Proof.
  destruct (CRcvLossList_insert_run 16 new_rcv [] (wrap - 2) (wrap + 2)) as (L & _ & HL);
    [apply CRcvLossList_new_ok; lia|lia|intros x Hx; by apply elem_of_nil in Hx|].
  exists L. split; [by split|]. exists (wrap - 2), [(wrap - 2, wrap + 2)].
  split; [by constructor|]. split; [cbn; lia|done].
Qed.
Lemma near_seqZ s n x : 0 <= n → Z.abs (s - x) + n < m_iSeqNoTH → near_all (seqZ s n) x.
Proof. intros Hn H y Hy%elem_of_seqZ. unfold near. lia. Qed.

Lemma late_packet_taken_back_witness :
  ∃ L R', unlose (lacking L) {| m_iSeqNo := seqno wrap; getRexmitFlag := true |} 0 = Some R' ∧
    receiving 16 R' (wrap + 3) (filter (λ y, y ≠ wrap) (seqZ (wrap - 2) 5)) ∧
    fresh_holds (m_FreshLoss R') (filter (λ y, y ≠ wrap) (seqZ (wrap - 2) 5)).
Proof.
  destruct lacking_ok as (L & H1 & H2). exists L.
  apply (late_packet_taken_back 16 (lacking L) (wrap + 3) (seqZ (wrap - 2) 5) (seqZ (wrap - 2) 5)
    {| m_iSeqNo := seqno wrap; getRexmitFlag := true |} wrap 0).
  - exact H1.
  - exact H2.
  - reflexivity.
  - apply near_seqZ; unfold m_iSeqNoTH; lia.
  - apply near_seqZ; unfold m_iSeqNoTH; lia.
Defined.

(** C39. The tolerance stays in its bounds: for any sequence of packets, stored, redundant
    or not decrypted, in any order and through the wrap, each less than the size of the
    loss list away from the largest number and from the missing ones, no call fails (no
    loop is out of fuel, no access out of the array), the tolerance is never negative and
    never above the configured maximum, and the numbers missing are those that the packets
    that were stored and decrypted skipped and that no packet brought since. *)
Theorem tolerance_bounded size R curr ns ps :
  receiving size R curr ns → tolerance_ok R → packets_fit size curr ns ps = true →
  ∃ R' rs, run_packets R ps = Some (R', rs) ∧
    0 <= m_iReorderTolerance R' <= iMaxReorderTolerance R ∧ iMaxReorderTolerance R' = iMaxReorderTolerance R ∧
    receiving size R' (missing_run curr ns ps).1 (missing_run curr ns ps).2.
Proof.
  intros H Ht Hf. destruct (run_packets_run size R curr ns ps H Hf) as (R' & rs & E & H').
  destruct (run_packets_tolerance ps R R' rs Ht E) as [Hb Em]. unfold tolerance_ok in Hb. rewrite Em in Hb. by exists R', rs.
Qed.
(** Packets are late by up to eight, a redundant one and one that is not decrypted come. *)
Definition demo_packets : list (arrival * adding) :=
  ((λ d, (arrive (wrap + d), ADDED)) <$> [-5; 4; -4; 5; 0]) ++ [(arrive (wrap + 5), REDUNDANT); (arrive (wrap + 7), UNDECRYPTED)].
Lemma tolerance_bounded_witness :
  packets_fit 16 (wrap - 6) [] demo_packets = true ∧
  ∃ R' rs, run_packets (new_receiver (wrap - 5) 2) demo_packets = Some (R', rs) ∧
    0 <= m_iReorderTolerance R' <= 8 ∧ iMaxReorderTolerance R' = 8 ∧
    receiving 16 R' (missing_run (wrap - 6) [] demo_packets).1 (missing_run (wrap - 6) [] demo_packets).2.
Proof.
  split; [vm_compute; reflexivity|].
  apply (tolerance_bounded 16 (new_receiver (wrap - 5) 2) (wrap - 6) [] demo_packets).
  - apply (new_receiver_ok (wrap - 5) 2).
  - split; vm_compute; discriminate.
  - vm_compute. reflexivity.
Defined.
Example demo_tolerance :
  (λ r, m_iReorderTolerance r.1) <$> run_packets (new_receiver (wrap - 5) 2) demo_packets = Some 8 ∧
  missing_run (wrap - 6) [] demo_packets = (wrap + 7, (λ d, wrap + d) <$> [-3; -2; -1; 1; 2; 3]).
Proof. split; vm_compute; reflexivity. Qed.

(** ** Ranges that are given up *)

(** Giving up a range: the receiver forgets the range in its loss list and,
    when it reports late, every number up to its end in the losses still to be
    reported.  The range must not go over the wrap of the sequence numbers nor end
    just before it. *)
Theorem drop_range_forgotten size R curr ns fs lo hi :
  receiving size R curr ns → fresh_holds (m_FreshLoss R) fs → lo <= hi →
  seqno lo + (hi - lo) < m_iMaxSeqNo → (∀ x, lo <= x <= hi → near_all ns x ∧ near_all fs x) →
  ∃ R', dropFromLossLists R (seqno lo) (seqno hi) = Some R' ∧
    receiving size R' curr (filter (λ y, ¬ (lo <= y <= hi)) ns) ∧
    fresh_holds (m_FreshLoss R')
      (if m_bPeerRexmitFlag R && negb (m_iReorderTolerance R =? 0) then filter (λ y, hi < y) fs else fs).
Proof.
  intros [Hc HL] Hfs Hlh Hmax Hn. unfold dropFromLossLists.
  destruct (remove_range_run size _ ns lo hi HL Hlh) as (L & -> & HL'); [intros x Hx; by apply Hn|done|].
  cbn [mbind option_bind].
  destruct (m_bPeerRexmitFlag R), (m_iReorderTolerance R =? 0); cbn [negb andb orb].
  2: { eexists. split; [done|]. split; [by split|].
    apply drop_fresh_run; [done|done|apply Hn; lia..]. }
  all: by eexists.
Qed.

(** A range that goes over the wrap leaves the number before the wrap in the
    loss list, so that the receiver will not acknowledge anything after it; and a
    range that ends with that number is removed by a loop that has no end. *)
Theorem drop_range_over_wrap size R curr ns lo hi m :
  receiving size R curr ns → lo <= m < hi → seqno m = m_iMaxSeqNo → hi < lo + 2 ^ 31 - 1 →
  (∀ x, lo <= x <= hi → near_all ns x) → m ∈ ns → (∀ y, y ∈ ns → lo <= y) →
  ∃ R', dropFromLossLists R (seqno lo) (seqno hi) = Some R' ∧
    receiving size R' curr (filter (λ y, ¬ (lo <= y <= hi) ∨ y = m) ns) ∧
    ack_number R' = Some m_iMaxSeqNo ∧
    ∀ fuel L i, i <= m_iMaxSeqNo → remove_loop fuel L i m_iMaxSeqNo false = None.
Proof.
  intros [Hc HL] Hm Em Hhi Hn Hin Hlo. unfold dropFromLossLists.
  destruct (remove_range_wrap size _ ns lo hi m HL Hm Hn Em Hhi) as (L & -> & HL'). cbn [mbind option_bind].
  set (ns' := filter (λ y, ¬ (lo <= y <= hi) ∨ y = m) ns) in *.
  assert (head ns' = Some m) as Hhead.
  { assert (StronglySorted Z.lt ns') as Hs.
    { destruct HL' as (c & l & H & <-). destruct (at_fits _ _ _ _ H) as [b [Hb _]]. by eapply numbers_sorted. }
    assert (m ∈ ns') as Hmem by (apply list_elem_of_filter; split; [by right|done]).
    assert (∀ y, y ∈ ns' → m <= y) as Hle.
    { intros y [[?| ->] Hy]%list_elem_of_filter; [specialize (Hlo y Hy)|]; lia. }
    destruct ns' as [|h ns']; [by apply elem_of_nil in Hmem|]. cbn [head]. f_equal.
    apply elem_of_cons in Hmem as [->|Hmem]; [done|]. apply StronglySorted_inv in Hs as [_ Hs].
    rewrite Forall_forall in Hs. specialize (Hs m Hmem). specialize (Hle h ltac:(left)). lia. }
  assert (∀ R1, receiving size R1 curr ns' → ack_number R1 = Some m_iMaxSeqNo) as Hack.
  { intros R1 H1. rewrite (ack_number_run _ _ _ _ H1), Hhead. cbn. by rewrite Em. }
  destruct (negb _ || _); eexists; (split; [done|]; split; [by split|]; split;
    [apply Hack; by split|intros; by apply remove_loop_endless]).
Qed.
Lemma drop_range_forgotten_witness :
  ∃ L R', dropFromLossLists (lacking L) 0 1 = Some R' ∧
    receiving 16 R' (wrap + 3) (filter (λ y, ¬ (wrap <= y <= wrap + 1)) (seqZ (wrap - 2) 5)) ∧
    fresh_holds (m_FreshLoss R') (filter (λ y, wrap + 1 < y) (seqZ (wrap - 2) 5)).
Proof.
  destruct lacking_ok as (L & H1 & H2). exists L.
  apply (drop_range_forgotten 16 (lacking L) (wrap + 3) (seqZ (wrap - 2) 5) (seqZ (wrap - 2) 5) wrap (wrap + 1)).
  - exact H1.
  - exact H2.
  - lia.
  - vm_compute. reflexivity.
  - intros x Hx. split; apply near_seqZ; unfold m_iSeqNoTH; lia.
Defined.
Lemma drop_range_over_wrap_witness :
  ∃ L R', dropFromLossLists (lacking L) 0x7FFFFFFE 1 = Some R' ∧ ack_number R' = Some m_iMaxSeqNo.
Proof.
  destruct lacking_ok as (L & H1 & H2). exists L.
  destruct (drop_range_over_wrap 16 (lacking L) (wrap + 3) (seqZ (wrap - 2) 5) (wrap - 2) (wrap + 1) (wrap - 1))
    as (R' & E & _ & A & _).
  - exact H1.
  - lia.
  - reflexivity.
  - lia.
  - intros x Hx. apply near_seqZ; unfold m_iSeqNoTH; lia.
  - apply elem_of_seqZ. lia.
  - intros y Hy. apply elem_of_seqZ in Hy. lia.
  - exists R'. split; [exact E|exact A].
Defined.

(** ** What modelling showed *)

(** [insert] of a range that is more than the size of the array below the first
    number finds a position in the array all the same when the end of the range
    falls there: one number is in the list before, and what is taken is -1. *)
Lemma old_insert_corrupts :
  (let L0 := SndLoss.CSndLossList_new (λ i, SndLoss.mkSeq i i i) 4 in
   '(_, L) ← SndLoss.CSndLossList_insert L0 100 100;
   '(num, L) ← SndLoss.CSndLossList_insert L 95 96;
   '(x, L') ← SndLoss.CSndLossList_popLostSeq L;
   Some (num, SndLoss.CSndLossList_getLossLength L, x, SndLoss.CSndLossList_getLossLength L'))
  = Some (0, 1, -1, 0).
Proof. vm_compute. reflexivity. Qed.

(** [abs(seqcmp)] is not a distance: of the two neighbours at the wrap it is the
    largest number there is, so the first packet late by one after the wrap raises
    the tolerance to its maximum. *)
Lemma distance_over_wrap :
  abs (seqcmp (seqno wrap) (seqno (wrap - 1))) = m_iMaxSeqNo ∧ seqoff (seqno (wrap - 1)) (seqno wrap) = 1.
Proof. split; reflexivity. Qed.

(** A packet that cannot be decrypted hides the gap before it: nothing is recorded
    or reported, and the ACK covers the packets that never came. *)
Lemma undecrypted_hides_gap :
  ('(R, reports) ← process_packet (new_receiver 100 0) {| m_iSeqNo := 105; getRexmitFlag := false |} UNDECRYPTED 0;
   ack ← ack_number R;
   Some (reports, CRcvLossList_getLossLength (m_pRcvLossList R), ack)) = Some ([], 0, 106).
Proof. vm_compute. reflexivity. Qed.

(** A loss waits for its report, and then the tolerance falls to 0 with the 50-th
    packet in order: packets do not report it any more. *)
Lemma tolerance_zero_forgets :
  (let R0 := with_tolerance 1 0 48 0 (new_receiver 100 1) in
   '(R, rs) ← run_packets R0 ((λ x, (arrive x, ADDED)) <$> [100; 102; 103; 104; 105; 106]);
   Some (concat rs, length (m_FreshLoss R), m_iReorderTolerance R)) = Some ([], 1%nat, 0).
Proof. vm_compute. reflexivity. Qed.
