(* ===== verification/SndSpec.v ===== *)
(** * Correctness of the sender: its buffer and its data path

    Packet [x] of a stream carries [seqno x].  The buffer is a queue of packets of
    which the first ones were sent ([buf_pos]); the sender is such a queue with the
    number of its front and the numbers to be sent again ([path_ok]). *)
From S2P Require Import Prelude SeqNo LossRing RcvLossFacts SndLoss SndLossFacts LossSend LossSendFacts SndBuf SndBufFacts SndPath SndPathFacts.

(** ** The buffer is a queue *)

Inductive buf_op :=
  | BufAdd (data : bytes) (c : SRT_MSGCTRL) (time : Z)
  | BufRead (kflgs : Z)
  | BufReread (offset now : Z)
  | BufRexmitTime (offset : Z)
  | BufMsgNo (offset : Z)
  | BufAck (offset : Z)
  | BufDropLate (too_late : Z)
  | BufSize.
Inductive buf_ans :=
  | AnsAdded (pktseq msgno : Z)
  | AnsPacket (readlen : Z) (p : option packet)
  | AnsReread (r : reread)
  | AnsNumber (n : Z)
  | AnsDropped (pkts bytes msgno : Z).
Section buffer.
Context (uninit : Z → Block).
Definition buf_step (B : CSndBuffer) (o : buf_op) : option (buf_ans * CSndBuffer) :=
  match o with
  | BufAdd data c time => '(B, c) ← addBuffer uninit B data c time; Some (AnsAdded (pktseq c) (msgno c), B)
  | BufRead kflgs => '(n, p, B) ← readData B kflgs; Some (AnsPacket n p, B)
  | BufReread offset now => '(r, B) ← readData_at B offset now; Some (AnsReread r, B)
  | BufRexmitTime offset => t ← getPacketRexmitTime B offset; Some (AnsNumber t, B)
  | BufMsgNo offset => m ← getMsgNoAt B offset; Some (AnsNumber m, B)
  | BufAck offset => B ← ackData B offset; Some (AnsNumber 0, B)
  | BufDropLate t => '(n, b, m, B) ← dropLateData B t; Some (AnsDropped n b m, B)
  | BufSize => Some (AnsNumber (SndBuf.getCurrBufSize B), B)
  end.
Fixpoint buf_run (B : CSndBuffer) (ops : list buf_op) : option (list buf_ans * CSndBuffer) :=
  match ops with
  | [] => Some ([], B)
  | o :: ops => '(r, B) ← buf_step B o; '(rs, B) ← buf_run B ops; Some (r :: rs, B)
  end.
End buffer.

(** The queue: the packets, how many were sent, the next message number. *)
Record queue := { q_pkts : list spkt; q_sent : nat; q_msgno : Z }.
Definition queue_msgno (Q : queue) (c : SRT_MSGCTRL) : Z := if msgno c =? SRT_MSGNO_NONE then q_msgno Q else msgno c.
Definition queue_spec (mss : Z) (Q : queue) (o : buf_op) : buf_ans * queue :=
  let pkts := q_pkts Q in
  let k := q_sent Q in
  let to pkts k := {| q_pkts := pkts; q_sent := k; q_msgno := q_msgno Q |} in
  match o with
  | BufAdd data c time =>
      let next := queue_msgno Q c in
      let msg := cut_message mss next data c time in
      (AnsAdded (Nat.iter (length msg) incseq (pktseq c)) next,
       {| q_pkts := pkts ++ msg; q_sent := k; q_msgno := MsgNo_next next |})
  | BufRead kflgs =>
      match pkts !! k with
      | None => (AnsPacket 0 None, Q)
      | Some q => (AnsPacket (if kflgs =? -1 then 0 else len (q_data q)) (Some (pkt_packet (with_key kflgs q))),
                   to (<[k := with_key kflgs q]> pkts) (S k))
      end
  | BufReread offset now =>
      let i := Z.to_nat offset in
      match pkts !! i with
      | None => (AnsReread RereadNothing, Q)
      | Some q =>
          let m := Z.land (q_bits q) MSGNO_SEQ_mask in
          let e := S (same_msg m (drop (S i) pkts)) in
          if expired q now then
            (AnsReread (RereadExpired m (Z.of_nat e)), to pkts (if decide (i < k < i + e)%nat then (i + e)%nat else k))
          else (AnsReread (RereadPacket (len (q_data q)) (pkt_packet q)), to (<[i := pkt_set_rexmit now q]> pkts) k)
      end
  | BufRexmitTime offset => (AnsNumber (from_option q_rexmit 0 (pkts !! Z.to_nat offset)), Q)
  | BufMsgNo offset =>
      (AnsNumber (from_option (λ q, Z.land (q_bits q) MSGNO_SEQ_mask) SRT_MSGNO_CONTROL (pkts !! Z.to_nat offset)), Q)
  | BufAck offset => (AnsNumber 0, to (drop (Z.to_nat offset) pkts) (k - Z.to_nat offset)%nat)
  | BufDropLate t =>
      let n := n_late t pkts in
      (AnsDropped (Z.of_nat n) (pkt_bytes (take n pkts)) (MsgNo_next (last_msg 0 (take n pkts))), to (drop n pkts) (k - n)%nat)
  | BufSize => (AnsNumber (Z.of_nat (length pkts)), Q)
  end.
Fixpoint queue_run (mss : Z) (Q : queue) (ops : list buf_op) : list buf_ans * queue :=
  match ops with
  | [] => ([], Q)
  | o :: ops => let p := queue_spec mss Q o in let q := queue_run mss p.2 ops in (p.1 :: q.1, q.2)
  end.
(** What a caller keeps to: offsets within the queue, and a clock [clk] that moves
    between two messages. *)
Definition buf_op_ok (clk : Z) (Q : queue) (o : buf_op) : bool :=
  match o with
  | BufAdd _ _ time => (clk <? time) && (time <? 2 ^ 64)
  | BufReread offset _ | BufMsgNo offset => 0 <=? offset
  | BufRexmitTime offset => (0 <=? offset) && (offset <? Z.of_nat (length (q_pkts Q)))
  | BufAck offset => (0 <=? offset) && (offset <=? Z.of_nat (length (q_pkts Q)))
  | _ => true
  end.
Definition buf_clock (clk : Z) (o : buf_op) : Z := match o with BufAdd _ _ time => time | _ => clk end.
Fixpoint buf_ops_ok (mss clk : Z) (Q : queue) (ops : list buf_op) : bool :=
  match ops with
  | [] => true
  | o :: ops => buf_op_ok clk Q o && buf_ops_ok mss (buf_clock clk o) (queue_spec mss Q o).2 ops
  end.

(** The buffer holds the queue; its clock is not after [clk]. *)
Definition holds_queue (mss clk : Z) (B : CSndBuffer) (Q : queue) : Prop :=
  buf_pos B (q_sent Q) (q_pkts Q) ∧ m_iMSS B = mss ∧ m_iNextMsgNo B = q_msgno Q ∧
  0 <= m_tsInRateStartTime (m_rate B) <= clk.

Lemma holds_meta mss clk B B' Q pkts k :
  holds_queue mss clk B Q → buf_pos B' k pkts → same_meta B B' →
  holds_queue mss clk B' {| q_pkts := pkts; q_sent := k; q_msgno := q_msgno Q |}.
Proof.
  intros (_ & Hm & Hn & Hc) HB (E1 & E2 & _ & E4). split; [exact HB|]. by rewrite E1, E2, E4.
Qed.
Lemma buf_step_run uninit mss clk B Q o :
  (∀ p, len (SndBuf.m_pcData (uninit p)) = mss) → holds_queue mss clk B Q → buf_op_ok clk Q o = true →
  ∃ B', buf_step uninit B o = Some ((queue_spec mss Q o).1, B') ∧ holds_queue mss (buf_clock clk o) B' (queue_spec mss Q o).2.
Proof.
  intros Hu H Ho. destruct (H) as (HB & Hm & Hn & Hc). destruct o as [data c time|kflgs|offset now|offset|offset|offset|t|];
    cbn [buf_step queue_spec buf_op_ok buf_clock] in *.
  - destruct (addBuffer_pos uninit B _ _ data c time HB) as (B' & c' & -> & HB' & E1 & E2 & E3 & E4 & _ & E6); [by rewrite Hm|lia|lia|].
    unfold message in HB'. rewrite Hm in *. assert (next_msgno B c = queue_msgno Q c) as En by (unfold next_msgno, queue_msgno; by rewrite Hn).
    rewrite En in *. unfold cut_message. rewrite length_msg_pkts. exists B'. cbn [mbind option_bind fst snd]. rewrite E1, E2. split; [done|].
    split; [exact HB'|]. by rewrite E4, E3.
  - pose proof (readData_pos _ _ _ kflgs HB) as Hr. destruct (q_pkts Q !! q_sent Q) as [q|].
    + destruct Hr as (B' & -> & HB' & HM). exists B'. split; [done|]. by apply (holds_meta mss clk B).
    + rewrite Hr. by exists B.
  - pose proof (readData_at_pos _ _ _ offset now HB ltac:(lia)) as Hr. destruct (q_pkts Q !! Z.to_nat offset) as [q|].
    + cbv zeta in Hr. destruct Hr as (B' & -> & HM & HB'). exists B'. destruct (expired q now); (split; [done|]); by apply (holds_meta mss clk B).
    + rewrite Hr. by exists B.
  - destruct (lookup_lt_is_Some_2 (q_pkts Q) (Z.to_nat offset)) as [q Hq]; [lia|].
    rewrite (getPacketRexmitTime_pos _ _ _ offset q HB) by (lia || done). rewrite Hq. by exists B.
  - destruct HB as [Hk HB]. rewrite (getMsgNoAt_run _ _ _ offset HB), take_drop by lia. exists B. split; [|done].
    by destruct (q_pkts Q !! Z.to_nat offset).
  - destruct (ackData_pos _ _ _ offset HB) as (B' & -> & HB' & HM); [lia|]. exists B'. split; [done|]. by apply (holds_meta mss clk B).
  - destruct (dropLateData_pos _ _ _ t HB) as (B' & -> & HB' & HM). exists B'. split; [done|]. by apply (holds_meta mss clk B).
  - exists B. split; [|done]. unfold SndBuf.getCurrBufSize. by rewrite (buf_pos_count _ _ _ HB).
Qed.

(** C15. The buffer of the sender refines a queue: from any state that holds a queue,
    any sequence of messages added, of reads of the next packet, of reads for a
    retransmission (with messages whose time is over), of acknowledgements, of drops
    of late packets and of questions gives the answers that the queue gives; the
    circular list grows as needed, no link dangles and no division fails. *)
Theorem snd_buffer_refines uninit mss clk B Q ops :
  (∀ p, len (SndBuf.m_pcData (uninit p)) = mss) → holds_queue mss clk B Q → buf_ops_ok mss clk Q ops = true →
  ∃ B' clk', buf_run uninit B ops = Some ((queue_run mss Q ops).1, B') ∧ holds_queue mss clk' B' (queue_run mss Q ops).2.
Proof.
  intros Hu. revert clk B Q. induction ops as [|o ops IH]; intros clk B Q H Hops; [by exists B, clk|].
  apply andb_true_iff in Hops as [Ho Hops]. destruct (buf_step_run _ _ _ _ _ _ Hu H Ho) as (B1 & E & H1).
  cbn [buf_run queue_run]. rewrite E. cbn [mbind option_bind fst snd].
  destruct (IH _ _ _ H1 Hops) as (B2 & clk2 & -> & H2). by exists B2, clk2.
Qed.

(** A buffer of two blocks of three bytes. *)
Definition demo_block (p : Z) : Block := mkBlock (replicate 3 0) 0 0 0 0 0 0 0 p.
Definition demo_ctrl (ttl : Z) : SRT_MSGCTRL :=
  {| msgttl := ttl; inorder := true; srctime := 0; pktseq := 0x7FFFFFFE; msgno := SRT_MSGNO_NONE |}.
Definition demo_buffer : CSndBuffer :=
  default (with_counts 0 0 {| m_blocks := ∅; m_fresh := 0; m_pFirstBlock := 0; m_pCurrBlock := 0; m_pLastBlock := 0; m_pBuffer := [];
    m_iNextMsgNo := 0; m_iSize := 0; m_iMSS := 0; m_iCount := 0; m_iBytesCount := 0; m_tsLastOriginTime := 0;
    m_rate := {| m_iInRatePktsCount := 0; m_iInRateBytesCount := 0; m_tsInRateStartTime := 0; m_InRatePeriod := 0; m_iInRateBps := 0 |} |})
    (CSndBuffer_new demo_block 2 3).
Definition demo_queue : queue := {| q_pkts := []; q_sent := 0; q_msgno := 1 |}.
Lemma demo_buffer_holds : holds_queue 3 0 demo_buffer demo_queue.
Proof.
  destruct (CSndBuffer_new_run demo_block 3 (λ _, eq_refl) 2) as (B & E & HB & Em & Er & _ & En); [lia|lia|].
  unfold demo_buffer. rewrite E. cbn [from_option]. unfold id. split; [|rewrite Em, Er, En; split; [done|split; [done|lia]]].
  split; [done|]. by eexists _, _, _.
Qed.
Definition demo_buf_ops : list buf_op :=
  [BufRead 0; BufAdd [1; 2; 3; 4; 5; 6; 7] (demo_ctrl 5) 10; BufRead 0; BufRead 1; BufMsgNo 1; BufReread 0 20;
   BufRexmitTime 0; BufAdd [8] (demo_ctrl (-1)) 11; BufReread 0 9000; BufRead 0; BufAck 3; BufDropLate 12; BufSize].
Lemma snd_buffer_refines_witness :
  buf_ops_ok 3 0 demo_queue demo_buf_ops = true ∧
  ∃ B' clk', buf_run demo_block demo_buffer demo_buf_ops = Some ((queue_run 3 demo_queue demo_buf_ops).1, B') ∧
    holds_queue 3 clk' B' (queue_run 3 demo_queue demo_buf_ops).2.
Proof.
  split; [by vm_compute|].
  exact (snd_buffer_refines demo_block 3 0 demo_buffer demo_queue demo_buf_ops (λ _, eq_refl) demo_buffer_holds ltac:(by vm_compute)).
Defined.

(** ** A message and its packets *)

(** A message of any length is cut into packets of at most [mss] bytes, none of
    them empty: put together they are the message, they have the numbers that follow
    the one it was given, one message number, its time of origin, its time to live and
    order flag, and the first and the last of them, and no others, are marked. *)
Theorem message_cut mss next data c time :
  0 < mss → 1 <= next <= MSGNO_SEQ_mask →
  let msg := cut_message mss next data c time in
  concat (q_data <$> msg) = data ∧
  ∀ i q, msg !! i = Some q →
    0 < len (q_data q) <= mss ∧ q_seq q = Nat.iter i incseq (pktseq c) ∧ q_origin q = time ∧ q_ttl q = msgttl c ∧
    Z.land (q_bits q) MSGNO_SEQ_mask = next ∧ Z.testbit (q_bits q) 29 = inorder c ∧
    Z.testbit (q_bits q) 31 = (i =? 0)%nat ∧ Z.testbit (q_bits q) 30 = (i =? length msg - 1)%nat.
Proof. apply cut_message_facts. Qed.
Lemma message_cut_witness :
  (0 < 3 ∧ 1 <= 5 <= MSGNO_SEQ_mask) ∧
  concat (q_data <$> cut_message 3 5 [1; 2; 3; 4; 5; 6; 7] (demo_ctrl 5) 10) = [1; 2; 3; 4; 5; 6; 7].
Proof.
  split; [split; [lia|by vm_compute]|].
  exact (proj1 (message_cut 3 5 [1; 2; 3; 4; 5; 6; 7] (demo_ctrl 5) 10 ltac:(lia) ltac:(by vm_compute))).
Defined.

(** ** The sender runs *)

(** C12. For any sequence of calls — messages sent or resumed, packets taken, reports,
    acknowledgements, timeouts — each admissible when its turn comes ([calls_ok]: the clock
    is past the last message; data is left to resume with; no key is missing when
    encryption is required; an ACK has its seven words and is not beyond the last packet
    sent; a report names ranges that end within what was sent), with a cipher that keeps
    the length of the data and a buffer smaller than the array of the loss list, none fails, and
    the state stays a queue of numbered packets: the front of the buffer has the number
    of the last acknowledgement ([m_iSndLastAck] and [m_iSndLastDataAck] agree), packet
    [i] of the buffer has the [i]-th number after it, the current block is the one after
    [m_iSndCurrSeqNo], the next message gets the number after the last packet, and the
    numbers to be sent again are numbers in flight.  Packets once sent keep their data
    and their message number until they are released.  Outside these conditions it does
    not hold ([unsent_acknowledged], [missing_key_shifts_numbers]). *)
Theorem sender_run_invariant uninit encrypt C size mss D A cs :
  (∀ p, len (SndBuf.m_pcData (uninit p)) = mss) → (∀ p d, encrypt p = Some d → len d = len (m_pcData p)) →
  m_iMaxSRTPayloadSize C = mss → iSndBufSize C < size →
  path_ok size mss D A → calls_ok uninit encrypt C cs D = true →
  ∃ ps D' A', run_calls uninit encrypt C cs D = Some (ps, D') ∧ path_ok size mss D' A' ∧ keeps A A'.
Proof. intros Hu He Hm Hb. by apply run_calls_ok. Qed.

(** C16. [packData] refines the choice on the queue: a lost packet that was not sent
    again just now, its message not over its time, goes first, with the number, the data
    and the message number it had, and the messages that are over are given up; then a
    packet of the packet filter; then, within the flow and the congestion windows, the
    next packet of the buffer, with the number that was scheduled for it; the cipher
    writes over the data in the buffer too. *)
Theorem packData_refines encrypt size mss C W now D A :
  (∀ p d, encrypt p = Some d → len d = len (m_pcData p)) → path_ok size mss D A → getSndCryptoFlags W ≠ -1 →
  let r := pack_spec encrypt C W (d_est D) (m_iFlowWindowSize D) now A in
  ∃ payload t D' acts, packData encrypt C W now D = Some (payload, t, r.1, D', acts) ∧ path_ok size mss D' r.2.
Proof. intros He. by apply packData_run. Qed.

Lemma lost_spec_result n C E now A x q A' acts :
  lost_spec n C E now A = (Some (x, q), A', acts) → x ∈ a_lost A ∧ a_pkts A !! Z.to_nat (x - a_ack A) = Some q.
Proof.
  revert A acts. induction n as [|n IH]; intros A acts; cbn [lost_spec]; [done|].
  destruct (a_lost A) as [|y ms] eqn:El; [done|]. destruct (a_pkts A !! Z.to_nat (y - a_ack A)) as [p|] eqn:Hp; [|done].
  destruct (rexmit_recently C E now p); [|destruct (expired p now)].
  - intros [Hx Hq]%IH. split; [by right|done].
  - set (A1 := mkQ _ _ _ _). destruct (lost_spec n C E now A1) as [[r A2] a] eqn:E1. intros [= -> -> _].
    apply IH in E1 as [Hx Hq]. cbn in Hx, Hq. apply list_elem_of_filter in Hx as [_ Hx]. split; [by right|done].
  - intros [= -> -> _ _]. split; [left|done].
Qed.

(** C9. A retransmission carries what the first transmission carried: when [packData]
    sends a new packet, and later, after any calls, a packet with its number is taken from
    the losses, it has the same data (encrypted, if the first was) and the same message
    number, with the retransmission flag when the peer knows it. *)
Theorem resent_as_sent uninit encrypt C size mss D A cs W now payload t p0 D1 acts :
  (∀ p, len (SndBuf.m_pcData (uninit p)) = mss) → (∀ p d, encrypt p = Some d → len d = len (m_pcData p)) →
  m_iMaxSRTPayloadSize C = mss → iSndBufSize C < size →
  path_ok size mss D A → a_lost A = [] → m_PacketFilter W = false → getSndCryptoFlags W ≠ -1 →
  packData encrypt C W now D = Some (payload, t, Some p0, D1, acts) →
  calls_ok uninit encrypt C cs D1 = true →
  m_iSeqNo p0 = seqno (a_curr A + 1) ∧
  ∃ ps D2 A2, run_calls uninit encrypt C cs D1 = Some (ps, D2) ∧ path_ok size mss D2 A2 ∧
    ∀ now2 n p t2 D3 acts2, packLostData C now2 D2 = Some (n, Some (p, t2), D3, acts2) →
      ∃ x, m_iSeqNo p = seqno x ∧ x ∈ a_lost A2 ∧
        (x = a_curr A + 1 → m_pcData p = m_pcData p0 ∧
          m_iMsgNo p = (if m_bPeerRexmitFlag C then Z.lor (m_iMsgNo p0) PACKET_SND_REXMIT else m_iMsgNo p0)).
Proof.
  intros Hu He Hm Hb H Hl Hf Hk Hp Hcs.
  destruct (packData_run encrypt He size mss C W now D A H Hk) as (pl & t' & D1' & acts' & E & H1).
  rewrite Hp in E. injection E as _ _ E <- _. unfold pack_spec in E, H1. rewrite Hl, Hf in E, H1.
  cbn [length lost_spec fst snd] in E, H1. destruct (m_bOpened W); cbn [negb] in E, H1; [|done].
  destruct (new_spec _ _ _) as [[x q]|] eqn:En; [|done].
  assert (x = a_curr A + 1) as Ex.
  { unfold new_spec in En. destruct (_ <? _); [|done]. destruct (a_pkts A !! a_sent A); [|done]. injection En as <- _. unfold a_curr. lia. }
  assert (∃ q1, path_ok size mss D1 (new_key A q1) ∧ m_pcData p0 = q_data q1 ∧ m_iMsgNo p0 = q_bits q1 ∧ m_iSeqNo p0 = seqno x)
    as (q1 & H1' & Ed & Eb & Es).
  { destruct (getSndCryptoFlags W =? 0); [|destruct (encrypt _)]; cbn [fst snd] in E, H1; try done; injection E as ->; by eexists. }
  rewrite Es, Ex. split; [done|].
  destruct (run_calls_ok uninit encrypt C size mss Hu He Hm Hb cs D1 _ H1' Hcs) as (ps & D2 & A2 & E2 & H2 & [Hack K]).
  exists ps, D2, A2. split; [done|]. split; [done|]. intros now2 n p t2 D3 acts2 Er.
  destruct (packLostData_run _ _ C now2 _ _ H2) as (D3' & E3 & _). rewrite Er in E3. injection E3 as _ Ep _ _.
  destruct (lost_spec (length (a_lost A2)) C (d_est D2) now2 A2) as [[[[y q2]|] A3] a3] eqn:Els; [|done].
  cbn [fst snd lost_packet] in Ep. injection Ep as -> _. apply lost_spec_result in Els as [Hy Hq2]. exists y.
  split; [done|]. split; [done|]. intros ->. destruct (path_lost _ _ _ _ _ H2 Hy) as (_ & _ & Hr & _).
  destruct (po_buf _ _ _ _ H) as [Hs _].
  assert (a_pkts (new_key A q1) !! Z.to_nat (a_curr A + 1 - a_ack (new_key A q1)) = Some q1) as Hq1.
  { cbn. replace (Z.to_nat (a_curr A + 1 - a_ack A)) with (a_sent A) by (unfold a_curr; lia). apply list_lookup_insert_eq.
    unfold new_spec in En. destruct (_ <? _); [|done]. destruct (a_pkts A !! a_sent A) eqn:Hl2; [|done]. by eapply lookup_lt_Some. }
  destruct (K (a_curr A + 1) q1) as (_ & q3 & Hq3 & E4 & E5); [unfold a_curr; cbn; lia|lia|exact Hq1|].
  rewrite Hq2 in Hq3. injection Hq3 as <-. cbn [wire m_pcData m_iMsgNo]. unfold rexmit_bits. by rewrite E4, E5, Ed, Eb.
Qed.

(** A sender of messages of up to ten packets of three bytes; the cipher flips the
    bits. *)
Definition demo_config : path_config :=
  {| m_bPeerRexmitFlag := true; m_bPeerNakReport := true; iRetransmitAlgo := 1; m_bPeerTsbPd := true;
     m_bPeerTLPktDrop := true; m_bTsbPd := true; m_iPeerTsbPdDelay_ms := 120; m_PeerID := 7; tsStartTime := 1;
     bMessageAPI := true; bSynSending := false; iSndDropDelay := 0; iSndBufSize := 10; iSndTimeOut := -1;
     m_iMaxSRTPayloadSize := 3 |}.
Definition demo_cipher (p : CPacket) : option bytes := Some (Z.lxor 255 <$> m_pcData p).
Definition demo_path0 : CUDT_path :=
  {| d_snd := {| m_pSndLossList := CSndLossList_new (λ _, mkSeq 0 0 0) 0; m_iSndLastAck := 0; m_iSndCurrSeqNo := 0;
       m_iReXmitCount := 1; traceSndLoss := 0; sndLossTotal := 0; recvNAK := 0; recvNAKTotal := 0;
       m_bBroken := false; m_iBrokenCounter := 0 |};
     m_pSndBuffer := demo_buffer; m_iSndLastDataAck := 0; m_iSndNextSeqNo := 0; m_iSndLastFullAck := 0;
     m_iSndLastAck2 := 0; m_SndLastAck2Time := 0; m_iFlowWindowSize := 8; m_tsLastRspAckTime := 0;
     d_est := {| m_iSRTT := INITIAL_RTT; m_iRTTVar := INITIAL_RTTVAR; m_bIsFirstRTTReceived := false;
       m_iBandwidth := 1; m_iDeliveryRate := 16; m_iByteDeliveryRate := 48 |};
     d_times := {| m_tsNextSendTime := 0; m_tdSendTimeDiff := 0; m_tsLastSndTime := 0 |} |}.
(** Connected, with the last sequence number but one as the first of the stream. *)
Definition demo_isn : Z := 0x7FFFFFFE.
Definition demo_path : CUDT_path :=
  setInitialSndSeq demo_isn (default demo_path0 (prepareSender demo_block (λ _, mkSeq 0 0 0) demo_config demo_path0)).
Lemma demo_path_ok : path_ok 16 3 demo_path (mkQ demo_isn 0 [] []).
Proof.
  destruct (prepareSender_run demo_block (λ _, mkSeq 0 0 0) demo_config demo_path0 demo_isn (λ _, eq_refl))
    as (D & E & H); [done|by vm_compute|by vm_compute|]. unfold demo_path. rewrite E. exact H.
Qed.
Lemma demo_cipher_length p d : demo_cipher p = Some d → len d = len (m_pcData p).
Proof. intros [= <-]. unfold len. by rewrite length_fmap. Qed.
Definition demo_status : send_status :=
  {| m_bClosing := false; m_bConnected := true; m_CongCtl_ready := true; m_bPeerHealth := true; checkTransArgs := true |}.
Definition demo_inputs (flags : Z) : pack_inputs :=
  {| m_bOpened := true; cc_window := 6; getSndCryptoFlags := flags; packControlPacket := None; m_PacketFilter := false;
     m_tdSendInterval := 5 |}.
Definition demo_timer : rexmit_inputs :=
  {| currtime := 2000000; LossSend.m_tsLastRspAckTime := 0; LossSend.m_iSRTT := 100; LossSend.m_iRTTVar := 50;
     LossSend.getCurrBufSize := 4; rexmitMethod := SRM_LATEREXMIT; LossSend.m_bPeerNakReport := true |}.
Definition demo_send (now : Z) (data : bytes) (ttl : Z) : path_call := Call (OpSend demo_status now data (demo_ctrl ttl)).
Definition demo_pack (now : Z) : path_call := Call (OpPack (demo_inputs 1) now).
Definition demo_ack (s : Z) : path_call := Call (OpAck false [s; 300; 50; 8; 0; 0; 0; 0] 32 1 500).
(** The ends of the run: the packets sent, by number, message number and data. *)
Definition sent_packets (r : option (list (option CPacket) * CUDT_path)) : list (Z * Z * bytes) :=
  match r with
  | Some (ps, _) => omap (λ p, (λ p, (m_iSeqNo p, Z.land (m_iMsgNo p) (PACKET_SND_REXMIT + MSGNO_SEQ_mask), m_pcData p)) <$> p) ps
  | None => []
  end.
Definition demo_calls : list path_call :=
  [demo_send 1010 [1; 2; 3; 4; 5; 6; 7] (-1); demo_pack 1020; demo_pack 1030; demo_pack 1040; CallReport [(0, 1)];
   demo_pack 1050; demo_ack 0x7FFFFFFF; demo_pack 1060; Call (OpTimer demo_timer); demo_pack 1070; demo_pack 1370;
   demo_ack 1; demo_send 1380 [8] (-1); demo_pack 1390].
Example demo_run :
  sent_packets (run_calls demo_block demo_cipher demo_config demo_calls demo_path)
  = [(0x7FFFFFFE, 1, [254; 253; 252]); (0x7FFFFFFF, 1, [251; 250; 249]); (0, 1, [248]);
     (0x7FFFFFFE, PACKET_SND_REXMIT + 1, [254; 253; 252]); (0x7FFFFFFF, PACKET_SND_REXMIT + 1, [251; 250; 249]);
     (0, PACKET_SND_REXMIT + 1, [248]); (1, 2, [247])].
Proof. vm_compute. reflexivity. Qed.

Lemma sender_run_invariant_witness :
  calls_ok demo_block demo_cipher demo_config demo_calls demo_path = true ∧
  ∃ ps D' A', run_calls demo_block demo_cipher demo_config demo_calls demo_path = Some (ps, D') ∧
    path_ok 16 3 D' A' ∧ keeps (mkQ demo_isn 0 [] []) A'.
Proof.
  split; [vm_compute; reflexivity|].
  refine (sender_run_invariant demo_block demo_cipher demo_config 16 3 demo_path (mkQ demo_isn 0 [] []) demo_calls
    (λ _, eq_refl) demo_cipher_length eq_refl _ demo_path_ok _); [done|vm_compute; reflexivity].
Defined.
Lemma packData_refines_witness :
  let r := pack_spec demo_cipher demo_config (demo_inputs 0) (d_est demo_path) (m_iFlowWindowSize demo_path) 20 (mkQ demo_isn 0 [] []) in
  ∃ payload t D' acts, packData demo_cipher demo_config (demo_inputs 0) 20 demo_path = Some (payload, t, r.1, D', acts) ∧
    path_ok 16 3 D' r.2.
Proof. refine (packData_refines demo_cipher 16 3 demo_config (demo_inputs 0) 20 demo_path _ demo_cipher_length demo_path_ok _). done. Defined.

(** The sender with a message in the buffer, and after its first packet. *)
Definition demo_state (cs : list path_call) : CUDT_path :=
  from_option snd demo_path (run_calls demo_block demo_cipher demo_config cs demo_path).
Definition demo_added : CUDT_path := demo_state [demo_send 1010 [1; 2; 3; 4; 5; 6; 7] (-1)].
Definition demo_first : CUDT_path := demo_state [demo_send 1010 [1; 2; 3; 4; 5; 6; 7] (-1); demo_pack 1020].
Lemma demo_state_ok cs :
  calls_ok demo_block demo_cipher demo_config cs demo_path = true → ∃ A, path_ok 16 3 (demo_state cs) A.
Proof.
  intros H. destruct (run_calls_ok demo_block demo_cipher demo_config 16 3 (λ _, eq_refl) demo_cipher_length eq_refl
    ltac:(done) cs demo_path _ demo_path_ok H) as (ps & D & A & E & HD & _). exists A. unfold demo_state. by rewrite E.
Qed.
Lemma no_losses size mss D A : path_ok size mss D A → CSndLossList_getLossLength (m_pSndLossList (d_snd D)) = 0 → a_lost A = [].
Proof. intros H E. rewrite (snd_getLossLength_run _ _ _ (snd_list _ _ _ _ _ (po_send _ _ _ _ H))) in E. by destruct (a_lost A). Qed.

Definition demo_p0 : CPacket :=
  {| m_iSeqNo := demo_isn; m_iMsgNo := -1476395007; m_iTimeStamp := 1009; m_iID := 7; m_pcData := [254; 253; 252] |}.
Definition demo_first_calls : list path_call := [demo_pack 1030; CallReport [(0, 0)]].
Lemma resent_as_sent_witness :
  ∃ A, path_ok 16 3 demo_added A ∧ a_lost A = [] ∧
  (∃ acts, packData demo_cipher demo_config (demo_inputs 1) 1020 demo_added = Some (3, 1025, Some demo_p0, demo_first, acts)) ∧
  m_iSeqNo demo_p0 = seqno (a_curr A + 1) ∧
  ∃ ps D2 A2, run_calls demo_block demo_cipher demo_config demo_first_calls demo_first = Some (ps, D2) ∧ path_ok 16 3 D2 A2 ∧
    ∀ now2 n p t2 D3 acts2, packLostData demo_config now2 D2 = Some (n, Some (p, t2), D3, acts2) →
      ∃ x, m_iSeqNo p = seqno x ∧ x ∈ a_lost A2 ∧
        (x = a_curr A + 1 → m_pcData p = m_pcData demo_p0 ∧ m_iMsgNo p = Z.lor (m_iMsgNo demo_p0) PACKET_SND_REXMIT).
Proof.
  destruct (demo_state_ok [demo_send 1010 [1; 2; 3; 4; 5; 6; 7] (-1)] ltac:(vm_compute; reflexivity)) as [A HA].
  assert (a_lost A = []) as HL by (apply (no_losses _ _ _ _ HA); vm_compute; reflexivity).
  assert (∃ acts, packData demo_cipher demo_config (demo_inputs 1) 1020 demo_added
    = Some (3, 1025, Some demo_p0, demo_first, acts)) as [acts HP] by (eexists; vm_compute; reflexivity).
  exists A. split; [exact HA|]. split; [exact HL|]. split; [by exists acts|].
  exact (resent_as_sent demo_block demo_cipher demo_config 16 3 demo_added A demo_first_calls (demo_inputs 1) 1020 3 1025 demo_p0
    demo_first acts (λ _, eq_refl) demo_cipher_length eq_refl ltac:(done) HA HL eq_refl ltac:(done) HP ltac:(vm_compute; reflexivity)).
Defined.

(** ** Messages, acknowledgements *)

(** C24. A call of [sendmsg2] takes the whole message or, in the stream mode, as much of
    its beginning as there is room for, at least a byte; the packets of what it takes,
    put together, are that part of the data, and enter the queue at its end.  Any other
    outcome — an exception, a wait, 0 — takes nothing.  What was in the queue stays,
    but for the packets that are too late, which leave it from the front. *)
Theorem sendmsg2_accepts uninit size mss C St now data c D A :
  (∀ p, len (SndBuf.m_pcData (uninit p)) = mss) → path_ok size mss D A → m_iMaxSRTPayloadSize C = mss →
  iSndBufSize C < size → m_tsLastOriginTime (m_pSndBuffer D) < now < 2 ^ 64 →
  ∃ r c' D' acts A1 A', sendmsg2 uninit C St now data c D = Some (r, c', D', acts) ∧ path_ok size mss D' A' ∧
    (A1 = A ∨ A1 = late_spec (now - drop_threshold C * 1000) A) ∧
    match r with
    | Returned n => n = 0 ∧ A' = A1 ∨
        ∃ msg, 0 < n <= len data ∧ (bMessageAPI C = true → n = len data) ∧
          concat (q_data <$> msg) = take (Z.to_nat n) data ∧
          A' = mkQ (a_ack A1) (a_sent A1) (a_pkts A1 ++ msg) (a_lost A1)
    | _ => A' = A1
    end.
Proof. intros Hu H Hm Hb Ht. by apply sendmsg2_run. Qed.
Lemma sendmsg2_accepts_witness :
  ∃ r c' D' acts A1 A',
    sendmsg2 demo_block demo_config demo_status 10 [1; 2; 3; 4] (demo_ctrl 5) demo_path = Some (r, c', D', acts) ∧
    path_ok 16 3 D' A' ∧
    (A1 = mkQ demo_isn 0 [] [] ∨ A1 = late_spec (10 - drop_threshold demo_config * 1000) (mkQ demo_isn 0 [] [])) ∧
    match r with
    | Returned n => n = 0 ∧ A' = A1 ∨
        ∃ msg, 0 < n <= 4 ∧ (true = true → n = 4) ∧
          concat (q_data <$> msg) = take (Z.to_nat n) [1; 2; 3; 4] ∧
          A' = mkQ (a_ack A1) (a_sent A1) (a_pkts A1 ++ msg) (a_lost A1)
    | _ => A' = A1
    end.
Proof.
  refine (sendmsg2_accepts demo_block 16 3 demo_config demo_status 10 [1; 2; 3; 4] (demo_ctrl 5) demo_path _
    (λ _, eq_refl) demo_path_ok eq_refl _ _); [done|]. split; vm_compute; reflexivity.
Defined.

(** C23. An ACK of the number [a], full or lite, not beyond the last packet sent: exactly
    the packets before [a] leave the buffer and the numbers before [a] the losses, and
    nothing else does; one that is not ahead of the front changes nothing of the queue. *)
Theorem processCtrlAck_releases size mss C b words n ack_seqno t D A a :
  path_ok size mss D A → a_ack A - 2 ^ 28 <= a <= a_curr A + 1 → words !! 0%nat = Some (seqno a) → (7 <= length words)%nat →
  ∃ D' acts, processCtrlAck C b words n ack_seqno t D = Some (D', acts) ∧
    path_ok size mss D' (if a <=? a_ack A then A
      else mkQ a (a_sent A - Z.to_nat (a - a_ack A)) (drop (Z.to_nat (a - a_ack A)) (a_pkts A))
             (filter (λ x, a - 1 < x) (a_lost A))).
Proof. apply processCtrlAck_run. Qed.
Lemma processCtrlAck_releases_witness :
  ∃ D' acts, processCtrlAck demo_config false [demo_isn; 300; 50; 8; 0; 0; 0] 28 1 500 demo_path = Some (D', acts) ∧
    path_ok 16 3 D' (if demo_isn <=? demo_isn then mkQ demo_isn 0 [] []
      else mkQ demo_isn (0 - Z.to_nat (demo_isn - demo_isn)) (drop (Z.to_nat (demo_isn - demo_isn)) [])
             (filter (λ x, demo_isn - 1 < x) [])).
Proof.
  refine (processCtrlAck_releases 16 3 demo_config false [demo_isn; 300; 50; 8; 0; 0; 0] 28 1 500 demo_path
    (mkQ demo_isn 0 [] []) demo_isn demo_path_ok _ _ _); [|vm_compute; reflexivity|simpl; lia].
  split; by vm_compute.
Defined.

(** C40. An ACK, full or lite, of a packet that is in the buffer but was never sent
    releases it, and all before it, before the number is checked: the data is lost; a
    full ACK then breaks the connection, a lite one goes unnoticed. *)
Theorem unsent_acknowledged size mss C b words n ack_seqno t D A a :
  path_ok size mss D A → a_curr A + 1 < a <= a_ack A + Z.of_nat (length (a_pkts A)) →
  words !! 0%nat = Some (seqno a) → (7 <= length words)%nat →
  ∃ D' acts, processCtrlAck C b words n ack_seqno t D = Some (D', acts) ∧
    buf_pos (m_pSndBuffer D') 0 (drop (Z.to_nat (a - a_ack A)) (a_pkts A)) ∧
    m_bBroken (d_snd D') = (if n =? SEND_LITE_ACK then m_bBroken (d_snd D) else true).
Proof.
  intros H Ha Hw Hl. unfold processCtrlAck. change ACKD_RCVLASTACK with 0%nat. rewrite Hw. cbn [mbind option_bind].
  pose proof (seqno_nonneg a). rewrite (proj2 (Z.ltb_ge (seqno a) 0)) by done. pose proof (path_size _ _ _ _ H) as Hsz.
  pose proof (po_room _ _ _ _ H) as Hroom. destruct (po_send _ _ _ _ H) as [Hla Hcu HL Hs Hf]. unfold a_curr in *.
  unfold updateSndLossListOnACK. rewrite (po_ack _ _ _ _ H), seqoff_seqno by (unfold near, m_iSeqNoTH; lia).
  rewrite (proj2 (Z.leb_gt (a - a_ack A) 0)), decseq_seqno by lia.
  destruct (CSndLossList_removeUpTo_run size _ _ (a - 1) HL) as (L & -> & HL').
  { intros h Hh. specialize (Hf h ltac:(destruct (a_lost A); [done|]; injection Hh as ->; left)). unfold near, m_iSeqNoTH. lia. }
  cbn [mbind option_bind]. destruct (ackData_pos _ _ _ (a - a_ack A) (po_buf _ _ _ _ H)) as (B & -> & HB & _); [lia|].
  replace (a_sent A - Z.to_nat (a - a_ack A))%nat with 0%nat in HB by lia. cbn [mbind option_bind].
  destruct (n =? SEND_LITE_ACK).
  { eexists _, _. split; [done|]. unfold lite_ack. by case_match. }
  destruct (lookup_lt_is_Some_2 words 3) as [w Hw3]; [lia|]. change ACKD_BUFFERLEFT with 3%nat.
  unfold answer_ack. destruct (_ || _); rewrite Hw3; cbn [mbind option_bind]; unfold full_ack; cbn [d_snd m_iSndCurrSeqNo set_snd
    set_losses with_buffer with_snd with_acks]; rewrite Hcu, incseq_seqno, seqcmp_gt by (unfold near, m_iSeqNoTH; lia);
    rewrite (proj2 (Z.ltb_lt _ a)) by lia; by eexists _, _.
Qed.
Lemma unsent_acknowledged_witness :
  ∃ A a, path_ok 16 3 demo_added A ∧ a_curr A + 1 < a <= a_ack A + Z.of_nat (length (a_pkts A)) ∧
  ∃ D' acts, processCtrlAck demo_config false [seqno a; 300; 50; 8; 0; 0; 0] 28 1 500 demo_added = Some (D', acts) ∧
    buf_pos (m_pSndBuffer D') 0 (drop (Z.to_nat (a - a_ack A)) (a_pkts A)) ∧ m_bBroken (d_snd D') = true.
Proof.
  destruct (demo_state_ok [demo_send 1010 [1; 2; 3; 4; 5; 6; 7] (-1)] ltac:(vm_compute; reflexivity)) as [A HA].
  assert (length (a_pkts A) = 3%nat) as E1.
  { pose proof (buf_pos_count _ _ _ (po_buf _ _ _ _ HA)) as E. assert (m_iCount (m_pSndBuffer demo_added) = 3) as E2 by (vm_compute; reflexivity).
    unfold demo_added in E2. lia. }
  assert (a_sent A = 0%nat) as E2.
  { pose proof (path_flight _ _ _ _ HA) as E.
    assert (flight demo_added = 0) as E3 by (vm_compute; reflexivity). unfold flight, demo_added in E3. lia. }
  assert (a_curr A + 1 < a_ack A + 2 <= a_ack A + Z.of_nat (length (a_pkts A))) as Ha by (unfold a_curr; rewrite E1, E2; lia).
  exists A, (a_ack A + 2). split; [exact HA|]. split; [exact Ha|].
  exact (unsent_acknowledged 16 3 demo_config false [seqno (a_ack A + 2); 300; 50; 8; 0; 0; 0] 28 1 500 demo_added A (a_ack A + 2)
    HA Ha eq_refl ltac:(simpl; lia)).
Defined.
(** Such an ACK beyond all packets makes the count negative. *)
Example unsent_count_negative :
  ('(D, _) ← processCtrlAck demo_config false [4; 300; 50; 8; 0; 0; 0] 4 1 500 demo_added; Some (m_iCount (m_pSndBuffer D))) = Some (-3).
Proof. vm_compute. reflexivity. Qed.

(** When packets go both ways, the round trip time that an ACK brings is not used
    once a first one is known: the smoothed value is averaged with itself and stays, and
    its variation only falls. *)
Theorem rtt_not_learned E rtt rtt' rttvar :
  m_bIsFirstRTTReceived E = true → 0 <= m_iSRTT E < 2 ^ 31 → 0 <= m_iRTTVar E < 2 ^ 31 →
  update_rtt true rtt rttvar E = update_rtt true rtt' rttvar E ∧
  m_iSRTT (update_rtt true rtt rttvar E) = m_iSRTT E ∧ 0 <= m_iRTTVar (update_rtt true rtt rttvar E) <= m_iRTTVar E.
Proof.
  intros HF Hs Hv. unfold update_rtt. rewrite HF. split; [done|]. destruct (_ && _); cbn [m_iSRTT m_iRTTVar]; [|lia].
  unfold avg_iir, abs. rewrite Z.sub_diag. change (i32 (Z.abs (i32 0))) with 0. unfold u64.
  rewrite (Z.mod_small (_ + m_iSRTT E)), (Z.mod_small (_ + 0)) by lia.
  replace (m_iSRTT E * (8 - 1) + m_iSRTT E) with (m_iSRTT E * 8) by lia. rewrite Z.div_mul by lia.
  assert (0 <= (m_iRTTVar E * (4 - 1) + 0) / 4 <= m_iRTTVar E) as Hd by (split; [apply Z.div_pos|apply Z.div_le_upper_bound]; lia).
  rewrite !i32_small by lia. done.
Qed.
Definition demo_estimates : ack_estimates :=
  {| m_iSRTT := 30000; m_iRTTVar := 8000; m_bIsFirstRTTReceived := true; m_iBandwidth := 1; m_iDeliveryRate := 16;
     m_iByteDeliveryRate := 48 |}.
Lemma rtt_not_learned_witness :
  update_rtt true 500000 100 demo_estimates = update_rtt true 20 100 demo_estimates ∧
  m_iSRTT (update_rtt true 500000 100 demo_estimates) = 30000 ∧ 0 <= m_iRTTVar (update_rtt true 500000 100 demo_estimates) <= 8000.
Proof. exact (rtt_not_learned demo_estimates 500000 20 100 eq_refl ltac:(by vm_compute) ltac:(by vm_compute)). Defined.

(** ** Corners *)

(** When the cipher fails, the packet is not sent but it counts as sent: it goes out
    after a report of its loss, in the clear, with the flags of the key. *)
Definition no_cipher (p : CPacket) : option bytes := None.
Definition sent_keys (r : option (list (option CPacket) * CUDT_path)) : list (bytes * Z) :=
  match r with
  | Some (ps, _) => omap (λ p, (λ p, (m_pcData p, Z.land (m_iMsgNo p) MSGNO_ENCKEYSPEC_mask)) <$> p) ps
  | None => []
  end.
Example failed_encryption_in_clear :
  let calls := [demo_send 1010 [1; 2; 3] (-1); demo_pack 1020; CallReport [(0, 0)]; demo_pack 1030] in
  sent_keys (run_calls demo_block no_cipher demo_config calls demo_path) = [([1; 2; 3], MSGNO_ENCKEYSPEC_wrap 1)].
Proof. vm_compute. reflexivity. Qed.
(** A read without the key that is required takes a packet from the queue and gives it
    no number: the packets after it have the numbers of those before them. *)
Example missing_key_shifts_numbers :
  ('(_, _, _, D, _) ← packData demo_cipher demo_config (demo_inputs (-1)) 1020 demo_added;
   '(_, _, p, _, _) ← packData demo_cipher demo_config (demo_inputs 0) 1030 D;
   p ← p; Some (m_iSeqNo p, m_pcData p)) = Some (demo_isn, [4; 5; 6]).
Proof. vm_compute. reflexivity. Qed.
(** A full ACK of two words gives the window a word that is not in it. *)
Example window_beyond_ack :
  ('(D, _) ← processCtrlAck demo_config false [demo_isn; 300; 0; 12345] 8 1 500 demo_path; Some (m_iFlowWindowSize D)) = Some 12345.
Proof. vm_compute. reflexivity. Qed.
(** Two messages within one tick of the clock, the second one of more than 2000
    packets: the rate is divided by zero. *)
Example rate_divides_by_zero :
  updateInputRate {| m_iInRatePktsCount := 0; m_iInRateBytesCount := 0; m_tsInRateStartTime := 10;
    m_InRatePeriod := INPUTRATE_FAST_START_US; m_iInRateBps := INPUTRATE_INITIAL_BYTESPS |} 10 2001 6000 = None.
Proof. vm_compute. reflexivity. Qed.
