(* ===== verification/RcvSpec.v ===== *)
(** * Correctness of the receiver: its buffer and its data path

    Packet [x] of a stream carries [seqno x], in unwrapped integers.  The network may
    bring the packets of a stream in any order, more than once, encrypted or in the
    clear; what the reader gets is the stream.  Without the time based delivery that is
    all of it; with it, what is due. *)
From S2P Require Import Prelude SeqNo LossRing RcvLoss RcvLossFacts SndLoss LossReport LossReportFacts LossSend SndBuf SndBufFacts SndPath SndPathFacts TsbPd RcvBuf RcvBufFacts RcvLiveFacts RcvPath RcvPathFacts.
From Stdlib Require Import Sorted.
From S2P Require SndSpec.

(** ** The stream *)

Lemma stream_reads isn stream size D got R a :
  stream_at isn stream size D got R a →
  ∃ rest, concat D ++ rest = bytes_to isn stream a ∧ ∀ now n, 0 <= n →
    ∃ B, readBuffer (m_pRcvBuffer R) now n = Some (len (take (Z.to_nat n) rest), take (Z.to_nat n) rest, B).
Proof.
  intros (x0 & ps & (w2 & curr & H) & Hn & E). eexists. split; [exact E|]. intros now n H0.
  destruct (readBuffer_run now n _ ps w2 (ro_buf _ _ _ _ _ _ _ _ _ _ H) (ro_mode _ _ _ _ _ _ _ _ _ _ H) Hn H0) as (B & ps' & -> & _).
  by exists B.
Qed.
Lemma new_stream uninit isn stream size R :
  new_receiver uninit size R → stream_at isn stream size [] [] (setInitialRcvSeq (seqno isn) R) isn.
Proof.
  intros HR. destruct (new_rpath_ok isn stream uninit size R HR) as (H & _ & En). exists isn, []. rewrite En.
  split; [done|]. split; [apply notch_0|]. unfold bytes_to. by rewrite Z.sub_diag.
Qed.
(** Nothing is read twice, or before it came. *)
Lemma before_stored decrypt isn stream size R x0 a ps got outs :
  holding isn stream size R x0 a ps got → (∀ y, y ∈ got ↔ y ∈ [] ∨ was_stored decrypt isn stream outs y) →
  isn <= a ∧ ∀ y, isn <= y < a → was_stored decrypt isn stream outs y.
Proof.
  intros (w2 & curr & H) Hgot. split; [pose proof (ro_a _ _ _ _ _ _ _ _ _ _ H); lia|]. intros y Hy.
  assert (y ∈ got) as [Hn|?]%Hgot by (apply (ro_got _ _ _ _ _ _ _ _ _ _ H); left; lia); [|done]. by apply elem_of_nil in Hn.
Qed.

(** C2. What is read is the stream: for any sequence of packets of a stream, in any order,
    with duplicates and losses, encrypted or not, of acknowledgements, of confirmations
    and of reads of any size, from a new receiver and across the wrap of the numbers, no
    call leaves the arrays or meets a null pointer; all that was read is the data of the
    packets from the first one on, each byte once and in order, none of it from a packet
    that did not arrive; and a read gives as much of what is acknowledged and not read as
    was asked for.  A new receiver has the time based delivery off. *)
Theorem stream_delivered uninit decrypt C isn stream size R ops :
  Z.of_nat (length stream) <= 2 ^ 29 → new_receiver uninit size R →
  Forall (op_ok decrypt isn stream) ops → Forall reads_stream ops →
  ∃ outs R' m rest, rcv_run uninit decrypt C ops (setInitialRcvSeq (seqno isn) R) = Some (outs, R') ∧
    concat (reads outs) ++ rest = bytes_to isn stream m ∧
    isn <= m ∧ (∀ y, isn <= y < m → was_stored decrypt isn stream outs y) ∧
    ∀ now n, 0 <= n →
      ∃ B, readBuffer (m_pRcvBuffer R') now n = Some (len (take (Z.to_nat n) rest), take (Z.to_nat n) rest, B).
Proof.
  intros Hlen HR Hops Hrd.
  destruct (rcv_stream_run decrypt isn stream uninit C size Hlen ops [] [] _ isn (new_stream uninit _ _ _ _ HR) Hops Hrd)
    as (outs & R' & m & got & E & H' & Hgot & _).
  destruct (stream_reads _ _ _ _ _ _ _ H') as (rest & Er & Hread). destruct H' as (x0 & ps & H' & _).
  exists outs, R', m, rest. split; [done|]. split; [done|]. by destruct (before_stored _ _ _ _ _ _ _ _ _ _ H' Hgot).
Qed.

Lemma full_ack_delivers (uninit : CPacket) decrypt C isn stream size R a got outs M now :
  Z.of_nat (length stream) <= 2 ^ 29 → stream_at isn stream size (reads outs) got R a → acks_ok isn [] R a →
  (∀ y, y ∈ got ↔ y ∈ [] ∨ was_stored decrypt isn stream outs y) →
  ∃ s R2 m rest, sendCtrlAck C M false now R = Some (s, R2) ∧
    concat (reads outs) ++ rest = bytes_to isn stream m ∧
    ¬ was_stored decrypt isn stream outs m ∧ isn <= m ∧ (∀ y, isn <= y < m → was_stored decrypt isn stream outs y) ∧
    ∀ now n, 0 <= n →
      ∃ B, readBuffer (m_pRcvBuffer R2) now n = Some (len (take (Z.to_nat n) rest), take (Z.to_nat n) rest, B).
Proof.
  intros Hlen (x0 & ps & Hh & Hn & Ed) Hacks Hgot.
  destruct (ack_step decrypt isn stream uninit C size Hlen M now R x0 a ps got Hh Hacks) as (s & R2 & m & more & Es & H2 & Hmore & Em & Hm & Hall & En).
  cbn [rcv_step] in Es. destruct (sendCtrlAck C M false now R) as [[s' R2']|]; [|done]. injection Es as <- <-.
  assert (stream_at isn stream size (reads outs) got R2' m) as (rest & Er & Hread)%stream_reads.
  { exists x0, (ps ++ more). rewrite En. split; [done|]. split; [by apply notch_app|]. rewrite unread_app by done.
    rewrite app_assoc, Ed, Em. symmetry. apply bytes_to_app; [done|]. by apply holding_ack in Hh as [_ ?]. }
  exists s', R2', m, rest. split; [done|]. split; [done|]. split; [intros ?; apply Hm, Hgot; by right|].
  by destruct (before_stored _ _ _ _ _ _ _ _ _ _ H2 Hgot).
Qed.

(** Nothing that arrived stays behind a full acknowledgement: after any such
    sequence, when only numbers that were acknowledged are confirmed, a full
    acknowledgement makes all the data before the first number that did not arrive
    readable, the time based delivery being off. *)
Theorem ack_delivers uninit decrypt C isn stream size R ops outs R' M now :
  Z.of_nat (length stream) <= 2 ^ 29 → new_receiver uninit size R →
  Forall (op_ok decrypt isn stream) ops → Forall reads_stream ops →
  rcv_run uninit decrypt C ops (setInitialRcvSeq (seqno isn) R) = Some (outs, R') → confirms_sent [] ops outs →
  ∃ s R2 m rest, sendCtrlAck C M false now R' = Some (s, R2) ∧
    concat (reads outs) ++ rest = bytes_to isn stream m ∧
    ¬ was_stored decrypt isn stream outs m ∧ isn <= m ∧ (∀ y, isn <= y < m → was_stored decrypt isn stream outs y) ∧
    ∀ now n, 0 <= n →
      ∃ B, readBuffer (m_pRcvBuffer R2) now n = Some (len (take (Z.to_nat n) rest), take (Z.to_nat n) rest, B).
Proof.
  intros Hlen HR Hops Hrd E Hc.
  destruct (rcv_stream_run decrypt isn stream uninit C size Hlen ops [] [] _ isn (new_stream uninit _ _ _ _ HR) Hops Hrd)
    as (outs' & R1 & a & got & E1 & H' & Hgot & Hacks). rewrite E in E1. injection E1 as <- <-.
  destruct (new_rpath_ok isn stream uninit size R HR) as (_ & Hk & _). specialize (Hacks [] Hk Hc).
  by apply (full_ack_delivers uninit decrypt C isn stream size R' a got outs M now).
Qed.

(** ** Messages *)

(** A message of the application and how the sender cut it ([cut_message]). *)
Record sent_msg := { s_mss : Z; s_next : Z; s_data : bytes; s_ctrl : SRT_MSGCTRL; s_time : Z }.
Definition packets_of (s : sent_msg) : list spkt := cut_message (s_mss s) (s_next s) (s_data s) (s_ctrl s) (s_time s).
(** In order, not empty, with a number. *)
Definition sent_ok (s : sent_msg) : Prop :=
  0 < s_mss s ∧ 1 <= s_next s <= MSGNO_SEQ_mask ∧ s_data s ≠ [] ∧ inorder (s_ctrl s) = true.
Lemma packets_well_formed s : sent_ok s → well_formed (packets_of s) ∧ msg_bytes (packets_of s) = s_data s.
Proof.
  intros (Hm & Hn & Hd & Hi). destruct (cut_message_facts (s_mss s) (s_next s) (s_data s) (s_ctrl s) (s_time s) Hm Hn) as [Hdata Hq].
  split; [|done]. split.
  - destruct (packets_of s) eqn:E; [|cbn; lia]. unfold packets_of in E. by rewrite E in Hdata.
  - intros i q Hl. destruct (Hq i q Hl) as ([? _] & _ & _ & _ & _ & H29 & H31 & H30). rewrite <- Hi. done.
Qed.

(** C3. Messages arrive whole, in order and once, the time based delivery being off: the
    messages that the sender cut into packets, in order, not empty; for any sequence of their packets, acknowledgements,
    confirmations and reads of messages into a buffer that is large enough, the calls that
    read something read the first messages sent, each with all its bytes; and when all
    packets of the next message, and those before, have arrived, it is read after a full
    acknowledgement. *)
Theorem messages_delivered uninit decrypt C isn sent size R ops :
  let stream := concat (packets_of <$> sent) in
  Z.of_nat (length stream) <= 2 ^ 29 → new_receiver uninit size R → Forall sent_ok sent →
  Forall (op_ok decrypt isn stream) ops →
  Forall (λ op, match op with Read _ _ => False | ReadMsg _ n => Forall (λ s, len (s_data s) <= n) sent | _ => True end) ops →
  ∃ outs R' k, rcv_run uninit decrypt C ops (setInitialRcvSeq (seqno isn) R) = Some (outs, R') ∧
    filter (λ d, d ≠ []) (reads outs) = s_data <$> take k sent ∧
    (∀ y, isn <= y < isn + Z.of_nat (length (concat (packets_of <$> take k sent))) → was_stored decrypt isn stream outs y) ∧
    ∀ s, sent !! k = Some s → confirms_sent [] ops outs →
      (∀ y, isn <= y < isn + Z.of_nat (length (concat (packets_of <$> take (S k) sent))) → was_stored decrypt isn stream outs y) →
      ∀ M now now' n, 0 < n → len (s_data s) <= n →
        ∃ a R2 R3, sendCtrlAck C M false now R' = Some (a, R2) ∧
          rcv_step uninit decrypt C (ReadMsg now' n) R2 = Some (Message (s_data s), R3).
Proof.
  intros stream Hlen HR Hsent Hops Hrd. set (msgs := packets_of <$> sent).
  assert (Forall well_formed msgs) as Hmsgs.
  { apply Forall_fmap. eapply Forall_impl; [exact Hsent|]. intros s Hs. apply packets_well_formed, Hs. }
  assert (∀ k, msg_bytes <$> take k msgs = s_data <$> take k sent) as Hbytes.
  { intros k. unfold msgs. rewrite <- fmap_take, <- list_fmap_compose. apply list_fmap_ext. intros i s Hs.
    apply lookup_take_Some in Hs as [Hs _]. apply packets_well_formed, (proj1 (Forall_lookup _ _) Hsent i), Hs. }
  assert (Forall (reads_msgs msgs) ops) as Hrd'.
  { eapply Forall_impl; [exact Hrd|]. intros op Hop. destruct op; try done. cbn [reads_msgs]. apply Forall_fmap.
    apply Forall_forall. intros s Hs. cbn. rewrite (proj2 (packets_well_formed s (proj1 (Forall_forall _ _) Hsent s Hs))).
    by apply (proj1 (Forall_forall _ _) Hop). }
  destruct (new_rpath_ok isn stream uninit size R HR) as (Hnew & Hk & _).
  assert (msgs_at isn stream size msgs [] [] (setInitialRcvSeq (seqno isn) R) isn) as H0.
  { exists 0%nat, []. split; [|split; [lia|done]]. unfold begins. cbn [take concat length]. by rewrite Z.add_0_r. }
  destruct (msgs_run decrypt isn stream uninit C size Hlen msgs eq_refl Hmsgs ops [] [] _ isn H0 Hops Hrd')
    as (outs & R' & a & got & E & (k & ps & Hh & Hkl & Ef) & Hgot & Hacks).
  assert (∀ k, begins isn msgs k = isn + Z.of_nat (length (concat (packets_of <$> take k sent)))) as Hbeg.
  { intros j. unfold begins, msgs. by rewrite fmap_take. }
  exists outs, R', k. split; [done|]. split; [by rewrite <- Hbytes|]. rewrite <- Hbeg. split.
  { intros y Hy. apply (proj2 (before_stored _ _ _ _ _ _ _ _ _ _ Hh Hgot)). destruct (holding_run _ _ _ _ _ _ _ _ Hh) as (_ & Ha & _). lia. }
  intros s Hs Hc. rewrite <- Hbeg. intros Hstored M now now' n Hn Hfit.
  destruct (ack_step decrypt isn stream uninit C size Hlen M now R' _ a ps got Hh (Hacks [] Hk Hc))
    as (s' & R2 & m & more & Es & H2 & _ & Em & Hm & _).
  cbn [rcv_step] in Es. destruct (sendCtrlAck C M false now R') as [[s2 R2']|]; [|done]. injection Es as <- <-.
  assert (msgs !! k = Some (packets_of s)) as Hmk by (unfold msgs; by rewrite list_lookup_fmap, Hs).
  destruct (packets_well_formed s) as [_ Eb]; [by apply (proj1 (Forall_lookup _ _) Hsent k)|].
  destruct (read_whole decrypt isn stream uninit C size msgs eq_refl Hmsgs now' n R2' k m (ps ++ more) got (packets_of s) H2 Hmk)
    as (R3 & E3 & _); [|by rewrite Eb|done|].
  - destruct (holding_run _ _ _ _ _ _ _ _ H2) as (_ & Ha & _).
    destruct (Z.le_gt_cases (begins isn msgs (S k)) m) as [Hle|Hlt]; [rewrite (begins_S isn stream msgs k _ Hmk) in Hle; lia|].
    destruct Hm. apply Hgot. right. apply Hstored. destruct (holding_ack _ _ _ _ _ _ _ _ H2). lia.
  - exists s2, R2', R3. by rewrite <- Eb.
Qed.

(** ** A receiver at work *)

(** A receiver of four packets; the cipher flips the bits.  The stream is two messages,
    of three packets and of one, and the numbers wrap after the second packet. *)
Definition demo_isn : Z := 0x7FFFFFFE.
Definition demo_blank : CPacket := {| m_iSeqNo := 0; m_iMsgNo := 0; m_iTimeStamp := 0; m_iID := 0; m_pcData := [] |}.
Definition demo_decrypt (p : CPacket) : option bytes := Some (Z.lxor 255 <$> m_pcData p).
Definition demo_config : rcv_config :=
  {| m_bTsbPd := false; m_bTLPktDrop := false; m_uPeerSrtVersion := SrtVersion 1 4 4; m_tdACKInterval := 10000; m_iMaxSRTPayloadSize := 1456 |}.
Definition demo_ctrl : SRT_MSGCTRL := {| msgttl := -1; inorder := true; srctime := 0; pktseq := demo_isn; msgno := SRT_MSGNO_NONE |}.
Definition demo_sent : list sent_msg :=
  [{| s_mss := 3; s_next := 1; s_data := [1; 2; 3; 4; 5; 6; 7]; s_ctrl := demo_ctrl; s_time := 10 |};
   {| s_mss := 3; s_next := 2; s_data := [8]; s_ctrl := demo_ctrl; s_time := 11 |}].
Definition demo_stream : list spkt := concat (packets_of <$> demo_sent).
Definition demo_path : CUDT_rpath :=
  {| d_rcv := {| m_pRcvLossList := CRcvLossList_new (λ i, RcvLoss.mkSeq i i i i) 16; m_FreshLoss := []; m_iRcvCurrSeqNo := 0;
       LossReport.m_bPeerRexmitFlag := true; m_iReorderTolerance := 0; iMaxReorderTolerance := 0; m_iConsecEarlyDelivery := 0;
       m_iConsecOrderedDelivery := 0; traceReorderDistance := 0 |};
     m_pRcvBuffer := CRcvBuffer_new (CUnitQueue_init demo_blank 2) 5; m_iRcvLastSkipAck := 0; RcvPath.m_iRcvLastAck := 0;
     m_iRcvLastAckAck := 0; m_iAckSeqNo := 0; m_tsLastAckTime := 0 |}.
Lemma demo_path_new : new_receiver demo_blank 16 demo_path.
Proof. exists 5%nat, 2%nat, (λ i, RcvLoss.mkSeq i i i i). split_and!; try done; lia. Qed.
(** Packet [i] of the stream, encrypted when [key] is not 0. *)
Definition demo_arrive (key : Z) (i : nat) : rcv_op :=
  Arrive (match demo_stream !! i with
          | Some s => {| m_iSeqNo := seqno (demo_isn + Z.of_nat i); m_iMsgNo := Z.lor (q_bits s) (MSGNO_ENCKEYSPEC_wrap key);
                         m_iTimeStamp := 500; m_iID := 7; m_pcData := if key =? 0 then q_data s else Z.lxor 255 <$> q_data s |}
          | None => demo_blank
          end) 100.
Definition demo_measures : ack_measures := {| k_rtt := 300; k_rttvar := 50; k_rcvSpeed := 0; k_bandwidth := 0; k_rcvRate := 0 |}.
Definition demo_ack : rcv_op := Ack demo_measures false 20000.

(** Whether [p] carries packet [x]. *)
Definition carriesb (decrypt : CPacket → option bytes) (isn : Z) (stream : list spkt) (x : Z) (p : CPacket) : bool :=
  (m_iSeqNo p =? seqno x) &&
  match clear decrypt p, pkt_at isn stream x with
  | Some q, Some s =>
      (m_iSeqNo q =? seqno x) && bool_decide (m_pcData q = q_data s) &&
      forallb (λ b, Bool.eqb (Z.testbit (m_iMsgNo q) b) (Z.testbit (q_bits s) b)) [31; 30; 29]
  | _, _ => false
  end.
Lemma carriesb_ok decrypt isn stream x p : carriesb decrypt isn stream x p = true → carries decrypt isn stream x p.
Proof.
  unfold carriesb, carries. intros [E1%Z.eqb_eq H]%andb_true_iff. split; [done|]. destruct (clear decrypt p) as [q|]; [|done]. exists q. split; [done|].
  unfold is_pkt. destruct (pkt_at isn stream x) as [s|]; [|done]. apply andb_true_iff in H as [[E2%Z.eqb_eq E3%bool_decide_eq_true]%andb_true_iff H].
  split; [done|]. exists s. split; [done|]. split; [done|]. cbn [forallb] in H. rewrite !andb_true_iff in H.
  destruct H as (H31%eqb_prop & H30%eqb_prop & H29%eqb_prop & _). by split_and!.
Qed.
Definition demo_okb (op : rcv_op) : bool :=
  match op with
  | Arrive p _ => existsb (λ i, carriesb demo_decrypt demo_isn demo_stream (demo_isn + Z.of_nat i) p) (seq 0 4)
  | Read _ n => 0 <=? n
  | ReadMsg _ n => 0 <? n
  | _ => true
  end.
Lemma demo_ops_ok ops : forallb demo_okb ops = true → Forall (op_ok demo_decrypt demo_isn demo_stream) ops.
Proof.
  intros H. apply Forall_forall. intros op Hop. apply list_elem_of_In in Hop. pose proof (proj1 (forallb_forall _ _) H op Hop) as Ho.
  destruct op; cbn [op_ok demo_okb] in *; try done; [|lia|lia]. apply existsb_exists in Ho as (i & _ & Hi). eexists. by apply carriesb_ok.
Qed.

Definition demo_stream_ops : list rcv_op :=
  [demo_arrive 0 2; demo_arrive 1 0; demo_ack; Read 100 2; demo_arrive 0 0; demo_arrive 2 1; demo_arrive 0 2; Confirm 0x7FFFFFFF; demo_ack;
   Read 100 3; Read 100 0; demo_arrive 1 3].
Definition demo_end (ops : list rcv_op) : list rcv_out * CUDT_rpath :=
  default ([], demo_path) (rcv_run demo_blank demo_decrypt demo_config ops (setInitialRcvSeq (seqno demo_isn) demo_path)).
Lemma stream_delivered_witness :
  ∃ outs R' m rest,
    rcv_run demo_blank demo_decrypt demo_config demo_stream_ops (setInitialRcvSeq (seqno demo_isn) demo_path) = Some (outs, R') ∧
    concat (reads outs) ++ rest = bytes_to demo_isn demo_stream m ∧
    demo_isn <= m ∧ (∀ y, demo_isn <= y < m → was_stored demo_decrypt demo_isn demo_stream outs y) ∧
    ∀ now n, 0 <= n →
      ∃ B, readBuffer (m_pRcvBuffer R') now n = Some (len (take (Z.to_nat n) rest), take (Z.to_nat n) rest, B).
Proof.
  apply (stream_delivered demo_blank demo_decrypt demo_config demo_isn demo_stream 16 demo_path demo_stream_ops).
  - vm_compute. discriminate.
  - exact demo_path_new.
  - apply demo_ops_ok. vm_compute. reflexivity.
  - repeat constructor.
Defined.
(** The reads: the packets 0, 1 and 2 came as 2, 0, 0 again, 1 and 2 again. *)
Example demo_stream_reads :
  reads (demo_end demo_stream_ops).1 = [[1; 2]; [3; 4; 5]; []].
Proof. vm_compute. reflexivity. Qed.
Lemma ack_delivers_witness :
  confirms_sent [] demo_stream_ops (demo_end demo_stream_ops).1 ∧
  ∃ s R2 m rest, sendCtrlAck demo_config demo_measures false 40000 (demo_end demo_stream_ops).2 = Some (s, R2) ∧
    concat (reads (demo_end demo_stream_ops).1) ++ rest = bytes_to demo_isn demo_stream m ∧
    ¬ was_stored demo_decrypt demo_isn demo_stream (demo_end demo_stream_ops).1 m ∧ demo_isn <= m ∧
    (∀ y, demo_isn <= y < m → was_stored demo_decrypt demo_isn demo_stream (demo_end demo_stream_ops).1 y) ∧
    ∀ now n, 0 <= n →
      ∃ B, readBuffer (m_pRcvBuffer R2) now n = Some (len (take (Z.to_nat n) rest), take (Z.to_nat n) rest, B).
Proof.
  assert (confirms_sent [] demo_stream_ops (demo_end demo_stream_ops).1) as Hc.
  { vm_compute. repeat split; apply list_elem_of_In; cbn; tauto. }
  split; [exact Hc|].
  apply (ack_delivers demo_blank demo_decrypt demo_config demo_isn demo_stream 16 demo_path demo_stream_ops).
  - vm_compute. discriminate.
  - exact demo_path_new.
  - apply demo_ops_ok. vm_compute. reflexivity.
  - repeat constructor.
  - vm_compute. reflexivity.
  - exact Hc.
Defined.

(** The second message is there before the first one, which is acknowledged in two
    steps. *)
Definition demo_msg_ops : list rcv_op :=
  [demo_arrive 0 3; demo_arrive 0 0; ReadMsg 100 7; demo_ack; ReadMsg 100 10; demo_arrive 1 2; demo_arrive 2 1; ReadMsg 100 7].
Lemma messages_delivered_witness :
  ∃ outs R' k,
    rcv_run demo_blank demo_decrypt demo_config demo_msg_ops (setInitialRcvSeq (seqno demo_isn) demo_path) = Some (outs, R') ∧
    filter (λ d, d ≠ []) (reads outs) = s_data <$> take k demo_sent ∧
    (∀ y, demo_isn <= y < demo_isn + Z.of_nat (length (concat (packets_of <$> take k demo_sent))) →
      was_stored demo_decrypt demo_isn demo_stream outs y) ∧
    ∀ s, demo_sent !! k = Some s → confirms_sent [] demo_msg_ops outs →
      (∀ y, demo_isn <= y < demo_isn + Z.of_nat (length (concat (packets_of <$> take (S k) demo_sent))) →
        was_stored demo_decrypt demo_isn demo_stream outs y) →
      ∀ M now now' n, 0 < n → len (s_data s) <= n →
        ∃ a R2 R3, sendCtrlAck demo_config M false now R' = Some (a, R2) ∧
          rcv_step demo_blank demo_decrypt demo_config (ReadMsg now' n) R2 = Some (Message (s_data s), R3).
Proof.
  apply (messages_delivered demo_blank demo_decrypt demo_config demo_isn demo_sent 16 demo_path demo_msg_ops).
  - vm_compute. discriminate.
  - exact demo_path_new.
  - repeat constructor; vm_compute; discriminate.
  - apply demo_ops_ok. vm_compute. reflexivity.
  - repeat constructor; vm_compute; discriminate.
Defined.
Example demo_msg_reads :
  reads (demo_end (demo_msg_ops ++ [demo_ack; ReadMsg 100 7; ReadMsg 100 7; ReadMsg 100 7])).1
  = [[]; []; []; [1; 2; 3; 4; 5; 6; 7]; [8]; []].
Proof. vm_compute. reflexivity. Qed.

(** ** From the sender to the receiver *)

Lemma key_flags b f :
  0 <= f <= 3 → Z.land b MSGNO_ENCKEYSPEC_mask = 0 → let w := Z.lor b (MSGNO_ENCKEYSPEC_wrap f) in
  Z.land (Z.shiftr w 27) 3 = f ∧ same_flags w b.
Proof.
  intros Hf Hb w. unfold w, MSGNO_ENCKEYSPEC_wrap, u32. rewrite Z.mod_small by lia.
  assert (Z.land (Z.shiftr b 27) 3 = 0) as Hb'.
  { change 3 with (Z.shiftr MSGNO_ENCKEYSPEC_mask 27). by rewrite <- Z.shiftr_land, Hb. }
  assert (f = 0 ∨ f = 1 ∨ f = 2 ∨ f = 3) as Hc by lia. split.
  - rewrite Z.shiftr_lor, Z.land_lor_distr_l, Hb'. by destruct Hc as [->|[->|[->| ->]]].
  - unfold same_flags. rewrite !Z.lor_spec. destruct Hc as [->|[->|[->| ->]]]; cbn; by rewrite !orb_false_r.
Qed.

(** C17. What the sender sends is what the receiver takes, for new packets: when nothing
    waits to be sent again, there is no packet filter, and [packData] sends the next
    packet of the queue, encrypted or not, and the cipher of the receiver undoes that of
    the sender, the packet carries that packet of the stream, so that
    [stream_delivered] and [messages_delivered] hold of it.  (A packet that is sent again
    has the data and the message number of the first time, [SndSpec.resent_as_sent];
    after a failure of the cipher that is not so, [SndSpec.failed_encryption_in_clear].) *)
Theorem sent_packet_carries encrypt decrypt size mss C W now D A q isn stream payload t p D1 acts :
  (∀ p d, encrypt p = Some d → len d = len (m_pcData p)) →
  (∀ p d, encrypt p = Some d → decrypt (set_packet_data d p) = Some (m_pcData p)) →
  path_ok size mss D A → a_lost A = [] → m_PacketFilter W = false → 0 <= getSndCryptoFlags W <= 3 →
  a_pkts A !! a_sent A = Some q → Z.land (q_bits q) MSGNO_ENCKEYSPEC_mask = 0 →
  isn <= a_curr A + 1 → stream !! Z.to_nat (a_curr A + 1 - isn) = Some q →
  packData encrypt C W now D = Some (payload, t, Some p, D1, acts) → carries decrypt isn stream (a_curr A + 1) p.
Proof.
  intros He Hd H Hl Hf Hk Hq Hb Hi Hs Hp.
  destruct (packData_run encrypt He size mss C W now D A H ltac:(lia)) as (pl & t' & D1' & acts' & E & _).
  rewrite Hp in E. injection E as _ _ E _ _. unfold pack_spec in E. rewrite Hl, Hf in E. cbn [length lost_spec fst snd] in E.
  destruct (m_bOpened W); cbn [negb] in E; [|done]. unfold new_spec in E. destruct (_ <? _); [|done].
  rewrite Hq in E. cbn [fmap option_fmap option_map] in E.
  set (x := a_ack A + Z.of_nat (a_sent A)) in *. assert (a_curr A + 1 = x) as Ex by (unfold a_curr; lia). rewrite Ex in *.
  set (f := getSndCryptoFlags W) in *. destruct (key_flags (q_bits q) f Hk Hb) as [Hkey Hsame].
  assert (with_key f q = pkt_set_bits (Z.lor (q_bits q) (MSGNO_ENCKEYSPEC_wrap f)) q) as Ew
    by (unfold with_key; by rewrite (proj2 (Z.eqb_neq f (-1))) by lia).
  rewrite Ew in E. set (w := Z.lor (q_bits q) _) in *.
  assert (pkt_at isn stream x = Some q) as Hx by (unfold pkt_at; by rewrite (proj2 (Z.leb_le _ _)) by lia).
  set (p0 := on_wire C now _ x _) in E.
  assert (∀ data, m_pcData p = data → m_iSeqNo p = seqno x → same_flags (m_iMsgNo p) w → data = q_data q → is_pkt isn stream x p) as Hpkt.
  { intros data E1 E2 E3 E4. split; [done|]. exists q. split; [done|]. split; [congruence|]. by eapply same_flags_trans. }
  destruct (Z.eqb_spec f 0) as [E0|E0]; cbn [fst] in E.
  - injection E as ->. split; [done|]. exists p0. split; [|by apply (Hpkt (q_data q))].
    unfold clear, getMsgCryptoFlags. change (m_iMsgNo p0) with w. by rewrite Hkey, E0.
  - destruct (encrypt p0) as [d|] eqn:Ed; [|done]. injection E as ->. split; [done|]. exists (clear_packet (q_data q) (set_packet_data d p0)).
    unfold clear, getMsgCryptoFlags. change (m_iMsgNo (set_packet_data d p0)) with w. rewrite Hkey, (proj2 (Z.eqb_neq f EK_NOENC) E0), (Hd _ _ Ed).
    split; [done|]. split; [done|]. exists q. split; [done|]. split; [done|]. eapply same_flags_trans; [apply clear_flags|]. done.
Qed.

(** The first message of the stream is in the queue of the sender of [SndSpec]. *)
Definition demo_queue : snd_queue :=
  enqueue (message (m_pSndBuffer SndSpec.demo_path) [1; 2; 3; 4; 5; 6; 7] demo_ctrl 10) (mkQ demo_isn 0 [] []).
Definition demo_sender : CUDT_path :=
  match addBuffer SndSpec.demo_block (m_pSndBuffer SndSpec.demo_path) [1; 2; 3; 4; 5; 6; 7] demo_ctrl 10 with
  | Some (B, c) => with_buffer B (m_iSndLastDataAck SndSpec.demo_path) (pktseq c) SndSpec.demo_path
  | None => SndSpec.demo_path
  end.
Lemma demo_sender_ok : path_ok 16 3 demo_sender demo_queue.
Proof.
  destruct (path_add SndSpec.demo_block 16 3 (λ _, eq_refl) SndSpec.demo_path (mkQ demo_isn 0 [] []) demo_ctrl [1; 2; 3; 4; 5; 6; 7] 10
    SndSpec.demo_path_ok) as (B & c & E & H & _); [by vm_compute|by vm_compute|by vm_compute|by vm_compute|].
  unfold demo_sender. rewrite E. exact H.
Qed.
Definition demo_wire : CPacket :=
  {| m_iSeqNo := demo_isn; m_iMsgNo := -1476395007; m_iTimeStamp := 9; m_iID := 7; m_pcData := [254; 253; 252] |}.
Lemma sent_packet_carries_witness :
  (∃ payload t D1 acts,
    packData SndSpec.demo_cipher SndSpec.demo_config (SndSpec.demo_inputs 1) 1020 demo_sender = Some (payload, t, Some demo_wire, D1, acts)) ∧
  carries demo_decrypt demo_isn demo_stream (a_curr demo_queue + 1) demo_wire.
Proof.
  assert (∃ payload t D1 acts,
    packData SndSpec.demo_cipher SndSpec.demo_config (SndSpec.demo_inputs 1) 1020 demo_sender = Some (payload, t, Some demo_wire, D1, acts))
    as (payload & t & D1 & acts & E) by (eexists _, _, _, _; vm_compute; reflexivity).
  split; [by eexists _, _, _, _|].
  refine (sent_packet_carries SndSpec.demo_cipher demo_decrypt 16 3 SndSpec.demo_config (SndSpec.demo_inputs 1) 1020 demo_sender demo_queue
    _ demo_isn demo_stream payload t demo_wire D1 acts SndSpec.demo_cipher_length _ demo_sender_ok eq_refl eq_refl _ _ _ _ _ E).
  - intros p d [= <-]. unfold demo_decrypt. cbn [set_packet_data m_pcData]. f_equal. rewrite <- list_fmap_compose.
    rewrite <- (list_fmap_id (m_pcData p)) at 2. apply list_fmap_ext. intros i b _. cbn. by rewrite <- Z.lxor_assoc, Z.lxor_nilpotent, Z.lxor_0_l.
  - split; vm_compute; discriminate.
  - vm_compute. reflexivity.
  - vm_compute. reflexivity.
  - vm_compute. discriminate.
  - vm_compute. reflexivity.
Defined.

(** ** The time to play a packet *)

Fixpoint play_times (stamps : list Z) (T : CTsbpdTime) : list Z :=
  match stamps with
  | [] => []
  | s :: stamps => let r := play_time s T in r.1 :: play_times stamps r.2
  end.
(** Each time is less than 30 seconds from the latest one before it. *)
Fixpoint steady (latest : Z) (times : list Z) : bool :=
  match times with
  | [] => true
  | t :: times => (0 <=? t) && (latest - TSBPD_WRAP_PERIOD <=? t) && (t <? latest + TSBPD_WRAP_PERIOD) && steady (Z.max latest t) times
  end.
(** The base is that of the period [e], and the latest time is where the check of the
    wrap says. *)
Definition base_at (e latest : Z) (T : CTsbpdTime) : Prop :=
  if m_bTsbPdWrapCheck T then (e + 1) * 2 ^ 32 - TSBPD_WRAP_PERIOD <= latest < (e + 1) * 2 ^ 32 + TSBPD_WRAP_PERIOD
  else (if e =? 0 then 0 else e * 2 ^ 32 + TSBPD_WRAP_PERIOD) <= latest < (e + 1) * 2 ^ 32 - TSBPD_WRAP_PERIOD.
Lemma play_time_run e latest t base T :
  0 <= e → base_at e latest T → m_tsTsbPdTimeBase T = base + e * 2 ^ 32 → steady latest [t] = true →
  ∃ e' T', play_time (t mod 2 ^ 32) T = (base + t + m_tdTsbPdDelay T + m_qDrift (m_DriftTracer T), T') ∧
    0 <= e' ∧ base_at e' (Z.max latest t) T' ∧ m_tsTsbPdTimeBase T' = base + e' * 2 ^ 32 ∧
    m_tdTsbPdDelay T' = m_tdTsbPdDelay T ∧ m_DriftTracer T' = m_DriftTracer T.
Proof.
  intros He HB Eb Ht. cbn [steady] in Ht. unfold base_at, play_time, updateTsbPdTimeBase, TsbPd.getPktTsbPdTime, getPktTsbPdBaseTime, getTsbPdTimeBase in *.
  unfold TSBPD_WRAP_PERIOD, MAX_TIMESTAMP in *. cbn [fst snd].
  assert (t < e * 2 ^ 32 → False) as Hlow by (intros Hlt; destruct (m_bTsbPdWrapCheck T); [lia|]; destruct (Z.eqb_spec e 0); subst; lia).
  assert ((e * 2 ^ 32 <= t < (e + 1) * 2 ^ 32 ∧ t mod 2 ^ 32 = t - e * 2 ^ 32) ∨ (m_bTsbPdWrapCheck T = true ∧
    (e + 1) * 2 ^ 32 <= t ∧ t mod 2 ^ 32 = t - (e + 1) * 2 ^ 32)) as Hc.
  { destruct (Z.lt_ge_cases t ((e + 1) * 2 ^ 32)); [left|right].
    - split; [lia|]. replace t with (t - e * 2 ^ 32 + e * 2 ^ 32) at 1 by lia. rewrite Z.mod_add, Z.mod_small by lia. done.
    - destruct (m_bTsbPdWrapCheck T); [|destruct (e =? 0); lia]. split; [done|]. split; [lia|].
      replace t with (t - (e + 1) * 2 ^ 32 + (e + 1) * 2 ^ 32) at 1 by lia. rewrite Z.mod_add, Z.mod_small by lia. done. }
  set (s := t mod 2 ^ 32) in *. clearbody s.
  destruct (m_bTsbPdWrapCheck T) eqn:EW.
  - destruct ((30 * 1000000 <=? s) && (s <=? 30 * 1000000 * 2)) eqn:Ec; cbn [with_base m_bTsbPdWrapCheck m_tsTsbPdTimeBase m_tdTsbPdDelay m_DriftTracer andb].
    + exists (e + 1). eexists. split; [apply (f_equal2 pair); [lia|reflexivity]|].
      cbn [with_base m_bTsbPdWrapCheck m_tsTsbPdTimeBase m_tdTsbPdDelay m_DriftTracer]. split; [lia|]. split; [|split; [lia|done]].
      rewrite (proj2 (Z.eqb_neq (e + 1) 0)) by lia. lia.
    + exists e, T. rewrite EW. cbn [andb]. split; [apply (f_equal2 pair); [|reflexivity]|].
      * destruct (Z.leb_spec s (2 * (30 * 1000000))); lia.
      * split; [done|]. split; [lia|done].
  - destruct Hc as [[Hr ->]|[? _]]; [|done]. destruct (Z.ltb_spec (4294967295 - 30 * 1000000) (t - e * 2 ^ 32)).
    + exists e. eexists. cbn [with_base m_bTsbPdWrapCheck m_tsTsbPdTimeBase m_tdTsbPdDelay m_DriftTracer andb].
      rewrite (proj2 (Z.leb_gt _ _)) by lia. split; [apply (f_equal2 pair); [lia|reflexivity]|].
      cbn [with_base m_bTsbPdWrapCheck m_tsTsbPdTimeBase m_tdTsbPdDelay m_DriftTracer]. split; [done|]. split; [lia|done].
    + exists e, T. rewrite EW. cbn [andb]. split; [apply (f_equal2 pair); [lia|reflexivity]|]. split; [done|]. split; [|done]. destruct (e =? 0); lia.
Qed.

(** C13. A packet is due at its own time, through any number of wraps of the 32 bits of its
    stamp: when the check of the wrap has not begun, and each time, counted from the base
    in microseconds without the wrap, is less than 30 seconds from the latest one before
    it, the times to play are the base, that time, the delay and the drift. *)
Theorem play_times_over_wrap times T :
  m_bTsbPdWrapCheck T = false → steady 0 times = true →
  play_times ((λ t, t mod 2 ^ 32) <$> times) T
  = (λ t, m_tsTsbPdTimeBase T + t + m_tdTsbPdDelay T + m_qDrift (m_DriftTracer T)) <$> times.
Proof.
  intros HW. assert (∀ e latest base T, 0 <= e → base_at e latest T → m_tsTsbPdTimeBase T = base + e * 2 ^ 32 → steady latest times = true →
    play_times ((λ t, t mod 2 ^ 32) <$> times) T = (λ t, base + t + m_tdTsbPdDelay T + m_qDrift (m_DriftTracer T)) <$> times) as Hgen.
  { clear. induction times as [|t times IH]; intros e latest base T He HB Eb Hs; [done|]. cbn [steady] in Hs. apply andb_true_iff in Hs as [Ht Hs].
    destruct (play_time_run e latest t base T He HB Eb) as (e' & T' & E & He' & HB' & Eb' & Ed & Er); [by cbn [steady]; rewrite Ht|].
    cbn [fmap list_fmap play_times]. rewrite E. cbn [fst snd]. f_equal. rewrite <- Ed, <- Er. by apply (IH e' (Z.max latest t)). }
  apply (Hgen 0 0); [done| |lia]. unfold base_at. rewrite HW. done.
Qed.
(** A packet every 29 seconds, through two wraps. *)
Definition demo_times : list Z := (λ i, Z.of_nat i * 29000000) <$> seq 0 320.
Definition demo_clock : CTsbpdTime := setTsbPdMode 1000 false 120000 CTsbpdTime_new.
Lemma play_times_over_wrap_witness :
  steady 0 demo_times = true ∧ 2 * 2 ^ 32 < default 0 (last demo_times) ∧
  play_times ((λ t, t mod 2 ^ 32) <$> demo_times) demo_clock = (λ t, 1000 + t + 120000 + 0) <$> demo_times.
Proof.
  split; [vm_compute; reflexivity|]. split; [vm_compute; reflexivity|].
  exact (play_times_over_wrap demo_times demo_clock eq_refl ltac:(vm_compute; reflexivity)).
Defined.
(** A pause of more than 30 seconds while the wrap is checked: the check never ends,
    and the packets after it are due 2^32 microseconds, which is over 71 minutes, too
    early. *)
Example pause_loses_wrap :
  steady 0 [2 ^ 32 - 20000000; 2 ^ 32 + 65000000] = false ∧
  play_times [2 ^ 32 - 20000000; 65000000; 70000000] demo_clock
  = [1000 + (2 ^ 32 - 20000000) + 120000; 1000 + 65000000 + 120000; 1000 + 70000000 + 120000].
Proof. vm_compute. done. Qed.

(** ** Delivery by time *)

(** C5. The buffer refines two lists of cells when packets are delivered by their time: for
    any sequence of packets that come in, acknowledgements, skips, messages dropped, reads,
    looks at the first packet and at the room, the answers are those of the lists - a read
    gives the first good packet in the clear that is due and removes what is before it -
    unless there was no unit for a packet; no call leaves the arrays or meets a null
    pointer. *)
Theorem live_buffer_refines uninit size ops B A :
  ring_holds size B A → m_bTsbPdMode (r_clock A) = true → ring_ok size A ops = true →
  ∃ anss B' A', ring_run uninit ops B = Some (anss, B') ∧ ring_agrees size ops anss A A' ∧ ring_holds size B' A'.
Proof. apply ring_steps. Qed.

(** C6. Delivery by time, from an empty buffer, for any such sequence: the packets that are
    read have increasing numbers, through the wrap, so that each is read once at most, and
    not before its time; each is one that came in with that number, in the clear, and what
    is read is its data, as far as there is room for it. *)
Theorem live_reads_in_order uninit size ops B A :
  ring_holds size B A → r_acked A = [] → r_waiting A = [] → m_bTsbPdMode (r_clock A) = true → ring_ok size A ops = true →
  ∃ anss B', ring_run uninit ops B = Some (anss, B') ∧
    ∃ xs, StronglySorted Z.lt xs ∧ Forall (λ x, r_next A <= x) xs ∧
      Forall2 (delivers (concat (reverse (stored_packets <$> ops)))) xs (delivered ops anss).
Proof.
  intros H E1 E2 Ht Hok. destruct (ring_steps uninit size ops B A H Ht Hok) as (anss & B' & A' & E & Hag & _).
  exists anss, B'. split; [done|]. destruct (ring_order size ops anss A A' [] Hag Hok) as (xs & H1 & H2 & H3).
  { unfold ring_inv. rewrite E1, E2. intros i u Hu. cbn [app] in Hu. by rewrite lookup_nil in Hu. }
  exists xs. split; [done|]. unfold first_number in H2. rewrite E1 in H2. cbn [length] in H2. rewrite Z.sub_0_r in H2.
  split; [done|]. by rewrite app_nil_r in H3.
Qed.

(** A buffer of four packets with a delay of 120 milliseconds. *)
Definition demo_live : CRcvBuffer := setRcvTsbPdMode 1000 120000 (CRcvBuffer_new (CUnitQueue_init demo_blank 2) 5).
Definition demo_live_ring : ring := mkRing [] [] demo_isn (m_tsbpd demo_live).
Lemma demo_live_holds : ring_holds 5 demo_live demo_live_ring.
Proof.
  split; [|split; [exact (new_units_ok [] demo_blank 2 ltac:(lia))|done]].
  apply rb_holds_tsbpd, (new_ring_ok [] demo_blank 5 2). lia.
Qed.
(** Packet [n], a message of its own, sent at [t] and encrypted when [key] is not 0. *)
Definition timed (n t key : Z) (data : bytes) : CPacket :=
  {| m_iSeqNo := seqno (demo_isn + n); m_iMsgNo := Z.lor (msgno_bits (n + 1) MSGNO_PACKET_INORDER_mask 0 1) (MSGNO_ENCKEYSPEC_wrap key);
     m_iTimeStamp := t; m_iID := 7; m_pcData := data |}.
(** Packet 1 is lost, is skipped when packet 2 is due, and comes too late; packet 3 could
    not be decrypted; packet 4 is dropped by the sender. *)
Definition demo_live_ops : list ring_op :=
  [RingStore (timed 0 10 0 [1; 2]) 0; RingAck 1; RingRead 121009 10; RingStore (timed 2 20 0 [5]) 1; RingStore (timed 2 20 0 [6]) 1;
   RingRead 121010 10; RingFirst 121015; RingFirst 121020; RingSkip 1; RingAck 1; RingStore (timed 3 30 1 [9]) 0; RingStore (timed 4 40 0 [7]) 1;
   RingStore (timed 5 50 0 [8; 9]) 2; RingRoom; RingStore (timed 6 60 0 [4]) 3; RingAck 3; RingDrop 5 true; RingRead 200000 10; RingRead 200000 10;
   RingRead 200000 10].
Lemma live_buffer_refines_witness :
  ∃ anss B' A', ring_run demo_blank demo_live_ops demo_live = Some (anss, B') ∧
    ring_agrees 5 demo_live_ops anss demo_live_ring A' ∧ ring_holds 5 B' A'.
Proof.
  apply (live_buffer_refines demo_blank 5 demo_live_ops demo_live demo_live_ring demo_live_holds eq_refl).
  vm_compute. reflexivity.
Defined.
Lemma live_reads_in_order_witness :
  ∃ anss B', ring_run demo_blank demo_live_ops demo_live = Some (anss, B') ∧
    ∃ xs, StronglySorted Z.lt xs ∧ Forall (λ x, demo_isn <= x) xs ∧
      Forall2 (delivers (concat (reverse (stored_packets <$> demo_live_ops)))) xs (delivered demo_live_ops anss).
Proof.
  apply (live_reads_in_order demo_blank 5 demo_live_ops demo_live demo_live_ring demo_live_holds eq_refl eq_refl eq_refl).
  vm_compute. reflexivity.
Defined.
Example demo_live_reads :
  (λ r, delivered demo_live_ops r.1) <$> ring_run demo_blank demo_live_ops demo_live
  = Some [mkDelivery 121010 121010 demo_isn 10 [1; 2]; mkDelivery 200000 121020 0 10 [5]; mkDelivery 200000 121050 3 10 [8; 9]].
Proof. vm_compute. reflexivity. Qed.

(** ** Corners of the buffer *)

(** Packet [n] of a stream, a message of its own, into the position [off]. *)
Definition solo (n : Z) (inord : bool) (data : bytes) : CPacket :=
  {| m_iSeqNo := seqno (demo_isn + n); m_iMsgNo := msgno_bits (n + 1) (if inord then MSGNO_PACKET_INORDER_mask else 0) 0 1;
     m_iTimeStamp := 0; m_iID := 7; m_pcData := data |}.
Definition put (off : Z) (p : CPacket) (B : CRcvBuffer) : option CRcvBuffer :=
  '(a, Q) ← getNextAvailUnit demo_blank (m_pUnitQueue B); a ← a; Q ← upd_unit a (set_packet p) Q;
  '(_, B) ← addData (set_ring (m_pUnit B) Q B) a off; Some B.
Definition demo_ring : CRcvBuffer := CRcvBuffer_new (CUnitQueue_init demo_blank 4) 5.

(** A read of the stream that meets a gap returns -1 and does not move the position: its
    units are gone, and so is what it copied; all later reads return -1 too. *)
Example gap_stops_stream :
  (B ← put 0 (solo 0 true [1; 2]) demo_ring; B ← put 2 (solo 2 true [3]) B; '(_, B) ← RcvBuf.ackData B 1;
   '(_, B) ← RcvBuf.ackData (skipData B 1) 1; '(n, data, B) ← readBuffer B 0 10; '(n', data', B) ← readBuffer B 0 10;
   Some (n, data, n', data', m_iStartPos B)) = Some (-1, [1; 2], -1, [], 0).
Proof. vm_compute. reflexivity. Qed.
(** A packet before the beginning of the array is looked for at a negative index. *)
Example negative_index :
  (B ← put 0 (solo 0 true [1]) demo_ring; B ← put 1 (solo 1 true [2]) B; B ← put 2 (solo 2 true [3]) B;
   '(_, B) ← RcvBuf.ackData B 3; '(_, _, B) ← readBuffer B 0 10;
   B ← put 0 (solo 3 true [4]) B; B ← put 1 (solo 4 true [5]) B; B ← put 2 (solo 5 true [6]) B;
   '(_, B) ← RcvBuf.ackData B 3;
   Some (getRcvDataSize B, RcvBuf.shift B (m_iLastAckPos B) (-2), getRcvReadyPacket B 2, option_map (option_map m_pcData) (getRcvReadyPacket B 1)))
  = Some (3, -1, None, Some (Some [6])).
Proof. vm_compute. reflexivity. Qed.
(** A message read before the one that it follows is counted out twice: the counts of an
    empty buffer are negative. *)
Example passed_twice :
  (B ← put 1 (solo 1 false [7; 7; 7]) demo_ring; '(_, first, _, _, B) ← readMsg B 0 10 (-1);
   B ← put 0 (solo 0 false [1; 2]) B; '(_, B) ← RcvBuf.ackData B 2;
   '(_, second, _, _, B) ← readMsg B 0 10 (-1); '(_, third, _, _, B) ← readMsg B 0 10 (-1);
   Some (first, second, third, getRcvDataSize B, m_iBytesCount (m_bytes B), m_iAckedPktsCount (m_bytes B)))
  = Some ([7; 7; 7], [1; 2], [], 0, -3, -1).
Proof. vm_compute. reflexivity. Qed.
(** Without the time based delivery a packet that could not be decrypted is delivered as it
    came. *)
Definition no_key (p : CPacket) : option bytes := None.
Example undecrypted_delivered :
  (λ r, reads r.1) <$>
    rcv_run demo_blank no_key demo_config ((demo_arrive 1 <$> seq 0 3) ++ [demo_ack; ReadMsg 0 10])
      (setInitialRcvSeq (seqno demo_isn) demo_path)
  = Some [[254; 253; 252; 251; 250; 249; 248]].
Proof. vm_compute. reflexivity. Qed.
(** A message that is larger than the buffer: the buffer is full, a read finds the part
    that is there, copies none of it and removes none of it, and there is never room for
    the rest. *)
Definition large : list spkt := cut_message 3 1 [1; 2; 3; 4; 5; 6; 7; 8; 9; 10; 11; 12; 13] demo_ctrl 10.
Definition large_arrive (i : nat) : rcv_op :=
  Arrive (match large !! i with
          | Some s => {| m_iSeqNo := seqno (demo_isn + Z.of_nat i); m_iMsgNo := q_bits s; m_iTimeStamp := 500; m_iID := 7; m_pcData := q_data s |}
          | None => demo_blank
          end) 100.
Example large_message_stuck :
  (λ r, (reads r.1, getAvailBufSize (m_pRcvBuffer r.2), last r.1)) <$>
    rcv_run demo_blank no_key demo_config
      ((large_arrive <$> seq 0 4) ++ [demo_ack; ReadMsg 0 20; large_arrive 4; demo_ack; ReadMsg 0 20; large_arrive 4])
      (setInitialRcvSeq (seqno demo_isn) demo_path)
  = Some ([[]; []], 0, (λ op, match op with Arrive p _ => Arrived p NoRoom | _ => Confirmed end) <$> Some (large_arrive 4)).
Proof. vm_compute. reflexivity. Qed.
(** A packet waits after a gap and is not due: the time is that of no packet, although the
    documentation says that it is the time to play the packet. *)
Example waiting_time_lost :
  (λ r, last r.1) <$> ring_run demo_blank [RingStore (timed 1 20 0 [5]) 1; RingFirst 121019] demo_live
  = Some (Some (AnsFirst (false, 0, true, SRT_SEQNO_NONE, 0))).
Proof. vm_compute. reflexivity. Qed.
(** A packet that waits is dropped by the sender, and its cell is skipped while nothing is
    acknowledged: [skipData] leaves the unit in the ring, and the packet that comes to that
    cell next time is refused. *)
Example skipped_cell_taken :
  (λ r, last r.1) <$> ring_run demo_blank
    [RingStore (timed 1 20 0 [5]) 1; RingDrop 2 true; RingSkip 2;
     RingStore (timed 2 30 0 [1]) 0; RingStore (timed 3 30 0 [2]) 1; RingStore (timed 4 30 0 [3]) 2; RingAck 3;
     RingRead 200000 10; RingRead 200000 10; RingRead 200000 10;
     RingStore (timed 5 40 0 [4]) 0; RingStore (timed 6 40 0 [6]) 1] demo_live
  = Some (Some (AnsStored (Some (-1)))).
Proof. vm_compute. reflexivity. Qed.
