(* ===== verification/SchedSpec.v ===== *)
(** * Correctness of the schedule and of the window of acknowledgements

    The sending thread serves the socket that is due first ([SndUList], [SndWorker]); the
    receiver knows what the sender has seen from the window of its ACKs ([AckWindow]). *)
From S2P Require Import Prelude SeqNo SndBuf SndBufFacts SndPath SndPathFacts TsbPd RcvBuf RcvPath RcvPathFacts SndUList SndUListFacts SndWorker AckWindow AckWindowFacts.
From S2P Require SndSpec RcvSpec.

(** ** The schedule *)

(** C7. The list is a schedule: for any sequence of updates, pops, removals and questions,
    of open sockets, from a list in order, no call leaves the array or meets a pointer
    that is not there, the sockets on the list and their times are what the calls say, a
    pop gives one that is due, or none when the list is empty or has one that is not due;
    and when every removal keeps the order ([orderly]), it is the earliest one, and the
    next time is the earliest time. *)
Theorem schedule_refines ops L hs M :
  on_list L hs M → in_order L hs → Forall (known L) ops →
  ∃ outs L' hs' M', ul_run ops L = Some (outs, L') ∧ on_list L' hs' M' ∧ ul_agrees (orderly ops L) ops outs M M'.
Proof. intros H Ho Hk. by apply (ul_steps ops L hs M). Qed.

(** C28. No wake-up is lost: when an update leaves the list with another next time, or was
    made to an empty list, the timer of the thread is interrupted, and those who wait for
    the list to have an entry are told when it had none. *)
Theorem update_wakes u r ts L hs M t :
  on_list L hs M → is_Some (m_nodes L !! u) → getNextProcTime L = Some t →
  ∃ w L' t', update u r ts L = Some (w, L') ∧ getNextProcTime L' = Some t' ∧
    (M = ∅ → w = [Interrupt; NotifyAll]) ∧ (M ≠ ∅ → t' ≠ t → Interrupt ∈ w).
Proof.
  intros H Hn Ht. destruct (update_run u r ts L hs M H Hn) as (w & L' & hs' & E & H' & _ & _ & Hw & Hf).
  assert (∃ t', getNextProcTime L' = Some t') as [t' Ht'].
  { unfold getNextProcTime. destruct (first_time_run _ _ _ H') as [(_ & _ & ->)|(x & t' & _ & _ & -> & _ & -> & _)]; by eexists. }
  exists w, L', t'. split; [done|]. split; [done|]. split.
  - intros ->. apply Hw. destruct hs as [|x hs]; [done|]. pose proof (proj1 (on_list_in _ _ _ x H) ltac:(by left)) as [z Hz]. by rewrite lookup_empty in Hz.
  - intros HM Hne. destruct Hf as [[Hf Hv]|]; [|done]. destruct Hne. unfold getNextProcTime in *.
    destruct (first_time_run _ _ _ H) as [(? & _)|(x & tx & Hx & Hmx & E1 & _ & E2 & _)]; [done|]. rewrite E1, E2 in Ht. injection Ht as <-.
    destruct (first_time_run _ _ _ H') as [(_ & -> & _)|(y & ty & Hy & Hmy & E3 & _ & E4 & _)]; [by rewrite Hx in Hf|]. rewrite E3, E4 in Ht'. injection Ht' as <-.
    rewrite Hf, Hx in Hy. injection Hy as <-. apply (proj2 H) in Hmx as [_ <-]. apply (proj2 H') in Hmy as [_ <-]. by apply Hv.
Qed.

(** Sockets 0 to 9, in a list. *)
Definition demo_open (L : CSndUList) (u : Z) : CSndUList := new_node u 0 L.
Definition demo_list : CSndUList := foldl demo_open CSndUList_new (seqZ 0 10).
Lemma demo_on_list : on_list demo_list [] ∅.
Proof.
  unfold demo_list. generalize (seqZ 0 10). intros us. assert (on_list CSndUList_new [] ∅) as H by apply new_on_list. revert H.
  generalize CSndUList_new. induction us as [|u us IH]; intros L H; [done|]. cbn [foldl]. apply IH. apply open_on_list; [done|]. by apply not_elem_of_nil.
Qed.
Definition demo_calls : list ul_op :=
  [Update 3 DONT_RESCHEDULE 30; Update 1 DONT_RESCHEDULE 10; NextTime; Update 2 DONT_RESCHEDULE 20; Update 4 DONT_RESCHEDULE 5;
   Update 3 DO_RESCHEDULE 15; Update 2 DONT_RESCHEDULE 1; Pop 4; Pop 12; Pop 12; Pop 12; NextTime; Remove 9; Pop 40; Pop 40; Pop 40].
Lemma schedule_refines_witness :
  orderly demo_calls demo_list = true ∧
  ∃ outs L' hs' M', ul_run demo_calls demo_list = Some (outs, L') ∧ on_list L' hs' M' ∧ ul_agrees (orderly demo_calls demo_list) demo_calls outs ∅ M'.
Proof.
  split; [vm_compute; reflexivity|]. apply (schedule_refines demo_calls demo_list [] ∅ demo_on_list).
  - intros i Hi. cbn in Hi. lia.
  - repeat constructor; by eexists.
Defined.
Definition popped (outs : list ul_out) : list (option Z) := omap (λ o, match o with Popped u _ => Some u | _ => None end) outs.
Example demo_pops :
  (λ r, popped r.1) <$> ul_run demo_calls demo_list
  = Some [None; Some 4; Some 1; None; Some 3; Some 2; None].
Proof. vm_compute. reflexivity. Qed.
(** Socket 1 is on the list, and socket 3 is due before it. *)
Definition after_update (u ts : Z) (L : CSndUList) : CSndUList := match update u DONT_RESCHEDULE ts L with Some (_, L) => L | None => L end.
Lemma after_update_on_list u ts L hs M :
  on_list L hs M → in_order L hs → is_Some (m_nodes L !! u) → update_ok u DONT_RESCHEDULE ts L = true →
  ∃ hs', on_list (after_update u ts L) hs' (updated u DONT_RESCHEDULE ts M) ∧ in_order (after_update u ts L) hs' ∧
    ∀ v, is_Some (m_nodes L !! v) → is_Some (m_nodes (after_update u ts L) !! v).
Proof.
  intros H Ho Hn Hok. destruct (update_run u DONT_RESCHEDULE ts L hs M H Hn) as (w & L' & hs' & E & H' & Hk & Ho' & _).
  exists hs'. unfold after_update. rewrite E. split; [done|]. split; [by apply Ho'|]. intros v. apply Hk.
Qed.
Definition demo_one : CSndUList := after_update 1 1010 demo_list.
Definition demo_two : CSndUList := after_update 3 1000 demo_one.
Lemma demo_one_on_list : ∃ hs, on_list demo_one hs (<[1 := 1010]> ∅) ∧ in_order demo_one hs.
Proof.
  destruct (after_update_on_list 1 1010 demo_list [] ∅ demo_on_list) as (hs & H & Ho & _); [intros i Hi; cbn in Hi; lia|by eexists|done|by exists hs].
Qed.
Lemma demo_two_on_list : ∃ hs, on_list demo_two hs (<[3 := 1000]> (<[1 := 1010]> ∅)) ∧ in_order demo_two hs.
Proof.
  destruct demo_one_on_list as (hs & H & Ho).
  destruct (after_update_on_list 3 1000 demo_one hs _ H Ho) as (hs' & H' & Ho' & _); [by eexists|done|by exists hs'].
Qed.
Lemma update_wakes_witness :
  ∃ w L' t', update 3 DONT_RESCHEDULE 1000 demo_one = Some (w, L') ∧ getNextProcTime L' = Some t' ∧
    (<[1 := 1010]> ∅ = (∅ : gmap Z Z) → w = [Interrupt; NotifyAll]) ∧ (<[1 := 1010]> ∅ ≠ (∅ : gmap Z Z) → t' ≠ 1010 → Interrupt ∈ w).
Proof.
  destruct demo_one_on_list as (hs & H & _).
  apply (update_wakes 3 DONT_RESCHEDULE 1000 demo_one hs (<[1 := 1010]> ∅) 1010 H); [by eexists|vm_compute; reflexivity].
Defined.
Example demo_wakes :
  (λ r, (r.1, getNextProcTime r.2)) <$> update 3 DONT_RESCHEDULE 1000 demo_one = Some ([Interrupt], Some 1000).
Proof. vm_compute. reflexivity. Qed.

(** A removal only lets the last entry go down.  When it belongs above the place that it
    takes, the order is lost, and a socket that is due at 3 waits until 10. *)
Definition demo_closing : list ul_op :=
  (λ e, Update e.1 DONT_RESCHEDULE e.2) <$> [(0, 1); (1, 10); (2, 2); (3, 11); (4, 12); (5, 20); (6, 3)].
Example removal_delays :
  orderly (demo_closing ++ [Remove 3]) demo_list = false ∧
  (λ r, drop 8 r.1) <$> ul_run (demo_closing ++ [Remove 3; Pop 5; Pop 5; Pop 5; NextTime; Pop 10; Pop 10]) demo_list
  = Some [Popped (Some 0) []; Popped (Some 2) []; Popped None []; Next 10; Popped (Some 1) []; Popped (Some 6) []].
Proof. vm_compute. done. Qed.
(** The timer is interrupted when one entry is left, and not when the only one is removed. *)
Example removal_wakes :
  (λ r, drop 2 r.1) <$> ul_run [Update 0 DONT_RESCHEDULE 1; Update 1 DONT_RESCHEDULE 2; Remove 0; Remove 1] demo_list
  = Some [Removed [Interrupt]; Removed []].
Proof. vm_compute. reflexivity. Qed.

(** ** The sending thread *)

(** Every socket on the list can be asked for a packet. *)
Definition socket_ok (s : worker_socket) : Prop := getSndCryptoFlags (w_inputs s) ≠ -1 ∧ ∃ size mss A, path_ok size mss (w_path s) A.
Record worker_ok (Q : CSndQueue) (M : gmap Z Z) : Prop := {
  wo_list : ∃ hs, on_list (m_pSndUList Q) hs M ∧ in_order (m_pSndUList Q) hs;
  wo_times : ∀ u t, M !! u = Some t → t ≠ 0;
  wo_sockets : ∀ u t, M !! u = Some t → ∃ s, sockets Q !! u = Some s ∧ socket_ok s }.
Definition earliest_due (now u : Z) (M : gmap Z Z) : Prop := ∃ t, M !! u = Some t ∧ t <= now ∧ is_least t M.
(** The next packet of [s], as [packData_refines] says it, and the time of the one after
    it, at the pace that the congestion controller asks for. *)
Definition packs (encrypt : CPacket → option bytes) (now : Z) (s : worker_socket) (pkt : option CPacket) (next : Z) (s' : worker_socket) : Prop :=
  ∃ D payload, s' = with_path D s ∧ ∀ size mss A, path_ok size mss (w_path s) A →
    let r := pack_spec encrypt (w_config s) (w_inputs s) (d_est (w_path s)) (m_iFlowWindowSize (w_path s)) now A in
    pkt = r.1 ∧ path_ok size mss D r.2 ∧ paced (w_config s) (w_inputs s) now (w_path s) A payload next pkt D.
(** The socket [u] is packed for: it is asked for its next packet, and no other one is. *)
Definition packed (encrypt : Z → CPacket → option bytes) (now u : Z) (pkt : option CPacket) (next : Z) (Q Q' : CSndQueue) : Prop :=
  ∃ s s', sockets Q !! u = Some s ∧ w_connected s = true ∧ w_broken s = false ∧ packs (encrypt u) now s pkt next s' ∧
    sockets Q' = <[u := s']> (sockets Q).
(** The time 0 is none. *)
Definition put_back (u next : Z) (M : gmap Z Z) : gmap Z Z := if next =? 0 then delete u M else <[u := next]> M.
Definition round_spec (encrypt : Z → CPacket → option bytes) (now : Z) (r : round) (Q Q' : CSndQueue) (M M' : gmap Z Z) : Prop :=
  match r with
  | Idle => M = ∅ ∧ M' = M ∧ sockets Q' = sockets Q
  | NotDue => M' = M ∧ sockets Q' = sockets Q ∧ ∃ u t, M !! u = Some t ∧ now < t ∧ is_least t M
  | Skipped u => earliest_due now u M ∧ M' = delete u M ∧ sockets Q' = sockets Q ∧
      ∃ s, sockets Q !! u = Some s ∧ (w_connected s = false ∨ w_broken s = true)
  | Nothing u => earliest_due now u M ∧ M' = delete u M ∧
      ∃ pkt next, packed encrypt now u pkt next Q Q' ∧ ∀ p, pkt = Some p → m_pcData p = []
  | Sent u pkt => earliest_due now u M ∧
      ∃ p next, pkt = Some p ∧ m_pcData p ≠ [] ∧ packed encrypt now u pkt next Q Q' ∧ M' = put_back u next M
  end.

Lemma pack_packs encrypt now s :
  (∀ p d, encrypt p = Some d → len d = len (m_pcData p)) → socket_ok s →
  ∃ payload t pkt D acts, packData encrypt (w_config s) (w_inputs s) now (w_path s) = Some (payload, t, pkt, D, acts) ∧
    packs encrypt now s pkt t (with_path D s) ∧ socket_ok (with_path D s) ∧
    (payload <= 0 → ∀ p, pkt = Some p → m_pcData p = []) ∧ (0 < payload → ∃ p, pkt = Some p ∧ m_pcData p ≠ []).
Proof.
  intros He [Hk (size & mss & A & H)]. destruct (packData_paced encrypt He size mss (w_config s) _ now _ _ H Hk) as (payload & t & D & acts & E & HD & HP).
  eexists payload, t, _, D, acts. split; [exact E|]. split; [|split; [by split; [|by eexists _, _, _]|]].
  - exists D, payload. split; [done|]. intros size' mss' A' H'.
    destruct (packData_paced encrypt He size' mss' (w_config s) _ now _ _ H' Hk) as (? & ? & ? & ? & E' & HD' & HP').
    rewrite E in E'. injection E' as <- <- Er <- _. rewrite Er. done.
  - unfold paced in HP. destruct (pack_spec _ _ _ _ _ _ _).1 as [p|]; split; intros Hp.
    + intros p' [= <-]. destruct HP as (-> & _). unfold len in Hp. destruct (m_pcData p); simpl length in Hp; [done|lia].
    + exists p. split; [done|]. destruct HP as (-> & _). unfold len in Hp. destruct (m_pcData p); simpl length in Hp; [lia|done].
    + by intros p.
    + lia.
Qed.
Lemma worker_ok_keep L' hs' M' S' Q M u :
  worker_ok Q M → on_list L' hs' M' → in_order L' hs' → (∀ v t, v ≠ u → M' !! v = Some t → M !! v = Some t) →
  (∀ t, M' !! u = Some t → t ≠ 0 ∧ ∃ s, S' !! u = Some s ∧ socket_ok s) → (∀ v, v ≠ u → S' !! v = sockets Q !! v) →
  worker_ok {| m_pSndUList := L'; sockets := S' |} M'.
Proof.
  intros [H1 H2 H3] HL Ho HM Hu HS. split; [by exists hs'| |]; cbn [sockets]; intros v t Hv; destruct (decide (v = u)) as [->|Hne].
  - by destruct (Hu t Hv).
  - by eapply H2, HM.
  - by destruct (Hu t Hv).
  - rewrite HS by done. by eapply H3, HM.
Qed.

(** After the packet: the socket is put back for the next one. *)
Lemma put_back_run u next s L hs S' Q M :
  worker_ok Q M → on_list L hs (delete u M) → in_order L hs → is_Some (m_nodes L !! u) →
  S' !! u = Some s → socket_ok s → (∀ v, v ≠ u → S' !! v = sockets Q !! v) →
  ∃ w L', (if negb (next =? 0) then update u DO_RESCHEDULE next L else Some ([], L)) = Some (w, L') ∧
    worker_ok {| m_pSndUList := L'; sockets := S' |} (put_back u next M).
Proof.
  intros HW HL Ho Hnode Es Hok HS. unfold put_back. destruct (Z.eqb_spec next 0) as [E0|E0]; cbn [negb].
  { exists [], L. split; [done|]. apply (worker_ok_keep L hs _ S' Q M u HW HL Ho); [|by intros t Ht; rewrite lookup_delete_eq in Ht|done].
    intros v t _ Hv. by apply lookup_delete_Some in Hv as [_ ?]. }
  destruct (update_run u DO_RESCHEDULE next L hs (delete u M) HL Hnode) as (w & L2 & hs2 & -> & HL2 & _ & Ho2 & _). exists w, L2. split; [done|].
  assert (updated u DO_RESCHEDULE next (delete u M) = <[u := next]> M) as EM by (unfold updated; by rewrite lookup_delete_eq, insert_delete_eq).
  rewrite EM in HL2. apply (worker_ok_keep L2 hs2 _ S' Q M u HW HL2); [| |by intros t Ht; rewrite lookup_insert_eq in Ht; injection Ht as <-; eauto|done].
  - apply Ho2; [done|]. unfold update_ok, removal_ok. destruct Hnode as [n Hnn]. rewrite Hnn.
    rewrite (ho_off _ _ (proj1 HL) u n Hnn) by (apply (on_list_none _ _ _ _ HL); apply lookup_delete_eq). by rewrite orb_true_r.
  - intros v t' Hv Hvt. by rewrite lookup_insert_ne in Hvt.
Qed.

(** C8. A round of the thread serves the socket that is due first: it fails in no case;
    when no socket is due nothing changes; otherwise the earliest one is taken from the
    schedule; if it is connected and has a packet to send, that packet is the one that the
    queue of its path says, and the socket is put back for the time of the next one: after
    what is left of the interval of the congestion controller, less what the sender is
    behind with, and at once inside a probing pair; if it has none, or is not connected, it
    stays off the schedule; no other socket and no other time changes; and the same holds
    of the next round. *)
Theorem worker_serves_earliest encrypt now Q M :
  (∀ u p d, encrypt u p = Some d → len d = len (m_pcData p)) → worker_ok Q M →
  ∃ r w Q' M', worker_round encrypt now Q = Some (r, w, Q') ∧ worker_ok Q' M' ∧ round_spec encrypt now r Q Q' M M'.
Proof.
  intros He HW. destruct (HW) as [(hs & HL & Hord) Ht Hs]. unfold worker_round, getNextProcTime.
  destruct (first_time_run _ _ _ HL) as [(EM & _ & ->)|(x & tx & Hx & Hmx & E1 & _ & E2 & Hmin)].
  { exists Idle, [], Q, M. by split_and!. }
  rewrite E1, E2. cbn [mbind option_bind]. rewrite (proj2 (Z.eqb_neq tx 0)) by (by eapply Ht).
  destruct (ul_pop_run now _ hs M HL) as (u & w & L & hs' & -> & Hn & Ho & Hr). cbn [mbind option_bind]. destruct u as [u|].
  2: { destruct Hr as (-> & -> & [->|(u & t & Hu & Hlt & Hleast)]); [by rewrite lookup_empty in Hmx|].
       exists NotDue, w, {| m_pSndUList := m_pSndUList Q; sockets := sockets Q |}, M. split; [done|].
       split; [by destruct Q|]. split; [done|]. split; [done|]. exists u, t. split_and!; try done. exact (Hleast Hord). }
  destruct Hr as (HL' & t & Hu & Hle & Hleast). destruct (Hs u t Hu) as (s & Es & Hok). cbn [sockets]. rewrite Es. cbn [mbind option_bind].
  assert (earliest_due now u M) as Hdue by (exists t; split_and!; try done; exact (Hleast Hord)).
  assert (∀ v t', v ≠ u → delete u M !! v = Some t' → M !! v = Some t') as Hdel by (intros v t' _ Hv; by apply lookup_delete_Some in Hv as [_ ?]).
  assert (∀ S' t', delete u M !! u = Some t' → t' ≠ 0 ∧ ∃ s, (S' : gmap Z worker_socket) !! u = Some s ∧ socket_ok s) as Hgone
    by (intros S' t' Hv; by rewrite lookup_delete_eq in Hv).
  destruct (negb (w_connected s) || w_broken s) eqn:Ec.
  { exists (Skipped u), w, {| m_pSndUList := L; sockets := sockets Q |}, (delete u M). split; [done|].
    split; [by apply (worker_ok_keep L hs' _ (sockets Q) Q M u HW HL' (Ho Hord) Hdel (Hgone _))|]. split_and!; try done. exists s. split; [done|].
    apply orb_true_iff in Ec as [Ec%negb_true_iff|]; [by left|by right]. }
  apply orb_false_iff in Ec as [Ec%negb_false_iff Eb].
  destruct (pack_packs (encrypt u) now s (He u) Hok) as (payload & next & pkt & D & acts & -> & Hp & Hok' & Hnone & Hsome). cbn [mbind option_bind].
  set (S' := <[u := with_path D s]> (sockets Q)). assert (∀ v, v ≠ u → S' !! v = sockets Q !! v) as HS' by (intros v Hv; by apply lookup_insert_ne).
  assert (∀ L, packed encrypt now u pkt next Q {| m_pSndUList := L; sockets := S' |}) as Hpk by (intros; by exists s, (with_path D s)).
  destruct (Z.leb_spec payload 0) as [Hpay|Hpay].
  { exists (Nothing u), w, {| m_pSndUList := L; sockets := S' |}, (delete u M). split; [done|].
    split; [by apply (worker_ok_keep L hs' _ S' Q M u HW HL' (Ho Hord) Hdel (Hgone _))|]. split_and!; try done. exists pkt, next. split; [apply Hpk|by apply Hnone]. }
  assert (is_Some (m_nodes L !! u)) as Hnode.
  { apply Hn. destruct (proj1 (proj2 HL u t) Hu) as [Hin _]. apply list_elem_of_lookup in Hin as [i Hi].
    destruct (ho_loc _ _ (proj1 HL) i u Hi) as (n & -> & _). by eexists. }
  destruct (put_back_run u next (with_path D s) L hs' S' Q M HW HL' (Ho Hord) Hnode (lookup_insert_eq _ _ _) Hok' HS') as (w' & L' & -> & HW').
  destruct (Hsome Hpay) as (p & Ep & Hdata). cbn [mbind option_bind]. eexists _, _, _, _. split; [done|]. split; [exact HW'|]. split; [done|].
  exists p, next. by split_and!.
Qed.

(** Sockets 1 and 3, each with the message of [RcvSpec] to send. *)
Definition demo_socket : worker_socket :=
  {| w_connected := true; w_broken := false; w_config := SndSpec.demo_config; w_inputs := SndSpec.demo_inputs 1; w_path := RcvSpec.demo_sender |}.
Definition demo_thread : CSndQueue := {| m_pSndUList := demo_two; sockets := <[3 := demo_socket]> (<[1 := demo_socket]> ∅) |}.
Lemma demo_thread_ok : worker_ok demo_thread (<[3 := 1000]> (<[1 := 1010]> ∅)).
Proof.
  split; [exact demo_two_on_list| |]; intros u t [[<- <-]|[? [[<- <-]|[? Hu]]%lookup_insert_Some]]%lookup_insert_Some;
    try done; try (by rewrite lookup_empty in Hu);
    (exists demo_socket; split; [done|split; [done|exists 16, 3, RcvSpec.demo_queue; exact RcvSpec.demo_sender_ok]]).
Qed.
Lemma worker_serves_earliest_witness :
  ∃ r w Q' M', worker_round (λ _, SndSpec.demo_cipher) 1020 demo_thread = Some (r, w, Q') ∧ worker_ok Q' M' ∧
    round_spec (λ _, SndSpec.demo_cipher) 1020 r demo_thread Q' (<[3 := 1000]> (<[1 := 1010]> ∅)) M'.
Proof.
  apply (worker_serves_earliest (λ _, SndSpec.demo_cipher) 1020 demo_thread (<[3 := 1000]> (<[1 := 1010]> ∅)));
    [intros _; exact SndSpec.demo_cipher_length|exact demo_thread_ok].
Defined.
Fixpoint demo_rounds (times : list Z) (Q : CSndQueue) : list round :=
  match times with
  | [] => []
  | now :: times => match worker_round (λ _, SndSpec.demo_cipher) now Q with Some (r, _, Q) => r :: demo_rounds times Q | None => [] end
  end.
Example demo_rounds_run :
  (λ r, match r with Sent u (Some p) => Some (u, m_pcData p) | Sent u None => Some (u, []) | Nothing u => Some (u, []) | _ => None end)
    <$> demo_rounds [999; 1000; 1010; 1011; 5000; 5000; 5000; 5000] demo_thread
  = [None; Some (3, [254; 253; 252]); Some (3, [251; 250; 249]); Some (1, [254; 253; 252]); Some (3, [248]); Some (1, [251; 250; 249]);
     Some (3, []); Some (1, [248])].
Proof. vm_compute. reflexivity. Qed.

(** ** The window of acknowledgements *)

(** C27. The window is a queue of the last ACKs: for any sequence of ACKs sent and ACKACKs
    received, in any order and with any numbers, an ACKACK finds the first record with
    its number among the last ones, as many as the window has cells less one, and gives
    the time since that ACK and what it acknowledged; that record and the earlier ones are
    gone; no call leaves the array. *)
Theorem ack_window_refines ops W q :
  aw_holds W q → ∃ W', aw_run ops W = Some ((aw_specs (aw_size W) ops q).1, W') ∧ aw_holds W' (aw_specs (aw_size W) ops q).2.
Proof. intros H. destruct (aw_runs ops W q H) as (W' & E & H'). by exists W'. Qed.
Definition demo_window : CACKWindow := CACKWindow_new 4.
Definition demo_ackacks : list aw_op :=
  [Store 1 100 10; Store 2 200 20; Acknowledge 2 25; Acknowledge 1 26; Store 3 300 30; Store 4 400 40; Store 5 500 50; Store 6 600 60;
   Acknowledge 3 70; Acknowledge 5 75; Acknowledge 6 80].
Lemma ack_window_refines_witness :
  ∃ W', aw_run demo_ackacks demo_window = Some ((aw_specs (aw_size demo_window) demo_ackacks []).1, W') ∧
    aw_holds W' (aw_specs (aw_size demo_window) demo_ackacks []).2.
Proof. exact (ack_window_refines demo_ackacks demo_window [] (new_window 4 ltac:(lia))). Defined.
Definition found (outs : list (option (Z * option Z))) : list (Z * option Z) := omap (λ x, x) outs.
Example demo_ackacks_found :
  (λ r, found r.1) <$> aw_run demo_ackacks demo_window
  = Some [(5, Some 200); (-1, None); (-1, None); (25, Some 500); (20, Some 600)].
Proof. vm_compute. reflexivity. Qed.

(** C4. Whatever numbers come back, nothing that arrived stays behind a full
    acknowledgement: for any sequence of packets of a stream, in any order, with
    duplicates and losses, of acknowledgements, of ACKACKs with any numbers and time
    stamps, and of reads, from a new receiver with a new window, no call fails, what was
    read is the stream from its beginning, and a full acknowledgement makes all the data
    before the first number that did not arrive readable; the time based delivery is
    off. *)
Theorem ackack_delivers uninit decrypt C drift isn stream size slots R srtt rttvar first ops M now :
  Z.of_nat (length stream) <= 2 ^ 29 → new_receiver uninit size R → (1 < slots)%nat → Forall (win_ok decrypt isn stream) ops →
  let A := {| m_ACKWindow := CACKWindow_new slots; m_iSRTT := srtt; m_iRTTVar := rttvar; m_bIsFirstRTTReceived := first |} in
  ∃ outs A' R', win_run uninit decrypt C drift ops (A, setInitialRcvSeq (seqno isn) R) = Some (outs, (A', R')) ∧
  ∃ s R2 m rest, sendCtrlAck C M false now R' = Some (s, R2) ∧
    concat (reads outs) ++ rest = bytes_to isn stream m ∧
    ¬ was_stored decrypt isn stream outs m ∧ isn <= m ∧ (∀ y, isn <= y < m → was_stored decrypt isn stream outs y) ∧
    ∀ now n, 0 <= n →
      ∃ B, readBuffer (m_pRcvBuffer R2) now n = Some (len (take (Z.to_nat n) rest), take (Z.to_nat n) rest, B).
Proof.
  intros Hlen HR Hsl Hops A. destruct (new_rpath_ok isn stream uninit size R HR) as (_ & Hk & _).
  assert (window_ok isn A (setInitialRcvSeq (seqno isn) R) isn) as HW by (exists []; split; [by apply new_window|done]).
  destruct (win_stream_run decrypt isn stream uninit C size drift Hlen ops [] [] A _ isn (RcvSpec.new_stream uninit _ _ _ _ HR) HW Hops)
    as (outs & A' & R' & a & got & E & H & HA & Hgot).
  exists outs, A', R'. split; [done|]. by apply (RcvSpec.full_ack_delivers uninit decrypt C isn stream size R' a got outs M now).
Qed.

(** The receiver of [RcvSpec] with a window of four: ACKACKs of an ACK that was sent, of
    one that was not, and again. *)
Definition win_okb (op : win_op) : bool :=
  match op with
  | Call op => RcvSpec.demo_okb op && match op with Confirm _ | ReadMsg _ _ => false | _ => true end
  | AckAck _ _ _ _ => true
  end.
Lemma win_okb_ok ops : forallb win_okb ops = true → Forall (win_ok RcvSpec.demo_decrypt RcvSpec.demo_isn RcvSpec.demo_stream) ops.
Proof.
  intros H. apply Forall_forall. intros op Hop. apply list_elem_of_In in Hop. pose proof (proj1 (forallb_forall _ _) H op Hop) as Ho.
  destruct op as [op|]; [|done]. cbn [win_okb win_ok] in *. apply andb_true_iff in Ho as [Ho1 Ho2].
  split; [|by destruct op]. assert (Forall (op_ok RcvSpec.demo_decrypt RcvSpec.demo_isn RcvSpec.demo_stream) [op]) as HF
    by (apply RcvSpec.demo_ops_ok; cbn; by rewrite Ho1). by apply Forall_cons in HF as [? _].
Qed.
Definition demo_win_ops : list win_op :=
  [Call (RcvSpec.demo_arrive 0 2); Call (RcvSpec.demo_arrive 1 0); Call RcvSpec.demo_ack; AckAck 7 0 20100 20100; AckAck 1 0 20150 20150;
   Call (Read 100 2); Call (RcvSpec.demo_arrive 2 1); Call RcvSpec.demo_ack; AckAck 1 0 20200 20200; Call (Read 100 3);
   Call (RcvSpec.demo_arrive 1 3)].
Definition demo_acks : CUDT_acks := {| m_ACKWindow := CACKWindow_new 4; m_iSRTT := 100000; m_iRTTVar := 50000; m_bIsFirstRTTReceived := false |}.
Lemma ackack_delivers_witness :
  ∃ outs A' R', win_run RcvSpec.demo_blank RcvSpec.demo_decrypt RcvSpec.demo_config true demo_win_ops
      (demo_acks, setInitialRcvSeq (seqno RcvSpec.demo_isn) RcvSpec.demo_path) = Some (outs, (A', R')) ∧
  ∃ s R2 m rest, sendCtrlAck RcvSpec.demo_config RcvSpec.demo_measures false 40000 R' = Some (s, R2) ∧
    concat (reads outs) ++ rest = bytes_to RcvSpec.demo_isn RcvSpec.demo_stream m ∧
    ¬ was_stored RcvSpec.demo_decrypt RcvSpec.demo_isn RcvSpec.demo_stream outs m ∧ RcvSpec.demo_isn <= m ∧
    (∀ y, RcvSpec.demo_isn <= y < m → was_stored RcvSpec.demo_decrypt RcvSpec.demo_isn RcvSpec.demo_stream outs y) ∧
    ∀ now n, 0 <= n →
      ∃ B, readBuffer (m_pRcvBuffer R2) now n = Some (len (take (Z.to_nat n) rest), take (Z.to_nat n) rest, B).
Proof.
  apply (ackack_delivers RcvSpec.demo_blank RcvSpec.demo_decrypt RcvSpec.demo_config true RcvSpec.demo_isn RcvSpec.demo_stream 16 4 RcvSpec.demo_path
    100000 50000 false demo_win_ops).
  - vm_compute. discriminate.
  - exact RcvSpec.demo_path_new.
  - lia.
  - apply win_okb_ok. vm_compute. reflexivity.
Defined.
(** The round trip after these calls. *)
Example demo_round_trip :
  (λ r, (reads r.1, m_iSRTT r.2.1, m_iRTTVar r.2.1, m_iRcvLastAckAck r.2.2)) <$>
    win_run RcvSpec.demo_blank RcvSpec.demo_decrypt RcvSpec.demo_config true demo_win_ops
      (demo_acks, setInitialRcvSeq (seqno RcvSpec.demo_isn) RcvSpec.demo_path)
  = Some ([[1; 2]; [3; 4; 5]], 150, 75, 0x7FFFFFFF).
Proof. vm_compute. reflexivity. Qed.
